(* ===== verification/_CoqProject ===== *)
-Q . S2P
Prelude.v
Json.v
JsonFacts.v
Sha256.v
Kernel.v
ContractData.v
KernelSpec.v
PyDyn.v
Regex.v
Store.v
PgStore.v
StoreSpec.v
MemoryStore.v
PgRefine.v
StoreContract.v
StoreTheorems.v
Oidc.v
Contracts.v
ContractsFacts.v
ModelTypes.v
Channel.v
Gateway.v
GatewayTheorems.v
ModelServer.v
Compiler.v
CompilerTheorems.v
RuntimeStore.v
RuntimeTheorems.v
Checkpoint.v
Streams.v
PyCalendar.v
Api.v
Sse.v
ApiTheorems.v
Sanitizer.v
SanitizerFacts.v
Cipher.v
Buffer.v
TraceStore.v
TraceService.v
BufferBounds.v
Exporters.v
ExportersTheorems.v
Config.v
TraceServer.v
ExportPipeline.v
Experiment.v
ExperimentTheorems.v
PyFloat.v
Latency.v
Packet.v
Scoring.v
ScoringTheorems.v
PacketTheorems.v
Lab.v
LabTheorems.v
Matrix.v
MatrixTheorems.v
Thresholds.v
ThresholdsTheorems.v
PySet.v
DevContracts.v
DevSchemas.v
DevContractsTheorems.v
Reference.v
ReferenceTheorems.v
LiveAdapter.v
LiveAdapterTheorems.v
Baselines.v
GateMatrix.v
GateMatrixTheorems.v
Isolation.v
Collectors.v
IsolationTheorems.v
RunDirectory.v
RunDirectoryTheorems.v
Observer.v
ObserverTheorems.v
Probes.v
ProbesTheorems.v
