(* ===== verification/Prelude.v ===== *)
(** * FaultWitness: a verification library

    A model of the Python packages [src/faultwitness] and [src/faultwitness_dev],
    translated function by function, and the theorems that make it correct.
    FaultWitness diagnoses incidents of cloud services: a control API takes
    incidents, a kernel of compiled state machines decides every transition, a model
    gateway calls language models, and a trace service collects sanitized evidence.
    The evaluation tools beside it inject faults into a test system, build the public
    packet of each case, and score diagnoses against the sealed truth.

    ** The parts, and how they interact

    - Contracts.  [contracts/compiler.py] compiles the YAML sources into one
      resource (Compiler, CompilerTheorems); [contracts/models.py] is the set of
      strict boundary models every document passes (Contracts, ContractsFacts).
      ContractData is the state-machine part of the generated resource.
    - State.  [state/kernel.py] interprets the resource (Kernel, KernelSpec);
      [persistence/postgres.py] applies its decisions durably with inbox, outbox,
      leases and checkpoints (RuntimeStore, RuntimeTheorems);
      [runtime/checkpoint.py] seals checkpoints (Checkpoint) and
      [runtime/streams.py] carries events over Redis (Streams).
    - Control API.  [api/app.py] (Api, and Sse for the event stream) authenticates
      through [identity/oidc.py] (Oidc) and calls an incident store: the memory
      reference [api/store.py] (Store, MemoryStore) or [api/postgres_store.py]
      (PgStore, PgRefine).  StoreSpec is the contract of both, StoreContract the
      interface [IncidentStore] the API is verified against, StoreTheorems and
      ApiTheorems the consequences.
    - Models.  [models/types.py] and [catalog.py] (ModelTypes), [channel.py]
      (Channel), [gateway.py] (Gateway, GatewayTheorems), [server.py]
      (ModelServer).
    - Traces.  [observability/server.py] receives an envelope (TraceServer), which
      [sanitizer.py] turns into a trace that may be kept (Sanitizer,
      SanitizerFacts); [buffer.py] seals and queues it (Cipher, Buffer,
      BufferBounds; TraceStore is the interface of its two buffers); [service.py]
      drains the queue (TraceService) into the exporters of [exporters.py]
      (Exporters, ExportersTheorems).  ExportPipeline plugs the service and the
      exporters together; Latency is [reconcile_wall_time].
    - Config: the database URLs of [api/server.py] and [observability/server.py].
    - Evaluation ([faultwitness_dev]).  [experiment.py] is the cached runner and the
      trial journal (Experiment, ExperimentTheorems).  [g02_lab.py] injects a fault
      into the flag document of a test system and restores it (Lab, LabTheorems);
      [run_gate_scenario_matrix] of [g02_lab.py] and [replay_all_scenarios_v3] of
      [g03_readiness.py] run its scenarios under the journal (Matrix,
      MatrixTheorems).  From [g03_readiness.py], Packet builds and validates the
      public packets, Scoring holds the sealed truths, the dataset, the
      presence-only probe and the scorer (PacketTheorems, ScoringTheorems), and
      Thresholds the deterministic baseline (ThresholdsTheorems).  Reference is the
      reference run: the matrix of the deterministic baseline, the live trials under
      the journal, the bootstraps and the verdict (ReferenceTheorems); LiveAdapter is
      what asks the model, turn by turn, and the preflight of its requests
      (LiveAdapterTheorems).  [g02_baselines.py] is the previous generation of packets,
      baselines and scorers (Baselines) and the matrix of its gate, deterministic and
      live (GateMatrix; GateMatrixTheorems for both).  [g02_isolation.py] checks the
      isolation of the laboratory (Isolation) and
      [g02_collectors.py] proves it live, under the journal (Collectors,
      IsolationTheorems).  RunDirectory is the directory of a readiness run and what
      identifies it, with [provenance.py] and the bootstrap checks of [g02_lab.py]
      (RunDirectoryTheorems).  Observer is what the scenarios of Lab and Matrix run
      against when the system is live: the remote flag client, the observers of
      [g02_lab.py] and their polling, with injection outside a scenario, the staged
      images and the replay of the resource cases (ObserverTheorems).  [g03_leakage_probe.py], [g03_separability.py] and
      [g03_cascade.py] question the dataset itself (Probes, ProbesTheorems).
    - Repository checks ([faultwitness_dev]).  [contracts.py] checks the sources of
      the contracts before they are compiled (DevContracts; DevContractsTheorems
      reads the kernel of a checked document) and [schemas.py] the requirements,
      the architecture and the decisions (DevSchemas, DevContractsTheorems), over the
      sets of dynamic values of PySet.

    Below them, Python and its standard library: Json and JsonFacts (dynamic values
    and their JSON text), PyDyn (text, and operations on values), PyFloat (binary
    doubles, their shortest decimal text, parsing and comparison), PyCalendar
    (datetimes), Sha256 (with HMAC and UTF-8), Regex ([re] as a backtracking matcher
    with its declarative relation, and URLs).  This file holds what all share: the
    [result] of fallible code, the monad [SE] of operations with state and
    exceptions, strings, sorting, maps, and the tactics [res_inv] and [bool_prop] with
    the hint database [fw].

    ** Conventions

    A record has the fields of its dataclass or table, an inductive type the members
    of its enumeration, a function the checks of its method in source order.  Code
    that raises returns [result E A]; code that also changes an object is an [SE]
    program, whose state survives an exception unless a transaction rolls it back.
    A call made under a lock, or one SQL transaction, is one step; what interleaves
    is a step relation (Sse, TraceService, RuntimeTheorems) and its theorems hold of
    every reachable state.  Integers are unbounded, as in Python; the doubles of
    OTLP times, of Latency and of the evaluation tools are rounded operation by
    operation, to 53 bits with an unbounded exponent: no overflow, no subnormals.

    Text is the Latin-1 range of code points, one [ascii] each.  A float read from
    JSON is kept as the text of its literal.  A datetime in UTC is its microseconds
    since 1970.  Random identifiers and clock readings are arguments.

    Code outside the package is an argument of the definitions that use it, with
    what is relied on as hypotheses or as the laws of a class: [httpx] (what a
    request answers), LangSmith ([LangSmithService], [LangSmithUp]), the AES-GCM
    primitive (decryption inverts encryption), the JWT and JWKS library,
    [jsonschema], the datetime parser of [pydantic], the node composer of PyYAML,
    the Redis client, the order in which PostgreSQL returns unlocked rows; for the
    evaluation tools the executor of a unit, the client of the flag document and the
    observers of the test system, the draws of a seeded generator, the provider of a
    model, the validator of the repository's schemas, git, the YAML reader, the links
    of the file system, the remote shell, the credential service and
    the relay ([testbed], [readiness_bed]; what a truthful one answers is
    [TruthfulTestbed] and [TruthfulBed]).  The live observer is such a test bed over a
    [remote]: what a script answers, two clocks and a sleep.  Of those [TruthfulRemote]
    says that a read tells the flags and only a write changes them, and [SteadyClock] that
    the clock never goes back; [live_bed_truthful] makes the first the [TruthfulBed] that a
    scenario relies on.  Each such theorem among the properties has a witness with a
    concrete instance.

    ** What is shown

    - Incident stores: both refine one specification
      ([memory_store_refines_contract], [postgres_store_refines_contract]); from
      the interface alone, a repeated write answers once, tenants do not interfere,
      an approval is used once, and history only grows.
    - Control API: authentication fails closed, handlers call the store as the
      principal, every store error is answered by its status; an event stream loses
      nothing and catches up.
    - Kernel: for any accepted contract, [decide] accepts exactly the admissible
      transitions and names the reason of each rejection; for the shipped contract,
      an action is executed only when authorized and dispatched at most once, and a
      terminal state stays reachable ([terminal_always_reachable]).
    - Durable runtime: under any interleaving of transactions a command is applied
      once and only the holder of a current lease writes checkpoints.
    - Contracts: an accepted document hides no private reasoning and survives its
      own dump; a compiled resource decodes to what was compiled.
    - Models: effort is bounded, answers conform to the schema asked for, only
      clean requests leave, a stream changes channel only before its first output,
      and only operators are served.
    - Traces: an accepted trace is a completed tree that shows only keyed references
      and harmless allow-listed values; an answer 202 means it is sanitized and
      stored; no accepted trace is lost, none is marked delivered before it was
      exported; what the drain loop settles as exported to LangSmith is stored
      there; uncertain exports converge once LangSmith answers; OTLP spans keep
      parents and times; the archive is content-addressed; the durable buffer is
      bounded.
    - Evaluation tools: a unit passes only on current passes of its inputs and a rerun
      executes nothing; a scenario ends with the flag document it found or with an
      error that reports the quarantine; a replay that passed is reused; every pair of
      complete windows becomes a packet that validates, and packets have one
      presence signature; the scorer rewards exactly the supported diagnoses; a case
      has no say in its own thresholds; a live trial keeps within its turns and
      budgets, which its preflight bounds; the arms of an accepted matrix compare; the
      third scorer only tightens the second; packets of the second version show no
      derived field; the truths of a family are consistent.
    - Isolation and runs: a principal acts exactly where a rule allows it and none
      denies it; an access matrix that passed proves its sixty cells and is never
      asked again; an accepted output directory is active, an inheritance takes the
      passing trials and only those, a run is resumed only as it was frozen and on any
      host; equal digests of sources are of equal files; recording a run again
      replaces its entry.
    - Live observation: every wait ends, and as it is computed; a live scenario restores
      the flags or reports ([live_readiness_restores_or_reports]); a fault window rests on
      a complete sample and is active or late; a healthy control freezes the baseline;
      what is injected outside a scenario is recorded first and restored exactly; images
      are staged once and pinned; a replay of the resource cases keeps the others.
    - Probes: the thresholds are those of the metric, the rules are those of the
      classifiers they stand for, no classifier reads the label it predicts, scores
      add up, and a negative verdict rests on a case that could have answered.
    - Repository checks: a state machine that passes them is live in the kernel that
      loads it, and the paths they require bind what the kernel decides; every state
      of an accepted architecture has one writer.

    ** Fuel

    [Sanitizer.walk] may visit as many parents as there are spans
    ([sanitize_rejects_or_key_error]: it never runs out).  The loops of the gateway
    have one unit for each retry and repair left ([complete_effort_is_bounded]: no
    run ends in [LoopFuel]).  The JSON parser has one unit for each character of the
    text ([loads_dumps]: it is enough for what is printed).  [Exporters.visit] has
    the frames the interpreter's recursion limit leaves: running out of them is the
    [RecursionError] of the code.  [Experiment.unit_cache_key] and [close_downstream]
    have one unit for each unit of the graph, whose dependencies are acyclic once it is
    validated; [PyFloat.shortest_from] tries the seventeen digits that always suffice.
    A polling loop of the observer has [tries]: one for its start and one for each pause
    of five seconds up to its deadline ([every_wait_ends]: the loop of the source, without
    a bound, ends so, since a pause takes its time).

    ** Not modelled

    The wiring of processes: application start and stop, the construction of
    clients and pools, the Base64 decoding of configured keys, FastAPI's routing and
    the parsing of request bodies in the control API.  Of the standard library only
    what is used of it: [fromisoformat] on the texts [isoformat] writes for UTC,
    [urlparse] without the checks of bracketed hosts.

    Of [src/faultwitness_dev], what talks to a cluster, a shell, git or the file
    system: the deployment tools, the texts of the remote scripts, the manifests and
    the relays of images of the laboratory, what [run_retest_baselines_v3] writes into its manifests and
    summaries, the constant texts of the probes' reports, the first experiments of G01,
    the command line.  [deploy] and [tools] are scripts of that kind. *)
From Stdlib Require Export ZArith Lia Bool Sorted.
From stdpp Require Export base tactics option list strings gmap sets.

#[export] Set Default Goal Selector "!".

(** ** Results of fallible code

    A Python function that raises is a function into [result E A]: [Ok a] is a
    normal return and [Err e] the exception that propagates.  [E] is the
    exception hierarchy of the component. *)
Inductive result (E A : Type) : Type :=
| Ok (a : A)
| Err (e : E).
Arguments Ok {E A} a.
Arguments Err {E A} e.

#[export] Instance result_eq_dec {E A} `{EqDecision E, EqDecision A} :
  EqDecision (result E A).
Proof. solve_decision. Defined.

Definition rbind {E A B} (c : result E A) (k : A → result E B) : result E B :=
  match c with Ok a => k a | Err e => Err e end.

Definition rmap {E A B} (f : A → B) (c : result E A) : result E B :=
  rbind c (λ a, Ok (f a)).

(** [try ... except X as e: raise Y from e] re-labels the exception. *)
Definition rmap_err {E F A} (f : E → F) (c : result E A) : result F A :=
  match c with Ok a => Ok a | Err e => Err (f e) end.

(** The value found, or the given exception ([KeyError] and its relabellings). *)
Definition from_option_or {E A} (e : E) (o : option A) : result E A :=
  match o with Some a => Ok a | None => Err e end.

Definition is_ok {E A} (c : result E A) : bool :=
  match c with Ok _ => true | Err _ => false end.

Declare Scope res_scope.
Delimit Scope res_scope with res.
Notation "'let*' p ':=' c 'in' k" := (rbind c (λ p, k))
  (at level 10, p pattern, c at level 99, k at level 200,
   format "'[v' 'let*'  p  ':='  c  'in' '/' k ']'") : res_scope.
Notation "'raise_if' b 'with_' e ';;' k" := (if b then Err e else k)
  (at level 10, b at level 99, e at level 99, k at level 200,
   format "'[v' 'raise_if'  b  'with_'  e  ';;' '/' k ']'") : res_scope.
Open Scope res_scope.

Lemma Ok_inj {E A} (a b : A) : @Ok E A a = Ok b → a = b.
Proof. by intros [= ->]. Qed.

Lemma Err_inj {E A} (a b : E) : @Err E A a = Err b → a = b.
Proof. by intros [= ->]. Qed.

(** A loop that may raise: [for x in xs: acc = step(acc, x)]. *)
Fixpoint rfold {E S A} (step : S → A → result E S) (xs : list A) (s : S) : result E S :=
  match xs with
  | [] => Ok s
  | x :: rest => let* s' := step s x in rfold step rest s'
  end.

(** A comprehension that may raise: [[f(x) for x in xs]]. *)
Fixpoint rmapM {E A B} (f : A → result E B) (xs : list A) : result E (list B) :=
  match xs with
  | [] => Ok []
  | x :: rest => let* y := f x in let* ys := rmapM f rest in Ok (y :: ys)
  end.

(** ** Tactics *)

(** Invert the successful run of a monadic program in hypothesis [H], one
    statement at a time. *)
Ltac res_step :=
  match goal with
  | H : Ok _ = Err _ |- _ => discriminate H
  | H : Err _ = Ok _ |- _ => discriminate H
  | H : Ok _ = Ok _ |- _ => apply Ok_inj in H
  | H : Err _ = Err _ |- _ => apply Err_inj in H
  | H : (_, _) = (_, _) |- _ => apply pair_eq in H as [? ?]
  | H : ?x = _ |- _ => is_var x; subst x
  | H : _ = ?x |- _ => is_var x; subst x
  | H : rbind ?c _ = Ok _ |- _ =>
      let E := fresh "E" in
      destruct c eqn:E; cbn [rbind] in H; [|discriminate H]
  | H : rmap _ ?c = Ok _ |- _ =>
      let E := fresh "E" in
      unfold rmap in H; destruct c eqn:E; cbn [rbind] in H; [|discriminate H]
  | H : rmap_err _ ?c = Ok _ |- _ =>
      let E := fresh "E" in
      destruct c eqn:E; cbn [rmap_err] in H; [|discriminate H]
  | H : from_option_or _ ?o = Ok _ |- _ =>
      let E := fresh "E" in
      destruct o eqn:E; cbn [from_option_or] in H; [|discriminate H]
  | H : (if ?b then Err _ else _) = Ok _ |- _ =>
      let E := fresh "E" in
      destruct b eqn:E; [discriminate H|]
  | H : (if ?b then _ else Err _) = Ok _ |- _ =>
      let E := fresh "E" in
      destruct b eqn:E; [|discriminate H]
  end.
Ltac res_inv := repeat res_step.

(** Turn boolean facts into propositions. *)
Ltac bool_prop :=
  repeat match goal with
  | H : negb _ = true |- _ => apply negb_true_iff in H
  | H : negb _ = false |- _ => apply negb_false_iff in H
  | H : (_ && _)%bool = true |- _ => apply andb_true_iff in H as [? ?]
  | H : (_ || _)%bool = false |- _ => apply orb_false_iff in H as [? ?]
  | H : bool_decide _ = true |- _ => apply bool_decide_eq_true in H
  | H : bool_decide _ = false |- _ => apply bool_decide_eq_false in H
  | H : String.eqb _ _ = true |- _ => apply String.eqb_eq in H
  | H : String.eqb _ _ = false |- _ => apply String.eqb_neq in H
  | H : Z.eqb _ _ = true |- _ => apply Z.eqb_eq in H
  | H : Z.eqb _ _ = false |- _ => apply Z.eqb_neq in H
  | H : Z.ltb _ _ = true |- _ => apply Z.ltb_lt in H
  | H : Z.ltb _ _ = false |- _ => apply Z.ltb_ge in H
  | H : Z.leb _ _ = true |- _ => apply Z.leb_le in H
  | H : Z.leb _ _ = false |- _ => apply Z.leb_gt in H
  end.

(** ** Lemmas on the monad *)
Lemma rbind_ok {E A B} (c : result E A) (k : A → result E B) b :
  rbind c k = Ok b ↔ ∃ a, c = Ok a ∧ k a = Ok b.
Proof.
  destruct c as [a|e]; simpl; split.
  - eauto.
  - intros (a' & H & ?). by apply Ok_inj in H as ->.
  - done.
  - by intros (? & ? & ?).
Qed.

Lemma rbind_err {E A B} (c : result E A) (k : A → result E B) e :
  rbind c k = Err e ↔ c = Err e ∨ ∃ a, c = Ok a ∧ k a = Err e.
Proof.
  destruct c as [a|e']; simpl; split.
  - eauto.
  - intros [?|(a' & H & ?)]; [done|]. by apply Ok_inj in H as ->.
  - intros H. apply Err_inj in H as ->. by left.
  - intros [H|(? & ? & ?)]; [|done]. by apply Err_inj in H as ->.
Qed.

Lemma from_option_or_ok {E A} (e : E) (o : option A) a :
  from_option_or e o = Ok a ↔ o = Some a.
Proof. destruct o; simpl; split; congruence. Qed.

Section Monad.
Context {E A B S : Type}.

Lemma rfold_app (f : S → A → result E S) xs ys s :
  rfold f (xs ++ ys) s = rbind (rfold f xs s) (rfold f ys).
Proof. revert s; induction xs as [|x xs IH]; intros s; simpl; [done|].
  destruct (f s x); simpl; auto. Qed.

(** An invariant of the body is an invariant of the loop. *)
Lemma rfold_invariant (P : S → Prop) (f : S → A → result E S) xs s s' :
  (∀ s x s', x ∈ xs → P s → f s x = Ok s' → P s') →
  P s → rfold f xs s = Ok s' → P s'.
Proof.
  revert s; induction xs as [|x xs IH]; simpl; intros s Hstep HP H.
  - by injection H as <-.
  - res_inv. eapply IH; [|eapply Hstep; [left|exact HP|eassumption]|done].
    intros ????. apply Hstep. by right.
Qed.

Lemma rmapM_ok (f : A → result E B) xs ys :
  rmapM f xs = Ok ys ↔ Forall2 (λ x y, f x = Ok y) xs ys.
Proof.
  revert ys; induction xs as [|x xs IH]; simpl; intros ys.
  - split; [intros [= <-]; constructor | by intros ->%Forall2_nil_inv_l].
  - rewrite rbind_ok. split.
    + intros (y & Hy & H). res_inv. constructor; [done|]. by apply IH.
    + intros (y & ys' & Hy & Hys & ->)%Forall2_cons_inv_l.
      exists y. split; [done|]. apply IH in Hys. by rewrite Hys.
Qed.

Lemma rmapM_length (f : A → result E B) xs ys :
  rmapM f xs = Ok ys → length ys = length xs.
Proof. intros H%rmapM_ok. symmetry. by eapply Forall2_length. Qed.
End Monad.

(** ** Strings *)

(** [bool(s)] of a Python string. *)
Definition truthy (s : string) : bool := bool_decide (s ≠ "").

Definition str_len (s : string) : Z := Z.of_nat (String.length s).

(** [sep.join(parts)] *)
Fixpoint str_join (sep : string) (parts : list string) : string :=
  match parts with
  | [] => ""
  | [p] => p
  | p :: rest => p +:+ sep +:+ str_join sep rest
  end.

(** [s.startswith(p)] *)
Fixpoint startswith (s p : string) {struct p} : bool :=
  match p, s with
  | "", _ => true
  | String a p', String b s' => Ascii.eqb a b && startswith s' p'
  | _, "" => false
  end.

(** [s[n:]] for a non-negative [n]. *)
Fixpoint str_drop (n : nat) (s : string) : string :=
  match n, s with
  | S n', String _ s' => str_drop n' s'
  | _, _ => s
  end.

(** [s[:n]] for a non-negative [n]. *)
Fixpoint str_take (n : nat) (s : string) : string :=
  match n, s with
  | S n', String a s' => String a (str_take n' s')
  | _, _ => ""
  end.

(** A method of [str] that maps each character. *)
Fixpoint str_map (f : Ascii.ascii → Ascii.ascii) (s : string) : string :=
  match s with "" => "" | String c s' => String (f c) (str_map f s') end.

(** [all(p(c) for c in s)] *)
Fixpoint str_all (p : Ascii.ascii → bool) (s : string) : bool :=
  match s with
  | "" => true
  | String a s' => p a && str_all p s'
  end.

Lemma app_nil_str t : "" +:+ t = t.
Proof. done. Qed.

Lemma app_cons_str a s t : String a s +:+ t = String a (s +:+ t).
Proof. done. Qed.

Lemma string_app_nil_r s : s +:+ "" = s.
Proof. induction s as [|a s IH]; [done|]. by rewrite app_cons_str, IH. Qed.

Lemma string_app_assoc a b c : a +:+ (b +:+ c) = (a +:+ b) +:+ c.
Proof. induction a as [|x a IH]; [done|]. by rewrite !app_cons_str, IH. Qed.

Lemma string_app_length a b :
  String.length (a +:+ b) = (String.length a + String.length b)%nat.
Proof. induction a as [|x a IH]; [done|]. rewrite app_cons_str. simpl. by rewrite IH. Qed.

Lemma string_app_inj_len a b c d :
  String.length a = String.length b → a +:+ c = b +:+ d → a = b ∧ c = d.
Proof.
  revert b; induction a as [|x a IH]; intros [|y b]; try done.
  rewrite !app_cons_str. intros [= Hl] [= -> H]. by destruct (IH b Hl H) as [-> ->].
Qed.

Lemma str_drop_app a b : str_drop (String.length a) (a +:+ b) = b.
Proof. induction a as [|x a IH]; [done|]. by rewrite app_cons_str. Qed.

Lemma startswith_app p s : startswith (p +:+ s) p = true.
Proof.
  induction p as [|a p IH]; [by destruct s|].
  rewrite app_cons_str. simpl. by rewrite Ascii.eqb_refl.
Qed.

Lemma str_all_app p s t : str_all p (s +:+ t) = str_all p s && str_all p t.
Proof.
  induction s as [|a s IH]; [done|]. rewrite app_cons_str. simpl.
  by rewrite IH, andb_assoc.
Qed.

#[export] Set Warnings "-implicit-create-rewrite-hint-db,-clear-no-such-hyp".
Create HintDb fw.
#[export] Hint Rewrite app_nil_str app_cons_str string_app_nil_r string_app_length
  str_all_app : fw.
#[export] Hint Rewrite bool_decide_eq_true bool_decide_eq_false : fw.

(** ** [sorted(xs, key=...)]

    Python's sort is stable; insertion sort with a boolean order is the same
    function. *)
Section Sorting.
Context {A : Type} (le : A → A → bool).

Fixpoint insert_by (x : A) (l : list A) : list A :=
  match l with
  | [] => [x]
  | y :: l' => if le x y then x :: l else y :: insert_by x l'
  end.

Fixpoint sort_by (l : list A) : list A :=
  match l with
  | [] => []
  | x :: l' => insert_by x (sort_by l')
  end.

Lemma insert_by_perm x l : insert_by x l ≡ₚ x :: l.
Proof.
  induction l as [|y l IH]; simpl; [done|].
  destruct (le x y); [done|]. by rewrite IH, Permutation_swap.
Qed.

Lemma sort_by_perm l : sort_by l ≡ₚ l.
Proof. induction l as [|x l IH]; simpl; [done|]. by rewrite insert_by_perm, IH. Qed.

Lemma sort_by_elem x l : x ∈ sort_by l ↔ x ∈ l.
Proof. by rewrite sort_by_perm. Qed.

Lemma sort_by_length l : length (sort_by l) = length l.
Proof. by rewrite sort_by_perm. Qed.

Lemma sort_by_id l :
  StronglySorted (λ x y, le x y = true) l → sort_by l = l.
Proof.
  induction 1 as [|x l Hs IH Hall]; simpl; [done|]. rewrite IH.
  destruct l as [|y l]; simpl; [done|].
  apply Forall_cons in Hall as [-> _]. done.
Qed.

Hypothesis le_total : ∀ x y, le x y = true ∨ le y x = true.
Hypothesis le_trans : ∀ x y z, le x y = true → le y z = true → le x z = true.

Lemma insert_by_sorted x l :
  StronglySorted (λ x y, le x y = true) l →
  StronglySorted (λ x y, le x y = true) (insert_by x l).
Proof using le_total le_trans.
  induction 1 as [|y l Hs IH Hall]; simpl; [by repeat constructor|].
  destruct (le x y) eqn:E.
  - repeat constructor; auto. eapply Forall_impl; [exact Hall|]. simpl. eauto.
  - constructor; [done|]. rewrite insert_by_perm. constructor; [|done].
    destruct (le_total x y); congruence.
Qed.

Lemma sort_by_sorted l : StronglySorted (λ x y, le x y = true) (sort_by l).
Proof using le_total le_trans.
  induction l; simpl; [constructor|]. by apply insert_by_sorted.
Qed.
End Sorting.

(** Sorting by a key commutes with a map that keeps the key. *)
Lemma insert_by_map {A B} (le : A → A → bool) (le' : B → B → bool) (f : A → B) x l :
  (∀ x y, le' (f x) (f y) = le x y) →
  insert_by le' (f x) (f <$> l) = f <$> insert_by le x l.
Proof.
  intros Hf. induction l as [|y l IH]; [done|]. cbn. rewrite Hf.
  destruct (le x y); [done|]. cbn. f_equal. apply IH.
Qed.

Lemma sort_by_map {A B} (le : A → A → bool) (le' : B → B → bool) (f : A → B) l :
  (∀ x y, le' (f x) (f y) = le x y) → sort_by le' (f <$> l) = f <$> sort_by le l.
Proof.
  intros Hf. induction l as [|x l IH]; [done|]. cbn.
  rewrite <-insert_by_map with (le' := le') by done. by rewrite <-IH.
Qed.

(** Sorting strings, and pairs by their string key. *)
Definition str_le (a b : string) : bool := String.leb a b.
Definition sort_strings : list string → list string := sort_by str_le.
Definition sort_keys {A} : list (string * A) → list (string * A) :=
  sort_by (λ x y, str_le x.1 y.1).

Lemma str_le_total a b : str_le a b = true ∨ str_le b a = true.
Proof. apply String.leb_total. Qed.

Lemma str_le_trans a b c : str_le a b = true → str_le b c = true → str_le a c = true.
Proof.
  intros H1 H2. apply Is_true_true. apply Is_true_true in H1, H2.
  exact (transitivity (R:=String.le) H1 H2).
Qed.

Lemma str_le_antisym a b : str_le a b = true → str_le b a = true → a = b.
Proof. apply String.leb_antisym. Qed.

Lemma sort_keys_idem {A} (kvs : list (string * A)) : sort_keys (sort_keys kvs) = sort_keys kvs.
Proof.
  apply sort_by_id, sort_by_sorted.
  - intros x y. apply str_le_total.
  - intros x y z. apply str_le_trans.
Qed.

Lemma sort_keys_perm {A} (kvs : list (string * A)) : sort_keys kvs ≡ₚ kvs.
Proof. apply sort_by_perm. Qed.

Lemma sort_strings_elem x l : x ∈ sort_strings l ↔ x ∈ l.
Proof. apply sort_by_elem. Qed.

(** [xs - ys] is empty exactly when [xs <= ys]. *)
Lemma gset_diff_empty {A} `{Countable A} (X Y : gset A) : X ∖ Y = ∅ → X ⊆ Y.
Proof.
  intros HXY x Hx. destruct (decide (x ∈ Y)); [done|].
  assert (x ∈ X ∖ Y) as Hin by by apply elem_of_difference.
  rewrite HXY in Hin. by apply elem_of_empty in Hin.
Qed.

Lemma filter_nil_iff {A} (P : A → Prop) `{∀ x, Decision (P x)} (l : list A) :
  filter P l = [] ↔ ∀ x, x ∈ l → ¬ P x.
Proof.
  split.
  - intros Hl x Hx HP. by eapply filter_nil_not_elem_of.
  - intros Hl. destruct (filter P l) as [|x l'] eqn:E; [done|].
    assert (x ∈ filter P l) as [HP Hin]%list_elem_of_filter by (rewrite E; left).
    by destruct (Hl x Hin).
Qed.

(** The keys of [m] outside [X] and the elements of [X] that are no key of [m]:
    [set(m) - X] and [X - set(m)], listed. *)
Definition keys_outside `{Countable K} {A} (m : gmap K A) (X : gset K) : list K :=
  filter (λ k, k ∉ X) (map_to_list m).*1.
Definition absent_keys `{Countable K} {A} (X : gset K) (m : gmap K A) : list K :=
  filter (λ k, m !! k = None) (elements X).

Lemma keys_outside_nil `{Countable K} {A} (m : gmap K A) (X : gset K) :
  keys_outside m X = [] ↔ dom m ⊆ X.
Proof.
  unfold keys_outside. rewrite filter_nil_iff. split.
  - intros H' k [x Hx]%elem_of_dom. apply dec_stable, H', list_elem_of_fmap.
    exists (k, x). split; [done|]. by apply elem_of_map_to_list.
  - intros HX k ([k' x] & -> & Hin)%list_elem_of_fmap Hk. simpl in *.
    apply Hk, HX, elem_of_dom. exists x. by apply elem_of_map_to_list.
Qed.

Lemma absent_keys_nil `{Countable K} {A} (X : gset K) (m : gmap K A) :
  absent_keys X m = [] ↔ X ⊆ dom m.
Proof.
  unfold absent_keys. rewrite filter_nil_iff.
  split; intros H' k Hk.
  - apply elem_of_dom, not_eq_None_Some, H'. by apply elem_of_elements.
  - apply not_eq_None_Some, elem_of_dom, H'. by apply elem_of_elements.
Qed.

(** [xs <= ys] on sets, tested element by element. *)
Definition subset_of `{Countable K} (X Y : gset K) : bool :=
  forallb (λ x, bool_decide (x ∈ Y)) (elements X).

Lemma subset_of_true `{Countable K} (X Y : gset K) : subset_of X Y = true ↔ X ⊆ Y.
Proof.
  unfold subset_of. rewrite forallb_forall. split; intros H' k Hk.
  - apply elem_of_elements, list_elem_of_In, H' in Hk. by bool_prop.
  - apply bool_decide_eq_true, H'. by apply elem_of_elements, list_elem_of_In.
Qed.

(** [s.add(x)] and [s.update(xs)] on sets, as insertions. *)
Definition set_add `{Countable K} (x : K) (X : gset K) : gset K :=
  mapset.Mapset (<[x := ()]> (mapset.mapset_car X)).
Definition set_update `{Countable K} (xs : list K) (X : gset K) : gset K :=
  foldr set_add X xs.

Lemma set_add_union `{Countable K} (x : K) (X : gset K) : set_add x X = X ∪ {[x]}.
Proof.
  apply set_eq. intros y. rewrite elem_of_union, elem_of_singleton.
  unfold elem_of, gset_elem_of, mapset.mapset_elem_of, set_add. simpl.
  rewrite lookup_insert. case_decide; subst; naive_solver.
Qed.

Lemma set_update_union `{Countable K} (xs : list K) (X : gset K) :
  set_update xs X = X ∪ list_to_set xs.
Proof.
  unfold set_update. induction xs as [|x xs IH]; simpl; [by rewrite (right_id_L ∅ (∪))|].
  rewrite set_add_union, IH. set_solver.
Qed.

(** ** Operations with state and exceptions

    A Python method that mutates an object and may raise is a function
    [S → result E A * S]: the state after the call is returned whether or not
    the call raised, because Python does not undo what was done before the
    exception.  [atomically] is the exception: a SQL transaction that raises is
    rolled back. *)

Definition SE (S E A : Type) : Type := S → result E A * S.

Section Monad.
Context {S E : Type}.

Definition sret {A} (a : A) : SE S E A := λ s, (Ok a, s).
Definition sraise {A} (e : E) : SE S E A := λ s, (Err e, s).
Definition sbind {A B} (m : SE S E A) (k : A → SE S E B) : SE S E B := λ s,
  match m s with
  | (Ok a, s') => k a s'
  | (Err e, s') => (Err e, s')
  end.
Definition sget : SE S E S := λ s, (Ok s, s).
Definition smodify (f : S → S) : SE S E unit := λ s, (Ok tt, f s).
Definition slift {A} (r : result E A) : SE S E A := λ s, (r, s).
Definition sguard (bad : bool) (e : E) : SE S E unit := λ s, (if bad then Err e else Ok tt, s).

(** A transaction: the state survives only if the body returns. *)
Definition atomically {A} (m : SE S E A) : SE S E A := λ s,
  match m s with
  | (Ok a, s') => (Ok a, s')
  | (Err e, _) => (Err e, s)
  end.

(** [try ... except E as e: raise F(e) from e] *)
Definition scatch {A} (m : SE S E A) (h : E → SE S E A) : SE S E A := λ s,
  match m s with
  | (Ok a, s') => (Ok a, s')
  | (Err e, s') => h e s'
  end.

Fixpoint sfor {A} (xs : list A) (body : A → SE S E unit) : SE S E unit :=
  match xs with
  | [] => sret tt
  | x :: rest => sbind (body x) (λ _, sfor rest body)
  end.
End Monad.

Declare Scope st_scope.
Delimit Scope st_scope with st.
Notation "'let!' p ':=' c 'in' k" := (sbind c (λ p, k))
  (at level 10, p pattern, c at level 99, k at level 200,
   format "'[v' 'let!'  p  ':='  c  'in' '/' k ']'") : st_scope.
Notation "c1 ';;;' c2" := (sbind c1 (λ _, c2))
  (at level 100, right associativity, format "'[v' c1 ';;;' '/' c2 ']'") : st_scope.
Open Scope st_scope.

Section Facts.
Context {S E : Type}.

Lemma sbind_ok {A B} (m : SE S E A) (k : A → SE S E B) s b s' :
  sbind m k s = (Ok b, s') ↔ ∃ a s1, m s = (Ok a, s1) ∧ k a s1 = (Ok b, s').
Proof.
  unfold sbind. destruct (m s) as [[a|e] s1]; split; try naive_solver.
Qed.

Lemma atomically_err {A} (m : SE S E A) s e s' :
  atomically m s = (Err e, s') → s' = s.
Proof. unfold atomically. destruct (m s) as [[a|e'] s1]; congruence. Qed.

Lemma atomically_ok {A} (m : SE S E A) s a s' :
  atomically m s = (Ok a, s') ↔ m s = (Ok a, s').
Proof. unfold atomically. destruct (m s) as [[a'|e'] s1]; split; congruence. Qed.

(** What every body preserves, a sequence preserves. *)
Definition keeps {A} (P : S → Prop) (m : SE S E A) : Prop := ∀ s, P s → P (m s).2.

Lemma keeps_ret {A} P (a : A) : keeps P (sret a).
Proof. by intros s. Qed.
Lemma keeps_raise {A} P (e : E) : keeps (A:=A) P (sraise e).
Proof. by intros s. Qed.
Lemma keeps_get P : keeps P sget.
Proof. by intros s. Qed.
Lemma keeps_lift {A} P (r : result E A) : keeps P (slift r).
Proof. by intros s. Qed.
Lemma keeps_guard P b e : keeps P (sguard b e).
Proof. by intros s. Qed.
Lemma keeps_modify P f : (∀ s, P s → P (f s)) → keeps P (smodify f).
Proof. by intros Hf s ?; apply Hf. Qed.
Lemma keeps_bind {A B} P (m : SE S E A) (k : A → SE S E B) :
  keeps P m → (∀ a, keeps P (k a)) → keeps P (sbind m k).
Proof.
  intros Hm Hk s Hs. specialize (Hm s Hs). unfold sbind.
  destruct (m s) as [[a|e] s1]; simpl in *; [by apply Hk|done].
Qed.
Lemma keeps_atomically {A} P (m : SE S E A) : keeps P m → keeps P (atomically m).
Proof.
  intros Hm s Hs. specialize (Hm s Hs). unfold atomically.
  by destruct (m s) as [[a|e] s1].
Qed.
Lemma keeps_for {A} P (xs : list A) body :
  (∀ x, x ∈ xs → keeps P (body x)) → keeps P (sfor xs body).
Proof.
  induction xs as [|x xs IH]; intros Hb; simpl; [apply keeps_ret|].
  apply keeps_bind; [apply Hb; left|]. intros _. apply IH. intros y Hy. apply Hb. by right.
Qed.
End Facts.

#[export] Hint Resolve keeps_ret keeps_raise keeps_get keeps_lift keeps_guard : fw.

Lemma sum_list_perm l k : l ≡ₚ k → sum_list l = sum_list k.
Proof. induction 1 as [|x l k _ IH|x y l|l k m _ IH _ IH']; cbn in *; [done|lia|lia|by rewrite IH]. Qed.

Lemma alter_some `{Countable K} {A} (f : A → A) (m : gmap K A) k x :
  m !! k = Some x → alter f k m = <[k := f x]> m.
Proof.
  intros Hx. apply map_eq. intros k'. rewrite lookup_alter, lookup_insert.
  case_decide; subst; [by rewrite Hx|done].
Qed.
