(* ===== verification/Json.v ===== *)
(** * Values and JSON

    The values Python programs exchange, and how [json.dumps] and [json.loads] of the
    standard library print and read them. *)
From Stdlib Require Import Ascii DecimalString DecimalZ.
From S2P Require Import Prelude.

(** ** Python values

    The dynamic values the code passes between [json], [yaml] and its own
    validation: [None], booleans, integers, floats, strings, lists, mappings and
    the other scalars a YAML loader can build (dates, byte strings, sets).

    A Python [str] is a [string] whose characters are its code points, so the
    text modelled here is the Latin-1 range 0..255.  A float is kept as its
    [repr], which determines it. *)

#[local] Set Warnings "-register-all".

Inductive val : Type :=
| VNone
| VBool (b : bool)
| VInt (z : Z)
| VFloat (repr : string)
| VStr (s : string)
| VList (l : list val)
| VDict (d : list (val * val))
| VOther (type_name : string).

(** Induction over the elements of lists and mappings. *)
Section ValInd.
Variable P : val → Prop.
Hypothesis HNone : P VNone.
Hypothesis HBool : ∀ b, P (VBool b).
Hypothesis HInt : ∀ z, P (VInt z).
Hypothesis HFloat : ∀ r, P (VFloat r).
Hypothesis HStr : ∀ s, P (VStr s).
Hypothesis HList : ∀ l, Forall P l → P (VList l).
Hypothesis HDict : ∀ d, Forall (λ kv, P kv.1 ∧ P kv.2) d → P (VDict d).
Hypothesis HOther : ∀ t, P (VOther t).

Fixpoint val_ind_nested (v : val) : P v :=
  match v with
  | VNone => HNone
  | VBool b => HBool b
  | VInt z => HInt z
  | VFloat r => HFloat r
  | VStr s => HStr s
  | VList l =>
      HList l ((fix go l := match l return Forall P l with
                | [] => @Forall_nil_2 _ _
                | x :: l' => @Forall_cons_2 _ _ x l' (val_ind_nested x) (go l')
                end) l)
  | VDict d =>
      HDict d ((fix go d := match d return Forall (λ kv, P kv.1 ∧ P kv.2) d with
                | [] => @Forall_nil_2 _ _
                | kv :: d' => @Forall_cons_2 _ _ kv d'
                    (conj (val_ind_nested kv.1) (val_ind_nested kv.2)) (go d')
                end) d)
  | VOther t => HOther t
  end.
End ValInd.

Abbreviation mapping := (list (val * val)).

Definition is_key (k : string) (v : val) : bool :=
  match v with VStr s => bool_decide (s = k) | _ => false end.

(** [d.get(k)] for a string key; [None] when the key is absent. *)
Fixpoint dfind (k : string) (d : mapping) : option val :=
  match d with
  | [] => None
  | (k', v) :: d' => if is_key k k' then Some v else dfind k d'
  end.
Definition dget (k : string) (d : mapping) : val := default VNone (dfind k d).

(** [value == "s"] and [value in {...}] for string literals. *)
Definition val_is (v : val) (s : string) : bool :=
  match v with VStr t => bool_decide (t = s) | _ => false end.
Definition val_in (v : val) (l : list string) : bool := existsb (val_is v) l.

(** [hash(value)] raises [TypeError] for lists, mappings and sets. *)
Definition hashable (v : val) : bool :=
  match v with
  | VList _ | VDict _ => false
  | VOther t => negb (bool_decide (t = "set"))
  | _ => true
  end.

Definition key_is_str (kv : val * val) : bool :=
  match kv.1 with VStr _ => true | _ => false end.

(** A mapping with string keys, as [json.loads] builds. *)
Definition sdict (kvs : list (string * val)) : val :=
  VDict ((λ kv, (VStr kv.1, kv.2)) <$> kvs).

Lemma val_is_true v s : val_is v s = true ↔ v = VStr s.
Proof.
  destruct v; simpl; try (split; congruence).
  rewrite bool_decide_eq_true. split; congruence.
Qed.

Lemma val_in_true v l : val_in v l = true ↔ ∃ s, v = VStr s ∧ s ∈ l.
Proof.
  unfold val_in. rewrite existsb_exists. split.
  - intros (s & Hin & Hv). apply val_is_true in Hv as ->.
    exists s. split; [done|]. by apply list_elem_of_In.
  - intros (s & -> & Hin). exists s. split; [by apply list_elem_of_In|].
    by apply val_is_true.
Qed.

Lemma dfind_elem k d v : dfind k d = Some v → (VStr k, v) ∈ d.
Proof.
  induction d as [|[k' v'] d IH]; simpl; [done|].
  destruct (is_key k k') eqn:E; [|intros ?; right; auto].
  intros [= ->]. destruct k'; simpl in E; try done.
  bool_prop. subst. left.
Qed.

#[export] Instance val_is_str_dec v s : Decision (v = VStr s).
Proof.
  refine (match v with VStr t => cast_if (decide (t = s)) | _ => right _ end);
    abstract congruence.
Defined.

(** Evaluate the string tests of a goal whose strings are literals. *)
Ltac eval_val_is :=
  repeat match goal with
  | |- context [val_is (VStr ?a) ?b] =>
      let x := eval vm_compute in (val_is (VStr a) b) in
      change (val_is (VStr a) b) with x
  end.

(** ** [json.dumps] and [json.loads]

    The standard library's JSON printer and parser, as the code calls them.
    [dumps] covers the keyword arguments in use ([sort_keys], the two pairs of
    separators, [ensure_ascii]); every mapping the code serialises has string
    keys, and [dumps] is [None] on any other one and on values [json] refuses.
    [loads] accepts the JSON grammar; [\u] escapes above 255 are outside the
    Latin-1 text of these values and are refused. *)

Import ListNotations.

(** *** Printing *)

Record style := {
  compact : bool;       (** separators=(",", ":") rather than the default (", ", ": ") *)
  sorted_keys : bool;   (** sort_keys=True *)
  ascii_only : bool;    (** ensure_ascii *)
}.

Definition item_sep (st : style) : string := if compact st then "," else ", ".
Definition key_sep (st : style) : string := if compact st then ":" else ": ".

(** json.dumps(v, sort_keys=True, separators=(",", ":")) *)
Definition canonical_style := {| compact := true; sorted_keys := true; ascii_only := true |}.
(** ... with ensure_ascii=False *)
Definition utf8_style := {| compact := true; sorted_keys := true; ascii_only := false |}.
(** json.dumps(v) *)
Definition default_style := {| compact := false; sorted_keys := false; ascii_only := true |}.

Definition dq : ascii := "034"%char.
Definition bslash : ascii := "092"%char.

Definition hex_digit (n : N) : ascii :=
  ascii_of_N (if (n <? 10)%N then 48 + n else 87 + n).

Definition unicode_escape (c : ascii) : string :=
  let n := N_of_ascii c in
  String bslash (String "u" (String "0" (String "0"
    (String (hex_digit (n / 16)) (String (hex_digit (n mod 16)) ""))))).

Definition escape_char (st : style) (c : ascii) : string :=
  let n := N_of_ascii c in
  if Ascii.eqb c dq then String bslash (String dq "")
  else if Ascii.eqb c bslash then String bslash (String bslash "")
  else if (n =? 10)%N then String bslash (String "n" "")
  else if (n =? 13)%N then String bslash (String "r" "")
  else if (n =? 9)%N then String bslash (String "t" "")
  else if (n =? 12)%N then String bslash (String "f" "")
  else if (n =? 8)%N then String bslash (String "b" "")
  else if (n <? 32)%N || (ascii_only st && (126 <? n)%N) then unicode_escape c
  else String c "".

Fixpoint escape_str (st : style) (s : string) : string :=
  match s with
  | "" => ""
  | String c s' => escape_char st c +:+ escape_str st s'
  end.

Definition dumps_str (st : style) (s : string) : string :=
  String dq (escape_str st s +:+ String dq "").

(** [str(z)] *)
Definition int_repr (z : Z) : string := NilZero.string_of_int (Z.to_int z).

Definition dumps_member (st : style) (kv : string * string) : string :=
  dumps_str st kv.1 +:+ key_sep st +:+ kv.2.

Fixpoint dumps (st : style) (v : val) : option string :=
  match v with
  | VNone => Some "null"
  | VBool true => Some "true"
  | VBool false => Some "false"
  | VInt z => Some (int_repr z)
  | VFloat r => Some r
  | VStr s => Some (dumps_str st s)
  | VList l =>
      elems ← (fix go l := match l with
               | [] => Some []
               | x :: l' => s ← dumps st x; ss ← go l'; Some (s :: ss)
               end) l;
      Some ("[" +:+ str_join (item_sep st) elems +:+ "]")
  | VDict d =>
      pairs ← (fix go d := match d with
               | [] => Some []
               | (VStr k, x) :: d' =>
                   s ← dumps st x; ss ← go d'; Some ((k, s) :: ss)
               | _ => None
               end) d;
      let pairs := if sorted_keys st then sort_keys pairs else pairs in
      Some ("{" +:+ str_join (item_sep st) (dumps_member st <$> pairs) +:+ "}")
  | VOther _ => None
  end.

(** The two inner loops, named. *)
Fixpoint dumps_list (st : style) (l : list val) : option (list string) :=
  match l with
  | [] => Some []
  | x :: l' => s ← dumps st x; ss ← dumps_list st l'; Some (s :: ss)
  end.

Fixpoint dumps_pairs (st : style) (d : mapping) : option (list (string * string)) :=
  match d with
  | [] => Some []
  | (VStr k, x) :: d' => s ← dumps st x; ss ← dumps_pairs st d'; Some ((k, s) :: ss)
  | _ => None
  end.

Lemma dumps_VList st l :
  dumps st (VList l) =
    elems ← dumps_list st l; Some ("[" +:+ str_join (item_sep st) elems +:+ "]").
Proof.
  cbn [dumps].
  match goal with |- context [mbind _ (?go l)] => assert (go l = dumps_list st l) as -> end;
    [|done].
  induction l as [|x l IH]; [done|]. cbn. by rewrite IH.
Qed.

Lemma dumps_VDict st d :
  dumps st (VDict d) =
    pairs ← dumps_pairs st d;
    let pairs := if sorted_keys st then sort_keys pairs else pairs in
    Some ("{" +:+ str_join (item_sep st) (dumps_member st <$> pairs) +:+ "}").
Proof.
  cbn [dumps].
  match goal with |- context [mbind _ (?go d)] => assert (go d = dumps_pairs st d) as -> end;
    [|done].
  induction d as [|[[] x] d IH]; try done. cbn. by rewrite IH.
Qed.

(** *** Parsing *)

Definition is_ws (c : ascii) : bool :=
  let n := N_of_ascii c in
  ((n =? 32) || (n =? 9) || (n =? 10) || (n =? 13))%N.

Fixpoint skip_ws (s : string) : string :=
  match s with
  | String c s' => if is_ws c then skip_ws s' else s
  | "" => ""
  end.

Definition hex_value (c : ascii) : option N :=
  let n := N_of_ascii c in
  if ((48 <=? n) && (n <=? 57))%N then Some (n - 48)%N
  else if ((97 <=? n) && (n <=? 102))%N then Some (n - 87)%N
  else if ((65 <=? n) && (n <=? 70))%N then Some (n - 55)%N
  else None.

Definition hex4 (a b c d : ascii) : option ascii :=
  a ← hex_value a; b ← hex_value b; c ← hex_value c; d ← hex_value d;
  let n := (a * 4096 + b * 256 + c * 16 + d)%N in
  if (n <? 256)%N then Some (ascii_of_N n) else None.

Definition simple_escape (c : ascii) : option ascii :=
  if Ascii.eqb c dq then Some dq
  else if Ascii.eqb c bslash then Some bslash
  else if Ascii.eqb c "/" then Some "/"%char
  else if Ascii.eqb c "n" then Some "010"%char
  else if Ascii.eqb c "r" then Some "013"%char
  else if Ascii.eqb c "t" then Some "009"%char
  else if Ascii.eqb c "f" then Some "012"%char
  else if Ascii.eqb c "b" then Some "008"%char
  else None.

(** The body of a string literal, after its opening quote. *)
Fixpoint parse_str (s : string) : option (string * string) :=
  match s with
  | "" => None
  | String c s1 =>
      if Ascii.eqb c dq then Some ("", s1)
      else if Ascii.eqb c bslash then
        match s1 with
        | String e s2 =>
            if Ascii.eqb e "u" then
              match s2 with
              | String h1 (String h2 (String h3 (String h4 s3))) =>
                  ch ← hex4 h1 h2 h3 h4;
                  '(t, r) ← parse_str s3; Some (String ch t, r)
              | _ => None
              end
            else ch ← simple_escape e;
                 '(t, r) ← parse_str s2; Some (String ch t, r)
        | "" => None
        end
      else if (N_of_ascii c <? 32)%N then None
      else '(t, r) ← parse_str s1; Some (String c t, r)
  end.

Definition is_digit (c : ascii) : bool :=
  let n := N_of_ascii c in ((48 <=? n) && (n <=? 57))%N.
Definition is_num_char (c : ascii) : bool :=
  is_digit c || Ascii.eqb c "-" || Ascii.eqb c "+" || Ascii.eqb c "." ||
  Ascii.eqb c "e" || Ascii.eqb c "E".

Fixpoint span (p : ascii → bool) (s : string) : string * string :=
  match s with
  | String c s' => if p c then let '(t, r) := span p s' in (String c t, r) else ("", s)
  | "" => ("", "")
  end.

Definition nonempty_digits (s : string) : bool :=
  bool_decide (s ≠ "") && str_all is_digit s.

Definition valid_exponent (s : string) : bool :=
  match s with
  | "" => true
  | String c r =>
      (Ascii.eqb c "e" || Ascii.eqb c "E") &&
      match r with
      | String g r' => if Ascii.eqb g "+" || Ascii.eqb g "-" then nonempty_digits r'
                       else nonempty_digits r
      | "" => false
      end
  end.

(** A JSON number literal with a fraction or an exponent. *)
Definition valid_float (s : string) : bool :=
  let s := match s with String "-" r => r | _ => s end in
  let '(i, r) := span is_digit s in
  bool_decide (i ≠ "") &&
  (bool_decide (i = "0") || negb (startswith i "0")) &&
  match r with
  | String "." r' =>
      let '(f, e) := span is_digit r' in bool_decide (f ≠ "") && valid_exponent e
  | "" => false
  | _ => valid_exponent r
  end.

Definition parse_number (tok : string) : option val :=
  if valid_float tok then Some (VFloat tok)
  else i ← NilZero.int_of_string tok;
       let z := Z.of_int i in
       if bool_decide (int_repr z = tok) || bool_decide (tok = "-0")
       then Some (VInt z) else None.

Definition strip_prefix (p s : string) : option string :=
  if startswith s p then Some (str_drop (String.length p) s) else None.

(** Keyword and number values. *)
Definition parse_atom (s : string) : option (val * string) :=
  match strip_prefix "null" s with Some r => Some (VNone, r) | None =>
  match strip_prefix "true" s with Some r => Some (VBool true, r) | None =>
  match strip_prefix "false" s with Some r => Some (VBool false, r) | None =>
  match strip_prefix "NaN" s with Some r => Some (VFloat "NaN", r) | None =>
  match strip_prefix "Infinity" s with Some r => Some (VFloat "Infinity", r) | None =>
  match strip_prefix "-Infinity" s with Some r => Some (VFloat "-Infinity", r) | None =>
    let '(tok, r) := span is_num_char s in
    v ← parse_number tok; Some (v, r)
  end end end end end end.

(** [d[k] = v] on an insertion-ordered dict. *)
Fixpoint dset (k : string) (v : val) (d : mapping) : mapping :=
  match d with
  | [] => [(VStr k, v)]
  | (k', v') :: d' => if is_key k k' then (k', v) :: d' else (k', v') :: dset k v d'
  end.

Definition build_dict (kvs : list (string * val)) : mapping :=
  fold_left (λ d kv, dset kv.1 kv.2 d) kvs [].

Fixpoint parse_value (n : nat) (s : string) {struct n} : option (val * string) :=
  match n with
  | O => None
  | S n =>
      match s with
      | "" => None
      | String c s1 =>
          if Ascii.eqb c dq then
            '(t, r) ← parse_str s1; Some (VStr t, r)
          else if Ascii.eqb c "[" then
            match skip_ws s1 with
            | String c2 r as s2 =>
                if Ascii.eqb c2 "]" then Some (VList [], r)
                else '(l, r) ← parse_elems n s2; Some (VList l, r)
            | "" => None
            end
          else if Ascii.eqb c "{" then
            match skip_ws s1 with
            | String c2 r as s2 =>
                if Ascii.eqb c2 "}" then Some (VDict [], r)
                else '(kvs, r) ← parse_members n s2; Some (VDict (build_dict kvs), r)
            | "" => None
            end
          else parse_atom s
      end
  end
with parse_elems (n : nat) (s : string) {struct n} : option (list val * string) :=
  match n with
  | O => None
  | S n =>
      '(v, r) ← parse_value n s;
      match skip_ws r with
      | String c r' =>
          if Ascii.eqb c "," then
            '(l, r'') ← parse_elems n (skip_ws r'); Some (v :: l, r'')
          else if Ascii.eqb c "]" then Some ([v], r') else None
      | "" => None
      end
  end
with parse_members (n : nat) (s : string) {struct n} : option (list (string * val) * string) :=
  match n with
  | O => None
  | S n =>
      match s with
      | String c s1 =>
          if Ascii.eqb c dq then
            '(k, r1) ← parse_str s1;
            match skip_ws r1 with
            | String c2 r2 =>
                if Ascii.eqb c2 ":" then
                  '(v, r) ← parse_value n (skip_ws r2);
                  match skip_ws r with
                  | String c3 r' =>
                      if Ascii.eqb c3 "," then
                        '(l, r'') ← parse_members n (skip_ws r'); Some ((k, v) :: l, r'')
                      else if Ascii.eqb c3 "}" then Some ([(k, v)], r') else None
                  | "" => None
                  end
                else None
            | "" => None
            end
          else None
      | "" => None
      end
  end.

(** Every recursive call consumes a character of the text, or is the descent
    from a value into its first element: twice the length bounds the depth. *)
Definition loads (s : string) : option val :=
  match parse_value (2 * String.length s + 2) (skip_ws s) with
  | Some (v, r) => if bool_decide (skip_ws r = "") then Some v else None
  | None => None
  end.


(** [json.dumps(v, sort_keys=True, separators=(",", ":"))] of a value the code
    builds from strings, integers and lists; [JsonFacts.canonical_json_some]
    shows such a text exists for every [json_ok] value. *)
Definition canonical_json (v : val) : string := default "" (dumps canonical_style v).

Definition opt_str (o : option string) : val :=
  match o with Some s => VStr s | None => VNone end.
Definition opt_int (o : option Z) : val :=
  match o with Some z => VInt z | None => VNone end.
