(* ===== verification/JsonFacts.v ===== *)
(** * Facts about [Json]: the printer and the parser are inverse

    [loads_dumps]: parsing what [dumps] prints gives the value back, with its
    mappings in sorted order when [sort_keys] is set. *)
From Stdlib Require Import Ascii DecimalString DecimalZ DecimalPos.
From S2P Require Import Prelude Json.

(** ** String literals *)

Lemma parse_escape_char st c t :
  parse_str (escape_char st c +:+ t) =
    '(u, r) ← parse_str t; Some (String c u, r).
Proof. destruct st as [? ? []], c as [[][][][][][][][]]; reflexivity. Qed.

Lemma parse_escape_str st s r :
  parse_str (escape_str st s +:+ String dq r) = Some (s, r).
Proof.
  induction s as [|c s IH]; [done|]. simpl.
  by rewrite <-string_app_assoc, parse_escape_char, IH.
Qed.

Lemma parse_dumps_str st s r n :
  parse_value (S n) (dumps_str st s +:+ r) = Some (VStr s, r).
Proof.
  unfold dumps_str. rewrite app_cons_str. cbn -[parse_str].
  by rewrite <-string_app_assoc, app_cons_str, app_nil_str, parse_escape_str.
Qed.

(** ** Numbers *)

Lemma all_digits_uint d : str_all is_digit (NilEmpty.string_of_uint d) = true.
Proof. induction d; simpl; auto. Qed.

Lemma int_repr_shape z :
  ∃ c t, is_digit c = true ∧ str_all is_digit t = true ∧
    (int_repr z = String c t ∨ int_repr z = String "-" (String c t)).
Proof.
  assert (Hu : ∀ u, ∃ c t, is_digit c = true ∧ str_all is_digit t = true ∧
            NilZero.string_of_uint u = String c t).
  { intros []; simpl; eexists _, _; split_and!; try reflexivity; apply all_digits_uint || done. }
  unfold int_repr. destruct (Z.to_int z) as [u|u]; simpl;
    destruct (Hu u) as (c & t & Hc & Ht & ->); eauto 10.
Qed.

Definition num_delim (r : string) : bool :=
  match r with String c _ => negb (is_num_char c) | "" => true end.

Lemma span_app p s r :
  str_all p s = true →
  match r with String c _ => negb (p c) | "" => true end = true →
  span p (s +:+ r) = (s, r).
Proof.
  intros Hs Hr. induction s as [|c s IH].
  - rewrite app_nil_str. destruct r as [|c r]; [done|]. simpl.
    by destruct (p c).
  - simpl in Hs. bool_prop. rewrite app_cons_str. simpl.
    rewrite H, IH by done. done.
Qed.

Lemma span_all p s : str_all p s = true → span p s = (s, "").
Proof. intros H. rewrite <-(string_app_nil_r s) at 1. by apply span_app. Qed.

Lemma str_all_impl (p q : ascii → bool) s :
  (∀ c, p c = true → q c = true) → str_all p s = true → str_all q s = true.
Proof. intros Hpq. induction s; simpl; [done|]. intros. bool_prop. rewrite Hpq; auto. Qed.

Lemma digit_num_char c : is_digit c = true → is_num_char c = true.
Proof. unfold is_num_char. by intros ->. Qed.

Lemma int_repr_num_chars z : str_all is_num_char (int_repr z) = true.
Proof.
  destruct (int_repr_shape z) as (c & t & Hc & Ht & [-> | ->]); simpl;
    rewrite digit_num_char by done; simpl; by eapply str_all_impl; [apply digit_num_char|].
Qed.

Lemma valid_float_digits c t :
  is_digit c = true → str_all is_digit t = true →
  valid_float (String c t) = false ∧ valid_float (String "-" (String c t)) = false.
Proof.
  intros Hc Ht.
  assert (Hs : span is_digit (String c t) = (String c t, "")).
  { apply span_all. simpl. by rewrite Hc. }
  assert (Hm : match String c t with String "-" r => r | _ => String c t end = String c t).
  { destruct c as [[][][][][][][][]]; try discriminate Hc; reflexivity. }
  split; unfold valid_float; rewrite ?Hm, Hs; cbn -[span]; by rewrite ?andb_false_r.
Qed.

Lemma int_of_int_repr z : NilZero.int_of_string (int_repr z) = Some (Z.to_int z).
Proof.
  apply NilZero.isi; destruct z; simpl; try congruence;
    intros [= H]; by apply Unsigned.to_uint_nonnil in H.
Qed.

Lemma parse_number_int z : parse_number (int_repr z) = Some (VInt z).
Proof.
  unfold parse_number.
  assert (valid_float (int_repr z) = false) as ->.
  { destruct (int_repr_shape z) as (c & t & Hc & Ht & [-> | ->]);
      by apply valid_float_digits. }
  rewrite int_of_int_repr. simpl. rewrite of_to.
  by rewrite bool_decide_eq_true_2.
Qed.

(** A float literal [repr] can produce (finite values). *)
Definition float_ok (r : string) : bool :=
  valid_float r && str_all is_num_char r &&
  match r with
  | String c t => is_digit c ||
      (Ascii.eqb c "-" && match t with String d _ => is_digit d | "" => false end)
  | "" => false
  end.

Definition number_head (tok : string) : Prop :=
  ∃ c t, is_digit c = true ∧ (tok = String c t ∨ tok = String "-" (String c t)).

Lemma parse_number_tok tok v r n :
  number_head tok → str_all is_num_char tok = true → parse_number tok = Some v →
  num_delim r = true → parse_value (S n) (tok +:+ r) = Some (v, r).
Proof.
  intros (c & t & Hc & Htok) Hall Hv Hr.
  assert (Hspan : span is_num_char (tok +:+ r) = (tok, r)) by by apply span_app.
  assert (parse_value (S n) (tok +:+ r) =
    let '(tok, r) := span is_num_char (tok +:+ r) in
    v ← parse_number tok; Some (v, r)) as ->.
  { clear Hspan. destruct Htok as [-> | ->]; rewrite !app_cons_str;
      destruct c as [[][][][][][][][]]; try discriminate Hc; reflexivity. }
  rewrite Hspan, Hv. done.
Qed.

(** ** Values *)

(** What [json.loads (json.dumps v)] returns: [v] with its mappings in the order
    they were printed. *)
Fixpoint printed (st : style) (v : val) : val :=
  match v with
  | VList l => VList (printed st <$> l)
  | VDict d =>
      let kvs := omap (λ kv, match kv with
                             | (VStr k, x) => Some (k, printed st x)
                             | _ => None
                             end) d in
      sdict (if sorted_keys st then sort_keys kvs else kvs)
  | _ => v
  end.

Fixpoint dict_keys (d : mapping) : list string :=
  match d with
  | (VStr k, _) :: d' => k :: dict_keys d'
  | _ :: d' => dict_keys d'
  | [] => []
  end.

(** JSON values: string keys without repetition, finite floats. *)
Fixpoint json_ok (v : val) : bool :=
  match v with
  | VFloat r => float_ok r
  | VList l => forallb json_ok l
  | VDict d => forallb (λ kv, key_is_str kv && json_ok kv.2) d &&
               bool_decide (NoDup (dict_keys d))
  | VOther _ => false
  | _ => true
  end.

Lemma skip_ws_cons c s : is_ws c = false → skip_ws (String c s) = String c s.
Proof. simpl. by intros ->. Qed.

Lemma skip_item_sep st c s :
  is_ws c = false →
  skip_ws (str_drop 1 (item_sep st) +:+ String c s) = String c s.
Proof.
  intros H. destruct st as [[] ? ?]; simpl; rewrite ?app_cons_str, ?app_nil_str; simpl;
    by rewrite H.
Qed.

Definition value_head (c : ascii) : bool :=
  negb (is_ws c) && negb (Ascii.eqb c "]") && negb (Ascii.eqb c "}").

Lemma digit_value_head c : is_digit c = true → value_head c = true.
Proof. destruct c as [[][][][][][][][]]; done. Qed.

Lemma dumps_head st v s :
  json_ok v = true → dumps st v = Some s →
  ∃ c s', s = String c s' ∧ value_head c = true.
Proof.
  destruct v as [|[]|z|r|t|l|d|]; intros Hok; rewrite ?dumps_VList, ?dumps_VDict; simpl.
  - intros [= <-]. eauto.
  - intros [= <-]. eauto.
  - intros [= <-]. eauto.
  - intros [= <-]. destruct (int_repr_shape z) as (c & t & Hc & _ & [-> | ->]).
    + eauto using digit_value_head.
    + eauto.
  - intros [= <-]. simpl in Hok. unfold float_ok in Hok. bool_prop.
    destruct r as [|c t]; [done|]. eexists _, _. split; [done|].
    apply orb_true_iff in H0 as [?|?]; [by apply digit_value_head|].
    bool_prop. by apply Ascii.eqb_eq in H0 as ->.
  - intros [= <-]. eauto.
  - destruct (dumps_list st l); simpl; [intros [= <-]|done]. eauto.
  - destruct (dumps_pairs st d); simpl; [intros [= <-]|done]. eauto.
  - done.
Qed.

(** [s] is a text of [x] the parser reads back. *)
Definition reads_back (st : style) (x : val) (s : string) : Prop :=
  (∃ c s', s = String c s' ∧ value_head c = true) ∧
  ∀ n r, (2 * String.length s + 1 ≤ n)%nat → num_delim r = true →
    parse_value n (s +:+ r) = Some (printed st x, r).

Lemma item_sep_cons st : item_sep st = String "," (str_drop 1 (item_sep st)).
Proof. by destruct st as [[] ? ?]. Qed.

Lemma key_sep_cons st : key_sep st = String ":" (str_drop 1 (key_sep st)).
Proof. by destruct st as [[] ? ?]. Qed.

Lemma skip_sep_tail st c s :
  is_ws c = false →
  skip_ws (str_drop 1 (key_sep st) +:+ String c s) = String c s.
Proof.
  intros H. destruct st as [[] ? ?]; simpl; rewrite ?app_cons_str, ?app_nil_str; simpl;
    by rewrite H.
Qed.

Lemma value_head_ws c : value_head c = true → is_ws c = false.
Proof. unfold value_head. intros. by bool_prop. Qed.

Lemma str_join_cons st x y l :
  str_join (item_sep st) (x :: y :: l) =
    x +:+ String "," (str_drop 1 (item_sep st) +:+ str_join (item_sep st) (y :: l)).
Proof. by destruct st as [[] ? ?]. Qed.

Lemma str_join_head sep x l c s :
  x = String c s → ∃ s', str_join sep (x :: l) = String c s'.
Proof. intros ->. destruct l; simpl; rewrite ?app_cons_str; eauto. Qed.

Lemma parse_elems_ok st l ss :
  Forall2 (reads_back st) l ss → l ≠ [] →
  ∀ n r, (2 * String.length (str_join (item_sep st) ss) + 2 ≤ n)%nat →
    parse_elems n (str_join (item_sep st) ss +:+ String "]" r) = Some (printed st <$> l, r).
Proof.
  induction 1 as [|x s l ss [Hhd Hx] Hall IH]; [done|]. intros _ n r Hn.
  destruct n as [|n]; [lia|]. destruct Hall as [|x' s' l ss Hx' Hall].
  - cbn [str_join] in *. cbn [parse_elems]. rewrite Hx by (done || lia). done.
  - rewrite str_join_cons in *. rewrite !string_app_length in Hn. cbn [String.length] in Hn.
    rewrite string_app_length in Hn.
    rewrite <-string_app_assoc, app_cons_str. cbn [parse_elems].
    rewrite Hx by (done || lia).
    cbn -[skip_ws parse_elems str_join fmap item_sep str_drop].
    rewrite skip_ws_cons by done. cbn -[skip_ws parse_elems str_join fmap item_sep str_drop].
    destruct Hx' as [(c & t & Es & Hc) Hx'].
    destruct (str_join_head (item_sep st) s' ss c t Es) as [u Hu].
    rewrite <-string_app_assoc, Hu, app_cons_str, skip_item_sep by by apply value_head_ws.
    change (String c (u +:+ String "]" r)) with (String c u +:+ String "]" r).
    rewrite <-Hu, IH; [done|done|lia].
Qed.

(** A member list: key, value, printed value. *)
Definition member_text (st : style) (m : string * val * string) : string :=
  dumps_member st (m.1.1, m.2).

Lemma dumps_str_cons st k : dumps_str st k = String dq (escape_str st k +:+ String dq "").
Proof. done. Qed.

Lemma parse_members_ok st T :
  Forall (λ m, reads_back st m.1.2 m.2) T → T ≠ [] →
  ∀ n r, (2 * String.length (str_join (item_sep st) (member_text st <$> T)) + 2 ≤ n)%nat →
    parse_members n (str_join (item_sep st) (member_text st <$> T) +:+ String "}" r) =
      Some ((λ m, (m.1.1, printed st m.1.2)) <$> T, r).
Proof.
  induction 1 as [|[[k x] s] T [Hhd Hx] Hall IH]; [done|]. intros _ n r Hn.
  cbn [fst snd] in Hhd, Hx.
  destruct n as [|n]; [lia|].
  assert (Hmem : ∀ n r, (2 * String.length s + 1 ≤ n)%nat → num_delim r = true →
    parse_members (S n) (member_text st ((k, x), s) +:+ r) =
      match skip_ws r with
      | String c3 r' =>
          if Ascii.eqb c3 "," then
            '(l, r'') ← parse_members n (skip_ws r'); Some ((k, printed st x) :: l, r'')
          else if Ascii.eqb c3 "}" then Some ([(k, printed st x)], r') else None
      | "" => None
      end).
  { clear n r Hn. intros n r Hn Hr. unfold member_text, dumps_member. cbn [fst snd].
    rewrite dumps_str_cons, key_sep_cons.
    rewrite !app_cons_str. cbn -[parse_str skip_ws parse_value key_sep str_drop].
    rewrite <-!string_app_assoc, app_cons_str, app_nil_str, parse_escape_str.
    cbn -[parse_str skip_ws parse_value key_sep str_drop].
    rewrite !app_cons_str, skip_ws_cons by done.
    cbn -[parse_str skip_ws parse_value key_sep str_drop].
    destruct Hhd as (c & t & -> & Hc). rewrite <-string_app_assoc, app_cons_str.
    rewrite skip_sep_tail by by apply value_head_ws. rewrite <-app_cons_str.
    by rewrite Hx. }
  destruct T as [|[[k' x'] s'] T].
  - cbn [fmap list_fmap str_join] in *. rewrite Hmem; [done| |done].
    unfold member_text, dumps_member in Hn. rewrite !string_app_length in Hn. cbn in Hn. lia.
  - rewrite !fmap_cons, str_join_cons in *. rewrite !string_app_length in Hn.
    cbn [String.length] in Hn. rewrite string_app_length in Hn.
    rewrite <-string_app_assoc, app_cons_str, Hmem; [|unfold member_text, dumps_member in Hn;
      rewrite !string_app_length in Hn; cbn in Hn; lia|done].
    rewrite skip_ws_cons by done. cbn -[skip_ws parse_members str_join fmap item_sep str_drop].
    rewrite <-string_app_assoc.
    destruct (str_join_head (item_sep st) (member_text st (k', x', s')) (member_text st <$> T)
      dq (escape_str st k' +:+ String dq "" +:+ key_sep st +:+ s')) as [u Hu].
    { unfold member_text, dumps_member. cbn [fst snd]. rewrite dumps_str_cons.
      by rewrite app_cons_str, <-string_app_assoc. }
    rewrite Hu, app_cons_str, skip_item_sep by done.
    change (String dq (u +:+ String "}" r)) with (String dq u +:+ String "}" r).
    rewrite <-Hu, IH; [done|done|lia].
Qed.

Lemma dumps_list_reads st l ss :
  Forall (λ x, ∀ s, dumps st x = Some s → reads_back st x s) l →
  dumps_list st l = Some ss → Forall2 (reads_back st) l ss.
Proof.
  intros H; revert ss; induction H as [|x l Hx _ IH]; simpl; intros ss.
  - intros [= <-]. constructor.
  - destruct (dumps st x) as [s|] eqn:E; [|done].
    destruct (dumps_list st l) as [ss'|]; [|done]. intros [= <-].
    constructor; auto.
Qed.

#[local] Abbreviation member := (string * val * string)%type.
Definition m_item (m : member) : val * val := (VStr m.1.1, m.1.2).
Definition m_pair (m : member) : string * string := (m.1.1, m.2).
Definition m_out (st : style) (m : member) : string * val := (m.1.1, printed st m.1.2).

Lemma dumps_pairs_reads st d pairs :
  Forall (λ kv, ∀ s, dumps st kv.2 = Some s → reads_back st kv.2 s) d →
  dumps_pairs st d = Some pairs →
  ∃ T, d = m_item <$> T ∧ pairs = m_pair <$> T ∧ Forall (λ m, reads_back st m.1.2 m.2) T.
Proof.
  intros H; revert pairs; induction H as [|[k x] d Hx _ IH]; simpl; intros pairs.
  - intros [= <-]. by exists [].
  - destruct k; try done. destruct (dumps st x) as [t|] eqn:E; [|done].
    destruct (dumps_pairs st d) as [ps|]; [|done]. intros [= <-].
    destruct (IH ps eq_refl) as (T & -> & -> & HT).
    exists ((s, x, t) :: T). split_and!; [done|done|]. constructor; auto.
Qed.

Lemma dict_keys_items T : dict_keys (m_item <$> T) = (λ m : member, m.1.1) <$> T.
Proof. induction T as [|m T IH]; [done|]. cbn. by f_equal. Qed.

Lemma dset_fresh k v d : k ∉ dict_keys d → forallb key_is_str d = true →
  dset k v d = d ++ [(VStr k, v)].
Proof.
  induction d as [|[[] x] d IH]; try done. cbn. intros Hk Hd.
  apply not_elem_of_cons in Hk as [Hne Hk]. rewrite bool_decide_eq_false_2 by congruence.
  by rewrite IH.
Qed.

Lemma dict_keys_app d1 d2 : dict_keys (d1 ++ d2) = dict_keys d1 ++ dict_keys d2.
Proof. induction d1 as [|[[] x] d IH]; cbn; congruence. Qed.

Lemma build_dict_nodup (kvs : list (string * val)) :
  NoDup kvs.*1 → VDict (build_dict kvs) = sdict kvs.
Proof.
  intros Hnd. unfold sdict. f_equal. unfold build_dict.
  assert (Hgen : ∀ acc, forallb key_is_str acc = true → NoDup (dict_keys acc ++ kvs.*1) →
    fold_left (λ d kv, dset kv.1 kv.2 d) kvs acc = acc ++ ((λ kv, (VStr kv.1, kv.2)) <$> kvs)).
  { clear Hnd. induction kvs as [|[k v] kvs IH]; intros acc Hacc Hnd; cbn.
    - by rewrite app_nil_r.
    - apply NoDup_app in Hnd as (Hnd1 & Hdisj & Hnd2). cbn in Hnd2.
      apply NoDup_cons in Hnd2 as [Hk Hnd2].
      rewrite dset_fresh; [|by intros Hin; apply (Hdisj k Hin); left|done].
      rewrite IH; [by rewrite <-app_assoc|by rewrite forallb_app, Hacc|].
      rewrite dict_keys_app, <-app_assoc. cbn.
      apply NoDup_app. split_and!; [done| |by apply NoDup_cons].
      intros k' Hin. apply (Hdisj k'). done. }
  apply (Hgen []); done.
Qed.

Definition sort_members (st : style) (T : list member) : list member :=
  if sorted_keys st then sort_by (λ a b, str_le a.1.1 b.1.1) T else T.

Lemma sort_members_map {B} st (f : member → string * B) T :
  (∀ m, (f m).1 = m.1.1) →
  (if sorted_keys st then sort_keys (f <$> T) else f <$> T) = f <$> sort_members st T.
Proof.
  intros Hf. unfold sort_members. destruct (sorted_keys st); [|done].
  apply sort_by_map. intros. by rewrite !Hf.
Qed.

Lemma sort_members_perm st T : sort_members st T ≡ₚ T.
Proof. unfold sort_members. destruct (sorted_keys st); [apply sort_by_perm|done]. Qed.

Lemma printed_VDict st T :
  printed st (VDict (m_item <$> T)) = sdict (m_out st <$> sort_members st T).
Proof.
  cbn [printed].
  assert (Ho : omap (λ kv, match kv with
      | (VStr k, x) => Some (k, printed st x) | _ => None end) (m_item <$> T)
      = m_out st <$> T).
  { induction T as [|m T IH]; [done|]. cbn. f_equal. done. }
  rewrite Ho. f_equal. by apply sort_members_map.
Qed.

Lemma forallb_Forall_true {A} (p : A → bool) l :
  forallb p l = true ↔ Forall (λ x, p x = true) l.
Proof. rewrite forallb_forall, Forall_forall. by setoid_rewrite <-list_elem_of_In. Qed.

Lemma bracket_len a b s :
  String.length (String a "" +:+ s +:+ String b "") = S (S (String.length s)).
Proof. rewrite app_cons_str, app_nil_str. cbn. rewrite string_app_length. cbn. lia. Qed.

Lemma value_head_close c : value_head c = true →
  Ascii.eqb c "]" = false ∧ Ascii.eqb c "}" = false.
Proof. unfold value_head. intros. by bool_prop. Qed.

Lemma parse_list_text st l ss n r :
  Forall2 (reads_back st) l ss →
  (2 * String.length ("[" +:+ str_join (item_sep st) ss +:+ "]") + 1 ≤ S n)%nat →
  num_delim r = true →
  parse_value (S n) (("[" +:+ str_join (item_sep st) ss +:+ "]") +:+ r) =
    Some (printed st (VList l), r).
Proof.
  intros H2 Hn Hr. rewrite bracket_len in Hn.
  rewrite <-!string_app_assoc. rewrite !app_cons_str, !app_nil_str.
  cbn -[skip_ws parse_elems str_join item_sep].
  destruct H2 as [|x s l ss [(c & t & Es & Hc) Hx] Hall]; [done|].
  destruct (str_join_head (item_sep st) s ss c t Es) as [u Hu].
  rewrite Hu, app_cons_str, skip_ws_cons by by apply value_head_ws.
  destruct (value_head_close c Hc) as [-> _].
  change (String c (u +:+ String "]" r)) with (String c u +:+ String "]" r).
  rewrite <-Hu, (parse_elems_ok st (x :: l)); [done|constructor; [split; eauto|done]|done|lia].
Qed.

Lemma parse_dict_text st T n r :
  Forall (λ m, reads_back st m.1.2 m.2) T →
  NoDup (dict_keys (m_item <$> T)) →
  let pairs := m_pair <$> T in
  let s := str_join (item_sep st) (dumps_member st <$>
             (if sorted_keys st then sort_keys pairs else pairs)) in
  (2 * String.length ("{" +:+ s +:+ "}") + 1 ≤ S n)%nat →
  num_delim r = true →
  parse_value (S n) (("{" +:+ s +:+ "}") +:+ r) = Some (printed st (VDict (m_item <$> T)), r).
Proof.
  intros HT Hnd pairs s Hn Hr. rewrite bracket_len in Hn.
  assert (Es : s = str_join (item_sep st) (member_text st <$> sort_members st T)).
  { unfold s, pairs. rewrite (sort_members_map st m_pair) by done. by rewrite <-list_fmap_compose. }
  rewrite printed_VDict. clearbody s. subst s. clear pairs.
  assert (HT' : Forall (λ m, reads_back st m.1.2 m.2) (sort_members st T)).
  { by rewrite sort_members_perm. }
  assert (Hnd' : NoDup ((m_out st <$> sort_members st T).*1)).
  { rewrite <-list_fmap_compose, dict_keys_items in *. by rewrite sort_members_perm. }
  clear HT Hnd. rewrite <-build_dict_nodup by done.
  destruct (sort_members st T) as [|m T']; [by destruct n|].
  destruct (str_join_head (item_sep st) (member_text st m) (member_text st <$> T')
    dq (escape_str st m.1.1 +:+ String dq "" +:+ key_sep st +:+ m.2)) as [u Hu].
  { unfold member_text, dumps_member. cbn [fst snd]. rewrite dumps_str_cons.
    by rewrite app_cons_str, <-string_app_assoc. }
  rewrite <-fmap_cons in Hu.
  pose proof (parse_members_ok st (m :: T') HT' ltac:(done) n r ltac:(lia)) as Hp.
  rewrite Hu in Hp |- *.
  rewrite <-!string_app_assoc, !app_cons_str, !app_nil_str in *.
  cbn -[skip_ws parse_members fmap]. rewrite skip_ws_cons by done. cbn -[parse_members fmap].
  by rewrite Hp.
Qed.

Lemma reads_back_any st v s :
  json_ok v = true → dumps st v = Some s → reads_back st v s.
Proof.
  revert s. induction v as [|b|z|r|t|l IH|d IH|] using val_ind_nested; intros s Hok Hd;
    (split; [eapply dumps_head; eauto|]);
    intros [|n] rest Hn Hr; try lia.
  - injection Hd as <-. reflexivity.
  - destruct b; injection Hd as <-; reflexivity.
  - injection Hd as <-. apply parse_number_tok; [|apply int_repr_num_chars|apply parse_number_int|done].
    destruct (int_repr_shape z) as (c & t & Hc & _ & ?). by exists c, t.
  - injection Hd as <-. simpl in Hok. unfold float_ok in Hok. bool_prop.
    apply parse_number_tok; [|done|unfold parse_number; by rewrite H|done].
    destruct r as [|c t]; [done|]. apply orb_true_iff in H0 as [?|?].
    + by exists c, t; auto.
    + bool_prop. apply Ascii.eqb_eq in H0 as ->. destruct t as [|d t]; [done|].
      by exists d, t; auto.
  - injection Hd as <-. apply parse_dumps_str.
  - rewrite dumps_VList in Hd. destruct (dumps_list st l) as [ss|] eqn:E; [|done].
    injection Hd as <-. cbn [json_ok] in Hok. apply forallb_Forall_true in Hok.
    assert (H2 : Forall2 (reads_back st) l ss).
    { eapply dumps_list_reads; [|done]. eapply Forall_impl; [apply Forall_and; split; [exact IH|exact Hok]|].
      intros x [Hx ?] s. by apply Hx. }
    by apply parse_list_text.
  - rewrite dumps_VDict in Hd. destruct (dumps_pairs st d) as [ps|] eqn:E; [|done].
    injection Hd as <-. cbn [json_ok] in Hok. apply andb_true_iff in Hok as [Hok Hnd].
    apply forallb_Forall_true in Hok. bool_prop.
    destruct (dumps_pairs_reads st d ps) as (T & -> & -> & HT); [|done|].
    { eapply Forall_impl; [apply Forall_and; split; [exact IH|exact Hok]|].
      intros [k x] [[_ Hx] ?] s. cbn in *. bool_prop. by apply Hx. }
    by apply parse_dict_text.
  - done.
Qed.

(** Parsing what [dumps] printed gives the value back, its mappings in the order
    they were printed. *)
Lemma loads_dumps st v s :
  json_ok v = true → dumps st v = Some s → loads s = Some (printed st v).
Proof.
  intros Hok Hd. destruct (reads_back_any st v s Hok Hd) as [(c & t & -> & Hc) Hp].
  unfold loads. rewrite skip_ws_cons by by apply value_head_ws.
  rewrite <-(string_app_nil_r (String c t)) at 2. rewrite Hp; [done|lia|done].
Qed.

(** ** Consequences *)

Lemma dumps_total st v : json_ok v = true → is_Some (dumps st v).
Proof.
  induction v as [|[]|z|r|t|l IH|d IH|] using val_ind_nested; intros Hok; eauto; try done.
  - rewrite dumps_VList. cbn [json_ok] in Hok. apply forallb_Forall_true in Hok.
    assert (is_Some (dumps_list st l)) as [ss ->]; [|eauto].
    induction IH as [|x l Hx _ IHl]; simpl; [eauto|].
    apply Forall_cons in Hok as [Hok1 Hok2].
    destruct (Hx Hok1) as [s ->], (IHl Hok2) as [ss ->]. simpl. eauto.
  - rewrite dumps_VDict. cbn [json_ok] in Hok. apply andb_true_iff in Hok as [Hok _].
    apply forallb_Forall_true in Hok.
    assert (is_Some (dumps_pairs st d)) as [ss ->]; [|simpl; eauto].
    induction IH as [|[k x] d [_ Hx] _ IHd]; simpl; [eauto|].
    apply Forall_cons in Hok as [Hok1 Hok2]. bool_prop. destruct k; try done.
    destruct (Hx H0) as [u Hu], (IHd Hok2) as [ss Hss]. cbn in Hu. rewrite Hu, Hss. simpl. eauto.
Qed.

(** Printing what was read back prints the same text. *)
Lemma dumps_printed st v s : dumps st v = Some s → dumps st (printed st v) = Some s.
Proof.
  revert s. induction v as [|[]|z|r|t|l IH|d IH|] using val_ind_nested; intros s Hd; try done.
  - rewrite dumps_VList in Hd. cbn [printed]. rewrite dumps_VList.
    destruct (dumps_list st l) as [ss|] eqn:E; [|done].
    assert (dumps_list st (printed st <$> l) = Some ss) as ->; [|done]. clear Hd.
    revert ss E. induction IH as [|x l Hx _ IHl]; intros ss E; [done|]. cbn in E |- *.
    destruct (dumps st x) as [sx|]; [|done]. destruct (dumps_list st l) as [sl|]; [|done].
    rewrite (Hx sx), (IHl sl) by done. done.
  - rewrite dumps_VDict in Hd. destruct (dumps_pairs st d) as [ps|] eqn:E; [|done].
    assert (∃ T, d = m_item <$> T ∧ ps = m_pair <$> T ∧
      Forall (λ m : member, dumps st (printed st m.1.2) = Some m.2) T) as (T & -> & -> & HT).
    { clear Hd. revert ps E. induction IH as [|[k x] d [_ Hx] _ IHd]; intros ps E.
      { injection E as <-. by exists []. }
      cbn in E. destruct k; try done. destruct (dumps st x) as [sx|] eqn:Ex; [|done].
      destruct (dumps_pairs st d) as [pd|]; [|done]. injection E as <-.
      destruct (IHd pd eq_refl) as (T & -> & -> & HT). exists ((s0, x, sx) :: T). by auto. }
    rewrite printed_VDict. unfold sdict. rewrite dumps_VDict.
    rewrite <-(sort_members_perm st T) in HT.
    assert (∀ T', Forall (λ m : member, dumps st (printed st m.1.2) = Some m.2) T' →
      dumps_pairs st ((λ kv : string * val, (VStr kv.1, kv.2)) <$> (m_out st <$> T')) = Some (m_pair <$> T')) as Hp.
    { clear. induction 1 as [|m T' Hm _ IHT]; [done|]. cbn. rewrite Hm. cbn in IHT. by rewrite IHT. }
    rewrite Hp by done. rewrite <-Hd. cbn [mbind option_bind].
    rewrite !(sort_members_map st m_pair) by done. do 5 f_equal.
    unfold sort_members. destruct (sorted_keys st); [|done]. f_equal. apply sort_by_id, sort_by_sorted.
    + intros ??. apply str_le_total.
    + intros ???. apply str_le_trans.
Qed.

Lemma canonical_json_some v :
  json_ok v = true → dumps canonical_style v = Some (canonical_json v).
Proof. intros H. unfold canonical_json. by destruct (dumps_total canonical_style v H) as [s ->]. Qed.

(** The canonical text determines the value up to the order of its mappings. *)
Lemma canonical_json_inj v w :
  json_ok v = true → json_ok w = true → canonical_json v = canonical_json w →
  printed canonical_style v = printed canonical_style w.
Proof.
  intros Hv Hw Heq.
  pose proof (loads_dumps _ _ _ Hv (canonical_json_some v Hv)) as H1.
  pose proof (loads_dumps _ _ _ Hw (canonical_json_some w Hw)) as H2.
  rewrite Heq in H1. congruence.
Qed.

(** ** Objects the code builds key by key *)

Lemma json_ok_sdict kvs :
  NoDup kvs.*1 → Forall (λ v, json_ok v = true) kvs.*2 → json_ok (sdict kvs) = true.
Proof.
  intros Hnd Hall. cbn. apply andb_true_iff. split.
  - clear Hnd. induction kvs as [|[k v] kvs IH]; [done|].
    cbn in *. apply Forall_cons in Hall as [-> Hall]. auto.
  - apply bool_decide_eq_true_2.
    assert (dict_keys ((λ kv : string * val, (VStr kv.1, kv.2)) <$> kvs) = kvs.*1) as ->; [|done].
    clear. induction kvs as [|[k v] kvs IH]; [done|]. cbn. by f_equal.
Qed.

Lemma sort_keys_fixed {A} (kvs : list (string * A)) :
  sort_strings kvs.*1 = kvs.*1 → sort_keys kvs = kvs.
Proof.
  intros H. apply sort_by_id.
  pose proof (sort_by_sorted str_le str_le_total str_le_trans kvs.*1) as Hs.
  fold sort_strings in Hs. rewrite H in Hs. clear H.
  induction kvs as [|kv kvs IH]; [constructor|]. cbn in Hs.
  apply StronglySorted_inv in Hs as [Hs Hall]. constructor; [auto|].
  by apply Forall_fmap in Hall.
Qed.

Lemma printed_sdict st kvs :
  sort_strings kvs.*1 = kvs.*1 →
  printed st (sdict kvs) = sdict (prod_map id (printed st) <$> kvs).
Proof.
  intros Hs. unfold sdict at 1. cbn [printed].
  assert (omap (λ kv, match kv with
      | (VStr k, x) => Some (k, printed st x) | _ => None end)
      ((λ kv : string * val, (VStr kv.1, kv.2)) <$> kvs) = prod_map id (printed st) <$> kvs) as ->.
  { clear. induction kvs as [|[k v] kvs IH]; [done|]. cbn. f_equal. done. }
  destruct (sorted_keys st); [|done]. f_equal. apply sort_keys_fixed.
  by rewrite <-list_fmap_compose.
Qed.

Lemma sdict_inj a b : sdict a = sdict b → a = b.
Proof.
  intros [= H]. revert b H. induction a as [|[k v] a IH]; intros [|[k' v'] b]; try done.
  cbn. intros [= -> -> H]. f_equal. auto.
Qed.

Lemma canonical_sdict_inj a b :
  sort_strings a.*1 = a.*1 → sort_strings b.*1 = b.*1 → NoDup a.*1 → NoDup b.*1 →
  Forall (λ v, json_ok v = true) a.*2 → Forall (λ v, json_ok v = true) b.*2 →
  canonical_json (sdict a) = canonical_json (sdict b) →
  prod_map id (printed canonical_style) <$> a = prod_map id (printed canonical_style) <$> b.
Proof.
  intros Ha Hb Hna Hnb Hja Hjb H.
  apply canonical_json_inj in H; [|by apply json_ok_sdict..].
  rewrite !printed_sdict in H by done. by apply sdict_inj in H.
Qed.

Lemma json_ok_opt_str o : json_ok (opt_str o) = true.
Proof. by destruct o. Qed.
Lemma json_ok_opt_int o : json_ok (opt_int o) = true.
Proof. by destruct o. Qed.
Lemma printed_opt_str st o : printed st (opt_str o) = opt_str o.
Proof. by destruct o. Qed.
Lemma printed_opt_int st o : printed st (opt_int o) = opt_int o.
Proof. by destruct o. Qed.
Lemma opt_str_inj o p : opt_str o = opt_str p → o = p.
Proof. destruct o, p; simpl; congruence. Qed.
Lemma opt_int_inj o p : opt_int o = opt_int p → o = p.
Proof. destruct o, p; simpl; congruence. Qed.
#[export] Hint Resolve json_ok_opt_str json_ok_opt_int : fw.
#[export] Hint Rewrite printed_opt_str printed_opt_int : fw.

(** Side conditions on an object written key by key. *)
Ltac literal_keys := vm_compute; reflexivity.
Ltac literal_nodup := apply (bool_decide_unpack _); vm_compute; exact I.
Ltac literal_json := cbn [fmap list_fmap fst snd]; repeat constructor; auto with fw.

(** ** Keys of parsed mappings *)

(** String keys without repetition, at every level. *)
Fixpoint keys_unique (v : val) : bool :=
  match v with
  | VList l => forallb keys_unique l
  | VDict d => forallb (λ kv, key_is_str kv && keys_unique kv.2) d &&
               bool_decide (NoDup (dict_keys d))
  | _ => true
  end.

Lemma dset_keys k v d :
  forallb key_is_str d = true → NoDup (dict_keys d) →
  forallb key_is_str (dset k v d) = true ∧ NoDup (dict_keys (dset k v d)) ∧
  (∀ k', k' ∈ dict_keys (dset k v d) → k' = k ∨ k' ∈ dict_keys d).
Proof.
  induction d as [|[k1 v1] d IH]; intros Hs Hn; cbn [dset].
  { split_and!; [done|apply NoDup_singleton|]. intros k' Hk. left. by apply list_elem_of_singleton in Hk. }
  cbn in Hs. apply andb_true_iff in Hs as [Hk1 Hs]. destruct k1 as [| | | |s1| | |]; try done.
  cbn [dict_keys] in Hn. apply NoDup_cons in Hn as [Hn1 Hn]. cbn [is_key]. case_bool_decide as Heq.
  - split_and!; [done|by constructor|]. intros k' Hk. by right.
  - destruct (IH Hs Hn) as (Hs' & Hn' & Hsub). split_and!; [done| |].
    + constructor; [|done]. intros [->|?]%Hsub; done.
    + intros k' [-> |Hk]%elem_of_cons; [right; left|]. apply Hsub in Hk as [?|?]; [by left|right; by right].
Qed.

Lemma dset_unique k v d :
  keys_unique v = true → keys_unique (VDict d) = true → keys_unique (VDict (dset k v d)) = true.
Proof.
  cbn [keys_unique]. intros Hv [Hall Hnd%bool_decide_eq_true]%andb_true_iff.
  assert (forallb key_is_str d = true) as Hstr.
  { rewrite forallb_forall in Hall |- *. intros x Hx. by apply Hall, andb_true_iff in Hx as [? _]. }
  destruct (dset_keys k v d Hstr Hnd) as (_ & Hnd' & _).
  apply andb_true_iff. split; [|by apply bool_decide_eq_true]. clear Hnd Hnd' Hstr.
  induction d as [|[k1 v1] d IH]; cbn [dset]; [by cbn; rewrite Hv|].
  cbn [forallb snd] in Hall. apply andb_true_iff in Hall as [[Hk1 Hv1]%andb_true_iff Hall].
  destruct (is_key k k1); cbn [forallb snd]; apply andb_true_iff; (split; [|by auto]);
    apply andb_true_iff; done.
Qed.

Lemma build_dict_unique kvs :
  Forall (λ kv, keys_unique kv.2 = true) kvs → keys_unique (VDict (build_dict kvs)) = true.
Proof.
  unfold build_dict. assert (keys_unique (VDict []) = true) as H0 by done. revert H0.
  generalize (@nil (val * val)) as d. induction kvs as [|[k v] kvs IH]; intros d Hd Hall; [done|].
  apply Forall_cons in Hall as [Hv Hall]. cbn [fold_left]. apply IH; [|done]. by apply dset_unique.
Qed.

Lemma parse_atom_unique s v r : parse_atom s = Some (v, r) → keys_unique v = true.
Proof.
  unfold parse_atom. repeat (case_match; [by intros [= <- <-]|]).
  destruct (span is_num_char s) as [tok r']. unfold parse_number.
  destruct (valid_float tok); [by intros [= <- <-]|].
  destruct (NilZero.int_of_string tok); cbn; [|done]. case_match; [|done]. by intros [= <- <-].
Qed.

Lemma parse_unique n :
  (∀ s v r, parse_value n s = Some (v, r) → keys_unique v = true) ∧
  (∀ s l r, parse_elems n s = Some (l, r) → forallb keys_unique l = true) ∧
  (∀ s kvs r, parse_members n s = Some (kvs, r) → Forall (λ kv, keys_unique kv.2 = true) kvs).
Proof.
  induction n as [|n (IHv & IHe & IHm)]; [done|]. split_and!; intros s x r H.
  - cbn [parse_value] in H. destruct s as [|c s1]; [done|].
    destruct (Ascii.eqb c dq). { apply bind_Some in H as ([t r'] & _ & [= <- <-]). done. }
    destruct (Ascii.eqb c "[").
    { destruct (skip_ws s1) as [|c2 r2]; [done|].
      destruct (Ascii.eqb c2 "]"); [by injection H as <- <-|].
      apply bind_Some in H as ([l r'] & Hl & [= <- <-]). by apply IHe in Hl. }
    destruct (Ascii.eqb c "{"); [|by apply parse_atom_unique in H].
    destruct (skip_ws s1) as [|c2 r2]; [done|].
    destruct (Ascii.eqb c2 "}"); [by injection H as <- <-|].
    apply bind_Some in H as ([kvs r'] & Hk & [= <- <-]). apply IHm in Hk. by apply build_dict_unique.
  - cbn [parse_elems] in H. apply bind_Some in H as ([v r1] & Hv & H). apply IHv in Hv.
    destruct (skip_ws r1) as [|c r2]; [done|]. destruct (Ascii.eqb c ",").
    + apply bind_Some in H as ([l r'] & Hl & [= <- <-]). apply IHe in Hl. cbn. by rewrite Hv.
    + destruct (Ascii.eqb c "]"); [|done]. injection H as <- <-. cbn. by rewrite Hv.
  - cbn [parse_members] in H. destruct s as [|c s1]; [done|]. destruct (Ascii.eqb c dq); [|done].
    apply bind_Some in H as ([k r1] & _ & H). destruct (skip_ws r1) as [|c2 r2]; [done|].
    destruct (Ascii.eqb c2 ":"); [|done]. apply bind_Some in H as ([v r3] & Hv & H). apply IHv in Hv.
    destruct (skip_ws r3) as [|c3 r4]; [done|]. destruct (Ascii.eqb c3 ",").
    + apply bind_Some in H as ([l r'] & Hl & [= <- <-]). apply IHm in Hl. by constructor.
    + destruct (Ascii.eqb c3 "}"); [|done]. injection H as <- <-. by repeat constructor.
Qed.

Lemma loads_unique s v : loads s = Some v → keys_unique v = true.
Proof.
  unfold loads. destruct (parse_value _ _) as [[v' r]|] eqn:H; [|done]. case_match; [|done].
  intros [= ->]. by apply parse_unique in H.
Qed.

Lemma dfind_unique d k x :
  keys_unique (VDict d) = true → (VStr k, x) ∈ d → dfind k d = Some x.
Proof.
  cbn [keys_unique]. intros [_ Hnd%bool_decide_eq_true]%andb_true_iff Hin.
  induction d as [|[k1 v1] d IH]; [by apply elem_of_nil in Hin|]. cbn [dfind].
  apply elem_of_cons in Hin as [[= <- <-]|Hin]; [cbn; by rewrite bool_decide_true|].
  destruct k1 as [| | | |s1| | |]; cbn [is_key dict_keys] in *; auto.
  apply NoDup_cons in Hnd as [Hn1 Hnd]. case_bool_decide as Heq; [|auto]. subst. exfalso. apply Hn1.
  clear -Hin. induction d as [|[k2 v2] d IH]; [by apply elem_of_nil in Hin|].
  apply elem_of_cons in Hin as [[= <- <-]|Hin]; [left|]. destruct k2; cbn; try right; auto.
Qed.
