(* ===== verification/Sha256.v ===== *)
(** * SHA-256 and HMAC-SHA256

    The two functions of [hashlib] and [hmac] the code calls, on byte strings
    (a [string] of characters 0..255), with their published test vectors. *)
From Stdlib Require Import Ascii.
From S2P Require Import Prelude.

(** [s.encode("utf-8")] of Latin-1 text. *)
Fixpoint utf8 (s : string) : string :=
  match s with
  | "" => ""
  | String c s' =>
      let n := N_of_ascii c in
      if (n <? 128)%N then String c (utf8 s')
      else String (ascii_of_N (192 + n / 64)) (String (ascii_of_N (128 + n mod 64)) (utf8 s'))
  end.

Section Words.
Local Open Scope N_scope.

Definition w32 (x : N) : N := N.land x 0xffffffff.
Definition add32 (x y : N) : N := w32 (x + y).
Definition rotr (n x : N) : N :=
  N.lor (N.shiftr x n) (w32 (N.shiftl x (32 - n))).

Definition big_sigma0 x := N.lxor (rotr 2 x) (N.lxor (rotr 13 x) (rotr 22 x)).
Definition big_sigma1 x := N.lxor (rotr 6 x) (N.lxor (rotr 11 x) (rotr 25 x)).
Definition small_sigma0 x := N.lxor (rotr 7 x) (N.lxor (rotr 18 x) (N.shiftr x 3)).
Definition small_sigma1 x := N.lxor (rotr 17 x) (N.lxor (rotr 19 x) (N.shiftr x 10)).
Definition ch x y z := N.lxor (N.land x y) (N.land (N.lxor x 0xffffffff) z).
Definition maj x y z := N.lxor (N.land x y) (N.lxor (N.land x z) (N.land y z)).

(** The constants are the first 32 fractional bits of the cube roots (of the
    square roots, for the initial hash) of the first primes: the low word of the
    integer root of the prime scaled by [2^96] (by [2^64]). *)
Fixpoint root_below (bits : nat) (power : N → N) (x r : N) : N :=
  match bits with
  | O => r
  | S b =>
      let r' := r + 2 ^ N.of_nat b in
      root_below b power x (if power r' <=? x then r' else r)
  end.
Definition cube_root_word (p : N) : N :=
  w32 (root_below 36 (fun r => r * r * r) (p * 2 ^ 96) 0).
Definition square_root_word (p : N) : N :=
  w32 (root_below 38 (fun r => r * r) (p * 2 ^ 64) 0).

Definition is_prime (n : N) : bool :=
  forallb (fun d => (n <=? d) || negb (n mod d =? 0)) [2; 3; 5; 7; 11; 13; 17].
Definition first_primes : list N := List.filter is_prime (N.of_nat <$> seq 2 310).
Definition round_constants : list N := Eval vm_compute in cube_root_word <$> first_primes.
Definition initial_hash : list N := Eval vm_compute in square_root_word <$> take 8 first_primes.

Definition nthN (l : list N) (i : nat) : N := default 0 (l !! i).

(** Message schedule, newest word first. *)
Fixpoint extend (n : nat) (w : list N) : list N :=
  match n with
  | O => w
  | S n' =>
      extend n'
        (add32 (add32 (small_sigma1 (nthN w 1)) (nthN w 6))
               (add32 (small_sigma0 (nthN w 14)) (nthN w 15)) :: w)
  end.

Definition round (st : list N) (kw : N * N) : list N :=
  match st with
  | [a; b; c; d; e; f; g; h] =>
      let t1 := add32 (add32 h (big_sigma1 e)) (add32 (ch e f g) (add32 kw.1 kw.2)) in
      let t2 := add32 (big_sigma0 a) (maj a b c) in
      [add32 t1 t2; a; b; c; add32 d t1; e; f; g]
  | _ => st
  end.

Definition compress (st block : list N) : list N :=
  let w := rev (extend 48 (rev block)) in
  zip_with add32 st (foldl round st (zip round_constants w)).

Fixpoint be_words (bytes : list N) : list N :=
  match bytes with
  | a :: b :: c :: d :: rest =>
      N.lor (N.shiftl a 24) (N.lor (N.shiftl b 16) (N.lor (N.shiftl c 8) d)) :: be_words rest
  | _ => []
  end.

Fixpoint be_bytes (n : nat) (x : N) : list N :=
  match n with
  | O => []
  | S n' => be_bytes n' (N.shiftr x 8) ++ [N.land x 255]
  end.

Definition pad (m : list N) : list N :=
  let len := length m in
  m ++ [128] ++ replicate ((119 - len mod 64) mod 64) 0 ++
    be_bytes 8 (8 * N.of_nat len).

Fixpoint blocks (n : nat) (w st : list N) : list N :=
  match n with
  | O => st
  | S n' => blocks n' (drop 16 w) (compress st (take 16 w))
  end.

Definition sha256_bytes (m : list N) : list N :=
  let p := pad m in
  mjoin (be_bytes 4 <$> blocks (length p / 64) (be_words p) initial_hash).
End Words.

Fixpoint bytes_of (s : string) : list N :=
  match s with "" => [] | String c s' => N_of_ascii c :: bytes_of s' end.
Fixpoint of_bytes (l : list N) : string :=
  match l with [] => "" | n :: l' => String (ascii_of_N n) (of_bytes l') end.

Definition hex_char (n : N) : ascii := ascii_of_N (if (n <? 10)%N then 48 + n else 87 + n).
Fixpoint hex (s : string) : string :=
  match s with
  | "" => ""
  | String c s' =>
      String (hex_char (N_of_ascii c / 16)) (String (hex_char (N_of_ascii c mod 16)) (hex s'))
  end.

(** [sha256(m).digest()] and [sha256(m).hexdigest()] *)
Definition sha256_digest (m : string) : string := of_bytes (sha256_bytes (bytes_of m)).
Definition sha256_hex (m : string) : string := hex (sha256_digest m).

(** [hmac.new(key, m, sha256).digest()] and [.hexdigest()] *)
Definition hmac_key (key : string) : list N :=
  let k := bytes_of (if (64 <? String.length key)%nat then sha256_digest key else key) in
  k ++ replicate (64 - length k) 0%N.
Definition hmac_digest (key m : string) : string :=
  let k := hmac_key key in
  let inner := sha256_bytes ((N.lxor 0x36 <$> k) ++ bytes_of m) in
  of_bytes (sha256_bytes ((N.lxor 0x5c <$> k) ++ inner)).
Definition hmac_hex (key m : string) : string := hex (hmac_digest key m).

Example sha256_empty :
  sha256_hex "" = "e3b0c44298fc1c149afbf4c8996fb92427ae41e4649b934ca495991b7852b855".
Proof. vm_compute. reflexivity. Qed.

Example sha256_two_blocks :
  sha256_hex "abcdbcdecdefdefgefghfghighijhijkijkljklmklmnlmnomnopnopq" =
  "248d6a61d20638b8e5c026930c3e6039a33ce45964ff2167f6ecedd419db06c1".
Proof. vm_compute. reflexivity. Qed.

Example hmac_rfc4231 :
  hmac_hex "Jefe" "what do ya want for nothing?" =
  "5bdcc146bf60754e6a042426089575c75a003f089d2739839dec58b964ec3843".
Proof. vm_compute. reflexivity. Qed.

(** ** Encodings are injective *)

Lemma utf8_lead c : N_of_ascii (ascii_of_N (192 + N_of_ascii c / 64)) = (192 + N_of_ascii c / 64)%N.
Proof.
  apply N_ascii_embedding. pose proof (N_ascii_bounded c).
  pose proof (N.Div0.div_lt_upper_bound (N_of_ascii c) 64 4). lia.
Qed.

Lemma utf8_trail c : N_of_ascii (ascii_of_N (128 + N_of_ascii c mod 64)) = (128 + N_of_ascii c mod 64)%N.
Proof. apply N_ascii_embedding. pose proof (N.mod_lt (N_of_ascii c) 64 ltac:(lia)). lia. Qed.

Lemma utf8_cons_inj c d u v :
  utf8 (String c u) = utf8 (String d v) → c = d ∧ utf8 u = utf8 v.
Proof.
  pose proof (utf8_lead c) as Hlc. pose proof (utf8_lead d) as Hld. simpl.
  destruct (N.ltb_spec (N_of_ascii c) 128) as [Hc|Hc],
    (N.ltb_spec (N_of_ascii d) 128) as [Hd|Hd].
  - by intros [= -> ->].
  - intros [= H _]. rewrite H, Hld in Hc. exfalso; clear -Hc; revert Hc; generalize (N_of_ascii d / 64)%N; intros; lia.
  - intros [= H _]. rewrite <-H, Hlc in Hd. exfalso; clear -Hd; revert Hd; generalize (N_of_ascii c / 64)%N; intros; lia.
  - intros [= H1 H2 ->]. split; [|done].
    rewrite <-(ascii_N_embedding c), <-(ascii_N_embedding d). f_equal.
    apply (f_equal N_of_ascii) in H1, H2. rewrite Hlc, Hld in H1.
    rewrite !utf8_trail in H2.
    pose proof (N.Div0.div_mod (N_of_ascii c) 64).
    pose proof (N.Div0.div_mod (N_of_ascii d) 64). lia.
Qed.

Lemma utf8_inj s t : utf8 s = utf8 t → s = t.
Proof.
  revert t; induction s as [|c s IH]; intros [|d t].
  - done.
  - intros H. exfalso. revert H. simpl. by destruct (_ <? _)%N.
  - intros H. exfalso. revert H. simpl. by destruct (_ <? _)%N.
  - intros [-> H]%utf8_cons_inj. f_equal. auto.
Qed.

(** ** Decoding *)

(** [raw.decode("utf-8")], for text in the Latin-1 range: longer sequences, which
    spell text outside it, are refused like malformed ones. *)
Fixpoint utf8_decode (raw : string) : option string :=
  match raw with
  | "" => Some ""
  | String c rest =>
      let n := N_of_ascii c in
      if (n <? 128)%N then text ← utf8_decode rest; Some (String c text)
      else if (n =? 194)%N || (n =? 195)%N then
        match rest with
        | String d rest' =>
            let k := N_of_ascii d in
            if (128 <=? k)%N && (k <? 192)%N then
              text ← utf8_decode rest'; Some (String (ascii_of_N ((n - 192) * 64 + (k - 128))) text)
            else None
        | "" => None
        end
      else None
  end.

Lemma utf8_decode_cons c s :
  utf8_decode (utf8 (String c s)) = text ← utf8_decode (utf8 s); Some (String c text).
Proof. by destruct c as [[][][][][][][][]]. Qed.
Lemma utf8_decode_utf8 s : utf8_decode (utf8 s) = Some s.
Proof. induction s as [|c s IH]; [done|]. by rewrite utf8_decode_cons, IH. Qed.

(** A pair of distinct messages with the same digest. *)
Definition sha256_collision (a b : string) : Prop := a ≠ b ∧ sha256_hex a = sha256_hex b.

Lemma sha256_equal_or_collision a b :
  sha256_hex a = sha256_hex b → a = b ∨ sha256_collision a b.
Proof. intros H. destruct (decide (a = b)); [by left|by right]. Qed.

(** ** The length of a digest *)

Section Lengths.
Local Open Scope N_scope.

Lemma round_length st kw : length st = 8%nat → length (round st kw) = 8%nat.
Proof. by destruct st as [|?[|?[|?[|?[|?[|?[|?[|?[|??]]]]]]]]]. Qed.

Lemma compress_length st block : length st = 8%nat → length (compress st block) = 8%nat.
Proof.
  intros H. unfold compress. rewrite length_zip_with, H.
  assert (∀ kws st, length st = 8%nat → length (foldl round st kws) = 8%nat) as ->; [|done|done].
  induction kws as [|kw kws IH]; intros s Hs; [done|]. apply IH, round_length, Hs.
Qed.

Lemma blocks_length n : ∀ w st, length st = 8%nat → length (blocks n w st) = 8%nat.
Proof. induction n as [|n IH]; intros w st H; [done|]. apply IH, compress_length, H. Qed.

Lemma sha256_bytes_length m : length (sha256_bytes m) = 32%nat.
Proof.
  unfold sha256_bytes. cbv zeta.
  pose proof (blocks_length (length (pad m) / 64) (be_words (pad m)) initial_hash eq_refl) as H.
  destruct (blocks _ _ _) as [|?[|?[|?[|?[|?[|?[|?[|?[|??]]]]]]]]]; done.
Qed.

Lemma of_bytes_length l : String.length (of_bytes l) = length l.
Proof. induction l as [|n l IH]; [done|]. cbn. by rewrite IH. Qed.
Lemma hex_length s : String.length (hex s) = (2 * String.length s)%nat.
Proof. induction s as [|c s IH]; [done|]. cbn [hex String.length]. rewrite IH. lia. Qed.

Lemma sha256_hex_length m : String.length (sha256_hex m) = 64%nat.
Proof. unfold sha256_hex, sha256_digest. by rewrite hex_length, of_bytes_length, sha256_bytes_length. Qed.
End Lengths.
