(* ===== verification/Kernel.v ===== *)
(** * The transition kernel: [src/faultwitness/state/kernel.py]

    A pure interpreter of the compiled contract bundle.  [new_kernel] is
    [TransitionKernel.__init__] with every check in source order, [decide] the
    method of the same name, and [OwnerTransitionService] the view bound to one
    state owner.  A request's optional strings and integers are [option]s, and
    the contract document is a dynamic value ([Json.val]) because the
    constructor validates it. *)
From S2P Require Import Prelude Json Sha256.

(** Exceptions, by class. *)
Inductive kernel_error : Type :=
| ContractRegistryError
| UnknownMachineError
| UnknownTransitionError
| OwnerMismatchError
| ActorMismatchError
| IllegalTransitionError
| CommandMismatchError
| VersionConflictError
| SchemaVersionError
| IdempotencyError
| GuardRejectedError (transition_id : string) (failed_predicates : list string)
| PyTypeError.

Definition error_code (e : kernel_error) : option string :=
  match e with
  | ContractRegistryError => Some "contract_registry_invalid"
  | UnknownMachineError => Some "unknown_machine"
  | UnknownTransitionError => Some "unknown_transition"
  | OwnerMismatchError => Some "owner_mismatch"
  | ActorMismatchError => Some "actor_mismatch"
  | IllegalTransitionError => Some "illegal_transition"
  | CommandMismatchError => Some "command_mismatch"
  | VersionConflictError => Some "version_conflict"
  | SchemaVersionError => Some "schema_version_unknown"
  | IdempotencyError => Some "idempotency_invalid"
  | GuardRejectedError _ _ => Some "guard_rejected"
  | PyTypeError => None
  end.

Definition MACHINE_OWNERS : list (string * string) :=
  [("incident", "CMP-CONTROL-API");
   ("runtime_task", "CMP-SCHEDULER");
   ("agent_graph", "CMP-AGENT-WORKER");
   ("action_transaction", "CMP-ACTION-EXECUTOR")].
Definition GUARD_PREFIX : string := "guard:".
Definition SUPPORTED_CONTRACTS_VERSION : string := "1.1.0".

(** ** Requests and decisions *)

Record TransitionRequest := {
  machine_id : string;
  transition_id : string;
  owner_component : string;
  actor : string;
  aggregate_id : string;
  state : string;
  state_version : Z;
  command : string;
  schema_version : string;
  expected_state_version : option Z;
  idempotency_key : option string;
  reserved_request_digest : option string;
  current_fencing_token : option string;
  fencing_token : option string;
  current_action_digest : option string;
  action_digest : option string;
  facts : option mapping;
}.

(** [TransitionRequest.__post_init__] *)
Definition post_init (r : TransitionRequest) : result kernel_error TransitionRequest :=
  raise_if negb (forallb truthy
    [machine_id r; transition_id r; owner_component r; actor r; aggregate_id r;
     state r; command r; schema_version r]) with_ PyTypeError;;
  raise_if (state_version r <? 0)%Z with_ PyTypeError;;
  raise_if match expected_state_version r with Some v => (v <? 0)%Z | None => false end
    with_ PyTypeError;;
  Ok r.

Record TransitionDecision := {
  d_machine_id : string;
  d_owner_component : string;
  d_transition_id : string;
  d_actor : string;
  d_aggregate_id : string;
  d_previous_state : string;
  d_next_state : string;
  d_previous_state_version : Z;
  d_next_state_version : Z;
  d_command : string;
  d_event : string;
  d_schema_version : string;
  d_automatic : bool;
  d_idempotency_key : option string;
  d_request_digest : string;
  d_evaluated_predicates : list string;
  d_decision_digest : string;
}.

(** ** Predicates *)

Abbreviation Predicate := (TransitionRequest → val).
Abbreviation PredicateRegistry := (gmap string Predicate).

Definition new_registry (predicates : gmap string Predicate) :
    result kernel_error PredicateRegistry :=
  raise_if bool_decide (is_Some (predicates !! "")) with_ ContractRegistryError;;
  Ok predicates.

(** [(request.facts or {}).get(predicate) is True] *)
Definition fact_predicate (name : string) : Predicate := λ request,
  VBool match dget name (default [] (facts request)) with VBool true => true | _ => false end.

Definition fact_registry (names : gset string) : result kernel_error PredicateRegistry :=
  new_registry (set_to_map (λ name, (name, fact_predicate name)) names).

Definition evaluate (reg : PredicateRegistry) (name : string) (request : TransitionRequest) :
    result kernel_error bool :=
  match reg !! name with
  | None => Err ContractRegistryError
  | Some predicate =>
      match predicate request with
      | VBool b => Ok b
      | _ => Err ContractRegistryError
      end
  end.

(** ** Document helpers *)

Definition as_mapping (value : val) : result kernel_error mapping :=
  match value with
  | VDict d => raise_if negb (forallb key_is_str d) with_ ContractRegistryError;; Ok d
  | _ => Err ContractRegistryError
  end.

Definition nonempty_string (value : val) : result kernel_error string :=
  match value with
  | VStr s => raise_if negb (truthy s) with_ ContractRegistryError;; Ok s
  | _ => Err ContractRegistryError
  end.

Definition as_list (value : val) : result kernel_error (list val) :=
  match value with VList l => Ok l | _ => Err ContractRegistryError end.

Definition as_bool (value : val) : result kernel_error bool :=
  match value with VBool b => Ok b | _ => Err ContractRegistryError end.

(** [len(xs) != len(set(xs))] *)
Definition has_duplicates (xs : list string) : bool :=
  negb (bool_decide (length xs = size (list_to_set xs : gset string))).

Definition string_set (value : val) : result kernel_error (gset string) :=
  let* l := as_list value in
  raise_if bool_decide (l = []) with_ ContractRegistryError;;
  let* strings := rmapM nonempty_string l in
  raise_if has_duplicates strings with_ ContractRegistryError;;
  Ok (list_to_set strings).

Definition index_entry (indexed : gmap string mapping) (item : val) :
    result kernel_error (gmap string mapping) :=
  let* entry := as_mapping item in
  let* identifier := nonempty_string (dget "id" entry) in
  raise_if bool_decide (is_Some (indexed !! identifier)) with_ ContractRegistryError;;
  Ok (<[identifier := entry]> indexed).

Definition index_registry (value : val) : result kernel_error (gmap string mapping) :=
  let* l := as_list value in rfold index_entry l ∅.

(** ** The kernel's state *)

Record transition := {
  tr_id : string;
  tr_actor : string;
  tr_automatic : bool;
  tr_from : string;
  tr_to : string;
  tr_command : string;
  tr_event : string;
  tr_guard_predicate : string;
  tr_preconditions : list string;
}.

Record machine := {
  m_machine_id : string;
  m_owner_component : string;
  m_states : gset string;
  m_terminal_states : gset string;
  m_transitions : gmap string transition;
}.

Record TransitionKernel := {
  k_contracts_version : string;
  k_commands : gmap string mapping;
  k_events : gmap string mapping;
  k_machines : gmap string machine;
  k_predicates : PredicateRegistry;
  k_predicate_names : gset string;
}.

(** The sets the constructor accumulates over all machines. *)
Record used := {
  used_predicates : gset string;
  used_commands : gset string;
  used_events : gset string;
}.
Definition no_use : used := {| used_predicates := ∅; used_commands := ∅; used_events := ∅ |}.

Definition IDEMPOTENCY_POLICIES := ["required"; "derived"; "not_applicable"].
Definition VERSION_POLICIES := ["state_version"; "fencing_token"; "digest_and_state_version"].

Definition check_command (_ : unit) (c : string * mapping) : result kernel_error unit :=
  let* _ := nonempty_string (dget "owner" c.2) in
  raise_if negb (hashable (dget "idempotency" c.2)) with_ PyTypeError;;
  raise_if negb (val_in (dget "idempotency" c.2) IDEMPOTENCY_POLICIES)
    with_ ContractRegistryError;;
  raise_if negb (hashable (dget "version_check" c.2)) with_ PyTypeError;;
  raise_if negb (val_in (dget "version_check" c.2) VERSION_POLICIES)
    with_ ContractRegistryError;;
  Ok tt.

Definition check_event (_ : unit) (e : string * mapping) : result kernel_error unit :=
  let* _ := nonempty_string (dget "producer" e.2) in
  raise_if negb (val_is (dget "delivery" e.2) "at_least_once")
           || negb (val_is (dget "dedupe_key" e.2) "event_id")
    with_ ContractRegistryError;;
  Ok tt.

Definition str_field (k : string) (d : mapping) : string :=
  match dget k d with VStr s => s | _ => "" end.

Definition known_components (commands events : gmap string mapping) : gset string :=
  list_to_set ((λ c, str_field "owner" c.2) <$> map_to_list commands) ∪
  list_to_set ((λ e, str_field "producer" e.2) <$> map_to_list events) ∪
  list_to_set MACHINE_OWNERS.*2.

Section Load.
Context (commands events : gmap string mapping) (known : gset string).

(** One iteration of the transition loop of [__init__]. *)
Definition load_transition (states : gset string)
    (acc : gmap string transition * used) (raw_transition : val) :
    result kernel_error (gmap string transition * used) :=
  let '(transitions, u) := acc in
  let* transition := as_mapping raw_transition in
  let* transition_id := nonempty_string (dget "id" transition) in
  raise_if bool_decide (is_Some (transitions !! transition_id))
    with_ ContractRegistryError;;
  let* actor := nonempty_string (dget "actor" transition) in
  raise_if bool_decide (actor ∉ known) with_ ContractRegistryError;;
  let* _ := nonempty_string (dget "guard" transition) in
  let* automatic := as_bool (dget "automatic" transition) in
  let* source := nonempty_string (dget "from" transition) in
  let* target := nonempty_string (dget "to" transition) in
  raise_if bool_decide (source ∉ states) || bool_decide (target ∉ states)
    with_ ContractRegistryError;;
  let* command := nonempty_string (dget "command" transition) in
  let* event := nonempty_string (dget "event" transition) in
  raise_if bool_decide (commands !! command = None) with_ ContractRegistryError;;
  raise_if bool_decide (events !! event = None) with_ ContractRegistryError;;
  let* preconditions := as_list (dget "preconditions" transition) in
  raise_if bool_decide (preconditions = []) with_ ContractRegistryError;;
  let* predicate_names := rmapM nonempty_string preconditions in
  raise_if has_duplicates predicate_names with_ ContractRegistryError;;
  let guard_predicate := GUARD_PREFIX +:+ transition_id in
  Ok (<[transition_id := {|
         tr_id := transition_id; tr_actor := actor; tr_automatic := automatic;
         tr_from := source; tr_to := target; tr_command := command; tr_event := event;
         tr_guard_predicate := guard_predicate;
         tr_preconditions := predicate_names |}]> transitions,
      {| used_predicates := set_update predicate_names
           (set_add guard_predicate (used_predicates u));
         used_commands := set_add command (used_commands u);
         used_events := set_add event (used_events u) |}).

(** One iteration of the machine loop of [__init__]. *)
Definition load_machine (documents : mapping)
    (acc : gmap string machine * used) (spec : string * string) :
    result kernel_error (gmap string machine * used) :=
  let '(machines, u) := acc in
  let '(machine_id, expected_owner) := spec in
  let* raw := as_mapping (dget ("state_machine." +:+ machine_id) documents) in
  raise_if negb (val_is (dget "id" raw) machine_id) with_ ContractRegistryError;;
  raise_if negb (val_is (dget "owner_component" raw) expected_owner)
    with_ ContractRegistryError;;
  let* states := string_set (dget "states" raw) in
  let* terminal_states := string_set (dget "terminal_states" raw) in
  raise_if negb (subset_of terminal_states states) with_ ContractRegistryError;;
  let* raw_transitions := as_list (dget "transitions" raw) in
  let* (transitions, u) := rfold (load_transition states) raw_transitions (∅, u) in
  Ok (<[machine_id := {|
         m_machine_id := machine_id; m_owner_component := expected_owner;
         m_states := states; m_terminal_states := terminal_states;
         m_transitions := transitions |}]> machines, u).
End Load.

(** [TransitionKernel.__init__] *)
Definition new_kernel (resource : mapping) (predicates : PredicateRegistry) :
    result kernel_error TransitionKernel :=
  let* contracts_version := nonempty_string (dget "contracts_version" resource) in
  raise_if bool_decide (contracts_version ≠ SUPPORTED_CONTRACTS_VERSION)
    with_ ContractRegistryError;;
  let* documents := as_mapping (dget "documents" resource) in
  let* catalog := as_mapping (dget "commands_events" documents) in
  let* commands := index_registry (dget "commands" catalog) in
  let* events := index_registry (dget "events" catalog) in
  let* _ := rfold check_command (map_to_list commands) tt in
  let* _ := rfold check_event (map_to_list events) tt in
  let known := known_components commands events in
  let* (machines, u) :=
    rfold (load_machine commands events known documents) MACHINE_OWNERS (∅, no_use) in
  raise_if bool_decide (keys_outside commands (used_commands u) ≠ [])
    with_ ContractRegistryError;;
  raise_if bool_decide (keys_outside events (used_events u) ≠ []) with_ ContractRegistryError;;
  let missing := absent_keys (used_predicates u) predicates in
  let unknown := keys_outside predicates (used_predicates u) in
  raise_if bool_decide (missing ≠ []) || bool_decide (unknown ≠ [])
    with_ ContractRegistryError;;
  Ok {| k_contracts_version := contracts_version; k_commands := commands;
        k_events := events; k_machines := machines; k_predicates := predicates;
        k_predicate_names := used_predicates u |}.

(** [TransitionKernel.required_predicates] *)
Definition required_of_transition (names : gset string) (raw : val) :
    result kernel_error (gset string) :=
  let* item := as_mapping raw in
  let* transition_id := nonempty_string (dget "id" item) in
  let* preconditions := as_list (dget "preconditions" item) in
  let* pnames := rmapM nonempty_string preconditions in
  Ok (set_update pnames (set_add (GUARD_PREFIX +:+ transition_id) names)).

Definition required_of_machine (documents : mapping) (names : gset string)
    (spec : string * string) : result kernel_error (gset string) :=
  let* machine := as_mapping (dget ("state_machine." +:+ spec.1) documents) in
  let* transitions := as_list (dget "transitions" machine) in
  rfold required_of_transition transitions names.

Definition required_predicates (resource : mapping) : result kernel_error (gset string) :=
  let* documents := as_mapping (dget "documents" resource) in
  rfold (required_of_machine documents) MACHINE_OWNERS ∅.

(** ** Deciding a transition *)

(** [sha256(json.dumps(v, sort_keys=True, separators=(",", ":")).encode("utf-8")).hexdigest()] *)
Definition digest_of (v : val) : string := sha256_hex (utf8 (canonical_json v)).

Definition str_list (l : list string) : val := VList (VStr <$> l).

Definition request_material (request : TransitionRequest) (key : option string)
    (predicate_order : list string) : val :=
  sdict [("action_digest", opt_str (action_digest request));
         ("actor", VStr (actor request));
         ("aggregate_id", VStr (aggregate_id request));
         ("command", VStr (command request));
         ("expected_state_version", opt_int (expected_state_version request));
         ("fencing_token", opt_str (fencing_token request));
         ("idempotency_key", opt_str key);
         ("machine_id", VStr (machine_id request));
         ("owner_component", VStr (owner_component request));
         ("predicates", str_list predicate_order);
         ("schema_version", VStr (schema_version request));
         ("state", VStr (state request));
         ("state_version", VInt (state_version request));
         ("transition_id", VStr (transition_id request))].

Definition request_digest (request : TransitionRequest) (key : option string)
    (predicate_order : list string) : string :=
  digest_of (request_material request key predicate_order).

(** [not current or supplied != current] *)
Definition stale (current supplied : option string) : bool :=
  match current with
  | Some c => negb (truthy c) || bool_decide (supplied ≠ Some c)
  | None => true
  end.

Definition check_versions (request : TransitionRequest) (t : transition) (cmd : mapping) :
    result kernel_error unit :=
  let version_check := dget "version_check" cmd in
  let requires_state := val_in version_check ["state_version"; "digest_and_state_version"]
    || bool_decide ("expected_state_version" ∈ tr_preconditions t) in
  raise_if requires_state &&
           bool_decide (expected_state_version request ≠ Some (state_version request))
    with_ VersionConflictError;;
  if val_is version_check "fencing_token" then
    raise_if stale (current_fencing_token request) (fencing_token request)
      with_ VersionConflictError;; Ok tt
  else if val_is version_check "digest_and_state_version" then
    raise_if stale (current_action_digest request) (action_digest request)
      with_ VersionConflictError;; Ok tt
  else if negb (val_is version_check "state_version") then Err ContractRegistryError
  else Ok tt.

Definition derived_material (request : TransitionRequest) : val :=
  sdict [("aggregate_id", VStr (aggregate_id request));
         ("command", VStr (command request));
         ("machine_id", VStr (machine_id request));
         ("state_version", VInt (state_version request));
         ("transition_id", VStr (transition_id request))].

(** [TransitionKernel._idempotency_key] *)
Definition choose_key (request : TransitionRequest) (cmd : mapping) :
    result kernel_error (option string) :=
  let policy := dget "idempotency" cmd in
  let supplied := idempotency_key request in
  if val_is policy "required" then
    match supplied with
    | Some s => if truthy s then Ok (Some s) else Err IdempotencyError
    | None => Err IdempotencyError
    end
  else if val_is policy "derived" then
    raise_if bool_decide (supplied ≠ None) with_ IdempotencyError;;
    Ok (Some ("derived:" +:+ digest_of (derived_material request)))
  else if val_is policy "not_applicable" then
    raise_if bool_decide (supplied ≠ None) with_ IdempotencyError;; Ok None
  else Err ContractRegistryError.

(** [tuple(name for name in order if not evaluate(name, request))] *)
Fixpoint failed_predicates (reg : PredicateRegistry) (request : TransitionRequest)
    (order : list string) : result kernel_error (list string) :=
  match order with
  | [] => Ok []
  | name :: rest =>
      let* holds := evaluate reg name request in
      let* failed := failed_predicates reg request rest in
      Ok (if holds then failed else name :: failed)
  end.

Definition decision_fields (request : TransitionRequest) (m : machine) (t : transition)
    (version : string) (key : option string) (predicate_order : list string)
    (digest : string) : val :=
  sdict [("actor", VStr (actor request));
         ("aggregate_id", VStr (aggregate_id request));
         ("automatic", VBool (tr_automatic t));
         ("command", VStr (command request));
         ("evaluated_predicates", str_list predicate_order);
         ("event", VStr (tr_event t));
         ("idempotency_key", opt_str key);
         ("machine_id", VStr (machine_id request));
         ("next_state", VStr (tr_to t));
         ("next_state_version", VInt (state_version request + 1));
         ("owner_component", VStr (m_owner_component m));
         ("previous_state", VStr (state request));
         ("previous_state_version", VInt (state_version request));
         ("request_digest", VStr digest);
         ("schema_version", VStr version);
         ("transition_id", VStr (transition_id request))].

(** [TransitionKernel.decide] *)
Definition decide_transition (k : TransitionKernel) (request : TransitionRequest) :
    result kernel_error TransitionDecision :=
  raise_if bool_decide (schema_version request ≠ k_contracts_version k)
    with_ SchemaVersionError;;
  let* m := from_option_or UnknownMachineError (k_machines k !! machine_id request) in
  raise_if bool_decide (owner_component request ≠ m_owner_component m)
    with_ OwnerMismatchError;;
  let* t := from_option_or UnknownTransitionError
              (m_transitions m !! transition_id request) in
  raise_if bool_decide (state request ∈ m_terminal_states m) with_ IllegalTransitionError;;
  raise_if bool_decide (state request ≠ tr_from t) with_ IllegalTransitionError;;
  raise_if bool_decide (actor request ≠ tr_actor t) with_ ActorMismatchError;;
  raise_if bool_decide (command request ≠ tr_command t) with_ CommandMismatchError;;
  let cmd := default [] (k_commands k !! command request) in
  let* _ := check_versions request t cmd in
  let* key := choose_key request cmd in
  let predicate_order := tr_guard_predicate t :: tr_preconditions t in
  let* failed := failed_predicates (k_predicates k) request predicate_order in
  raise_if bool_decide (failed ≠ []) with_ GuardRejectedError (transition_id request) failed;;
  let digest := request_digest request key predicate_order in
  raise_if match reserved_request_digest request with
           | Some reserved => bool_decide (reserved ≠ digest)
           | None => false
           end with_ IdempotencyError;;
  let fields := decision_fields request m t (k_contracts_version k) key predicate_order digest in
  Ok {| d_machine_id := machine_id request;
        d_owner_component := m_owner_component m;
        d_transition_id := transition_id request;
        d_actor := actor request;
        d_aggregate_id := aggregate_id request;
        d_previous_state := state request;
        d_next_state := tr_to t;
        d_previous_state_version := state_version request;
        d_next_state_version := state_version request + 1;
        d_command := command request;
        d_event := tr_event t;
        d_schema_version := k_contracts_version k;
        d_automatic := tr_automatic t;
        d_idempotency_key := key;
        d_request_digest := digest;
        d_evaluated_predicates := predicate_order;
        d_decision_digest := digest_of fields |}.

(** ** The per-owner view *)

Record OwnerTransitionService := {
  s_kernel : TransitionKernel;
  s_machine_id : string;
  s_owner_component : string;
}.

Definition service (k : TransitionKernel) (machine_id : string) :
    result kernel_error OwnerTransitionService :=
  let* m := from_option_or UnknownMachineError (k_machines k !! machine_id) in
  Ok {| s_kernel := k; s_machine_id := m_machine_id m;
        s_owner_component := m_owner_component m |}.

Definition service_decide (s : OwnerTransitionService) (request : TransitionRequest) :
    result kernel_error TransitionDecision :=
  raise_if bool_decide (machine_id request ≠ s_machine_id s) with_ OwnerMismatchError;;
  raise_if bool_decide (owner_component request ≠ s_owner_component s)
    with_ OwnerMismatchError;;
  decide_transition (s_kernel s) request.
