(* ===== verification/ContractData.v ===== *)
(** * The shipped contract bundle

    The catalogue and the four state machines of
    [src/faultwitness/contracts/generated/contracts-v1.1.0.json], the resource
    [load_contract_resource()] returns, as dynamic values.  The generated file
    also holds the type, failure, AsyncAPI and OpenAPI documents, which the
    transition kernel does not read. *)
From S2P Require Import Prelude Json.

Definition strs (l : list string) : val := VList (VStr <$> l).
Definition obj (l : list (string * val)) : val := sdict l.

Definition doc_commands_events : val :=
  obj [("commands", VList [
      obj [("errors", strs ["ERR-UNAUTHENTICATED"; "ERR-CONFLICT"; "ERR-QUOTA"; "ERR-INVALID-REQUEST"]);
        ("id", VStr "CMD-CREATE-INCIDENT");
        ("idempotency", VStr "required");
        ("owner", VStr "CMP-CONTROL-API");
        ("purpose", VStr "Create or return an idempotent tenant-scoped Incident.");
        ("sender", VStr "authenticated edge");
        ("version_check", VStr "state_version")];
      obj [("errors", strs ["ERR-CONFLICT"; "ERR-FORBIDDEN"]);
        ("id", VStr "CMD-START-INVESTIGATION");
        ("idempotency", VStr "derived");
        ("owner", VStr "CMP-CONTROL-API");
        ("purpose", VStr "Record a valid Runtime Task attempt starting investigation.");
        ("sender", VStr "Scheduler event consumer");
        ("version_check", VStr "state_version")];
      obj [("errors", strs ["ERR-CONFLICT"; "ERR-INVALID-REQUEST"]);
        ("id", VStr "CMD-RECORD-DIAGNOSIS");
        ("idempotency", VStr "required");
        ("owner", VStr "CMP-CONTROL-API");
        ("purpose", VStr "Record an evidence-linked diagnosis and Final Report.");
        ("sender", VStr "Agent Worker");
        ("version_check", VStr "state_version")];
      obj [("errors", strs ["ERR-CONFLICT"; "ERR-FORBIDDEN"; "ERR-INVALID-REQUEST"]);
        ("id", VStr "CMD-RECORD-ACTION-PROPOSAL");
        ("idempotency", VStr "required");
        ("owner", VStr "CMP-CONTROL-API");
        ("purpose", VStr "Record a canonical ActionProposal and its immutable digest.");
        ("sender", VStr "Agent Worker");
        ("version_check", VStr "state_version")];
      obj [("errors", strs ["ERR-UNAUTHENTICATED"; "ERR-FORBIDDEN"; "ERR-CONFLICT"]);
        ("id", VStr "CMD-RECORD-APPROVAL-DECISION");
        ("idempotency", VStr "required");
        ("owner", VStr "CMP-CONTROL-API");
        ("purpose", VStr "Record approve reject or expiry against the exact pending digest.");
        ("sender", VStr "authenticated approver");
        ("version_check", VStr "digest_and_state_version")];
      obj [("errors", strs ["ERR-CONFLICT"; "ERR-UNCERTAIN"]);
        ("id", VStr "CMD-RECORD-ACTION-RESULT");
        ("idempotency", VStr "derived");
        ("owner", VStr "CMP-CONTROL-API");
        ("purpose", VStr "Project a typed known or uncertain action result into Incident state.");
        ("sender", VStr "Action Executor");
        ("version_check", VStr "state_version")];
      obj [("errors", strs ["ERR-CONFLICT"; "ERR-INVALID-REQUEST"]);
        ("id", VStr "CMD-RECORD-OUTCOME-VERIFICATION");
        ("idempotency", VStr "required");
        ("owner", VStr "CMP-CONTROL-API");
        ("purpose", VStr "Record postcondition evidence and select resolve compensate or escalate.");
        ("sender", VStr "Agent Worker or Action Executor");
        ("version_check", VStr "state_version")];
      obj [("errors", strs ["ERR-CONFLICT"; "ERR-UNCERTAIN"]);
        ("id", VStr "CMD-RECORD-COMPENSATION");
        ("idempotency", VStr "derived");
        ("owner", VStr "CMP-CONTROL-API");
        ("purpose", VStr "Record verified compensation or an uncertain rollback outcome.");
        ("sender", VStr "Action Executor");
        ("version_check", VStr "state_version")];
      obj [("errors", strs ["ERR-UNAUTHENTICATED"; "ERR-FORBIDDEN"; "ERR-CONFLICT"]);
        ("id", VStr "CMD-CANCEL-INCIDENT");
        ("idempotency", VStr "required");
        ("owner", VStr "CMP-CONTROL-API");
        ("purpose", VStr "Request tenant-scoped Incident cancellation at a safe point.");
        ("sender", VStr "authenticated operator");
        ("version_check", VStr "state_version")];
      obj [("errors", strs ["ERR-CONFLICT"; "ERR-INVALID-REQUEST"]);
        ("id", VStr "CMD-ESCALATE-INCIDENT");
        ("idempotency", VStr "derived");
        ("owner", VStr "CMP-CONTROL-API");
        ("purpose", VStr "Terminate an Incident with a typed reason and retained evidence.");
        ("sender", VStr "system component");
        ("version_check", VStr "state_version")];
      obj [("errors", strs ["ERR-CONFLICT"; "ERR-QUOTA"]);
        ("id", VStr "CMD-ACQUIRE-TASK-LEASE");
        ("idempotency", VStr "derived");
        ("owner", VStr "CMP-SCHEDULER");
        ("purpose", VStr "Lease a pending task with a new attempt and monotonic fencing token.");
        ("sender", VStr "Scheduler loop");
        ("version_check", VStr "state_version")];
      obj [("errors", strs ["ERR-STALE-LEASE"; "ERR-CONFLICT"]);
        ("id", VStr "CMD-START-TASK-ATTEMPT");
        ("idempotency", VStr "required");
        ("owner", VStr "CMP-SCHEDULER");
        ("purpose", VStr "Start work under the current task lease and fencing token.");
        ("sender", VStr "Agent Worker");
        ("version_check", VStr "fencing_token")];
      obj [("errors", strs ["ERR-STALE-LEASE"; "ERR-CONFLICT"]);
        ("id", VStr "CMD-COMPLETE-TASK");
        ("idempotency", VStr "required");
        ("owner", VStr "CMP-SCHEDULER");
        ("purpose", VStr "Commit a terminal task result from a valid fenced attempt.");
        ("sender", VStr "Agent Worker");
        ("version_check", VStr "fencing_token")];
      obj [("errors", strs ["ERR-STALE-LEASE"; "ERR-CONFLICT"]);
        ("id", VStr "CMD-PAUSE-TASK");
        ("idempotency", VStr "required");
        ("owner", VStr "CMP-SCHEDULER");
        ("purpose", VStr "Pause after durable graph interrupt checkpoint and release the lease.");
        ("sender", VStr "Agent Worker");
        ("version_check", VStr "fencing_token")];
      obj [("errors", strs ["ERR-CONFLICT"; "ERR-FORBIDDEN"]);
        ("id", VStr "CMD-RESUME-TASK");
        ("idempotency", VStr "required");
        ("owner", VStr "CMP-SCHEDULER");
        ("purpose", VStr "Requeue a paused task as a new attempt from its checkpoint.");
        ("sender", VStr "Control API");
        ("version_check", VStr "state_version")];
      obj [("errors", strs ["ERR-CONFLICT"; "ERR-RETRY-EXHAUSTED"]);
        ("id", VStr "CMD-RETRY-TASK");
        ("idempotency", VStr "derived");
        ("owner", VStr "CMP-SCHEDULER");
        ("purpose", VStr "Schedule bounded backoff or requeue while attempt budget remains.");
        ("sender", VStr "Scheduler loop");
        ("version_check", VStr "state_version")];
      obj [("errors", strs ["ERR-STALE-LEASE"; "ERR-CONFLICT"]);
        ("id", VStr "CMD-FAIL-TASK");
        ("idempotency", VStr "required");
        ("owner", VStr "CMP-SCHEDULER");
        ("purpose", VStr "Record a typed non-retryable or exhausted terminal task failure.");
        ("sender", VStr "Agent Worker or Scheduler");
        ("version_check", VStr "fencing_token")];
      obj [("errors", strs ["ERR-CONFLICT"; "ERR-FORBIDDEN"]);
        ("id", VStr "CMD-CANCEL-TASK");
        ("idempotency", VStr "required");
        ("owner", VStr "CMP-SCHEDULER");
        ("purpose", VStr "Request and complete task cancellation after a safe checkpoint.");
        ("sender", VStr "Control API");
        ("version_check", VStr "state_version")];
      obj [("errors", strs ["ERR-STALE-LEASE"; "ERR-CONFLICT"; "ERR-INVALID-REQUEST"]);
        ("id", VStr "CMD-ADVANCE-AGENT-GRAPH");
        ("idempotency", VStr "derived");
        ("owner", VStr "CMP-AGENT-WORKER");
        ("purpose", VStr "Apply a typed guarded graph transition and durable checkpoint.");
        ("sender", VStr "Agent Worker node");
        ("version_check", VStr "fencing_token")];
      obj [("errors", strs ["ERR-STALE-LEASE"; "ERR-QUOTA"; "ERR-FORBIDDEN"]);
        ("id", VStr "CMD-PLAN-PROBES");
        ("idempotency", VStr "required");
        ("owner", VStr "CMP-AGENT-WORKER");
        ("purpose", VStr "Create bounded novel probes when evidence remains insufficient.");
        ("sender", VStr "Agent Worker verifier");
        ("version_check", VStr "fencing_token")];
      obj [("errors", strs ["ERR-STALE-LEASE"; "ERR-FORBIDDEN"; "ERR-INVALID-REQUEST"]);
        ("id", VStr "CMD-PROPOSE-ACTION");
        ("idempotency", VStr "required");
        ("owner", VStr "CMP-AGENT-WORKER");
        ("purpose", VStr "Create a typed evidence-linked ActionProposal without executing it.");
        ("sender", VStr "Agent Worker verifier");
        ("version_check", VStr "fencing_token")];
      obj [("errors", strs ["ERR-FORBIDDEN"; "ERR-DEPENDENCY-UNAVAILABLE"]);
        ("id", VStr "CMD-REQUEST-POLICY-DECISION");
        ("idempotency", VStr "required");
        ("owner", VStr "CMP-POLICY-ENGINE");
        ("purpose", VStr "Request risk scope and obligation evaluation for a canonical proposal.");
        ("sender", VStr "Agent Worker");
        ("version_check", VStr "digest_and_state_version")];
      obj [("errors", strs ["ERR-STALE-LEASE"; "ERR-CONFLICT"; "ERR-FORBIDDEN"]);
        ("id", VStr "CMD-RESUME-AGENT-AFTER-APPROVAL");
        ("idempotency", VStr "required");
        ("owner", VStr "CMP-AGENT-WORKER");
        ("purpose", VStr "Resume an interrupted graph with a matching immutable approval grant.");
        ("sender", VStr "Control API");
        ("version_check", VStr "digest_and_state_version")];
      obj [("errors", strs ["ERR-STALE-LEASE"; "ERR-CONFLICT"; "ERR-FORBIDDEN"]);
        ("id", VStr "CMD-DISPATCH-ACTION-PROPOSAL");
        ("idempotency", VStr "required");
        ("owner", VStr "CMP-ACTION-EXECUTOR");
        ("purpose", VStr "Submit an authorized proposal to the sole privileged executor.");
        ("sender", VStr "Agent Worker");
        ("version_check", VStr "digest_and_state_version")];
      obj [("errors", strs ["ERR-CONFLICT"; "ERR-FORBIDDEN"; "ERR-UNCERTAIN"]);
        ("id", VStr "CMD-REQUEST-COMPENSATION");
        ("idempotency", VStr "required");
        ("owner", VStr "CMP-ACTION-EXECUTOR");
        ("purpose", VStr "Request typed compensation for a verified failed postcondition.");
        ("sender", VStr "Agent Worker");
        ("version_check", VStr "digest_and_state_version")];
      obj [("errors", strs ["ERR-STALE-LEASE"; "ERR-CONFLICT"]);
        ("id", VStr "CMD-ESCALATE-AGENT-GRAPH");
        ("idempotency", VStr "derived");
        ("owner", VStr "CMP-AGENT-WORKER");
        ("purpose", VStr "Terminate the graph with a typed safe escalation reason.");
        ("sender", VStr "Agent Worker node");
        ("version_check", VStr "fencing_token")];
      obj [("errors", strs ["ERR-CONFLICT"; "ERR-FORBIDDEN"; "ERR-DEPENDENCY-UNAVAILABLE"]);
        ("id", VStr "CMD-AUTHORIZE-ACTION");
        ("idempotency", VStr "derived");
        ("owner", VStr "CMP-ACTION-EXECUTOR");
        ("purpose", VStr "Record R1 authorization R2 approval requirement or R3 rejection.");
        ("sender", VStr "Policy Engine");
        ("version_check", VStr "digest_and_state_version")];
      obj [("errors", strs ["ERR-CONFLICT"; "ERR-FORBIDDEN"]);
        ("id", VStr "CMD-ACTION-APPROVAL-DECISION");
        ("idempotency", VStr "required");
        ("owner", VStr "CMP-ACTION-EXECUTOR");
        ("purpose", VStr "Apply approve reject expiry or cancel to the pending ActionTransaction.");
        ("sender", VStr "Control API");
        ("version_check", VStr "digest_and_state_version")];
      obj [("errors", strs ["ERR-CONFLICT"; "ERR-FORBIDDEN"; "ERR-DEPENDENCY-UNAVAILABLE"]);
        ("id", VStr "CMD-DISPATCH-ACTION");
        ("idempotency", VStr "required");
        ("owner", VStr "CMP-ACTION-EXECUTOR");
        ("purpose", VStr "Dispatch one typed authorized action after all bindings revalidate.");
        ("sender", VStr "Action Executor coordinator");
        ("version_check", VStr "digest_and_state_version")];
      obj [("errors", strs ["ERR-CONFLICT"; "ERR-UNCERTAIN"]);
        ("id", VStr "CMD-RECORD-ACTION-RECEIPT");
        ("idempotency", VStr "derived");
        ("owner", VStr "CMP-ACTION-EXECUTOR");
        ("purpose", VStr "Record a known receipt or explicit uncertain effect without blind retry.");
        ("sender", VStr "typed SUT adapter");
        ("version_check", VStr "state_version")];
      obj [("errors", strs ["ERR-CONFLICT"; "ERR-DEPENDENCY-UNAVAILABLE"]);
        ("id", VStr "CMD-VERIFY-ACTION");
        ("idempotency", VStr "required");
        ("owner", VStr "CMP-ACTION-EXECUTOR");
        ("purpose", VStr "Evaluate versioned external postconditions and persist evidence.");
        ("sender", VStr "Action Executor verifier");
        ("version_check", VStr "state_version")];
      obj [("errors", strs ["ERR-CONFLICT"; "ERR-UNCERTAIN"; "ERR-DEPENDENCY-UNAVAILABLE"]);
        ("id", VStr "CMD-COMPENSATE-ACTION");
        ("idempotency", VStr "required");
        ("owner", VStr "CMP-ACTION-EXECUTOR");
        ("purpose", VStr "Execute and verify the typed compensation bound to the digest.");
        ("sender", VStr "Action Executor verifier");
        ("version_check", VStr "digest_and_state_version")];
      obj [("errors", strs ["ERR-CONFLICT"; "ERR-UNCERTAIN"; "ERR-DEPENDENCY-UNAVAILABLE"]);
        ("id", VStr "CMD-RECONCILE-ACTION");
        ("idempotency", VStr "required");
        ("owner", VStr "CMP-ACTION-EXECUTOR");
        ("purpose", VStr "Read external truth to resolve uncertainty without redispatch.");
        ("sender", VStr "Action Executor reconciler");
        ("version_check", VStr "state_version")];
      obj [("errors", strs ["ERR-CONFLICT"; "ERR-FORBIDDEN"]);
        ("id", VStr "CMD-CANCEL-ACTION");
        ("idempotency", VStr "required");
        ("owner", VStr "CMP-ACTION-EXECUTOR");
        ("purpose", VStr "Cancel an action only before dispatch and invalidate its approval.");
        ("sender", VStr "Control API");
        ("version_check", VStr "digest_and_state_version")]]);
    ("events", VList [
      obj [("dedupe_key", VStr "event_id");
        ("delivery", VStr "at_least_once");
        ("id", VStr "EVT-INCIDENT-CREATED");
        ("producer", VStr "CMP-CONTROL-API");
        ("purpose", VStr "Announce durable tenant-scoped Incident creation.")];
      obj [("dedupe_key", VStr "event_id");
        ("delivery", VStr "at_least_once");
        ("id", VStr "EVT-INVESTIGATION-STARTED");
        ("producer", VStr "CMP-CONTROL-API");
        ("purpose", VStr "Announce that a valid Runtime attempt started investigation.")];
      obj [("dedupe_key", VStr "event_id");
        ("delivery", VStr "at_least_once");
        ("id", VStr "EVT-DIAGNOSIS-COMPLETED");
        ("producer", VStr "CMP-CONTROL-API");
        ("purpose", VStr "Publish an evidence-linked diagnosis-only terminal result.")];
      obj [("dedupe_key", VStr "event_id");
        ("delivery", VStr "at_least_once");
        ("id", VStr "EVT-ACTION-REQUESTED");
        ("producer", VStr "CMP-CONTROL-API");
        ("purpose", VStr "Publish an Incident action proposal and immutable digest.")];
      obj [("dedupe_key", VStr "event_id");
        ("delivery", VStr "at_least_once");
        ("id", VStr "EVT-APPROVAL-RECORDED");
        ("producer", VStr "CMP-CONTROL-API");
        ("purpose", VStr "Publish a tenant-scoped decision for an exact action digest.")];
      obj [("dedupe_key", VStr "event_id");
        ("delivery", VStr "at_least_once");
        ("id", VStr "EVT-ACTION-RESULT-RECORDED");
        ("producer", VStr "CMP-ACTION-EXECUTOR");
        ("purpose", VStr "Publish a known or uncertain ActionTransaction result.")];
      obj [("dedupe_key", VStr "event_id");
        ("delivery", VStr "at_least_once");
        ("id", VStr "EVT-OUTCOME-VERIFIED");
        ("producer", VStr "CMP-CONTROL-API");
        ("purpose", VStr "Publish attributable Incident postcondition verification.")];
      obj [("dedupe_key", VStr "event_id");
        ("delivery", VStr "at_least_once");
        ("id", VStr "EVT-COMPENSATION-REQUESTED");
        ("producer", VStr "CMP-AGENT-WORKER");
        ("purpose", VStr "Request compensation for a verified failed outcome.")];
      obj [("dedupe_key", VStr "event_id");
        ("delivery", VStr "at_least_once");
        ("id", VStr "EVT-COMPENSATION-RECORDED");
        ("producer", VStr "CMP-ACTION-EXECUTOR");
        ("purpose", VStr "Publish verified or uncertain compensation outcome.")];
      obj [("dedupe_key", VStr "event_id");
        ("delivery", VStr "at_least_once");
        ("id", VStr "EVT-INCIDENT-CANCEL-REQUESTED");
        ("producer", VStr "CMP-CONTROL-API");
        ("purpose", VStr "Announce cancellation intent pending a safe checkpoint.")];
      obj [("dedupe_key", VStr "event_id");
        ("delivery", VStr "at_least_once");
        ("id", VStr "EVT-INCIDENT-CANCELLED");
        ("producer", VStr "CMP-CONTROL-API");
        ("purpose", VStr "Announce terminal Incident cancellation without uncertain effects.")];
      obj [("dedupe_key", VStr "event_id");
        ("delivery", VStr "at_least_once");
        ("id", VStr "EVT-INCIDENT-ESCALATED");
        ("producer", VStr "CMP-CONTROL-API");
        ("purpose", VStr "Publish terminal escalation with typed reason and evidence.")];
      obj [("dedupe_key", VStr "event_id");
        ("delivery", VStr "at_least_once");
        ("id", VStr "EVT-TASK-LEASED");
        ("producer", VStr "CMP-SCHEDULER");
        ("purpose", VStr "Publish a new attempt lease and fencing token metadata.")];
      obj [("dedupe_key", VStr "event_id");
        ("delivery", VStr "at_least_once");
        ("id", VStr "EVT-TASK-STARTED");
        ("producer", VStr "CMP-SCHEDULER");
        ("purpose", VStr "Publish valid task attempt start.")];
      obj [("dedupe_key", VStr "event_id");
        ("delivery", VStr "at_least_once");
        ("id", VStr "EVT-TASK-RETRY-SCHEDULED");
        ("producer", VStr "CMP-SCHEDULER");
        ("purpose", VStr "Publish typed retry reason and bounded backoff.")];
      obj [("dedupe_key", VStr "event_id");
        ("delivery", VStr "at_least_once");
        ("id", VStr "EVT-TASK-REQUEUED");
        ("producer", VStr "CMP-SCHEDULER");
        ("purpose", VStr "Publish task return to pending for a new attempt.")];
      obj [("dedupe_key", VStr "event_id");
        ("delivery", VStr "at_least_once");
        ("id", VStr "EVT-TASK-SUCCEEDED");
        ("producer", VStr "CMP-SCHEDULER");
        ("purpose", VStr "Publish fenced terminal task success.")];
      obj [("dedupe_key", VStr "event_id");
        ("delivery", VStr "at_least_once");
        ("id", VStr "EVT-TASK-PAUSED");
        ("producer", VStr "CMP-SCHEDULER");
        ("purpose", VStr "Publish durable paused checkpoint and lease release.")];
      obj [("dedupe_key", VStr "event_id");
        ("delivery", VStr "at_least_once");
        ("id", VStr "EVT-TASK-RESUMED");
        ("producer", VStr "CMP-SCHEDULER");
        ("purpose", VStr "Publish authorized resume into a new attempt.")];
      obj [("dedupe_key", VStr "event_id");
        ("delivery", VStr "at_least_once");
        ("id", VStr "EVT-TASK-DEAD-LETTERED");
        ("producer", VStr "CMP-SCHEDULER");
        ("purpose", VStr "Publish exhausted retry terminal state and history.")];
      obj [("dedupe_key", VStr "event_id");
        ("delivery", VStr "at_least_once");
        ("id", VStr "EVT-TASK-FAILED");
        ("producer", VStr "CMP-SCHEDULER");
        ("purpose", VStr "Publish typed non-retryable terminal failure.")];
      obj [("dedupe_key", VStr "event_id");
        ("delivery", VStr "at_least_once");
        ("id", VStr "EVT-TASK-CANCEL-REQUESTED");
        ("producer", VStr "CMP-SCHEDULER");
        ("purpose", VStr "Publish task cancellation intent and token invalidation.")];
      obj [("dedupe_key", VStr "event_id");
        ("delivery", VStr "at_least_once");
        ("id", VStr "EVT-TASK-CANCELLED");
        ("producer", VStr "CMP-SCHEDULER");
        ("purpose", VStr "Publish safe terminal task cancellation.")];
      obj [("dedupe_key", VStr "event_id");
        ("delivery", VStr "at_least_once");
        ("id", VStr "EVT-AGENT-STATE-CHANGED");
        ("producer", VStr "CMP-AGENT-WORKER");
        ("purpose", VStr "Publish a versioned durable graph transition.")];
      obj [("dedupe_key", VStr "event_id");
        ("delivery", VStr "at_least_once");
        ("id", VStr "EVT-ACTION-PROPOSED");
        ("producer", VStr "CMP-AGENT-WORKER");
        ("purpose", VStr "Publish typed ActionProposal creation without execution.")];
      obj [("dedupe_key", VStr "event_id");
        ("delivery", VStr "at_least_once");
        ("id", VStr "EVT-POLICY-REQUESTED");
        ("producer", VStr "CMP-AGENT-WORKER");
        ("purpose", VStr "Publish a canonical policy decision request.")];
      obj [("dedupe_key", VStr "event_id");
        ("delivery", VStr "at_least_once");
        ("id", VStr "EVT-POLICY-DECIDED");
        ("producer", VStr "CMP-POLICY-ENGINE");
        ("purpose", VStr "Publish versioned risk scope and obligations.")];
      obj [("dedupe_key", VStr "event_id");
        ("delivery", VStr "at_least_once");
        ("id", VStr "EVT-APPROVAL-REQUESTED");
        ("producer", VStr "CMP-ACTION-EXECUTOR");
        ("purpose", VStr "Publish an immutable R2 approval request.")];
      obj [("dedupe_key", VStr "event_id");
        ("delivery", VStr "at_least_once");
        ("id", VStr "EVT-ACTION-DISPATCH-REQUESTED");
        ("producer", VStr "CMP-AGENT-WORKER");
        ("purpose", VStr "Publish authorized request to the sole Action Executor.")];
      obj [("dedupe_key", VStr "event_id");
        ("delivery", VStr "at_least_once");
        ("id", VStr "EVT-AGENT-FINALIZED");
        ("producer", VStr "CMP-AGENT-WORKER");
        ("purpose", VStr "Publish completed graph report and evidence lineage.")];
      obj [("dedupe_key", VStr "event_id");
        ("delivery", VStr "at_least_once");
        ("id", VStr "EVT-AGENT-ESCALATED");
        ("producer", VStr "CMP-AGENT-WORKER");
        ("purpose", VStr "Publish typed graph escalation and remaining uncertainty.")];
      obj [("dedupe_key", VStr "event_id");
        ("delivery", VStr "at_least_once");
        ("id", VStr "EVT-ACTION-AUTHORIZED");
        ("producer", VStr "CMP-ACTION-EXECUTOR");
        ("purpose", VStr "Publish policy or approval authorization bound to a digest.")];
      obj [("dedupe_key", VStr "event_id");
        ("delivery", VStr "at_least_once");
        ("id", VStr "EVT-ACTION-REJECTED");
        ("producer", VStr "CMP-ACTION-EXECUTOR");
        ("purpose", VStr "Publish terminal policy or approver rejection.")];
      obj [("dedupe_key", VStr "event_id");
        ("delivery", VStr "at_least_once");
        ("id", VStr "EVT-ACTION-EXPIRED");
        ("producer", VStr "CMP-ACTION-EXECUTOR");
        ("purpose", VStr "Publish terminal approval expiry.")];
      obj [("dedupe_key", VStr "event_id");
        ("delivery", VStr "at_least_once");
        ("id", VStr "EVT-ACTION-CANCELLED");
        ("producer", VStr "CMP-ACTION-EXECUTOR");
        ("purpose", VStr "Publish terminal pre-dispatch cancellation.")];
      obj [("dedupe_key", VStr "event_id");
        ("delivery", VStr "at_least_once");
        ("id", VStr "EVT-ACTION-DISPATCHED");
        ("producer", VStr "CMP-ACTION-EXECUTOR");
        ("purpose", VStr "Publish attributable typed SUT dispatch.")];
      obj [("dedupe_key", VStr "event_id");
        ("delivery", VStr "at_least_once");
        ("id", VStr "EVT-ACTION-RECEIPT-RECORDED");
        ("producer", VStr "CMP-ACTION-EXECUTOR");
        ("purpose", VStr "Publish known typed external action receipt.")];
      obj [("dedupe_key", VStr "event_id");
        ("delivery", VStr "at_least_once");
        ("id", VStr "EVT-ACTION-UNCERTAIN");
        ("producer", VStr "CMP-ACTION-EXECUTOR");
        ("purpose", VStr "Publish explicit unknown external or compensation effect.")];
      obj [("dedupe_key", VStr "event_id");
        ("delivery", VStr "at_least_once");
        ("id", VStr "EVT-ACTION-COMMITTED");
        ("producer", VStr "CMP-ACTION-EXECUTOR");
        ("purpose", VStr "Publish verified successful action postconditions.")];
      obj [("dedupe_key", VStr "event_id");
        ("delivery", VStr "at_least_once");
        ("id", VStr "EVT-ACTION-COMPENSATION-STARTED");
        ("producer", VStr "CMP-ACTION-EXECUTOR");
        ("purpose", VStr "Publish typed compensation dispatch start.")];
      obj [("dedupe_key", VStr "event_id");
        ("delivery", VStr "at_least_once");
        ("id", VStr "EVT-ACTION-ROLLED-BACK");
        ("producer", VStr "CMP-ACTION-EXECUTOR");
        ("purpose", VStr "Publish verified successful compensation.")];
      obj [("dedupe_key", VStr "event_id");
        ("delivery", VStr "at_least_once");
        ("id", VStr "EVT-ACTION-MANUAL");
        ("producer", VStr "CMP-ACTION-EXECUTOR");
        ("purpose", VStr "Publish terminal requirement for manual reconciliation.")];
      obj [("dedupe_key", VStr "event_id");
        ("delivery", VStr "at_least_once");
        ("id", VStr "EVT-ACTION-RECONCILED");
        ("producer", VStr "CMP-ACTION-EXECUTOR");
        ("purpose", VStr "Publish read-only reconciliation evidence for prior uncertainty.")]]);
    ("schema_version", VStr "1.0.0")].

Definition doc_action_transaction : val :=
  obj [("authoritative_store", VStr "STORE-ACTION-POSTGRES");
    ("id", VStr "action_transaction");
    ("initial_state", VStr "PREPARED");
    ("invariants", strs ["Action Digest binds tenant environment action parameters resource version preconditions postconditions compensation risk approver expiry and single-use token."; "Action Executor is the sole component with SUT write credentials and arbitrary shell or Kubernetes writes are prohibited."; "COMMITTED requires successful postcondition evidence and R2 dispatch requires a matching immutable approval."; "UNCERTAIN has no automatic outgoing transition and permits reconciliation or manual handling only."]);
    ("owner_component", VStr "CMP-ACTION-EXECUTOR");
    ("schema_version", VStr "1.0.0");
    ("states", strs ["PREPARED"; "APPROVAL_PENDING"; "APPROVED"; "EXECUTING"; "VERIFYING"; "COMPENSATING"; "UNCERTAIN"; "COMMITTED"; "REJECTED"; "EXPIRED"; "ROLLED_BACK"; "MANUAL"; "CANCELLED"]);
    ("terminal_states", strs ["COMMITTED"; "REJECTED"; "EXPIRED"; "ROLLED_BACK"; "MANUAL"; "CANCELLED"]);
    ("transitions", VList [
      obj [("actor", VStr "CMP-POLICY-ENGINE");
        ("automatic", VBool false);
        ("command", VStr "CMD-AUTHORIZE-ACTION");
        ("event", VStr "EVT-ACTION-AUTHORIZED");
        ("failure_semantics", VStr "Stale policy resource or digest blocks authorization.");
        ("from", VStr "PREPARED");
        ("guard", VStr "current policy authorizes R1 action");
        ("id", VStr "TR-ACTION-R1-AUTHORIZE");
        ("preconditions", strs ["matching_tenant"; "valid_policy_decision"; "immutable_action_digest"; "valid_resource_version"; "idempotency_reserved"]);
        ("to", VStr "APPROVED")];
      obj [("actor", VStr "CMP-POLICY-ENGINE");
        ("automatic", VBool false);
        ("command", VStr "CMD-AUTHORIZE-ACTION");
        ("event", VStr "EVT-APPROVAL-REQUESTED");
        ("failure_semantics", VStr "No write credential or dispatch is available while approval is pending.");
        ("from", VStr "PREPARED");
        ("guard", VStr "current policy classifies action as R2");
        ("id", VStr "TR-ACTION-R2-WAIT");
        ("preconditions", strs ["matching_tenant"; "immutable_action_digest"; "valid_resource_version"]);
        ("to", VStr "APPROVAL_PENDING")];
      obj [("actor", VStr "CMP-POLICY-ENGINE");
        ("automatic", VBool false);
        ("command", VStr "CMD-AUTHORIZE-ACTION");
        ("event", VStr "EVT-ACTION-REJECTED");
        ("failure_semantics", VStr "A prohibited proposal terminates without side effect.");
        ("from", VStr "PREPARED");
        ("guard", VStr "policy classifies action as R3 or denies scope");
        ("id", VStr "TR-ACTION-R3-REJECT");
        ("preconditions", strs ["typed_terminal_reason"; "expected_state_version"]);
        ("to", VStr "REJECTED")];
      obj [("actor", VStr "CMP-CONTROL-API");
        ("automatic", VBool false);
        ("command", VStr "CMD-ACTION-APPROVAL-DECISION");
        ("event", VStr "EVT-ACTION-AUTHORIZED");
        ("failure_semantics", VStr "Any mismatch returns conflict and leaves the action unexecuted.");
        ("from", VStr "APPROVAL_PENDING");
        ("guard", VStr "approval matches immutable digest and current resource");
        ("id", VStr "TR-ACTION-APPROVE");
        ("preconditions", strs ["matching_tenant"; "valid_approval_digest"; "valid_resource_version"; "approval_not_expired"; "expected_state_version"]);
        ("to", VStr "APPROVED")];
      obj [("actor", VStr "CMP-CONTROL-API");
        ("automatic", VBool false);
        ("command", VStr "CMD-ACTION-APPROVAL-DECISION");
        ("event", VStr "EVT-ACTION-REJECTED");
        ("failure_semantics", VStr "The rejected single-use digest cannot later authorize dispatch.");
        ("from", VStr "APPROVAL_PENDING");
        ("guard", VStr "authorized approver rejects proposal");
        ("id", VStr "TR-ACTION-APPROVAL-REJECT");
        ("preconditions", strs ["matching_tenant"; "expected_state_version"]);
        ("to", VStr "REJECTED")];
      obj [("actor", VStr "CMP-ACTION-EXECUTOR");
        ("automatic", VBool true);
        ("command", VStr "CMD-ACTION-APPROVAL-DECISION");
        ("event", VStr "EVT-ACTION-EXPIRED");
        ("failure_semantics", VStr "Expiry requires a new proposal digest and approval.");
        ("from", VStr "APPROVAL_PENDING");
        ("guard", VStr "approval validity window expires");
        ("id", VStr "TR-ACTION-APPROVAL-EXPIRE");
        ("preconditions", strs ["expected_state_version"]);
        ("to", VStr "EXPIRED")];
      obj [("actor", VStr "CMP-CONTROL-API");
        ("automatic", VBool false);
        ("command", VStr "CMD-CANCEL-ACTION");
        ("event", VStr "EVT-ACTION-CANCELLED");
        ("failure_semantics", VStr "Cancellation invalidates any later approval for the digest.");
        ("from", VStr "APPROVAL_PENDING");
        ("guard", VStr "cancel arrives before approval and dispatch");
        ("id", VStr "TR-ACTION-CANCEL-PENDING");
        ("preconditions", strs ["matching_tenant"; "action_not_dispatched"; "expected_state_version"]);
        ("to", VStr "CANCELLED")];
      obj [("actor", VStr "CMP-ACTION-EXECUTOR");
        ("automatic", VBool false);
        ("command", VStr "CMD-DISPATCH-ACTION");
        ("event", VStr "EVT-ACTION-DISPATCHED");
        ("failure_semantics", VStr "Tenant policy digest version or idempotency conflict prevents SUT invocation.");
        ("from", VStr "APPROVED");
        ("guard", VStr "all authorization bindings still match at dispatch");
        ("id", VStr "TR-ACTION-DISPATCH");
        ("preconditions", strs ["matching_tenant"; "valid_authorization"; "valid_approval_if_R2"; "valid_approval_digest"; "valid_resource_version"; "current_policy_allow"; "idempotency_reserved"; "expected_state_version"]);
        ("to", VStr "EXECUTING")];
      obj [("actor", VStr "CMP-CONTROL-API");
        ("automatic", VBool false);
        ("command", VStr "CMD-CANCEL-ACTION");
        ("event", VStr "EVT-ACTION-CANCELLED");
        ("failure_semantics", VStr "A dispatch racing after cancellation is rejected by state version.");
        ("from", VStr "APPROVED");
        ("guard", VStr "cancel commits before dispatch");
        ("id", VStr "TR-ACTION-CANCEL-APPROVED");
        ("preconditions", strs ["matching_tenant"; "action_not_dispatched"; "expected_state_version"]);
        ("to", VStr "CANCELLED")];
      obj [("actor", VStr "CMP-ACTION-EXECUTOR");
        ("automatic", VBool true);
        ("command", VStr "CMD-RECORD-ACTION-RECEIPT");
        ("event", VStr "EVT-ACTION-RECEIPT-RECORDED");
        ("failure_semantics", VStr "Duplicate receipt returns the existing transaction result.");
        ("from", VStr "EXECUTING");
        ("guard", VStr "adapter returns an attributable known receipt");
        ("id", VStr "TR-ACTION-RECEIPT");
        ("preconditions", strs ["matching_action_digest"; "typed_action_receipt"; "expected_state_version"]);
        ("to", VStr "VERIFYING")];
      obj [("actor", VStr "CMP-ACTION-EXECUTOR");
        ("automatic", VBool true);
        ("command", VStr "CMD-RECORD-ACTION-RECEIPT");
        ("event", VStr "EVT-ACTION-UNCERTAIN");
        ("failure_semantics", VStr "No automatic redispatch is allowed while external effect may exist.");
        ("from", VStr "EXECUTING");
        ("guard", VStr "response lost timeout or conflicting receipt leaves effect unknown");
        ("id", VStr "TR-ACTION-EFFECT-UNCERTAIN");
        ("preconditions", strs ["typed_uncertainty_reason"; "expected_state_version"]);
        ("to", VStr "UNCERTAIN")];
      obj [("actor", VStr "CMP-ACTION-EXECUTOR");
        ("automatic", VBool false);
        ("command", VStr "CMD-VERIFY-ACTION");
        ("event", VStr "EVT-ACTION-COMMITTED");
        ("failure_semantics", VStr "COMMITTED is impossible without attributable postcondition evidence.");
        ("from", VStr "VERIFYING");
        ("guard", VStr "all versioned postconditions pass");
        ("id", VStr "TR-ACTION-VERIFY-PASS");
        ("preconditions", strs ["postcondition_evidence"; "matching_action_digest"; "expected_state_version"]);
        ("to", VStr "COMMITTED")];
      obj [("actor", VStr "CMP-ACTION-EXECUTOR");
        ("automatic", VBool false);
        ("command", VStr "CMD-COMPENSATE-ACTION");
        ("event", VStr "EVT-ACTION-COMPENSATION-STARTED");
        ("failure_semantics", VStr "Failed verification cannot be hidden as successful commit.");
        ("from", VStr "VERIFYING");
        ("guard", VStr "postconditions fail and compensation is defined");
        ("id", VStr "TR-ACTION-VERIFY-COMPENSATE");
        ("preconditions", strs ["compensation_digest"; "valid_resource_version"; "expected_state_version"]);
        ("to", VStr "COMPENSATING")];
      obj [("actor", VStr "CMP-ACTION-EXECUTOR");
        ("automatic", VBool false);
        ("command", VStr "CMD-VERIFY-ACTION");
        ("event", VStr "EVT-ACTION-MANUAL");
        ("failure_semantics", VStr "Non-compensable failure preserves evidence for manual recovery.");
        ("from", VStr "VERIFYING");
        ("guard", VStr "postcondition failure is non-compensable");
        ("id", VStr "TR-ACTION-VERIFY-MANUAL");
        ("preconditions", strs ["typed_terminal_reason"; "expected_state_version"]);
        ("to", VStr "MANUAL")];
      obj [("actor", VStr "CMP-ACTION-EXECUTOR");
        ("automatic", VBool false);
        ("command", VStr "CMD-COMPENSATE-ACTION");
        ("event", VStr "EVT-ACTION-ROLLED-BACK");
        ("failure_semantics", VStr "ROLLED_BACK requires verified compensation evidence.");
        ("from", VStr "COMPENSATING");
        ("guard", VStr "compensation postconditions pass");
        ("id", VStr "TR-ACTION-COMPENSATE-PASS");
        ("preconditions", strs ["compensation_evidence"; "matching_action_digest"; "expected_state_version"]);
        ("to", VStr "ROLLED_BACK")];
      obj [("actor", VStr "CMP-ACTION-EXECUTOR");
        ("automatic", VBool true);
        ("command", VStr "CMD-COMPENSATE-ACTION");
        ("event", VStr "EVT-ACTION-UNCERTAIN");
        ("failure_semantics", VStr "Unknown compensation cannot be retried blindly or declared rolled back.");
        ("from", VStr "COMPENSATING");
        ("guard", VStr "compensation response or effect is unknown");
        ("id", VStr "TR-ACTION-COMPENSATE-UNCERTAIN");
        ("preconditions", strs ["typed_uncertainty_reason"; "expected_state_version"]);
        ("to", VStr "UNCERTAIN")];
      obj [("actor", VStr "CMP-ACTION-EXECUTOR");
        ("automatic", VBool false);
        ("command", VStr "CMD-COMPENSATE-ACTION");
        ("event", VStr "EVT-ACTION-MANUAL");
        ("failure_semantics", VStr "Manual handling retains the original and compensation evidence.");
        ("from", VStr "COMPENSATING");
        ("guard", VStr "compensation cannot execute safely");
        ("id", VStr "TR-ACTION-COMPENSATE-MANUAL");
        ("preconditions", strs ["typed_terminal_reason"; "expected_state_version"]);
        ("to", VStr "MANUAL")];
      obj [("actor", VStr "CMP-ACTION-EXECUTOR");
        ("automatic", VBool false);
        ("command", VStr "CMD-RECONCILE-ACTION");
        ("event", VStr "EVT-ACTION-RECONCILED");
        ("failure_semantics", VStr "Reconciliation reads external truth and never redispatches the action.");
        ("from", VStr "UNCERTAIN");
        ("guard", VStr "read-only reconciliation establishes a known effect");
        ("id", VStr "TR-ACTION-RECONCILE");
        ("preconditions", strs ["reconciliation_evidence"; "matching_action_digest"; "expected_state_version"]);
        ("to", VStr "VERIFYING")];
      obj [("actor", VStr "CMP-ACTION-EXECUTOR");
        ("automatic", VBool false);
        ("command", VStr "CMD-RECONCILE-ACTION");
        ("event", VStr "EVT-ACTION-MANUAL");
        ("failure_semantics", VStr "Unresolved uncertainty terminates in manual handling, not success or retry.");
        ("from", VStr "UNCERTAIN");
        ("guard", VStr "reconciliation deadline expires without known effect");
        ("id", VStr "TR-ACTION-RECONCILE-MANUAL");
        ("preconditions", strs ["typed_terminal_reason"; "expected_state_version"]);
        ("to", VStr "MANUAL")]])].

Definition doc_agent_graph : val :=
  obj [("authoritative_store", VStr "STORE-CHECKPOINT-POSTGRES");
    ("id", VStr "agent_graph");
    ("initial_state", VStr "INTAKE");
    ("invariants", strs ["The graph emits ToolCall and ActionProposal only and has no shell Kubernetes or direct SUT write capability."; "LLM decision nodes are separated from deterministic policy execution reducers and state commits."; "Every important transition checkpoints step tool token cost deadline and no-progress budgets."; "Private chain-of-thought is never persisted; public rationale is structured and evidence linked."]);
    ("owner_component", VStr "CMP-AGENT-WORKER");
    ("schema_version", VStr "1.0.0");
    ("states", strs ["INTAKE"; "SCOPE_AND_RISK"; "BUILD_INITIAL_PLAN"; "RETRIEVE_CONTEXT"; "COLLECT_EVIDENCE"; "NORMALIZE_EVIDENCE"; "GENERATE_HYPOTHESES"; "VERIFY_HYPOTHESES"; "PLAN_PROBES"; "COMPOSE_REPORT"; "PROPOSE_ACTION"; "POLICY_CHECK"; "AWAIT_APPROVAL"; "DISPATCH_ACTION"; "AWAIT_ACTION_RESULT"; "VERIFY_OUTCOME"; "REQUEST_COMPENSATION"; "FINALIZE"; "ESCALATE"]);
    ("terminal_states", strs ["FINALIZE"; "ESCALATE"]);
    ("transitions", VList [
      obj [("actor", VStr "CMP-AGENT-WORKER");
        ("automatic", VBool true);
        ("command", VStr "CMD-ADVANCE-AGENT-GRAPH");
        ("event", VStr "EVT-AGENT-STATE-CHANGED");
        ("failure_semantics", VStr "Invalid intake terminates in escalation without invoking a model or tool.");
        ("from", VStr "INTAKE");
        ("guard", VStr "IncidentSpec and TenantContext validate");
        ("id", VStr "TR-GRAPH-INTAKE");
        ("preconditions", strs ["valid_fencing_token"; "bounded_budget"; "checkpoint_committed"]);
        ("to", VStr "SCOPE_AND_RISK")];
      obj [("actor", VStr "CMP-AGENT-WORKER");
        ("automatic", VBool true);
        ("command", VStr "CMD-ADVANCE-AGENT-GRAPH");
        ("event", VStr "EVT-AGENT-STATE-CHANGED");
        ("failure_semantics", VStr "Ambiguous or forbidden scope escalates rather than broadening access.");
        ("from", VStr "SCOPE_AND_RISK");
        ("guard", VStr "service scope risk and mode are explicit");
        ("id", VStr "TR-GRAPH-SCOPE");
        ("preconditions", strs ["valid_fencing_token"; "budget_remaining"; "checkpoint_committed"]);
        ("to", VStr "BUILD_INITIAL_PLAN")];
      obj [("actor", VStr "CMP-AGENT-WORKER");
        ("automatic", VBool true);
        ("command", VStr "CMD-ADVANCE-AGENT-GRAPH");
        ("event", VStr "EVT-AGENT-STATE-CHANGED");
        ("failure_semantics", VStr "Invalid structured plan gets bounded repair then escalation.");
        ("from", VStr "BUILD_INITIAL_PLAN");
        ("guard", VStr "typed bounded plan validates");
        ("id", VStr "TR-GRAPH-PLAN");
        ("preconditions", strs ["valid_fencing_token"; "no_private_reasoning"; "checkpoint_committed"]);
        ("to", VStr "RETRIEVE_CONTEXT")];
      obj [("actor", VStr "CMP-AGENT-WORKER");
        ("automatic", VBool true);
        ("command", VStr "CMD-ADVANCE-AGENT-GRAPH");
        ("event", VStr "EVT-AGENT-STATE-CHANGED");
        ("failure_semantics", VStr "Missing knowledge is explicit and any dependent write is blocked.");
        ("from", VStr "RETRIEVE_CONTEXT");
        ("guard", VStr "retrieval result is ACL filtered and provenance complete");
        ("id", VStr "TR-GRAPH-RETRIEVE");
        ("preconditions", strs ["matching_tenant"; "freshness_checked"; "budget_remaining"; "checkpoint_committed"]);
        ("to", VStr "COLLECT_EVIDENCE")];
      obj [("actor", VStr "CMP-AGENT-WORKER");
        ("automatic", VBool true);
        ("command", VStr "CMD-ADVANCE-AGENT-GRAPH");
        ("event", VStr "EVT-AGENT-STATE-CHANGED");
        ("failure_semantics", VStr "Collector errors remain typed evidence gaps and cannot be converted to facts.");
        ("from", VStr "COLLECT_EVIDENCE");
        ("guard", VStr "bounded collectors have returned or timed out");
        ("id", VStr "TR-GRAPH-COLLECT");
        ("preconditions", strs ["valid_fencing_token"; "typed_tool_results"; "evidence_progress_checked"; "checkpoint_committed"]);
        ("to", VStr "NORMALIZE_EVIDENCE")];
      obj [("actor", VStr "CMP-AGENT-WORKER");
        ("automatic", VBool true);
        ("command", VStr "CMD-ADVANCE-AGENT-GRAPH");
        ("event", VStr "EVT-AGENT-STATE-CHANGED");
        ("failure_semantics", VStr "Schema conflicts or duplicates are quarantined and never silently merged.");
        ("from", VStr "NORMALIZE_EVIDENCE");
        ("guard", VStr "deterministic reducer validates evidence records");
        ("id", VStr "TR-GRAPH-NORMALIZE");
        ("preconditions", strs ["provenance_complete"; "conflicts_preserved"; "checkpoint_committed"]);
        ("to", VStr "GENERATE_HYPOTHESES")];
      obj [("actor", VStr "CMP-AGENT-WORKER");
        ("automatic", VBool true);
        ("command", VStr "CMD-ADVANCE-AGENT-GRAPH");
        ("event", VStr "EVT-AGENT-STATE-CHANGED");
        ("failure_semantics", VStr "Unsupported hypotheses are rejected or marked uncertain before verification.");
        ("from", VStr "GENERATE_HYPOTHESES");
        ("guard", VStr "bounded hypotheses cite supporting and contradicting EvidenceRef");
        ("id", VStr "TR-GRAPH-HYPOTHESES");
        ("preconditions", strs ["budget_remaining"; "no_private_reasoning"; "checkpoint_committed"]);
        ("to", VStr "VERIFY_HYPOTHESES")];
      obj [("actor", VStr "CMP-AGENT-WORKER");
        ("automatic", VBool false);
        ("command", VStr "CMD-PLAN-PROBES");
        ("event", VStr "EVT-AGENT-STATE-CHANGED");
        ("failure_semantics", VStr "Repeated or non-informative probes consume no unbounded loop and trigger escalation.");
        ("from", VStr "VERIFY_HYPOTHESES");
        ("guard", VStr "evidence insufficient and progress budget remains");
        ("id", VStr "TR-GRAPH-PROBE");
        ("preconditions", strs ["budget_remaining"; "novel_probe_available"; "checkpoint_committed"]);
        ("to", VStr "PLAN_PROBES")];
      obj [("actor", VStr "CMP-AGENT-WORKER");
        ("automatic", VBool true);
        ("command", VStr "CMD-ADVANCE-AGENT-GRAPH");
        ("event", VStr "EVT-AGENT-STATE-CHANGED");
        ("failure_semantics", VStr "A forbidden or invalid probe is rejected and cannot widen service scope.");
        ("from", VStr "PLAN_PROBES");
        ("guard", VStr "typed ProbePlan validates against tool scope");
        ("id", VStr "TR-GRAPH-PROBE-COLLECT");
        ("preconditions", strs ["budget_remaining"; "tool_scope_allowed"; "checkpoint_committed"]);
        ("to", VStr "COLLECT_EVIDENCE")];
      obj [("actor", VStr "CMP-AGENT-WORKER");
        ("automatic", VBool false);
        ("command", VStr "CMD-ADVANCE-AGENT-GRAPH");
        ("event", VStr "EVT-AGENT-STATE-CHANGED");
        ("failure_semantics", VStr "Unsupported critical claims prevent report finalization.");
        ("from", VStr "VERIFY_HYPOTHESES");
        ("guard", VStr "diagnosis complete and no action is selected");
        ("id", VStr "TR-GRAPH-DIAGNOSIS");
        ("preconditions", strs ["critical_claims_supported"; "checkpoint_committed"]);
        ("to", VStr "COMPOSE_REPORT")];
      obj [("actor", VStr "CMP-AGENT-WORKER");
        ("automatic", VBool false);
        ("command", VStr "CMD-PROPOSE-ACTION");
        ("event", VStr "EVT-ACTION-PROPOSED");
        ("failure_semantics", VStr "Diagnosis-only mode or weak evidence cannot create an executable proposal.");
        ("from", VStr "VERIFY_HYPOTHESES");
        ("guard", VStr "actionable conclusion has sufficient evidence");
        ("id", VStr "TR-GRAPH-ACTIONABLE");
        ("preconditions", strs ["critical_claims_supported"; "mode_allows_actions"; "checkpoint_committed"]);
        ("to", VStr "PROPOSE_ACTION")];
      obj [("actor", VStr "CMP-AGENT-WORKER");
        ("automatic", VBool false);
        ("command", VStr "CMD-ESCALATE-AGENT-GRAPH");
        ("event", VStr "EVT-AGENT-ESCALATED");
        ("failure_semantics", VStr "The graph terminates with evidence gaps and never fabricates certainty.");
        ("from", VStr "VERIFY_HYPOTHESES");
        ("guard", VStr "cannot judge safely or budget deadline exhausted");
        ("id", VStr "TR-GRAPH-VERIFY-ESCALATE");
        ("preconditions", strs ["typed_terminal_reason"; "checkpoint_committed"]);
        ("to", VStr "ESCALATE")];
      obj [("actor", VStr "CMP-AGENT-WORKER");
        ("automatic", VBool false);
        ("command", VStr "CMD-ADVANCE-AGENT-GRAPH");
        ("event", VStr "EVT-AGENT-FINALIZED");
        ("failure_semantics", VStr "A malformed or untraceable report is repaired within budget or escalated.");
        ("from", VStr "COMPOSE_REPORT");
        ("guard", VStr "Final Report schema and EvidenceRef coverage pass");
        ("id", VStr "TR-GRAPH-REPORT");
        ("preconditions", strs ["critical_claims_supported"; "no_private_reasoning"; "checkpoint_committed"]);
        ("to", VStr "FINALIZE")];
      obj [("actor", VStr "CMP-AGENT-WORKER");
        ("automatic", VBool true);
        ("command", VStr "CMD-REQUEST-POLICY-DECISION");
        ("event", VStr "EVT-POLICY-REQUESTED");
        ("failure_semantics", VStr "A proposal cannot reach policy without canonical parameters and preconditions.");
        ("from", VStr "PROPOSE_ACTION");
        ("guard", VStr "ActionProposal schema and immutable digest validate");
        ("id", VStr "TR-GRAPH-POLICY-CHECK");
        ("preconditions", strs ["matching_tenant"; "resource_version_captured"; "checkpoint_committed"]);
        ("to", VStr "POLICY_CHECK")];
      obj [("actor", VStr "CMP-POLICY-ENGINE");
        ("automatic", VBool false);
        ("command", VStr "CMD-ADVANCE-AGENT-GRAPH");
        ("event", VStr "EVT-POLICY-DECIDED");
        ("failure_semantics", VStr "OPA outage or stale policy decision blocks dispatch.");
        ("from", VStr "POLICY_CHECK");
        ("guard", VStr "current policy allows R0 or R1 action");
        ("id", VStr "TR-GRAPH-R01-DISPATCH");
        ("preconditions", strs ["valid_policy_decision"; "matching_tenant"; "immutable_action_digest"; "checkpoint_committed"]);
        ("to", VStr "DISPATCH_ACTION")];
      obj [("actor", VStr "CMP-POLICY-ENGINE");
        ("automatic", VBool false);
        ("command", VStr "CMD-ADVANCE-AGENT-GRAPH");
        ("event", VStr "EVT-APPROVAL-REQUESTED");
        ("failure_semantics", VStr "The graph checkpoints and interrupts before any non-idempotent effect.");
        ("from", VStr "POLICY_CHECK");
        ("guard", VStr "current policy requires R2 approval");
        ("id", VStr "TR-GRAPH-R2-WAIT");
        ("preconditions", strs ["immutable_action_digest"; "checkpoint_committed"]);
        ("to", VStr "AWAIT_APPROVAL")];
      obj [("actor", VStr "CMP-POLICY-ENGINE");
        ("automatic", VBool false);
        ("command", VStr "CMD-ESCALATE-AGENT-GRAPH");
        ("event", VStr "EVT-AGENT-ESCALATED");
        ("failure_semantics", VStr "Policy denial and outage fail closed without an execution path.");
        ("from", VStr "POLICY_CHECK");
        ("guard", VStr "policy denies R3 or cannot decide");
        ("id", VStr "TR-GRAPH-R3-ESCALATE");
        ("preconditions", strs ["typed_terminal_reason"; "checkpoint_committed"]);
        ("to", VStr "ESCALATE")];
      obj [("actor", VStr "CMP-CONTROL-API");
        ("automatic", VBool false);
        ("command", VStr "CMD-RESUME-AGENT-AFTER-APPROVAL");
        ("event", VStr "EVT-APPROVAL-RECORDED");
        ("failure_semantics", VStr "Digest version tenant or expiry mismatch cannot resume dispatch.");
        ("from", VStr "AWAIT_APPROVAL");
        ("guard", VStr "unexpired approval matches the current immutable digest");
        ("id", VStr "TR-GRAPH-APPROVED");
        ("preconditions", strs ["valid_approval_digest"; "valid_resource_version"; "matching_tenant"; "checkpoint_committed"]);
        ("to", VStr "DISPATCH_ACTION")];
      obj [("actor", VStr "CMP-CONTROL-API");
        ("automatic", VBool false);
        ("command", VStr "CMD-ESCALATE-AGENT-GRAPH");
        ("event", VStr "EVT-AGENT-ESCALATED");
        ("failure_semantics", VStr "A rejected or expired digest is terminal for the proposal.");
        ("from", VStr "AWAIT_APPROVAL");
        ("guard", VStr "approval rejected expired or cancelled");
        ("id", VStr "TR-GRAPH-APPROVAL-END");
        ("preconditions", strs ["typed_terminal_reason"; "checkpoint_committed"]);
        ("to", VStr "ESCALATE")];
      obj [("actor", VStr "CMP-AGENT-WORKER");
        ("automatic", VBool false);
        ("command", VStr "CMD-DISPATCH-ACTION-PROPOSAL");
        ("event", VStr "EVT-ACTION-DISPATCH-REQUESTED");
        ("failure_semantics", VStr "Worker emits a command only; it never receives or uses SUT write credentials.");
        ("from", VStr "DISPATCH_ACTION");
        ("guard", VStr "typed authorized action command accepted by Action Executor");
        ("id", VStr "TR-GRAPH-DISPATCH");
        ("preconditions", strs ["valid_fencing_token"; "immutable_action_digest"; "idempotency_reserved"; "checkpoint_committed"]);
        ("to", VStr "AWAIT_ACTION_RESULT")];
      obj [("actor", VStr "CMP-ACTION-EXECUTOR");
        ("automatic", VBool true);
        ("command", VStr "CMD-ADVANCE-AGENT-GRAPH");
        ("event", VStr "EVT-ACTION-RESULT-RECORDED");
        ("failure_semantics", VStr "Duplicate results are deduplicated and conflicting receipts escalate.");
        ("from", VStr "AWAIT_ACTION_RESULT");
        ("guard", VStr "ActionResult has a known attributable effect");
        ("id", VStr "TR-GRAPH-ACTION-KNOWN");
        ("preconditions", strs ["matching_action_digest"; "checkpoint_committed"]);
        ("to", VStr "VERIFY_OUTCOME")];
      obj [("actor", VStr "CMP-ACTION-EXECUTOR");
        ("automatic", VBool true);
        ("command", VStr "CMD-ESCALATE-AGENT-GRAPH");
        ("event", VStr "EVT-AGENT-ESCALATED");
        ("failure_semantics", VStr "The graph cannot blind-retry or treat uncertainty as success.");
        ("from", VStr "AWAIT_ACTION_RESULT");
        ("guard", VStr "ActionTransaction is UNCERTAIN or MANUAL");
        ("id", VStr "TR-GRAPH-ACTION-UNCERTAIN");
        ("preconditions", strs ["typed_terminal_reason"; "checkpoint_committed"]);
        ("to", VStr "ESCALATE")];
      obj [("actor", VStr "CMP-AGENT-WORKER");
        ("automatic", VBool false);
        ("command", VStr "CMD-ADVANCE-AGENT-GRAPH");
        ("event", VStr "EVT-AGENT-FINALIZED");
        ("failure_semantics", VStr "Finalization is blocked if the external postcondition is absent.");
        ("from", VStr "VERIFY_OUTCOME");
        ("guard", VStr "postconditions pass and report is complete");
        ("id", VStr "TR-GRAPH-OUTCOME-PASS");
        ("preconditions", strs ["postcondition_evidence"; "critical_claims_supported"; "checkpoint_committed"]);
        ("to", VStr "FINALIZE")];
      obj [("actor", VStr "CMP-AGENT-WORKER");
        ("automatic", VBool false);
        ("command", VStr "CMD-REQUEST-COMPENSATION");
        ("event", VStr "EVT-COMPENSATION-REQUESTED");
        ("failure_semantics", VStr "The graph only requests compensation; Action Executor remains the sole writer.");
        ("from", VStr "VERIFY_OUTCOME");
        ("guard", VStr "postconditions fail and typed compensation exists");
        ("id", VStr "TR-GRAPH-OUTCOME-COMPENSATE");
        ("preconditions", strs ["compensation_digest"; "checkpoint_committed"]);
        ("to", VStr "REQUEST_COMPENSATION")];
      obj [("actor", VStr "CMP-AGENT-WORKER");
        ("automatic", VBool false);
        ("command", VStr "CMD-ESCALATE-AGENT-GRAPH");
        ("event", VStr "EVT-AGENT-ESCALATED");
        ("failure_semantics", VStr "Unsafe outcome terminates the graph for manual handling.");
        ("from", VStr "VERIFY_OUTCOME");
        ("guard", VStr "outcome is non-compensable or uncertain");
        ("id", VStr "TR-GRAPH-OUTCOME-ESCALATE");
        ("preconditions", strs ["typed_terminal_reason"; "checkpoint_committed"]);
        ("to", VStr "ESCALATE")];
      obj [("actor", VStr "CMP-ACTION-EXECUTOR");
        ("automatic", VBool true);
        ("command", VStr "CMD-ADVANCE-AGENT-GRAPH");
        ("event", VStr "EVT-ACTION-DISPATCH-REQUESTED");
        ("failure_semantics", VStr "Compensation execution remains in Action Executor and duplicate requests are idempotent.");
        ("from", VStr "REQUEST_COMPENSATION");
        ("guard", VStr "compensation command accepted with matching digest");
        ("id", VStr "TR-GRAPH-COMPENSATION-WAIT");
        ("preconditions", strs ["valid_fencing_token"; "compensation_digest"; "checkpoint_committed"]);
        ("to", VStr "AWAIT_ACTION_RESULT")]])].

Definition doc_incident : val :=
  obj [("authoritative_store", VStr "STORE-INCIDENT-POSTGRES");
    ("id", VStr "incident");
    ("initial_state", VStr "NEW");
    ("invariants", strs ["R2 execution requires an unexpired approval that matches tenant environment action digest and resource version."; "RESOLVED always has a Final Report and attributable postcondition or diagnosis-only evidence."; "UNCERTAIN or MANUAL ActionTransaction forces Incident escalation."; "Terminal Incident states never transition in place; later feedback appends events."]);
    ("owner_component", VStr "CMP-CONTROL-API");
    ("schema_version", VStr "1.0.0");
    ("states", strs ["NEW"; "QUEUED"; "INVESTIGATING"; "WAITING_APPROVAL"; "EXECUTING"; "VERIFYING"; "ROLLING_BACK"; "RESOLVED"; "ESCALATED"; "CANCELLED"]);
    ("terminal_states", strs ["RESOLVED"; "ESCALATED"; "CANCELLED"]);
    ("transitions", VList [
      obj [("actor", VStr "CMP-CONTROL-API");
        ("automatic", VBool false);
        ("command", VStr "CMD-CREATE-INCIDENT");
        ("event", VStr "EVT-INCIDENT-CREATED");
        ("failure_semantics", VStr "Invalid identity is rejected before persistence; duplicate key returns the original Incident.");
        ("from", VStr "NEW");
        ("guard", VStr "authenticated tenant and valid IncidentSpec");
        ("id", VStr "TR-INCIDENT-CREATE");
        ("preconditions", strs ["tenant_from_oidc"; "idempotency_reserved"; "expected_state_version"]);
        ("to", VStr "QUEUED")];
      obj [("actor", VStr "CMP-SCHEDULER");
        ("automatic", VBool true);
        ("command", VStr "CMD-START-INVESTIGATION");
        ("event", VStr "EVT-INVESTIGATION-STARTED");
        ("failure_semantics", VStr "A stale or cross-tenant task event is rejected without changing Incident state.");
        ("from", VStr "QUEUED");
        ("guard", VStr "runtime task has a valid active attempt");
        ("id", VStr "TR-INCIDENT-START");
        ("preconditions", strs ["matching_tenant"; "expected_state_version"]);
        ("to", VStr "INVESTIGATING")];
      obj [("actor", VStr "CMP-AGENT-WORKER");
        ("automatic", VBool false);
        ("command", VStr "CMD-RECORD-DIAGNOSIS");
        ("event", VStr "EVT-DIAGNOSIS-COMPLETED");
        ("failure_semantics", VStr "Missing report or unsupported critical claim prevents resolution and requires more evidence or escalation.");
        ("from", VStr "INVESTIGATING");
        ("guard", VStr "diagnosis complete and mode is diagnosis_only");
        ("id", VStr "TR-INCIDENT-DIAGNOSIS-ONLY");
        ("preconditions", strs ["final_report_present"; "evidence_refs_complete"; "expected_state_version"]);
        ("to", VStr "RESOLVED")];
      obj [("actor", VStr "CMP-AGENT-WORKER");
        ("automatic", VBool false);
        ("command", VStr "CMD-RECORD-ACTION-PROPOSAL");
        ("event", VStr "EVT-ACTION-REQUESTED");
        ("failure_semantics", VStr "A missing or stale policy decision blocks execution and escalates safely.");
        ("from", VStr "INVESTIGATING");
        ("guard", VStr "R1 action is currently allowed by policy");
        ("id", VStr "TR-INCIDENT-R1-ACTION");
        ("preconditions", strs ["matching_tenant"; "valid_policy_decision"; "immutable_action_digest"; "expected_state_version"]);
        ("to", VStr "EXECUTING")];
      obj [("actor", VStr "CMP-AGENT-WORKER");
        ("automatic", VBool false);
        ("command", VStr "CMD-RECORD-ACTION-PROPOSAL");
        ("event", VStr "EVT-ACTION-REQUESTED");
        ("failure_semantics", VStr "The proposal is recorded but no write is dispatched before a matching approval.");
        ("from", VStr "INVESTIGATING");
        ("guard", VStr "policy classifies proposal as R2");
        ("id", VStr "TR-INCIDENT-R2-PROPOSAL");
        ("preconditions", strs ["matching_tenant"; "immutable_action_digest"; "expected_state_version"]);
        ("to", VStr "WAITING_APPROVAL")];
      obj [("actor", VStr "CMP-AGENT-WORKER");
        ("automatic", VBool false);
        ("command", VStr "CMD-ESCALATE-INCIDENT");
        ("event", VStr "EVT-INCIDENT-ESCALATED");
        ("failure_semantics", VStr "The Incident retains evidence and a typed reason instead of guessing or bypassing policy.");
        ("from", VStr "INVESTIGATING");
        ("guard", VStr "R3 forbidden or evidence budget deadline exhausted");
        ("id", VStr "TR-INCIDENT-INVESTIGATION-ESCALATE");
        ("preconditions", strs ["typed_terminal_reason"; "final_report_present"; "expected_state_version"]);
        ("to", VStr "ESCALATED")];
      obj [("actor", VStr "CMP-CONTROL-API");
        ("automatic", VBool false);
        ("command", VStr "CMD-RECORD-APPROVAL-DECISION");
        ("event", VStr "EVT-APPROVAL-RECORDED");
        ("failure_semantics", VStr "Any digest scope version or expiry mismatch returns conflict and does not dispatch.");
        ("from", VStr "WAITING_APPROVAL");
        ("guard", VStr "approval grant is valid and matches the current action digest");
        ("id", VStr "TR-INCIDENT-APPROVE");
        ("preconditions", strs ["matching_tenant"; "valid_approval_digest"; "valid_resource_version"; "approval_not_expired"; "expected_state_version"]);
        ("to", VStr "EXECUTING")];
      obj [("actor", VStr "CMP-CONTROL-API");
        ("automatic", VBool false);
        ("command", VStr "CMD-RECORD-APPROVAL-DECISION");
        ("event", VStr "EVT-INCIDENT-ESCALATED");
        ("failure_semantics", VStr "The rejected digest cannot be reused and no ActionTransaction executes.");
        ("from", VStr "WAITING_APPROVAL");
        ("guard", VStr "approver rejects the immutable proposal");
        ("id", VStr "TR-INCIDENT-APPROVAL-REJECT");
        ("preconditions", strs ["matching_tenant"; "expected_state_version"]);
        ("to", VStr "ESCALATED")];
      obj [("actor", VStr "CMP-CONTROL-API");
        ("automatic", VBool true);
        ("command", VStr "CMD-RECORD-APPROVAL-DECISION");
        ("event", VStr "EVT-INCIDENT-ESCALATED");
        ("failure_semantics", VStr "Expiry closes the approval opportunity and requires a newly digested proposal.");
        ("from", VStr "WAITING_APPROVAL");
        ("guard", VStr "approval deadline expires");
        ("id", VStr "TR-INCIDENT-APPROVAL-EXPIRE");
        ("preconditions", strs ["expected_state_version"]);
        ("to", VStr "ESCALATED")];
      obj [("actor", VStr "CMP-ACTION-EXECUTOR");
        ("automatic", VBool true);
        ("command", VStr "CMD-RECORD-ACTION-RESULT");
        ("event", VStr "EVT-ACTION-RESULT-RECORDED");
        ("failure_semantics", VStr "Only an attributable receipt advances verification; duplicates return the prior result.");
        ("from", VStr "EXECUTING");
        ("guard", VStr "ActionResult has a known external effect");
        ("id", VStr "TR-INCIDENT-ACTION-KNOWN");
        ("preconditions", strs ["matching_action_digest"; "expected_state_version"]);
        ("to", VStr "VERIFYING")];
      obj [("actor", VStr "CMP-ACTION-EXECUTOR");
        ("automatic", VBool true);
        ("command", VStr "CMD-ESCALATE-INCIDENT");
        ("event", VStr "EVT-INCIDENT-ESCALATED");
        ("failure_semantics", VStr "Uncertain side effects prohibit automatic retry and require reconciliation or manual handling.");
        ("from", VStr "EXECUTING");
        ("guard", VStr "ActionTransaction is UNCERTAIN or MANUAL");
        ("id", VStr "TR-INCIDENT-ACTION-UNCERTAIN");
        ("preconditions", strs ["typed_terminal_reason"; "expected_state_version"]);
        ("to", VStr "ESCALATED")];
      obj [("actor", VStr "CMP-AGENT-WORKER");
        ("automatic", VBool false);
        ("command", VStr "CMD-RECORD-OUTCOME-VERIFICATION");
        ("event", VStr "EVT-OUTCOME-VERIFIED");
        ("failure_semantics", VStr "Resolution is rejected if evidence or postcondition proof is missing.");
        ("from", VStr "VERIFYING");
        ("guard", VStr "postconditions pass and Final Report is complete");
        ("id", VStr "TR-INCIDENT-VERIFY-PASS");
        ("preconditions", strs ["postcondition_evidence"; "final_report_present"; "expected_state_version"]);
        ("to", VStr "RESOLVED")];
      obj [("actor", VStr "CMP-ACTION-EXECUTOR");
        ("automatic", VBool true);
        ("command", VStr "CMD-RECORD-OUTCOME-VERIFICATION");
        ("event", VStr "EVT-COMPENSATION-REQUESTED");
        ("failure_semantics", VStr "A failed postcondition cannot be reported as resolved while compensation is pending.");
        ("from", VStr "VERIFYING");
        ("guard", VStr "postconditions fail and compensation is defined");
        ("id", VStr "TR-INCIDENT-VERIFY-COMPENSATE");
        ("preconditions", strs ["compensation_digest"; "expected_state_version"]);
        ("to", VStr "ROLLING_BACK")];
      obj [("actor", VStr "CMP-ACTION-EXECUTOR");
        ("automatic", VBool true);
        ("command", VStr "CMD-ESCALATE-INCIDENT");
        ("event", VStr "EVT-INCIDENT-ESCALATED");
        ("failure_semantics", VStr "Non-compensable or unknown outcome is preserved for manual reconciliation.");
        ("from", VStr "VERIFYING");
        ("guard", VStr "failure is non-compensable or uncertain");
        ("id", VStr "TR-INCIDENT-VERIFY-ESCALATE");
        ("preconditions", strs ["typed_terminal_reason"; "expected_state_version"]);
        ("to", VStr "ESCALATED")];
      obj [("actor", VStr "CMP-ACTION-EXECUTOR");
        ("automatic", VBool false);
        ("command", VStr "CMD-RECORD-COMPENSATION");
        ("event", VStr "EVT-COMPENSATION-RECORDED");
        ("failure_semantics", VStr "Rollback is not treated as complete until its postcondition is verified.");
        ("from", VStr "ROLLING_BACK");
        ("guard", VStr "compensation is verified and system is healthy");
        ("id", VStr "TR-INCIDENT-ROLLBACK-PASS");
        ("preconditions", strs ["compensation_evidence"; "final_report_present"; "expected_state_version"]);
        ("to", VStr "RESOLVED")];
      obj [("actor", VStr "CMP-ACTION-EXECUTOR");
        ("automatic", VBool false);
        ("command", VStr "CMD-ESCALATE-INCIDENT");
        ("event", VStr "EVT-INCIDENT-ESCALATED");
        ("failure_semantics", VStr "Uncertain compensation remains visible and requires manual reconciliation.");
        ("from", VStr "ROLLING_BACK");
        ("guard", VStr "compensation fails or remains uncertain");
        ("id", VStr "TR-INCIDENT-ROLLBACK-UNCERTAIN");
        ("preconditions", strs ["typed_terminal_reason"; "expected_state_version"]);
        ("to", VStr "ESCALATED")];
      obj [("actor", VStr "CMP-CONTROL-API");
        ("automatic", VBool false);
        ("command", VStr "CMD-CANCEL-INCIDENT");
        ("event", VStr "EVT-INCIDENT-CANCELLED");
        ("failure_semantics", VStr "Cancellation is idempotent and cannot cross tenant scope.");
        ("from", VStr "NEW");
        ("guard", VStr "cancel requested before queue commit");
        ("id", VStr "TR-INCIDENT-CANCEL-NEW");
        ("preconditions", strs ["matching_tenant"; "expected_state_version"]);
        ("to", VStr "CANCELLED")];
      obj [("actor", VStr "CMP-CONTROL-API");
        ("automatic", VBool false);
        ("command", VStr "CMD-CANCEL-INCIDENT");
        ("event", VStr "EVT-INCIDENT-CANCELLED");
        ("failure_semantics", VStr "Scheduler cancellation is emitted transactionally with the Incident terminal state.");
        ("from", VStr "QUEUED");
        ("guard", VStr "cancel requested before task start");
        ("id", VStr "TR-INCIDENT-CANCEL-QUEUED");
        ("preconditions", strs ["matching_tenant"; "expected_state_version"]);
        ("to", VStr "CANCELLED")];
      obj [("actor", VStr "CMP-CONTROL-API");
        ("automatic", VBool false);
        ("command", VStr "CMD-CANCEL-INCIDENT");
        ("event", VStr "EVT-INCIDENT-CANCELLED");
        ("failure_semantics", VStr "Possible external effects force verification or escalation instead of cancellation.");
        ("from", VStr "INVESTIGATING");
        ("guard", VStr "cancel reaches a safe checkpoint with no possible action effect");
        ("id", VStr "TR-INCIDENT-CANCEL-INVESTIGATING");
        ("preconditions", strs ["matching_tenant"; "safe_checkpoint"; "expected_state_version"]);
        ("to", VStr "CANCELLED")];
      obj [("actor", VStr "CMP-CONTROL-API");
        ("automatic", VBool false);
        ("command", VStr "CMD-CANCEL-INCIDENT");
        ("event", VStr "EVT-INCIDENT-CANCELLED");
        ("failure_semantics", VStr "The approval digest becomes unusable when cancellation commits.");
        ("from", VStr "WAITING_APPROVAL");
        ("guard", VStr "cancel invalidates pending approval before dispatch");
        ("id", VStr "TR-INCIDENT-CANCEL-WAITING");
        ("preconditions", strs ["matching_tenant"; "action_not_dispatched"; "expected_state_version"]);
        ("to", VStr "CANCELLED")];
      obj [("actor", VStr "CMP-CONTROL-API");
        ("automatic", VBool false);
        ("command", VStr "CMD-CANCEL-INCIDENT");
        ("event", VStr "EVT-INCIDENT-CANCEL-REQUESTED");
        ("failure_semantics", VStr "Cancellation records intent only; the action effect must reach a known safe point first.");
        ("from", VStr "EXECUTING");
        ("guard", VStr "cancel requested after dispatch");
        ("id", VStr "TR-INCIDENT-CANCEL-REQUESTED");
        ("preconditions", strs ["matching_tenant"; "expected_state_version"]);
        ("to", VStr "EXECUTING")]])].

Definition doc_runtime_task : val :=
  obj [("authoritative_store", VStr "STORE-TASK-POSTGRES");
    ("id", VStr "runtime_task");
    ("initial_state", VStr "PENDING");
    ("invariants", strs ["Delivery is at least once and every retry uses a new attempt_id under the stable task_id."; "Only the current fencing token can checkpoint complete fail pause or dispatch downstream work."; "PAUSED tasks do not retain a worker lease."; "No distributed exactly-once behavior is claimed."]);
    ("owner_component", VStr "CMP-SCHEDULER");
    ("schema_version", VStr "1.0.0");
    ("states", strs ["PENDING"; "LEASED"; "RUNNING"; "PAUSED"; "RETRY_WAIT"; "CANCEL_REQUESTED"; "SUCCEEDED"; "FAILED"; "DEAD_LETTER"; "CANCELLED"]);
    ("terminal_states", strs ["SUCCEEDED"; "FAILED"; "DEAD_LETTER"; "CANCELLED"]);
    ("transitions", VList [
      obj [("actor", VStr "CMP-SCHEDULER");
        ("automatic", VBool true);
        ("command", VStr "CMD-ACQUIRE-TASK-LEASE");
        ("event", VStr "EVT-TASK-LEASED");
        ("failure_semantics", VStr "Quota or capacity denial leaves the task pending with explicit backpressure.");
        ("from", VStr "PENDING");
        ("guard", VStr "quota capacity and deadline allow an attempt");
        ("id", VStr "TR-TASK-LEASE");
        ("preconditions", strs ["matching_tenant"; "monotonic_fencing_token"; "expected_state_version"]);
        ("to", VStr "LEASED")];
      obj [("actor", VStr "CMP-AGENT-WORKER");
        ("automatic", VBool false);
        ("command", VStr "CMD-START-TASK-ATTEMPT");
        ("event", VStr "EVT-TASK-STARTED");
        ("failure_semantics", VStr "A stale token is fenced and cannot start or commit work.");
        ("from", VStr "LEASED");
        ("guard", VStr "worker presents the current lease before start deadline");
        ("id", VStr "TR-TASK-START");
        ("preconditions", strs ["valid_fencing_token"; "matching_attempt_id"; "expected_state_version"]);
        ("to", VStr "RUNNING")];
      obj [("actor", VStr "CMP-SCHEDULER");
        ("automatic", VBool true);
        ("command", VStr "CMD-RETRY-TASK");
        ("event", VStr "EVT-TASK-RETRY-SCHEDULED");
        ("failure_semantics", VStr "The attempt is retained and a new fencing token is required for retry.");
        ("from", VStr "LEASED");
        ("guard", VStr "lease expires before worker start");
        ("id", VStr "TR-TASK-LEASE-EXPIRE");
        ("preconditions", strs ["lease_expired"; "expected_state_version"]);
        ("to", VStr "RETRY_WAIT")];
      obj [("actor", VStr "CMP-AGENT-WORKER");
        ("automatic", VBool false);
        ("command", VStr "CMD-COMPLETE-TASK");
        ("event", VStr "EVT-TASK-SUCCEEDED");
        ("failure_semantics", VStr "Lease loss or version conflict rejects the stale completion without overwriting state.");
        ("from", VStr "RUNNING");
        ("guard", VStr "worker commits a valid terminal result");
        ("id", VStr "TR-TASK-SUCCEED");
        ("preconditions", strs ["valid_fencing_token"; "matching_attempt_id"; "checkpoint_committed"; "expected_state_version"]);
        ("to", VStr "SUCCEEDED")];
      obj [("actor", VStr "CMP-AGENT-WORKER");
        ("automatic", VBool false);
        ("command", VStr "CMD-PAUSE-TASK");
        ("event", VStr "EVT-TASK-PAUSED");
        ("failure_semantics", VStr "A task never pauses before durable checkpoint and releases its worker lease.");
        ("from", VStr "RUNNING");
        ("guard", VStr "graph interrupt has a committed checkpoint");
        ("id", VStr "TR-TASK-PAUSE");
        ("preconditions", strs ["valid_fencing_token"; "checkpoint_committed"; "expected_state_version"]);
        ("to", VStr "PAUSED")];
      obj [("actor", VStr "CMP-SCHEDULER");
        ("automatic", VBool false);
        ("command", VStr "CMD-RESUME-TASK");
        ("event", VStr "EVT-TASK-RESUMED");
        ("failure_semantics", VStr "Resume creates a new attempt and fencing token instead of reviving an old lease.");
        ("from", VStr "PAUSED");
        ("guard", VStr "resume command is authorized and deadline remains");
        ("id", VStr "TR-TASK-RESUME");
        ("preconditions", strs ["matching_tenant"; "checkpoint_exists"; "expected_state_version"]);
        ("to", VStr "PENDING")];
      obj [("actor", VStr "CMP-SCHEDULER");
        ("automatic", VBool true);
        ("command", VStr "CMD-RETRY-TASK");
        ("event", VStr "EVT-TASK-RETRY-SCHEDULED");
        ("failure_semantics", VStr "Partial work is recovered only from committed checkpoints under a new attempt.");
        ("from", VStr "RUNNING");
        ("guard", VStr "retryable failure or lease loss is recorded");
        ("id", VStr "TR-TASK-RETRY");
        ("preconditions", strs ["typed_retry_reason"; "expected_state_version"]);
        ("to", VStr "RETRY_WAIT")];
      obj [("actor", VStr "CMP-SCHEDULER");
        ("automatic", VBool true);
        ("command", VStr "CMD-RETRY-TASK");
        ("event", VStr "EVT-TASK-REQUEUED");
        ("failure_semantics", VStr "Retries stop when attempt or deadline budget is exhausted.");
        ("from", VStr "RETRY_WAIT");
        ("guard", VStr "bounded attempts remain and backoff elapsed");
        ("id", VStr "TR-TASK-REQUEUE");
        ("preconditions", strs ["attempt_budget_remaining"; "deadline_remaining"; "expected_state_version"]);
        ("to", VStr "PENDING")];
      obj [("actor", VStr "CMP-SCHEDULER");
        ("automatic", VBool true);
        ("command", VStr "CMD-FAIL-TASK");
        ("event", VStr "EVT-TASK-DEAD-LETTERED");
        ("failure_semantics", VStr "Exhausted work remains inspectable with the last checkpoint and failure history.");
        ("from", VStr "RETRY_WAIT");
        ("guard", VStr "attempt budget or deadline exhausted");
        ("id", VStr "TR-TASK-DEAD-LETTER");
        ("preconditions", strs ["typed_terminal_reason"; "expected_state_version"]);
        ("to", VStr "DEAD_LETTER")];
      obj [("actor", VStr "CMP-AGENT-WORKER");
        ("automatic", VBool false);
        ("command", VStr "CMD-FAIL-TASK");
        ("event", VStr "EVT-TASK-FAILED");
        ("failure_semantics", VStr "An untyped or stale failure cannot terminate the task.");
        ("from", VStr "RUNNING");
        ("guard", VStr "failure is typed non-retryable");
        ("id", VStr "TR-TASK-FAIL");
        ("preconditions", strs ["valid_fencing_token"; "typed_terminal_reason"; "expected_state_version"]);
        ("to", VStr "FAILED")];
      obj [("actor", VStr "CMP-SCHEDULER");
        ("automatic", VBool false);
        ("command", VStr "CMD-CANCEL-TASK");
        ("event", VStr "EVT-TASK-CANCEL-REQUESTED");
        ("failure_semantics", VStr "Cancellation is idempotent and retained until a safe terminal acknowledgement.");
        ("from", VStr "PENDING");
        ("guard", VStr "authorized cancellation requested");
        ("id", VStr "TR-TASK-CANCEL-PENDING");
        ("preconditions", strs ["matching_tenant"; "expected_state_version"]);
        ("to", VStr "CANCEL_REQUESTED")];
      obj [("actor", VStr "CMP-SCHEDULER");
        ("automatic", VBool false);
        ("command", VStr "CMD-CANCEL-TASK");
        ("event", VStr "EVT-TASK-CANCEL-REQUESTED");
        ("failure_semantics", VStr "The fencing token is invalidated before cancellation completes.");
        ("from", VStr "LEASED");
        ("guard", VStr "authorized cancellation invalidates current lease");
        ("id", VStr "TR-TASK-CANCEL-LEASED");
        ("preconditions", strs ["matching_tenant"; "expected_state_version"]);
        ("to", VStr "CANCEL_REQUESTED")];
      obj [("actor", VStr "CMP-SCHEDULER");
        ("automatic", VBool false);
        ("command", VStr "CMD-CANCEL-TASK");
        ("event", VStr "EVT-TASK-CANCEL-REQUESTED");
        ("failure_semantics", VStr "Worker checkpoints and stops at a safe point; action uncertainty is handled separately.");
        ("from", VStr "RUNNING");
        ("guard", VStr "authorized cancellation reaches running attempt");
        ("id", VStr "TR-TASK-CANCEL-RUNNING");
        ("preconditions", strs ["matching_tenant"; "expected_state_version"]);
        ("to", VStr "CANCEL_REQUESTED")];
      obj [("actor", VStr "CMP-SCHEDULER");
        ("automatic", VBool false);
        ("command", VStr "CMD-CANCEL-TASK");
        ("event", VStr "EVT-TASK-CANCEL-REQUESTED");
        ("failure_semantics", VStr "The retained checkpoint remains auditable after cancellation.");
        ("from", VStr "PAUSED");
        ("guard", VStr "authorized cancellation reaches paused task");
        ("id", VStr "TR-TASK-CANCEL-PAUSED");
        ("preconditions", strs ["matching_tenant"; "expected_state_version"]);
        ("to", VStr "CANCEL_REQUESTED")];
      obj [("actor", VStr "CMP-SCHEDULER");
        ("automatic", VBool false);
        ("command", VStr "CMD-CANCEL-TASK");
        ("event", VStr "EVT-TASK-CANCEL-REQUESTED");
        ("failure_semantics", VStr "No further attempt is enqueued after cancellation commits.");
        ("from", VStr "RETRY_WAIT");
        ("guard", VStr "authorized cancellation arrives during backoff");
        ("id", VStr "TR-TASK-CANCEL-RETRY");
        ("preconditions", strs ["matching_tenant"; "expected_state_version"]);
        ("to", VStr "CANCEL_REQUESTED")];
      obj [("actor", VStr "CMP-SCHEDULER");
        ("automatic", VBool true);
        ("command", VStr "CMD-CANCEL-TASK");
        ("event", VStr "EVT-TASK-CANCELLED");
        ("failure_semantics", VStr "A valid active worker or uncertain side effect blocks terminal cancellation.");
        ("from", VStr "CANCEL_REQUESTED");
        ("guard", VStr "worker stopped or no active lease remains");
        ("id", VStr "TR-TASK-CANCEL-COMPLETE");
        ("preconditions", strs ["no_valid_worker_lease"; "safe_checkpoint"; "expected_state_version"]);
        ("to", VStr "CANCELLED")]])].

Definition shipped_contract : mapping :=
  [(VStr "artifact_sha256", VStr "957162d35915d702ef0cc3c5a153e55745e86b88f153c72fb2fa2e5aef567525");
   (VStr "contracts_version", VStr "1.1.0");
   (VStr "documents", obj [("commands_events", doc_commands_events);
      ("state_machine.action_transaction", doc_action_transaction);
      ("state_machine.agent_graph", doc_agent_graph);
      ("state_machine.incident", doc_incident);
      ("state_machine.runtime_task", doc_runtime_task)])].
