(* ===== verification/KernelSpec.v ===== *)
(** * Theorems on the transition kernel

    Facts about its operations, its specification, and what it guarantees on the shipped
    contract. *)
From S2P Require Import Prelude Json JsonFacts Sha256 Kernel ContractData.

(** ** Facts about the transition kernel

    The invariant the constructor establishes ([new_kernel_wf]), the functional
    specification of [decide] ([decide_iff_admissible]), the absence of registry
    errors at decision time, digest binding, owner isolation and the versioned
    history of an aggregate. *)

(** *** Helper validators *)

Lemma as_list_ok v l : as_list v = Ok l ↔ v = VList l.
Proof. destruct v; simpl; split; congruence. Qed.

Lemma nonempty_string_ok v s : nonempty_string v = Ok s ↔ v = VStr s ∧ s ≠ "".
Proof.
  destruct v; simpl; try (split; [discriminate|by intros [[=] _]]).
  unfold truthy. case_bool_decide as H; simpl; split.
  - by intros [= ->].
  - by intros [[= ->] _].
  - discriminate.
  - intros [[= ->] ?]. done.
Qed.

Lemma as_mapping_ok v d : as_mapping v = Ok d ↔ v = VDict d ∧ forallb key_is_str d = true.
Proof.
  destruct v; simpl; try (split; [discriminate|by intros [[=] _]]).
  destruct (forallb key_is_str d0) eqn:E; simpl; split.
  - by intros [= ->].
  - by intros [[= ->] _].
  - discriminate.
  - intros [[= ->] ?]. congruence.
Qed.

Lemma as_bool_ok v b : as_bool v = Ok b ↔ v = VBool b.
Proof. destruct v; simpl; split; congruence. Qed.

Lemma size_list_to_set_le (xs : list string) : (size (list_to_set xs : gset string) ≤ length xs)%nat.
Proof.
  induction xs as [|x xs IH]; [by rewrite list_to_set_nil, size_empty|].
  rewrite list_to_set_cons, size_union_alt, size_singleton; cbn [length].
  assert (size (list_to_set xs ∖ {[x]} : gset string) ≤ size (list_to_set xs : gset string))%nat
    by (apply subseteq_size; set_solver). lia.
Qed.

Lemma has_duplicates_false xs : has_duplicates xs = false ↔ NoDup xs.
Proof.
  unfold has_duplicates. rewrite negb_false_iff, bool_decide_eq_true. split.
  - induction xs as [|x xs IH]; intros H; [constructor|].
    rewrite list_to_set_cons in H. cbn [length] in H. pose proof (size_list_to_set_le xs).
    rewrite size_union_alt, size_singleton in H.
    assert (size (list_to_set xs ∖ {[x]} : gset string) ≤ size (list_to_set xs : gset string))%nat
      by (apply subseteq_size; set_solver).
    constructor; [|apply IH; lia]. intros Hin.
    assert (size (list_to_set xs ∖ {[x]} : gset string) < size (list_to_set xs : gset string))%nat;
      [|lia].
    assert (x ∈ (list_to_set xs : gset string)) by by apply elem_of_list_to_set.
    apply subset_size. set_solver.
  - intros H. symmetry. by apply size_list_to_set.
Qed.

Lemma string_set_ok v X :
  string_set v = Ok X →
  ∃ xs, (v = VList (VStr <$> xs)) ∧ xs ≠ [] ∧ NoDup xs ∧ ("" ∉ xs) ∧ X = list_to_set xs.
Proof.
  unfold string_set. intros H. res_inv. apply as_list_ok in E as ->.
  apply has_duplicates_false in E2. bool_prop. exists a0.
  assert (Hl : (a = (VStr <$> a0)) ∧ "" ∉ a0).
  { clear E0 E2; apply rmapM_ok in E1. induction E1 as [|x y l k Hx _ [-> IH]]; [set_solver|].
    apply nonempty_string_ok in Hx as [-> ?]. split; [done|set_solver]. }
  destruct Hl as [-> Hne]. split_and!; try done. by intros ->.
Qed.

(** *** The invariant of a constructed kernel *)

Definition wf_transition (cmds evts : gmap string mapping) (states : gset string)
    (preds : gset string) (tid : string) (t : transition) : Prop :=
  tr_id t = tid ∧ tid ≠ "" ∧
  tr_from t ∈ states ∧ tr_to t ∈ states ∧
  is_Some (cmds !! tr_command t) ∧ is_Some (evts !! tr_event t) ∧
  tr_guard_predicate t = GUARD_PREFIX +:+ tid ∧ tr_guard_predicate t ∈ preds ∧
  tr_preconditions t ≠ [] ∧ NoDup (tr_preconditions t) ∧
  (∀ p, p ∈ tr_preconditions t → p ≠ "" ∧ p ∈ preds) ∧
  tr_actor t ≠ "" ∧ tr_from t ≠ "" ∧ tr_command t ≠ "".

Definition wf_machine (cmds evts : gmap string mapping) (preds : gset string)
    (spec : string * string) (m : machine) : Prop :=
  m_machine_id m = spec.1 ∧ m_owner_component m = spec.2 ∧
  m_terminal_states m ⊆ m_states m ∧
  ∀ tid t, m_transitions m !! tid = Some t →
    wf_transition cmds evts (m_states m) preds tid t.

Definition wf_command (c : mapping) : Prop :=
  val_in (dget "idempotency" c) IDEMPOTENCY_POLICIES = true ∧
  val_in (dget "version_check" c) VERSION_POLICIES = true.

Record wf_kernel (k : TransitionKernel) : Prop := {
  wf_version : k_contracts_version k = SUPPORTED_CONTRACTS_VERSION;
  wf_commands : map_Forall (λ _, wf_command) (k_commands k);
  wf_machines : ∀ mid, is_Some (k_machines k !! mid) ↔ mid ∈ MACHINE_OWNERS.*1;
  wf_each : ∀ spec m, spec ∈ MACHINE_OWNERS → k_machines k !! spec.1 = Some m →
    wf_machine (k_commands k) (k_events k) (k_predicate_names k) spec m;
  wf_registry : dom (k_predicates k) = k_predicate_names k;
  wf_used_commands : ∀ c, is_Some (k_commands k !! c) →
    ∃ mid m tid t, k_machines k !! mid = Some m ∧ m_transitions m !! tid = Some t ∧
      tr_command t = c;
}.

Lemma wf_transition_mono cmds evts states P Q tid t :
  P ⊆ Q → wf_transition cmds evts states P tid t → wf_transition cmds evts states Q tid t.
Proof.
  intros HPQ (? & ? & ? & ? & ? & ? & ? & ? & ? & ? & Hp & ? & ? & ?). unfold wf_transition.
  split_and!; auto. intros p Hin. destruct (Hp p Hin). auto.
Qed.

(** What one machine's loop keeps: its transitions are well formed for the sets
    used so far, which grow, and every command newly used is bound. *)
Definition transitions_inv cmds evts states (u0 : used)
    (acc : gmap string transition * used) : Prop :=
  used_predicates u0 ⊆ used_predicates acc.2 ∧
  (∀ tid t, acc.1 !! tid = Some t →
    wf_transition cmds evts states (used_predicates acc.2) tid t) ∧
  (∀ c, c ∈ used_commands acc.2 → c ∈ used_commands u0 ∨
    ∃ tid t, acc.1 !! tid = Some t ∧ tr_command t = c).

Lemma load_transition_inv cmds evts known states u0 acc raw acc' :
  transitions_inv cmds evts states u0 acc →
  load_transition cmds evts known states acc raw = Ok acc' →
  transitions_inv cmds evts states u0 acc'.
Proof.
  destruct acc as [ts u]. intros (Hsub & Hwf & Hcmd) H. unfold load_transition in H. res_inv.
  rewrite set_update_union, !set_add_union.
  bool_prop. apply nonempty_string_ok in E0 as [E0 Hid].
  apply as_list_ok in E13. apply has_duplicates_false in E16.
  repeat match goal with
  | H : nonempty_string _ = Ok _ |- _ => apply nonempty_string_ok in H as [? ?]
  end.
  assert (Hpn : ∀ p, p ∈ a9 → p ≠ "").
  { apply rmapM_ok in E15. clear E13 E14 E16. induction E15 as [|x y ?? Hx]; [set_solver|].
    apply nonempty_string_ok in Hx as [-> ?]. set_solver. }
  assert (a9 ≠ []).
  { intros ->. apply rmapM_length in E15. by destruct a8. }
  assert (a0 ∉ dom ts) by (rewrite not_elem_of_dom; by apply eq_None_not_Some).
  split_and!; simpl.
  - set_solver.
  - intros tid t Ht. apply lookup_insert_Some in Ht as [[<- <-]|[Hne Ht]].
    + unfold wf_transition; simpl. split_and!; try done.
      * by destruct (decide (a4 ∈ states)).
      * by destruct (decide (a5 ∈ states)).
      * destruct (cmds !! a6); [eauto|done].
      * destruct (evts !! a7); [eauto|done].
      * set_solver.
      * intros p Hp. split; [auto|]. set_solver.
    + eapply wf_transition_mono; [|by apply Hwf]. set_solver.
  - intros c. rewrite elem_of_union, elem_of_singleton. intros [Hc| ->].
    + destruct (Hcmd c Hc) as [?|(tid & t & Ht & <-)]; [by left|right].
      exists tid, t. rewrite lookup_insert_ne; [done|].
      intros <-. apply elem_of_dom_2 in Ht. done.
    + right. eexists a0, _. rewrite lookup_insert_eq. by split.
Qed.

Lemma load_transitions_inv cmds evts known states raws u acc' :
  rfold (load_transition cmds evts known states) raws (∅, u) = Ok acc' →
  transitions_inv cmds evts states u acc'.
Proof.
  apply rfold_invariant.
  - intros acc raw acc'' _. apply load_transition_inv.
  - split_and!; simpl; [done| |by left]. intros tid t. by rewrite lookup_empty.
Qed.

(** What the machine loop keeps after the owners in [done]. *)
Definition machines_inv cmds evts (done_ : list (string * string))
    (acc : gmap string machine * used) : Prop :=
  (∀ mid, is_Some (acc.1 !! mid) ↔ mid ∈ done_.*1) ∧
  (∀ spec m, spec ∈ done_ → acc.1 !! spec.1 = Some m →
    wf_machine cmds evts (used_predicates acc.2) spec m) ∧
  (∀ c, c ∈ used_commands acc.2 →
    ∃ mid m tid t, acc.1 !! mid = Some m ∧ m_transitions m !! tid = Some t ∧ tr_command t = c).

Lemma load_machine_inv cmds evts known documents done_ acc spec acc' :
  spec.1 ∉ done_.*1 →
  machines_inv cmds evts done_ acc →
  load_machine cmds evts known documents acc spec = Ok acc' →
  machines_inv cmds evts (done_ ++ [spec]) acc'.
Proof.
  destruct acc as [ms u], spec as [mid owner]. simpl. intros Hnew (Hdom & Hwf & Hcmd) H.
  unfold load_machine in H. res_inv. destruct a3 as [ts u']. res_inv.
  apply load_transitions_inv in E6 as (Hsub & Hts & Hused). bool_prop. simpl in *.
  assert (Hms : ms !! mid = None).
  { apply eq_None_not_Some. by rewrite Hdom. }
  split_and!; simpl.
  - intros x. rewrite fmap_app. simpl. rewrite lookup_insert.
    case_decide; subst; [set_solver|]. rewrite Hdom. set_solver.
  - intros spec m. rewrite elem_of_app, list_elem_of_singleton. intros [Hin| ->] Hm.
    + rewrite lookup_insert_ne in Hm.
      * destruct (Hwf spec m Hin Hm) as (? & ? & ? & Ht). split_and!; auto.
        intros. eapply wf_transition_mono; [exact Hsub|]. auto.
      * intros ->. apply Hnew. by apply (list_elem_of_fmap_2 fst).
    + rewrite lookup_insert_eq in Hm. injection Hm as <-. split_and!; try done.
      by apply subset_of_true.
  - intros c Hc. destruct (Hused c Hc) as [Hc'|(tid & t & Ht & <-)].
    + destruct (Hcmd c Hc') as (mid' & m & tid & t & Hm & Ht & <-).
      exists mid', m, tid, t. rewrite lookup_insert_ne; [done|]. intros <-. congruence.
    + eexists mid, _, tid, t. by rewrite lookup_insert_eq.
Qed.

Lemma load_machines_inv cmds evts known documents specs done_ acc acc' :
  NoDup (done_ ++ specs).*1 →
  machines_inv cmds evts done_ acc →
  rfold (load_machine cmds evts known documents) specs acc = Ok acc' →
  machines_inv cmds evts (done_ ++ specs) acc'.
Proof.
  revert done_ acc; induction specs as [|spec specs IH]; intros done_ acc Hnd Hinv H; simpl in H.
  - res_inv. by rewrite app_nil_r.
  - res_inv.
    assert (Happ : done_ ++ spec :: specs = (done_ ++ [spec]) ++ specs) by by rewrite <-app_assoc.
    rewrite Happ in *. eapply IH; [done| |done]. clear Happ.
    eapply load_machine_inv; [|done|done].
    rewrite !fmap_app, <-app_assoc, NoDup_app in Hnd. destruct Hnd as (_ & Hdisj & _).
    intros Hin. eapply Hdisj; [done|]. simpl. left.
Qed.

Lemma check_commands_ok l : rfold check_command l tt = Ok tt → Forall (λ c, wf_command c.2) l.
Proof.
  induction l as [|c l IH]; simpl; intros H; constructor; res_inv; destruct a; auto.
  unfold check_command in E. res_inv. bool_prop. by split.
Qed.

Lemma new_kernel_wf_lemma resource predicates k :
  new_kernel resource predicates = Ok k → wf_kernel k ∧ k_predicates k = predicates.
Proof.
  intros H. unfold new_kernel in H. res_inv. destruct a6 as [ms u]. res_inv.
  apply (load_machines_inv _ _ _ _ _ []) in E7 as (Hdom & Hwf & Hused).
  - bool_prop. destruct a4. apply check_commands_ok in E5.
    split; [|done]. constructor; simpl.
    + by destruct (decide (a = SUPPORTED_CONTRACTS_VERSION)).
    + apply map_Forall_to_list. eapply Forall_impl; [exact E5|]. by intros [? ?].
    + done.
    + done.
    + apply dec_stable in H, H0. apply absent_keys_nil in H. apply keys_outside_nil in H0.
      by apply (anti_symm (⊆)).
    + intros c Hc. apply Hused. apply elem_of_dom in Hc.
      apply dec_stable, keys_outside_nil in E8. by apply E8.
  - apply (bool_decide_unpack _). by vm_compute.
  - split_and!; simpl; [|set_solver|set_solver].
    intros mid. rewrite lookup_empty. split; [by intros [? [=]]|set_solver].
Qed.

(** *** Specification of [decide] *)

Definition fresh (current supplied : option string) : Prop :=
  ∃ c, current = Some c ∧ c ≠ "" ∧ supplied = Some c.

Definition version_ok (r : TransitionRequest) (t : transition) (cmd : mapping) : Prop :=
  let policy := dget "version_check" cmd in
  (policy = VStr "state_version" ∨ policy = VStr "digest_and_state_version" ∨
   "expected_state_version" ∈ tr_preconditions t →
   expected_state_version r = Some (state_version r)) ∧
  (policy = VStr "fencing_token" → fresh (current_fencing_token r) (fencing_token r)) ∧
  (policy = VStr "digest_and_state_version" → fresh (current_action_digest r) (action_digest r)).

Inductive key_ok (r : TransitionRequest) (cmd : mapping) : option string → Prop :=
| key_required s : dget "idempotency" cmd = VStr "required" →
    idempotency_key r = Some s → s ≠ "" → key_ok r cmd (Some s)
| key_derived : dget "idempotency" cmd = VStr "derived" → idempotency_key r = None →
    key_ok r cmd (Some ("derived:" +:+ digest_of (derived_material r)))
| key_not_applicable : dget "idempotency" cmd = VStr "not_applicable" →
    idempotency_key r = None → key_ok r cmd None.

Definition holds (reg : PredicateRegistry) (r : TransitionRequest) (name : string) : Prop :=
  ∃ p, reg !! name = Some p ∧ p r = VBool true.

(** The machine and transition the request names. *)
Definition located (k : TransitionKernel) (r : TransitionRequest) (m : machine) (t : transition) :=
  k_machines k !! machine_id r = Some m ∧ m_transitions m !! transition_id r = Some t.

Definition order_of (t : transition) : list string :=
  tr_guard_predicate t :: tr_preconditions t.

Definition cmd_of (k : TransitionKernel) (r : TransitionRequest) : mapping :=
  default [] (k_commands k !! command r).

Record admissible (k : TransitionKernel) (r : TransitionRequest) (m : machine)
    (t : transition) (key : option string) : Prop := {
  adm_schema : schema_version r = k_contracts_version k;
  adm_located : located k r m t;
  adm_owner : owner_component r = m_owner_component m;
  adm_not_terminal : state r ∉ m_terminal_states m;
  adm_source : state r = tr_from t;
  adm_actor : actor r = tr_actor t;
  adm_command : command r = tr_command t;
  adm_policy : val_in (dget "version_check" (cmd_of k r)) VERSION_POLICIES = true;
  adm_version : version_ok r t (cmd_of k r);
  adm_key : key_ok r (cmd_of k r) key;
  adm_predicates : Forall (holds (k_predicates k) r) (order_of t);
  adm_reserved : ∀ d, reserved_request_digest r = Some d →
    d = request_digest r key (order_of t);
}.

Definition decision_of (k : TransitionKernel) (r : TransitionRequest) (m : machine)
    (t : transition) (key : option string) : TransitionDecision :=
  let digest := request_digest r key (order_of t) in
  {| d_machine_id := machine_id r; d_owner_component := owner_component r;
     d_transition_id := transition_id r; d_actor := actor r;
     d_aggregate_id := aggregate_id r; d_previous_state := state r;
     d_next_state := tr_to t; d_previous_state_version := state_version r;
     d_next_state_version := state_version r + 1; d_command := command r;
     d_event := tr_event t; d_schema_version := schema_version r;
     d_automatic := tr_automatic t; d_idempotency_key := key; d_request_digest := digest;
     d_evaluated_predicates := order_of t;
     d_decision_digest :=
       digest_of (decision_fields r m t (schema_version r) key (order_of t) digest) |}.

Lemma stale_fresh c s : stale c s = false ↔ fresh c s.
Proof.
  unfold stale, fresh. destruct c as [c|]; [|split; [done|by intros (? & [=] & _)]].
  unfold truthy. rewrite orb_false_iff, negb_false_iff, bool_decide_eq_true, bool_decide_eq_false.
  split.
  - intros [? Hs%dec_stable]. eauto.
  - intros (? & [= <-] & ? & ->). auto.
Qed.

Lemma val_is_false v s : val_is v s = false ↔ v ≠ VStr s.
Proof. rewrite <-val_is_true. by destruct (val_is v s). Qed.

Lemma check_versions_ok r t cmd :
  check_versions r t cmd = Ok tt ↔
  val_in (dget "version_check" cmd) VERSION_POLICIES = true ∧ version_ok r t cmd.
Proof.
  unfold check_versions, version_ok. generalize (dget "version_check" cmd) as v. intros v.
  pose proof (stale_fresh (current_fencing_token r) (fencing_token r)) as H4.
  pose proof (stale_fresh (current_action_digest r) (action_digest r)) as H5.
  unfold val_in, VERSION_POLICIES. cbn [existsb].
  destruct (decide (v = VStr "state_version")) as [->|H1].
  { eval_val_is. repeat case_bool_decide; cbn; intuition congruence. }
  destruct (decide (v = VStr "fencing_token")) as [->|H2].
  { eval_val_is. destruct (stale _ (fencing_token r));
      repeat case_bool_decide; cbn; intuition congruence. }
  destruct (decide (v = VStr "digest_and_state_version")) as [->|H3].
  { eval_val_is. destruct (stale _ (action_digest r));
      repeat case_bool_decide; cbn; intuition congruence. }
  apply val_is_false in H1, H2, H3. rewrite H1, H2, H3. cbn.
  split; [|by intros [[=] _]]. by destruct (_ && _).
Qed.

Lemma choose_key_ok r cmd key : choose_key r cmd = Ok key ↔ key_ok r cmd key.
Proof.
  unfold choose_key. cbv zeta. split.
  - destruct (val_is (dget "idempotency" cmd) "required") eqn:E1.
    { apply val_is_true in E1. destruct (idempotency_key r) as [s|] eqn:E; [|discriminate].
      unfold truthy. case_bool_decide; [|discriminate]. intros [= <-].
      by eapply key_required. }
    destruct (val_is (dget "idempotency" cmd) "derived") eqn:E2.
    { apply val_is_true in E2. destruct (idempotency_key r) eqn:E; [discriminate|].
      intros [= <-]. by apply key_derived. }
    destruct (val_is (dget "idempotency" cmd) "not_applicable") eqn:E3; [|discriminate].
    apply val_is_true in E3. destruct (idempotency_key r) eqn:E; [discriminate|].
    intros [= <-]. by apply key_not_applicable.
  - intros [s H Hk Hs|H Hk|H Hk]; rewrite H, Hk; [|reflexivity|reflexivity].
    change (val_is (VStr "required") "required") with true. cbv iota.
    unfold truthy. by rewrite bool_decide_eq_true_2.
Qed.

Lemma failed_predicates_nil reg r order :
  failed_predicates reg r order = Ok [] ↔ Forall (holds reg r) order.
Proof.
  induction order as [|n order IH]; simpl; [by split|].
  rewrite Forall_cons, <-IH. unfold evaluate, holds. split.
  - destruct (reg !! n) as [p|]; [|done]. destruct (p r) eqn:Ep; try done. simpl.
    intros H. res_inv. destruct b; [|done]. subst. eauto.
  - intros [(p & -> & ->) ->]. done.
Qed.

(** [decide] succeeds exactly on admissible requests, and then returns the
    decision they determine. *)
Lemma decide_iff k r d :
  decide_transition k r = Ok d ↔
  ∃ m t key, admissible k r m t key ∧ d = decision_of k r m t key.
Proof.
  unfold decide_transition. split.
  - intros H. res_inv.
    repeat match goal with H : bool_decide _ = false |- _ =>
      apply bool_decide_eq_false, dec_stable in H || apply bool_decide_eq_false in H end.
    destruct a1. apply check_versions_ok in E7 as [??]. apply choose_key_ok in E8.
    subst a3. apply failed_predicates_nil in E9.
    eexists a, a0, a2. split.
    + constructor; auto; [by split|].
      intros d Hd. rewrite Hd in E11. by apply bool_decide_eq_false, dec_stable in E11.
    + unfold decision_of. repeat match goal with
        | H : schema_version r = _ |- _ => rewrite H
        | H : owner_component r = _ |- _ => rewrite H end. done.
  - intros (m & t & key & [Hs [Hm Ht] Ho Hnt Hsrc Ha Hc Hp Hv Hk Hpr Hr] & ->).
    rewrite bool_decide_eq_false_2 by tauto. rewrite Hm. cbn [from_option_or rbind].
    rewrite bool_decide_eq_false_2 by tauto. rewrite Ht. cbn [from_option_or rbind].
    rewrite !bool_decide_eq_false_2 by tauto.
    fold (cmd_of k r). rewrite (proj2 (check_versions_ok r t (cmd_of k r))) by done.
    cbn [rbind]. rewrite (proj2 (choose_key_ok r (cmd_of k r) key)) by done. cbn [rbind].
    fold (order_of t). rewrite (proj2 (failed_predicates_nil _ r (order_of t))) by done.
    cbn [rbind]. rewrite bool_decide_eq_false_2 by tauto. unfold decision_of.
    destruct (reserved_request_digest r) as [x|]; [|by rewrite Hs, Ho].
    rewrite bool_decide_eq_false_2 by (intros Hx; apply Hx; by apply Hr).
    by rewrite Hs, Ho.
Qed.

(** *** Rejections *)

(** Predicates answer with a boolean, as [PredicateRegistry] requires. *)
Definition boolean_registry (reg : PredicateRegistry) : Prop :=
  ∀ n p r, reg !! n = Some p → ∃ b, p r = VBool b.

Definition fails (reg : PredicateRegistry) (r : TransitionRequest) (name : string) : Prop :=
  ∃ p, reg !! name = Some p ∧ p r = VBool false.

(** Why a request is rejected with each exception. *)
Definition rejected_because (k : TransitionKernel) (r : TransitionRequest)
    (e : kernel_error) : Prop :=
  match e with
  | SchemaVersionError => schema_version r ≠ k_contracts_version k
  | UnknownMachineError => k_machines k !! machine_id r = None
  | OwnerMismatchError =>
      ∃ m, k_machines k !! machine_id r = Some m ∧ owner_component r ≠ m_owner_component m
  | UnknownTransitionError =>
      ∃ m, k_machines k !! machine_id r = Some m ∧ m_transitions m !! transition_id r = None
  | IllegalTransitionError =>
      ∃ m t, located k r m t ∧ (state r ∈ m_terminal_states m ∨ state r ≠ tr_from t)
  | ActorMismatchError => ∃ m t, located k r m t ∧ actor r ≠ tr_actor t
  | CommandMismatchError => ∃ m t, located k r m t ∧ command r ≠ tr_command t
  | VersionConflictError => ∃ m t, located k r m t ∧ ¬ version_ok r t (cmd_of k r)
  | IdempotencyError =>
      (∀ key, ¬ key_ok r (cmd_of k r) key) ∨
      ∃ m t key d, located k r m t ∧ key_ok r (cmd_of k r) key ∧
        reserved_request_digest r = Some d ∧ d ≠ request_digest r key (order_of t)
  | GuardRejectedError tid failed =>
      ∃ m t, located k r m t ∧ tid = transition_id r ∧ failed ≠ [] ∧
        failed `sublist_of` order_of t ∧ Forall (fails (k_predicates k) r) failed ∧
        ∀ n, n ∈ order_of t → n ∈ failed ∨ holds (k_predicates k) r n
  | ContractRegistryError | PyTypeError => False
  end.

Lemma failed_predicates_spec reg r order :
  boolean_registry reg → (∀ n, n ∈ order → is_Some (reg !! n)) →
  ∃ failed, failed_predicates reg r order = Ok failed ∧
    failed `sublist_of` order ∧ Forall (fails reg r) failed ∧
    ∀ n, n ∈ order → n ∈ failed ∨ holds reg r n.
Proof.
  intros Hb. induction order as [|n order IH]; intros Hin.
  { exists []. split_and!; [done|done|done|set_solver]. }
  destruct IH as (failed & Hf & Hsub & Hall & Hcov); [set_solver|].
  destruct (Hin n) as [p Hp]; [left|]. destruct (Hb n p r Hp) as [b Hpb].
  assert (Hev : evaluate reg n r = Ok b) by (unfold evaluate; by rewrite Hp, Hpb).
  simpl. rewrite Hev, Hf. simpl. eexists. split; [done|]. destruct b.
  - split_and!; [by apply sublist_cons|done|]. intros n' [->|?]%elem_of_cons; [|auto].
    right. unfold holds. eauto.
  - split_and!; [by apply sublist_skip| |].
    + constructor; [|done]. unfold fails. eauto.
    + intros n' [->|?]%elem_of_cons; [left; left|]. destruct (Hcov n'); [done|left; by right|auto].
Qed.

Lemma check_versions_err r t cmd e :
  val_in (dget "version_check" cmd) VERSION_POLICIES = true →
  check_versions r t cmd = Err e → e = VersionConflictError ∧ ¬ version_ok r t cmd.
Proof.
  intros Hp He. split.
  - unfold check_versions in He. apply val_in_true in Hp as (s & Hs & Hin). rewrite Hs in He.
    destruct (_ && _); [congruence|].
    unfold VERSION_POLICIES in Hin. rewrite !elem_of_cons in Hin.
    destruct Hin as [->|[->|[->|Hin]]]; [..|by apply elem_of_nil in Hin];
      revert He; eval_val_is; cbn; repeat case_match; congruence.
  - intros Hok. assert (check_versions r t cmd = Ok tt) by by apply check_versions_ok.
    congruence.
Qed.

Lemma choose_key_err r cmd e :
  val_in (dget "idempotency" cmd) IDEMPOTENCY_POLICIES = true →
  choose_key r cmd = Err e → e = IdempotencyError ∧ ∀ key, ¬ key_ok r cmd key.
Proof.
  intros Hp He. split.
  - unfold choose_key in He. apply val_in_true in Hp as (s & Hs & Hin). rewrite Hs in He.
    unfold IDEMPOTENCY_POLICIES in Hin. rewrite !elem_of_cons in Hin.
    destruct Hin as [->|[->|[->|Hin]]]; [..|by apply elem_of_nil in Hin];
      revert He; eval_val_is; cbn; repeat case_match; congruence.
  - intros key Hok%choose_key_ok. congruence.
Qed.

Lemma wf_located k r m t :
  wf_kernel k → located k r m t →
  ∃ spec, spec ∈ MACHINE_OWNERS ∧ spec.1 = machine_id r ∧
    wf_machine (k_commands k) (k_events k) (k_predicate_names k) spec m ∧
    wf_transition (k_commands k) (k_events k) (m_states m) (k_predicate_names k)
      (transition_id r) t.
Proof.
  intros Hwf [Hm Ht].
  assert (machine_id r ∈ MACHINE_OWNERS.*1) as ([mid owner] & Hmid & Hin)%list_elem_of_fmap
    by (apply (wf_machines k Hwf); eauto).
  exists (mid, owner). simpl in *. split_and!; [done|done| |].
  - apply (wf_each k Hwf (mid, owner) m Hin). simpl. by rewrite <-Hmid.
  - destruct (wf_each k Hwf (mid, owner) m Hin) as (_ & _ & _ & Hts); [simpl; by rewrite <-Hmid|].
    auto.
Qed.

Lemma wf_order_registered k r m t :
  wf_kernel k → located k r m t → ∀ n, n ∈ order_of t → is_Some (k_predicates k !! n).
Proof.
  intros Hwf Hl n Hn. destruct (wf_located k r m t Hwf Hl) as (_ & _ & _ & _ & Ht).
  destruct Ht as (_ & _ & _ & _ & _ & _ & _ & Hg & _ & _ & Hp & _).
  apply elem_of_dom. rewrite (wf_registry k Hwf).
  apply elem_of_cons in Hn as [->|Hn]; [done|]. by apply Hp.
Qed.

Lemma wf_command_of k r m t :
  wf_kernel k → located k r m t → command r = tr_command t → wf_command (cmd_of k r).
Proof.
  intros Hwf Hl Hc. destruct (wf_located k r m t Hwf Hl) as (_ & _ & _ & _ & Ht).
  destruct Ht as (_ & _ & _ & _ & [c Hcmd] & _).
  unfold cmd_of. rewrite Hc, Hcmd. simpl. by apply (wf_commands k Hwf (tr_command t)).
Qed.

Lemma decide_err_lemma k r e :
  wf_kernel k → boolean_registry (k_predicates k) →
  decide_transition k r = Err e → rejected_because k r e.
Proof.
  intros Hwf Hb. unfold decide_transition.
  case_bool_decide as Hs; [by intros [= <-]|].
  destruct (k_machines k !! machine_id r) as [m|] eqn:Hm; cbn [from_option_or rbind];
    [|by intros [= <-]].
  case_bool_decide as Ho; [intros [= <-]; simpl; eauto|].
  destruct (m_transitions m !! transition_id r) as [t|] eqn:Ht; cbn [from_option_or rbind];
    [|intros [= <-]; simpl; eauto].
  assert (Hl : located k r m t) by by split.
  case_bool_decide as Hterm; [intros [= <-]; simpl; eauto 6|].
  case_bool_decide as Hsrc; [intros [= <-]; simpl; eauto 6|].
  case_bool_decide as Hact; [intros [= <-]; simpl; eauto 6|].
  case_bool_decide as Hcmd; [intros [= <-]; simpl; eauto 6|].
  destruct (wf_command_of k r m t Hwf Hl Hcmd) as [Hpol1 Hpol2].
  fold (cmd_of k r). destruct (check_versions r t (cmd_of k r)) as [u|e'] eqn:Hv;
    cbn [rbind].
  2: { intros [= <-]. destruct (check_versions_err _ _ _ _ Hpol2 Hv) as [-> ?]. simpl. eauto. }
  destruct (choose_key r (cmd_of k r)) as [key|e'] eqn:Hk; cbn [rbind].
  2: { intros [= <-]. destruct (choose_key_err _ _ _ Hpol1 Hk) as [-> ?]. simpl. eauto. }
  fold (order_of t).
  destruct (failed_predicates_spec (k_predicates k) r (order_of t) Hb) as
    (failed & -> & Hsub & Hall & Hcov); [by eapply wf_order_registered|]. cbn [rbind].
  case_bool_decide as Hf.
  { intros [= <-]. simpl. exists m, t. by split_and!. }
  destruct (reserved_request_digest r) as [d|] eqn:Hd; [|discriminate].
  case_bool_decide; [|discriminate]. intros [= <-]. right. exists m, t, key, d.
  split_and!; auto. by apply choose_key_ok.
Qed.

(** *** Digests *)

Definition collision_of (v w : val) : Prop :=
  sha256_collision (utf8 (canonical_json v)) (utf8 (canonical_json w)).

Lemma digest_of_binds a b :
  sort_strings a.*1 = a.*1 → sort_strings b.*1 = b.*1 → NoDup a.*1 → NoDup b.*1 →
  Forall (λ v, json_ok v = true) a.*2 → Forall (λ v, json_ok v = true) b.*2 →
  digest_of (sdict a) = digest_of (sdict b) →
  prod_map id (printed canonical_style) <$> a = prod_map id (printed canonical_style) <$> b ∨
  collision_of (sdict a) (sdict b).
Proof.
  intros Ha Hb Hna Hnb Hja Hjb H. unfold digest_of in H.
  destruct (sha256_equal_or_collision _ _ H) as [Heq|?]; [left|by right].
  apply utf8_inj in Heq. by apply canonical_sdict_inj.
Qed.

Lemma json_ok_str_list l : json_ok (str_list l) = true.
Proof. induction l; simpl in *; auto. Qed.
Lemma printed_str_list st l : printed st (str_list l) = str_list l.
Proof. unfold str_list. simpl. f_equal. by rewrite <-list_fmap_compose. Qed.
Lemma str_list_inj a b : str_list a = str_list b → a = b.
Proof.
  unfold str_list. intros [= H]. revert b H.
  induction a as [|x a IH]; intros [|y b]; simpl; try discriminate; [done|].
  intros [= -> H]. f_equal. auto.
Qed.
#[export] Hint Resolve json_ok_str_list : fw.
#[export] Hint Rewrite printed_str_list : fw.

(** What a request digest covers. *)
Definition same_request (r1 r2 : TransitionRequest) : Prop :=
  machine_id r1 = machine_id r2 ∧ transition_id r1 = transition_id r2 ∧
  owner_component r1 = owner_component r2 ∧ actor r1 = actor r2 ∧
  aggregate_id r1 = aggregate_id r2 ∧ state r1 = state r2 ∧
  state_version r1 = state_version r2 ∧ command r1 = command r2 ∧
  schema_version r1 = schema_version r2 ∧
  expected_state_version r1 = expected_state_version r2 ∧
  fencing_token r1 = fencing_token r2 ∧ action_digest r1 = action_digest r2.

Lemma request_digest_binds_lemma r1 r2 key1 key2 o1 o2 :
  request_digest r1 key1 o1 = request_digest r2 key2 o2 →
  (same_request r1 r2 ∧ key1 = key2 ∧ o1 = o2) ∨
  collision_of (request_material r1 key1 o1) (request_material r2 key2 o2).
Proof.
  intros H. apply digest_of_binds in H; [|literal_keys|literal_keys|literal_nodup..|literal_json|literal_json].
  destruct H as [H|H]; [left|by right].
  cbn -[opt_str opt_int str_list printed] in H.
  rewrite ?printed_opt_str, ?printed_opt_int, ?printed_str_list in H. cbn [printed] in H.
  injection H as H1 H2 H3 H4 H5 H6 H7 H8 H9 H10 H11 H12 H13 H14.
  apply opt_str_inj in H1, H6, H7. apply opt_int_inj in H5.
  unfold same_request. split_and!; try congruence.
  apply str_list_inj. exact (f_equal VList H10).
Qed.

Lemma derived_key_binds_lemma r1 r2 :
  digest_of (derived_material r1) = digest_of (derived_material r2) →
  (aggregate_id r1 = aggregate_id r2 ∧ command r1 = command r2 ∧
   machine_id r1 = machine_id r2 ∧ state_version r1 = state_version r2 ∧
   transition_id r1 = transition_id r2) ∨
  collision_of (derived_material r1) (derived_material r2).
Proof.
  intros H. apply digest_of_binds in H; [|literal_keys|literal_keys|literal_nodup..|literal_json|literal_json].
  destruct H as [H|H]; [left|by right].
  cbn -[printed] in H. cbn [printed] in H. by injection H as H1 H2 H3 H4 H5.
Qed.

(** *** Histories of one aggregate *)

Inductive history (k : TransitionKernel) (mid : string) :
    string * Z → list TransitionRequest → string * Z → Prop :=
| history_nil s : history k mid s [] s
| history_step s r d rest s' :
    machine_id r = mid → state r = s.1 → state_version r = s.2 →
    decide_transition k r = Ok d →
    history k mid (d_next_state d, d_next_state_version d) rest s' →
    history k mid s (r :: rest) s'.

Lemma decide_inv k r d :
  decide_transition k r = Ok d →
  ∃ m t, located k r m t ∧ (state r ∉ m_terminal_states m) ∧ state r = tr_from t ∧
    d_machine_id d = machine_id r ∧ d_owner_component d = m_owner_component m ∧
    d_next_state d = tr_to t ∧ d_next_state_version d = (state_version r + 1)%Z.
Proof.
  intros (m & t & key & [] & ->)%decide_iff. exists m, t. split_and!; auto.
Qed.

Lemma history_lemma k mid m s rs s' :
  wf_kernel k → k_machines k !! mid = Some m → history k mid s rs s' →
  s'.2 = (s.2 + Z.of_nat (length rs))%Z ∧
  (s.1 ∈ m_states m → s'.1 ∈ m_states m) ∧
  (s.1 ∈ m_terminal_states m → rs = [] ∧ s' = s).
Proof.
  intros Hwf Hm. induction 1 as [s|s r d rest s' <- Hs Hv Hd _ IH].
  - split_and!; auto. simpl. lia.
  - apply decide_inv in Hd as (m' & t & Hl & Hnt & Hsrc & _ & _ & Hnext & Hver).
    destruct IH as (IHv & IHs & _). simpl in IHv, IHs.
    assert (m' = m) as -> by (destruct Hl; congruence).
    destruct (wf_located k r m t Hwf Hl) as (_ & _ & _ & _ & Ht).
    destruct Ht as (_ & _ & Hfrom & Hto & _).
    split_and!; [simpl; lia| |].
    + intros _. apply IHs. by rewrite Hnext.
    + rewrite <-Hs. done.
Qed.

(** *** The owner views *)

Lemma service_lemma k mid svc r d :
  wf_kernel k → service k mid = Ok svc → service_decide svc r = Ok d →
  (mid, d_owner_component d) ∈ MACHINE_OWNERS ∧ d_machine_id d = mid ∧
  owner_component r = d_owner_component d ∧ decide_transition k r = Ok d.
Proof.
  intros Hwf Hs Hd. unfold service in Hs. res_inv.
  unfold service_decide in Hd. res_inv. bool_prop. simpl in *.
  apply dec_stable in E, E1.
  pose proof Hd as (m & t & Hl & _ & _ & Hmid & Hown & _)%decide_inv.
  destruct (wf_located k r m t Hwf Hl) as ([mid' owner'] & Hin & Hspec & Hwm & _).
  simpl in Hspec. subst mid'.
  assert (machine_id r = mid) as Hr.
  { assert (mid ∈ MACHINE_OWNERS.*1) as ([mid'' owner''] & -> & Hin'')%list_elem_of_fmap
      by (apply (wf_machines k Hwf); eauto).
    destruct (wf_each k Hwf (mid'', owner'') a Hin'' E0) as (Hmid' & _). simpl in *. congruence. }
  destruct Hl as [Hm _]. rewrite Hr in Hm. simplify_eq.
  destruct Hwm as (_ & Hown' & _). simpl in Hown'.
  split_and!; congruence.
Qed.

(** *** The predicates a contract requires *)

(** Replay the successful calls of the hypotheses in the goal. *)
Ltac res_replay :=
  repeat match goal with
  | H : ?c = Ok _ |- context [rbind ?c _] => rewrite H; cbn [rbind]
  end.

Lemma load_transition_required cmds evts known states ts u raw ts' u' :
  load_transition cmds evts known states (ts, u) raw = Ok (ts', u') →
  required_of_transition (used_predicates u) raw = Ok (used_predicates u').
Proof.
  intros H. unfold load_transition in H. res_inv. unfold required_of_transition.
  by res_replay.
Qed.

Lemma load_transitions_required cmds evts known states raws ts u ts' u' :
  rfold (load_transition cmds evts known states) raws (ts, u) = Ok (ts', u') →
  rfold required_of_transition raws (used_predicates u) = Ok (used_predicates u').
Proof.
  revert ts u. induction raws as [|raw raws IH]; intros ts u H; cbn [rfold] in *; [by simplify_eq|].
  destruct (load_transition cmds evts known states (ts, u) raw) as [[ts1 u1]|] eqn:E; [|done].
  rewrite (load_transition_required _ _ _ _ _ _ _ _ _ E). cbn [rbind] in *. by eapply IH.
Qed.

Lemma load_machine_required cmds evts known documents ms u spec ms' u' :
  load_machine cmds evts known documents (ms, u) spec = Ok (ms', u') →
  required_of_machine documents (used_predicates u) spec = Ok (used_predicates u').
Proof.
  destruct spec as [mid owner]. unfold load_machine, required_of_machine. intros H.
  res_inv. destruct a3 as [ts u2]. res_inv. cbn [fst]. res_replay.
  by eapply load_transitions_required.
Qed.

Lemma load_machines_required cmds evts known documents specs ms u ms' u' :
  rfold (load_machine cmds evts known documents) specs (ms, u) = Ok (ms', u') →
  rfold (required_of_machine documents) specs (used_predicates u) = Ok (used_predicates u').
Proof.
  revert ms u. induction specs as [|spec specs IH]; intros ms u H; cbn [rfold] in *;
    [by simplify_eq|].
  destruct (load_machine cmds evts known documents (ms, u) spec) as [[ms1 u1]|] eqn:E; [|done].
  rewrite (load_machine_required _ _ _ _ _ _ _ _ _ E). cbn [rbind] in *. by eapply IH.
Qed.

Lemma required_lemma resource predicates k :
  new_kernel resource predicates = Ok k →
  required_predicates resource = Ok (k_predicate_names k).
Proof.
  intros H. unfold new_kernel in H. res_inv.
  lazymatch goal with H : rfold _ MACHINE_OWNERS _ = Ok ?p |- _ => destruct p as [ms u];
    apply load_machines_required in H end. res_inv.
  unfold required_predicates. by res_replay.
Qed.

Lemma nonempty_strings l names :
  rmapM nonempty_string l = Ok names → "" ∉ names.
Proof.
  intros H%rmapM_ok. induction H as [|x y ?? Hx]; [set_solver|].
  apply nonempty_string_ok in Hx as [-> ?]. set_solver.
Qed.

Lemma required_nonempty resource names :
  required_predicates resource = Ok names → "" ∉ names.
Proof.
  unfold required_predicates. intros H. res_inv.
  eapply (rfold_invariant (λ names : gset string, "" ∉ names)) in H; [done| |set_solver].
  intros s spec s' _ Hs Hspec. unfold required_of_machine in Hspec. res_inv.
  eapply (rfold_invariant (λ names : gset string, "" ∉ names)) in Hspec; [done| |done].
  intros s1 raw s2 _ Hs1 Hraw. unfold required_of_transition in Hraw. res_inv.
  rewrite set_update_union, set_add_union.
  rewrite !not_elem_of_union, not_elem_of_singleton, elem_of_list_to_set.
  split_and!; [done|done|by eapply nonempty_strings].
Qed.

Lemma fact_registry_lemma names :
  "" ∉ names → ∃ reg, fact_registry names = Ok reg ∧ dom reg = names ∧ boolean_registry reg.
Proof.
  intros Hne. unfold fact_registry, new_registry.
  set (reg := set_to_map _ names).
  assert (Hl : ∀ n p, reg !! n = Some p ↔ n ∈ names ∧ p = fact_predicate n).
  { intros n p. unfold reg. rewrite lookup_set_to_map by (by intros ???; simpl).
    split; [intros (n' & Hn & [= <- <-])|intros [? ->]]; eauto. }
  rewrite bool_decide_eq_false_2.
  2: { intros [p Hp]. apply Hl in Hp as [? _]. done. }
  exists reg. split_and!; [done| |].
  - apply set_eq. intros n. rewrite elem_of_dom. split.
    + intros [p Hp]. by apply Hl in Hp as [? _].
    + intros Hn. exists (fact_predicate n). by apply Hl.
  - intros n p r Hp. apply Hl in Hp as [_ ->]. unfold fact_predicate. eauto.
Qed.

Lemma new_kernel_registry resource reg1 reg2 k :
  new_kernel resource reg1 = Ok k → dom reg2 = k_predicate_names k →
  new_kernel resource reg2 = Ok
    {| k_contracts_version := k_contracts_version k; k_commands := k_commands k;
       k_events := k_events k; k_machines := k_machines k; k_predicates := reg2;
       k_predicate_names := k_predicate_names k |}.
Proof.
  intros H Hdom. unfold new_kernel in H |- *.
  repeat match goal with
  | H : rbind ?c _ = Ok _ |- _ => destruct c eqn:?; cbn [rbind] in H |- *; [|discriminate H]
  | H : (if ?b then Err _ else _) = Ok _ |- _ => destruct b eqn:?; [discriminate H|]
  | H : (let '(_, _) := ?p in _) = Ok _ |- _ => destruct p
  end.
  injection H as <-. simpl in *.
  rewrite (proj2 (absent_keys_nil _ reg2)), (proj2 (keys_outside_nil reg2 _)) by by rewrite Hdom.
  done.
Qed.

(** ** Theorems on the transition kernel

    The promises of [src/faultwitness/state/kernel.py], first for every contract
    document the constructor accepts and then for the contract the repository
    ships ([ContractData]): its action machine dispatches an action at most
    once, only from an approved state and only under fresh bindings, and every
    state of every machine can still reach a terminal one. *)

#[export] Instance kernel_error_eq_dec : EqDecision kernel_error.
Proof. solve_decision. Defined.
#[export] Instance decision_eq_dec : EqDecision TransitionDecision.
Proof. solve_decision. Defined.

(** *** Requests that fire a transition *)

Definition fact_backed (reg : PredicateRegistry) : Prop :=
  ∀ n p, reg !! n = Some p → p = fact_predicate n.

Lemma fact_registry_backed names reg : fact_registry names = Ok reg → fact_backed reg.
Proof.
  unfold fact_registry, new_registry. intros H n p. res_inv.
  rewrite lookup_set_to_map by (by intros ???; simpl). by intros (? & _ & [= <- <-]).
Qed.

Definition all_true (names : list string) : mapping :=
  (λ n, (VStr n, VBool true)) <$> names.

Lemma dget_all_true n names : n ∈ names → dget n (all_true names) = VBool true.
Proof.
  unfold dget. induction names as [|x names IH]; [set_solver|].
  intros Hn. simpl. case_bool_decide; [done|]. apply IH. set_solver.
Qed.

Definition enabling_request (k : TransitionKernel) (m : machine) (t : transition)
    (agg : string) (v : Z) : TransitionRequest :=
  let cmd := default [] (k_commands k !! tr_command t) in
  {| machine_id := m_machine_id m; transition_id := tr_id t;
     owner_component := m_owner_component m; actor := tr_actor t; aggregate_id := agg;
     state := tr_from t; state_version := v; command := tr_command t;
     schema_version := k_contracts_version k; expected_state_version := Some v;
     idempotency_key := if val_is (dget "idempotency" cmd) "required" then Some "key" else None;
     reserved_request_digest := None;
     current_fencing_token := Some "1"; fencing_token := Some "1";
     current_action_digest := Some "1"; action_digest := Some "1";
     facts := Some (all_true (order_of t)) |}.

Lemma key_available r cmd :
  wf_command cmd →
  idempotency_key r = (if val_is (dget "idempotency" cmd) "required" then Some "key" else None) →
  ∃ key, key_ok r cmd key.
Proof.
  intros [(s & Hs & Hin)%val_in_true _]. rewrite Hs. unfold IDEMPOTENCY_POLICIES in Hin.
  rewrite !elem_of_cons in Hin.
  destruct Hin as [->|[->|[->|Hin]]]; [..|by apply elem_of_nil in Hin]; eval_val_is; intros Hk.
  - exists (Some "key"). by apply key_required.
  - eexists. by apply key_derived.
  - eexists. by apply key_not_applicable.
Qed.

Lemma machine_names_truthy spec :
  spec ∈ MACHINE_OWNERS → truthy spec.1 = true ∧ truthy spec.2 = true.
Proof.
  intros Hin. assert (forallb (λ s, truthy s.1 && truthy s.2) MACHINE_OWNERS = true) as H by done.
  apply forallb_Forall_true in H. rewrite Forall_forall in H. apply H in Hin. by bool_prop.
Qed.

Lemma wf_machine_of k mid m :
  wf_kernel k → k_machines k !! mid = Some m →
  ∃ owner, (mid, owner) ∈ MACHINE_OWNERS ∧
    wf_machine (k_commands k) (k_events k) (k_predicate_names k) (mid, owner) m.
Proof.
  intros Hwf Hm.
  assert (mid ∈ MACHINE_OWNERS.*1) as ([mid' owner] & -> & Hin)%list_elem_of_fmap
    by (apply (wf_machines k Hwf); eauto).
  exists owner. split; [done|]. by apply (wf_each k Hwf (mid', owner)).
Qed.

Lemma fires_lemma k mid m tid t agg v :
  wf_kernel k → fact_backed (k_predicates k) →
  k_machines k !! mid = Some m → m_transitions m !! tid = Some t →
  tr_from t ∉ m_terminal_states m → agg ≠ "" → (0 ≤ v)%Z →
  let r := enabling_request k m t agg v in
  post_init r = Ok r ∧ machine_id r = mid ∧
  ∃ d, decide_transition k r = Ok d ∧ d_next_state d = tr_to t ∧
       d_next_state_version d = (v + 1)%Z.
Proof.
  intros Hwf Hfb Hm Ht Hterm Hagg Hv r.
  destruct (wf_machine_of k mid m Hwf Hm) as (owner & Hin & Hmid & Hown & _ & Hts).
  destruct (machine_names_truthy _ Hin) as [Htm Hto]. simpl in *.
  pose proof (Hts tid t Ht) as
    (Hid & Hne & _ & _ & [c Hc] & _ & _ & _ & _ & _ & _ & Ha & Hf & Hcm).
  assert (Hl : located k r m t) by (split; simpl; congruence).
  assert (Hwc : wf_command (cmd_of k r)) by by apply (wf_command_of k r m t Hwf Hl).
  split_and!; [|done|].
  - unfold post_init. simpl. rewrite Hmid, Hown, Hid, Htm, Hto, (wf_version k Hwf).
    unfold truthy. rewrite !(bool_decide_eq_true_2 (_ ≠ _)) by done. simpl.
    by rewrite (proj2 (Z.ltb_ge v 0) Hv).
  - destruct (key_available r (cmd_of k r) Hwc) as [key Hkey]; [done|].
    assert (admissible k r m t key) as Hadm.
    + constructor; try done.
      * by destruct Hwc.
      * split_and!; [done|intros _; by exists "1"..].
      * apply Forall_forall. intros n Hn.
        destruct (wf_order_registered k r m t Hwf Hl n Hn) as [p Hp].
        exists p. split; [done|]. rewrite (Hfb n p Hp). unfold fact_predicate.
        change (default [] (facts r)) with (all_true (order_of t)).
        by rewrite dget_all_true.
    + eexists. split; [apply decide_iff; eauto|]. done.
Qed.

(** *** Reaching a terminal state *)

(** The states from which a terminal one is reachable in at most [n] steps. *)
Fixpoint can_terminate (n : nat) (m : machine) : gset string :=
  match n with
  | O => m_terminal_states m
  | S n' =>
      let known := can_terminate n' m in
      known ∪ list_to_set (tr_from <$>
        filter (λ t, tr_to t ∈ known ∧ tr_from t ∉ m_terminal_states m)
          (map_to_list (m_transitions m)).*2)
  end.

Definition fired_for (agg : string) (r : TransitionRequest) : Prop :=
  aggregate_id r = agg ∧ post_init r = Ok r.

Lemma can_terminate_history k mid m agg n s v :
  wf_kernel k → fact_backed (k_predicates k) → k_machines k !! mid = Some m →
  agg ≠ "" → (0 ≤ v)%Z → s ∈ can_terminate n m →
  ∃ rs s' v', history k mid (s, v) rs (s', v') ∧ (s' ∈ m_terminal_states m) ∧
    Forall (fired_for agg) rs.
Proof.
  intros Hwf Hfb Hm Hagg. revert s v. induction n as [|n IH]; intros s v Hv Hs; cbn in Hs.
  - exists [], s, v. split_and!; [constructor|done|done].
  - apply elem_of_union in Hs as [Hs|Hs]; [by apply IH|].
    apply elem_of_list_to_set, list_elem_of_fmap in Hs as (t & -> & Hin).
    apply list_elem_of_filter in Hin as [[Hto Hnt] Hin].
    apply list_elem_of_fmap in Hin as ([tid t'] & -> & Hin). simpl in *.
    apply elem_of_map_to_list in Hin.
    destruct (fires_lemma k mid m tid t' agg v) as (Hpost & Hmid & d & Hd & Hns & Hnv); try done.
    destruct (IH (tr_to t') (v + 1)%Z) as (rs & s' & v' & Hh & Hterm & Hall); [lia|done|].
    exists (enabling_request k m t' agg v :: rs), s', v'. split_and!; [|done|by constructor].
    econstructor; try done. by rewrite Hns, Hnv.
Qed.

(** *** The shipped contract *)

Definition shipped_kernel : result kernel_error TransitionKernel :=
  let* names := required_predicates shipped_contract in
  let* reg := fact_registry names in
  new_kernel shipped_contract reg.

(** Any kernel on the shipped contract has the machines and commands of
    [shipped_kernel], whatever its predicates. *)
Lemma shipped_machines reg k :
  new_kernel shipped_contract reg = Ok k →
  ∃ k', shipped_kernel = Ok k' ∧ k_machines k' = k_machines k ∧ k_commands k' = k_commands k.
Proof.
  intros H. unfold shipped_kernel. pose proof (required_lemma _ _ _ H) as Hreq.
  destruct (fact_registry_lemma _ (required_nonempty _ _ Hreq)) as (reg2 & Hreg & Hdom & _).
  rewrite Hreq. cbn [rbind]. rewrite Hreg. cbn [rbind].
  rewrite (new_kernel_registry _ reg reg2 k H Hdom). eauto.
Qed.

(** A table-driven invariant of a machine: each transition adds its weight. *)
Definition weighs (rank : string → nat) (weight : string → nat) (m : machine) : bool :=
  forallb (λ t, bool_decide (rank (tr_to t) = rank (tr_from t) + weight (tr_id t))%nat)
    (map_to_list (m_transitions m)).*2.

Lemma machine_forallb (P : transition → bool) m tid t :
  forallb P (map_to_list (m_transitions m)).*2 = true →
  m_transitions m !! tid = Some t → P t = true.
Proof.
  intros H Ht. apply forallb_Forall_true in H. rewrite Forall_forall in H. apply H.
  apply list_elem_of_fmap. exists (tid, t). split; [done|]. by apply elem_of_map_to_list.
Qed.

Lemma history_weight k mid m rank weight s rs s' :
  wf_kernel k → k_machines k !! mid = Some m → weighs rank weight m = true →
  history k mid s rs s' →
  rank s'.1 = (rank s.1 + sum_list_with (λ r, weight (transition_id r)) rs)%nat.
Proof.
  intros Hwf Hm Hw. induction 1 as [s|s r d rest s' <- Hs Hv Hd _ IH]; simpl; [lia|].
  apply decide_inv in Hd as (m' & t & Hl & Hnt & Hsrc & _ & _ & Hnext & Hver).
  destruct Hl as [Hm' Ht]. simplify_eq. rewrite IH. simpl.
  pose proof (machine_forallb _ _ _ _ Hw Ht) as Hwt. cbv beta in Hwt. bool_prop.
  destruct (wf_machine_of _ _ _ Hwf Hm) as (_ & _ & _ & _ & _ & Hts).
  destruct (Hts _ _ Ht) as [Hid _]. rewrite Hid in Hwt. rewrite Hnext, <-Hs, Hsrc. lia.
Qed.

(** 1 once the external side effect may have been requested. *)
Definition dispatched (s : string) : nat :=
  if bool_decide (s ∈ ["PREPARED"; "APPROVAL_PENDING"; "APPROVED"; "REJECTED"; "EXPIRED";
                       "CANCELLED"]) then 0 else 1.

Definition dispatches (rs : list TransitionRequest) : nat :=
  sum_list_with (λ r, if bool_decide (transition_id r = "TR-ACTION-DISPATCH") then 1 else 0) rs.

(** The facts about the shipped document that the theorems use, computed. *)
Definition action_machine_check (m : machine) : bool :=
  weighs dispatched (λ tid, if bool_decide (tid = "TR-ACTION-DISPATCH") then 1 else 0)%nat m &&
  forallb (λ t, negb (bool_decide (tr_to t = "EXECUTING")) ||
    bool_decide (tr_from t = "APPROVED" ∧ tr_actor t = "CMP-ACTION-EXECUTOR" ∧
      tr_command t = "CMD-DISPATCH-ACTION" ∧
      ["matching_tenant"; "valid_authorization"; "valid_approval_if_R2";
       "valid_approval_digest"; "current_policy_allow"; "idempotency_reserved"] ⊆
        tr_preconditions t))
    (map_to_list (m_transitions m)).*2 &&
  forallb (λ t, negb (bool_decide (tr_from t = "UNCERTAIN")) || negb (tr_automatic t))
    (map_to_list (m_transitions m)).*2.

Definition dispatch_command_check (cmds : gmap string mapping) : bool :=
  match cmds !! "CMD-DISPATCH-ACTION" with
  | Some c => val_is (dget "idempotency" c) "required" &&
              val_is (dget "version_check" c) "digest_and_state_version"
  | None => false
  end.

Lemma action_machine_facts m :
  action_machine_check m = true →
  weighs dispatched (λ tid, if bool_decide (tid = "TR-ACTION-DISPATCH") then 1 else 0)%nat m = true ∧
  ∀ tid t, m_transitions m !! tid = Some t → tr_to t = "EXECUTING" →
    tr_from t = "APPROVED" ∧ tr_actor t = "CMP-ACTION-EXECUTOR" ∧
    tr_command t = "CMD-DISPATCH-ACTION" ∧
    ["matching_tenant"; "valid_authorization"; "valid_approval_if_R2";
     "valid_approval_digest"; "current_policy_allow"; "idempotency_reserved"] ⊆
      tr_preconditions t.
Proof.
  unfold action_machine_check. rewrite !andb_true_iff. intros [[Hw Hx] _]. split; [done|].
  intros tid t Ht Hex. pose proof (machine_forallb _ _ _ _ Hx Ht) as Hc.
  cbv beta in Hc. rewrite Hex in Hc. simpl in Hc. by bool_prop.
Qed.

Lemma dispatch_command_facts cmds :
  dispatch_command_check cmds = true →
  dget "idempotency" (default [] (cmds !! "CMD-DISPATCH-ACTION")) = VStr "required" ∧
  dget "version_check" (default [] (cmds !! "CMD-DISPATCH-ACTION")) =
    VStr "digest_and_state_version".
Proof.
  unfold dispatch_command_check. destruct (cmds !! _) as [c|]; [|done].
  rewrite andb_true_iff, !val_is_true. done.
Qed.

Definition shipped_check (k : TransitionKernel) : bool :=
  match k_machines k !! "action_transaction" with
  | Some m => action_machine_check m
  | None => false
  end && dispatch_command_check (k_commands k) &&
  forallb (λ m, bool_decide (m_states m ⊆ can_terminate 12 m)) (map_to_list (k_machines k)).*2.

Lemma shipped_checked :
  match shipped_kernel with Ok k => shipped_check k | Err _ => false end = true.
Proof. vm_compute. reflexivity. Qed.

Lemma shipped_facts reg k :
  new_kernel shipped_contract reg = Ok k → shipped_check k = true.
Proof.
  intros H. destruct (shipped_machines reg k H) as (k' & Hk' & Hm & Hc).
  pose proof shipped_checked as Hs. rewrite Hk' in Hs.
  unfold shipped_check in Hs |- *. by rewrite <-Hm, <-Hc.
Qed.

Lemma shipped_action reg k :
  new_kernel shipped_contract reg = Ok k →
  ∃ m, k_machines k !! "action_transaction" = Some m ∧ action_machine_check m = true ∧
    dispatch_command_check (k_commands k) = true.
Proof.
  intros H. pose proof (shipped_facts reg k H) as Hs. unfold shipped_check in Hs.
  bool_prop. destruct (k_machines k !! "action_transaction") as [m|]; [eauto|done].
Qed.

(** *** Concrete kernels for the witnesses *)

(** A computed fact about the shipped kernel holds of a kernel with a fact
    registry. *)
Lemma shipped_run (check : TransitionKernel → bool) :
  match shipped_kernel with Ok k => check k | Err _ => false end = true →
  ∃ reg k, new_kernel shipped_contract reg = Ok k ∧ fact_backed reg ∧ boolean_registry reg ∧
    check k = true.
Proof.
  unfold shipped_kernel. intros H.
  destruct (required_predicates shipped_contract) as [names|e] eqn:Hn; [|done]. cbn [rbind] in H.
  destruct (fact_registry_lemma names (required_nonempty _ _ Hn)) as (reg & Hreg & _ & Hb).
  rewrite Hreg in H. cbn [rbind] in H.
  destruct (new_kernel shipped_contract reg) as [k|e] eqn:Hk; [|done]. cbn [rbind] in H.
  exists reg, k. split_and!; [done|by eapply fact_registry_backed|done|done].
Qed.

(** Fire the named transitions in order, each with its enabling request. *)
Fixpoint script (k : TransitionKernel) (m : machine) (agg : string) (s : string * Z)
    (tids : list string) : option (list TransitionRequest * (string * Z)) :=
  match tids with
  | [] => Some ([], s)
  | tid :: rest =>
      match m_transitions m !! tid with
      | Some t =>
          let r := enabling_request k m t agg s.2 in
          if bool_decide (state r = s.1) then
            match decide_transition k r with
            | Ok d =>
                match script k m agg (d_next_state d, d_next_state_version d) rest with
                | Some (rs, s') => Some (r :: rs, s')
                | None => None
                end
            | Err _ => None
            end
          else None
      | None => None
      end
  end.

Lemma script_history k m agg s tids rs s' :
  script k m agg s tids = Some (rs, s') → history k (m_machine_id m) s rs s'.
Proof.
  revert s rs. induction tids as [|tid tids IH]; cbn [script]; intros s rs H.
  { injection H as <- <-. constructor. }
  destruct (m_transitions m !! tid) as [t|]; [|done].
  destruct (bool_decide _) eqn:Hs in H; [|done]. bool_prop.
  destruct (decide_transition k _) as [d|] eqn:Hd in H; [|done].
  destruct (script k m agg _ tids) as [[rs' s'']|] eqn:Hr in H; [|done].
  injection H as <- <-. econstructor; eauto.
Qed.

Definition dispatch_request : TransitionRequest :=
  {| machine_id := "action_transaction"; transition_id := "TR-ACTION-DISPATCH";
     owner_component := "CMP-ACTION-EXECUTOR"; actor := "CMP-ACTION-EXECUTOR";
     aggregate_id := "action-1"; state := "APPROVED"; state_version := 4;
     command := "CMD-DISPATCH-ACTION"; schema_version := "1.1.0";
     expected_state_version := Some 4%Z; idempotency_key := Some "dispatch-action-1";
     reserved_request_digest := None; current_fencing_token := None; fencing_token := None;
     current_action_digest := Some "d1"; action_digest := Some "d1";
     facts := Some (all_true ["guard:TR-ACTION-DISPATCH"; "matching_tenant";
       "valid_authorization"; "valid_approval_if_R2"; "valid_approval_digest";
       "valid_resource_version"; "current_policy_allow"; "idempotency_reserved";
       "expected_state_version"]) |}.

(** The same request under a reserved digest, and without its approval fact. *)
Definition reserved_dispatch (digest : string) : TransitionRequest :=
  {| machine_id := "action_transaction"; transition_id := "TR-ACTION-DISPATCH";
     owner_component := "CMP-ACTION-EXECUTOR"; actor := "CMP-ACTION-EXECUTOR";
     aggregate_id := "action-1"; state := "APPROVED"; state_version := 4;
     command := "CMD-DISPATCH-ACTION"; schema_version := "1.1.0";
     expected_state_version := Some 4%Z; idempotency_key := Some "dispatch-action-1";
     reserved_request_digest := Some digest; current_fencing_token := None;
     fencing_token := None; current_action_digest := Some "d1"; action_digest := Some "d1";
     facts := facts dispatch_request |}.
Definition unapproved_dispatch : TransitionRequest :=
  {| machine_id := "action_transaction"; transition_id := "TR-ACTION-DISPATCH";
     owner_component := "CMP-ACTION-EXECUTOR"; actor := "CMP-ACTION-EXECUTOR";
     aggregate_id := "action-1"; state := "APPROVED"; state_version := 4;
     command := "CMD-DISPATCH-ACTION"; schema_version := "1.1.0";
     expected_state_version := Some 4%Z; idempotency_key := Some "dispatch-action-1";
     reserved_request_digest := None; current_fencing_token := None; fencing_token := None;
     current_action_digest := Some "d1"; action_digest := Some "d1";
     facts := Some (all_true ["guard:TR-ACTION-DISPATCH"; "matching_tenant";
       "valid_authorization"; "valid_resource_version"; "current_policy_allow";
       "idempotency_reserved"; "expected_state_version"]) |}.

(** *** The kernel's promises *)

(** C31: [decide] accepts a request exactly when every check of the source holds
    (schema, located machine and transition, owner, non-terminal matching
    source state, actor, command, version binding, idempotency policy, all
    predicates true, reserved digest), and the decision is then the transition's
    target with the next version and the digests over the request. *)
Theorem decide_accepts_exactly (k : TransitionKernel) (r : TransitionRequest)
    (d : TransitionDecision) :
  decide_transition k r = Ok d ↔ ∃ m t key, admissible k r m t key ∧ d = decision_of k r m t key.
Proof. apply decide_iff. Qed.

(** a constructed kernel with boolean predicates rejects a request only with
    the error that names a check it really fails; a guard rejection lists
    exactly the failed predicates, in order. *)
Theorem decide_rejects_with_reason resource reg k r e :
  new_kernel resource reg = Ok k → boolean_registry reg →
  decide_transition k r = Err e → rejected_because k r e.
Proof.
  intros [Hwf Hreg]%new_kernel_wf_lemma Hb. apply decide_err_lemma; [done|by rewrite Hreg].
Qed.

(** What the constructor accepts is well formed: one machine per owner of
    [MACHINE_OWNERS], terminal states among the states, every transition's
    endpoints, command, event and predicates declared, and no command unused. *)
Theorem new_kernel_well_formed resource reg k :
  new_kernel resource reg = Ok k → wf_kernel k ∧ k_predicates k = reg.
Proof. apply new_kernel_wf_lemma. Qed.

(** A request that is accepted under the request digest reserved by an
    earlier accepted one is a replay: the decision is the earlier decision,
    unless the two digests are a SHA-256 collision. *)
Theorem reserved_digest_replays k r1 r2 d1 d2 :
  decide_transition k r1 = Ok d1 → decide_transition k r2 = Ok d2 →
  reserved_request_digest r2 = Some (d_request_digest d1) →
  d2 = d1 ∨
  collision_of (request_material r1 (d_idempotency_key d1) (d_evaluated_predicates d1))
    (request_material r2 (d_idempotency_key d2) (d_evaluated_predicates d2)).
Proof.
  intros (m1 & t1 & key1 & A1 & ->)%decide_iff (m2 & t2 & key2 & A2 & ->)%decide_iff Hr.
  apply (adm_reserved _ _ _ _ _ A2) in Hr. cbn [d_request_digest decision_of] in Hr.
  destruct (request_digest_binds_lemma _ _ _ _ _ _ Hr) as [(Hs & -> & Ho)|?]; [left|by right].
  destruct A1 as [_ [M1 T1] _ _ _ _ _ _ _ _ _ _], A2 as [_ [M2 T2] _ _ _ _ _ _ _ _ _ _].
  destruct Hs as (? & ? & ? & ? & ? & ? & ? & ? & ? & _).
  assert (m2 = m1) as -> by congruence. assert (t2 = t1) as -> by congruence.
  unfold decision_of. rewrite Hr. f_equal; try congruence.
  unfold decision_fields. congruence.
Qed.

(** along any history of accepted transitions of one machine the version
    counts the transitions, the state stays a state of the machine, and nothing
    is accepted after a terminal state. *)
Theorem history_monotone_and_terminal resource reg k mid m s rs s' :
  new_kernel resource reg = Ok k → k_machines k !! mid = Some m → history k mid s rs s' →
  s'.2 = (s.2 + Z.of_nat (length rs))%Z ∧
  (s.1 ∈ m_states m → s'.1 ∈ m_states m) ∧
  (s.1 ∈ m_terminal_states m → rs = [] ∧ s' = s).
Proof. intros [Hwf _]%new_kernel_wf_lemma. by apply history_lemma. Qed.

(** An owner's service decides only for its own machine and component, the
    ones [MACHINE_OWNERS] pairs, and otherwise is [decide]. *)
Theorem service_is_owner_scoped resource reg k mid svc r d :
  new_kernel resource reg = Ok k → service k mid = Ok svc → service_decide svc r = Ok d →
  (mid, d_owner_component d) ∈ MACHINE_OWNERS ∧ d_machine_id d = mid ∧
  owner_component r = d_owner_component d ∧ decide_transition k r = Ok d.
Proof. intros [Hwf _]%new_kernel_wf_lemma. by apply service_lemma. Qed.

(** Whenever a contract loads at all, [required_predicates] names exactly the
    predicates it needs and [fact_registry] over them loads the same kernel. *)
Theorem fact_registry_completes resource reg k :
  new_kernel resource reg = Ok k →
  ∃ reg', required_predicates resource = Ok (k_predicate_names k) ∧
    fact_registry (k_predicate_names k) = Ok reg' ∧ boolean_registry reg' ∧
    new_kernel resource reg' = Ok
      {| k_contracts_version := k_contracts_version k; k_commands := k_commands k;
         k_events := k_events k; k_machines := k_machines k; k_predicates := reg';
         k_predicate_names := k_predicate_names k |}.
Proof.
  intros H. pose proof (required_lemma _ _ _ H) as Hreq.
  destruct (fact_registry_lemma _ (required_nonempty _ _ Hreq)) as (reg' & ? & Hdom & ?).
  exists reg'. split_and!; [done|done|done|by apply (new_kernel_registry _ reg)].
Qed.

(** C32: on the shipped contract an action is dispatched at most once over its
    whole history from PREPARED, whatever the retries, reconciliations and
    compensations: it has been dispatched once exactly when it is in one of the
    states after dispatch, and never when it ended rejected, expired or
    cancelled. *)
Theorem action_dispatched_at_most_once reg k v rs s' v' :
  new_kernel shipped_contract reg = Ok k →
  history k "action_transaction" ("PREPARED", v) rs (s', v') →
  dispatches rs = dispatched s' ∧ dispatches rs ≤ 1.
Proof.
  intros H Hh. destruct (shipped_action reg k H) as (m & Hm & Hc & _).
  apply new_kernel_wf_lemma in H as [Hwf _]. destruct (action_machine_facts _ Hc) as [Hw _].
  eapply history_weight in Hh; [|done..]. simpl in Hh. unfold dispatches. rewrite <-Hh.
  unfold dispatched. split; [done|]. case_bool_decide; lia.
Qed.

(** on the shipped contract with the fact registry, a decision that starts
    the external effect is a dispatch by the action executor from APPROVED, with
    the current action digest, the current state version, a caller-supplied
    idempotency key, and the authorization facts asserted true. *)
Theorem executing_only_when_authorized reg k r d :
  new_kernel shipped_contract reg = Ok k → fact_backed reg →
  machine_id r = "action_transaction" → decide_transition k r = Ok d →
  d_next_state d = "EXECUTING" →
  state r = "APPROVED" ∧ actor r = "CMP-ACTION-EXECUTOR" ∧
  fresh (current_action_digest r) (action_digest r) ∧
  expected_state_version r = Some (state_version r) ∧
  (∃ s, idempotency_key r = Some s ∧ s ≠ "") ∧
  ∀ f, f ∈ ["matching_tenant"; "valid_authorization"; "valid_approval_if_R2";
            "valid_approval_digest"; "current_policy_allow"; "idempotency_reserved"] →
    dget f (default [] (facts r)) = VBool true.
Proof.
  intros H Hfb Hmid Hd Hex. destruct (shipped_action reg k H) as (m & Hm & Hc & Hcmd).
  apply new_kernel_wf_lemma in H as [Hwf Hreg].
  apply decide_iff in Hd as (m' & t & key & A & ->). simpl in Hex.
  pose proof (adm_located _ _ _ _ _ A) as [Hm' Ht]. rewrite Hmid, Hm in Hm'. injection Hm' as <-.
  destruct (action_machine_facts _ Hc) as [_ Hx].
  destruct (Hx _ _ Ht Hex) as (Hfrom & Hact & Hcom & Hpre).
  destruct (dispatch_command_facts _ Hcmd) as [Hi Hvc].
  pose proof (adm_version _ _ _ _ _ A) as (Hv1 & _ & Hv3). pose proof (adm_key _ _ _ _ _ A) as Hk.
  unfold cmd_of in Hv1, Hv3, Hk. rewrite (adm_command _ _ _ _ _ A), Hcom in Hv1, Hv3, Hk.
  split_and!.
  - by rewrite (adm_source _ _ _ _ _ A).
  - by rewrite (adm_actor _ _ _ _ _ A).
  - by apply Hv3.
  - apply Hv1. by right; left.
  - destruct Hk; [by eauto|congruence..].
  - intros f Hf. apply Hpre in Hf. pose proof (adm_predicates _ _ _ _ _ A) as Hall.
    rewrite Forall_forall in Hall. destruct (Hall f) as (p & Hp & Hpr); [by right|].
    rewrite Hreg in Hp. rewrite (Hfb _ _ Hp) in Hpr. unfold fact_predicate in Hpr.
    by repeat case_match.
Qed.

(** on the shipped contract with the fact registry no state of any machine
    is a dead end: from every state, at any version and for any aggregate, some
    sequence of well-formed accepted requests ends in a terminal state. *)
Theorem terminal_always_reachable reg k mid m agg s v :
  new_kernel shipped_contract reg = Ok k → fact_backed reg →
  k_machines k !! mid = Some m → s ∈ m_states m → agg ≠ "" → (0 ≤ v)%Z →
  ∃ rs s' v', history k mid (s, v) rs (s', v') ∧ (s' ∈ m_terminal_states m) ∧
    Forall (fired_for agg) rs.
Proof.
  intros H Hfb Hm Hs Hagg Hv. pose proof (shipped_facts reg k H) as Hc.
  apply new_kernel_wf_lemma in H as [Hwf Hreg].
  unfold shipped_check in Hc. apply andb_true_iff in Hc as [_ Hc].
  apply forallb_Forall_true in Hc. rewrite Forall_forall in Hc. specialize (Hc m).
  rewrite <-Hreg in Hfb. apply (can_terminate_history k mid m agg 12); try done.
  assert (m ∈ (map_to_list (k_machines k)).*2) as Hin.
  { apply list_elem_of_fmap. exists (mid, m). split; [done|]. by apply elem_of_map_to_list. }
  specialize (Hc Hin). by apply bool_decide_eq_true in Hc; apply Hc.
Qed.

(** *** Concrete runs *)

Lemma decide_rejects_with_reason_witness :
  ∃ reg k e, new_kernel shipped_contract reg = Ok k ∧
    (e = GuardRejectedError "TR-ACTION-DISPATCH" ["valid_approval_if_R2"; "valid_approval_digest"] ∧
     rejected_because k unapproved_dispatch e).
Proof.
  destruct (shipped_run (λ k, bool_decide (decide_transition k unapproved_dispatch = Err
    (GuardRejectedError "TR-ACTION-DISPATCH" ["valid_approval_if_R2"; "valid_approval_digest"]))))
    as (reg & k & Hk & _ & Hb & Hd).
  - vm_compute. reflexivity.
  - apply bool_decide_eq_true in Hd. exists reg, k. eexists. split_and!; [exact Hk|reflexivity|].
    exact (decide_rejects_with_reason _ _ _ _ _ Hk Hb Hd).
Defined.

Lemma new_kernel_well_formed_witness :
  ∃ reg k, new_kernel shipped_contract reg = Ok k ∧ (wf_kernel k ∧ k_predicates k = reg).
Proof.
  destruct (shipped_run (λ _, true)) as (reg & k & Hk & _); [vm_compute; reflexivity|].
  exists reg, k. split; [exact Hk|]. exact (new_kernel_well_formed _ _ _ Hk).
Defined.

Lemma reserved_digest_replays_witness :
  ∃ reg k d, new_kernel shipped_contract reg = Ok k ∧
    decide_transition k dispatch_request = Ok d ∧
    decide_transition k (reserved_dispatch (d_request_digest d)) = Ok d ∧
    (d = d ∨ collision_of
       (request_material dispatch_request (d_idempotency_key d) (d_evaluated_predicates d))
       (request_material (reserved_dispatch (d_request_digest d)) (d_idempotency_key d)
          (d_evaluated_predicates d))).
Proof.
  destruct (shipped_run (λ k, match decide_transition k dispatch_request with
    | Ok d => bool_decide
        (decide_transition k (reserved_dispatch (d_request_digest d)) = Ok d)
    | Err _ => false end)) as (reg & k & Hk & _ & _ & Hd); [vm_compute; reflexivity|].
  destruct (decide_transition k dispatch_request) as [d|] eqn:H1; [|discriminate].
  apply bool_decide_eq_true in Hd. exists reg, k, d. split_and!; [exact Hk|exact H1|exact Hd|].
  exact (reserved_digest_replays k _ (reserved_dispatch (d_request_digest d)) d d H1 Hd eq_refl).
Defined.

Definition approve_and_dispatch : list string :=
  ["TR-ACTION-R2-WAIT"; "TR-ACTION-APPROVE"; "TR-ACTION-DISPATCH"; "TR-ACTION-EFFECT-UNCERTAIN";
   "TR-ACTION-RECONCILE"; "TR-ACTION-VERIFY-PASS"].

Definition runs_to (mid : string) (s : string * Z) (tids : list string) (s' : string * Z)
    (k : TransitionKernel) : bool :=
  match k_machines k !! mid with
  | Some m =>
      match script k m "aggregate-1" s tids with
      | Some (_, s'') => bool_decide (s'' = s' ∧ m_machine_id m = mid)
      | None => false
      end
  | None => false
  end.

Lemma runs_to_history mid s tids s' k :
  runs_to mid s tids s' k = true →
  ∃ m rs, k_machines k !! mid = Some m ∧ history k mid s rs s'.
Proof.
  unfold runs_to. destruct (k_machines k !! mid) as [m|]; [|done].
  destruct (script k m _ s tids) as [[rs s'']|] eqn:Hs; [|done].
  intros [-> <-]%bool_decide_eq_true. exists m, rs. split; [done|]. by eapply script_history.
Qed.

Lemma history_monotone_and_terminal_witness :
  ∃ reg k m rs, new_kernel shipped_contract reg = Ok k ∧
    history k "action_transaction" ("PREPARED", 0%Z) rs ("COMMITTED", 6%Z) ∧
    (6 = 0 + Z.of_nat (length rs))%Z ∧
    ("PREPARED" ∈ m_states m → "COMMITTED" ∈ m_states m) ∧
    ("PREPARED" ∈ m_terminal_states m → rs = [] ∧ ("COMMITTED", 6%Z) = ("PREPARED", 0%Z)).
Proof.
  destruct (shipped_run (runs_to "action_transaction" ("PREPARED", 0%Z) approve_and_dispatch
    ("COMMITTED", 6%Z))) as (reg & k & Hk & _ & _ & Hr); [vm_compute; reflexivity|].
  apply runs_to_history in Hr as (m & rs & Hm & Hh). exists reg, k, m, rs.
  split; [exact Hk|]. split; [exact Hh|].
  exact (history_monotone_and_terminal _ _ _ _ _ _ _ _ Hk Hm Hh).
Defined.

Lemma service_is_owner_scoped_witness :
  ∃ reg k svc d, new_kernel shipped_contract reg = Ok k ∧
    service_decide svc dispatch_request = Ok d ∧
    (("action_transaction", d_owner_component d) ∈ MACHINE_OWNERS ∧
     d_machine_id d = "action_transaction" ∧
     owner_component dispatch_request = d_owner_component d ∧
     decide_transition k dispatch_request = Ok d).
Proof.
  destruct (shipped_run (λ k, is_ok (let* svc := service k "action_transaction" in
    service_decide svc dispatch_request))) as (reg & k & Hk & _ & _ & Hr);
    [vm_compute; reflexivity|].
  destruct (service k "action_transaction") as [svc|] eqn:Hs; [|discriminate].
  cbn [rbind] in Hr. destruct (service_decide svc dispatch_request) as [d|] eqn:Hd; [|discriminate].
  exists reg, k, svc, d. split; [exact Hk|]. split; [exact Hd|].
  exact (service_is_owner_scoped _ _ _ _ _ _ _ Hk Hs Hd).
Defined.

Lemma fact_registry_completes_witness :
  ∃ reg k, new_kernel shipped_contract reg = Ok k ∧
  ∃ reg', required_predicates shipped_contract = Ok (k_predicate_names k) ∧
    fact_registry (k_predicate_names k) = Ok reg' ∧ boolean_registry reg' ∧
    new_kernel shipped_contract reg' = Ok
      {| k_contracts_version := k_contracts_version k; k_commands := k_commands k;
         k_events := k_events k; k_machines := k_machines k; k_predicates := reg';
         k_predicate_names := k_predicate_names k |}.
Proof.
  destruct (shipped_run (λ _, true)) as (reg & k & Hk & _); [vm_compute; reflexivity|].
  exists reg, k. split; [exact Hk|]. exact (fact_registry_completes _ _ _ Hk).
Defined.

Lemma action_dispatched_at_most_once_witness :
  ∃ reg k rs, new_kernel shipped_contract reg = Ok k ∧
    history k "action_transaction" ("PREPARED", 0%Z) rs ("COMMITTED", 6%Z) ∧
    dispatches rs = dispatched "COMMITTED" ∧ dispatches rs ≤ 1.
Proof.
  destruct (shipped_run (runs_to "action_transaction" ("PREPARED", 0%Z) approve_and_dispatch
    ("COMMITTED", 6%Z))) as (reg & k & Hk & _ & _ & Hr); [vm_compute; reflexivity|].
  apply runs_to_history in Hr as (m & rs & Hm & Hh). exists reg, k, rs.
  split; [exact Hk|]. split; [exact Hh|].
  exact (action_dispatched_at_most_once _ _ _ _ _ _ Hk Hh).
Defined.

Lemma executing_only_when_authorized_witness :
  ∃ reg k d, new_kernel shipped_contract reg = Ok k ∧
    decide_transition k dispatch_request = Ok d ∧ d_next_state d = "EXECUTING" ∧
    fresh (current_action_digest dispatch_request) (action_digest dispatch_request).
Proof.
  destruct (shipped_run (λ k, match decide_transition k dispatch_request with
    | Ok d => bool_decide (d_next_state d = "EXECUTING") | Err _ => false end))
    as (reg & k & Hk & Hfb & _ & Hd); [vm_compute; reflexivity|].
  destruct (decide_transition k dispatch_request) as [d|] eqn:H1; [|discriminate].
  apply bool_decide_eq_true in Hd. exists reg, k, d. split_and!; [exact Hk|exact H1|exact Hd|].
  exact (proj1 (proj2 (proj2
    (executing_only_when_authorized _ _ dispatch_request _ Hk Hfb eq_refl H1 Hd)))).
Defined.

Lemma terminal_always_reachable_witness :
  ∃ reg k m rs s' v', new_kernel shipped_contract reg = Ok k ∧
    history k "action_transaction" ("UNCERTAIN", 9%Z) rs (s', v') ∧
    (s' ∈ m_terminal_states m) ∧ Forall (fired_for "action-7") rs.
Proof.
  destruct (shipped_run (λ k, match k_machines k !! "action_transaction" with
    | Some m => bool_decide ("UNCERTAIN" ∈ m_states m) | None => false end))
    as (reg & k & Hk & Hfb & _ & Hd); [vm_compute; reflexivity|].
  destruct (k_machines k !! "action_transaction") as [m|] eqn:Hm; [|discriminate].
  apply bool_decide_eq_true in Hd.
  assert (Hagg : "action-7" ≠ "") by discriminate.
  assert (Hv : (0 ≤ 9)%Z) by lia.
  destruct (terminal_always_reachable _ _ _ _ _ _ _ Hk Hfb Hm Hd Hagg Hv) as (rs & s' & v' & H).
  exists reg, k, m, rs, s', v'. split; [exact Hk|exact H].
Defined.
