(* ===== verification/PyDyn.v ===== *)
(** * Text and dynamic values

    [str.strip], [int] and the other conversions of text, and what Python operators do with
    values of any type. *)
From Stdlib Require Import Ascii DecimalString DecimalZ DecimalPos.
From S2P Require Import Prelude Json JsonFacts.

(** ** Python string and number parsing

    [str.strip], [int(text)] and the other conversions of [str] the code relies
    on, for text in the Latin-1 range. *)

(** [str.isspace] for Latin-1: tab to carriage return, the four information
    separators, space, next line and no-break space. *)
Definition is_space (c : ascii) : bool :=
  let n := N_of_ascii c in
  ((9 <=? n) && (n <=? 13))%N || ((28 <=? n) && (n <=? 32))%N || (n =? 133)%N || (n =? 160)%N.

Fixpoint lstrip (s : string) : string :=
  match s with
  | String c s' => if is_space c then lstrip s' else s
  | "" => ""
  end.

Fixpoint str_rev (acc s : string) : string :=
  match s with "" => acc | String c s' => str_rev (String c acc) s' end.
Definition rstrip (s : string) : string := str_rev "" (lstrip (str_rev "" s)).
Definition strip (s : string) : string := rstrip (lstrip s).

Definition digit_value (c : ascii) : option Z :=
  if is_digit c then Some (Z.of_N (N_of_ascii c) - 48)%Z else None.

(** Decimal digits with single underscores between them. *)
Fixpoint int_digits (acc : Z) (s : string) : option Z :=
  match s with
  | "" => Some acc
  | String "_" (String c s') =>
      match digit_value c with
      | Some d => int_digits (10 * acc + d) s'
      | None => None
      end
  | String c s' =>
      match digit_value c with
      | Some d => int_digits (10 * acc + d) s'
      | None => None
      end
  end.

Definition unsigned_int (s : string) : option Z :=
  match s with
  | String c s' =>
      match digit_value c with
      | Some d => int_digits d s'
      | None => None
      end
  | "" => None
  end.

(** [int(text)]; [None] is [ValueError]. *)
Definition py_int (s : string) : option Z :=
  match strip s with
  | String "-" s' => option_map Z.opp (unsigned_int s')
  | String "+" s' => unsigned_int s'
  | s' => unsigned_int s'
  end.

Example py_int_plain : py_int "42" = Some 42%Z. Proof. reflexivity. Qed.
Example py_int_spaced : py_int " -1_000 " = Some (-1000)%Z. Proof. reflexivity. Qed.
Example py_int_bad : (py_int "", py_int "1__0", py_int "1_", py_int "_1", py_int "1.0") =
  (None, None, None, None, None).
Proof. reflexivity. Qed.

(** *** [int(str(z)) = z] *)

Lemma int_digits_acc acc d :
  int_digits (Z.pos acc) (NilEmpty.string_of_uint d) = Some (Z.pos (Pos.of_uint_acc d acc)).
Proof.
  revert acc. induction d; intros acc; [done|..]; cbn [NilEmpty.string_of_uint Pos.of_uint_acc];
    rewrite <-IHd; cbn -[Z.mul Z.add digit_value];
    match goal with |- context [digit_value ?c] =>
      let v := eval vm_compute in (digit_value c) in change (digit_value c) with v end;
    cbv iota; f_equal; lia.
Qed.

Lemma int_digits_zero d :
  int_digits 0 (NilEmpty.string_of_uint d) = Some (Z.of_N (Pos.of_uint d)).
Proof.
  induction d; [done|exact IHd|..];
    cbn [NilEmpty.string_of_uint Pos.of_uint Z.of_N]; rewrite <-int_digits_acc; reflexivity.
Qed.

Lemma unsigned_int_uint d :
  unsigned_int (NilZero.string_of_uint d) = Some (Z.of_N (Pos.of_uint d)).
Proof.
  destruct d; [done|..]; rewrite <-int_digits_zero; reflexivity.
Qed.

Lemma str_rev_app acc s : str_rev acc s = str_rev "" s +:+ acc.
Proof.
  revert acc. induction s as [|c s IH]; intros acc; simpl; [done|].
  rewrite IH, (IH (String c "")), <-string_app_assoc. done.
Qed.

Lemma str_rev_rev s : str_rev "" (str_rev "" s) = s.
Proof.
  assert (∀ a, str_rev "" (str_rev a s) = str_rev s a) as H.
  { induction s as [|c s IH]; intros a; simpl; [done|]. by rewrite IH. }
  by rewrite H.
Qed.

Lemma str_all_rev p acc s : str_all p (str_rev acc s) = str_all p acc && str_all p s.
Proof.
  revert acc. induction s as [|c s IH]; intros acc; simpl; [by rewrite andb_true_r|].
  rewrite IH. simpl. by rewrite andb_assoc, (andb_comm (p c)).
Qed.

Lemma lstrip_none s : str_all (λ c, negb (is_space c)) s = true → lstrip s = s.
Proof. destruct s as [|c s]; simpl; [done|]. by destruct (is_space c). Qed.

Lemma strip_none s : str_all (λ c, negb (is_space c)) s = true → strip s = s.
Proof.
  intros H. unfold strip, rstrip. rewrite (lstrip_none s H).
  rewrite lstrip_none by (by rewrite str_all_rev). apply str_rev_rev.
Qed.

Lemma digits_no_space s : str_all is_digit s = true → str_all (λ c, negb (is_space c)) s = true.
Proof.
  induction s as [|c s IH]; simpl; [done|]. intros [Hc Hs]%andb_true_iff.
  rewrite IH by done. clear IH Hs. by destruct c as [[][][][][][][][]].
Qed.

Lemma py_int_repr z : py_int (int_repr z) = Some z.
Proof.
  unfold py_int. rewrite strip_none.
  2: { destruct (int_repr_shape z) as (c & t & Hc & Ht & [-> | ->]);
       [change (str_all (λ c, negb (is_space c)) (String c t) = true)|
        change (str_all (λ c, negb (is_space c)) (String c t) = true)];
       by apply digits_no_space; simpl; rewrite Hc. }
  unfold int_repr. destruct z as [|p|p]; cbn [Z.to_int NilZero.string_of_int].
  - done.
  - pose proof (unsigned_int_uint (Pos.to_uint p)) as Hu.
    rewrite DecimalPos.Unsigned.of_to in Hu. cbn [Z.of_N] in Hu. rewrite <-Hu.
    destruct (Pos.to_uint p); reflexivity.
  - rewrite unsigned_int_uint, DecimalPos.Unsigned.of_to. done.
Qed.

(** ** Dynamic operations on Python values

    Subscripts, [get], truth, iteration and [int] on values that come out of
    [json.loads], with the exception each raises by the name of its type. *)

Abbreviation pyres := (result string).

(** *** Floats

    A float out of [json.loads] is the text of its literal.  Its value is the
    double nearest to the decimal number, ties to even. *)

(** [(negative, m, e)] for [±m * 10^e]; [None] for [NaN] and the infinities. *)
Definition decimal_parts (tok : string) : option (bool * Z * Z) :=
  let '(neg, s) := match tok with String "-" r => (true, r) | _ => (false, tok) end in
  let '(i, r) := span is_digit s in
  let '(f, r) := match r with String "." r' => span is_digit r' | _ => ("", r) end in
  m ← unsigned_int (i +:+ f);
  e ← match r with "" => Some 0%Z | String _ r' => py_int r' end;
  Some (neg, m, (e - str_len f)%Z).

(** The decimal number as a quotient of naturals. *)
Definition quotient (m e : Z) : Z * Z :=
  if (0 <=? e)%Z then ((m * 10 ^ e)%Z, 1%Z) else (m, (10 ^ (- e))%Z).

Definition round_half_even (num den : Z) : Z :=
  let q := (num / den)%Z in
  let r := (2 * (num mod den))%Z in
  if (den <? r)%Z || ((r =? den)%Z && Z.odd q) then (q + 1)%Z else q.

(** The integer part of the double nearest to [num / den]: the double is a
    multiple of [2^(k-52)], where [2^k] is the largest power below the number
    (or [1/2], below which the integer part is zero anyway). *)
Definition nearest_trunc (num den : Z) : Z :=
  let n := (num / den)%Z in
  let k := if (n =? 0)%Z then (-1)%Z else Z.log2 n in
  let s := (52 - k)%Z in
  if (0 <=? s)%Z then (round_half_even (num * 2 ^ s) den / 2 ^ s)%Z
  else (round_half_even num (den * 2 ^ (- s)) * 2 ^ (- s))%Z.

(** [int(x)] of a float *)
Definition float_int (tok : string) : pyres Z :=
  match decimal_parts tok with
  | Some (neg, m, e) =>
      let '(num, den) := quotient m e in
      let n := nearest_trunc num den in
      if (2 ^ 1024 <=? n)%Z then Err "OverflowError" else Ok (if neg then (- n)%Z else n)
  | None => Err (if bool_decide (tok = "NaN") then "ValueError" else "OverflowError")
  end.

(** A float is zero when the decimal is at most half the least positive double. *)
Definition float_zero (tok : string) : bool :=
  match decimal_parts tok with
  | Some (_, m, e) => let '(num, den) := quotient m e in (num * 2 ^ 1075 <=? den)%Z
  | None => false
  end.

Example float_int_values :
  (float_int "2.9", float_int "-2.9", float_int "1e3", float_int "0.99999999999999999999",
   float_int "1e23", float_int "NaN", float_int "1e400")
  = (Ok 2, Ok (-2), Ok 1000, Ok 1, Ok 99999999999999991611392, Err "ValueError",
     Err "OverflowError")%Z.
Proof. vm_compute. reflexivity. Qed.
Example float_zero_values :
  (float_zero "0.0", float_zero "-0e5", float_zero "1e-400", float_zero "4.9e-324",
   float_zero "NaN") = (true, true, true, false, false).
Proof. vm_compute. reflexivity. Qed.

(** *** Values *)

(** [bool(v)] *)
Definition val_truthy (v : val) : bool :=
  match v with
  | VNone => false
  | VBool b => b
  | VInt z => negb (z =? 0)%Z
  | VFloat tok => negb (float_zero tok)
  | VStr s => truthy s
  | VList l => negb (bool_decide (length l = 0))
  | VDict d => negb (bool_decide (length d = 0))
  | VOther _ => true   (* never out of [json.loads] *)
  end.
(** [v or w] *)
Definition val_or (v w : val) : val := if val_truthy v then v else w.

(** [v["k"]] *)
Definition subscript (v : val) (k : string) : pyres val :=
  match v with
  | VDict d => from_option_or "KeyError" (dfind k d)
  | _ => Err "TypeError"
  end.
(** [v[0]]; the keys of a mapping are strings here. *)
Definition first_item (v : val) : pyres val :=
  match v with
  | VList l => from_option_or "IndexError" (head l)
  | VDict _ => Err "KeyError"
  | VStr (String c _) => Ok (VStr (String c ""))
  | VStr "" => Err "IndexError"
  | _ => Err "TypeError"
  end.
(** [v.get("k", default)] *)
Definition get_attr (v : val) (k : string) (dflt : val) : pyres val :=
  match v with
  | VDict d => Ok (default dflt (dfind k d))
  | _ => Err "AttributeError"
  end.
(** [for x in v] *)
Definition iterate (v : val) : pyres (list val) :=
  match v with
  | VList l => Ok l
  | VDict d => Ok d.*1
  | VStr s => Ok ((λ c, VStr (String c "")) <$> String.list_ascii_of_string s)
  | _ => Err "TypeError"
  end.
(** [int(v)] *)
Definition val_int (v : val) : pyres Z :=
  match v with
  | VInt z => Ok z
  | VBool b => Ok (if b then 1 else 0)%Z
  | VFloat tok => float_int tok
  | VStr s => from_option_or "ValueError" (py_int s)
  | _ => Err "TypeError"
  end.
(** [json.loads(v)] *)
Definition val_loads (v : val) : pyres val :=
  match v with
  | VStr s => from_option_or "JSONDecodeError" (loads s)
  | _ => Err "TypeError"
  end.

Lemma get_attr_ok v k dflt x : get_attr v k dflt = Ok x → ∃ d, v = VDict d.
Proof. destruct v; simpl; try discriminate. eauto. Qed.
Lemma val_loads_ok v x : val_loads v = Ok x → ∃ s, v = VStr s ∧ loads s = Some x.
Proof.
  destruct v; simpl; try discriminate. intros Hl%from_option_or_ok. eauto.
Qed.

(** *** Which exceptions an operation raises *)

Definition raises_only {A} (names : list string) (r : pyres A) : Prop :=
  ∀ e, r = Err e → e ∈ names.

Section Raises.
Context {A B : Type}.
Implicit Types names : list string.

Lemma raises_ok names (a : A) : raises_only names (Ok a).
Proof. by intros e. Qed.
Lemma raises_err names name : name ∈ names → raises_only (A:=A) names (Err name).
Proof. by intros Hn e [= <-]. Qed.
Lemma raises_bind names (r : pyres A) (k : A → pyres B) :
  raises_only names r → (∀ a, raises_only names (k a)) → raises_only names (let* a := r in k a).
Proof. intros Hr Hk e [?|(a & _ & ?)]%rbind_err; [by apply Hr|by apply (Hk a)]. Qed.
Lemma raises_weaken names names' (r : pyres A) :
  raises_only names r → names ⊆ names' → raises_only names' r.
Proof. intros Hr Hs e He. by apply Hs, Hr. Qed.
Lemma raises_from_option names name (o : option A) :
  name ∈ names → raises_only names (from_option_or name o).
Proof. intros Hn e. destruct o; [done|]. by intros [= <-]. Qed.
End Raises.

Lemma raises_mapM {A B} names (f : A → pyres B) xs :
  (∀ x, raises_only names (f x)) → raises_only names (rmapM f xs).
Proof.
  intros Hf. induction xs as [|x xs IH]; [by intros e|]. cbn [rmapM].
  apply raises_bind; [apply Hf|]. intros b. apply raises_bind; [exact IH|]. by intros bs e.
Qed.

Lemma raises_subscript v k : raises_only ["KeyError"; "TypeError"] (subscript v k).
Proof.
  destruct v; simpl; try (apply raises_err; set_solver). apply raises_from_option. set_solver.
Qed.
Lemma raises_first_item v : raises_only ["IndexError"; "KeyError"; "TypeError"] (first_item v).
Proof.
  destruct v; simpl; try (apply raises_err; set_solver).
  - destruct s; [apply raises_err; set_solver|apply raises_ok].
  - apply raises_from_option. set_solver.
Qed.
Lemma raises_get_attr v k d : raises_only ["AttributeError"] (get_attr v k d).
Proof. destruct v; simpl; try (apply raises_err; set_solver). apply raises_ok. Qed.
Lemma raises_iterate v : raises_only ["TypeError"] (iterate v).
Proof. destruct v; simpl; solve [apply raises_err; set_solver|apply raises_ok]. Qed.
Lemma raises_float_int tok : raises_only ["ValueError"; "OverflowError"] (float_int tok).
Proof.
  unfold float_int. destruct (decimal_parts tok) as [[[neg m] e]|].
  - destruct (quotient m e). destruct (_ <=? _)%Z; [apply raises_err; set_solver|apply raises_ok].
  - case_bool_decide; apply raises_err; set_solver.
Qed.
Lemma raises_val_int v : raises_only ["ValueError"; "TypeError"; "OverflowError"] (val_int v).
Proof.
  destruct v; simpl; try solve [apply raises_err; set_solver|apply raises_ok].
  - eapply raises_weaken; [apply raises_float_int|set_solver].
  - apply raises_from_option. set_solver.
Qed.
Lemma raises_val_loads v : raises_only ["JSONDecodeError"; "TypeError"] (val_loads v).
Proof.
  destruct v; simpl; try (apply raises_err; set_solver). apply raises_from_option. set_solver.
Qed.

(** Walk a chain of [let*], weakening the lemma of each step. *)
Ltac raises :=
  repeat first
    [ apply raises_ok
    | apply raises_err; set_solver
    | apply raises_bind; [|intros ?]
    | apply raises_from_option; set_solver
    | eapply raises_weaken; [solve [eauto with raises_db]|set_solver] ].
Create HintDb raises_db.
#[export] Hint Resolve raises_subscript raises_first_item raises_get_attr raises_iterate
  raises_float_int raises_val_int raises_val_loads : raises_db.
