(* ===== verification/Regex.v ===== *)
(** * Regular expressions and URLs

    The matching of [re] that the code uses, and the quoting and parsing of URLs. *)
From Stdlib Require Import Ascii.
From S2P Require Import Prelude Json Sha256 PyDyn.

(** ** Regular expressions of Python's [re]

    The constructs the code's patterns use: character classes, repetition,
    alternation and zero-width assertions.  A position is the character before it
    and the text after it.  [rx] is the backtracking matcher with a continuation;
    [rx_spec] relates it to the declarative relation [matched]. *)

Inductive regex : Type :=
| RChar (p : ascii → bool)
| REps
| RCat (a b : regex)
| RAlt (a b : regex)
| RStar (a : regex)
| RAssert (f : option ascii → option ascii → bool).

Definition head_char (s : string) : option ascii :=
  match s with String c _ => Some c | "" => None end.

(** [matched r p s p' s']: [r] matches the text between the two positions. *)
Inductive matched : regex → option ascii → string → option ascii → string → Prop :=
| m_char f p c s : f c = true → matched (RChar f) p (String c s) (Some c) s
| m_eps p s : matched REps p s p s
| m_cat a b p s p1 s1 p2 s2 :
    matched a p s p1 s1 → matched b p1 s1 p2 s2 → matched (RCat a b) p s p2 s2
| m_alt_l a b p s p' s' : matched a p s p' s' → matched (RAlt a b) p s p' s'
| m_alt_r a b p s p' s' : matched b p s p' s' → matched (RAlt a b) p s p' s'
| m_star_nil a p s : matched (RStar a) p s p s
| m_star_cons a p s p1 s1 p2 s2 :
    matched a p s p1 s1 → matched (RStar a) p1 s1 p2 s2 → matched (RStar a) p s p2 s2
| m_assert f p s : f p (head_char s) = true → matched (RAssert f) p s p s.

Abbreviation cont := (option ascii → string → bool).

(** Lazy conjunction and disjunction, so that evaluation backtracks only where it
    must. *)
Notation "a 'andthen' b" := (if a then b else false) (at level 40, left associativity).
Notation "a 'orelse' b" := (if a then true else b) (at level 50, left associativity).
Lemma andthen_true (a b : bool) : a andthen b = true ↔ a = true ∧ b = true.
Proof. exact (andb_true_iff a b). Qed.
Lemma orelse_true (a b : bool) : a orelse b = true ↔ a = true ∨ b = true.
Proof. exact (orb_true_iff a b). Qed.

Fixpoint rx (r : regex) (k : cont) (p : option ascii) (s : string) : bool :=
  match r with
  | RChar f => match s with String c s' => f c andthen k (Some c) s' | "" => false end
  | REps => k p s
  | RCat a b => rx a (rx b k) p s
  | RAlt a b => rx a k p s orelse rx b k p s
  | RStar a =>
      (fix loop (n : nat) (p : option ascii) (s : string) : bool :=
         k p s orelse
         match n with
         | O => false
         | S n => rx a (λ p' s', (String.length s' <? String.length s)%nat andthen loop n p' s') p s
         end) (String.length s) p s
  | RAssert f => f p (head_char s) andthen k p s
  end.

(** The loop of a star, named. *)
Fixpoint star_loop (a : regex) (k : cont) (n : nat) (p : option ascii) (s : string) : bool :=
  k p s orelse
  match n with
  | O => false
  | S n => rx a (λ p' s', (String.length s' <? String.length s)%nat andthen star_loop a k n p' s') p s
  end.

Lemma rx_ext r : ∀ k k' p s, (∀ p s, k p s = k' p s) → rx r k p s = rx r k' p s.
Proof.
  induction r as [f| |a IHa b IHb|a IHa b IHb|a IHa|f]; intros k k' p s Hk; cbn [rx].
  - destruct s; [done|]. by rewrite Hk.
  - apply Hk.
  - apply IHa. intros. by apply IHb.
  - by rewrite (IHa k k'), (IHb k k').
  - generalize (String.length s) as n. intros n. revert p s.
    induction n as [|n IH]; intros p s; rewrite Hk; [done|].
    destruct (k' p s); [done|]. apply IHa. intros p' s'. by rewrite IH.
  - by rewrite Hk.
Qed.

Lemma rx_star a k p s : rx (RStar a) k p s = star_loop a k (String.length s) p s.
Proof.
  cbn [rx]. generalize (String.length s) as n. intros n. revert p s.
  induction n as [|n IH]; intros p s; [done|]. cbn [star_loop].
  destruct (k p s); [done|]. apply rx_ext. intros p' s'. by rewrite IH.
Qed.

Lemma matched_length r p s p' s' :
  matched r p s p' s' → String.length s' ≤ String.length s.
Proof. induction 1; simpl in *; lia. Qed.

(** A match that consumes nothing ends where it began. *)
Lemma matched_empty r p s p' s' :
  matched r p s p' s' → String.length s' = String.length s → p' = p ∧ s' = s.
Proof.
  induction 1 as [f p c s Hf| |a b p s p1 s1 p2 s2 H1 IH1 H2 IH2|a b p s p' s' H IH
    |a b p s p' s' H IH| |a p s p1 s1 p2 s2 H1 IH1 H2 IH2|]; intros Hl; try done; auto.
  - simpl in Hl. lia.
  - pose proof (matched_length _ _ _ _ _ H1). pose proof (matched_length _ _ _ _ _ H2).
    destruct (IH1 ltac:(lia)) as [-> ->]. apply IH2. lia.
  - pose proof (matched_length _ _ _ _ _ H1). pose proof (matched_length _ _ _ _ _ H2).
    destruct (IH1 ltac:(lia)) as [-> ->]. apply IH2. lia.
Qed.

Lemma star_loop_spec a k :
  (∀ k p s, rx a k p s = true ↔ ∃ p' s', matched a p s p' s' ∧ k p' s' = true) →
  ∀ n p s, String.length s ≤ n →
  star_loop a k n p s = true ↔ ∃ p' s', matched (RStar a) p s p' s' ∧ k p' s' = true.
Proof.
  intros Ha n. induction n as [|n IH]; intros p s Hn; cbn [star_loop]; rewrite orelse_true.
  - split.
    + intros [Hk|]; [|done]. exists p, s. split; [constructor|done].
    + intros (p' & s' & Hm & Hk). left. pose proof (matched_length _ _ _ _ _ Hm).
      destruct (matched_empty _ _ _ _ _ Hm ltac:(lia)) as [-> ->]. done.
  - split.
    + intros [Hk|H]; [exists p, s; split; [constructor|done]|].
      apply Ha in H as (p1 & s1 & H1 & [Hlt Hl]%andthen_true). apply Nat.ltb_lt in Hlt.
      apply IH in Hl as (p' & s' & Hm & Hk); [|lia]. exists p', s'. split; [|done].
      by eapply m_star_cons.
    + intros (p' & s' & Hm & Hk). remember (RStar a) as r eqn:Hr.
      induction Hm as [| | | | |a' p s|a' p s p1 s1 p2 s2 H1 _ H2 IH2|]; try discriminate Hr;
        injection Hr as ->; [by left|].
      destruct (decide (String.length s1 = String.length s)) as [He|Hne].
      * destruct (matched_empty _ _ _ _ _ H1 He) as [-> ->]. by apply IH2.
      * right. apply Ha. exists p1, s1. split; [done|].
        pose proof (matched_length _ _ _ _ _ H1). apply andthen_true.
        split; [by apply Nat.ltb_lt; lia|]. apply IH; [lia|]. by exists p2, s2.
Qed.

Lemma rx_spec r k p s :
  rx r k p s = true ↔ ∃ p' s', matched r p s p' s' ∧ k p' s' = true.
Proof.
  revert k p s. induction r as [f| |a IHa b IHb|a IHa b IHb|a IHa|f]; intros k p s.
  - cbn. destruct s as [|c s]; [split; [done|by intros (? & ? & H & _); inversion H]|].
    rewrite andthen_true. split.
    + intros [Hf Hk]. exists (Some c), s. by split; [constructor|].
    + intros (p' & s' & H & Hk). by inversion H; subst.
  - cbn. split; [intros Hk; exists p, s; by split; [constructor|]|].
    intros (p' & s' & H & Hk). by inversion H; subst.
  - cbn [rx]. rewrite IHa. split.
    + intros (p1 & s1 & H1 & (p2 & s2 & H2 & Hk)%IHb). exists p2, s2.
      split; [by econstructor|done].
    + intros (p2 & s2 & H & Hk). inversion H; subst. do 2 eexists.
      split; [eassumption|]. apply IHb. by do 2 eexists.
  - cbn [rx]. rewrite orelse_true, IHa, IHb. split.
    + intros [(p' & s' & H & Hk)|(p' & s' & H & Hk)]; exists p', s'; (split; [|done]);
        by constructor.
    + intros (p' & s' & H & Hk). inversion H; subst; eauto.
  - rewrite rx_star. apply star_loop_spec; [exact IHa|lia].
  - cbn [rx]. rewrite andthen_true. split.
    + intros [Hf Hk]. exists p, s. by split; [constructor|].
    + intros (p' & s' & H & Hk). by inversion H; subst.
Qed.

(** *** Matching operations *)

(** [pattern.fullmatch(s)] *)
Definition fullmatch (r : regex) (s : string) : bool :=
  rx r (λ _ rest, bool_decide (rest = "")) None s.

(** [pattern.search(s)]: a match from some position. *)
Fixpoint search_from (r : regex) (p : option ascii) (s : string) : bool :=
  rx r (λ _ _, true) p s orelse
  match s with String c s' => search_from r (Some c) s' | "" => false end.
Definition search (r : regex) (s : string) : bool := search_from r None s.

(** *** Pattern syntax *)

Definition between (lo hi c : ascii) : bool :=
  ((N_of_ascii lo <=? N_of_ascii c) && (N_of_ascii c <=? N_of_ascii hi))%N.
Fixpoint one_of (set : string) (c : ascii) : bool :=
  match set with String d set' => Ascii.eqb c d || one_of set' c | "" => false end.
Definition lower (c : ascii) : ascii :=
  if between "A" "Z" c then ascii_of_N (N_of_ascii c + 32) else c.
Definition upper (c : ascii) : ascii :=
  if between "a" "z" c then ascii_of_N (N_of_ascii c - 32) else c.

(** A class under [re.IGNORECASE], on Latin-1 text. *)
Definition nocase (p : ascii → bool) (c : ascii) : bool := p (lower c) || p (upper c).

Definition lit_char (a c : ascii) : bool := Ascii.eqb a c.
Fixpoint literal (fold : (ascii → bool) → ascii → bool) (s : string) : regex :=
  match s with
  | "" => REps
  | String c "" => RChar (fold (lit_char c))
  | String c s' => RCat (RChar (fold (lit_char c))) (literal fold s')
  end.
Definition rplus (r : regex) : regex := RCat r (RStar r).
Fixpoint rrepeat (n : nat) (r : regex) : regex :=
  match n with O => REps | S n => RCat r (rrepeat n r) end.
(** [r{n,}] and [r{n,n+k}] *)
Definition at_least (n : nat) (r : regex) : regex := RCat (rrepeat n r) (RStar r).
Fixpoint up_to (k : nat) (r : regex) : regex :=
  match k with O => REps | S k => RAlt (RCat r (up_to k r)) REps end.
Definition repeat_range (n k : nat) (r : regex) : regex := RCat (rrepeat n r) (up_to k r).

(** [\w] on Latin-1 text: letters, digits, the underscore and the numeric
    characters above 127. *)
Definition word_char (c : ascii) : bool :=
  let n := N_of_ascii c in
  between "a" "z" c || between "A" "Z" c || is_digit c || Ascii.eqb c "_" ||
  existsb (N.eqb n) [170; 178; 179; 181; 185; 186; 188; 189; 190]%N ||
  ((192 <=? n) && negb (n =? 215) && negb (n =? 247))%N.
Definition test (p : ascii → bool) (c : option ascii) : bool :=
  match c with Some c => p c | None => false end.
Definition word_boundary : regex := RAssert (λ p n, xorb (test word_char p) (test word_char n)).
Definition not_before (p : ascii → bool) : regex := RAssert (λ prev _, negb (test p prev)).
Definition not_after (p : ascii → bool) : regex := RAssert (λ _ next, negb (test p next)).

Lemma fullmatch_spec r s : fullmatch r s = true ↔ ∃ p, matched r None s p "".
Proof.
  unfold fullmatch. rewrite rx_spec. split.
  - intros (p & s' & H & ->%bool_decide_eq_true). by exists p.
  - intros (p & H). exists p, "". split; [done|]. by apply bool_decide_eq_true.
Qed.

(** A search succeeds exactly when the pattern matches somewhere in the text. *)
Lemma search_from_spec r p s :
  search_from r p s = true ↔
  (∃ p' s', matched r p s p' s') ∨
  ∃ pre c rest p' s', s = pre +:+ String c rest ∧ matched r (Some c) rest p' s'.
Proof.
  revert p. induction s as [|c s IH]; intros p; cbn [search_from]; rewrite orelse_true, rx_spec.
  - split.
    + intros [(p' & s' & H & _)|]; [left; eauto|done].
    + intros [(p' & s' & H)|(pre & c & rest & p' & s' & H & _)]; [left; eauto|].
      by destruct pre.
  - rewrite IH. split.
    + intros [(p' & s' & H & _)|[(p' & s' & H)|(pre & d & rest & p' & s' & -> & H)]].
      * left. eauto.
      * right. exists "", c, s. eauto.
      * right. exists (String c pre), d, rest. eauto.
    + intros [(p' & s' & H)|(pre & d & rest & p' & s' & Hs & H)]; [left; eauto|].
      right. destruct pre as [|e pre]; [injection Hs as <- <-; left; eauto|].
      injection Hs as <- ->. right. eauto 10.
Qed.

(** ** [urllib.parse]: [quote] and [urlparse], and the string methods around them

    [quote] of any text, and the parts of [urlparse] the request signature uses. *)

(** [s.rstrip(chars)] and [s.strip(chars)] for a set of characters *)
Fixpoint lstrip_in (p : ascii → bool) (s : string) : string :=
  match s with
  | String c s' => if p c then lstrip_in p s' else s
  | "" => ""
  end.
Definition rstrip_in (p : ascii → bool) (s : string) : string :=
  str_rev "" (lstrip_in p (str_rev "" s)).
Definition slash (c : ascii) : bool := Ascii.eqb c "/".

(** [s.endswith(suffix)] and [s[: -len(suffix)]] *)
Definition endswith (s suffix : string) : bool := startswith (str_rev "" s) (str_rev "" suffix).
Definition drop_last (n : nat) (s : string) : string := str_take (String.length s - n) s.

(** *** [quote] *)

Definition ALWAYS_SAFE (c : ascii) : bool :=
  is_digit c || (let n := N_of_ascii c in (65 <=? n) && (n <=? 90) || (97 <=? n) && (n <=? 122))%N ||
  existsb (Ascii.eqb c) ["_"; "."; "-"; "~"]%char.

Definition upper_hex (n : N) : ascii := ascii_of_N (if (n <? 10)%N then 48 + n else 55 + n).
Definition quote_char (safe : ascii → bool) (c : ascii) : string :=
  if ALWAYS_SAFE c || safe c then String c ""
  else String "%" (String (upper_hex (N_of_ascii c / 16)) (String (upper_hex (N_of_ascii c mod 16)) "")).
Fixpoint quote_bytes (safe : ascii → bool) (s : string) : string :=
  match s with
  | String c s' => quote_char safe c +:+ quote_bytes safe s'
  | "" => ""
  end.
(** [quote(s, safe=...)]; the safe characters are ASCII. *)
Definition quote (safe : ascii → bool) (s : string) : string := quote_bytes safe (utf8 s).

Definition no_char (_ : ascii) : bool := false.

Example quote_values :
  (quote no_char "a b/c~", quote slash "g01/t r", quote no_char (String (ascii_of_N 233) "")) =
  ("a%20b%2Fc~", "g01/t%20r", "%C3%A9").
Proof. reflexivity. Qed.

(** *** [urlparse] *)

(** The text before the first character of [p], and the text from it on. *)
Fixpoint until (p : ascii → bool) (s : string) : string * string :=
  match s with
  | String c s' => if p c then ("", s) else let '(a, b) := until p s' in (String c a, b)
  | "" => ("", "")
  end.
Definition one_char (a : ascii) (c : ascii) : bool := Ascii.eqb a c.
(** [s.split(c, 1)[0]] and the rest without the separator *)
Definition split_at (c : ascii) (s : string) : string * string :=
  let '(a, b) := until (one_char c) s in (a, match b with String _ b' => b' | "" => "" end).

Definition scheme_char (c : ascii) : bool :=
  let n := N_of_ascii c in
  is_digit c || ((65 <=? n) && (n <=? 90) || (97 <=? n) && (n <=? 122))%N ||
  existsb (Ascii.eqb c) ["+"; "-"; "."]%char.
Definition ascii_alpha (c : ascii) : bool :=
  let n := N_of_ascii c in ((65 <=? n) && (n <=? 90) || (97 <=? n) && (n <=? 122))%N.
Fixpoint str_filter (p : ascii → bool) (s : string) : string :=
  match s with
  | String c s' => if p c then String c (str_filter p s') else str_filter p s'
  | "" => ""
  end.

(** The scheme, lower-cased, and the rest. *)
Definition split_scheme (url : string) : string * string :=
  match until (one_char ":") url with
  | (String c s as scheme, String _ rest) =>
      if ascii_alpha c && str_all scheme_char scheme then (str_map lower scheme, rest) else ("", url)
  | _ => ("", url)
  end.

Record parsed_url := {
  u_scheme : string; u_netloc : string; u_path : string; u_query : string;
}.

Definition has_char (c : ascii) (s : string) : bool := negb (str_all (λ d, negb (Ascii.eqb c d)) s).

(** [scheme in uses_params] *)
Definition params_scheme (scheme : string) : bool :=
  bool_decide (scheme ∈ [""; "ftp"; "hdl"; "prospero"; "http"; "imap"; "https"; "shttp"; "rtsp";
                         "rtspu"; "sip"; "sips"; "mms"; "sftp"; "tel"]).
(** [_splitparams]: the parameters follow the first [;] of the last segment. *)
Definition split_params (path : string) : string :=
  let '(last, dirs) := until slash (str_rev "" path) in
  str_rev "" dirs +:+ (split_at ";" (str_rev "" last)).1.

(** [urlparse(url)]; [None] is the [ValueError] of unbalanced brackets.  The
    checks of bracketed hosts and of compatibility characters raise the same and
    are left out. *)
Definition urlparse (url : string) : option parsed_url :=
  let url := lstrip_in (λ c, N_of_ascii c <=? 32)%N url in
  let url := str_filter (λ c, negb (existsb (Ascii.eqb c) ["009"; "010"; "013"]%char)) url in
  let '(scheme, url) := split_scheme url in
  let '(netloc, url) :=
    match strip_prefix "//" url with
    | Some rest => until (λ c, existsb (Ascii.eqb c) ["/"; "?"; "#"]%char) rest
    | None => ("", url)
    end in
  if xorb (has_char "[" netloc) (has_char "]" netloc) then None
  else
    let '(url, _) := split_at "#" url in
    let '(path, query) := split_at "?" url in
    let path := if params_scheme scheme then split_params path else path in
    Some {| u_scheme := scheme; u_netloc := netloc; u_path := path; u_query := query |}.

Example urlparse_values :
  (urlparse "http://minio:9000/a/b%20c.json", urlparse "HTTPS://h/p;x?q=1#f", urlparse "minio:9000/b",
   urlparse "http://[::1/x")
  = (Some {| u_scheme := "http"; u_netloc := "minio:9000"; u_path := "/a/b%20c.json"; u_query := "" |},
     Some {| u_scheme := "https"; u_netloc := "h"; u_path := "/p"; u_query := "q=1" |},
     Some {| u_scheme := "minio"; u_netloc := ""; u_path := "9000/b"; u_query := "" |}, None).
Proof. reflexivity. Qed.
