(* ===== verification/Store.v ===== *)
(** * The incident store: [src/faultwitness/api/store.py]

    [MemoryIncidentStore], the reference store of the control API, as operations
    with state and exceptions.  Each operation runs under the store's lock, so
    it is one step.  [uuid4().hex] and the clock readings of a call are the
    fields of its [Env]; times are microseconds.

    [IncidentCreate] is kept as its [model_dump(mode="json")], the value the
    store digests and keeps; the other request models are records. *)
From S2P Require Import Prelude Json Sha256 Kernel PyDyn.

Inductive store_error : Type :=
| IncidentNotFound
| StateConflict
| IdempotencyConflict
| ApprovalConflict
| CursorError
| RetentionGap (earliest_cursor : string)
| PyIndexError
| UniqueViolation.

(** ** Request and response models: [src/faultwitness/api/schemas.py] *)

Record IncidentSnapshot := {
  sn_incident_id : string;
  sn_state : string;
  sn_state_version : Z;
  sn_event_cursor : string;
  sn_final_report_ref : option string;
}.

Inductive ApprovalDecision := APPROVE | REJECT.
Definition decision_value (d : ApprovalDecision) : string :=
  match d with APPROVE => "approve" | REJECT => "reject" end.

Record ApprovalRequest := {
  ar_action_id : string;
  ar_action_digest : string;
  ar_decision : ApprovalDecision;
  ar_expected_state_version : Z;
  ar_comment : option string;
}.

Record FeedbackRequest := {
  fr_rating : Z;
  fr_comment : option string;
  fr_expected_state_version : Z;
}.

Record FeedbackResult := { fb_feedback_id : string; fb_accepted_at : Z }.
Record ApprovalResult := {
  ap_action_id : string;
  ap_decision : ApprovalDecision;
  ap_action_digest : string;
  ap_state_version : Z;
}.

Inductive response : Type :=
| RSnapshot (snapshot : IncidentSnapshot)
| RFeedback (result : FeedbackResult)
| RApproval (result : ApprovalResult).

(** [value.model_dump(mode="json")] *)
Definition dump_approval (r : ApprovalRequest) : val :=
  sdict [("action_digest", VStr (ar_action_digest r)); ("action_id", VStr (ar_action_id r));
         ("comment", opt_str (ar_comment r)); ("decision", VStr (decision_value (ar_decision r)));
         ("expected_state_version", VInt (ar_expected_state_version r))].
Definition dump_feedback (r : FeedbackRequest) : val :=
  sdict [("comment", opt_str (fr_comment r));
         ("expected_state_version", VInt (fr_expected_state_version r));
         ("rating", VInt (fr_rating r))].
Definition cancel_material (incident_id : string) (version : Z) : val :=
  sdict [("incident_id", VStr incident_id); ("version", VInt version)].

(** [MemoryIncidentStore.request_digest] *)
Definition store_digest (value : val) : string := sha256_hex (utf8 (canonical_json value)).

(** ** State *)

Record IncidentEvent := {
  ev_event_id : string;
  ev_event_type : string;
  ev_incident_id : string;
  ev_sequence : Z;
  ev_occurred_at : Z;
  ev_payload : val;
}.

Record Subscriber := {
  sub_queue : list IncidentEvent;
  sub_maxsize : Z;
  sub_closed : bool;
}.

Record Incident := {
  in_tenant_id : string;
  in_snapshot : IncidentSnapshot;
  in_spec : val;
  in_pending_action : option (string * string);
}.

Record MemoryIncidentStore := {
  retention_count : Z;
  retention_age : Z;
  incidents : gmap string Incident;
  idempotency : gmap (string * string * string) (string * response);
  events : gmap (string * string) (list IncidentEvent);
  subscribers : gmap (string * string) (gset N);
  subscriber_objects : gmap N Subscriber;
  next_object : N;
}.

Record Env := {
  env_hex : string;        (* uuid.uuid4().hex *)
  env_accepted_at : Z;     (* accepted_at of a feedback result *)
  env_occurred_at : Z;     (* occurred_at of the appended event *)
  env_cutoff_now : Z;      (* the clock the retention cutoff is computed from *)
}.

Definition new_store (count age : Z) : MemoryIncidentStore :=
  {| retention_count := count; retention_age := age; incidents := ∅; idempotency := ∅;
     events := ∅; subscribers := ∅; subscriber_objects := ∅; next_object := 0 |}.

Abbreviation StoreM := (SE MemoryIncidentStore store_error).

Definition with_incidents (f : gmap string Incident → gmap string Incident)
    (s : MemoryIncidentStore) : MemoryIncidentStore :=
  {| retention_count := retention_count s; retention_age := retention_age s;
     incidents := f (incidents s); idempotency := idempotency s; events := events s;
     subscribers := subscribers s; subscriber_objects := subscriber_objects s;
     next_object := next_object s |}.
Definition with_idempotency
    (f : gmap (string * string * string) (string * response) →
         gmap (string * string * string) (string * response))
    (s : MemoryIncidentStore) : MemoryIncidentStore :=
  {| retention_count := retention_count s; retention_age := retention_age s;
     incidents := incidents s; idempotency := f (idempotency s); events := events s;
     subscribers := subscribers s; subscriber_objects := subscriber_objects s;
     next_object := next_object s |}.
Definition with_events
    (f : gmap (string * string) (list IncidentEvent) → gmap (string * string) (list IncidentEvent))
    (s : MemoryIncidentStore) : MemoryIncidentStore :=
  {| retention_count := retention_count s; retention_age := retention_age s;
     incidents := incidents s; idempotency := idempotency s; events := f (events s);
     subscribers := subscribers s; subscriber_objects := subscriber_objects s;
     next_object := next_object s |}.
Definition with_subscribers
    (f : gmap (string * string) (gset N) → gmap (string * string) (gset N))
    (g : gmap N Subscriber → gmap N Subscriber) (n : N → N)
    (s : MemoryIncidentStore) : MemoryIncidentStore :=
  {| retention_count := retention_count s; retention_age := retention_age s;
     incidents := incidents s; idempotency := idempotency s; events := events s;
     subscribers := f (subscribers s); subscriber_objects := g (subscriber_objects s);
     next_object := n (next_object s) |}.

(** ** Events *)

(** [queue.put_nowait(event)], closing the subscriber when the queue is full. *)
Definition put_nowait (event : IncidentEvent) (sub : Subscriber) : Subscriber :=
  if ((0 <? sub_maxsize sub) && (sub_maxsize sub <=? Z.of_nat (length (sub_queue sub))))%Z
  then {| sub_queue := sub_queue sub; sub_maxsize := sub_maxsize sub; sub_closed := true |}
  else {| sub_queue := sub_queue sub ++ [event]; sub_maxsize := sub_maxsize sub;
          sub_closed := sub_closed sub |}.

Definition offer (event : IncidentEvent) (refs : gset N) (objects : gmap N Subscriber) :
    gmap N Subscriber :=
  map_imap (λ ref sub, Some (if bool_decide (ref ∈ refs) then put_nowait event sub else sub))
    objects.

(** [while len(events) > count or events[0].occurred_at < cutoff: events.pop(0)];
    [None] is the [IndexError] of an emptied list. *)
Fixpoint trim (count cutoff : Z) (evs : list IncidentEvent) : option (list IncidentEvent) :=
  match evs with
  | [] => None
  | e :: rest =>
      if ((count <? Z.of_nat (length evs)) || (ev_occurred_at e <? cutoff))%Z
      then trim count cutoff rest else Some evs
  end.

Definition make_event (incident_id : string) (sequence : Z) (event_type : string)
    (occurred_at : Z) (payload : val) : IncidentEvent :=
  {| ev_event_id := "evt_" +:+ str_drop 4 incident_id +:+ "_" +:+ int_repr sequence;
     ev_event_type := event_type; ev_incident_id := incident_id; ev_sequence := sequence;
     ev_occurred_at := occurred_at; ev_payload := payload |}.

Definition next_sequence (evs : list IncidentEvent) : Z :=
  match last evs with Some e => ev_sequence e + 1 | None => 1 end.

(** [_append_locked] *)
Definition append_locked (tenant_id incident_id event_type : string) (payload : val)
    (env : Env) : StoreM IncidentEvent :=
  let key := (tenant_id, incident_id) in
  let! s := sget in
  let evs := default [] (events s !! key) in
  let event := make_event incident_id (next_sequence evs) event_type (env_occurred_at env) payload in
  let appended := evs ++ [event] in
  match trim (retention_count s) (env_cutoff_now env - retention_age s) appended with
  | None => smodify (with_events <[key := []]>) ;;; sraise PyIndexError
  | Some kept =>
      smodify (with_events <[key := kept]>) ;;;
      smodify (with_subscribers id (offer event (default ∅ (subscribers s !! key))) id) ;;;
      sret event
  end.

(** [_owned] *)
Definition owned (tenant_id incident_id : string) : StoreM Incident :=
  let! s := sget in
  match incidents s !! incident_id with
  | Some incident =>
      if bool_decide (in_tenant_id incident = tenant_id) then sret incident
      else sraise IncidentNotFound
  | None => sraise IncidentNotFound
  end.

(** [if prior := self._idempotency.get(slot): ...] before the body. *)
Definition once (slot : string * string * string) (digest : string)
    (body : StoreM response) : StoreM (response * bool) :=
  let! s := sget in
  match idempotency s !! slot with
  | Some (prior_digest, prior) =>
      if bool_decide (prior_digest = digest) then sret (prior, false)
      else sraise IdempotencyConflict
  | None => let! r := body in
            smodify (with_idempotency <[slot := (digest, r)]>) ;;; sret (r, true)
  end.

(** ** The operations *)

Definition new_snapshot (incident_id cursor : string) : IncidentSnapshot :=
  {| sn_incident_id := incident_id; sn_state := "NEW"; sn_state_version := 0;
     sn_event_cursor := cursor; sn_final_report_ref := None |}.
Definition new_incident (tenant_id incident_id cursor : string) (request : val) : Incident :=
  {| in_tenant_id := tenant_id; in_snapshot := new_snapshot incident_id cursor;
     in_spec := request; in_pending_action := None |}.

Definition create (tenant_id idempotency_key : string) (request : val) (env : Env) :
    StoreM (response * bool) :=
  once (tenant_id, "create", idempotency_key) (store_digest request) (
    let incident_id := "inc_" +:+ env_hex env in
    smodify (with_incidents <[incident_id := new_incident tenant_id incident_id "0" request]>) ;;;
    let! event := append_locked tenant_id incident_id "EVT-INCIDENT-CREATED"
                    (sdict [("state", VStr "NEW")]) env in
    let cursor := int_repr (ev_sequence event) in
    smodify (with_incidents
      <[incident_id := new_incident tenant_id incident_id cursor request]>) ;;;
    sret (RSnapshot (new_snapshot incident_id cursor))).

Definition get (tenant_id incident_id : string) : StoreM IncidentSnapshot :=
  let! incident := owned tenant_id incident_id in sret (in_snapshot incident).

Definition TERMINAL_STATES : list string := ["RESOLVED"; "ESCALATED"; "CANCELLED"].

(** [incident.snapshot = snapshot] and [incident.pending_action = None] *)
Definition set_snapshot (snapshot : IncidentSnapshot) (i : Incident) : Incident :=
  {| in_tenant_id := in_tenant_id i; in_snapshot := snapshot; in_spec := in_spec i;
     in_pending_action := in_pending_action i |}.
Definition clear_pending (i : Incident) : Incident :=
  {| in_tenant_id := in_tenant_id i; in_snapshot := in_snapshot i; in_spec := in_spec i;
     in_pending_action := None |}.

(** [snapshot.model_copy(update=...)] of a cancellation *)
Definition cancelled_snapshot (expected_version : Z) (cursor : string)
    (current : IncidentSnapshot) : IncidentSnapshot :=
  {| sn_incident_id := sn_incident_id current; sn_state := "CANCELLED";
     sn_state_version := expected_version + 1; sn_event_cursor := cursor;
     sn_final_report_ref := sn_final_report_ref current |}.

Definition cancel (tenant_id incident_id idempotency_key : string) (expected_version : Z)
    (env : Env) : StoreM (response * bool) :=
  once (tenant_id, "cancel", idempotency_key)
       (store_digest (cancel_material incident_id expected_version)) (
    let! incident := owned tenant_id incident_id in
    let current := in_snapshot incident in
    sguard (negb (sn_state_version current =? expected_version)%Z) StateConflict ;;;
    sguard (bool_decide (sn_state current ∈ TERMINAL_STATES)) StateConflict ;;;
    let! event := append_locked tenant_id incident_id "EVT-INCIDENT-CANCEL-REQUESTED"
                    (sdict []) env in
    let snapshot := cancelled_snapshot expected_version (int_repr (ev_sequence event)) current in
    smodify (with_incidents <[incident_id := set_snapshot snapshot incident]>) ;;;
    sret (RSnapshot snapshot)).

Definition feedback (tenant_id user_id incident_id idempotency_key : string)
    (request : FeedbackRequest) (env : Env) : StoreM (response * bool) :=
  once (tenant_id, "feedback", idempotency_key) (store_digest (dump_feedback request)) (
    let! incident := owned tenant_id incident_id in
    sguard (negb (sn_state_version (in_snapshot incident) =? fr_expected_state_version request)%Z)
      StateConflict ;;;
    let result := {| fb_feedback_id := "feedback_" +:+ env_hex env;
                     fb_accepted_at := env_accepted_at env |} in
    append_locked tenant_id incident_id "EVT-INCIDENT-FEEDBACK-RECORDED"
      (sdict [("feedback_id", VStr (fb_feedback_id result)); ("rating", VInt (fr_rating request));
              ("user", VStr user_id)]) env ;;;
    sret (RFeedback result)).

Definition approval (tenant_id incident_id idempotency_key : string)
    (request : ApprovalRequest) (env : Env) : StoreM (response * bool) :=
  once (tenant_id, "approval", idempotency_key) (store_digest (dump_approval request)) (
    let! incident := owned tenant_id incident_id in
    sguard (negb (sn_state_version (in_snapshot incident) =? ar_expected_state_version request)%Z)
      StateConflict ;;;
    sguard (bool_decide (in_pending_action incident ≠
              Some (ar_action_id request, ar_action_digest request))) ApprovalConflict ;;;
    append_locked tenant_id incident_id "EVT-ACTION-APPROVAL-DECIDED"
      (sdict [("action_id", VStr (ar_action_id request));
              ("decision", VStr (decision_value (ar_decision request)))]) env ;;;
    smodify (with_incidents (alter clear_pending incident_id)) ;;;
    sret (RApproval {| ap_action_id := ar_action_id request; ap_decision := ar_decision request;
      ap_action_digest := ar_action_digest request;
      ap_state_version := ar_expected_state_version request |})).

Definition replay (tenant_id incident_id : string) (last_event_id : option string) :
    StoreM (list IncidentEvent) :=
  owned tenant_id incident_id ;;;
  let! s := sget in
  let evs := default [] (events s !! (tenant_id, incident_id)) in
  match last_event_id with
  | None => sret evs
  | Some text =>
      match py_int text with
      | None => sraise CursorError
      | Some cursor =>
          let above := match last evs with Some e => (ev_sequence e <? cursor)%Z | None => false end in
          sguard ((cursor <? 0)%Z || above) CursorError ;;;
          match evs with
          | e :: _ => sguard (cursor <? ev_sequence e - 1)%Z (RetentionGap (int_repr (ev_sequence e)))
          | [] => sret tt
          end ;;;
          sret (filter (λ e, (cursor < ev_sequence e)%Z) evs)
      end
  end.

Definition subscribe (tenant_id incident_id : string) (buffer_size : Z) : StoreM N :=
  owned tenant_id incident_id ;;;
  let! s := sget in
  let ref := next_object s in
  let key := (tenant_id, incident_id) in
  smodify (with_subscribers
    (λ subs, <[key := set_add ref (default ∅ (subs !! key))]> subs)
    <[ref := {| sub_queue := []; sub_maxsize := buffer_size; sub_closed := false |}]>
    N.succ) ;;;
  sret ref.

Definition unsubscribe (tenant_id incident_id : string) (ref : N) : StoreM unit :=
  smodify (with_subscribers (alter (λ refs, refs ∖ {[ref]}) (tenant_id, incident_id)) id id).
