(* ===== verification/PgStore.v ===== *)
(** * The durable incident store: [src/faultwitness/api/postgres_store.py]

    [PostgresIncidentStore] over the tables of
    [migrations/002_i0012_control_api.sql].  A table is a map on its primary key
    (the event table a list in insertion order, read back with ORDER BY), an
    INSERT on an existing key or unique column is [UniqueViolation], and a
    transaction that raises leaves the tables as they were.  [jsonb] is what the
    database does to a JSON document it stores and returns (it reorders keys);
    the responses of [api_idempotency] are read back through their models, so
    only event payloads show it. *)
From S2P Require Import Prelude Json Sha256 Kernel PyDyn Store.

Record incident_row := {
  row_state : string;
  row_state_version : Z;
  row_event_cursor : Z;
  row_final_report_ref : option string;
  row_spec : val;
}.

Record idempotency_row := {
  row_request_digest : string;
  row_response : response;
  row_http_status : Z;
}.

Record feedback_row := {
  row_fb_tenant_id : string;
  row_fb_incident_id : string;
  row_user_id : string;
  row_rating : Z;
  row_comment : option string;
  row_accepted_at : Z;
}.

Record PostgresIncidentStore := {
  connected : bool;
  t_incident : gmap (string * string) incident_row;
  t_idempotency : gmap (string * string * string) idempotency_row;
  t_event : list (string * IncidentEvent);
  t_feedback : gmap string feedback_row;
  t_pending_approval : gmap (string * string * string) string;
  pg_subscribers : gmap (string * string) (gset N);
  pg_objects : gmap N Subscriber;
  pg_next_object : N;
}.

Inductive pg_error : Type :=
| PgStore (e : store_error)
| PgNotConnected.

Abbreviation PgM := (SE PostgresIncidentStore pg_error).

Definition set_incident (f : gmap (string * string) incident_row → gmap (string * string) incident_row)
    (s : PostgresIncidentStore) : PostgresIncidentStore :=
  {| connected := connected s; t_incident := f (t_incident s); t_idempotency := t_idempotency s;
     t_event := t_event s; t_feedback := t_feedback s; t_pending_approval := t_pending_approval s;
     pg_subscribers := pg_subscribers s; pg_objects := pg_objects s;
     pg_next_object := pg_next_object s |}.
Definition set_idempotency slot (r : idempotency_row) (s : PostgresIncidentStore) :=
  {| connected := connected s; t_incident := t_incident s;
     t_idempotency := <[slot := r]> (t_idempotency s);
     t_event := t_event s; t_feedback := t_feedback s; t_pending_approval := t_pending_approval s;
     pg_subscribers := pg_subscribers s; pg_objects := pg_objects s;
     pg_next_object := pg_next_object s |}.
Definition add_event (row : string * IncidentEvent) (s : PostgresIncidentStore) :=
  {| connected := connected s; t_incident := t_incident s; t_idempotency := t_idempotency s;
     t_event := t_event s ++ [row]; t_feedback := t_feedback s;
     t_pending_approval := t_pending_approval s;
     pg_subscribers := pg_subscribers s; pg_objects := pg_objects s;
     pg_next_object := pg_next_object s |}.
Definition add_feedback (id : string) (row : feedback_row) (s : PostgresIncidentStore) :=
  {| connected := connected s; t_incident := t_incident s; t_idempotency := t_idempotency s;
     t_event := t_event s; t_feedback := <[id := row]> (t_feedback s);
     t_pending_approval := t_pending_approval s;
     pg_subscribers := pg_subscribers s; pg_objects := pg_objects s;
     pg_next_object := pg_next_object s |}.
Definition delete_pending key (s : PostgresIncidentStore) :=
  {| connected := connected s; t_incident := t_incident s; t_idempotency := t_idempotency s;
     t_event := t_event s; t_feedback := t_feedback s;
     t_pending_approval := delete key (t_pending_approval s);
     pg_subscribers := pg_subscribers s; pg_objects := pg_objects s;
     pg_next_object := pg_next_object s |}.
Definition set_objects (f : gmap (string * string) (gset N) → gmap (string * string) (gset N))
    (g : gmap N Subscriber → gmap N Subscriber) (n : N → N) (s : PostgresIncidentStore) :=
  {| connected := connected s; t_incident := t_incident s; t_idempotency := t_idempotency s;
     t_event := t_event s; t_feedback := t_feedback s; t_pending_approval := t_pending_approval s;
     pg_subscribers := f (pg_subscribers s); pg_objects := g (pg_objects s);
     pg_next_object := n (pg_next_object s) |}.

Definition pg_raise {A} (e : store_error) : PgM A := sraise (PgStore e).
Definition pg_guard (bad : bool) (e : store_error) : PgM unit := sguard bad (PgStore e).

(** [_pool] *)
Definition pool : PgM unit :=
  let! s := sget in sguard (negb (connected s)) PgNotConnected.

Section Store.
Context (jsonb : val → val).

Definition stored_event (e : IncidentEvent) : IncidentEvent :=
  {| ev_event_id := ev_event_id e; ev_event_type := ev_event_type e;
     ev_incident_id := ev_incident_id e; ev_sequence := ev_sequence e;
     ev_occurred_at := ev_occurred_at e; ev_payload := jsonb (ev_payload e) |}.

(** [_insert_event]: primary key (tenant, incident, sequence), unique event_id. *)
Definition insert_event (tenant_id : string) (e : IncidentEvent) : PgM unit :=
  let! s := sget in
  pg_guard (existsb (λ row, bool_decide (ev_event_id row.2 = ev_event_id e) ||
      bool_decide (row.1 = tenant_id ∧ ev_incident_id row.2 = ev_incident_id e ∧
                   ev_sequence row.2 = ev_sequence e)) (t_event s)) UniqueViolation ;;;
  smodify (add_event (tenant_id, stored_event e)).

(** [_lock_incident] *)
Definition lock_incident (tenant_id incident_id : string) : PgM incident_row :=
  let! s := sget in
  match t_incident s !! (tenant_id, incident_id) with
  | Some row => sret row
  | None => pg_raise IncidentNotFound
  end.

(** [_idempotent] *)
Definition idempotent (slot : string * string * string) (digest : string) :
    PgM (option response) :=
  let! s := sget in
  match t_idempotency s !! slot with
  | None => sret None
  | Some row =>
      if bool_decide (row_request_digest row = digest) then sret (Some (row_response row))
      else pg_raise IdempotencyConflict
  end.

(** [_save_idempotency] *)
Definition save_idempotency (slot : string * string * string) (digest : string)
    (r : response) (status : Z) : PgM unit :=
  let! s := sget in
  pg_guard (bool_decide (is_Some (t_idempotency s !! slot))) UniqueViolation ;;;
  smodify (set_idempotency slot
    {| row_request_digest := digest; row_response := r; row_http_status := status |}).

(** [_publish] *)
Definition publish (tenant_id : string) (e : IncidentEvent) : PgM unit :=
  smodify (λ s, set_objects id
    (offer e (default ∅ (pg_subscribers s !! (tenant_id, ev_incident_id e)))) id s).

(** The shape of the writing methods: a transaction that answers from the
    idempotency table or runs the body, then the publication of its event. *)
Definition pg_once (slot : string * string * string) (digest : string) (status : Z)
    (body : PgM (response * IncidentEvent)) : PgM (response * option IncidentEvent) :=
  atomically (
    let! prior := idempotent slot digest in
    match prior with
    | Some r => sret (r, None)
    | None =>
        let! (r, event) := body in
        save_idempotency slot digest r status ;;;
        sret (r, Some event)
    end).

Definition publishing (tenant_id : string) (tx : PgM (response * option IncidentEvent)) :
    PgM (response * bool) :=
  pool ;;;
  let! (r, event) := tx in
  match event with
  | Some e => publish tenant_id e ;;; sret (r, true)
  | None => sret (r, false)
  end.

Definition bump_cursor (key : string * string) (sequence : Z) : PgM unit :=
  smodify (set_incident (alter (λ row, {| row_state := row_state row;
    row_state_version := row_state_version row; row_event_cursor := sequence;
    row_final_report_ref := row_final_report_ref row; row_spec := row_spec row |}) key)).

(** ** The operations *)

Definition pg_create_tx (tenant_id idempotency_key : string) (request : val) (env : Env) :
    PgM (response * option IncidentEvent) :=
  pg_once (tenant_id, "create", idempotency_key) (store_digest request) 201 (
    let incident_id := "inc_" +:+ env_hex env in
    let! s := sget in
    pg_guard (bool_decide (is_Some (t_incident s !! (tenant_id, incident_id)))) UniqueViolation ;;;
    smodify (set_incident <[(tenant_id, incident_id) := {| row_state := "NEW";
      row_state_version := 0; row_event_cursor := 1; row_final_report_ref := None;
      row_spec := jsonb request |}]>) ;;;
    let event := make_event incident_id 1 "EVT-INCIDENT-CREATED" (env_occurred_at env)
                   (sdict [("state", VStr "NEW")]) in
    insert_event tenant_id event ;;;
    sret (RSnapshot {| sn_incident_id := incident_id; sn_state := "NEW"; sn_state_version := 0;
                       sn_event_cursor := "1"; sn_final_report_ref := None |}, event)).

Definition pg_create tenant_id idempotency_key request env : PgM (response * bool) :=
  publishing tenant_id (pg_create_tx tenant_id idempotency_key request env).

(** [_snapshot] *)
Definition row_snapshot (incident_id : string) (row : incident_row) : IncidentSnapshot :=
  {| sn_incident_id := incident_id; sn_state := row_state row;
     sn_state_version := row_state_version row;
     sn_event_cursor := int_repr (row_event_cursor row);
     sn_final_report_ref := row_final_report_ref row |}.

Definition pg_get (tenant_id incident_id : string) : PgM IncidentSnapshot :=
  pool ;;;
  let! row := lock_incident tenant_id incident_id in
  sret (row_snapshot incident_id row).

Definition pg_cancel_tx (tenant_id incident_id idempotency_key : string) (expected_version : Z)
    (env : Env) : PgM (response * option IncidentEvent) :=
  pg_once (tenant_id, "cancel", idempotency_key)
      (store_digest (cancel_material incident_id expected_version)) 202 (
    let! row := lock_incident tenant_id incident_id in
    pg_guard (negb (row_state_version row =? expected_version)%Z ||
              bool_decide (row_state row ∈ TERMINAL_STATES)) StateConflict ;;;
    let sequence := (row_event_cursor row + 1)%Z in
    let event := make_event incident_id sequence "EVT-INCIDENT-CANCEL-REQUESTED"
                   (env_occurred_at env) (sdict []) in
    smodify (set_incident (alter (λ r, {| row_state := "CANCELLED";
      row_state_version := expected_version + 1; row_event_cursor := sequence;
      row_final_report_ref := row_final_report_ref r; row_spec := row_spec r |})
      (tenant_id, incident_id))) ;;;
    insert_event tenant_id event ;;;
    sret (RSnapshot {| sn_incident_id := incident_id; sn_state := "CANCELLED";
      sn_state_version := expected_version + 1; sn_event_cursor := int_repr sequence;
      sn_final_report_ref := row_final_report_ref row |}, event)).

Definition pg_cancel tenant_id incident_id idempotency_key expected_version env :
    PgM (response * bool) :=
  publishing tenant_id (pg_cancel_tx tenant_id incident_id idempotency_key expected_version env).

Definition pg_feedback_tx (tenant_id user_id incident_id idempotency_key : string)
    (request : FeedbackRequest) (env : Env) : PgM (response * option IncidentEvent) :=
  pg_once (tenant_id, "feedback", idempotency_key) (store_digest (dump_feedback request)) 202 (
    let! row := lock_incident tenant_id incident_id in
    pg_guard (negb (row_state_version row =? fr_expected_state_version request)%Z)
      StateConflict ;;;
    let sequence := (row_event_cursor row + 1)%Z in
    let result := {| fb_feedback_id := "feedback_" +:+ env_hex env;
                     fb_accepted_at := env_accepted_at env |} in
    let! s := sget in
    pg_guard (bool_decide (is_Some (t_feedback s !! fb_feedback_id result))) UniqueViolation ;;;
    smodify (add_feedback (fb_feedback_id result) {| row_fb_tenant_id := tenant_id;
      row_fb_incident_id := incident_id; row_user_id := user_id;
      row_rating := fr_rating request; row_comment := fr_comment request;
      row_accepted_at := fb_accepted_at result |}) ;;;
    let event := make_event incident_id sequence "EVT-INCIDENT-FEEDBACK-RECORDED"
                   (env_occurred_at env)
                   (sdict [("feedback_id", VStr (fb_feedback_id result));
                           ("rating", VInt (fr_rating request))]) in
    insert_event tenant_id event ;;;
    bump_cursor (tenant_id, incident_id) sequence ;;;
    sret (RFeedback result, event)).

Definition pg_feedback tenant_id user_id incident_id idempotency_key request env :
    PgM (response * bool) :=
  publishing tenant_id (pg_feedback_tx tenant_id user_id incident_id idempotency_key request env).

Definition pg_approval_tx (tenant_id incident_id idempotency_key : string)
    (request : ApprovalRequest) (env : Env) : PgM (response * option IncidentEvent) :=
  pg_once (tenant_id, "approval", idempotency_key) (store_digest (dump_approval request)) 200 (
    let! row := lock_incident tenant_id incident_id in
    pg_guard (negb (row_state_version row =? ar_expected_state_version request)%Z)
      StateConflict ;;;
    let! s := sget in
    let action := (tenant_id, incident_id, ar_action_id request) in
    pg_guard (bool_decide (t_pending_approval s !! action ≠ Some (ar_action_digest request)))
      ApprovalConflict ;;;
    let sequence := (row_event_cursor row + 1)%Z in
    let event := make_event incident_id sequence "EVT-ACTION-APPROVAL-DECIDED"
                   (env_occurred_at env)
                   (sdict [("action_id", VStr (ar_action_id request));
                           ("decision", VStr (decision_value (ar_decision request)))]) in
    insert_event tenant_id event ;;;
    smodify (delete_pending action) ;;;
    bump_cursor (tenant_id, incident_id) sequence ;;;
    sret (RApproval {| ap_action_id := ar_action_id request; ap_decision := ar_decision request;
      ap_action_digest := ar_action_digest request;
      ap_state_version := ar_expected_state_version request |}, event)).

Definition pg_approval tenant_id incident_id idempotency_key request env : PgM (response * bool) :=
  publishing tenant_id (pg_approval_tx tenant_id incident_id idempotency_key request env).
End Store.

(** The rows of one incident, ORDER BY sequence. *)
Definition incident_events (tenant_id incident_id : string) (s : PostgresIncidentStore) :
    list IncidentEvent :=
  sort_by (λ a b, (ev_sequence a <=? ev_sequence b)%Z)
    (filter (λ row, row.1 = tenant_id ∧ ev_incident_id row.2 = incident_id) (t_event s)).*2.

(** [SELECT min(sequence)] *)
Definition min_sequence (evs : list IncidentEvent) : option Z :=
  foldr (λ e acc, Some match acc with
                       | Some m => Z.min (ev_sequence e) m
                       | None => ev_sequence e
                       end) None evs.

Definition pg_replay (tenant_id incident_id : string) (last_event_id : option string) :
    PgM (list IncidentEvent) :=
  match match last_event_id with
        | Some text => if truthy text then py_int text else Some 0%Z
        | None => Some 0%Z
        end with
  | None => pg_raise CursorError
  | Some cursor =>
      pg_guard (cursor <? 0)%Z CursorError ;;;
      pool ;;;
      let! row := lock_incident tenant_id incident_id in
      pg_guard (row_event_cursor row <? cursor)%Z CursorError ;;;
      let! s := sget in
      let evs := incident_events tenant_id incident_id s in
      match min_sequence evs with
      | Some earliest => pg_guard (cursor <? earliest - 1)%Z (RetentionGap (int_repr earliest))
      | None => sret tt
      end ;;;
      sret (filter (λ e, (cursor < ev_sequence e)%Z) evs)
  end.

Definition pg_subscribe (tenant_id incident_id : string) (buffer_size : Z) : PgM N :=
  pg_get tenant_id incident_id ;;;
  let! s := sget in
  let ref := pg_next_object s in
  let key := (tenant_id, incident_id) in
  smodify (set_objects
    (λ subs, <[key := set_add ref (default ∅ (subs !! key))]> subs)
    <[ref := {| sub_queue := []; sub_maxsize := buffer_size; sub_closed := false |}]>
    N.succ) ;;;
  sret ref.

Definition pg_unsubscribe (tenant_id incident_id : string) (ref : N) : PgM unit :=
  smodify (set_objects (alter (λ refs, refs ∖ {[ref]}) (tenant_id, incident_id)) id id).
