(* ===== verification/StoreSpec.v ===== *)
(** * The incident store's contract

    What [MemoryIncidentStore] and [PostgresIncidentStore] promise, as one
    specification: an incident is a state, a version and an append-only log, an
    idempotency slot remembers the first response given under it.  The two
    implementations differ in three recorded choices, the fields of [Policy]:
    whether feedback and approvals refresh the snapshot's cursor, whether a
    feedback event names the user, and how a payload is stored.  [ret] is how
    many of the oldest events the implementation no longer retains after the
    step. *)
From S2P Require Import Prelude Json Sha256 Kernel PyDyn Store.

Record Policy := {
  refresh_cursor : bool;
  keep_user : bool;
  stored : val → val;
}.

Record spec_incident := {
  si_state : string;
  si_version : Z;
  si_cursor : Z;
  si_report : option string;
  si_pending : gmap string string;
  si_log : list IncidentEvent;
  si_dropped : nat;
}.

Record Spec := {
  sp_incidents : gmap (string * string) spec_incident;
  sp_idem : gmap (string * string * string) (string * response);
}.

Inductive store_op : Type :=
| OpCreate (tenant key : string) (request : val)
| OpGet (tenant id : string)
| OpCancel (tenant id key : string) (expected : Z)
| OpFeedback (tenant user id key : string) (request : FeedbackRequest)
| OpApproval (tenant id key : string) (request : ApprovalRequest)
| OpReplay (tenant id : string) (last_event_id : option string).

Inductive store_out : Type :=
| OutResponse (r : response) (fresh : bool)
| OutSnapshot (s : IncidentSnapshot)
| OutEvents (evs : list IncidentEvent).

Definition op_tenant (op : store_op) : string :=
  match op with
  | OpCreate t _ _ | OpGet t _ | OpCancel t _ _ _ | OpFeedback t _ _ _ _
  | OpApproval t _ _ _ | OpReplay t _ _ => t
  end.

(** The idempotency slot and digest of a writing operation. *)
Definition op_slot (op : store_op) : option ((string * string * string) * string) :=
  match op with
  | OpCreate t k r => Some ((t, "create", k), store_digest r)
  | OpCancel t id k v => Some ((t, "cancel", k), store_digest (cancel_material id v))
  | OpFeedback t _ _ k r => Some ((t, "feedback", k), store_digest (dump_feedback r))
  | OpApproval t _ k r => Some ((t, "approval", k), store_digest (dump_approval r))
  | OpGet _ _ | OpReplay _ _ _ => None
  end.

Definition snapshot_of (id : string) (i : spec_incident) : IncidentSnapshot :=
  {| sn_incident_id := id; sn_state := si_state i; sn_state_version := si_version i;
     sn_event_cursor := int_repr (si_cursor i); sn_final_report_ref := si_report i |}.

Section Spec.
Context (pol : Policy) (ret : nat).

Definition next_event (id ty : string) (payload : val) (env : Env)
    (log : list IncidentEvent) : IncidentEvent :=
  make_event id (Z.of_nat (length log) + 1) ty (env_occurred_at env) (stored pol payload).

(** Append an event; the cursor of the snapshot follows it when [refresh]. *)
Definition appended (id ty : string) (payload : val) (env : Env) (refresh : bool)
    (i : spec_incident) : spec_incident :=
  {| si_state := si_state i; si_version := si_version i;
     si_cursor := if refresh then Z.of_nat (length (si_log i)) + 1 else si_cursor i;
     si_report := si_report i; si_pending := si_pending i;
     si_log := si_log i ++ [next_event id ty payload env (si_log i)]; si_dropped := ret |}.

Definition feedback_payload (user : string) (fid : string) (r : FeedbackRequest) : val :=
  sdict ([("feedback_id", VStr fid); ("rating", VInt (fr_rating r))] ++
         if keep_user pol then [("user", VStr user)] else []).

(** The effect of a writing operation that is not a repeat. *)
Definition spec_body (op : store_op) (env : Env) (incs : gmap (string * string) spec_incident) :
    result store_error (response * gmap (string * string) spec_incident) :=
  match op with
  | OpCreate t _ _ =>
      let id := "inc_" +:+ env_hex env in
      let i := appended id "EVT-INCIDENT-CREATED" (sdict [("state", VStr "NEW")]) env true
                 {| si_state := "NEW"; si_version := 0; si_cursor := 0; si_report := None;
                    si_pending := ∅; si_log := []; si_dropped := 0 |} in
      Ok (RSnapshot (snapshot_of id i), <[(t, id) := i]> incs)
  | OpCancel t id _ expected =>
      let* i := from_option_or IncidentNotFound (incs !! (t, id)) in
      raise_if negb (si_version i =? expected)%Z with_ StateConflict;;
      raise_if bool_decide (si_state i ∈ TERMINAL_STATES) with_ StateConflict;;
      let i := appended id "EVT-INCIDENT-CANCEL-REQUESTED" (sdict []) env true i in
      let i := {| si_state := "CANCELLED"; si_version := expected + 1; si_cursor := si_cursor i;
                  si_report := si_report i; si_pending := si_pending i; si_log := si_log i;
                  si_dropped := si_dropped i |} in
      Ok (RSnapshot (snapshot_of id i), <[(t, id) := i]> incs)
  | OpFeedback t user id _ r =>
      let* i := from_option_or IncidentNotFound (incs !! (t, id)) in
      raise_if negb (si_version i =? fr_expected_state_version r)%Z with_ StateConflict;;
      let fid := "feedback_" +:+ env_hex env in
      let i := appended id "EVT-INCIDENT-FEEDBACK-RECORDED" (feedback_payload user fid r) env
                 (refresh_cursor pol) i in
      Ok (RFeedback {| fb_feedback_id := fid; fb_accepted_at := env_accepted_at env |},
          <[(t, id) := i]> incs)
  | OpApproval t id _ r =>
      let* i := from_option_or IncidentNotFound (incs !! (t, id)) in
      raise_if negb (si_version i =? ar_expected_state_version r)%Z with_ StateConflict;;
      raise_if bool_decide (si_pending i !! ar_action_id r ≠ Some (ar_action_digest r))
        with_ ApprovalConflict;;
      let i := appended id "EVT-ACTION-APPROVAL-DECIDED"
                 (sdict [("action_id", VStr (ar_action_id r));
                         ("decision", VStr (decision_value (ar_decision r)))]) env
                 (refresh_cursor pol) i in
      let i := {| si_state := si_state i; si_version := si_version i; si_cursor := si_cursor i;
                  si_report := si_report i; si_pending := delete (ar_action_id r) (si_pending i);
                  si_log := si_log i; si_dropped := si_dropped i |} in
      Ok (RApproval {| ap_action_id := ar_action_id r; ap_decision := ar_decision r;
            ap_action_digest := ar_action_digest r;
            ap_state_version := ar_expected_state_version r |}, <[(t, id) := i]> incs)
  | OpGet _ _ | OpReplay _ _ _ => Err IncidentNotFound
  end.

Definition spec_replay (i : spec_incident) (last_event_id : option string) :
    result store_error store_out :=
  match last_event_id with
  | None => Ok (OutEvents (drop (si_dropped i) (si_log i)))
  | Some text =>
      let* cursor := from_option_or CursorError (py_int text) in
      raise_if ((cursor <? 0) || (Z.of_nat (length (si_log i)) <? cursor))%Z with_ CursorError;;
      raise_if (cursor <? Z.of_nat (si_dropped i))%Z
        with_ RetentionGap (int_repr (Z.of_nat (si_dropped i) + 1));;
      Ok (OutEvents (drop (Z.to_nat cursor) (si_log i)))
  end.

Definition spec_step (op : store_op) (env : Env) (s : Spec) :
    result store_error store_out * Spec :=
  match op_slot op with
  | Some (slot, digest) =>
      match sp_idem s !! slot with
      | Some (d, r) =>
          (if bool_decide (d = digest) then Ok (OutResponse r false) else Err IdempotencyConflict, s)
      | None =>
          match spec_body op env (sp_incidents s) with
          | Ok (r, incs) =>
              (Ok (OutResponse r true),
               {| sp_incidents := incs; sp_idem := <[slot := (digest, r)]> (sp_idem s) |})
          | Err e => (Err e, s)
          end
      end
  | None =>
      (match op with
       | OpGet t id =>
           let* i := from_option_or IncidentNotFound (sp_incidents s !! (t, id)) in
           Ok (OutSnapshot (snapshot_of id i))
       | OpReplay t id last =>
           let* i := from_option_or IncidentNotFound (sp_incidents s !! (t, id)) in
           spec_replay i last
       | _ => Err IncidentNotFound
       end, s)
  end.
End Spec.

(** ** Logs *)

Definition numbered_from (k : Z) (log : list IncidentEvent) : Prop :=
  ∀ j e, log !! j = Some e → ev_sequence e = (k + Z.of_nat j + 1)%Z.

Lemma numbered_cons k e log :
  numbered_from k (e :: log) ↔ ev_sequence e = (k + 1)%Z ∧ numbered_from (k + 1) log.
Proof.
  split.
  - intros H. split; [rewrite (H O e eq_refl); lia|]. intros j e' Hj.
    rewrite (H (S j) e' Hj). lia.
  - intros [He H] [|j] e' Hj; simpl in Hj; [injection Hj as <-; lia|].
    rewrite (H j e' Hj). lia.
Qed.

Lemma numbered_snoc k log e :
  numbered_from k log → ev_sequence e = (k + Z.of_nat (length log) + 1)%Z →
  numbered_from k (log ++ [e]).
Proof.
  intros H He j e' [Hj|[Hle Hj]]%lookup_app_Some; [by apply H|].
  apply list_lookup_singleton_Some in Hj as [Hj <-]. rewrite He. lia.
Qed.

Lemma numbered_drop k n log : numbered_from k log → numbered_from (k + Z.of_nat n) (drop n log).
Proof. intros H j e Hj. rewrite lookup_drop in Hj. rewrite (H _ _ Hj). lia. Qed.

Lemma numbered_last k log e :
  numbered_from k log → last log = Some e → ev_sequence e = (k + Z.of_nat (length log))%Z.
Proof.
  intros H Hl. rewrite last_lookup in Hl. rewrite (H _ _ Hl).
  destruct log; [done|]. simpl. lia.
Qed.

Lemma numbered_filter k log c :
  numbered_from k log → (k ≤ c)%Z →
  filter (λ e, (c < ev_sequence e)%Z) log = drop (Z.to_nat (c - k)) log.
Proof.
  revert k. induction log as [|e log IH]; intros k H Hc; [by rewrite drop_nil|].
  apply numbered_cons in H as [He H]. rewrite filter_cons. case_decide as Hlt.
  - assert (c = k) as -> by lia. replace (Z.to_nat (k - k)) with O by lia.
    simpl. f_equal. clear -H.
    assert (∀ k', (k < k')%Z → numbered_from k' log → filter (λ e, (k < ev_sequence e)%Z) log = log)
      as Hall.
    { clear H. induction log as [|e log IH]; intros k' Hk H; [done|].
      apply numbered_cons in H as [He H]. rewrite filter_cons_True by lia.
      f_equal. apply (IH (k' + 1)%Z); [lia|done]. }
    apply (Hall (k + 1)%Z); [lia|done].
  - rewrite (IH (k + 1)%Z) by (done || lia).
    replace (Z.to_nat (c - k)) with (S (Z.to_nat (c - (k + 1)))) by lia. done.
Qed.
