(* ===== verification/MemoryStore.v ===== *)
(** * [MemoryIncidentStore] implements the contract

    A forward simulation: from related states every operation of the memory
    store gives the specification's answer and related states, retention
    dropping some of the oldest events. *)
From S2P Require Import Prelude Json Sha256 Kernel PyDyn Store StoreSpec.

Definition memory_policy : Policy :=
  {| refresh_cursor := false; keep_user := true; stored := id |}.

(** One call on the store object. *)
Definition memory_step (op : store_op) (env : Env) : StoreM store_out :=
  match op with
  | OpCreate t k r => let! (r, b) := create t k r env in sret (OutResponse r b)
  | OpGet t id => let! s := get t id in sret (OutSnapshot s)
  | OpCancel t id k v => let! (r, b) := cancel t id k v env in sret (OutResponse r b)
  | OpFeedback t u id k r => let! (r, b) := feedback t u id k r env in sret (OutResponse r b)
  | OpApproval t id k r => let! (r, b) := approval t id k r env in sret (OutResponse r b)
  | OpReplay t id last => let! evs := replay t id last in sret (OutEvents evs)
  end.

Definition pending_map (p : option (string * string)) : gmap string string :=
  match p with Some (a, d) => {[a := d]} | None => ∅ end.

Record incident_rel (id : string) (m : Incident) (evs : list IncidentEvent)
    (i : spec_incident) : Prop := {
  ir_snapshot : in_snapshot m = snapshot_of id i;
  ir_pending : si_pending i = pending_map (in_pending_action m);
  ir_events : evs = drop (si_dropped i) (si_log i);
  ir_kept : si_dropped i < length (si_log i);
  ir_numbered : numbered_from 0 (si_log i);
}.

Record mem_rel (s : MemoryIncidentStore) (sp : Spec) : Prop := {
  mr_count : (1 ≤ retention_count s)%Z;
  mr_idem : idempotency s = sp_idem sp;
  mr_fwd : ∀ id m, incidents s !! id = Some m →
    ∃ i, sp_incidents sp !! (in_tenant_id m, id) = Some i ∧
         incident_rel id m (default [] (events s !! (in_tenant_id m, id))) i;
  mr_bwd : ∀ t id i, sp_incidents sp !! (t, id) = Some i →
    ∃ m, incidents s !! id = Some m ∧ in_tenant_id m = t;
  mr_events : ∀ t id, sp_incidents sp !! (t, id) = None → events s !! (t, id) = None;
}.

(** The clock of a call does not run past the retention age within the call. *)
Definition clock_ok (s : MemoryIncidentStore) (env : Env) : Prop :=
  (env_cutoff_now env - retention_age s ≤ env_occurred_at env)%Z.

(** [uuid4] returns an identifier no incident has. *)
Definition fresh_id (op : store_op) (env : Env) (sp : Spec) : Prop :=
  match op with
  | OpCreate _ _ _ => ∀ t, sp_incidents sp !! (t, "inc_" +:+ env_hex env) = None
  | _ => True
  end.

(** ** Appending *)

Lemma trim_drop count cutoff evs kept :
  trim count cutoff evs = Some kept → ∃ n, kept = drop n evs ∧ n < length evs.
Proof.
  revert kept. induction evs as [|e evs IH]; intros kept H; [done|]. cbn [trim] in H.
  destruct (_ || _)%bool in H.
  - destruct (IH _ H) as (n & -> & Hn). exists (S n). simpl. split; [done|lia].
  - injection H as <-. exists O. simpl. split; [done|lia].
Qed.

Lemma trim_total count cutoff evs e :
  (1 ≤ count)%Z → (cutoff ≤ ev_occurred_at e)%Z → ∃ kept, trim count cutoff (evs ++ [e]) = Some kept.
Proof.
  intros Hc He. induction evs as [|x evs IH]; cbn [app trim].
  - destruct (_ || _)%bool eqn:E; [|eauto]. apply orb_true_iff in E as [E|E].
    + apply Z.ltb_lt in E. simpl in E. lia.
    + apply Z.ltb_lt in E. lia.
  - destruct (_ || _)%bool; eauto.
Qed.

Lemma next_sequence_dropped n log :
  numbered_from 0 log → n < length log →
  next_sequence (drop n log) = (Z.of_nat (length log) + 1)%Z.
Proof.
  intros Hnum Hn. unfold next_sequence.
  destruct (last (drop n log)) as [e|] eqn:Hl.
  - apply (numbered_drop 0 n) in Hnum. rewrite (numbered_last _ _ _ Hnum Hl), length_drop. lia.
  - apply last_None in Hl. apply (f_equal length) in Hl. rewrite length_drop in Hl. simpl in Hl. lia.
Qed.

(** The store after a successful append. *)
Definition after_append (key : string * string) (kept : list IncidentEvent)
    (event : IncidentEvent) (s : MemoryIncidentStore) : MemoryIncidentStore :=
  with_subscribers id (offer event (default ∅ (subscribers s !! key))) id
    (with_events <[key := kept]> s).

Lemma append_locked_ok t id ty payload env s log n :
  default [] (events s !! (t, id)) = drop n log → numbered_from 0 log →
  (n < length log ∨ (log = [] ∧ n = O)) →
  (1 ≤ retention_count s)%Z → clock_ok s env →
  let event := next_event memory_policy id ty payload env log in
  ∃ ret, ret < length (log ++ [event]) ∧
    append_locked t id ty payload env s =
    (Ok event, after_append (t, id) (drop ret (log ++ [event])) event s).
Proof.
  intros Hevs Hnum Hn Hcount Hclock event.
  assert (Hevent : make_event id (next_sequence (drop n log)) ty (env_occurred_at env) payload = event).
  { unfold event, next_event. destruct Hn as [Hn|[-> ->]]; [|done].
    by rewrite next_sequence_dropped. }
  assert (drop n log ++ [event] = drop n (log ++ [event])) as Happ.
  { rewrite drop_app_le; [done|]. destruct Hn as [?|[-> ->]]; simpl; lia. }
  unfold append_locked, sbind, sget. rewrite Hevs, Hevent.
  destruct (trim_total (retention_count s) (env_cutoff_now env - retention_age s)
    (drop n log) event Hcount Hclock) as [kept Hkept].
  destruct (trim_drop _ _ _ _ Hkept) as (n' & -> & Hn'). rewrite Happ in *.
  exists (n + n')%nat. split; [rewrite length_drop in Hn'; lia|].
  rewrite Hkept, drop_drop. done.
Qed.

Lemma incident_rel_append id m evs i ty payload env refresh m' ret event :
  incident_rel id m evs i →
  event = next_event memory_policy id ty payload env (si_log i) →
  ret < length (si_log i ++ [event]) →
  let i' := appended memory_policy ret id ty payload env refresh i in
  in_snapshot m' = snapshot_of id i' → in_pending_action m' = in_pending_action m →
  incident_rel id m' (drop ret (si_log i ++ [event])) i'.
Proof.
  intros [Hs Hp _ _ Hnum] -> Hret i' Hs' Hp'. constructor; simpl; try done.
  - by rewrite Hp'.
  - apply numbered_snoc; [done|]. simpl. lia.
Qed.

(** ** Updating the simulation *)

Lemma mem_rel_write s sp t id m' evs' i' s' :
  mem_rel s sp → in_tenant_id m' = t →
  (∀ t', t' ≠ t → sp_incidents sp !! (t', id) = None) →
  incident_rel id m' evs' i' →
  retention_count s' = retention_count s → idempotency s' = idempotency s →
  incidents s' = <[id := m']> (incidents s) → events s' = <[(t, id) := evs']> (events s) →
  mem_rel s' {| sp_incidents := <[(t, id) := i']> (sp_incidents sp); sp_idem := sp_idem sp |}.
Proof.
  intros [Hc Hi Hf Hb He] Ht Hother Hrel Hc' Hi' Hin Hev. constructor; simpl.
  - by rewrite Hc'.
  - by rewrite Hi'.
  - intros id0 m. rewrite Hin, Hev. intros [[<- <-]|[Hne Hm]]%lookup_insert_Some.
    + exists i'. by rewrite Ht, !lookup_insert_eq.
    + destruct (Hf id0 m Hm) as (i & Hi0 & Hrel0). exists i.
      by rewrite !lookup_insert_ne by congruence.
  - intros t0 id0 i0 [[[= <- <-] <-]|[Hne Hi0]]%lookup_insert_Some.
    + exists m'. by rewrite Hin, lookup_insert_eq.
    + destruct (Hb _ _ _ Hi0) as (m & Hm & <-). exists m. rewrite Hin, lookup_insert_ne; [done|].
      intros <-. destruct (decide (in_tenant_id m = t)) as [E|E]; [by rewrite E in Hne|].
      rewrite Hother in Hi0; done.
  - intros t0 id0 [Hnone Hne]%lookup_insert_None. rewrite Hev, lookup_insert_ne by done.
    by apply He.
Qed.

Lemma mem_rel_idem s sp slot r :
  mem_rel s sp →
  mem_rel (with_idempotency <[slot := r]> s)
    {| sp_incidents := sp_incidents sp; sp_idem := <[slot := r]> (sp_idem sp) |}.
Proof. intros [Hc Hi Hf Hb He]. constructor; simpl; try done. by rewrite Hi. Qed.

Lemma owned_ok s sp t id :
  mem_rel s sp →
  match sp_incidents sp !! (t, id) with
  | Some i => ∃ m, owned t id s = (Ok m, s) ∧ in_tenant_id m = t ∧ incidents s !! id = Some m ∧
      incident_rel id m (default [] (events s !! (t, id))) i ∧
      ∀ t', t' ≠ t → sp_incidents sp !! (t', id) = None
  | None => owned t id s = (Err IncidentNotFound, s)
  end.
Proof.
  intros R. unfold owned, sbind, sget.
  destruct (sp_incidents sp !! (t, id)) as [i|] eqn:Hi.
  - destruct (mr_bwd _ _ R _ _ _ Hi) as (m & Hm & <-). exists m.
    rewrite Hm, bool_decide_eq_true_2 by done. split_and!; try done.
    + destruct (mr_fwd _ _ R _ _ Hm) as (i' & Hi' & Hrel). by simplify_eq.
    + intros t' Hne. destruct (sp_incidents sp !! (t', id)) as [i'|] eqn:Hi'; [|done].
      destruct (mr_bwd _ _ R _ _ _ Hi') as (m' & Hm' & Ht'). congruence.
  - destruct (incidents s !! id) as [m|] eqn:Hm; [|done].
    case_bool_decide as Ht; [|done]. subst t.
    destruct (mr_fwd _ _ R _ _ Hm) as (i' & Hi' & _). congruence.
Qed.

(** A body refines [spec_body]. *)
Definition body_ok (op : store_op) (env : Env) (s : MemoryIncidentStore) (sp : Spec)
    (body : StoreM response) : Prop :=
  ∃ ret, match spec_body memory_policy ret op env (sp_incidents sp) with
         | Ok (r, incs) => ∃ s1, body s = (Ok r, s1) ∧
             mem_rel s1 {| sp_incidents := incs; sp_idem := sp_idem sp |}
         | Err e => body s = (Err e, s)
         end.

Definition step_ok (op : store_op) (env : Env) (s : MemoryIncidentStore) (sp : Spec) : Prop :=
  ∃ ret s', memory_step op env s = ((spec_step memory_policy ret op env sp).1, s') ∧
    mem_rel s' (spec_step memory_policy ret op env sp).2.

Lemma once_run slot digest body s :
  once slot digest body s =
  match idempotency s !! slot with
  | Some (d, r) =>
      (if bool_decide (d = digest) then Ok (r, false) else Err IdempotencyConflict, s)
  | None =>
      match body s with
      | (Ok r, s1) => (Ok (r, true), with_idempotency <[slot := (digest, r)]> s1)
      | (Err e, s1) => (Err e, s1)
      end
  end.
Proof.
  unfold once, sbind, sget. destruct (idempotency s !! slot) as [[d r]|].
  - by case_bool_decide.
  - by destruct (body s) as [[r|e] s1].
Qed.

Lemma once_ok op env s sp slot digest body :
  mem_rel s sp → op_slot op = Some (slot, digest) → body_ok op env s sp body →
  memory_step op env s =
    (let! (r, b) := once slot digest body in sret (OutResponse r b)) s →
  step_ok op env s sp.
Proof.
  intros R Hslot (ret & Hbody) Hstep. exists ret. rewrite Hstep.
  unfold spec_step. rewrite Hslot, <-(mr_idem _ _ R). unfold sbind at 1. rewrite once_run.
  destruct (idempotency s !! slot) as [[d r]|] eqn:Hs.
  - exists s. by case_bool_decide.
  - destruct (spec_body _ _ _ _ _) as [[r incs]|e].
    + destruct Hbody as (s1 & -> & R1). eexists. split; [done|]. cbn [snd].
      rewrite (mr_idem _ _ R). exact (mem_rel_idem _ _ slot (digest, r) R1).
    + rewrite Hbody. exists s. done.
Qed.

(** ** Each operation *)

Lemma create_ok t k req env s sp :
  mem_rel s sp → clock_ok s env → fresh_id (OpCreate t k req) env sp →
  step_ok (OpCreate t k req) env s sp.
Proof.
  intros R Hclock Hfresh.
  eapply once_ok; [done|done| |unfold memory_step, create; reflexivity].
  set (id := "inc_" +:+ env_hex env) in *. cbn [fresh_id] in Hfresh. fold id in Hfresh.
  set (s0 := with_incidents <[id := new_incident t id "0" req]> s).
  destruct (append_locked_ok t id "EVT-INCIDENT-CREATED" (sdict [("state", VStr "NEW")]) env s0 [] 0)
    as (ret & Hret & Happ); try done.
  { simpl. by rewrite (mr_events _ _ R) by apply Hfresh. }
  { right. done. }
  { apply (mr_count _ _ R). }
  exists ret. eexists. split.
  { unfold sbind, smodify. fold s0. rewrite Happ. reflexivity. }
  eapply (mem_rel_write s _ _ _ (new_incident t id "1" req)); try done.
  - constructor; try done. apply (numbered_snoc 0 []); [|done]. intros j e. by rewrite lookup_nil.
  - simpl. by rewrite insert_insert_eq.
Qed.

Lemma get_ok t id env s sp : mem_rel s sp → step_ok (OpGet t id) env s sp.
Proof.
  intros R. exists O, s. pose proof (owned_ok s sp t id R) as Ho. cbn.
  destruct (sp_incidents sp !! (t, id)) as [i|].
  - destruct Ho as (m & Ho & _ & _ & Hrel & _). unfold get, sbind. rewrite Ho.
    by rewrite (ir_snapshot _ _ _ _ Hrel).
  - unfold get, sbind. by rewrite Ho.
Qed.

(** What the operations on an existing incident share: find it, check it, append
    an event, rewrite it. *)
Lemma write_ok op env s sp t id (body : StoreM response) :
  mem_rel s sp → clock_ok s env →
  (sp_incidents sp !! (t, id) = None →
     (∀ ret, spec_body memory_policy ret op env (sp_incidents sp) = Err IncidentNotFound) ∧
     body s = (Err IncidentNotFound, s)) →
  (∀ i m, sp_incidents sp !! (t, id) = Some i → owned t id s = (Ok m, s) →
     incidents s !! id = Some m → incident_rel id m (default [] (events s !! (t, id))) i →
     (∃ e, (∀ ret, spec_body memory_policy ret op env (sp_incidents sp) = Err e) ∧
           body s = (Err e, s)) ∨
     ∃ ty payload r upd (i' : nat → spec_incident) m',
       (∀ ret, spec_body memory_policy ret op env (sp_incidents sp) =
          Ok (r, <[(t, id) := i' ret]> (sp_incidents sp))) ∧
       in_tenant_id m' = in_tenant_id m ∧
       (∀ s1, incidents s1 = incidents s → incidents (upd s1) = <[id := m']> (incidents s1) ∧
          events (upd s1) = events s1 ∧ idempotency (upd s1) = idempotency s1 ∧
          retention_count (upd s1) = retention_count s1) ∧
       (∀ event s1, append_locked t id ty payload env s = (Ok event, s1) →
          event = next_event memory_policy id ty payload env (si_log i) →
          body s = (Ok r, upd s1)) ∧
       (∀ ret, let event := next_event memory_policy id ty payload env (si_log i) in
          ret < length (si_log i ++ [event]) →
          incident_rel id m' (drop ret (si_log i ++ [event])) (i' ret))) →
  body_ok op env s sp body.
Proof.
  intros R Hclock Hnone Hsome. pose proof (owned_ok s sp t id R) as Ho.
  destruct (sp_incidents sp !! (t, id)) as [i|] eqn:Hi.
  2: { destruct (Hnone eq_refl) as [H1 H2]. exists O. by rewrite H1. }
  destruct Ho as (m & Ho & Ht & Hm & Hrel & Hother).
  destruct (Hsome i m eq_refl Ho Hm Hrel) as [(e & H1 & H2)|
    (ty & payload & r & upd & i' & m' & Hspec & Ht' & Hupd & Hbody & Hrel')].
  { exists O. by rewrite H1. }
  destruct (append_locked_ok t id ty payload env s (si_log i) (si_dropped i))
    as (ret & Hret & Happ); try done.
  { by rewrite (ir_events _ _ _ _ Hrel). }
  { apply (ir_numbered _ _ _ _ Hrel). }
  { left. apply (ir_kept _ _ _ _ Hrel). }
  { apply (mr_count _ _ R). }
  exists ret. rewrite Hspec. eexists. split; [by eapply Hbody|].
  set (s1 := after_append _ _ _ s).
  destruct (Hupd s1 eq_refl) as (Hu1 & Hu2 & Hu3 & Hu4).
  eapply (mem_rel_write s _ _ _ m'); try done; try congruence; [by apply Hrel'|].
  by rewrite Hu2.
Qed.

Lemma cancel_ok t id k v env s sp :
  mem_rel s sp → clock_ok s env → step_ok (OpCancel t id k v) env s sp.
Proof.
  intros R Hclock.
  eapply once_ok; [done|done| |unfold memory_step, cancel; reflexivity].
  eapply (write_ok _ _ _ _ t id); [done|done| |].
  - intros Hi. cbn. rewrite Hi. split; [done|]. unfold sbind.
    pose proof (owned_ok s sp t id R) as Ho. rewrite Hi in Ho. by rewrite Ho.
  - intros i m Hi Ho Hm Hrel. cbn [spec_body]. rewrite Hi. cbn [from_option_or rbind].
    unfold sbind, sguard, smodify, sret. rewrite Ho.
    pose proof (ir_snapshot _ _ _ _ Hrel) as Hs. rewrite Hs. cbn [snapshot_of sn_state_version sn_state].
    destruct (si_version i =? v)%Z eqn:Hv; cbn [negb]; [|left; eexists; split; [done|done]].
    case_bool_decide as Ht; [left; eexists; split; [done|done]|].
    right. set (cursor := (Z.of_nat (length (si_log i)) + 1)%Z).
    set (snapshot := cancelled_snapshot v (int_repr cursor) (snapshot_of id i)).
    set (m' := set_snapshot snapshot m).
    eexists "EVT-INCIDENT-CANCEL-REQUESTED", (sdict []), (RSnapshot snapshot),
      (with_incidents <[id := m']>), (λ ret, _), m'.
    split_and!; [done|done|by intros s1|by intros event s1 -> ->|].
    intros ret Hret. constructor; try done.
    + apply (ir_pending _ _ _ _ Hrel).
    + apply numbered_snoc; [apply (ir_numbered _ _ _ _ Hrel)|]. simpl. lia.
Qed.

Lemma feedback_ok t u id k r env s sp :
  mem_rel s sp → clock_ok s env → step_ok (OpFeedback t u id k r) env s sp.
Proof.
  intros R Hclock.
  eapply once_ok; [done|done| |unfold memory_step, feedback; reflexivity].
  eapply (write_ok _ _ _ _ t id); [done|done| |].
  - intros Hi. cbn. rewrite Hi. split; [done|]. unfold sbind.
    pose proof (owned_ok s sp t id R) as Ho. rewrite Hi in Ho. by rewrite Ho.
  - intros i m Hi Ho Hm Hrel. cbn [spec_body]. rewrite Hi. cbn [from_option_or rbind].
    unfold sbind, sguard, smodify, sret. rewrite Ho.
    pose proof (ir_snapshot _ _ _ _ Hrel) as Hs. rewrite Hs. cbn [snapshot_of sn_state_version].
    destruct (_ =? _)%Z eqn:Hv; cbn [negb]; [|left; eexists; split; [done|done]].
    right. eexists "EVT-INCIDENT-FEEDBACK-RECORDED", _, _, (λ s, s), (λ ret, _), m.
    split_and!; [done|done| |by intros event s1 -> ->|].
    { intros s1 Hs1. by rewrite insert_id by by rewrite Hs1. }
    intros ret Hret. constructor; try done.
    + apply (ir_pending _ _ _ _ Hrel).
    + apply numbered_snoc; [apply (ir_numbered _ _ _ _ Hrel)|]. simpl. lia.
Qed.

Lemma pending_lookup p a d : pending_map p !! a = Some d ↔ p = Some (a, d).
Proof.
  destruct p as [[a' d']|]; simpl; [|by rewrite lookup_empty].
  rewrite lookup_singleton_Some. split; [by intros [-> ->]|by intros [= -> ->]].
Qed.

Lemma approval_ok t id k r env s sp :
  mem_rel s sp → clock_ok s env → step_ok (OpApproval t id k r) env s sp.
Proof.
  intros R Hclock.
  eapply once_ok; [done|done| |unfold memory_step, approval; reflexivity].
  eapply (write_ok _ _ _ _ t id); [done|done| |].
  - intros Hi. cbn. rewrite Hi. split; [done|]. unfold sbind.
    pose proof (owned_ok s sp t id R) as Ho. rewrite Hi in Ho. by rewrite Ho.
  - intros i m Hi Ho Hm Hrel. cbn [spec_body]. rewrite Hi. cbn [from_option_or rbind].
    unfold sbind, sguard, smodify, sret. rewrite Ho.
    pose proof (ir_snapshot _ _ _ _ Hrel) as Hs. rewrite Hs. cbn [snapshot_of sn_state_version].
    destruct (_ =? _)%Z eqn:Hv; cbn [negb]; [|left; eexists; split; [done|done]].
    rewrite (ir_pending _ _ _ _ Hrel).
    rewrite (bool_decide_ext (pending_map _ !! _ ≠ _)
      (in_pending_action m ≠ Some (ar_action_id r, ar_action_digest r)))
      by by rewrite pending_lookup.
    case_bool_decide as Hp; [left; eexists; split; [done|done]|].
    right. eexists "EVT-ACTION-APPROVAL-DECIDED", _, _,
      (with_incidents (alter clear_pending id)), (λ ret, _), (clear_pending m).
    split_and!; [done|done| |by intros event s1 -> ->|].
    { intros s1 Hs1. split_and!; try done. simpl. rewrite <-Hs1 in Hm. by apply alter_some. }
    intros ret Hret. constructor; try done.
    + simpl. rewrite (ir_pending _ _ _ _ Hrel), Hp. simpl. by rewrite delete_singleton_eq.
    + apply numbered_snoc; [apply (ir_numbered _ _ _ _ Hrel)|]. simpl. lia.
Qed.

Lemma head_drop {A} n (l : list A) x l' : drop n l = x :: l' → l !! n = Some x.
Proof. intros H. rewrite <-(Nat.add_0_r n), <-lookup_drop, H. done. Qed.

Lemma last_drop {A} n (l : list A) : n < length l → last (drop n l) = last l.
Proof.
  intros H. rewrite !last_lookup, lookup_drop, length_drop. f_equal. lia.
Qed.

Lemma replay_ok t id last_id env s sp :
  mem_rel s sp → step_ok (OpReplay t id last_id) env s sp.
Proof.
  intros R. exists O, s. pose proof (owned_ok s sp t id R) as Ho.
  unfold memory_step, spec_step. cbn [op_slot fst snd]. split; [|done].
  unfold replay, sbind, sget, sguard, sret, sraise.
  destruct (sp_incidents sp !! (t, id)) as [i|]; [|by rewrite Ho].
  destruct Ho as (m & Ho & _ & _ & Hrel & _). rewrite Ho. cbn [from_option_or rbind].
  pose proof (ir_kept _ _ _ _ Hrel) as Hk. pose proof (ir_numbered _ _ _ _ Hrel) as Hn.
  rewrite (ir_events _ _ _ _ Hrel). unfold spec_replay.
  destruct last_id as [text|]; [|done]. destruct (py_int text) as [c|]; [|done].
  cbn [from_option_or rbind]. rewrite last_drop by done.
  destruct (last (si_log i)) as [el|] eqn:Hl.
  2: { apply last_None in Hl. rewrite Hl in Hk. simpl in Hk. lia. }
  rewrite (numbered_last _ _ _ Hn Hl), Z.add_0_l.
  destruct (_ || _)%bool eqn:Hbad; [done|].
  destruct (drop (si_dropped i) (si_log i)) as [|e evs] eqn:Hd.
  { apply (f_equal length) in Hd. rewrite length_drop in Hd. simpl in Hd. lia. }
  rewrite (Hn _ _ (head_drop _ _ _ _ Hd)), Z.add_0_l.
  replace (Z.of_nat (si_dropped i) + 1 - 1)%Z with (Z.of_nat (si_dropped i)) by lia.
  destruct (c <? Z.of_nat (si_dropped i))%Z eqn:Hc; [done|]. apply Z.ltb_ge in Hc.
  rewrite <-Hd, (numbered_filter (0 + Z.of_nat (si_dropped i))); [|by apply numbered_drop|lia].
  rewrite drop_drop.
  by replace (si_dropped i + Z.to_nat (c - (0 + Z.of_nat (si_dropped i))))%nat with (Z.to_nat c)
    by lia.
Qed.

Lemma memory_step_ok op env s sp :
  mem_rel s sp → clock_ok s env → fresh_id op env sp → step_ok op env s sp.
Proof.
  intros R Hc Hf. destruct op.
  - by apply create_ok.
  - by apply get_ok.
  - by apply cancel_ok.
  - by apply feedback_ok.
  - by apply approval_ok.
  - by apply replay_ok.
Qed.

Lemma mem_rel_new count age :
  (1 ≤ count)%Z → mem_rel (new_store count age) {| sp_incidents := ∅; sp_idem := ∅ |}.
Proof.
  intros H. constructor; simpl; try done; intros *; rewrite ?lookup_empty; done.
Qed.
