(* ===== verification/PgRefine.v ===== *)
(** * [PostgresIncidentStore] implements the contract

    The transactions of the durable store give the answers of the same
    specification as the memory store, without retention ([ret = 0]: the code
    never deletes an event), and a UNIQUE constraint is never violated while
    identifiers are fresh. *)
From Stdlib Require Import Ascii DecimalString.
From S2P Require Import Prelude Json JsonFacts Sha256 Kernel PyDyn Store.
From S2P Require Import StoreSpec PgStore.

Lemma int_repr_digits z : (0 ≤ z)%Z → str_all is_digit (int_repr z) = true.
Proof.
  intros Hz. unfold int_repr. destruct z as [|p|p]; [done| |lia].
  cbn [Z.to_int NilZero.string_of_int].
  destruct (Pos.to_uint p); [done|..]; apply all_digits_uint.
Qed.

Lemma int_repr_inj a b : int_repr a = int_repr b → a = b.
Proof. intros H. pose proof (py_int_repr a) as Ha. rewrite H, py_int_repr in Ha. congruence. Qed.

Lemma underscore_split a b d e :
  str_all is_digit d = true → str_all is_digit e = true →
  a +:+ String "_" d = b +:+ String "_" e → a = b ∧ d = e.
Proof.
  intros Hd He. revert b. induction a as [|c a IH]; intros [|c' b] H;
    rewrite ?app_nil_str, ?app_cons_str in H.
  - by injection H as ->.
  - injection H as _ ->. rewrite str_all_app in Hd. simpl in Hd. by rewrite andb_false_r in Hd.
  - injection H as _ <-. rewrite str_all_app in He. simpl in He. by rewrite andb_false_r in He.
  - injection H as -> H. by destruct (IH b H) as [-> ->].
Qed.

Definition event_id_of (incident_id : string) (sequence : Z) : string :=
  "evt_" +:+ str_drop 4 incident_id +:+ "_" +:+ int_repr sequence.

Lemma event_id_inj x y n m :
  (0 ≤ n)%Z → (0 ≤ m)%Z →
  event_id_of ("inc_" +:+ x) n = event_id_of ("inc_" +:+ y) m → x = y ∧ n = m.
Proof.
  intros Hn Hm H. unfold event_id_of in H.
  change 4%nat with (String.length "inc_") in H. rewrite !str_drop_app in H.
  apply string_app_inj_len in H as [_ H]; [|done].
  rewrite !app_cons_str, !app_nil_str in H.
  apply underscore_split in H as [-> H%int_repr_inj]; auto using int_repr_digits.
Qed.

Section Refine.
Context (jsonb : val → val).

Definition pg_policy : Policy :=
  {| refresh_cursor := true; keep_user := false; stored := jsonb |}.

Definition pg_step (op : store_op) (env : Env) : PgM store_out :=
  match op with
  | OpCreate t k r => let! (r, b) := pg_create jsonb t k r env in sret (OutResponse r b)
  | OpGet t id => let! s := pg_get t id in sret (OutSnapshot s)
  | OpCancel t id k v => let! (r, b) := pg_cancel jsonb t id k v env in sret (OutResponse r b)
  | OpFeedback t u id k r =>
      let! (r, b) := pg_feedback jsonb t u id k r env in sret (OutResponse r b)
  | OpApproval t id k r => let! (r, b) := pg_approval jsonb t id k r env in sret (OutResponse r b)
  | OpReplay t id last => let! evs := pg_replay t id last in sret (OutEvents evs)
  end.

Definition rows_of (t id : string) (s : PostgresIncidentStore) : list IncidentEvent :=
  (filter (λ row : string * IncidentEvent, row.1 = t ∧ ev_incident_id row.2 = id) (t_event s)).*2.

Record row_rel (s : PostgresIncidentStore) (t id : string) (row : incident_row)
    (i : spec_incident) : Prop := {
  rr_state : row_state row = si_state i;
  rr_version : row_state_version row = si_version i;
  rr_cursor : row_event_cursor row = Z.of_nat (length (si_log i));
  rr_si_cursor : si_cursor i = Z.of_nat (length (si_log i));
  rr_report : row_final_report_ref row = si_report i;
  rr_log : rows_of t id s = si_log i;
  rr_dropped : si_dropped i = O;
  rr_numbered : numbered_from 0 (si_log i);
  rr_pending : ∀ a, t_pending_approval s !! (t, id, a) = si_pending i !! a;
}.

Record pg_rel (s : PostgresIncidentStore) (sp : Spec) : Prop := {
  pr_connected : connected s = true;
  pr_idem : (λ row, (row_request_digest row, row_response row)) <$> t_idempotency s = sp_idem sp;
  pr_row : ∀ t id row, t_incident s !! (t, id) = Some row →
    ∃ i, sp_incidents sp !! (t, id) = Some i ∧ row_rel s t id row i;
  pr_inc : ∀ t id i, sp_incidents sp !! (t, id) = Some i → is_Some (t_incident s !! (t, id));
  pr_event : ∀ row, row ∈ t_event s →
    ev_event_id row.2 = event_id_of (ev_incident_id row.2) (ev_sequence row.2) ∧
    is_Some (sp_incidents sp !! (row.1, ev_incident_id row.2));
  pr_pending : ∀ t id a, is_Some (t_pending_approval s !! (t, id, a)) →
    is_Some (sp_incidents sp !! (t, id));
  pr_prefix : ∀ t id i, sp_incidents sp !! (t, id) = Some i → ∃ x, id = "inc_" +:+ x;
  pr_tenant : ∀ t t' id i i', sp_incidents sp !! (t, id) = Some i →
    sp_incidents sp !! (t', id) = Some i' → t = t';
}.

(** What a call relies on: fresh identifiers, and a cursor text that parses. *)
Definition pg_call_ok (op : store_op) (env : Env) (s : PostgresIncidentStore) (sp : Spec) : Prop :=
  match op with
  | OpCreate _ _ _ => ∀ t, sp_incidents sp !! (t, "inc_" +:+ env_hex env) = None
  | OpFeedback _ _ _ _ _ => t_feedback s !! ("feedback_" +:+ env_hex env) = None
  | OpReplay _ _ (Some text) => ∃ c, py_int text = Some c ∧ (0 ≤ c)%Z
  | _ => True
  end.

Definition pg_step_ok (op : store_op) (env : Env) (s : PostgresIncidentStore) (sp : Spec) : Prop :=
  ∃ s', pg_step op env s = (rmap_err PgStore (spec_step pg_policy 0 op env sp).1, s') ∧
    pg_rel s' (spec_step pg_policy 0 op env sp).2.

(** ** Inserting an event *)

Lemma rows_of_sequence s sp t id row i e :
  pg_rel s sp → t_incident s !! (t, id) = Some row → sp_incidents sp !! (t, id) = Some i →
  row_rel s t id row i → (t, e) ∈ t_event s → ev_incident_id e = id →
  (1 ≤ ev_sequence e ≤ Z.of_nat (length (si_log i)))%Z.
Proof.
  intros R Hrow Hi Hr Hin Hid.
  assert (e ∈ si_log i) as He.
  { rewrite <-(rr_log _ _ _ _ _ Hr). unfold rows_of. apply list_elem_of_fmap.
    exists (t, e). split; [done|]. by apply list_elem_of_filter. }
  apply list_elem_of_lookup in He as [j Hj]. rewrite (rr_numbered _ _ _ _ _ Hr _ _ Hj).
  apply lookup_lt_Some in Hj. lia.
Qed.

Lemma event_sequence_pos s sp row :
  pg_rel s sp → row ∈ t_event s →
  ∃ i x, sp_incidents sp !! (row.1, ev_incident_id row.2) = Some i ∧
    ev_incident_id row.2 = "inc_" +:+ x ∧
    (1 ≤ ev_sequence row.2 ≤ Z.of_nat (length (si_log i)))%Z.
Proof.
  intros R Hin. destruct (pr_event _ _ R _ Hin) as [_ [i Hi]].
  destruct (pr_prefix _ _ R _ _ _ Hi) as [x Hx].
  destruct (pr_inc _ _ R _ _ _ Hi) as [r Hr].
  destruct (pr_row _ _ R _ _ _ Hr) as (i' & Hi' & Hrel). simplify_eq.
  exists i, x. split_and!; [done|done|..];
    eapply (rows_of_sequence s sp row.1 _ r i row.2); eauto; by destruct row.
Qed.

(** The next event of an incident violates no constraint. *)
Lemma insert_event_ok s sp t x i ty payload env :
  let id := "inc_" +:+ x in
  pg_rel s sp →
  (∀ t', t' ≠ t → sp_incidents sp !! (t', id) = None) →
  default [] (si_log <$> sp_incidents sp !! (t, id)) = i →
  let e := make_event id (Z.of_nat (length i) + 1) ty env payload in
  ∀ s', t_event s' = t_event s →
  insert_event jsonb t e s' = (Ok tt, add_event (t, stored_event jsonb e) s').
Proof.
  intros id R Hother Hlog e s' Hs'. unfold insert_event, sbind, sget, pg_guard, sguard, smodify.
  rewrite Hs'. destruct (existsb _ _) eqn:Hex; [exfalso|done].
  apply existsb_exists in Hex as (row & Hin%list_elem_of_In & Hbad).
  destruct (event_sequence_pos s sp row R Hin) as (i' & y & Hi' & Hy & Hseq).
  assert (ev_incident_id row.2 = id ∧ ev_sequence row.2 = (Z.of_nat (length i) + 1)%Z) as [Hid Hs].
  { apply orb_true_iff in Hbad as [Hbad|Hbad]; apply bool_decide_eq_true in Hbad; [|naive_solver].
    rewrite (proj1 (pr_event _ _ R _ Hin)), Hy in Hbad.
    apply event_id_inj in Hbad as [-> ->]; [done|lia|lia]. }
  rewrite Hid in Hi'. destruct (decide (row.1 = t)) as [E|E].
  - rewrite E in Hi'. rewrite Hi' in Hlog. simpl in Hlog. subst i. lia.
  - rewrite Hother in Hi'; done.
Qed.
(** ** Updating the simulation *)

Lemma rows_of_snoc t id s s' row :
  t_event s' = t_event s ++ [row] →
  rows_of t id s' = rows_of t id s ++
    (if decide (row.1 = t ∧ ev_incident_id row.2 = id) then [row.2] else []).
Proof.
  intros H. unfold rows_of. rewrite H, filter_app, fmap_app. f_equal.
  rewrite filter_cons, filter_nil. by case_decide.
Qed.

Lemma row_rel_frame s s' t id row i :
  row_rel s t id row i → rows_of t id s' = rows_of t id s →
  (∀ a, t_pending_approval s' !! (t, id, a) = t_pending_approval s !! (t, id, a)) →
  row_rel s' t id row i.
Proof.
  intros [] Hrows Hp. constructor; try done; [by rewrite Hrows|]. intros a. by rewrite Hp.
Qed.

Lemma pg_rel_write s sp t x row' i' e s' :
  let id := "inc_" +:+ x in
  pg_rel s sp →
  (∀ t', t' ≠ t → sp_incidents sp !! (t', id) = None) →
  connected s' = connected s → t_idempotency s' = t_idempotency s →
  t_incident s' = <[(t, id) := row']> (t_incident s) →
  t_event s' = t_event s ++ [(t, e)] →
  ev_incident_id e = id → ev_event_id e = event_id_of id (ev_sequence e) →
  (∀ t' id' a, (t', id') ≠ (t, id) →
     t_pending_approval s' !! (t', id', a) = t_pending_approval s !! (t', id', a)) →
  row_rel s' t id row' i' →
  pg_rel s' {| sp_incidents := <[(t, id) := i']> (sp_incidents sp); sp_idem := sp_idem sp |}.
Proof.
  intros id R Hother Hc Hidem Hinc Hev Heid Heventid Hpend Hrel. constructor; simpl.
  - rewrite Hc. apply (pr_connected _ _ R).
  - rewrite Hidem. apply (pr_idem _ _ R).
  - intros t0 id0 row. rewrite Hinc. intros [[[= <- <-] <-]|[Hne Hrow]]%lookup_insert_Some.
    + exists i'. by rewrite lookup_insert_eq.
    + destruct (pr_row _ _ R _ _ _ Hrow) as (i & Hi & Hr). exists i.
      rewrite lookup_insert_ne by done. split; [done|].
      eapply row_rel_frame; [done| |intros a; apply Hpend; congruence].
      rewrite (rows_of_snoc _ _ _ _ _ Hev), decide_False; [by rewrite app_nil_r|].
      simpl. intros [-> <-]. by rewrite Heid in Hne.
  - intros t0 id0 i0. rewrite Hinc.
    intros [[[= <- <-] <-]|[Hne Hi]]%lookup_insert_Some; [by rewrite lookup_insert_eq|].
    rewrite lookup_insert_ne by done. by apply (pr_inc _ _ R _ _ i0).
  - intros row. rewrite Hev, elem_of_app, list_elem_of_singleton. intros [Hin| ->].
    + destruct (pr_event _ _ R _ Hin) as [He [i Hi]]. split; [done|].
      rewrite lookup_insert. case_decide; eauto.
    + simpl. rewrite Heid, lookup_insert_eq. split; [done|eauto].
  - intros t0 id0 a Ha. destruct (decide ((t0, id0) = (t, id))) as [[= -> ->]|Hne].
    + by rewrite lookup_insert_eq.
    + rewrite lookup_insert_ne by congruence. apply (pr_pending _ _ R _ _ a). by rewrite <-Hpend.
  - intros t0 id0 i0 [[[= <- <-] <-]|[_ Hi]]%lookup_insert_Some; [by exists x|].
    by apply (pr_prefix _ _ R _ _ _ Hi).
  - intros t1 t2 id0 i1 i2 H1 H2. destruct (decide (id0 = id)) as [->|Hne].
    + assert (∀ t0 i0, <[(t, id) := i']> (sp_incidents sp) !! (t0, id) = Some i0 → t0 = t) as Ht.
      { intros t0 i0. destruct (decide (t0 = t)) as [|Hne]; [done|].
        rewrite lookup_insert_ne by congruence. by rewrite Hother. }
      by rewrite (Ht _ _ H1), (Ht _ _ H2).
    + rewrite lookup_insert_ne in H1, H2 by congruence. by eapply (pr_tenant _ _ R).
Qed.

Lemma pg_rel_objects s sp f g n : pg_rel s sp → pg_rel (set_objects f g n s) sp.
Proof.
  intros [Hc Hi Hr Hb He Hpe Hp Ht]. constructor; try done.
  intros t id row Hrow. destruct (Hr t id row Hrow) as (i & Hi' & []). by exists i.
Qed.

Lemma pg_rel_idem s sp slot digest r status :
  pg_rel s sp →
  pg_rel (set_idempotency slot
            {| row_request_digest := digest; row_response := r; row_http_status := status |} s)
    {| sp_incidents := sp_incidents sp; sp_idem := <[slot := (digest, r)]> (sp_idem sp) |}.
Proof.
  intros [Hc Hi Hr Hb He Hpe Hp Ht]. constructor; simpl; try done.
  - by rewrite fmap_insert, Hi.
  - intros t id row Hrow. destruct (Hr t id row Hrow) as (i & Hi' & []). by exists i.
Qed.

(** ** Transactions *)

Definition pg_body_ok (op : store_op) (env : Env) (s : PostgresIncidentStore) (sp : Spec)
    (body : PgM (response * IncidentEvent)) : Prop :=
  match spec_body pg_policy 0 op env (sp_incidents sp) with
  | Ok (r, incs) => ∃ e s1, body s = (Ok (r, e), s1) ∧ t_idempotency s1 = t_idempotency s ∧
      pg_rel s1 {| sp_incidents := incs; sp_idem := sp_idem sp |}
  | Err err => ∃ s1, body s = (Err (PgStore err), s1)
  end.

Lemma pg_once_ok op env s sp slot digest status body :
  pg_rel s sp → op_slot op = Some (slot, digest) → pg_body_ok op env s sp body →
  pg_step op env s =
    (let! (r, b) := publishing (op_tenant op) (pg_once slot digest status body) in
     sret (OutResponse r b)) s →
  pg_step_ok op env s sp.
Proof.
  intros R Hslot Hbody Hstep. unfold pg_step_ok. rewrite Hstep. unfold spec_step. rewrite Hslot.
  unfold publishing, pool, sguard, sbind, sget, sret, pg_once, atomically, idempotent.
  unfold sbind, sget, sret. rewrite (pr_connected _ _ R). cbn [negb].
  rewrite <-(pr_idem _ _ R), lookup_fmap.
  destruct (t_idempotency s !! slot) as [row|] eqn:Hs; cbn [fmap option_fmap option_map].
  - exists s. by case_bool_decide.
  - unfold pg_body_ok in Hbody. destruct (spec_body _ _ _ _ _) as [[r incs]|err].
    + destruct Hbody as (e & s1 & -> & Hidem & R1).
      unfold save_idempotency, pg_guard, sguard, sbind, sget, smodify. rewrite Hidem, Hs.
      rewrite bool_decide_eq_false_2 by (by intros [? [=]]). eexists. split; [done|].
      cbn [snd]. rewrite (pr_idem _ _ R). apply pg_rel_objects.
      exact (pg_rel_idem _ _ slot digest r status R1).
    + destruct Hbody as [s1 ->]. exists s. done.
Qed.

Lemma existing_prefix s sp t id i :
  pg_rel s sp → sp_incidents sp !! (t, id) = Some i →
  (∃ x, id = "inc_" +:+ x) ∧ ∀ t', t' ≠ t → sp_incidents sp !! (t', id) = None.
Proof.
  intros R Hi. split; [by eapply pr_prefix|]. intros t' Hne.
  destruct (sp_incidents sp !! (t', id)) as [i'|] eqn:Hi'; [|done].
  destruct Hne. by eapply (pr_tenant _ _ R).
Qed.

Lemma lock_ok s sp t id :
  pg_rel s sp →
  match sp_incidents sp !! (t, id) with
  | Some i => ∃ row, lock_incident t id s = (Ok row, s) ∧ t_incident s !! (t, id) = Some row ∧
      row_rel s t id row i
  | None => lock_incident t id s = (Err (PgStore IncidentNotFound), s)
  end.
Proof.
  intros R. unfold lock_incident, sbind, sget, pg_raise, sraise, sret.
  destruct (sp_incidents sp !! (t, id)) as [i|] eqn:Hi.
  - destruct (pr_inc _ _ R _ _ _ Hi) as [row Hrow].
    destruct (pr_row _ _ R _ _ _ Hrow) as (i' & Hi' & Hr). simplify_eq.
    exists row. by rewrite Hrow.
  - destruct (t_incident s !! (t, id)) as [row|] eqn:Hrow; [|done].
    destruct (pr_row _ _ R _ _ _ Hrow) as (i' & Hi' & _). congruence.
Qed.
(** ** Each operation *)

Lemma row_rel_append s s' t id i row' i' ty payload env refresh :
  rows_of t id s = si_log i → numbered_from 0 (si_log i) →
  t_event s' = t_event s ++ [(t, next_event pg_policy id ty payload env (si_log i))] →
  row_event_cursor row' = (Z.of_nat (length (si_log i)) + 1)%Z →
  i' = appended pg_policy 0 id ty payload env refresh i ∨
  si_log i' = si_log (appended pg_policy 0 id ty payload env refresh i) ∧ si_dropped i' = O →
  si_cursor i' = (Z.of_nat (length (si_log i)) + 1)%Z →
  row_state row' = si_state i' → row_state_version row' = si_version i' →
  row_final_report_ref row' = si_report i' →
  (∀ a, t_pending_approval s' !! (t, id, a) = si_pending i' !! a) →
  row_rel s' t id row' i'.
Proof.
  intros Hrows Hnum Hev Hcur Hi' Hsc Hst Hv Hr Hp.
  assert (si_log i' = si_log i ++ [next_event pg_policy id ty payload env (si_log i)] ∧
          si_dropped i' = O) as [Hlog Hd] by (destruct Hi' as [->|[-> ->]]; done).
  assert (length (si_log i') = S (length (si_log i))) as Hlen
    by (rewrite Hlog, length_app; simpl; lia).
  constructor; try done.
  - rewrite Hcur, Hlen. lia.
  - rewrite Hsc, Hlen. lia.
  - rewrite (rows_of_snoc _ _ _ _ _ Hev), Hrows, Hlog. simpl. by rewrite decide_True.
  - rewrite Hlog. apply numbered_snoc; [done|]. simpl. lia.
Qed.

Lemma rows_of_absent s sp t id :
  pg_rel s sp → sp_incidents sp !! (t, id) = None → rows_of t id s = [].
Proof.
  intros R Hn. unfold rows_of.
  rewrite (proj2 (filter_nil_iff _ (t_event s))); [done|].
  intros row Hin [<- <-]. destruct (pr_event _ _ R _ Hin) as [_ [i Hi]]. congruence.
Qed.

Lemma pg_create_ok t k req env s sp :
  pg_rel s sp → pg_call_ok (OpCreate t k req) env s sp → pg_step_ok (OpCreate t k req) env s sp.
Proof.
  intros R Hfresh. cbn in Hfresh.
  eapply pg_once_ok; [done|done| |unfold pg_step, pg_create, pg_create_tx; reflexivity].
  unfold pg_body_ok. cbn [spec_body].
  set (id := "inc_" +:+ env_hex env) in *.
  assert (t_incident s !! (t, id) = None) as Hno.
  { apply eq_None_not_Some. intros [row Hrow].
    destruct (pr_row _ _ R _ _ _ Hrow) as (i & Hi & _). by rewrite Hfresh in Hi. }
  set (row := {| row_state := "NEW"; row_state_version := 0; row_event_cursor := 1;
    row_final_report_ref := None; row_spec := jsonb req |}).
  set (s0 := set_incident <[(t, id) := row]> s).
  set (e := make_event id 1 "EVT-INCIDENT-CREATED" (env_occurred_at env)
              (sdict [("state", VStr "NEW")])).
  assert (insert_event jsonb t e s0 = (Ok tt, add_event (t, stored_event jsonb e) s0)) as Hins.
  { apply (insert_event_ok s sp t (env_hex env) []); try done. by rewrite Hfresh. }
  exists e, (add_event (t, stored_event jsonb e) s0). split_and!; [|done|].
  { unfold sbind, sget, pg_guard, sguard, smodify. rewrite Hno.
    rewrite bool_decide_eq_false_2 by (by intros [? [=]]). fold row s0 e. by rewrite Hins. }
  apply (pg_rel_write s sp t (env_hex env) row _ (stored_event jsonb e)); try done.
  eapply (row_rel_append s _ _ _ {| si_state := "NEW"; si_version := 0; si_cursor := 0;
    si_report := None; si_pending := ∅; si_log := []; si_dropped := 0 |}); try done.
  - by eapply rows_of_absent.
  - by left.
  - intros a. cbn [appended si_pending]. rewrite lookup_empty. apply eq_None_not_Some. intros Ha.
    destruct (pr_pending _ _ R _ _ _ Ha) as [i Hi]. by rewrite Hfresh in Hi.
Qed.

Lemma pg_get_ok t id env s sp : pg_rel s sp → pg_step_ok (OpGet t id) env s sp.
Proof.
  intros R. exists s. pose proof (lock_ok s sp t id R) as Ho.
  unfold pg_step, pg_get, pool, sguard, sbind, sget, sret. rewrite (pr_connected _ _ R).
  unfold spec_step. cbn [negb op_slot fst snd]. split; [|done].
  destruct (sp_incidents sp !! (t, id)) as [i|].
  - destruct Ho as (row & Ho & _ & []). rewrite Ho. cbn [from_option_or rbind rmap_err].
    unfold row_snapshot, snapshot_of. do 3 f_equal. congruence.
  - by rewrite Ho.
Qed.

(** Finding the incident: the two ways a body starts. *)
Lemma pg_write_ok op env s sp t id (body : incident_row → PgM (response * IncidentEvent)) :
  pg_rel s sp →
  (sp_incidents sp !! (t, id) = None →
     spec_body pg_policy 0 op env (sp_incidents sp) = Err IncidentNotFound) →
  (∀ x i row, id = "inc_" +:+ x → sp_incidents sp !! (t, id) = Some i →
     t_incident s !! (t, id) = Some row → row_rel s t id row i →
     (∀ t', t' ≠ t → sp_incidents sp !! (t', id) = None) →
     pg_body_ok op env s sp (body row)) →
  pg_body_ok op env s sp (sbind (lock_incident t id) body).
Proof.
  intros R Hnone Hsome. pose proof (lock_ok s sp t id R) as Hl.
  destruct (sp_incidents sp !! (t, id)) as [i|] eqn:Hi.
  - destruct Hl as (row & Hl & Hrow & Hr).
    destruct (existing_prefix _ _ _ _ _ R Hi) as [[x Hx] Hother].
    specialize (Hsome x i row Hx eq_refl Hrow Hr Hother).
    unfold pg_body_ok, sbind in *. by rewrite Hl.
  - unfold pg_body_ok, sbind. rewrite (Hnone eq_refl), Hl. eauto.
Qed.

Lemma pg_cancel_ok t id k v env s sp :
  pg_rel s sp → pg_step_ok (OpCancel t id k v) env s sp.
Proof.
  intros R. eapply pg_once_ok; [done|done| |unfold pg_step, pg_cancel, pg_cancel_tx; reflexivity].
  apply pg_write_ok; [done|by cbn [spec_body]; intros ->|].
  intros x i row -> Hi Hrow Hr Hother. set (id := "inc_" +:+ x) in *.
  unfold pg_body_ok. cbn [spec_body]. rewrite Hi. cbn [from_option_or rbind].
  unfold sbind, pg_guard, sguard, smodify, sret.
  rewrite (rr_version _ _ _ _ _ Hr), (rr_state _ _ _ _ _ Hr).
  destruct (si_version i =? v)%Z eqn:Hv; cbn [negb orb]; [|by eexists].
  case_bool_decide as Ht; [by eexists|]. rewrite (rr_cursor _ _ _ _ _ Hr).
  erewrite (insert_event_ok s sp t x (si_log i)); [|done|done|by fold id; rewrite Hi|done].
  eexists _, _. split; [rewrite (rr_report _ _ _ _ _ Hr); reflexivity|]. split; [done|].
  apply (pg_rel_write s sp t x {| row_state := "CANCELLED"; row_state_version := v + 1;
    row_event_cursor := Z.of_nat (length (si_log i)) + 1;
    row_final_report_ref := row_final_report_ref row; row_spec := row_spec row |} _
    (next_event pg_policy id "EVT-INCIDENT-CANCEL-REQUESTED" (sdict []) env (si_log i)));
    try done.
  { exact (alter_some _ _ _ _ Hrow). }
  apply (row_rel_append s _ _ _ i _ _ "EVT-INCIDENT-CANCEL-REQUESTED" (sdict []) env true);
    try apply Hr; try done. by right; split.
Qed.

Lemma pg_feedback_ok t u id k r env s sp :
  pg_rel s sp → pg_call_ok (OpFeedback t u id k r) env s sp →
  pg_step_ok (OpFeedback t u id k r) env s sp.
Proof.
  intros R Hfresh. cbn in Hfresh.
  eapply pg_once_ok; [done|done| |unfold pg_step, pg_feedback, pg_feedback_tx; reflexivity].
  apply pg_write_ok; [done|by cbn [spec_body]; intros ->|].
  intros x i row -> Hi Hrow Hr Hother. set (id := "inc_" +:+ x) in *.
  unfold pg_body_ok. cbn [spec_body]. rewrite Hi. cbn [from_option_or rbind].
  unfold sbind, sget, pg_guard, sguard, smodify, bump_cursor, sret.
  rewrite (rr_version _ _ _ _ _ Hr).
  destruct (_ =? _)%Z eqn:Hv; cbn [negb]; [|by eexists]. cbn [fb_feedback_id].
  rewrite Hfresh, bool_decide_eq_false_2 by (by intros [? [=]]).
  rewrite (rr_cursor _ _ _ _ _ Hr).
  erewrite (insert_event_ok s sp t x (si_log i)); [|done|done|by fold id; rewrite Hi|done].
  unfold smodify. eexists _, _. split; [reflexivity|]. split; [done|].
  apply (pg_rel_write s sp t x {| row_state := row_state row;
    row_state_version := row_state_version row;
    row_event_cursor := Z.of_nat (length (si_log i)) + 1;
    row_final_report_ref := row_final_report_ref row; row_spec := row_spec row |} _
    (next_event pg_policy id "EVT-INCIDENT-FEEDBACK-RECORDED"
       (feedback_payload pg_policy u ("feedback_" +:+ env_hex env) r) env (si_log i)));
    try done.
  { exact (alter_some _ _ _ _ Hrow). }
  eapply (row_rel_append s _ _ _ i); try apply Hr; try done. by left.
Qed.

Lemma pg_approval_ok t id k r env s sp :
  pg_rel s sp → pg_step_ok (OpApproval t id k r) env s sp.
Proof.
  intros R.
  eapply pg_once_ok; [done|done| |unfold pg_step, pg_approval, pg_approval_tx; reflexivity].
  apply pg_write_ok; [done|by cbn [spec_body]; intros ->|].
  intros x i row -> Hi Hrow Hr Hother. set (id := "inc_" +:+ x) in *.
  unfold pg_body_ok. cbn [spec_body]. rewrite Hi. cbn [from_option_or rbind].
  unfold sbind, sget, pg_guard, sguard, smodify, bump_cursor, sret.
  rewrite (rr_version _ _ _ _ _ Hr).
  destruct (_ =? _)%Z eqn:Hv; cbn [negb]; [|by eexists].
  rewrite (rr_pending _ _ _ _ _ Hr). case_bool_decide as Hp; [by eexists|].
  rewrite (rr_cursor _ _ _ _ _ Hr).
  erewrite (insert_event_ok s sp t x (si_log i)); [|done|done|by fold id; rewrite Hi|done].
  unfold smodify. eexists _, _. split; [reflexivity|]. split; [done|].
  apply (pg_rel_write s sp t x {| row_state := row_state row;
    row_state_version := row_state_version row;
    row_event_cursor := Z.of_nat (length (si_log i)) + 1;
    row_final_report_ref := row_final_report_ref row; row_spec := row_spec row |} _
    (next_event pg_policy id "EVT-ACTION-APPROVAL-DECIDED"
       (sdict [("action_id", VStr (ar_action_id r));
               ("decision", VStr (decision_value (ar_decision r)))]) env (si_log i)));
    try done.
  { exact (alter_some _ _ _ _ Hrow). }
  { intros t' id' a Hne. simpl. rewrite lookup_delete_ne; [done|]. intros Heq. apply Hne. by injection Heq as <- <- _. }
  eapply (row_rel_append s _ _ _ i _ _ _ _ _ true); try apply Hr; try done; [by right; split|].
  intros a. simpl. destruct (decide (ar_action_id r = a)) as [<-|Hne];
    [by rewrite !lookup_delete_eq|].
  rewrite !lookup_delete_ne by (done || by injection 1). apply Hr.
Qed.

Lemma incident_events_log s t id row i :
  row_rel s t id row i → incident_events t id s = si_log i.
Proof.
  intros Hr. unfold incident_events. fold (rows_of t id s). rewrite (rr_log _ _ _ _ _ Hr).
  apply sort_by_id. pose proof (rr_numbered _ _ _ _ _ Hr) as Hn. revert Hn.
  generalize 0%Z. induction (si_log i) as [|e log IH]; intros k Hn; constructor.
  - apply numbered_cons in Hn as [_ Hn]. by eapply IH.
  - apply Forall_forall. intros e' [j Hj]%list_elem_of_lookup.
    apply numbered_cons in Hn as [He Hn]. rewrite (Hn _ _ Hj), He. apply Z.leb_le. lia.
Qed.

Lemma min_sequence_numbered k e log :
  numbered_from k (e :: log) → min_sequence (e :: log) = Some (k + 1)%Z.
Proof.
  revert k e. induction log as [|e' log IH]; intros k e Hn;
    apply numbered_cons in Hn as [He Hn]; [by simpl; rewrite He|].
  change (min_sequence (e :: e' :: log)) with (Some match min_sequence (e' :: log) with
    | Some m => Z.min (ev_sequence e) m | None => ev_sequence e end).
  rewrite (IH _ _ Hn), He. f_equal. lia.
Qed.

Lemma pg_replay_ok t id last_id env s sp :
  pg_rel s sp → pg_call_ok (OpReplay t id last_id) env s sp →
  pg_step_ok (OpReplay t id last_id) env s sp.
Proof.
  intros R Hcur. exists s. unfold pg_step, spec_step. cbn [op_slot fst snd]. split; [|done].
  assert (∃ c, match last_id with
      | Some text => if truthy text then py_int text else Some 0%Z
      | None => Some 0%Z end = Some c ∧ (0 ≤ c)%Z ∧
      ∀ i, si_dropped i = O → spec_replay i last_id =
        (raise_if (Z.of_nat (length (si_log i)) <? c)%Z with_ CursorError;;
         Ok (OutEvents (drop (Z.to_nat c) (si_log i))))) as (c & Hc & Hc0 & Hspec).
  { destruct last_id as [text|]; cbn in Hcur.
    - destruct Hcur as (c & Hc & Hc0). exists c. unfold truthy.
      rewrite bool_decide_eq_true_2 by (by intros ->). split_and!; [done|done|].
      intros i Hd. unfold spec_replay. rewrite Hc, Hd. cbn [from_option_or rbind].
      rewrite (proj2 (Z.ltb_ge c 0)) by done. cbn [orb].
      destruct (_ <? c)%Z; [done|]. by rewrite (proj2 (Z.ltb_ge c (Z.of_nat 0))).
    - exists 0%Z. split_and!; [done|done|]. intros i Hd. unfold spec_replay. rewrite Hd.
      by rewrite (proj2 (Z.ltb_ge _ 0)) by lia. }
  unfold pg_replay. rewrite Hc. unfold pool, pg_guard, sguard, sbind, sget, sret.
  rewrite (proj2 (Z.ltb_ge c 0)) by done. rewrite (pr_connected _ _ R). cbn [negb].
  pose proof (lock_ok s sp t id R) as Hl.
  destruct (sp_incidents sp !! (t, id)) as [i|]; [|by rewrite Hl].
  destruct Hl as (row & Hl & _ & Hr). rewrite Hl. cbn [from_option_or rbind].
  rewrite (rr_cursor _ _ _ _ _ Hr), Hspec by apply Hr.
  destruct (_ <? c)%Z; [done|]. rewrite (incident_events_log _ _ _ _ _ Hr).
  pose proof (rr_numbered _ _ _ _ _ Hr) as Hn.
  assert (filter (λ e, (c < ev_sequence e)%Z) (si_log i) = drop (Z.to_nat c) (si_log i)) as Hf.
  { rewrite (numbered_filter 0) by done. by rewrite Z.sub_0_r. }
  destruct (si_log i) as [|e log] eqn:Hlog; [by rewrite Hf|].
  rewrite (min_sequence_numbered _ _ _ Hn).
  rewrite (proj2 (Z.ltb_ge c _)) by lia. by rewrite Hf.
Qed.

Lemma pg_step_refines op env s sp :
  pg_rel s sp → pg_call_ok op env s sp → pg_step_ok op env s sp.
Proof.
  intros R Hc. destruct op.
  - by apply pg_create_ok.
  - by apply pg_get_ok.
  - by apply pg_cancel_ok.
  - by apply pg_feedback_ok.
  - by apply pg_approval_ok.
  - by apply pg_replay_ok.
Qed.
End Refine.
