(* ===== verification/StoreContract.v ===== *)
(** * What a client of an incident store may rely on

    [IncidentStore] is the interface the control API is written against: the
    calls of a store, the specification state it represents and the refinement
    [call_refines].  [MemoryIncidentStore] and [PostgresIncidentStore] are its
    instances; the theorems of this file are proved once, from the interface. *)
From S2P Require Import Prelude Json JsonFacts Sha256 Kernel PyDyn Store.
From S2P Require Import StoreSpec PgStore MemoryStore PgRefine.

Class IncidentStore (S E : Type) : Type := {
  policy : Policy;
  call : store_op → Env → SE S E store_out;
  embed : store_error → E;
  represents : S → Spec → Prop;
  call_ok : store_op → Env → S → Prop;
  call_refines op env s sp :
    represents s sp → call_ok op env s →
    ∃ ret s', call op env s = (rmap_err embed (spec_step policy ret op env sp).1, s') ∧
      represents s' (spec_step policy ret op env sp).2;
  create_fresh t k r env s sp :
    represents s sp → call_ok (OpCreate t k r) env s →
    ∀ t', sp_incidents sp !! (t', "inc_" +:+ env_hex env) = None;
}.

(** ** The two stores are instances *)

Definition mem_call_ok (op : store_op) (env : Env) (s : MemoryIncidentStore) : Prop :=
  clock_ok s env ∧
  match op with
  | OpCreate _ _ _ => incidents s !! ("inc_" +:+ env_hex env) = None
  | _ => True
  end.

Definition pg_ready (op : store_op) (env : Env) (s : PostgresIncidentStore) : Prop :=
  match op with
  | OpCreate _ _ _ => ∀ t, t_incident s !! (t, "inc_" +:+ env_hex env) = None
  | OpFeedback _ _ _ _ _ => t_feedback s !! ("feedback_" +:+ env_hex env) = None
  | OpReplay _ _ (Some text) => ∃ c, py_int text = Some c ∧ (0 ≤ c)%Z
  | _ => True
  end.

Lemma memory_create_fresh t k r env s sp :
  mem_rel s sp → mem_call_ok (OpCreate t k r) env s →
  ∀ t', sp_incidents sp !! (t', "inc_" +:+ env_hex env) = None.
Proof.
  intros R [_ Hf] t'. destruct (sp_incidents sp !! _) as [i|] eqn:Hi; [|done].
  destruct (mr_bwd _ _ R _ _ _ Hi) as (m & Hm & _). congruence.
Qed.

Lemma pg_create_fresh t k r env s sp :
  pg_rel s sp → pg_ready (OpCreate t k r) env s →
  ∀ t', sp_incidents sp !! (t', "inc_" +:+ env_hex env) = None.
Proof.
  intros R Hok t'. cbn in Hok. destruct (sp_incidents sp !! _) as [i|] eqn:Hi; [|done].
  destruct (pr_inc _ _ R _ _ _ Hi) as [row Hrow]. by rewrite Hok in Hrow.
Qed.

Lemma memory_call_refines op env s sp :
  mem_rel s sp → mem_call_ok op env s →
  ∃ ret s', memory_step op env s =
      (rmap_err id (spec_step memory_policy ret op env sp).1, s') ∧
    mem_rel s' (spec_step memory_policy ret op env sp).2.
Proof.
  intros R [Hc Hf]. destruct (memory_step_ok op env s sp R Hc) as (ret & s' & Hs & R').
  - destruct op; try done. intros t. by apply (memory_create_fresh tenant key request env s).
  - exists ret, s'. split; [|done]. rewrite Hs. by destruct (spec_step _ _ _ _ _) as [[] ?].
Qed.

Lemma pg_call_refines jsonb op env s sp :
  pg_rel s sp → pg_ready op env s →
  ∃ ret s', pg_step jsonb op env s =
      (rmap_err PgStore (spec_step (pg_policy jsonb) ret op env sp).1, s') ∧
    pg_rel s' (spec_step (pg_policy jsonb) ret op env sp).2.
Proof.
  intros R Hok. exists O. apply (pg_step_refines jsonb op env s sp R).
  destruct op; try done. intros t. by apply (pg_create_fresh tenant key request env s).
Qed.

#[export] Instance memory_store : IncidentStore MemoryIncidentStore store_error :=
  {| policy := memory_policy; call := memory_step; embed := id; represents := mem_rel;
     call_ok := mem_call_ok; call_refines := memory_call_refines;
     create_fresh := memory_create_fresh |}.

Definition postgres_store (jsonb : val → val) : IncidentStore PostgresIncidentStore pg_error :=
  {| policy := pg_policy jsonb; call := pg_step jsonb; embed := PgStore;
     represents := pg_rel; call_ok := pg_ready;
     call_refines := pg_call_refines jsonb;
     create_fresh := pg_create_fresh |}.

(** ** The specification, step by step *)

Section SpecFacts.
Context (pol : Policy).

(** The incident an operation can change. *)
Definition op_target (op : store_op) (env : Env) : option (string * string) :=
  match op with
  | OpCreate t _ _ => Some (t, "inc_" +:+ env_hex env)
  | OpCancel t id _ _ | OpFeedback t _ id _ _ | OpApproval t id _ _ => Some (t, id)
  | OpGet _ _ | OpReplay _ _ _ => None
  end.

(** *** What a log and a version do *)

(** [i'] is a later state of incident [i]: the log extended, the version not
    smaller, a terminal state kept, and no approval made pending. *)
Definition later (i i' : spec_incident) : Prop :=
  (∃ tail, si_log i' = si_log i ++ tail) ∧ (si_version i ≤ si_version i')%Z ∧
  (si_state i ∈ TERMINAL_STATES → si_state i' = si_state i ∧ si_version i' = si_version i) ∧
  si_pending i' ⊆ si_pending i.

Lemma later_refl i : later i i.
Proof. split_and!; [by exists []; rewrite app_nil_r|lia|done|done]. Qed.

Lemma later_trans i j k : later i j → later j k → later i k.
Proof.
  intros ([l1 E1] & V1 & T1 & P1) ([l2 E2] & V2 & T2 & P2). split_and!.
  - exists (l1 ++ l2). by rewrite E2, E1, app_assoc.
  - lia.
  - intros Ht. destruct (T1 Ht) as [Es Ev]. rewrite <-Es in Ht.
    destruct (T2 Ht) as [Es' Ev']. split; congruence.
  - by etrans.
Qed.

Definition is_create (op : store_op) : bool :=
  match op with OpCreate _ _ _ => true | _ => false end.

Lemma spec_body_frame ret op env incs r incs' :
  spec_body pol ret op env incs = Ok (r, incs') →
  ∃ k i', op_target op env = Some k ∧ k.1 = op_tenant op ∧ incs' = <[k := i']> incs ∧
    (is_create op = false → ∃ i, incs !! k = Some i ∧ later i i').
Proof.
  destruct op; cbn [spec_body]; intros H; res_inv; try discriminate H;
    eexists _, _; (split_and!; [done|done|done|]); try done;
    intros _; eexists; (split; [done|]); bool_prop; (split_and!; simpl; [eauto|lia|done|done || apply delete_subseteq]).
Qed.

Lemma op_slot_tenant op slot digest :
  op_slot op = Some (slot, digest) → slot.1.1 = op_tenant op.
Proof. destruct op; simpl; try done; by intros [= <- _]. Qed.

(** Two specification states that agree on a tenant. *)
Definition agree_on (t : string) (sp1 sp2 : Spec) : Prop :=
  (∀ id, sp_incidents sp1 !! (t, id) = sp_incidents sp2 !! (t, id)) ∧
  (∀ op key, sp_idem sp1 !! (t, op, key) = sp_idem sp2 !! (t, op, key)).

Lemma spec_step_frame ret op env sp t :
  t ≠ op_tenant op → agree_on t (spec_step pol ret op env sp).2 sp.
Proof.
  intros Ht. unfold spec_step. destruct (op_slot op) as [[[[t' o'] k'] digest]|] eqn:Hslot; [|done].
  pose proof (op_slot_tenant _ _ _ Hslot) as Hst. cbn in Hst.
  destruct (sp_idem sp !! (t', o', k')) as [[d r]|]; [done|].
  destruct (spec_body pol ret op env _) as [[r incs]|] eqn:Hb; [|done].
  destruct (spec_body_frame _ _ _ _ _ _ Hb) as ([t0 id0] & i' & _ & Ht0 & -> & _).
  cbn in Ht0.
  split; simpl; intros; rewrite lookup_insert_ne; congruence.
Qed.

Lemma spec_body_agree op env incs1 incs2 ret1 ret2 :
  (∀ id, incs1 !! (op_tenant op, id) = incs2 !! (op_tenant op, id)) →
  rmap fst (spec_body pol ret1 op env incs1) = rmap fst (spec_body pol ret2 op env incs2).
Proof.
  intros Ha. destruct op; cbn [spec_body op_tenant] in *; [done|done|..|done];
    rewrite (Ha id); (destruct (incs2 !! (tenant, id)); [|done]); cbn [from_option_or rbind];
    by repeat first [destruct (negb _); [done|]|case_bool_decide].
Qed.

Lemma spec_step_agree op env sp1 sp2 ret1 ret2 :
  agree_on (op_tenant op) sp1 sp2 →
  (spec_step pol ret1 op env sp1).1 = (spec_step pol ret2 op env sp2).1.
Proof.
  intros [Hi Hk]. unfold spec_step.
  destruct (op_slot op) as [[[[t' o'] k'] digest]|] eqn:Hslot.
  - pose proof (op_slot_tenant _ _ _ Hslot) as Hst. cbn in Hst. subst t'. rewrite Hk.
    destruct (sp_idem sp2 !! _) as [[d r]|]; [done|].
    pose proof (spec_body_agree op env _ _ ret1 ret2 Hi) as Hb.
    destruct (spec_body pol ret1 _ _ _) as [[r incs]|], (spec_body pol ret2 _ _ _) as [[r' incs']|];
      cbn in *; congruence.
  - destruct op; cbn in *; try done; by rewrite Hi.
Qed.

(** A fresh answer comes from the body. *)
Lemma spec_step_fresh ret op env sp r :
  (spec_step pol ret op env sp).1 = Ok (OutResponse r true) →
  ∃ slot d incs, op_slot op = Some (slot, d) ∧
    spec_body pol ret op env (sp_incidents sp) = Ok (r, incs) ∧
    sp_incidents (spec_step pol ret op env sp).2 = incs.
Proof.
  unfold spec_step. destruct (op_slot op) as [[slot d]|].
  - destruct (sp_idem sp !! slot) as [[d' r']|]; cbn [fst snd].
    + by destruct (bool_decide _).
    + destruct (spec_body pol ret op env _) as [[r' incs]|] eqn:Hb; cbn [fst snd]; [|done].
      intros [= <-]. eauto 6.
  - cbn [fst]. destruct op; try done; cbn [from_option_or rbind];
      destruct (sp_incidents sp !! _) as [i|]; try done; cbn [from_option_or rbind].
    unfold spec_replay. repeat case_match; cbn [from_option_or rbind]; try done.
    intros H'. res_inv; discriminate.
Qed.

(** A slot keeps its first answer. *)
Lemma spec_step_slot ret op env sp slot v :
  sp_idem sp !! slot = Some v → sp_idem (spec_step pol ret op env sp).2 !! slot = Some v.
Proof.
  intros Hs. unfold spec_step. destruct (op_slot op) as [[slot' digest]|]; [|done].
  destruct (sp_idem sp !! slot') as [[d r]|] eqn:Hs'; [done|].
  destruct (spec_body pol ret op env _) as [[r incs]|]; [|done]. simpl.
  rewrite lookup_insert_ne; [done|]. congruence.
Qed.

Lemma spec_step_fills ret op env sp slot digest r b :
  op_slot op = Some (slot, digest) →
  (spec_step pol ret op env sp).1 = Ok (OutResponse r b) →
  sp_idem (spec_step pol ret op env sp).2 !! slot = Some (digest, r).
Proof.
  unfold spec_step. intros ->. destruct (sp_idem sp !! slot) as [[d r']|] eqn:Hs.
  - case_bool_decide; simpl; [|done]. intros [= -> _]. congruence.
  - destruct (spec_body pol ret op env _) as [[r' incs]|]; simpl; [|done].
    intros [= -> _]. by rewrite lookup_insert_eq.
Qed.

End SpecFacts.

(** ** Runs of a store *)

Section Client.
Context {S E : Type} `{St : IncidentStore S E}.

Inductive run : S → list (store_op * Env * result E store_out) → S → Prop :=
| run_nil s : run s [] s
| run_cons s op env r s1 tr s2 :
    call_ok op env s → call op env s = (r, s1) → run s1 tr s2 → run s ((op, env, r) :: tr) s2.

(** A specification state reached from another by the calls of a run. *)
Definition evolves (sp sp' : Spec) : Prop :=
  (∀ slot v, sp_idem sp !! slot = Some v → sp_idem sp' !! slot = Some v) ∧
  (∀ k i, sp_incidents sp !! k = Some i → ∃ i', sp_incidents sp' !! k = Some i' ∧ later i i').

Lemma evolves_refl sp : evolves sp sp.
Proof. split; [done|]. intros k i Hi. exists i. split; [done|]. apply later_refl. Qed.

Lemma evolves_trans sp1 sp2 sp3 : evolves sp1 sp2 → evolves sp2 sp3 → evolves sp1 sp3.
Proof.
  intros [S1 I1] [S2 I2]. split; [by auto|]. intros k i Hi.
  destruct (I1 k i Hi) as (i1 & Hi1 & L1). destruct (I2 k i1 Hi1) as (i2 & Hi2 & L2).
  exists i2. split; [done|]. by eapply later_trans.
Qed.

Lemma spec_step_evolves ret op env sp :
  (∀ t k r, op = OpCreate t k r → sp_incidents sp !! (t, "inc_" +:+ env_hex env) = None) →
  evolves sp (spec_step policy ret op env sp).2.
Proof.
  intros Hfresh. split; [intros slot v; apply spec_step_slot|].
  intros k i Hi. unfold spec_step.
  destruct (op_slot op) as [[slot digest]|]; [|by exists i; auto using later_refl].
  destruct (sp_idem sp !! slot) as [[d r]|]; [by exists i; auto using later_refl|].
  destruct (spec_body policy ret op env _) as [[r incs]|] eqn:Hb;
    [|by exists i; auto using later_refl].
  destruct (spec_body_frame _ _ _ _ _ _ _ Hb) as (k' & i' & Ht & _ & -> & Hl). simpl.
  destruct (decide (k' = k)) as [->|Hne].
  - exists i'. split; [by rewrite lookup_insert_eq|]. destruct (is_create op) eqn:Hc.
    + destruct op; try done. injection Ht as <-. by rewrite (Hfresh _ _ _ eq_refl) in Hi.
    + destruct (Hl eq_refl) as (i0 & Hi0 & L). congruence.
  - exists i. rewrite lookup_insert_ne by done. auto using later_refl.
Qed.

Lemma call_evolves op env s sp :
  represents s sp → call_ok op env s →
  ∃ ret, let sp' := (spec_step policy ret op env sp).2 in
    (call op env s).1 = rmap_err embed (spec_step policy ret op env sp).1 ∧
    represents (call op env s).2 sp' ∧ evolves sp sp'.
Proof.
  intros R Hok. destruct (call_refines _ _ _ _ R Hok) as (ret & s' & Hc & R').
  exists ret. rewrite Hc. split_and!; [done|done|]. apply spec_step_evolves.
  intros t k r ->. by eapply create_fresh.
Qed.

Lemma run_evolves s sp tr s' :
  represents s sp → run s tr s' → ∃ sp', represents s' sp' ∧ evolves sp sp'.
Proof.
  intros R Hrun. revert sp R. induction Hrun as [s|s op env r s1 tr s2 Hok Hc _ IH]; intros sp R.
  - exists sp. split; [done|apply evolves_refl].
  - destruct (call_evolves _ _ _ _ R Hok) as (ret & _ & R1 & E1). rewrite Hc in R1.
    destruct (IH _ R1) as (sp' & R' & E2). exists sp'. split; [done|]. by eapply evolves_trans.
Qed.

(** A write answered earlier in the run fixes what its slot answers. *)
Lemma repeat_lemma s sp op env r b s1 tr s2 op2 env2 slot d d2 :
  represents s sp → call_ok op env s → call op env s = (Ok (OutResponse r b), s1) →
  run s1 tr s2 → call_ok op2 env2 s2 →
  op_slot op = Some (slot, d) → op_slot op2 = Some (slot, d2) →
  ∃ sp2, represents s2 sp2 ∧ represents (call op2 env2 s2).2 sp2 ∧
    (call op2 env2 s2).1 =
      if bool_decide (d = d2) then Ok (OutResponse r false) else Err (embed IdempotencyConflict).
Proof.
  intros R Hok Hc Hrun Hok2 Hs Hs2.
  destruct (call_refines _ _ _ _ R Hok) as (ret & s' & Hc' & R').
  rewrite Hc in Hc'. injection Hc' as Hr <-.
  destruct (spec_step policy ret op env sp) as [[o|e] sp1] eqn:Hstep; [|done].
  cbn in Hr. injection Hr as <-. cbn [snd] in R'.
  destruct (run_evolves _ _ _ _ R' Hrun) as (sp2 & R2 & [Hslots _]).
  assert (sp_idem sp2 !! slot = Some (d, r)) as Hslot2.
  { apply Hslots. pose proof (spec_step_fills policy ret op env sp slot d r b Hs) as Hf.
    rewrite Hstep in Hf. by apply Hf. }
  exists sp2. split; [done|].
  destruct (call_refines _ _ _ _ R2 Hok2) as (ret2 & s3 & -> & R3).
  unfold spec_step in *. rewrite Hs2, Hslot2 in *. cbn [fst snd] in *. split; [done|].
  by case_bool_decide.
Qed.
End Client.
