(* ===== verification/StoreTheorems.v ===== *)
(** * Theorems on the incident stores

    Both stores refine the contract of [StoreSpec]; the consequences a client
    relies on are proved from the interface [StoreContract.IncidentStore], so
    they hold of either. *)
From S2P Require Import Prelude Json JsonFacts Sha256 Kernel PyDyn Store.
From S2P Require Import StoreSpec PgStore MemoryStore PgRefine StoreContract.

Section Client.
Context {S E : Type} `{St : IncidentStore S E}.

(** C3: a repeated write answers what the first one answered. After a write was
    answered under an idempotency key, however many calls later, a write under
    the same key returns the same response without any effect when its digest is
    the same, and raises [IdempotencyConflict] when it differs. *)
Theorem repeated_write_answers_once s sp op env r b s1 tr s2 op2 env2 slot d d2 :
  represents s sp → call_ok op env s → call op env s = (Ok (OutResponse r b), s1) →
  run s1 tr s2 → call_ok op2 env2 s2 →
  op_slot op = Some (slot, d) → op_slot op2 = Some (slot, d2) →
  ∃ sp2, represents s2 sp2 ∧ represents (call op2 env2 s2).2 sp2 ∧
    (call op2 env2 s2).1 =
      if bool_decide (d = d2) then Ok (OutResponse r false) else Err (embed IdempotencyConflict).
Proof. apply repeat_lemma. Qed.


(** over any run an incident's log only grows at its end, its version never
    decreases, a terminal state and its version are final, and no approval
    becomes pending. *)
Theorem incident_history_only_grows s sp tr s' k i :
  represents s sp → run s tr s' → sp_incidents sp !! k = Some i →
  ∃ sp' i', represents s' sp' ∧ sp_incidents sp' !! k = Some i' ∧ later i i'.
Proof.
  intros R Hr Hi. destruct (run_evolves _ _ _ _ R Hr) as (sp' & R' & [_ He]).
  destruct (He k i Hi) as (i' & Hi' & L). eauto.
Qed.

(** C5: an approval is single-use: after one was accepted for an action, no
    later approval of that action is accepted afresh, whatever its key, digest
    or decision. *)
Theorem approval_is_single_use s sp t id k r env resp s1 tr s2 k2 r2 env2 resp2 :
  represents s sp → call_ok (OpApproval t id k r) env s →
  call (OpApproval t id k r) env s = (Ok (OutResponse resp true), s1) →
  run s1 tr s2 → call_ok (OpApproval t id k2 r2) env2 s2 →
  ar_action_id r2 = ar_action_id r →
  (call (OpApproval t id k2 r2) env2 s2).1 ≠ Ok (OutResponse resp2 true).
Proof.
  intros R Hok Hc Hrun Hok2 Hact.
  destruct (call_refines _ _ _ _ R Hok) as (ret & s1' & Hc' & R1).
  rewrite Hc in Hc'. injection Hc' as Hr <-.
  destruct (spec_step policy ret (OpApproval t id k r) env sp).1 as [o|] eqn:H1; [|done].
  injection Hr as <-. apply spec_step_fresh in H1 as (_ & _ & incs & _ & Hb & Hincs).
  cbn [spec_body] in Hb.
  destruct (sp_incidents sp !! (t, id)) as [i|]; [|done]. cbn [from_option_or rbind] in Hb.
  res_inv. destruct (run_evolves _ _ _ _ R1 Hrun) as (sp2 & R2 & [_ He]).
  match goal with H : <[_ := _]> _ = sp_incidents _ |- _ => rewrite <-H in He end.
  destruct (He (t, id) _ (lookup_insert_eq _ _ _)) as (i2 & Hi2 & _ & _ & _ & Hp).
  cbn [si_pending] in Hp.
  destruct (call_refines _ _ _ _ R2 Hok2) as (ret2 & s3 & -> & _). cbn [fst]. intros Hr.
  destruct (spec_step policy ret2 _ env2 sp2).1 as [o|] eqn:H1; [|done]. injection Hr as ->.
  apply spec_step_fresh in H1 as (_ & _ & incs & _ & Hb & _). cbn [spec_body] in Hb.
  rewrite Hi2 in Hb. cbn [from_option_or rbind] in Hb. res_inv. bool_prop.
  rewrite Hact in *. match goal with H : ¬ (_ ≠ _) |- _ => apply dec_stable in H as Hl end.
  eapply lookup_weaken in Hl; [|exact Hp]. by rewrite lookup_delete_eq in Hl.
Qed.

(** The digest of a feedback request does not cover its incident, so a key
    reused with the same body for another incident, known or not, is answered
    with the first incident's result and records nothing. *)
Theorem feedback_key_spans_incidents s sp t u id k r env resp b s1 tr s2 u' id' env' :
  represents s sp → call_ok (OpFeedback t u id k r) env s →
  call (OpFeedback t u id k r) env s = (Ok (OutResponse resp b), s1) →
  run s1 tr s2 → call_ok (OpFeedback t u' id' k r) env' s2 →
  ∃ sp2, represents s2 sp2 ∧ represents (call (OpFeedback t u' id' k r) env' s2).2 sp2 ∧
    (call (OpFeedback t u' id' k r) env' s2).1 = Ok (OutResponse resp false).
Proof.
  intros R Hok Hc Hrun Hok2.
  destruct (repeat_lemma s sp _ env resp b s1 tr s2 _ env' _ _ _ R Hok Hc Hrun Hok2 eq_refl eq_refl)
    as (sp2 & R2 & R3 & Hres).
  exists sp2. split_and!; [done|done|]. rewrite Hres. by rewrite bool_decide_eq_true_2.
Qed.
End Client.

(** C1: the memory store implements the contract: from related states every
    call, errors included, gives the specification's answer and related states,
    with some of the oldest events no longer retained. *)
Theorem memory_store_refines_contract op env s sp :
  mem_rel s sp → mem_call_ok op env s →
  ∃ ret s', memory_step op env s = ((spec_step memory_policy ret op env sp).1, s') ∧
    mem_rel s' (spec_step memory_policy ret op env sp).2.
Proof.
  intros R Hok. destruct (memory_call_refines op env s sp R Hok) as (ret & s' & H & R').
  exists ret, s'. split; [|done]. rewrite H. by destruct (spec_step _ _ _ _ _) as [[] ?].
Qed.


(** ** Concrete runs *)

Definition demo_event : IncidentEvent :=
  make_event "inc_a" 1 "EVT-INCIDENT-CREATED" 100 (sdict [("state", VStr "NEW")]).
Definition demo_snapshot : IncidentSnapshot :=
  {| sn_incident_id := "inc_a"; sn_state := "NEW"; sn_state_version := 0;
     sn_event_cursor := "1"; sn_final_report_ref := None |}.

(** One incident of tenant "acme" with a pending action. *)
Definition demo_memory : MemoryIncidentStore :=
  {| retention_count := 5; retention_age := 1000;
     incidents := {["inc_a" := {| in_tenant_id := "acme"; in_snapshot := demo_snapshot;
                                  in_spec := VNone; in_pending_action := Some ("act", "d1") |}]};
     idempotency := ∅; events := {[("acme", "inc_a") := [demo_event]]};
     subscribers := ∅; subscriber_objects := ∅; next_object := 0 |}.
Definition demo_pg : PostgresIncidentStore :=
  {| connected := true;
     t_incident := {[("acme", "inc_a") := {| row_state := "NEW"; row_state_version := 0;
       row_event_cursor := 1; row_final_report_ref := None; row_spec := VNone |}]};
     t_idempotency := ∅; t_event := [("acme", demo_event)]; t_feedback := ∅;
     t_pending_approval := {[("acme", "inc_a", "act") := "d1"]};
     pg_subscribers := ∅; pg_objects := ∅; pg_next_object := 0 |}.
Definition demo_spec : Spec :=
  {| sp_incidents := {[("acme", "inc_a") := {| si_state := "NEW"; si_version := 0;
       si_cursor := 1; si_report := None; si_pending := {["act" := "d1"]};
       si_log := [demo_event]; si_dropped := 0 |}]};
     sp_idem := ∅ |}.
Definition demo_env (hex : string) : Env :=
  {| env_hex := hex; env_accepted_at := 200; env_occurred_at := 200; env_cutoff_now := 201 |}.

Lemma demo_numbered : numbered_from 0 [demo_event].
Proof. apply (numbered_snoc 0 []); [|done]. intros j e. by rewrite lookup_nil. Qed.

Lemma demo_memory_rel : mem_rel demo_memory demo_spec.
Proof.
  constructor; simpl; try done.
  - intros id m [<- <-]%lookup_singleton_Some. simpl. eexists.
    rewrite !lookup_singleton_eq. split; [done|].
    constructor; simpl; [done|done|done|lia|apply demo_numbered].
  - intros t id i [[= <- <-] <-]%lookup_singleton_Some. eexists.
    by rewrite lookup_singleton_eq.
  - intros t id Hne%lookup_singleton_None. by rewrite lookup_singleton_ne.
Qed.

Lemma demo_pg_rel : pg_rel demo_pg demo_spec.
Proof.
  constructor; simpl; try done.
  - intros t id row [[= <- <-] <-]%lookup_singleton_Some. eexists.
    rewrite lookup_singleton_eq. split; [done|].
    constructor; simpl; try done; [apply demo_numbered|].
    intros a. destruct (decide (a = "act")) as [->|Hne]; [by rewrite !lookup_singleton_eq|].
    rewrite !lookup_singleton_ne; [done|congruence|by intros [=]].
  - intros t id i [[= <- <-] <-]%lookup_singleton_Some. by rewrite lookup_singleton_eq.
  - intros row ->%list_elem_of_singleton. split; [done|]. simpl. by rewrite lookup_singleton_eq.
  - intros t id a [d [[= <- <- <-] <-]%lookup_singleton_Some].
    by rewrite lookup_singleton_eq.
  - intros t id i [[= <- <-] _]%lookup_singleton_Some. by exists "a".
  - intros t t' id i i' [[= <- <-] _]%lookup_singleton_Some [H2 _]%lookup_singleton_Some.
    congruence.
Qed.

Definition demo_feedback : FeedbackRequest :=
  {| fr_rating := 4; fr_comment := Some "ok"; fr_expected_state_version := 0 |}.
Definition demo_approval (digest : string) : ApprovalRequest :=
  {| ar_action_id := "act"; ar_action_digest := digest; ar_decision := APPROVE;
     ar_expected_state_version := 0; ar_comment := None |}.
Definition give_feedback (id : string) : store_op := OpFeedback "acme" "ann" id "key-1" demo_feedback.
Definition approve (key digest : string) : store_op :=
  OpApproval "acme" "inc_a" key (demo_approval digest).

Lemma memory_store_refines_contract_witness :
  mem_rel demo_memory demo_spec ∧ mem_call_ok (approve "key-2" "d1") (demo_env "b") demo_memory ∧
  (∃ ret s', memory_step (approve "key-2" "d1") (demo_env "b") demo_memory =
      ((spec_step memory_policy ret (approve "key-2" "d1") (demo_env "b") demo_spec).1, s') ∧
    mem_rel s' (spec_step memory_policy ret (approve "key-2" "d1") (demo_env "b") demo_spec).2).
Proof.
  assert (Hok : mem_call_ok (approve "key-2" "d1") (demo_env "b") demo_memory)
    by (split; [unfold clock_ok; simpl; lia|done]).
  split; [exact demo_memory_rel|]. split; [exact Hok|].
  exact (memory_store_refines_contract _ _ _ _ demo_memory_rel Hok).
Defined.


(** The feedback of incident [inc_a], accepted, and the store after it. *)
Definition after_feedback : MemoryIncidentStore :=
  (memory_step (give_feedback "inc_a") (demo_env "b") demo_memory).2.
Definition feedback_response : response :=
  RFeedback {| fb_feedback_id := "feedback_b"; fb_accepted_at := 200 |}.

Lemma demo_ok op hex : is_create op = false → mem_call_ok op (demo_env hex) demo_memory.
Proof. split; [unfold clock_ok; simpl; lia|]. by destruct op. Qed.

Lemma demo_feedback_accepted :
  memory_step (give_feedback "inc_a") (demo_env "b") demo_memory =
  (Ok (OutResponse feedback_response true), after_feedback).
Proof. reflexivity. Qed.

Lemma after_feedback_ok op hex : is_create op = false → mem_call_ok op (demo_env hex) after_feedback.
Proof.
  intros Hop. split; [|by destruct op].
  assert (retention_age after_feedback = 1000%Z) as Hr by reflexivity.
  unfold clock_ok. rewrite Hr. simpl. lia.
Qed.

Lemma repeated_write_answers_once_witness :
  ∃ sp2, represents after_feedback sp2 ∧
    represents (call (give_feedback "inc_a") (demo_env "c") after_feedback).2 sp2 ∧
    (call (give_feedback "inc_a") (demo_env "c") after_feedback).1 =
      Ok (OutResponse feedback_response false).
Proof.
  destruct (repeated_write_answers_once (St:=memory_store) demo_memory demo_spec _ _ _ _ _ [] after_feedback
    (give_feedback "inc_a") (demo_env "c") _ _ _ demo_memory_rel
    (demo_ok (give_feedback "inc_a") "b" eq_refl) demo_feedback_accepted (run_nil _)
    (after_feedback_ok (give_feedback "inc_a") "c" eq_refl) eq_refl eq_refl) as (sp2 & R & R' & H).
  exists sp2. split; [exact R|]. split; [exact R'|]. rewrite H.
  by rewrite bool_decide_eq_true_2.
Defined.

Lemma feedback_key_spans_incidents_witness :
  ∃ sp2, represents after_feedback sp2 ∧
    represents (call (give_feedback "inc_unknown") (demo_env "c") after_feedback).2 sp2 ∧
    (call (give_feedback "inc_unknown") (demo_env "c") after_feedback).1 =
      Ok (OutResponse feedback_response false).
Proof.
  exact (feedback_key_spans_incidents (St:=memory_store) demo_memory demo_spec _ _ _ _ _ _ _ _ _ [] after_feedback
    "ann" "inc_unknown" (demo_env "c") demo_memory_rel
    (demo_ok (give_feedback "inc_a") "b" eq_refl) demo_feedback_accepted (run_nil _)
    (after_feedback_ok (give_feedback "inc_unknown") "c" eq_refl)).
Defined.


Definition demo_run : list (store_op * Env * result store_error store_out) :=
  [(give_feedback "inc_a", demo_env "b", Ok (OutResponse feedback_response true))].

Lemma demo_run_ok : run demo_memory demo_run after_feedback.
Proof.
  eapply run_cons; [by apply (demo_ok (give_feedback "inc_a"))|apply demo_feedback_accepted|].
  apply run_nil.
Qed.

Lemma incident_history_only_grows_witness :
  ∃ i sp' i', sp_incidents demo_spec !! ("acme", "inc_a") = Some i ∧
    represents after_feedback sp' ∧ sp_incidents sp' !! ("acme", "inc_a") = Some i' ∧ later i i'.
Proof.
  destruct (sp_incidents demo_spec !! ("acme", "inc_a")) as [i|] eqn:Hi; [|discriminate].
  destruct (incident_history_only_grows (St:=memory_store) _ _ _ _ _ _ demo_memory_rel demo_run_ok Hi)
    as (sp' & i' & H).
  exists i, sp', i'. split; [reflexivity|exact H].
Defined.

Definition after_approval : MemoryIncidentStore :=
  (memory_step (approve "key-2" "d1") (demo_env "b") demo_memory).2.
Definition approval_response : response :=
  RApproval {| ap_action_id := "act"; ap_decision := APPROVE; ap_action_digest := "d1";
               ap_state_version := 0 |}.

Lemma demo_approval_accepted :
  memory_step (approve "key-2" "d1") (demo_env "b") demo_memory =
  (Ok (OutResponse approval_response true), after_approval).
Proof. reflexivity. Qed.

Lemma approval_is_single_use_witness :
  (call (approve "key-3" "d1") (demo_env "c") after_approval).1 ≠
    Ok (OutResponse approval_response true).
Proof.
  assert (Hok : mem_call_ok (approve "key-3" "d1") (demo_env "c") after_approval).
  { assert (retention_age after_approval = 1000%Z) as Hr by reflexivity.
    split; [|done]. unfold clock_ok. rewrite Hr. simpl. lia. }
  exact (approval_is_single_use (St:=memory_store) demo_memory demo_spec "acme" "inc_a" "key-2" (demo_approval "d1")
    (demo_env "b") approval_response after_approval [] after_approval "key-3"
    (demo_approval "d1") (demo_env "c") approval_response demo_memory_rel
    (demo_ok (approve "key-2" "d1") "b" eq_refl) demo_approval_accepted (run_nil _) Hok eq_refl).
Defined.

(** The two adapters answer [get] differently after feedback: only the
    PostgreSQL one moves the snapshot's cursor. *)
Lemma feedback_cursor_differs :
  (let m := (memory_step (give_feedback "inc_a") (demo_env "b") demo_memory).2 in
   let p := (pg_step id (give_feedback "inc_a") (demo_env "b") demo_pg).2 in
   rmap (λ o, match o with OutSnapshot s => sn_event_cursor s | _ => "" end)
     (memory_step (OpGet "acme" "inc_a") (demo_env "c") m).1 = Ok "1" ∧
   rmap (λ o, match o with OutSnapshot s => sn_event_cursor s | _ => "" end)
     (pg_step id (OpGet "acme" "inc_a") (demo_env "c") p).1 = Ok "2").
Proof. split; vm_compute; reflexivity. Qed.
