(* ===== verification/Oidc.v ===== *)
(** * OIDC authentication: [src/faultwitness/identity/oidc.py]

    The JWT and JWKS libraries and the HTTP client are parameters: what
    [jwt.get_unverified_header], [jwt.decode] and [PyJWK.from_dict] return or
    raise, and the JWKS response of the moment.  [time.monotonic()] is the [now]
    of a call, in the unit of [cache_seconds]. *)
From S2P Require Import Prelude Json PyDyn.

Record OIDCSettings := {
  issuer : string;
  audience : string;
  jwks_url : string;
  tenant_claim : string;
  cache_seconds : Z;
}.

Record AuthenticatedPrincipal := {
  tenant_id : string;
  user_id : string;
  roles : gset string;
  token_id : string;
  expires_at : Z;
}.

(** [AuthenticationError], or an exception the method does not catch. *)
Inductive auth_error : Type :=
| AuthenticationError
| PyAttributeError
| OtherError (name : string).

(** What a library call raises: an exception [authenticate] converts
    ([InvalidTokenError], [httpx.HTTPError], [KeyError], [TypeError],
    [ValueError]), or another one. *)
Inductive library_error : Type :=
| Convertible
| Unconverted (name : string).

Section Oidc.
Context {Key : Type}.
Context (get_unverified_header : string → result library_error mapping).
Context (jwt_decode : string → Key → string → string → result library_error mapping).
Context (jwk_from_dict : mapping → result library_error Key).
Context (py_repr : val → string) (float_trunc : string → option Z).

Record OIDCAuthenticator := {
  keys : gmap string Key;
  loaded_at : Z;
}.

(** The clock readings of a call to [_key] (before and under the lock) and the
    JWKS endpoint's answer, if it is asked. *)
Record Moment := {
  now : Z;
  now_locked : Z;
  jwks : result library_error val;
}.

Definition AuthM := SE OIDCAuthenticator auth_error.

(** [except (InvalidTokenError, ...) as error: raise AuthenticationError] *)
Definition converted {A} (r : result library_error A) : result auth_error A :=
  rmap_err (λ e, match e with Convertible => AuthenticationError | Unconverted n => OtherError n end) r.

Definition none_or (v : val) (s : string) : bool :=
  match v with VNone => true | _ => val_is v s end.

(** The filter on one JWKS entry; testing membership in a set needs a hashable
    value. *)
Definition usable_key (item : val) : result library_error (option (string * mapping)) :=
  match item with
  | VDict d =>
      match dget "kid" d with
      | VStr kid =>
          raise_if negb (hashable (dget "use" d)) with_ Convertible;;
          if none_or (dget "use" d) "sig" then
            raise_if negb (hashable (dget "alg" d)) with_ Convertible;;
            if none_or (dget "alg" d) "RS256" && val_is (dget "kty" d) "RSA"
            then Ok (Some (kid, d)) else Ok None
          else Ok None
      | _ => Ok None
      end
  | _ => Ok None
  end.

Definition load_key (loaded : gmap string Key) (item : val) : result library_error (gmap string Key) :=
  let* entry := usable_key item in
  match entry with
  | Some (kid, d) => let* key := jwk_from_dict d in Ok (<[kid := key]> loaded)
  | None => Ok loaded
  end.

(** The keys of a JWKS document. *)
Definition load_jwks (document : val) : result auth_error (gmap string Key) :=
  match document with
  | VDict d =>
      match dget "keys" d with
      | VList items =>
          let* loaded := converted (rfold load_key items ∅) in
          raise_if bool_decide (loaded = ∅) with_ AuthenticationError;;
          Ok loaded
      | _ => Err AuthenticationError
      end
  | _ => Err AuthenticationError
  end.

Definition stale_key (settings : OIDCSettings) (s : OIDCAuthenticator) (kid : string) (t : Z) : bool :=
  (cache_seconds settings <=? t - loaded_at s)%Z || bool_decide (keys s !! kid = None).

(** [_key] *)
Definition find_key (settings : OIDCSettings) (kid : string) (m : Moment) : AuthM Key :=
  let! s := sget in
  (if stale_key settings s kid (now m) && stale_key settings s kid (now_locked m) then
     let! document := slift (converted (jwks m)) in
     let! loaded := slift (load_jwks document) in
     smodify (λ _, {| keys := loaded; loaded_at := now_locked m |})
   else sret tt) ;;;
  let! s := sget in
  slift (from_option_or AuthenticationError (keys s !! kid)).

(** [str(value)] and [int(value)] of a claim *)
Definition str_claim (v : val) : string := match v with VStr s => s | _ => py_repr v end.
Definition int_claim (v : val) : result auth_error Z :=
  match v with
  | VInt z => Ok z
  | VBool b => Ok (if b then 1 else 0)%Z
  | VStr s => from_option_or (OtherError "ValueError") (py_int s)
  | VFloat r => from_option_or (OtherError "OverflowError") (float_trunc r)
  | _ => Err (OtherError "TypeError")
  end.

(** [(value or {}).get("roles")] *)
Definition roles_claim (realm_access : val) : result auth_error val :=
  match realm_access with
  | VDict d => Ok (dget "roles" d)
  | VNone | VBool false | VInt 0 | VStr "" | VList [] => Ok VNone
  | _ => Err PyAttributeError
  end.

Definition role_names (l : list val) : gset string :=
  list_to_set (omap (λ v, match v with VStr s => if truthy s then Some s else None | _ => None end) l).

(** [claims[k]] *)
Definition claim (k : string) (claims : mapping) : result auth_error val :=
  from_option_or (OtherError "KeyError") (dfind k claims).

Definition principal_of (settings : OIDCSettings) (claims : mapping) :
    result auth_error AuthenticatedPrincipal :=
  let* roles := roles_claim (dget "realm_access" claims) in
  match dget (tenant_claim settings) claims, roles with
  | VStr tenant, VList l =>
      raise_if negb (truthy tenant) with_ AuthenticationError;;
      raise_if bool_decide (role_names l = ∅) with_ AuthenticationError;;
      let* sub := claim "sub" claims in
      let* jti := claim "jti" claims in
      let* exp := claim "exp" claims in
      let* expires := int_claim exp in
      Ok {| tenant_id := tenant; user_id := str_claim sub; roles := role_names l;
            token_id := str_claim jti; expires_at := expires |}
  | _, _ => Err AuthenticationError
  end.

Definition bearer_token (authorization : option string) : result auth_error string :=
  match authorization with
  | Some text =>
      raise_if negb (startswith text "Bearer ") with_ AuthenticationError;;
      let token := strip (str_drop 7 text) in
      raise_if negb (truthy token) with_ AuthenticationError;; Ok token
  | None => Err AuthenticationError
  end.

Definition authenticate (settings : OIDCSettings) (authorization : option string) (m : Moment) :
    AuthM AuthenticatedPrincipal :=
  let! token := slift (bearer_token authorization) in
  let! header := slift (converted (get_unverified_header token)) in
  match dget "kid" header with
  | VStr kid =>
      sguard (negb (val_is (dget "alg" header) "RS256")) AuthenticationError ;;;
      let! key := find_key settings kid m in
      let! claims := slift (converted (jwt_decode token key (audience settings) (issuer settings))) in
      slift (principal_of settings claims)
  | _ => sraise AuthenticationError
  end.

(** ** Facts *)

(** The cache holds what one JWKS document, read at [loaded_at], contained. *)
Definition cache_ok (s : OIDCAuthenticator) : Prop :=
  keys s = ∅ ∨ ∃ document, load_jwks document = Ok (keys s).

Lemma find_key_spec settings kid m s key s' :
  cache_ok s → find_key settings kid m s = (Ok key, s') →
  keys s' !! kid = Some key ∧ cache_ok s' ∧
  (s' = s ∧ (stale_key settings s kid (now m) && stale_key settings s kid (now_locked m)) = false ∨
   loaded_at s' = now_locked m ∧ ∃ document, jwks m = Ok document ∧ load_jwks document = Ok (keys s')).
Proof.
  intros Hc. unfold find_key. rewrite sbind_ok. intros (s0 & s1 & [= <- <-] & H).
  rewrite sbind_ok in H. destruct H as (u & s2 & H1 & H2).
  rewrite sbind_ok in H2. destruct H2 as (s3 & s4 & [= <- <-] & H2).
  injection H2 as H2 <-. apply from_option_or_ok in H2. split; [done|].
  destruct (_ && _)%bool in H1 |- *.
  - rewrite sbind_ok in H1. destruct H1 as (doc & s5 & [= Hd <-] & H1).
    rewrite sbind_ok in H1. destruct H1 as (loaded & s6 & [= Hl <-] & H1).
    injection H1 as <- <-. unfold converted in Hd. res_inv.
    split; [right; eauto|right; eauto].
  - injection H1 as _ <-. split; [done|by left].
Qed.

Lemma find_key_err settings kid m s e s' :
  find_key settings kid m s = (Err e, s') → s' = s ∨ ∃ loaded, keys s' = loaded ∧ loaded !! kid = None.
Proof.
  unfold find_key, sbind, sget, slift, smodify, sret. destruct (_ && _)%bool.
  - destruct (converted (jwks m)) as [d|]; [|intros [= _ <-]; by left].
    destruct (load_jwks d) as [l|]; [|intros [= _ <-]; by left].
    cbn [keys]. destruct (l !! kid) as [k|] eqn:Hk; [done|]. intros [= _ <-]. right. eauto.
  - destruct (keys s !! kid) as [k|] eqn:Hk; [done|]. intros [= _ <-]. by left.
Qed.

Lemma principal_of_ok settings claims p :
  principal_of settings claims = Ok p →
  dget (tenant_claim settings) claims = VStr (tenant_id p) ∧ tenant_id p ≠ "" ∧
  roles p ≠ ∅ ∧ ("" ∉ roles p) ∧
  ∃ access l, dget "realm_access" claims = VDict access ∧ dget "roles" access = VList l ∧
    ∀ r, r ∈ roles p → VStr r ∈ l.
Proof.
  unfold principal_of. intros H. res_inv.
  destruct (dget (tenant_claim settings) claims) as [| | | |tenant| | |] eqn:Ht; try done.
  match goal with H : roles_claim _ = Ok ?v |- _ => destruct v as [| | | | |l| |]; try done; rename H into Hr end.
  res_inv. bool_prop. unfold truthy in *. bool_prop. simpl.
  assert (∀ r, r ∈ role_names l → VStr r ∈ l ∧ r ≠ "") as Hroles.
  { intros r. unfold role_names. rewrite elem_of_list_to_set, list_elem_of_omap.
    intros (v & Hv & Hin). destruct v; try done. unfold truthy in Hin.
    case_bool_decide; [|done]. by injection Hin as ->. }
  split_and!; [done|done|done|by intros [_ ?]%Hroles|].
  unfold roles_claim in Hr. destruct (dget "realm_access" claims) as [| | | | | |access|] eqn:Ha;
    try discriminate Hr; try (by repeat case_match).
  injection Hr as Hr. exists access, l. split_and!; [done|done|]. intros r Hin. by apply Hroles.
Qed.

(** authentication fails closed. A principal is returned only for a bearer
    token whose header says RS256, whose signature, audience, issuer and required
    claims the JWT library accepted under the key that one JWKS document gives
    for its [kid] (cached for less than [cache_seconds] or fetched now), and
    whose claims carry a non-empty tenant and a non-empty set of named roles. *)
Theorem authenticate_fails_closed settings authorization m s p s' :
  cache_ok s → authenticate settings authorization m s = (Ok p, s') →
  ∃ token header kid key claims document,
    bearer_token authorization = Ok token ∧
    get_unverified_header token = Ok header ∧
    dget "alg" header = VStr "RS256" ∧ dget "kid" header = VStr kid ∧
    load_jwks document = Ok (keys s') ∧ keys s' !! kid = Some key ∧
    (now m - loaded_at s' < cache_seconds settings ∨
     now_locked m - loaded_at s' < cache_seconds settings ∨ jwks m = Ok document)%Z ∧
    jwt_decode token key (audience settings) (issuer settings) = Ok claims ∧
    dget (tenant_claim settings) claims = VStr (tenant_id p) ∧ tenant_id p ≠ "" ∧
    roles p ≠ ∅ ∧ ("" ∉ roles p) ∧
    ∃ access l, dget "realm_access" claims = VDict access ∧ dget "roles" access = VList l ∧
      ∀ r, r ∈ roles p → VStr r ∈ l.
Proof.
  intros Hc H. unfold authenticate in H.
  rewrite sbind_ok in H. destruct H as (token & s1 & [= Ht <-] & H).
  rewrite sbind_ok in H. destruct H as (header & s1 & [= Hh <-] & H).
  destruct (dget "kid" header) as [| | | |kid| | |] eqn:Hk; try done.
  rewrite sbind_ok in H. destruct H as (u & s1 & Hg & H). unfold sguard in Hg.
  destruct (val_is (dget "alg" header) "RS256") eqn:Ha; [|done].
  injection Hg as <- <-. apply val_is_true in Ha.
  rewrite sbind_ok in H. destruct H as (key & s1 & Hf & H).
  apply find_key_spec in Hf as (Hkey & Hc' & Hfresh); [|done].
  rewrite sbind_ok in H. destruct H as (claims & s2 & [= Hd <-] & H).
  injection H as Hp <-. unfold converted in Hh, Hd. res_inv.
  apply principal_of_ok in Hp.
  assert (∃ document, load_jwks document = Ok (keys s1) ∧
    (now m - loaded_at s1 < cache_seconds settings ∨
     now_locked m - loaded_at s1 < cache_seconds settings ∨ jwks m = Ok document)%Z)
    as (document & Hdoc & Hage).
  { destruct Hfresh as [[-> Hst]|[_ (document & Hj & Hl)]]; [|by eauto].
    destruct Hc' as [Hn|[document Hl]]; [by rewrite Hn in Hkey|]. exists document. split; [done|].
    unfold stale_key in Hst. rewrite Hkey in Hst. rewrite bool_decide_eq_false_2 in Hst by done.
    rewrite !orb_false_r in Hst. apply andb_false_iff in Hst as [Hst|Hst]; bool_prop; auto. }
  exists token, header, kid, key, claims, document. split_and!; try done; apply Hp.
Qed.
End Oidc.

Definition demo_settings : OIDCSettings :=
  {| issuer := "https://id"; audience := "faultwitness"; jwks_url := "https://id/keys";
     tenant_claim := "tenant_id"; cache_seconds := 300 |}.
Definition demo_jwks : val :=
  sdict [("keys", VList [sdict [("kid", VStr "k1"); ("use", VStr "sig"); ("alg", VStr "RS256");
                                ("kty", VStr "RSA"); ("n", VStr "modulus")]])].
Definition demo_claims : mapping :=
  [(VStr "tenant_id", VStr "acme"); (VStr "realm_access", sdict [("roles", VList [VStr "operator"])]);
   (VStr "sub", VStr "ann"); (VStr "jti", VStr "t1"); (VStr "exp", VInt 2000)].
Definition demo_header (token : string) : result library_error mapping :=
  if bool_decide (token = "token") then Ok [(VStr "alg", VStr "RS256"); (VStr "kid", VStr "k1")]
  else Err Convertible.
Definition demo_decode (token key aud iss : string) : result library_error mapping :=
  if bool_decide (key = "modulus" ∧ aud = "faultwitness" ∧ iss = "https://id")
  then Ok demo_claims else Err Convertible.
Definition demo_jwk (d : mapping) : result library_error string :=
  match dget "n" d with VStr n => Ok n | _ => Err Convertible end.

Definition demo_authenticate := authenticate demo_header demo_decode demo_jwk (λ _, "") (λ _, None).
Definition demo_moment : Moment := {| now := 1000; now_locked := 1000; jwks := Ok demo_jwks |}.

Lemma authenticate_fails_closed_witness :
  ∃ p s', demo_authenticate demo_settings (Some "Bearer token") demo_moment
      {| keys := ∅; loaded_at := 0 |} = (Ok p, s') ∧
    tenant_id p = "acme" ∧ tenant_id p ≠ "" ∧ roles p ≠ ∅.
Proof.
  destruct (demo_authenticate demo_settings (Some "Bearer token") demo_moment
    {| keys := ∅; loaded_at := 0 |}) as [[p|e] s'] eqn:H; [|discriminate].
  exists p, s'. split; [reflexivity|].
  assert (Hc : cache_ok demo_jwk {| keys := ∅; loaded_at := 0 |}) by (left; reflexivity).
  destruct (authenticate_fails_closed demo_header demo_decode demo_jwk _ _ _ _ _ _ _ _ Hc H) as (tk & hd & kid & key & cl & doc & _ & _ & _ & _ & _ & _ & _ & Hd & Ht & Hne & Hr & _).
  split_and!; [|exact Hne|exact Hr].
  unfold demo_decode in Hd. destruct (bool_decide _) in Hd; [|discriminate].
  injection Hd as <-. injection Ht as <-. reflexivity.
Defined.
