(* ===== verification/Contracts.v ===== *)
(** * Boundary models: [src/faultwitness/contracts/models.py]

    A contract model is the list of its annotated fields and its
    [model_validator].  [check] is what [model_validate_json] does with them in
    the strict mode of [ContractModel]: unknown members are refused, no value is
    coerced.  An accepted document is returned with its fields in declared order
    and the defaults filled in; a [datetime] is its microseconds since the epoch,
    a [frozenset] the list of its elements in order of first appearance. *)
From Stdlib Require Import Ascii.
From S2P Require Import Prelude Json PyDyn Regex.

(** ** Private reasoning *)

Definition PRIVATE_REASONING_KEYS : list string :=
  ["chain_of_thought"; "chainofthought"; "cot"; "private_reasoning"; "reasoning_content";
   "hidden_reasoning"; "internal_monologue"].

Definition key_char (c : ascii) : bool := between "a" "z" c || is_digit c.
(** [re.sub(r"[^a-z0-9]+", "_", text)] *)
Fixpoint sub_runs (in_run : bool) (text : string) : string :=
  match text with
  | "" => ""
  | String c rest =>
      if key_char c then String c (sub_runs false rest)
      else if in_run then sub_runs true rest else String "_" (sub_runs true rest)
  end.
(** [text.strip("_")] *)
Fixpoint lstrip_underscore (text : string) : string :=
  match text with String "_" rest => lstrip_underscore rest | _ => text end.
Definition strip_underscore (text : string) : string :=
  str_rev "" (lstrip_underscore (str_rev "" (lstrip_underscore text))).
Definition normalized (key : string) : string := strip_underscore (sub_runs false (str_map lower key)).

Definition private_key (key : string) : bool := bool_decide (normalized key ∈ PRIVATE_REASONING_KEYS).
Definition private_member (k : val) : bool :=
  match k with VStr key => private_key key | _ => false end.

(** [_reject_private_reasoning] raises. *)
Fixpoint rejects_private_reasoning (v : val) : bool :=
  match v with
  | VDict d => existsb (λ kv, private_member kv.1 || rejects_private_reasoning kv.2) d
  | VList l => existsb rejects_private_reasoning l
  | _ => false
  end.

Example normalized_key : normalized "__Chain-of  Thought!" = "chain_of_thought".
Proof. reflexivity. Qed.

(** ** Constrained strings *)

Definition upper_digit (c : ascii) : bool := between "A" "Z" c || is_digit c.
Definition hex_char (c : ascii) : bool := is_digit c || between "a" "f" c.
(** [[0-9A-HJKMNP-TV-Z]] *)
Definition ulid_char (c : ascii) : bool :=
  is_digit c || between "A" "H" c || one_of "JKMN" c || between "P" "T" c || between "V" "Z" c.

Definition SEMVER_RE : regex :=
  let part := RAlt (RChar (lit_char "0")) (RCat (RChar (between "1" "9")) (RStar (RChar is_digit))) in
  RCat part (RCat (RChar (lit_char ".")) (RCat part (RCat (RChar (lit_char ".")) part))).
Definition SHA256_RE : regex := rrepeat 64 (RChar hex_char).
Definition GIT_SHA_RE : regex := rrepeat 40 (RChar hex_char).
Definition ULID_RE : regex := rrepeat 26 (RChar ulid_char).

(** ** Types *)

#[local] Set Warnings "-register-all".
Inductive ftype : Type :=
| TStr (min max : option Z) (pattern : option regex)
| TInt (ge le : option Z)
| TFloat (ge le : option Z)
| TBool
| TEnum (values : list string)
| TUtc
| TAnyDict (safe : bool)            (* dict[str, Any], with the private reasoning validator *)
| TFloatDict                        (* dict[str, float] *)
| TOptional (t : ftype)
| TTuple (t : ftype) (min max : option Z)
| TFrozenset (t : ftype) (min max : option Z)
| TModel (fields : list (string * ftype * option val)) (validator : mapping → bool).

Definition in_range (lo hi : option Z) (z : Z) : bool :=
  match lo with Some l => (l <=? z)%Z | None => true end &&
  match hi with Some h => (z <=? h)%Z | None => true end.

(** [lo <= x <= hi] for a float; no bound admits [NaN]. *)
Definition float_in_range (lo hi : option Z) (tok : string) : bool :=
  match decimal_parts tok with
  | Some (neg, m, e) =>
      let '(num, den) := quotient m e in
      let num := if neg then (- num)%Z else num in
      match lo with Some l => (l * den <=? num)%Z | None => true end &&
      match hi with Some h => (num <=? h * den)%Z | None => true end
  | None =>
      if bool_decide (tok = "Infinity") then bool_decide (hi = None)
      else if bool_decide (tok = "-Infinity") then bool_decide (lo = None)
      else bool_decide (lo = None) && bool_decide (hi = None)
  end.

Definition field_names (fields : list (string * ftype * option val)) : list string :=
  (λ f, f.1.1) <$> fields.
Definition known_key (names : list string) (k : val) : bool :=
  match k with VStr s => bool_decide (s ∈ names) | _ => false end.

(** A [frozenset] here holds strings. *)
Definition same_str (x y : val) : bool :=
  match x, y with VStr a, VStr b => bool_decide (a = b) | _, _ => false end.
Definition set_insert (seen : list val) (x : val) : list val :=
  if existsb (same_str x) seen then seen else seen ++ [x].

Section Check.
(** [datetime.fromisoformat] as [pydantic] reads it: the instant in microseconds
    and the UTC offset, absent for a naive time. *)
Context (parse_datetime : string → option (Z * option Z)).

(** [_utc] *)
Definition utc (text : string) : option val :=
  match parse_datetime text with
  | Some (t, Some offset) => if (offset =? 0)%Z then Some (VInt t) else None
  | _ => None
  end.

Fixpoint check (t : ftype) (v : val) {struct t} : option val :=
  match t, v with
  | TStr lo hi pattern, VStr s =>
      if in_range lo hi (str_len s) &&
         match pattern with Some p => fullmatch p s | None => true end then Some v else None
  | TInt ge le, VInt z => if in_range ge le z then Some v else None
  | TFloat ge le, VInt z => if in_range ge le z then Some v else None
  | TFloat ge le, VFloat tok => if float_in_range ge le tok then Some v else None
  | TBool, VBool _ => Some v
  | TEnum values, VStr s => if bool_decide (s ∈ values) then Some v else None
  | TUtc, VStr s => utc s
  | TAnyDict safe, VDict _ => if safe && rejects_private_reasoning v then None else Some v
  | TFloatDict, VDict d =>
      if forallb (λ kv, match kv.2 with VInt _ | VFloat _ => true | _ => false end) d
      then Some v else None
  | TOptional _, VNone => Some VNone
  | TOptional t, _ => check t v
  | TTuple t lo hi, VList l =>
      items ← mapM (check t) l;
      if in_range lo hi (Z.of_nat (length items)) then Some (VList items) else None
  | TFrozenset t lo hi, VList l =>
      items ← mapM (check t) l;
      let distinct := foldl set_insert [] items in
      if in_range lo hi (Z.of_nat (length distinct)) then Some (VList distinct) else None
  | TModel fields validator, VDict d =>
      if negb (forallb (λ kv, known_key (field_names fields) kv.1) d) then None else
      members ←
        (fix go (fields : list (string * ftype * option val)) : option mapping :=
          match fields with
          | [] => Some []
          | (name, t, default) :: rest =>
              x ← match dfind name d with Some x => check t x | None => default end;
              xs ← go rest;
              Some ((VStr name, x) :: xs)
          end) fields;
      if validator members then Some (VDict members) else None
  | _, _ => None
  end.
End Check.

(** ** Fields *)

Abbreviation field := (string * ftype * option val)%type.
Definition req (name : string) (t : ftype) : field := (name, t, None).
Definition opt (name : string) (t : ftype) (default : val) : field := (name, t, Some default).
(** [name: t | None = None] *)
Definition nullable (name : string) (t : ftype) : field := (name, TOptional t, Some VNone).
Definition model (fields : list field) : ftype := TModel fields (λ _, true).

Definition ge0 : ftype := TInt (Some 0%Z) None.
Definition float_ge0 : ftype := TFloat (Some 0%Z) None.
Definition any_str : ftype := TStr None None None.

Definition SemVer : ftype := TStr None None (Some SEMVER_RE).
Definition Sha256 : ftype := TStr None None (Some SHA256_RE).
Definition GitSha : ftype := TStr None None (Some GIT_SHA_RE).
Definition BoundedText : ftype := TStr (Some 1%Z) (Some 4000%Z) None.
Definition NonEmptyText : ftype := TStr (Some 1%Z) None None.
Definition IdempotencyKey : ftype := TStr (Some 16%Z) (Some 128%Z) None.

(** [_prefixed_ulid] and the identifiers *)
Definition prefixed_ulid (prefix : string) : ftype :=
  TStr None None (Some (RCat (literal id prefix) ULID_RE)).
Definition TenantId := prefixed_ulid "ten_".
Definition UserId := prefixed_ulid "usr_".
Definition TokenId := prefixed_ulid "tok_".
Definition EnvironmentId := prefixed_ulid "env_".
Definition ServiceId := prefixed_ulid "svc_".
Definition IncidentId := prefixed_ulid "inc_".
Definition TaskId := prefixed_ulid "task_".
Definition AttemptId := prefixed_ulid "att_".
Definition WorkerId := prefixed_ulid "wrk_".
Definition ChangeId := prefixed_ulid "chg_".
Definition EvidenceRefId := prefixed_ulid "evi_".
Definition HypothesisId := prefixed_ulid "hyp_".
Definition ProbeId := prefixed_ulid "prb_".
Definition ToolId := prefixed_ulid "tool_".
Definition ToolCallId := prefixed_ulid "call_".
Definition SkillId := prefixed_ulid "skill_".
Definition ActionId := prefixed_ulid "act_".
Definition TrajectoryId := prefixed_ulid "traj_".
Definition EvalId := prefixed_ulid "eval_".
Definition EventId := prefixed_ulid "evt_".
Definition CommandId := prefixed_ulid "cmd_".
Definition CorrelationId := prefixed_ulid "corr_".
Definition FeedbackId := prefixed_ulid "feedback_".
Definition OutboxId := prefixed_ulid "out_".
Definition InboxId := prefixed_ulid "inbox_".
Definition CheckpointId := prefixed_ulid "ckpt_".
Definition ModelRequestId := prefixed_ulid "mreq_".
Definition ModelResponseId := prefixed_ulid "mres_".
Definition ModelChunkId := prefixed_ulid "mchunk_".
Definition TraceId := prefixed_ulid "trace_".
Definition SpanId := prefixed_ulid "span_".

(** ** Enumerations *)

Definition Role := TEnum ["viewer"; "operator"; "approver"; "admin"].
Definition IncidentMode := TEnum ["diagnosis_only"; "allow_actions"].
Definition RiskLevel := TEnum ["R0"; "R1"; "R2"; "R3"].
Definition IncidentStateName :=
  TEnum ["NEW"; "QUEUED"; "INVESTIGATING"; "WAITING_APPROVAL"; "EXECUTING"; "VERIFYING";
         "ROLLING_BACK"; "RESOLVED"; "ESCALATED"; "CANCELLED"].
Definition RunStateName :=
  TEnum ["PENDING"; "LEASED"; "RUNNING"; "PAUSED"; "RETRY_WAIT"; "CANCEL_REQUESTED"; "SUCCEEDED";
         "FAILED"; "DEAD_LETTER"; "CANCELLED"].
Definition AgentGraphStateName :=
  TEnum ["INTAKE"; "SCOPE_AND_RISK"; "BUILD_INITIAL_PLAN"; "RETRIEVE_CONTEXT"; "COLLECT_EVIDENCE";
         "NORMALIZE_EVIDENCE"; "GENERATE_HYPOTHESES"; "VERIFY_HYPOTHESES"; "PLAN_PROBES";
         "COMPOSE_REPORT"; "PROPOSE_ACTION"; "POLICY_CHECK"; "AWAIT_APPROVAL"; "DISPATCH_ACTION";
         "AWAIT_ACTION_RESULT"; "VERIFY_OUTCOME"; "REQUEST_COMPENSATION"; "FINALIZE"; "ESCALATE"].
Definition ActionStateName :=
  TEnum ["PREPARED"; "APPROVAL_PENDING"; "APPROVED"; "EXECUTING"; "VERIFYING"; "COMPENSATING";
         "UNCERTAIN"; "COMMITTED"; "REJECTED"; "EXPIRED"; "ROLLED_BACK"; "MANUAL"; "CANCELLED"].
Definition ToolResultStatus := TEnum ["success"; "error"; "timeout"].
Definition TrajectorySplit := TEnum ["train"; "dev"; "validation"; "locked"; "external"].
Definition OutboxState := TEnum ["PENDING"; "CLAIMED"; "PUBLISHED"].
Definition InboxState := TEnum ["RECEIVED"; "APPLIED"; "DUPLICATE_ACK"; "DEAD_LETTER"].
Definition StreamControlKind :=
  TEnum ["replay_started"; "live_started"; "retention_gap"; "slow_consumer"; "closed"].
Definition ModelFamilyName := TEnum ["qwen"; "deepseek"; "glm"].
Definition TraceStageName :=
  TEnum ["api"; "state_transition"; "checkpoint"; "model"; "tool"; "policy"; "action"; "export"].
Definition SpanStatusName := TEnum ["ok"; "error"; "unset"].

(** ** Core models *)

Definition int_member (name : string) (d : mapping) : option Z :=
  match dget name d with VInt z => Some z | _ => None end.

Definition end_after_start (d : mapping) : bool :=
  match int_member "start" d, int_member "end" d with
  | Some s, Some e => (s <? e)%Z
  | _, _ => false
  end.
Definition TimeRange := TModel [req "start" TUtc; req "end" TUtc] end_after_start.

Definition AgentBudget :=
  model [req "deadline" TUtc; req "max_steps" (TInt (Some 1%Z) None); req "max_model_calls" ge0;
         req "max_tokens" ge0; req "max_cost_usd" float_ge0].
Definition BudgetCounters :=
  model [opt "steps" ge0 (VInt 0); opt "model_calls" ge0 (VInt 0); opt "tokens" ge0 (VInt 0);
         opt "cost_usd" float_ge0 (VInt 0)].
Definition ProgressDigest :=
  model [req "evidence_count" ge0; req "supported_claim_count" ge0; req "digest" Sha256].
Definition SourceVersionRef :=
  model [req "source_id" NonEmptyText; req "source_version" NonEmptyText].
Definition VersionBundle :=
  model [req "contracts_version" SemVer; req "architecture_version" SemVer;
         req "producer_sha" GitSha].
Definition ResourceRef :=
  model [req "resource_type" NonEmptyText; req "resource_id" NonEmptyText;
         req "resource_version" NonEmptyText].
Definition ToolCall :=
  model [req "call_id" ToolCallId; req "tool_id" ToolId; req "arguments" (TAnyDict true);
         req "tenant_id" TenantId].
Definition TenantContext :=
  model [req "tenant_id" TenantId; req "user_id" UserId;
         req "roles" (TFrozenset Role (Some 1%Z) None); req "token_id" TokenId;
         req "expires_at" TUtc].
Definition IncidentSpec :=
  model [req "environment_id" EnvironmentId;
         req "service_scope" (TFrozenset ServiceId (Some 1%Z) (Some 50%Z));
         req "time_window" TimeRange; req "symptom_summary" BoundedText; req "mode" IncidentMode;
         req "budget" AgentBudget].
Definition IncidentState :=
  model [req "incident_id" IncidentId; req "state" IncidentStateName; req "state_version" ge0;
         nullable "final_report_ref" any_str].
Definition RunTask :=
  model [req "task_id" TaskId; req "incident_id" IncidentId; req "tenant_id" TenantId;
         req "deadline" TUtc].

Definition terminal_failure_has_reason (d : mapping) : bool :=
  negb (val_in (dget "state" d) ["FAILED"; "DEAD_LETTER"] && negb (val_truthy (dget "terminal_reason" d))).
Definition RunState :=
  TModel [req "state" RunStateName; req "state_version" ge0; req "attempt_id" AttemptId;
          nullable "terminal_reason" any_str] terminal_failure_has_reason.

Definition Lease :=
  model [req "attempt_id" AttemptId; req "worker_id" WorkerId; req "fencing_token" ge0;
         req "expires_at" TUtc].
Definition ChangeEvent :=
  model [req "change_id" ChangeId; req "resource_ref" ResourceRef; req "observed_at" TUtc;
         req "evidence_refs" (TTuple EvidenceRefId None None)].
Definition AgentState :=
  model [req "graph_state" AgentGraphStateName; req "state_version" ge0;
         req "budgets_used" BudgetCounters; req "evidence_progress" ProgressDigest].
Definition EvidenceRef :=
  model [req "evidence_id" EvidenceRefId; req "source_ref" SourceVersionRef; req "observed_at" TUtc;
         req "artifact_digest" Sha256].
Definition Hypothesis_ :=
  model [req "hypothesis_id" HypothesisId; req "statement" BoundedText;
         req "supporting_evidence" (TTuple EvidenceRefId None None);
         req "contradicting_evidence" (TTuple EvidenceRefId None None)].
Definition ProbePlan :=
  model [req "probe_id" ProbeId; req "hypothesis_id" HypothesisId;
         req "tool_calls" (TTuple ToolCall (Some 1%Z) None);
         req "expected_information_gain" (TFloat (Some 0%Z) (Some 1%Z))].
Definition ToolDefinition :=
  model [req "tool_id" ToolId; req "input_schema_ref" NonEmptyText;
         req "output_schema_ref" NonEmptyText; req "risk" RiskLevel].

Definition code_pattern (prefix : string) : ftype :=
  TStr None None (Some (RCat (literal id prefix) (rplus (RChar (λ c, upper_digit c || Ascii.eqb c "-"))))).
Definition status_fields_are_consistent (d : mapping) : bool :=
  Bool.eqb (val_is (dget "status" d) "success") (match dget "error_code" d with VNone => true | _ => false end).
Definition ToolResult :=
  TModel [req "call_id" ToolCallId; req "status" ToolResultStatus; nullable "result_ref" any_str;
          nullable "error_code" (code_pattern "ERR-")] status_fields_are_consistent.

Definition SkillManifest :=
  model [req "skill_id" SkillId; req "triggers" (TTuple NonEmptyText None None);
         req "anti_triggers" (TTuple NonEmptyText None None);
         req "allowed_tools" (TFrozenset ToolId None None)].
Definition ActionProposal :=
  model [req "action_id" ActionId; req "action_type" NonEmptyText;
         req "canonical_parameters" (TAnyDict true); req "resource_version" NonEmptyText;
         req "action_digest" Sha256].
Definition ApprovalGrant :=
  model [req "action_digest" Sha256; req "approver_id" UserId; req "approver_scope" NonEmptyText;
         req "expires_at" TUtc; req "single_use_token" (TStr (Some 32%Z) (Some 512%Z) None)].
Definition ActionTransaction :=
  model [req "action_id" ActionId; req "state" ActionStateName; req "state_version" ge0;
         req "idempotency_key" IdempotencyKey; nullable "receipt_ref" any_str].
Definition TrajectoryIR :=
  model [req "trajectory_id" TrajectoryId; req "event_refs" (TTuple EventId None None);
         req "version_bundle" VersionBundle; req "split" TrajectorySplit].
Definition EvalResult :=
  model [req "eval_id" EvalId; req "producer_sha" GitSha; req "metrics" TFloatDict;
         req "artifact_digest" Sha256].
Definition DomainEvent :=
  model [req "event_id" EventId; req "event_type" (code_pattern "EVT-"); req "schema_version" SemVer;
         req "tenant_id" TenantId; req "correlation_id" CorrelationId;
         nullable "causation_id" EventId; req "sequence" ge0; req "payload" (TAnyDict true)].

(** ** Support models *)

Definition CommandEnvelope :=
  model [req "command_id" CommandId; req "command_type" (code_pattern "CMD-");
         req "schema_version" SemVer; req "occurred_at" TUtc; req "tenant_id" TenantId;
         req "correlation_id" CorrelationId; req "causation_id" (TOptional EventId);
         req "idempotency_key" IdempotencyKey; req "expected_state_version" ge0;
         req "payload" (TAnyDict true); nullable "incident_id" IncidentId; nullable "run_id" TaskId;
         nullable "action_id" ActionId; nullable "fencing_token" ge0].
Definition OutboxRecord :=
  model [req "outbox_id" OutboxId; req "tenant_id" TenantId; req "owner" NonEmptyText;
         req "aggregate_id" NonEmptyText; req "event" DomainEvent;
         opt "state" OutboxState (VStr "PENDING"); opt "attempt_count" ge0 (VInt 0);
         req "available_at" TUtc; nullable "claimed_until" TUtc; nullable "published_at" TUtc].
Definition InboxRecord :=
  model [req "inbox_id" InboxId; req "tenant_id" TenantId; req "consumer" NonEmptyText;
         req "event_id" EventId; req "state" InboxState; req "received_at" TUtc;
         nullable "applied_at" TUtc; nullable "failure_code" any_str].
Definition CheckpointWrite :=
  model [req "checkpoint_id" CheckpointId; req "tenant_id" TenantId; req "task_id" TaskId;
         req "attempt_id" AttemptId; req "state_version" ge0; req "fencing_token" ge0;
         req "graph_state" AgentGraphStateName; req "checkpoint" (TAnyDict true);
         req "created_at" TUtc].
Definition IncidentFeedback :=
  model [req "feedback_id" FeedbackId; req "incident_id" IncidentId; req "tenant_id" TenantId;
         req "user_id" UserId; req "rating" (TInt (Some 1%Z) (Some 5%Z));
         nullable "comment" (TStr None (Some 4000%Z) None); req "expected_state_version" ge0;
         req "submitted_at" TUtc].
Definition StreamControlEvent :=
  model [req "event_id" EventId; req "tenant_id" TenantId; req "incident_id" IncidentId;
         req "kind" StreamControlKind; req "cursor" NonEmptyText; req "occurred_at" TUtc;
         req "recoverable" TBool; opt "details" (TAnyDict true) (VDict [])].
Definition ModelMessage :=
  model [req "role" (TEnum ["system"; "user"; "assistant"; "tool"]); req "content" any_str;
         nullable "name" any_str; nullable "tool_call_id" any_str].

Definition total_is_consistent (d : mapping) : bool :=
  match int_member "total_tokens" d, int_member "input_tokens" d, int_member "output_tokens" d with
  | Some t, Some i, Some o => (t =? i + o)%Z
  | _, _, _ => false
  end.
Definition ModelUsage :=
  TModel [req "input_tokens" ge0; req "output_tokens" ge0; req "total_tokens" ge0;
          nullable "cost_usd" float_ge0] total_is_consistent.
Definition ModelRequest :=
  model [req "request_id" ModelRequestId; req "tenant_id" TenantId;
         req "correlation_id" CorrelationId; req "model_family" ModelFamilyName;
         req "model_id" NonEmptyText; req "messages" (TTuple ModelMessage (Some 1%Z) None);
         nullable "target_json_schema" (TAnyDict true);
         opt "tool_schemas" (TTuple (TAnyDict true) None None) (VList []);
         opt "stream" TBool (VBool false); req "budget" AgentBudget].
Definition ModelResponse :=
  model [req "response_id" ModelResponseId; req "request_id" ModelRequestId;
         req "tenant_id" TenantId; req "correlation_id" CorrelationId;
         req "model_family" ModelFamilyName; req "model_id" NonEmptyText; req "content" any_str;
         nullable "structured_output" (TAnyDict true); req "finish_reason" NonEmptyText;
         req "usage" ModelUsage; req "completed_at" TUtc].
Definition ModelChunk :=
  model [req "chunk_id" ModelChunkId; req "request_id" ModelRequestId; req "tenant_id" TenantId;
         req "correlation_id" CorrelationId; req "sequence" ge0; req "delta" any_str;
         nullable "finish_reason" any_str; nullable "usage" ModelUsage; req "occurred_at" TUtc].

Definition end_not_before_start (d : mapping) : bool :=
  match int_member "started_at" d, int_member "ended_at" d with
  | Some s, Some e => (s <=? e)%Z
  | _, _ => true
  end.
Definition SpanRecordModel :=
  TModel [req "span_id" SpanId; nullable "parent_span_id" SpanId; req "name" NonEmptyText;
          req "stage" TraceStageName; req "started_at" TUtc; nullable "ended_at" TUtc;
          opt "status" SpanStatusName (VStr "unset"); opt "attributes" (TAnyDict true) (VDict [])]
    end_not_before_start.
Definition CONTRACTS_VERSION : string := "1.1.0".
Definition TraceEnvelopeModel :=
  model [req "trace_id" TraceId; req "tenant_id" TenantId; req "correlation_id" CorrelationId;
         nullable "causation_id" EventId; nullable "incident_id" IncidentId;
         nullable "task_id" TaskId; nullable "action_id" ActionId;
         opt "contracts_version" SemVer (VStr CONTRACTS_VERSION); req "candidate_sha" GitSha;
         req "spans" (TTuple SpanRecordModel (Some 1%Z) None); req "emitted_at" TUtc].

Definition CORE_MODEL_TYPES : list ftype :=
  [TenantContext; IncidentSpec; IncidentState; RunTask; RunState; Lease; ChangeEvent; AgentState;
   EvidenceRef; Hypothesis_; ProbePlan; ToolDefinition; ToolCall; ToolResult; SkillManifest;
   ActionProposal; ApprovalGrant; ActionTransaction; TrajectoryIR; EvalResult; DomainEvent].
Definition SUPPORT_MODEL_TYPES : list ftype :=
  [CommandEnvelope; OutboxRecord; InboxRecord; CheckpointWrite; IncidentFeedback;
   StreamControlEvent; ModelRequest; ModelResponse; ModelChunk; ModelUsage; TraceEnvelopeModel;
   SpanRecordModel].

(** ** Dumping *)

Section Dump.
Context (format_datetime : Z → string).   (* the text pydantic prints a UTC time as *)

(** [model_dump_json] of an accepted value, as a JSON document. *)
Fixpoint dump (t : ftype) (v : val) {struct t} : val :=
  match t, v with
  | TUtc, VInt z => VStr (format_datetime z)
  | TOptional _, VNone => VNone
  | TOptional t, _ => dump t v
  | TTuple t _ _, VList l | TFrozenset t _ _, VList l => VList (dump t <$> l)
  | TModel fields _, VDict d =>
      VDict ((fix go (fields : list field) (d : mapping) : mapping := match fields, d with
              | (_, t, _) :: fields, (k, x) :: d => (k, dump t x) :: go fields d
              | _, _ => []
              end) fields d)
  | _, _ => v
  end.
End Dump.
