(* ===== verification/ContractsFacts.v ===== *)
(** * Theorems of the boundary models

    Every model of the contract is closed, typed and free of private reasoning,
    and an accepted document survives its own dump. *)
From Stdlib Require Import Ascii.
From S2P Require Import Prelude Json JsonFacts PyDyn Regex Contracts.

(** ** Induction over types *)

Section Ind.
Variable P : ftype → Prop.
Hypothesis HStr : ∀ lo hi p, P (TStr lo hi p).
Hypothesis HInt : ∀ lo hi, P (TInt lo hi).
Hypothesis HFloat : ∀ lo hi, P (TFloat lo hi).
Hypothesis HBool : P TBool.
Hypothesis HEnum : ∀ vs, P (TEnum vs).
Hypothesis HUtc : P TUtc.
Hypothesis HAny : ∀ safe, P (TAnyDict safe).
Hypothesis HFloats : P TFloatDict.
Hypothesis HOpt : ∀ t, P t → P (TOptional t).
Hypothesis HTuple : ∀ t lo hi, P t → P (TTuple t lo hi).
Hypothesis HSet : ∀ t lo hi, P t → P (TFrozenset t lo hi).
Hypothesis HModel : ∀ fields validator, Forall (λ f : field, P f.1.2) fields → P (TModel fields validator).

Fixpoint ftype_ind_nested (t : ftype) : P t :=
  match t with
  | TStr lo hi p => HStr lo hi p
  | TInt lo hi => HInt lo hi
  | TFloat lo hi => HFloat lo hi
  | TBool => HBool
  | TEnum vs => HEnum vs
  | TUtc => HUtc
  | TAnyDict safe => HAny safe
  | TFloatDict => HFloats
  | TOptional t => HOpt t (ftype_ind_nested t)
  | TTuple t lo hi => HTuple t lo hi (ftype_ind_nested t)
  | TFrozenset t lo hi => HSet t lo hi (ftype_ind_nested t)
  | TModel fields validator =>
      HModel fields validator
        ((fix go fields : Forall (λ f : field, P f.1.2) fields :=
            match fields with
            | [] => @Forall_nil_2 _ _
            | f :: rest => @Forall_cons_2 _ _ f rest (ftype_ind_nested f.1.2) (go rest)
            end) fields)
  end.
End Ind.

(** The loop of [check] over the fields, named. *)
Fixpoint check_fields parse (fields : list field) (d : mapping) : option mapping :=
  match fields with
  | [] => Some []
  | (name, t, default) :: rest =>
      x ← match dfind name d with Some x => check parse t x | None => default end;
      xs ← check_fields parse rest d;
      Some ((VStr name, x) :: xs)
  end.

Lemma check_model parse fields validator d :
  check parse (TModel fields validator) (VDict d) =
    if negb (forallb (λ kv, known_key (field_names fields) kv.1) d) then None else
    members ← check_fields parse fields d;
    if validator members then Some (VDict members) else None.
Proof.
  cbn [check]. destruct (negb _); [done|].
  match goal with |- mbind _ (?go _) = _ => assert (go fields = check_fields parse fields d) as -> end;
    [|done].
  induction fields as [|[[name t] default] fields IH]; [done|]. cbn. by rewrite IH.
Qed.

(** ** Private reasoning *)

(** Some member of the value, at any depth, has a key that satisfies [p]. *)
Inductive carries (p : string → bool) : val → Prop :=
| carries_here d k x : (VStr k, x) ∈ d → p k = true → carries p (VDict d)
| carries_member d k x : (k, x) ∈ d → carries p x → carries p (VDict d)
| carries_item l x : x ∈ l → carries p x → carries p (VList l).

Lemma existsb_elem {A} (f : A → bool) l : existsb f l = true ↔ ∃ x, x ∈ l ∧ f x = true.
Proof. rewrite existsb_exists. by setoid_rewrite list_elem_of_In. Qed.

Lemma rejects_iff_carries v : rejects_private_reasoning v = true ↔ carries private_key v.
Proof.
  induction v as [|b|z|r|s|l Hl|d Hd|t] using val_ind_nested;
    try (split; [done|by inversion 1]); cbn [rejects_private_reasoning]; rewrite existsb_elem.
  - rewrite Forall_forall in Hl. split.
    + intros (x & Hx & Hr). econstructor; [done|]. by apply Hl.
    + inversion 1 as [| |? x Hx Hc]; subst. exists x. split; [done|]. by apply Hl.
  - rewrite Forall_forall in Hd. split.
    + intros ([k x] & Hx & Hr). cbn in Hr. apply orb_true_iff in Hr as [Hr|Hr].
      * destruct k; try done. by eapply carries_here.
      * eapply carries_member; [done|]. by apply (Hd _ Hx).
    + inversion 1 as [? k x Hx Hp|? k x Hx Hc|]; subst.
      * exists (VStr k, x). cbn. by rewrite Hp.
      * exists (k, x). split; [done|]. cbn [fst snd]. destruct (Hd _ Hx) as [_ IH].
        apply orb_true_iff. right. by apply IH.
Qed.

(** No field name of the type is private, and every free dictionary in it is
    checked. *)
Fixpoint guarded (t : ftype) : bool :=
  match t with
  | TAnyDict safe => safe
  | TFloatDict => false
  | TOptional t | TTuple t _ _ | TFrozenset t _ _ => guarded t
  | TModel fields _ =>
      (fix go (fields : list field) := match fields with
       | [] => true
       | (name, t, _) :: rest => negb (private_key name) && guarded t && go rest
       end) fields
  | _ => true
  end.

Lemma guarded_field fields validator f :
  guarded (TModel fields validator) = true → f ∈ fields →
  private_key f.1.1 = false ∧ guarded f.1.2 = true.
Proof.
  cbn [guarded]. induction fields as [|[[name t] default] fields IH]; [by intros ? ?%elem_of_nil|].
  intros H Hf. apply andb_true_iff in H as [[Hn Hg]%andb_true_iff Hrest].
  apply elem_of_cons in Hf as [-> |Hf]; [|auto]. split; [by apply negb_true_iff|done].
Qed.

Lemma check_fields_found parse fields d members name t default x :
  check_fields parse fields d = Some members → (name, t, default) ∈ fields → dfind name d = Some x →
  is_Some (check parse t x).
Proof.
  revert members. induction fields as [|[[n t'] df] fields IH]; intros members H Hin Hx;
    [by apply elem_of_nil in Hin|].
  cbn in H. apply bind_Some in H as (y & Hy & H). apply bind_Some in H as (ys & Hys & _).
  apply elem_of_cons in Hin as [[= -> -> ->]|Hin]; [|by eapply IH].
  rewrite Hx in Hy. by exists y.
Qed.

Lemma mapM_elem {A B} (f : A → option B) l l' x : mapM f l = Some l' → x ∈ l → is_Some (f x).
Proof.
  intros H%mapM_Some_1 Hx. apply list_elem_of_lookup in Hx as [i Hi].
  eapply Forall2_lookup_l in H as (y & _ & Hy); [|exact Hi]. eauto.
Qed.

Lemma check_guarded parse t :
  ∀ v r, guarded t = true → keys_unique v = true → check parse t v = Some r → ¬ carries private_key v.
Proof.
  induction t as [lo hi p|lo hi|lo hi| |vs| |safe| |t IH|t lo hi IH|t lo hi IH|fields validator IH]
    using ftype_ind_nested; intros v r Hg Hu H Hc.
  1-6: destruct v; try discriminate H; by inversion Hc.
  - destruct v; try discriminate H. cbn [guarded] in Hg. subst. cbn [check andb] in H.
    apply rejects_iff_carries in Hc. by rewrite Hc in H.
  - done.
  - destruct v; try discriminate H; try (by inversion Hc); by eapply IH.
  - destruct v as [| | | | |l| |]; try discriminate H. cbn in H. apply bind_Some in H as (items & Hi & _).
    cbn in Hu. inversion Hc as [| |? x Hx Hcx]; subst.
    apply (mapM_elem _ _ _ _ Hi) in Hx as Hsome. destruct Hsome as [y Hy].
    eapply IH; [done| |done|done]. rewrite forallb_forall in Hu. by apply Hu, list_elem_of_In.
  - destruct v as [| | | | |l| |]; try discriminate H. cbn in H. apply bind_Some in H as (items & Hi & _).
    cbn in Hu. inversion Hc as [| |? x Hx Hcx]; subst.
    apply (mapM_elem _ _ _ _ Hi) in Hx as Hsome. destruct Hsome as [y Hy].
    eapply IH; [done| |done|done]. rewrite forallb_forall in Hu. by apply Hu, list_elem_of_In.
  - destruct v as [| | | | | |d|]; try discriminate H. rewrite check_model in H.
    destruct (forallb (λ kv, known_key _ kv.1) d) eqn:Hk; cbn [negb] in H; [|done].
    apply bind_Some in H as (members & Hm & _). rewrite forallb_forall in Hk.
    assert (∀ k x, (k, x) ∈ d → ∃ name t df, k = VStr name ∧ (name, t, df) ∈ fields) as Hknown.
    { intros k x Hx. apply list_elem_of_In, Hk in Hx. cbn in Hx. destruct k; try done. cbn in Hx.
      bool_prop. unfold field_names in *. apply list_elem_of_fmap in Hx as ([[n t] df] & -> & Hf).
      by exists n, t, df. }
    inversion Hc as [? k x Hx Hp|? k x Hx Hcx|]; subst;
      destruct (Hknown _ _ Hx) as (name & t & df & Hname & Hf);
      destruct (guarded_field _ _ _ Hg Hf) as [Hn Hgt]; cbn [fst snd] in *.
    + injection Hname as ->. congruence.
    + subst k. pose proof (dfind_unique _ _ _ Hu Hx) as Hd.
      destruct (check_fields_found _ _ _ _ _ _ _ _ Hm Hf Hd) as [y Hy].
      rewrite Forall_forall in IH. eapply (IH _ Hf); [done| |done|done]. cbn [snd].
      cbn [keys_unique] in Hu. apply andb_true_iff in Hu as [Hu _]. rewrite forallb_forall in Hu.
      apply list_elem_of_In, Hu, andb_true_iff in Hx as [_ ?]. done.
Qed.

(** ** Types of accepted values *)

Fixpoint typed (t : ftype) (v : val) {struct t} : Prop :=
  match t, v with
  | TStr lo hi pattern, VStr s =>
      in_range lo hi (str_len s) && match pattern with Some p => fullmatch p s | None => true end = true
  | TInt ge le, VInt z | TFloat ge le, VInt z => in_range ge le z = true
  | TFloat ge le, VFloat tok => float_in_range ge le tok = true
  | TBool, VBool _ | TUtc, VInt _ => True
  | TEnum values, VStr s => s ∈ values
  | TAnyDict safe, VDict d => safe && rejects_private_reasoning v = false
  | TFloatDict, VDict d =>
      forallb (λ kv, match kv.2 with VInt _ | VFloat _ => true | _ => false end) d = true
  | TOptional _, VNone => True
  | TOptional t, _ => typed t v
  | TTuple t lo hi, VList l => Forall (typed t) l ∧ in_range lo hi (Z.of_nat (length l)) = true
  | TFrozenset t lo hi, VList l =>
      Forall (typed t) l ∧ in_range lo hi (Z.of_nat (length l)) = true ∧ foldl set_insert [] l = l
  | TModel fields validator, VDict d =>
      (fix go (fields : list field) (d : mapping) := match fields, d with
       | [], [] => True
       | (name, t, _) :: fields, (k, x) :: d => k = VStr name ∧ typed t x ∧ go fields d
       | _, _ => False
       end) fields d ∧ validator d = true
  | _, _ => False
  end.

Fixpoint typed_fields (fields : list field) (d : mapping) : Prop :=
  match fields, d with
  | [], [] => True
  | (name, t, _) :: fields, (k, x) :: d => k = VStr name ∧ typed t x ∧ typed_fields fields d
  | _, _ => False
  end.
Lemma typed_model fields validator d :
  typed (TModel fields validator) (VDict d) ↔ typed_fields fields d ∧ validator d = true.
Proof.
  done.
Qed.

(** Field names are distinct and a default is a value of its type. *)
Fixpoint well_formed (parse : string → option (Z * option Z)) (t : ftype) : Prop :=
  match t with
  | TOptional t | TTuple t _ _ | TFrozenset t _ _ => well_formed parse t
  | TModel fields _ =>
      bool_decide (NoDup (field_names fields)) = true ∧
      (fix go (fields : list field) := match fields with
       | [] => True
       | (_, t, default) :: rest =>
           match default with Some x => check parse t x = Some x | None => True end ∧
           well_formed parse t ∧ go rest
       end) fields
  | _ => True
  end.
Fixpoint fields_well_formed parse (fields : list field) : Prop :=
  match fields with
  | [] => True
  | (_, t, default) :: rest =>
      match default with Some x => check parse t x = Some x | None => True end ∧
      well_formed parse t ∧ fields_well_formed parse rest
  end.
Lemma well_formed_model parse fields validator :
  well_formed parse (TModel fields validator) ↔
  NoDup (field_names fields) ∧ fields_well_formed parse fields.
Proof.
  cbn [well_formed]. rewrite bool_decide_eq_true. split; intros [Hn Hf]; (split; [exact Hn|]);
    clear Hn; revert Hf; induction fields as [|[[name t] df] fields IH]; try done;
    intros (Hd & Ht & Hf); (split_and!; [exact Hd|exact Ht|by apply IH]).
Qed.

Lemma set_insert_fixed l x :
  foldl set_insert [] l = l → foldl set_insert [] (set_insert l x) = set_insert l x.
Proof.
  intros H. destruct (existsb (same_str x) l) eqn:E.
  - assert (set_insert l x = l) as -> by (unfold set_insert; by rewrite E). done.
  - assert (set_insert l x = l ++ [x]) as Hx by (unfold set_insert; by rewrite E).
    rewrite Hx, foldl_app, H. exact Hx.
Qed.
Lemma foldl_set_insert_fixed items acc :
  foldl set_insert [] acc = acc →
  foldl set_insert [] (foldl set_insert acc items) = foldl set_insert acc items.
Proof.
  revert acc. induction items as [|x items IH]; intros acc H; [done|]. cbn. by apply IH, set_insert_fixed.
Qed.
Lemma foldl_set_insert_elem items acc x :
  x ∈ foldl set_insert acc items → x ∈ acc ∨ x ∈ items.
Proof.
  revert acc. induction items as [|y items IH]; intros acc H; [by left|]. cbn in H. apply IH in H.
  rewrite elem_of_cons. destruct H as [H|]; [|by auto]. unfold set_insert in H.
  destruct (existsb _ _); [by left|]. rewrite elem_of_app, list_elem_of_singleton in H. tauto.
Qed.

Lemma mapM_typed (P : val → Prop) (f : val → option val) l l' :
  mapM f l = Some l' → (∀ x y, x ∈ l → f x = Some y → P y) → Forall P l'.
Proof.
  intros H%mapM_Some_1 Hf. induction H as [|x y l l' Hx _ IH]; [constructor|].
  constructor; [apply (Hf x); [left|done]|]. apply IH. intros x' y' Hin. apply Hf. by right.
Qed.

Lemma check_fields_typed parse fields d members :
  Forall (λ f : field, well_formed parse f.1.2 → ∀ v r, check parse f.1.2 v = Some r → typed f.1.2 r)
    fields →
  fields_well_formed parse fields → check_fields parse fields d = Some members →
  typed_fields fields members.
Proof.
  intros Hall. revert members. induction Hall as [|[[name t] df] fields Hf Hall IH];
    intros members Hwf H; [by injection H as <-|].
  cbn in H. apply bind_Some in H as (x & Hx & H). apply bind_Some in H as (xs & Hxs & [= <-]).
  destruct Hwf as (Hdf & Hwt & Hwf). cbn. split_and!; [done| |by apply IH]. cbn in Hf.
  destruct (dfind name d); [by eapply Hf|]. subst df. by eapply Hf.
Qed.

Lemma check_typed parse t : well_formed parse t → ∀ v r, check parse t v = Some r → typed t r.
Proof.
  induction t as [lo hi p|lo hi|lo hi| |vs| |safe| |t IH|t lo hi IH|t lo hi IH|fields validator IH]
    using ftype_ind_nested; intros Hwf v r H.
  - destruct v; try discriminate H. cbn [check] in H. destruct (_ && _) eqn:E; [|done].
    injection H as <-. exact E.
  - destruct v; try discriminate H. cbn in H. destruct (in_range _ _ _) eqn:E; [|done].
    injection H as <-. exact E.
  - destruct v; try discriminate H; cbn [check] in H; destruct (_ _ _ _) eqn:E; try done;
      injection H as <-; exact E.
  - destruct v; try discriminate H. by injection H as <-.
  - destruct v; try discriminate H. cbn in H. case_bool_decide; [|done]. by injection H as <-.
  - destruct v; try discriminate H. cbn in H. unfold utc in H.
    destruct (parse s) as [[? [o|]]|]; try done. destruct (_ =? _)%Z; [|done]. by injection H as <-.
  - destruct v; try discriminate H. cbn [check] in H. destruct (safe && _) eqn:E; [done|].
    injection H as <-. exact E.
  - destruct v; try discriminate H. cbn [check] in H. destruct (forallb _ _) eqn:E; [|done].
    injection H as <-. exact E.
  - destruct v; [by injection H as <-|..]; cbn [check] in H; apply IH in H; try done;
      by destruct r.
  - destruct v as [| | | | |l| |]; try discriminate H. cbn in H. apply bind_Some in H as (items & Hi & H).
    destruct (in_range _ _ _) eqn:E; [|done]. injection H as <-. split; [|done].
    eapply mapM_typed; [done|]. intros x y _. by apply IH.
  - destruct v as [| | | | |l| |]; try discriminate H. cbn in H. apply bind_Some in H as (items & Hi & H).
    destruct (in_range _ _ _) eqn:E; [|done]. injection H as <-. cbn.
    split_and!; [|done|by apply foldl_set_insert_fixed].
    assert (Forall (typed t) items) as Hall by (eapply mapM_typed; [done|]; intros x y _; by apply IH).
    rewrite Forall_forall in Hall |- *. intros x [Hx|Hx]%foldl_set_insert_elem; [by apply elem_of_nil in Hx|].
    by apply Hall.
  - destruct v as [| | | | | |d|]; try discriminate H. rewrite check_model in H.
    destruct (negb _); [done|]. apply bind_Some in H as (members & Hm & H).
    destruct (validator members) eqn:E; [|done]. injection H as <-.
    apply well_formed_model in Hwf as [_ Hwf]. apply typed_model. split; [|done].
    by eapply check_fields_typed.
Qed.

(** ** Round trip *)

Fixpoint dump_fields format (fields : list field) (d : mapping) : mapping :=
  match fields, d with
  | (_, t, _) :: fields, (k, x) :: d => (k, dump format t x) :: dump_fields format fields d
  | _, _ => []
  end.
Lemma dump_model format fields validator d :
  dump format (TModel fields validator) (VDict d) = VDict (dump_fields format fields d).
Proof.
  cbn [dump]. f_equal. revert d. induction fields as [|[[name t] df] fields IH]; [done|].
  intros [|[k x] d]; [done|]. cbn. by rewrite IH.
Qed.

Lemma dump_none format t v : dump format t v = VNone → v = VNone.
Proof. revert v. induction t using ftype_ind_nested; intros []; cbn; try done; auto. Qed.

Section RoundTrip.
Context (parse : string → option (Z * option Z)) (format : Z → string).
Hypothesis Hformat : ∀ t, parse (format t) = Some (t, Some 0%Z).

Lemma mapM_dump t l :
  Forall (λ x, check parse t (dump format t x) = Some x) l →
  mapM (check parse t) (dump format t <$> l) = Some l.
Proof. induction 1 as [|x l Hx _ IH]; [done|]. cbn. rewrite Hx. cbn. cbn in IH. by rewrite IH. Qed.

Lemma dfind_after name pre x d :
  Forall (λ kv, is_key name kv.1 = false) pre → dfind name (pre ++ (VStr name, x) :: d) = Some x.
Proof.
  induction 1 as [|[k v] pre Hk _ IH]; cbn; [by rewrite bool_decide_true|]. cbn in Hk. by rewrite Hk.
Qed.

Lemma check_fields_dump fields : ∀ members pre,
  Forall (λ f : field, well_formed parse f.1.2 → ∀ v, typed f.1.2 v →
    check parse f.1.2 (dump format f.1.2 v) = Some v) fields →
  NoDup (field_names fields) → fields_well_formed parse fields → typed_fields fields members →
  Forall (λ kv, ∀ name, name ∈ field_names fields → is_key name kv.1 = false) pre →
  check_fields parse fields (pre ++ dump_fields format fields members) = Some members.
Proof.
  induction fields as [|[[name t] df] fields IH]; intros members pre Hall Hnd Hwf Hty Hpre.
  { by destruct members. }
  destruct members as [|[k x] members]; [done|]. destruct Hty as (-> & Hx & Hty).
  apply Forall_cons in Hall as [Hf Hall]. apply NoDup_cons in Hnd as [Hfresh Hnd].
  destruct Hwf as (_ & Hwt & Hwf). cbn [check_fields dump_fields].
  rewrite dfind_after by (eapply Forall_impl; [exact Hpre|]; intros kv Hkv; apply Hkv; left).
  cbn in Hf. rewrite (Hf Hwt x Hx). cbn [mbind option_bind].
  change ((VStr name, dump format t x) :: dump_fields format fields members)
    with ([(VStr name, dump format t x)] ++ dump_fields format fields members).
  rewrite app_assoc, IH; try done.
  apply Forall_app. split.
  - eapply Forall_impl; [exact Hpre|]. intros kv Hkv n Hn. apply Hkv. by right.
  - apply Forall_singleton. intros n Hn. cbn. apply bool_decide_false. by intros <-.
Qed.

Lemma dump_known fields members :
  typed_fields fields members →
  forallb (λ kv, known_key (field_names fields) kv.1) (dump_fields format fields members) = true.
Proof.
  assert (∀ names, field_names fields ⊆ names → typed_fields fields members →
    forallb (λ kv, known_key names kv.1) (dump_fields format fields members) = true) as H; [|by apply H].
  intros names. revert members. induction fields as [|[[name t] df] fields IH];
    intros [|[k x] members] Hs Hty; try done.
  destruct Hty as (-> & _ & Hty). cbn. rewrite bool_decide_true by (apply Hs; left).
  apply IH; [|done]. intros n Hn. apply Hs. by right.
Qed.

Lemma check_dump t : well_formed parse t → ∀ v, typed t v → check parse t (dump format t v) = Some v.
Proof.
  induction t as [lo hi p|lo hi|lo hi| |vs| |safe| |t IH|t lo hi IH|t lo hi IH|fields validator IH]
    using ftype_ind_nested; intros Hwf v H.
  - destruct v; try done. cbn [dump check typed] in *. by rewrite H.
  - destruct v; try done. cbn in *. by rewrite H.
  - destruct v; try done; cbn [dump check typed] in *; by rewrite H.
  - by destruct v.
  - destruct v; try done. cbn in *. by rewrite bool_decide_true.
  - destruct v; try done. cbn. unfold utc. by rewrite Hformat.
  - destruct v; try done. cbn [dump check typed] in *. by rewrite H.
  - destruct v; try done. cbn [dump check typed] in *. by rewrite H.
  - destruct v; [done|..]; cbn [typed dump] in *; specialize (IH Hwf _ H);
      match goal with |- check parse (TOptional t) ?d = Some ?v =>
        assert (d ≠ VNone) as Hd by (by intros ?%dump_none); destruct d; done end.
  - destruct v as [| | | | |l| |]; try done. destruct H as [Hall Hr]. cbn.
    rewrite mapM_dump; [cbn; by rewrite Hr|]. eapply Forall_impl; [exact Hall|]. by apply IH.
  - destruct v as [| | | | |l| |]; try done. destruct H as (Hall & Hr & Hd). cbn.
    rewrite mapM_dump; [cbn; by rewrite Hd, Hr|]. eapply Forall_impl; [exact Hall|]. by apply IH.
  - destruct v as [| | | | | |d|]; try done. apply typed_model in H as [Hty Hv].
    apply well_formed_model in Hwf as [Hnd Hwf]. rewrite dump_model, check_model.
    rewrite dump_known by done. cbn [negb].
    pose proof (check_fields_dump fields d [] IH Hnd Hwf Hty ltac:(constructor)) as Hc.
    rewrite app_nil_l in Hc. rewrite Hc. cbn. by rewrite Hv.
Qed.
End RoundTrip.

(** ** The contract's models *)

Lemma models_well_formed parse :
  Forall (well_formed parse) (CORE_MODEL_TYPES ++ SUPPORT_MODEL_TYPES).
Proof.
  repeat apply Forall_cons_2; try apply Forall_nil_2;
    vm_compute; repeat first [exact I|reflexivity|split].
Qed.

Lemma models_guarded t :
  t ∈ CORE_MODEL_TYPES ++ SUPPORT_MODEL_TYPES → t ≠ EvalResult → guarded t = true.
Proof.
  intros Hin Hne. unfold CORE_MODEL_TYPES, SUPPORT_MODEL_TYPES in Hin. cbn [app] in Hin.
  repeat (apply elem_of_cons in Hin as [-> |Hin]; [first [done|vm_compute; reflexivity]|]).
  by apply elem_of_nil in Hin.
Qed.

(** ** A command *)

Definition demo_time (text : string) : option (Z * option Z) :=
  match strip_prefix "t" text with
  | Some s => t ← py_int s; Some (t, Some 0%Z)
  | None => None
  end.
Definition demo_format (t : Z) : string := "t" +:+ int_repr t.
Lemma demo_time_format t : demo_time (demo_format t) = Some (t, Some 0%Z).
Proof.
  unfold demo_time, demo_format, strip_prefix. rewrite startswith_app.
  by rewrite str_drop_app, py_int_repr.
Qed.

Definition demo_ulid (prefix : string) : val := VStr (prefix +:+ "01ARZ3NDEKTSV4RRFFQ69G5FAV").
Definition demo_command : val :=
  sdict [("command_id", demo_ulid "cmd_"); ("command_type", VStr "CMD-TASK-CLAIM");
         ("schema_version", VStr "1.1.0"); ("occurred_at", VStr "t5"); ("tenant_id", demo_ulid "ten_");
         ("correlation_id", demo_ulid "corr_"); ("causation_id", VNone);
         ("idempotency_key", VStr "0123456789abcdef"); ("expected_state_version", VInt 0);
         ("payload", sdict [("note", VList [sdict [("cause", VStr "disk")]])])].
Definition demo_text : string := default "" (dumps default_style demo_command).

(** ** Claims *)

(** a JSON text that any model of the contract but [EvalResult] accepts holds no
    member, at any depth, whose key normalises to a private reasoning key. *)
Theorem accepted_documents_hide_no_reasoning parse t text doc r :
  t ∈ CORE_MODEL_TYPES ++ SUPPORT_MODEL_TYPES → t ≠ EvalResult →
  loads text = Some doc → check parse t doc = Some r → ¬ carries private_key doc.
Proof.
  intros Ht Hne Hl%loads_unique Hc. eapply check_guarded; [by apply models_guarded|done|done].
Qed.
Lemma accepted_documents_hide_no_reasoning_witness :
  loads demo_text = Some demo_command ∧ is_Some (check demo_time CommandEnvelope demo_command) ∧
  ¬ carries private_key demo_command.
Proof.
  assert (loads demo_text = Some demo_command) as Hl by (vm_compute; reflexivity).
  destruct (check demo_time CommandEnvelope demo_command) as [r|] eqn:H;
    [|exfalso; revert H; vm_compute; discriminate].
  split; [exact Hl|]. split; [by exists r|].
  apply (accepted_documents_hide_no_reasoning demo_time CommandEnvelope demo_text demo_command r);
    [|discriminate|exact Hl|exact H].
  unfold CORE_MODEL_TYPES. cbn [app]. do 21 right. left.
Defined.


(** The metrics of an evaluation are not checked. *)
Example metrics_may_name_reasoning :
  is_Some (check demo_time EvalResult (sdict
    [("eval_id", demo_ulid "eval_"); ("producer_sha", VStr "0123456789012345678901234567890123456789");
     ("metrics", sdict [("chain_of_thought", VInt 1)]);
     ("artifact_digest", VStr "0123456789012345678901234567890123456789012345678901234567890123")])).
Proof. vm_compute. by eexists. Qed.
