(* ===== verification/ModelTypes.v ===== *)
(** * Model requests, routes and the capability catalog

    [src/faultwitness/models/types.py], [catalog.py] and the request models of
    [src/faultwitness/contracts/models.py]. *)
From Stdlib Require Import Ascii.
From S2P Require Import Prelude Json Regex.

(** ** Enumerations *)

Inductive ModelFamily := QWEN | DEEPSEEK | GLM.
Inductive ChannelName := BAILIAN | NEWAPI.
Inductive ModelCapability := COMPLETE | STRUCTURED | FORCED_TOOL | STREAM.
Inductive ModelFailureCode :=
  TIMEOUT | RATE_LIMITED | UPSTREAM_UNAVAILABLE | AUTHENTICATION | CONFIGURATION
| INVALID_RESPONSE | INVALID_STRUCTURED_OUTPUT | INVALID_TOOL_ARGUMENTS | INTERRUPTED_STREAM
| POLICY_REJECTED.
Definition failure_code_value (c : ModelFailureCode) : string :=
  match c with
  | TIMEOUT => "timeout" | RATE_LIMITED => "rate_limited"
  | UPSTREAM_UNAVAILABLE => "upstream_unavailable" | AUTHENTICATION => "authentication"
  | CONFIGURATION => "configuration" | INVALID_RESPONSE => "invalid_response"
  | INVALID_STRUCTURED_OUTPUT => "invalid_structured_output"
  | INVALID_TOOL_ARGUMENTS => "invalid_tool_arguments"
  | INTERRUPTED_STREAM => "interrupted_stream" | POLICY_REJECTED => "policy_rejected"
  end.
#[export] Instance family_eq_dec : EqDecision ModelFamily.
Proof. solve_decision. Defined.
#[export] Instance channel_eq_dec : EqDecision ChannelName.
Proof. solve_decision. Defined.
#[export] Instance capability_eq_dec : EqDecision ModelCapability.
Proof. solve_decision. Defined.
#[export] Instance failure_code_eq_dec : EqDecision ModelFailureCode.
Proof. solve_decision. Defined.

(** ** Failures *)

(** [ModelFailure] and its subclass [PartialModelFailure]. *)
Inductive ModelFailure : Type :=
| Failure (code : ModelFailureCode) (retryable pre_output : bool) (status_code : option Z)
| PartialModelFailure (code : ModelFailureCode) (visible_chunks : Z).
Definition failure (code : ModelFailureCode) (retryable : bool) : ModelFailure :=
  Failure code retryable true None.
Definition mf_code (f : ModelFailure) : ModelFailureCode :=
  match f with Failure c _ _ _ | PartialModelFailure c _ => c end.
Definition mf_retryable (f : ModelFailure) : bool :=
  match f with Failure _ r _ _ => r | PartialModelFailure _ _ => false end.
Definition mf_pre_output (f : ModelFailure) : bool :=
  match f with Failure _ _ p _ => p | PartialModelFailure _ _ => false end.

(** What the code raises: a [ModelFailure], or an exception that nothing in the
    gateway converts, by the name of its type. *)
Inductive model_exn : Type :=
| Fail (f : ModelFailure)
| PyExn (name : string).

(** ** Requests *)

Record ModelMessage := {
  mm_role : string;
  mm_content : string;
  mm_name : option string;
  mm_tool_call_id : option string;
}.

Record AgentBudget := {
  deadline : Z;
  max_steps : Z;
  max_model_calls : Z;
  max_tokens : Z;
  max_cost_usd : string;
}.

Record ModelRequest := {
  mq_request_id : string;
  mq_tenant_id : string;
  mq_correlation_id : string;
  mq_model_family : ModelFamily;
  mq_model_id : string;
  mq_messages : list ModelMessage;
  mq_target_json_schema : option mapping;
  mq_tool_schemas : list mapping;
  mq_stream : bool;
  mq_budget : AgentBudget;
}.

Record ModelUsage := {
  input_tokens : Z;
  output_tokens : Z;
  total_tokens : Z;
  cost_usd : option string;
}.
(** [ModelUsage(...)]; [None] is the [ValidationError] *)
Definition new_usage (input output total : Z) (cost : option string) : option ModelUsage :=
  if ((input <? 0) || (output <? 0) || (total <? 0) || negb (total =? input + output))%Z then None
  else Some {| input_tokens := input; output_tokens := output; total_tokens := total; cost_usd := cost |}.

(** ** Responses *)

(** [^[A-Za-z_][A-Za-z0-9_-]{0,63}$] *)
Definition tool_name_pattern : regex :=
  let letter c := between "A" "Z" c || between "a" "z" c in
  RCat (RChar (λ c, letter c || Ascii.eqb c "_"))
    (repeat_range 0 63 (RChar (λ c, letter c || is_digit c || one_of "_-" c))).

Record ToolInvocation := { call_id : string; tool_name : string; tool_arguments : mapping }.
(** [ToolInvocation(call_id=..., name=..., arguments=...)] *)
Definition new_tool_invocation (id name : val) (arguments : mapping) : option ToolInvocation :=
  match id, name with
  | VStr id, VStr name =>
      if (1 <=? str_len id)%Z && (str_len id <=? 256)%Z && fullmatch tool_name_pattern name
      then Some {| call_id := id; tool_name := name; tool_arguments := arguments |} else None
  | _, _ => None
  end.

(** [^\d+\.\d+\.\d+$] *)
Definition version_pattern : regex :=
  RCat (rplus (RChar is_digit)) (RCat (RChar (lit_char "."))
    (RCat (rplus (RChar is_digit)) (RCat (RChar (lit_char ".")) (rplus (RChar is_digit))))).

Record RouteMetadata := {
  rt_channel : ChannelName;
  rt_model_family : ModelFamily;
  rt_requested_model : string;
  rt_resolved_model : string;
  rt_route_policy_version : string;
  rt_catalog_version : string;
  rt_attempt : Z;
  rt_fallback_count : Z;
  rt_repair_count : Z;
  rt_trace_id : string;
}.
(** The constraints of its fields; construction raises [ValidationError] otherwise. *)
Definition route_ok (r : RouteMetadata) : bool :=
  truthy (rt_requested_model r) && truthy (rt_resolved_model r) &&
  fullmatch version_pattern (rt_route_policy_version r) &&
  fullmatch version_pattern (rt_catalog_version r) &&
  (1 <=? rt_attempt r)%Z && (0 <=? rt_fallback_count r)%Z &&
  (0 <=? rt_repair_count r)%Z && (rt_repair_count r <=? 1)%Z && truthy (rt_trace_id r).

Record GatewayResponse := {
  gr_request_id : string;
  gr_response_id : string;
  gr_content : string;
  gr_structured_output : option mapping;
  gr_tool_calls : list ToolInvocation;
  gr_finish_reason : string;
  gr_usage : option ModelUsage;
  gr_usage_unavailable_reason : option string;
  gr_route : RouteMetadata;
}.

Record GatewayChunk := {
  gc_request_id : string;
  gc_sequence : Z;
  gc_delta : string;
  gc_tool_call_delta : string;
  gc_finish_reason : option string;
  gc_usage : option ModelUsage;
  gc_route : RouteMetadata;
}.

(** ** The catalog *)

Record ModelProfile := {
  mp_family : ModelFamily;
  mp_channel : ChannelName;
  mp_model_id : string;
  mp_capabilities : list ModelCapability;
  mp_request_overrides : list (string * bool);
}.
Definition supports (p : ModelProfile) (c : ModelCapability) : bool :=
  bool_decide (c ∈ mp_capabilities p).

(** [routes] in document order; the families of a dict are distinct. *)
Record RoutePolicy := {
  rp_version : string;
  rp_routes : list (ModelFamily * list string);
  rp_max_transient_retries : Z;
  rp_max_repairs : Z;
}.
Record CapabilityCatalog := {
  cc_catalog_version : string;
  cc_profiles : gmap string ModelProfile;
  cc_route_policy : RoutePolicy;
}.

(** The checks of the [Field] bounds and of [routes_reference_compatible_profiles]. *)
Definition policy_in_bounds (p : RoutePolicy) : bool :=
  fullmatch version_pattern (rp_version p) &&
  ((0 <=? rp_max_transient_retries p) && (rp_max_transient_retries p <=? 1) &&
   (0 <=? rp_max_repairs p) && (rp_max_repairs p <=? 1))%Z.

Definition check_route (profiles : gmap string ModelProfile) (family : ModelFamily)
    (index : nat) (name : string) : bool :=
  match profiles !! name with
  | None => false
  | Some p => negb (Nat.eqb index 0) || bool_decide (mp_family p = family)
  end.
Definition check_routes (profiles : gmap string ModelProfile)
    (routes : list (ModelFamily * list string)) : bool :=
  forallb (λ '(family, names),
    match names with
    | [] => false
    | _ => forallb (λ '(index, name), check_route profiles family index name)
             (zip (seq 0 (length names)) names)
    end) routes.

Definition validate_catalog (c : CapabilityCatalog) : option CapabilityCatalog :=
  if fullmatch version_pattern (cc_catalog_version c) && policy_in_bounds (cc_route_policy c) &&
     forallb (λ kv, truthy (mp_model_id kv.2)) (map_to_list (cc_profiles c)) &&
     check_routes (cc_profiles c) (rp_routes (cc_route_policy c))
  then Some c else None.

(** [self.route_policy.routes[family]] *)
Fixpoint routes_of (family : ModelFamily) (routes : list (ModelFamily * list string)) :
    option (list string) :=
  match routes with
  | [] => None
  | (f, names) :: rest => if decide (f = family) then Some names else routes_of family rest
  end.

Definition candidates (c : CapabilityCatalog) (family : ModelFamily) (cap : ModelCapability) :
    result model_exn (list ModelProfile) :=
  let* names := from_option_or (PyExn "KeyError") (routes_of family (rp_routes (cc_route_policy c))) in
  let* profiles := rmapM (λ name, from_option_or (PyExn "KeyError") (cc_profiles c !! name)) names in
  Ok (List.filter (λ p, supports p cap) profiles).

(** A validated catalog answers for every family it routes, with profiles of the
    capability asked for. *)
Lemma routes_of_elem family routes names :
  routes_of family routes = Some names → (family, names) ∈ routes.
Proof.
  induction routes as [|[f ns] routes IH]; simpl; [done|]. case_decide as Hf.
  - intros [= ->]. subst. left.
  - intros Hr. right. auto.
Qed.

Lemma check_routes_known c family names name :
  validate_catalog c = Some c → (family, names) ∈ rp_routes (cc_route_policy c) → name ∈ names →
  is_Some (cc_profiles c !! name).
Proof.
  unfold validate_catalog. intros H Hin Hname.
  case_match eqn:Hb; [|done]. clear H. apply andb_true_iff in Hb as [_ H].
  unfold check_routes in H. rewrite forallb_forall in H.
  apply list_elem_of_In in Hin. specialize (H _ Hin). cbn in H.
  destruct names as [|n0 names]; [done|]. rewrite forallb_forall in H.
  apply list_elem_of_lookup in Hname as [i Hi].
  assert ((i, name) ∈ zip (seq 0 (length (n0 :: names))) (n0 :: names)) as Hz.
  { apply list_elem_of_lookup. exists i. apply lookup_zip_with_Some. exists i, name.
    split_and!; [done| |done]. apply lookup_seq. split; [lia|]. by eapply lookup_lt_Some. }
  apply list_elem_of_In, H in Hz. unfold check_route in Hz. by destruct (cc_profiles c !! name).
Qed.

Lemma candidates_total c family names cap :
  validate_catalog c = Some c → routes_of family (rp_routes (cc_route_policy c)) = Some names →
  ∃ ps, candidates c family cap = Ok ps ∧ length ps ≤ length names ∧
    Forall (λ p, supports p cap = true) ps.
Proof.
  intros Hv Hr. unfold candidates. rewrite Hr. cbn [from_option_or rbind].
  assert (∃ ps, rmapM (E:=model_exn) (λ name, from_option_or (PyExn "KeyError") (cc_profiles c !! name))
    names = Ok ps) as [ps Hps].
  { apply routes_of_elem in Hr.
    assert (∀ name, name ∈ names → is_Some (cc_profiles c !! name)) as Hall
      by (intros name; by apply (check_routes_known c family names)).
    clear Hr. induction names as [|name names IH]; [by eexists|]. cbn [rmapM].
    destruct (Hall name ltac:(left)) as [p ->]. cbn [from_option_or rbind].
    destruct IH as [ps ->]; [by intros n Hn; apply Hall; right|]. by eexists. }
  rewrite Hps. cbn [rbind]. eexists. split; [done|]. apply rmapM_length in Hps. split.
  - rewrite <-Hps. clear. induction ps as [|p ps IH]; simpl; [done|]. destruct (supports p cap); simpl; lia.
  - apply Forall_forall. intros p Hp%list_elem_of_In. by apply filter_In in Hp as [_ ?].
Qed.

Lemma candidates_ok c family cap ps :
  candidates c family cap = Ok ps →
  Forall (λ p, supports p cap = true) ps ∧
  ∀ names, routes_of family (rp_routes (cc_route_policy c)) = Some names → length ps ≤ length names.
Proof.
  unfold candidates. intros H. apply rbind_ok in H as (names & Hn & H).
  apply rbind_ok in H as (all & Hall & [= <-]). apply rmapM_length in Hall. split.
  - apply Forall_forall. intros p Hp%list_elem_of_In. by apply filter_In in Hp as [_ ?].
  - intros names' Hn'. rewrite Hn' in Hn. injection Hn as ->. rewrite <-Hall. clear.
    induction all as [|p all IH]; simpl; [done|]. destruct (supports p cap); simpl; lia.
Qed.

Lemma catalog_bounds c :
  validate_catalog c = Some c →
  (0 <= rp_max_transient_retries (cc_route_policy c) <= 1 ∧
   0 <= rp_max_repairs (cc_route_policy c) <= 1)%Z.
Proof.
  unfold validate_catalog, policy_in_bounds. case_match eqn:Hb; [|done]. intros _. bool_prop. lia.
Qed.
