(* ===== verification/Channel.v ===== *)
(** * The OpenAI-compatible channel: [src/faultwitness/models/channel.py]

    The request document, the reading of a chat completion and the reading of a
    stream.  The transport is an argument: what [httpx] answers to a document. *)
From Stdlib Require Import Ascii.
From S2P Require Import Prelude Json PyDyn Regex ModelTypes.

Record ChannelResult := {
  cr_response_id : string;
  cr_resolved_model : string;
  cr_content : val;   (* not checked by the dataclass *)
  cr_tool_calls : list ToolInvocation;
  cr_finish_reason : string;
  cr_usage : option ModelUsage;
}.

(** ** The transport *)

(** [httpx.TimeoutException], [httpx.TransportError] and the exceptions of
    neither kind. *)
Inductive http_error :=
| TimeoutException
| TransportError
| OtherHttpError (name : string).

Record Response := { status_code : Z; body : string }.
(** A streamed response: its lines, and the error that cut it, if any. *)
Record StreamResponse := {
  stream_status : Z;
  stream_lines : list string;
  stream_end : option http_error;
}.

Definition http_failure (e : http_error) : model_exn :=
  match e with
  | TimeoutException => Fail (failure TIMEOUT true)
  | TransportError => Fail (failure UPSTREAM_UNAVAILABLE true)
  | OtherHttpError name => PyExn name
  end.

(** [_raise_status], for the statuses from 400 on. *)
Definition raise_status (status : Z) : ModelFailure :=
  if bool_decide (status = 429)%Z then Failure RATE_LIMITED true true (Some status)
  else if bool_decide (status ∈ [408; 500; 502; 503; 504]%Z)
  then Failure UPSTREAM_UNAVAILABLE true true (Some status)
  else if bool_decide (status ∈ [401; 403]%Z) then Failure AUTHENTICATION false true (Some status)
  else Failure CONFIGURATION false true (Some status).

(** ** Exceptions of the reading code *)

(** [except (...) as error: raise ModelFailure(...)] for exceptions by name; the
    subclasses of [ValueError] that occur are listed with it. *)
Definition VALUE_ERRORS : list string := ["ValueError"; "JSONDecodeError"; "ValidationError"].
Definition except {A} (names : list string) (f : ModelFailure) (r : pyres A) :
    result model_exn A :=
  match r with
  | Ok a => Ok a
  | Err name => Err (if bool_decide (name ∈ names) then Fail f else PyExn name)
  end.
(** A [ModelFailure] is a [RuntimeError], which those clauses do not name. *)
Definition except_in {A} (names : list string) (f : ModelFailure) (r : result model_exn A) :
    result model_exn A :=
  match r with
  | Err (PyExn name) => Err (if bool_decide (name ∈ names) then Fail f else PyExn name)
  | r => r
  end.

Section Channel.
Context (py_repr : val → string).   (* [str(v)] of floats and containers *)

Definition py_str (v : val) : string :=
  match v with
  | VStr s => s
  | VNone => "None"
  | VBool b => if b then "True" else "False"
  | VInt z => int_repr z
  | _ => py_repr v
  end.

(** ** The request document *)

(** [message.model_dump(exclude_none=True)] *)
Definition message_document (m : ModelMessage) : val :=
  sdict ([("role", VStr (mm_role m)); ("content", VStr (mm_content m))] ++
    match mm_name m with Some n => [("name", VStr n)] | None => [] end ++
    match mm_tool_call_id m with Some i => [("tool_call_id", VStr i)] | None => [] end).

Definition payload (request : ModelRequest) (profile : ModelProfile) (stream : bool) :
    result model_exn mapping :=
  let base :=
    [(VStr "model", VStr (mp_model_id profile));
     (VStr "messages", VList (message_document <$> mq_messages request));
     (VStr "stream", VBool stream)] in
  let p := foldl (λ d kv, dset kv.1 (VBool kv.2) d) base (mp_request_overrides profile) in
  let p := if stream then dset "stream_options" (sdict [("include_usage", VBool true)]) p else p in
  let p := match mq_target_json_schema request with
           | Some _ => dset "response_format" (sdict [("type", VStr "json_object")]) p
           | None => p
           end in
  match mq_tool_schemas request with
  | [] => Ok p
  | schema :: _ =>
      let p := dset "tools" (VList (VDict <$> mq_tool_schemas request)) p in
      let* forced_name := except ["KeyError"; "TypeError"] (failure CONFIGURATION false)
        (let* function := subscript (VDict schema) "function" in subscript function "name") in
      Ok (dset "tool_choice"
            (sdict [("type", VStr "function"); ("function", sdict [("name", forced_name)])]) p)
  end.

(** [_request] over the answer of the transport *)
Definition request_ (answer : http_error + Response) : result model_exn Response :=
  match answer with
  | inl e => Err (http_failure e)
  | inr r => raise_if (400 <=? status_code r)%Z with_ Fail (raise_status (status_code r));; Ok r
  end.

(** ** Reading a completion *)

(** [_usage]: [None] for values it cannot read, and an [OverflowError] for an
    infinite count. *)
Definition usage_ (v : val) : pyres (option ModelUsage) :=
  match v with
  | VDict _ =>
      match
        (let* prompt := subscript v "prompt_tokens" in let* prompt := val_int prompt in
         let* completion := subscript v "completion_tokens" in let* completion := val_int completion in
         from_option_or "ValidationError" (new_usage prompt completion (prompt + completion) None))
      with
      | Ok u => Ok (Some u)
      | Err name => raise_if negb (bool_decide (name ∈ ["KeyError"; "TypeError"] ++ VALUE_ERRORS))
                      with_ name;; Ok None
      end
  | _ => Ok None
  end.

Definition tool_call (raw : val) : result model_exn ToolInvocation :=
  except (["KeyError"; "TypeError"] ++ VALUE_ERRORS) (failure INVALID_TOOL_ARGUMENTS false)
    (let* function := subscript raw "function" in
     let* text := subscript function "arguments" in
     let* arguments := val_loads text in
     match arguments with
     | VDict arguments =>
         let* id := subscript raw "id" in
         let* name := subscript function "name" in
         from_option_or "ValidationError" (new_tool_invocation id name arguments)
     | _ => Err "ValueError"
     end).

Definition lift {A} (r : pyres A) : result model_exn A := rmap_err PyExn r.

Definition tool_calls_ (message : val) : result model_exn (list ToolInvocation) :=
  let* calls := lift (get_attr message "tool_calls" VNone) in
  let* items := lift (iterate (val_or calls (VList []))) in
  rmapM tool_call items.

Definition read_completion (profile : ModelProfile) (text : string) :
    result model_exn ChannelResult :=
  except_in (["KeyError"; "IndexError"; "TypeError"] ++ VALUE_ERRORS)
    (failure INVALID_RESPONSE false)
    (let* document := lift (val_loads (VStr text)) in
     let* choices := lift (subscript document "choices") in
     let* choice := lift (first_item choices) in
     let* message := lift (subscript choice "message") in
     let* content := lift (get_attr message "content" VNone) in
     let* id := lift (subscript document "id") in
     let* model := lift (get_attr document "model" VNone) in
     let* calls := tool_calls_ message in
     let* reason := lift (get_attr choice "finish_reason" VNone) in
     let* usage := lift (get_attr document "usage" VNone) in
     let* usage := lift (usage_ usage) in
     Ok {| cr_response_id := py_str id;
           cr_resolved_model := py_str (val_or model (VStr (mp_model_id profile)));
           cr_content := val_or content (VStr "");
           cr_tool_calls := calls;
           cr_finish_reason := py_str (val_or reason (VStr "unknown"));
           cr_usage := usage |}).

(** [OpenAICompatibleChannel.complete] *)
Definition channel_complete (post : mapping → http_error + Response)
    (request : ModelRequest) (profile : ModelProfile) : result model_exn ChannelResult :=
  let* p := payload request profile false in
  let* response := request_ (post p) in
  read_completion profile (body response).

(** ** Reading a stream *)

(** What one event line carries: a usage-only event, or a choice. *)
Inductive event :=
| UsageEvent (usage : ModelUsage)
| ChoiceEvent (content : val) (tool_delta : string) (finish_reason : val)
    (usage : option ModelUsage).

Definition tool_delta_of (item : val) : pyres string :=
  let* function := get_attr item "function" (VDict []) in
  let* arguments := get_attr function "arguments" VNone in
  Ok (py_str (val_or arguments (VStr ""))).

Definition read_event (data : string) : pyres event :=
  let* document := val_loads (VStr data) in
  let* choices := get_attr document "choices" VNone in
  let choices := val_or choices (VList []) in
  let* usage := get_attr document "usage" VNone in
  let* usage := usage_ usage in
  match val_truthy choices, usage with
  | false, Some u => Ok (UsageEvent u)
  | _, _ =>
      let* choice := first_item choices in
      let* delta := get_attr choice "delta" VNone in
      let delta := val_or delta (VDict []) in
      let* content := get_attr delta "content" VNone in
      let* calls := get_attr delta "tool_calls" VNone in
      let* items := iterate (val_or calls (VList [])) in
      let* deltas := rmapM tool_delta_of items in
      let* reason := get_attr choice "finish_reason" VNone in
      Ok (ChoiceEvent (val_or content (VStr "")) (str_join "" deltas) reason usage)
  end.

Definition event_visible (e : event) : bool :=
  match e with
  | UsageEvent _ => false
  | ChoiceEvent content tool_delta _ _ => val_truthy content || truthy tool_delta
  end.

(** [GatewayChunk(...)] checks the types of [delta] and [finish_reason]. *)
Definition new_chunk (request : ModelRequest) (route : RouteMetadata) (sequence : Z) (e : event) :
    pyres GatewayChunk :=
  let chunk delta tool_delta reason usage :=
    {| gc_request_id := mq_request_id request; gc_sequence := sequence; gc_delta := delta;
       gc_tool_call_delta := tool_delta; gc_finish_reason := reason; gc_usage := usage;
       gc_route := route |} in
  match e with
  | UsageEvent u => Ok (chunk "" "" None (Some u))
  | ChoiceEvent (VStr delta) tool_delta VNone usage => Ok (chunk delta tool_delta None usage)
  | ChoiceEvent (VStr delta) tool_delta (VStr r) usage => Ok (chunk delta tool_delta (Some r) usage)
  | ChoiceEvent _ _ _ _ => Err "ValidationError"
  end.

(** The [except] clause around one line. *)
Definition line_failure (visible : Z) (name : string) : model_exn :=
  if bool_decide (name ∈ ["KeyError"; "IndexError"; "TypeError"] ++ VALUE_ERRORS) then
    if (visible =? 0)%Z then Fail (failure INVALID_RESPONSE false)
    else Fail (PartialModelFailure INTERRUPTED_STREAM visible)
  else PyExn name.

(** The [async for] over the lines: the chunks yielded, the visible ones counted
    so far, and the exception, if one stopped it.  [visible] counts a chunk
    before it is built. *)
Fixpoint read_lines (request : ModelRequest) (route : RouteMetadata) (stop : option http_error)
    (visible sequence : Z) (lines : list string) :
    list GatewayChunk * Z * option (http_error + model_exn) :=
  match lines with
  | [] => ([], visible, option_map inl stop)
  | line :: rest =>
      if negb (startswith line "data:") then read_lines request route stop visible sequence rest
      else
        let data := strip (str_drop 5 line) in
        if bool_decide (data = "[DONE]") then ([], visible, None)
        else
          match read_event data with
          | Err name => ([], visible, Some (inr (line_failure visible name)))
          | Ok e =>
              let visible := if event_visible e then (visible + 1)%Z else visible in
              match new_chunk request route sequence e with
              | Err name => ([], visible, Some (inr (line_failure visible name)))
              | Ok chunk =>
                  let '(chunks, visible, stopped) :=
                    read_lines request route stop visible (sequence + 1)%Z rest in
                  (chunk :: chunks, visible, stopped)
              end
          end
  end.

(** The outer [except] clauses. *)
Definition stream_failure (visible : Z) (e : http_error + model_exn) : model_exn :=
  match e with
  | inr (Fail (PartialModelFailure c n)) => Fail (PartialModelFailure c n)
  | inr (Fail f) => if (visible =? 0)%Z then Fail f else Fail (PartialModelFailure (mf_code f) visible)
  | inr e => e
  | inl (OtherHttpError name) => PyExn name
  | inl e => if (visible =? 0)%Z then http_failure e
             else Fail (PartialModelFailure INTERRUPTED_STREAM visible)
  end.

(** [OpenAICompatibleChannel.stream]: the chunks yielded and the exception, if
    any, that ends them. *)
Definition channel_stream (open_stream : mapping → http_error + StreamResponse)
    (request : ModelRequest) (profile : ModelProfile) (route : RouteMetadata) :
    list GatewayChunk * option model_exn :=
  match payload request profile true with
  | Err e => ([], Some e)
  | Ok p =>
      match open_stream p with
      | inl e => ([], Some (stream_failure 0 (inl e)))
      | inr r =>
          if (400 <=? stream_status r)%Z
          then ([], Some (stream_failure 0 (inr (Fail (raise_status (stream_status r))))))
          else
            let '(chunks, visible, stopped) :=
              read_lines request route (stream_end r) 0 0 (stream_lines r) in
            (chunks, option_map (stream_failure visible) stopped)
      end
  end.
End Channel.

(** ** Facts *)

Definition visible_chunk (c : GatewayChunk) : bool :=
  truthy (gc_delta c) || truthy (gc_tool_call_delta c).
Definition count_visible (cs : list GatewayChunk) : Z :=
  Z.of_nat (length (List.filter visible_chunk cs)).

Lemma new_chunk_visible request route sequence e c :
  new_chunk request route sequence e = Ok c →
  visible_chunk c = event_visible e ∧ gc_sequence c = sequence ∧ gc_route c = route ∧
  gc_request_id c = mq_request_id request.
Proof.
  destruct e as [u|[] td r u]; simpl; try discriminate.
  - intros [= <-]. done.
  - destruct r; try discriminate; by intros [= <-].
Qed.

(** The chunks of a stream are numbered from [sequence] on, carry the route of
    the attempt, and the count of visible ones is right, except that a chunk that
    fails validation last has been counted without having been yielded. *)
Lemma read_lines_spec py_repr request route stop lines visible sequence chunks visible' stopped :
  read_lines py_repr request route stop visible sequence lines = (chunks, visible', stopped) →
  gc_sequence <$> chunks = seqZ sequence (Z.of_nat (length chunks)) ∧
  Forall (λ c, gc_route c = route ∧ gc_request_id c = mq_request_id request) chunks ∧
  (visible + count_visible chunks <= visible' <= visible + count_visible chunks + 1)%Z ∧
  (stopped = None → visible' = visible + count_visible chunks)%Z.
Proof.
  revert visible sequence chunks visible' stopped.
  induction lines as [|line lines IH]; intros visible sequence chunks visible' stopped; cbn [read_lines].
  { intros [= <- <- <-]. unfold count_visible. simpl. split_and!; solve [done|lia|constructor|discriminate|idtac; match goal with |- context [if ?b then _ else _] => destruct b end; lia]. }
  destruct (negb _); [apply IH|]. case_bool_decide.
  { intros [= <- <- <-]. unfold count_visible. simpl. split_and!; solve [done|lia|constructor|discriminate|idtac; match goal with |- context [if ?b then _ else _] => destruct b end; lia]. }
  destruct (read_event _ _) as [e|name].
  2: { intros [= <- <- <-]. unfold count_visible. simpl. split_and!; solve [done|lia|constructor|discriminate|idtac; match goal with |- context [if ?b then _ else _] => destruct b end; lia]. }
  destruct (new_chunk _ _ _ _) as [c|name] eqn:Hc.
  2: { intros [= <- <- <-]. unfold count_visible. simpl.
       destruct (event_visible e); split_and!; solve [done|lia|constructor|discriminate|idtac; match goal with |- context [if ?b then _ else _] => destruct b end; lia]. }
  apply new_chunk_visible in Hc as (Hv & Hs & Hr & Hq).
  destruct (read_lines _ _ _ _ _ _ lines) as [[chunks1 visible1] stopped1] eqn:Hrest.
  intros [= <- <- <-]. apply IH in Hrest as (Hseq & Hall & Hcount & Hend).
  unfold count_visible in *. cbn [List.filter fmap list_fmap length]. rewrite Hv.
  split_and!.
  - rewrite Hseq, Hs. rewrite Nat2Z.inj_succ, (seqZ_cons sequence (Z.succ _)) by lia. by rewrite Z.pred_succ, Z.add_1_r.
  - constructor; [done|exact Hall].
  - destruct (event_visible e); cbn [length]; lia.
  - destruct (event_visible e); cbn [length]; lia.
  - intros Hs'. specialize (Hend Hs'). destruct (event_visible e); cbn [length]; lia.
Qed.

Lemma payload_failure request profile stream f :
  payload request profile stream = Err (Fail f) → f = failure CONFIGURATION false.
Proof.
  unfold payload. destruct (mq_tool_schemas request); [done|].
  intros H. apply rbind_err in H as [H|(? & _ & H)]; [|done]. revert H.
  unfold except. destruct (let* _ := _ in _); [done|]. case_bool_decide; congruence.
Qed.

(** A partial failure of a line carries the count, which is then positive. *)
Lemma read_lines_partial py_repr request route stop lines visible sequence chunks visible' stopped :
  read_lines py_repr request route stop visible sequence lines = (chunks, visible', stopped) →
  (0 <= visible)%Z →
  match stopped with
  | Some (inr (Fail (PartialModelFailure _ n))) => n = visible' ∧ (0 < n)%Z
  | _ => True
  end.
Proof.
  revert visible sequence chunks visible' stopped.
  assert (∀ v name, (0 <= v)%Z → match Some (@inr http_error model_exn (line_failure v name)) with
    | Some (inr (Fail (PartialModelFailure _ n))) => n = v ∧ (0 < n)%Z | _ => True end) as Hline.
  { intros v name Hv. unfold line_failure. case_bool_decide; [|done].
    destruct (v =? 0)%Z eqn:Hz; cbn; lia. }
  induction lines as [|line lines IH]; intros visible sequence chunks visible' stopped; cbn [read_lines].
  { intros [= <- <- <-] _. by destruct stop. }
  destruct (negb _); [apply IH|]. case_bool_decide; [by intros [= <- <- <-]|].
  destruct (read_event _ _) as [e|name]; [|intros [= <- <- <-]; apply Hline].
  destruct (new_chunk _ _ _ _) as [c|name].
  - destruct (read_lines _ _ _ _ _ _ lines) as [[chunks1 visible1] stopped1] eqn:Hrest.
    intros [= <- <- <-] Hv. apply IH in Hrest; [done|]. destruct (event_visible e); lia.
  - intros [= <- <- <-] Hv. apply Hline. destruct (event_visible e); lia.
Qed.

(** ** The exceptions that escape *)

Definition escapes_only {A} (names : list string) (r : result model_exn A) : Prop :=
  ∀ name, r = Err (PyExn name) → name ∈ names.

Lemma escapes_bind {A B} names (r : result model_exn A) (k : A → result model_exn B) :
  escapes_only names r → (∀ a, escapes_only names (k a)) → escapes_only names (let* a := r in k a).
Proof. intros Hr Hk e [?|(a & _ & ?)]%rbind_err; [by apply Hr|by apply (Hk a)]. Qed.
Lemma escapes_ok {A} names (a : A) : escapes_only names (Ok a).
Proof. by intros e. Qed.
Lemma escapes_lift {A} names (r : pyres A) : raises_only names r → escapes_only names (lift r).
Proof. intros Hr name. destruct r; simpl; [done|]. intros [= <-]. by apply Hr. Qed.
Lemma escapes_except {A} names caught f (r : pyres A) :
  raises_only caught r → escapes_only names (except caught f r).
Proof.
  intros Hr name. destruct r as [a|e]; simpl; [done|]. rewrite bool_decide_true by (by apply Hr). done.
Qed.
Lemma escapes_except_in {A} names names' caught f (r : result model_exn A) :
  escapes_only names r → (∀ n, n ∈ names → n ∈ caught ∨ n ∈ names') →
  escapes_only names' (except_in caught f r).
Proof.
  intros Hr Hn name. destruct r as [a|[g|e]]; simpl; [done|done|]. case_bool_decide; [done|].
  intros [= <-]. destruct (Hn e) as [?|?]; [by apply Hr|done|done].
Qed.

Lemma raises_usage v : raises_only ["OverflowError"] (usage_ v).
Proof.
  unfold usage_. destruct v; try apply raises_ok.
  match goal with |- context [match ?r with Ok _ => _ | Err _ => _ end] =>
    assert (raises_only (["KeyError"; "TypeError"; "OverflowError"] ++ VALUE_ERRORS) r) as Hr end.
  { unfold VALUE_ERRORS. raises. }
  match goal with |- context [match ?r with Ok _ => _ | Err _ => _ end] => destruct r as [u|name] end;
    [apply raises_ok|].
  case_bool_decide as Hin; [apply raises_ok|]. simpl. apply raises_err.
  specialize (Hr _ eq_refl). unfold VALUE_ERRORS in *. set_solver.
Qed.

Lemma tool_call_escapes raw : escapes_only [] (tool_call raw).
Proof.
  apply escapes_except. unfold VALUE_ERRORS. raises.
  match goal with |- raises_only _ (match ?v with _ => _ end) => destruct v end; raises.
Qed.

Lemma tool_call_list_escapes items : escapes_only [] (rmapM tool_call items).
Proof.
  induction items as [|raw items IH]; [by intros ?|]. cbn [rmapM].
  apply escapes_bind; [apply tool_call_escapes|].
  intros call. apply escapes_bind; [exact IH|by intros ? ?].
Qed.

Lemma read_completion_escapes py_repr profile text :
  escapes_only ["AttributeError"; "OverflowError"] (read_completion py_repr profile text).
Proof.
  eapply (escapes_except_in (["KeyError"; "IndexError"; "TypeError"; "AttributeError";
    "OverflowError"] ++ VALUE_ERRORS)); [|unfold VALUE_ERRORS; set_solver].
  repeat (apply escapes_bind; [|intros ?]); try apply escapes_ok;
    try (apply escapes_lift; unfold VALUE_ERRORS; raises).
  - intros name Hn. apply tool_call_list_escapes in Hn. set_solver.
  - eapply raises_weaken; [apply raises_usage|set_solver].
Qed.

Lemma payload_escapes request profile stream name :
  payload request profile stream = Err (PyExn name) → False.
Proof.
  unfold payload. destruct (mq_tool_schemas request) as [|schema rest]; [done|].
  intros [H|(? & _ & H)]%rbind_err; [|done].
  assert (escapes_only [] (except ["KeyError"; "TypeError"] (failure CONFIGURATION false)
    (let* function := subscript (VDict schema) "function" in subscript function "name"))) as He
    by (apply escapes_except; raises).
  apply He in H. by apply not_elem_of_nil in H.
Qed.
