(* ===== verification/Gateway.v ===== *)
(** * The model gateway: [src/faultwitness/models/gateway.py]

    Routing with retries, fallbacks and repairs over any channels.  The world of
    a call is the sequence of what the gateway did: the observer's events, the
    calls of channels and the chunks it yielded. *)
From Stdlib Require Import Ascii.
From S2P Require Import Prelude Json PyDyn Regex ModelTypes Channel.

(** ** Sensitive requests *)

(** [\bsk-[A-Za-z0-9_-]{16,}\b] *)
Definition SECRET_KEY : regex :=
  RCat word_boundary (RCat (literal id "sk-")
    (RCat (at_least 16 (RChar (λ c, between "A" "Z" c || between "a" "z" c || is_digit c ||
       one_of "_-" c))) word_boundary)).
(** [\bBearer\s+[A-Za-z0-9._-]{12,}\b] with [re.IGNORECASE] *)
Definition BEARER_TOKEN : regex :=
  RCat word_boundary (RCat (literal nocase "Bearer") (RCat (rplus (RChar is_space))
    (RCat (at_least 12 (RChar (nocase (λ c, between "a" "z" c || is_digit c || one_of "._-" c))))
       word_boundary))).
(** [FW_(?:SECRET|PII|COT)_CANARY] with [re.IGNORECASE] *)
Definition GATEWAY_CANARY : regex :=
  RCat (literal nocase "FW_") (RCat (RAlt (literal nocase "SECRET")
    (RAlt (literal nocase "PII") (literal nocase "COT"))) (literal nocase "_CANARY")).
(** [\b(?:chain[_ -]?of[_ -]?thought|private[_ -]?reasoning)\b] with [re.IGNORECASE] *)
Definition PRIVATE_REASONING : regex :=
  let gap := up_to 1 (RChar (one_of "_ -")) in
  RCat word_boundary (RCat
    (RAlt (RCat (literal nocase "chain") (RCat gap (RCat (literal nocase "of")
             (RCat gap (literal nocase "thought")))))
          (RCat (literal nocase "private") (RCat gap (literal nocase "reasoning"))))
    word_boundary).
Definition SECRET_PATTERNS : list regex :=
  [SECRET_KEY; BEARER_TOKEN; GATEWAY_CANARY; PRIVATE_REASONING].

(** json.dumps(v, sort_keys=True) *)
Definition sorted_style : style := {| compact := false; sorted_keys := true; ascii_only := true |}.

Definition request_document (request : ModelRequest) : val :=
  sdict [("target_json_schema",
          match mq_target_json_schema request with Some s => VDict s | None => VNone end);
         ("tool_schemas", VList (VDict <$> mq_tool_schemas request))].

Definition carries_secret (text : string) : bool := existsb (λ p, search p text) SECRET_PATTERNS.

(** [_reject_sensitive_request] *)
Definition reject_sensitive_request (request : ModelRequest) : result model_exn unit :=
  let* document := from_option_or (PyExn "TypeError") (dumps sorted_style (request_document request)) in
  raise_if existsb carries_secret ((mm_content <$> mq_messages request) ++ [document])
    with_ Fail (failure POLICY_REJECTED false);;
  Ok tt.

Definition capability_of (request : ModelRequest) : ModelCapability :=
  if mq_stream request then STREAM
  else match mq_tool_schemas request with
       | _ :: _ => FORCED_TOOL
       | [] => match mq_target_json_schema request with Some _ => STRUCTURED | None => COMPLETE end
       end.

(** ** Repair *)

Definition REPAIR_INSTRUCTION : string :=
  "Return only one JSON object that strictly satisfies the supplied JSON schema. " +:+
  "Do not add markdown, commentary, or private reasoning.".

Definition with_messages (request : ModelRequest) (messages : list ModelMessage) : ModelRequest :=
  {| mq_request_id := mq_request_id request; mq_tenant_id := mq_tenant_id request;
     mq_correlation_id := mq_correlation_id request; mq_model_family := mq_model_family request;
     mq_model_id := mq_model_id request; mq_messages := messages;
     mq_target_json_schema := mq_target_json_schema request;
     mq_tool_schemas := mq_tool_schemas request; mq_stream := mq_stream request;
     mq_budget := mq_budget request |}.
Definition instruction_like (m : ModelMessage) : ModelMessage :=
  {| mm_role := "user"; mm_content := REPAIR_INSTRUCTION; mm_name := mm_name m;
     mm_tool_call_id := mm_tool_call_id m |}.

(** [_repair_request] *)
Definition repair_request (request : ModelRequest) : result model_exn ModelRequest :=
  match mq_messages request with
  | first :: _ => Ok (with_messages request (mq_messages request ++ [instruction_like first]))
  | [] => Err (PyExn "IndexError")
  end.

(** ** Channels and the log *)

(** A [ModelChannel]: its answers may depend on how many calls were made before. *)
Record ModelChannel := {
  ch_complete : nat → ModelRequest → ModelProfile → RouteMetadata → result model_exn ChannelResult;
  ch_stream : nat → ModelRequest → ModelProfile → RouteMetadata → list GatewayChunk * option model_exn;
}.

(** [OpenAICompatibleChannel] as one, over a transport. *)
Definition openai_channel (py_repr : val → string)
    (post : nat → mapping → http_error + Response)
    (open_stream : nat → mapping → http_error + StreamResponse) : ModelChannel :=
  {| ch_complete := λ n request profile _, channel_complete py_repr (post n) request profile;
     ch_stream := λ n request profile route,
       channel_stream py_repr (open_stream n) request profile route |}.

Inductive gateway_event :=
| AttemptStarted (request_id : string) (route : RouteMetadata)
| Called (request : ModelRequest) (profile : ModelProfile) (route : RouteMetadata)
| AttemptCompleted (request_id : string) (route : RouteMetadata)
| AttemptFailed (request_id : string) (code : ModelFailureCode) (route : RouteMetadata)
| Yielded (chunk : GatewayChunk).

Definition calls (log : list gateway_event) : list (ModelRequest * ModelProfile * RouteMetadata) :=
  omap (λ e, match e with Called r p m => Some (r, p, m) | _ => None end) log.
Definition yields (log : list gateway_event) : list GatewayChunk :=
  omap (λ e, match e with Yielded c => Some c | _ => None end) log.

(** [LoopFuel] is not an exception of the code: it says that a loop was cut. *)
Inductive gateway_exn :=
| Raised (e : model_exn)
| LoopFuel.
Abbreviation AttemptM := (SE (list gateway_event) model_exn).
Abbreviation GatewayM := (SE (list gateway_event) gateway_exn).
Definition record {E} (e : gateway_event) : SE (list gateway_event) E unit :=
  smodify (λ log, log ++ [e]).
Definition glift {A} (r : result model_exn A) : GatewayM A := slift (rmap_err Raised r).

Section Gateway.
Context (check_schema : val → pyres unit).          (* Draft202012Validator.check_schema *)
Context (validate_schema : val → val → pyres unit). (* Draft202012Validator(schema).validate *)
Context (py_repr : val → string).
Context (catalog : CapabilityCatalog) (channels : ChannelName → option ModelChannel).

Definition max_retries : Z := rp_max_transient_retries (cc_route_policy catalog).
Definition max_repairs : Z := rp_max_repairs (cc_route_policy catalog).

(** ** One attempt *)

(** [_route]; [RouteMetadata] checks its fields. *)
Definition route_ (request : ModelRequest) (profile : ModelProfile)
    (attempt fallback_count repair_count : Z) (trace_id : string) (resolved_model : option string) :
    result model_exn RouteMetadata :=
  let r :=
    {| rt_channel := mp_channel profile; rt_model_family := mp_family profile;
       rt_requested_model := mq_model_id request;
       rt_resolved_model :=
         match resolved_model with
         | Some m => if truthy m then m else mp_model_id profile
         | None => mp_model_id profile
         end;
       rt_route_policy_version := rp_version (cc_route_policy catalog);
       rt_catalog_version := cc_catalog_version catalog;
       rt_attempt := attempt; rt_fallback_count := fallback_count;
       rt_repair_count := repair_count; rt_trace_id := trace_id |} in
  if route_ok r then Ok r else Err (PyExn "ValidationError").

(** [_validate_structured] *)
Definition validate_structured (result : ChannelResult) (schema : mapping) :
    Prelude.result model_exn mapping :=
  except ["SchemaError"; "jsonschema.ValidationError"; "JSONDecodeError"]
    (failure INVALID_STRUCTURED_OUTPUT false)
    (let* _ := check_schema (VDict schema) in
     let* value := val_loads (cr_content result) in
     match value with
     | VDict d => let* _ := validate_schema (VDict schema) value in Ok d
     | _ => Err "jsonschema.ValidationError"
     end).

(** [definitions[str(function["name"])] = function["parameters"]] *)
Definition tool_definition (definitions : gmap string val) (item : mapping) :
    pyres (gmap string val) :=
  let* function := subscript (VDict item) "function" in
  let* name := subscript function "name" in
  let* parameters := subscript function "parameters" in
  Ok (<[py_str py_repr name := parameters]> definitions).

Definition check_call (definitions : gmap string val) (call : ToolInvocation) : pyres unit :=
  let* schema := from_option_or "KeyError" (definitions !! tool_name call) in
  let* _ := check_schema schema in
  validate_schema schema (VDict (tool_arguments call)).

(** [_validate_tool_calls] *)
Definition validate_tool_calls (result : ChannelResult) (schemas : list mapping) :
    Prelude.result model_exn unit :=
  raise_if bool_decide (length (cr_tool_calls result) = 0)
    with_ Fail (failure INVALID_TOOL_ARGUMENTS false);;
  except ["KeyError"; "SchemaError"; "jsonschema.ValidationError"; "TypeError"]
    (failure INVALID_TOOL_ARGUMENTS false)
    (let* definitions := rfold tool_definition schemas ∅ in
     rfold (λ _ call, check_call definitions call) (cr_tool_calls result) tt).

(** [GatewayResponse(...)]: a content that is not a string is refused. *)
Definition new_response (request : ModelRequest) (result : ChannelResult)
    (structured : option mapping) (route : RouteMetadata) : Prelude.result model_exn GatewayResponse :=
  match cr_content result with
  | VStr content =>
      Ok {| gr_request_id := mq_request_id request; gr_response_id := cr_response_id result;
            gr_content := content; gr_structured_output := structured;
            gr_tool_calls := cr_tool_calls result; gr_finish_reason := cr_finish_reason result;
            gr_usage := cr_usage result;
            gr_usage_unavailable_reason :=
              match cr_usage result with Some _ => None | None => Some "upstream_omitted_usage" end;
            gr_route := route |}
  | _ => Err (PyExn "ValidationError")
  end.

Definition call_channel (ch : ModelChannel) (request : ModelRequest) (profile : ModelProfile)
    (route : RouteMetadata) : AttemptM ChannelResult :=
  let! log := sget in
  record (Called request profile route) ;;;
  slift (ch_complete ch (length (calls log)) request profile route).

(** The numbers that change from one attempt to the next. *)
Record Progress := {
  pg_request : ModelRequest;
  pg_attempt : Z;
  pg_repair_count : Z;
}.

(** The end of a successful attempt. *)
Definition finish_attempt (profile : ModelProfile) (fallback_count : Z) (trace_id : string)
    (pg : Progress) (result : ChannelResult) (structured : option mapping) :
    AttemptM (option GatewayResponse) :=
  let request := pg_request pg in
  let! resolved := slift (route_ request profile (pg_attempt pg) fallback_count
    (pg_repair_count pg) trace_id (Some (cr_resolved_model result))) in
  let! response := slift (new_response request result structured resolved) in
  record (AttemptCompleted (mq_request_id request) resolved) ;;;
  sret (Some response).

(** The body of the [try]; [None] is the [continue] after a repair. *)
Definition try_attempt (ch : ModelChannel) (profile : ModelProfile) (fallback_count : Z)
    (trace_id : string) (pg : Progress) (route : RouteMetadata) : AttemptM (option GatewayResponse) :=
  let request := pg_request pg in
  let finish := finish_attempt profile fallback_count trace_id pg in
  let! result := call_channel ch request profile route in
  let! _ := slift (match mq_tool_schemas request with
                   | [] => Ok tt
                   | schemas => validate_tool_calls result schemas
                   end) in
  match mq_target_json_schema request with
  | None => finish result None
  | Some schema =>
      match validate_structured result schema with
      | Ok structured => finish result (Some structured)
      | Err (Fail f) => if (max_repairs <=? pg_repair_count pg)%Z then sraise (Fail f) else sret None
      | Err e => sraise e
      end
  end.

Definition fatal (code : ModelFailureCode) : bool :=
  match code with
  | AUTHENTICATION | CONFIGURATION | INVALID_TOOL_ARGUMENTS | POLICY_REJECTED => true
  | _ => false
  end.

(** ** [complete] *)

(** How the [while] loop of a profile ends. *)
Inductive loop_exit :=
| Returned (response : GatewayResponse)
| Broke (last_error : ModelFailure) (pg : Progress).

Fixpoint attempt_loop (fuel : nat) (ch : ModelChannel) (profile : ModelProfile)
    (fallback_count : Z) (trace_id : string) (retries : Z) (pg : Progress) : GatewayM loop_exit :=
  match fuel with
  | O => sraise LoopFuel
  | S fuel =>
      let pg := {| pg_request := pg_request pg; pg_attempt := (pg_attempt pg + 1)%Z;
                   pg_repair_count := pg_repair_count pg |} in
      let! route := glift (route_ (pg_request pg) profile (pg_attempt pg) fallback_count
                             (pg_repair_count pg) trace_id None) in
      record (AttemptStarted (mq_request_id (pg_request pg)) route) ;;;
      λ log,
        match try_attempt ch profile fallback_count trace_id pg route log with
        | (Ok (Some response), log) => (Ok (Returned response), log)
        | (Ok None, log) =>
            match repair_request (pg_request pg) with
            | Ok request =>
                attempt_loop fuel ch profile fallback_count trace_id retries
                  {| pg_request := request; pg_attempt := pg_attempt pg;
                     pg_repair_count := (pg_repair_count pg + 1)%Z |} log
            | Err e => (Err (Raised e), log)
            end
        | (Err (Fail f), log) =>
            (record (AttemptFailed (mq_request_id (pg_request pg)) (mf_code f) route) ;;;
             if mf_retryable f && (0 <? retries)%Z
             then attempt_loop fuel ch profile fallback_count trace_id (retries - 1)%Z pg
             else if fatal (mf_code f) then sraise (Raised (Fail f))
             else sret (Broke f pg)) log
        | (Err e, log) => (Err (Raised e), log)
        end
  end.

(** Every iteration but the last uses up a retry or a repair. *)
Definition loop_fuel (pg : Progress) : nat :=
  S (Z.to_nat max_retries + Z.to_nat (max_repairs - pg_repair_count pg)).

Fixpoint try_profiles (profiles : list ModelProfile) (fallback_count : Z) (trace_id : string)
    (pg : Progress) (last_error : option ModelFailure) : GatewayM GatewayResponse :=
  match profiles with
  | [] => match last_error with
          | Some f => sraise (Raised (Fail f))
          | None => sraise (Raised (PyExn "AssertionError"))
          end
  | profile :: rest =>
      match channels (mp_channel profile) with
      | None => try_profiles rest (fallback_count + 1)%Z trace_id pg
                  (Some (failure CONFIGURATION false))
      | Some ch =>
          let! exit := attempt_loop (loop_fuel pg) ch profile fallback_count trace_id max_retries pg in
          match exit with
          | Returned response => sret response
          | Broke f pg =>
              if negb (mf_pre_output f) then sraise (Raised (Fail f))
              else try_profiles rest (fallback_count + 1)%Z trace_id pg (Some f)
          end
      end
  end.

Definition complete (trace_id : string) (request : ModelRequest) : GatewayM GatewayResponse :=
  glift (reject_sensitive_request request) ;;;
  let capability := capability_of request in
  if bool_decide (capability = STREAM) then sraise (Raised (Fail (failure CONFIGURATION false))) else
  let! profiles := glift (candidates catalog (mq_model_family request) capability) in
  match profiles with
  | [] => sraise (Raised (Fail (failure CONFIGURATION false)))
  | _ => try_profiles profiles 0 trace_id
           {| pg_request := request; pg_attempt := 0; pg_repair_count := 0 |} None
  end.

(** ** [stream] *)

Inductive stream_exit :=
| Finished
| StreamBroke (last_error : ModelFailure) (attempt : Z).

(** One call of [channel.stream], its chunks yielded one by one. *)
Definition relay (ch : ModelChannel) (request : ModelRequest) (profile : ModelProfile)
    (route : RouteMetadata) : GatewayM (Z * option model_exn) := λ log,
  let '(chunks, stopped) := ch_stream ch (length (calls log)) request profile route in
  (Ok (count_visible chunks, stopped),
   log ++ Called request profile route :: (Yielded <$> chunks)).

Fixpoint stream_loop (fuel : nat) (ch : ModelChannel) (request : ModelRequest)
    (profile : ModelProfile) (fallback_count : Z) (trace_id : string) (retries attempt : Z) :
    GatewayM stream_exit :=
  match fuel with
  | O => sraise LoopFuel
  | S fuel =>
      let attempt := (attempt + 1)%Z in
      let! route := glift (route_ request profile attempt fallback_count 0 trace_id None) in
      let! (visible, stopped) := relay ch request profile route in
      match stopped with
      | None => sret Finished
      | Some (Fail (PartialModelFailure c n)) => sraise (Raised (Fail (PartialModelFailure c n)))
      | Some (Fail f) =>
          if negb (visible =? 0)%Z then sraise (Raised (Fail (PartialModelFailure (mf_code f) visible)))
          else if mf_retryable f && (0 <? retries)%Z
          then stream_loop fuel ch request profile fallback_count trace_id (retries - 1)%Z attempt
          else if negb (mf_retryable f) then sraise (Raised (Fail f))
          else sret (StreamBroke f attempt)
      | Some e => sraise (Raised e)
      end
  end.

Definition stream_fuel : nat := S (Z.to_nat max_retries).

Fixpoint stream_profiles (profiles : list ModelProfile) (request : ModelRequest)
    (fallback_count : Z) (trace_id : string) (attempt : Z) (last_error : option ModelFailure) :
    GatewayM unit :=
  match profiles with
  | [] => sraise (Raised (Fail (default (failure CONFIGURATION false) last_error)))
  | profile :: rest =>
      match channels (mp_channel profile) with
      | None => stream_profiles rest request (fallback_count + 1)%Z trace_id attempt last_error
      | Some ch =>
          let! exit := stream_loop stream_fuel ch request profile fallback_count trace_id
                         max_retries attempt in
          match exit with
          | Finished => sret tt
          | StreamBroke f attempt =>
              stream_profiles rest request (fallback_count + 1)%Z trace_id attempt (Some f)
          end
      end
  end.

Definition stream (trace_id : string) (request : ModelRequest) : GatewayM unit :=
  glift (reject_sensitive_request request) ;;;
  if negb (mq_stream request) then sraise (Raised (Fail (failure CONFIGURATION false))) else
  let! profiles := glift (candidates catalog (mq_model_family request) STREAM) in
  match profiles with
  | [] => sraise (Raised (Fail (failure CONFIGURATION false)))
  | _ => stream_profiles profiles request 0 trace_id 0 None
  end.
End Gateway.
