(* ===== verification/GatewayTheorems.v ===== *)
(** * Theorems of the model gateway

    Bounded effort, conforming answers, requests that may leave, and the failure
    behaviour of streams, over any channels and any schema validator. *)
From Stdlib Require Import Ascii.
From S2P Require Import Prelude Json PyDyn Regex ModelTypes Channel Gateway.

(** ** The log *)

Lemma calls_app a b : calls (a ++ b) = calls a ++ calls b.
Proof. apply omap_app. Qed.
Lemma yields_app a b : yields (a ++ b) = yields a ++ yields b.
Proof. apply omap_app. Qed.
Lemma calls_yielded cs : calls (Yielded <$> cs) = [].
Proof. by induction cs. Qed.
Lemma yields_yielded cs : yields (Yielded <$> cs) = cs.
Proof. induction cs as [|c cs IH]; cbn; [done|]. unfold yields in IH. by rewrite IH. Qed.

Definition quiet (log : list gateway_event) : Prop := count_visible (yields log) = 0%Z.

(** ** Repaired requests *)

Definition repaired (n : nat) (request : ModelRequest) : ModelRequest :=
  match mq_messages request with
  | first :: _ => with_messages request (mq_messages request ++ repeat (instruction_like first) n)
  | [] => request
  end.

Lemma repaired_0 request : repaired 0 request = request.
Proof.
  unfold repaired. destruct (mq_messages request) eqn:Hm; [done|]. rewrite <-Hm. cbn [repeat].
  rewrite app_nil_r. by destruct request.
Qed.

Lemma repair_repaired n request request' :
  repair_request (repaired n request) = Ok request' → request' = repaired (S n) request.
Proof.
  unfold repair_request, repaired. destruct (mq_messages request) as [|first rest] eqn:Hm.
  { by rewrite Hm. }
  cbn [with_messages mq_messages app]. intros [= <-]. unfold with_messages. cbn. f_equal.
  by rewrite <-app_assoc, <-repeat_cons.
Qed.

(** ** Schema checks *)

Lemma except_ok {A} names f (r : pyres A) a : except names f r = Ok a → r = Ok a.
Proof. destruct r; simpl; congruence. Qed.

Section Gateway.
Context (check_schema : val → pyres unit) (validate_schema : val → val → pyres unit).
Context (py_repr : val → string).
Context (catalog : CapabilityCatalog) (channels : ChannelName → option ModelChannel).

Abbreviation R := (max_retries catalog).
Abbreviation Repairs := (max_repairs catalog).

(** What the schemas of a request demand of a result. *)
Definition call_conforms (schemas : list mapping) (call : ToolInvocation) : Prop :=
  ∃ definitions schema, rfold (tool_definition py_repr) schemas ∅ = Ok definitions ∧
    definitions !! tool_name call = Some schema ∧
    validate_schema schema (VDict (tool_arguments call)) = Ok tt.

Record conforms (request : ModelRequest) (response : GatewayResponse) : Prop := {
  cf_request : gr_request_id response = mq_request_id request;
  cf_tools : mq_tool_schemas request ≠ [] →
    gr_tool_calls response ≠ [] ∧
    Forall (call_conforms (mq_tool_schemas request)) (gr_tool_calls response);
  cf_structured :
    match mq_target_json_schema request with
    | Some schema => ∃ d, gr_structured_output response = Some d ∧
        loads (gr_content response) = Some (VDict d) ∧
        validate_schema (VDict schema) (VDict d) = Ok tt
    | None => gr_structured_output response = None
    end;
  cf_usage : gr_usage response = None ↔ gr_usage_unavailable_reason response ≠ None;
}.

Lemma validate_tool_calls_ok result schemas :
  validate_tool_calls check_schema validate_schema py_repr result schemas = Ok tt →
  cr_tool_calls result ≠ [] ∧ Forall (call_conforms schemas) (cr_tool_calls result).
Proof.
  unfold validate_tool_calls. case_bool_decide as Hlen; [done|]. intros Hv%except_ok.
  apply rbind_ok in Hv as (definitions & Hd & Hv). split; [by intros Hn; rewrite Hn in Hlen|].
  clear Hlen. induction (cr_tool_calls result) as [|call rest IH]; [constructor|].
  cbn [rfold] in Hv. destruct (check_call _ _ _ call) as [[]|] eqn:Hc; cbn [rbind] in Hv; [|done].
  constructor; [|auto]. unfold check_call in Hc. res_inv. exists definitions. eexists. eauto.
Qed.

Lemma validate_structured_ok result schema d :
  validate_structured check_schema validate_schema result schema = Ok d →
  ∃ s, cr_content result = VStr s ∧ loads s = Some (VDict d) ∧
    validate_schema (VDict schema) (VDict d) = Ok tt.
Proof.
  unfold validate_structured. intros Hv%except_ok.
  apply rbind_ok in Hv as ([] & _ & Hv). apply rbind_ok in Hv as (v & Hl%val_loads_ok & Hv).
  destruct Hl as (s & Hs & Hl). destruct v; try done.
  apply rbind_ok in Hv as ([] & Hok & [= <-]). eauto.
Qed.

(** ** One attempt *)

Abbreviation try_attempt := (try_attempt check_schema validate_schema py_repr catalog).
Abbreviation attempt_loop := (attempt_loop check_schema validate_schema py_repr catalog).
Abbreviation try_profiles := (try_profiles check_schema validate_schema py_repr catalog channels).
Abbreviation complete := (complete check_schema validate_schema py_repr catalog channels).

(** The answer a response was made of. *)
Definition made_of (ch : ModelChannel) (n : nat) (request : ModelRequest) (profile : ModelProfile)
    (route : RouteMetadata) (response : GatewayResponse) : Prop :=
  ∃ result, ch_complete ch n request profile route = Ok result ∧
    cr_content result = VStr (gr_content response) ∧
    cr_tool_calls result = gr_tool_calls response ∧ cr_usage result = gr_usage response ∧
    rt_channel (gr_route response) = mp_channel profile ∧
    rt_model_family (gr_route response) = mp_family profile ∧
    rt_attempt (gr_route response) = rt_attempt route.

Lemma route_fields request profile attempt fb repair tid resolved route :
  route_ catalog request profile attempt fb repair tid resolved = Ok route →
  rt_channel route = mp_channel profile ∧ rt_model_family route = mp_family profile ∧
  rt_attempt route = attempt ∧ rt_repair_count route = repair ∧ rt_fallback_count route = fb.
Proof. unfold route_. destruct (route_ok _); [|done]. by intros [= <-]. Qed.

Definition structured_fits (request : ModelRequest) (result : ChannelResult)
    (structured : option mapping) : Prop :=
  match mq_target_json_schema request with
  | Some schema => ∃ d s, structured = Some d ∧ cr_content result = VStr s ∧
      loads s = Some (VDict d) ∧ validate_schema (VDict schema) (VDict d) = Ok tt
  | None => structured = None
  end.

Lemma finish_attempt_spec profile fb tid pg result structured log r log' :
  finish_attempt catalog profile fb tid pg result structured log = (r, log') →
  structured_fits (pg_request pg) result structured →
  (mq_tool_schemas (pg_request pg) ≠ [] → cr_tool_calls result ≠ [] ∧
     Forall (call_conforms (mq_tool_schemas (pg_request pg))) (cr_tool_calls result)) →
  calls log' = calls log ∧ r ≠ Ok None ∧
  ∀ response, r = Ok (Some response) → conforms (pg_request pg) response ∧
    cr_content result = VStr (gr_content response) ∧
    cr_tool_calls result = gr_tool_calls response ∧ cr_usage result = gr_usage response ∧
    rt_channel (gr_route response) = mp_channel profile ∧
    rt_model_family (gr_route response) = mp_family profile ∧
    rt_attempt (gr_route response) = pg_attempt pg.
Proof.
  intros H Hstr Htools. unfold finish_attempt, sbind, slift, record, smodify, sret in H.
  destruct (route_ _ _ _ _ _ _ _ _) as [route|e] eqn:Hroute; [|by injection H as <- <-].
  apply route_fields in Hroute as (Hc & Hf & Ha & _).
  unfold new_response in H. destruct (cr_content result) eqn:Hcontent; try by injection H as <- <-.
  injection H as <- <-. split_and!; [by rewrite calls_app, app_nil_r|done|].
  intros response [= <-]. simpl. split_and!; try done. constructor; simpl; try done.
  - unfold structured_fits in Hstr. destruct (mq_target_json_schema _); [|done].
    destruct Hstr as (d & s' & -> & Hs & Hl & Hok). rewrite Hcontent in Hs. simplify_eq. eauto.
  - by destruct (cr_usage result).
Qed.

Lemma try_attempt_spec ch profile fb tid pg route log r log' :
  try_attempt ch profile fb tid pg route log = (r, log') → rt_attempt route = pg_attempt pg →
  calls log' = calls log ++ [(pg_request pg, profile, route)] ∧
  (r = Ok None → (pg_repair_count pg < Repairs)%Z) ∧
  (∀ response, r = Ok (Some response) → conforms (pg_request pg) response ∧
     made_of ch (length (calls log)) (pg_request pg) profile route response).
Proof.
  unfold Gateway.try_attempt, call_channel, sbind, sget, slift, record, smodify, sret, sraise.
  intros H Hroute.
  assert (calls (log ++ [Called (pg_request pg) profile route])
    = calls log ++ [(pg_request pg, profile, route)]) as Hcalls by apply calls_app.
  destruct (ch_complete ch _ _ _ _) as [result|e] eqn:Hch; [|by injection H as <- <-].
  destruct (match mq_tool_schemas (pg_request pg) with [] => Ok tt | _ => _ end) as [[]|e] eqn:Htools;
    [|by injection H as <- <-].
  assert (mq_tool_schemas (pg_request pg) ≠ [] → cr_tool_calls result ≠ [] ∧
     Forall (call_conforms (mq_tool_schemas (pg_request pg))) (cr_tool_calls result)) as Hcf.
  { intros Hne. destruct (mq_tool_schemas (pg_request pg)) eqn:Hs; [done|].
    by apply validate_tool_calls_ok. }
  assert (∀ structured, structured_fits (pg_request pg) result structured →
    finish_attempt catalog profile fb tid pg result structured
      (log ++ [Called (pg_request pg) profile route]) = (r, log') →
    calls log' = calls log ++ [(pg_request pg, profile, route)] ∧
    (r = Ok None → (pg_repair_count pg < Repairs)%Z) ∧
    (∀ response, r = Ok (Some response) → conforms (pg_request pg) response ∧
     made_of ch (length (calls log)) (pg_request pg) profile route response)) as Hfinish.
  { intros structured Hfit Hrun. apply finish_attempt_spec in Hrun as (Hl & Hn & Hr); [|done..].
    split_and!; [congruence|done|]. intros response Hresp. apply Hr in Hresp as [? Hmade].
    split; [done|]. exists result. rewrite Hroute. tauto. }
  unfold structured_fits in Hfinish.
  destruct (mq_target_json_schema (pg_request pg)) as [schema|]; [|by apply (Hfinish None)].
  destruct (validate_structured _ _ _ _) as [d|[f|name]] eqn:Hv.
  - apply validate_structured_ok in Hv as (s & ? & ? & ?). apply (Hfinish (Some d)); [|done].
    by exists d, s.
  - destruct (_ <=? _)%Z eqn:Hle; injection H as <- <-; split_and!; try done.
    intros _. lia.
  - by injection H as <- <-.
Qed.

(** ** The attempts at one profile *)

(** What each call of a run was made with. *)
Definition call_ok (request : ModelRequest) (profile : ModelProfile) (fb : Z)
    (c : ModelRequest * ModelProfile * RouteMetadata) : Prop :=
  let '(rq, p, m) := c in
  rq = repaired (Z.to_nat (rt_repair_count m)) request ∧ p = profile ∧
  rt_channel m = mp_channel profile ∧ rt_model_family m = mp_family profile ∧
  rt_fallback_count m = fb ∧ (0 <= rt_repair_count m <= Repairs)%Z.

Definition attempt_of (c : ModelRequest * ModelProfile * RouteMetadata) : Z := rt_attempt c.2.

Record progress_ok (request : ModelRequest) (pg : Progress) : Prop := {
  po_request : pg_request pg = repaired (Z.to_nat (pg_repair_count pg)) request;
  po_repairs : (0 <= pg_repair_count pg <= Repairs)%Z;
}.

Definition loop_post (request : ModelRequest) (ch : ModelChannel) (profile : ModelProfile)
    (retries : Z) (pg : Progress) (log : list gateway_event)
    (new : list (ModelRequest * ModelProfile * RouteMetadata))
    (r : Prelude.result gateway_exn loop_exit) : Prop :=
  match r with
  | Ok (Returned response) =>
      ∃ init rq m, new = init ++ [(rq, profile, m)] ∧ conforms rq response ∧
        made_of ch (length (calls log) + length init) rq profile m response
  | Ok (Broke f pg') =>
      progress_ok request pg' ∧ pg_attempt pg' = (pg_attempt pg + Z.of_nat (length new))%Z ∧
      (pg_repair_count pg <= pg_repair_count pg')%Z ∧
      (Z.of_nat (length new) <= 1 + retries + (pg_repair_count pg' - pg_repair_count pg))%Z
  | Err LoopFuel => False
  | Err (Raised _) => True
  end.

Lemma attempt_loop_spec request ch profile fb tid fuel : ∀ retries pg log r log',
  attempt_loop fuel ch profile fb tid retries pg log = (r, log') →
  progress_ok request pg → (0 <= retries)%Z →
  Z.to_nat retries + Z.to_nat (Repairs - pg_repair_count pg) < fuel →
  ∃ new, calls log' = calls log ++ new ∧ Forall (call_ok request profile fb) new ∧
    attempt_of <$> new = seqZ (pg_attempt pg + 1) (Z.of_nat (length new)) ∧
    (Z.of_nat (length new) <= 1 + retries + (Repairs - pg_repair_count pg))%Z ∧
    loop_post request ch profile retries pg log new r.
Proof.
  induction fuel as [|fuel IH]; intros retries pg log r log' H [Hreq Hrep] Hret Hfuel; [lia|].
  cbn [Gateway.attempt_loop] in H. unfold glift, slift, sbind at 1, rmap_err in H.
  set (pg1 := {| pg_request := _; pg_attempt := _; pg_repair_count := _ |}) in H.
  destruct (route_ _ _ _ _ _ _ _ _) as [route|e] eqn:Hroute.
  2: { injection H as <- <-. exists []. rewrite app_nil_r. cbn. split_and!; try done; lia. }
  apply route_fields in Hroute as (Hc & Hf & Ha & Hrc & Hfb).
  unfold sbind at 1, record, smodify in H.
  set (log1 := log ++ [AttemptStarted _ _]) in H.
  assert (calls log1 = calls log) as Hlog1 by (unfold log1; by rewrite calls_app, app_nil_r).
  destruct (try_attempt ch profile fb tid pg1 route log1) as [res log2] eqn:Hone.
  apply try_attempt_spec in Hone as (Hl2 & Hnone & Hsome); [|done]. rewrite Hlog1 in *.
  set (c := (pg_request pg1, profile, route)) in *.
  assert (call_ok request profile fb c) as Hcok.
  { unfold c, call_ok. rewrite Hrc. cbn. split_and!; done || lia. }
  assert (attempt_of <$> [c] = seqZ (pg_attempt pg + 1) 1) as Hseq1.
  { unfold c, attempt_of. cbn. by rewrite Ha. }
  (* the call followed by a later part of the loop *)
  assert (∀ retries' pg' log3, calls log3 = calls log2 →
    attempt_loop fuel ch profile fb tid retries' pg' log3 = (r, log') →
    progress_ok request pg' → pg_attempt pg' = (pg_attempt pg + 1)%Z → (0 <= retries')%Z →
    (pg_repair_count pg <= pg_repair_count pg' ∧
     retries' - pg_repair_count pg' = retries - pg_repair_count pg - 1)%Z →
    ∃ new, calls log' = calls log ++ new ∧ Forall (call_ok request profile fb) new ∧
      attempt_of <$> new = seqZ (pg_attempt pg + 1) (Z.of_nat (length new)) ∧
      (Z.of_nat (length new) <= 1 + retries + (Repairs - pg_repair_count pg))%Z ∧
      loop_post request ch profile retries pg log new r) as Hmore.
  { intros retries' pg' log3 Hl3 Hrun Hok Hatt Hret' Hdec. pose proof (po_repairs _ _ Hok).
    apply IH in Hrun as (new & Hn & Hall & Hseq & Hlen & Hpost); [|done|done|lia].
    exists (c :: new). rewrite Hn, Hl3, Hl2, <-app_assoc. split; [done|]. split; [by constructor|].
    split.
    { rewrite fmap_cons, Hseq, Hatt. cbn [length]. rewrite Nat2Z.inj_succ.
      rewrite (seqZ_cons (pg_attempt pg + 1) (Z.succ _)) by lia. rewrite Z.pred_succ.
      f_equal. exact Ha. }
    split; [cbn [length]; lia|]. unfold loop_post in *. destruct r as [[response|f pg2]|[]]; try done.
    - destruct Hpost as (init & rq & m & -> & Hcf & Hmade). exists (c :: init), rq, m.
      split; [done|]. split; [done|]. rewrite Hl3, Hl2, length_app in Hmade. cbn [length] in *.
      by replace (length (calls log) + S (length init)) with (length (calls log) + 1 + length init) by lia.
    - destruct Hpost as (Hok2 & Hatt2 & Hle & Hlen2). cbn [length]. split_and!; try done; lia. }
  destruct res as [[response|]|[f|name]].
  - injection H as <- <-. exists [c]. destruct (Hsome response eq_refl) as [Hcf Hmade].
    split_and!; [done|by constructor|done|cbn; lia|]. exists [], (pg_request pg1), route.
    cbn [length]. rewrite Nat.add_0_r. done.
  - destruct (repair_request (pg_request pg1)) as [request'|e] eqn:Hrr.
    2: { injection H as <- <-. exists [c]. split_and!; try done; [by constructor|cbn; lia]. }
    specialize (Hnone eq_refl). cbn in Hnone.
    eapply Hmore; [done|exact H|..]; cbn; try lia. constructor; cbn; [|lia].
    unfold pg1 in Hrr. cbn in Hrr. rewrite Hreq in Hrr. apply repair_repaired in Hrr as ->.
    f_equal. lia.
  - unfold sbind in H. set (log3 := log2 ++ [AttemptFailed _ _ _]) in H.
    assert (calls log3 = calls log2) as Hl3 by (unfold log3; by rewrite calls_app, app_nil_r).
    destruct (mf_retryable f && (0 <? retries)%Z) eqn:Hretry.
    { bool_prop. eapply Hmore; [done|exact H|..]; cbn; try lia. by constructor. }
    destruct (fatal (mf_code f)); injection H as <- <-; exists [c]; rewrite Hl3, Hl2;
      (split_and!; [done|by constructor|done|cbn; lia|]); [done|].
    cbn. split_and!; try lia. by constructor.
  - injection H as <- <-. exists [c]. split_and!; try done; [by constructor|cbn; lia].
Qed.

(** ** All profiles *)

Definition answered (request : ModelRequest) (profiles : list ModelProfile) (before : nat)
    (new : list (ModelRequest * ModelProfile * RouteMetadata)) (response : GatewayResponse) : Prop :=
  ∃ init rq p m ch, new = init ++ [(rq, p, m)] ∧ p ∈ profiles ∧
    channels (mp_channel p) = Some ch ∧ conforms rq response ∧
    made_of ch (before + length init) rq p m response.

Lemma seqZ_app a m n : (0 <= m)%Z → (0 <= n)%Z → seqZ a m ++ seqZ (a + m) n = seqZ a (m + n).
Proof. intros. by rewrite <-seqZ_app. Qed.

Lemma call_ok_more request p (ps : list ModelProfile) fb new :
  Forall (call_ok request p fb) new → p ∈ ps →
  Forall (λ c, ∃ p fb, p ∈ ps ∧ call_ok request p fb c) new.
Proof. intros Hall Hp. eapply Forall_impl; [exact Hall|]. intros c Hc. eauto. Qed.

Lemma try_profiles_spec request tid profiles : (0 <= R)%Z → ∀ fb pg last log r log',
  try_profiles profiles fb tid pg last log = (r, log') → progress_ok request pg →
  ∃ new, calls log' = calls log ++ new ∧
    Forall (λ c, ∃ p fb, p ∈ profiles ∧ call_ok request p fb c) new ∧
    attempt_of <$> new = seqZ (pg_attempt pg + 1) (Z.of_nat (length new)) ∧
    (Z.of_nat (length new) <= (1 + R) * Z.of_nat (length profiles) + (Repairs - pg_repair_count pg))%Z ∧
    r ≠ Err LoopFuel ∧
    ∀ response, r = Ok response → answered request profiles (length (calls log)) new response.
Proof.
  intros HR. induction profiles as [|p ps IH]; intros fb pg last log r log' H Hok;
    pose proof (po_repairs _ _ Hok) as Hrep; cbn [Gateway.try_profiles] in H.
  { exists []. destruct last; injection H as <- <-; rewrite app_nil_r; cbn; split_and!; done || lia. }
  destruct (channels (mp_channel p)) as [ch|] eqn:Hch.
  2: { apply IH in H as (new & Hn & Hall & Hseq & Hlen & Hfuel & Hresp); [|done].
       exists new. split_and!; try done.
       - eapply Forall_impl; [exact Hall|]. intros c (q & fb' & Hq & Hc). exists q, fb'. split; [by right|done].
       - cbn [length]. lia.
       - intros response Hr. destruct (Hresp _ Hr) as (init & rq & q & m & ch & ? & ? & ?).
         exists init, rq, q, m, ch. split; [done|]. split; [by right|done]. }
  unfold sbind in H. destruct (attempt_loop _ _ _ _ _ _ _ _) as [res log1] eqn:Hloop.
  apply (attempt_loop_spec request) in Hloop as (new & Hn & Hall & Hseq & Hlen & Hpost);
    [|done|done|unfold loop_fuel; lia].
  assert (p ∈ p :: ps) as Hin by left.
  assert (Forall (λ c, ∃ p0 fb, p0 ∈ p :: ps ∧ call_ok request p0 fb c) new) as Hall'
    by by eapply call_ok_more.
  assert ((1 + R) * Z.of_nat (length (p :: ps)) = (1 + R) + (1 + R) * Z.of_nat (length ps))%Z as Hmul
    by (cbn [length]; lia).
  destruct res as [[response|f pg']|[e|]]; [| |injection H as <- <-; exists new; split_and!; done || nia|done].
  - injection H as <- <-. exists new. split_and!; try done; [nia|]. intros ? [= <-].
    destruct Hpost as (init & rq & m & -> & Hcf & Hmade). exists init, rq, p, m, ch. done.
  - destruct Hpost as (Hok' & Hatt & Hle & Hlen').
    destruct (negb (mf_pre_output f)).
    { injection H as <- <-. exists new. split_and!; done || nia. }
    apply IH in H as (new2 & Hn2 & Hall2 & Hseq2 & Hlen2 & Hfuel & Hresp); [|done].
    exists (new ++ new2). rewrite Hn2, Hn, app_assoc, length_app, Nat2Z.inj_add.
    split_and!; try done.
    + apply Forall_app. split; [done|]. eapply Forall_impl; [exact Hall2|].
      intros c (q & fb' & Hq & Hc). exists q, fb'. split; [by right|done].
    + rewrite fmap_app, Hseq, Hseq2, Hatt, <-seqZ_app by lia. do 2 f_equal. lia.
    + lia.
    + intros response Hr. destruct (Hresp _ Hr) as (init & rq & q & m & ch' & -> & Hq & Hc & Hcf & Hmade).
      exists (new ++ init), rq, q, m, ch'. rewrite <-app_assoc. split; [done|]. split; [by right|].
      split; [done|]. split; [done|]. rewrite Hn, length_app in Hmade.
      by rewrite length_app, Nat.add_assoc.
Qed.

Lemma conforms_repaired n request response :
  conforms (repaired n request) response → conforms request response.
Proof.
  unfold repaired. destruct (mq_messages request); [done|]. intros [H1 H2 H3 H4]. by constructor.
Qed.

Lemma repaired_0_progress request :
  (0 <= Repairs)%Z →
  progress_ok request {| pg_request := request; pg_attempt := 0; pg_repair_count := 0 |}.
Proof. intros. constructor; cbn; [by rewrite repaired_0|lia]. Qed.

Definition clean (request : ModelRequest) : Prop :=
  Forall (λ m, carries_secret (mm_content m) = false) (mq_messages request) ∧
  ∃ text, dumps sorted_style (request_document request) = Some text ∧ carries_secret text = false.

Lemma reject_sensitive_clean request : reject_sensitive_request request = Ok tt → clean request.
Proof.
  unfold reject_sensitive_request. intros H. res_inv.
  match goal with H : existsb _ _ = false |- _ => rename H into Hex end.
  rewrite existsb_app in Hex. apply orb_false_iff in Hex as [Hm Hd]. split.
  - clear -Hm. induction (mq_messages request) as [|m ms IH]; [constructor|].
    cbn in Hm. apply orb_false_iff in Hm as [? ?]. constructor; auto.
  - cbn in Hd. rewrite orb_false_r in Hd. eauto.
Qed.

Lemma complete_spec tid request r log :
  validate_catalog catalog = Some catalog → complete tid request [] = (r, log) →
  r ≠ Err LoopFuel ∧
  (∀ names, routes_of (mq_model_family request) (rp_routes (cc_route_policy catalog)) = Some names →
     Z.of_nat (length (calls log)) <= (1 + R) * Z.of_nat (length names) + Repairs)%Z ∧
  attempt_of <$> calls log = seqZ 1 (Z.of_nat (length (calls log))) ∧
  (calls log ≠ [] → clean request) ∧
  ∃ profiles, Forall (λ p, supports p (capability_of request) = true) profiles ∧
    Forall (λ c, ∃ p fb, p ∈ profiles ∧ call_ok request p fb c) (calls log) ∧
    ∀ response, r = Ok response → answered request profiles 0 (calls log) response.
Proof.
  intros Hv H. pose proof (catalog_bounds _ Hv) as [[HR _] [HRep _]].
  change (0 <= R)%Z in HR. change (0 <= Repairs)%Z in HRep.
  unfold Gateway.complete, sbind, glift, slift, rmap_err in H.
  assert (∀ e, (Err (Raised e), []) = (r, log) → r ≠ Err LoopFuel ∧
    (∀ names, routes_of (mq_model_family request) (rp_routes (cc_route_policy catalog)) = Some names →
       Z.of_nat (length (calls log)) <= (1 + R) * Z.of_nat (length names) + Repairs)%Z ∧
    attempt_of <$> calls log = seqZ 1 (Z.of_nat (length (calls log))) ∧
    (calls log ≠ [] → clean request) ∧
    ∃ profiles, Forall (λ p, supports p (capability_of request) = true) profiles ∧
      Forall (λ c, ∃ p fb, p ∈ profiles ∧ call_ok request p fb c) (calls log) ∧
      ∀ response, r = Ok response → answered request profiles 0 (calls log) response) as Hraised.
  { intros e [= <- <-]. split_and!; try done; [intros; change (length (calls [])) with 0; nia|].
    exists []. split_and!; [constructor|constructor|done]. }
  destruct (reject_sensitive_request request) as [[]|e] eqn:Hs; [|by eapply Hraised].
  apply reject_sensitive_clean in Hs. case_bool_decide; [by eapply Hraised|].
  destruct (candidates _ _ _) as [profiles|e] eqn:Hcand; [|by eapply Hraised].
  assert (Forall (λ p, supports p (capability_of request) = true) profiles ∧
    ∀ names, routes_of (mq_model_family request) (rp_routes (cc_route_policy catalog)) = Some names →
      length profiles ≤ length names) as [Hsup Hlen].
  { by eapply candidates_ok. }
  destruct profiles as [|p ps]; [by eapply Hraised|].
  apply (try_profiles_spec request) in H as (new & Hn & Hall & Hseq & Hbound & Hfuel & Hresp);
    [|lia|by apply repaired_0_progress]. cbn in Hn, Hseq. rewrite Hn.
  split_and!; try done.
  - intros names Hnames%Hlen. cbn [pg_repair_count] in Hbound. nia.
  - exists (p :: ps). done.
Qed.
(** ** Streams *)

Abbreviation stream_loop := (stream_loop catalog).
Abbreviation stream_profiles := (stream_profiles catalog channels).
Abbreviation stream := (stream catalog channels).

(** Everything before the last call of a channel is invisible. *)
Definition one_visible_attempt (log : list gateway_event) : Prop :=
  ∃ pre rq p m chunks, log = pre ++ Called rq p m :: (Yielded <$> chunks) ∧ quiet pre.

Definition stream_post {A} (retries : Z) (log log' : list gateway_event)
    (r : Prelude.result gateway_exn A) : Prop :=
  (Z.of_nat (length (calls log')) <= Z.of_nat (length (calls log)) + retries)%Z ∧
  (log' = log ∨ one_visible_attempt log') ∧
  match r with
  | Err LoopFuel => False
  | Err (Raised (Fail f)) => quiet log' ∨ ∃ c n, f = PartialModelFailure c n
  | _ => True
  end.

Definition broke_quiet (log' : list gateway_event) (r : Prelude.result gateway_exn stream_exit) : Prop :=
  match r with Ok (StreamBroke _ _) => quiet log' | _ => True end.

Lemma stream_loop_spec request ch profile fb tid fuel : ∀ retries attempt log r log',
  stream_loop fuel ch request profile fb tid retries attempt log = (r, log') →
  quiet log → (0 <= retries)%Z → Z.to_nat retries < fuel →
  stream_post (1 + retries) log log' r ∧ broke_quiet log' r.
Proof.
  induction fuel as [|fuel IH]; intros retries attempt log r log' H Hq Hret Hfuel; [lia|].
  cbn [Gateway.stream_loop] in H. unfold glift, slift, sbind at 1, rmap_err in H.
  destruct (route_ _ _ _ _ _ _ _ _) as [route|e] eqn:Hroute.
  2: { injection H as <- <-. split; [|done]. split_and!; [lia|by left|]. destruct e; [|done]. by left. }
  unfold sbind at 1, relay in H.
  destruct (ch_stream ch _ _ _ _) as [chunks stopped] eqn:Hch.
  set (log1 := log ++ Called request profile route :: (Yielded <$> chunks)) in H.
  assert (length (calls log1) = S (length (calls log))) as Hlen.
  { unfold log1. rewrite calls_app, length_app. cbn [calls omap list_omap]. rewrite calls_yielded. cbn. lia. }
  assert (one_visible_attempt log1) as Hone by (by exists log, request, profile, route, chunks).
  assert (count_visible (yields log1) = count_visible chunks) as Hcount.
  { unfold log1. rewrite yields_app. cbn [yields omap list_omap]. rewrite yields_yielded.
    unfold quiet, count_visible in *. rewrite List.filter_app, length_app. lia. }
  destruct stopped as [[f|name]|]; unfold sret, sraise in H.
  2,3: injection H as <- <-; (split; [|done]); split_and!; [lia|by right|done].
  destruct f as [c ry po sc|c n].
  2: { injection H as <- <-. split; [|done]. split_and!; [lia|by right|eauto]. }
  destruct (count_visible chunks =? 0)%Z eqn:Hvis; cbn [negb] in H.
  2: { injection H as <- <-. split; [|done]. split_and!; [lia|by right|eauto]. }
  assert (quiet log1) as Hq1 by (unfold quiet; lia).
  destruct (mf_retryable _ && (0 <? retries)%Z) eqn:Hretry.
  { bool_prop. apply IH in H as [(Hl & Hv & Hr) Hb]; [|done|lia|lia]. split; [|done].
    split_and!; [lia| |done]. right. destruct Hv as [-> |Hv]; done. }
  destruct (negb _); injection H as <- <-; (split; [|done]); split_and!; try lia; auto.
Qed.

Lemma stream_profiles_spec request tid profiles : (0 <= R)%Z → ∀ fb attempt last log r log',
  stream_profiles profiles request fb tid attempt last log = (r, log') → quiet log →
  stream_post ((1 + R) * Z.of_nat (length profiles)) log log' r.
Proof.
  intros HR. induction profiles as [|p ps IH]; intros fb attempt last log r log' H Hq;
    cbn [Gateway.stream_profiles] in H.
  { injection H as <- <-. split_and!; [cbn; lia|by left|by left]. }
  assert ((1 + R) * Z.of_nat (length (p :: ps)) = (1 + R) + (1 + R) * Z.of_nat (length ps))%Z as Hmul
    by (cbn [length]; lia).
  destruct (channels (mp_channel p)) as [ch|].
  2: { apply IH in H as (Hl & Hv & Hr); [|done]. split_and!; [nia|done|done]. }
  unfold sbind in H. destruct (stream_loop _ _ _ _ _ _ _ _ _) as [res log1] eqn:Hloop.
  apply stream_loop_spec in Hloop as [(Hl & Hv & Hr) Hb]; [|done|done|unfold stream_fuel; lia].
  destruct res as [[|f attempt']|e].
  - injection H as <- <-. split_and!; [nia|done|done].
  - apply IH in H as (Hl2 & Hv2 & Hr2); [|done]. split_and!; [nia| |done].
    destruct Hv2 as [-> |?]; auto.
  - injection H as <- <-. split_and!; [nia|done|done].
Qed.
End Gateway.

(** ** A catalog with two profiles, a rate-limited channel and one that answers
    prose first *)

Definition demo_profile (channel : ChannelName) : ModelProfile :=
  {| mp_family := QWEN; mp_channel := channel; mp_model_id := "qwen-max";
     mp_capabilities := [COMPLETE; STRUCTURED; FORCED_TOOL; STREAM]; mp_request_overrides := [] |}.
Definition demo_catalog : CapabilityCatalog :=
  {| cc_catalog_version := "1.0.0";
     cc_profiles := {["primary" := demo_profile BAILIAN; "spare" := demo_profile NEWAPI]};
     cc_route_policy := {| rp_version := "1.0.0"; rp_routes := [(QWEN, ["primary"; "spare"])];
                           rp_max_transient_retries := 1; rp_max_repairs := 1 |} |}.
Definition demo_request (stream : bool) : ModelRequest :=
  {| mq_request_id := "mreq_1"; mq_tenant_id := "ten_1"; mq_correlation_id := "corr_1";
     mq_model_family := QWEN; mq_model_id := "qwen-max";
     mq_messages := [{| mm_role := "user"; mm_content := "is the service healthy?"; mm_name := None;
                        mm_tool_call_id := None |}];
     mq_target_json_schema := if stream then None else Some [(VStr "type", VStr "object")];
     mq_tool_schemas := []; mq_stream := stream;
     mq_budget := {| deadline := 0; max_steps := 1; max_model_calls := 3; max_tokens := 4096;
                     max_cost_usd := "5" |} |}.
Definition demo_result (text : string) : ChannelResult :=
  {| cr_response_id := "r1"; cr_resolved_model := ""; cr_content := VStr text; cr_tool_calls := [];
     cr_finish_reason := "stop"; cr_usage := None |}.
Definition demo_chunk (request : ModelRequest) (route : RouteMetadata) (n : Z) (delta : string) :
    GatewayChunk :=
  {| gc_request_id := mq_request_id request; gc_sequence := n; gc_delta := delta;
     gc_tool_call_delta := ""; gc_finish_reason := None; gc_usage := None; gc_route := route |}.
Definition demo_channel (name : ChannelName) : option ModelChannel :=
  Some match name with
  | BAILIAN =>
      {| ch_complete := λ _ _ _ _, Err (Fail (raise_status 429));
         ch_stream := λ _ rq _ m, ([demo_chunk rq m 0 ""], Some (Fail (raise_status 429))) |}
  | NEWAPI =>
      {| ch_complete := λ n _ _ _,
           Ok (demo_result (if Nat.eqb n 2 then "all good" else "{" +:+ dumps_str default_style "ok" +:+ ": true}"));
         ch_stream := λ _ rq _ m,
           ([demo_chunk rq m 0 "he"; demo_chunk rq m 1 "llo"], Some (Fail (failure TIMEOUT true))) |}
  end.
Definition demo_validate (schema v : val) : pyres unit :=
  match v with VDict _ => Ok tt | _ => Err "jsonschema.ValidationError" end.
Definition demo_complete : Prelude.result gateway_exn GatewayResponse * list gateway_event :=
  complete (λ _, Ok tt) demo_validate (λ _, "") demo_catalog demo_channel "trace" (demo_request false) [].

Lemma demo_catalog_valid : validate_catalog demo_catalog = Some demo_catalog.
Proof. vm_compute. reflexivity. Qed.

(** ** Claims *)

(** [complete] always ends, whatever the channels answer, and calls them at
    most once per profile of the family's route and retry, and once per repair; the
    attempts are numbered 1, 2, ... *)
Theorem complete_effort_is_bounded check_schema validate_schema py_repr catalog channels tid
    request names :
  validate_catalog catalog = Some catalog →
  routes_of (mq_model_family request) (rp_routes (cc_route_policy catalog)) = Some names →
  let '(r, log) := complete check_schema validate_schema py_repr catalog channels tid request [] in
  r ≠ Err LoopFuel ∧
  (Z.of_nat (length (calls log)) <=
     (1 + max_retries catalog) * Z.of_nat (length names) + max_repairs catalog)%Z ∧
  (λ c, rt_attempt c.2) <$> calls log = seqZ 1 (Z.of_nat (length (calls log))).
Proof.
  intros Hv Hn. destruct (complete _ _ _ _ _ _ _ _) as [r log] eqn:H.
  apply complete_spec in H as (Hf & Hl & Ha & _); auto.
Qed.
Lemma complete_effort_is_bounded_witness :
  length (calls demo_complete.2) = 4 ∧
  let '(r, log) := demo_complete in
  r ≠ Err LoopFuel ∧
  (Z.of_nat (length (calls log)) <=
     (1 + max_retries demo_catalog) * 2 + max_repairs demo_catalog)%Z ∧
  (λ c, rt_attempt c.2) <$> calls log = seqZ 1 (Z.of_nat (length (calls log))).
Proof.
  split; [vm_compute; reflexivity|].
  exact (complete_effort_is_bounded (λ _, Ok tt) demo_validate (λ _, "") demo_catalog demo_channel
    "trace" (demo_request false) ["primary"; "spare"] demo_catalog_valid eq_refl).
Defined.

(** C34: what [complete] returns satisfies the schemas of the request: every tool
    call is one of the request's tools with valid arguments, a structured output is
    the object its content parses to and validates; usage is present or its absence
    explained; and it is what the last channel called answered, for a profile that
    supports the capability asked for. *)
Theorem complete_answers_conform check_schema validate_schema py_repr catalog channels tid request
    response log :
  validate_catalog catalog = Some catalog →
  complete check_schema validate_schema py_repr catalog channels tid request [] = (Ok response, log) →
  conforms validate_schema py_repr request response ∧
  ∃ init rq p m ch, calls log = init ++ [(rq, p, m)] ∧ supports p (capability_of request) = true ∧
    channels (mp_channel p) = Some ch ∧ made_of ch (length init) rq p m response.
Proof.
  intros Hv H. apply complete_spec in H as (_ & _ & _ & _ & ps & Hsup & Hall & Hresp); [|done].
  destruct (Hresp _ eq_refl) as (init & rq & p & m & ch & Hc & Hp & Hch & Hcf & Hmade). split.
  - rewrite Hc, Forall_app, Forall_singleton in Hall. destruct Hall as [_ (q & fb & _ & Hok & _)].
    rewrite Hok in Hcf. by apply conforms_repaired in Hcf.
  - exists init, rq, p, m, ch. rewrite Forall_forall in Hsup. auto.
Qed.
Lemma complete_answers_conform_witness :
  ∃ response log, demo_complete = (Ok response, log) ∧
  conforms demo_validate (λ _, "") (demo_request false) response ∧
  ∃ init rq p m ch, calls log = init ++ [(rq, p, m)] ∧
    supports p (capability_of (demo_request false)) = true ∧
    demo_channel (mp_channel p) = Some ch ∧ made_of ch (length init) rq p m response.
Proof.
  destruct demo_complete as [[response|e] log] eqn:H; [|exfalso; revert H; vm_compute; discriminate].
  exists response, log. split; [done|].
  exact (complete_answers_conform (λ _, Ok tt) demo_validate (λ _, "") demo_catalog demo_channel
    "trace" (demo_request false) response log demo_catalog_valid H).
Defined.


(** once a stream has shown output, no other attempt is made and any failure
    that follows is a [PartialModelFailure]; the stream always ends, within one
    attempt per profile and retry. *)
Theorem stream_switches_only_before_output catalog channels tid request names :
  validate_catalog catalog = Some catalog →
  routes_of (mq_model_family request) (rp_routes (cc_route_policy catalog)) = Some names →
  let '(r, log) := stream catalog channels tid request [] in
  r ≠ Err LoopFuel ∧
  (Z.of_nat (length (calls log)) <= (1 + max_retries catalog) * Z.of_nat (length names))%Z ∧
  (calls log = [] ∨ one_visible_attempt log) ∧
  (∀ f, r = Err (Raised (Fail f)) → (0 < count_visible (yields log))%Z →
     ∃ c n, f = PartialModelFailure c n).
Proof.
  intros Hv Hn. pose proof (catalog_bounds _ Hv) as [[HR _] _]. change (0 <= max_retries catalog)%Z in HR.
  destruct (stream _ _ _ _ _) as [r log] eqn:H.
  unfold Gateway.stream, sbind, glift, slift, rmap_err in H.
  assert (∀ e, (Err (Raised e), []) = (r, log) → r ≠ Err LoopFuel ∧
    (Z.of_nat (length (calls log)) <= (1 + max_retries catalog) * Z.of_nat (length names))%Z ∧
    (calls log = [] ∨ one_visible_attempt log) ∧
    (∀ f, r = Err (Raised (Fail f)) → (0 < count_visible (yields log))%Z →
       ∃ c n, f = PartialModelFailure c n)) as Hraised.
  { intros e [= <- <-]. split_and!; [done|change (length (calls [])) with 0; nia|by left|].
    intros f _ Hlt. by vm_compute in Hlt. }
  destruct (reject_sensitive_request request) as [[]|e]; [|by eapply Hraised].
  destruct (negb _); [by eapply Hraised|].
  destruct (candidates _ _ _) as [profiles|e] eqn:Hcand; [|by eapply Hraised].
  apply candidates_ok in Hcand as [_ Hlen]. apply Hlen in Hn.
  destruct profiles as [|p ps]; [by eapply Hraised|].
  apply stream_profiles_spec in H as (Hl & Hone & Hr); [|done|done]. split_and!.
  - intros ->. done.
  - change (length (calls [])) with 0 in Hl. nia.
  - destruct Hone as [-> |?]; [by left|by right].
  - intros f -> Hlt. destruct Hr as [Hq|?]; [|done]. unfold quiet in Hq. lia.
Qed.
Lemma stream_switches_only_before_output_witness :
  let '(r, log) := stream demo_catalog demo_channel "trace" (demo_request true) [] in
  (r = Err (Raised (Fail (PartialModelFailure TIMEOUT 2))) ∧ length (calls log) = 3 ∧
   length (yields log) = 4) ∧
  r ≠ Err LoopFuel ∧
  (Z.of_nat (length (calls log)) <= (1 + max_retries demo_catalog) * 2)%Z ∧
  (calls log = [] ∨ one_visible_attempt log) ∧
  (∀ f, r = Err (Raised (Fail f)) → (0 < count_visible (yields log))%Z →
     ∃ c n, f = PartialModelFailure c n).
Proof.
  pose proof (stream_switches_only_before_output demo_catalog demo_channel "trace" (demo_request true)
    ["primary"; "spare"] demo_catalog_valid eq_refl) as H.
  assert (match stream demo_catalog demo_channel "trace" (demo_request true) [] with (r, log) =>
    r = Err (Raised (Fail (PartialModelFailure TIMEOUT 2))) ∧ length (calls log) = 3 ∧
    length (yields log) = 4 end) as Hrun by (vm_compute; split_and!; reflexivity).
  destruct (stream _ _ _ _ _) as [r log]. split; [exact Hrun|exact H].
Defined.

(** The chunks a channel yields are numbered 0, 1, ... and carry the route of
    the attempt; a failure without visible output is an ordinary one, a failure
    after it is partial, and its count of visible chunks is right up to the chunk
    whose validation failed. *)
Theorem channel_stream_outcome py_repr open_stream request profile route :
  let '(chunks, stopped) := channel_stream py_repr open_stream request profile route in
  gc_sequence <$> chunks = seqZ 0 (Z.of_nat (length chunks)) ∧
  Forall (λ c, gc_route c = route ∧ gc_request_id c = mq_request_id request) chunks ∧
  match stopped with
  | Some (Fail (PartialModelFailure _ visible)) =>
      (0 < visible)%Z ∧ (count_visible chunks <= visible <= count_visible chunks + 1)%Z
  | Some (Fail _) => count_visible chunks = 0%Z
  | _ => True
  end.
Proof.
  unfold channel_stream. destruct (payload _ _ _) as [doc|[f|name]] eqn:Hp.
  2: { apply payload_failure in Hp as ->. done. }
  2: done.
  destruct (open_stream doc) as [e|answer].
  { split_and!; [done..|]. by destruct e. }
  destruct (400 <=? stream_status answer)%Z.
  { split_and!; [done..|]. unfold raise_status, stream_failure.
    repeat case_bool_decide; done. }
  destruct (read_lines _ _ _ _ _ _ _) as [[chunks visible] stopped] eqn:Hl.
  pose proof Hl as Hpart. apply read_lines_partial in Hpart; [|lia].
  apply read_lines_spec in Hl as (Hseq & Hall & Hcount & _). split_and!; [done..|].
  assert (0 <= count_visible chunks)%Z by (unfold count_visible; lia).
  destruct stopped as [[[| |n]|[f|n]]|]; cbn [option_map stream_failure]; try done.
  1,2: destruct (visible =? 0)%Z eqn:Hz; cbn; lia.
  destruct f as [c ry po sc|c n]; [|by cbn in *; lia].
  destruct (visible =? 0)%Z eqn:Hz; cbn; lia.
Qed.

(** A completion whose message is null. *)
Definition null_message_body : string :=
  default "" (dumps default_style (sdict
    [("id", VStr "r1"); ("choices", VList [sdict [("message", VNone)]])])).

(** Whatever the upstream answers, a completion ends in a result, in a
    [ModelFailure], or in one of two exceptions nothing converts: an
    [AttributeError] (a member that should be an object is not) or an
    [OverflowError] (an infinite token count); besides the exceptions of the
    transport that are neither timeouts nor transport errors. *)
Theorem completion_escapes py_repr post request profile name :
  channel_complete py_repr post request profile = Err (PyExn name) →
  name ∈ ["AttributeError"; "OverflowError"] ∨
  ∃ p, payload request profile false = Ok p ∧ post p = inl (OtherHttpError name).
Proof.
  unfold channel_complete. intros [Hp|(p & Hp & H)]%rbind_err; [by apply payload_escapes in Hp|].
  apply rbind_err in H as [H|(response & _ & H)].
  - right. exists p. split; [done|]. unfold request_ in H.
    destruct (post p) as [[| |n]|r]; simpl in H; try by injection H.
    + by injection H as ->.
    + by destruct (_ <=? _)%Z.
  - left. by apply read_completion_escapes in H.
Qed.
Lemma completion_escapes_witness :
  channel_complete (λ _, "") (λ _, inr {| status_code := 200; body := null_message_body |})
    (demo_request false) (demo_profile BAILIAN) = Err (PyExn "AttributeError") ∧
  ("AttributeError" ∈ ["AttributeError"; "OverflowError"] ∨
   ∃ p, payload (demo_request false) (demo_profile BAILIAN) false = Ok p ∧
     (inr {| status_code := 200; body := null_message_body |} : http_error + Response)
     = inl (OtherHttpError "AttributeError")).
Proof.
  assert (channel_complete (λ _, "") (λ _, inr {| status_code := 200; body := null_message_body |})
    (demo_request false) (demo_profile BAILIAN) = Err (PyExn "AttributeError")) as H
    by (vm_compute; reflexivity).
  split; [exact H|].
  exact (completion_escapes (λ _, "") (λ _, inr {| status_code := 200; body := null_message_body |})
    (demo_request false) (demo_profile BAILIAN) "AttributeError" H).
Defined.

(** The instruction of a repair matches the gateway's own secret patterns: a
    repaired request is sent although [complete] would refuse it as an input. *)
Example repair_instruction_is_sensitive : carries_secret REPAIR_INSTRUCTION = true.
Proof. vm_compute. reflexivity. Qed.
