(* ===== verification/ModelServer.v ===== *)
(** * The model gateway's HTTP surface: [src/faultwitness/models/server.py]

    The dependency [principal] and the handler [complete].  A request is its
    headers and its body text; times and random identifiers are arguments. *)
From Stdlib Require Import Ascii.
From S2P Require Import Prelude Json JsonFacts PyDyn Regex Oidc.
From S2P Require Import Contracts ContractsFacts ModelTypes Channel Gateway GatewayTheorems.

Definition INJECTED_HEADERS : list string :=
  ["x-tenant-id"; "x-user-id"; "x-roles"; "x-faultwitness-tenant"].

(** What the framework sends: a reply, an [HTTPException], or a 500 for an
    exception that escapes the handler. *)
Inductive model_reply :=
| Answer (response : GatewayResponse)
| ErrorBody (status : Z) (code : string) (retryable : bool)
| HTTPException (status : Z)
| ServerError (name : string).

(** ** The body *)

(** [ModelInvoke] *)
Definition ModelInvoke : ftype :=
  model [req "correlation_id" CorrelationId; req "model_family" ModelFamilyName;
         req "messages" (TTuple Contracts.ModelMessage (Some 1%Z) (Some 64%Z));
         nullable "target_json_schema" (TAnyDict false);
         opt "tool_schemas" (TTuple (TAnyDict false) None None) (VList [])].

Record Invocation := {
  iv_correlation_id : string;
  iv_family : ModelFamily;
  iv_messages : list ModelTypes.ModelMessage;
  iv_target_json_schema : option mapping;
  iv_tool_schemas : list mapping;
}.

Definition str_of (v : val) : string := match v with VStr s => s | _ => "" end.
Definition opt_str_of (v : val) : option string := match v with VStr s => Some s | _ => None end.
Definition dict_of (v : val) : mapping := match v with VDict d => d | _ => [] end.
Definition list_of (v : val) : list val := match v with VList l => l | _ => [] end.
Definition family_of (v : val) : ModelFamily :=
  if val_is v "qwen" then QWEN else if val_is v "deepseek" then DEEPSEEK else GLM.
Definition message_of (v : val) : ModelTypes.ModelMessage :=
  let d := dict_of v in
  {| mm_role := str_of (dget "role" d); mm_content := str_of (dget "content" d);
     mm_name := opt_str_of (dget "name" d); mm_tool_call_id := opt_str_of (dget "tool_call_id" d) |}.

(** The attributes of an accepted body. *)
Definition invocation_of (v : val) : Invocation :=
  let d := dict_of v in
  {| iv_correlation_id := str_of (dget "correlation_id" d);
     iv_family := family_of (dget "model_family" d);
     iv_messages := message_of <$> list_of (dget "messages" d);
     iv_target_json_schema :=
       match dget "target_json_schema" d with VDict s => Some s | _ => None end;
     iv_tool_schemas := dict_of <$> list_of (dget "tool_schemas" d) |}.

(** [ModelInvoke.model_validate_json(body)] *)
Definition parse_invoke parse_datetime (text : string) : option Invocation :=
  v ← loads text; r ← check parse_datetime ModelInvoke v; Some (invocation_of r).

Definition server_capability (body : Invocation) : ModelCapability :=
  match iv_tool_schemas body with
  | _ :: _ => FORCED_TOOL
  | [] => match iv_target_json_schema body with Some _ => STRUCTURED | None => COMPLETE end
  end.

(** ** The request *)

Definition matches (t : ftype) (s : string) : bool :=
  match t with
  | TStr lo hi pattern => in_range lo hi (str_len s) &&
      match pattern with Some p => fullmatch p s | None => true end
  | _ => false
  end.
(** The constraints of [ModelRequest] on values that are already of its types. *)
Definition request_ok (r : ModelTypes.ModelRequest) : bool :=
  matches ModelRequestId (mq_request_id r) && matches TenantId (mq_tenant_id r) &&
  matches CorrelationId (mq_correlation_id r) && matches NonEmptyText (mq_model_id r) &&
  negb (bool_decide (length (mq_messages r) = 0)) &&
  match mq_target_json_schema r with
  | Some s => negb (rejects_private_reasoning (VDict s))
  | None => true
  end &&
  negb (rejects_private_reasoning (VList (VDict <$> mq_tool_schemas r))).

Section Server.
Context (check_schema : val → pyres unit) (validate_schema : val → val → pyres unit).
Context (py_repr : val → string) (parse_datetime : string → option (Z * option Z)).
Context (catalog : CapabilityCatalog) (channels : ChannelName → option ModelChannel).

(** The dependency [principal], over the answer of the authenticator. *)
Definition principal (headers : gmap string string)
    (authenticated : result auth_error AuthenticatedPrincipal) :
    result model_reply AuthenticatedPrincipal :=
  raise_if existsb (λ name, bool_decide (is_Some (headers !! name))) INJECTED_HEADERS
    with_ HTTPException 403;;
  match authenticated with
  | Ok identity =>
      raise_if negb (bool_decide ("operator" ∈ roles identity) || bool_decide ("admin" ∈ roles identity))
        with_ HTTPException 403;;
      Ok identity
  | Err AuthenticationError => Err (HTTPException 401)
  | Err PyAttributeError => Err (ServerError "AttributeError")
  | Err (OtherError name) => Err (ServerError name)
  end.

(** [ModelRequest(...)] of the handler; [random] is what [_id] appends. *)
Definition new_model_request (identity : AuthenticatedPrincipal) (body : Invocation)
    (primary : ModelProfile) (random : string) (now : Z) : option ModelTypes.ModelRequest :=
  let r :=
    {| mq_request_id := "mreq_" +:+ random; mq_tenant_id := tenant_id identity;
       mq_correlation_id := iv_correlation_id body; mq_model_family := iv_family body;
       mq_model_id := mp_model_id primary; mq_messages := iv_messages body;
       mq_target_json_schema := iv_target_json_schema body;
       mq_tool_schemas := iv_tool_schemas body; mq_stream := false;
       mq_budget := {| deadline := (now + 180 * 1000000)%Z; max_steps := 1; max_model_calls := 3;
                       max_tokens := 4096; max_cost_usd := "5" |} |} in
  if request_ok r then Some r else None.

(** The [except] clauses. *)
Definition reply_of_exn (e : gateway_exn) : model_reply :=
  match e with
  | Raised (Fail f) =>
      ErrorBody (if mf_retryable f then 429 else 502) (failure_code_value (mf_code f)) (mf_retryable f)
  | Raised (PyExn name) =>
      if bool_decide (name = "ValidationError") then ErrorBody 400 "invalid_request" false
      else ServerError name
  | LoopFuel => ServerError "fuel"
  end.

(** The handler: the reply, and what the gateway did for it. *)
Definition complete_handler (headers : gmap string string)
    (authenticated : result auth_error AuthenticatedPrincipal) (text random trace_id : string) (now : Z) :
    model_reply * list gateway_event :=
  match principal headers authenticated with
  | Err reply => (reply, [])
  | Ok identity =>
      match parse_invoke parse_datetime text with
      | None => (ErrorBody 400 "invalid_request" false, [])
      | Some body =>
          match candidates catalog (iv_family body) (server_capability body) with
          | Err e => (reply_of_exn (Raised e), [])
          | Ok [] => (ServerError "IndexError", [])
          | Ok (primary :: _) =>
              match new_model_request identity body primary random now with
              | None => (ErrorBody 400 "invalid_request" false, [])
              | Some request =>
                  match Gateway.complete check_schema validate_schema py_repr catalog channels
                          trace_id request [] with
                  | (Ok response, log) => (Answer response, log)
                  | (Err e, log) => (reply_of_exn e, log)
                  end
              end
          end
      end
  end.

Lemma principal_ok headers authenticated identity :
  principal headers authenticated = Ok identity →
  authenticated = Ok identity ∧
  ("operator" ∈ roles identity ∨ "admin" ∈ roles identity) ∧
  Forall (λ name, headers !! name = None) INJECTED_HEADERS.
Proof.
  unfold principal. destruct (existsb _ _) eqn:He; [done|].
  destruct authenticated as [p|[]]; try done. destruct (negb _) eqn:Hr; [done|].
  intros [= ->]. apply negb_false_iff, orb_true_iff in Hr. rewrite !bool_decide_eq_true in Hr.
  split_and!; [done|done|].
  apply Forall_forall. intros name Hn. apply eq_None_not_Some. intros Hs.
  apply not_true_iff_false in He. apply He. apply existsb_exists. exists name.
  split; [by apply list_elem_of_In|by apply bool_decide_eq_true].
Qed.
End Server.

(** ** Claims *)

(** What a call of a channel on behalf of a caller is made with. *)
Definition call_for (identity : AuthenticatedPrincipal)
    (c : ModelTypes.ModelRequest * ModelProfile * RouteMetadata) : Prop :=
  ∃ request, clean request ∧ c.1.1 = repaired (Z.to_nat (rt_repair_count c.2)) request ∧
    mq_tenant_id request = tenant_id identity ∧ mq_stream request = false ∧
    Forall (λ s, ¬ carries private_key (VDict s))
      (mq_tool_schemas request ++ match mq_target_json_schema request with Some s => [s] | None => [] end).

Lemma request_ok_hides r :
  request_ok r = true →
  Forall (λ s, ¬ carries private_key (VDict s))
    (mq_tool_schemas r ++ match mq_target_json_schema r with Some s => [s] | None => [] end).
Proof.
  unfold request_ok. intros [[_ Ht]%andb_true_iff Hs%negb_true_iff]%andb_true_iff.
  apply Forall_app. split.
  - apply Forall_forall. intros s Hin Hc. apply not_true_iff_false in Hs. apply Hs.
    apply rejects_iff_carries. econstructor; [|exact Hc]. by apply list_elem_of_fmap_2.
  - destruct (mq_target_json_schema r) as [s|]; [|constructor]. apply Forall_singleton. intros Hc.
    apply rejects_iff_carries in Hc. by rewrite Hc in Ht.
Qed.

(** a model is called, or answers, only for an authenticated operator or
    administrator whose request carries no identity header; every request a channel
    receives is in that caller's tenant, matches no secret pattern and its schemas
    name no private reasoning. *)
Theorem models_serve_operators check_schema validate_schema py_repr parse catalog channels headers
    authenticated text random trace_id now :
  validate_catalog catalog = Some catalog →
  let '(reply, log) := complete_handler check_schema validate_schema py_repr parse catalog channels
                         headers authenticated text random trace_id now in
  (calls log ≠ [] ∨ (∃ response, reply = Answer response)) →
  ∃ identity, authenticated = Ok identity ∧
    ("operator" ∈ roles identity ∨ "admin" ∈ roles identity) ∧
    Forall (λ name, headers !! name = None) INJECTED_HEADERS ∧
    Forall (call_for identity) (calls log).
Proof.
  intros Hv. unfold complete_handler.
  destruct (principal headers authenticated) as [identity|e] eqn:Hp.
  2: { unfold principal in Hp. destruct (existsb _ _); [injection Hp as <-|]; [by intros [|[]]|].
       destruct authenticated as [p|[]]; [destruct (negb _); [|done]|..]; injection Hp as <-;
         by intros [|[]]. }
  apply principal_ok in Hp as (-> & Hrole & Hheaders).
  destruct (parse_invoke _ _) as [body|]; [|by intros [|[]]].
  destruct (candidates _ _ _) as [[|primary ps]|e]; [by intros [|[]]| |destruct e; cbn].
  2: { by intros [|[]]. }
  2: { case_bool_decide; by intros [|[]]. }
  destruct (new_model_request _ _ _ _ _) as [request|] eqn:Hr; [|by intros [|[]]].
  unfold new_model_request in Hr. destruct (request_ok _) eqn:Hok; [|done]. injection Hr as <-.
  apply request_ok_hides in Hok.
  match goal with |- context [Gateway.complete _ _ _ _ _ _ ?r _] => set (request := r) in * end.
  destruct (Gateway.complete _ _ _ _ _ _ _ _) as [res log] eqn:H.
  apply complete_spec in H as (_ & _ & _ & Hclean & qs & _ & Hall & _); [|done].
  assert (Forall (call_for identity) (calls log)) as Hfor.
  { rewrite Forall_forall in Hall. apply Forall_forall. intros [[rq p] m] Hin.
    destruct (Hall _ Hin) as (q & fb & _ & Hq & _). exists request. split_and!; try done.
    apply Hclean. intros Hnil. rewrite Hnil in Hin. by apply not_elem_of_nil in Hin. }
  destruct res; intros _; exists identity; done.
Qed.
Definition demo_identity : AuthenticatedPrincipal :=
  {| tenant_id := "ten_01ARZ3NDEKTSV4RRFFQ69G5FAV"; user_id := "usr_1"; roles := {["operator"]};
     token_id := "tok_1"; expires_at := 0 |}.
Definition demo_body : string :=
  default "" (dumps default_style (sdict
    [("correlation_id", demo_ulid "corr_"); ("model_family", VStr "qwen");
     ("messages", VList [sdict [("role", VStr "user"); ("content", VStr "is it healthy?")]]);
     ("target_json_schema", sdict [("type", VStr "object")])])).
Definition demo_reply : model_reply * list gateway_event :=
  complete_handler (λ _, Ok tt) demo_validate (λ _, "") demo_time demo_catalog demo_channel ∅
    (Ok demo_identity) demo_body "01ARZ3NDEKTSV4RRFFQ69G5FAV" "trace" 0.
Lemma models_serve_operators_witness :
  length (calls demo_reply.2) = 4 ∧
  ∃ identity, @Ok auth_error _ demo_identity = Ok identity ∧
    ("operator" ∈ roles identity ∨ "admin" ∈ roles identity) ∧
    Forall (λ name, (∅ : gmap string string) !! name = None) INJECTED_HEADERS ∧
    Forall (call_for identity) (calls demo_reply.2).
Proof.
  assert (length (calls demo_reply.2) = 4) as Hlen by (vm_compute; reflexivity).
  pose proof (models_serve_operators (λ _, Ok tt) demo_validate (λ _, "") demo_time demo_catalog
    demo_channel ∅ (Ok demo_identity) demo_body "01ARZ3NDEKTSV4RRFFQ69G5FAV" "trace" 0
    demo_catalog_valid) as H.
  fold demo_reply in H. destruct demo_reply as [reply log]. split; [exact Hlen|].
  apply H. left. intros Hnil. cbn [snd] in Hlen. rewrite Hnil in Hlen. discriminate.
Defined.

(** The handler announces a budget of three model calls; four were made. *)
Example budget_is_not_enforced :
  (λ c, max_model_calls (mq_budget c.1.1)) <$> calls demo_reply.2 = [3; 3; 3; 3]%Z.
Proof. vm_compute. reflexivity. Qed.
