(* ===== verification/Compiler.v ===== *)
(** * The contract compiler: [src/faultwitness/contracts/compiler.py]

    From the bytes of the contract sources to the canonical resource and back.
    YAML is read by a library: an argument gives the nodes of a text, merge keys
    already flattened, and the value (or the exception) of each scalar; a float is
    the text [json.dumps] prints it as. *)
From Stdlib Require Import Ascii.
From S2P Require Import Prelude Json JsonFacts Sha256 PyDyn.

Definition CONTRACTS_VERSION : string := "1.1.0".
Definition RESOURCE_FORMAT_VERSION : string := "1.0.0".

Record SourceSpec := {
  sp_path : string;
  sp_required_keys : list string;
  sp_allowed_keys : list string;
  sp_identity : option (string * string);
}.
Definition exact_keys (path : string) (keys : list string) (identity : option (string * string)) :
    SourceSpec :=
  {| sp_path := path; sp_required_keys := keys; sp_allowed_keys := keys; sp_identity := identity |}.
Definition MACHINE_KEYS : list string :=
  ["schema_version"; "id"; "owner_component"; "authoritative_store"; "initial_state";
   "terminal_states"; "states"; "transitions"; "invariants"].

Definition SOURCE_SPECS : list (string * SourceSpec) :=
  [("commands_events", exact_keys "docs/contracts/COMMAND_EVENT_CATALOG.yaml"
      ["schema_version"; "commands"; "events"] None);
   ("types", exact_keys "docs/contracts/TYPE_CATALOG.yaml" ["schema_version"; "types"] None);
   ("failures", exact_keys "docs/contracts/FAILURE_SEMANTICS.yaml"
      ["schema_version"; "errors"; "failures"] None);
   ("state_machine.action_transaction",
      exact_keys "docs/contracts/state-machines/action_transaction.yaml" MACHINE_KEYS
        (Some ("id", "action_transaction")));
   ("state_machine.agent_graph",
      exact_keys "docs/contracts/state-machines/agent_graph.yaml" MACHINE_KEYS
        (Some ("id", "agent_graph")));
   ("state_machine.incident",
      exact_keys "docs/contracts/state-machines/incident.yaml" MACHINE_KEYS (Some ("id", "incident")));
   ("state_machine.runtime_task",
      exact_keys "docs/contracts/state-machines/runtime_task.yaml" MACHINE_KEYS
        (Some ("id", "runtime_task")));
   ("openapi", exact_keys "docs/contracts/openapi.yaml"
      ["openapi"; "info"; "security"; "paths"; "components"] (Some ("openapi", "3.1.0")));
   ("asyncapi", exact_keys "docs/contracts/asyncapi.yaml"
      ["asyncapi"; "info"; "defaultContentType"; "channels"; "operations"; "components"]
      (Some ("asyncapi", "3.0.0")))].

(** [ContractCompilationError], or an exception the compiler does not convert. *)
Inductive compile_error :=
| ContractCompilationError
| Unconverted (name : string).

Abbreviation C := (result compile_error).

(** ** YAML *)

#[local] Set Warnings "-register-all".
Inductive node : Type :=
| Scalar (v : pyres val)
| Sequence (items : list node)
| Mapping (pairs : list (node * node)).

(** [tok == z] for a float and an integer *)
Definition float_equals (tok : string) (z : Z) : bool :=
  match decimal_parts tok, float_int tok with
  | Some (_, m, e), Ok n =>
      let '(num, den) := quotient m e in
      (n =? z)%Z && ((num mod den =? 0) || (2 ^ 53 <=? Z.abs z))%Z
  | _, _ => false
  end.
(** [a == b] for hashable keys; keys of the other types are never equal here, and
    [canonical] refuses them. *)
Definition key_eq (a b : val) : bool :=
  let int v := match v with VInt z => Some z | VBool b => Some (if b then 1 else 0)%Z | _ => None end in
  match a, b with
  | VStr s, VStr t => bool_decide (s = t)
  | VNone, VNone => true
  | VFloat r, VFloat q => bool_decide (r = q)
  | VFloat r, _ => match int b with Some z => float_equals r z | None => false end
  | _, VFloat q => match int a with Some z => float_equals q z | None => false end
  | _, _ => match int a, int b with Some x, Some y => (x =? y)%Z | _, _ => false end
  end.

(** [_construct_mapping], and the constructors of the other nodes. *)
Fixpoint construct (n : node) : C val :=
  match n with
  | Scalar v => rmap_err Unconverted v
  | Sequence items =>
      let* l :=
        (fix go (items : list node) : C (list val) :=
          match items with
          | [] => Ok []
          | i :: rest => let* x := construct i in let* xs := go rest in Ok (x :: xs)
          end) items in
      Ok (VList l)
  | Mapping pairs =>
      let* d :=
        (fix go (pairs : list (node * node)) (result : mapping) : C mapping :=
          match pairs with
          | [] => Ok result
          | (key_node, value_node) :: rest =>
              let* key := construct key_node in
              raise_if negb (hashable key) with_ ContractCompilationError;;
              raise_if existsb (λ kv, key_eq key kv.1) result with_ ContractCompilationError;;
              let* value := construct value_node in
              go rest (result ++ [(key, value)])
          end) pairs [] in
      Ok (VDict d)
  end.

(** [_canonical]; [None] is its error. *)
Fixpoint canonical (v : val) : option val :=
  match v with
  | VDict d =>
      kvs ← (fix go (d : mapping) : option (list (string * val)) :=
        match d with
        | [] => Some []
        | (VStr k, x) :: rest => y ← canonical x; ys ← go rest; Some ((k, y) :: ys)
        | _ => None
        end) d;
      Some (sdict (sort_keys kvs))
  | VList l => l' ← mapM canonical l; Some (VList l')
  | VOther _ => None
  | v => Some v
  end.

(** ** One source *)

Fixpoint count_dots (s : string) : nat :=
  match s with "" => 0 | String "." r => S (count_dots r) | String _ r => count_dots r end.

(** [sorted(keys)] does not raise [TypeError]. *)
Definition key_class (v : val) : option string :=
  match v with
  | VStr _ => Some "str"
  | VInt _ | VBool _ | VFloat _ => Some "number"
  | VOther t => Some t
  | _ => None
  end.
Definition sortable (keys : list val) : bool :=
  match keys with
  | [] | [_] => true
  | k :: _ => bool_decide (is_Some (key_class k)) &&
              forallb (λ k', bool_decide (key_class k' = key_class k)) keys
  end.

Definition in_keys (names : list string) (v : val) : bool :=
  match v with VStr s => bool_decide (s ∈ names) | _ => false end.

Section Compiler.
Context (yaml_compose : string → pyres node).

(** [yaml.load(text, Loader=_UniqueKeyLoader)] with its [except] clauses *)
Definition yaml_load (text : string) : C val :=
  let converted (name : string) : compile_error :=
    if bool_decide (name = "YAMLError") then ContractCompilationError else Unconverted name in
  let* n := rmap_err converted (yaml_compose text) in
  rmap_err (λ e, match e with Unconverted name => converted name | e => e end) (construct n).

Definition check_identity (identity : option (string * string)) (parsed : mapping) : C unit :=
  match identity with
  | Some (field, expected) =>
      let* v := from_option_or (Unconverted "KeyError") (dfind field parsed) in
      raise_if negb (val_is v expected) with_ ContractCompilationError;; Ok tt
  | None => Ok tt
  end.

Definition well_versioned (v : val) : bool :=
  match v with VStr s => Nat.eqb (count_dots s) 2 | _ => false end.

(** [_parse_source] *)
Definition parse_source (name : string) (spec : SourceSpec) (raw : string) : C val :=
  let* text := from_option_or ContractCompilationError (utf8_decode raw) in
  let* parsed := yaml_load text in
  match parsed with
  | VDict d =>
      raise_if negb (forallb (λ k, bool_decide (is_Some (dfind k d))) (sp_required_keys spec))
        with_ ContractCompilationError;;
      let unknown := filter (λ k, in_keys (sp_allowed_keys spec) k = false) d.*1 in
      raise_if negb (bool_decide (length unknown = 0))
        with_ (if sortable unknown then ContractCompilationError else Unconverted "TypeError");;
      let* _ := check_identity (sp_identity spec) d in
      raise_if negb (bool_decide (name ∈ ["openapi"; "asyncapi"])) &&
               negb (well_versioned (dget "schema_version" d))
        with_ ContractCompilationError;;
      from_option_or ContractCompilationError (canonical parsed)
  | _ => Err ContractCompilationError
  end.

(** ** The resource *)

(** [_json_bytes] *)
Definition json_bytes (v : val) : option string :=
  text ← dumps utf8_style v; Some (utf8 (text +:+ String "010" "")).

(** A value of the [sources] argument: bytes, or an object of another type. *)
Inductive payload := Bytes (raw : string) | NotBytes.

Definition digest_members (documents sources : val) : list (string * val) :=
  [("contracts_version", VStr CONTRACTS_VERSION); ("documents", documents);
   ("format_version", VStr RESOURCE_FORMAT_VERSION); ("sources", sources)].

Definition source_record (spec : SourceSpec) (raw : string) : val :=
  sdict [("path", VStr (sp_path spec)); ("sha256", VStr (sha256_hex raw))].

(** One iteration of the loop of [compile_source_bytes]. *)
Definition compile_one (sources : gmap string payload) (ns : string * SourceSpec) :
    C ((string * val) * (string * val)) :=
  let '(name, spec) := ns in
  match sources !! name with
  | Some (Bytes raw) =>
      let* document := parse_source name spec raw in
      Ok ((name, document), (name, source_record spec raw))
  | Some NotBytes => Err ContractCompilationError
  | None => Err (Unconverted "KeyError")
  end.

Definition compile_source_bytes (sources : gmap string payload) : C string :=
  raise_if negb (forallb (λ ns, bool_decide (is_Some (sources !! ns.1))) SOURCE_SPECS)
    with_ ContractCompilationError;;
  raise_if negb (forallb (λ kv, bool_decide (kv.1 ∈ SOURCE_SPECS.*1)) (map_to_list sources))
    with_ ContractCompilationError;;
  let* parts := rmapM (compile_one sources) (sort_keys SOURCE_SPECS) in
  let documents := sdict parts.*1 in
  let source_records := sdict parts.*2 in
  let* digest_input := from_option_or (Unconverted "TypeError")
    (json_bytes (sdict (digest_members documents source_records))) in
  from_option_or (Unconverted "TypeError")
    (json_bytes (sdict (("artifact_sha256", VStr (sha256_hex digest_input)) ::
                        digest_members documents source_records))).

(** [_decode_generated_resource], for a resource in UTF-8 without a byte order mark. *)
Definition decode_generated_resource (raw : string) : C val :=
  let* text := from_option_or ContractCompilationError (utf8_decode raw) in
  let* value := from_option_or ContractCompilationError (loads text) in
  match value with
  | VDict d =>
      raise_if negb (val_is (dget "contracts_version" d) CONTRACTS_VERSION)
        with_ ContractCompilationError;;
      raise_if negb (val_is (dget "format_version" d) RESOURCE_FORMAT_VERSION)
        with_ ContractCompilationError;;
      let* digest_input := from_option_or (Unconverted "TypeError")
        (json_bytes (sdict [("contracts_version", dget "contracts_version" d);
                            ("documents", dget "documents" d);
                            ("format_version", dget "format_version" d);
                            ("sources", dget "sources" d)])) in
      raise_if negb (val_is (dget "artifact_sha256" d) (sha256_hex digest_input))
        with_ ContractCompilationError;;
      Ok value
  | _ => Err ContractCompilationError
  end.

(** ** The repository *)

(** What [path.read_bytes()] of a resolved path gives. *)
Inductive file_error := FileNotFoundError | PyOSError.
Section Files.
Context (resolve : string → option string)   (* [None]: outside the repository root *)
        (read_bytes : string → result file_error string).

(** [read_source_bytes] *)
Definition read_source_bytes : C (gmap string payload) :=
  rfold (λ sources ns,
    let* path := from_option_or ContractCompilationError (resolve (sp_path ns.2)) in
    let* raw := rmap_err (λ _, ContractCompilationError) (read_bytes path) in
    Ok (<[ns.1 := Bytes raw]> sources)) SOURCE_SPECS ∅.

Definition compile_repository : C string :=
  let* sources := read_source_bytes in compile_source_bytes sources.

(** [assert_generated_resource_current]; an [OSError] other than a missing file escapes. *)
Definition assert_generated_resource_current (target : string) : C unit :=
  let* expected := compile_repository in
  match read_bytes target with
  | Ok actual => raise_if negb (bool_decide (actual = expected)) with_ ContractCompilationError;; Ok tt
  | Err FileNotFoundError => Err ContractCompilationError
  | Err PyOSError => Err (Unconverted "OSError")
  end.

(** [load_generated_resource] and [load_packaged_resource] *)
Definition load_generated_resource (target : string) : C val :=
  let* raw := rmap_err (λ _, ContractCompilationError) (read_bytes target) in
  decode_generated_resource raw.
End Files.
End Compiler.
