(* ===== verification/CompilerTheorems.v ===== *)
(** * Theorems of the contract compiler

    The resource it writes is the one it reads back, and a resource that passes
    the integrity check is determined by its digest. *)
From Stdlib Require Import Ascii.
From S2P Require Import Prelude Json JsonFacts Sha256 PyDyn Compiler.

(** ** Text *)

Lemma loads_line st v s :
  json_ok v = true → dumps st v = Some s → loads (s +:+ String "010" "") = Some (printed st v).
Proof.
  intros Hok Hd. destruct (reads_back_any st v s Hok Hd) as [(c & t & -> & Hc) Hp].
  unfold loads. rewrite app_cons_str, skip_ws_cons by by apply value_head_ws.
  rewrite <-app_cons_str, Hp; [done| |done]. rewrite string_app_length. cbn [String.length]. lia.
Qed.

(** ** Nodes *)

Section Ind.
Variable P : node → Prop.
Hypothesis HScalar : ∀ v, P (Scalar v).
Hypothesis HSequence : ∀ l, Forall P l → P (Sequence l).
Hypothesis HMapping : ∀ l, Forall (λ kv, P kv.1 ∧ P kv.2) l → P (Mapping l).
Fixpoint node_ind_nested (n : node) : P n :=
  match n with
  | Scalar v => HScalar v
  | Sequence l =>
      HSequence l ((fix go l : Forall P l := match l with
        | [] => @Forall_nil_2 _ _
        | x :: l => @Forall_cons_2 _ _ x l (node_ind_nested x) (go l)
        end) l)
  | Mapping l =>
      HMapping l ((fix go l : Forall (λ kv, P kv.1 ∧ P kv.2) l := match l with
        | [] => @Forall_nil_2 _ _
        | kv :: l => @Forall_cons_2 _ _ kv l
            (conj (node_ind_nested kv.1) (node_ind_nested kv.2)) (go l)
        end) l)
  end.
End Ind.

(** The loops of [construct], named. *)
Fixpoint construct_items (items : list node) : C (list val) :=
  match items with
  | [] => Ok []
  | i :: rest => let* x := construct i in let* xs := construct_items rest in Ok (x :: xs)
  end.
Fixpoint construct_pairs (pairs : list (node * node)) (result : mapping) : C mapping :=
  match pairs with
  | [] => Ok result
  | (key_node, value_node) :: rest =>
      let* key := construct key_node in
      raise_if negb (hashable key) with_ ContractCompilationError;;
      raise_if existsb (λ kv, key_eq key kv.1) result with_ ContractCompilationError;;
      let* value := construct value_node in
      construct_pairs rest (result ++ [(key, value)])
  end.
Lemma construct_sequence l : construct (Sequence l) = let* l := construct_items l in Ok (VList l).
Proof. done. Qed.
Lemma construct_mapping l : construct (Mapping l) = let* d := construct_pairs l [] in Ok (VDict d).
Proof. done. Qed.

(** Finite floats and, at every level, no repeated string key. *)
Fixpoint tidy (v : val) : bool :=
  match v with
  | VFloat r => float_ok r
  | VList l => forallb tidy l
  | VDict d => forallb (λ kv, tidy kv.2) d && bool_decide (NoDup (dict_keys d))
  | _ => true
  end.
Definition finite_scalar (v : pyres val) : bool :=
  match v with Ok v => tidy v | Err _ => true end.
Fixpoint finite (n : node) : bool :=
  match n with
  | Scalar v => finite_scalar v
  | Sequence l => forallb finite l
  | Mapping l => forallb (λ kv, finite kv.1 && finite kv.2) l
  end.

Lemma dict_keys_elem k d : k ∈ dict_keys d → ∃ x, (VStr k, x) ∈ d.
Proof.
  induction d as [|[k' v] d IH]; [by intros ?%elem_of_nil|].
  destruct k' as [| | | |s| | |]; cbn; intros Hk;
    try (destruct (IH Hk) as [x Hx]; exists x; by right).
  apply elem_of_cons in Hk as [-> |Hk]; [exists v; left|].
  destruct (IH Hk) as [x Hx]. exists x. by right.
Qed.

Lemma tidy_snoc d key value :
  tidy (VDict d) = true → tidy value = true → existsb (λ kv, key_eq key kv.1) d = false →
  tidy (VDict (d ++ [(key, value)])) = true.
Proof.
  cbn [tidy]. intros [Hall Hnd%bool_decide_eq_true]%andb_true_iff Hv Hfresh. apply andb_true_iff. split.
  - rewrite forallb_app, Hall. cbn. by rewrite Hv.
  - apply bool_decide_eq_true. rewrite dict_keys_app.
    destruct key as [| | | |s| | |]; cbn [dict_keys]; rewrite ?app_nil_r; try done.
    apply NoDup_app. split; [done|]. split; [|apply NoDup_singleton].
    intros k Hk ->%list_elem_of_singleton. destruct (dict_keys_elem _ _ Hk) as [x Hx].
    apply not_true_iff_false in Hfresh. apply Hfresh, existsb_exists. exists (VStr s, x).
    split; [by apply list_elem_of_In|]. cbn. by apply bool_decide_eq_true.
Qed.

Lemma construct_pairs_tidy l acc d :
  Forall (λ kv, (finite kv.1 = true → ∀ v, construct kv.1 = Ok v → tidy v = true) ∧
                (finite kv.2 = true → ∀ v, construct kv.2 = Ok v → tidy v = true)) l →
  forallb (λ kv, finite kv.1 && finite kv.2) l = true →
  tidy (VDict acc) = true → construct_pairs l acc = Ok d → tidy (VDict d) = true.
Proof.
  intros Hl. revert acc. induction Hl as [|[kn vn] l [_ Hv] _ IH]; intros acc Hf Hacc H.
  { by injection H as <-. }
  cbn in Hf. apply andb_true_iff in Hf as [[_ Hfv]%andb_true_iff Hf]. cbn [construct_pairs] in H.
  apply rbind_ok in H as (key & _ & H). destruct (negb _); [done|].
  destruct (existsb _ acc) eqn:Hfresh; [done|]. apply rbind_ok in H as (value & Hvalue & H).
  apply (IH (acc ++ [(key, value)])); [done| |done]. apply tidy_snoc; [done| |done]. by eapply Hv.
Qed.

Lemma construct_tidy n : finite n = true → ∀ v, construct n = Ok v → tidy v = true.
Proof.
  induction n as [s|l IH|l IH] using node_ind_nested; intros Hf v H.
  - cbn in *. destruct s; [|done]. by injection H as <-.
  - rewrite construct_sequence in H. apply rbind_ok in H as (xs & H & [= <-]). cbn [tidy finite] in *.
    revert xs H. induction IH as [|n l Hn _ IHl]; intros xs H; [by injection H as <-|].
    cbn in Hf. apply andb_true_iff in Hf as [Hf1 Hf2]. cbn [construct_items] in H.
    apply rbind_ok in H as (x & Hx & H). apply rbind_ok in H as (xs' & Hxs & [= <-]).
    cbn. rewrite (Hn Hf1 x Hx). by apply IHl.
  - rewrite construct_mapping in H. apply rbind_ok in H as (d & H & [= <-]).
    apply (construct_pairs_tidy l [] d IH Hf); [reflexivity|exact H].
Qed.

(** ** Canonical documents *)

Fixpoint canonical_pairs (d : mapping) : option (list (string * val)) :=
  match d with
  | [] => Some []
  | (VStr k, x) :: rest => y ← canonical x; ys ← canonical_pairs rest; Some ((k, y) :: ys)
  | _ => None
  end.
Lemma canonical_dict d :
  canonical (VDict d) = kvs ← canonical_pairs d; Some (sdict (sort_keys kvs)).
Proof. done. Qed.

Lemma canonical_pairs_keys d kvs : canonical_pairs d = Some kvs → kvs.*1 = dict_keys d.
Proof.
  revert kvs. induction d as [|[k x] d IH]; intros kvs H; [by injection H as <-|].
  destruct k as [| | | |s| | |]; try done. cbn in H. apply bind_Some in H as (y & _ & H).
  apply bind_Some in H as (ys & Hys & [= <-]). cbn. f_equal. by apply IH.
Qed.

Definition fixed (v : val) : Prop := json_ok v = true ∧ printed utf8_style v = v.

Lemma sorted_keys_fixed {A} (kvs : list (string * A)) : sort_strings (sort_keys kvs).*1 = (sort_keys kvs).*1.
Proof.
  rewrite <-(sort_keys_idem kvs) at 2. unfold sort_strings, sort_keys at 2.
  by apply sort_by_map.
Qed.

Lemma fixed_sdict kvs :
  sort_strings kvs.*1 = kvs.*1 → NoDup kvs.*1 → Forall (λ kv, fixed kv.2) kvs → fixed (sdict kvs).
Proof.
  intros Hs Hnd Hall. split.
  - apply json_ok_sdict; [done|]. apply Forall_fmap. eapply Forall_impl; [exact Hall|]. by intros kv [].
  - rewrite printed_sdict by done. f_equal. clear Hs Hnd.
    induction Hall as [|[k v] kvs [_ Hv] _ IH]; [done|]. cbn in *. by rewrite Hv, IH.
Qed.

Lemma fixed_str s : fixed (VStr s).
Proof. done. Qed.

Lemma canonical_fixed v w : tidy v = true → canonical v = Some w → fixed w.
Proof.
  revert w. induction v as [|b|z|r|s|l IH|d IH|t] using val_ind_nested; intros w Ht H;
    try (injection H as <-; split; done); [| |done].
  - cbn in H. apply bind_Some in H as (l' & Hl & [= <-]). apply mapM_Some_1 in Hl.
    cbn in Ht. assert (Forall fixed l') as Hall.
    { revert Ht. induction Hl as [|x y l l' Hx _ IHl]; intros Ht; [constructor|].
      apply Forall_cons in IH as [IHx IH]. cbn in Ht. apply andb_true_iff in Ht as [? ?].
      constructor; auto. }
    split.
    + cbn. apply forallb_Forall_true. eapply Forall_impl; [exact Hall|]. by intros ? [].
    + cbn. f_equal. clear -Hall. induction Hall as [|x l' [_ Hx] _ IHl]; [done|]. cbn. by rewrite Hx, IHl.
  - rewrite canonical_dict in H. apply bind_Some in H as (kvs & Hk & [= <-]).
    pose proof (canonical_pairs_keys _ _ Hk) as Hkeys. cbn [tidy] in Ht.
    apply andb_true_iff in Ht as [Ht Hnd%bool_decide_eq_true].
    apply fixed_sdict; [apply sorted_keys_fixed| |].
    + rewrite sort_keys_perm, Hkeys. done.
    + rewrite sort_keys_perm. clear Hnd Hkeys. revert kvs Hk Ht.
      induction IH as [|[k x] d [_ Hx] _ IHd]; intros kvs Hk Ht; [by injection Hk as <-|].
      destruct k as [| | | |s| | |]; try done. cbn in Hk, Ht. apply bind_Some in Hk as (y & Hy & Hk).
      apply bind_Some in Hk as (ys & Hys & [= <-]). apply andb_true_iff in Ht as [Htx Ht].
      constructor; [by apply Hx|by apply IHd].
Qed.

(** ** The resource *)

Lemma json_bytes_fixed v :
  fixed v → ∃ bytes, json_bytes v = Some bytes ∧ ∃ text, utf8_decode bytes = Some text ∧ loads text = Some v.
Proof.
  intros [Hok Hp]. destruct (dumps_total utf8_style v Hok) as [s Hs].
  unfold json_bytes. rewrite Hs. cbn [mbind option_bind]. eexists. split; [done|].
  exists (s +:+ String "010" ""). rewrite utf8_decode_utf8. split; [done|].
  by rewrite (loads_line _ _ _ Hok Hs), Hp.
Qed.

Lemma json_bytes_inj v w bytes :
  json_ok v = true → json_ok w = true → json_bytes v = Some bytes → json_bytes w = Some bytes →
  printed utf8_style v = printed utf8_style w.
Proof.
  intros Hv Hw H1 H2. unfold json_bytes in *.
  destruct (dumps_total utf8_style v Hv) as [s Hs], (dumps_total utf8_style w Hw) as [t Ht].
  rewrite Hs in H1. rewrite Ht in H2. cbn in H1, H2. injection H1 as <-. injection H2 as H2.
  apply utf8_inj in H2. pose proof (loads_line _ _ _ Hv Hs) as Hl. rewrite <-H2 in Hl.
  rewrite (loads_line _ _ _ Hw Ht) in Hl. congruence.
Qed.

Lemma digest_members_fixed documents sources :
  fixed documents → fixed sources → fixed (sdict (digest_members documents sources)).
Proof.
  intros Hd Hs. apply fixed_sdict; [literal_keys|literal_nodup|].
  repeat (apply Forall_cons_2; [first [done|apply fixed_str]|]). apply Forall_nil_2.
Qed.
Lemma bundle_fixed digest documents sources :
  fixed documents → fixed sources →
  fixed (sdict (("artifact_sha256", VStr digest) :: digest_members documents sources)).
Proof.
  intros Hd Hs. apply fixed_sdict; [literal_keys|literal_nodup|].
  repeat (apply Forall_cons_2; [first [done|apply fixed_str]|]). apply Forall_nil_2.
Qed.
Lemma source_record_fixed spec raw : fixed (source_record spec raw).
Proof.
  apply fixed_sdict; [literal_keys|literal_nodup|].
  repeat (apply Forall_cons_2; [apply fixed_str|]). apply Forall_nil_2.
Qed.

Section Compiled.
Context (yaml_compose : string → pyres node).
Hypothesis Hfinite : ∀ text n, yaml_compose text = Ok n → finite n = true.

Lemma parse_source_fixed name spec raw doc :
  parse_source yaml_compose name spec raw = Ok doc → fixed doc.
Proof.
  unfold parse_source. intros H. apply rbind_ok in H as (text & _ & H).
  apply rbind_ok in H as (parsed & Hl & H). destruct parsed as [| | | | | |d|]; try done.
  destruct (negb _); [done|]. destruct (negb _); [by destruct (sortable _)|].
  apply rbind_ok in H as ([] & _ & H). destruct (_ && _)%bool; [done|].
  apply from_option_or_ok in H. eapply canonical_fixed; [|exact H].
  unfold yaml_load in Hl. apply rbind_ok in Hl as (n & Hn & Hc).
  assert (construct n = Ok (VDict d)) as Hcd by (destruct (construct n); [exact Hc|done]).
  eapply construct_tidy; [|exact Hcd]. apply (Hfinite text).
  destruct (yaml_compose text); [by injection Hn as ->|done].
Qed.

(** What the loop makes of one source. *)
Definition compiled_part (sources : gmap string payload) (ns : string * SourceSpec)
    (part : (string * val) * (string * val)) : Prop :=
  ∃ raw doc, sources !! ns.1 = Some (Bytes raw) ∧ parse_source yaml_compose ns.1 ns.2 raw = Ok doc ∧
    part = ((ns.1, doc), (ns.1, source_record ns.2 raw)).

Lemma compile_one_ok sources ns part :
  compile_one yaml_compose sources ns = Ok part → compiled_part sources ns part.
Proof.
  destruct ns as [name spec]. unfold compile_one. destruct (sources !! name) as [[raw|]|] eqn:Hs; try done.
  intros H. apply rbind_ok in H as (doc & Hd & [= <-]). by exists raw, doc.
Qed.

Lemma parts_fixed sources specs parts :
  Forall2 (compiled_part sources) specs parts → sort_strings specs.*1 = specs.*1 → NoDup specs.*1 →
  fixed (sdict parts.*1) ∧ fixed (sdict parts.*2).
Proof.
  intros H Hs Hnd.
  assert (parts.*1.*1 = specs.*1 ∧ parts.*2.*1 = specs.*1) as [H1 H2].
  { clear Hs Hnd. induction H as [|ns part specs parts (raw & doc & _ & _ & ->) _ [IH1 IH2]]; [done|].
    cbn. by rewrite IH1, IH2. }
  assert (Forall (λ kv : string * val, fixed kv.2) parts.*1 ∧
          Forall (λ kv : string * val, fixed kv.2) parts.*2) as [Hf1 Hf2].
  { clear -H Hfinite. induction H as [|ns part specs parts (raw & doc & _ & Hd & ->) _ [IH1 IH2]].
    - by split; constructor.
    - cbn [fmap list_fmap fst snd]. split.
      + apply Forall_cons_2; [by eapply parse_source_fixed|exact IH1].
      + apply Forall_cons_2; [apply source_record_fixed|exact IH2]. }
  split; apply fixed_sdict; rewrite ?H1, ?H2; done.
Qed.

Lemma compile_ok sources bytes :
  compile_source_bytes yaml_compose sources = Ok bytes →
  ∃ parts digest text, Forall2 (compiled_part sources) (sort_keys SOURCE_SPECS) parts ∧
    json_bytes (sdict (digest_members (sdict parts.*1) (sdict parts.*2))) = Some text ∧
    digest = sha256_hex text ∧
    json_bytes (sdict (("artifact_sha256", VStr digest) ::
                       digest_members (sdict parts.*1) (sdict parts.*2))) = Some bytes.
Proof.
  unfold compile_source_bytes. destruct (negb _); [done|]. destruct (negb _); [done|]. intros H.
  apply rbind_ok in H as (parts & Hp & H). apply rbind_ok in H as (text & Ht & H).
  apply from_option_or_ok in Ht. apply from_option_or_ok in H. exists parts, (sha256_hex text), text.
  split_and!; try done. apply rmapM_ok in Hp. eapply Forall2_impl; [exact Hp|].
  intros ns part. apply compile_one_ok.
Qed.

Lemma decode_bundle documents sources text bytes :
  fixed documents → fixed sources →
  json_bytes (sdict (digest_members documents sources)) = Some text →
  json_bytes (sdict (("artifact_sha256", VStr (sha256_hex text)) ::
                     digest_members documents sources)) = Some bytes →
  decode_generated_resource bytes =
    Ok (sdict (("artifact_sha256", VStr (sha256_hex text)) :: digest_members documents sources)).
Proof.
  intros Hd Hs Htext Hbytes.
  destruct (json_bytes_fixed _ (bundle_fixed (sha256_hex text) _ _ Hd Hs)) as (b & Hb & t & Ht & Hl).
  rewrite Hbytes in Hb. injection Hb as <-. unfold decode_generated_resource.
  rewrite Ht. cbn [from_option_or rbind]. rewrite Hl. cbn [from_option_or rbind sdict].
  match goal with |- context [json_bytes ?v] =>
    change (json_bytes v) with (json_bytes (sdict (digest_members documents sources))) end.
  rewrite Htext. cbn [from_option_or rbind].
  match goal with |- context [val_is (dget "artifact_sha256" ?d) ?h] =>
    change (val_is (dget "artifact_sha256" d) h) with (bool_decide (h = h)) end.
  rewrite bool_decide_true by done. reflexivity.
Qed.
End Compiled.

(** ** A source set *)

(** A reader of the nine sources, each a one-line text naming its document. *)
Definition demo_node (members : list (string * val)) : node :=
  Mapping ((λ kv, (Scalar (Ok (VStr kv.1)), Scalar (Ok kv.2))) <$> members).
Definition demo_document (name : string) (spec : SourceSpec) : node :=
  demo_node ((λ k, (k,
    match sp_identity spec with
    | Some (field, expected) =>
        if bool_decide (k = field) then VStr expected else VStr "1.1.0"
    | None => VStr "1.1.0"
    end)) <$> sp_required_keys spec).
Definition demo_compose (text : string) : pyres node :=
  match List.find (λ ns, bool_decide (ns.1 = text)) SOURCE_SPECS with
  | Some (name, spec) => Ok (demo_document name spec)
  | None => Err "YAMLError"
  end.
Definition demo_sources : gmap string payload :=
  list_to_map ((λ ns, (ns.1, Bytes ns.1)) <$> SOURCE_SPECS).
Lemma demo_compose_finite text n : demo_compose text = Ok n → finite n = true.
Proof.
  unfold demo_compose. destruct (List.find _ _) as [[name spec]|]; [|done]. intros [= <-].
  unfold demo_document, demo_node. cbn [finite].
  induction (sp_required_keys spec) as [|k ks IH]; [done|]. cbn [fmap list_fmap forallb].
  rewrite IH, andb_true_r. cbn. by destruct (sp_identity spec) as [[]|]; [case_bool_decide|].
Qed.

(** ** Claims *)

(** C35: given YAML without infinite numbers, a resource the compiler wrote passes
    its own integrity check and decodes to the bundle it was compiled from: the
    canonical document and the digest of the bytes of every source of the manifest. *)
Theorem compiled_resource_decodes yaml_compose sources bytes :
  (∀ text n, yaml_compose text = Ok n → finite n = true) →
  compile_source_bytes yaml_compose sources = Ok bytes →
  ∃ parts digest, Forall2 (compiled_part yaml_compose sources) (sort_keys SOURCE_SPECS) parts ∧
    decode_generated_resource bytes = Ok (sdict (("artifact_sha256", VStr digest) ::
      digest_members (sdict parts.*1) (sdict parts.*2))).
Proof.
  intros Hf (parts & digest & text & Hparts & Htext & -> & Hbytes)%compile_ok.
  destruct (parts_fixed yaml_compose Hf _ _ _ Hparts) as [Hd Hs]; [literal_keys|literal_nodup|].
  exists parts, (sha256_hex text). split; [done|]. by apply decode_bundle.
Qed.
Lemma compiled_resource_decodes_witness :
  ∃ bytes parts digest, compile_source_bytes demo_compose demo_sources = Ok bytes ∧
    Forall2 (compiled_part demo_compose demo_sources) (sort_keys SOURCE_SPECS) parts ∧
    decode_generated_resource bytes = Ok (sdict (("artifact_sha256", VStr digest) ::
      digest_members (sdict parts.*1) (sdict parts.*2))).
Proof.
  assert (is_ok (compile_source_bytes demo_compose demo_sources) = true) as Hok
    by (vm_compute; reflexivity).
  destruct (compile_source_bytes demo_compose demo_sources) as [bytes|e] eqn:H; [|discriminate Hok].
  destruct (compiled_resource_decodes demo_compose demo_sources bytes demo_compose_finite H)
    as (parts & digest & Hp & Hd).
  exists bytes, parts, digest. split; [reflexivity|]. split; [exact Hp|exact Hd].
Defined.

(** The members the digest covers. *)
Definition covered (k : string) : Prop :=
  k ∈ ["contracts_version"; "documents"; "format_version"; "sources"].

Lemma decode_ok raw v :
  decode_generated_resource raw = Ok v →
  ∃ d digest_input, v = VDict d ∧
    json_bytes (sdict [("contracts_version", dget "contracts_version" d);
                       ("documents", dget "documents" d);
                       ("format_version", dget "format_version" d);
                       ("sources", dget "sources" d)]) = Some digest_input ∧
    dget "artifact_sha256" d = VStr (sha256_hex digest_input).
Proof.
  unfold decode_generated_resource. intros H. apply rbind_ok in H as (text & _ & H).
  apply rbind_ok in H as (value & _ & H). destruct value as [| | | | | |d|]; try done.
  destruct (negb _); [done|]. destruct (negb _); [done|]. apply rbind_ok in H as (input & Hi & H).
  destruct (negb _) eqn:Hd; [done|]. injection H as <-. apply from_option_or_ok in Hi.
  exists d, input. split_and!; [done|done|]. by apply val_is_true, negb_false_iff.
Qed.

Lemma json_ok_dget k d : json_ok (VDict d) = true → json_ok (dget k d) = true.
Proof.
  cbn [json_ok]. intros [Hall _]%andb_true_iff. unfold dget.
  destruct (dfind k d) as [x|] eqn:H; [|done]. apply dfind_elem in H. cbn.
  rewrite forallb_forall in Hall. apply list_elem_of_In, Hall, andb_true_iff in H as [_ ?]. done.
Qed.

(** Two resources that pass the integrity check with the same digest have the
    same versions, documents and sources up to the order of their members, or their
    digested texts are a SHA-256 collision. *)
Theorem resource_digest_binds raw raw' d d' :
  decode_generated_resource raw = Ok (VDict d) → decode_generated_resource raw' = Ok (VDict d') →
  json_ok (VDict d) = true → json_ok (VDict d') = true →
  dget "artifact_sha256" d = dget "artifact_sha256" d' →
  (∀ k, covered k → printed utf8_style (dget k d) = printed utf8_style (dget k d')) ∨
  ∃ a b, sha256_collision a b.
Proof.
  intros (d1 & i1 & [= <-] & H1 & Ha1)%decode_ok (d2 & i2 & [= <-] & H2 & Ha2)%decode_ok Hok Hok' Heq.
  rewrite Ha1, Ha2 in Heq. injection Heq as Heq.
  destruct (sha256_equal_or_collision _ _ Heq) as [-> |Hc]; [left|right; by exists i1, i2].
  assert (∀ d, json_ok (VDict d) = true → json_ok (sdict [("contracts_version", dget "contracts_version" d);
    ("documents", dget "documents" d); ("format_version", dget "format_version" d);
    ("sources", dget "sources" d)]) = true) as Hj.
  { intros d0 Hd0. apply json_ok_sdict; [literal_nodup|]. repeat constructor; by apply json_ok_dget. }
  pose proof (json_bytes_inj _ _ _ (Hj _ Hok) (Hj _ Hok') H1 H2) as Hp.
  rewrite !printed_sdict in Hp by literal_keys. apply sdict_inj in Hp. injection Hp as E1 E2 E3 E4.
  intros k Hk. unfold covered in Hk. rewrite !elem_of_cons in Hk.
  destruct Hk as [-> |[-> |[-> |[-> |Hk]]]]; try done. by apply elem_of_nil in Hk.
Qed.
Lemma resource_digest_binds_witness :
  ∃ raw d, decode_generated_resource raw = Ok (VDict d) ∧
  ((∀ k, covered k → printed utf8_style (dget k d) = printed utf8_style (dget k d)) ∨
   ∃ a b, sha256_collision a b).
Proof.
  assert (is_ok (compile_source_bytes demo_compose demo_sources) = true) as Hok
    by (vm_compute; reflexivity).
  destruct (compile_source_bytes demo_compose demo_sources) as [bytes|e] eqn:H; [|discriminate Hok].
  destruct (compile_ok _ _ _ H) as (parts & digest & text & Hp & Ht & -> & Hb).
  destruct (parts_fixed _ demo_compose_finite _ _ _ Hp) as [Hd Hs]; [literal_keys|literal_nodup|].
  pose proof (decode_bundle _ _ _ _ Hd Hs Ht Hb) as Hdec.
  destruct (bundle_fixed (sha256_hex text) _ _ Hd Hs) as [Hj _].
  eexists bytes, _. split; [exact Hdec|].
  exact (resource_digest_binds _ _ _ _ Hdec Hdec Hj Hj eq_refl).
Defined.
