(* ===== verification/RuntimeStore.v ===== *)
(** * Durable runtime state: [src/faultwitness/persistence/postgres.py]

    [PostgresStateStore] over the tables of
    [migrations/001_i0011_durable_runtime.sql].  A table is a map on its primary
    key, an outbox the list of its rows in insertion order; an INSERT that meets
    a taken unique column is [UniqueViolation], and a transaction that raises
    leaves the tables as they were.  The lease table is written by other programs. *)
From S2P Require Import Prelude Json Kernel.

(** ** Tables *)

Record aggregate_row := { ag_machine_id : string; ag_state : string; ag_state_version : Z }.
Record idempotency_row := {
  id_request_digest : string;
  id_event_id : string;      (* response["event_id"] *)
  id_outbox_id : string;     (* response["outbox_id"] *)
}.
Record outbox_row := {
  ob_outbox_id : string;
  ob_tenant_id : string;
  ob_aggregate_id : string;
  ob_event_id : string;
  ob_event_type : string;
  ob_payload : val;
}.
(** The tables of one owner schema. *)
Record OwnerTables := {
  aggregate_state : gmap (string * string) aggregate_row;
  idempotency : gmap (string * string) idempotency_row;
  outbox : list outbox_row;
}.
Record lease_row := { ls_attempt_id : string; ls_fencing_token : Z; ls_expires_at : Z }.
Record checkpoint_row := {
  ck_attempt_id : string;
  ck_fencing_token : Z;
  ck_state_version : Z;
  ck_ciphertext : string;
  ck_key_id : string;
}.
Record Runtime := {
  incident_owner : OwnerTables;
  task_owner : OwnerTables;
  graph_owner : OwnerTables;
  action_owner : OwnerTables;
  inbox : gmap (string * string * string) string;
  dead_letter : gmap (string * string * string) (string * string);
  lease : gmap (string * string) lease_row;
  checkpoint : gmap (string * string) checkpoint_row;
}.

Inductive runtime_error :=
| VersionConflict
| DuplicateCommand
| StaleFence
| PyValueError
| CheckViolation
| UniqueViolation.

(** [PostgresStateStore.__init__] admits four schemas. *)
Inductive owner := IncidentOwner | TaskOwner | GraphOwner | ActionOwner.
Definition owner_of (schema : string) : result runtime_error owner :=
  if bool_decide (schema = "incident_owner") then Ok IncidentOwner
  else if bool_decide (schema = "task_owner") then Ok TaskOwner
  else if bool_decide (schema = "graph_owner") then Ok GraphOwner
  else if bool_decide (schema = "action_owner") then Ok ActionOwner
  else Err PyValueError.
Definition tables (o : owner) (s : Runtime) : OwnerTables :=
  match o with
  | IncidentOwner => incident_owner s | TaskOwner => task_owner s
  | GraphOwner => graph_owner s | ActionOwner => action_owner s
  end.
Definition with_tables (o : owner) (t : OwnerTables) (s : Runtime) : Runtime :=
  {| incident_owner := match o with IncidentOwner => t | _ => incident_owner s end;
     task_owner := match o with TaskOwner => t | _ => task_owner s end;
     graph_owner := match o with GraphOwner => t | _ => graph_owner s end;
     action_owner := match o with ActionOwner => t | _ => action_owner s end;
     inbox := inbox s; dead_letter := dead_letter s; lease := lease s; checkpoint := checkpoint s |}.

Abbreviation TableM := (SE OwnerTables runtime_error).
Abbreviation RuntimeM := (SE Runtime runtime_error).

(** A statement on the tables of one schema. *)
Definition on_tables {A} (o : owner) (m : TableM A) : RuntimeM A := λ s,
  let '(r, t) := m (tables o s) in (r, with_tables o t s).

(** ** Commands *)

Record Call := {
  c_tenant_id : string;
  c_decision : TransitionDecision;
  c_event_id : string;
  c_outbox_id : string;
}.
Record AppliedTransition := {
  ap_decision : TransitionDecision;
  ap_event_id : string;
  ap_outbox_id : string;
  ap_duplicate : bool;
}.

(** [asdict(decision)], which [jsonb] stores. *)
Definition decision_document (d : TransitionDecision) : val :=
  sdict [("machine_id", VStr (d_machine_id d)); ("owner_component", VStr (d_owner_component d));
         ("transition_id", VStr (d_transition_id d)); ("actor", VStr (d_actor d));
         ("aggregate_id", VStr (d_aggregate_id d)); ("previous_state", VStr (d_previous_state d));
         ("next_state", VStr (d_next_state d));
         ("previous_state_version", VInt (d_previous_state_version d));
         ("next_state_version", VInt (d_next_state_version d)); ("command", VStr (d_command d));
         ("event", VStr (d_event d)); ("schema_version", VStr (d_schema_version d));
         ("automatic", VBool (d_automatic d)); ("idempotency_key", opt_str (d_idempotency_key d));
         ("request_digest", VStr (d_request_digest d));
         ("evaluated_predicates", VList (VStr <$> d_evaluated_predicates d));
         ("decision_digest", VStr (d_decision_digest d))].

(** SELECT ... FROM idempotency and what is done with a prior row. *)
Definition read_prior (c : Call) (key : string) (t : OwnerTables) :
    result runtime_error (option AppliedTransition) :=
  match idempotency t !! (c_tenant_id c, key) with
  | Some prior =>
      raise_if bool_decide (id_request_digest prior ≠ d_request_digest (c_decision c))
        with_ DuplicateCommand;;
      Ok (Some {| ap_decision := c_decision c; ap_event_id := id_event_id prior;
                  ap_outbox_id := id_outbox_id prior; ap_duplicate := true |})
  | None => Ok None
  end.

Definition set_aggregate k (r : aggregate_row) (t : OwnerTables) : OwnerTables :=
  {| aggregate_state := <[k := r]> (aggregate_state t); idempotency := idempotency t;
     outbox := outbox t |}.
Definition set_idempotency k (r : idempotency_row) (t : OwnerTables) : OwnerTables :=
  {| aggregate_state := aggregate_state t; idempotency := <[k := r]> (idempotency t);
     outbox := outbox t |}.
Definition add_outbox (r : outbox_row) (t : OwnerTables) : OwnerTables :=
  {| aggregate_state := aggregate_state t; idempotency := idempotency t;
     outbox := outbox t ++ [r] |}.

(** INSERT INTO aggregate_state ... ON CONFLICT DO UPDATE ... WHERE; the machine
    of an existing row stays. *)
Definition upsert_aggregate (tenant_id : string) (d : TransitionDecision) : TableM unit :=
  let! t := sget in
  let k := (tenant_id, d_aggregate_id d) in
  match aggregate_state t !! k with
  | None =>
      sguard (d_next_state_version d <? 0)%Z CheckViolation ;;;
      smodify (set_aggregate k {| ag_machine_id := d_machine_id d; ag_state := d_next_state d;
                                  ag_state_version := d_next_state_version d |})
  | Some row =>
      sguard (negb (ag_state_version row =? d_previous_state_version d)%Z) VersionConflict ;;;
      sguard (d_next_state_version d <? 0)%Z CheckViolation ;;;
      smodify (set_aggregate k {| ag_machine_id := ag_machine_id row; ag_state := d_next_state d;
                                  ag_state_version := d_next_state_version d |})
  end.

Definition insert_outbox (r : outbox_row) : TableM unit :=
  let! t := sget in
  sguard (existsb (λ r', bool_decide (ob_outbox_id r' = ob_outbox_id r) ||
                         bool_decide (ob_event_id r' = ob_event_id r)) (outbox t)) UniqueViolation ;;;
  smodify (add_outbox r).

Definition insert_idempotency (k : string * string) (r : idempotency_row) : TableM unit :=
  let! t := sget in
  sguard (bool_decide (is_Some (idempotency t !! k))) UniqueViolation ;;;
  smodify (set_idempotency k r).

Definition state_event (c : Call) : outbox_row :=
  {| ob_outbox_id := c_outbox_id c; ob_tenant_id := c_tenant_id c;
     ob_aggregate_id := d_aggregate_id (c_decision c); ob_event_id := c_event_id c;
     ob_event_type := d_event (c_decision c); ob_payload := decision_document (c_decision c) |}.

(** The statements after the idempotency lookup. *)
Definition write_transition (c : Call) (key : string) : TableM unit :=
  upsert_aggregate (c_tenant_id c) (c_decision c) ;;;
  insert_outbox (state_event c) ;;;
  insert_idempotency (c_tenant_id c, key)
    {| id_request_digest := d_request_digest (c_decision c); id_event_id := c_event_id c;
       id_outbox_id := c_outbox_id c |}.

(** [apply_transition], with no other transaction in between. *)
Definition apply_transition (o : owner) (c : Call) : RuntimeM AppliedTransition :=
  match d_idempotency_key (c_decision c) with
  | None => sraise PyValueError
  | Some key =>
      atomically (on_tables o (
        let! t := sget in
        let! prior := slift (read_prior c key t) in
        match prior with
        | Some applied => sret applied
        | None =>
            write_transition c key ;;;
            sret {| ap_decision := c_decision c; ap_event_id := c_event_id c;
                    ap_outbox_id := c_outbox_id c; ap_duplicate := false |}
        end))
  end.

(** ** Inbox and dead letters *)

Definition with_inbox f (s : Runtime) : Runtime :=
  {| incident_owner := incident_owner s; task_owner := task_owner s; graph_owner := graph_owner s;
     action_owner := action_owner s; inbox := f (inbox s); dead_letter := dead_letter s;
     lease := lease s; checkpoint := checkpoint s |}.
Definition with_dead_letter f (s : Runtime) : Runtime :=
  {| incident_owner := incident_owner s; task_owner := task_owner s; graph_owner := graph_owner s;
     action_owner := action_owner s; inbox := inbox s; dead_letter := f (dead_letter s);
     lease := lease s; checkpoint := checkpoint s |}.
Definition with_checkpoint f (s : Runtime) : Runtime :=
  {| incident_owner := incident_owner s; task_owner := task_owner s; graph_owner := graph_owner s;
     action_owner := action_owner s; inbox := inbox s; dead_letter := dead_letter s;
     lease := lease s; checkpoint := f (checkpoint s) |}.

(** [record_inbox] *)
Definition record_inbox (tenant_id consumer event_id : string) : RuntimeM bool :=
  let! s := sget in
  let k := (tenant_id, consumer, event_id) in
  match inbox s !! k with
  | Some _ => sret false
  | None => smodify (with_inbox (insert k "RECEIVED")) ;;; sret true
  end.

(** [mark_dead_letter] *)
Definition mark_dead_letter (tenant_id consumer event_id reason payload : string) : RuntimeM unit :=
  let! s := sget in
  let k := (tenant_id, consumer, event_id) in
  match dead_letter s !! k with
  | Some _ => sret tt
  | None => smodify (with_dead_letter (insert k (reason, payload)))
  end.

(** ** Checkpoints *)

Record CheckpointCall := {
  k_tenant_id : string;
  k_task_id : string;
  k_attempt_id : string;
  k_fencing_token : Z;
  k_state_version : Z;
  k_ciphertext : string;
  k_key_id : string;
  k_event_id : string;
  k_outbox_id : string;
}.

(** The lease that admits the call: same attempt and token, not expired. *)
Definition holds_lease (c : CheckpointCall) (now : Z) (s : Runtime) : bool :=
  match lease s !! (k_tenant_id c, k_task_id c) with
  | Some l => bool_decide (ls_attempt_id l = k_attempt_id c) &&
              (ls_fencing_token l =? k_fencing_token c)%Z && (now <? ls_expires_at l)%Z
  | None => false
  end.

Definition checkpoint_event (c : CheckpointCall) : outbox_row :=
  {| ob_outbox_id := k_outbox_id c; ob_tenant_id := k_tenant_id c; ob_aggregate_id := k_task_id c;
     ob_event_id := k_event_id c; ob_event_type := "EVT-GRAPH-CHECKPOINTED";
     ob_payload := sdict [("task_id", VStr (k_task_id c)); ("state_version", VInt (k_state_version c))] |}.

Definition upsert_checkpoint (c : CheckpointCall) : RuntimeM unit :=
  let! s := sget in
  let k := (k_tenant_id c, k_task_id c) in
  sguard match checkpoint s !! k with
         | Some old => negb (ck_state_version old <? k_state_version c)%Z
         | None => false
         end VersionConflict ;;;
  smodify (with_checkpoint (insert k
    {| ck_attempt_id := k_attempt_id c; ck_fencing_token := k_fencing_token c;
       ck_state_version := k_state_version c; ck_ciphertext := k_ciphertext c;
       ck_key_id := k_key_id c |})).

(** [write_checkpoint]; [now] is the time of the transaction. *)
Definition write_checkpoint (c : CheckpointCall) (now : Z) : RuntimeM unit :=
  atomically (
    let! s := sget in
    sguard (negb (holds_lease c now s)) StaleFence ;;;
    upsert_checkpoint c ;;;
    on_tables GraphOwner (insert_outbox (checkpoint_event c))).
