(* ===== verification/RuntimeTheorems.v ===== *)
(** * Theorems of the durable runtime state

    Commands applied by concurrent transactions, and checkpoints under leases
    that other programs move. *)
From S2P Require Import Prelude Json Kernel KernelSpec ContractData RuntimeStore.

(** ** Statements *)

Lemma insert_outbox_ok r t t' :
  insert_outbox r t = (Ok tt, t') →
  t' = add_outbox r t ∧
  Forall (λ r', ob_outbox_id r' ≠ ob_outbox_id r ∧ ob_event_id r' ≠ ob_event_id r) (outbox t).
Proof.
  unfold insert_outbox, sbind, sget, sguard, smodify. destruct (existsb _ _) eqn:E; [done|].
  intros [= <-]. split; [done|]. apply Forall_forall. intros r' Hr'.
  apply not_true_iff_false in E.
  split; intros He; apply E, existsb_exists; exists r'; (split; [by apply list_elem_of_In|]);
    apply orb_true_iff; rewrite !bool_decide_eq_true; auto.
Qed.

Definition aggregate_key (c : Call) : string * string :=
  (c_tenant_id c, d_aggregate_id (c_decision c)).
Definition answer_row (c : Call) : idempotency_row :=
  {| id_request_digest := d_request_digest (c_decision c); id_event_id := c_event_id c;
     id_outbox_id := c_outbox_id c |}.

(** A transition that was written: what it required and what it left. *)
Record written (c : Call) (key : string) (t t' : OwnerTables) : Prop := {
  wr_version : ∀ row, aggregate_state t !! aggregate_key c = Some row →
    ag_state_version row = d_previous_state_version (c_decision c);
  wr_key : idempotency t !! (c_tenant_id c, key) = None;
  wr_fresh : Forall (λ r, ob_outbox_id r ≠ c_outbox_id c ∧ ob_event_id r ≠ c_event_id c) (outbox t);
  wr_aggregate : ∃ machine, aggregate_state t' = <[aggregate_key c :=
    {| ag_machine_id := machine; ag_state := d_next_state (c_decision c);
       ag_state_version := d_next_state_version (c_decision c) |}]> (aggregate_state t);
  wr_idempotency : idempotency t' = <[(c_tenant_id c, key) := answer_row c]> (idempotency t);
  wr_outbox : outbox t' = outbox t ++ [state_event c];
}.

Lemma upsert_aggregate_ok c t t' :
  upsert_aggregate (c_tenant_id c) (c_decision c) t = (Ok tt, t') →
  (∀ row, aggregate_state t !! aggregate_key c = Some row →
     ag_state_version row = d_previous_state_version (c_decision c)) ∧
  ∃ machine, t' = set_aggregate (aggregate_key c)
    {| ag_machine_id := machine; ag_state := d_next_state (c_decision c);
       ag_state_version := d_next_state_version (c_decision c) |} t.
Proof.
  unfold upsert_aggregate, sbind, sget, sguard, smodify. fold (aggregate_key c).
  destruct (aggregate_state t !! aggregate_key c) as [row|] eqn:Hrow.
  - destruct (negb _) eqn:Hv; [done|]. destruct (_ <? 0)%Z; [done|]. intros [= <-]. split; [|by eexists].
    intros ? [= <-]. apply negb_false_iff in Hv. lia.
  - destruct (_ <? 0)%Z; [done|]. intros [= <-]. split; [done|by eexists].
Qed.

Lemma write_transition_ok c key t t' :
  write_transition c key t = (Ok tt, t') → written c key t t'.
Proof.
  unfold write_transition. intros H. apply sbind_ok in H as ([] & t1 & H1 & H).
  apply sbind_ok in H as ([] & t2 & H2 & H).
  apply upsert_aggregate_ok in H1 as (Hv & machine & ->). apply insert_outbox_ok in H2 as [-> Hfresh].
  unfold insert_idempotency, sbind, sget, sguard, smodify in H. case_bool_decide as Hk; [done|].
  injection H as <-. constructor; try done; cbn in *; [by apply eq_None_not_Some|by exists machine].
Qed.

(** ** Concurrent commands *)

(** The tables of one schema, the transactions that looked their key up and have
    not committed yet, and the calls that were answered as applied, in order.
    Between its lookup and its commit a transaction sees what the others commit. *)
Record System := {
  sys_tables : OwnerTables;
  sys_open : list (Call * string);
  sys_applied : list Call;
}.

Inductive sys_step : System → System → Prop :=
| begin_command c key t open applied k request :
    decide_transition k request = Ok (c_decision c) →
    d_idempotency_key (c_decision c) = Some key → read_prior c key t = Ok None →
    sys_step {| sys_tables := t; sys_open := open; sys_applied := applied |}
             {| sys_tables := t; sys_open := (c, key) :: open; sys_applied := applied |}
| commit_command c key t t' before after applied :
    write_transition c key t = (Ok tt, t') →
    sys_step {| sys_tables := t; sys_open := before ++ (c, key) :: after; sys_applied := applied |}
             {| sys_tables := t'; sys_open := before ++ after; sys_applied := applied ++ [c] |}
| roll_back c key t before after applied :
    sys_step {| sys_tables := t; sys_open := before ++ (c, key) :: after; sys_applied := applied |}
             {| sys_tables := t; sys_open := before ++ after; sys_applied := applied |}
| other_event r t t' open applied :
    insert_outbox r t = (Ok tt, t') →
    sys_step {| sys_tables := t; sys_open := open; sys_applied := applied |}
             {| sys_tables := t'; sys_open := open; sys_applied := applied |}.

Definition no_tables : OwnerTables :=
  {| aggregate_state := ∅; idempotency := ∅; outbox := [] |}.
Definition sys_start : System := {| sys_tables := no_tables; sys_open := []; sys_applied := [] |}.

(** The applied commands of one aggregate. *)
Definition history_of (k : string * string) (applied : list Call) : list Call :=
  filter (λ c, aggregate_key c = k) applied.

Definition from_kernel (c : Call) : Prop :=
  ∃ k request, decide_transition k request = Ok (c_decision c).

Definition versions (h : list Call) : list Z := (λ c, d_next_state_version (c_decision c)) <$> h.

(** What holds of one aggregate: consecutive versions, the last one stored. *)
Definition aggregate_inv (t : OwnerTables) (applied : list Call) (k : string * string) : Prop :=
  match history_of k applied, aggregate_state t !! k with
  | [], None => True
  | first :: rest, Some row =>
      versions (first :: rest) =
        seqZ (d_next_state_version (c_decision first)) (Z.of_nat (S (length rest))) ∧
      ag_state_version row = (d_next_state_version (c_decision first) + Z.of_nat (length rest))%Z ∧
      (∃ c, last (first :: rest) = Some c ∧ ag_state row = d_next_state (c_decision c))
  | _, _ => False
  end.

Record sys_inv (s : System) : Prop := {
  si_open : Forall (λ ck, from_kernel ck.1 ∧ d_idempotency_key (c_decision ck.1) = Some ck.2) (sys_open s);
  si_answers : Forall (λ c, ∃ key, d_idempotency_key (c_decision c) = Some key ∧
    idempotency (sys_tables s) !! (c_tenant_id c, key) = Some (answer_row c)) (sys_applied s);
  si_once : NoDup ((λ c, (c_tenant_id c, d_idempotency_key (c_decision c))) <$> sys_applied s);
  si_events : Forall (λ c, state_event c ∈ outbox (sys_tables s)) (sys_applied s);
  si_outbox : NoDup (ob_outbox_id <$> outbox (sys_tables s)) ∧
              NoDup (ob_event_id <$> outbox (sys_tables s));
  si_aggregates : ∀ k, aggregate_inv (sys_tables s) (sys_applied s) k;
}.

Lemma nodup_snoc {A B} (f : A → B) l x :
  NoDup (f <$> l) → Forall (λ y, f y ≠ f x) l → NoDup (f <$> (l ++ [x])).
Proof.
  intros Hl Hx. rewrite fmap_app. apply NoDup_app. split; [done|]. split; [|apply NoDup_singleton].
  intros b Hb ->%list_elem_of_singleton. apply list_elem_of_fmap in Hb as (y & He & Hy).
  rewrite Forall_forall in Hx. by apply (Hx y).
Qed.

Lemma history_of_snoc k applied c :
  history_of k (applied ++ [c]) =
    history_of k applied ++ if decide (aggregate_key c = k) then [c] else [].
Proof. unfold history_of. by rewrite filter_app. Qed.

Lemma seqZ_1 n : seqZ n 1 = [n].
Proof. unfold seqZ. cbn. by f_equal. Qed.

Lemma kernel_next_version c :
  from_kernel c →
  d_next_state_version (c_decision c) = (d_previous_state_version (c_decision c) + 1)%Z.
Proof.
  intros (k & r & (m & t & key & ? & Hd)%decide_iff). by rewrite Hd.
Qed.

Lemma aggregate_inv_written c key t t' applied k :
  written c key t t' → from_kernel c → aggregate_inv t applied k → aggregate_inv t' (applied ++ [c]) k.
Proof.
  intros [Hv _ _ (machine & Hagg) _ _] Hk Hinv. unfold aggregate_inv in *.
  rewrite history_of_snoc, Hagg. case_decide as Heq.
  2: { rewrite app_nil_r, lookup_insert_ne by done. exact Hinv. }
  subst k. rewrite lookup_insert_eq. specialize (Hv).
  destruct (history_of (aggregate_key c) applied) as [|first rest];
    destruct (aggregate_state t !! aggregate_key c) as [row|] eqn:Hrow; try done.
  - cbn. split_and!; [|lia|by exists c]. unfold seqZ; cbn; f_equal; lia.
  - destruct Hinv as (Hseq & Hrv & _). specialize (Hv _ eq_refl).
    apply kernel_next_version in Hk. cbn [app]. rewrite length_app. cbn [length].
    assert (d_next_state_version (c_decision c)
      = d_next_state_version (c_decision first) + Z.of_nat (S (length rest)))%Z as Hn by lia.
    split_and!; [|cbn; lia|].
    + unfold versions in *. change (first :: rest ++ [c]) with ((first :: rest) ++ [c]).
      rewrite fmap_app, Hseq. cbn [fmap list_fmap].
      replace (Z.of_nat (S (length rest + 1))) with (Z.of_nat (S (length rest)) + 1)%Z by lia.
      rewrite seqZ_app by lia. by rewrite seqZ_1, Hn.
    + exists c. split; [|done]. change (first :: rest ++ [c]) with ((first :: rest) ++ [c]).
      by rewrite last_snoc.
Qed.

Lemma sys_step_inv s s' : sys_step s s' → sys_inv s → sys_inv s'.
Proof.
  intros [c key t open applied k request Hd Hkey Hprior|c key t t' before after applied Hw
    |c key t before after applied|r t t' open applied Hr]
    [Hopen Hans Honce Hev [Hob Hobe] Hagg]; cbn in *.
  - constructor; try done. constructor; [|done]. split; [by exists k, request|done].
  - apply Forall_app in Hopen as [Hb [[Hk Hkey] Ha]%Forall_cons]. cbn in *.
    apply write_transition_ok in Hw. pose proof Hw as [_ Hfresh Hnew _ Hid Hout]. constructor; cbn.
    + by apply Forall_app.
    + apply Forall_app. rewrite Hid. split; [|apply Forall_singleton; exists key; by rewrite lookup_insert_eq].
      eapply Forall_impl; [exact Hans|]. intros c' (key' & Hk' & Hrow). exists key'. split; [done|].
      rewrite lookup_insert_ne; [done|]. intros Heq. rewrite Heq in Hfresh. congruence.
    + apply nodup_snoc; [done|]. eapply Forall_impl; [exact Hans|].
      intros c' (key' & Hk' & Hrow) Heq. rewrite Hk', Hkey in Heq. injection Heq as Ht ->.
      rewrite Ht in Hrow. congruence.
    + rewrite Hout. apply Forall_app. split; [|apply Forall_singleton; set_solver].
      eapply Forall_impl; [exact Hev|]. intros c' Hc'. apply elem_of_app. by left.
    + rewrite Hout. split; apply nodup_snoc; try done; (eapply Forall_impl; [exact Hnew|]); naive_solver.
    + intros k. eapply aggregate_inv_written; [exact Hw|exact Hk|]. apply Hagg.
  - constructor; try done. apply Forall_app in Hopen as [Hb [_ Ha]%Forall_cons]. by apply Forall_app.
  - apply insert_outbox_ok in Hr as [-> Hfresh]. constructor; cbn; try done.
    + eapply Forall_impl; [exact Hev|]. intros c' Hc'. apply elem_of_app. by left.
    + split; apply nodup_snoc; try done; (eapply Forall_impl; [exact Hfresh|]); naive_solver.
Qed.

Lemma sys_start_inv : sys_inv sys_start.
Proof.
  constructor; [apply Forall_nil_2|apply Forall_nil_2|apply NoDup_nil_2|apply Forall_nil_2|
    split; apply NoDup_nil_2|]. intros k. unfold aggregate_inv. cbn. by rewrite lookup_empty.
Qed.

Lemma sys_reach_inv s : rtc sys_step sys_start s → sys_inv s.
Proof.
  intros H. eapply (rtc_ind_r (λ s, sys_inv s) sys_start); [apply sys_start_inv| |exact H].
  intros s1 s2 _ Hs Hi. by eapply sys_step_inv.
Qed.

(** ** Checkpoints *)

Definition token_le (s s' : Runtime) : Prop :=
  ∀ k l, lease s !! k = Some l → ∃ l', lease s' !! k = Some l' ∧
    (ls_fencing_token l <= ls_fencing_token l')%Z.

(** The operations of the store, in any order and whether they succeed or not,
    and whatever moves the leases without lowering a fencing token. *)
Inductive run_step : Runtime → Runtime → Prop :=
| run_apply o c s : run_step s (apply_transition o c s).2
| run_inbox t k e s : run_step s (record_inbox t k e s).2
| run_dead_letter t k e r p s : run_step s (mark_dead_letter t k e r p s).2
| run_checkpoint c now s : run_step s (write_checkpoint c now s).2
| run_lease l s s' :
    s' = {| incident_owner := incident_owner s; task_owner := task_owner s;
            graph_owner := graph_owner s; action_owner := action_owner s; inbox := inbox s;
            dead_letter := dead_letter s; lease := l; checkpoint := checkpoint s |} →
    token_le s s' → run_step s s'.

(** No checkpoint carries a token above its task's lease. *)
Definition fenced (s : Runtime) : Prop :=
  ∀ k ck, checkpoint s !! k = Some ck → ∃ l, lease s !! k = Some l ∧
    (ck_fencing_token ck <= ls_fencing_token l)%Z.

(** A checkpoint is kept or replaced by one of a later version and no earlier token. *)
Definition advances (s s' : Runtime) : Prop :=
  ∀ k ck, checkpoint s !! k = Some ck → ∃ ck', checkpoint s' !! k = Some ck' ∧
    (ck' = ck ∨ ck_state_version ck < ck_state_version ck')%Z ∧
    (ck_fencing_token ck <= ck_fencing_token ck')%Z.

Definition same_tables (s s' : Runtime) : Prop := lease s' = lease s ∧ checkpoint s' = checkpoint s.

Lemma same_tables_on {A} o (m : TableM A) s : same_tables s (on_tables o m s).2.
Proof. unfold on_tables. by destruct (m (tables o s)), o. Qed.
Lemma same_tables_atomically {A} (m : RuntimeM A) s :
  same_tables s (m s).2 → same_tables s (atomically m s).2.
Proof. unfold atomically. by destruct (m s) as [[] ?]. Qed.

Lemma same_tables_apply o c s : same_tables s (apply_transition o c s).2.
Proof.
  unfold apply_transition. destruct (d_idempotency_key _); [|done].
  apply same_tables_atomically, same_tables_on.
Qed.

(** What a checkpoint write that succeeds did. *)
Record checkpointed (c : CheckpointCall) (now : Z) (s s' : Runtime) : Prop := {
  cp_lease : holds_lease c now s = true;
  cp_version : ∀ old, checkpoint s !! (k_tenant_id c, k_task_id c) = Some old →
    (ck_state_version old < k_state_version c)%Z;
  cp_checkpoint : checkpoint s' = <[(k_tenant_id c, k_task_id c) :=
    {| ck_attempt_id := k_attempt_id c; ck_fencing_token := k_fencing_token c;
       ck_state_version := k_state_version c; ck_ciphertext := k_ciphertext c;
       ck_key_id := k_key_id c |}]> (checkpoint s);
  cp_same_lease : lease s' = lease s;
  cp_outbox : outbox (graph_owner s') = outbox (graph_owner s) ++ [checkpoint_event c];
}.

Lemma write_checkpoint_ok c now s s' :
  write_checkpoint c now s = (Ok tt, s') → checkpointed c now s s'.
Proof.
  intros H. apply (proj1 (atomically_ok _ _ _ _)) in H. apply sbind_ok in H as (s0 & s00 & [= <- <-] & H).
  apply sbind_ok in H as ([] & s1 & Hg & H). unfold sguard in Hg.
  destruct (negb (holds_lease c now s)) eqn:Hl; [done|]. injection Hg as <-.
  apply sbind_ok in H as ([] & s1 & H1 & H). unfold upsert_checkpoint, sbind, sget, sguard, smodify in H1.
  set (blocked := match checkpoint s !! _ with Some _ => _ | None => false end) in H1.
  destruct blocked eqn:Hb; [done|]. injection H1 as <-.
  unfold on_tables in H. destruct (insert_outbox _ _) as [[[]|e] t] eqn:Ho; [|done]. injection H as <-.
  apply insert_outbox_ok in Ho as [-> _]. constructor; try done; [by apply negb_false_iff|].
  intros old Hold. unfold blocked in Hb. rewrite Hold in Hb. apply negb_false_iff in Hb. lia.
Qed.

Lemma write_checkpoint_err c now s e s' : write_checkpoint c now s = (Err e, s') → s' = s.
Proof. apply atomically_err. Qed.

Lemma holds_lease_token c now s :
  holds_lease c now s = true →
  ∃ l, lease s !! (k_tenant_id c, k_task_id c) = Some l ∧ ls_fencing_token l = k_fencing_token c.
Proof.
  unfold holds_lease. destruct (lease s !! _) as [l|]; [|done].
  intros [[_ H]%andb_true_iff _]%andb_true_iff. exists l. split; [done|lia].
Qed.

Lemma advances_refl s : advances s s.
Proof. intros k ck H. exists ck. split_and!; [done|by left|lia]. Qed.

Lemma same_tables_step s s' : same_tables s s' → fenced s → fenced s' ∧ advances s s'.
Proof.
  intros [Hl Hc] Hf. split.
  - intros k ck. rewrite Hc, Hl. apply Hf.
  - intros k ck H. exists ck. rewrite Hc. split_and!; [done|by left|lia].
Qed.

Lemma run_step_fenced s s' : run_step s s' → fenced s → fenced s' ∧ advances s s'.
Proof.
  intros Hstep Hf.
  destruct Hstep as [o c s|t k e s|t k e r p s|c now s|l s s' -> Hle].
  - apply same_tables_step; [apply same_tables_apply|done].
  - apply same_tables_step; [|done]. unfold record_inbox, sbind, sget. by destruct (inbox s !! _).
  - apply same_tables_step; [|done]. unfold mark_dead_letter, sbind, sget. by destruct (dead_letter s !! _).
  - destruct (write_checkpoint c now s) as [[[]|e] s'] eqn:H; cbn [snd].
    2: { apply write_checkpoint_err in H as ->. split; [done|apply advances_refl]. }
    apply write_checkpoint_ok in H as [Hl Hv Hc Hsame _].
    apply holds_lease_token in Hl as (l & Hl & Htok). split.
    + intros k ck. rewrite Hc, Hsame. destruct (decide (k = (k_tenant_id c, k_task_id c))) as [-> |Hne].
      * rewrite lookup_insert_eq. intros [= <-]. exists l. split; [done|cbn; lia].
      * rewrite lookup_insert_ne by done. apply Hf.
    + intros k ck Hk. rewrite Hc. destruct (decide (k = (k_tenant_id c, k_task_id c))) as [-> |Hne].
      * rewrite lookup_insert_eq. eexists. split; [done|]. cbn. specialize (Hv _ Hk).
        destruct (Hf _ _ Hk) as (l' & Hl' & Hle). rewrite Hl in Hl'. simplify_eq. split; [by right|lia].
      * rewrite lookup_insert_ne by done. by apply advances_refl.
  - split; [|intros k ck Hk; by apply advances_refl]. intros k ck Hk. destruct (Hf _ _ Hk) as (l0 & Hl0 & Htok).
    destruct (Hle _ _ Hl0) as (l1 & Hl1 & Htok1). exists l1. split; [done|lia].
Qed.

Lemma advances_trans s1 s2 s3 : advances s1 s2 → advances s2 s3 → advances s1 s3.
Proof.
  intros H1 H2 k ck Hk. destruct (H1 _ _ Hk) as (ck2 & Hk2 & Hv2 & Ht2).
  destruct (H2 _ _ Hk2) as (ck3 & Hk3 & Hv3 & Ht3). exists ck3. split; [done|]. split; [|lia].
  destruct Hv2 as [-> |?], Hv3 as [-> |?]; auto; right; lia.
Qed.

Lemma run_fenced s s' : rtc run_step s s' → fenced s → fenced s' ∧ advances s s'.
Proof.
  induction 1 as [s|s1 s2 s3 Hstep _ IH]; intros Hf; [split; [done|apply advances_refl]|].
  destruct (run_step_fenced _ _ Hstep Hf) as [Hf2 Ha]. destruct (IH Hf2) as [Hf3 Ha3].
  split; [done|]. by eapply advances_trans.
Qed.

(** [apply_transition] that applies is a lookup followed by a commit. *)
Lemma apply_transition_steps o c s ap s' :
  apply_transition o c s = (Ok ap, s') → ap_duplicate ap = false →
  ∃ key t', d_idempotency_key (c_decision c) = Some key ∧
    read_prior c key (tables o s) = Ok None ∧
    write_transition c key (tables o s) = (Ok tt, t') ∧ s' = with_tables o t' s.
Proof.
  unfold apply_transition. destruct (d_idempotency_key (c_decision c)) as [key|]; [|done].
  intros H Hdup. apply (proj1 (atomically_ok _ _ _ _)) in H. unfold on_tables in H.
  destruct (sbind sget _ (tables o s)) as [r t'] eqn:Ht. injection H as -> <-.
  apply sbind_ok in Ht as (t0 & t00 & [= <- <-] & H).
  apply sbind_ok in H as (prior & t1 & Hp & H). unfold slift in Hp.
  injection Hp as Hprior <-. destruct prior as [applied|].
  - injection H as -> _. exfalso. revert Hprior. unfold read_prior.
    destruct (idempotency _ !! _); [|done]. case_bool_decide; [done|]. intros [= <-]. done.
  - apply sbind_ok in H as ([] & t2 & Hw & [= <- <-]). by exists key, t2.
Qed.

(** ** A run *)

Definition demo_call (d : TransitionDecision) : Call :=
  {| c_tenant_id := "ten_1"; c_decision := d; c_event_id := "evt_1"; c_outbox_id := "out_1" |}.

Lemma demo_commit d key :
  (0 <= d_next_state_version d)%Z →
  ∃ t', write_transition (demo_call d) key no_tables = (Ok tt, t').
Proof.
  intros Hv. unfold write_transition, upsert_aggregate, insert_outbox, insert_idempotency, sbind, sget,
    sguard, smodify. cbn [c_decision c_tenant_id demo_call]. cbn [aggregate_state no_tables].
  rewrite lookup_empty. replace (_ <? 0)%Z with false by lia. eexists. reflexivity.
Qed.

Definition demo_lease (now : Z) : Runtime :=
  {| incident_owner := no_tables; task_owner := no_tables; graph_owner := no_tables;
     action_owner := no_tables; inbox := ∅; dead_letter := ∅;
     lease := {[("ten_1", "task_1") := {| ls_attempt_id := "att_2"; ls_fencing_token := 2;
                                          ls_expires_at := now + 60 |}]};
     checkpoint := {[("ten_1", "task_1") := {| ck_attempt_id := "att_1"; ck_fencing_token := 1;
                       ck_state_version := 3; ck_ciphertext := ""; ck_key_id := "k" |}]} |}.
Definition demo_write (attempt : string) (token version : Z) : CheckpointCall :=
  {| k_tenant_id := "ten_1"; k_task_id := "task_1"; k_attempt_id := attempt; k_fencing_token := token;
     k_state_version := version; k_ciphertext := "c"; k_key_id := "k"; k_event_id := "evt_1";
     k_outbox_id := "out_1" |}.
Lemma demo_lease_fenced now : fenced (demo_lease now).
Proof.
  intros k ck Hk. cbn in Hk. apply lookup_singleton_Some in Hk as [<- <-].
  eexists. split; [apply lookup_singleton_eq|done].
Qed.

(** ** Claims *)

(** C6: commands of the kernel, applied by concurrent transactions that look their
    key up and commit later, each with other transactions in between: a key of a
    tenant is applied at most once, with one outbox event; the applied versions of an
    aggregate are consecutive and the last is stored; and a later call with an applied
    key is answered the first ids, or refused when its request differs. *)
Theorem durable_commands_apply_once s :
  rtc sys_step sys_start s →
  NoDup ((λ c, (c_tenant_id c, d_idempotency_key (c_decision c))) <$> sys_applied s) ∧
  NoDup (ob_event_id <$> outbox (sys_tables s)) ∧
  (∀ k, aggregate_inv (sys_tables s) (sys_applied s) k) ∧
  Forall (λ c, state_event c ∈ outbox (sys_tables s) ∧
    ∃ key, d_idempotency_key (c_decision c) = Some key ∧
    ∀ c', c_tenant_id c' = c_tenant_id c →
      read_prior c' key (sys_tables s) =
        if bool_decide (d_request_digest (c_decision c) = d_request_digest (c_decision c'))
        then Ok (Some {| ap_decision := c_decision c'; ap_event_id := c_event_id c;
                         ap_outbox_id := c_outbox_id c; ap_duplicate := true |})
        else Err DuplicateCommand) (sys_applied s).
Proof.
  intros [_ Hans Honce Hev [_ Hob] Hagg]%sys_reach_inv. split_and!; try done.
  rewrite Forall_forall in Hans. rewrite Forall_forall in Hev. apply Forall_forall.
  intros c Hc. split; [by apply Hev|]. destruct (Hans _ Hc) as (key & Hkey & Hrow).
  exists key. split; [done|]. intros c' Ht. unfold read_prior. rewrite Ht, Hrow. cbn.
  repeat case_bool_decide; done.
Qed.
Lemma durable_commands_apply_once_witness :
  ∃ s c, sys_applied s = [c] ∧ rtc sys_step sys_start s ∧
  NoDup ((λ c, (c_tenant_id c, d_idempotency_key (c_decision c))) <$> sys_applied s) ∧
  NoDup (ob_event_id <$> outbox (sys_tables s)) ∧
  (∀ k, aggregate_inv (sys_tables s) (sys_applied s) k) ∧
  Forall (λ c, state_event c ∈ outbox (sys_tables s) ∧
    ∃ key, d_idempotency_key (c_decision c) = Some key ∧
    ∀ c', c_tenant_id c' = c_tenant_id c →
      read_prior c' key (sys_tables s) =
        if bool_decide (d_request_digest (c_decision c) = d_request_digest (c_decision c'))
        then Ok (Some {| ap_decision := c_decision c'; ap_event_id := c_event_id c;
                         ap_outbox_id := c_outbox_id c; ap_duplicate := true |})
        else Err DuplicateCommand) (sys_applied s).
Proof.
  destruct (shipped_run (λ k, match decide_transition k dispatch_request with
    | Ok d => bool_decide (d_idempotency_key d = Some "dispatch-action-1") &&
              (0 <=? d_next_state_version d)%Z
    | Err _ => false end)) as (reg & k & Hk & _ & _ & Hd); [vm_compute; reflexivity|].
  destruct (decide_transition k dispatch_request) as [d|] eqn:Hdec; [|discriminate].
  apply andb_true_iff in Hd as [Hkey%bool_decide_eq_true Hv].
  destruct (demo_commit d "dispatch-action-1") as [t' Ht]; [lia|].
  set (c := demo_call d) in *.
  set (s := {| sys_tables := t'; sys_open := []; sys_applied := [c] |}).
  assert (rtc sys_step sys_start s) as Hrun.
  { eapply rtc_l; [apply (begin_command c "dispatch-action-1" no_tables [] [] k dispatch_request);
      [exact Hdec|exact Hkey|reflexivity]|].
    eapply rtc_l; [apply (commit_command c "dispatch-action-1" no_tables t' [] [] []); exact Ht|].
    apply rtc_refl. }
  exists s, c. split; [reflexivity|]. split; [exact Hrun|].
  exact (durable_commands_apply_once s Hrun).
Defined.

(** C10: whatever the operations of the store do and however leases move, as long
    as a fencing token is never lowered, a task's checkpoint is only ever replaced by
    one of a later version and no earlier token; and a worker whose token has been
    overtaken is refused without effect. *)
Theorem checkpoints_are_fenced s s' :
  fenced s → rtc run_step s s' →
  advances s s' ∧
  ∀ c ck now, checkpoint s' !! (k_tenant_id c, k_task_id c) = Some ck →
    (k_fencing_token c < ck_fencing_token ck)%Z → write_checkpoint c now s' = (Err StaleFence, s').
Proof.
  intros Hf Hrun. destruct (run_fenced _ _ Hrun Hf) as [Hf' Ha]. split; [done|].
  intros c ck now Hck Hlt. unfold write_checkpoint, atomically, sbind at 1, sget.
  destruct (holds_lease c now s') eqn:Hl; [|done]. exfalso.
  apply holds_lease_token in Hl as (l & Hl & Htok). destruct (Hf' _ _ Hck) as (l' & Hl' & Hle).
  rewrite Hl in Hl'. simplify_eq. lia.
Qed.
Lemma checkpoints_are_fenced_witness :
  ∃ s', write_checkpoint (demo_write "att_2" 2 4) 10 (demo_lease 10) = (Ok tt, s') ∧
  advances (demo_lease 10) s' ∧
  ∀ c ck now, checkpoint s' !! (k_tenant_id c, k_task_id c) = Some ck →
    (k_fencing_token c < ck_fencing_token ck)%Z → write_checkpoint c now s' = (Err StaleFence, s').
Proof.
  assert (is_ok (write_checkpoint (demo_write "att_2" 2 4) 10 (demo_lease 10)).1 = true) as Hok
    by (vm_compute; reflexivity).
  destruct (write_checkpoint (demo_write "att_2" 2 4) 10 (demo_lease 10)) as [[[]|e] s'] eqn:H;
    [|discriminate Hok].
  exists s'. split; [reflexivity|]. apply (checkpoints_are_fenced (demo_lease 10) s').
  - apply demo_lease_fenced.
  - apply rtc_once. pose proof (run_checkpoint (demo_write "att_2" 2 4) 10 (demo_lease 10)) as Hs.
    rewrite H in Hs. exact Hs.
Defined.
