(* ===== verification/Checkpoint.v ===== *)
(** * Encrypted checkpoints: [src/faultwitness/runtime/checkpoint.py]

    [CheckpointCipher] over an authenticated cipher, which is an argument:
    [encrypt key nonce message data] and its inverse, [None] for [InvalidTag]. *)
From Stdlib Require Import Ascii.
From S2P Require Import Prelude Json JsonFacts Sha256 PyDyn.

Record EncryptedCheckpoint := {
  ec_key_id : string;
  ec_nonce : string;
  ec_ciphertext : string;
  ec_format_version : Z;
}.

Record CheckpointCipher := { ci_key_id : string; ci_key : string }.

Inductive checkpoint_error :=
| PyValueError
| InvalidTag
| Escaped (name : string).

(** [CheckpointCipher.__init__] *)
Definition new_cipher (key_id key : string) : result checkpoint_error CheckpointCipher :=
  raise_if negb (bool_decide (String.length key ∈ [16; 24; 32])) with_ PyValueError;;
  Ok {| ci_key_id := key_id; ci_key := key |}.

Section Cipher.
Context (encrypt : string → string → string → string → string).
Context (decrypt : string → string → string → string → option string).

Definition associated_data (tenant_id task_id : string) : string :=
  utf8 (tenant_id +:+ ":" +:+ task_id +:+ ":v1").

(** The document, its members in the order [sort_keys] prints them. *)
Definition body_document (value : mapping) : val :=
  sdict [("format", VStr "faultwitness-checkpoint"); ("state", VDict value); ("version", VInt 1)].

(** [seal]; [nonce] is what [os.urandom] returned. *)
Definition seal (c : CheckpointCipher) (nonce : string) (value : mapping) (tenant_id task_id : string) :
    result checkpoint_error EncryptedCheckpoint :=
  let* body := from_option_or (Escaped "TypeError") (dumps canonical_style (body_document value)) in
  Ok {| ec_key_id := ci_key_id c; ec_nonce := nonce;
        ec_ciphertext := encrypt (ci_key c) nonce body (associated_data tenant_id task_id);
        ec_format_version := 1 |}.

(** [document.get("version") != 1]: the boolean and the float are equal to it too. *)
Definition is_one (v : val) : bool :=
  match v with
  | VInt z => (z =? 1)%Z
  | VBool b => b
  | VFloat tok =>
      match decimal_parts tok with
      | Some (false, m, e) =>
          let '(num, den) := quotient m e in
          (* the doubles next to 1 are 2^-53 below and 2^-52 above; ties go to 1 *)
          ((den * (2 ^ 54 - 1) <=? num * 2 ^ 54) && (num * 2 ^ 53 <=? den * (2 ^ 53 + 1)))%Z
      | _ => false
      end
  | _ => false
  end.

(** [open] *)
Definition open (c : CheckpointCipher) (checkpoint : EncryptedCheckpoint) (tenant_id task_id : string) :
    result checkpoint_error mapping :=
  raise_if negb (ec_format_version checkpoint =? 1)%Z ||
           negb (bool_decide (ec_key_id checkpoint = ci_key_id c)) with_ PyValueError;;
  let* text := from_option_or InvalidTag
    (decrypt (ci_key c) (ec_nonce checkpoint) (ec_ciphertext checkpoint)
       (associated_data tenant_id task_id)) in
  let* document := from_option_or PyValueError (loads text) in
  let* format := rmap_err Escaped (get_attr document "format" VNone) in
  raise_if negb (val_is format "faultwitness-checkpoint") with_ PyValueError;;
  let* version := rmap_err Escaped (get_attr document "version" VNone) in
  raise_if negb (is_one version) with_ PyValueError;;
  let* state := rmap_err Escaped (get_attr document "state" VNone) in
  match state with VDict state => Ok state | _ => Err PyValueError end.

(** ** Facts *)

Hypothesis Haead : ∀ key nonce message data,
  decrypt key nonce (encrypt key nonce message data) data = Some message.

(** A sealed state opens for the same tenant and task, as it was printed. *)
Lemma checkpoint_opens c nonce value tenant_id task_id :
  json_ok (VDict value) = true →
  ∃ sealed, seal c nonce value tenant_id task_id = Ok sealed ∧
    rmap VDict (open c sealed tenant_id task_id) = Ok (printed canonical_style (VDict value)).
Proof using Haead.
  intros Hok. assert (json_ok (body_document value) = true) as Hb.
  { apply json_ok_sdict; [literal_nodup|]. by repeat constructor. }
  unfold seal. rewrite (canonical_json_some _ Hb). cbn [from_option_or rbind].
  eexists. split; [reflexivity|]. unfold open. cbn [ec_format_version ec_key_id ec_nonce ec_ciphertext].
  rewrite bool_decide_true by done. cbn [negb orb Z.eqb Pos.eqb].
  rewrite Haead. cbn [from_option_or rbind].
  rewrite (loads_dumps _ _ _ Hb (canonical_json_some _ Hb)). cbn [from_option_or rbind].
  unfold body_document. rewrite printed_sdict by literal_keys. reflexivity.
Qed.

(** The associated data separates tenants whose identifiers hold no colon. *)
Fixpoint no_colon (s : string) : bool :=
  match s with "" => true | String c r => negb (Ascii.eqb c ":") && no_colon r end.

Lemma colon_split a b a' b' :
  no_colon a = true → no_colon a' = true → a +:+ String ":" b = a' +:+ String ":" b' → a = a' ∧ b = b'.
Proof.
  revert a'. induction a as [|c a IH]; intros [|c' a'] Ha Ha' H; cbn in *.
  - by injection H.
  - injection H as <- _. done.
  - injection H as -> _. done.
  - injection H as <- H. apply andb_true_iff in Ha as [_ Ha]. apply andb_true_iff in Ha' as [_ Ha'].
    destruct (IH a' Ha Ha' H) as [-> ->]. done.
Qed.

Lemma str_app_suffix_inj a b s : a +:+ s = b +:+ s → a = b.
Proof.
  intros H. assert (String.length a = String.length b) as Hl.
  { apply (f_equal String.length) in H. rewrite !string_app_length in H. lia. }
  by apply string_app_inj_len in H as [? _].
Qed.

Lemma associated_data_inj tenant task tenant' task' :
  no_colon tenant = true → no_colon tenant' = true →
  associated_data tenant task = associated_data tenant' task' → tenant = tenant' ∧ task = task'.
Proof.
  intros Ht Ht' H%utf8_inj. rewrite !app_cons_str, !app_nil_str in H.
  apply colon_split in H as [-> H]; [|done|done]. split; [done|]. by apply str_app_suffix_inj in H.
Qed.
End Cipher.

(** With colons two tenants can share the data. *)
Example associated_data_ambiguous : associated_data "a:b" "c" = associated_data "a" "b:c".
Proof. reflexivity. Qed.
