(* ===== verification/Streams.v ===== *)
(** * Redis streams: [src/faultwitness/runtime/streams.py]

    [RedisEventStream] over a Redis client, which is a record of operations on a
    world of its own; a reply holds byte strings or texts, as the client decodes. *)
From Stdlib Require Import Ascii.
From S2P Require Import Prelude Json JsonFacts Sha256 PyDyn.

(** A byte string or a text. *)
Inductive wire := WBytes (raw : string) | WText (text : string).

Record StreamMessage := {
  sm_stream_id : string;
  sm_event_id : string;
  sm_tenant_id : string;
  sm_payload : mapping;
}.

(** An entry: its identifier and its fields. *)
Abbreviation entry := (wire * list (wire * wire))%type.

(** What redis raises: the text of the error. *)
Inductive redis_error := RedisError (text : string).

(** The client's operations; each may change the world and may raise. *)
Record RedisClient (W : Type) := {
  xgroup_create : string → string → SE W redis_error unit;
  xadd : string → list (string * string) → SE W redis_error wire;
  xreadgroup : string → string → string → Z → Z → SE W redis_error (list (string * list entry));
  xautoclaim : string → string → string → Z → string → Z → SE W redis_error (list entry);
  xack : string → string → string → SE W redis_error unit;
  xinfo_groups : string → SE W redis_error (list (option wire * option val));
}.
Arguments xgroup_create {W}.
Arguments xadd {W}.
Arguments xreadgroup {W}.
Arguments xautoclaim {W}.
Arguments xack {W}.
Arguments xinfo_groups {W}.

Inductive stream_error :=
| Redis (e : redis_error)
| PyError (name : string).

Record RedisEventStream := { rs_stream : string; rs_group : string; rs_consumer : string }.

(** ** Decoding *)

(** [_text] *)
Definition text_of (w : wire) : pyres string :=
  match w with
  | WBytes raw => from_option_or "UnicodeDecodeError" (utf8_decode raw)
  | WText text => Ok text
  end.

(** [{_text(key): _text(value) for ...}]: a later field of the same name wins. *)
Definition normalize (fields : list (wire * wire)) : pyres (gmap string string) :=
  rfold (λ m kv,
    let* k := text_of kv.1 in
    let* v := text_of kv.2 in
    Ok (<[k := v]> m)) fields ∅.

Definition decode_entry (e : entry) : pyres StreamMessage :=
  let* fields := normalize e.2 in
  let* text := from_option_or "KeyError" (fields !! "payload") in
  let* payload := from_option_or "JSONDecodeError" (loads text) in
  match payload with
  | VDict payload =>
      let* stream_id := text_of e.1 in
      let* event_id := from_option_or "KeyError" (fields !! "event_id") in
      let* tenant_id := from_option_or "KeyError" (fields !! "tenant_id") in
      Ok {| sm_stream_id := stream_id; sm_event_id := event_id; sm_tenant_id := tenant_id;
            sm_payload := payload |}
  | _ => Err "ValueError"
  end.

(** [_decode] *)
Definition decode (batches : list (string * list entry)) : pyres (list StreamMessage) :=
  rmapM decode_entry (concat batches.*2).

(** [a in b] for texts *)
Fixpoint text_in (part text : string) : bool :=
  startswith text part || match text with String _ rest => text_in part rest | "" => false end.

Section Stream.
Context {W : Type} (client : RedisClient W) (self : RedisEventStream).

Abbreviation StreamM := (SE W stream_error).
Definition redis {A} (m : SE W redis_error A) : StreamM A := λ w,
  match m w with (Ok a, w') => (Ok a, w') | (Err e, w') => (Err (Redis e), w') end.
Definition pure {A} (r : pyres A) : StreamM A := slift (rmap_err PyError r).

(** [ensure_group] *)
Definition ensure_group : StreamM unit := λ w,
  match xgroup_create client (rs_stream self) (rs_group self) w with
  | (Ok tt, w') => (Ok tt, w')
  | (Err (RedisError text), w') =>
      if text_in "BUSYGROUP" text then (Ok tt, w') else (Err (Redis (RedisError text)), w')
  end.

(** The fields [publish] writes. *)
Definition published (event_id tenant_id payload : string) : list (string * string) :=
  [("event_id", event_id); ("tenant_id", tenant_id); ("payload", payload)].

(** [publish]; a byte string identifier is shown as its [repr]. *)
Definition publish (bytes_repr : string → string) (event_id tenant_id : string) (payload : mapping) :
    StreamM string :=
  let! text := pure (from_option_or "TypeError" (dumps default_style (VDict payload))) in
  let! id := redis (xadd client (rs_stream self) (published event_id tenant_id text)) in
  sret (match id with WText t => t | WBytes raw => bytes_repr raw end).

(** [receive] *)
Definition receive (count block_ms : Z) : StreamM (list StreamMessage) :=
  let! batches := redis (xreadgroup client (rs_group self) (rs_consumer self) (rs_stream self)
                           count block_ms) in
  pure (decode batches).

(** [recover] *)
Definition recover (minimum_idle_ms count : Z) : StreamM (list StreamMessage) :=
  let! entries := redis (xautoclaim client (rs_stream self) (rs_group self) (rs_consumer self)
                           minimum_idle_ms "0-0" count) in
  pure (decode [(rs_stream self, entries)]).

Definition acknowledge (stream_id : string) : StreamM unit :=
  redis (xack client (rs_stream self) (rs_group self) stream_id).

(** [next((item for item in groups if ...), None)]: names are decoded up to the
    group that is found. *)
Fixpoint find_group (groups : list (option wire * option val)) : pyres (option (option val)) :=
  match groups with
  | [] => Ok None
  | (name, pending) :: rest =>
      let* name := match name with Some w => text_of w | None => Ok "None" end in
      if bool_decide (name = rs_group self) then Ok (Some pending) else find_group rest
  end.

(** [ready] *)
Definition ready (maximum_pending : Z) : StreamM bool :=
  let! groups := redis (xinfo_groups client (rs_stream self)) in
  let! found := pure (find_group groups) in
  match found with
  | None => sret false
  | Some pending =>
      let! n := pure (val_int (default (VInt 0) pending)) in
      sret (n <=? maximum_pending)%Z
  end.
End Stream.

(** ** Facts *)

(** What was published is read back, whether the client returns bytes or texts. *)
Definition on_wire (as_bytes : bool) (s : string) : wire :=
  if as_bytes then WBytes (utf8 s) else WText s.

Lemma text_on_wire as_bytes s : text_of (on_wire as_bytes s) = Ok s.
Proof. destruct as_bytes; cbn; [|done]. by rewrite utf8_decode_utf8. Qed.

Lemma decode_published as_bytes id event_id tenant_id payload text :
  json_ok (VDict payload) = true → dumps default_style (VDict payload) = Some text →
  rmap (λ m, (sm_stream_id m, sm_event_id m, sm_tenant_id m, VDict (sm_payload m)))
    (decode_entry (on_wire as_bytes id,
       (λ kv, (on_wire as_bytes kv.1, on_wire as_bytes kv.2)) <$> published event_id tenant_id text))
  = Ok (id, event_id, tenant_id, printed default_style (VDict payload)).
Proof.
  intros Hok Hd. unfold decode_entry, normalize, published. cbn [snd fst fmap list_fmap rfold].
  rewrite !text_on_wire. cbn [rbind].
  rewrite lookup_insert_eq. cbn [from_option_or rbind].
  rewrite (loads_dumps _ _ _ Hok Hd). cbn [from_option_or rbind printed].
  rewrite !lookup_insert_ne by done. rewrite lookup_insert_eq.
  rewrite lookup_insert_ne by done. rewrite lookup_insert_eq. reflexivity.
Qed.

(** One entry that does not decode makes the whole delivery raise: none of the
    entries delivered with it is returned. *)
Lemma decode_poison batches e name :
  e ∈ concat batches.*2 → decode_entry e = Err name → ∃ name', decode batches = Err name'.
Proof.
  unfold decode. generalize (concat batches.*2) as es. intros es He Hn.
  induction es as [|x es IH]; [by apply elem_of_nil in He|]. cbn [rmapM].
  apply elem_of_cons in He as [<-|He]; [rewrite Hn; by eexists|].
  destruct (decode_entry x); [|by eexists]. destruct (IH He) as [name' ->]. by eexists.
Qed.
