(* ===== verification/PyCalendar.v ===== *)
(** * Dates and times

    [isoformat] of a datetime in UTC, the parser of what it writes, and the formats of
    [strftime]. *)
From Stdlib Require Import Ascii DecimalString DecimalZ DecimalPos DecimalFacts.
From S2P Require Import Prelude Json JsonFacts PyDyn.

(** ** Times

    A [datetime] in UTC is its number of microseconds since 1970-01-01; this
    file gives its [isoformat()]. *)

Definition MICRO : Z := 1000000.
Definition DAY : Z := 86400.

(** Year, month and day of a day number, counted from 1970-01-01 (the
    proleptic Gregorian calendar of [datetime.date.fromordinal]). *)
Definition civil (day : Z) : Z * Z * Z :=
  let z := (day + 719468)%Z in
  let era := (z / 146097)%Z in
  let doe := (z mod 146097)%Z in
  let yoe := ((doe - doe / 1460 + doe / 36524 - doe / 146096) / 365)%Z in
  let doy := (doe - (365 * yoe + yoe / 4 - yoe / 100))%Z in
  let mp := ((5 * doy + 2) / 153)%Z in
  let d := (doy - (153 * mp + 2) / 5 + 1)%Z in
  let m := (if mp <? 10 then mp + 3 else mp - 9)%Z in
  ((yoe + era * 400 + (if m <=? 2 then 1 else 0))%Z, m, d).

(** [f"{z:0{width}d}"] for a non-negative [z]. *)
Definition padded (width : nat) (z : Z) : string :=
  let s := int_repr z in
  Nat.iter (width - String.length s) (String "0"%char) s.

(** [value.isoformat()] of a datetime in UTC *)
Definition isoformat (t : Z) : string :=
  let secs := (t / MICRO)%Z in
  let micro := (t mod MICRO)%Z in
  let '(y, m, d) := civil (secs / DAY) in
  let s := (secs mod DAY)%Z in
  padded 4 y +:+ "-" +:+ padded 2 m +:+ "-" +:+ padded 2 d +:+ "T" +:+
  padded 2 (s / 3600) +:+ ":" +:+ padded 2 (s / 60 mod 60) +:+ ":" +:+ padded 2 (s mod 60) +:+
  (if (micro =? 0)%Z then "" else "." +:+ padded 6 micro) +:+ "+00:00".

Example isoformat_epoch : isoformat 0 = "1970-01-01T00:00:00+00:00".
Proof. vm_compute. reflexivity. Qed.
Example isoformat_leap : isoformat 1709251199000001 = "2024-02-29T23:59:59.000001+00:00".
Proof. vm_compute. reflexivity. Qed.
Example isoformat_2026 : isoformat 1785196800500000 = "2026-07-28T00:00:00.500000+00:00".
Proof. vm_compute. reflexivity. Qed.

(** ** Dates and times read back: [datetime.fromisoformat], [strftime], [timestamp]

    The parser of the texts [PyCalendar.isoformat] writes, the two [strftime] formats
    the exporters use, and the float [timestamp() * 1_000_000_000] cut to an
    integer.  The theorems: the calendar is inverted, the parser is a left inverse
    of [isoformat] on all of [datetime]'s range, and the float product is within
    half a microsecond of the exact time until 2038. *)

(** *** The calendar *)

Definition leap_year (y : Z) : bool :=
  ((y mod 4 =? 0) && (negb (y mod 100 =? 0) || (y mod 400 =? 0)))%Z.
Definition days_in_month (y m : Z) : Z :=
  (if m =? 2 then if leap_year y then 29 else 28
   else if (m =? 4) || (m =? 6) || (m =? 9) || (m =? 11) then 30 else 31)%Z.

(** [date(y, m, d).toordinal()] less that of 1970-01-01 *)
Definition days_from_civil (y m d : Z) : Z :=
  let y' := (if m <=? 2 then y - 1 else y)%Z in
  let mp := (if m <=? 2 then m + 9 else m - 3)%Z in
  let yoe := (y' mod 400)%Z in
  let doy := ((153 * mp + 2) / 5 + d - 1)%Z in
  let doe := (yoe * 365 + yoe / 4 - yoe / 100 + doy)%Z in
  (y' / 400 * 146097 + doe - 719468)%Z.

(** [datetime.min] and [datetime.max] *)
Definition MIN_TIME : Z := (days_from_civil 1 1 1 * DAY * MICRO)%Z.
Definition MAX_TIME : Z := ((days_from_civil 9999 12 31 + 1) * DAY * MICRO - 1)%Z.

(** *** Reading *)

(** The next [n] decimal digits. *)
Fixpoint take_digits (n : nat) (acc : Z) (s : string) : option (Z * string) :=
  match n, s with
  | O, _ => Some (acc, s)
  | S n, String c s => d ← digit_value c; take_digits n (10 * acc + d) s
  | S _, "" => None
  end.
Definition field_then (n : nat) (sep s : string) : option (Z * string) :=
  '(z, s) ← take_digits n 0 s; rest ← strip_prefix sep s; Some (z, rest).

Definition in_days (y m d : Z) : bool :=
  ((1 <=? y) && (1 <=? m) && (m <=? 12) && (1 <=? d) && (d <=? days_in_month y m))%Z.

(** [datetime.fromisoformat] of the texts [isoformat()] gives for UTC; [None] is
    its [ValueError], and stands too for the other ISO 8601 forms it reads. *)
Definition fromisoformat (s : string) : option Z :=
  '(y, s) ← field_then 4 "-" s; '(m, s) ← field_then 2 "-" s; '(d, s) ← field_then 2 "T" s;
  '(hh, s) ← field_then 2 ":" s; '(mm, s) ← field_then 2 ":" s; '(ss, s) ← take_digits 2 0 s;
  '(us, s) ← match strip_prefix "." s with Some s => take_digits 6 0 s | None => Some (0%Z, s) end;
  if bool_decide (s = "+00:00") && in_days y m d && (hh <? 24)%Z && (mm <? 60)%Z && (ss <? 60)%Z
  then Some ((days_from_civil y m d * DAY + hh * 3600 + mm * 60 + ss) * MICRO + us)%Z
  else None.

(** *** [strftime] *)

(** [strftime("%Y%m%d")] of a year with four digits *)
Definition compact_date (t : Z) : string :=
  let '(y, m, d) := civil (t / MICRO / DAY) in padded 4 y +:+ padded 2 m +:+ padded 2 d.
Definition compact_clock (t : Z) : string :=
  let s := (t / MICRO mod DAY)%Z in
  padded 2 (s / 3600) +:+ padded 2 (s / 60 mod 60) +:+ padded 2 (s mod 60).
(** [strftime("%Y%m%dT%H%M%S%fZ")] and [strftime("%Y%m%dT%H%M%SZ")] *)
Definition compact_micros (t : Z) : string :=
  compact_date t +:+ "T" +:+ compact_clock t +:+ padded 6 (t mod MICRO) +:+ "Z".
Definition compact_seconds (t : Z) : string := compact_date t +:+ "T" +:+ compact_clock t +:+ "Z".

Example compact_micros_2026 : compact_micros 1785196800500000 = "20260728T000000500000Z".
Proof. vm_compute. reflexivity. Qed.

(** *** [timestamp()] *)

(** The double nearest to [num / den] as [m * 2 ^ e]: the scaled quotient has 53
    bits, ties to even.  [timestamp()] divides two integers, which Python rounds
    once. *)
Definition nearest_double (num den : Z) : Z * Z :=
  if (num =? 0)%Z then (0, 0)%Z
  else
    let s := (53 - (Z.log2 num - Z.log2 den))%Z in
    let s := if (2 ^ 53 * den * 2 ^ Z.max 0 (- s) <=? num * 2 ^ Z.max 0 s)%Z then (s - 1)%Z else s in
    (round_half_even (num * 2 ^ Z.max 0 s) (den * 2 ^ Z.max 0 (- s)), (- s)%Z).

(** [int(value.timestamp() * 1_000_000_000)] *)
Definition unix_nanos (t : Z) : Z :=
  let '(m, e) := nearest_double (Z.abs t) MICRO in
  let n := (m * 1000000000)%Z in
  (Z.sgn t * nearest_trunc (n * 2 ^ Z.max 0 e) (2 ^ Z.max 0 (- e)))%Z.

Example unix_nanos_values :
  (unix_nanos 1785196800500000, unix_nanos 1785196800500001, unix_nanos 1, unix_nanos (-1),
   unix_nanos 0)
  = (1785196800500000000, 1785196800500001024, 1000, -1000, 0)%Z.
Proof. vm_compute. reflexivity. Qed.

(** *** The calendar is inverted *)

Lemma year_of_era doe :
  (0 <= doe < 146097)%Z →
  let yoe := ((doe - doe / 1460 + doe / 36524 - doe / 146096) / 365)%Z in
  let doy := (doe - (365 * yoe + yoe / 4 - yoe / 100))%Z in
  (0 <= yoe < 400 ∧ 0 <= doy <= 365 ∧
   (doy = 365 → (yoe + 1) mod 4 = 0 ∧ ((yoe + 1) mod 100 ≠ 0 ∨ yoe = 399)))%Z.
Proof. intros H yoe doy. unfold doy, yoe. Z.to_euclidean_division_equations. lia. Qed.

(** The month counted from March, and the day of it. *)
Lemma month_of_year doy :
  (0 <= doy <= 365)%Z →
  let mp := ((5 * doy + 2) / 153)%Z in
  let d := (doy - (153 * mp + 2) / 5 + 1)%Z in
  (0 <= mp <= 11 ∧ 1 <= d ∧ (153 * mp + 2) / 5 + d - 1 = doy ∧
   (mp = 11 → d <= 29 ∧ (d = 29 → doy = 365)) ∧
   (mp = 1 ∨ mp = 3 ∨ mp = 6 ∨ mp = 8 → d <= 30) ∧ d <= 31)%Z.
Proof. intros H mp d. unfold d, mp. Z.to_euclidean_division_equations. lia. Qed.

Lemma leap_year_era yoe era :
  (0 <= yoe < 400)%Z → leap_year (yoe + era * 400) = leap_year yoe.
Proof.
  intros H. unfold leap_year.
  replace ((yoe + era * 400) mod 4)%Z with (yoe mod 4)%Z by (Z.to_euclidean_division_equations; lia).
  replace ((yoe + era * 400) mod 100)%Z with (yoe mod 100)%Z by (Z.to_euclidean_division_equations; lia).
  by rewrite Z.mod_add.
Qed.

Lemma leap_year_next yoe era :
  (0 <= yoe < 400 → (yoe + 1) mod 4 = 0 → (yoe + 1) mod 100 ≠ 0 ∨ yoe = 399 →
   leap_year (yoe + era * 400 + 1) = true)%Z.
Proof.
  intros H H4 H100. unfold leap_year.
  replace ((yoe + era * 400 + 1) mod 4)%Z with 0%Z by (Z.to_euclidean_division_equations; lia).
  destruct H100 as [H100| ->].
  - replace ((yoe + era * 400 + 1) mod 100)%Z with ((yoe + 1) mod 100)%Z
      by (Z.to_euclidean_division_equations; lia).
    by rewrite (proj2 (Z.eqb_neq _ _) H100).
  - replace (399 + era * 400 + 1)%Z with ((era + 1) * 400)%Z by lia.
    by rewrite Z.mod_mul, orb_true_r.
Qed.

(** [civil] gives a date, and the date gives the day back. *)
Lemma civil_inverse day :
  let '(y, m, d) := civil day in
  (days_from_civil y m d = day ∧ 1 <= m <= 12 ∧ 1 <= d <= days_in_month y m)%Z.
Proof.
  unfold civil. cbv zeta.
  pose proof (Z.div_mod (day + 719468) 146097 ltac:(done)) as Hday.
  pose proof (Z.mod_pos_bound (day + 719468) 146097 ltac:(done)) as Hdoe.
  revert Hday Hdoe. generalize ((day + 719468) / 146097)%Z ((day + 719468) mod 146097)%Z.
  intros era doe Hday Hdoe. pose proof (year_of_era doe Hdoe) as Hy. cbv zeta in Hy.
  set (yoe := ((doe - doe / 1460 + doe / 36524 - doe / 146096) / 365)%Z) in *.
  set (doy := (doe - (365 * yoe + yoe / 4 - yoe / 100))%Z) in *.
  destruct Hy as (Hyoe & Hdoy & Hleap). pose proof (month_of_year doy Hdoy) as Hm. cbv zeta in Hm.
  set (mp := ((5 * doy + 2) / 153)%Z) in *. set (d := (doy - (153 * mp + 2) / 5 + 1)%Z) in *.
  destruct Hm as (Hmp & Hd1 & Hback & Hfeb & Hshort & Hd).
  assert (doe = 365 * yoe + yoe / 4 - yoe / 100 + doy)%Z as Hsum by (unfold doy; lia).
  clearbody d mp doy yoe.
  assert ((yoe + era * 400) mod 400 = yoe /\ (yoe + era * 400) / 400 = era)%Z as [Hmod Hdiv].
  { split; Z.to_euclidean_division_equations; lia. }
  split; [|split].
  - unfold days_from_civil. destruct (Z.ltb_spec mp 10).
    + rewrite (proj2 (Z.leb_gt (mp + 3) 2)), Z.add_0_r, Hmod, Hdiv by lia.
      replace (mp + 3 - 3)%Z with mp by lia. lia.
    + rewrite (proj2 (Z.leb_le (mp - 9) 2)) by lia.
      replace (yoe + era * 400 + 1 - 1)%Z with (yoe + era * 400)%Z by lia. rewrite Hmod, Hdiv.
      replace (mp - 9 + 9)%Z with mp by lia. lia.
  - destruct (Z.ltb_spec mp 10); lia.
  - split; [done|]. unfold days_in_month. destruct (Z.ltb_spec mp 10).
    + rewrite (proj2 (Z.eqb_neq (mp + 3) 2)) by lia.
      destruct (_ || _)%Z eqn:E; [|lia]. apply Hshort. rewrite !orb_true_iff, !Z.eqb_eq in E. lia.
    + rewrite (proj2 (Z.leb_le (mp - 9) 2)) by lia. destruct (Z.eqb_spec (mp - 9) 2) as [E|E].
      * destruct Hfeb as [H29 Hlp]; [lia|]. destruct (Z.eq_dec d 29%Z) as [->|].
        { destruct Hleap as [H4 H100]; [by apply Hlp|]. by rewrite leap_year_next. }
        destruct (leap_year _); lia.
      * destruct (_ || _)%Z eqn:E'; [|lia]. rewrite !orb_true_iff, !Z.eqb_eq in E'. lia.
Qed.

Lemma civil_year day :
  (days_from_civil 1 1 1 <= day <= days_from_civil 9999 12 31)%Z →
  (1 <= (civil day).1.1 <= 9999)%Z.
Proof.
  intros H. pose proof (civil_inverse day) as Hc. destruct (civil day) as [[y m] d]; simpl.
  destruct Hc as (Hback & Hm & Hd).
  assert (days_in_month y m <= 31)%Z as H31
    by (unfold days_in_month; repeat case_match; lia).
  revert H. rewrite <-Hback. change (days_from_civil 1 1 1) with (-719162)%Z.
  change (days_from_civil 9999 12 31) with 2932896%Z. unfold days_from_civil.
  destruct (Z.leb_spec m 2); Z.to_euclidean_division_equations; lia.
Qed.

(** *** Padded numbers are read back *)

Lemma digit_value_digit c v : digit_value c = Some v → c ≠ "_"%char ∧ (0 <= v <= 9)%Z.
Proof. destruct c as [[][][][][][][][]]; cbn; try discriminate; intros [= <-]; split; (done || lia). Qed.

Lemma digit_value_some c : is_digit c = true → ∃ v, digit_value c = Some v.
Proof. unfold digit_value. intros ->. eauto. Qed.

Lemma int_digits_cons acc c s v :
  digit_value c = Some v → int_digits acc (String c s) = int_digits (10 * acc + v) s.
Proof. destruct c as [[][][][][][][][]]; cbn; try discriminate; by intros [= <-]. Qed.

Lemma take_digits_all t : ∀ acc v r,
  str_all is_digit t = true → int_digits acc t = Some v →
  take_digits (String.length t) acc (t +:+ r) = Some (v, r).
Proof.
  induction t as [|c t IH]; intros acc v r Ht Hv; [by injection Hv as ->|].
  simpl in Ht. apply andb_true_iff in Ht as [Hc Ht]. destruct (digit_value_some c Hc) as [x Hx].
  rewrite (int_digits_cons _ _ _ _ Hx) in Hv. rewrite app_cons_str. cbn [String.length take_digits].
  rewrite Hx. by apply IH.
Qed.

Lemma int_digits_least t : ∀ acc v,
  (0 <= acc)%Z → str_all is_digit t = true → int_digits acc t = Some v →
  (acc * 10 ^ Z.of_nat (String.length t) <= v)%Z.
Proof.
  induction t as [|c t IH]; intros acc v Ha Ht Hv; [injection Hv as <-; cbn; lia|].
  simpl in Ht. apply andb_true_iff in Ht as [Hc Ht]. destruct (digit_value_some c Hc) as [x Hx].
  rewrite (int_digits_cons _ _ _ _ Hx) in Hv. pose proof (digit_value_digit _ _ Hx) as [_ Hb].
  specialize (IH (10 * acc + x)%Z v ltac:(lia) Ht Hv). cbn [String.length].
  rewrite Nat2Z.inj_succ, Z.pow_succ_r by lia.
  pose proof (Z.pow_pos_nonneg 10 (Z.of_nat (String.length t)) ltac:(lia) ltac:(lia)). nia.
Qed.

Lemma string_of_uint_digits d : str_all is_digit (NilEmpty.string_of_uint d) = true.
Proof. by induction d. Qed.

(** A positive number is written without leading zeros. *)
Lemma int_repr_pos p :
  ∃ c t v, int_repr (Z.pos p) = String c t ∧ digit_value c = Some v ∧ (1 <= v)%Z ∧
    str_all is_digit t = true ∧ int_digits v t = Some (Z.pos p).
Proof.
  pose proof (DecimalPos.Unsigned.of_to p) as Hof.
  pose proof (DecimalPos.Unsigned.to_of (Pos.to_uint p)) as Hto. rewrite Hof in Hto.
  pose proof (unsigned_int_uint (Pos.to_uint p)) as Hint. rewrite Hof in Hint.
  unfold int_repr. cbn [Z.to_int NilZero.string_of_int]. cbn [N.to_uint] in Hto. revert Hto Hint Hof.
  generalize (Pos.to_uint p). intros d Hnorm Hint Hof.
  destruct d as [|d|d|d|d|d|d|d|d|d|d];
    [done|
     |cbn in Hint |- *; do 3 eexists; split_and!;
      [reflexivity|reflexivity|vm_compute; discriminate|apply string_of_uint_digits|exact Hint]..].
  exfalso. rewrite unorm_D0 in Hnorm. assert (d ≠ Decimal.Nil) as Hn%nb_digits_unorm by (by intros ->).
  rewrite <-Hnorm in Hn. cbn in Hn. lia.
Qed.

Lemma zeros_digits k t :
  str_all is_digit t = true → str_all is_digit (Nat.iter k (String "0") t) = true.
Proof. intros Ht. by induction k. Qed.
Lemma zeros_value k t : int_digits 0 (Nat.iter k (String "0"%char) t) = int_digits 0 t.
Proof. by induction k. Qed.
Lemma zeros_length k t :
  String.length (Nat.iter k (String "0"%char) t) = (k + String.length t)%nat.
Proof. induction k as [|k IH]; [done|]. cbn. by rewrite <-IH. Qed.

(** [padded n z] is [n] digits that spell [z]. *)
Lemma padded_digits n z :
  (0 <= z < 10 ^ Z.of_nat n)%Z → (0 < n)%nat →
  String.length (padded n z) = n ∧ str_all is_digit (padded n z) = true ∧
  int_digits 0 (padded n z) = Some z.
Proof.
  intros Hz Hn. unfold padded. rewrite zeros_length, zeros_value.
  destruct z as [|p|p]; [| |lia].
  - cbn. split_and!; [lia|by apply zeros_digits|done].
  - destruct (int_repr_pos p) as (c & t & v & -> & Hc & Hv & Ht & Hint). cbn [String.length].
    pose proof (int_digits_least t v _ ltac:(lia) Ht Hint) as Hleast.
    assert (String.length t < n)%nat.
    { apply Nat2Z.inj_lt, (Z.pow_lt_mono_r_iff 10); [lia|lia|].
      pose proof (Z.pow_pos_nonneg 10 (Z.of_nat (String.length t)) ltac:(lia) ltac:(lia)). nia. }
    split_and!; [lia| |by rewrite (int_digits_cons _ _ _ _ Hc)].
    apply zeros_digits. simpl. rewrite Ht, andb_true_r. unfold digit_value in Hc. by case_match.
Qed.

Lemma take_padded n z r :
  (0 <= z < 10 ^ Z.of_nat n)%Z → (0 < n)%nat → take_digits n 0 (padded n z +:+ r) = Some (z, r).
Proof.
  intros Hz Hn. destruct (padded_digits n z Hz Hn) as (Hlen & Hd & Hv).
  rewrite <-Hlen at 1. by apply take_digits_all.
Qed.

Lemma field_padded n z sep r :
  (0 <= z < 10 ^ Z.of_nat n)%Z → (0 < n)%nat →
  strip_prefix sep (sep +:+ r) = Some r →
  field_then n sep (padded n z +:+ sep +:+ r) = Some (z, r).
Proof. intros Hz Hn Hs. unfold field_then. rewrite take_padded by done. cbn -[strip_prefix]. by rewrite Hs. Qed.

(** [datetime.fromisoformat(value.isoformat())] is [value], for every [datetime]
    in UTC. *)
Lemma fromisoformat_isoformat t :
  (MIN_TIME <= t <= MAX_TIME)%Z → fromisoformat (isoformat t) = Some t.
Proof.
  intros Ht. unfold isoformat. cbv zeta.
  assert (days_from_civil 1 1 1 <= t / MICRO / DAY <= days_from_civil 9999 12 31)%Z as Hday.
  { revert Ht. unfold MIN_TIME, MAX_TIME, MICRO, DAY. generalize (days_from_civil 1 1 1).
    generalize (days_from_civil 9999 12 31). intros a b Ht. Z.to_euclidean_division_equations; lia. }
  pose proof (civil_year _ Hday) as Hyear. pose proof (civil_inverse (t / MICRO / DAY)) as Hcivil.
  destruct (civil (t / MICRO / DAY)) as [[y m] d]. simpl in Hyear. destruct Hcivil as (Hback & Hm & Hd).
  assert (days_in_month y m <= 31)%Z by (unfold days_in_month; repeat case_match; lia).
  pose proof (Z.mod_pos_bound (t / MICRO) DAY ltac:(done)) as Hs.
  pose proof (Z.mod_pos_bound t MICRO ltac:(done)) as Hus.
  pose proof (Z.div_mod (t / MICRO) DAY ltac:(done)) as Hsecs.
  pose proof (Z.div_mod t MICRO ltac:(done)) as Hmicro.
  set (s := ((t / MICRO) mod DAY)%Z) in *. set (us := (t mod MICRO)%Z) in *.
  unfold DAY in Hs. unfold MICRO in Hus.
  assert (0 <= s / 3600 < 24 ∧ 0 <= s / 60 mod 60 < 60 ∧ 0 <= s mod 60 < 60 ∧
          s = s / 3600 * 3600 + s / 60 mod 60 * 60 + s mod 60)%Z as (Hh & Hmi & Hse & Hsum)
    by (Z.to_euclidean_division_equations; lia).
  unfold fromisoformat.
  do 5 (rewrite field_padded by (cbn; first [lia|done]); cbn [mbind option_bind]).
  rewrite take_padded by (cbn; lia). cbn [mbind option_bind].
  assert (match strip_prefix "." ((if (us =? 0)%Z then "" else "." +:+ padded 6 us) +:+ "+00:00") with
          | Some s => take_digits 6 0 s
          | None => Some (0%Z, (if (us =? 0)%Z then "" else "." +:+ padded 6 us) +:+ "+00:00")
          end = Some (us, "+00:00")) as ->.
  { destruct (Z.eqb_spec us 0) as [->|]; [done|]. rewrite <-string_app_assoc.
    change (strip_prefix "." ("." +:+ padded 6 us +:+ "+00:00")) with (Some (padded 6 us +:+ "+00:00")).
    cbv iota beta.
    by rewrite take_padded by (cbn; lia). }
  cbn [mbind option_bind]. rewrite bool_decide_true by done. unfold in_days.
  rewrite !(proj2 (Z.leb_le _ _)), !(proj2 (Z.ltb_lt _ _)) by lia. cbn [andb]. f_equal.
  rewrite Hback. unfold DAY, MICRO in *. lia.
Qed.

(** *** The float time *)

Lemma round_half_even_error num den :
  (0 < den → 2 * Z.abs (den * round_half_even num den - num) <= den)%Z.
Proof.
  intros H. unfold round_half_even. pose proof (Z.div_mod num den ltac:(lia)).
  pose proof (Z.mod_pos_bound num den H).
  destruct (_ || _) eqn:E; rewrite ?orb_true_iff, ?orb_false_iff, ?andb_true_iff, ?andb_false_iff,
    ?Z.ltb_lt, ?Z.ltb_ge, ?Z.eqb_eq in E; nia.
Qed.

Lemma log2_bounds n : (0 < n → 2 ^ Z.log2 n <= n < 2 * 2 ^ Z.log2 n)%Z.
Proof.
  intros H. pose proof (Z.log2_spec n H) as [H1 H2]. pose proof (Z.log2_nonneg n).
  rewrite Z.pow_succ_r in H2 by lia. lia.
Qed.

Lemma round_scaled N D :
  (0 < D → 2 ^ 52 * D <= N → 2 ^ 53 * Z.abs (D * round_half_even N D - N) <= N)%Z.
Proof. intros HD HN. pose proof (round_half_even_error N D HD). lia. Qed.

(** Scaled by [2^s], the quotient has at least 53 bits. *)
Lemma scale_enough num den s :
  (0 < num → 0 < den → s = 53 - (Z.log2 num - Z.log2 den) →
   2 ^ 52 * (den * 2 ^ Z.max 0 (- s)) <= num * 2 ^ Z.max 0 s)%Z.
Proof.
  intros Hn Hd Hs. pose proof (log2_bounds num Hn) as [Hl _]. pose proof (log2_bounds den Hd) as [_ Hu].
  pose proof (Z.log2_nonneg num). pose proof (Z.log2_nonneg den).
  assert (2 ^ 53 * 2 ^ Z.log2 den * 2 ^ Z.max 0 (- s) = 2 ^ Z.log2 num * 2 ^ Z.max 0 s)%Z as He.
  { rewrite <-!Z.pow_add_r by lia. f_equal. lia. }
  pose proof (Z.pow_pos_nonneg 2 (Z.max 0 s) ltac:(lia) ltac:(lia)).
  pose proof (Z.pow_pos_nonneg 2 (Z.max 0 (- s)) ltac:(lia) ltac:(lia)).
  change (2 ^ 53)%Z with (2 * 2 ^ 52)%Z in He. nia.
Qed.

Lemma scale_halved num den s :
  (2 ^ 53 * den * 2 ^ Z.max 0 (- s) <= num * 2 ^ Z.max 0 s →
   2 ^ 52 * (den * 2 ^ Z.max 0 (- (s - 1))) <= num * 2 ^ Z.max 0 (s - 1))%Z.
Proof.
  intros H. destruct (Z.le_gt_cases 1 s).
  - replace (Z.max 0 (- s)) with 0%Z in H by lia. replace (Z.max 0 (- (s - 1))) with 0%Z by lia.
    replace (Z.max 0 s) with (Z.succ (Z.max 0 (s - 1))) in H by lia.
    rewrite Z.pow_succ_r in H by lia. change (2 ^ 0)%Z with 1%Z in *. lia.
  - replace (Z.max 0 s) with 0%Z in H by lia. replace (Z.max 0 (s - 1)) with 0%Z by lia.
    replace (Z.max 0 (- (s - 1))) with (Z.succ (Z.max 0 (- s))) by lia.
    rewrite Z.pow_succ_r by lia. change (2 ^ 0)%Z with 1%Z in *. lia.
Qed.

Lemma nearest_double_error num den :
  (0 < num → 0 < den →
   let '(m, e) := nearest_double num den in
   2 ^ 53 * Z.abs (den * 2 ^ Z.max 0 e * m - num * 2 ^ Z.max 0 (- e)) <= num * 2 ^ Z.max 0 (- e) ∧
   0 <= m)%Z.
Proof.
  intros Hn Hd. unfold nearest_double. rewrite (proj2 (Z.eqb_neq num 0)) by lia. cbv zeta.
  set (s0 := (53 - (Z.log2 num - Z.log2 den))%Z). set (s := if _ : bool then _ else s0).
  assert (2 ^ 52 * (den * 2 ^ Z.max 0 (- s)) <= num * 2 ^ Z.max 0 s)%Z as Hs.
  { unfold s. destruct (Z.leb_spec (2 ^ 53 * den * 2 ^ Z.max 0 (- s0)) (num * 2 ^ Z.max 0 s0)).
    - by apply scale_halved.
    - by apply scale_enough. }
  rewrite Z.opp_involutive. pose proof (Z.pow_pos_nonneg 2 (Z.max 0 (- s)) ltac:(lia) ltac:(lia)).
  assert (0 < den * 2 ^ Z.max 0 (- s))%Z as HD by nia.
  pose proof (round_scaled _ _ HD Hs) as Hr. split; [exact Hr|].
  set (r := round_half_even _ _) in *. nia.
Qed.

Lemma nearest_trunc_error num den :
  (0 <= num → 0 < den →
   2 ^ 53 * Z.abs (den * nearest_trunc num den - num) <= num + 2 ^ 53 * den)%Z.
Proof.
  intros Hn Hd. unfold nearest_trunc. cbv zeta.
  pose proof (Z.div_mod num den ltac:(lia)) as Hdiv. pose proof (Z.mod_pos_bound num den Hd).
  set (n := (num / den)%Z) in *. assert (0 <= n)%Z by (apply Z.div_pos; lia).
  destruct (Z.eqb_spec n 0) as [E|E].
  - change (52 - -1)%Z with 53%Z. cbn [Z.leb Z.compare].
    pose proof (round_half_even_error (num * 2 ^ 53) den Hd) as Hr.
    set (r := round_half_even _ _) in *. change (0 <=? 53)%Z with true. cbv iota.
    pose proof (Z.div_mod r (2 ^ 53) ltac:(done)). pose proof (Z.mod_pos_bound r (2 ^ 53) ltac:(done)).
    set (q := (r / 2 ^ 53)%Z) in *. nia.
  - pose proof (log2_bounds n ltac:(lia)) as [Hl Hu]. pose proof (Z.log2_nonneg n).
    set (k := Z.log2 n) in *. destruct (Z.leb_spec 0 (52 - k)) as [Hs|Hs].
    + assert (2 ^ 52 = 2 ^ (52 - k) * 2 ^ k)%Z as H52 by (rewrite <-Z.pow_add_r by lia; f_equal; lia).
      set (a := (2 ^ (52 - k))%Z) in *. assert (0 < a)%Z by (apply Z.pow_pos_nonneg; lia).
      assert (2 ^ 52 * den <= num * a)%Z as Hnum by (rewrite H52; nia).
      pose proof (round_scaled _ _ Hd Hnum) as Hr. set (r := round_half_even _ _) in *.
      pose proof (Z.div_mod r a ltac:(lia)). pose proof (Z.mod_pos_bound r a ltac:(lia)).
      set (q := (r / a)%Z) in *. nia.
    + set (a := (2 ^ (- (52 - k)))%Z). assert (0 < a)%Z by (apply Z.pow_pos_nonneg; lia).
      assert (2 ^ k = 2 ^ 52 * a)%Z as H52 by (unfold a; rewrite <-Z.pow_add_r by lia; f_equal; lia).
      assert (2 ^ 52 * (den * a) <= num)%Z as Hnum by nia.
      pose proof (round_scaled num (den * a) ltac:(nia) Hnum) as Hr.
      set (r := round_half_even _ _) in *. nia.
Qed.

(** Until 2038 the nanoseconds printed are less than half a microsecond off. *)
Lemma unix_nanos_accurate t :
  (0 <= t < 2 ^ 31 * MICRO → Z.abs (unix_nanos t - 1000 * t) <= 478)%Z.
Proof.
  intros Ht. unfold unix_nanos. destruct (Z.eq_dec t 0%Z) as [->|Hne]; [done|].
  rewrite Z.sgn_pos, (Z.abs_eq t) by lia.
  pose proof (nearest_double_error t MICRO ltac:(lia) ltac:(done)) as Hd.
  destruct (nearest_double t MICRO) as [m e]. destruct Hd as [Hd Hm]. rewrite Z.mul_1_l.
  pose proof (Z.pow_pos_nonneg 2 (Z.max 0 e) ltac:(lia) ltac:(lia)) as HA.
  pose proof (Z.pow_pos_nonneg 2 (Z.max 0 (- e)) ltac:(lia) ltac:(lia)) as HB.
  set (A := (2 ^ Z.max 0 e)%Z) in *. set (B := (2 ^ Z.max 0 (- e))%Z) in *.
  pose proof (nearest_trunc_error (m * 1000000000 * A) B ltac:(nia) HB) as Hx.
  set (x := nearest_trunc _ _) in *. clearbody A B x. unfold MICRO in *.
  replace (1000000 * A * m)%Z with (1000000 * (A * m))%Z in Hd by lia.
  replace (m * 1000000000 * A)%Z with (1000000000 * (A * m))%Z in Hx by lia.
  assert (t * B <= 2 ^ 31 * 1000000 * B)%Z as HP by nia.
  assert (Z.abs (B * x - 1000 * (t * B)) <= 478 * B)%Z as Hall.
  { revert Hd Hx HP. generalize (A * m)%Z (t * B)%Z (B * x)%Z. intros Y P Q. lia. }
  replace (B * x - 1000 * (t * B))%Z with ((x - 1000 * t) * B)%Z in Hall by ring.
  rewrite Z.abs_mul, (Z.abs_eq B) in Hall by lia. nia.
Qed.
