(* ===== verification/Api.v ===== *)
(** * The control API: [src/faultwitness/api/app.py]

    The handlers [create_app] registers, with their dependencies in the order
    FastAPI resolves them, over any store with the operations of [StoreOps], and
    the loop of the event stream.  The framework's routing and body validation
    are not modelled: a handler receives a parsed body. *)
From Stdlib Require Import Ascii.
From S2P Require Import Prelude Json JsonFacts Sha256 Kernel PyDyn PyCalendar Store.
From S2P Require Import StoreSpec PgStore MemoryStore PgRefine StoreContract Oidc.

Record APIError := { status : Z; code : string; message : string }.

Definition api_error (st : Z) (c m : string) : APIError :=
  {| status := st; code := c; message := m |}.

Definition ROLE_SCOPES (role : string) : list string :=
  if bool_decide (role = "viewer") then ["read"]
  else if bool_decide (role = "operator") then ["read"; "write"]
  else if bool_decide (role = "approver") then ["read"; "approve"]
  else if bool_decide (role = "admin") then ["read"; "write"; "approve"]
  else [].

(** The request: headers by lower-case name. *)
Record Request := {
  headers : gmap string string;
  correlation_hex : string;   (* uuid.uuid4().hex, should one be needed *)
}.

Definition IDENTITY_HEADERS : list string :=
  ["x-tenant-id"; "x-user-id"; "x-roles"; "x-faultwitness-tenant"].

Definition check_incident_id (value : string) : result APIError unit :=
  raise_if negb (startswith value "inc_") || (str_len value <? 5)%Z
    with_ api_error 400 "ERR-INVALID-REQUEST" "incident_id is malformed";; Ok tt.

Definition correlation_id (r : Request) : string :=
  match headers r !! "x-correlation-id" with
  | Some supplied =>
      if truthy supplied && (str_len supplied <=? 128)%Z then supplied
      else "corr_" +:+ correlation_hex r
  | None => "corr_" +:+ correlation_hex r
  end.

(** [ErrorEnvelope.model_dump] of [_error_response] *)
Definition error_body (r : Request) (e : APIError) (retryable : bool) (details : val) : val :=
  sdict [("code", VStr (code e)); ("message", VStr (message e)); ("retryable", VBool retryable);
         ("correlation_id", VStr (correlation_id r)); ("details", details)].

(** The dependency [idempotency] *)
Definition idempotency_header (value : option string) : result APIError string :=
  match value with
  | Some key =>
      raise_if negb ((16 <=? str_len key) && (str_len key <=? 128))%Z
        with_ api_error 400 "ERR-INVALID-REQUEST" "valid Idempotency-Key is required";; Ok key
  | None => Err (api_error 400 "ERR-INVALID-REQUEST" "valid Idempotency-Key is required")
  end.

Section Auth.
Context (auth : option string → result auth_error AuthenticatedPrincipal).

(** An [APIError] the handler raises, or an exception that escapes it. *)
Inductive api_exn : Type :=
| Raised (e : APIError)
| Escaped (name : string).

(** The dependency [principal] *)
Definition principal (r : Request) : result api_exn AuthenticatedPrincipal :=
  raise_if existsb (λ name, bool_decide (is_Some (headers r !! name))) IDENTITY_HEADERS
    with_ Raised (api_error 403 "ERR-FORBIDDEN" "identity injection headers are forbidden");;
  match auth (headers r !! "authorization") with
  | Ok p => Ok p
  | Err AuthenticationError => Err (Raised (api_error 401 "ERR-UNAUTHENTICATED" "authentication failed"))
  | Err PyAttributeError => Err (Escaped "AttributeError")
  | Err (OtherError n) => Err (Escaped n)
  end.

Definition granted (p : AuthenticatedPrincipal) : gset string :=
  list_to_set (concat (ROLE_SCOPES <$> elements (roles p))).

(** The dependency [require(scope)] *)
Definition require (scope : string) (r : Request) : result api_exn AuthenticatedPrincipal :=
  let* identity := principal r in
  raise_if negb (bool_decide (scope ∈ granted identity))
    with_ Raised (api_error 403 "ERR-FORBIDDEN" (scope +:+ " role scope is required"));;
  Ok identity.

(** ** Handlers *)

Section Handlers.
Context {S E : Type} `{St : IncidentStore S E}.
Context (store_exn : E → option store_error).
Context (sub_call : string → string → SE S E N) (unsub : string → string → N → SE S E unit).

Abbreviation ApiM := (SE S api_exn).

Record Reply := { reply_status : Z; reply_body : store_out }.
Definition reply (st : Z) (o : store_out) : Reply := {| reply_status := st; reply_body := o |}.

Definition deps {A} (r : result api_exn A) : ApiM A := slift r.
Definition raised {A} (r : result APIError A) : ApiM A := slift (rmap_err Raised r).

(** The [except] clauses of a handler: the store exceptions it maps. *)
Definition on_store_error (handled : store_error → option APIError) (e : E) : api_exn :=
  match store_exn e with
  | Some se => match handled se with Some a => Raised a | None => Escaped "store" end
  | None => Escaped "store"
  end.
Definition store_call (handled : store_error → option APIError) (op : store_op) (env : Env) :
    ApiM store_out := λ s,
  match call op env s with
  | (Ok o, s') => (Ok o, s')
  | (Err e, s') => (Err (on_store_error handled e), s')
  end.

Definition conflict : APIError := api_error 409 "ERR-CONFLICT" "conflict".
Definition not_found : APIError := api_error 404 "ERR-NOT-FOUND" "tenant-scoped incident not found".

Definition on_create (e : store_error) : option APIError :=
  match e with IdempotencyConflict => Some conflict | _ => None end.
Definition on_get (e : store_error) : option APIError :=
  match e with IncidentNotFound => Some not_found | _ => None end.
Definition on_write (e : store_error) : option APIError :=
  match e with
  | IncidentNotFound => Some not_found
  | IdempotencyConflict | StateConflict => Some conflict
  | _ => None
  end.
Definition on_approval (e : store_error) : option APIError :=
  match e with
  | IncidentNotFound => Some not_found
  | IdempotencyConflict | StateConflict | ApprovalConflict => Some conflict
  | _ => None
  end.

Definition header_key (r : Request) : result api_exn string :=
  rmap_err Raised (idempotency_header (headers r !! "idempotency-key")).

Definition create_incident (r : Request) (body : val) (env : Env) : ApiM Reply :=
  let! identity := deps (require "write" r) in
  let! key := deps (header_key r) in
  let! o := store_call on_create (OpCreate (tenant_id identity) key body) env in
  sret (reply match o with OutResponse _ true => 201 | _ => 200 end o).

Definition get_incident (r : Request) (incident_id : string) (env : Env) : ApiM Reply :=
  let! identity := deps (require "read" r) in
  raised (check_incident_id incident_id) ;;;
  let! o := store_call on_get (OpGet (tenant_id identity) incident_id) env in
  sret (reply 200 o).

Definition cancel_incident (r : Request) (incident_id : string) (expected : Z) (env : Env) :
    ApiM Reply :=
  let! identity := deps (require "write" r) in
  let! key := deps (header_key r) in
  raised (check_incident_id incident_id) ;;;
  let! o := store_call on_write (OpCancel (tenant_id identity) incident_id key expected) env in
  sret (reply 202 o).

Definition record_feedback (r : Request) (incident_id : string) (body : FeedbackRequest)
    (env : Env) : ApiM Reply :=
  let! identity := deps (require "write" r) in
  let! key := deps (header_key r) in
  raised (check_incident_id incident_id) ;;;
  let! o := store_call on_write
    (OpFeedback (tenant_id identity) (user_id identity) incident_id key body) env in
  sret (reply 202 o).

Definition decide_approval (r : Request) (incident_id : string) (body : ApprovalRequest)
    (env : Env) : ApiM Reply :=
  let! identity := deps (require "approve" r) in
  let! key := deps (header_key r) in
  raised (check_incident_id incident_id) ;;;
  let! o := store_call on_approval (OpApproval (tenant_id identity) incident_id key body) env in
  sret (reply 200 o).

(** The requests of the API that reach the store. *)
Inductive endpoint : Type :=
| CreateIncident (body : val)
| GetIncident (incident_id : string)
| CancelIncident (incident_id : string) (expected : Z)
| RecordFeedback (incident_id : string) (body : FeedbackRequest)
| DecideApproval (incident_id : string) (body : ApprovalRequest).

Definition handle (e : endpoint) (r : Request) (env : Env) : ApiM Reply :=
  match e with
  | CreateIncident body => create_incident r body env
  | GetIncident id => get_incident r id env
  | CancelIncident id expected => cancel_incident r id expected env
  | RecordFeedback id body => record_feedback r id body env
  | DecideApproval id body => decide_approval r id body env
  end.

(** ** The event stream *)

Inductive stream_start : Type :=
| Streaming (subscriber : N) (expires : Z) (delivered : Z) (replayed : list IncidentEvent)
| GapStream (cursor earliest_cursor : string).

Definition cursor_or_zero (last_event_id : option string) : option Z :=
  match last_event_id with
  | Some text => if truthy text then py_int text else Some 0%Z
  | None => Some 0%Z
  end.

(** [stream_incident_events] up to the returned response; [delivered] is what
    [event_stream] starts from. *)
Definition stream_incident_events (r : Request) (incident_id : string)
    (last_event_id : option string) (env : Env) : ApiM stream_start :=
  let! identity := deps (require "read" r) in
  raised (check_incident_id incident_id) ;;;
  let tenant := tenant_id identity in
  let! subscriber := (λ s, match sub_call tenant incident_id s with
    | (Ok n, s') => (Ok n, s')
    | (Err e, s') => (Err (on_store_error on_get e), s') end) in
  λ s, match call (OpReplay tenant incident_id last_event_id) env s with
  | (Ok (OutEvents evs), s') =>
      match cursor_or_zero last_event_id with
      | Some c => (Ok (Streaming subscriber (expires_at identity) c evs), s')
      | None => (Err (Escaped "ValueError"), s')
      end
  | (Ok _, s') => (Err (Escaped "TypeError"), s')
  | (Err e, s') =>
      match store_exn e with
      | Some (RetentionGap earliest) =>
          let '(_, s'') := unsub tenant incident_id subscriber s' in
          (Ok (GapStream (match last_event_id with
                          | Some t => if truthy t then t else "0"
                          | None => "0" end) earliest), s'')
      | Some CursorError =>
          let '(_, s'') := unsub tenant incident_id subscriber s' in
          (Err (Raised (api_error 400 "ERR-INVALID-REQUEST" "cursor")), s'')
      | Some IncidentNotFound => (Err (Raised not_found), s')
      | _ => (Err (Escaped "store"), s')
      end
  end.
End Handlers.
End Auth.

(** [_sse_event] and [_sse_control] *)
Definition nl : string := String "010"%char "".
Definition stream_style := {| compact := true; sorted_keys := false; ascii_only := true |}.
Definition sse_event (e : IncidentEvent) : string :=
  let data := sdict [("event_id", VStr (ev_event_id e)); ("incident_id", VStr (ev_incident_id e));
    ("sequence", VInt (ev_sequence e)); ("occurred_at", VStr (isoformat (ev_occurred_at e)));
    ("payload", ev_payload e)] in
  "id: " +:+ int_repr (ev_sequence e) +:+ nl +:+ "event: " +:+ ev_event_type e +:+ nl +:+
  "data: " +:+ default "" (dumps stream_style data) +:+ nl +:+ nl.
Definition sse_control (kind cursor : string) (details : val) : string :=
  let body := sdict [("kind", VStr kind); ("cursor", VStr cursor); ("details", details)] in
  "event: control." +:+ kind +:+ nl +:+ "data: " +:+ default "" (dumps stream_style body) +:+ nl +:+ nl.
Definition heartbeat : string := ": heartbeat" +:+ nl +:+ nl.
