(* ===== verification/Sse.v ===== *)
(** * The event stream loop: [event_stream] of [src/faultwitness/api/app.py]

    One stream of one incident, interleaved with the appends of the store.  The
    generator suspends at [yield] and at [queue.get()], so its loop is two steps:
    the test of the while condition and of [closed], and the arrival of an event
    or of the timeout.  An append extends the log and offers the event to the
    subscriber's queue in one step, as the memory store does under its lock. *)
From S2P Require Import Prelude Json Sha256 Kernel PyDyn Store StoreSpec PgStore.
From S2P Require Import MemoryStore PgRefine StoreContract StoreTheorems Api.

Inductive phase : Type :=
| Subscribed       (* subscribe() returned, replay() not yet called *)
| Checking         (* at the head of the while loop *)
| Waiting          (* in wait_for(subscriber.queue.get()) *)
| Ended.

Inductive item : Type :=
| SseEvent (e : IncidentEvent)
| SseSlowConsumer (cursor : string)
| SseHeartbeat.

Record stream := {
  log : list IncidentEvent;
  sub : Subscriber;
  at_phase : phase;
  delivered : Z;
  out : list item;
}.

Inductive action : Type :=
| Append (e : IncidentEvent)
| Replay (cursor : Z)
| Check (gone : bool)   (* token expired or client disconnected *)
| Take.

Definition pop (s : Subscriber) : Subscriber :=
  {| sub_queue := tail (sub_queue s); sub_maxsize := sub_maxsize s; sub_closed := sub_closed s |}.

(** [for event in replay: delivered = event.sequence; yield ...] *)
Definition replayed (cursor : Z) (evs : list IncidentEvent) : Z :=
  match last evs with Some e => ev_sequence e | None => cursor end.

Definition stream_step (a : action) (w : stream) : option stream :=
  match a, at_phase w with
  | Append e, _ =>
      if bool_decide (ev_sequence e = Z.of_nat (length (log w)) + 1)%Z then
        Some {| log := log w ++ [e]; sub := put_nowait e (sub w); at_phase := at_phase w;
                delivered := delivered w; out := out w |}
      else None
  | Replay c, Subscribed =>
      if ((c <? 0) || (Z.of_nat (length (log w)) <? c))%Z then None else
      let evs := filter (λ e, (c < ev_sequence e)%Z) (log w) in
      Some {| log := log w; sub := sub w; at_phase := Checking;
              delivered := replayed c evs; out := SseEvent <$> evs |}
  | Check gone, Checking =>
      if gone then
        Some {| log := log w; sub := sub w; at_phase := Ended; delivered := delivered w;
                out := out w |}
      else if sub_closed (sub w) then
        Some {| log := log w; sub := sub w; at_phase := Ended; delivered := delivered w;
                out := out w ++ [SseSlowConsumer (int_repr (delivered w))] |}
      else
        Some {| log := log w; sub := sub w; at_phase := Waiting; delivered := delivered w;
                out := out w |}
  | Take, Waiting =>
      match sub_queue (sub w) with
      | [] => Some {| log := log w; sub := sub w; at_phase := Checking; delivered := delivered w;
                      out := out w ++ [SseHeartbeat] |}
      | e :: _ =>
          if (ev_sequence e <=? delivered w)%Z then
            Some {| log := log w; sub := pop (sub w); at_phase := Checking;
                    delivered := delivered w; out := out w |}
          else
            Some {| log := log w; sub := pop (sub w); at_phase := Checking;
                    delivered := ev_sequence e; out := out w ++ [SseEvent e] |}
      end
  | _, _ => None
  end.

(** [subscribe] on an incident with log [l]. *)
Definition subscribed (l : list IncidentEvent) (buffer_size : Z) : stream :=
  {| log := l; sub := {| sub_queue := []; sub_maxsize := buffer_size; sub_closed := false |};
     at_phase := Subscribed; delivered := 0; out := [] |}.

Inductive streams (c : Z) : stream → stream → Prop :=
| streams_refl w : streams c w w
| streams_step w a w1 w2 :
    (∀ c', a = Replay c' → c' = c) →
    stream_step a w = Some w1 → streams c w1 w2 → streams c w w2.

(** The events sent to the client. *)
Definition sent (items : list item) : list IncidentEvent :=
  omap (λ i, match i with SseEvent e => Some e | _ => None end) items.

Lemma sent_app a b : sent (a ++ b) = sent a ++ sent b.
Proof. apply omap_app. Qed.
Lemma sent_events evs : sent (SseEvent <$> evs) = evs.
Proof. induction evs as [|e evs IH]; [done|]. cbn. by f_equal. Qed.

(** ** The invariant *)

(** The queue is a contiguous piece of the log from position [a]. *)
Definition queued (a : nat) (w : stream) : Prop :=
  sub_queue (sub w) = take (length (sub_queue (sub w))) (drop a (log w)) ∧
  a + length (sub_queue (sub w)) ≤ length (log w).

Definition aligned (a : nat) (w : stream) : Prop :=
  queued a w ∧ (sub_closed (sub w) = false → a + length (sub_queue (sub w)) = length (log w)) ∧
  (sub_closed (sub w) = true → (sub_maxsize (sub w) ≤ Z.of_nat (length (sub_queue (sub w))))%Z).

Definition progress (c : Z) (w : stream) : Prop :=
  (c ≤ delivered w ≤ Z.of_nat (length (log w)))%Z ∧ (0 ≤ c)%Z ∧
  sent (out w) = drop (Z.to_nat c) (take (Z.to_nat (delivered w)) (log w)) ∧
  ∀ cur, SseSlowConsumer cur ∈ out w → cur = int_repr (delivered w) ∧ at_phase w = Ended.

Definition stream_inv (c : Z) (w : stream) : Prop :=
  numbered_from 0 (log w) ∧ (0 < sub_maxsize (sub w))%Z ∧
  match at_phase w with
  | Subscribed => out w = [] ∧ ∃ a, aligned a w
  | Checking => progress c w ∧
      (sub_closed (sub w) = false → ∃ a, aligned a w ∧ (Z.of_nat a ≤ delivered w)%Z)
  | Waiting => progress c w ∧ ∃ a, aligned a w ∧ (Z.of_nat a ≤ delivered w)%Z
  | Ended => progress c w
  end.

Lemma aligned_append a w e :
  (0 < sub_maxsize (sub w))%Z → aligned a w →
  let w' := {| log := log w ++ [e]; sub := put_nowait e (sub w); at_phase := at_phase w;
               delivered := delivered w; out := out w |} in
  aligned a w'.
Proof.
  intros Hm [[Hq Hlen] [Hopen Hclosed]]. unfold aligned, queued, put_nowait. cbn [log sub].
  rewrite (proj2 (Z.ltb_lt 0 _) Hm). cbn [andb].
  destruct (Z.leb_spec (sub_maxsize (sub w)) (Z.of_nat (length (sub_queue (sub w))))) as [Hf|Hf];
    cbn [sub_queue sub_closed sub_maxsize].
  - split_and!; [|rewrite length_app; simpl; lia|done|done].
    rewrite drop_app_le, take_app_le by (rewrite ?length_drop; lia). done.
  - assert (sub_closed (sub w) = false) as Hnc.
    { destruct (sub_closed (sub w)); [|done]. specialize (Hclosed eq_refl). lia. }
    specialize (Hopen Hnc). rewrite Hnc. rewrite !length_app. simpl.
    split_and!; [|lia|lia|done].
    rewrite drop_app_le, take_ge by (rewrite ?length_app, ?length_drop; simpl; lia).
    f_equal. rewrite Hq at 1. apply take_ge. rewrite length_drop. lia.
Qed.

Lemma progress_append c w e s ph :
  progress c w → (at_phase w = Ended → ph = Ended) →
  progress c {| log := log w ++ [e]; sub := s; at_phase := ph; delivered := delivered w; out := out w |}.
Proof.
  intros (Hd & Hc & Hs & Hcur) Hph. split_and!; cbn [log delivered out at_phase];
    [lia|rewrite length_app; simpl; lia|done| |].
  - rewrite take_app_le by lia. done.
  - intros cur Hin. destruct (Hcur cur Hin). auto.
Qed.

Lemma replay_progress c w s :
  numbered_from 0 (log w) → (0 ≤ c ≤ Z.of_nat (length (log w)))%Z →
  let evs := filter (λ e, (c < ev_sequence e)%Z) (log w) in
  let w' := {| log := log w; sub := s; at_phase := Checking; delivered := replayed c evs;
               out := SseEvent <$> evs |} in
  progress c w' ∧ delivered w' = Z.of_nat (length (log w)).
Proof.
  intros Hn Hc evs w'. assert (evs = drop (Z.to_nat c) (log w)) as Hevs.
  { unfold evs. rewrite (numbered_filter 0) by (done || lia). f_equal. lia. }
  assert (replayed c evs = Z.of_nat (length (log w))) as Hr.
  { unfold replayed. rewrite Hevs. pose proof (numbered_drop 0 (Z.to_nat c) _ Hn) as Hd.
    destruct (last (drop (Z.to_nat c) (log w))) as [e|] eqn:Hl.
    - rewrite (numbered_last _ _ _ Hd Hl), length_drop. lia.
    - apply last_None in Hl. apply (f_equal length) in Hl. rewrite length_drop in Hl.
      simpl in Hl. lia. }
  split; [|done]. unfold progress, w'. cbn [log delivered out at_phase]. rewrite Hr.
  split_and!; [lia|lia|lia| |].
  - rewrite sent_events, Hevs, Nat2Z.id. by rewrite firstn_all.
  - intros cur Hin. apply list_elem_of_fmap in Hin as (? & [=] & _).
Qed.

Lemma queue_head a w e q :
  numbered_from 0 (log w) → queued a w → sub_queue (sub w) = e :: q →
  log w !! a = Some e ∧ ev_sequence e = (Z.of_nat a + 1)%Z ∧ (a < length (log w)) ∧
  q = take (length q) (drop (S a) (log w)).
Proof.
  intros Hn [Hq Hlen] He. rewrite He in Hq, Hlen. simpl in Hq, Hlen.
  destruct (drop a (log w)) as [|e' l] eqn:Hd; [done|]. injection Hq as <- Hq.
  pose proof (head_drop _ _ _ _ Hd) as Ha. split_and!; [done| |lia|].
  - rewrite (Hn _ _ Ha). lia.
  - rewrite Hq at 1. f_equal. rewrite <-Nat.add_1_r, <-drop_drop, Hd. done.
Qed.

Lemma progress_deliver c w e s :
  progress c w → at_phase w ≠ Ended → log w !! Z.to_nat (delivered w) = Some e →
  ev_sequence e = (delivered w + 1)%Z →
  progress c {| log := log w; sub := s; at_phase := Checking; delivered := ev_sequence e;
                out := out w ++ [SseEvent e] |}.
Proof.
  intros (Hd & Hc & Hs & Hcur) Hph He Hseq. pose proof (lookup_lt_Some _ _ _ He) as Hlt.
  split_and!; cbn [log delivered out at_phase]; [lia|lia|lia| |].
  - rewrite sent_app, Hs, Hseq. cbn.
    replace (Z.to_nat (delivered w + 1)) with (S (Z.to_nat (delivered w))) by lia.
    rewrite (take_S_r _ _ _ He), drop_app_le; [done|]. rewrite length_take. lia.
  - intros cur. rewrite elem_of_app, list_elem_of_singleton. intros [Hin|[=]].
    by destruct (Hcur cur Hin).
Qed.

Lemma progress_quiet c w s ph it :
  progress c w → at_phase w ≠ Ended → ph ≠ Ended → sent it = [] →
  (∀ cur, SseSlowConsumer cur ∉ it) →
  progress c {| log := log w; sub := s; at_phase := ph; delivered := delivered w; out := out w ++ it |}.
Proof.
  intros (Hd & Hc & Hs & Hcur) Hph Hph' Hit Hno. split_and!; cbn [log delivered out at_phase];
    [lia|lia|lia| |].
  - by rewrite sent_app, Hit, app_nil_r.
  - intros cur. rewrite elem_of_app. intros [Hin|Hin]; [by destruct (Hcur cur Hin)|].
    by destruct (Hno cur).
Qed.

Lemma append_inv c w e w' :
  stream_inv c w → stream_step (Append e) w = Some w' → stream_inv c w'.
Proof.
  intros (Hn & Hm & Hph). cbn. case_bool_decide as Hseq; [|done]. intros [= <-].
  split_and!; cbn [log sub at_phase out delivered].
  - by apply numbered_snoc.
  - by unfold put_nowait; destruct (_ && _)%bool.
  - destruct (at_phase w) eqn:Hp; unfold stream_inv.
    + destruct Hph as [? [a Ha]]. split; [done|]. exists a.
      pose proof (aligned_append a w e Hm Ha) as H'. by rewrite Hp in H'.
    + destruct Hph as [Hpr Hopen]. split; [apply progress_append; [done|congruence]|]. intros Hcl.
      destruct Hopen as (a & Ha & Had).
      { revert Hcl. unfold put_nowait. by destruct (_ && _)%bool. }
      exists a. split; [|done]. pose proof (aligned_append a w e Hm Ha) as H'. by rewrite Hp in H'.
    + destruct Hph as [Hpr (a & Ha & Had)]. split; [apply progress_append; [done|congruence]|].
      exists a. split; [|done]. pose proof (aligned_append a w e Hm Ha) as H'. by rewrite Hp in H'.
    + by apply progress_append.
Qed.

Lemma replay_inv c w w' :
  stream_inv c w → stream_step (Replay c) w = Some w' → stream_inv c w'.
Proof.
  intros (Hn & Hm & Hph). unfold stream_step. destruct (at_phase w); try done.
  destruct (_ || _)%bool eqn:Hc; [done|]. intros [= <-].
  apply orb_false_iff in Hc as [H1 H2]. bool_prop. destruct Hph as [_ [a Ha]].
  destruct (replay_progress c w (sub w) Hn ltac:(lia)) as [Hpr Hd].
  split_and!; [done|done|]. cbn [at_phase]. split; [done|]. intros _. exists a.
  split; [exact Ha|]. rewrite Hd. destruct Ha as [[_ Hl] _]. lia.
Qed.

Lemma check_inv c w gone w' :
  stream_inv c w → stream_step (Check gone) w = Some w' → stream_inv c w'.
Proof.
  intros (Hn & Hm & Hph). unfold stream_step. destruct (at_phase w) eqn:Hp; try done.
  destruct Hph as [Hpr Hopen]. pose proof Hpr as (Hd & Hc & Hs & Hcur).
  destruct gone; [|destruct (sub_closed (sub w)) eqn:Hcl]; intros [= <-].
  - split_and!; [done|done|]. cbn [at_phase]. split_and!; cbn; try done; try lia.
    intros cur Hin. by destruct (Hcur cur Hin).
  - split_and!; [done|done|]. cbn [at_phase]. split_and!; cbn; try lia.
    + by rewrite sent_app, app_nil_r.
    + intros cur. rewrite elem_of_app, list_elem_of_singleton. intros [Hin|[= ->]]; [|done].
      destruct (Hcur cur Hin). congruence.
  - split_and!; [done|done|]. cbn [at_phase]. destruct (Hopen eq_refl) as (a & Ha & Had).
    split; [|by exists a].
    pose proof (progress_quiet c w (sub w) Waiting [] Hpr) as H'.
    rewrite app_nil_r in H'. apply H'; try done; [by rewrite Hp|intros ?; by apply not_elem_of_nil].
Qed.

Lemma take_inv c w w' :
  stream_inv c w → stream_step Take w = Some w' → stream_inv c w'.
Proof.
  intros (Hn & Hm & Hph). unfold stream_step. destruct (at_phase w) eqn:Hp; try done.
  destruct Hph as [Hpr (a & Ha & Had)]. assert (at_phase w ≠ Ended) as Hne by (by rewrite Hp).
  destruct (sub_queue (sub w)) as [|e q] eqn:Hq.
  - intros [= <-]. split_and!; [done|done|]. cbn [at_phase]. split.
    + apply progress_quiet; try done. intros cur [=]%list_elem_of_singleton.
    + intros _. by exists a.
  - pose proof Ha as [Hqd [Hopen _]].
    destruct (queue_head a w e q Hn Hqd Hq) as (He & Hseq & Hlt & Htl).
    assert (∀ out' d, (Z.of_nat (S a) ≤ d)%Z → sub_closed (pop (sub w)) = false →
      ∃ a', aligned a' {| log := log w; sub := pop (sub w); at_phase := Checking;
        delivered := d; out := out' |} ∧ (Z.of_nat a' ≤ d)%Z) as Hal.
    { intros out' d Hd Hcl. exists (S a). split; [|done]. cbn in Hcl. specialize (Hopen Hcl).
      unfold aligned, queued, pop. cbn [log sub sub_queue sub_closed sub_maxsize].
      rewrite Hq in *. simpl in *. rewrite Hcl. split_and!; [done|lia|lia|done]. }
    destruct (Z.leb_spec (ev_sequence e) (delivered w)) as [Hle|Hgt]; intros [= <-];
      (split_and!; [done|done|]); cbn [at_phase]; (split; [|intros Hcl; apply Hal; [cbn; lia|done]]).
    + pose proof (progress_quiet c w (pop (sub w)) Checking [] Hpr) as H'.
      rewrite app_nil_r in H'. apply H'; try done. intros ?; by apply not_elem_of_nil.
    + assert (delivered w = Z.of_nat a) as Hda by lia.
      apply progress_deliver; try done; [by rewrite Hda, Nat2Z.id|lia].
Qed.

Lemma streams_inv c w w' : stream_inv c w → streams c w w' → stream_inv c w'.
Proof.
  intros Hinv. induction 1 as [w|w a w1 w2 Hc Hstep _ IH]; [done|]. apply IH.
  destruct a.
  - by eapply append_inv.
  - rewrite (Hc _ eq_refl) in Hstep. by eapply replay_inv.
  - by eapply check_inv.
  - by eapply take_inv.
Qed.

Lemma subscribed_inv c l n : numbered_from 0 l → (0 < n)%Z → stream_inv c (subscribed l n).
Proof.
  intros Hl Hn. split_and!; [done|done|]. cbn. split; [done|]. exists (length l).
  unfold aligned, queued. cbn. split_and!; [done|lia|lia|done].
Qed.

(** ** Catching up *)

Definition consume (w : stream) : option stream :=
  match stream_step (Check false) w with Some w1 => stream_step Take w1 | None => None end.
Fixpoint consumes (n : nat) (w : stream) : option stream :=
  match n with
  | O => Some w
  | S n' => match consume w with Some w1 => consumes n' w1 | None => None end
  end.

Lemma consume_one c w e q :
  stream_inv c w → at_phase w = Checking → sub_closed (sub w) = false →
  sub_queue (sub w) = e :: q →
  ∃ w', consume w = Some w' ∧ stream_inv c w' ∧ at_phase w' = Checking ∧
    sub_closed (sub w') = false ∧ sub_queue (sub w') = q ∧ log w' = log w.
Proof.
  intros Hinv Hp Hcl Hq. unfold consume.
  destruct (stream_step (Check false) w) as [w1|] eqn:H1; [|by cbn in H1; rewrite Hp, Hcl in H1].
  pose proof (check_inv _ _ _ _ Hinv H1) as Hinv1. cbn in H1. rewrite Hp, Hcl in H1.
  injection H1 as <-.
  destruct (stream_step Take _) as [w2|] eqn:H2; [|by cbn in H2; rewrite Hq in H2; case_match].
  exists w2. split; [done|]. pose proof (take_inv _ _ _ Hinv1 H2) as Hinv2.
  cbn in H2. rewrite Hq in H2. split; [done|].
  destruct (_ <=? _)%Z in H2; injection H2 as <-; cbn; rewrite Hq; by split_and!.
Qed.

Lemma consumes_all c w :
  stream_inv c w → at_phase w = Checking → sub_closed (sub w) = false →
  ∃ w', consumes (length (sub_queue (sub w))) w = Some w' ∧ stream_inv c w' ∧
    at_phase w' = Checking ∧ log w' = log w ∧ delivered w' = Z.of_nat (length (log w)).
Proof.
  remember (sub_queue (sub w)) as q eqn:Hq. revert w Hq.
  induction q as [|e q IH]; intros w Hq Hinv Hp Hcl.
  - exists w. split_and!; try done. destruct Hinv as (_ & _ & Hph). rewrite Hp in Hph.
    destruct Hph as [(Hd & _) Hopen]. destruct (Hopen Hcl) as (a & (_ & Ho & _) & Had).
    specialize (Ho Hcl). rewrite <-Hq in Ho. simpl in Ho. lia.
  - destruct (consume_one c w e q Hinv Hp Hcl (eq_sym Hq)) as (w1 & Hc & Hinv1 & Hp1 & Hcl1 & Hq1 & Hl1).
    destruct (IH w1 (eq_sym Hq1) Hinv1 Hp1 Hcl1) as (w' & Hc' & Hinv' & Hp' & Hl' & Hd').
    exists w'. cbn [consumes length]. rewrite Hc. split_and!; [done|done|done| |]; congruence.
Qed.

(** ** What the client receives *)

(** C27: a stream neither loses, repeats nor reorders an event: at any point what
    was sent, followed by the log after the [delivered] cursor, is the log after
    the client's cursor; and the slow-consumer notice is the last thing sent and
    names exactly that cursor, so resuming from it continues the sequence. *)
Theorem event_stream_loses_nothing c l n w :
  numbered_from 0 l → (0 < n)%Z → streams c (subscribed l n) w → at_phase w ≠ Subscribed →
  drop (Z.to_nat c) (log w) = sent (out w) ++ drop (Z.to_nat (delivered w)) (log w) ∧
  ∀ cur, SseSlowConsumer cur ∈ out w → py_int cur = Some (delivered w) ∧ at_phase w = Ended.
Proof.
  intros Hl Hn Hs Hp. pose proof (streams_inv c _ _ (subscribed_inv c l n Hl Hn) Hs) as (_ & _ & Hph).
  assert (progress c w) as (Hd & Hc & Hsent & Hcur) by (destruct (at_phase w); [done|apply Hph..]).
  split.
  - rewrite Hsent, <-(take_drop (Z.to_nat (delivered w)) (log w)) at 1.
    rewrite drop_app_le; [done|]. rewrite length_take. lia.
  - intros cur Hin. destruct (Hcur cur Hin) as [-> He]. split; [apply py_int_repr|done].
Qed.

(** a stream whose subscriber was not closed catches up: as many rounds of
    the loop as events are queued deliver everything in the log. *)
Theorem open_stream_catches_up c l n w :
  numbered_from 0 l → (0 < n)%Z → streams c (subscribed l n) w →
  at_phase w = Checking → sub_closed (sub w) = false →
  ∃ w', consumes (length (sub_queue (sub w))) w = Some w' ∧ log w' = log w ∧
    sent (out w') = drop (Z.to_nat c) (log w).
Proof.
  intros Hl Hn Hs Hp Hcl. pose proof (streams_inv c _ _ (subscribed_inv c l n Hl Hn) Hs) as Hinv.
  destruct (consumes_all c w Hinv Hp Hcl) as (w' & Hc & (_ & _ & Hph) & Hp' & Hlog & Hd).
  exists w'. split_and!; [done|done|]. rewrite Hp' in Hph. destruct Hph as [(_ & _ & Hsent & _) _].
  rewrite Hsent, Hd, Hlog, Nat2Z.id. by rewrite take_ge by lia.
Qed.

Definition demo_log (n : nat) : list IncidentEvent :=
  (λ i, make_event "inc_a" (Z.of_nat i + 1) "EVT" 0 VNone) <$> seq 0 n.
Definition nth_event (i : Z) : IncidentEvent := make_event "inc_a" i "EVT" 0 VNone.

Fixpoint run_stream (acts : list action) (w : stream) : option stream :=
  match acts with
  | [] => Some w
  | a :: rest => match stream_step a w with Some w1 => run_stream rest w1 | None => None end
  end.

Lemma run_stream_streams c acts w w' :
  run_stream acts w = Some w' → (∀ c', Replay c' ∈ acts → c' = c) → streams c w w'.
Proof.
  revert w. induction acts as [|a acts IH]; intros w; cbn [run_stream].
  - intros [= ->] _. apply streams_refl.
  - destruct (stream_step a w) as [w1|] eqn:Ha; [|done]. intros Hr Hc.
    eapply streams_step; [|exact Ha|apply IH; [done|]].
    + intros c' ->. apply Hc. left.
    + intros c' Hin. apply Hc. by right.
Qed.

(** A buffer of one event overflows while the client is reading. *)
Definition overflow : list action :=
  [Append (nth_event 3); Replay 1; Check false; Append (nth_event 4); Take].

Lemma demo_log_numbered : numbered_from 0 (demo_log 2).
Proof. intros [|[|j]] e H; [by injection H as <-|by injection H as <-|done]. Qed.

Lemma overflow_cursor c' : Replay c' ∈ overflow → c' = 1%Z.
Proof. unfold overflow. rewrite !elem_of_cons, elem_of_nil. intros Hin. by destruct_or? Hin; simplify_eq. Qed.

Lemma event_stream_loses_nothing_witness :
  ∃ w, run_stream (overflow ++ [Check false]) (subscribed (demo_log 2) 1) = Some w ∧
    (drop (Z.to_nat 1) (log w) = sent (out w) ++ drop (Z.to_nat (delivered w)) (log w) ∧
     ∀ cur, SseSlowConsumer cur ∈ out w → py_int cur = Some (delivered w) ∧ at_phase w = Ended).
Proof.
  destruct (run_stream (overflow ++ [Check false]) (subscribed (demo_log 2) 1)) as [w|] eqn:Hr;
    [|discriminate].
  exists w. split; [reflexivity|]. apply (event_stream_loses_nothing 1 (demo_log 2) 1 w).
  - exact demo_log_numbered.
  - lia.
  - apply (run_stream_streams 1 _ _ _ Hr). intros c' Hin. apply elem_of_app in Hin as [Hin|Hin].
    + by apply overflow_cursor.
    + apply list_elem_of_singleton in Hin. discriminate.
  - vm_compute in Hr. injection Hr as <-. discriminate.
Defined.

Lemma open_stream_catches_up_witness :
  ∃ w w', run_stream [Append (nth_event 3); Replay 1; Append (nth_event 4)]
      (subscribed (demo_log 2) 5) = Some w ∧
    consumes (length (sub_queue (sub w))) w = Some w' ∧ log w' = log w ∧
    sent (out w') = drop (Z.to_nat 1) (log w).
Proof.
  destruct (run_stream [Append (nth_event 3); Replay 1; Append (nth_event 4)]
    (subscribed (demo_log 2) 5)) as [w|] eqn:Hr; [|discriminate].
  exists w. destruct (open_stream_catches_up 1 (demo_log 2) 5 w) as (w' & H).
  - exact demo_log_numbered.
  - lia.
  - apply (run_stream_streams 1 _ _ _ Hr). intros c'. rewrite !elem_of_cons, elem_of_nil.
    intros Hin. by destruct_or? Hin; simplify_eq.
  - vm_compute in Hr. injection Hr as <-. reflexivity.
  - vm_compute in Hr. injection Hr as <-. reflexivity.
  - exists w'. split; [reflexivity|exact H].
Defined.
