(* ===== verification/ApiTheorems.v ===== *)
(** * What the control API promises

    Theorems about the handlers of Api.v, proved over the interface
    [IncidentStore], and the delivery order of the durable store. *)
From S2P Require Import Prelude Json JsonFacts Sha256 Kernel PyDyn PyCalendar Store.
From S2P Require Import StoreSpec PgStore MemoryStore PgRefine StoreContract StoreTheorems Oidc.
From S2P Require Import Api Sse.

(** ** A handler is a gate followed by one store call *)

Definition endpoint_scope (e : endpoint) : string :=
  match e with GetIncident _ => "read" | DecideApproval _ _ => "approve" | _ => "write" end.
Definition endpoint_writes (e : endpoint) : bool :=
  match e with GetIncident _ => false | _ => true end.
Definition endpoint_incident (e : endpoint) : option string :=
  match e with
  | CreateIncident _ => None
  | GetIncident id | CancelIncident id _ | RecordFeedback id _ | DecideApproval id _ => Some id
  end.
Definition endpoint_op (e : endpoint) (p : AuthenticatedPrincipal) (key : string) : store_op :=
  match e with
  | CreateIncident body => OpCreate (tenant_id p) key body
  | GetIncident id => OpGet (tenant_id p) id
  | CancelIncident id expected => OpCancel (tenant_id p) id key expected
  | RecordFeedback id body => OpFeedback (tenant_id p) (user_id p) id key body
  | DecideApproval id body => OpApproval (tenant_id p) id key body
  end.
Definition endpoint_errors (e : endpoint) : store_error → option APIError :=
  match e with
  | CreateIncident _ => on_create
  | GetIncident _ => on_get
  | CancelIncident _ _ | RecordFeedback _ _ => on_write
  | DecideApproval _ _ => on_approval
  end.
Definition endpoint_status (e : endpoint) (o : store_out) : Z :=
  match e with
  | CreateIncident _ => match o with OutResponse _ true => 201 | _ => 200 end
  | CancelIncident _ _ | RecordFeedback _ _ => 202
  | _ => 200
  end.

Section Gate.
Context (auth : option string → result auth_error AuthenticatedPrincipal).

(** What a request must pass before the store is called. *)
Definition gate (e : endpoint) (r : Request) : result api_exn (AuthenticatedPrincipal * string) :=
  let* p := require auth (endpoint_scope e) r in
  let* key := (if endpoint_writes e then header_key r else Ok "") in
  let* _ := match endpoint_incident e with
            | Some id => rmap_err Raised (check_incident_id id)
            | None => Ok tt
            end in
  Ok (p, key).

Lemma gate_ok e r p key :
  gate e r = Ok (p, key) →
  (∀ name, name ∈ IDENTITY_HEADERS → headers r !! name = None) ∧
  auth (headers r !! "authorization") = Ok p ∧ endpoint_scope e ∈ granted p ∧
  (endpoint_writes e = true →
     headers r !! "idempotency-key" = Some key ∧ (16 <= str_len key <= 128)%Z).
Proof.
  unfold gate, require, principal. intros H.
  destruct (existsb _ _) eqn:Hx; [done|]. cbn [rbind] in H.
  destruct (auth _) as [p'|[]] eqn:Ha; try done. cbn [rbind] in H.
  destruct (bool_decide (endpoint_scope e ∈ granted p')) eqn:Hs; [|done]. cbn [negb rbind] in H.
  apply bool_decide_eq_true in Hs.
  assert (∀ name, name ∈ IDENTITY_HEADERS → headers r !! name = None) as Hid.
  { intros name Hin. apply eq_None_not_Some. intros Hsome.
    apply not_true_iff_false in Hx. apply Hx, existsb_exists. exists name.
    split; [by apply list_elem_of_In|]. by apply bool_decide_eq_true. }
  split; [done|]. destruct (endpoint_writes e) eqn:Hw.
  - unfold header_key, idempotency_header in H.
    destruct (headers r !! "idempotency-key") as [k|]; [|done].
    destruct (_ && _)%bool eqn:Hlen; [|done]. cbn [negb rmap_err rbind] in H.
    destruct (match endpoint_incident e with Some _ => _ | None => _ end); [|done].
    injection H as -> ->. bool_prop. split_and!; [done|done|]. intros _. split; [done|lia].
  - cbn [rbind] in H. destruct (match endpoint_incident e with Some _ => _ | None => _ end); [|done].
    injection H as -> _. split_and!; done.
Qed.

Lemma header_key_err r x :
  header_key r = Err x → ∃ a, x = Raised a ∧ status a = 400%Z.
Proof.
  unfold header_key, idempotency_header. destruct (headers r !! _) as [k|].
  - destruct (negb _); cbn; [|done]. intros [= <-]. by eexists.
  - intros [= <-]. by eexists.
Qed.

Lemma check_incident_id_err id a : check_incident_id id = Err a → status a = 400%Z.
Proof. unfold check_incident_id. destruct (_ || _)%bool; [|done]. by intros [= <-]. Qed.

(** A request that is turned away gets a 400, 401 or 403, unless the
    authenticator raised something the API does not know. *)
Lemma gate_err e r x :
  gate e r = Err x →
  (∃ a, x = Raised a ∧ status a ∈ [400; 401; 403]%Z) ∨
  (∃ err, auth (headers r !! "authorization") = Err err ∧ err ≠ AuthenticationError).
Proof.
  unfold gate, require. destruct (principal auth r) as [p|y] eqn:Hp; cbn [rbind].
  - destruct (negb _); cbn [rbind].
    { intros [= <-]. left. eexists. split; [done|]. set_solver. }
    destruct (if endpoint_writes e then header_key r else Ok "") as [key|y] eqn:Hk; cbn [rbind].
    + destruct (endpoint_incident e) as [id|]; [|done].
      destruct (check_incident_id id) as [|a] eqn:Hc; [done|]. intros [= <-]. left. exists a.
      split; [done|]. rewrite (check_incident_id_err _ _ Hc). set_solver.
    + intros [= <-]. destruct (endpoint_writes e); [|done].
      destruct (header_key_err _ _ Hk) as (a & -> & Hs). left. exists a. split; [done|].
      rewrite Hs. set_solver.
  - intros [= <-]. unfold principal in Hp.
    destruct (existsb _ _); [injection Hp as <-; left; eexists; split; [done|]; set_solver|].
    destruct (auth _) as [p|err] eqn:Ha; [done|]. destruct err; injection Hp as <-.
    + left. eexists. split; [done|]. set_solver.
    + right. by eexists.
    + right. by eexists.
Qed.

Context {S E : Type} `{St : IncidentStore S E} (store_exn : E → option store_error).

Lemma handle_eq e r env s :
  handle auth store_exn e r env s =
  match gate e r with
  | Err x => (Err x, s)
  | Ok (p, key) =>
      match call (endpoint_op e p key) env s with
      | (Ok o, s') => (Ok (reply (endpoint_status e o) o), s')
      | (Err x, s') => (Err (on_store_error store_exn (endpoint_errors e) x), s')
      end
  end.
Proof.
  unfold gate. destruct e; cbn [handle endpoint_scope endpoint_writes endpoint_incident];
    unfold create_incident, get_incident, cancel_incident, record_feedback, decide_approval,
      sbind, deps, raised, slift, store_call, sret;
    (destruct (require auth _ r) as [p|x]; [|done]); cbn [rbind];
    try (destruct (header_key r) as [key|x]; [|done]); cbn [rbind];
    try (destruct (check_incident_id _) as [u|x]; [|done]); cbn [rbind rmap_err];
    cbn [endpoint_op]; by destruct (call _ env s) as [[o|x] s'].
Qed.
End Gate.

(** ** Properties *)

Section Theorems.
Context (auth : option string → result auth_error AuthenticatedPrincipal).
Context {S E : Type} `{St : IncidentStore S E} (store_exn : E → option store_error).

(** C37: a request changes the store, or is answered with success, only on
    behalf of the authenticated principal: no identity header was supplied, the
    token's roles grant the endpoint's scope, a write carries a key of 16 to 128
    characters, and what happened is one store call for the token's tenant. *)
Theorem api_calls_store_as_principal e r env s res s' :
  handle auth store_exn e r env s = (res, s') → s' ≠ s ∨ (∃ rep, res = Ok rep) →
  ∃ p key, (∀ name, name ∈ IDENTITY_HEADERS → headers r !! name = None) ∧
    auth (headers r !! "authorization") = Ok p ∧ endpoint_scope e ∈ granted p ∧
    (endpoint_writes e = true →
       headers r !! "idempotency-key" = Some key ∧ (16 <= str_len key <= 128)%Z) ∧
    op_tenant (endpoint_op e p key) = tenant_id p ∧
    s' = (call (endpoint_op e p key) env s).2 ∧
    rmap reply_body res = rmap_err (on_store_error store_exn (endpoint_errors e))
                            (call (endpoint_op e p key) env s).1.
Proof.
  rewrite handle_eq. destruct (gate auth e r) as [[p key]|x] eqn:Hg.
  - intros H _. apply gate_ok in Hg as (Hid & Ha & Hs & Hk). exists p, key.
    split_and!; [done|done|done|done|by destruct e| |].
    + by destruct (call _ _ _) as [[o|x] s1]; injection H as _ <-.
    + by destruct (call _ _ _) as [[o|x] s1]; injection H as <- _.
  - intros [= <- <-] [?|[? [=]]]; done.
Qed.

(** The errors a specified operation can answer with. *)
Lemma spec_step_errors ret e p key env sp x :
  (spec_step policy ret (endpoint_op e p key) env sp).1 = Err x →
  is_Some (endpoint_errors e x).
Proof.
  unfold spec_step. destruct e; cbn [endpoint_op op_slot endpoint_errors];
    try (destruct (sp_idem sp !! _) as [[d rr]|]; [by case_bool_decide; intros [= <-]|]);
    cbn [spec_body fst]; (try destruct (sp_incidents sp !! _) as [i|]);
    cbn [from_option_or rbind]; repeat (case_match; cbn [fst rbind]);
    intros H'; try done; try (injection H' as <-); try done;
    repeat (first [destruct (negb _)|destruct (bool_decide _)]; cbn in *; try done); naive_solver.
Qed.

End Theorems.

(** ** Witnesses *)

Definition demo_principal : AuthenticatedPrincipal :=
  {| tenant_id := "acme"; user_id := "ann"; roles := {["operator"]}; token_id := "t1";
     expires_at := 2000 |}.
Definition demo_auth (header : option string) : result auth_error AuthenticatedPrincipal :=
  if bool_decide (header = Some "Bearer token") then Ok demo_principal else Err AuthenticationError.
Definition demo_request : Request :=
  {| headers := {["authorization" := "Bearer token"; "idempotency-key" := "key-1-key-1-key-1"]};
     correlation_hex := "c0" |}.
Definition demo_endpoint : endpoint := RecordFeedback "inc_a" demo_feedback.

Lemma api_calls_store_as_principal_witness :
  ∃ o s', handle (St:=memory_store) demo_auth Some demo_endpoint demo_request (demo_env "b") demo_memory =
      (Ok (reply 202 o), s') ∧
    ∃ p key, demo_auth (headers demo_request !! "authorization") = Ok p ∧
      s' = (call (IncidentStore:=memory_store) (endpoint_op demo_endpoint p key) (demo_env "b") demo_memory).2.
Proof.
  destruct (handle (St:=memory_store) demo_auth Some demo_endpoint demo_request (demo_env "b") demo_memory)
    as [res s'] eqn:H.
  assert (Hok : match res with Ok r => reply_status r = 202%Z | Err _ => False end).
  { pose proof (f_equal fst H) as H1. cbn [fst] in H1. rewrite <-H1. vm_compute. reflexivity. }
  destruct res as [[st o]|]; [|destruct Hok]. cbn in Hok. subst st. exists o, s'. split; [reflexivity|].
  destruct (api_calls_store_as_principal (St:=memory_store) demo_auth Some _ _ _ _ _ _ H)
    as (p & key & _ & Ha & _ & _ & _ & Hs & _); [right; by eexists|].
  exists p, key. split; [exact Ha|exact Hs].
Defined.

(** Approving with a digest that is not pending. *)
Definition demo_approver (header : option string) : result auth_error AuthenticatedPrincipal :=
  Ok {| tenant_id := "acme"; user_id := "bob"; roles := {["approver"]}; token_id := "t2";
        expires_at := 2000 |}.
Definition demo_bad_approval : endpoint := DecideApproval "inc_a" (demo_approval "other").


(** ** The durable store publishes after its transaction

    Two feedback transactions commit as events 2 and 3; nothing orders the two
    publications that follow, and a stream that takes event 3 first drops 2. *)
Section LatePublication.
Let key : string * string := ("acme", "inc_a").
Let request (rating : Z) : FeedbackRequest :=
  {| fr_rating := rating; fr_comment := None; fr_expected_state_version := 0 |}.

Definition late_publication : PgM (N * list IncidentEvent) :=
  let! ref := pg_subscribe "acme" "inc_a" 8 in
  let! (_, first) := pg_feedback_tx id "acme" "ann" "inc_a" "key-1" (request 1) (demo_env "b") in
  let! (_, second) := pg_feedback_tx id "acme" "bob" "inc_a" "key-2" (request 2) (demo_env "c") in
  (match second with Some e => publish "acme" e | None => sret tt end) ;;;
  (match first with Some e => publish "acme" e | None => sret tt end) ;;;
  sret (ref, match first, second with Some a, Some b => [a; b] | _, _ => [] end).

(** The stream opened with cursor 1, once both publications arrived. *)
Definition late_stream : option (list IncidentEvent * stream) :=
  match late_publication demo_pg with
  | (Ok (ref, committed), s) =>
      match pg_objects s !! ref with
      | Some sb =>
          option_map (pair committed)
            (consumes 2 {| log := incident_events "acme" "inc_a" s; sub := sb; at_phase := Checking;
                           delivered := 1; out := [] |})
      | None => None
      end
  | _ => None
  end.
End LatePublication.

Lemma late_publication_skips_event :
  match late_stream with
  | Some ([first; second], w) =>
      sub_queue (sub w) = [] ∧ sub_closed (sub w) = false ∧ sent (out w) = [second] ∧
      first ∈ log w ∧ delivered w = ev_sequence second ∧ (ev_sequence first < ev_sequence second)%Z
  | _ => False
  end.
Proof. vm_compute. split_and!; try done. right. left. Qed.
