(* ===== verification/Sanitizer.v ===== *)
(** * Trace sanitization: [src/faultwitness/observability/sanitizer.py]

    [TraceSanitizer.sanitize] from a parsed [TraceEnvelope] to the allow-listed,
    pseudonymised trace that may be stored and exported.  Times are microseconds;
    an attribute value is any JSON scalar or structure. *)
From Stdlib Require Import Ascii.
From S2P Require Import Prelude Json JsonFacts Sha256 PyDyn PyCalendar Regex.

(** ** [TraceEnvelope], from [src/faultwitness/contracts/models.py] *)

Inductive TraceStage :=
  API | STATE_TRANSITION | CHECKPOINT | MODEL | TOOL | POLICY | ACTION | EXPORT.
Definition stage_value (s : TraceStage) : string :=
  match s with
  | API => "api" | STATE_TRANSITION => "state_transition" | CHECKPOINT => "checkpoint"
  | MODEL => "model" | TOOL => "tool" | POLICY => "policy" | ACTION => "action"
  | EXPORT => "export"
  end.

Inductive SpanStatus := SPAN_OK | SPAN_ERROR | SPAN_UNSET.
Definition span_status_value (s : SpanStatus) : string :=
  match s with SPAN_OK => "ok" | SPAN_ERROR => "error" | SPAN_UNSET => "unset" end.

Record SpanRecord := {
  span_id : string;
  parent_span_id : option string;
  span_name : string;
  span_stage : TraceStage;
  started_at : Z;
  ended_at : option Z;
  span_status : SpanStatus;
  attributes : list (string * val);
}.

Record TraceEnvelope := {
  te_trace_id : string;
  te_tenant_id : string;
  te_correlation_id : string;
  te_causation_id : option string;
  te_incident_id : option string;
  te_task_id : option string;
  te_action_id : option string;
  te_contracts_version : string;
  te_candidate_sha : string;
  te_spans : list SpanRecord;
  te_emitted_at : Z;
}.

(** ** Tables *)

Definition STAGE_PREFIX (s : TraceStage) : string :=
  match s with
  | API => "api." | STATE_TRANSITION => "state." | CHECKPOINT => "checkpoint."
  | MODEL => "model." | TOOL => "tool." | POLICY => "policy." | ACTION => "action."
  | EXPORT => "export."
  end.

Definition az (c : ascii) : bool := between "a" "z" c.
Definition az09 (c : ascii) : bool := az c || is_digit c.
Definition exact (p : ascii → bool) : ascii → bool := p.

(** [^[a-z][a-z0-9]*(?:[._-][a-z0-9]+){1,7}$] *)
Definition SAFE_NAME : regex :=
  RCat (RChar az) (RCat (RStar (RChar az09))
    (repeat_range 1 6 (RCat (RChar (one_of "._-")) (rplus (RChar az09))))).

Definition ALLOWED_ATTRIBUTES : list string :=
  ["db.operation"; "error.type"; "event.type"; "http.request.method";
   "http.response.status_code"; "http.route"; "messaging.destination.template";
   "messaging.operation"; "model.family"; "model.route"; "model.snapshot"; "outcome";
   "retry.attempt"; "sequence"; "state.from"; "state.to"].

Definition DENIED_KEY_PARTS : list string :=
  ["authorization"; "chain_of_thought"; "cookie"; "credential"; "email"; "hidden_reasoning";
   "host"; "internal_monologue"; "ip"; "password"; "private_reasoning"; "prompt";
   "reasoning_content"; "secret"; "server"; "token"; "user"].

(** [(?i)\bbearer\s+[a-z0-9._~+/=-]{8,}] *)
Definition BEARER : regex :=
  RCat word_boundary (RCat (literal nocase "bearer") (RCat (rplus (RChar is_space))
    (at_least 8 (RChar (nocase (λ c, az09 c || one_of "._~+/=-" c)))))).
(** [(?i)-----BEGIN [A-Z ]+PRIVATE KEY-----] *)
Definition PRIVATE_KEY : regex :=
  RCat (literal nocase "-----BEGIN ")
    (RCat (rplus (RChar (nocase (λ c, between "A" "Z" c || Ascii.eqb c " "))))
      (literal nocase "PRIVATE KEY-----")).
(** [(?i)\b(?:sk|lsv2|api)[_-][a-z0-9_-]{12,}] *)
Definition API_KEY : regex :=
  RCat word_boundary
    (RCat (RAlt (literal nocase "sk") (RAlt (literal nocase "lsv2") (literal nocase "api")))
      (RCat (RChar (one_of "_-")) (at_least 12 (RChar (nocase (λ c, az09 c || one_of "_-" c)))))).
(** [\b[A-Z0-9._%+-]+@[A-Z0-9.-]+\.[A-Z]{2,}\b] with [re.I] *)
Definition EMAIL : regex :=
  RCat word_boundary (RCat (rplus (RChar (nocase (λ c, az09 c || one_of "._%+-" c))))
    (RCat (RChar (lit_char "@")) (RCat (rplus (RChar (nocase (λ c, az09 c || one_of ".-" c))))
      (RCat (RChar (lit_char ".")) (RCat (at_least 2 (RChar (nocase az))) word_boundary))))).
(** [(?<![a-z0-9])(?:\d{1,3}\.){3}\d{1,3}(?![a-z0-9])] with [re.I] *)
Definition IPV4 : regex :=
  RCat (not_before (nocase az09))
    (RCat (rrepeat 3 (RCat (repeat_range 1 2 (RChar is_digit)) (RChar (lit_char "."))))
      (RCat (repeat_range 1 2 (RChar is_digit)) (not_after (nocase az09)))).
(** [FW_(?:SECRET|PII|PRIVATE_REASONING)_CANARY] with [re.I] *)
Definition CANARY : regex :=
  RCat (literal nocase "FW_")
    (RCat (RAlt (literal nocase "SECRET") (RAlt (literal nocase "PII")
      (literal nocase "PRIVATE_REASONING"))) (literal nocase "_CANARY")).
Definition SENSITIVE_VALUE_PATTERNS : list regex :=
  [BEARER; PRIVATE_KEY; API_KEY; EMAIL; IPV4; CANARY].

(** ** Results *)

Record SanitizedSpan := {
  ss_span_ref : string;
  ss_remote_id : string;
  ss_otlp_span_id : string;
  ss_parent_span_ref : option string;
  ss_name : string;
  ss_stage : string;
  ss_started_at : string;
  ss_ended_at : string;
  ss_status : string;
  ss_attributes : list (string * val);
}.

Record SanitizedTrace := {
  st_schema_version : string;
  st_trace_ref : string;
  st_remote_trace_id : string;
  st_otlp_trace_id : string;
  st_tenant_ref : string;
  st_correlation_ref : string;
  st_causation_ref : option string;
  st_incident_ref : option string;
  st_task_ref : option string;
  st_action_ref : option string;
  st_contracts_version : string;
  st_candidate_sha : string;
  st_emitted_at : string;
  st_spans : list SanitizedSpan;
  st_payload_digest : string;
}.

(** [SanitizationRejected]; the others escape [sanitize] unconverted ([PyKeyError])
    or do not happen ([PyStopIteration], [OutOfFuel], [PyNoneIsoformat]). *)
Inductive sanitize_error : Type :=
| SanitizationRejected
| PyKeyError
| PyStopIteration
| PyNoneIsoformat
| OutOfFuel.

Definition M := result sanitize_error.

(** [asdict(span)] and [SanitizedTrace.document] *)
Definition span_document (s : SanitizedSpan) : list (string * val) :=
  [("span_ref", VStr (ss_span_ref s)); ("remote_id", VStr (ss_remote_id s));
   ("otlp_span_id", VStr (ss_otlp_span_id s)); ("parent_span_ref", opt_str (ss_parent_span_ref s));
   ("name", VStr (ss_name s)); ("stage", VStr (ss_stage s));
   ("started_at", VStr (ss_started_at s)); ("ended_at", VStr (ss_ended_at s));
   ("status", VStr (ss_status s)); ("attributes", sdict (ss_attributes s))].
Definition content_document (t : SanitizedTrace) : list (string * val) :=
  [("schema_version", VStr (st_schema_version t)); ("trace_ref", VStr (st_trace_ref t));
   ("remote_trace_id", VStr (st_remote_trace_id t)); ("otlp_trace_id", VStr (st_otlp_trace_id t));
   ("tenant_ref", VStr (st_tenant_ref t)); ("correlation_ref", VStr (st_correlation_ref t));
   ("causation_ref", opt_str (st_causation_ref t)); ("incident_ref", opt_str (st_incident_ref t));
   ("task_ref", opt_str (st_task_ref t)); ("action_ref", opt_str (st_action_ref t));
   ("contracts_version", VStr (st_contracts_version t));
   ("candidate_sha", VStr (st_candidate_sha t)); ("emitted_at", VStr (st_emitted_at t));
   ("spans", VList (sdict ∘ span_document <$> st_spans t))].
Definition document (include_digest : bool) (t : SanitizedTrace) : list (string * val) :=
  content_document t ++ if include_digest then [("payload_digest", VStr (st_payload_digest t))] else [].

(** [canonical_bytes] and [content_bytes]: ASCII text, so its own encoding. *)
Definition canonical_bytes (t : SanitizedTrace) : string := canonical_json (sdict (document true t)).
Definition content_bytes (t : SanitizedTrace) : string := canonical_json (sdict (document false t)).

(** ** The span graph *)

(** [by_id], and what the loop of [_validate_graph] reads of it. *)
Definition by_id (spans : list SpanRecord) : gmap string SpanRecord :=
  foldl (λ m s, <[span_id s := s]> m) ∅ spans.

(** [while parent is not None: ...]; the fuel bounds the parents visited. *)
Fixpoint walk (fuel : nat) (ids : gmap string SpanRecord) (visited : list string)
    (parent : option string) : M unit :=
  match parent with
  | None => Ok tt
  | Some p =>
      raise_if bool_decide (p ∈ visited) with_ SanitizationRejected;;
      let* next := from_option_or PyKeyError (ids !! p) in
      match fuel with
      | O => Err OutOfFuel
      | S n => walk n ids (p :: visited) (parent_span_id next)
      end
  end.

Definition check_span (spans : list SpanRecord) (s : SpanRecord) : M unit :=
  raise_if bool_decide (ended_at s = None) with_ SanitizationRejected;;
  raise_if match parent_span_id s with
           | Some p => bool_decide (by_id spans !! p = None)
           | None => false
           end with_ SanitizationRejected;;
  walk (length spans) (by_id spans) [span_id s] (parent_span_id s).

Definition roots (spans : list SpanRecord) : list SpanRecord :=
  filter (λ s, parent_span_id s = None) spans.

(** [_validate_graph] *)
Definition validate_graph (spans : list SpanRecord) : M unit :=
  raise_if negb (Nat.eqb (size (by_id spans)) (length spans)) with_ SanitizationRejected;;
  raise_if negb (Nat.eqb (length (roots spans)) 1) with_ SanitizationRejected;;
  rfold (λ _ s, check_span spans s) spans tt.

(** ** Names and attributes *)

(** [_scan_value] *)
Definition sensitive (value : string) : bool :=
  existsb (λ pattern, search pattern value) SENSITIVE_VALUE_PATTERNS.
Definition scan_value (value : string) : M unit :=
  raise_if sensitive value with_ SanitizationRejected;; Ok tt.

Definition sanitize_name (name : string) (stage : TraceStage) : M string :=
  raise_if negb (fullmatch SAFE_NAME name) || negb (startswith name (STAGE_PREFIX stage))
    with_ SanitizationRejected;;
  let* _ := scan_value name in Ok name.

(** [part in text] for strings *)
Fixpoint contains (part text : string) : bool :=
  startswith text part ||
  match text with String _ rest => contains part rest | "" => false end.

(** [key.casefold().replace("-", "_")] of a key that is in the allowlist, which
    is ASCII. *)
Fixpoint normalized_key (key : string) : string :=
  match key with
  | String c rest => String (if Ascii.eqb c "-" then "_" else lower c)%char (normalized_key rest)
  | "" => ""
  end.

Definition allowed_key (key : string) : bool :=
  bool_decide (key ∈ ALLOWED_ATTRIBUTES) &&
  negb (existsb (λ part, contains part (normalized_key key)) DENIED_KEY_PARTS).

(** [isinstance(value, _SCALAR_TYPES)] with at most 256 characters *)
Definition bounded_scalar (v : val) : bool :=
  match v with
  | VStr s => (str_len s <=? 256)%Z
  | VBool _ | VInt _ | VFloat _ => true
  | _ => false
  end.
(** [str(value)] of a scalar *)
Definition scalar_text (v : val) : string :=
  match v with
  | VStr s => s
  | VBool b => if b then "True" else "False"
  | VInt z => int_repr z
  | VFloat r => r
  | _ => ""
  end.

Definition sanitize_attribute (kv : string * val) : M (string * val) :=
  raise_if negb (allowed_key kv.1) with_ SanitizationRejected;;
  raise_if negb (bounded_scalar kv.2) with_ SanitizationRejected;;
  let* _ := scan_value (scalar_text kv.2) in Ok kv.

(** [_sanitize_attributes]: the keys of a dict are distinct, so sorting its items
    is sorting by key. *)
Definition sanitize_attributes (attrs : list (string * val)) : M (list (string * val)) :=
  let* kept := rmapM sanitize_attribute attrs in Ok (sort_keys kept).

(** ** References *)

Section Sanitizer.
Context (key : string).   (* the reference key, as bytes *)

(** [_ref], [_optional_ref] and [_uuid] *)
Definition ref_ (kind value : string) (len : nat) : string :=
  str_take len (hmac_hex key (utf8 (kind +:+ ":" +:+ value))).
Definition optional_ref (kind : string) (value : option string) : option string :=
  option_map (λ v, ref_ kind v 24) value.
Definition set_bits (i : nat) (keep mark : N) (raw : list N) : list N :=
  alter (λ b, N.lor (N.land b keep) mark) i raw.
Definition uuid_text (raw : list N) : string :=
  let h := hex (of_bytes raw) in
  str_take 8 h +:+ "-" +:+ str_take 4 (str_drop 8 h) +:+ "-" +:+ str_take 4 (str_drop 12 h)
  +:+ "-" +:+ str_take 4 (str_drop 16 h) +:+ "-" +:+ str_drop 20 h.
Definition uuid_ (kind value : string) : string :=
  let raw := take 16 (bytes_of (hmac_digest key (utf8 (kind +:+ ":" +:+ value)))) in
  uuid_text (set_bits 8 0x3F 0x80 (set_bits 6 0x0F 0x50 raw)).

(** [sorted(spans, key=lambda item: (item.started_at, item.span_id))] *)
Definition span_le (a b : SpanRecord) : bool :=
  ((started_at a <? started_at b) ||
   ((started_at a =? started_at b) && str_le (span_id a) (span_id b)))%Z.

Definition sanitize_span (ids : gmap string SpanRecord) (s : SpanRecord) : M SanitizedSpan :=
  let* name := sanitize_name (span_name s) (span_stage s) in
  let* ended := from_option_or PyNoneIsoformat (ended_at s) in
  let* attrs := sanitize_attributes (attributes s) in
  Ok {| ss_span_ref := ref_ "span" (span_id s) 24;
        ss_remote_id := uuid_ "langsmith-span" (span_id s);
        ss_otlp_span_id := ref_ "otlp-span" (span_id s) 16;
        ss_parent_span_ref :=
          match parent_span_id s with
          | Some p => option_map (λ _, ref_ "span" p 24) (ids !! p)
          | None => None
          end;
        ss_name := name; ss_stage := stage_value (span_stage s);
        ss_started_at := isoformat (started_at s); ss_ended_at := isoformat ended;
        ss_status := span_status_value (span_status s); ss_attributes := attrs |}.

Definition sanitize (e : TraceEnvelope) : M SanitizedTrace :=
  let spans := te_spans e in
  let* _ := validate_graph spans in
  let* root := from_option_or PyStopIteration (head (roots spans)) in
  let* sanitized := rmapM (sanitize_span (by_id spans)) (sort_by span_le spans) in
  let values digest :=
    {| st_schema_version := "1.0.0"; st_trace_ref := ref_ "trace" (te_trace_id e) 24;
       st_remote_trace_id := uuid_ "langsmith-trace" (span_id root);
       st_otlp_trace_id := ref_ "otlp-trace" (te_trace_id e) 32;
       st_tenant_ref := ref_ "tenant" (te_tenant_id e) 24;
       st_correlation_ref := ref_ "correlation" (te_correlation_id e) 24;
       st_causation_ref := optional_ref "causation" (te_causation_id e);
       st_incident_ref := optional_ref "incident" (te_incident_id e);
       st_task_ref := optional_ref "task" (te_task_id e);
       st_action_ref := optional_ref "action" (te_action_id e);
       st_contracts_version := te_contracts_version e; st_candidate_sha := te_candidate_sha e;
       st_emitted_at := isoformat (te_emitted_at e); st_spans := sanitized;
       st_payload_digest := digest |} in
  Ok (values (sha256_hex (canonical_json (sdict (content_document (values "")))))).
End Sanitizer.
