(* ===== verification/SanitizerFacts.v ===== *)
(** * What the sanitizer guarantees

    The graph check accepts exactly the completed trees, it terminates, its only
    stray exception is the [KeyError] of a dangling ancestor, and everything an
    accepted trace shows is allow-listed or a keyed digest. *)
From Stdlib Require Import Ascii.
From S2P Require Import Prelude Json JsonFacts Sha256 PyDyn PyCalendar Regex Sanitizer.

(** ** [by_id] *)

Abbreviation ids spans := (span_id <$> spans).

Lemma by_id_snoc spans s : by_id (spans ++ [s]) = <[span_id s := s]> (by_id spans).
Proof. unfold by_id. by rewrite foldl_app. Qed.

Lemma by_id_some spans k s : by_id spans !! k = Some s → s ∈ spans ∧ span_id s = k.
Proof.
  induction spans as [|x spans IH] using rev_ind; [done|].
  rewrite by_id_snoc, lookup_insert. case_decide as Hk.
  - intros [= ->]. split; [set_solver|done].
  - intros [? ?]%IH. split; [set_solver|done].
Qed.

Lemma by_id_present spans s : s ∈ spans → is_Some (by_id spans !! span_id s).
Proof.
  induction spans as [|x spans IH] using rev_ind; [by intros ?%elem_of_nil|].
  rewrite elem_of_app, list_elem_of_singleton, by_id_snoc, lookup_insert. case_decide; [eauto|].
  intros [?| ->]; [auto|done].
Qed.

Lemma by_id_none spans k : by_id spans !! k = None ↔ k ∉ ids spans.
Proof.
  split.
  - intros Hn (s & -> & Hs)%list_elem_of_fmap. destruct (by_id_present _ _ Hs). congruence.
  - intros Hn. apply eq_None_not_Some. intros [s [Hs <-]%by_id_some]. apply Hn.
    apply list_elem_of_fmap. by exists s.
Qed.

Lemma size_by_id_le spans : size (by_id spans) ≤ length spans.
Proof.
  induction spans as [|x spans IH] using rev_ind; [done|].
  rewrite by_id_snoc, map_size_insert, length_app. cbn.
  destruct (by_id spans !! span_id x); cbn; lia.
Qed.

Lemma size_by_id spans : size (by_id spans) = length spans ↔ NoDup (ids spans).
Proof.
  induction spans as [|x spans IH] using rev_ind; [split; [constructor|done]|].
  rewrite by_id_snoc, map_size_insert, length_app, fmap_app, NoDup_app. cbn.
  pose proof (size_by_id_le spans). destruct (by_id spans !! span_id x) as [y|] eqn:Hx; cbn.
  - split; [lia|]. intros (_ & Hd & _). apply by_id_some in Hx as [Hy Hid].
    destruct (Hd (span_id x)); [|left]. apply list_elem_of_fmap. by exists y.
  - apply by_id_none in Hx. rewrite <-IH. split; [|lia]. intros Hl. split_and!; [lia| |].
    + by intros k Hk ->%list_elem_of_singleton.
    + apply NoDup_singleton.
Qed.

Lemma by_id_nodup spans s : NoDup (ids spans) → s ∈ spans → by_id spans !! span_id s = Some s.
Proof.
  induction spans as [|x spans IH] using rev_ind; [by intros _ ?%elem_of_nil|].
  rewrite fmap_app, NoDup_app, elem_of_app, list_elem_of_singleton, by_id_snoc, lookup_insert.
  intros (Hn & Hd & _) [Hs| ->]; [|by rewrite decide_True]. case_decide as Hk; [|auto].
  destruct (Hd (span_id s)); [by apply list_elem_of_fmap; exists s|]. rewrite <-Hk. left.
Qed.

(** ** Trees *)

(** [k] is [n] parents below a root. *)
Inductive depth (spans : list SpanRecord) : nat → string → Prop :=
| depth_root s : s ∈ spans → parent_span_id s = None → depth spans O (span_id s)
| depth_child s p n :
    s ∈ spans → parent_span_id s = Some p → depth spans n p → depth spans (S n) (span_id s).

Definition completed_tree (spans : list SpanRecord) : Prop :=
  NoDup (ids spans) ∧ length (roots spans) = 1%nat ∧
  ∀ s, s ∈ spans → ended_at s ≠ None ∧ ∃ n, depth spans n (span_id s).

Section Graph.
Context (spans : list SpanRecord) (Hnd : NoDup (ids spans)).

Lemma span_unique s s' : s ∈ spans → s' ∈ spans → span_id s = span_id s' → s = s'.
Proof using Hnd.
  intros Hs Hs' He. apply (by_id_nodup _ _ Hnd) in Hs, Hs'. rewrite He in Hs. congruence.
Qed.

Lemma depth_fun n k : depth spans n k → ∀ m, depth spans m k → n = m.
Proof using Hnd.
  induction 1 as [s Hs Hp|s p n Hs Hp _ IH]; intros m H;
    inversion H as [s' Hs' Hp' He1 He|s' p' n' Hs' Hp' Hd He1 He]; subst;
    (assert (s' = s) as -> by (by apply span_unique)); try congruence.
  f_equal. apply IH. congruence.
Qed.

Lemma depth_span n k : depth spans n k → k ∈ ids spans.
Proof. intros H. apply list_elem_of_fmap. inversion H; eauto. Qed.

(** A chain of parents visits distinct spans, so it is shorter than the trace. *)
Lemma depth_chain n k :
  depth spans n k → ∃ l, length l = S n ∧ NoDup l ∧
    ∀ v, v ∈ l → ∃ d, d ≤ n ∧ depth spans d v.
Proof using Hnd.
  induction 1 as [s Hs Hp|s p n Hs Hp Hd (l & Hl & Hn & Hall)].
  - exists [span_id s]. split_and!; [done|apply NoDup_singleton|].
    intros v ->%list_elem_of_singleton. exists O. split; [done|]. by constructor.
  - exists (span_id s :: l). split_and!; [simpl; lia| |].
    + constructor; [|done]. intros (d & Hle & Hd')%Hall.
      assert (d = S n) as ->; [|lia]. apply (depth_fun _ _ Hd'). by econstructor.
    + intros v [->|Hv]%elem_of_cons.
      * exists (S n). split; [done|]. by econstructor.
      * destruct (Hall v Hv) as (d & ? & ?). exists d. split; [lia|done].
Qed.

Lemma depth_bound n k : depth spans n k → (n < length spans)%nat.
Proof using Hnd.
  intros (l & Hl & Hn & Hall)%depth_chain.
  assert (l ⊆+ ids spans) as Hsub.
  { apply NoDup_submseteq; [done|]. intros v (d & _ & Hd)%Hall. by eapply depth_span. }
  apply submseteq_length in Hsub. rewrite length_fmap in Hsub. lia.
Qed.

Lemma walk_depth fuel s visited :
  s ∈ spans → walk fuel (by_id spans) visited (parent_span_id s) = Ok tt →
  ∃ n, depth spans n (span_id s).
Proof using Type.
  revert s visited. induction fuel as [|fuel IH]; intros s visited Hs H;
    destruct (parent_span_id s) as [p|] eqn:Hp; cbn in H;
    try (exists O; by apply depth_root); res_inv.
  match goal with E : by_id spans !! p = Some _ |- _ => apply by_id_some in E as [Hn <-] end.
  destruct (IH _ _ Hn H) as [n Hd]. exists (S n). by econstructor.
Qed.

Lemma depth_walk n : ∀ fuel s visited,
  s ∈ spans → depth spans n (span_id s) → n ≤ fuel →
  (∀ v, v ∈ visited → ∃ d, n ≤ d ∧ depth spans d v) →
  walk fuel (by_id spans) visited (parent_span_id s) = Ok tt.
Proof using Hnd.
  induction n as [|n IH]; intros fuel s visited Hs Hd Hf Hv.
  - inversion Hd as [s' Hs' Hp He|]; subst. assert (s' = s) as -> by (by apply span_unique).
    rewrite Hp. by destruct fuel.
  - inversion Hd as [|s' p n' Hs' Hp Hd' He1 He]; subst.
    assert (s' = s) as -> by (by apply span_unique). rewrite Hp.
    destruct fuel as [|fuel]; [lia|]. cbn. rewrite bool_decide_eq_false_2.
    2:{ intros (d & Hle & Hdp)%Hv. pose proof (depth_fun _ _ Hd' _ Hdp). lia. }
    assert (∃ next, next ∈ spans ∧ span_id next = p) as (next & Hnext & <-).
    { apply depth_span in Hd'. apply list_elem_of_fmap in Hd' as (y & -> & Hy). eauto. }
    rewrite (by_id_nodup _ _ Hnd Hnext). cbn. apply IH; [done|done|lia|].
    intros v [->|Hin]%elem_of_cons; [by exists n|].
    destruct (Hv v Hin) as (d & ? & ?). exists d. split; [lia|done].
Qed.

Lemma walk_terminates fuel parent visited :
  NoDup visited → (∀ v, v ∈ visited → v ∈ ids spans) → length spans ≤ fuel + length visited →
  walk fuel (by_id spans) visited parent ≠ Err OutOfFuel.
Proof using Hnd.
  revert parent visited. induction fuel as [|fuel IH]; intros [p|] visited Hn Hin Hl; try done;
    cbn; case_bool_decide as Hv; try done;
    (destruct (by_id spans !! p) as [next|] eqn:Hp; cbn; [|done]);
    apply by_id_some in Hp as [Hs Hid];
    (assert (p ∈ ids spans) as Hpin by (apply list_elem_of_fmap; eauto)).
  - intros _. assert (p :: visited ⊆+ ids spans) as Hsub.
    { apply NoDup_submseteq; [by constructor|]. intros v [->|?]%elem_of_cons; auto. }
    apply submseteq_length in Hsub. rewrite length_fmap in Hsub. simpl in *. lia.
  - apply IH; [by constructor| |simpl; lia]. intros v [->|?]%elem_of_cons; auto.
Qed.
End Graph.

(** ** [_validate_graph] *)

Lemma check_all_ok {E A} (f : A → result E unit) xs :
  rfold (λ _ x, f x) xs tt = Ok tt ↔ ∀ x, x ∈ xs → f x = Ok tt.
Proof.
  induction xs as [|x xs IH]; simpl; [split; [by intros _ ? ?%elem_of_nil|done]|].
  split.
  - intros H. res_inv. match goal with u : unit |- _ => destruct u end.
    intros y [->|Hy]%elem_of_cons; [done|]. by apply IH.
  - intros H. rewrite (H x) by left. simpl. apply IH. intros y Hy. apply H. by right.
Qed.

Lemma check_all_err {E A} (f : A → result E unit) xs e :
  rfold (λ _ x, f x) xs tt = Err e → ∃ x, x ∈ xs ∧ f x = Err e.
Proof.
  induction xs as [|x xs IH]; simpl; [done|]. intros [H|(u & Hx & H)]%rbind_err.
  - exists x. split; [left|done].
  - destruct u, (IH H) as (y & Hy & He). exists y. split; [by right|done].
Qed.

Lemma check_span_iff spans s :
  NoDup (ids spans) → s ∈ spans →
  check_span spans s = Ok tt ↔ ended_at s ≠ None ∧ ∃ n, depth spans n (span_id s).
Proof.
  intros Hn Hs. unfold check_span. split.
  - intros H. res_inv. bool_prop. split; [done|]. by eapply walk_depth.
  - intros (He & n & Hd). rewrite bool_decide_eq_false_2 by done.
    pose proof (depth_bound _ Hn _ _ Hd) as Hb.
    assert (match parent_span_id s with
            | Some p => bool_decide (by_id spans !! p = None) | None => false end = false) as ->.
    { destruct (parent_span_id s) as [p|] eqn:Hp; [|done]. apply bool_decide_eq_false_2.
      rewrite by_id_none. inversion Hd as [s' Hs' Hp' He'|s' p' n' Hs' Hp' Hd' He1 He']; subst;
        (assert (s' = s) as -> by (by apply (span_unique spans))); [congruence|].
      assert (p' = p) as -> by congruence. apply depth_span in Hd'. auto. }
    destruct n as [|n].
    + inversion Hd as [s' Hs' Hp He'|]; subst.
      assert (s' = s) as -> by (by apply (span_unique spans)). rewrite Hp. by destruct (length spans).
    + apply (depth_walk spans Hn (S n)); [done|done|lia|].
      intros v ->%list_elem_of_singleton. by exists (S n).
Qed.

Lemma graph_size spans :
  Nat.eqb (size (by_id spans)) (length spans) = true ↔ NoDup (ids spans).
Proof. by rewrite Nat.eqb_eq, size_by_id. Qed.

(** the graph check accepts exactly the completed trees: distinct span
    identifiers, one root, every span ended and joined to the root by its chain
    of parents. *)
Theorem graph_accepted_iff_tree spans : validate_graph spans = Ok tt ↔ completed_tree spans.
Proof.
  unfold validate_graph, completed_tree. rewrite <-graph_size. split.
  - intros H. res_inv. bool_prop. apply graph_size in E as Hn. apply Nat.eqb_eq in E0.
    split_and!; [done|done|]. intros s Hs. apply (check_span_iff spans); [done|done|].
    by apply (proj1 (check_all_ok (check_span spans) spans) H).
  - intros (Hn & Hr & Hall). rewrite Hn, Hr. simpl. apply check_all_ok. intros s Hs.
    apply graph_size in Hn. apply check_span_iff; auto.
Qed.

Definition dangling (spans : list SpanRecord) : Prop :=
  ∃ s p, s ∈ spans ∧ parent_span_id s = Some p ∧ p ∉ ids spans.

Lemma walk_err fuel spans s visited e :
  s ∈ spans → walk fuel (by_id spans) visited (parent_span_id s) = Err e →
  e = SanitizationRejected ∨ (e = PyKeyError ∧ dangling spans) ∨ e = OutOfFuel.
Proof.
  revert s visited. induction fuel as [|fuel IH]; intros s visited Hs;
    destruct (parent_span_id s) as [p|] eqn:Hp; cbn; try done; (case_bool_decide; [naive_solver|]);
    (destruct (by_id spans !! p) as [next|] eqn:Hn; cbn).
  - naive_solver.
  - intros [= <-]. right. left. split; [done|]. exists s, p. split_and!; [done|done|].
    by apply by_id_none.
  - apply by_id_some in Hn as [Hn _]. by apply IH.
  - intros [= <-]. right. left. split; [done|]. exists s, p. split_and!; [done|done|].
    by apply by_id_none.
Qed.

Lemma validate_graph_err spans e :
  validate_graph spans = Err e →
  e = SanitizationRejected ∨ (e = PyKeyError ∧ dangling spans).
Proof.
  unfold validate_graph. destruct (Nat.eqb _ _) eqn:Hn; [|intros [= <-]; auto].
  apply graph_size in Hn. cbn [negb]. destruct (Nat.eqb (length (roots spans)) 1);
    [|intros [= <-]; auto]. cbn [negb]. intros (s & Hs & H)%check_all_err.
  unfold check_span in H. destruct (bool_decide _); [injection H as <-; auto|].
  destruct (match parent_span_id s with Some _ => _ | None => _ end);
    [injection H as <-; auto|].
  destruct (walk_err _ _ _ _ _ Hs H) as [?|[?| ->]]; [auto|auto|].
  exfalso. eapply (walk_terminates spans Hn); [apply NoDup_singleton| | |exact H].
  - intros v ->%list_elem_of_singleton. apply list_elem_of_fmap. by exists s.
  - lia.
Qed.

(** ** [sanitize] *)

Lemma sanitize_name_err n st e : sanitize_name n st = Err e → e = SanitizationRejected.
Proof.
  unfold sanitize_name, scan_value. destruct (_ || _)%bool; [congruence|].
  destruct (sensitive n); cbn [rbind]; congruence.
Qed.

Lemma rmapM_err {E A B} (f : A → result E B) xs e :
  rmapM f xs = Err e → ∃ x, x ∈ xs ∧ f x = Err e.
Proof.
  induction xs as [|x xs IH]; simpl; [done|]. intros [H|(y & _ & [H|(? & _ & [=])]%rbind_err)]%rbind_err.
  - exists x. split; [left|done].
  - destruct (IH H) as (z & Hz & He). exists z. split; [by right|done].
Qed.

Lemma sanitize_attributes_err attrs e : sanitize_attributes attrs = Err e → e = SanitizationRejected.
Proof.
  unfold sanitize_attributes. intros [H|(? & _ & [=])]%rbind_err.
  apply rmapM_err in H as (kv & _ & H). unfold sanitize_attribute, scan_value in H.
  destruct (negb (allowed_key _)); [congruence|]. destruct (negb (bounded_scalar _)); [congruence|].
  destruct (sensitive _); cbn [rbind] in H; congruence.
Qed.

Section Sanitize.
Context (key : string).

Lemma sanitize_span_err ids s e :
  ended_at s ≠ None → sanitize_span key ids s = Err e → e = SanitizationRejected.
Proof.
  intros He. unfold sanitize_span. intros [H|(n & _ & H)]%rbind_err; [by eapply sanitize_name_err|].
  destruct (ended_at s); [|done]. cbn [from_option_or rbind] in H.
  apply rbind_err in H as [H|(? & _ & [=])]. by eapply sanitize_attributes_err.
Qed.

Lemma validated_ended spans s : validate_graph spans = Ok tt → s ∈ spans → ended_at s ≠ None.
Proof.
  unfold validate_graph. intros H Hs. res_inv.
  pose proof (proj1 (check_all_ok (check_span spans) spans) H s Hs) as Hc.
  unfold check_span in Hc. res_inv. by bool_prop.
Qed.

(** C39: sanitizing terminates, and it either rejects the trace or, only when some
    span names a parent outside the trace, dies of a [KeyError]; no other
    exception is possible. *)
Theorem sanitize_rejects_or_key_error e x :
  sanitize key e = Err x →
  x = SanitizationRejected ∨ (x = PyKeyError ∧ dangling (te_spans e)).
Proof.
  unfold sanitize. intros [H|([] & Hg & H)]%rbind_err; [by apply validate_graph_err|].
  destruct (roots (te_spans e)) as [|r rs] eqn:Hr.
  { apply graph_accepted_iff_tree in Hg as (_ & Hl & _). by rewrite Hr in Hl. }
  cbn [head from_option_or rbind] in H. apply rbind_err in H as [H|(? & _ & [=])].
  apply rmapM_err in H as (s & Hs%sort_by_elem & H). left.
  eapply sanitize_span_err; [|exact H]. by eapply validated_ended.
Qed.
End Sanitize.

(** ** What an accepted trace shows *)

(** The pattern matches somewhere in the text. *)
Definition occurs (r : regex) (s : string) : Prop :=
  (∃ p' s', matched r None s p' s') ∨
  ∃ pre c rest p' s', s = pre +:+ String c rest ∧ matched r (Some c) rest p' s'.

Definition harmless (text : string) : Prop :=
  ∀ r, r ∈ SENSITIVE_VALUE_PATTERNS → ¬ occurs r text.

Lemma not_sensitive text : sensitive text = false → harmless text.
Proof.
  intros H r Hin Ho. apply search_from_spec in Ho. apply not_true_iff_false in H. apply H.
  apply existsb_exists. exists r. split; [by apply list_elem_of_In|done].
Qed.

Definition safe_attribute (kv : string * val) : Prop :=
  kv.1 ∈ ALLOWED_ATTRIBUTES ∧ bounded_scalar kv.2 = true ∧ harmless (scalar_text kv.2).

Lemma sanitize_attribute_ok kv kv' :
  sanitize_attribute kv = Ok kv' → kv' = kv ∧ safe_attribute kv.
Proof.
  unfold sanitize_attribute, scan_value. intros H.
  destruct (allowed_key kv.1) eqn:Ha; [|done]. destruct (bounded_scalar kv.2) eqn:Hb; [|done].
  destruct (sensitive (scalar_text kv.2)) eqn:Hs; [done|]. cbn [negb rbind] in H.
  injection H as <-. unfold allowed_key in Ha. bool_prop.
  split; [done|]. split_and!; [done|done|by apply not_sensitive].
Qed.

Lemma sanitize_attributes_ok attrs kept :
  sanitize_attributes attrs = Ok kept → kept = sort_keys attrs ∧ Forall safe_attribute attrs.
Proof.
  unfold sanitize_attributes. intros H. apply rbind_ok in H as (l & H & [= <-]).
  apply rmapM_ok in H. assert (l = attrs ∧ Forall safe_attribute attrs) as [-> ?]; [|done].
  induction H as [|kv kv' attrs l Hk _ [-> Hall]]; [done|].
  apply sanitize_attribute_ok in Hk as [-> Hk]. by split; [|constructor].
Qed.

Lemma Forall2_elem_l {A B} (P Q : A → B → Prop) l k :
  Forall2 P l k → (∀ x y, x ∈ l → P x y → Q x y) → Forall2 Q l k.
Proof.
  induction 1 as [|x y l k Hxy _ IH]; intros H; constructor.
  - apply H; [left|done].
  - apply IH. intros x' y' Hx. apply H. by right.
Qed.

Section Shows.
Context (key : string).

(** How a span of the envelope [s] appears in the sanitized trace. *)
Definition shown (s : SpanRecord) (t : SanitizedSpan) : Prop :=
  ss_span_ref t = ref_ key "span" (span_id s) 24 ∧
  ss_parent_span_ref t = option_map (λ p, ref_ key "span" p 24) (parent_span_id s) ∧
  ss_name t = span_name s ∧ (∃ p, matched SAFE_NAME None (span_name s) p "") ∧
  startswith (span_name s) (STAGE_PREFIX (span_stage s)) = true ∧ harmless (span_name s) ∧
  ss_attributes t = sort_keys (attributes s) ∧ Forall safe_attribute (attributes s).

Lemma sanitize_span_ok spans s t :
  NoDup (ids spans) → (∃ n, depth spans n (span_id s)) → s ∈ spans →
  sanitize_span key (by_id spans) s = Ok t → shown s t.
Proof.
  intros Hn [n Hd] Hs H. unfold sanitize_span in H.
  apply rbind_ok in H as (name & Hname & H). apply rbind_ok in H as (ended & _ & H).
  apply rbind_ok in H as (attrs & Hattrs & H). injection H as <-.
  apply sanitize_attributes_ok in Hattrs as [-> Hsafe].
  unfold sanitize_name, scan_value in Hname.
  destruct (fullmatch SAFE_NAME (span_name s)) eqn:Hm; [|done].
  destruct (startswith (span_name s) _) eqn:Hp; [|done].
  destruct (sensitive (span_name s)) eqn:Hse; [done|]. cbn [negb orb rbind] in Hname.
  injection Hname as <-. unfold shown.
  cbn [ss_span_ref ss_parent_span_ref ss_name ss_attributes].
  split_and!; [done| |done| |done|by apply not_sensitive|done|done].
  - destruct (parent_span_id s) as [p|] eqn:Hpar; [|done].
    inversion Hd as [s' Hs' Hp' He'|s' p' n' Hs' Hp' Hd' He1 He']; subst;
      (assert (s' = s) as -> by (by apply (span_unique spans))); [congruence|].
    assert (p' = p) as -> by congruence. apply depth_span in Hd'.
    destruct (by_id spans !! p) eqn:Hb; [done|]. by apply by_id_none in Hb.
  - by apply fullmatch_spec.
Qed.

Lemma sanitized_facts e t :
  sanitize key e = Ok t →
  completed_tree (te_spans e) ∧
  (∃ spans, spans ≡ₚ te_spans e ∧ Forall2 shown spans (st_spans t)) ∧
  st_trace_ref t = ref_ key "trace" (te_trace_id e) 24 ∧
  st_tenant_ref t = ref_ key "tenant" (te_tenant_id e) 24 ∧
  st_incident_ref t = optional_ref key "incident" (te_incident_id e) ∧
  st_payload_digest t = sha256_hex (content_bytes t).
Proof.
  unfold sanitize. intros H. apply rbind_ok in H as ([] & Hg & H).
  apply rbind_ok in H as (root & _ & H). apply rbind_ok in H as (out & Hspans & H).
  injection H as <-. apply graph_accepted_iff_tree in Hg as Ht.
  split_and!; [done| |done|done|done|].
  - exists (sort_by span_le (te_spans e)). split; [apply sort_by_perm|].
    cbn [st_spans]. apply rmapM_ok in Hspans. destruct Ht as (Hn & _ & Hall).
    apply (Forall2_elem_l _ _ _ _ Hspans). intros s t' Hs%sort_by_elem Hst.
    eapply sanitize_span_ok; [done| |done|done]. by apply Hall.
  - unfold content_bytes, document. by rewrite app_nil_r.
Qed.

End Shows.

(** ** Witnesses *)

Definition demo_span (id : string) (parent : option string) : SpanRecord :=
  {| span_id := id; parent_span_id := parent; span_name := "api.incident.create"; span_stage := API;
     started_at := 0; ended_at := Some 1000%Z; span_status := SPAN_OK;
     attributes := [("outcome", VStr "accepted"); ("http.route", VStr "/v1/incidents")] |}.
Definition demo_envelope (spans : list SpanRecord) : TraceEnvelope :=
  {| te_trace_id := "trace_1"; te_tenant_id := "ten_1"; te_correlation_id := "cor_1";
     te_causation_id := None; te_incident_id := None; te_task_id := None; te_action_id := None;
     te_contracts_version := "1.1.0"; te_candidate_sha := "abc"; te_spans := spans;
     te_emitted_at := 2000 |}.
Definition demo_tree : list SpanRecord := [demo_span "span_2" (Some "span_1"); demo_span "span_1" None].


(** A grandparent outside the trace, read before its child is checked. *)
Definition demo_dangling : list SpanRecord :=
  [demo_span "span_1" None; demo_span "span_3" (Some "span_2"); demo_span "span_2" (Some "span_9")].

Lemma sanitize_rejects_or_key_error_witness :
  sanitize "k" (demo_envelope demo_dangling) = Err PyKeyError ∧
  (PyKeyError = SanitizationRejected ∨
   (PyKeyError = PyKeyError ∧ dangling (te_spans (demo_envelope demo_dangling)))).
Proof.
  assert (H : sanitize "k" (demo_envelope demo_dangling) = Err PyKeyError) by (vm_compute; reflexivity).
  split; [exact H|]. exact (sanitize_rejects_or_key_error "k" _ _ H).
Defined.
