(* ===== verification/Cipher.v ===== *)
(** * Sealed traces: [PayloadCipher] of [src/faultwitness/observability/buffer.py]

    The AES-GCM primitive is a parameter: [encrypt] and [decrypt] take the key,
    the nonce, the text and the associated data, and [decrypt] is [None] on
    [InvalidTag].  [os.urandom(12)] is the nonce argument of [seal]. *)
From S2P Require Import Prelude Json JsonFacts Sha256 PyDyn PyCalendar Regex Sanitizer.
From S2P Require Import SanitizerFacts.

Record EncryptedPayload := {
  ep_key_id : string;
  ep_nonce : string;
  ep_ciphertext : string;
  ep_payload_digest : string;
  ep_format_version : Z;
}.

Record PayloadCipher := { key_id : string; aead_key : string }.

(** The exceptions of the trace buffer.  [PyDocumentError] is the [KeyError] or
    [TypeError] of a decrypted document that has not the fields of a trace. *)
Inductive buffer_error : Type :=
| BufferFull
| PayloadConflict
| PyValueError
| InvalidTag
| PyDocumentError
| DeliveryKeyError
| CheckViolation
| NotConnected.

(** [PayloadCipher.__init__] *)
Definition new_cipher (id key : string) : result buffer_error PayloadCipher :=
  raise_if negb (str_len key =? 32)%Z with_ PyValueError;;
  raise_if negb (truthy id) || (64 <? str_len id)%Z with_ PyValueError;;
  Ok {| key_id := id; aead_key := key |}.

(** ** [SanitizedTrace.from_document] *)

Definition field (k : string) (d : mapping) : option string :=
  match dfind k d with Some (VStr s) => Some s | _ => None end.
Definition optional_field (k : string) (d : mapping) : option (option string) :=
  match dfind k d with Some (VStr s) => Some (Some s) | Some VNone => Some None | _ => None end.
Definition entry (kv : val * val) : option (string * val) :=
  match kv with (VStr k, v) => Some (k, v) | _ => None end.
Definition attributes_field (d : mapping) : option (list (string * val)) :=
  match dfind "attributes" d with Some (VDict a) => mapM entry a | _ => None end.

(** The keyword arguments must be exactly the fields; a field of another type
    than its annotation is refused here, which the dataclass does not do. *)
Definition span_from_document (v : val) : option SanitizedSpan :=
  match v with
  | VDict d =>
      if Nat.eqb (length d) 10 then
        span_ref ← field "span_ref" d; remote ← field "remote_id" d;
        otlp ← field "otlp_span_id" d; parent ← optional_field "parent_span_ref" d;
        name ← field "name" d; stage ← field "stage" d; started ← field "started_at" d;
        ended ← field "ended_at" d; status ← field "status" d; attrs ← attributes_field d;
        Some {| ss_span_ref := span_ref; ss_remote_id := remote; ss_otlp_span_id := otlp;
                ss_parent_span_ref := parent; ss_name := name; ss_stage := stage;
                ss_started_at := started; ss_ended_at := ended; ss_status := status;
                ss_attributes := attrs |}
      else None
  | _ => None
  end.

Definition spans_field (d : mapping) : option (list SanitizedSpan) :=
  match dfind "spans" d with Some (VList l) => mapM span_from_document l | _ => None end.

Definition from_document (v : val) : option SanitizedTrace :=
  match v with
  | VDict d =>
      spans ← spans_field d;
      if Nat.eqb (length d) 15 then
        version ← field "schema_version" d; ref ← field "trace_ref" d;
        remote ← field "remote_trace_id" d; otlp ← field "otlp_trace_id" d;
        tenant ← field "tenant_ref" d; correlation ← field "correlation_ref" d;
        causation ← optional_field "causation_ref" d; incident ← optional_field "incident_ref" d;
        task ← optional_field "task_ref" d; action ← optional_field "action_ref" d;
        contracts ← field "contracts_version" d; candidate ← field "candidate_sha" d;
        emitted ← field "emitted_at" d; digest ← field "payload_digest" d;
        Some {| st_schema_version := version; st_trace_ref := ref; st_remote_trace_id := remote;
                st_otlp_trace_id := otlp; st_tenant_ref := tenant;
                st_correlation_ref := correlation; st_causation_ref := causation;
                st_incident_ref := incident; st_task_ref := task; st_action_ref := action;
                st_contracts_version := contracts; st_candidate_sha := candidate;
                st_emitted_at := emitted; st_spans := spans; st_payload_digest := digest |}
      else None
  | _ => None
  end.

(** ** [seal] and [open] *)

Section Cipher.
Context (encrypt : string → string → string → string → string).
Context (decrypt : string → string → string → string → option string).

Definition associated_data (trace_ref digest : string) : string :=
  utf8 ("faultwitness-trace:v1:" +:+ trace_ref +:+ ":" +:+ digest).

Definition seal (c : PayloadCipher) (nonce : string) (t : SanitizedTrace) :
    result buffer_error EncryptedPayload :=
  let digest := sha256_hex (content_bytes t) in
  raise_if negb (bool_decide (digest = st_payload_digest t)) with_ PyValueError;;
  Ok {| ep_key_id := key_id c; ep_nonce := nonce;
        ep_ciphertext := encrypt (aead_key c) nonce (canonical_bytes t)
                           (associated_data (st_trace_ref t) digest);
        ep_payload_digest := digest; ep_format_version := 1 |}.

Definition open (c : PayloadCipher) (trace_ref : string) (p : EncryptedPayload) :
    result buffer_error SanitizedTrace :=
  raise_if negb (ep_format_version p =? 1)%Z || negb (bool_decide (ep_key_id p = key_id c))
    with_ PyValueError;;
  let* body := from_option_or InvalidTag
    (decrypt (aead_key c) (ep_nonce p) (ep_ciphertext p)
       (associated_data trace_ref (ep_payload_digest p))) in
  let* doc := from_option_or PyValueError (loads body) in
  let* t := from_option_or PyDocumentError (from_document doc) in
  raise_if negb (bool_decide (st_trace_ref t = trace_ref)) ||
           negb (bool_decide (st_payload_digest t = ep_payload_digest p)) ||
           negb (bool_decide (sha256_hex (content_bytes t) = ep_payload_digest p))
    with_ PyValueError;;
  Ok t.
End Cipher.

(** ** Reading back a printed object *)

Lemma sdict_entries_nodup (kvs : list (string * val)) k v :
  NoDup kvs.*1 → (k, v) ∈ kvs → dfind k ((λ kv, (VStr kv.1, kv.2)) <$> kvs) = Some v.
Proof.
  induction kvs as [|[k' v'] kvs IH]; [by intros _ ?%elem_of_nil|]. cbn.
  intros [Hn Hnd]%NoDup_cons [[= -> ->]|Hin]%elem_of_cons; [by rewrite bool_decide_eq_true_2|].
  rewrite bool_decide_eq_false_2; [auto|]. intros ->. apply Hn.
  apply list_elem_of_fmap. by exists (k, v).
Qed.

Lemma printed_sdict_perm st kvs :
  ∃ kvs', printed st (sdict kvs) = sdict kvs' ∧ kvs' ≡ₚ (λ kv, (kv.1, printed st kv.2)) <$> kvs.
Proof.
  unfold sdict at 1. cbn [printed].
  assert (omap (λ kv, match kv with (VStr k, x) => Some (k, printed st x) | _ => None end)
      ((λ kv : string * val, (VStr kv.1, kv.2)) <$> kvs) =
      (λ kv, (kv.1, printed st kv.2)) <$> kvs) as ->.
  { induction kvs as [|[k v] kvs IH]; [done|]. cbn. f_equal. done. }
  eexists. split; [done|]. destruct (sorted_keys st); [apply sort_by_perm|done].
Qed.

(** A member of the object is found in what parsing its text gives. *)
Lemma printed_member st kvs : NoDup kvs.*1 →
  ∃ d, printed st (sdict kvs) = VDict d ∧ length d = length kvs ∧
    ∀ k v, (k, v) ∈ kvs → dfind k d = Some (printed st v).
Proof.
  intros Hn. destruct (printed_sdict_perm st kvs) as (kvs' & -> & Hp).
  eexists. split; [done|]. split.
  - by rewrite length_fmap, Hp, length_fmap.
  - intros k v Hin. apply sdict_entries_nodup.
    + rewrite Hp, <-list_fmap_compose. done.
    + rewrite Hp. apply list_elem_of_fmap. by exists (k, v).
Qed.

(** ** Round trip *)

(** JSON scalars: what a sanitized attribute may hold. *)
Definition plain (v : val) : bool :=
  match v with VList _ | VDict _ | VOther _ => false | _ => json_ok v end.
Definition attributes_wf (attrs : list (string * val)) : Prop :=
  NoDup attrs.*1 ∧ sort_keys attrs = attrs ∧ Forall (λ kv, plain kv.2 = true) attrs.
Definition trace_wf (t : SanitizedTrace) : Prop :=
  Forall (λ s, attributes_wf (ss_attributes s)) (st_spans t).

Lemma mapM_back {A B} (f : A → option B) (g : B → A) l :
  Forall (λ x, f (g x) = Some x) l → mapM f (g <$> l) = Some l.
Proof. induction 1 as [|x l Hx _ IH]; [done|]. rewrite fmap_cons. simpl. by rewrite Hx, IH. Qed.

Lemma printed_plain st v : plain v = true → printed st v = v.
Proof. by destruct v. Qed.
Lemma json_ok_plain v : plain v = true → json_ok v = true.
Proof. by destruct v. Qed.

Lemma printed_attributes attrs :
  attributes_wf attrs → printed canonical_style (sdict attrs) = sdict attrs.
Proof.
  intros (_ & Hs & Hall). unfold sdict at 1. cbn [printed].
  assert (omap (λ kv, match kv with
      | (VStr k, x) => Some (k, printed canonical_style x) | _ => None end)
      ((λ kv : string * val, (VStr kv.1, kv.2)) <$> attrs) = attrs) as ->.
  { clear Hs. induction Hall as [|[k v] attrs Hv _ IH]; [done|]. cbn in *.
    by rewrite (printed_plain _ v Hv), IH. }
  cbn [sorted_keys canonical_style]. by rewrite Hs.
Qed.

Lemma entries_back (attrs : list (string * val)) :
  mapM entry ((λ kv : string * val, (VStr kv.1, kv.2)) <$> attrs) = Some attrs.
Proof. apply mapM_back, Forall_forall. by intros [k v] _. Qed.

Lemma json_ok_attributes attrs : attributes_wf attrs → json_ok (sdict attrs) = true.
Proof.
  intros (Hn & _ & Hall). apply json_ok_sdict; [done|]. apply Forall_fmap.
  eapply Forall_impl; [exact Hall|]. intros kv. apply json_ok_plain.
Qed.

Ltac in_document :=
  unfold span_document, document, content_document; cbn [app];
  repeat first [apply list_elem_of_here|apply list_elem_of_further].
Ltac nodup_keys := apply (bool_decide_eq_true_1 _); vm_compute; reflexivity.

Lemma span_keys s : NoDup (span_document s).*1.
Proof. cbn. nodup_keys. Qed.
Lemma document_keys b t : NoDup (document b t).*1.
Proof. destruct b; cbn; nodup_keys. Qed.

Lemma optional_field_found k d o :
  dfind k d = Some (opt_str o) → optional_field k d = Some o.
Proof. unfold optional_field. intros ->. by destruct o. Qed.
Lemma field_found k d s : dfind k d = Some (VStr s) → field k d = Some s.
Proof. unfold field. by intros ->. Qed.

(** The members of a printed object, field by field. *)
Lemma printed_fields st kvs : NoDup kvs.*1 →
  ∃ d, printed st (sdict kvs) = VDict d ∧ length d = length kvs ∧
    (∀ k s, (k, VStr s) ∈ kvs → field k d = Some s) ∧
    (∀ k o, (k, opt_str o) ∈ kvs → optional_field k d = Some o) ∧
    ∀ k v, (k, v) ∈ kvs → dfind k d = Some (printed st v).
Proof.
  intros Hn. destruct (printed_member st kvs Hn) as (d & He & Hl & Hf). exists d.
  split_and!; [done|done| | |done].
  - intros k s Hin. apply field_found. by rewrite (Hf _ _ Hin).
  - intros k o Hin. apply optional_field_found. by rewrite (Hf _ _ Hin), printed_opt_str.
Qed.

(** Read field [k] of the parser with [H], one of the facts above. *)
Ltac read H k x := rewrite (H k x) by in_document; cbn [mbind option_bind].

Lemma span_from_document_ok s :
  attributes_wf (ss_attributes s) →
  span_from_document (printed canonical_style (sdict (span_document s))) = Some s.
Proof.
  intros Ha. destruct (printed_fields canonical_style _ (span_keys s)) as (d & -> & Hl & Hs & Ho & Hf).
  unfold span_from_document. rewrite Hl. cbn [Nat.eqb length span_document].
  read Hs "span_ref" (ss_span_ref s). read Hs "remote_id" (ss_remote_id s).
  read Hs "otlp_span_id" (ss_otlp_span_id s). read Ho "parent_span_ref" (ss_parent_span_ref s).
  read Hs "name" (ss_name s). read Hs "stage" (ss_stage s).
  read Hs "started_at" (ss_started_at s). read Hs "ended_at" (ss_ended_at s).
  read Hs "status" (ss_status s).
  unfold attributes_field. rewrite (Hf _ (sdict (ss_attributes s))) by in_document.
  rewrite (printed_attributes _ Ha). cbn [sdict]. rewrite entries_back. cbn [mbind option_bind].
  by destruct s.
Qed.

Lemma spans_back spans :
  Forall (λ s, attributes_wf (ss_attributes s)) spans →
  mapM span_from_document (printed canonical_style <$> (sdict ∘ span_document <$> spans)) =
    Some spans.
Proof.
  intros Hs. rewrite <-list_fmap_compose. apply mapM_back.
  eapply Forall_impl; [exact Hs|]. apply span_from_document_ok.
Qed.

Lemma from_document_ok t :
  trace_wf t → from_document (printed canonical_style (sdict (document true t))) = Some t.
Proof.
  intros Ht. destruct (printed_fields canonical_style _ (document_keys true t)) as (d & -> & Hl & Hs & Ho & Hf).
  unfold from_document, spans_field.
  rewrite (Hf _ (VList (sdict ∘ span_document <$> st_spans t))) by in_document.
  cbn [printed]. rewrite (spans_back _ Ht). cbn [mbind option_bind].
  rewrite Hl. cbn [Nat.eqb length document content_document app].
  read Hs "schema_version" (st_schema_version t). read Hs "trace_ref" (st_trace_ref t).
  read Hs "remote_trace_id" (st_remote_trace_id t). read Hs "otlp_trace_id" (st_otlp_trace_id t).
  read Hs "tenant_ref" (st_tenant_ref t). read Hs "correlation_ref" (st_correlation_ref t).
  read Ho "causation_ref" (st_causation_ref t). read Ho "incident_ref" (st_incident_ref t).
  read Ho "task_ref" (st_task_ref t). read Ho "action_ref" (st_action_ref t).
  read Hs "contracts_version" (st_contracts_version t). read Hs "candidate_sha" (st_candidate_sha t).
  read Hs "emitted_at" (st_emitted_at t). read Hs "payload_digest" (st_payload_digest t). by destruct t.
Qed.

Lemma json_ok_document t : trace_wf t → json_ok (sdict (document true t)) = true.
Proof.
  intros Ht. apply json_ok_sdict; [apply document_keys|]. cbn.
  repeat (constructor; [by auto with fw|]). constructor; [|by repeat constructor].
  cbn [json_ok]. apply forallb_Forall_true, Forall_fmap. eapply Forall_impl; [exact Ht|].
  intros s Ha. apply json_ok_sdict; [apply span_keys|]. cbn.
  repeat (constructor; [by auto with fw|]). constructor; [by apply json_ok_attributes|constructor].
Qed.

Lemma canonical_bytes_back t :
  trace_wf t → loads (canonical_bytes t) = Some (printed canonical_style (sdict (document true t))).
Proof.
  intros Ht. pose proof (json_ok_document t Ht) as Hok.
  apply (loads_dumps _ _ _ Hok). by apply canonical_json_some.
Qed.

Section RoundTrip.
Context (encrypt : string → string → string → string → string).
Context (decrypt : string → string → string → string → option string).
Context (Haead : ∀ k n m a, decrypt k n (encrypt k n m a) a = Some m).

(** A sealed trace opens to itself, under its own reference only. *)
Lemma open_seal c nonce t p :
  trace_wf t → seal encrypt c nonce t = Ok p → open decrypt c (st_trace_ref t) p = Ok t.
Proof using Haead.
  intros Ht. unfold seal, open. intros H. res_inv. bool_prop.
  cbn [ep_format_version ep_key_id ep_nonce ep_ciphertext ep_payload_digest].
  rewrite bool_decide_eq_true_2 by done. rewrite Haead. cbn [from_option_or rbind negb orb].
  rewrite (canonical_bytes_back _ Ht). cbn [from_option_or rbind].
  rewrite (from_document_ok _ Ht). cbn [from_option_or rbind].
  rewrite !bool_decide_eq_true_2 by congruence. done.
Qed.
End RoundTrip.

(** What [open] returns is what its arguments name. *)
Lemma open_ok decrypt c ref p t :
  open decrypt c ref p = Ok t →
  st_trace_ref t = ref ∧ st_payload_digest t = ep_payload_digest p ∧
  sha256_hex (content_bytes t) = st_payload_digest t ∧ ep_key_id p = key_id c.
Proof. unfold open. intros H. res_inv. bool_prop. split_and!; congruence. Qed.

(** ** Sanitized traces are well formed *)

Definition envelope_wf (e : TraceEnvelope) : Prop :=
  Forall (λ s, NoDup (attributes s).*1 ∧ Forall (λ kv, json_ok kv.2 = true) (attributes s))
    (te_spans e).

Lemma Forall2_elem_r {A B} (P : A → B → Prop) l k y :
  Forall2 P l k → y ∈ k → ∃ x, x ∈ l ∧ P x y.
Proof.
  intros HP [i Hi]%list_elem_of_lookup. destruct (Forall2_lookup_r _ _ _ _ _ HP Hi) as (x & Hx & ?).
  exists x. split; [by eapply list_elem_of_lookup_2|done].
Qed.

Lemma sanitized_wf key e t : envelope_wf e → sanitize key e = Ok t → trace_wf t.
Proof.
  intros Hwf H. unfold sanitize in H. apply rbind_ok in H as ([] & _ & H).
  apply rbind_ok in H as (root & _ & H). apply rbind_ok in H as (out & Hout & H).
  injection H as <-. apply rmapM_ok in Hout. unfold trace_wf. cbn [st_spans].
  apply Forall_forall. intros t' Ht'.
  destruct (Forall2_elem_r _ _ _ _ Hout Ht') as (s & Hs%sort_by_elem & H).
  unfold sanitize_span in H. apply rbind_ok in H as (name & _ & H).
  apply rbind_ok in H as (ended & _ & H). apply rbind_ok in H as (attrs & Ha & H).
  injection H as <-. cbn [ss_attributes].
  apply sanitize_attributes_ok in Ha as [-> Hsafe].
  unfold envelope_wf in Hwf. rewrite Forall_forall in Hwf. destruct (Hwf s Hs) as [Hn Hj]. split_and!.
  - by rewrite sort_keys_perm.
  - apply sort_keys_idem.
  - rewrite sort_keys_perm. eapply Forall_impl; [exact (proj2 (Forall_and _ _) (conj Hsafe Hj))|].
    intros kv [(_ & Hb & _) Hk]. by destruct kv.2.
Qed.

Section Sealed.
Context (encrypt : string → string → string → string → string).
Context (decrypt : string → string → string → string → option string).
Context (Haead : ∀ k n m a, decrypt k n (encrypt k n m a) a = Some m).

Lemma seal_sanitized key e t c nonce :
  sanitize key e = Ok t → ∃ p, seal encrypt c nonce t = Ok p ∧ ep_payload_digest p = st_payload_digest t.
Proof.
  intros (_ & _ & _ & _ & _ & Hd)%sanitized_facts. unfold seal.
  rewrite bool_decide_eq_true_2 by done. eexists. split; [done|]. done.
Qed.

(** a sanitized trace can be sealed, and the payload opens to that trace
    under its reference. Whatever the primitive does with other references, what
    [open] returns for the payload has the sealed content, unless SHA-256 has a
    collision. *)
Theorem sealed_trace_opens key e t c nonce :
  envelope_wf e → sanitize key e = Ok t →
  ∃ p, seal encrypt c nonce t = Ok p ∧ open decrypt c (st_trace_ref t) p = Ok t ∧
    ∀ ref t', open decrypt c ref p = Ok t' →
      st_trace_ref t' = ref ∧
      (content_bytes t' = content_bytes t ∨
       sha256_collision (content_bytes t') (content_bytes t)).
Proof using Haead.
  intros Hwf Ht. destruct (seal_sanitized _ _ _ c nonce Ht) as (p & Hp & Hd). exists p.
  split_and!; [done|by apply (open_seal _ _ Haead c nonce); [by eapply sanitized_wf|]|].
  intros ref t' Ho. apply open_ok in Ho as (Href & Hd' & Hs & _). split; [done|].
  apply sanitized_facts in Ht as (_ & _ & _ & _ & _ & Hdt).
  apply sha256_equal_or_collision. congruence.
Qed.
End Sealed.

(** A concrete primitive: the text tagged with everything it was sealed under. *)
Definition demo_tag (k n a : string) : string := k +:+ "|" +:+ n +:+ "|" +:+ a +:+ "|".
Definition demo_encrypt (k n m a : string) : string := demo_tag k n a +:+ m.
Definition demo_decrypt (k n c a : string) : option string :=
  if startswith c (demo_tag k n a) then Some (str_drop (String.length (demo_tag k n a)) c) else None.

Lemma demo_aead k n m a : demo_decrypt k n (demo_encrypt k n m a) a = Some m.
Proof. unfold demo_decrypt, demo_encrypt. by rewrite startswith_app, str_drop_app. Qed.

Definition demo_cipher : PayloadCipher := {| key_id := "k1"; aead_key := "key" |}.

Lemma demo_envelope_wf : envelope_wf (demo_envelope demo_tree).
Proof. repeat constructor; (apply (bool_decide_eq_true_1 _); vm_compute; reflexivity) || done. Qed.

Lemma sealed_trace_opens_witness :
  ∃ t p, sanitize "k" (demo_envelope demo_tree) = Ok t ∧
    seal demo_encrypt demo_cipher "nonce" t = Ok p ∧ open demo_decrypt demo_cipher (st_trace_ref t) p = Ok t.
Proof.
  assert (Hok : is_ok (sanitize "k" (demo_envelope demo_tree)) = true) by (vm_compute; reflexivity).
  destruct (sanitize "k" (demo_envelope demo_tree)) as [t|x] eqn:H; [|discriminate Hok].
  destruct (sealed_trace_opens demo_encrypt demo_decrypt demo_aead "k" _ t demo_cipher "nonce"
    demo_envelope_wf H) as (p & Hs & Ho & _).
  exists t, p. split; [reflexivity|]. split; [exact Hs|exact Ho].
Defined.
