(* ===== verification/Buffer.v ===== *)
(** * The trace buffers: [src/faultwitness/observability/buffer.py]

    [InMemoryTraceBuffer] and [PostgresTraceBuffer] (the tables of
    [migrations/003_i0013_observability.sql]) as operations with state and
    exceptions.  Each runs under a lock or in one transaction, so it is one step.
    The clock of a call is its [now], in microseconds. *)
From S2P Require Import Prelude Json Sha256 PyCalendar Sanitizer Cipher.

Inductive DeliverySink := LANGSMITH | OTLP | ARCHIVE.
#[export] Instance sink_eq_dec : EqDecision DeliverySink.
Proof. solve_decision. Defined.
#[export] Instance sink_countable : Countable DeliverySink.
Proof.
  refine (inj_countable' (λ s, match s with LANGSMITH => 0%nat | OTLP => 1%nat | ARCHIVE => 2%nat end)
    (λ n, match n with O => LANGSMITH | 1%nat => OTLP | _ => ARCHIVE end) _).
  by intros [].
Defined.
Definition all_sinks : list DeliverySink := [LANGSMITH; OTLP; ARCHIVE].
Definition sink_value (s : DeliverySink) : string :=
  match s with LANGSMITH => "langsmith" | OTLP => "otlp" | ARCHIVE => "archive" end.

Inductive delivery_state := PENDING | LEASED | ACKED.
#[export] Instance delivery_state_eq_dec : EqDecision delivery_state.
Proof. solve_decision. Defined.

(** The [Delivery] a claim returns. *)
Record Delivery := {
  dl_trace : SanitizedTrace;
  dl_sink : DeliverySink;
  dl_attempt_count : Z;
}.

Definition seconds (n : Z) : Z := (n * MICRO)%Z.

(** ** [InMemoryTraceBuffer] *)

Record MemoryDelivery := {
  md_state : delivery_state;
  md_attempt_count : Z;
  md_lease_until : option Z;
  md_last_error_code : option string;
}.
Definition new_delivery : MemoryDelivery :=
  {| md_state := PENDING; md_attempt_count := 0; md_lease_until := None;
     md_last_error_code := None |}.

(** A record's [deliveries] has an entry for every sink. *)
Record MemoryRecord := {
  mr_payload : EncryptedPayload;
  mr_deliveries : DeliverySink → MemoryDelivery;
}.
Definition set_delivery (sink : DeliverySink) (d : MemoryDelivery) (r : MemoryRecord) : MemoryRecord :=
  {| mr_payload := mr_payload r;
     mr_deliveries := λ s, if decide (s = sink) then d else mr_deliveries r s |}.

Abbreviation MemoryTraceBuffer := (gmap string MemoryRecord).
Abbreviation MemM := (SE MemoryTraceBuffer buffer_error).

(** [any(delivery.state != "ACKED" for delivery in record.deliveries.values())] *)
Definition unfinished (r : MemoryRecord) : bool :=
  existsb (λ s, negb (bool_decide (md_state (mr_deliveries r s) = ACKED))) all_sinks.
Definition pending_traces (m : MemoryTraceBuffer) : Z :=
  Z.of_nat (length (List.filter (λ kv, unfinished kv.2) (map_to_list m))).

Definition leased (now until : Z) (d : MemoryDelivery) : MemoryDelivery :=
  {| md_state := LEASED; md_attempt_count := md_attempt_count d; md_lease_until := Some until;
     md_last_error_code := md_last_error_code d |}.
Definition acked (d : MemoryDelivery) : MemoryDelivery :=
  {| md_state := ACKED; md_attempt_count := md_attempt_count d; md_lease_until := None;
     md_last_error_code := None |}.
Definition retried (code : string) (d : MemoryDelivery) : MemoryDelivery :=
  {| md_state := PENDING; md_attempt_count := md_attempt_count d + 1; md_lease_until := None;
     md_last_error_code := Some code |}.

(** A delivery [claim] passes over. *)
Definition unavailable (now : Z) (d : MemoryDelivery) : bool :=
  bool_decide (md_state d = ACKED) ||
  (bool_decide (md_state d = LEASED) &&
   match md_lease_until d with Some until => (now <? until)%Z | None => false end).

Section Memory.
Context (encrypt : string → string → string → string → string).
Context (decrypt : string → string → string → string → option string).
Context (cipher : PayloadCipher) (capacity : Z).

Definition mem_enqueue (nonce : string) (t : SanitizedTrace) : MemM bool :=
  let! encrypted := slift (seal encrypt cipher nonce t) in
  let! m := sget in
  match m !! st_trace_ref t with
  | Some prior =>
      sguard (negb (bool_decide (ep_payload_digest (mr_payload prior) = st_payload_digest t)))
        PayloadConflict ;;;
      sret false
  | None =>
      sguard (capacity <=? pending_traces m)%Z BufferFull ;;;
      smodify <[st_trace_ref t := {| mr_payload := encrypted; mr_deliveries := λ _, new_delivery |}]> ;;;
      sret true
  end.

(** The loop of [claim] over [sorted(self._records.items())]; a record that does
    not open leaves the deliveries leased so far behind. *)
Fixpoint claim_loop (sink : DeliverySink) (limit now until : Z) (refs : list (string * MemoryRecord))
    (claimed : list Delivery) : MemM (list Delivery) :=
  match refs with
  | [] => sret claimed
  | (ref, record) :: rest =>
      let d := mr_deliveries record sink in
      if unavailable now d then claim_loop sink limit now until rest claimed
      else
        smodify (alter (λ r, set_delivery sink (leased now until (mr_deliveries r sink)) r) ref) ;;;
        let! t := slift (open decrypt cipher ref (mr_payload record)) in
        let claimed := claimed ++ [{| dl_trace := t; dl_sink := sink;
                                      dl_attempt_count := md_attempt_count d |}] in
        if (limit <=? Z.of_nat (length claimed))%Z then sret claimed
        else claim_loop sink limit now until rest claimed
  end.

Definition mem_claim (sink : DeliverySink) (limit lease_seconds now : Z) : MemM (list Delivery) :=
  let! m := sget in
  claim_loop sink limit now (now + seconds lease_seconds)%Z (sort_keys (map_to_list m)) [].

(** [self._records[trace_ref].deliveries[sink]] changed by [f] *)
Definition on_delivery (ref : string) (sink : DeliverySink) (f : MemoryDelivery → MemoryDelivery) :
    MemM unit :=
  let! m := sget in
  match m !! ref with
  | Some r => smodify <[ref := set_delivery sink (f (mr_deliveries r sink)) r]>
  | None => sraise DeliveryKeyError
  end.

Definition mem_acknowledge (ref : string) (sink : DeliverySink) : MemM unit :=
  on_delivery ref sink acked.

Definition bad_code (code : string) : bool := negb (truthy code) || (64 <? str_len code)%Z.

Definition mem_retry (ref : string) (sink : DeliverySink) (code : string) : MemM unit :=
  sguard (bad_code code) PyValueError ;;;
  on_delivery ref sink (retried code).
End Memory.

(** [status]: the un-acknowledged deliveries of each sink, and the traces. *)
Record buffer_status := { bs_sink : DeliverySink → Z; bs_traces : Z }.
Definition mem_status (m : MemoryTraceBuffer) : buffer_status :=
  {| bs_sink := λ s, Z.of_nat (length (List.filter
       (λ kv, negb (bool_decide (md_state (mr_deliveries kv.2 s) = ACKED))) (map_to_list m)));
     bs_traces := pending_traces m |}.

(** ** [PostgresTraceBuffer] *)

Record delivery_row := {
  dr_state : delivery_state;
  dr_attempt_count : Z;
  dr_next_attempt_at : Z;
  dr_leased_until : option Z;
  dr_acked_at : option Z;
  dr_last_error_code : option string;
  dr_created_at : Z;
}.

Record PostgresTraceBuffer := {
  pool_open : bool;
  t_trace_payload : gmap string EncryptedPayload;
  t_delivery : gmap (string * DeliverySink) delivery_row;
}.
Abbreviation PgBufM := (SE PostgresTraceBuffer buffer_error).

(** The CHECK constraints of the delivery table. *)
Definition row_allowed (r : delivery_row) : bool :=
  bool_decide (dr_state r = LEASED ↔ is_Some (dr_leased_until r)) &&
  bool_decide (dr_state r = ACKED ↔ is_Some (dr_acked_at r)) && (0 <=? dr_attempt_count r)%Z.

Definition connection : PgBufM unit :=
  let! s := sget in sguard (negb (pool_open s)) NotConnected.

Definition add_trace (ref : string) (p : EncryptedPayload) (now : Z) (s : PostgresTraceBuffer) :
    PostgresTraceBuffer :=
  let fresh := {| dr_state := PENDING; dr_attempt_count := 0; dr_next_attempt_at := now;
                  dr_leased_until := None; dr_acked_at := None; dr_last_error_code := None;
                  dr_created_at := now |} in
  {| pool_open := pool_open s; t_trace_payload := <[ref := p]> (t_trace_payload s);
     t_delivery := foldr (λ sink, <[(ref, sink) := fresh]>) (t_delivery s) all_sinks |}.
Definition set_row (key : string * DeliverySink) (r : delivery_row) (s : PostgresTraceBuffer) :
    PostgresTraceBuffer :=
  {| pool_open := pool_open s; t_trace_payload := t_trace_payload s;
     t_delivery := <[key := r]> (t_delivery s) |}.

(** [SELECT count( * ) FROM trace_payload p WHERE EXISTS (...)] *)
Definition row_unfinished (s : PostgresTraceBuffer) (ref : string) (sink : DeliverySink) : bool :=
  match t_delivery s !! (ref, sink) with
  | Some r => negb (bool_decide (dr_state r = ACKED))
  | None => false
  end.
Definition pg_pending_traces (s : PostgresTraceBuffer) : Z :=
  Z.of_nat (length (List.filter (λ kv, existsb (row_unfinished s kv.1) all_sinks)
                      (map_to_list (t_trace_payload s)))).

(** An UPDATE of one delivery row, refused by the constraints. *)
Definition update_row (key : string * DeliverySink) (f : delivery_row → delivery_row) : PgBufM bool :=
  let! s := sget in
  match t_delivery s !! key with
  | None => sret false
  | Some r =>
      sguard (negb (row_allowed (f r))) CheckViolation ;;;
      smodify (set_row key (f r)) ;;;
      sret true
  end.

Definition lease_row (until : Z) (r : delivery_row) : delivery_row :=
  {| dr_state := LEASED; dr_attempt_count := dr_attempt_count r;
     dr_next_attempt_at := dr_next_attempt_at r; dr_leased_until := Some until;
     dr_acked_at := dr_acked_at r; dr_last_error_code := dr_last_error_code r;
     dr_created_at := dr_created_at r |}.
Definition ack_row (now : Z) (r : delivery_row) : delivery_row :=
  {| dr_state := ACKED; dr_attempt_count := dr_attempt_count r;
     dr_next_attempt_at := dr_next_attempt_at r; dr_leased_until := None;
     dr_acked_at := Some now; dr_last_error_code := None; dr_created_at := dr_created_at r |}.
(** [LEAST(60, 1 << LEAST(attempt_count, 5))] seconds *)
Definition backoff (attempts : Z) : Z := Z.min 60 (Z.shiftl 1 (Z.min attempts 5)).
Definition retry_row (now : Z) (code : string) (r : delivery_row) : delivery_row :=
  {| dr_state := PENDING; dr_attempt_count := dr_attempt_count r + 1;
     dr_next_attempt_at := now + seconds (backoff (dr_attempt_count r)); dr_leased_until := None;
     dr_acked_at := dr_acked_at r; dr_last_error_code := Some code;
     dr_created_at := dr_created_at r |}.

(** The WHERE clause of the claim. *)
Definition claimable (now : Z) (r : delivery_row) : bool :=
  (bool_decide (dr_state r = PENDING) ||
   (bool_decide (dr_state r = LEASED) &&
    match dr_leased_until r with Some until => (until <? now)%Z | None => false end)) &&
  (dr_next_attempt_at r <=? now)%Z.

Section Postgres.
Context (encrypt : string → string → string → string → string).
Context (decrypt : string → string → string → string → option string).
Context (cipher : PayloadCipher) (capacity : Z).

Definition pg_enqueue (nonce : string) (t : SanitizedTrace) (now : Z) : PgBufM bool :=
  let! payload := slift (seal encrypt cipher nonce t) in
  connection ;;;
  atomically (
    let! s := sget in
    match t_trace_payload s !! st_trace_ref t with
    | Some prior =>
        sguard (negb (bool_decide (ep_payload_digest prior = st_payload_digest t))) PayloadConflict ;;;
        sret false
    | None =>
        sguard (capacity <=? pg_pending_traces s)%Z BufferFull ;;;
        smodify (add_trace (st_trace_ref t) payload now) ;;;
        sret true
    end).

(** [SELECT ... ORDER BY created_at FOR UPDATE SKIP LOCKED LIMIT n]; [locked] are
    the rows other transactions hold. *)
Definition selected (sink : DeliverySink) (limit now : Z) (locked : list string)
    (s : PostgresTraceBuffer) : list (string * delivery_row) :=
  take (Z.to_nat limit) (sort_by (λ a b, (dr_created_at a.2 <=? dr_created_at b.2)%Z)
    (omap (λ kv, match kv with
                 | ((ref, sk), r) =>
                     if bool_decide (sk = sink) && claimable now r && negb (bool_decide (ref ∈ locked))
                     then Some (ref, r) else None
                 end) (map_to_list (t_delivery s)))).

Definition open_row (sink : DeliverySink) (s : PostgresTraceBuffer) (row : string * delivery_row) :
    result buffer_error Delivery :=
  let* p := from_option_or DeliveryKeyError (t_trace_payload s !! row.1) in
  let* t := open decrypt cipher row.1 p in
  Ok {| dl_trace := t; dl_sink := sink; dl_attempt_count := dr_attempt_count row.2 |}.

(** The rows are leased in a transaction; they are opened after it, in the order
    of their references. *)
Definition pg_claim (sink : DeliverySink) (limit lease_seconds now : Z) (locked : list string) :
    PgBufM (list Delivery) :=
  connection ;;;
  let! s := sget in
  let rows := selected sink limit now locked s in
  sfor rows (λ row, smodify (set_row (row.1, sink) (lease_row (now + seconds lease_seconds) row.2))) ;;;
  let! s' := sget in
  slift (rmapM (open_row sink s') (sort_keys rows)).

Definition pg_acknowledge (ref : string) (sink : DeliverySink) (now : Z) : PgBufM unit :=
  connection ;;;
  let! updated := update_row (ref, sink) (ack_row now) in
  sguard (negb updated) DeliveryKeyError.

Definition pg_retry (ref : string) (sink : DeliverySink) (code : string) (now : Z) : PgBufM unit :=
  sguard (bad_code code) PyValueError ;;;
  connection ;;;
  let! _ := update_row (ref, sink) (retry_row now code) in
  sret tt.
End Postgres.

Definition pg_status (s : PostgresTraceBuffer) : buffer_status :=
  {| bs_sink := λ sink, Z.of_nat (length (List.filter
       (λ kv, bool_decide (kv.1.2 = sink) && negb (bool_decide (dr_state kv.2 = ACKED)))
       (map_to_list (t_delivery s))));
     bs_traces := pg_pending_traces s |}.
