(* ===== verification/TraceStore.v ===== *)
(** * What a client of a trace buffer may rely on

    [TraceStore] states the contract of the two buffers over a [vault]: the traces
    held and, for each, the sinks that acknowledged it.  The export service is
    verified against it; both buffers are instances. *)
From S2P Require Import Prelude Json Sha256 Sanitizer SanitizerFacts Cipher Buffer.

Record held := { held_trace : SanitizedTrace; held_acked : gset DeliverySink }.
Abbreviation vault := (gmap string held).

Definition hold (t : SanitizedTrace) : held := {| held_trace := t; held_acked := ∅ |}.
Definition mark (sink : DeliverySink) (h : held) : held :=
  {| held_trace := held_trace h; held_acked := {[sink]} ∪ held_acked h |}.
Definition unmark (sink : DeliverySink) (h : held) : held :=
  {| held_trace := held_trace h; held_acked := held_acked h ∖ {[sink]} |}.

(** A trace the sanitizer can have produced. *)
Definition trace_ok (t : SanitizedTrace) : Prop :=
  trace_wf t ∧ st_payload_digest t = sha256_hex (content_bytes t).

Class TraceStore (S : Type) : Type := {
  enqueue : string → SanitizedTrace → Z → SE S buffer_error bool;
  claim : DeliverySink → Z → Z → Z → list string → SE S buffer_error (list Delivery);
  acknowledge : string → DeliverySink → Z → SE S buffer_error unit;
  retry : string → DeliverySink → string → Z → SE S buffer_error unit;
  status : S → buffer_status;
  keeps_vault : S → vault → Prop;
  enqueue_law nonce t now s v r s' :
    keeps_vault s v → trace_ok t → enqueue nonce t now s = (r, s') →
    match r with
    | Ok true => v !! st_trace_ref t = None ∧ keeps_vault s' (<[st_trace_ref t := hold t]> v)
    | Ok false => keeps_vault s' v ∧
        ∃ h, v !! st_trace_ref t = Some h ∧
          st_payload_digest (held_trace h) = st_payload_digest t
    | Err _ => keeps_vault s' v
    end;
  claim_law sink limit lease now locked s v r s' :
    keeps_vault s v → claim sink limit lease now locked s = (r, s') →
    keeps_vault s' v ∧
    ∀ ds d, r = Ok ds → d ∈ ds → dl_sink d = sink ∧
      ∃ h, v !! st_trace_ref (dl_trace d) = Some h ∧ held_trace h = dl_trace d ∧
        sink ∉ held_acked h;
  acknowledge_law ref sink now s v r s' :
    keeps_vault s v → acknowledge ref sink now s = (r, s') →
    match r with
    | Ok _ => ∃ h, v !! ref = Some h ∧ keeps_vault s' (<[ref := mark sink h]> v)
    | Err _ => keeps_vault s' v
    end;
  retry_law ref sink code now s v r s' :
    keeps_vault s v → retry ref sink code now s = (r, s') →
    match r with
    | Ok _ => keeps_vault s' (alter (unmark sink) ref v)
    | Err _ => keeps_vault s' v
    end;
}.

Lemma alter_none `{Countable K} {A} (f : A → A) (m : gmap K A) k :
  m !! k = None → alter f k m = m.
Proof.
  intros Hk. apply map_eq. intros k'. rewrite lookup_alter. case_decide; [subst; by rewrite Hk|done].
Qed.

(** ** The memory buffer *)

Section Memory.
Context (encrypt : string → string → string → string → string).
Context (decrypt : string → string → string → string → option string).
Context (Haead : ∀ k n m a, decrypt k n (encrypt k n m a) a = Some m).
Context (cipher : PayloadCipher) (capacity : Z).

Definition holds_record (ref : string) (h : held) (r : MemoryRecord) : Prop :=
  open decrypt cipher ref (mr_payload r) = Ok (held_trace h) ∧
  ∀ sink, sink ∈ held_acked h ↔ md_state (mr_deliveries r sink) = ACKED.

Definition mem_vault (m : MemoryTraceBuffer) (v : vault) : Prop :=
  ∀ ref, match m !! ref, v !! ref with
         | Some r, Some h => holds_record ref h r
         | None, None => True
         | _, _ => False
         end.

Lemma mem_vault_some m v ref r :
  mem_vault m v → m !! ref = Some r → ∃ h, v !! ref = Some h ∧ holds_record ref h r.
Proof. intros H Hr. specialize (H ref). rewrite Hr in H. destruct (v !! ref); [eauto|done]. Qed.

Lemma mem_vault_insert m v ref r h :
  mem_vault m v → holds_record ref h r → mem_vault (<[ref := r]> m) (<[ref := h]> v).
Proof. intros H Hr ref'. rewrite !lookup_insert. case_decide; [by subst|apply H]. Qed.

(** Changing a record without changing what it holds. *)
Lemma mem_vault_same m v ref r h :
  mem_vault m v → v !! ref = Some h → holds_record ref h r → mem_vault (<[ref := r]> m) v.
Proof.
  intros H Hh Hr. rewrite <-(insert_id v ref h Hh). by apply mem_vault_insert.
Qed.

Lemma holds_set_delivery ref h r sink d :
  holds_record ref h r →
  holds_record ref (if decide (md_state d = ACKED) then mark sink h else unmark sink h)
    (set_delivery sink d r).
Proof.
  intros [Ho Ha]. split; [by case_decide|]. intros s. cbn [set_delivery mr_deliveries].
  specialize (Ha s). case_decide as Hd; cbn [mark unmark held_acked]; case_decide; subst;
    set_solver.
Qed.

Lemma mem_enqueue_law nonce t s v r s' :
  mem_vault s v → trace_ok t → mem_enqueue encrypt cipher capacity nonce t s = (r, s') →
  match r with
  | Ok true => v !! st_trace_ref t = None ∧ mem_vault s' (<[st_trace_ref t := hold t]> v)
  | Ok false => mem_vault s' v ∧
      ∃ h, v !! st_trace_ref t = Some h ∧ st_payload_digest (held_trace h) = st_payload_digest t
  | Err _ => mem_vault s' v
  end.
Proof using Haead.
  intros Hv [Hwf Hd] H. unfold mem_enqueue, sbind, slift, sget in H.
  destruct (seal encrypt cipher nonce t) as [p|e] eqn:Hp; [|by injection H as <- <-].
  destruct (s !! st_trace_ref t) as [prior|] eqn:Hs.
  - unfold sguard, sret in H. destruct (negb _) eqn:Hg; injection H as <- <-; [done|]. bool_prop.
    destruct (mem_vault_some _ _ _ _ Hv Hs) as (h & Hh & Ho & _). split; [done|]. exists h.
    split; [done|]. apply open_ok in Ho as (_ & -> & _). done.
  - unfold sguard, smodify, sret in H. destruct (capacity <=? _)%Z; injection H as <- <-; [done|].
    split; [specialize (Hv (st_trace_ref t)); rewrite Hs in Hv; by destruct (v !! _)|].
    apply mem_vault_insert; [done|]. split; [by eapply (open_seal _ _ Haead)|].
    intros sink. cbn. set_solver.
Qed.

Lemma holds_leased ref h r sink now until :
  holds_record ref h r → unavailable now (mr_deliveries r sink) = false →
  holds_record ref h (set_delivery sink (leased now until (mr_deliveries r sink)) r) ∧
  sink ∉ held_acked h.
Proof.
  intros [Ho Ha] Hu. unfold unavailable in Hu. apply orb_false_iff in Hu as [Hu _]. bool_prop.
  split; [|by rewrite Ha]. split; [done|]. intros s. cbn [set_delivery mr_deliveries].
  case_decide; [subst; cbn; rewrite Ha; naive_solver|apply Ha].
Qed.

(** The loop works on the records it was given, of which it changes only the one
    delivery it looks at. *)
Lemma claim_loop_law sink limit now until v refs : ∀ claimed m r m',
  NoDup refs.*1 → (∀ ref rec, (ref, rec) ∈ refs → m !! ref = Some rec) →
  mem_vault m v → claim_loop decrypt cipher sink limit now until refs claimed m = (r, m') →
  mem_vault m' v ∧
  ∀ ds d, r = Ok ds → d ∈ ds → d ∈ claimed ∨
    dl_sink d = sink ∧ ∃ h, v !! st_trace_ref (dl_trace d) = Some h ∧
      held_trace h = dl_trace d ∧ sink ∉ held_acked h.
Proof.
  induction refs as [|[ref rec] refs IH]; intros claimed m r m' Hn Hin Hv H; cbn [claim_loop] in H.
  - injection H as <- <-. split; [done|]. intros ds d [= <-]. by left.
  - apply NoDup_cons in Hn as [Hnr Hn].
    assert (∀ ref' rec', (ref', rec') ∈ refs → m !! ref' = Some rec') as Hin'.
    { intros ref' rec' ?. apply Hin. by right. }
    destruct (unavailable now _) eqn:Hu; [by eapply IH|].
    assert (m !! ref = Some rec) as Hrec by (apply Hin; left).
    destruct (mem_vault_some _ _ _ _ Hv Hrec) as (h & Hh & Hr).
    destruct (holds_leased ref h rec sink now until Hr Hu) as [Hr' Hna].
    unfold sbind, smodify, slift in H. destruct Hr as [Ho _]. rewrite Ho in H.
    rewrite (alter_some _ _ _ _ Hrec) in H. cbn beta in H.
    assert (mem_vault (<[ref := set_delivery sink (leased now until (mr_deliveries rec sink)) rec]> m) v)
      as Hv' by by eapply mem_vault_same.
    set (d0 := {| dl_trace := held_trace h; dl_sink := sink; dl_attempt_count := _ |}) in H.
    assert (dl_sink d0 = sink ∧ ∃ h, v !! st_trace_ref (dl_trace d0) = Some h ∧
      held_trace h = dl_trace d0 ∧ sink ∉ held_acked h) as Hd0.
    { split; [done|]. exists h. apply open_ok in Ho as (Href & _). cbn. by rewrite Href. }
    destruct (limit <=? _)%Z.
    + injection H as <- <-. split; [done|]. intros ds d [= <-].
      rewrite elem_of_app, list_elem_of_singleton. intros [?| ->]; [by left|by right].
    + apply IH in H as [Hv'' Hall]; [|done| |done].
      * split; [done|]. intros ds d Hr Hd. destruct (Hall ds d Hr Hd) as [Hc|?]; [|by right].
        apply elem_of_app in Hc as [?| ->%list_elem_of_singleton]; [by left|by right].
      * intros ref' rec' Hin2. rewrite lookup_insert_ne; [by apply Hin'|]. intros ->.
        apply Hnr. apply list_elem_of_fmap. by exists (ref', rec').
Qed.

Lemma mem_claim_law sink limit lease now s v r s' :
  mem_vault s v → mem_claim decrypt cipher sink limit lease now s = (r, s') →
  mem_vault s' v ∧
  ∀ ds d, r = Ok ds → d ∈ ds → dl_sink d = sink ∧
    ∃ h, v !! st_trace_ref (dl_trace d) = Some h ∧ held_trace h = dl_trace d ∧ sink ∉ held_acked h.
Proof.
  intros Hv H. unfold mem_claim, sbind, sget in H.
  apply (claim_loop_law sink limit now _ v) in H as [Hv' Hall]; [| | |done].
  - split; [done|]. intros ds d Hr Hd. by destruct (Hall ds d Hr Hd) as [?%elem_of_nil|?].
  - rewrite sort_keys_perm. apply NoDup_fst_map_to_list.
  - intros ref rec. rewrite sort_keys_perm. apply elem_of_map_to_list.
Qed.

Lemma on_delivery_law ref sink f s v r s' :
  mem_vault s v → on_delivery ref sink f s = (r, s') →
  match r with
  | Ok _ => ∃ rec h, s !! ref = Some rec ∧ v !! ref = Some h ∧
      mem_vault s' (<[ref := if decide (md_state (f (mr_deliveries rec sink)) = ACKED)
                             then mark sink h else unmark sink h]> v)
  | Err _ => mem_vault s' v
  end.
Proof.
  intros Hv H. unfold on_delivery, sbind, sget in H. destruct (s !! ref) as [rec|] eqn:Hs.
  - injection H as <- <-. destruct (mem_vault_some _ _ _ _ Hv Hs) as (h & Hh & Hr).
    exists rec, h. split_and!; [done|done|]. apply mem_vault_insert; [done|].
    by apply holds_set_delivery.
  - by injection H as <- <-.
Qed.

Lemma mem_acknowledge_law ref sink s v r s' :
  mem_vault s v → mem_acknowledge ref sink s = (r, s') →
  match r with
  | Ok _ => ∃ h, v !! ref = Some h ∧ mem_vault s' (<[ref := mark sink h]> v)
  | Err _ => mem_vault s' v
  end.
Proof.
  intros Hv H. apply (on_delivery_law _ _ _ _ _ _ _ Hv) in H. destruct r; [|done].
  destruct H as (rec & h & _ & Hh & Hv'). eauto.
Qed.

Lemma mem_retry_law ref sink code s v r s' :
  mem_vault s v → mem_retry ref sink code s = (r, s') →
  match r with
  | Ok _ => mem_vault s' (alter (unmark sink) ref v)
  | Err _ => mem_vault s' v
  end.
Proof.
  intros Hv H. unfold mem_retry, sbind, sguard in H.
  destruct (bad_code code); [by injection H as <- <-|].
  apply (on_delivery_law _ _ _ _ _ _ _ Hv) in H. destruct r; [|done].
  destruct H as (rec & h & _ & Hh & Hv'). by rewrite (alter_some _ _ _ _ Hh).
Qed.

Definition memory_buffer : TraceStore MemoryTraceBuffer :=
  {| enqueue := λ nonce t _, mem_enqueue encrypt cipher capacity nonce t;
     claim := λ sink limit lease now _, mem_claim decrypt cipher sink limit lease now;
     acknowledge := λ ref sink _, mem_acknowledge ref sink;
     retry := λ ref sink code _, mem_retry ref sink code;
     status := mem_status; keeps_vault := mem_vault;
     enqueue_law := λ nonce t _, mem_enqueue_law nonce t;
     claim_law := λ sink limit lease now _, mem_claim_law sink limit lease now;
     acknowledge_law := λ ref sink _, mem_acknowledge_law ref sink;
     retry_law := λ ref sink code _, mem_retry_law ref sink code |}.
End Memory.

(** ** The durable buffer *)

Section Postgres.
Context (encrypt : string → string → string → string → string).
Context (decrypt : string → string → string → string → option string).
Context (Haead : ∀ k n m a, decrypt k n (encrypt k n m a) a = Some m).
Context (cipher : PayloadCipher) (capacity : Z).

Lemma connected {A} (k : PgBufM A) s :
  (connection ;;; k) s = if pool_open s then k s else (Err NotConnected, s).
Proof. unfold connection, sbind, sget, sguard. by destruct (pool_open s). Qed.

Record pg_vault (s : PostgresTraceBuffer) (v : vault) : Prop := {
  pv_payload ref p : t_trace_payload s !! ref = Some p →
    ∃ h, v !! ref = Some h ∧ open decrypt cipher ref p = Ok (held_trace h);
  pv_held ref h : v !! ref = Some h → is_Some (t_trace_payload s !! ref);
  pv_row ref sink r : t_delivery s !! (ref, sink) = Some r →
    row_allowed r = true ∧ ∃ h, v !! ref = Some h ∧ (sink ∈ held_acked h ↔ dr_state r = ACKED);
  pv_rows ref sink h : v !! ref = Some h → is_Some (t_delivery s !! (ref, sink));
}.

Lemma pg_vault_row s v ref sink r h h' :
  pg_vault s v → v !! ref = Some h → held_trace h' = held_trace h → row_allowed r = true →
  (∀ sk, sk ∈ held_acked h' ↔ if decide (sk = sink) then dr_state r = ACKED else sk ∈ held_acked h) →
  pg_vault (set_row (ref, sink) r s) (<[ref := h']> v).
Proof.
  intros [Hp Hh Hr Hrs] Href Ht Hal Hack. constructor; cbn [set_row t_trace_payload t_delivery].
  - intros ref' p Hp'. destruct (Hp ref' p Hp') as (h0 & Hv & Ho). rewrite lookup_insert.
    case_decide; [subst|by eauto]. exists h'. split; [done|]. rewrite Ht. congruence.
  - intros ref' h0. rewrite lookup_insert. case_decide; [subst; intros _; by eapply Hh|apply Hh].
  - intros ref' sk r0. rewrite lookup_insert. case_decide as Heq.
    + injection Heq as <- <-. intros [= <-]. split; [done|]. exists h'. rewrite lookup_insert_eq.
      split; [done|]. by rewrite Hack, decide_True.
    + intros H0. destruct (Hr ref' sk r0 H0) as (? & h0 & Hv & Hiff). split; [done|].
      rewrite lookup_insert. case_decide; [subst|by eauto]. exists h'. split; [done|].
      rewrite Hack, decide_False by congruence. congruence.
  - intros ref' sk h0. rewrite !lookup_insert.
    destruct (decide ((ref, sink) = (ref', sk))); [by eexists|].
    case_decide; [subst; intros _; by eapply Hrs|apply Hrs].
Qed.

Lemma pg_vault_same_row s v ref sink r h :
  pg_vault s v → v !! ref = Some h → row_allowed r = true →
  (sink ∈ held_acked h ↔ dr_state r = ACKED) → pg_vault (set_row (ref, sink) r s) v.
Proof.
  intros Hv Hh Hal Hack. rewrite <-(insert_id v ref h Hh).
  apply (pg_vault_row _ _ _ _ _ h); [done|done|done|done|].
  intros sk. case_decide; [by subst|done].
Qed.

Lemma add_trace_rows ref p now s ref' sink :
  t_delivery (add_trace ref p now s) !! (ref', sink) =
  if decide (ref = ref') then
    Some {| dr_state := PENDING; dr_attempt_count := 0; dr_next_attempt_at := now;
            dr_leased_until := None; dr_acked_at := None; dr_last_error_code := None;
            dr_created_at := now |}
  else t_delivery s !! (ref', sink).
Proof.
  cbn [add_trace t_delivery foldr all_sinks]. rewrite !lookup_insert.
  destruct (decide (ref = ref')) as [->|Hne]; repeat case_decide; try congruence.
  destruct sink; congruence.
Qed.

Lemma pg_enqueue_law nonce t now s v r s' :
  pg_vault s v → trace_ok t → pg_enqueue encrypt cipher capacity nonce t now s = (r, s') →
  match r with
  | Ok true => v !! st_trace_ref t = None ∧ pg_vault s' (<[st_trace_ref t := hold t]> v)
  | Ok false => pg_vault s' v ∧
      ∃ h, v !! st_trace_ref t = Some h ∧ st_payload_digest (held_trace h) = st_payload_digest t
  | Err _ => pg_vault s' v
  end.
Proof using Haead.
  intros Hv [Hwf Hd] H. unfold pg_enqueue, slift in H. unfold sbind at 1 in H.
  destruct (seal encrypt cipher nonce t) as [p|e] eqn:Hp; [|by injection H as <- <-].
  rewrite connected in H. destruct (pool_open s); [|by injection H as <- <-].
  unfold atomically, sbind, sget, sguard, smodify, sret in H.
  destruct (t_trace_payload s !! st_trace_ref t) as [prior|] eqn:Hs.
  - destruct (negb _) eqn:Hg; cbn beta iota in H; injection H as <- <-; [done|]. bool_prop. split; [done|].
    destruct (pv_payload _ _ Hv _ _ Hs) as (h & Hh & Ho). exists h. split; [done|].
    apply open_ok in Ho as (_ & -> & _). done.
  - destruct (capacity <=? _)%Z; cbn beta iota in H; injection H as <- <-; [done|].
    assert (v !! st_trace_ref t = None) as Hnone.
    { apply eq_None_not_Some. intros [h Hh]. destruct (pv_held _ _ Hv _ _ Hh). congruence. }
    split; [done|]. destruct Hv as [H1 H2 H3 H4].
    assert (∀ ref h, v !! ref = Some h → st_trace_ref t ≠ ref) as Hne by congruence.
    constructor.
    + intros ref p'. cbn [add_trace t_trace_payload]. rewrite !lookup_insert. case_decide.
      * intros [= <-]. subst ref. eexists. split; [done|]. by eapply (open_seal _ _ Haead).
      * apply H1.
    + intros ref h. cbn [add_trace t_trace_payload]. rewrite !lookup_insert.
      case_decide; [done|apply H2].
    + intros ref sink r. rewrite add_trace_rows, lookup_insert. case_decide.
      * intros [= <-]. split; [done|]. eexists. split; [done|]. cbn. set_solver.
      * apply H3.
    + intros ref sink h. rewrite add_trace_rows, lookup_insert. case_decide; [done|apply H4].
Qed.

(** The rows a claim selects are rows of the table. *)
Lemma selected_elem sink limit now locked s ref r :
  (ref, r) ∈ selected sink limit now locked s →
  t_delivery s !! (ref, sink) = Some r ∧ claimable now r = true.
Proof.
  unfold selected. intros H. apply (elem_of_take _ _ _) in H as (i & H & _).
  apply list_elem_of_lookup_2 in H. rewrite sort_by_perm in H.
  apply list_elem_of_omap in H as ([[ref' sk] r'] & Hin & H). apply elem_of_map_to_list in Hin.
  case_bool_decide; [|done]. subst sk. cbn [andb] in H.
  destruct (claimable now r') eqn:Hc; [|done]. cbn [andb] in H.
  destruct (negb _); [|done]. injection H as <- <-. done.
Qed.

Lemma claimable_not_acked now r : claimable now r = true → dr_state r ≠ ACKED.
Proof. unfold claimable. intros H Ha. by rewrite Ha in H. Qed.

Lemma lease_allowed until r :
  row_allowed r = true → dr_state r ≠ ACKED → row_allowed (lease_row until r) = true.
Proof.
  unfold row_allowed. intros H Hna. bool_prop. cbn.
  rewrite bool_decide_eq_true_2 by (split; [by eexists|done]). cbn.
  rewrite bool_decide_eq_true_2; [by apply Z.leb_le|]. naive_solver.
Qed.

(** Leasing rows, one UPDATE after the other. *)
Lemma lease_rows_law sink until v rows : ∀ s s',
  (∀ ref r, (ref, r) ∈ rows →
     row_allowed r = true ∧ dr_state r ≠ ACKED ∧
     ∃ h, v !! ref = Some h ∧ sink ∉ held_acked h) →
  pg_vault s v →
  sfor (E:=buffer_error) rows
    (λ row, smodify (set_row (row.1, sink) (lease_row until row.2))) s = (Ok tt, s') →
  pg_vault s' v ∧ t_trace_payload s' = t_trace_payload s.
Proof.
  induction rows as [|[ref r] rows IH]; intros s s' Hall Hv H; cbn in H.
  - by injection H as <-.
  - unfold sbind, smodify in H. destruct (Hall ref r ltac:(left)) as (Hal & Hna & h & Hh & Hni).
    apply IH in H as [Hv' Hp].
    + split; [done|]. by rewrite Hp.
    + intros ref' r' Hin. apply Hall. by right.
    + apply (pg_vault_same_row _ _ _ _ _ h); [done|done|by apply lease_allowed|]. cbn. naive_solver.
Qed.

Lemma sfor_modify_ok {S E A} (f : A → S → S) (xs : list A) (s : S) :
  (sfor (E:=E) xs (λ x, smodify (f x)) s).1 = Ok tt.
Proof. revert s. induction xs as [|x xs IH]; intros s; [done|]. cbn. apply IH. Qed.

Lemma pg_claim_law sink limit lease now locked s v r s' :
  pg_vault s v → pg_claim decrypt cipher sink limit lease now locked s = (r, s') →
  pg_vault s' v ∧
  ∀ ds d, r = Ok ds → d ∈ ds → dl_sink d = sink ∧
    ∃ h, v !! st_trace_ref (dl_trace d) = Some h ∧ held_trace h = dl_trace d ∧ sink ∉ held_acked h.
Proof.
  intros Hv H. unfold pg_claim in H. rewrite connected in H.
  destruct (pool_open s); [|by injection H as <- <-]. unfold sget, sbind at 1 in H.
  set (rows := selected sink limit now locked s) in H.
  assert (∀ ref r0, (ref, r0) ∈ rows →
    row_allowed r0 = true ∧ dr_state r0 ≠ ACKED ∧ ∃ h, v !! ref = Some h ∧ sink ∉ held_acked h)
    as Hrows.
  { intros ref r0 [Hd Hc]%selected_elem. destruct (pv_row _ _ Hv _ _ _ Hd) as (Hal & h & Hh & Ha).
    apply claimable_not_acked in Hc. split_and!; [done|done|]. exists h. split; [done|]. by rewrite Ha. }
  unfold sbind at 1 in H.
  destruct (sfor rows _ s) as [r1 s1] eqn:Hfor.
  pose proof (sfor_modify_ok (E:=buffer_error) (λ row : string * delivery_row,
    set_row (row.1, sink) (lease_row (now + seconds lease) row.2)) rows s) as Hok.
  cbn beta in Hok. rewrite Hfor in Hok. cbn in Hok. subst r1.
  destruct (lease_rows_law _ _ v _ _ _ Hrows Hv Hfor) as [Hv1 Hp1].
  unfold sbind, slift in H. injection H as <- <-. split; [done|].
  intros ds d Hds Hd. apply rmapM_ok in Hds.
  destruct (Forall2_elem_r _ _ _ _ Hds Hd) as ([ref r0] & Hin & Ho).
  rewrite sort_keys_perm in Hin. unfold open_row in Ho.
  apply rbind_ok in Ho as (p & Hp%from_option_or_ok & Ho). cbn in Hp.
  apply rbind_ok in Ho as (t & Ht & [= <-]). cbn in Ht |- *. split; [done|].
  destruct (pv_payload _ _ Hv1 _ _ Hp) as (h & Hh & Ho).
  pose proof (open_ok _ _ _ _ _ Ht) as (-> & _).
  assert (held_trace h = t) as Heq by congruence.
  exists h. split_and!; [done|done|]. destruct (Hrows _ _ Hin) as (_ & _ & h' & Hh' & Hni).
  congruence.
Qed.

Lemma update_row_law ref sink f s v r s' :
  pg_vault s v → update_row (ref, sink) f s = (r, s') →
  match r with
  | Ok true => ∃ row h, t_delivery s !! (ref, sink) = Some row ∧ v !! ref = Some h ∧
      row_allowed (f row) = true ∧
      pg_vault s' (<[ref := if decide (dr_state (f row) = ACKED) then mark sink h
                            else unmark sink h]> v)
  | Ok false => s' = s ∧ v !! ref = None
  | Err _ => pg_vault s' v
  end.
Proof using Type.
  clear encrypt Haead capacity.
  intros Hv H. unfold update_row, sbind, sget, sguard, smodify, sret in H.
  destruct (t_delivery s !! (ref, sink)) as [row|] eqn:Hrow.
  - destruct (row_allowed (f row)) eqn:Hal; cbn [negb] in H; cbn beta iota in H; injection H as <- <-; [|done].
    destruct (pv_row _ _ Hv _ _ _ Hrow) as (_ & h & Hh & Ha). exists row, h.
    split_and!; [done|done|done|]. apply (pg_vault_row _ _ _ _ _ h); [done|done|by case_decide|done|].
    intros sk. case_decide as Hs; cbn [mark unmark held_acked]; (case_decide; [subst|]); set_solver.
  - injection H as <- <-. split; [done|]. apply eq_None_not_Some. intros [h Hh].
    destruct (pv_rows _ _ Hv ref sink h Hh). congruence.
Qed.

Lemma pg_acknowledge_law ref sink now s v r s' :
  pg_vault s v → pg_acknowledge ref sink now s = (r, s') →
  match r with
  | Ok _ => ∃ h, v !! ref = Some h ∧ pg_vault s' (<[ref := mark sink h]> v)
  | Err _ => pg_vault s' v
  end.
Proof using Type.
  intros Hv H. unfold pg_acknowledge in H. rewrite connected in H.
  destruct (pool_open s); [|by injection H as <- <-]. unfold sguard, sbind in H.
  destruct (update_row _ _ s) as [[u|e] s1] eqn:Hu.
  - apply (update_row_law _ _ _ _ _ _ _ Hv) in Hu. destruct u; injection H as <- <-; cbn.
    + destruct Hu as (row & h & _ & Hh & _ & Hv'). eauto.
    + by destruct Hu as [-> _].
  - apply (update_row_law _ _ _ _ _ _ _ Hv) in Hu. by injection H as <- <-.
Qed.

Lemma pg_retry_law ref sink code now s v r s' :
  pg_vault s v → pg_retry ref sink code now s = (r, s') →
  match r with
  | Ok _ => pg_vault s' (alter (unmark sink) ref v)
  | Err _ => pg_vault s' v
  end.
Proof using Type.
  intros Hv H. unfold pg_retry, sguard in H. unfold sbind at 1 in H.
  destruct (bad_code code); [by injection H as <- <-|]. rewrite connected in H.
  destruct (pool_open s); [|by injection H as <- <-]. unfold sbind, sret in H.
  destruct (update_row _ _ s) as [[u|e] s1] eqn:Hu;
    apply (update_row_law _ _ _ _ _ _ _ Hv) in Hu; injection H as <- <-; [|done].
  destruct u.
  - destruct Hu as (row & h & _ & Hh & _ & Hv'). by rewrite (alter_some _ _ _ _ Hh).
  - destruct Hu as [-> Hn]. rewrite alter_none by done. done.
Qed.

Definition postgres_buffer : TraceStore PostgresTraceBuffer :=
  {| enqueue := pg_enqueue encrypt cipher capacity;
     claim := pg_claim decrypt cipher;
     acknowledge := pg_acknowledge; retry := pg_retry;
     status := pg_status; keeps_vault := pg_vault;
     enqueue_law := pg_enqueue_law; claim_law := pg_claim_law;
     acknowledge_law := pg_acknowledge_law; retry_law := pg_retry_law |}.
End Postgres.
