(* ===== verification/TraceService.v ===== *)
(** * Trace export: [src/faultwitness/observability/service.py]

    [TraceExportService] over any [TraceStore] and any exporters.  The first part
    is the service as the code writes it, one task at a time; the second is the
    system of any number of drain tasks whose store calls interleave, which is
    what the loop and the drain endpoint make of it. *)
From S2P Require Import Prelude Json Sha256 Sanitizer SanitizerFacts Cipher Buffer.
From S2P Require Import TraceStore.

Inductive export_error : Type :=
| ExportFailure (code : string)
| UnexpectedError.

Inductive service_error : Type :=
| SanitizeError (e : sanitize_error)
| StoreError (e : buffer_error).

(** [TraceExportService.__init__]: the exporters given, and the automatic sinks.
    The sinks of [automatic] are [DeliverySink]s by their type. *)
Definition new_service (exporters : gset DeliverySink) (automatic : option (list DeliverySink)) :
    result unit (list DeliverySink) :=
  raise_if negb (forallb (λ s, bool_decide (s ∈ exporters)) all_sinks) with_ tt;;
  Ok match automatic with Some (s :: rest) => s :: rest | _ => all_sinks end.

Section Service.
Context {S W : Type} `{St : TraceStore S}.
Context (export : DeliverySink → SanitizedTrace → W → result export_error unit * W).
Context (reference_key : string).
Context (clock : nat → Z) (nonces : nat → string) (locks : nat → list string).

(** The store, the world the exporters act on, the exports that succeeded and
    the number of store calls made. *)
Record service := {
  sv_store : S;
  sv_world : W;
  sv_log : list (DeliverySink * SanitizedTrace);
  sv_calls : nat;
}.
Abbreviation ServiceM := (SE service service_error).

Definition store_op {A} (m : nat → SE S buffer_error A) : ServiceM A := λ s,
  let '(r, st) := m (sv_calls s) (sv_store s) in
  (rmap_err StoreError r,
   {| sv_store := st; sv_world := sv_world s; sv_log := sv_log s; sv_calls := Datatypes.S (sv_calls s) |}).

Definition run_export (sink : DeliverySink) (t : SanitizedTrace) : SE service service_error (result export_error unit) := λ s,
  let '(r, w) := export sink t (sv_world s) in
  (Ok r, {| sv_store := sv_store s; sv_world := w;
            sv_log := match r with Ok _ => sv_log s ++ [(sink, t)] | Err _ => sv_log s end;
            sv_calls := sv_calls s |}).

Definition ingest (e : TraceEnvelope) : ServiceM (SanitizedTrace * bool) :=
  let! t := slift (rmap_err SanitizeError (sanitize reference_key e)) in
  let! created := store_op (λ n, enqueue (nonces n) t (clock n)) in
  sret (t, created).

Record counts := { acked_count : Z; retried_count : Z }.
Definition add_acked (c : counts) : counts :=
  {| acked_count := acked_count c + 1; retried_count := retried_count c |}.
Definition add_retried (c : counts) : counts :=
  {| acked_count := acked_count c; retried_count := retried_count c + 1 |}.

Definition failure_code (e : export_error) : string :=
  match e with ExportFailure code => code | UnexpectedError => "unexpected_export_error" end.

Definition deliver (sink : DeliverySink) (d : Delivery) (c : counts) : ServiceM counts :=
  let ref := st_trace_ref (dl_trace d) in
  let! outcome := run_export sink (dl_trace d) in
  match outcome with
  | Ok _ =>
      store_op (λ n, acknowledge ref sink (clock n)) ;;; sret (add_acked c)
  | Err e =>
      store_op (λ n, retry ref sink (failure_code e) (clock n)) ;;; sret (add_retried c)
  end.

Fixpoint deliver_all (sink : DeliverySink) (ds : list Delivery) (c : counts) : ServiceM counts :=
  match ds with
  | [] => sret c
  | d :: rest => let! c := deliver sink d c in deliver_all sink rest c
  end.

(** The default lease of [claim]. *)
Definition lease_seconds : Z := 30.

Fixpoint drain_sinks (limit : Z) (sinks : list DeliverySink) (c : counts) : ServiceM counts :=
  match sinks with
  | [] => sret c
  | sink :: rest =>
      let! ds := store_op (λ n, claim sink limit lease_seconds (clock n) (locks n)) in
      let! c := deliver_all sink ds c in
      drain_sinks limit rest c
  end.

Definition zero_counts : counts := {| acked_count := 0; retried_count := 0 |}.

(** [drain_once]; [automatic] is [self.automatic_sinks]. *)
Definition drain_once (automatic : list DeliverySink) (limit : Z)
    (sinks : option (list DeliverySink)) : ServiceM counts :=
  drain_sinks limit (match sinks with Some (s :: rest) => s :: rest | _ => automatic end) zero_counts.

Definition add_counts (a b : counts) : counts :=
  {| acked_count := acked_count a + acked_count b;
     retried_count := retried_count a + retried_count b |}.

(** [for _ in range(max_rounds)] *)
Fixpoint drain_rounds (automatic : list DeliverySink) (limit : Z) (rounds : nat) (totals : counts) :
    ServiceM counts :=
  match rounds with
  | O => sret totals
  | Datatypes.S rounds =>
      let! r := drain_once automatic limit None in
      let totals := add_counts totals r in
      let! s := sget in
      if ((bs_traces (status (sv_store s)) =? 0) || (acked_count r + retried_count r =? 0))%Z
      then sret totals
      else drain_rounds automatic limit rounds totals
  end.

Definition drain_until_idle (automatic : list DeliverySink) (max_rounds limit : Z) : ServiceM counts :=
  drain_rounds automatic limit (Z.to_nat max_rounds) zero_counts.

(** [run_drain_loop] until [stop] is set, seen after [rounds] iterations: an
    exception of a round ends the task. *)
Fixpoint run_drain_loop (automatic : list DeliverySink) (rounds : nat) : ServiceM unit :=
  match rounds with
  | O => sret tt
  | Datatypes.S rounds => let! _ := drain_once automatic 10 None in run_drain_loop automatic rounds
  end.
End Service.

(** ** Interleaved tasks *)

(** Where a drain task is suspended. *)
Inductive task : Type :=
| Holding (todo : list Delivery)
| Exported (d : Delivery) (todo : list Delivery)
| Failing (d : Delivery) (code : string) (todo : list Delivery)
| Crashed.

Section System.
Context {S : Type} `{St : TraceStore S}.

(** [accepted] and [log] are history: the traces [enqueue] returned for, and the
    exports that succeeded. *)
Record system := {
  sys_store : S;
  sys_tasks : gmap nat task;
  sys_log : list (DeliverySink * SanitizedTrace);
  sys_accepted : list SanitizedTrace;
}.

Definition with_task (i : nat) (t : task) (s : S) (w : system) : system :=
  {| sys_store := s; sys_tasks := <[i := t]> (sys_tasks w); sys_log := sys_log w;
     sys_accepted := sys_accepted w |}.
Definition logged (i : nat) (d : Delivery) (todo : list Delivery) (w : system) : system :=
  {| sys_store := sys_store w; sys_tasks := <[i := Exported d todo]> (sys_tasks w);
     sys_log := sys_log w ++ [(dl_sink d, dl_trace d)]; sys_accepted := sys_accepted w |}.

(** A task between two claims. *)
Definition at_rest (t : option task) : Prop := t = None ∨ t = Some (Holding []).

Inductive sys_step (w : system) : system → Prop :=
| step_ingest nonce t now r s' :
    trace_ok t → enqueue nonce t now (sys_store w) = (r, s') →
    sys_step w {| sys_store := s'; sys_tasks := sys_tasks w; sys_log := sys_log w;
                  sys_accepted := match r with Ok _ => t :: sys_accepted w
                                  | Err _ => sys_accepted w end |}
| step_claim i sink limit lease now locked r s' :
    at_rest (sys_tasks w !! i) → claim sink limit lease now locked (sys_store w) = (r, s') →
    sys_step w (with_task i match r with Ok ds => Holding ds | Err _ => Crashed end s' w)
| step_export i d todo :
    sys_tasks w !! i = Some (Holding (d :: todo)) → sys_step w (logged i d todo w)
| step_fail i d todo code :
    sys_tasks w !! i = Some (Holding (d :: todo)) →
    sys_step w (with_task i (Failing d code todo) (sys_store w) w)
| step_acknowledge i d todo now r s' :
    sys_tasks w !! i = Some (Exported d todo) →
    acknowledge (st_trace_ref (dl_trace d)) (dl_sink d) now (sys_store w) = (r, s') →
    sys_step w (with_task i match r with Ok _ => Holding todo | Err _ => Crashed end s' w)
| step_retry i d code todo now r s' :
    sys_tasks w !! i = Some (Failing d code todo) →
    retry (st_trace_ref (dl_trace d)) (dl_sink d) code now (sys_store w) = (r, s') →
    sys_step w (with_task i match r with Ok _ => Holding todo | Err _ => Crashed end s' w).

Definition start (s : S) : system :=
  {| sys_store := s; sys_tasks := ∅; sys_log := []; sys_accepted := [] |}.

(** ** Invariant *)

Definition in_hand (t : task) : list Delivery :=
  match t with
  | Holding todo => todo
  | Exported d todo | Failing d _ todo => d :: todo
  | Crashed => []
  end.

(** What the vault, the tasks and the history say of each other. *)
Record hist (w : system) (v : vault) : Prop := {
  si_held ref h : v !! ref = Some h →
    st_trace_ref (held_trace h) = ref ∧ trace_ok (held_trace h) ∧ held_trace h ∈ sys_accepted w;
  si_acked ref h sink : v !! ref = Some h → sink ∈ held_acked h → (sink, held_trace h) ∈ sys_log w;
  si_hand i t d : sys_tasks w !! i = Some t → d ∈ in_hand t →
    ∃ h, v !! st_trace_ref (dl_trace d) = Some h ∧ held_trace h = dl_trace d;
  si_exported i d todo : sys_tasks w !! i = Some (Exported d todo) →
    (dl_sink d, dl_trace d) ∈ sys_log w;
  si_log sink t : (sink, t) ∈ sys_log w → t ∈ sys_accepted w;
  si_accepted t : t ∈ sys_accepted w → ∃ h, v !! st_trace_ref t = Some h ∧
    trace_ok t ∧ st_payload_digest (held_trace h) = st_payload_digest t;
}.

Definition sys_inv (w : system) (v : vault) : Prop := keeps_vault (sys_store w) v ∧ hist w v.

(** A task moves on: what it holds it held before. *)
Lemma inv_task i t' s' v w :
  hist w v →
  (∀ d, d ∈ in_hand t' → ∃ h, v !! st_trace_ref (dl_trace d) = Some h ∧ held_trace h = dl_trace d) →
  (∀ d todo, t' ≠ Exported d todo) →
  hist (with_task i t' s' w) v.
Proof.
  intros [H2 H3 H4 H5 H6 H7] Hh He. constructor; cbn; try done.
  - intros j t d. rewrite lookup_insert. case_decide; [intros [= <-]; apply Hh|apply H4].
  - intros j d todo. rewrite lookup_insert. case_decide; [intros [= ->]; by destruct (He d todo)|apply H5].
Qed.

(** The vault changes only in which sinks acknowledged a trace. *)
Lemma inv_marks w v v' :
  hist w v →
  (∀ ref, held_trace <$> v' !! ref = held_trace <$> v !! ref) →
  (∀ ref h sink, v' !! ref = Some h → sink ∈ held_acked h → (sink, held_trace h) ∈ sys_log w) →
  hist w v'.
Proof.
  intros [H2 H3 H4 H5 H6 H7] Hsame Hack.
  assert (∀ ref h, v !! ref = Some h → ∃ h', v' !! ref = Some h' ∧ held_trace h' = held_trace h)
    as Hto.
  { intros ref h Hh. specialize (Hsame ref). rewrite Hh in Hsame.
    destruct (v' !! ref) as [h'|]; [|done]. injection Hsame as ?. eauto. }
  constructor; try done.
  - intros ref h Hh. specialize (Hsame ref). rewrite Hh in Hsame.
    destruct (v !! ref) as [h0|] eqn:H0; [|discriminate Hsame]. injection Hsame as Heq.
    rewrite Heq. by apply H2.
  - intros i t d Ht Hd. destruct (H4 i t d Ht Hd) as (h & Hh & Heq).
    destruct (Hto _ _ Hh) as (h' & Hh' & Heq'). exists h'. by rewrite Heq'.
  - intros t Ht. destruct (H7 t Ht) as (h & Hh & Hok & Hd). destruct (Hto _ _ Hh) as (h' & Hh' & Heq).
    exists h'. by rewrite Heq.
Qed.

Lemma mark_same (v : vault) ref h sink :
  v !! ref = Some h → ∀ r, held_trace <$> <[ref := mark sink h]> v !! r = held_trace <$> v !! r.
Proof. intros Hh r. rewrite lookup_insert. case_decide; [subst; by rewrite Hh|done]. Qed.

Lemma unmark_same (v : vault) ref sink r :
  held_trace <$> alter (unmark sink) ref v !! r = held_trace <$> v !! r.
Proof. rewrite lookup_alter. case_decide; [|done]. subst. by destruct (v !! r). Qed.

Lemma ingest_inv w v nonce t now r s' :
  sys_inv w v → trace_ok t → enqueue nonce t now (sys_store w) = (r, s') →
  ∃ v', sys_inv {| sys_store := s'; sys_tasks := sys_tasks w; sys_log := sys_log w;
                   sys_accepted := match r with Ok _ => t :: sys_accepted w
                                   | Err _ => sys_accepted w end |} v'.
Proof.
  intros [H1 [H2 H3 H4 H5 H6 H7]] Hok He. pose proof (enqueue_law _ _ _ _ _ _ _ H1 Hok He) as Hl.
  destruct r as [[]|e].
  - destruct Hl as [Hn Hv']. exists (<[st_trace_ref t := hold t]> v).
    assert (∀ ref h, v !! ref = Some h → <[st_trace_ref t := hold t]> v !! ref = Some h) as Hk.
    { intros ref h Hh. rewrite lookup_insert_ne; [done|congruence]. }
    split; [done|]. constructor; cbn; try done.
    + intros ref h. rewrite lookup_insert. case_decide; [intros [= <-]; subst; cbn|].
      * split_and!; [done|done|left].
      * intros Hh. destruct (H2 ref h Hh) as (? & ? & ?). split_and!; [done|done|by right].
    + intros ref h sink. rewrite lookup_insert. case_decide; [intros [= <-]; cbn; set_solver|apply H3].
    + intros i tk d Ht Hd. destruct (H4 i tk d Ht Hd) as (h & Hh & Heq). eauto.
    + intros sink t' Hl. right. by eapply H6.
    + intros t' [->|Ht']%elem_of_cons.
      * exists (hold t). rewrite lookup_insert_eq. done.
      * destruct (H7 t' Ht') as (h & Hh & ? & ?). eauto.
  - destruct Hl as [Hv' (h & Hh & Hd)]. exists v. split; [done|]. constructor; cbn; try done.
    + intros ref h' Hh'. destruct (H2 ref h' Hh') as (? & ? & ?). split_and!; [done|done|by right].
    + intros sink t' Hl. right. by eapply H6.
    + intros t' [->|Ht']%elem_of_cons; [by exists h|by apply H7].
  - exists v. split; [done|]. by constructor.
Qed.

Lemma export_hist i d todo w v :
  hist w v → sys_tasks w !! i = Some (Holding (d :: todo)) → hist (logged i d todo w) v.
Proof.
  intros Hi Ht. pose proof (si_hand _ _ Hi _ _ d Ht ltac:(left)) as (h & Hh & Heq).
  destruct Hi as [H2 H3 H4 H5 H6 H7]. constructor; cbn; try done.
  - intros ref h' sink Hh' Hin. apply elem_of_app. left. eauto.
  - intros j t d'. rewrite lookup_insert. case_decide; [intros [= <-]; apply (H4 _ _ d' Ht)|apply H4].
  - intros j d' todo'. rewrite lookup_insert, elem_of_app. case_decide.
    + intros [= <- <-]. right. by apply list_elem_of_singleton.
    + intros Hj. left. by eapply H5.
  - intros sink t. rewrite elem_of_app, list_elem_of_singleton. intros [Hin|[= -> ->]]; [by eapply H6|].
    rewrite <-Heq. by apply (H2 _ _ Hh).
Qed.

Lemma step_inv w v w' : sys_inv w v → sys_step w w' → ∃ v', sys_inv w' v'.
Proof.
  intros [Hv Hi] Hs. destruct Hs as [nonce t now r s' Hok He|i sink limit lease now locked r s' _ Hc
    |i d todo Ht|i d todo code Ht|i d todo now r s' Ht Ha|i d code todo now r s' Ht Hr].
  - by eapply ingest_inv.
  - destruct (claim_law _ _ _ _ _ _ _ _ _ Hv Hc) as [Hv' Hall]. exists v. split; [done|].
    apply inv_task; [done| |by destruct r]. destruct r as [ds|]; [|by intros d ?%elem_of_nil].
    intros d Hd. destruct (Hall ds d eq_refl Hd) as (_ & h & ? & ? & _). eauto.
  - exists v. split; [done|]. by eapply export_hist.
  - exists v. split; [done|]. apply inv_task; [done| |done].
    intros d' Hd'. by apply (si_hand _ _ Hi _ _ _ Ht).
  - destruct (si_hand _ _ Hi _ _ d Ht ltac:(left)) as (h & Hh & Heq).
    assert (∀ d', d' ∈ todo → ∃ h, v !! st_trace_ref (dl_trace d') = Some h ∧ held_trace h = dl_trace d')
      as Htodo by (intros d' Hd'; apply (si_hand _ _ Hi _ _ _ Ht); by right).
    pose proof (acknowledge_law _ _ _ _ _ _ _ Hv Ha) as Hl. destruct r as [[]|e].
    + destruct Hl as (h' & Hh' & Hv'). assert (h' = h) as -> by congruence.
      eexists. split; [exact Hv'|]. apply (inv_marks _ v); [|by apply mark_same|].
      * by apply inv_task.
      * cbn. intros ref h0 sink. rewrite lookup_insert. case_decide; [intros [= <-]|apply Hi].
        cbn. rewrite elem_of_union, elem_of_singleton. intros [->|Hin].
        -- rewrite Heq. by apply (si_exported _ _ Hi _ _ _ Ht).
        -- by eapply (si_acked _ _ Hi).
    + exists v. split; [done|]. apply inv_task; [done|by intros d' ?%elem_of_nil|done].
  - assert (∀ d', d' ∈ todo → ∃ h, v !! st_trace_ref (dl_trace d') = Some h ∧ held_trace h = dl_trace d')
      as Htodo by (intros d' Hd'; apply (si_hand _ _ Hi _ _ _ Ht); by right).
    pose proof (retry_law _ _ _ _ _ _ _ _ Hv Hr) as Hl. destruct r as [[]|e].
    + eexists. split; [exact Hl|]. apply (inv_marks _ v); [|intros; apply unmark_same|].
      * by apply inv_task.
      * cbn. intros ref h0 sink. rewrite lookup_alter. case_decide; [|apply Hi].
        intros (h & Hh & ->)%fmap_Some. cbn. rewrite elem_of_difference. intros [Hin _].
        by eapply (si_acked _ _ Hi).
    + exists v. split; [done|]. apply inv_task; [done|by intros d' ?%elem_of_nil|done].
Qed.

Lemma run_inv w w' v : sys_inv w v → rtc sys_step w w' → ∃ v', sys_inv w' v'.
Proof.
  intros Hi Hr. revert v Hi. induction Hr as [w|w w1 w2 Hs _ IH]; intros v Hi; [eauto|].
  destruct (step_inv _ _ _ Hi Hs) as [v1 H1]. by eapply IH.
Qed.

Lemma start_inv s : keeps_vault s ∅ → sys_inv (start s) ∅.
Proof.
  intros Hs. split; [done|]. constructor; cbn; try done; try (by intros ? ? ?%elem_of_nil);
    try (by intros ? ?%elem_of_nil).
Qed.

(** no accepted trace is lost, however ingestion and any number of drain
    tasks interleave, fail and crash: the buffer holds every trace it accepted
    (the same content, unless SHA-256 has a collision), a sink counts as
    delivered only after an export of that trace to it succeeded, and nothing
    but accepted traces is ever exported. *)
Theorem accepted_traces_are_delivered s w :
  keeps_vault s ∅ → rtc sys_step (start s) w →
  ∃ v, keeps_vault (sys_store w) v ∧
    (∀ t, t ∈ sys_accepted w → ∃ h, v !! st_trace_ref t = Some h ∧
       (content_bytes (held_trace h) = content_bytes t ∨
        sha256_collision (content_bytes (held_trace h)) (content_bytes t)) ∧
       ∀ sink, sink ∈ held_acked h → (sink, held_trace h) ∈ sys_log w) ∧
    ∀ sink t, (sink, t) ∈ sys_log w → t ∈ sys_accepted w.
Proof.
  intros Hs Hr. destruct (run_inv _ _ _ (start_inv s Hs) Hr) as (v & Hv & Hi). exists v.
  split_and!; [done| |exact (si_log _ _ Hi)]. intros t Ht.
  destruct (si_accepted _ _ Hi t Ht) as (h & Hh & [_ Hd] & Heq). exists h.
  destruct (si_held _ _ Hi _ _ Hh) as (_ & [_ Hd'] & _).
  split_and!; [done|apply sha256_equal_or_collision; congruence|].
  intros sink. by eapply (si_acked _ _ Hi).
Qed.
End System.

(** ** [drain_once] is one such task *)

Section Refinement.
Context {S W : Type} `{St : TraceStore S}.
Context (export : DeliverySink → SanitizedTrace → W → result export_error unit * W).
Context (clock : nat → Z) (locks : nat → list string).
Context (accepted : list SanitizedTrace) (i : nat).

Definition view (s : service (S:=S) (W:=W)) (tasks : gmap nat task) : system (S:=S) :=
  {| sys_store := sv_store s; sys_tasks := tasks; sys_log := sv_log s;
     sys_accepted := accepted |}.

Definition steps_to (s : service) (tasks : gmap nat task) (s' : service) (t : task) : Prop :=
  rtc sys_step (view s tasks) (view s' (<[i := t]> tasks)).

Lemma deliver_steps sink d todo c s tasks r s' :
  tasks !! i = Some (Holding (d :: todo)) → dl_sink d = sink →
  deliver export clock sink d c s = (r, s') →
  ∃ t, steps_to s tasks s' t ∧ ∀ c', r = Ok c' → t = Holding todo.
Proof.
  intros Ht <- H. unfold deliver, sbind, run_export in H.
  destruct (export (dl_sink d) (dl_trace d) (sv_world s)) as [[[]|e] w'] eqn:He;
    unfold store_op, sret in H; cbn [sv_store sv_calls] in H.
  - destruct (acknowledge _ _ _ (sv_store s)) as [ra st] eqn:Ha.
    exists (match ra with Ok _ => Holding todo | Err _ => Crashed end).
    assert (rtc sys_step (view s tasks)
      (with_task i (match ra with Ok _ => Holding todo | Err _ => Crashed end) st
        (logged i d todo (view s tasks)))) as Hsteps.
    { eapply rtc_l; [by apply step_export|]. eapply rtc_l; [|apply rtc_refl].
      eapply step_acknowledge; [cbn; apply lookup_insert_eq|exact Ha]. }
    destruct ra as [[]|e]; cbn in H; injection H as <- <-; (split; [|by intros c' [=]]);
      unfold steps_to, view, with_task, logged in *; cbn in *;
      by rewrite insert_insert_eq in Hsteps.
  - destruct (retry _ _ _ _ (sv_store s)) as [ra st] eqn:Ha.
    exists (match ra with Ok _ => Holding todo | Err _ => Crashed end).
    assert (rtc sys_step (view s tasks)
      (with_task i (match ra with Ok _ => Holding todo | Err _ => Crashed end) st
        (with_task i (Failing d (failure_code e) todo) (sv_store s) (view s tasks)))) as Hsteps.
    { eapply rtc_l; [by apply step_fail|]. eapply rtc_l; [|apply rtc_refl].
      eapply step_retry; [cbn; apply lookup_insert_eq|exact Ha]. }
    destruct ra as [[]|e']; cbn in H; injection H as <- <-; (split; [|by intros c' [=]]);
      unfold steps_to, view, with_task in *; cbn in *;
      by rewrite insert_insert_eq in Hsteps.
Qed.

Lemma deliver_all_steps sink ds : ∀ c s tasks r s',
  tasks !! i = Some (Holding ds) → (∀ d, d ∈ ds → dl_sink d = sink) →
  deliver_all export clock sink ds c s = (r, s') →
  ∃ t, steps_to s tasks s' t ∧ ∀ c', r = Ok c' → t = Holding [].
Proof.
  induction ds as [|d ds IH]; intros c s tasks r s' Ht Hs H; cbn [deliver_all] in H.
  - injection H as <- <-. exists (Holding []). split; [|done]. unfold steps_to.
    rewrite insert_id by done. apply rtc_refl.
  - unfold sbind in H. destruct (deliver export clock sink d c s) as [[c1|e] s1] eqn:Hd;
      apply (deliver_steps _ _ ds _ _ tasks) in Hd as (t & Hst & Ht'); try done; try (by apply Hs; left).
    + rewrite (Ht' c1 eq_refl) in Hst.
      destruct (IH c1 s1 (<[i := Holding ds]> tasks) r s') as (t2 & Hst2 & Ht2);
        [apply lookup_insert_eq|by intros d' ?; apply Hs; right|done|].
      exists t2. split; [|done]. unfold steps_to in *. rewrite insert_insert_eq in Hst2.
      by etrans.
    + injection H as <- <-. exists t. split; [done|by intros c' [=]].
Qed.

Lemma drain_sinks_steps limit sinks : ∀ c s tasks v r s',
  sys_inv (view s tasks) v → at_rest (tasks !! i) →
  drain_sinks export clock locks limit sinks c s = (r, s') →
  ∃ tasks', rtc sys_step (view s tasks) (view s' tasks') ∧
    ∀ c', r = Ok c' → at_rest (tasks' !! i).
Proof.
  induction sinks as [|sink sinks IH]; intros c s tasks v r s' Hi Hrest H; cbn [drain_sinks] in H.
  - injection H as <- <-. exists tasks. split; [apply rtc_refl|done].
  - unfold sbind, store_op in H.
    destruct (claim _ _ _ _ _ (sv_store s)) as [rc st] eqn:Hc.
    pose proof (claim_law _ _ _ _ _ _ _ _ _ (proj1 Hi) Hc) as [_ Hall].
    set (s1 := {| sv_store := st; sv_world := _; sv_log := _; sv_calls := _ |}) in H.
    assert (sys_step (view s tasks) (view s1 (<[i := match rc with Ok ds => Holding ds
      | Err _ => Crashed end]> tasks))) as Hstep by (by eapply step_claim).
    destruct rc as [ds|e]; cbn [rmap_err] in H.
    + destruct (deliver_all _ _ sink ds c s1) as [rd s2] eqn:Hd.
      apply (deliver_all_steps _ _ _ _ (<[i := Holding ds]> tasks)) in Hd as (t & Hst & Ht);
        [|apply lookup_insert_eq|by intros d Hin; destruct (Hall ds d eq_refl Hin)].
      unfold steps_to in Hst. rewrite insert_insert_eq in Hst.
      assert (rtc sys_step (view s tasks) (view s2 (<[i := t]> tasks))) as Hr by by eapply rtc_l.
      destruct rd as [c1|e].
      * destruct (run_inv _ _ _ Hi Hr) as [v2 Hi2]. rewrite (Ht c1 eq_refl) in *.
        destruct (IH c1 s2 _ v2 r s' Hi2) as (tasks' & Hr' & Hrest'); [|done|].
        { right. apply lookup_insert_eq. }
        exists tasks'. split; [by etrans|done].
      * injection H as <- <-. eexists. split; [exact Hr|by intros c' [=]].
    + injection H as <- <-. eexists. split; [by apply rtc_once|by intros c' [=]].
Qed.

(** [drain_once] refines the task model: a call, whatever the exporters
    answer and wherever it raises, is a run of the steps of one task, and it ends
    at rest when it returns. *)
Theorem drain_once_refines_task automatic limit sinks s tasks v r s' :
  sys_inv (view s tasks) v → at_rest (tasks !! i) →
  drain_once export clock locks automatic limit sinks s = (r, s') →
  ∃ tasks', rtc sys_step (view s tasks) (view s' tasks') ∧
    ∀ c, r = Ok c → at_rest (tasks' !! i).
Proof. apply drain_sinks_steps. Qed.
End Refinement.

(** ** Witnesses *)

Definition demo_content (digest : string) : SanitizedTrace :=
  {| st_schema_version := "1.0.0"; st_trace_ref := "ref"; st_remote_trace_id := "remote";
     st_otlp_trace_id := "otlp"; st_tenant_ref := "tenant"; st_correlation_ref := "correlation";
     st_causation_ref := None; st_incident_ref := None; st_task_ref := None; st_action_ref := None;
     st_contracts_version := "1.1.0"; st_candidate_sha := "sha"; st_emitted_at := "now";
     st_spans := []; st_payload_digest := digest |}.
Definition demo_trace : SanitizedTrace := demo_content (sha256_hex (content_bytes (demo_content ""))).

Lemma demo_trace_ok : trace_ok demo_trace.
Proof. split; [constructor|reflexivity]. Qed.

Definition demo_buffer : TraceStore MemoryTraceBuffer :=
  memory_buffer demo_encrypt demo_decrypt demo_aead demo_cipher 10.

Lemma demo_enqueue : ∃ s', enqueue (TraceStore:=demo_buffer) "nonce" demo_trace 0 ∅ = (Ok true, s').
Proof.
  eexists. cbn [enqueue demo_buffer memory_buffer]. unfold mem_enqueue, sbind, slift, seal.
  rewrite bool_decide_eq_true_2 by exact (eq_sym (proj2 demo_trace_ok)). reflexivity.
Qed.

Lemma demo_empty_vault : keeps_vault (TraceStore:=demo_buffer) ∅ ∅.
Proof. intros ref. by rewrite !lookup_empty. Qed.

Definition demo_holding (s : MemoryTraceBuffer) : system (S:=MemoryTraceBuffer) :=
  {| sys_store := s; sys_tasks := ∅; sys_log := []; sys_accepted := [demo_trace] |}.

Lemma demo_ingest s' :
  enqueue (TraceStore:=demo_buffer) "nonce" demo_trace 0 ∅ = (Ok true, s') →
  rtc (sys_step (St:=demo_buffer)) (start ∅) (demo_holding s').
Proof.
  intros H. apply rtc_once.
  exact (step_ingest (St:=demo_buffer) (start ∅) _ _ _ _ _ demo_trace_ok H).
Qed.

Lemma accepted_traces_are_delivered_witness :
  ∃ s', rtc (sys_step (St:=demo_buffer)) (start ∅) (demo_holding s') ∧
    ∃ v h, keeps_vault (TraceStore:=demo_buffer) s' v ∧ v !! "ref" = Some h.
Proof.
  destruct demo_enqueue as [s' H]. exists s'. pose proof (demo_ingest s' H) as Hr.
  split; [exact Hr|].
  destruct (accepted_traces_are_delivered (St:=demo_buffer) ∅ (demo_holding s') demo_empty_vault Hr)
    as (v & Hv & Hall & _).
  destruct (Hall demo_trace ltac:(left)) as (h & Hh & _). exists v, h. split; [exact Hv|exact Hh].
Defined.

(** An exporter that always answers. *)
Definition demo_export (sink : DeliverySink) (t : SanitizedTrace) (w : unit) :
    result export_error unit * unit := (Ok tt, w).
Definition demo_service (s : MemoryTraceBuffer) : service (S:=MemoryTraceBuffer) (W:=unit) :=
  {| sv_store := s; sv_world := tt; sv_log := []; sv_calls := 0 |}.

Lemma drain_once_refines_task_witness :
  ∃ s r s' tasks',
    drain_once (St:=demo_buffer) demo_export (λ _, 0%Z) (λ _, []) all_sinks 10 None (demo_service s) = (r, s') ∧
    rtc (sys_step (St:=demo_buffer)) (view [demo_trace] (demo_service s) ∅) (view [demo_trace] s' tasks').
Proof.
  destruct demo_enqueue as [s H]. exists s.
  destruct (drain_once (St:=demo_buffer) demo_export (λ _, 0%Z) (λ _, []) all_sinks 10 None (demo_service s))
    as [r s'] eqn:Hd. exists r, s'.
  destruct (run_inv (St:=demo_buffer) _ _ _ (start_inv _ demo_empty_vault) (demo_ingest s H)) as [v Hv].
  destruct (drain_once_refines_task (St:=demo_buffer) demo_export (λ _, 0%Z) (λ _, []) [demo_trace] 0
    all_sinks 10 None (demo_service s) ∅ v r s' Hv (or_introl eq_refl) Hd) as (tasks' & Hr & _).
  exists tasks'. split; [reflexivity|exact Hr].
Defined.
