(* ===== verification/BufferBounds.v ===== *)
(** * Bounds of the durable trace buffer

    The number of unfinished traces never exceeds the capacity, whatever calls
    are made, because the table constraints forbid reopening an acknowledged
    delivery; and the delay before a retry stays between one and 32 seconds. *)
From S2P Require Import Prelude Json Sha256 PyCalendar Sanitizer SanitizerFacts Cipher.
From S2P Require Import Buffer TraceStore TraceService.

Lemma filter_length_le {A} (f g : A → bool) l :
  (∀ x, x ∈ l → f x = true → g x = true) →
  length (List.filter f l) ≤ length (List.filter g l).
Proof.
  induction l as [|x l IH]; intros H; [done|]. simpl.
  assert (length (List.filter f l) ≤ length (List.filter g l)).
  { apply IH. intros y Hy. apply H. by right. }
  destruct (f x) eqn:Hf.
  - rewrite (H x) by (done || left). simpl. lia.
  - destruct (g x); simpl; lia.
Qed.

Lemma filter_cons_le {A} (f : A → bool) x l :
  length (List.filter f (x :: l)) ≤ S (length (List.filter f l)).
Proof. simpl. destruct (f x); simpl; lia. Qed.

Lemma filter_perm {A} (f : A → bool) l k : l ≡ₚ k → length (List.filter f l) = length (List.filter f k).
Proof.
  induction 1 as [|x l k _ IH|x y l|l k j _ IH1 _ IH2]; simpl; try done.
  - destruct (f x); simpl; congruence.
  - by destruct (f x), (f y).
  - congruence.
Qed.

Section Bounds.
Context (encrypt : string → string → string → string → string).
Context (decrypt : string → string → string → string → option string).
Context (Haead : ∀ k n m a, decrypt k n (encrypt k n m a) a = Some m).
Context (cipher : PayloadCipher) (capacity : Z).

(** The calls on the buffer. *)
Inductive buffer_call : Type :=
| Enqueue (nonce : string) (t : SanitizedTrace) (now : Z)
| Claim (sink : DeliverySink) (limit lease now : Z) (locked : list string)
| Acknowledge (ref : string) (sink : DeliverySink) (now : Z)
| Retry (ref : string) (sink : DeliverySink) (code : string) (now : Z).

Definition pg_call (c : buffer_call) (s : PostgresTraceBuffer) : PostgresTraceBuffer :=
  match c with
  | Enqueue nonce t now => (pg_enqueue encrypt cipher capacity nonce t now s).2
  | Claim sink limit lease now locked => (pg_claim decrypt cipher sink limit lease now locked s).2
  | Acknowledge ref sink now => (pg_acknowledge ref sink now s).2
  | Retry ref sink code now => (pg_retry ref sink code now s).2
  end.

Definition call_wf (c : buffer_call) : Prop :=
  match c with Enqueue _ t _ => trace_ok t | _ => True end.

(** Fewer unfinished rows, fewer unfinished traces. *)
Lemma pending_mono s s' :
  t_trace_payload s' = t_trace_payload s →
  (∀ ref sink, row_unfinished s' ref sink = true → row_unfinished s ref sink = true) →
  (pg_pending_traces s' <= pg_pending_traces s)%Z.
Proof.
  intros Hp Hr. unfold pg_pending_traces. rewrite Hp. apply inj_le, filter_length_le.
  intros kv _. rewrite !existsb_exists. intros (sink & Hin & H). eauto.
Qed.

Lemma set_row_unfinished key r s :
  (dr_state r ≠ ACKED → row_unfinished s key.1 key.2 = true) →
  ∀ ref sink, row_unfinished (set_row key r s) ref sink = true → row_unfinished s ref sink = true.
Proof.
  intros H ref sink. unfold row_unfinished at 1. cbn [set_row t_delivery]. rewrite lookup_insert.
  case_decide as Hk; [subst key; cbn in H|done].
  intros Hb. bool_prop. auto.
Qed.

Lemma leased_pending sink until rows : ∀ s s',
  (∀ ref r, (ref, r) ∈ rows → row_unfinished s ref sink = true) →
  sfor (E:=buffer_error) rows
    (λ row, smodify (set_row (row.1, sink) (lease_row until row.2))) s = (Ok tt, s') →
  (pg_pending_traces s' <= pg_pending_traces s)%Z.
Proof.
  induction rows as [|[ref r] rows IH]; intros s s' Hall H; cbn in H.
  - by injection H as <-.
  - unfold sbind, smodify in H. assert (row_unfinished s ref sink = true) as Hu by (eapply Hall; left).
    apply IH in H.
    + etrans; [exact H|]. apply pending_mono; [done|]. by apply set_row_unfinished.
    + intros ref' r' Hin. unfold row_unfinished. cbn [set_row t_delivery]. rewrite lookup_insert.
      case_decide; [done|]. apply (Hall ref' r'). by right.
Qed.

Lemma enqueue_pending nonce t now s :
  (pg_pending_traces s <= capacity)%Z →
  (pg_pending_traces (pg_enqueue encrypt cipher capacity nonce t now s).2 <= capacity)%Z.
Proof.
  intros Hc. unfold pg_enqueue, slift. unfold sbind at 1.
  destruct (seal encrypt cipher nonce t) as [p|e]; [|done]. rewrite connected.
  destruct (pool_open s); [|done]. unfold atomically, sbind, sget, sguard, smodify, sret.
  destruct (t_trace_payload s !! st_trace_ref t) as [prior|] eqn:Hs; [by destruct (negb _)|].
  destruct (capacity <=? _)%Z eqn:Hle; [done|]. bool_prop. cbn [snd].
  unfold pg_pending_traces in *.
  change (t_trace_payload (add_trace (st_trace_ref t) p now s))
    with (<[st_trace_ref t := p]> (t_trace_payload s)).
  rewrite (filter_perm _ _ _ (map_to_list_insert _ _ _ Hs)).
  etrans; [apply inj_le, filter_cons_le|].
  etrans; [apply inj_le, le_n_S, (filter_length_le _
    (λ kv, existsb (row_unfinished s kv.1) all_sinks))|lia].
  intros [ref q] Hin%elem_of_map_to_list. cbn [fst].
  rewrite !existsb_exists. intros (sink & Hsink & Hu). exists sink. split; [done|].
  unfold row_unfinished in *. rewrite add_trace_rows, decide_False in Hu; [done|congruence].
Qed.

Lemma retry_row_acked now code r :
  row_allowed r = true → dr_state r = ACKED → row_allowed (retry_row now code r) = false.
Proof.
  unfold row_allowed. intros H Ha. bool_prop. cbn.
  assert (is_Some (dr_acked_at r)) as [z Hz] by naive_solver. rewrite Hz.
  rewrite (bool_decide_eq_false_2 (PENDING = ACKED ↔ _)); [by rewrite andb_false_r|].
  intros [_ H']. by discriminate H'; eexists.
Qed.

(** An update that leaves an unfinished row unfinished, or finishes it. *)
Lemma update_pending ref sink f s v :
  pg_vault decrypt cipher s v →
  (∀ r, row_allowed r = true → dr_state r = ACKED → dr_state (f r) ≠ ACKED →
     row_allowed (f r) = false) →
  (pg_pending_traces (update_row (ref, sink) f s).2 <= pg_pending_traces s)%Z.
Proof.
  intros Hv Hf. unfold update_row, sbind, sget, sguard, smodify, sret.
  destruct (t_delivery s !! (ref, sink)) as [r|] eqn:Hr; [|done].
  destruct (row_allowed (f r)) eqn:Hal; [|done]. cbn [negb snd].
  apply pending_mono; [done|]. apply set_row_unfinished. cbn. intros Hna.
  unfold row_unfinished. rewrite Hr. destruct (pv_row _ _ _ _ Hv _ _ _ Hr) as (Hal0 & _).
  apply negb_true_iff, bool_decide_eq_false. intros Ha. by rewrite (Hf r Hal0 Ha Hna) in Hal.
Qed.

Lemma pg_call_vault c s v :
  pg_vault decrypt cipher s v → call_wf c → ∃ v', pg_vault decrypt cipher (pg_call c s) v'.
Proof using Haead.
  intros Hv Hwf. destruct c; cbn [pg_call].
  - destruct (pg_enqueue encrypt cipher capacity nonce t now s) as [r s'] eqn:H.
    pose proof (pg_enqueue_law encrypt decrypt Haead cipher capacity _ _ _ _ _ _ _ Hv Hwf H) as Hl.
    destruct r as [[]|]; [destruct Hl|destruct Hl|]; eauto.
  - destruct (pg_claim _ _ _ _ _ _ _ s) as [r s'] eqn:H. exists v.
    by destruct (pg_claim_law decrypt cipher _ _ _ _ _ _ _ _ _ Hv H).
  - destruct (pg_acknowledge _ _ _ s) as [r s'] eqn:H.
    pose proof (pg_acknowledge_law decrypt cipher _ _ _ _ _ _ _ Hv H) as Hl.
    destruct r; [destruct Hl as (h & _ & ?)|]; eauto.
  - destruct (pg_retry _ _ _ _ s) as [r s'] eqn:H.
    pose proof (pg_retry_law decrypt cipher _ _ _ _ _ _ _ _ Hv H) as Hl. destruct r; eauto.
Qed.

Lemma pg_call_pending c s v :
  pg_vault decrypt cipher s v → (pg_pending_traces s <= capacity)%Z →
  (pg_pending_traces (pg_call c s) <= capacity)%Z.
Proof.
  intros Hv Hc. destruct c as [nonce t now|sink limit lease now locked|ref sink now|ref sink code now];
    cbn [pg_call].
  - by apply enqueue_pending.
  - unfold pg_claim. rewrite connected. destruct (pool_open s); [|done].
    unfold sget, sbind at 1. cbv beta iota.
    set (rows := selected sink limit now locked s). unfold sbind at 1.
    destruct (sfor rows _ s) as [r1 s1] eqn:Hfor.
    pose proof (sfor_modify_ok (E:=buffer_error) (λ row : string * delivery_row,
      set_row (row.1, sink) (lease_row (now + seconds lease) row.2)) rows s) as Hok.
    cbn beta in Hok. rewrite Hfor in Hok. cbn in Hok. subst r1.
    apply leased_pending in Hfor; [cbn; lia|]. intros ref r [Hd Hcl]%selected_elem.
    unfold row_unfinished. rewrite Hd. apply negb_true_iff, bool_decide_eq_false.
    by eapply claimable_not_acked.
  - unfold pg_acknowledge. rewrite connected. destruct (pool_open s); [|done].
    assert (pg_pending_traces (update_row (ref, sink) (ack_row now) s).2 <= pg_pending_traces s)%Z as Hu
      by (by eapply update_pending).
    unfold sbind, sguard. destruct (update_row _ _ s) as [[u|e] s1]; cbn in *; lia.
  - unfold pg_retry, sguard. unfold sbind at 1. destruct (bad_code code); [done|].
    rewrite connected. destruct (pool_open s); [|done].
    assert (pg_pending_traces (update_row (ref, sink) (retry_row now code) s).2 <= pg_pending_traces s)%Z
      as Hu by (eapply update_pending; [done|intros; by apply retry_row_acked]).
    unfold sbind, sret. destruct (update_row _ _ s) as [[u|e] s1]; cbn in *; lia.
Qed.

(** over any sequence of calls the durable buffer holds at most [capacity]
    unfinished traces: [enqueue] refuses beyond it, and no call makes an
    acknowledged delivery pending again. *)
Theorem durable_buffer_is_bounded calls s v :
  pg_vault decrypt cipher s v → (pg_pending_traces s <= capacity)%Z → Forall call_wf calls →
  (pg_pending_traces (foldl (flip pg_call) s calls) <= capacity)%Z.
Proof using Haead.
  intros Hv Hc Hwf. revert s v Hv Hc. induction Hwf as [|c calls Hcw _ IH]; intros s v Hv Hc; [done|].
  destruct (pg_call_vault c s v Hv Hcw) as [v' Hv']. apply (IH _ v' Hv'). by eapply pg_call_pending.
Qed.

(** A retry of an unacknowledged delivery makes it available again after a
    delay that doubles with its attempts, from one second up to 32. *)
Theorem retry_delay_bounded ref sink code now s v r :
  pg_vault decrypt cipher s v → pool_open s = true → bad_code code = false →
  t_delivery s !! (ref, sink) = Some r → dr_state r ≠ ACKED →
  ∃ r', pg_retry ref sink code now s = (Ok tt, set_row (ref, sink) r' s) ∧
    dr_state r' = PENDING ∧ dr_attempt_count r' = (dr_attempt_count r + 1)%Z ∧
    dr_next_attempt_at r' = (now + seconds (2 ^ Z.min (dr_attempt_count r) 5))%Z ∧
    (now + seconds 1 <= dr_next_attempt_at r' <= now + seconds 32)%Z ∧
    ∀ t, claimable t r' = true ↔ (dr_next_attempt_at r' <= t)%Z.
Proof.
  intros Hv Ho Hb Hr Hna. destruct (pv_row _ _ _ _ Hv _ _ _ Hr) as (Hal & _).
  unfold row_allowed in Hal. bool_prop. set (n := dr_attempt_count r) in *.
  assert (backoff n = 2 ^ Z.min n 5)%Z as Hbk.
  { unfold backoff. rewrite Z.shiftl_mul_pow2 by lia.
    assert (2 ^ Z.min n 5 <= 2 ^ 5)%Z by (apply Z.pow_le_mono_r; lia). change (2 ^ 5)%Z with 32%Z in *. lia. }
  assert (1 <= 2 ^ Z.min n 5 <= 32)%Z as Hrange.
  { split; [change 1%Z with (2 ^ 0)%Z at 1; apply Z.pow_le_mono_r; lia|].
    change 32%Z with (2 ^ 5)%Z. apply Z.pow_le_mono_r; lia. }
  exists (retry_row now code r). split_and!.
  - unfold pg_retry, sguard. unfold sbind at 1. rewrite Hb, connected, Ho.
    unfold update_row, sbind, sget, sguard, smodify, sret. rewrite Hr.
    assert (row_allowed (retry_row now code r) = true) as ->; [|done].
    unfold row_allowed. cbn. fold n. rewrite !bool_decide_eq_true_2; [apply Z.leb_le; lia| |].
    + split; [done|]. naive_solver.
    + split; [done|by intros [? [=]]].
  - done.
  - done.
  - cbn [retry_row dr_next_attempt_at]. fold n. by rewrite Hbk.
  - cbn [retry_row dr_next_attempt_at]. fold n. rewrite Hbk. unfold seconds, MICRO. lia.
  - cbn [retry_row dr_next_attempt_at]. fold n. rewrite Hbk. unfold seconds, MICRO. lia.
  - intros t. unfold claimable. rewrite bool_decide_eq_true_2 by done. cbn [orb andb].
    apply Z.leb_le.
Qed.

(** The retry of an acknowledged delivery is an exception, where the memory
    buffer reopens the delivery. *)
Lemma retry_of_acked_raises ref sink code now s v r :
  pg_vault decrypt cipher s v → pool_open s = true → bad_code code = false →
  t_delivery s !! (ref, sink) = Some r → dr_state r = ACKED →
  pg_retry ref sink code now s = (Err CheckViolation, s).
Proof.
  intros Hv Ho Hb Hr Ha. destruct (pv_row _ _ _ _ Hv _ _ _ Hr) as (Hal & _).
  unfold pg_retry, sguard. unfold sbind at 1. rewrite Hb, connected, Ho.
  unfold update_row, sbind, sget, sguard. rewrite Hr. by rewrite (retry_row_acked now code r Hal Ha).
Qed.
End Bounds.

(** ** Witnesses *)

Definition demo_table : PostgresTraceBuffer :=
  {| pool_open := true; t_trace_payload := ∅; t_delivery := ∅ |}.

Lemma demo_table_vault : pg_vault demo_decrypt demo_cipher demo_table ∅.
Proof. constructor; cbn; intros *; by rewrite lookup_empty. Qed.

Lemma demo_pg_enqueue :
  ∃ p, pg_enqueue demo_encrypt demo_cipher 1 "nonce" demo_trace 0 demo_table =
    (Ok true, add_trace "ref" p 0 demo_table).
Proof.
  eexists. unfold pg_enqueue, slift, seal. unfold sbind at 1.
  rewrite bool_decide_eq_true_2 by exact (eq_sym (proj2 demo_trace_ok)). reflexivity.
Qed.

Lemma durable_buffer_is_bounded_witness :
  Forall call_wf [Enqueue "n1" demo_trace 0; Claim OTLP 5 30 1 []; Enqueue "n2" demo_trace 2] ∧
  (pg_pending_traces (foldl (flip (pg_call demo_encrypt demo_decrypt demo_cipher 1)) demo_table
     [Enqueue "n1" demo_trace 0; Claim OTLP 5 30 1 []; Enqueue "n2" demo_trace 2]) <= 1)%Z.
Proof.
  assert (Hwf : Forall call_wf [Enqueue "n1" demo_trace 0; Claim OTLP 5 30 1 []; Enqueue "n2" demo_trace 2])
    by (repeat constructor).
  split; [exact Hwf|].
  apply (durable_buffer_is_bounded demo_encrypt demo_decrypt demo_aead demo_cipher 1 _ demo_table ∅
    demo_table_vault); [vm_compute; discriminate|exact Hwf].
Defined.

Lemma retry_delay_bounded_witness :
  ∃ s r', pg_retry "ref" OTLP "outage" 7 s = (Ok tt, set_row ("ref", OTLP) r' s) ∧
    dr_next_attempt_at r' = (7 + seconds 1)%Z.
Proof.
  destruct demo_pg_enqueue as [p Hp]. exists (add_trace "ref" p 0 demo_table).
  pose proof (pg_enqueue_law demo_encrypt demo_decrypt demo_aead demo_cipher 1 _ _ _ _ _ _ _
    demo_table_vault demo_trace_ok Hp) as [_ Hv].
  destruct (retry_delay_bounded demo_decrypt demo_cipher "ref" OTLP "outage" 7 _ _ _ Hv eq_refl eq_refl
    eq_refl ltac:(discriminate)) as (r' & Hr & _ & _ & Hn & _).
  exists r'. split; [exact Hr|exact Hn].
Defined.
