(* ===== verification/Exporters.v ===== *)
(** * Trace exporters: [src/faultwitness/observability/exporters.py]

    The LangSmith, OTLP/HTTP and archive exporters as programs over a world: [W]
    is the state of everything beyond the HTTP client, [send] is one request made
    with it, and [clock] is [datetime.now(UTC)].  Closing an owned client is left
    out.  A request body is the document [httpx] serialises, or raw content. *)
From Stdlib Require Import Ascii.
From S2P Require Import Prelude Json Sha256 PyDyn PyCalendar Regex.
From S2P Require Import Sanitizer ModelTypes Channel.

Record ExportFailure := { code : string; retryable : bool }.
(** An [ExportFailure], or another exception by name. *)
Inductive export_exn :=
| Failed (f : ExportFailure)
| Raised (name : string).
Definition export_failure (code : string) (retryable : bool) : export_exn :=
  Failed {| code := code; retryable := retryable |}.

Inductive request_body := NoBody | JsonBody (v : val) | Content (s : string).
Record http_request := {
  rq_method : string; rq_url : string; rq_headers : list (string * string); rq_body : request_body;
}.

(** An exception of pure code, in an exporter. *)
Definition escaping {A} (r : pyres A) : result export_exn A := rmap_err Raised r.

(** ** Values of spans *)

(** [{span.span_ref: span for span in trace.spans}] *)
Definition by_ref (spans : list SanitizedSpan) : gmap string SanitizedSpan :=
  foldl (λ m s, <[ss_span_ref s := s]> m) ∅ spans.

(** [next(span for span in trace.spans if span.parent_span_ref is None)]; inside
    a coroutine its [StopIteration] becomes a [RuntimeError]. *)
Definition is_root (s : SanitizedSpan) : bool :=
  match ss_parent_span_ref s with None => true | Some _ => false end.
Definition root_span (t : SanitizedTrace) : pyres SanitizedSpan :=
  from_option_or "RuntimeError" (List.find is_root (st_spans t)).

Definition read_time (text : string) : pyres Z := from_option_or "ValueError" (fromisoformat text).

(** ** The dotted order of LangSmith *)

Definition own_order (s : SanitizedSpan) : pyres string :=
  let* t := read_time (ss_started_at s) in Ok (compact_micros t +:+ ss_remote_id s).

(** [visit], with the orders memoized; [frames] is what the recursion limit leaves. *)
Fixpoint visit (frames : nat) (refs : gmap string SanitizedSpan) (s : SanitizedSpan)
    (orders : gmap string string) : pyres (string * gmap string string) :=
  match orders !! ss_span_ref s with
  | Some order => Ok (order, orders)
  | None =>
      let* own := own_order s in
      match ss_parent_span_ref s with
      | None => Ok (own, <[ss_span_ref s := own]> orders)
      | Some p =>
          let* parent := from_option_or "KeyError" (refs !! p) in
          match frames with
          | O => Err "RecursionError"
          | S frames =>
              let* (above, orders) := visit frames refs parent orders in
              let order := above +:+ "." +:+ own in
              Ok (order, <[ss_span_ref s := order]> orders)
          end
      end
  end.

Definition langsmith_order (frames : nat) (t : SanitizedTrace) : pyres (gmap string string) :=
  rfold (λ orders s, let* (_, orders) := visit frames (by_ref (st_spans t)) s orders in Ok orders)
    (st_spans t) ∅.

(** ** Documents of LangSmith *)

Definition run_type (stage : string) : string :=
  if bool_decide (stage = "model") then "llm" else if bool_decide (stage = "tool") then "tool" else "chain".

(** [_parent_remote_id] *)
Definition parent_remote_id (t : SanitizedTrace) (s : SanitizedSpan) : pyres (option string) :=
  match ss_parent_span_ref s with
  | None => Ok None
  | Some p =>
      let* item := from_option_or "RuntimeError"
        (List.find (λ item, bool_decide (ss_span_ref item = p)) (st_spans t)) in
      Ok (Some (ss_remote_id item))
  end.

(** [{"candidate_sha": ..., **span.attributes}] *)
Definition run_metadata (t : SanitizedTrace) (s : SanitizedSpan) : mapping :=
  foldl (λ d kv, dset kv.1 kv.2 d)
    [(VStr "candidate_sha", VStr (st_candidate_sha t));
     (VStr "contracts_version", VStr (st_contracts_version t));
     (VStr "correlation_ref", VStr (st_correlation_ref t));
     (VStr "payload_digest", VStr (st_payload_digest t))] (ss_attributes s).

Definition run_document (project : string) (t : SanitizedTrace) (root s : SanitizedSpan)
    (parent : option string) (order : string) : val :=
  sdict ([("id", VStr (ss_remote_id s)); ("trace_id", VStr (ss_remote_id root))] ++
    match parent with Some p => [("parent_run_id", VStr p)] | None => [] end ++
    [("dotted_order", VStr order); ("name", VStr (ss_name s));
     ("run_type", VStr (run_type (ss_stage s))); ("session_name", VStr project);
     ("start_time", VStr (ss_started_at s)); ("end_time", VStr (ss_ended_at s));
     ("inputs", sdict [("trace_ref", VStr (st_trace_ref t)); ("stage", VStr (ss_stage s))]);
     ("outputs", sdict [("status", VStr (ss_status s))]);
     ("extra", sdict [("metadata", VDict (run_metadata t s))]);
     ("tags", VList [VStr "faultwitness"; VStr "g01"; VStr (ss_stage s)])]).

(** [_http_failure] *)
Definition http_export_failure (prefix : string) (status : Z) : export_exn :=
  export_failure (prefix +:+ "_http_" +:+ int_repr status)
    (bool_decide (status ∈ [408; 409; 425; 429; 500; 502; 503; 504]%Z)).

(** What [_verify_existing] reads of a run it is shown. *)
Definition read_metadata (text : string) : result export_exn val :=
  match
    (let* v := from_option_or "JSONDecodeError" (loads text) in
     let* extra := get_attr v "extra" (VDict []) in get_attr extra "metadata" (VDict []))
  with
  | Ok metadata => Ok metadata
  | Err name =>
      Err (if bool_decide (name ∈ ["JSONDecodeError"; "ValueError"; "AttributeError"])
           then export_failure "langsmith_reconcile_invalid" false else Raised name)
  end.

Section Exporters.
Context {W : Type} (send : http_request → W → (http_error + Response) * W) (clock : W → Z).
Context (frames : nat).
Abbreviation ExportM := (SE W export_exn).

(** A request under [except httpx.TimeoutException] and [httpx.TransportError]. *)
Definition call (prefix : string) (rq : http_request) : ExportM Response := λ w,
  let '(answer, w) := send rq w in
  (match answer with
   | inr response => Ok response
   | inl TimeoutException => Err (export_failure (prefix +:+ "_timeout") true)
   | inl TransportError => Err (export_failure (prefix +:+ "_transport") true)
   | inl (OtherHttpError name) => Err (Raised name)
   end, w).

(** ** [LangSmithExporter] *)

Record LangSmithExporter := {
  ls_project : string; ls_endpoint : string; ls_headers : list (string * string);
}.
(** [__init__]; [None] is its [ValueError]. *)
Definition new_langsmith (api_key project endpoint : string) (workspace_id : option string) :
    option LangSmithExporter :=
  if bool_decide (api_key = "") || bool_decide (project = "") then None
  else Some {| ls_project := project; ls_endpoint := rstrip_in slash endpoint;
               ls_headers := ("x-api-key", api_key) ::
                 match workspace_id with
                 | Some w => if bool_decide (w = "") then [] else [("x-tenant-id", w)]
                 | None => []
                 end |}.

Definition post_run (x : LangSmithExporter) (body : val) : http_request :=
  {| rq_method := "POST"; rq_url := ls_endpoint x +:+ "/runs"; rq_headers := ls_headers x;
     rq_body := JsonBody body |}.
Definition get_run (x : LangSmithExporter) (id : string) : http_request :=
  {| rq_method := "GET"; rq_url := ls_endpoint x +:+ "/runs/" +:+ id; rq_headers := ls_headers x;
     rq_body := NoBody |}.

(** [_verify_existing] *)
Definition verify_existing (x : LangSmithExporter) (t : SanitizedTrace) (s : SanitizedSpan) : ExportM unit :=
  let! response := call "langsmith" (get_run x (ss_remote_id s)) in
  sguard (negb (status_code response =? 200)%Z)
    (http_export_failure "langsmith_reconcile" (status_code response)) ;;;
  let! metadata := slift (read_metadata (body response)) in
  let! digest := slift (escaping (get_attr metadata "payload_digest" VNone)) in
  sguard (negb (val_is digest (st_payload_digest t))) (export_failure "langsmith_identity_conflict" false).

(** One iteration of the loop of [export]. *)
Definition export_run (x : LangSmithExporter) (t : SanitizedTrace) (orders : gmap string string)
    (root s : SanitizedSpan) : ExportM unit :=
  let! parent := slift (escaping (parent_remote_id t s)) in
  let! order := slift (escaping (from_option_or "KeyError" (orders !! ss_span_ref s))) in
  let! response := call "langsmith" (post_run x (run_document (ls_project x) t root s parent order)) in
  if bool_decide (status_code response ∈ [200; 201; 202]%Z) then sret tt
  else if (status_code response =? 409)%Z then verify_existing x t s
  else sraise (http_export_failure "langsmith" (status_code response)).

Definition langsmith_export (x : LangSmithExporter) (t : SanitizedTrace) : ExportM val :=
  let! orders := slift (escaping (langsmith_order frames t)) in
  let! root := slift (escaping (root_span t)) in
  sfor (st_spans t) (export_run x t orders root) ;;;
  sret (sdict [("sink", VStr "langsmith"); ("trace_ref", VStr (st_trace_ref t));
               ("remote_trace_id", VStr (ss_remote_id root));
               ("span_count", VInt (Z.of_nat (length (st_spans t))))]).

(** ** [OTLPHTTPExporter] *)

(** [_any_value] *)
Definition any_value (v : val) : val :=
  match v with
  | VBool b => sdict [("boolValue", VBool b)]
  | VInt z => sdict [("intValue", VStr (int_repr z))]
  | VFloat r => sdict [("doubleValue", VFloat r)]
  | v => sdict [("stringValue", v)]
  end.

(** [str(int(datetime.fromisoformat(text).timestamp() * 1_000_000_000))] *)
Definition nanos_text (text : string) : pyres string :=
  let* t := read_time text in Ok (int_repr (unix_nanos t)).

Definition attribute_entry (kv : string * val) : val :=
  sdict [("key", VStr kv.1); ("value", any_value kv.2)].
Definition string_entry (key value : string) : val := attribute_entry (key, VStr value).

(** The attributes of a span: the trace's first, overridden by the span's own. *)
Fixpoint put_entry (kvs : list (string * val)) (kv : string * val) : list (string * val) :=
  match kvs with
  | [] => [kv]
  | (k, v) :: rest => if bool_decide (k = kv.1) then (k, kv.2) :: rest else (k, v) :: put_entry rest kv
  end.
Definition span_attributes (t : SanitizedTrace) (s : SanitizedSpan) : list (string * val) :=
  foldl put_entry
    [("faultwitness.trace_ref", VStr (st_trace_ref t));
     ("faultwitness.correlation_ref", VStr (st_correlation_ref t));
     ("faultwitness.candidate_sha", VStr (st_candidate_sha t));
     ("faultwitness.contracts_version", VStr (st_contracts_version t));
     ("faultwitness.stage", VStr (ss_stage s))] (ss_attributes s).

Definition status_code_of (status : string) : pyres Z :=
  if bool_decide (status = "unset") then Ok 0%Z
  else if bool_decide (status = "ok") then Ok 1%Z
  else if bool_decide (status = "error") then Ok 2%Z
  else Err "KeyError".

Definition otlp_span (t : SanitizedTrace) (s : SanitizedSpan) : pyres val :=
  let* started := nanos_text (ss_started_at s) in
  let* ended := nanos_text (ss_ended_at s) in
  let* status := status_code_of (ss_status s) in
  let* parent :=
    match ss_parent_span_ref s with
    | None => Ok []
    | Some p =>
        let* item := from_option_or "KeyError" (by_ref (st_spans t) !! p) in
        Ok [("parentSpanId", VStr (ss_otlp_span_id item))]
    end in
  Ok (sdict ([("traceId", VStr (st_otlp_trace_id t)); ("spanId", VStr (ss_otlp_span_id s));
              ("name", VStr (ss_name s)); ("kind", VInt 1);
              ("startTimeUnixNano", VStr started); ("endTimeUnixNano", VStr ended);
              ("attributes", VList (attribute_entry <$> sort_keys (span_attributes t s)));
              ("status", sdict [("code", VInt status)])] ++ parent)).

Definition scope_document : val :=
  sdict [("name", VStr "faultwitness.observability"); ("version", VStr "1.0.0")].
Definition service_name : val := string_entry "service.name" "faultwitness".

(** [payload] *)
Definition otlp_payload (t : SanitizedTrace) : pyres val :=
  let* spans := rmapM (otlp_span t) (st_spans t) in
  Ok (sdict [("resourceSpans", VList [sdict
    [("resource", sdict [("attributes",
        VList [service_name; string_entry "service.version" (st_candidate_sha t)])]);
     ("scopeSpans", VList [sdict [("scope", scope_document); ("spans", VList spans)]])]])]).

Definition trace_entries (t : SanitizedTrace) : val :=
  VList [string_entry "faultwitness.trace_ref" (st_trace_ref t);
         string_entry "faultwitness.correlation_ref" (st_correlation_ref t);
         string_entry "faultwitness.candidate_sha" (st_candidate_sha t)].
Definition service_resource : val := sdict [("attributes", VList [service_name])].

(** [metric_payload] *)
Definition metric_payload (t : SanitizedTrace) : pyres val :=
  let* timestamp := nanos_text (st_emitted_at t) in
  Ok (sdict [("resourceMetrics", VList [sdict
    [("resource", service_resource);
     ("scopeMetrics", VList [sdict
       [("scope", scope_document);
        ("metrics", VList [sdict
          [("name", VStr "faultwitness.trace.exported"); ("unit", VStr "{trace}");
           ("sum", sdict
             [("aggregationTemporality", VInt 2); ("isMonotonic", VBool true);
              ("dataPoints", VList [sdict
                [("attributes", trace_entries t); ("startTimeUnixNano", VStr timestamp);
                 ("timeUnixNano", VStr timestamp); ("asInt", VStr "1")]])])]])]])]])]).

(** [log_payload] *)
Definition log_payload (t : SanitizedTrace) : pyres val :=
  let* timestamp := nanos_text (st_emitted_at t) in
  Ok (sdict [("resourceLogs", VList [sdict
    [("resource", service_resource);
     ("scopeLogs", VList [sdict
       [("scope", scope_document);
        ("logRecords", VList [sdict
          [("timeUnixNano", VStr timestamp); ("severityNumber", VInt 9); ("severityText", VStr "INFO");
           ("body", sdict [("stringValue", VStr "trace_exported")]);
           ("attributes", trace_entries t)]])]])]])]).

(** [OTLPHTTPExporter.__init__]: the endpoint without the suffix of a signal *)
Definition new_otlp (endpoint : string) : string :=
  let endpoint := rstrip_in slash endpoint in
  match List.find (endswith endpoint) ["/v1/traces"; "/v1/metrics"; "/v1/logs"] with
  | Some suffix => drop_last (String.length suffix) endpoint
  | None => endpoint
  end.

(** The count of rejected items in the reply. *)
Definition rejected (field text : string) : pyres Z :=
  let* reply := from_option_or "JSONDecodeError" (loads text) in
  let* partial := get_attr reply "partialSuccess" VNone in
  let* count := get_attr (val_or partial (VDict [])) field (VInt 0) in
  val_int count.

(** [_send] *)
Definition otlp_send (endpoint signal : string) (document : val) (rejection_field : string) : ExportM unit :=
  let! response := call "otlp"
    {| rq_method := "POST"; rq_url := endpoint +:+ "/v1/" +:+ signal;
       rq_headers := [("content-type", "application/json")]; rq_body := JsonBody document |} in
  sguard (negb (status_code response =? 200)%Z)
    (export_failure ("otlp_" +:+ signal +:+ "_http_" +:+ int_repr (status_code response))
      (bool_decide (status_code response ∈ [408; 425; 429; 502; 503; 504]%Z))) ;;;
  if bool_decide (body response = "") then sret tt
  else
    let! count := slift (escaping (rejected rejection_field (body response))) in
    sguard (negb (count =? 0)%Z) (export_failure ("otlp_" +:+ signal +:+ "_partial_rejection") false).

Definition otlp_export (endpoint : string) (t : SanitizedTrace) : ExportM val :=
  let! traces := slift (escaping (otlp_payload t)) in
  otlp_send endpoint "traces" traces "rejectedSpans" ;;;
  let! metrics := slift (escaping (metric_payload t)) in
  otlp_send endpoint "metrics" metrics "rejectedDataPoints" ;;;
  let! logs := slift (escaping (log_payload t)) in
  otlp_send endpoint "logs" logs "rejectedLogRecords" ;;;
  sret (sdict [("sink", VStr "otlp"); ("trace_ref", VStr (st_trace_ref t));
               ("otlp_trace_id", VStr (st_otlp_trace_id t));
               ("span_count", VInt (Z.of_nat (length (st_spans t))))]).

(** ** [EvidenceArchiveExporter] *)

Record S3Credentials := { access_key : string; secret_key : string; region : string }.
Record EvidenceArchiveExporter := {
  ar_endpoint : string; ar_credentials : S3Credentials; ar_bucket : string; ar_prefix : string;
}.
Definition new_archive (endpoint : string) (credentials : S3Credentials) (bucket prefix : string) :
    EvidenceArchiveExporter :=
  {| ar_endpoint := rstrip_in slash endpoint; ar_credentials := credentials; ar_bucket := bucket;
     ar_prefix := rstrip_in slash (lstrip_in slash prefix) |}.

(** [{stage: sum(...) for stage in sorted({...})}] *)
Definition stage_count (t : SanitizedTrace) (stage : string) : Z :=
  Z.of_nat (length (List.filter (λ s, bool_decide (ss_stage s = stage)) (st_spans t))).
Definition stage_counts (t : SanitizedTrace) : list (string * val) :=
  (λ stage, (stage, VInt (stage_count t stage))) <$>
    sort_strings (remove_dups (ss_stage <$> st_spans t)).

Definition manifest (t : SanitizedTrace) (root : SanitizedSpan) : val :=
  sdict [("schema_version", VStr "1.0.0"); ("candidate_sha", VStr (st_candidate_sha t));
         ("trace_ref", VStr (st_trace_ref t)); ("correlation_ref", VStr (st_correlation_ref t));
         ("payload_digest", VStr (st_payload_digest t));
         ("span_count", VInt (Z.of_nat (length (st_spans t))));
         ("stage_counts", sdict (stage_counts t));
         ("langsmith_trace_id", VStr (ss_remote_id root));
         ("otlp_trace_id", VStr (st_otlp_trace_id t))].

Definition object_key (x : EvidenceArchiveExporter) (t : SanitizedTrace) (content : string) : string :=
  ar_prefix x +:+ "/" +:+ st_candidate_sha t +:+ "/" +:+ sha256_hex content +:+ ".json".

Definition newline : string := String "010" "".
Definition dvc_pointer (content key : string) : string :=
  utf8 ("outs:" +:+ newline +:+ "- hash: sha256" +:+ newline +:+ "  sha256: " +:+ sha256_hex content +:+
    newline +:+ "  size: " +:+ int_repr (str_len content) +:+ newline +:+ "  path: " +:+ key +:+ newline).

(** [_signed_headers] *)
Definition signing_scope (x : EvidenceArchiveExporter) (now : Z) : string :=
  compact_date now +:+ "/" +:+ region (ar_credentials x) +:+ "/s3/aws4_request".
Definition signed_names : string := "host;x-amz-content-sha256;x-amz-date".
Definition canonical_request (method content : string) (parsed : parsed_url) (now : Z) : string :=
  let payload_hash := sha256_hex content in
  method +:+ newline +:+
  (if bool_decide (u_path parsed = "") then "/" else u_path parsed) +:+ newline +:+
  u_query parsed +:+ newline +:+
  ("host:" +:+ u_netloc parsed +:+ newline +:+ "x-amz-content-sha256:" +:+ payload_hash +:+ newline +:+
   "x-amz-date:" +:+ compact_seconds now +:+ newline) +:+ newline +:+
  signed_names +:+ newline +:+ payload_hash.
Definition string_to_sign (x : EvidenceArchiveExporter) (request : string) (now : Z) : string :=
  "AWS4-HMAC-SHA256" +:+ newline +:+ compact_seconds now +:+ newline +:+ signing_scope x now +:+ newline +:+
  sha256_hex (utf8 request).
Definition sign (key value : string) : string := hmac_digest key (utf8 value).
Definition signing_key (x : EvidenceArchiveExporter) (now : Z) : string :=
  let credentials := ar_credentials x in
  sign (sign (sign (sign (utf8 ("AWS4" +:+ secret_key credentials)) (compact_date now))
    (region credentials)) "s3") "aws4_request".
Definition signature (x : EvidenceArchiveExporter) (request : string) (now : Z) : string :=
  hmac_hex (signing_key x now) (utf8 (string_to_sign x request now)).

Definition signed_headers (x : EvidenceArchiveExporter) (method url content : string) (now : Z) :
    pyres (list (string * string)) :=
  let* parsed := from_option_or "ValueError" (urlparse url) in
  let request := canonical_request method content parsed now in
  Ok [("authorization",
       "AWS4-HMAC-SHA256 " +:+ "Credential=" +:+ access_key (ar_credentials x) +:+ "/" +:+
       signing_scope x now +:+ ", SignedHeaders=" +:+ signed_names +:+
       ", Signature=" +:+ signature x request now);
      ("host", u_netloc parsed); ("x-amz-content-sha256", sha256_hex content);
      ("x-amz-date", compact_seconds now)].

(** [_put] *)
Definition object_url (x : EvidenceArchiveExporter) (key : string) : string :=
  ar_endpoint x +:+ "/" +:+ quote no_char (ar_bucket x) +:+
  (if bool_decide (key = "") then "" else "/" +:+ quote slash key).
Definition put (x : EvidenceArchiveExporter) (key content : string) : ExportM unit :=
  let url := object_url x key in
  let! w := sget in
  let! headers := slift (escaping (signed_headers x "PUT" url content (clock w))) in
  let! response := call "archive"
    {| rq_method := "PUT"; rq_url := url; rq_headers := headers; rq_body := Content content |} in
  let accepted := ([200; 201; 204] ++ if bool_decide (key = "") then [409] else [])%Z in
  sguard (negb (bool_decide (status_code response ∈ accepted)))
    (export_failure ("archive_http_" +:+ int_repr (status_code response))
      (bool_decide (status_code response ∈ [408; 425; 429; 500; 502; 503; 504]%Z))).

(** The bytes [export] writes, and under which key. *)
Definition archive_object (x : EvidenceArchiveExporter) (t : SanitizedTrace) : pyres (string * string) :=
  let* root := root_span t in
  let content := canonical_json (manifest t root) in
  Ok (object_key x t content, content).

Definition archive_export (x : EvidenceArchiveExporter) (t : SanitizedTrace) : ExportM val :=
  let! (key, content) := slift (escaping (archive_object x t)) in
  put x "" "" ;;;
  put x key content ;;;
  put x (key +:+ ".dvc") (dvc_pointer content key) ;;;
  sret (sdict [("sink", VStr "archive"); ("trace_ref", VStr (st_trace_ref t));
               ("artifact_sha256", VStr (sha256_hex content));
               ("private_uri", VStr ("s3://" +:+ ar_bucket x +:+ "/" +:+ key))]).
End Exporters.
