(* ===== verification/ExportersTheorems.v ===== *)
(** * What the exporters deliver

    The order LangSmith sorts a trace by, what an acknowledged export has stored
    there whatever happened on the way, the spans handed to OTLP, and the objects
    of the archive. *)
From Stdlib Require Import Ascii.
From S2P Require Import Prelude Json JsonFacts Sha256 PyDyn PyCalendar Regex.
From S2P Require Import Regex Sanitizer SanitizerFacts Cipher ModelTypes Channel Exporters.

(** ** Spans by reference *)

Definition refs (spans : list SanitizedSpan) : list string := ss_span_ref <$> spans.

Lemma by_ref_snoc spans s : by_ref (spans ++ [s]) = <[ss_span_ref s := s]> (by_ref spans).
Proof. unfold by_ref. by rewrite foldl_app. Qed.

Lemma by_ref_some spans k s : by_ref spans !! k = Some s → s ∈ spans ∧ ss_span_ref s = k.
Proof.
  induction spans as [|x spans IH] using rev_ind; [cbn; by rewrite lookup_empty|].
  rewrite by_ref_snoc, lookup_insert, elem_of_app, list_elem_of_singleton.
  case_decide; [intros [= <-]; auto|]. intros [? ?]%IH. auto.
Qed.

Lemma by_ref_nodup spans s : NoDup (refs spans) → s ∈ spans → by_ref spans !! ss_span_ref s = Some s.
Proof.
  induction spans as [|x spans IH] using rev_ind; [by intros _ ?%elem_of_nil|].
  unfold refs. rewrite fmap_app, NoDup_app, elem_of_app, list_elem_of_singleton, by_ref_snoc, lookup_insert.
  intros (Hn & Hd & _) [Hs| ->]; [|by rewrite decide_True]. case_decide as Hk; [|auto].
  destruct (Hd (ss_span_ref s)); [by apply list_elem_of_fmap; exists s|]. rewrite <-Hk. left.
Qed.

(** ** Dotted orders *)

(** [order] names the path from the root down to [s], [n] steps long. *)
Inductive dotted (spans : list SanitizedSpan) : nat → SanitizedSpan → string → Prop :=
| dotted_root s own :
    s ∈ spans → ss_parent_span_ref s = None → own_order s = Ok own → dotted spans O s own
| dotted_child s parent own above n :
    s ∈ spans → ss_parent_span_ref s = Some (ss_span_ref parent) →
    own_order s = Ok own → dotted spans n parent above →
    dotted spans (S n) s (above +:+ "." +:+ own).

Section Order.
Context (spans : list SanitizedSpan) (Hnd : NoDup (refs spans)).

Lemma ref_unique s s' : s ∈ spans → s' ∈ spans → ss_span_ref s = ss_span_ref s' → s = s'.
Proof using Hnd.
  intros Hs Hs' He. apply (by_ref_nodup _ _ Hnd) in Hs, Hs'. rewrite He in Hs. congruence.
Qed.

Lemma dotted_elem n s o : dotted spans n s o → s ∈ spans.
Proof. by destruct 1. Qed.

Lemma dotted_fun n s o : dotted spans n s o → ∀ m o', dotted spans m s o' → o' = o.
Proof using Hnd.
  induction 1 as [s own Hs Hp Ho|s parent own above n Hs Hp Ho Hd IH]; intros m o' H;
    inversion H as [? own' ? Hp' Ho'|? parent' own' above' n' ? Hp' Ho' Hd']; subst; try congruence.
  assert (parent' = parent) as ->.
  { apply ref_unique; [by eapply dotted_elem|by eapply dotted_elem|congruence]. }
  rewrite (IH _ _ Hd'). congruence.
Qed.

(** Every order noted so far is the dotted order of its span. *)
Definition noted (orders : gmap string string) : Prop :=
  ∀ k o, orders !! k = Some o → ∃ s n, ss_span_ref s = k ∧ dotted spans n s o.

Lemma noted_insert orders s n o : noted orders → dotted spans n s o → noted (<[ss_span_ref s := o]> orders).
Proof.
  intros Hn Hd k o'. rewrite lookup_insert. case_decide; [intros [= <-]; by exists s, n|apply Hn].
Qed.

Lemma visit_dotted frames : ∀ n s o orders,
  dotted spans n s o → n ≤ frames → noted orders →
  ∃ orders', visit frames (by_ref spans) s orders = Ok (o, orders') ∧ noted orders' ∧
    orders ⊆ orders' ∧ orders' !! ss_span_ref s = Some o.
Proof using Hnd.
  induction frames as [|frames IH]; intros n s o orders Hd Hle Hn; pose proof Hd as Hd0;
    destruct (orders !! ss_span_ref s) as [o'|] eqn:Hm; cbn [visit]; rewrite Hm.
  1, 3: destruct (Hn _ _ Hm) as (s' & n' & Hr & Hd');
    assert (s' = s) as -> by (apply ref_unique; [by eapply dotted_elem|by eapply dotted_elem|done]);
    rewrite <-(dotted_fun _ _ _ Hd _ _ Hd'); by exists orders.
  all: inversion Hd as [? own Hs Hp Ho|? parent own above n' Hs Hp Ho Habove]; subst; rewrite Ho; cbn [rbind];
    rewrite Hp.
  1, 3: eexists; split_and!; [done|by eapply noted_insert|by apply insert_subseteq|by rewrite lookup_insert_eq].
  - lia.
  - rewrite (by_ref_nodup _ _ Hnd) by (by eapply dotted_elem). cbn [from_option_or rbind].
    destruct (IH n' parent above orders Habove ltac:(lia) Hn) as (orders1 & -> & Hn1 & Hsub & _).
    cbn [rbind]. eexists; split_and!; [done|by eapply noted_insert| |by rewrite lookup_insert_eq].
    destruct (orders1 !! ss_span_ref s) as [o1|] eqn:H1.
    + destruct (Hn1 _ _ H1) as (s' & m & Hr & Hd').
      assert (s' = s) as -> by (apply ref_unique; [by eapply dotted_elem|done|done]).
      rewrite (dotted_fun _ _ _ Hd0 _ _ Hd') in H1. by rewrite insert_id.
    + etransitivity; [exact Hsub|]. by apply insert_subseteq.
Qed.
End Order.

Lemma langsmith_order_dotted frames t :
  NoDup (refs (st_spans t)) →
  (∀ s, s ∈ st_spans t → ∃ n o, n ≤ frames ∧ dotted (st_spans t) n s o) →
  ∃ orders, langsmith_order frames t = Ok orders ∧
    ∀ s, s ∈ st_spans t → ∃ n o, dotted (st_spans t) n s o ∧ orders !! ss_span_ref s = Some o.
Proof.
  intros Hnd Hall. unfold langsmith_order.
  assert (∀ todo orders, (∀ s, s ∈ todo → s ∈ st_spans t) → noted (st_spans t) orders →
    ∃ orders', rfold (λ orders s, let* (_, orders) := visit frames (by_ref (st_spans t)) s orders in Ok orders)
        todo orders = Ok orders' ∧ orders ⊆ orders' ∧
      ∀ s, s ∈ todo → ∃ n o, dotted (st_spans t) n s o ∧ orders' !! ss_span_ref s = Some o) as H.
  { induction todo as [|s todo IH]; intros orders Hin Hn.
    - exists orders. split_and!; [done|done|by intros ? ?%elem_of_nil].
    - destruct (Hall s (Hin s ltac:(left))) as (n & o & Hle & Hd).
      destruct (visit_dotted _ Hnd frames n s o orders Hd Hle Hn) as (o1 & Hv & Hn1 & Hsub & Hl).
      destruct (IH o1 (λ x Hx, Hin x (list_elem_of_further _ _ _ Hx)) Hn1) as (o2 & Hr & Hsub2 & Htodo).
      exists o2. cbn [rfold]. rewrite Hv. cbn [rbind]. split_and!; [done|by etransitivity|].
      intros s' [->|Hs']%elem_of_cons; [|auto]. exists n, o. split; [done|]. by eapply lookup_weaken. }
  destruct (H (st_spans t) ∅ ltac:(done)) as (orders & Ho & _ & Hs); [intros k o; by rewrite lookup_empty|].
  eauto.
Qed.

(** ** The spans of a sanitized trace *)

(** The times of a span, as the sanitizer prints them. *)
Definition timed (s : SpanRecord) (x : SanitizedSpan) : Prop :=
  ss_started_at x = isoformat (started_at s) ∧ ss_status x = span_status_value (span_status s) ∧
  ∃ ended, ended_at s = Some ended ∧ ss_ended_at x = isoformat ended.

Definition time_ok (t : Z) : Prop := (MIN_TIME <= t <= MAX_TIME)%Z.
Lemma read_time_iso t : time_ok t → read_time (isoformat t) = Ok t.
Proof. intros H. unfold read_time. by rewrite fromisoformat_isoformat. Qed.

Section Sanitized.
Context (key : string) (e : TraceEnvelope) (t : SanitizedTrace) (Hsan : sanitize key e = Ok t).

(** [x] is what the sanitizer made of the span [s] of the envelope. *)
Definition image (s : SpanRecord) (x : SanitizedSpan) : Prop :=
  s ∈ te_spans e ∧ x ∈ st_spans t ∧ shown key s x ∧ timed s x.

Lemma sanitized_tree : completed_tree (te_spans e).
Proof using Hsan. exact (proj1 (sanitized_facts key e t Hsan)). Qed.

Lemma sanitized_images :
  (∀ s, s ∈ te_spans e → ∃ x, image s x) ∧ (∀ x, x ∈ st_spans t → ∃ s, image s x).
Proof using Hsan.
  pose proof sanitized_tree as (Hn & _ & Hall). pose proof Hsan as H. unfold sanitize in H.
  apply rbind_ok in H as ([] & _ & H). apply rbind_ok in H as (root & _ & H).
  apply rbind_ok in H as (out & Hspans & H). apply Ok_inj in H.
  assert (st_spans t = out) as Hout by (by rewrite <-H). clear H. apply rmapM_ok in Hspans.
  assert (∀ s x, s ∈ te_spans e → sanitize_span key (by_id (te_spans e)) s = Ok x →
    shown key s x ∧ timed s x) as Himage.
  { intros s x Hs Hx. split; [by eapply sanitize_span_ok; [done|apply Hall|done|]|].
    unfold sanitize_span in Hx. apply rbind_ok in Hx as (name & _ & Hx).
    apply rbind_ok in Hx as (ended & Hended & Hx). apply rbind_ok in Hx as (attrs & _ & Hx).
    injection Hx as <-. apply from_option_or_ok in Hended. split_and!; [done|done|by exists ended]. }
  assert (Forall2 (λ s x, s ∈ te_spans e ∧ shown key s x ∧ timed s x)
    (sort_by span_le (te_spans e)) out) as Hall2.
  { apply (Forall2_elem_l _ _ _ _ Hspans). intros s x Hs%sort_by_elem Hx. split; [done|]. by apply Himage. }
  unfold image. rewrite Hout. split.
  - intros s Hs.
    assert (s ∈ sort_by span_le (te_spans e)) as [i Hi]%list_elem_of_lookup by (by apply sort_by_elem).
    destruct (Forall2_lookup_l _ _ _ _ _ Hall2 Hi) as (x & Hx & _ & Hshown & Htimed).
    exists x. apply list_elem_of_lookup_2 in Hx. by split_and!.
  - intros x Hx. destruct (Forall2_elem_r _ _ _ _ Hall2 Hx) as (s & _ & Hs & Hshown & Htimed).
    exists s. split; [done|]. split; [done|by split].
Qed.

(** What [LangSmith] can be given: distinct references, times in range, and a
    tree no deeper than the interpreter's stack. *)
Definition exportable (frames : nat) : Prop :=
  NoDup (refs (st_spans t)) ∧ (∀ s, s ∈ te_spans e → time_ok (started_at s)) ∧
  ∀ n k, depth (te_spans e) n k → n ≤ frames.

Lemma image_own s x : time_ok (started_at s) → image s x →
  own_order x = Ok (compact_micros (started_at s) +:+ ss_remote_id x).
Proof using Type.
  intros Ht (_ & _ & _ & Hx & _). unfold own_order. by rewrite Hx, read_time_iso.
Qed.

(** The parent of an image is the image of the parent. *)
Lemma image_parent s x p : image s x → parent_span_id s = Some p → p ∈ ids (te_spans e) →
  ∃ s' x', span_id s' = p ∧ image s' x' ∧ ss_parent_span_ref x = Some (ss_span_ref x').
Proof using Hsan.
  intros (_ & _ & (_ & Hp & _) & _) Hpar (s' & Hs' & Hin)%list_elem_of_fmap. rewrite Hpar in Hp.
  destruct (proj1 sanitized_images s' Hin) as [x' Hx']. exists s', x'. split_and!; [done|done|].
  rewrite Hp. simpl. destruct Hx' as (_ & _ & (Hr & _) & _). by rewrite Hr, <-Hs'.
Qed.

Lemma image_dotted n k : (∀ s, s ∈ te_spans e → time_ok (started_at s)) →
  depth (te_spans e) n k → ∀ s x, span_id s = k → image s x → ∃ o, dotted (st_spans t) n x o.
Proof using Hsan.
  intros Ht. pose proof sanitized_tree as (Hnd & _ & _).
  induction 1 as [s0 Hs0 Hp|s0 p n Hs0 Hp Hd IH]; intros s x Hk Hx;
    pose proof Hx as (Hs & Hxin & (Hr & Hpar & _) & _);
    assert (s = s0) as -> by (by apply (span_unique _ Hnd)); rewrite Hp in Hpar.
  - eexists. apply dotted_root; [done|done|]. by apply (image_own s0); [apply Ht|].
  - destruct (image_parent s0 x p Hx Hp (depth_span _ _ _ Hd)) as (s' & x' & Hs' & Hx' & Hrefs).
    destruct (IH s' x' Hs' Hx') as [above Habove].
    eexists. eapply dotted_child; [done|exact Hrefs| |exact Habove]. apply (image_own s0); [by apply Ht|done].
Qed.

Lemma exportable_orders frames : exportable frames →
  ∃ orders, langsmith_order frames t = Ok orders ∧
    ∀ x, x ∈ st_spans t → ∃ n o, dotted (st_spans t) n x o ∧ orders !! ss_span_ref x = Some o.
Proof using Hsan.
  intros (Hnd & Ht & Hdepth). apply langsmith_order_dotted; [done|].
  intros x Hx. destruct (proj2 sanitized_images x Hx) as [s Hs]. pose proof sanitized_tree as (_ & _ & Hall).
  destruct (Hall s (proj1 Hs)) as (_ & n & Hn). destruct (image_dotted n _ Ht Hn s x eq_refl Hs) as [o Ho].
  exists n, o. split; [by eapply Hdepth|done].
Qed.

Lemma find_elem {A} (p : A → bool) l x : x ∈ l → p x = true → ∃ y, List.find p l = Some y ∧ y ∈ l ∧ p y = true.
Proof.
  induction l as [|y l IH]; [by intros ?%elem_of_nil|]. intros Hx Hp. simpl.
  destruct (p y) eqn:Hy; [exists y; split_and!; [done|left|done]|].
  apply elem_of_cons in Hx as [->|Hx]; [congruence|].
  destruct (IH Hx Hp) as (z & Hz & Hin & Hpz). exists z. split_and!; [done|by right|done].
Qed.

Lemma sanitized_root : ∃ root, root_span t = Ok root ∧ root ∈ st_spans t ∧ ss_parent_span_ref root = None.
Proof using Hsan.
  pose proof sanitized_tree as (_ & Hroot & _).
  destruct (roots (te_spans e)) as [|s l] eqn:Hr; [done|].
  assert (s ∈ roots (te_spans e)) as [Hp Hs]%list_elem_of_filter by (rewrite Hr; left).
  destruct (proj1 sanitized_images s Hs) as (x & _ & Hx & (_ & Hpar & _) & _). rewrite Hp in Hpar.
  destruct (find_elem is_root _ x Hx) as (y & Hy & Hin & Hry); [by unfold is_root; rewrite Hpar|].
  exists y. unfold root_span. rewrite Hy. split_and!; [done|done|].
  unfold is_root in Hry. by destruct (ss_parent_span_ref y).
Qed.

Lemma sanitized_parent_found x : x ∈ st_spans t → ss_parent_span_ref x = None ∨
  ∃ x', x' ∈ st_spans t ∧ ss_parent_span_ref x = Some (ss_span_ref x').
Proof using Hsan.
  intros Hx. destruct (proj2 sanitized_images x Hx) as [s Hs]. pose proof sanitized_tree as (_ & _ & Hall).
  destruct (Hall s (proj1 Hs)) as (_ & n & Hn). pose proof Hs as (_ & _ & (_ & Hpar & _) & _).
  destruct (parent_span_id s) as [p|] eqn:Hp; [right|by left].
  assert (p ∈ ids (te_spans e)) as Hin.
  { inversion Hn as [s' Hs' Hp' He|s' p' n' Hs' Hp' Hd He He']; subst;
      (assert (s' = s) as -> by (apply (span_unique (te_spans e)); [exact (proj1 sanitized_tree)|done|exact (proj1 Hs)|done]));
      [congruence|]. assert (p' = p) as -> by congruence. by eapply depth_span. }
  destruct (image_parent s x p Hs Hp Hin) as (s' & x' & _ & Hx' & Hr).
  exists x'. split; [exact (proj1 (proj2 Hx'))|done].
Qed.

Lemma sanitized_parent_id x : x ∈ st_spans t → ∃ o, parent_remote_id t x = Ok o.
Proof using Hsan.
  intros Hx. unfold parent_remote_id. destruct (sanitized_parent_found x Hx) as [->|(x' & Hx' & ->)]; [eauto|].
  destruct (find_elem (λ item, bool_decide (ss_span_ref item = ss_span_ref x')) _ x' Hx') as (y & -> & _);
    [by apply bool_decide_eq_true|]. eauto.
Qed.

Lemma sanitized_attribute_keys x k v : x ∈ st_spans t → (k, v) ∈ ss_attributes x → k ∈ ALLOWED_ATTRIBUTES.
Proof using Hsan.
  intros Hx Hkv. destruct (proj2 sanitized_images x Hx) as (s & _ & _ & Hshown & _).
  destruct Hshown as (_ & _ & _ & _ & _ & _ & Hattrs & Hsafe). rewrite Hattrs in Hkv.
  unfold sort_keys in Hkv. apply sort_by_elem in Hkv. rewrite Forall_forall in Hsafe. by destruct (Hsafe _ Hkv).
Qed.

Lemma sanitized_no_digest s v : s ∈ st_spans t → ("payload_digest", v) ∉ ss_attributes s.
Proof using Hsan.
  intros Hs Hv. pose proof (sanitized_attribute_keys _ _ _ Hs Hv) as H.
  assert (bool_decide ("payload_digest" ∈ ALLOWED_ATTRIBUTES) = false) as Hf by (vm_compute; reflexivity).
  by apply bool_decide_eq_false in Hf.
Qed.
End Sanitized.

(** ** LangSmith *)

(** [run["extra"]["metadata"]["payload_digest"]], as [_verify_existing] reads it. *)
Definition run_digest (run : val) : option val :=
  match
    (let* extra := get_attr run "extra" (VDict []) in
     let* metadata := get_attr extra "metadata" (VDict []) in
     get_attr metadata "payload_digest" VNone)
  with
  | Ok digest => Some digest
  | Err _ => None
  end.

Definition created : list Z := [200; 201; 202]%Z.

(** What the exporter relies on: runs are created once, by identifier, and never
    overwritten; an answer that was lost may or may not have created one. *)
Class LangSmithService {W : Type} (send : http_request → W → (http_error + Response) * W)
    (x : LangSmithExporter) : Type := {
  runs : W → gmap string val;
  post_law w id d r w' :
    dfind "id" d = Some (VStr id) → send (post_run x (VDict d)) w = (r, w') →
    (runs w' = runs w ∨ runs w !! id = None ∧ runs w' = <[id := VDict d]> (runs w)) ∧
    ∀ response, r = inr response →
      (status_code response ∈ created → runs w' !! id = Some (VDict d)) ∧
      (status_code response = 409%Z → is_Some (runs w !! id));
  get_law w id r w' :
    send (get_run x id) w = (r, w') → runs w' = runs w ∧
    ∀ response, r = inr response → status_code response = 200%Z →
      ∃ run v, runs w !! id = Some run ∧ loads (body response) = Some v ∧ run_digest v = run_digest run;
}.

(** A service that answers: it creates what is new, refuses what is not, and
    shows what it has. *)
Class LangSmithUp {W : Type} (send : http_request → W → (http_error + Response) * W)
    (x : LangSmithExporter) `{!LangSmithService send x} : Type := {
  up : W → Prop;
  post_answered w id d digest :
    up w → dfind "id" d = Some (VStr id) → run_digest (VDict d) = Some (VStr digest) →
    ∃ response w', send (post_run x (VDict d)) w = (inr response, w') ∧ up w' ∧
      (runs w !! id = None → status_code response ∈ created) ∧
      (is_Some (runs w !! id) → status_code response = 409%Z);
  get_answered w id :
    up w → is_Some (runs w !! id) →
    ∃ response w', send (get_run x id) w = (inr response, w') ∧ up w' ∧ status_code response = 200%Z;
}.

Lemma is_key_str k k' : is_key k (VStr k') = bool_decide (k' = k).
Proof. done. Qed.

Lemma dfind_dset_ne k k' v d : k ≠ k' → dfind k (dset k' v d) = dfind k d.
Proof.
  intros Hk. induction d as [|[k0 v0] d IH]; cbn [dset dfind].
  - by rewrite is_key_str, bool_decide_eq_false_2.
  - destruct (is_key k' k0) eqn:E; cbn [dfind]; [|by rewrite IH].
    destruct k0; try done. rewrite is_key_str, bool_decide_eq_true in E. subst.
    by rewrite is_key_str, bool_decide_eq_false_2.
Qed.

Lemma dfind_run_metadata t s :
  (∀ v, ("payload_digest", v) ∉ ss_attributes s) →
  dfind "payload_digest" (run_metadata t s) = Some (VStr (st_payload_digest t)).
Proof.
  unfold run_metadata. intros Hn.
  assert (∀ d, dfind "payload_digest" (foldl (λ d kv, dset kv.1 kv.2 d) d (ss_attributes s)) =
    dfind "payload_digest" d) as ->; [|done].
  induction (ss_attributes s) as [|[k v] l IH]; intros d; [done|]. cbn [foldl fst snd].
  rewrite IH by (intros v' Hv; apply (Hn v'); by right). apply dfind_dset_ne.
  intros <-. apply (Hn v). left.
Qed.

Section LangSmith.
Context {W : Type} (send : http_request → W → (http_error + Response) * W) (frames : nat).
Context (x : LangSmithExporter) `{Svc : !LangSmithService send x}.
Context (t : SanitizedTrace).
Abbreviation digest := (VStr (st_payload_digest t)).

Definition stored (s : SanitizedSpan) (w : W) : Prop :=
  ∃ run, runs w !! ss_remote_id s = Some run ∧ run_digest run = Some digest.
(** The runs [w'] has beyond those of [w] carry the digest of the trace. *)
Definition extends (w w' : W) : Prop :=
  runs w ⊆ runs w' ∧
  ∀ id run, runs w' !! id = Some run → runs w !! id = Some run ∨ run_digest run = Some digest.

Lemma extends_refl w w' : runs w' = runs w → extends w w'.
Proof. intros H. split; rewrite H; auto. Qed.
Lemma extends_trans w w1 w2 : extends w w1 → extends w1 w2 → extends w w2.
Proof.
  intros [H1 H2] [H3 H4]. split; [by etransitivity|]. intros id run Hr. destruct (H4 id run Hr); auto.
Qed.
Lemma stored_extends s w w' : extends w w' → stored s w → stored s w'.
Proof. intros [Hsub _] (run & Hr & Hd). exists run. split; [by eapply lookup_weaken|done]. Qed.

Lemma call_ok prefix rq w response w' :
  call send prefix rq w = (Ok response, w') ↔ send rq w = (inr response, w').
Proof.
  unfold call. destruct (send rq w) as [[[]|r] w1]; split; intros H; try congruence; by injection H as -> ->.
Qed.
Lemma call_world prefix rq w : (call send prefix rq w).2 = (send rq w).2.
Proof. unfold call. by destruct (send rq w). Qed.

Definition posted (root s : SanitizedSpan) (parent : option string) (order : string) : val :=
  run_document (ls_project x) t root s parent order.

Lemma run_document_facts root s parent order :
  (∀ v, ("payload_digest", v) ∉ ss_attributes s) →
  ∃ d, posted root s parent order = VDict d ∧ dfind "id" d = Some (VStr (ss_remote_id s)) ∧
    run_digest (VDict d) = Some digest.
Proof.
  intros Hn. eexists. split; [reflexivity|]. split; [done|].
  change (VDict _) with (posted root s parent order). unfold run_digest.
  assert (get_attr (posted root s parent order) "extra" (VDict []) =
    Ok (sdict [("metadata", VDict (run_metadata t s))])) as -> by (by destruct parent).
  cbn [rbind]. assert (∀ m, get_attr (sdict [("metadata", m)]) "metadata" (VDict []) = Ok m) as -> by done.
  cbn [rbind]. unfold get_attr. by rewrite dfind_run_metadata.
Qed.

Lemma verify_world s w : runs (verify_existing send x t s w).2 = runs w.
Proof.
  unfold verify_existing, sbind. pose proof (call_world "langsmith" (get_run x (ss_remote_id s)) w) as Hw.
  destruct (send (get_run x (ss_remote_id s)) w) as [r w1] eqn:Hs. apply get_law in Hs as [Hr _].
  destruct (call send "langsmith" _ w) as [[response|err] w2]; simpl in Hw; subst; [|done].
  unfold sguard, slift. destruct (negb _); [done|].
  destruct (read_metadata (body response)); [|done]. by destruct (escaping _).
Qed.

Lemma verify_stored s w w' :
  verify_existing send x t s w = (Ok tt, w') → stored s w'.
Proof.
  intros H. pose proof (verify_world s w) as Hw. rewrite H in Hw. simpl in Hw. unfold verify_existing in H.
  apply sbind_ok in H as (response & w1 & Hc & H). apply call_ok in Hc. apply get_law in Hc as [_ Hc].
  apply sbind_ok in H as ([] & ? & Hg & H). unfold sguard in Hg.
  destruct (Z.eqb_spec (status_code response) 200) as [Hst|]; [|done].
  destruct (Hc response eq_refl Hst) as (run & v & Hrun & Hl & Hd).
  apply sbind_ok in H as (metadata & ? & Hm & H). apply sbind_ok in H as (d & ? & Hdig & H).
  unfold slift, sguard in *. injection Hm as Hm _. injection Hdig as Hdig _.
  destruct (val_is d _) eqn:Hv; [|done]. apply val_is_true in Hv as ->.
  exists run. split; [by rewrite Hw|]. rewrite <-Hd. unfold run_digest. unfold read_metadata in Hm.
  rewrite Hl in Hm. cbn [from_option_or rbind] in Hm.
  destruct (get_attr v "extra" (VDict [])) as [extra|]; cbn [rbind] in *; [|by case_bool_decide].
  destruct (get_attr extra "metadata" (VDict [])) as [m|]; [|by case_bool_decide].
  injection Hm as ->. cbn [rbind]. unfold escaping, rmap_err in Hdig.
  by destruct (get_attr metadata _ _); simplify_eq.
Qed.

Lemma export_run_effect orders root s w :
  (∀ v, ("payload_digest", v) ∉ ss_attributes s) →
  extends w (export_run send x t orders root s w).2 ∧
  ((export_run send x t orders root s w).1 = Ok tt → stored s (export_run send x t orders root s w).2).
Proof.
  intros Hn. unfold export_run, sbind, slift. destruct (escaping (parent_remote_id t s)) as [parent|];
    [|by split; [apply extends_refl|]].
  destruct (escaping _) as [order|]; [|by split; [apply extends_refl|]].
  destruct (run_document_facts root s parent order Hn) as (d & Hdoc & Hid & Hdig). unfold posted in Hdoc. rewrite Hdoc.
  pose proof (call_world "langsmith" (post_run x (VDict d)) w) as Hw.
  destruct (call send "langsmith" _ w) as [r w1] eqn:Hc. destruct (send _ w) as [answer w2] eqn:Hsend.
  simpl in Hw. subst w2. destruct (post_law _ _ _ _ _ Hid Hsend) as [Heff Hans].
  assert (extends w w1) as Hext.
  { destruct Heff as [Heq|[Hnone Heq]]; [by apply extends_refl|]. split; rewrite Heq.
    - by apply insert_subseteq.
    - intros i run. rewrite lookup_insert. case_decide; [intros [= <-]; by right|by left]. }
  destruct r as [response|err]; [|done]. apply call_ok in Hc. rewrite Hsend in Hc. injection Hc as ->.
  destruct (Hans response eq_refl) as [Hnew _]. case_bool_decide as Hst.
  { split; [done|]. intros _. exists (VDict d). by auto. }
  destruct (Z.eqb_spec (status_code response) 409) as [_|]; [|done].
  pose proof (verify_world s w1) as Hvw. destruct (verify_existing send x t s w1) as [rv w2] eqn:Hv.
  split; [apply (extends_trans _ _ _ Hext), extends_refl, Hvw|]. simpl. intros ->. by eapply verify_stored.
Qed.

Hypothesis attributes_ok : ∀ s v, s ∈ st_spans t → ("payload_digest", v) ∉ ss_attributes s.

Lemma export_effect w r w' :
  langsmith_export send frames x t w = (r, w') →
  extends w w' ∧ ∀ v, r = Ok v → ∀ s, s ∈ st_spans t → stored s w'.
Proof using Svc attributes_ok.
  unfold langsmith_export, sbind, slift. destruct (escaping (langsmith_order _ _)) as [orders|];
    [|intros [= <- <-]; by split; [apply extends_refl|]].
  destruct (escaping (root_span t)) as [root|]; [|intros [= <- <-]; by split; [apply extends_refl|]].
  assert (∀ todo w, (∀ s, s ∈ todo → s ∈ st_spans t) →
    extends w (sfor todo (export_run send x t orders root) w).2 ∧
    ((sfor todo (export_run send x t orders root) w).1 = Ok tt →
     ∀ s, s ∈ todo → stored s (sfor todo (export_run send x t orders root) w).2)) as Hloop.
  { induction todo as [|s todo IH]; intros w0 Hin; cbn [sfor].
    { split; [by apply extends_refl|]. by intros _ s ?%elem_of_nil. }
    destruct (export_run_effect orders root s w0) as [He Hs];
      [intros v; apply attributes_ok, Hin; left|]. unfold sbind.
    destruct (export_run send x t orders root s w0) as [[[]|err] w1]; simpl in *; [|by split].
    destruct (IH w1) as [He1 Hs1]; [intros; apply Hin; by right|].
    split; [by eapply extends_trans|]. intros Hok s' [->|Hs']%elem_of_cons; [|by auto].
    eapply stored_extends; [exact He1|by apply Hs]. }
  destruct (Hloop (st_spans t) w ltac:(done)) as [He Hs].
  destruct (sfor _ _ w) as [[[]|err] w1]; simpl in *; intros [= <- <-]; split; try done. by auto.
Qed.
End LangSmith.

(** Attempts to export [t], each ending as it may, and whatever happens to the
    service between them that leaves its runs alone. *)
Inductive attempt {W} (send : http_request → W → (http_error + Response) * W) (frames : nat)
    (x : LangSmithExporter) `{!LangSmithService send x} (t : SanitizedTrace) (w : W) : W → Prop :=
| attempt_export : attempt send frames x t w (langsmith_export send frames x t w).2
| attempt_elsewhere w' : runs w' = runs w → attempt send frames x t w w'.

Section LangSmithUp.
Context {W : Type} (send : http_request → W → (http_error + Response) * W) (frames : nat).
Context (x : LangSmithExporter) `{Svc : !LangSmithService send x} `{Up : !LangSmithUp send x}.
Context (t : SanitizedTrace).
Abbreviation digest := (VStr (st_payload_digest t)).

(** The runs under the identifiers of the trace are the trace's. *)
Definition own (w : W) : Prop :=
  ∀ s run, s ∈ st_spans t → runs w !! ss_remote_id s = Some run → run_digest run = Some digest.

Lemma own_extends w w' : own w → extends send x t w w' → own w'.
Proof using Type. intros Ho [_ He] s run Hs Hr. destruct (He _ _ Hr); [by eapply Ho|done]. Qed.

Lemma verify_up s w run : up w → runs w !! ss_remote_id s = Some run → run_digest run = Some digest →
  ∃ w', verify_existing send x t s w = (Ok tt, w') ∧ up w'.
Proof using Type.
  intros Hup Hrun Hdig. destruct (get_answered w (ss_remote_id s) Hup ltac:(eauto)) as (response & w' & Hs & Hup' & Hst).
  exists w'. split; [|done]. pose proof (get_law _ _ _ _ Hs) as [_ Hget].
  destruct (Hget response eq_refl Hst) as (run' & v & Hrun' & Hl & Hd).
  unfold verify_existing. unfold sbind at 1. rewrite (proj2 (call_ok _ _ _ _ _ _) Hs).
  rewrite Hst. change (negb (200 =? 200)%Z) with false. unfold sbind, sguard, slift.
  assert (run' = run) as -> by congruence. rewrite Hdig in Hd. unfold run_digest in Hd.
  unfold read_metadata. rewrite Hl. cbn [from_option_or rbind].
  destruct (get_attr v "extra" (VDict [])) as [extra|]; [|done]. cbn [rbind] in *.
  destruct (get_attr extra "metadata" (VDict [])) as [m|]; [|done]. cbn [rbind] in *.
  destruct (get_attr m "payload_digest" VNone) as [d|]; [|done]. injection Hd as ->.
  cbn. by rewrite bool_decide_eq_true_2.
Qed.

Lemma export_run_up orders root s w parent order :
  (∀ v, ("payload_digest", v) ∉ ss_attributes s) → s ∈ st_spans t → up w → own w →
  parent_remote_id t s = Ok parent → orders !! ss_span_ref s = Some order →
  ∃ w', export_run send x t orders root s w = (Ok tt, w') ∧ up w'.
Proof using Type.
  intros Hn Hs Hup Hown Hp Ho. unfold export_run. unfold sbind at 1, slift. rewrite Hp. cbn [escaping rmap_err].
  unfold sbind at 1. rewrite Ho. cbn [from_option_or escaping rmap_err].
  destruct (run_document_facts x t root s parent order Hn) as (d & Hdoc & Hid & Hdig).
  unfold posted in Hdoc. rewrite Hdoc.
  destruct (post_answered w _ _ _ Hup Hid Hdig) as (response & w1 & Hsend & Hup1 & Hnew & Hold).
  unfold sbind at 1. rewrite (proj2 (call_ok _ _ _ _ _ _) Hsend).
  destruct (runs w !! ss_remote_id s) as [run|] eqn:Hrun.
  - rewrite (Hold ltac:(eauto)). rewrite bool_decide_eq_false_2 by (unfold created; set_solver).
    change (409 =? 409)%Z with true. cbn [orb].
    destruct (post_law _ _ _ _ _ Hid Hsend) as [[Heq|[Hnone _]] _]; [|congruence].
    apply (verify_up s w1 run); [done|by rewrite Heq|by eapply Hown].
  - rewrite bool_decide_eq_true_2 by (by apply Hnew). by exists w1.
Qed.

Lemma export_up w :
  (∀ s v, s ∈ st_spans t → ("payload_digest", v) ∉ ss_attributes s) →
  (∃ orders, langsmith_order frames t = Ok orders ∧
    ∀ s, s ∈ st_spans t → ∃ order, orders !! ss_span_ref s = Some order) →
  (∃ root, root_span t = Ok root) → (∀ s, s ∈ st_spans t → ∃ p, parent_remote_id t s = Ok p) →
  up w → own w →
  ∃ v w', langsmith_export send frames x t w = (Ok v, w').
Proof using Svc Up.
  intros Hn (orders & Horders & Hall) (root & Hroot) Hparents Hup Hown.
  unfold langsmith_export. unfold sbind at 1, slift. rewrite Horders. cbn [escaping rmap_err].
  unfold sbind at 1. rewrite Hroot. cbn [escaping rmap_err].
  assert (∀ todo w, (∀ s, s ∈ todo → s ∈ st_spans t) → up w → own w →
    ∃ w', sfor todo (export_run send x t orders root) w = (Ok tt, w')) as Hloop.
  { induction todo as [|s todo IH]; intros w0 Hin Hup0 Hown0; [by exists w0|].
    assert (s ∈ st_spans t) as Hs by (apply Hin; left).
    destruct (Hparents s Hs) as [p Hp]. destruct (Hall s Hs) as [order Ho].
    destruct (export_run_up orders root s w0 p order (λ v, Hn s v Hs) Hs Hup0 Hown0 Hp Ho) as (w1 & He & Hup1).
    pose proof (export_run_effect send x t orders root s w0 (λ v, Hn s v Hs)) as [Hext _].
    rewrite He in Hext. simpl in Hext. cbn [sfor]. unfold sbind. rewrite He.
    apply IH; [intros; apply Hin; by right|done|by eapply own_extends]. }
  destruct (Hloop (st_spans t) w ltac:(done) Hup Hown) as [w' Hw]. unfold sbind. rewrite Hw. by eexists _, w'.
Qed.
End LangSmithUp.

(** An export LangSmith is reported to have received is stored: once
    [LangSmithExporter.export] of a sanitized trace returns, there is a run for each
    of its spans that carries the digest of the trace, created by this export or found
    and verified after a conflict, and no run that was there before is lost. *)
Theorem acknowledged_runs_are_stored {W} (send : http_request → W → (http_error + Response) * W)
    frames x `{!LangSmithService send x} key e t w v w' :
  sanitize key e = Ok t → langsmith_export send frames x t w = (Ok v, w') →
  runs w ⊆ runs w' ∧ ∀ s, s ∈ st_spans t → stored send x t s w'.
Proof.
  intros Hsan H.
  destruct (export_effect send frames x t (sanitized_no_digest key e t Hsan) w _ w' H) as [[Hsub _] Hs].
  split; [done|]. by eapply Hs.
Qed.

(** C36: uncertain exports converge. However many attempts to export a sanitized
    trace failed, at whatever request and whether or not the lost request created
    its run, the next attempt made while LangSmith answers succeeds, and the trace is
    stored completely. *)
Theorem uncertain_exports_converge {W} (send : http_request → W → (http_error + Response) * W)
    frames x `{!LangSmithService send x} `{!LangSmithUp send x} key e t w0 w :
  sanitize key e = Ok t → exportable e t frames → own send x t w0 →
  rtc (attempt send frames x t) w0 w → up w →
  ∃ v w', langsmith_export send frames x t w = (Ok v, w') ∧
    ∀ s, s ∈ st_spans t → stored send x t s w'.
Proof.
  intros Hsan Hexp Hown Hattempts Hup. pose proof (sanitized_no_digest key e t Hsan) as Hn.
  assert (own send x t w) as Hown'.
  { revert Hown. induction Hattempts as [|w1 w2 w3 Hstep _ IH]; [done|]. intros Hown. apply IH; [done|].
    destruct Hstep as [|w2 Heq]; [|eapply own_extends; [exact Hown|by apply extends_refl]].
    destruct (langsmith_export send frames x t w1) as [r w2] eqn:He.
    eapply own_extends; [exact Hown|]. by eapply export_effect. }
  destruct (exportable_orders key e t Hsan frames Hexp) as (orders & Ho & Hall).
  destruct (export_up send frames x t w Hn) as (v & w' & H); [ | | |done|done|].
  - exists orders. split; [done|]. intros s Hs. destruct (Hall s Hs) as (? & o & _ & ?). by exists o.
  - destruct (sanitized_root key e t Hsan) as (root & ? & _). by exists root.
  - intros s Hs. by apply (sanitized_parent_id key e t Hsan).
  - exists v, w'. split; [done|]. destruct (export_effect send frames x t Hn w _ w' H) as [_ Hs]. by eapply Hs.
Qed.

(** the order LangSmith is given is that of the tree: [_langsmith_order] of a
    sanitized trace returns, and names every span by the times and identifiers on
    its path from the root, as long as no path is deeper than the recursion limit. *)
Theorem spans_are_ordered_by_path key e t frames :
  sanitize key e = Ok t → exportable e t frames →
  ∃ orders, langsmith_order frames t = Ok orders ∧
    ∀ s, s ∈ st_spans t → ∃ n order, dotted (st_spans t) n s order ∧ orders !! ss_span_ref s = Some order.
Proof. intros Hsan. by apply exportable_orders with (key := key). Qed.

(** ** OTLP *)

(** The times whose nanoseconds are known to half a microsecond: 1970 to 2038. *)
Definition unix_time (t : Z) : Prop := (0 <= t < 2 ^ 31 * MICRO)%Z.
Lemma unix_time_ok t : unix_time t → time_ok t.
Proof.
  intros H. unfold unix_time, MICRO in H. unfold time_ok.
  assert (MIN_TIME <= 0 ∧ 2 ^ 31 * 1000000 <= MAX_TIME)%Z by (split; vm_compute; discriminate). lia.
Qed.

(** [v] is the text of a time within half a microsecond of [t]. *)
Definition spells (v : option val) (t : Z) : Prop :=
  ∃ ns, v = Some (VStr (int_repr ns)) ∧ (Z.abs (ns - 1000 * t) <= 478)%Z.

Lemma nanos_text_iso t : unix_time t → nanos_text (isoformat t) = Ok (int_repr (unix_nanos t)).
Proof. intros H. unfold nanos_text. by rewrite read_time_iso by (by apply unix_time_ok). Qed.

Lemma status_code_total s : ∃ c, status_code_of (span_status_value s) = Ok c.
Proof. destruct s; cbn; eauto. Qed.

(** What the OTLP span [d] says of the span [s] of the envelope, shown as [x]. *)
Record reports (t : SanitizedTrace) (s : SpanRecord) (x : SanitizedSpan) (d : mapping) : Prop := {
  reports_ids : dfind "traceId" d = Some (VStr (st_otlp_trace_id t)) ∧
    dfind "spanId" d = Some (VStr (ss_otlp_span_id x));
  reports_start : spells (dfind "startTimeUnixNano" d) (started_at s);
  reports_end : ∃ ended, ended_at s = Some ended ∧ spells (dfind "endTimeUnixNano" d) ended;
  reports_parent : match ss_parent_span_ref x with
    | None => dfind "parentSpanId" d = None
    | Some p => ∃ x', x' ∈ st_spans t ∧ ss_span_ref x' = p ∧
        dfind "parentSpanId" d = Some (VStr (ss_otlp_span_id x'))
    end;
}.

Lemma otlp_span_reports key e t s x :
  sanitize key e = Ok t → NoDup (refs (st_spans t)) → image key e t s x →
  unix_time (started_at s) → (∀ ended, ended_at s = Some ended → unix_time ended) →
  ∃ d, otlp_span t x = Ok (VDict d) ∧ reports t s x d.
Proof.
  intros Hsan Hnd Hi Hs He. pose proof Hi as (_ & Hx & _ & (Hst & Hstat & ended & Hend & Hendt)).
  unfold otlp_span. rewrite Hst, Hendt, Hstat, !nanos_text_iso by auto. cbn [rbind].
  destruct (status_code_total (span_status s)) as [c ->]. cbn [rbind].
  assert (∀ t, unix_time t → spells (Some (VStr (int_repr (unix_nanos t)))) t) as Hspell.
  { intros u Hu. exists (unix_nanos u). split; [done|]. by apply unix_nanos_accurate. }
  destruct (sanitized_parent_found key e t Hsan x Hx) as [Hp|(x' & Hx' & Hp)]; rewrite Hp.
  - eexists. split; [reflexivity|]. constructor; [by split|by apply Hspell| |by rewrite Hp].
    exists ended. split; [done|]. by apply Hspell, He.
  - rewrite (by_ref_nodup _ _ Hnd Hx'). cbn [from_option_or rbind].
    eexists. split; [reflexivity|]. constructor; [by split|by apply Hspell| |].
    + exists ended. split; [done|]. by apply Hspell, He.
    + rewrite Hp. by exists x'.
Qed.

(** the spans given to OTLP are those of the trace: each keeps its
    identifiers, points at the span of its parent, and carries its times to within
    half a microsecond for any time from 1970 to 2038, so spans microseconds apart
    keep their order in spite of the floating-point conversion. *)
Theorem otlp_spans_report_the_trace key e t :
  sanitize key e = Ok t → NoDup (refs (st_spans t)) →
  (∀ s, s ∈ te_spans e → unix_time (started_at s) ∧ ∀ ended, ended_at s = Some ended → unix_time ended) →
  ∃ docs, rmapM (otlp_span t) (st_spans t) = Ok docs ∧
    Forall2 (λ x doc, ∃ s d, doc = VDict d ∧ image key e t s x ∧ reports t s x d) (st_spans t) docs.
Proof.
  intros Hsan Hnd Ht.
  assert (∀ xs, (∀ x, x ∈ xs → x ∈ st_spans t) → ∃ docs, rmapM (otlp_span t) xs = Ok docs ∧
    Forall2 (λ x doc, ∃ s d, doc = VDict d ∧ image key e t s x ∧ reports t s x d) xs docs) as H;
    [|by apply H].
  induction xs as [|x xs IH]; intros Hin; [by exists []|].
  destruct IH as (docs & Hdocs & Hall); [intros; apply Hin; by right|].
  destruct (proj2 (sanitized_images key e t Hsan) x (Hin x ltac:(left))) as [s Hi].
  destruct (Ht s (proj1 Hi)) as [Hs He].
  destruct (otlp_span_reports key e t s x Hsan Hnd Hi Hs He) as (d & Hd & Hr).
  exists (VDict d :: docs). cbn [rmapM]. rewrite Hd, Hdocs. split; [done|]. constructor; [|done].
  by exists s, d.
Qed.

(** A reply that accepts everything sent. *)
Definition accepted (rejection_field : string) (response : Response) : Prop :=
  status_code response = 200%Z ∧ (body response = "" ∨ rejected rejection_field (body response) = Ok 0%Z).
Definition post_signal (endpoint signal : string) (document : val) : http_request :=
  {| rq_method := "POST"; rq_url := endpoint +:+ "/v1/" +:+ signal;
     rq_headers := [("content-type", "application/json")]; rq_body := JsonBody document |}.

Lemma otlp_send_ok {W} (send : http_request → W → (http_error + Response) * W) endpoint signal doc field w w' :
  otlp_send send endpoint signal doc field w = (Ok tt, w') →
  ∃ response, send (post_signal endpoint signal doc) w = (inr response, w') ∧ accepted field response.
Proof.
  unfold otlp_send. intros (response & w1 & Hc%call_ok & H)%sbind_ok. exists response.
  apply sbind_ok in H as ([] & w2 & Hg & H). unfold sguard in Hg. injection Hg as Hg <-.
  destruct (Z.eqb_spec (status_code response) 200) as [Hst|]; [|done]. case_bool_decide as Hb.
  { injection H as <-. split; [exact Hc|]. split; [done|by left]. }
  apply sbind_ok in H as (count & w3 & Hcount & H). unfold slift, sguard in *.
  injection Hcount as Hcount <-. injection H as H <-. split; [exact Hc|]. split; [done|right].
  unfold escaping, rmap_err in Hcount. destruct (rejected field _) as [z|]; [|done].
  assert (z = count) as -> by congruence. by destruct (Z.eqb_spec count 0) as [->|].
Qed.

(** An OTLP export that returns had its spans, its metric and its log record
    accepted, in that order and in full. *)
Lemma otlp_export_accepted {W} (send : http_request → W → (http_error + Response) * W) endpoint t w v w' :
  otlp_export send endpoint t w = (Ok v, w') →
  ∃ traces metrics logs r1 r2 r3 w1 w2,
    otlp_payload t = Ok traces ∧ metric_payload t = Ok metrics ∧ log_payload t = Ok logs ∧
    send (post_signal endpoint "traces" traces) w = (inr r1, w1) ∧ accepted "rejectedSpans" r1 ∧
    send (post_signal endpoint "metrics" metrics) w1 = (inr r2, w2) ∧ accepted "rejectedDataPoints" r2 ∧
    send (post_signal endpoint "logs" logs) w2 = (inr r3, w') ∧ accepted "rejectedLogRecords" r3.
Proof.
  unfold otlp_export, slift. intros (traces & u1 & [= Ht <-] & H)%sbind_ok.
  apply sbind_ok in H as ([] & w1 & (r1 & Hs1 & Ha1)%otlp_send_ok & H).
  apply sbind_ok in H as (metrics & u2 & [= Hm <-] & H).
  apply sbind_ok in H as ([] & w2 & (r2 & Hs2 & Ha2)%otlp_send_ok & H).
  apply sbind_ok in H as (logs & u3 & [= Hl <-] & H).
  apply sbind_ok in H as ([] & w3 & (r3 & Hs3 & Ha3)%otlp_send_ok & [= _ <-]).
  unfold escaping, rmap_err in *. exists traces, metrics, logs, r1, r2, r3, w1, w2.
  destruct (otlp_payload t), (metric_payload t), (log_payload t); simplify_eq. by split_and!.
Qed.

(** ** The archive *)

Lemma stage_counts_keys t : NoDup (stage_counts t).*1.
Proof.
  unfold stage_counts, sort_strings. rewrite <-list_fmap_compose.
  assert (compose fst (λ stage, (stage, VInt (stage_count t stage))) <$>
    sort_by str_le (remove_dups (ss_stage <$> st_spans t)) = sort_by str_le (remove_dups (ss_stage <$> st_spans t)))
    as ->.
  { induction (sort_by str_le _) as [|s l IH]; [done|]. cbn in *. by f_equal. }
  rewrite sort_by_perm. apply NoDup_remove_dups.
Qed.

Definition manifest_members (t : SanitizedTrace) (root : SanitizedSpan) : list (string * val) :=
  [("schema_version", VStr "1.0.0"); ("candidate_sha", VStr (st_candidate_sha t));
   ("trace_ref", VStr (st_trace_ref t)); ("correlation_ref", VStr (st_correlation_ref t));
   ("payload_digest", VStr (st_payload_digest t));
   ("span_count", VInt (Z.of_nat (length (st_spans t))));
   ("stage_counts", sdict (stage_counts t)); ("langsmith_trace_id", VStr (ss_remote_id root));
   ("otlp_trace_id", VStr (st_otlp_trace_id t))].

Lemma manifest_json_ok t root : json_ok (manifest t root) = true.
Proof.
  change (manifest t root) with (sdict (manifest_members t root)).
  apply json_ok_sdict; [literal_nodup|]. repeat constructor.
  apply json_ok_sdict; [apply stage_counts_keys|]. apply Forall_fmap, Forall_fmap, Forall_true. done.
Qed.

(** Objects that print alike agree on every text they both have under a key. *)
Lemma printed_same_text st kvs kvs' k s s' :
  NoDup kvs.*1 → NoDup kvs'.*1 → printed st (sdict kvs) = printed st (sdict kvs') →
  (k, VStr s) ∈ kvs → (k, VStr s') ∈ kvs' → s = s'.
Proof.
  intros Hn Hn' Heq Hs Hs'. destruct (printed_fields st _ Hn) as (d & Hd & _ & Hf & _).
  destruct (printed_fields st _ Hn') as (d' & Hd' & _ & Hf' & _).
  apply Hf in Hs. apply Hf' in Hs'. congruence.
Qed.

Lemma manifest_inj t root t' root' :
  canonical_json (manifest t root) = canonical_json (manifest t' root') →
  st_candidate_sha t = st_candidate_sha t' ∧ st_trace_ref t = st_trace_ref t' ∧
  st_payload_digest t = st_payload_digest t' ∧ ss_remote_id root = ss_remote_id root'.
Proof.
  intros H%canonical_json_inj; [|apply manifest_json_ok..].
  assert (∀ k s s', (k, VStr s) ∈ manifest_members t root → (k, VStr s') ∈ manifest_members t' root' →
    s = s') as Heq.
  { intros k s s'. by apply (printed_same_text canonical_style); [literal_nodup..|]. }
  split_and!.
  - by apply (Heq "candidate_sha"); in_document.
  - by apply (Heq "trace_ref"); in_document.
  - by apply (Heq "payload_digest"); in_document.
  - by apply (Heq "langsmith_trace_id"); in_document.
Qed.

Lemma archive_object_ok x t key content : archive_object x t = Ok (key, content) →
  ∃ root, root_span t = Ok root ∧ content = canonical_json (manifest t root) ∧ key = object_key x t content.
Proof. unfold archive_object. destruct (root_span t) as [root|]; [|done]. intros [= <- <-]. by exists root. Qed.

(** The last path component of a key is the digest of the object under it. *)
Lemma object_key_digest x t content x' t' content' :
  object_key x t content = object_key x' t' content' → sha256_hex content = sha256_hex content'.
Proof.
  unfold object_key. rewrite !string_app_assoc. intros H.
  pose proof (f_equal String.length H) as Hl. rewrite !string_app_length, !sha256_hex_length in Hl.
  rewrite <-!(string_app_assoc _ _ ".json") in H. apply string_app_inj_len in H as [_ H];
    [|rewrite !string_app_length; cbn in Hl |- *; lia].
  by apply string_app_inj_len in H as [H _]; [|by rewrite !sha256_hex_length].
Qed.

(** the archive is content-addressed: two exports that write the same object
    key write the same bytes, which are manifests of traces with the same reference,
    digest, candidate and root run, or the two manifests are a SHA-256 collision. So
    an export repeated after a lost acknowledgement overwrites nothing else. *)
Theorem archive_key_determines_object x x' t t' key content content' :
  archive_object x t = Ok (key, content) → archive_object x' t' = Ok (key, content') →
  (content = content' ∧ st_trace_ref t = st_trace_ref t' ∧
   st_payload_digest t = st_payload_digest t' ∧ st_candidate_sha t = st_candidate_sha t') ∨
  sha256_collision content content'.
Proof.
  intros (root & _ & -> & ->)%archive_object_ok (root' & _ & -> & Hk)%archive_object_ok.
  apply object_key_digest, sha256_equal_or_collision in Hk as [Heq|Hc]; [left|by right].
  pose proof (manifest_inj _ _ _ _ Heq) as (? & ? & ? & _). done.
Qed.

(** ** Witnesses *)

(** LangSmith in memory: while it is down it still creates runs, but every answer
    is lost. *)
Definition demo_langsmith : LangSmithExporter :=
  {| ls_project := "p"; ls_endpoint := "https://ls"; ls_headers := [("x-api-key", "k")] |}.
Definition demo_text (digest : string) : val :=
  sdict [("extra", sdict [("metadata", sdict [("payload_digest", VStr digest)])])].
Definition demo_reply (status : Z) (text : string) : Response := {| status_code := status; body := text |}.
Definition demo_answer (m : gmap string val) (rq : http_request) : Response * gmap string val :=
  match rq_body rq with
  | JsonBody (VDict d) =>
      match dfind "id" d with
      | Some (VStr id) =>
          match m !! id with
          | Some _ => (demo_reply 409 "", m)
          | None => (demo_reply 201 "", <[id := VDict d]> m)
          end
      | _ => (demo_reply 422 "", m)
      end
  | _ =>
      match run_digest <$> m !! str_drop (String.length "https://ls/runs/") (rq_url rq) with
      | Some (Some (VStr digest)) => (demo_reply 200 (canonical_json (demo_text digest)), m)
      | _ => (demo_reply 404 "", m)
      end
  end.
Definition demo_send (rq : http_request) (w : gmap string val * bool) :
    (http_error + Response) * (gmap string val * bool) :=
  let '(response, m) := demo_answer w.1 rq in
  (if w.2 then inr response else inl TimeoutException, (m, w.2)).

Lemma demo_get_answer m id :
  demo_answer m (get_run demo_langsmith id) =
  match run_digest <$> m !! id with
  | Some (Some (VStr digest)) => (demo_reply 200 (canonical_json (demo_text digest)), m)
  | _ => (demo_reply 404 "", m)
  end.
Proof.
  unfold demo_answer, get_run. cbn [rq_body rq_url ls_endpoint demo_langsmith].
  by rewrite string_app_assoc, str_drop_app.
Qed.

Lemma demo_text_loads digest : loads (canonical_json (demo_text digest)) = Some (demo_text digest).
Proof.
  assert (json_ok (demo_text digest) = true) as Hok by done.
  by rewrite (loads_dumps _ _ _ Hok (canonical_json_some _ Hok)).
Qed.

#[refine] Instance demo_service : LangSmithService demo_send demo_langsmith := {| runs := fst |}.
Proof.
  - intros [m up] id d r w' Hid H. unfold demo_send, demo_answer in H. cbn [rq_body post_run fst snd] in H.
    rewrite Hid in H. destruct (m !! id) as [run|] eqn:Hm; cbn [fst snd] in H; injection H as <- <-; cbn [fst];
      (split; [by auto|]); destruct up; intros response [= <-]; cbn [status_code demo_reply]; split; intros Hs;
      first [by rewrite lookup_insert_eq|by eauto|unfold created in Hs; set_solver].
  - intros [m up] id r w' H. unfold demo_send in H. rewrite demo_get_answer in H. cbn [fst snd] in H.
    destruct (m !! id) as [run|] eqn:Hm; cbn [fmap option_fmap option_map] in H;
      [destruct (run_digest run) as [[| | | |dg| | |]|] eqn:Hd|]; cbn [fst snd] in H; injection H as <- <-;
      (split; [done|]); destruct up; intros response [= <-] Hs; cbn [status_code demo_reply] in Hs; try done.
    exists run, (demo_text dg). split_and!; [done|apply demo_text_loads|by rewrite Hd].
Defined.

#[refine] Instance demo_up : LangSmithUp demo_send demo_langsmith :=
  {| up w := w.2 = true ∧ ∀ id run, w.1 !! id = Some run → ∃ digest, run_digest run = Some (VStr digest) |}.
Proof.
  - intros [m b] id d digest [Hb Hm] Hid Hd. cbn [fst snd] in *. subst b.
    unfold demo_send, demo_answer. cbn [rq_body post_run fst snd]. rewrite Hid.
    destruct (m !! id) as [run|] eqn:E.
    + exists (demo_reply 409 ""), (m, true). split_and!; [done|done|done| |done].
      cbn [fst runs demo_service]. intros; congruence.
    + exists (demo_reply 201 ""), (<[id := VDict d]> m, true).
      cbn [fst snd runs demo_service status_code demo_reply]. split_and!; [done|done| | |].
      * intros i run. rewrite lookup_insert. case_decide; [intros [= <-]; by exists digest|apply Hm].
      * intros _. unfold created. set_solver.
      * rewrite E. by intros [].
  - intros [m b] id [Hb Hm] [run Hrun]. cbn [fst snd runs demo_service] in *. subst b.
    destruct (Hm _ _ Hrun) as [digest Hd]. exists (demo_reply 200 (canonical_json (demo_text digest))), (m, true).
    split; [|by split].
    unfold demo_send. rewrite demo_get_answer. cbn [fst snd]. rewrite Hrun. cbn [fmap option_fmap option_map].
    by rewrite Hd.
Defined.

(** The sanitized demo trace, and what evaluating it shows. *)
Definition demo_sanitized (check : SanitizedTrace → bool) : bool :=
  match sanitize "k" (demo_envelope demo_tree) with Ok t => check t | Err _ => false end.
Lemma demo_sanitized_ok : ∃ t, sanitize "k" (demo_envelope demo_tree) = Ok t ∧ NoDup (refs (st_spans t)).
Proof.
  assert (demo_sanitized (λ t, bool_decide (NoDup (refs (st_spans t)))) = true) as H by (vm_compute; reflexivity).
  unfold demo_sanitized in H. destruct (sanitize _ _) as [t|]; [|discriminate H]. exists t.
  split; [reflexivity|]. by apply bool_decide_eq_true in H.
Qed.

Lemma demo_times s : s ∈ te_spans (demo_envelope demo_tree) →
  unix_time (started_at s) ∧ ∀ ended, ended_at s = Some ended → unix_time ended.
Proof.
  cbn [te_spans demo_envelope]. unfold demo_tree. rewrite !elem_of_cons, elem_of_nil.
  intros [->|[->|[]]]; (split; [split; (done || vm_compute; reflexivity)|]);
    intros ended [= <-]; split; (done || vm_compute; reflexivity).
Qed.

Lemma demo_exportable t : sanitize "k" (demo_envelope demo_tree) = Ok t → NoDup (refs (st_spans t)) →
  exportable (demo_envelope demo_tree) t 900.
Proof.
  intros Hsan Hnd. split_and!; [done|intros s Hs; apply unix_time_ok, demo_times, Hs|].
  intros n k Hd. apply depth_bound in Hd; [cbn in Hd; lia|]. exact (proj1 (sanitized_tree "k" _ t Hsan)).
Qed.

Lemma spans_are_ordered_by_path_witness :
  ∃ t orders, sanitize "k" (demo_envelope demo_tree) = Ok t ∧ langsmith_order 900 t = Ok orders.
Proof.
  destruct demo_sanitized_ok as (t & Hsan & Hnd).
  destruct (spans_are_ordered_by_path "k" _ t 900 Hsan (demo_exportable t Hsan Hnd)) as (orders & Ho & _).
  exists t, orders. split; [exact Hsan|exact Ho].
Defined.

(** The first attempt creates the first run and loses the answer; then the service
    answers again. *)
Definition demo_down : gmap string val * bool := (∅, false).

Lemma uncertain_exports_converge_witness :
  ∃ t m v w', rtc (attempt demo_send 900 demo_langsmith t) demo_down (m, true) ∧
    langsmith_export demo_send 900 demo_langsmith t (m, true) = (Ok v, w') ∧
    ∀ s, s ∈ st_spans t → stored demo_send demo_langsmith t s w'.
Proof.
  destruct demo_sanitized_ok as (t & Hsan & Hnd).
  assert (own demo_send demo_langsmith t demo_down) as Hown
    by (intros s run _ Hr; cbn in Hr; by rewrite lookup_empty in Hr).
  destruct (langsmith_export demo_send 900 demo_langsmith t demo_down) as [r [m b]] eqn:He.
  assert (rtc (attempt demo_send 900 demo_langsmith t) demo_down (m, true)) as Hsteps.
  { eapply rtc_l; [apply attempt_export|]. rewrite He. apply rtc_once, attempt_elsewhere. reflexivity. }
  assert (up (m, true)) as Hup.
  { split; [reflexivity|]. cbn [fst]. intros id run Hr.
    destruct (export_effect demo_send 900 demo_langsmith t (sanitized_no_digest "k" _ t Hsan) _ _ _ He)
      as [[_ Hnew] _]. destruct (Hnew id run Hr) as [Hr'|Hd]; [cbn in Hr'; by rewrite lookup_empty in Hr'|].
    by eexists. }
  destruct (uncertain_exports_converge demo_send 900 demo_langsmith "k" _ t demo_down (m, true) Hsan
    (demo_exportable t Hsan Hnd) Hown Hsteps Hup) as (v & w' & Hok & Hall).
  exists t, m, v, w'. split; [exact Hsteps|]. split; [exact Hok|exact Hall].
Defined.

Lemma demo_export_succeeds t :
  sanitize "k" (demo_envelope demo_tree) = Ok t → NoDup (refs (st_spans t)) →
  ∃ v w', langsmith_export demo_send 900 demo_langsmith t (∅, true) = (Ok v, w').
Proof.
  intros Hsan Hnd. destruct (exportable_orders "k" _ t Hsan 900 (demo_exportable t Hsan Hnd)) as (orders & Ho & Hall).
  apply (export_up demo_send 900 demo_langsmith t); [exact (sanitized_no_digest "k" _ t Hsan)| | | | |].
  - exists orders. split; [exact Ho|]. intros s Hs. destruct (Hall s Hs) as (? & o & _ & ?). by exists o.
  - destruct (sanitized_root "k" _ t Hsan) as (root & ? & _). by exists root.
  - intros s Hs. by apply (sanitized_parent_id "k" _ t Hsan).
  - split; [reflexivity|]. intros id run Hr. cbn in Hr. by rewrite lookup_empty in Hr.
  - intros s run _ Hr. cbn in Hr. by rewrite lookup_empty in Hr.
Qed.

Lemma acknowledged_runs_are_stored_witness :
  ∃ t v w', langsmith_export demo_send 900 demo_langsmith t (∅, true) = (Ok v, w') ∧
    ∀ s, s ∈ st_spans t → stored demo_send demo_langsmith t s w'.
Proof.
  destruct demo_sanitized_ok as (t & Hsan & Hnd).
  destruct (demo_export_succeeds t Hsan Hnd) as (v & w' & H).
  exists t, v, w'. split; [exact H|].
  exact (proj2 (acknowledged_runs_are_stored demo_send 900 demo_langsmith "k" _ t (∅, true) v w' Hsan H)).
Defined.

Lemma otlp_spans_report_the_trace_witness :
  ∃ t docs, sanitize "k" (demo_envelope demo_tree) = Ok t ∧ rmapM (otlp_span t) (st_spans t) = Ok docs.
Proof.
  destruct demo_sanitized_ok as (t & Hsan & Hnd).
  destruct (otlp_spans_report_the_trace "k" _ t Hsan Hnd demo_times) as (docs & Hd & _).
  exists t, docs. split; [exact Hsan|exact Hd].
Defined.

Definition demo_archive : EvidenceArchiveExporter :=
  new_archive "http://minio:9000/" {| access_key := "a"; secret_key := "s"; region := "us-east-1" |}
    "evidence" "g01/traces".

Lemma archive_key_determines_object_witness :
  ∃ t key content, archive_object demo_archive t = Ok (key, content) ∧
    ((content = content ∧ st_trace_ref t = st_trace_ref t ∧ st_payload_digest t = st_payload_digest t ∧
      st_candidate_sha t = st_candidate_sha t) ∨ sha256_collision content content).
Proof.
  destruct demo_sanitized_ok as (t & Hsan & _). destruct (sanitized_root "k" _ t Hsan) as (root & Hr & _).
  assert (∃ key content, archive_object demo_archive t = Ok (key, content)) as (key & content & Ho).
  { unfold archive_object. rewrite Hr. by eexists _, _. }
  exists t, key, content. split; [exact Ho|].
  exact (archive_key_determines_object demo_archive demo_archive t t key content content Ho Ho).
Defined.
