(* ===== verification/TraceServer.v ===== *)
(** * The trace ingestion service: [src/faultwitness/observability/server.py]

    The routes over any [TraceStore]: the credential, the strict parsing of an
    envelope, ingestion, status, drain and the operator relay.  A request is its
    credential header and its body; what the framework sends back is a
    [trace_reply].  The application's start and stop are left out. *)
From Stdlib Require Import Ascii.
From S2P Require Import Prelude Json JsonFacts Sha256 PyDyn Regex Config.
From S2P Require Import Sanitizer SanitizerFacts Cipher Buffer TraceStore TraceService Contracts.
From S2P Require Import ContractsFacts Exporters ExportersTheorems.
Import TraceService.

Record TraceStatus := {
  pending_traces : Z; pending_langsmith : Z; pending_otlp : Z; pending_archive : Z;
}.
Definition status_ (values : buffer_status) : TraceStatus :=
  {| pending_traces := bs_traces values; pending_langsmith := bs_sink values LANGSMITH;
     pending_otlp := bs_sink values OTLP; pending_archive := bs_sink values ARCHIVE |}.

(** A 200 or 202 answer, a 204 one, an [HTTPException], or the 500 of an exception
    that escapes the handler. *)
Inductive trace_reply :=
| TraceAccepted (trace_ref langsmith_trace_id otlp_trace_id payload_digest : string) (duplicate : bool)
| StatusAnswer (status : TraceStatus)
| DrainResult (acknowledged retried : Z) (status : TraceStatus)
| Relayed (document : val)
| Ready
| NoContent
| HTTPException (status : Z) (detail : string)
| ServerError (name : string).

(** ** Configuration *)

(** The export mode of [_build_service]: the automatic sinks, or its [RuntimeError]. *)
Definition automatic_sinks (env : gmap string string) : option (list DeliverySink) :=
  let mode := default "direct" (env !! "LANGSMITH_EXPORT_MODE") in
  if bool_decide (mode = "direct") then Some all_sinks
  else if bool_decide (mode = "operator_relay") then Some [OTLP; ARCHIVE]
  else None.

(** [RelayOnlyExporter.export] *)
Definition relay_only {W : Type} (t : SanitizedTrace) (w : W) : result export_error unit * W :=
  (Err (ExportFailure "langsmith_operator_relay_required"), w).

(** ** The envelope *)

Definition text_of (v : val) : string := match v with VStr s => s | _ => "" end.
Definition opt_text_of (v : val) : option string := match v with VStr s => Some s | _ => None end.
Definition time_of (v : val) : Z := match v with VInt z => z | _ => 0%Z end.
Definition opt_time_of (v : val) : option Z := match v with VInt z => Some z | _ => None end.
Definition members_of (v : val) : mapping := match v with VDict d => d | _ => [] end.
Definition items_of (v : val) : list val := match v with VList l => l | _ => [] end.
Definition string_members (v : val) : list (string * val) :=
  omap (λ kv, match kv.1 with VStr k => Some (k, kv.2) | _ => None end) (members_of v).

Definition stage_of (v : val) : TraceStage :=
  if val_is v "api" then API else if val_is v "state_transition" then STATE_TRANSITION
  else if val_is v "checkpoint" then CHECKPOINT else if val_is v "model" then MODEL
  else if val_is v "tool" then TOOL else if val_is v "policy" then POLICY
  else if val_is v "action" then ACTION else EXPORT.
Definition span_status_of (v : val) : SpanStatus :=
  if val_is v "ok" then SPAN_OK else if val_is v "error" then SPAN_ERROR else SPAN_UNSET.

(** The attributes of an accepted document. *)
Definition span_of (v : val) : SpanRecord :=
  let d := members_of v in
  {| span_id := text_of (dget "span_id" d); parent_span_id := opt_text_of (dget "parent_span_id" d);
     span_name := text_of (dget "name" d); span_stage := stage_of (dget "stage" d);
     started_at := time_of (dget "started_at" d); ended_at := opt_time_of (dget "ended_at" d);
     span_status := span_status_of (dget "status" d);
     attributes := string_members (dget "attributes" d) |}.
Definition envelope_of (v : val) : TraceEnvelope :=
  let d := members_of v in
  {| te_trace_id := text_of (dget "trace_id" d); te_tenant_id := text_of (dget "tenant_id" d);
     te_correlation_id := text_of (dget "correlation_id" d);
     te_causation_id := opt_text_of (dget "causation_id" d);
     te_incident_id := opt_text_of (dget "incident_id" d); te_task_id := opt_text_of (dget "task_id" d);
     te_action_id := opt_text_of (dget "action_id" d);
     te_contracts_version := text_of (dget "contracts_version" d);
     te_candidate_sha := text_of (dget "candidate_sha" d);
     te_spans := span_of <$> items_of (dget "spans" d);
     te_emitted_at := time_of (dget "emitted_at" d) |}.

Definition MAX_BODY : Z := 1048576.

(** [parse_trace_envelope]; [None] is its [ValueError].  A body outside Latin-1 is
    outside the model. *)
Definition parse_trace_envelope (parse_datetime : string → option (Z * option Z)) (raw : string) :
    option TraceEnvelope :=
  if bool_decide (raw = "") || (MAX_BODY <? str_len raw)%Z then None
  else
    text ← utf8_decode raw; v ← loads text; r ← check parse_datetime TraceEnvelopeModel v;
    Some (envelope_of r).

(** ** The credential *)

Definition is_ascii (s : string) : bool := str_all (λ c, N_of_ascii c <? 128)%N s.

(** [_authorize]: [compare_digest] takes ASCII text only. *)
Definition authorize (expected : option string) (token : option string) : result trace_reply unit :=
  let* expected := from_option_or (ServerError "RuntimeError") expected in
  match token with
  | None => Err (HTTPException 401 "invalid credential")
  | Some token =>
      raise_if negb (is_ascii token && is_ascii expected) with_ ServerError "TypeError";;
      raise_if negb (bool_decide (token = expected)) with_ HTTPException 401 "invalid credential";;
      Ok tt
  end.

(** [len(ref) != 24 or any(c not in "0123456789abcdef" ...)], negated *)
Definition valid_ref (ref : string) : bool :=
  (str_len ref =? 24)%Z && str_all (λ c, is_digit c || between "a" "f" c) ref.

(** ** Exceptions of the service *)

Definition sanitize_error_name (e : sanitize_error) : string :=
  match e with
  | SanitizationRejected => "SanitizationRejected"
  | PyKeyError => "KeyError"
  | PyStopIteration => "RuntimeError"   (* a StopIteration inside a coroutine *)
  | PyNoneIsoformat => "AttributeError"
  | OutOfFuel => "fuel"
  end.
Definition buffer_error_name (e : buffer_error) : string :=
  match e with
  | BufferFull => "BufferFull"
  | PayloadConflict => "PayloadConflict"
  | PyValueError => "ValueError"
  | InvalidTag => "InvalidTag"
  | PyDocumentError => "KeyError"
  | DeliveryKeyError => "KeyError"
  | CheckViolation => "CheckViolationError"
  | NotConnected => "RuntimeError"
  end.
Definition service_error_name (e : service_error) : string :=
  match e with SanitizeError e => sanitize_error_name e | StoreError e => buffer_error_name e end.
Definition escaped (e : service_error) : trace_reply := ServerError (service_error_name e).

Definition rejected : trace_reply := HTTPException 422 "trace rejected by sanitizer".
(** The [except] clauses of [ingest_trace]. *)
Definition ingest_failure (e : service_error) : trace_reply :=
  match e with
  | SanitizeError SanitizationRejected | StoreError PyValueError => rejected
  | StoreError BufferFull => HTTPException 503 "trace buffer is full"
  | e => escaped e
  end.

Section Server.
Context {S W : Type} `{St : TraceStore S}.
Context (export : DeliverySink → SanitizedTrace → W → result export_error unit * W).
Context (reference_key : string).
Context (clock : nat → Z) (nonces : nat → string) (locks : nat → list string).
Context (parse_datetime : string → option (Z * option Z)).
Context (automatic : list DeliverySink).
Context (credential : option string).   (* [_required("TRACE_INGEST_TOKEN")] *)
Abbreviation Service := (service (S:=S) (W:=W)).
Abbreviation Route := (Service → trace_reply * Service).

(** A handler that ran: its reply, from what it returned or raised. *)
Definition reply_with {A} (answer : A → Service → trace_reply) (failed : service_error → trace_reply)
    (m : SE Service service_error A) : Route := λ s,
  match m s with
  | (Ok a, s') => (answer a s', s')
  | (Err e, s') => (failed e, s')
  end.

(** [dependencies=[Depends(_authorize)]] *)
Definition guarded (token : option string) (route : Route) : Route := λ s,
  match authorize credential token with
  | Ok _ => route s
  | Err reply => (reply, s)
  end.

Definition ready : Route := λ s, (Ready, s).

Definition accepted_reply (t : SanitizedTrace) (created : bool) : trace_reply :=
  match List.find is_root (st_spans t) with
  | Some root => TraceAccepted (st_trace_ref t) (ss_remote_id root) (st_otlp_trace_id t)
                   (st_payload_digest t) (negb created)
  | None => ServerError "RuntimeError"
  end.

Definition ingest_trace (token : option string) (raw : string) : Route :=
  guarded token (λ s,
    match parse_trace_envelope parse_datetime raw with
    | None => (rejected, s)
    | Some envelope =>
        reply_with (λ r _, accepted_reply r.1 r.2) ingest_failure
          (ingest reference_key clock nonces envelope) s
    end).

Definition trace_status (token : option string) : Route :=
  guarded token (λ s, (StatusAnswer (status_ (status (sv_store s))), s)).

(** The defaults of [drain_until_idle]. *)
Definition drain (token : option string) : Route :=
  guarded token
    (reply_with (λ c s, DrainResult (acked_count c) (retried_count c) (status_ (status (sv_store s)))) escaped
      (drain_until_idle export clock locks automatic 100 10)).

Definition relay_claim (token : option string) : Route :=
  guarded token (λ s,
    if bool_decide (LANGSMITH ∈ automatic) then (HTTPException 409 "operator relay is not enabled", s)
    else
      reply_with (λ ds _, match ds with
                          | [] => NoContent
                          | d :: _ => Relayed (sdict (document true (dl_trace d)))
                          end) escaped
        (store_op (λ n, claim LANGSMITH 1 120 (clock n) (locks n))) s).

Definition relay_ack (token : option string) (trace_ref : string) : Route :=
  guarded token (λ s,
    if negb (valid_ref trace_ref) then (HTTPException 422 "invalid trace reference", s)
    else reply_with (λ _ _, NoContent) escaped
           (store_op (λ n, acknowledge trace_ref LANGSMITH (clock n))) s).

Definition relay_retry (token : option string) (trace_ref : string) : Route :=
  guarded token (λ s,
    if negb (valid_ref trace_ref) then (HTTPException 422 "invalid trace reference", s)
    else reply_with (λ _ _, NoContent) escaped
           (store_op (λ n, retry trace_ref LANGSMITH "operator_relay_failure" (clock n))) s).

(** The routes. *)
Inductive trace_request :=
| GetReady
| PostTraces (raw : string)
| GetStatus
| PostDrain
| PostRelayClaim
| PostRelayAck (trace_ref : string)
| PostRelayRetry (trace_ref : string).

Definition handle (token : option string) (rq : trace_request) : Route :=
  match rq with
  | GetReady => ready
  | PostTraces raw => ingest_trace token raw
  | GetStatus => trace_status token
  | PostDrain => drain token
  | PostRelayClaim => relay_claim token
  | PostRelayAck ref => relay_ack token ref
  | PostRelayRetry ref => relay_retry token ref
  end.
End Server.

(** ** The credential guards every route but one *)

Lemma authorize_ok expected token :
  authorize expected token = Ok tt → ∃ secret, expected = Some secret ∧ token = Some secret.
Proof.
  unfold authorize. destruct expected as [secret|]; [|done]. cbn [from_option_or rbind].
  destruct token as [t|]; [|done]. destruct (negb (_ && _)); [done|].
  destruct (bool_decide_reflect (t = secret)) as [->|]; [|done]. intros _. by exists secret.
Qed.

Lemma authorize_err expected token reply :
  authorize expected token = Err reply →
  reply = HTTPException 401 "invalid credential" ∨ ∃ name, reply = ServerError name.
Proof.
  unfold authorize. destruct expected as [secret|]; cbn [from_option_or rbind]; [|intros [= <-]; eauto].
  destruct token as [t|]; [|intros [= <-]; eauto]. destruct (negb (_ && _)); [intros [= <-]; eauto|].
  destruct (negb _); [intros [= <-]; eauto|done].
Qed.

Section Routes.
Context {S W : Type} `{St : TraceStore S}.
Context (export : DeliverySink → SanitizedTrace → W → result export_error unit * W).
Context (reference_key : string).
Context (clock : nat → Z) (nonces : nat → string) (locks : nat → list string).
Context (parse_datetime : string → option (Z * option Z)).
Context (automatic : list DeliverySink) (credential : option string).
Abbreviation Service := (service (S:=S) (W:=W)).

(** Every route of the trace service but the readiness probe does nothing
    without the configured credential: a request that does not carry it leaves the
    service as it was and is answered 401, or 500 when the service has no credential
    or the two cannot be compared. *)
Theorem trace_routes_need_the_credential token rq (s : Service) reply s' :
  handle export reference_key clock nonces locks parse_datetime automatic credential token rq s = (reply, s') →
  rq ≠ GetReady →
  (s' = s ∧ (reply = HTTPException 401 "invalid credential" ∨ ∃ name, reply = ServerError name)) ∨
  ∃ secret, credential = Some secret ∧ token = Some secret.
Proof.
  intros H Hrq. destruct (authorize credential token) as [[]|err] eqn:Ha.
  { right. by apply authorize_ok. }
  left. assert (reply = err ∧ s' = s) as [-> ->].
  { destruct rq; [done|..]; cbn [handle] in H;
      unfold ingest_trace, trace_status, drain, relay_claim, relay_ack, relay_retry, guarded in H;
      rewrite Ha in H; by injection H as <- <-. }
  split; [done|]. by eapply authorize_err.
Qed.

(** What the vault holds after an answer of [ingest_trace]. *)
Definition ingested (v : vault) (raw : string) (reply : trace_reply) (s' : Service) : Prop :=
  match reply with
  | TraceAccepted ref remote otlp digest duplicate =>
      ∃ e t v' h, parse_trace_envelope parse_datetime raw = Some e ∧ sanitize reference_key e = Ok t ∧
        ref = st_trace_ref t ∧ digest = st_payload_digest t ∧ otlp = st_otlp_trace_id t ∧
        (∃ root, root ∈ st_spans t ∧ ss_parent_span_ref root = None ∧ remote = ss_remote_id root) ∧
        keeps_vault (sv_store s') v' ∧ v' !! ref = Some h ∧ st_payload_digest (held_trace h) = digest ∧
        if duplicate then v' = v else v !! ref = None ∧ v' = <[ref := hold t]> v
  | _ => keeps_vault (sv_store s') v
  end.

Lemma ingested_refused v raw reply (s' : Service) :
  (∀ a b c d e, reply ≠ TraceAccepted a b c d e) → keeps_vault (sv_store s') v → ingested v raw reply s'.
Proof. intros Hr Hv. destruct reply; try done. by destruct (Hr _ _ _ _ _ eq_refl). Qed.

(** C30: a trace is accepted exactly when it is stored, and only sanitized: an
    answer 202 means that the body parsed as a strict envelope, that the sanitizer
    accepted it, and that the buffer now holds the sanitized trace under the
    reference answered, or held one with the same digest already; any other answer
    leaves the traces of the buffer alone. Numbers of attributes are finite. *)
Theorem accepted_means_sanitized_and_stored token raw (s : Service) v reply s' :
  keeps_vault (sv_store s) v →
  (∀ e, parse_trace_envelope parse_datetime raw = Some e → envelope_wf e) →
  ingest_trace reference_key clock nonces parse_datetime credential token raw s = (reply, s') →
  ingested v raw reply s'.
Proof.
  intros Hv Hwf H. unfold ingest_trace, guarded in H.
  destruct (authorize credential token) as [|err] eqn:Ha.
  2: { injection H as <- <-. apply authorize_err in Ha as [->|[name ->]]; exact Hv. }
  destruct (parse_trace_envelope parse_datetime raw) as [e|] eqn:Hp; [|injection H as <- <-; exact Hv].
  unfold reply_with, ingest, sbind, slift in H.
  destruct (sanitize reference_key e) as [t|err] eqn:Hs; cbn [rmap_err] in H.
  2: { injection H as <- <-. apply ingested_refused; [intros; by destruct err|exact Hv]. }
  unfold store_op in H. destruct (enqueue _ t _ (sv_store s)) as [r st] eqn:He.
  assert (trace_ok t) as Hok.
  { split; [by eapply sanitized_wf; [apply Hwf|]|]. by eapply sanitized_facts. }
  pose proof (enqueue_law _ _ _ _ _ _ _ Hv Hok He) as Hl.
  destruct (sanitized_root reference_key e t Hs) as (root & Hroot & Hin & Hpar).
  unfold root_span in Hroot. destruct (List.find is_root (st_spans t)) as [root'|] eqn:Hf; [|done].
  injection Hroot as ->.
  destruct r as [created|err]; cbn [rmap_err] in H.
  2: { injection H as <- <-. apply ingested_refused; [intros; by destruct err|exact Hl]. }
  cbn [sret fst snd] in H. unfold accepted_reply in H. rewrite Hf in H. injection H as <- <-.
  cbn [ingested sv_store]. exists e, t. destruct created; cbn [negb].
  - destruct Hl as [Hnone Hv']. exists (<[st_trace_ref t := hold t]> v), (hold t).
    split_and!; try done; [by exists root|by rewrite lookup_insert_eq].
  - destruct Hl as [Hv' (h & Hh & Hd)]. exists v, h. split_and!; try done. by exists root.
Qed.

(** What the operator relay is given is a trace of the buffer, not yet delivered
    to LangSmith, and only when LangSmith is not exported to directly. *)
Lemma relay_claim_shows_the_vault token (s : Service) v doc s' :
  keeps_vault (sv_store s) v →
  relay_claim clock locks automatic credential token s = (Relayed doc, s') →
  (LANGSMITH ∉ automatic) ∧ keeps_vault (sv_store s') v ∧
  ∃ ref h, v !! ref = Some h ∧ doc = sdict (document true (held_trace h)) ∧ LANGSMITH ∉ held_acked h.
Proof.
  intros Hv H. unfold relay_claim, guarded in H.
  destruct (authorize credential token) as [|err] eqn:Ha.
  2: { injection H as -> <-. apply authorize_err in Ha as [[=]|[name [=]]]. }
  case_bool_decide as Hauto; [done|]. unfold reply_with, store_op in H.
  destruct (claim _ _ _ _ _ (sv_store s)) as [r st] eqn:Hc.
  pose proof (claim_law _ _ _ _ _ _ _ _ _ Hv Hc) as [Hv' Hds].
  destruct r as [ds|err]; cbn [rmap_err] in H; [|by injection H]. destruct ds as [|d ds]; [by injection H|].
  injection H as <- <-. split; [done|]. split; [done|].
  destruct (Hds _ d eq_refl ltac:(left)) as (Hsink & h & Hh & Heq & Hn).
  exists (st_trace_ref (dl_trace d)), h. by rewrite Heq.
Qed.

(** The routes that settle a relayed delivery do not depend on [automatic_sinks]:
    in direct mode too, whoever has the credential acknowledges for LangSmith a
    trace no exporter has seen. *)
Lemma relay_ack_ignores_the_mode token ref (s : Service) v s' :
  keeps_vault (sv_store s) v →
  relay_ack clock credential token ref s = (NoContent, s') →
  sv_log s' = sv_log s ∧ ∃ h, v !! ref = Some h ∧ keeps_vault (sv_store s') (<[ref := mark LANGSMITH h]> v).
Proof.
  intros Hv H. unfold relay_ack, guarded in H. destruct (authorize credential token) as [|err] eqn:Ha.
  2: { injection H as -> <-. apply authorize_err in Ha as [[=]|[name [=]]]. }
  destruct (negb _); [by injection H|]. unfold reply_with, store_op in H.
  destruct (acknowledge _ _ _ (sv_store s)) as [r st] eqn:Hk.
  pose proof (acknowledge_law _ _ _ _ _ _ _ Hv Hk) as Hl.
  destruct r as [[]|err]; cbn [rmap_err] in H; [|by injection H]. by injection H as <-.
Qed.
End Routes.

(** ** Witnesses *)

Definition demo_time_text : val := VStr (demo_format 0).
Definition demo_raw : string :=
  default "" (dumps default_style (sdict
    [("trace_id", demo_ulid "trace_"); ("tenant_id", demo_ulid "ten_");
     ("correlation_id", demo_ulid "corr_"); ("candidate_sha", VStr "0123456789012345678901234567890123456789");
     ("emitted_at", demo_time_text);
     ("spans", VList [sdict
       [("span_id", demo_ulid "span_"); ("name", VStr "api.incident.create"); ("stage", VStr "api");
        ("started_at", demo_time_text); ("ended_at", demo_time_text)]])])).

Definition demo_state : service (S:=MemoryTraceBuffer) (W:=unit) := TraceService.demo_service ∅.
Definition demo_ingest (token : option string) : trace_reply * service (S:=MemoryTraceBuffer) (W:=unit) :=
  ingest_trace (St:=demo_buffer) "key" (λ _, 0%Z) (λ _, "nonce") demo_time (Some "secret") token demo_raw demo_state.

Lemma demo_raw_parses : ∃ e, parse_trace_envelope demo_time demo_raw = Some e ∧ envelope_wf e.
Proof.
  assert (match parse_trace_envelope demo_time demo_raw with
          | Some e => forallb (λ s, match attributes s with [] => true | _ => false end) (te_spans e)
          | None => false end = true) as H by (vm_compute; reflexivity).
  destruct (parse_trace_envelope demo_time demo_raw) as [e|]; [|discriminate H]. exists e.
  split; [reflexivity|]. rewrite forallb_forall in H. apply Forall_forall. intros s Hs.
  specialize (H s (proj1 (list_elem_of_In _ _) Hs)). destruct (attributes s); [|discriminate H].
  split; [apply NoDup_nil_2|apply Forall_nil_2].
Qed.

Lemma trace_routes_need_the_credential_witness :
  PostDrain ≠ GetReady ∧
  ∃ s' : service (S:=MemoryTraceBuffer) (W:=unit),
    handle (St:=demo_buffer) demo_export "key" (λ _, 0%Z) (λ _, "nonce") (λ _, []) demo_time all_sinks
      (Some "secret") (Some "guess") PostDrain demo_state = (HTTPException 401 "invalid credential", s') ∧
    ((s' = demo_state ∧ (HTTPException 401 "invalid credential" = HTTPException 401 "invalid credential" ∨
        ∃ name, HTTPException 401 "invalid credential" = ServerError name)) ∨
     ∃ secret, Some "secret" = Some secret ∧ Some "guess" = Some secret).
Proof.
  split; [discriminate|]. exists demo_state. split; [reflexivity|].
  apply (trace_routes_need_the_credential (St:=demo_buffer) demo_export "key" (λ _, 0%Z) (λ _, "nonce") (λ _, [])
    demo_time all_sinks (Some "secret") (Some "guess") PostDrain demo_state); [reflexivity|discriminate].
Defined.

Lemma accepted_means_sanitized_and_stored_witness :
  (∃ e, parse_trace_envelope demo_time demo_raw = Some e) ∧
  ∃ reply s', demo_ingest (Some "secret") = (reply, s') ∧
    ingested (St:=demo_buffer) "key" demo_time ∅ demo_raw reply s'.
Proof.
  destruct demo_raw_parses as (e & Hp & Hwf). split; [by exists e|].
  destruct (demo_ingest (Some "secret")) as [reply s'] eqn:H. exists reply, s'. split; [reflexivity|].
  refine (accepted_means_sanitized_and_stored (St:=demo_buffer) "key" (λ _, 0%Z) (λ _, "nonce") demo_time
    (Some "secret") (Some "secret") demo_raw demo_state ∅ reply s' demo_empty_vault _ H).
  intros e' He'. rewrite Hp in He'. by injection He' as <-.
Defined.
