(* ===== verification/ExportPipeline.v ===== *)
(** * The export service over the real exporters

    [TraceExportService] of [service.py] with the exporters of [exporters.py] plugged
    in, as [_build_service] of [server.py] does in direct mode: what its log says was
    exported to LangSmith is stored there. *)
From S2P Require Import Prelude Json Sha256 Sanitizer SanitizerFacts Cipher Buffer TraceStore TraceService.
From S2P Require Import Channel Exporters ExportersTheorems.

(** What [drain_once] sees of an exporter: its result is dropped, and of its
    exceptions it knows [ExportFailure]. *)
Definition outcome (r : result export_exn val) : result export_error unit :=
  match r with
  | Ok _ => Ok tt
  | Err (Failed f) => Err (TraceService.ExportFailure (code f))
  | Err (Raised _) => Err UnexpectedError
  end.

Section Pipeline.
Context {W : Type} (send : http_request → W → (http_error + Response) * W) (now : W → Z) (frames : nat).
Context (ls : LangSmithExporter) (otlp : string) (archive : EvidenceArchiveExporter).

(** The [exporters] of [_build_service] *)
Definition exporters (sink : DeliverySink) (t : SanitizedTrace) (w : W) : result export_error unit * W :=
  let '(r, w') :=
    match sink with
    | LANGSMITH => langsmith_export send frames ls t w
    | OTLP => otlp_export send otlp t w
    | ARCHIVE => archive_export send now archive t w
    end in
  (outcome r, w').

Context `{Svc : !LangSmithService send ls}.
(** Requests to the other services leave LangSmith's runs. *)
Context (runs_kept : ∀ rq w, runs w ⊆ runs (send rq w).2).

(** [m] never loses a run. *)
Definition keeps_runs {A} (m : SE W export_exn A) : Prop := ∀ w0, keeps (λ w, runs w0 ⊆ runs w) m.

Lemma call_keeps_runs prefix rq : keeps_runs (call send prefix rq).
Proof using runs_kept. intros w0 w Hw. rewrite call_world. by etransitivity. Qed.

Lemma otlp_send_keeps_runs endpoint signal doc field : keeps_runs (otlp_send send endpoint signal doc field).
Proof using runs_kept.
  intros w0. apply keeps_bind; [apply call_keeps_runs|]. intros response.
  apply keeps_bind; [apply keeps_guard|]. intros []. case_bool_decide; [apply keeps_ret|].
  apply keeps_bind; [apply keeps_lift|]. intros count. apply keeps_guard.
Qed.

Lemma otlp_keeps_runs t : keeps_runs (otlp_export send otlp t).
Proof using runs_kept.
  intros w0. unfold otlp_export.
  repeat (apply keeps_bind; [first [apply keeps_lift|apply otlp_send_keeps_runs]|intros ?]). apply keeps_ret.
Qed.

Lemma put_keeps_runs key content : keeps_runs (put send now archive key content).
Proof using runs_kept.
  intros w0. unfold put. apply keeps_bind; [apply keeps_get|]. intros w.
  apply keeps_bind; [apply keeps_lift|]. intros headers.
  apply keeps_bind; [apply call_keeps_runs|]. intros response. apply keeps_guard.
Qed.

Lemma archive_keeps_runs t : keeps_runs (archive_export send now archive t).
Proof using runs_kept.
  intros w0. unfold archive_export. apply keeps_bind; [apply keeps_lift|]. intros [key content].
  repeat (apply keeps_bind; [apply put_keeps_runs|intros ?]). apply keeps_ret.
Qed.

(** ** The log is honest *)

Context {S : Type} `{St : TraceStore S} (clock : nat → Z) (locks : nat → list string).
Abbreviation Service := (service (S:=S) (W:=W)).

Definition no_digest (t : SanitizedTrace) : Prop :=
  ∀ s v, s ∈ st_spans t → ("payload_digest", v) ∉ ss_attributes s.
Definition log_honest (s : Service) : Prop :=
  ∀ t x, (LANGSMITH, t) ∈ sv_log s → no_digest t → x ∈ st_spans t → stored send ls t x (sv_world s).

Lemma honest_grows (s : Service) store world n :
  log_honest s → runs (sv_world s) ⊆ runs world →
  log_honest {| sv_store := store; sv_world := world; sv_log := sv_log s; sv_calls := n |}.
Proof using Type.
  intros Hs Hsub t x Hin Hn Hx. destruct (Hs t x Hin Hn Hx) as (run & Hr & Hd).
  exists run. split; [by eapply lookup_weaken|done].
Qed.

Lemma store_op_honest {A} (m : nat → SE S buffer_error A) : keeps log_honest (store_op (W:=W) m).
Proof using Type.
  intros s Hs. unfold store_op. destruct (m _ _) as [r st]. by apply honest_grows.
Qed.

Lemma exporters_keep_runs sink t w : runs w ⊆ runs (exporters sink t w).2.
Proof using runs_kept Svc.
  unfold exporters. destruct sink.
  - destruct (langsmith_export send frames ls t w) as [r w'] eqn:He. cbn [snd].
    assert (keeps_runs (langsmith_export send frames ls t)) as Hk.
    { intros w0. unfold langsmith_export. apply keeps_bind; [apply keeps_lift|]. intros orders.
      apply keeps_bind; [apply keeps_lift|]. intros root. apply keeps_bind; [|intros ?; apply keeps_ret].
      apply keeps_for. intros s _. unfold export_run.
      repeat (apply keeps_bind; [first [apply keeps_lift|apply call_keeps_runs]|intros ?]).
      case_bool_decide; [apply keeps_ret|]. destruct (_ =? _)%Z; [|apply keeps_raise].
      intros w1 Hw1. by rewrite verify_world. }
    pose proof (Hk w w (reflexivity (runs w))) as H. by rewrite He in H.
  - pose proof (otlp_keeps_runs t w w (reflexivity (runs w))) as H. by destruct (otlp_export send otlp t w).
  - pose proof (archive_keeps_runs t w w (reflexivity (runs w))) as H. by destruct (archive_export send now archive t w).
Qed.

Lemma run_export_honest sink t : keeps log_honest (run_export exporters (S:=S) sink t).
Proof using runs_kept Svc.
  intros s Hs. unfold run_export. pose proof (exporters_keep_runs sink t (sv_world s)) as Hsub.
  destruct (exporters sink t (sv_world s)) as [r w'] eqn:He. cbn [snd] in *.
  pose proof (honest_grows s (sv_store s) w' (sv_calls s) Hs Hsub) as Hg.
  destruct r as [[]|err]; [|exact Hg]. intros t' x Hin Hn Hx.
  cbn [sv_log sv_world] in *. apply elem_of_app in Hin as [Hin|Hin]; [by apply (Hg t' x)|].
  apply list_elem_of_singleton in Hin. injection Hin as <- <-. unfold exporters in He.
  destruct (langsmith_export send frames ls t' (sv_world s)) as [[v|[]] w1] eqn:Hl; cbn [outcome] in He; simplify_eq.
  destruct (export_effect send frames ls t' Hn (sv_world s) (Ok v) _ Hl) as [_ Hstored]. by eapply Hstored.
Qed.

Lemma drain_once_honest automatic limit sinks :
  keeps log_honest (drain_once (S:=S) exporters clock locks automatic limit sinks).
Proof using runs_kept Svc.
  unfold drain_once. generalize zero_counts. generalize (match sinks with Some (s :: r) => s :: r | _ => automatic end).
  induction l as [|sink l IH]; intros c; cbn [drain_sinks]; [apply keeps_ret|].
  apply keeps_bind; [apply store_op_honest|]. intros ds. apply keeps_bind; [|by intros].
  revert c. induction ds as [|d ds IHd]; intros c; cbn [deliver_all]; [apply keeps_ret|].
  apply keeps_bind; [|by intros]. unfold deliver. apply keeps_bind; [apply run_export_honest|].
  intros [[]|err]; (apply keeps_bind; [apply store_op_honest|intros ?; apply keeps_ret]).
Qed.

Lemma drain_loop_honest automatic rounds :
  keeps log_honest (run_drain_loop (S:=S) exporters clock locks automatic rounds).
Proof using runs_kept Svc.
  induction rounds as [|rounds IH]; cbn [run_drain_loop]; [apply keeps_ret|].
  apply keeps_bind; [apply drain_once_honest|]. by intros.
Qed.

End Pipeline.

(** ** Witness *)

(** What was logged stays logged. *)
Lemma store_op_logs {S W A} entry (m : nat → SE S buffer_error A) :
  keeps (λ s : service (S:=S) (W:=W), entry ∈ sv_log s) (store_op m).
Proof. intros s Hs. unfold store_op. by destruct (m _ _). Qed.
Lemma run_export_logs {S W} export entry sink t :
  keeps (λ s : service (S:=S) (W:=W), entry ∈ sv_log s) (run_export export sink t).
Proof.
  intros s Hs. unfold run_export. destruct (export _ _ _) as [[[]|e] w]; cbn; [|done].
  apply elem_of_app. by left.
Qed.
Lemma deliver_all_logs {S W} `{TraceStore S} export clock entry sink ds : ∀ c,
  keeps (λ s : service (S:=S) (W:=W), entry ∈ sv_log s) (deliver_all export clock sink ds c).
Proof.
  induction ds as [|d ds IH]; intros c; cbn [deliver_all]; [apply keeps_ret|].
  apply keeps_bind; [|intros; apply IH]. apply keeps_bind; [apply run_export_logs|].
  intros [[]|e]; (apply keeps_bind; [apply store_op_logs|intros; apply keeps_ret]).
Qed.
Lemma drain_sinks_logs {S W} `{TraceStore S} export clock locks entry limit sinks : ∀ c,
  keeps (λ s : service (S:=S) (W:=W), entry ∈ sv_log s) (drain_sinks export clock locks limit sinks c).
Proof.
  induction sinks as [|sink sinks IH]; intros c; cbn [drain_sinks]; [apply keeps_ret|].
  apply keeps_bind; [apply store_op_logs|]. intros ds. apply keeps_bind; [apply deliver_all_logs|]. intros. apply IH.
Qed.

Lemma sbind_after {S E A B} (P : S → Prop) (m : SE S E A) (k : A → SE S E B) s :
  P (m s).2 → (∀ a, keeps P (k a)) → P (sbind m k s).2.
Proof. intros Hm Hk. unfold sbind. destruct (m s) as [[a|e] s1]; [by apply Hk|done]. Qed.

(** A delivery that can be claimed and exported is logged by a round. *)
Lemma drain_logs {S W} `{TraceStore S} export clock locks limit sink sinks (s : service (S:=S) (W:=W)) ds d st w c :
  claim sink limit lease_seconds (clock (sv_calls s)) (locks (sv_calls s)) (sv_store s) = (Ok (d :: ds), st) →
  export sink (dl_trace d) (sv_world s) = (Ok tt, w) →
  (sink, dl_trace d) ∈ sv_log (drain_sinks export clock locks limit (sink :: sinks) c s).2.
Proof.
  intros Hc He. cbn [drain_sinks]. unfold sbind at 1, store_op at 1. rewrite Hc. cbn [rmap_err].
  set (P := λ s : service (S:=S) (W:=W), (sink, dl_trace d) ∈ sv_log s).
  match goal with |- _ ∈ sv_log (?r.2) => change (P r.2) end.
  apply sbind_after; [|intros; apply drain_sinks_logs]. cbn [deliver_all].
  apply sbind_after; [|intros; apply deliver_all_logs]. unfold deliver.
  apply sbind_after.
  - unfold run_export. cbn [sv_world]. rewrite He. apply elem_of_app. right. by apply list_elem_of_singleton.
  - intros [[]|e]; (apply keeps_bind; [apply store_op_logs|intros; apply keeps_ret]).
Qed.

Definition demo_pipeline := exporters demo_send (λ _, 0%Z) 900 demo_langsmith "http://otlp" demo_archive.

(** The store that holds one sealed trace. *)
Definition demo_record (p : EncryptedPayload) : MemoryRecord :=
  {| mr_payload := p; mr_deliveries := λ _, new_delivery |}.
Lemma demo_claim t p : trace_wf t → seal demo_encrypt demo_cipher "nonce" t = Ok p →
  ∃ st, mem_claim demo_decrypt demo_cipher LANGSMITH 10 30 0 {[st_trace_ref t := demo_record p]} =
    (Ok [{| dl_trace := t; dl_sink := LANGSMITH; dl_attempt_count := 0 |}], st).
Proof.
  intros Hwf Hp. unfold mem_claim, sbind, sget. rewrite map_to_list_singleton.
  change (sort_keys [(st_trace_ref t, demo_record p)]) with [(st_trace_ref t, demo_record p)].
  cbn [claim_loop mr_deliveries demo_record unavailable new_delivery md_state].
  change (unavailable 0 new_delivery) with false. cbv iota.
  unfold sbind, smodify, slift. cbn [mr_payload demo_record].
  rewrite (open_seal demo_encrypt demo_decrypt demo_aead _ _ _ _ Hwf Hp). cbn [app length Z.of_nat].
  by eexists.
Qed.

Lemma demo_runs_kept rq w : runs w ⊆ runs (demo_send rq w).2.
Proof.
  destruct w as [m b]. unfold demo_send, demo_answer. cbn [fst snd runs ExportersTheorems.demo_service].
  repeat case_match; simplify_eq; cbn; first [done|by apply insert_subseteq].
Qed.

