(* ===== verification/Experiment.v ===== *)
(** * Experiments that resume

    [faultwitness_dev/experiment.py]: semantic cache keys, the trial journal and
    the runner that executes a DAG of units, reusing every unit whose inputs did
    not change.  The journal directory is the state: a map from trial identifiers
    to the document of [trials/<id>.json].  A document is written by [os.replace],
    in one step, and [json.loads] returns what [json.dumps] printed, with the
    members of its mappings sorted ([JsonFacts.loads_dumps]).

    A handler is external code.  It sees the execution it was given, may call
    [execution.checkpoint] any number of times, and returns an outcome or raises. *)
From Stdlib Require Import Ascii.
From S2P Require Import Prelude Json JsonFacts Sha256.

Definition TERMINAL_STATUSES : list string := ["pass"; "metric_fail"; "infra_failed"; "blocked"].
Definition RESUMABLE_STATUSES : list string := ["running"; "infra_failed"].

(** The raises of [GovernanceError], one constructor each. *)
Inductive governance : Type :=
| MissingCheckpoints (names : list string)
| EmptyUnitId
| DuplicateCheckpoint (unit : string)
| DuplicateDependency (unit : string)
| LacksInputDigest (unit : string)
| UnsupportedTrialId
| EmptyCheckpointName
| NotRunning (trial : string)
| InvalidTerminalStatus
| DuplicateUnitIds
| NotTopological (unit : string) (missing : list string)
| DependencyLacksPass (unit dependency : string)
| UnknownUnits (names : list string)
| CannotRetry (unit status : string)
| InvalidResumable (unit status : string)
| NoHandler (unit : string)
| PayloadNotObject (unit : string)
| HandlerGovernance (message : string).

Inductive experiment_exn : Type :=
| GovernanceError (g : governance)
| ExperimentInfrastructureError (message : string)
| ExperimentBlockedError (message : string)
| OtherError (type_name : string).

Abbreviation exn := experiment_exn.

(** ** Keys *)

(** [_digest]: [json.dumps] raises [TypeError] for what is no JSON value. *)
Definition digest_ (v : val) : result exn string :=
  match dumps canonical_style v with
  | Some text => Ok (sha256_hex text)
  | None => Err (OtherError "TypeError")
  end.

(** A [Mapping[str, str]]: its items in order. *)
Abbreviation str_mapping := (list (string * string)).
Fixpoint lookup_str (k : string) (m : str_mapping) : option string :=
  match m with
  | [] => None
  | (k', v) :: m' => if bool_decide (k = k') then Some v else lookup_str k m'
  end.
Definition str_items (m : str_mapping) : val :=
  VDict (build_dict ((λ kv, (kv.1, VStr kv.2)) <$> m)).

Definition missing_checkpoints (checkpoint_values : str_mapping) (required : list string) : list string :=
  sort_strings (filter (λ n, lookup_str n checkpoint_values = None) (remove_dups required)).

Definition cache_subject (checkpoint_values : str_mapping) (required : list string)
    (input_digest : string) (dependency_artifacts : str_mapping) : val :=
  sdict [("checkpoints",
            str_items ((λ n, (n, default "" (lookup_str n checkpoint_values))) <$> sort_strings required));
         ("dependencies", str_items (sort_keys dependency_artifacts));
         ("input_digest", VStr input_digest)].

Definition semantic_cache_key (checkpoint_values : str_mapping) (required_checkpoints : list string)
    (input_digest : string) (dependency_artifacts : str_mapping) : result exn string :=
  let missing := missing_checkpoints checkpoint_values required_checkpoints in
  raise_if negb (bool_decide (missing = [])) with_ GovernanceError (MissingCheckpoints missing);;
  digest_ (cache_subject checkpoint_values required_checkpoints input_digest dependency_artifacts).

(** ** Affected units

    A set of units is the list of its members; a mapping of units to what they
    require is its items. *)
Definition intersects (xs ys : list string) : bool := existsb (λ x, bool_decide (x ∈ ys)) xs.

Definition consumers (graph : list (string * list string)) (xs : list string) : list string :=
  (filter (λ item, intersects item.2 xs = true) graph).*1.

(** The [while True]: one more round for each unit that may still be added. *)
Fixpoint close_downstream (fuel : nat) (graph : list (string * list string))
    (affected : list string) : option (list string) :=
  match fuel with
  | O => None
  | S fuel =>
      let fresh := filter (λ u, u ∉ affected) (consumers graph affected) in
      if bool_decide (fresh = []) then Some affected
      else close_downstream fuel graph (affected ++ remove_dups fresh)
  end.

Definition affected_units (checkpoint_dependencies : list (string * list string))
    (changed_checkpoints : list string) (unit_dependencies : list (string * list string))
    : option (list string) :=
  close_downstream (S (length unit_dependencies)) unit_dependencies
    (remove_dups (consumers checkpoint_dependencies changed_checkpoints)).

(** ** Units *)
Record ExperimentUnit := {
  unit_id : string;
  required_checkpoints : list string;
  depends_on : list string;
  input_digest : string;
  destructive : bool;
}.

(** [ExperimentUnit.__post_init__] *)
Definition check_unit (u : ExperimentUnit) : result exn ExperimentUnit :=
  raise_if negb (truthy (unit_id u)) with_ GovernanceError EmptyUnitId;;
  raise_if negb (bool_decide (NoDup (required_checkpoints u)))
    with_ GovernanceError (DuplicateCheckpoint (unit_id u));;
  raise_if negb (bool_decide (NoDup (depends_on u)))
    with_ GovernanceError (DuplicateDependency (unit_id u));;
  raise_if negb (truthy (input_digest u)) with_ GovernanceError (LacksInputDigest (unit_id u));;
  Ok u.

(** ** The journal *)

(** A document without its history, and a document. *)
Record entry := {
  trial_id : string;
  status : string;
  execution_attempt : Z;
  record_version : Z;
  producer_sha : string;
  cache_key : string;
  recorded_at : string;
  runtime_checkpoints : mapping;
  payload : mapping;
  artifact_digest : option string;
}.
Record trial := { current : entry; history : list entry }.

(** The files, and how often the clock was read. *)
Record journal := { trials : gmap string trial; ticks : nat }.

Definition set_trial (id : string) (t : trial) (j : journal) : journal :=
  {| trials := <[id := t]> (trials j); ticks := ticks j |}.

(** What is read back of a mapping that was written. *)
Definition stored_map (d : mapping) : mapping :=
  match printed canonical_style (VDict d) with VDict d' => d' | _ => [] end.
Definition stored_entry (e : entry) : entry :=
  {| trial_id := trial_id e; status := status e; execution_attempt := execution_attempt e;
     record_version := record_version e; producer_sha := producer_sha e; cache_key := cache_key e;
     recorded_at := recorded_at e; runtime_checkpoints := stored_map (runtime_checkpoints e);
     payload := stored_map (payload e); artifact_digest := artifact_digest e |}.
Definition serialisable (e : entry) : bool :=
  bool_decide (is_Some (dumps canonical_style (VDict (runtime_checkpoints e)))) &&
  bool_decide (is_Some (dumps canonical_style (VDict (payload e)))).

Definition allowed_characters : string := "abcdefghijklmnopqrstuvwxyz0123456789-_".
Definition trial_path_ok (id : string) : bool :=
  truthy id &&
  str_all (λ c, existsb (Ascii.eqb c) (String.list_ascii_of_string allowed_characters)) id.

(** [TrialJournal.path] and [read] *)
Definition read_trial (j : journal) (id : string) : result exn (option trial) :=
  raise_if negb (trial_path_ok id) with_ GovernanceError UnsupportedTrialId;;
  Ok (trials j !! id).

Section Journal.
(** [datetime.now(UTC).isoformat()], at its n-th reading *)
Context (now : nat → string).

Abbreviation JournalM := (SE journal exn).

Definition read (id : string) : JournalM (option trial) := λ j, (read_trial j id, j).

Definition clock : JournalM string := λ j,
  (Ok (now (ticks j)), {| trials := trials j; ticks := S (ticks j) |}).

(** [_write].  The history was read from the journal: printing it again changes
    nothing. *)
Definition write_trial (id : string) (t : trial) : JournalM trial :=
  sguard (negb (trial_path_ok id)) (GovernanceError UnsupportedTrialId);;;
  sguard (negb (serialisable (current t))) (OtherError "TypeError");;;
  smodify (set_trial id {| current := stored_entry (current t); history := history t |});;;
  sret t.

Definition same_semantics (key : string) (previous : option trial) : bool :=
  match previous with Some p => bool_decide (cache_key (current p) = key) | None => false end.

Definition begin_trial (id sha key : string) (payload : mapping) : JournalM trial :=
  let! previous := read id in
  let! at_ := clock in
  write_trial id {|
    current := {|
      trial_id := id;
      status := "running";
      execution_attempt :=
        match previous with Some p => execution_attempt (current p) + 1 | None => 1 end;
      record_version :=
        match previous with Some p => record_version (current p) + 1 | None => 1 end;
      producer_sha := sha;
      cache_key := key;
      recorded_at := at_;
      runtime_checkpoints :=
        match previous with
        | Some p => if same_semantics key previous then runtime_checkpoints (current p) else []
        | None => []
        end;
      payload := payload;
      artifact_digest := None |};
    history := match previous with Some p => history p ++ [current p] | None => [] end |}.

(** The trial that is running, or the error of [checkpoint] and [finish]. *)
Definition running_trial (id : string) : JournalM trial :=
  let! previous := read id in
  match previous with
  | Some p => if bool_decide (status (current p) = "running") then sret p
              else sraise (GovernanceError (NotRunning id))
  | None => sraise (GovernanceError (NotRunning id))
  end.

Definition checkpoint (id name : string) (observation : val) (new_payload : option mapping)
    : JournalM trial :=
  sguard (negb (truthy name)) (GovernanceError EmptyCheckpointName);;;
  let! p := running_trial id in
  let! at_ := clock in
  let e := current p in
  write_trial id {|
    current := {|
      trial_id := trial_id e; status := status e; execution_attempt := execution_attempt e;
      record_version := record_version e + 1;
      producer_sha := producer_sha e; cache_key := cache_key e;
      recorded_at := at_;
      runtime_checkpoints := dset name observation (runtime_checkpoints e);
      payload := default (payload e) new_payload;
      artifact_digest := artifact_digest e |};
    history := history p |}.

(** [finish]; [str] of a value that is no string is none of the statuses. *)
Definition finish (id : string) (new_status : val) (new_payload : mapping) : JournalM trial :=
  match new_status with
  | VStr s =>
      sguard (negb (bool_decide (s ∈ TERMINAL_STATUSES))) (GovernanceError InvalidTerminalStatus);;;
      let! p := running_trial id in
      let! at_ := clock in
      let! digest := slift (digest_ (VDict new_payload)) in
      let e := current p in
      write_trial id {|
        current := {|
          trial_id := trial_id e; status := s; execution_attempt := execution_attempt e;
          record_version := record_version e + 1;
          producer_sha := producer_sha e; cache_key := cache_key e;
          recorded_at := at_;
          runtime_checkpoints := runtime_checkpoints e;
          payload := new_payload;
          artifact_digest := Some digest |};
        history := history p |}
  | _ => sraise (GovernanceError InvalidTerminalStatus)
  end.

(** ** Handlers *)
Inductive handler_program : Type :=
| HReturn (outcome : mapping)
| HRaise (e : exn)
| HCheckpoint (name : string) (observation : val) (new_payload : option mapping)
    (k : result exn trial → handler_program).

(** A handler gets its unit and [execution.record]; what [execution.checkpoint]
    returned, or raised, is the argument of the rest. *)
Definition handler : Type := ExperimentUnit → trial → handler_program.

Fixpoint run_handler (u : ExperimentUnit) (p : handler_program) : JournalM mapping :=
  match p with
  | HReturn outcome => sret outcome
  | HRaise e => sraise e
  | HCheckpoint name observation new_payload k => λ j,
      let '(r, j') := checkpoint (unit_id u) name observation new_payload j in
      run_handler u (k r) j'
  end.

(** ** The runner *)
Record ExperimentRunner := {
  units : list ExperimentUnit;
  checkpoint_values : str_mapping;
  runner_sha : string;
}.

(** [self._by_id] *)
Definition by_id (us : list ExperimentUnit) (id : string) : option ExperimentUnit :=
  List.find (λ u, bool_decide (unit_id u = id)) us.

Fixpoint check_order (seen : list string) (us : list ExperimentUnit) : result exn unit :=
  match us with
  | [] => Ok tt
  | u :: us' =>
      let missing := sort_strings (filter (λ d, d ∉ seen) (remove_dups (depends_on u))) in
      raise_if negb (bool_decide (missing = [])) with_ GovernanceError (NotTopological (unit_id u) missing);;
      check_order (unit_id u :: seen) us'
  end.

(** [ExperimentRunner.__init__] *)
Definition new_runner (us : list ExperimentUnit) (values : str_mapping) (sha : string)
    : result exn ExperimentRunner :=
  raise_if negb (bool_decide (NoDup (unit_id <$> us))) with_ GovernanceError DuplicateUnitIds;;
  let* _ := check_order [] us in
  Ok {| units := us; checkpoint_values := values; runner_sha := sha |}.

Section Runner.
Context (r : ExperimentRunner) (handlers : string → option handler).

(** One turn of the loop over [unit.depends_on] *)
Definition dependency_artifact (key_of : ExperimentUnit → result exn string) (j : journal)
    (u : ExperimentUnit) (dependency_id : string) : result exn (string * string) :=
  let* dependency := from_option_or (OtherError "KeyError") (by_id (units r) dependency_id) in
  let* record := read_trial j dependency_id in
  let lacks := GovernanceError (DependencyLacksPass (unit_id u) dependency_id) in
  match record with
  | None => Err lacks
  | Some t =>
      raise_if negb (bool_decide (status (current t) = "pass")) with_ lacks;;
      let* key := key_of dependency in
      raise_if negb (bool_decide (cache_key (current t) = key)) with_ lacks;;
      let* artifact := from_option_or lacks (artifact_digest (current t)) in
      let* digest := digest_ (sdict [("semantic_key", VStr (cache_key (current t)));
                                     ("artifact_digest", VStr artifact)]) in
      Ok (dependency_id, digest)
  end.

(** [self.cache_key(unit)], with [fuel] nested calls *)
Fixpoint unit_cache_key (fuel : nat) (j : journal) (u : ExperimentUnit) : result exn string :=
  match fuel with
  | O => Err (OtherError "RecursionError")
  | S fuel =>
      let* artifacts := rmapM (dependency_artifact (unit_cache_key fuel j) j u) (depends_on u) in
      semantic_cache_key (checkpoint_values r) (required_checkpoints u) (input_digest u) artifacts
  end.

(** A unit depends on units registered before it. *)
Definition key_of_unit : journal → ExperimentUnit → result exn string :=
  unit_cache_key (length (units r)).

Record ExperimentRun := {
  records : list trial;
  executed_units : list string;
  reused_units : list string;
  skipped_units : list string;
  failed_units : list string;   (* the local [failed] of [run] *)
}.

Definition skip_unit (id : string) (s : ExperimentRun) : ExperimentRun :=
  {| records := records s; executed_units := executed_units s; reused_units := reused_units s;
     skipped_units := skipped_units s ++ [id]; failed_units := id :: failed_units s |}.
Definition reuse_unit (id : string) (t : trial) (s : ExperimentRun) : ExperimentRun :=
  {| records := records s ++ [t]; executed_units := executed_units s;
     reused_units := reused_units s ++ [id]; skipped_units := skipped_units s;
     failed_units := failed_units s |}.
Definition executed_unit (id : string) (t : trial) (s : ExperimentRun) : ExperimentRun :=
  {| records := records s ++ [t]; executed_units := executed_units s ++ [id];
     reused_units := reused_units s; skipped_units := skipped_units s;
     failed_units := if bool_decide (status (current t) = "pass") then failed_units s
                     else id :: failed_units s |}.

(** [any((self.journal.read(d) or {}).get("status") != "pass" for d in depends_on)] *)
Fixpoint any_not_passed (j : journal) (ids : list string) : result exn bool :=
  match ids with
  | [] => Ok false
  | d :: ids' =>
      let* t := read_trial j d in
      match t with
      | Some t => if bool_decide (status (current t) = "pass") then any_not_passed j ids' else Ok true
      | None => Ok true
      end
  end.

(** [dict(handler(execution))] up to the call of [finish] *)
Definition outcome_status (outcome : mapping) : val := default (VStr "pass") (dfind "status" outcome).
Definition drop_key (k : string) (d : mapping) : mapping :=
  filter (λ kv, is_key k kv.1 = false) d.
Definition outcome_payload (outcome : mapping) : val :=
  let rest := drop_key "status" outcome in default (VDict rest) (dfind "payload" rest).

Definition finish_outcome (u : ExperimentUnit) (outcome : mapping) : JournalM trial :=
  match outcome_payload outcome with
  | VDict d => finish (unit_id u) (outcome_status outcome) d
  | _ => sraise (GovernanceError (PayloadNotObject (unit_id u)))
  end.

(** The [try] around the handler *)
Definition execute_unit (u : ExperimentUnit) (h : handler) (running : trial) : JournalM trial :=
  scatch
    (let! outcome := run_handler u (h u running) in finish_outcome u outcome)
    (λ e, match e with
          | ExperimentInfrastructureError m =>
              finish (unit_id u) (VStr "infra_failed") [(VStr "reason", VStr m)]
          | ExperimentBlockedError m =>
              finish (unit_id u) (VStr "blocked") [(VStr "reason", VStr m)]
          | e => sraise e
          end).

(** What to do with a unit whose dependencies hold, from its last record *)
Definition reuse_decision (u : ExperimentUnit) (key : string) (previous : option trial)
    : result exn (option trial) :=
  match previous with
  | Some p =>
      if bool_decide (cache_key (current p) = key) then
        let s := status (current p) in
        if bool_decide (s = "pass") then Ok (Some p)
        else if bool_decide (s ∈ ["metric_fail"; "blocked"]) then
          Err (GovernanceError (CannotRetry (unit_id u) s))
        else if bool_decide (s ∈ RESUMABLE_STATUSES) then Ok None
        else Err (GovernanceError (InvalidResumable (unit_id u) s))
      else Ok None
  | None => Ok None
  end.

Definition start_unit (u : ExperimentUnit) (key : string) (s : ExperimentRun) : JournalM ExperimentRun :=
  let! previous := read (unit_id u) in
  let! reused := slift (reuse_decision u key previous) in
  match reused with
  | Some p => sret (reuse_unit (unit_id u) p s)
  | None =>
      let! h := slift (from_option_or (GovernanceError (NoHandler (unit_id u))) (handlers (unit_id u))) in
      let! running := begin_trial (unit_id u) (runner_sha r) key
                        [(VStr "resuming", VBool (same_semantics key previous))] in
      let! record := execute_unit u h running in
      sret (executed_unit (unit_id u) record s)
  end.

(** One turn of the loop over [self.units] *)
Definition run_unit (selected : list string) (s : ExperimentRun) (u : ExperimentUnit)
    : JournalM ExperimentRun := λ j,
  if negb (bool_decide (unit_id u ∈ selected)) then (Ok s, j)
  else if intersects (depends_on u) (failed_units s) then (Ok (skip_unit (unit_id u) s), j)
  else
    match key_of_unit j u with
    | Ok key => start_unit u key s j
    | Err (GovernanceError g) =>
        match any_not_passed j (depends_on u) with
        | Ok true => (Ok (skip_unit (unit_id u) s), j)
        | Ok false => (Err (GovernanceError g), j)
        | Err e => (Err e, j)
        end
    | Err e => (Err e, j)
    end.

Fixpoint run_units (selected : list string) (us : list ExperimentUnit) (s : ExperimentRun)
    : JournalM ExperimentRun :=
  match us with
  | [] => sret s
  | u :: us' => let! s' := run_unit selected s u in run_units selected us' s'
  end.

Definition new_run : ExperimentRun :=
  {| records := []; executed_units := []; reused_units := []; skipped_units := []; failed_units := [] |}.

Definition selected_units (unit_ids : option (list string)) : list string :=
  default (unit_id <$> units r) unit_ids.

Definition run (unit_ids : option (list string)) : JournalM ExperimentRun :=
  let selected := selected_units unit_ids in
  let unknown := sort_strings (filter (λ i, by_id (units r) i = None) (remove_dups selected)) in
  sguard (negb (bool_decide (unknown = []))) (GovernanceError (UnknownUnits unknown));;;
  run_units selected (units r) new_run.
End Runner.
End Journal.
