(* ===== verification/ExperimentTheorems.v ===== *)
(** * Theorems on experiments

    Affected units are the downstream closure; semantic keys bind what a unit
    depends on and nothing else; a run keeps the journal well formed, executes a
    unit only on dependencies that hold, and leaves nothing for the next run of
    unchanged inputs. *)
From stdpp Require Import sorting.
From S2P Require Import Prelude Json JsonFacts Sha256 Experiment.

(** ** The downstream closure *)

Lemma intersects_true xs ys : intersects xs ys = true ↔ ∃ x, x ∈ xs ∧ x ∈ ys.
Proof.
  unfold intersects. rewrite existsb_exists. setoid_rewrite bool_decide_eq_true.
  by setoid_rewrite list_elem_of_In.
Qed.
Lemma intersects_false xs ys : intersects xs ys = false ↔ ∀ x, x ∈ xs → x ∉ ys.
Proof. rewrite <-not_true_iff_false, intersects_true. naive_solver. Qed.
Lemma consumers_elem graph xs u :
  u ∈ consumers graph xs ↔ ∃ required x, (u, required) ∈ graph ∧ x ∈ required ∧ x ∈ xs.
Proof.
  unfold consumers. rewrite list_elem_of_fmap. split.
  - intros ([u' req] & -> & [(x & ? & ?)%intersects_true Hin]%list_elem_of_filter). eauto.
  - intros (req & x & Hin & ? & ?). exists (u, req). split; [done|].
    apply list_elem_of_filter. split; [|done]. apply intersects_true. eauto.
Qed.
Lemma intersects_subseteq xs ys zs : ys ⊆ zs → intersects xs ys = true → intersects xs zs = true.
Proof. rewrite !intersects_true. set_solver. Qed.

Section Closure.
Context (direct graph : list (string * list string)) (changed : list string).

(** What the doc string says: direct consumers and what is downstream of them. *)
Inductive affected : string → Prop :=
| affected_directly u required c :
    (u, required) ∈ direct → c ∈ required → c ∈ changed → affected u
| affected_downstream u required d :
    (u, required) ∈ graph → d ∈ required → affected d → affected u.

Lemma close_downstream_spec fuel xs :
  NoDup xs → (∀ u, u ∈ xs → affected u) → (∀ u, u ∈ consumers direct changed → u ∈ xs) →
  (length (filter (λ u, u ∉ xs) (remove_dups graph.*1)) < fuel)%nat →
  ∃ ys, close_downstream fuel graph xs = Some ys ∧ NoDup ys ∧ ∀ u, u ∈ ys ↔ affected u.
Proof.
  revert xs. induction fuel as [|fuel IH]; intros xs Hnd Hsound Hdirect Hfuel; [lia|].
  cbn [close_downstream]. case_bool_decide as Hfresh.
  - exists xs. split_and!; [done|done|]. intros u. split; [apply Hsound|].
    rewrite filter_nil_iff in Hfresh. induction 1 as [u req c|u req d Hg Hd _ IHd].
    + apply Hdirect, consumers_elem. eauto.
    + apply dec_stable. apply Hfresh, consumers_elem. eauto.
  - set (fresh := filter (λ u, u ∉ xs) (consumers graph xs)) in *. apply IH.
    + apply NoDup_app. split_and!; [done| |apply NoDup_remove_dups].
      intros u Hu. rewrite elem_of_remove_dups. unfold fresh. rewrite list_elem_of_filter. tauto.
    + intros u [Hu|Hu]%elem_of_app; [by apply Hsound|].
      apply elem_of_remove_dups, list_elem_of_filter in Hu as [_ (req & x & ? & ? & ?)%consumers_elem].
      eapply affected_downstream; eauto.
    + intros u Hu. apply elem_of_app. left. auto.
    + destruct fresh as [|v fresh'] eqn:E; [done|].
      assert (v ∈ fresh) as Hv by (rewrite E; left).
      pose proof Hv as [Hvx Hvg]%list_elem_of_filter.
      assert (v ∈ graph.*1) as Hkey.
      { apply consumers_elem in Hvg as (req & ? & ? & _). apply list_elem_of_fmap. by exists (v, req). }
      eapply Nat.lt_le_trans; [|apply Nat.lt_succ_r, Hfuel].
      assert (NoDup (remove_dups graph.*1)) as Hgd by apply NoDup_remove_dups.
      rewrite <-E. clear IH Hfuel Hfresh E. clearbody fresh.
      apply (Nat.le_trans _ (length (v :: filter (λ u, u ∉ xs ++ remove_dups fresh) (remove_dups graph.*1))));
        [done|].
      apply submseteq_length, NoDup_submseteq.
      * constructor; [|by apply NoDup_filter].
        rewrite list_elem_of_filter, elem_of_app, elem_of_remove_dups. tauto.
      * intros w [-> |[Hw ?]%list_elem_of_filter]%elem_of_cons.
        -- apply list_elem_of_filter. by rewrite elem_of_remove_dups.
        -- apply list_elem_of_filter. rewrite elem_of_app in Hw. tauto.
Qed.

(** [affected_units] returns, after at most one round for each unit of the
    graph, exactly the units that require a changed checkpoint and those downstream
    of them, each once. *)
Theorem affected_units_closure :
  ∃ units, affected_units direct changed graph = Some units ∧ NoDup units ∧
    ∀ u, u ∈ units ↔ affected u.
Proof.
  apply close_downstream_spec.
  - apply NoDup_remove_dups.
  - intros u (req & c & ? & ? & ?)%elem_of_remove_dups%consumers_elem. eapply affected_directly; eauto.
  - intros u Hu. by apply elem_of_remove_dups.
  - apply Nat.lt_succ_r. rewrite <-(length_fmap fst graph).
    apply submseteq_length, NoDup_submseteq; [apply NoDup_filter, NoDup_remove_dups|].
    intros u [_ Hu]%list_elem_of_filter. by rewrite elem_of_remove_dups in Hu.
Qed.
End Closure.

(** ** Registered units *)

Lemma sort_strings_nil l : sort_strings l = [] ↔ l = [].
Proof.
  split; [|by intros ->]. intros H. apply Permutation_nil_r. rewrite <-H. symmetry. apply sort_by_perm.
Qed.

Lemma check_order_ok us seen :
  check_order seen us = Ok tt → ∀ us1 u us2 d, us = us1 ++ u :: us2 → d ∈ depends_on u →
  d ∈ seen ∨ d ∈ unit_id <$> us1.
Proof.
  revert seen. induction us as [|v us IH]; intros seen H us1 u us2 d Hus Hd.
  { by destruct us1. }
  cbn [check_order] in H. res_inv. bool_prop.
  destruct us1 as [|w us1]; cbn in Hus; injection Hus as -> ->.
  - left. rewrite sort_strings_nil, filter_nil_iff in E.
    apply dec_stable, E. by apply elem_of_remove_dups.
  - destruct (IH _ H us1 u us2 d eq_refl Hd) as [[-> |?]%elem_of_cons|?].
    + right. left.
    + by left.
    + right. by right.
Qed.

(** What the constructor of the runner establishes. *)
Record registered (us : list ExperimentUnit) : Prop := {
  unit_ids_differ : NoDup (unit_id <$> us);
  units_ordered us1 u us2 d : us = us1 ++ u :: us2 → d ∈ depends_on u → d ∈ unit_id <$> us1;
}.

Lemma new_runner_ok us values sha r :
  new_runner us values sha = Ok r →
  registered (units r) ∧ units r = us ∧ checkpoint_values r = values.
Proof.
  unfold new_runner. intros H. res_inv. bool_prop. destruct a. split; [|done].
  split; cbn; [done|]. intros us1 u us2 d Hus Hd.
  destruct (check_order_ok _ _ E0 us1 u us2 d Hus Hd) as [Hn|?]; [by apply elem_of_nil in Hn|done].
Qed.

Lemma unit_by_id_some us id u : by_id us id = Some u → u ∈ us ∧ unit_id u = id.
Proof.
  unfold by_id. intros [Hin Hid]%List.find_some. bool_prop. split; [by apply list_elem_of_In|done].
Qed.
Lemma by_id_elem us u : NoDup (unit_id <$> us) → u ∈ us → by_id us (unit_id u) = Some u.
Proof.
  induction us as [|v us IH]; intros Hnd Hu; [by apply elem_of_nil in Hu|].
  cbn in Hnd |- *. apply NoDup_cons in Hnd as [Hv Hnd]. case_bool_decide as Heq.
  - apply elem_of_cons in Hu as [-> |Hu]; [done|]. exfalso. apply Hv. rewrite Heq.
    by apply list_elem_of_fmap_2.
  - apply elem_of_cons in Hu as [-> |Hu]; [done|]. by apply IH.
Qed.
Lemma by_id_is_some us id : id ∈ unit_id <$> us → is_Some (by_id us id).
Proof.
  intros (u & -> & Hu)%list_elem_of_fmap. induction us as [|v us IH]; [by apply elem_of_nil in Hu|].
  cbn. case_bool_decide; [eauto|]. apply elem_of_cons in Hu as [-> |Hu]; [done|auto].
Qed.

Section Registered.
Context (us : list ExperimentUnit) (Hus : registered us).

(** A dependency is a unit registered before. *)
Lemma dependency_before us1 u us2 d :
  us = us1 ++ u :: us2 → d ∈ depends_on u →
  ∃ a v b, us1 = a ++ v :: b ∧ by_id us d = Some v ∧ unit_id v = d.
Proof using Hus.
  intros Hs Hd. pose proof (units_ordered us Hus _ _ _ _ Hs Hd) as Hin.
  apply list_elem_of_fmap in Hin as (v & -> & Hv).
  destruct (list_elem_of_split _ _ Hv) as (a & b & ->). exists a, v, b. split_and!; [done| |done].
  apply by_id_elem; [apply Hus|]. rewrite Hs. set_solver.
Qed.
Lemma dependency_registered u d :
  u ∈ us → d ∈ depends_on u → ∃ v, v ∈ us ∧ by_id us d = Some v ∧ unit_id v = d.
Proof using Hus.
  intros (us1 & us2 & Hs)%list_elem_of_split Hd.
  destruct (dependency_before us1 u us2 d Hs Hd) as (a & v & b & -> & Hb & Hv).
  exists v. split_and!; [|done|done]. rewrite Hs. set_solver.
Qed.
Lemma unit_ids_inj u v : u ∈ us → v ∈ us → unit_id u = unit_id v → u = v.
Proof using Hus.
  intros Hu Hv Heq. apply (inj Some). rewrite <-(by_id_elem us u), Heq by (done || apply Hus).
  apply by_id_elem; [apply Hus|done].
Qed.
Lemma position_bound us1 u us2 : us = us1 ++ u :: us2 → (length us1 < length us)%nat.
Proof. intros Hs. rewrite Hs, length_app. simpl. lia. Qed.
End Registered.

Lemma rmapM_ext {E A B} (f g : A → result E B) xs :
  (∀ x, x ∈ xs → f x = g x) → rmapM f xs = rmapM g xs.
Proof.
  induction xs as [|x xs IH]; intros H; [done|]. cbn [rmapM].
  rewrite (H x) by left. rewrite IH; [done|]. intros y Hy. apply H. by right.
Qed.

(** ** What a key depends on *)

Lemma semantic_cache_key_ext v1 v2 required digest artifacts :
  (∀ c, c ∈ required → lookup_str c v1 = lookup_str c v2) →
  semantic_cache_key v1 required digest artifacts = semantic_cache_key v2 required digest artifacts.
Proof.
  intros Hv. unfold semantic_cache_key.
  assert (missing_checkpoints v1 required = missing_checkpoints v2 required) as ->.
  { unfold missing_checkpoints. f_equal.
    assert (∀ xs : list string, (∀ c, c ∈ xs → c ∈ required) →
      filter (λ n, lookup_str n v1 = None) xs = filter (λ n, lookup_str n v2 = None) xs) as Hf;
      [|apply Hf; intros c; by rewrite elem_of_remove_dups].
    induction xs as [|c xs IH]; intros Hin; [done|]. rewrite !filter_cons, Hv by (apply Hin; left).
    rewrite IH; [done|]. intros c' Hc'. apply Hin. by right. }
  assert (cache_subject v1 required digest artifacts = cache_subject v2 required digest artifacts) as ->; [|done].
  unfold cache_subject. do 4 f_equal.
  assert (∀ xs : list string, (∀ c, c ∈ xs → c ∈ required) →
    (λ n, (n, default "" (lookup_str n v1))) <$> xs = (λ n, (n, default "" (lookup_str n v2))) <$> xs) as Hf.
  { induction xs as [|c xs IH]; intros Hin; [done|]. cbn. rewrite Hv by (apply Hin; left).
    f_equal. apply IH. intros c' Hc'. apply Hin. by right. }
  rewrite Hf; [done|]. intros c. by rewrite sort_strings_elem.
Qed.

Section KeyOfUnit.
Context (r1 r2 : ExperimentRunner) (Hr : units r1 = units r2) (Hus : registered (units r1)).
Context (j1 j2 : journal) (P : string → Prop).
Hypothesis P_closed : ∀ u d, u ∈ units r1 → P (unit_id u) → d ∈ depends_on u → P d.
Hypothesis same_values : ∀ u c, u ∈ units r1 → P (unit_id u) → c ∈ required_checkpoints u →
  lookup_str c (checkpoint_values r1) = lookup_str c (checkpoint_values r2).
Hypothesis same_trials : ∀ u d, u ∈ units r1 → P (unit_id u) → d ∈ depends_on u →
  trials j1 !! d = trials j2 !! d.

(** Two keys agree when the checkpoints and the records they are made of do; calls
    nest as deep as the position of the unit. *)
Lemma unit_cache_key_agree n1 : ∀ n2 us1 u us2,
  units r1 = us1 ++ u :: us2 → P (unit_id u) → (length us1 < n1)%nat → (length us1 < n2)%nat →
  unit_cache_key r1 n1 j1 u = unit_cache_key r2 n2 j2 u.
Proof using All.
  induction n1 as [|n1 IH]; intros n2 us1 u us2 Hs HP Hn1 Hn2; [lia|]. destruct n2 as [|n2]; [lia|].
  assert (u ∈ units r1) as Hu by (rewrite Hs; set_solver).
  cbn [unit_cache_key].
  assert (rmapM (dependency_artifact r1 (unit_cache_key r1 n1 j1) j1 u) (depends_on u)
    = rmapM (dependency_artifact r2 (unit_cache_key r2 n2 j2) j2 u) (depends_on u)) as ->.
  { apply rmapM_ext. intros d Hd. unfold dependency_artifact. rewrite <-Hr.
    destruct (dependency_before _ Hus us1 u us2 d Hs Hd) as (a & v & b & Ha & -> & Hv).
    cbn [from_option_or rbind]. unfold read_trial. rewrite (same_trials u d Hu HP Hd).
    rewrite (IH n2 a v (b ++ u :: us2)); [done| | | |].
    - rewrite Hs, Ha. by rewrite <-app_assoc.
    - rewrite Hv. by eapply P_closed.
    - rewrite Ha, length_app in Hn1. simpl in Hn1. lia.
    - rewrite Ha, length_app in Hn2. simpl in Hn2. lia. }
  destruct (rmapM _ _); [|done]. cbn [rbind]. apply semantic_cache_key_ext. intros c Hc. eauto.
Qed.
End KeyOfUnit.

Section Runner.
Context (r : ExperimentRunner) (Hus : registered (units r)).

(** Only the records of units registered before count. *)
Lemma key_of_unit_local j1 j2 us1 u us2 :
  units r = us1 ++ u :: us2 → (∀ d, d ∈ unit_id <$> us1 → trials j1 !! d = trials j2 !! d) →
  key_of_unit r j1 u = key_of_unit r j2 u.
Proof using Hus.
  intros Hs Ht. pose proof (position_bound _ us1 u us2 Hs) as Hn.
  apply (unit_cache_key_agree r r eq_refl Hus j1 j2 (λ i, i ∈ unit_id <$> us1 ++ [u])) with us1 us2; try done.
  - intros v d Hv HP Hd. apply list_elem_of_fmap in HP as (w & Hw & Hin).
    assert (v = w) as -> by (apply (unit_ids_inj _ Hus); [done|rewrite Hs; set_solver|done]).
    destruct (list_elem_of_split _ _ Hin) as (a & b & Hab).
    assert (units r = a ++ w :: (b ++ us2)) as Hs2.
    { rewrite Hs. replace (us1 ++ u :: us2) with ((us1 ++ [u]) ++ us2) by by rewrite <-app_assoc.
      by rewrite Hab, <-app_assoc. }
    pose proof (units_ordered _ Hus _ _ _ _ Hs2 Hd) as Hda. rewrite Hab, fmap_app. set_solver.
  - intros v d Hv HP Hd. apply Ht. apply list_elem_of_fmap in HP as (w & Hw & Hin).
    assert (v = w) as -> by (apply (unit_ids_inj _ Hus); [done|rewrite Hs; set_solver|done]).
    apply elem_of_app in Hin as [Hin|Hin%list_elem_of_singleton].
    + destruct (list_elem_of_split _ _ Hin) as (a & b & ->).
      rewrite <-app_assoc in Hs. cbn in Hs. pose proof (units_ordered _ Hus _ _ _ _ Hs Hd).
      rewrite fmap_app. set_solver.
    + subst w. by apply (units_ordered _ Hus _ _ _ _ Hs).
  - apply list_elem_of_fmap_2. set_solver.
Qed.

(** The recursion of [cache_key] ends: as deep as there are units is deep enough,
    and deeper gives the same. *)
Lemma unit_cache_key_fuel j us1 u us2 n :
  units r = us1 ++ u :: us2 → (length us1 < n)%nat → unit_cache_key r n j u = key_of_unit r j u.
Proof using Hus.
  intros Hs Hn. apply (unit_cache_key_agree r r eq_refl Hus j j (λ _, True)) with us1 us2; try done.
  eapply position_bound, Hs.
Qed.

Lemma digest_no_recursion v : digest_ v ≠ Err (OtherError "RecursionError").
Proof. unfold digest_. by destruct (dumps _ _). Qed.

Lemma unit_cache_key_returns j n : ∀ us1 u us2,
  units r = us1 ++ u :: us2 → (length us1 < n)%nat →
  unit_cache_key r n j u ≠ Err (OtherError "RecursionError").
Proof using Hus.
  induction n as [|n IH]; intros us1 u us2 Hs Hn; [lia|]. cbn [unit_cache_key].
  intros [Hm|(arts & _ & Hk)]%rbind_err.
  - assert (∀ d, d ∈ depends_on u → dependency_artifact r (unit_cache_key r n j) j u d
      ≠ Err (OtherError "RecursionError")) as Hd.
    { intros d Hd. unfold dependency_artifact.
      destruct (dependency_before _ Hus us1 u us2 d Hs Hd) as (a & v & b & Ha & -> & _).
      cbn [from_option_or rbind]. unfold read_trial. destruct (negb _); [done|]. cbn [rbind].
      destruct (trials j !! d) as [t|]; [|done]. destruct (negb _); [done|].
      intros [Hk|(k & _ & Hk)]%rbind_err.
      - apply (IH a v (b ++ u :: us2)) in Hk; [done| |].
        + rewrite Hs, Ha. by rewrite <-app_assoc.
        + rewrite Ha, length_app in Hn. simpl in Hn. lia.
      - destruct (negb _); [done|]. destruct (artifact_digest _); [|done]. cbn [from_option_or rbind] in Hk.
        apply rbind_err in Hk as [Hk|(? & _ & Hk)]; [|done]. by apply digest_no_recursion in Hk. }
    revert Hm Hd. generalize (depends_on u). intros ds. induction ds as [|d ds IHd]; intros Hm Hd; [done|].
    cbn [rmapM] in Hm. apply rbind_err in Hm as [Hm|(y & _ & Hm)]; [by apply (Hd d ltac:(left)) in Hm|].
    apply rbind_err in Hm as [Hm|(ys & _ & Hm)]; [|done]. apply IHd; [done|].
    intros d' Hd'. apply Hd. by right.
  - unfold semantic_cache_key in Hk. destruct (negb _); [done|]. by apply digest_no_recursion in Hk.
Qed.
End Runner.

(** ** Writes to the journal *)

(** What a successful write of the journal under [id] does to it. *)
Definition stored_trial (t : trial) : trial :=
  {| current := stored_entry (current t); history := history t |}.

Lemma write_trial_run id t j :
  write_trial id t j =
    if negb (trial_path_ok id) then (Err (GovernanceError UnsupportedTrialId), j)
    else if negb (serialisable (current t)) then (Err (OtherError "TypeError"), j)
    else (Ok t, set_trial id (stored_trial t) j).
Proof.
  unfold write_trial, sbind, sguard, smodify, sret.
  by destruct (trial_path_ok id), (serialisable (current t)).
Qed.
Lemma write_trial_ok id t j t' j' :
  write_trial id t j = (Ok t', j') →
  t' = t ∧ trial_path_ok id = true ∧ serialisable (current t) = true ∧ j' = set_trial id (stored_trial t) j.
Proof.
  rewrite write_trial_run. destruct (trial_path_ok id), (serialisable _); cbn; try discriminate.
  by intros [= <- <-].
Qed.

(** An exception of a write leaves the files alone; a property of the file that the
    new document has is kept. *)
Lemma keeps_write (P : journal → Prop) id t :
  (∀ j, P j → trial_path_ok id = true → serialisable (current t) = true → P (set_trial id (stored_trial t) j)) →
  keeps P (write_trial id t).
Proof.
  intros HP j Hj. rewrite write_trial_run. destruct (trial_path_ok id) eqn:E1, (serialisable _) eqn:E2; cbn; auto.
Qed.

Section Invariants.
Context (now : nat → string).

(** Properties of the files: the clock does not count. *)
Definition of_files (P : journal → Prop) : Prop :=
  ∀ j j', trials j = trials j' → P j → P j'.

Section Keeps.
Context (P : journal → Prop) (HP : of_files P) (id : string).

(** The running execution of [id] may be continued. *)
Hypothesis P_continue : ∀ j p e, P j → trials j !! id = Some p → status (current p) = "running" →
  serialisable e = true → trial_id e = trial_id (current p) →
  execution_attempt e = execution_attempt (current p) → record_version e = (record_version (current p) + 1)%Z →
  cache_key e = cache_key (current p) →
  ((status e = "running" ∧ artifact_digest e = artifact_digest (current p)) ∨
   (status e ∈ TERMINAL_STATUSES ∧ ∃ d, digest_ (VDict (payload e)) = Ok d ∧ artifact_digest e = Some d)) →
  P (set_trial id (stored_trial {| current := e; history := history p |}) j).

Lemma keeps_clock : keeps P (clock now).
Proof using HP. intros j Hj. by eapply HP; [|exact Hj]. Qed.
Lemma read_run i j : read i j = (read_trial j i, j).
Proof. done. Qed.

Lemma running_trial_run j :
  running_trial id j =
    match read_trial j id with
    | Ok (Some p) => if bool_decide (status (current p) = "running") then (Ok p, j)
                     else (Err (GovernanceError (NotRunning id)), j)
    | Ok None => (Err (GovernanceError (NotRunning id)), j)
    | Err e => (Err e, j)
    end.
Proof.
  unfold running_trial, sbind. rewrite read_run. destruct (read_trial j id) as [[p|]|]; [|done..].
  by case_bool_decide.
Qed.

Lemma keeps_checkpoint name observation new_payload :
  keeps P (checkpoint now id name observation new_payload).
Proof using HP P_continue.
  unfold checkpoint. apply keeps_bind; [apply keeps_guard|]. intros _ j Hj.
  unfold sbind at 1. rewrite running_trial_run. unfold read_trial.
  destruct (trial_path_ok id) eqn:Ep; [|done]. cbn [negb].
  destruct (trials j !! id) as [p|] eqn:Et; [|done]. case_bool_decide as Hs; [|done].
  unfold sbind at 1. cbn [clock]. rewrite write_trial_run, Ep. cbn [negb].
  destruct (serialisable _) eqn:Es; cbn [snd]; [|by eapply HP; [|exact Hj]].
  apply (P_continue {| trials := trials j; ticks := S (ticks j) |}); try done; [by eapply HP; [|exact Hj]|].
  left. by cbn.
Qed.

Lemma keeps_finish new_status new_payload : keeps P (finish now id new_status new_payload).
Proof using HP P_continue.
  unfold finish. destruct new_status; try apply keeps_raise. intros j Hj.
  unfold sbind at 1, sguard. case_bool_decide as Hterm; cbn [negb]; [|done].
  unfold sbind at 1. rewrite running_trial_run. unfold read_trial.
  destruct (trial_path_ok id) eqn:Ep; [|done]. cbn [negb].
  destruct (trials j !! id) as [p|] eqn:Et; [|done]. case_bool_decide as Hs; [|done].
  unfold sbind at 1. cbn [clock]. unfold sbind at 1, slift.
  destruct (digest_ _) as [digest|] eqn:Ed; [|by eapply HP; [|exact Hj]].
  rewrite write_trial_run, Ep. cbn [negb].
  destruct (serialisable _) eqn:Es; cbn [snd]; [|by eapply HP; [|exact Hj]].
  apply (P_continue {| trials := trials j; ticks := S (ticks j) |}); try done; [by eapply HP; [|exact Hj]|].
  right. split; [done|]. by exists digest.
Qed.

Lemma keeps_handler u p : unit_id u = id → keeps P (run_handler now u p).
Proof using HP P_continue.
  intros Hu. induction p as [o|e|name obs np k IH]; [apply keeps_ret|apply keeps_raise|].
  intros j Hj. cbn [run_handler]. rewrite Hu. pose proof (keeps_checkpoint name obs np j Hj) as Hc.
  destruct (checkpoint now id name obs np j) as [res j1]. by apply IH.
Qed.

Lemma keeps_execute u h t : unit_id u = id → keeps P (execute_unit now u h t).
Proof using HP P_continue.
  intros Hu j Hj. unfold execute_unit, scatch.
  assert (keeps P (let! outcome := run_handler now u (h u t) in finish_outcome now u outcome)) as Hk.
  { apply keeps_bind; [by apply keeps_handler|]. intros o. unfold finish_outcome. rewrite Hu.
    destruct (outcome_payload o); solve [apply keeps_raise|apply keeps_finish]. }
  specialize (Hk j Hj). destruct (sbind _ _ j) as [[a|e] j1]; [done|].
  rewrite Hu. destruct e; try done; by apply keeps_finish.
Qed.
(** A new execution of [id] may be begun. *)
Hypothesis P_begin : ∀ j e, P j → trial_path_ok id = true → serialisable e = true →
  trial_id e = id → status e = "running" → artifact_digest e = None →
  execution_attempt e = match trials j !! id with Some p => (execution_attempt (current p) + 1)%Z | None => 1%Z end →
  record_version e = match trials j !! id with Some p => (record_version (current p) + 1)%Z | None => 1%Z end →
  P (set_trial id (stored_trial {| current := e;
      history := match trials j !! id with Some p => history p ++ [current p] | None => [] end |}) j).

Lemma keeps_begin sha key payload : keeps P (begin_trial now id sha key payload).
Proof using HP P_begin.
  intros j Hj. unfold begin_trial. unfold sbind at 1. rewrite read_run.
  unfold read_trial. destruct (trial_path_ok id) eqn:Ep; [|done]. cbn [negb].
  unfold sbind at 1. cbn [clock]. rewrite write_trial_run, Ep. cbn [negb].
  destruct (serialisable _) eqn:Es; cbn; [|by eapply HP; [|exact Hj]].
  match goal with |- P (set_trial id ?t ?j') => change (P (set_trial id t j')) end.
  apply (P_begin {| trials := trials j; ticks := S (ticks j) |}); try done. by eapply HP; [|exact Hj].
Qed.
End Keeps.
End Invariants.

(** ** The invariant of the journal *)

Definition executions (t : trial) : list entry := history t ++ [current t].

Record trial_ok (id : string) (t : trial) : Prop := {
  ok_ids : Forall (λ e, trial_id e = id) (executions t);
  ok_attempts : execution_attempt <$> executions t = Z.of_nat <$> seq 1 (length (executions t));
  ok_versions : StronglySorted Z.lt (record_version <$> executions t);
  ok_status : status (current t) = "running" ∨ status (current t) ∈ TERMINAL_STATUSES;
  ok_running : status (current t) = "running" → artifact_digest (current t) = None;
  ok_digest : status (current t) ≠ "running" → ∃ digest,
    digest_ (VDict (payload (current t))) = Ok digest ∧ artifact_digest (current t) = Some digest;
}.
Definition journal_ok (j : journal) : Prop := map_Forall trial_ok (trials j).

Lemma running_not_terminal : "running" ∉ TERMINAL_STATUSES.
Proof. apply (bool_decide_unpack _). by vm_compute. Qed.

Lemma of_files_ok : of_files journal_ok.
Proof. unfold of_files, journal_ok. by intros j j' ->. Qed.

Lemma stored_map_VDict d : VDict (stored_map d) = printed canonical_style (VDict d).
Proof. done. Qed.
Lemma digest_stored d digest : digest_ (VDict d) = Ok digest → digest_ (VDict (stored_map d)) = Ok digest.
Proof.
  unfold digest_. rewrite stored_map_VDict. destruct (dumps _ (VDict d)) eqn:E; [|done].
  by rewrite (dumps_printed _ _ _ E).
Qed.
Lemma stored_fields e :
  (trial_id (stored_entry e), status (stored_entry e), execution_attempt (stored_entry e),
   record_version (stored_entry e), cache_key (stored_entry e), artifact_digest (stored_entry e)) =
  (trial_id e, status e, execution_attempt e, record_version e, cache_key e, artifact_digest e).
Proof. done. Qed.

Lemma StronglySorted_snoc l x :
  StronglySorted Z.lt l → (∀ y, last l = Some y → (y < x)%Z) → StronglySorted Z.lt (l ++ [x]).
Proof.
  induction 1 as [|y l Hs IH Hall]; intros Hl; cbn; [by repeat constructor|].
  constructor.
  - apply IH. intros z Hz. apply Hl. destruct l; [done|]. exact Hz.
  - apply Forall_app. split; [done|]. constructor; [|done].
    destruct l as [|z l]; [by apply Hl|].
    destruct (last (z :: l)) as [w|] eqn:E; [|by apply last_None in E].
    assert (w < x)%Z as Hw by by apply Hl.
    assert (y < w)%Z; [|lia]. rewrite Forall_forall in Hall. apply Hall.
    apply last_Some in E as [l' ->]. set_solver.
Qed.

Lemma journal_ok_set id t j : journal_ok j → trial_ok id t → journal_ok (set_trial id t j).
Proof. intros Hj Ht. by apply map_Forall_insert_2. Qed.

Lemma seq_snoc n : Z.of_nat <$> seq 1 (S n) = (Z.of_nat <$> seq 1 n) ++ [Z.of_nat n + 1]%Z.
Proof. rewrite seq_S, fmap_app. do 2 f_equal. cbn. f_equal. lia. Qed.

Lemma executions_length t : length (executions t) = S (length (history t)).
Proof. unfold executions. rewrite length_app. simpl. lia. Qed.

Lemma trial_ok_attempt id t :
  trial_ok id t → execution_attempt (current t) = (Z.of_nat (length (history t)) + 1)%Z ∧
    execution_attempt <$> history t = Z.of_nat <$> seq 1 (length (history t)).
Proof.
  intros Ht. pose proof (ok_attempts _ _ Ht) as Ha. rewrite executions_length, seq_snoc in Ha.
  unfold executions in Ha. rewrite fmap_app in Ha. cbn in Ha.
  apply app_inj_tail in Ha as [-> ->]. by split.
Qed.

Lemma begin_ok id j e :
  journal_ok j → trial_id e = id → status e = "running" → artifact_digest e = None →
  execution_attempt e = match trials j !! id with Some p => (execution_attempt (current p) + 1)%Z | None => 1%Z end →
  record_version e = match trials j !! id with Some p => (record_version (current p) + 1)%Z | None => 1%Z end →
  trial_ok id (stored_trial {| current := e;
    history := match trials j !! id with Some p => history p ++ [current p] | None => [] end |}).
Proof.
  intros Hj Hid Hs Ha Hatt Hver. unfold stored_trial.
  assert (match trials j !! id with Some p => trial_ok id p | None => True end) as Hp.
  { destruct (trials j !! id) as [p|] eqn:E; [|done]. by apply Hj in E. }
  destruct (trials j !! id) as [p|]; cbn [current history].
  - fold (executions p). split; cbn [current history].
    + unfold executions at 1. apply Forall_app. split; [apply Hp|]. by constructor.
    + rewrite executions_length, seq_snoc. unfold executions at 1. cbn [history current].
      rewrite fmap_app. cbn.
      rewrite (ok_attempts _ _ Hp), Hatt. do 2 f_equal.
      destruct (trial_ok_attempt _ _ Hp) as [-> _]. rewrite executions_length. lia.
    + unfold executions at 1. cbn [history current]. rewrite fmap_app.
      apply StronglySorted_snoc; [apply Hp|]. intros y Hy. cbn. rewrite Hver.
      unfold executions in Hy. rewrite fmap_app, list_fmap_singleton, last_snoc in Hy. injection Hy as <-. lia.
    + by left.
    + done.
    + cbn. congruence.
  - split; cbn; try congruence; auto.
    + by rewrite Hatt.
    + by repeat constructor.
Qed.

Lemma continue_ok id p e :
  trial_ok id p → status (current p) = "running" → trial_id e = trial_id (current p) →
  execution_attempt e = execution_attempt (current p) → record_version e = (record_version (current p) + 1)%Z →
  ((status e = "running" ∧ artifact_digest e = artifact_digest (current p)) ∨
   (status e ∈ TERMINAL_STATUSES ∧ ∃ d, digest_ (VDict (payload e)) = Ok d ∧ artifact_digest e = Some d)) →
  trial_ok id (stored_trial {| current := e; history := history p |}).
Proof.
  intros Hp Hrun Hid Hatt Hver He.
  pose proof (ok_ids _ _ Hp) as Hids. pose proof (ok_attempts _ _ Hp) as Hatts.
  pose proof (ok_versions _ _ Hp) as Hvers. unfold executions in *.
  rewrite fmap_app in Hatts, Hvers. cbn in Hatts, Hvers.
  split; unfold executions; cbn [stored_trial current history].
  - apply Forall_app in Hids as [H1 H2]. apply Forall_app. split; [done|].
    apply Forall_cons in H2 as [H2 _]. apply Forall_singleton. cbn. congruence.
  - rewrite fmap_app. cbn. rewrite Hatt, Hatts. by rewrite !length_app.
  - rewrite fmap_app. cbn. apply StronglySorted_app_1_l in Hvers as Hl.
    apply StronglySorted_snoc; [done|]. intros y Hy. rewrite Hver.
    assert (y < record_version (current p))%Z; [|lia].
    eapply (StronglySorted_app_1_elem_of Z.lt); [exact Hvers| |by left].
    apply last_Some in Hy as [l' ->]. set_solver.
  - cbn. destruct He as [[-> _]|[? _]]; auto.
  - cbn. intros Hs. destruct He as [[_ ->]|[Ht _]]; [by apply (ok_running _ _ Hp)|].
    rewrite Hs in Ht. by apply running_not_terminal in Ht.
  - cbn. intros Hs. destruct He as [[? _]|[_ Hd]]; [done|].
    destruct Hd as (d & Hd & Ha). exists d. split; [by apply digest_stored|done].
Qed.

Section RunOk.
Context (now : nat → string).

Lemma keeps_run_units (P : journal → Prop) r handlers selected us s :
  (∀ s u, keeps P (run_unit now r handlers selected s u)) → keeps P (run_units now r handlers selected us s).
Proof.
  intros Hu. revert s. induction us as [|u us IH]; intros s; cbn; [apply keeps_ret|].
  apply keeps_bind; [apply Hu|]. intros s'. apply IH.
Qed.

Lemma keeps_run_unit (P : journal → Prop) r handlers selected s u :
  (∀ id sha key payload, keeps P (begin_trial now id sha key payload)) →
  (∀ h t, keeps P (execute_unit now u h t)) →
  keeps P (run_unit now r handlers selected s u).
Proof.
  intros Hb He j Hj. unfold run_unit. destruct (negb _); [done|]. destruct (intersects _ _); [done|].
  destruct (key_of_unit r j u) as [key|[g|m|m|n]]; [|by destruct (any_not_passed _ _) as [[]|]|done..].
  unfold start_unit. revert j Hj. change (keeps P (start_unit now r handlers u key s)).
  unfold start_unit. apply keeps_bind; [by intros j|]. intros previous.
  apply keeps_bind; [apply keeps_lift|]. intros [p|]; [apply keeps_ret|].
  apply keeps_bind; [apply keeps_lift|]. intros h.
  apply keeps_bind; [apply Hb|]. intros t. apply keeps_bind; [apply He|]. intros t'. apply keeps_ret.
Qed.

(** Whatever the handlers do, and whether the run returns or raises, every
    document of the journal keeps its identity, counts its executions from one with
    their past records kept in order, has increasing versions, and carries the digest
    of its payload exactly once it is finished. *)
Theorem runs_keep_the_journal_ok r handlers unit_ids j :
  journal_ok j → journal_ok (run now r handlers unit_ids j).2.
Proof.
  revert j. change (keeps journal_ok (run now r handlers unit_ids)).
  unfold run. apply keeps_bind; [apply keeps_guard|]. intros _. apply keeps_run_units. intros s u.
  apply keeps_run_unit.
  - intros id sha key pl. apply keeps_begin; [apply of_files_ok|].
    intros j e Hj _ _ Hid Hs Ha Hatt Hver. apply journal_ok_set; [done|]. by apply begin_ok.
  - intros h t. apply (keeps_execute now journal_ok of_files_ok (unit_id u)); [|done].
    intros j p e Hj Hp Hrun _ Hid Hatt Hver _ He. apply journal_ok_set; [done|].
    apply continue_ok; try done. by apply Hj in Hp.
Qed.
End RunOk.

(** ** One unit of a run *)

Lemma finish_ok now id st pl j t j' :
  finish now id st pl j = (Ok t, j') →
  trials j' !! id = Some (stored_trial t) ∧ status (current t) ∈ TERMINAL_STATUSES.
Proof.
  unfold finish. destruct st; try discriminate.
  intros ([] & j1 & Hg & H)%sbind_ok. unfold sguard in Hg.
  case_bool_decide as Hterm; [|discriminate Hg]. injection Hg as <-.
  apply sbind_ok in H as (p & j2 & _ & H). apply sbind_ok in H as (at_ & j3 & _ & H).
  apply sbind_ok in H as (digest & j4 & _ & H).
  apply write_trial_ok in H as (-> & _ & _ & ->). split; [|done]. cbn. apply lookup_insert_eq.
Qed.

Lemma execute_ok now u h running j t j' :
  execute_unit now u h running j = (Ok t, j') →
  trials j' !! unit_id u = Some (stored_trial t) ∧ status (current t) ∈ TERMINAL_STATUSES.
Proof.
  unfold execute_unit, scatch. destruct (sbind _ _ j) as [[a|e] j1] eqn:E.
  - intros [= <- <-]. apply sbind_ok in E as (o & j2 & _ & E). unfold finish_outcome in E.
    destruct (outcome_payload o); try discriminate E. by apply finish_ok in E.
  - destruct e; try discriminate; apply finish_ok.
Qed.

Definition archived (previous : option trial) : list entry :=
  match previous with Some p => executions p | None => [] end.

Lemma begin_run now id sha key pl j t j' :
  begin_trial now id sha key pl j = (Ok t, j') →
  trials j' !! id = Some (stored_trial t) ∧ history t = archived (trials j !! id) ∧
  cache_key (current t) = key ∧ trial_path_ok id = true.
Proof.
  unfold begin_trial. intros (prev & j1 & Hp & H)%sbind_ok. unfold read, read_trial in Hp.
  destruct (trial_path_ok id) eqn:Ep; cbn in Hp; [|discriminate Hp]. injection Hp as <- <-.
  apply sbind_ok in H as (at_ & j2 & _ & H). apply write_trial_ok in H as (-> & _ & _ & ->).
  split_and!; [cbn; apply lookup_insert_eq|by destruct (trials j !! id)|done|done].
Qed.

(** The files of the other trials are not touched. *)
Definition outside (id : string) (j0 j : journal) : Prop :=
  ∀ i, i ≠ id → trials j !! i = trials j0 !! i.
Lemma of_files_outside id j0 : of_files (outside id j0).
Proof. unfold of_files, outside. by intros j j' ->. Qed.
Lemma outside_set id t j0 j : outside id j0 j → outside id j0 (set_trial id t j).
Proof. intros Hj i Hi. cbn. rewrite lookup_insert_ne by done. by apply Hj. Qed.

(** The execution that was begun stays the one of the document. *)
Definition execution_of (id key : string) (past : list entry) (j : journal) : Prop :=
  ∃ t, trials j !! id = Some t ∧ cache_key (current t) = key ∧ history t = past.
Lemma of_files_execution id key past : of_files (execution_of id key past).
Proof. unfold of_files, execution_of. by intros j j' ->. Qed.

Lemma keeps_execution now id key past u h t :
  unit_id u = id → keeps (execution_of id key past) (execute_unit now u h t).
Proof.
  intros Hu. apply (keeps_execute now _ (of_files_execution id key past) id); [|done].
  intros j p e (t' & Ht & Hk & Hh) Hp _ _ _ _ _ Hkey _. simplify_eq.
  eexists. split; [cbn; apply lookup_insert_eq|]. cbn. done.
Qed.

Section Step.
Context (now : nat → string) (r : ExperimentRunner) (handlers : string → option handler).
Implicit Types (s : ExperimentRun) (j : journal) (u : ExperimentUnit).

(** How a turn of the loop can end without an exception. *)
Inductive unit_step (selected : list string) (u : ExperimentUnit) s j : ExperimentRun → journal → Prop :=
| step_not_selected : unit_id u ∉ selected → unit_step selected u s j s j
| step_skipped :
    unit_id u ∈ selected → (∀ key, key_of_unit r j u = Ok key → intersects (depends_on u) (failed_units s) = true) →
    unit_step selected u s j (skip_unit (unit_id u) s) j
| step_reused p :
    unit_id u ∈ selected → intersects (depends_on u) (failed_units s) = false →
    key_of_unit r j u = Ok (cache_key (current p)) → trial_path_ok (unit_id u) = true →
    trials j !! unit_id u = Some p → status (current p) = "pass" →
    unit_step selected u s j (reuse_unit (unit_id u) p s) j
| step_executed t j' :
    unit_id u ∈ selected → intersects (depends_on u) (failed_units s) = false →
    key_of_unit r j u = Ok (cache_key (current t)) → trial_path_ok (unit_id u) = true →
    outside (unit_id u) j j' → trials j' !! unit_id u = Some (stored_trial t) →
    history t = archived (trials j !! unit_id u) → status (current t) ∈ TERMINAL_STATUSES →
    unit_step selected u s j (executed_unit (unit_id u) t s) j'.

Lemma reuse_decision_ok u key previous res :
  reuse_decision u key previous = Ok res →
  match res with
  | Some p => previous = Some p ∧ cache_key (current p) = key ∧ status (current p) = "pass"
  | None => True
  end.
Proof.
  unfold reuse_decision. destruct previous as [p|]; [|by intros [= <-]].
  case_bool_decide; [|by intros [= <-]]. case_bool_decide; [by intros [= <-]|].
  case_bool_decide; [discriminate|]. case_bool_decide; [by intros [= <-]|discriminate].
Qed.

Lemma outside_execute id j0 u h t : unit_id u = id → keeps (outside id j0) (execute_unit now u h t).
Proof.
  intros Hu. apply (keeps_execute now _ (of_files_outside id j0) id); [|done].
  intros ?????????. intros. by apply outside_set.
Qed.
Lemma outside_begin id j0 sha key pl : keeps (outside id j0) (begin_trial now id sha key pl).
Proof. apply (keeps_begin now _ (of_files_outside id j0)). intros. by apply outside_set. Qed.

Lemma run_unit_step selected s u j s' j' :
  run_unit now r handlers selected s u j = (Ok s', j') → unit_step selected u s j s' j'.
Proof.
  unfold run_unit. case_bool_decide as Hsel; cbn [negb]; [|by intros [= <- <-]; constructor].
  destruct (intersects _ _) eqn:Hf; [by intros [= <- <-]; constructor|].
  destruct (key_of_unit r j u) as [key|[g|m|m|n]] eqn:Hk; try discriminate.
  2:{ destruct (any_not_passed _ _) as [[]|]; try discriminate. intros [= <- <-].
      constructor; [done|]. intros k Hk'. congruence. }
  unfold start_unit. intros (prev & j1 & Hp & H)%sbind_ok. unfold read, read_trial in Hp.
  destruct (trial_path_ok (unit_id u)) eqn:Ep; cbn in Hp; [|discriminate Hp]. injection Hp as <- <-.
  apply sbind_ok in H as (res & j1 & Hres & H). unfold slift in Hres. injection Hres as Hres <-.
  apply reuse_decision_ok in Hres. destruct res as [p|].
  - injection H as <- <-. destruct Hres as (? & <- & ?). by constructor.
  - apply sbind_ok in H as (h & j1 & Hh & H). unfold slift in Hh. injection Hh as Hh <-.
    apply sbind_ok in H as (running & j1 & Hb & H).
    apply sbind_ok in H as (t & j2 & He & H). injection H as <- <-.
    destruct (begin_run _ _ _ _ _ _ _ _ Hb) as (Ht1 & Hh1 & Hk1 & _).
    destruct (execute_ok _ _ _ _ _ _ _ He) as [Ht Hs].
    assert (execution_of (unit_id u) key (archived (trials j !! unit_id u)) j2) as (t' & Ht' & Hk' & Hh').
    { replace j2 with (execute_unit now u h running j1).2 by by rewrite He.
      apply (keeps_execution now (unit_id u)); [done|]. by exists (stored_trial running). }
    rewrite Ht in Ht'. injection Ht' as <-. cbn in Hk', Hh'. clear Hk1. subst key.
    apply step_executed; try done.
    replace j2 with (execute_unit now u h running j1).2 by by rewrite He.
    apply outside_execute; [done|]. change j1 with (Ok (E:=exn) running, j1).2. rewrite <-Hb.
    by apply outside_begin.
Qed.
End Step.

(** ** A whole run *)

Section Run.
Context (r : ExperimentRunner) (Hus : registered (units r)).
Context (selected : list string) (j0 : journal).

Record run_inv (finished : list ExperimentUnit) (s : ExperimentRun) (j : journal) : Prop := {
  inv_partition : executed_units s ++ reused_units s ++ skipped_units s
    ≡ₚ filter (λ i, i ∈ selected) (unit_id <$> finished);
  inv_frame i : i ∉ executed_units s → trials j !! i = trials j0 !! i;
  inv_executed i : i ∈ executed_units s → ∃ t,
    trials j !! i = Some t ∧ history t = archived (trials j0 !! i) ∧ status (current t) ∈ TERMINAL_STATUSES;
  inv_current u : u ∈ finished → unit_id u ∈ executed_units s ++ reused_units s → ∃ t,
    trials j !! unit_id u = Some t ∧ trial_path_ok (unit_id u) = true ∧
    key_of_unit r j u = Ok (cache_key (current t)) ∧
    (unit_id u ∉ failed_units s → status (current t) = "pass");
  inv_failed i : i ∈ failed_units s →
    i ∈ skipped_units s ∨ ∃ t, t ∈ records s ∧ status (current t) ≠ "pass";
}.

Lemma new_run_inv : run_inv [] new_run j0.
Proof. split; cbn; try done. all: intros ? Hn; by apply elem_of_nil in Hn. Qed.

Lemma prefix_keys finished u rest j j' v :
  units r = finished ++ u :: rest → outside (unit_id u) j j' → v ∈ finished ++ [u] →
  key_of_unit r j' v = key_of_unit r j v.
Proof using Hus.
  intros Hs Ho (a & b & Hab)%list_elem_of_split.
  assert (units r = a ++ v :: (b ++ rest)) as Hv.
  { rewrite Hs. replace (finished ++ u :: rest) with ((finished ++ [u]) ++ rest) by by rewrite <-app_assoc.
    by rewrite Hab, <-app_assoc. }
  apply (key_of_unit_local r Hus j' j a v (b ++ rest) Hv). intros d Hd. apply Ho. intros ->.
  pose proof (unit_ids_differ _ Hus) as Hnd.
  destruct b as [|w b _] using rev_ind.
  - apply app_inj_tail in Hab as [-> ->]. rewrite Hs, fmap_app in Hnd.
    apply NoDup_app in Hnd as (_ & Hnd & _). apply (Hnd _ Hd). cbn. left.
  - rewrite app_comm_cons, app_assoc in Hab. apply app_inj_tail in Hab as [-> ->].
    rewrite Hs, fmap_app in Hnd. apply NoDup_app in Hnd as (_ & Hnd & _). apply (Hnd (unit_id w)); [|left].
    rewrite fmap_app. apply elem_of_app. by left.
Qed.

Lemma accounted finished s j i :
  run_inv finished s j → i ∈ executed_units s ++ reused_units s ++ skipped_units s →
  i ∈ selected ∧ i ∈ unit_id <$> finished.
Proof. intros Hi. rewrite (inv_partition _ _ _ Hi), list_elem_of_filter. done. Qed.

Lemma partition_snoc finished u s j l :
  run_inv finished s j → l ≡ₚ unit_id u :: (executed_units s ++ reused_units s ++ skipped_units s) →
  unit_id u ∈ selected → l ≡ₚ filter (λ i, i ∈ selected) (unit_id <$> finished ++ [u]).
Proof.
  intros Hi Hl Hsel. rewrite Hl, (inv_partition _ _ _ Hi), fmap_app, filter_app, list_fmap_singleton.
  rewrite filter_cons_True, filter_nil by done. apply Permutation_cons_append.
Qed.

Lemma run_inv_step finished u rest s j s' j' :
  units r = finished ++ u :: rest → run_inv finished s j → unit_step r selected u s j s' j' →
  run_inv (finished ++ [u]) s' j'.
Proof using Hus.
  intros Hs Hi Hstep.
  assert (unit_id u ∉ unit_id <$> finished) as Hfresh.
  { pose proof (unit_ids_differ _ Hus) as Hnd. rewrite Hs, fmap_app in Hnd.
    apply NoDup_app in Hnd as (_ & Hnd & _). intros Hin. apply (Hnd _ Hin). left. }
  assert (∀ i, i ∈ executed_units s ++ reused_units s ++ skipped_units s → i ≠ unit_id u) as Hne.
  { intros i [_ Hin]%(accounted _ _ _ _ Hi) ->. done. }
  destruct Hstep as [Hsel|Hsel Hskip|p Hsel Hf Hk Hp Ht Hst|t j' Hsel Hf Hk Hp Ho Ht Hh Hst].
  - destruct Hi as [Hpart Hframe Hex Hcur Hfail]. split; try done.
    + rewrite fmap_app, filter_app, list_fmap_singleton, filter_cons_False, filter_nil, app_nil_r by done.
      done.
    + intros v [Hv| ->%list_elem_of_singleton]%elem_of_app Hin; [auto|].
      exfalso. apply Hne with (unit_id u); [|done]. set_solver.
  - split; cbn; [eapply partition_snoc; [done| |done]|apply Hi|apply Hi| |].
    + rewrite !app_assoc. symmetry. apply Permutation_cons_append.
    + intros v [Hv| ->%list_elem_of_singleton]%elem_of_app Hin.
      * destruct (inv_current _ _ _ Hi v Hv Hin) as (t & ? & ? & ? & ?).
        exists t. split_and!; try done. intros Hn. set_solver.
      * exfalso. apply Hne with (unit_id u); [|done]. set_solver.
    + intros i [-> |[?|?]%(inv_failed _ _ _ Hi)]%elem_of_cons; [|set_solver|by right].
      left. set_solver.
  - split; cbn; [eapply partition_snoc; [done| |done]|apply Hi|apply Hi| |].
    + rewrite <-!app_assoc. cbn. by rewrite <-!Permutation_middle.
    + intros v [Hv| ->%list_elem_of_singleton]%elem_of_app Hin.
      * apply (inv_current _ _ _ Hi v Hv). apply elem_of_app.
        apply elem_of_app in Hin as [?|[?|Heq%list_elem_of_singleton]%elem_of_app]; [auto..|].
        exfalso. apply Hfresh. rewrite <-Heq. by apply list_elem_of_fmap_2.
      * by exists p.
    + intros i [?|(t & ? & ?)]%(inv_failed _ _ _ Hi); [by left|right]. exists t. set_solver.
  - split; cbn; [eapply partition_snoc; [done| |done]| | | |].
    + rewrite <-!app_assoc. cbn. by rewrite <-!Permutation_middle.
    + intros i [Hi1 Hi2]%not_elem_of_app. rewrite <-(inv_frame _ _ _ Hi i Hi1). apply Ho. set_solver.
    + intros i [Hin| ->%list_elem_of_singleton]%elem_of_app.
      * destruct (inv_executed _ _ _ Hi i Hin) as (t' & ? & ? & ?). exists t'.
        rewrite Ho by (apply Hne; set_solver). done.
      * exists (stored_trial t). split_and!; [done| |done]. cbn. rewrite Hh. f_equal.
        apply (inv_frame _ _ _ Hi). intros Hin. apply (Hne (unit_id u)); set_solver.
    + intros v Hv Hin. rewrite (prefix_keys finished u rest j j' v Hs Ho Hv).
      apply elem_of_app in Hv as [Hv| ->%list_elem_of_singleton].
      * assert (unit_id v ≠ unit_id u) as Hvu.
        { intros Heq. apply Hfresh. rewrite <-Heq. by apply list_elem_of_fmap_2. }
        rewrite Ho by done.
        destruct (inv_current _ _ _ Hi v Hv) as (t' & ? & ? & ? & Hpass); [set_solver|].
        exists t'. split_and!; try done. intros Hn. apply Hpass.
        case_bool_decide; [done|]. set_solver.
      * exists (stored_trial t). split_and!; try done. case_bool_decide; [done|].
        intros Hn. exfalso. apply Hn. left.
    + intros i Hin. assert (i = unit_id u ∧ status (current t) ≠ "pass" ∨ i ∈ failed_units s) as [[_ ?]|Hin'].
      { case_bool_decide; set_solver. }
      * right. exists t. set_solver.
      * destruct (inv_failed _ _ _ Hi i Hin') as [?|(t' & ? & ?)]; [by left|right]. exists t'. set_solver.
Qed.

Lemma run_units_inv now handlers rest finished s j s' j' :
  units r = finished ++ rest → run_inv finished s j →
  run_units now r handlers selected rest s j = (Ok s', j') → run_inv (units r) s' j'.
Proof using Hus.
  revert finished s j. induction rest as [|u rest IH]; intros finished s j Hs Hi H.
  - injection H as <- <-. by rewrite Hs, app_nil_r.
  - cbn [run_units] in H. apply sbind_ok in H as (s1 & j1 & H1 & H).
    apply run_unit_step in H1. apply (IH (finished ++ [u]) s1 j1); [by rewrite <-app_assoc| |done].
    by eapply run_inv_step.
Qed.
End Run.

Lemma run_ok now r handlers unit_ids j out j' :
  registered (units r) → run now r handlers unit_ids j = (Ok out, j') →
  run_inv r (selected_units r unit_ids) j (units r) out j' ∧
  (∀ i, i ∈ selected_units r unit_ids → i ∈ unit_id <$> units r).
Proof.
  intros Hus. unfold run. intros ([] & j1 & Hg & H)%sbind_ok. unfold sguard in Hg.
  case_bool_decide as Hunk; [|discriminate Hg]. injection Hg as <-. split.
  - eapply (run_units_inv r Hus _ j now handlers (units r) []); [done|apply new_run_inv|done].
  - intros i Hi. rewrite sort_strings_nil, filter_nil_iff in Hunk.
    assert (by_id (units r) i ≠ None) as Hb by (apply Hunk; by apply elem_of_remove_dups).
    destruct (by_id (units r) i) as [u|] eqn:E; [|done]. apply unit_by_id_some in E as [? <-].
    by apply list_elem_of_fmap_2.
Qed.

(** ** What a run promises *)

Lemma run_nodup us P `{∀ i : string, Decision (P i)} (l : list string) :
  registered us → l ≡ₚ filter P (unit_id <$> us) → NoDup l.
Proof. intros Hus ->. apply NoDup_filter, Hus. Qed.

(** A run that returns has executed, reused or skipped each selected unit, each
    exactly once; it leaves the documents of all but the executed units alone, and an
    executed unit is finished, with its earlier executions archived in order. *)
Theorem run_accounts_for_every_unit us values sha r now handlers unit_ids j out j' :
  new_runner us values sha = Ok r → run now r handlers unit_ids j = (Ok out, j') →
  let accounted := executed_units out ++ reused_units out ++ skipped_units out in
  NoDup accounted ∧
  (∀ i, i ∈ accounted ↔ i ∈ selected_units r unit_ids) ∧
  (∀ i, i ∉ executed_units out → trials j' !! i = trials j !! i) ∧
  (∀ i, i ∈ executed_units out → ∃ t, trials j' !! i = Some t ∧
    history t = archived (trials j !! i) ∧ status (current t) ∈ TERMINAL_STATUSES).
Proof.
  intros (Hus & <- & _)%new_runner_ok Hrun accounted.
  destruct (run_ok _ _ _ _ _ _ _ Hus Hrun) as [Hi Hsel]. split_and!.
  - eapply run_nodup; [exact Hus|apply Hi].
  - intros i. unfold accounted. rewrite (inv_partition _ _ _ _ _ _ Hi), list_elem_of_filter.
    split; [tauto|]. auto.
  - apply Hi.
  - apply Hi.
Qed.

(** A key exists only when every dependency has a current, finished pass. *)
Definition current_pass (r : ExperimentRunner) (j : journal) (d : string) : Prop :=
  ∃ v t artifact, v ∈ units r ∧ unit_id v = d ∧ trials j !! d = Some t ∧ status (current t) = "pass" ∧
    key_of_unit r j v = Ok (cache_key (current t)) ∧ artifact_digest (current t) = Some artifact.

Lemma dependency_artifact_ok r key_of j u d x :
  dependency_artifact r key_of j u d = Ok x →
  ∃ v t artifact, by_id (units r) d = Some v ∧ trials j !! d = Some t ∧ status (current t) = "pass" ∧
    key_of v = Ok (cache_key (current t)) ∧ artifact_digest (current t) = Some artifact.
Proof.
  unfold dependency_artifact. intros (v & Hv & H)%rbind_ok. apply from_option_or_ok in Hv.
  apply rbind_ok in H as (rec & Hrec & H). unfold read_trial in Hrec. res_inv.
  destruct (trials j !! d) as [t|]; [|discriminate H]. res_inv. bool_prop.
  subst. eauto 10.
Qed.

Lemma key_rests_on_passes r j u key d :
  registered (units r) → u ∈ units r → key_of_unit r j u = Ok key → d ∈ depends_on u → current_pass r j d.
Proof.
  intros Hus (us1 & us2 & Hs)%list_elem_of_split Hkey Hd. unfold key_of_unit in Hkey.
  destruct (length (units r)) as [|n] eqn:En; [discriminate Hkey|]. cbn [unit_cache_key] in Hkey.
  apply rbind_ok in Hkey as (arts & Harts%rmapM_ok & _).
  destruct (list_elem_of_lookup_1 _ _ Hd) as [k Hk].
  destruct (Forall2_lookup_l _ _ _ _ _ Harts Hk) as (x & _ & Hx).
  apply dependency_artifact_ok in Hx as (v & t & artifact & Hv & Ht & Hst & Hkv & Ha).
  apply unit_by_id_some in Hv as Hv'. destruct Hv' as [Hvin Hvid].
  exists v, t, artifact. split_and!; try done. rewrite <-Hkv. symmetry.
  destruct (dependency_before _ Hus us1 u us2 d Hs Hd) as (a & v' & b & Hab & Hv' & _).
  rewrite Hv in Hv'. injection Hv' as <-.
  assert (units r = a ++ v :: (b ++ u :: us2)) as Hs' by (rewrite Hs, Hab; by rewrite <-app_assoc).
  apply (unit_cache_key_fuel r Hus j a v (b ++ u :: us2) n Hs').
  rewrite Hs', !length_app in En. cbn in En. rewrite length_app in En. cbn in En. lia.
Qed.

(** After a run, every unit that was executed or reused rests on dependencies
    whose documents are passes for the semantic inputs of now: no unit runs on a
    failed, skipped or outdated dependency. *)
Theorem units_rest_on_current_passes us values sha r now handlers unit_ids j out j' u d :
  new_runner us values sha = Ok r → run now r handlers unit_ids j = (Ok out, j') →
  u ∈ us → unit_id u ∈ executed_units out ++ reused_units out → d ∈ depends_on u →
  current_pass r j' d.
Proof.
  intros (Hus & <- & _)%new_runner_ok Hrun Hu Hin Hd.
  destruct (run_ok _ _ _ _ _ _ _ Hus Hrun) as [Hi _].
  destruct (inv_current _ _ _ _ _ _ Hi u Hu Hin) as (t & _ & _ & Hk & _).
  by eapply key_rests_on_passes.
Qed.

(** ** Running again *)

Lemma run_unit_reuses now r handlers selected s u j t :
  unit_id u ∈ selected → failed_units s = [] → trials j !! unit_id u = Some t →
  trial_path_ok (unit_id u) = true → key_of_unit r j u = Ok (cache_key (current t)) →
  status (current t) = "pass" →
  run_unit now r handlers selected s u j = (Ok (reuse_unit (unit_id u) t s), j).
Proof.
  intros Hsel Hf Ht Hp Hk Hs. unfold run_unit. rewrite bool_decide_eq_true_2 by done. cbn [negb].
  rewrite Hf. assert (intersects (depends_on u) [] = false) as ->.
  { apply intersects_false. intros x _. apply not_elem_of_nil. }
  rewrite Hk. unfold start_unit, sbind, read, read_trial, slift. rewrite Hp, Ht. cbn [negb].
  unfold reuse_decision. by rewrite !bool_decide_eq_true_2 by done.
Qed.

Lemma run_units_reuse now r handlers selected j us s :
  (∀ u, u ∈ us → unit_id u ∈ selected → ∃ t, trials j !! unit_id u = Some t ∧
    trial_path_ok (unit_id u) = true ∧ key_of_unit r j u = Ok (cache_key (current t)) ∧
    status (current t) = "pass") →
  failed_units s = [] →
  ∃ s', run_units now r handlers selected us s j = (Ok s', j) ∧
    executed_units s' = executed_units s ∧ skipped_units s' = skipped_units s ∧
    reused_units s' = reused_units s ++ filter (λ i, i ∈ selected) (unit_id <$> us).
Proof.
  revert s. induction us as [|u us IH]; intros s Hall Hf.
  { exists s. cbn. by rewrite app_nil_r. }
  cbn [run_units fmap list_fmap]. rewrite filter_cons. unfold sbind. case_decide as Hsel.
  - destruct (Hall u ltac:(left) Hsel) as (t & Ht & Hp & Hk & Hs).
    rewrite (run_unit_reuses now r handlers selected s u j t) by done.
    destruct (IH (reuse_unit (unit_id u) t s)) as (s' & -> & He & Hsk & Hr); [|done|].
    { intros v Hv. apply Hall. by right. }
    exists s'. split_and!; [done|done|done|]. rewrite Hr. cbn. by rewrite <-app_assoc.
  - unfold run_unit. rewrite bool_decide_eq_false_2 by done. cbn [negb].
    apply IH; [|done]. intros v Hv. apply Hall. by right.
Qed.

(** C18: After a run in which nothing was skipped and every record is a pass, running
    the same selection again, with any handlers, executes nothing: every selected
    unit is reused and the journal is not touched. *)
Theorem rerun_executes_nothing us values sha r now handlers unit_ids j out j' now' handlers' :
  new_runner us values sha = Ok r → run now r handlers unit_ids j = (Ok out, j') →
  skipped_units out = [] → Forall (λ t, status (current t) = "pass") (records out) →
  ∃ out', run now' r handlers' unit_ids j' = (Ok out', j') ∧
    executed_units out' = [] ∧ skipped_units out' = [] ∧
    reused_units out' = filter (λ i, i ∈ selected_units r unit_ids) (unit_id <$> us).
Proof.
  intros (Hus & <- & _)%new_runner_ok Hrun Hsk Hpass.
  destruct (run_ok _ _ _ _ _ _ _ Hus Hrun) as [Hi Hsel].
  destruct (run_units_reuse now' r handlers' (selected_units r unit_ids) j' (units r) new_run)
    as (s' & Hs' & He & Hskip & Hr); [|done|].
  - intros u Hu Husel. assert (unit_id u ∈ executed_units out ++ reused_units out) as Hin.
    { assert (unit_id u ∈ executed_units out ++ reused_units out ++ skipped_units out) as Hin.
      { rewrite (inv_partition _ _ _ _ _ _ Hi). apply list_elem_of_filter.
        split; [done|by apply list_elem_of_fmap_2]. }
      by rewrite Hsk, app_nil_r in Hin. }
    destruct (inv_current _ _ _ _ _ _ Hi u Hu Hin) as (t & ? & ? & ? & Hp). exists t. split_and!; try done.
    apply Hp. intros [Hn|(t' & Ht' & Hn)]%(inv_failed _ _ _ _ _ _ Hi).
    + rewrite Hsk in Hn. by apply elem_of_nil in Hn.
    + rewrite Forall_forall in Hpass. by apply Hn, Hpass.
  - exists s'. split_and!; try done. unfold run. unfold sbind at 1, sguard.
    rewrite bool_decide_eq_true_2; [done|]. apply sort_strings_nil, filter_nil_iff.
    intros i Hin Hb. apply elem_of_remove_dups, Hsel, by_id_is_some in Hin. cbn in Hb. by rewrite Hb in Hin; destruct Hin.
Qed.

(** ** Changed checkpoints *)

(** The tables [affected_units] is called with. *)
Definition checkpoint_table (us : list ExperimentUnit) : list (string * list string) :=
  (λ u, (unit_id u, required_checkpoints u)) <$> us.
Definition dependency_table (us : list ExperimentUnit) : list (string * list string) :=
  (λ u, (unit_id u, depends_on u)) <$> us.

Lemma table_elem {A} (f : ExperimentUnit → A) (us : list ExperimentUnit) u : u ∈ us → (unit_id u, f u) ∈ (λ v, (unit_id v, f v)) <$> us.
Proof. intros Hu. apply list_elem_of_fmap. by exists u. Qed.

(** A change of checkpoint values invalidates only the affected units: every
    other unit has the key it had, so its pass is still reused. *)
Theorem unaffected_units_keep_their_key us old new sha r r' changed affected_ids j u :
  new_runner us old sha = Ok r → new_runner us new sha = Ok r' →
  (∀ c, c ∉ changed → lookup_str c old = lookup_str c new) →
  affected_units (checkpoint_table us) changed (dependency_table us) = Some affected_ids →
  u ∈ us → unit_id u ∉ affected_ids →
  key_of_unit r j u = key_of_unit r' j u.
Proof.
  intros (Hus & <- & <-)%new_runner_ok (_ & Hr & <-)%new_runner_ok Hv Haff Hu Hn.
  destruct (affected_units_closure (checkpoint_table (units r)) (dependency_table (units r)) changed)
    as (ids & Hids & _ & Hin). rewrite Haff in Hids. injection Hids as <-.
  destruct (list_elem_of_split _ _ Hu) as (us1 & us2 & Hs).
  pose proof (position_bound _ us1 u us2 Hs) as Hlen. unfold key_of_unit. rewrite Hr.
  apply (unit_cache_key_agree r r' (eq_sym Hr) Hus j j (λ i, i ∉ affected_ids)) with us1 us2; try done.
  - intros v d Hvin HP Hd Hda. apply HP, Hin. apply Hin in Hda.
    eapply affected_downstream; [by apply (table_elem depends_on)|done|done].
  - intros v c Hvin HP Hc. apply Hv. intros Hcc. apply HP, Hin.
    eapply affected_directly; [by apply (table_elem required_checkpoints)|done|done].
Qed.

(** ** What a key stands for *)

Definition str_values (m : str_mapping) : list (string * val) := (λ kv, (kv.1, VStr kv.2)) <$> m.
Lemma str_values_keys m : (str_values m).*1 = m.*1.
Proof. unfold str_values. by rewrite <-list_fmap_compose. Qed.
Lemma str_items_nodup m : NoDup m.*1 → str_items m = sdict (str_values m).
Proof. intros Hm. apply build_dict_nodup. by rewrite str_values_keys. Qed.
Lemma str_values_json m : Forall (λ v, json_ok v = true) (str_values m).*2.
Proof. unfold str_values. rewrite <-list_fmap_compose. apply Forall_fmap, Forall_true. done. Qed.
Lemma str_values_printed m : prod_map id (printed canonical_style) <$> str_values m = str_values m.
Proof. induction m as [|[k v] m IH]; [done|]. cbn. f_equal. apply IH. Qed.
Lemma str_values_inj m1 m2 : str_values m1 = str_values m2 → m1 = m2.
Proof.
  revert m2. induction m1 as [|[k v] m1 IH]; intros [|[k' v'] m2]; try done.
  cbn. intros [= -> -> H]. f_equal. by apply IH.
Qed.
Lemma experiment_keys_fixed (l : list string) : sort_strings (sort_strings l) = sort_strings l.
Proof. apply sort_by_id, sort_by_sorted; [apply str_le_total|apply str_le_trans]. Qed.
Lemma sort_keys_keys {A} (m : list (string * A)) : (sort_keys m).*1 = sort_strings m.*1.
Proof. unfold sort_keys, sort_strings. symmetry. by apply (sort_by_map (λ x y, str_le x.1 y.1) str_le fst). Qed.

(** The two mappings of the subject. *)
Definition subject_checkpoints (values : str_mapping) (required : list string) : str_mapping :=
  (λ n, (n, default "" (lookup_str n values))) <$> sort_strings required.

Lemma subject_checkpoints_keys values required :
  (subject_checkpoints values required).*1 = sort_strings required.
Proof. unfold subject_checkpoints. rewrite <-list_fmap_compose. apply list_fmap_id. Qed.

Lemma cache_subject_canonical values required digest artifacts :
  NoDup required → NoDup artifacts.*1 →
  json_ok (cache_subject values required digest artifacts) = true ∧
  printed canonical_style (cache_subject values required digest artifacts) =
    sdict [("checkpoints", sdict (str_values (subject_checkpoints values required)));
           ("dependencies", sdict (str_values (sort_keys artifacts))); ("input_digest", VStr digest)].
Proof.
  intros Hreq Hart. unfold cache_subject. fold (subject_checkpoints values required).
  assert (NoDup (subject_checkpoints values required).*1) as H1.
  { rewrite subject_checkpoints_keys. unfold sort_strings. by rewrite sort_by_perm. }
  assert (NoDup (sort_keys artifacts).*1) as H2 by by rewrite sort_keys_perm.
  rewrite !str_items_nodup by done. split.
  - apply json_ok_sdict; [literal_nodup|].
    repeat apply Forall_cons_2; try done; apply json_ok_sdict; rewrite ?str_values_keys; auto using str_values_json.
  - rewrite printed_sdict by literal_keys. cbn [fmap list_fmap prod_map fst snd id].
    rewrite !printed_sdict, !str_values_printed; [done| |].
    + by rewrite str_values_keys, sort_keys_keys, experiment_keys_fixed.
    + by rewrite str_values_keys, subject_checkpoints_keys, experiment_keys_fixed.
Qed.

Lemma semantic_cache_key_ok values required digest artifacts key :
  semantic_cache_key values required digest artifacts = Ok key →
  (∀ c, c ∈ required → is_Some (lookup_str c values)) ∧
  ∃ text, dumps canonical_style (cache_subject values required digest artifacts) = Some text ∧
    key = sha256_hex text.
Proof.
  unfold semantic_cache_key, missing_checkpoints. intros H. res_inv. bool_prop.
  rewrite sort_strings_nil, filter_nil_iff in E. split.
  - intros c Hc. destruct (lookup_str c values) eqn:El; [eauto|].
    exfalso. by apply (E c); [apply elem_of_remove_dups|].
  - unfold digest_ in H. destruct (dumps _ _) as [text|] eqn:Ed; [|discriminate H].
    apply Ok_inj in H. eauto.
Qed.

(** Two units with the same key have the same input digest, require the same
    checkpoints with the same values and rest on the same dependency artifacts,
    whatever commit produced them; or their subjects are a SHA-256 collision. *)
Theorem cache_key_binds_its_subject v1 q1 d1 a1 v2 q2 d2 a2 key :
  NoDup q1 → NoDup q2 → NoDup a1.*1 → NoDup a2.*1 →
  semantic_cache_key v1 q1 d1 a1 = Ok key → semantic_cache_key v2 q2 d2 a2 = Ok key →
  (d1 = d2 ∧ q1 ≡ₚ q2 ∧ (∀ c, c ∈ q1 → lookup_str c v1 = lookup_str c v2) ∧ a1 ≡ₚ a2) ∨
  ∃ a b, sha256_collision a b.
Proof.
  intros Hq1 Hq2 Ha1 Ha2 (Hs1 & t1 & Ht1 & ->)%semantic_cache_key_ok (Hs2 & t2 & Ht2 & Hk)%semantic_cache_key_ok.
  destruct (sha256_equal_or_collision _ _ Hk) as [-> |Hc]; [left|right; by exists t1, t2].
  destruct (cache_subject_canonical v1 q1 d1 a1 Hq1 Ha1) as [Hj1 Hp1].
  destruct (cache_subject_canonical v2 q2 d2 a2 Hq2 Ha2) as [Hj2 Hp2].
  pose proof (loads_dumps _ _ _ Hj1 Ht1) as Hl1. rewrite (loads_dumps _ _ _ Hj2 Ht2), Hp1, Hp2 in Hl1.
  apply (inj Some), eq_sym, sdict_inj in Hl1. injection Hl1 as Hck Hdeps Hd.
  apply (f_equal VDict) in Hck, Hdeps. apply sdict_inj, str_values_inj in Hck, Hdeps.
  pose proof (f_equal (fmap fst) Hck) as Hq. rewrite !subject_checkpoints_keys in Hq.
  split_and!; [done| | |].
  - transitivity (sort_strings q1); [symmetry; apply sort_by_perm|]. rewrite Hq. apply sort_by_perm.
  - intros c Hc. assert (c ∈ q2) as Hc2 by by rewrite <-(sort_strings_elem c q2), <-Hq, sort_strings_elem.
    destruct (Hs1 c Hc) as [x Hx], (Hs2 c Hc2) as [y Hy]. rewrite Hx, Hy.
    unfold subject_checkpoints in Hck. rewrite <-Hq in Hck. f_equal.
    apply (sort_strings_elem c) in Hc. revert Hck Hc. generalize (sort_strings q1). intros l.
    induction l as [|z l IH]; intros Hck Hc; [by apply elem_of_nil in Hc|].
    injection Hck as Hz Hck. apply elem_of_cons in Hc as [<- |Hc]; [|by apply IH].
    by rewrite Hx, Hy in Hz.
  - rewrite <-(sort_keys_perm a1), <-(sort_keys_perm a2). by rewrite Hdeps.
Qed.

(** ** Resuming *)

(** A unit whose last execution was interrupted or failed on infrastructure with
    the same inputs is executed once more, from the side effects already made: its
    handler starts with the checkpoints of that execution. *)
Theorem resumed_unit_sees_its_checkpoints now r handlers selected s u j p h :
  unit_id u ∈ selected → intersects (depends_on u) (failed_units s) = false →
  trial_path_ok (unit_id u) = true → trials j !! unit_id u = Some p →
  key_of_unit r j u = Ok (cache_key (current p)) → status (current p) ∈ RESUMABLE_STATUSES →
  is_Some (dumps canonical_style (VDict (runtime_checkpoints (current p)))) →
  handlers (unit_id u) = Some h →
  ∃ running j1,
    runtime_checkpoints (current running) = runtime_checkpoints (current p) ∧
    execution_attempt (current running) = (execution_attempt (current p) + 1)%Z ∧
    history running = executions p ∧
    run_unit now r handlers selected s u j =
      (let! record := execute_unit now u h running in
       sret (executed_unit (unit_id u) record s)) j1.
Proof.
  intros Hsel Hf Hp Ht Hk Hs [text Htext] Hh.
  unfold run_unit. rewrite bool_decide_eq_true_2 by done. cbn [negb]. rewrite Hf, Hk.
  unfold start_unit. unfold sbind at 1. rewrite read_run. unfold read_trial. rewrite Hp, Ht. cbn [negb].
  unfold sbind at 1, slift, reuse_decision. rewrite (bool_decide_eq_true_2 (cache_key _ = _)) by done.
  assert (status (current p) ≠ "pass" ∧ status (current p) ∉ ["metric_fail"; "blocked"]) as [Hs1 Hs2].
  { unfold RESUMABLE_STATUSES in Hs. rewrite !elem_of_cons, elem_of_nil in Hs.
    destruct Hs as [-> |[-> |[]]]; split; try done; apply (bool_decide_unpack _); by vm_compute. }
  rewrite (bool_decide_eq_false_2 _ Hs1), (bool_decide_eq_false_2 _ Hs2), (bool_decide_eq_true_2 _ Hs).
  unfold sbind at 1. rewrite Hh. cbn [from_option_or].
  unfold sbind at 1. unfold begin_trial. unfold sbind at 1. rewrite read_run. unfold read_trial. rewrite Hp, Ht.
  cbn [negb]. unfold sbind at 1. cbn [clock]. rewrite write_trial_run, Hp. cbn [negb current].
  unfold same_semantics. rewrite bool_decide_eq_true_2 by done.
  match goal with |- context [serialisable ?e] => assert (serialisable e = true) as -> end.
  { unfold serialisable. cbn [runtime_checkpoints payload]. rewrite Htext. done. }
  cbn [negb]. eexists _, _. split_and!; [..|reflexivity]; done.
Qed.

(** ** A concrete experiment *)

Definition demo_a : ExperimentUnit :=
  {| unit_id := "a"; required_checkpoints := ["x"]; depends_on := []; input_digest := "in"; destructive := false |}.
Definition demo_b : ExperimentUnit :=
  {| unit_id := "b"; required_checkpoints := ["y"]; depends_on := ["a"]; input_digest := "in"; destructive := false |}.
Definition demo_values : str_mapping := [("x", "1"); ("y", "1")].
Definition demo_runner : ExperimentRunner :=
  {| units := [demo_a; demo_b]; checkpoint_values := demo_values; runner_sha := "sha" |}.
Definition demo_handlers (id : string) : option handler :=
  Some (λ u _, HReturn [(VStr "payload", VDict [(VStr "unit", VStr (unit_id u))])]).
Definition demo_clock (_ : nat) : string := "now".
Definition empty_journal : journal := {| trials := ∅; ticks := 0 |}.
Definition demo_run : result exn ExperimentRun * journal :=
  run demo_clock demo_runner demo_handlers None empty_journal.

Lemma demo_runner_new : new_runner [demo_a; demo_b] demo_values "sha" = Ok demo_runner.
Proof. by vm_compute. Qed.

(** Both units are executed, in order, and pass. *)
Lemma demo_run_passes :
  match demo_run.1 with
  | Ok out => executed_units out = ["a"; "b"] ∧ reused_units out = [] ∧ skipped_units out = [] ∧
              (λ t, status (current t)) <$> records out = ["pass"; "pass"]
  | Err _ => False
  end.
Proof. vm_compute. done. Qed.

Lemma demo_experiment_ok : ∃ out j', demo_run = (Ok out, j') ∧ executed_units out = ["a"; "b"] ∧
  skipped_units out = [] ∧ Forall (λ t, status (current t) = "pass") (records out).
Proof.
  pose proof demo_run_passes as H. destruct demo_run as [[out|e] j']; [|done].
  destruct H as (He & _ & Hs & Hr). exists out, j'. split_and!; try done.
  apply Forall_forall. intros t Ht.
  assert (status (current t) ∈ (λ t, status (current t)) <$> records out) as Hin by by apply (list_elem_of_fmap_2 (λ t, status (current t))).
  rewrite Hr in Hin. set_solver.
Qed.

Lemma runs_keep_the_journal_ok_witness :
  journal_ok empty_journal ∧ journal_ok demo_run.2.
Proof.
  assert (journal_ok empty_journal) as H by apply map_Forall_empty.
  split; [exact H|]. exact (runs_keep_the_journal_ok demo_clock demo_runner demo_handlers None _ H).
Defined.

Lemma run_accounts_for_every_unit_witness :
  ∃ out j', demo_run = (Ok out, j') ∧ NoDup (executed_units out ++ reused_units out ++ skipped_units out).
Proof.
  destruct demo_experiment_ok as (out & j' & H & _). exists out, j'. split; [exact H|].
  exact (proj1 (run_accounts_for_every_unit _ _ _ _ _ _ _ _ _ _ demo_runner_new H)).
Defined.

Lemma units_rest_on_current_passes_witness :
  ∃ out j', demo_run = (Ok out, j') ∧ current_pass demo_runner j' "a".
Proof.
  destruct demo_experiment_ok as (out & j' & H & He & _). exists out, j'. split; [exact H|].
  apply (units_rest_on_current_passes _ _ _ _ _ _ _ _ _ _ demo_b "a" demo_runner_new H).
  - right. left.
  - rewrite He. right. left.
  - left.
Defined.

Lemma rerun_executes_nothing_witness :
  ∃ out j', demo_run = (Ok out, j') ∧
  ∃ out', run demo_clock demo_runner (λ _, None) None j' = (Ok out', j') ∧
    executed_units out' = [] ∧ skipped_units out' = [] ∧
    reused_units out' = filter (λ i, i ∈ selected_units demo_runner None) (unit_id <$> [demo_a; demo_b]).
Proof.
  destruct demo_experiment_ok as (out & j' & H & _ & Hs & Hp). exists out, j'. split; [exact H|].
  exact (rerun_executes_nothing _ _ _ _ _ _ _ _ _ _ demo_clock (λ _, None) demo_runner_new H Hs Hp).
Defined.

(** [y] changes: [b] is affected, [a] is not. *)
Definition demo_values' : str_mapping := [("x", "1"); ("y", "2")].
Lemma unaffected_units_keep_their_key_witness :
  key_of_unit demo_runner empty_journal demo_a =
  key_of_unit {| units := [demo_a; demo_b]; checkpoint_values := demo_values'; runner_sha := "sha" |}
    empty_journal demo_a.
Proof.
  apply (unaffected_units_keep_their_key [demo_a; demo_b] demo_values demo_values' "sha" _ _ ["y"] ["b"]).
  - exact demo_runner_new.
  - by vm_compute.
  - intros c Hc. cbn. case_bool_decide; [done|]. case_bool_decide; [|done]. set_solver.
  - by vm_compute.
  - left.
  - set_solver.
Defined.

Lemma cache_key_binds_its_subject_witness :
  ("in" = "in" ∧ ["x"] ≡ₚ ["x"] ∧ (∀ c, c ∈ ["x"] → lookup_str c demo_values = lookup_str c demo_values') ∧
   ([] : str_mapping) ≡ₚ []) ∨ ∃ a b, sha256_collision a b.
Proof.
  destruct (semantic_cache_key demo_values ["x"] "in" []) as [key|e] eqn:E.
  - apply (cache_key_binds_its_subject demo_values ["x"] "in" [] demo_values' ["x"] "in" [] key).
    + literal_nodup.
    + literal_nodup.
    + literal_nodup.
    + literal_nodup.
    + exact E.
    + rewrite <-E. by vm_compute.
  - exfalso. assert (is_ok (semantic_cache_key demo_values ["x"] "in" []) = true) as Hok by by vm_compute.
    by rewrite E in Hok.
Defined.

(** [a] has a document left running, with one checkpoint. *)
Definition demo_interrupted (key : string) : trial :=
  {| current := {| trial_id := "a"; status := "running"; execution_attempt := 1; record_version := 2;
       producer_sha := "sha"; cache_key := key; recorded_at := "now";
       runtime_checkpoints := [(VStr "restarted", VBool true)]; payload := []; artifact_digest := None |};
     history := [] |}.
Lemma resumed_unit_sees_its_checkpoints_witness :
  ∃ key running, runtime_checkpoints (current running) = [(VStr "restarted", VBool true)] ∧
    history running = executions (demo_interrupted key).
Proof.
  destruct (key_of_unit demo_runner empty_journal demo_a) as [key|e] eqn:E.
  - exists key.
    destruct (resumed_unit_sees_its_checkpoints demo_clock demo_runner demo_handlers ["a"] new_run demo_a
      {| trials := {["a" := demo_interrupted key]}; ticks := 0 |} (demo_interrupted key)
      (λ u _, HReturn [(VStr "payload", VDict [(VStr "unit", VStr (unit_id u))])]))
      as (running & j1 & Hr & _ & Hh & _).
    + left.
    + done.
    + by vm_compute.
    + apply lookup_singleton_eq.
    + etransitivity; [|exact E]. apply (key_of_unit_local demo_runner) with [] [demo_b]; [|done|].
      * by destruct (new_runner_ok _ _ _ _ demo_runner_new).
      * intros d Hd. exfalso. exact (proj1 (elem_of_nil d) Hd).
    + left.
    + eexists. by vm_compute.
    + done.
    + exists running. split; [exact Hr|exact Hh].
  - exfalso. assert (is_ok (key_of_unit demo_runner empty_journal demo_a) = true) as Hok by by vm_compute.
    by rewrite E in Hok.
Defined.
