(* ===== verification/PyFloat.v ===== *)
(** * Text and numbers of dynamic values

    Binary doubles, [str] and [repr], floats as text, and numbers as Python compares
    them. *)
From Stdlib Require Import Ascii.
From S2P Require Import Prelude Json PyDyn PyCalendar.

(** ** Doubles

    Finite doubles as [m * 2 ^ e], with one rounding, to 53 bits and ties to even,
    for each operation; values stay far from overflow and from the subnormals.  The
    order is total up to equality of values. *)

(** [m * 2 ^ e], a finite double. *)
Definition double : Type := Z * Z.
(** The double nearest to [num / den]. *)
Definition to_double (num den : Z) : double :=
  let '(m, e) := nearest_double (Z.abs num) den in ((Z.sgn num * m)%Z, e).
Definition double_of_exact (m e : Z) : double := to_double (m * 2 ^ Z.max 0 e) (2 ^ Z.max 0 (- e)).
Definition dmul (a b : double) : double := double_of_exact (a.1 * b.1) (a.2 + b.2).
(** [a + c * b] before rounding, over the smaller exponent. *)
Definition aligned (c : Z) (a b : double) : Z * Z :=
  let e := Z.min a.2 b.2 in ((a.1 * 2 ^ (a.2 - e) + c * (b.1 * 2 ^ (b.2 - e)))%Z, e).
Definition dadd (a b : double) : double := let '(m, e) := aligned 1 a b in double_of_exact m e.
Definition dsub (a b : double) : double := let '(m, e) := aligned (-1) a b in double_of_exact m e.
Definition dabs (a : double) : double := (Z.abs a.1, a.2).
Definition dle (a b : double) : bool := (0 <=? (aligned (-1) b a).1)%Z.
(** [max(a, b)] returns the first of equals. *)
Definition dmax (a b : double) : double := if dle b a then a else b.

(** [sum] of floats: compensated, as in Python 3.12. *)
Definition sum_step (acc : double * double) (x : double) : double * double :=
  let '(hi, lo) := acc in
  let t := dadd hi x in
  (t, dadd lo (if dle (dabs x) (dabs hi) then dadd (dsub hi t) x else dadd (dsub x t) hi)).
Definition double_sum (xs : list double) : double :=
  let '(hi, lo) := foldl sum_step ((0, 0), (0, 0))%Z xs in
  if (lo.1 =? 0)%Z then hi else dadd hi lo.

(** [a / b] for [b > 0] *)
Definition ddiv (a b : double) : double :=
  let s := (a.2 - b.2)%Z in to_double (a.1 * 2 ^ Z.max 0 s) (b.1 * 2 ^ Z.max 0 (- s)).
Definition dlt (a b : double) : bool := negb (dle b a).
Definition deq (a b : double) : bool := dle a b && dle b a.
Definition dopp (a : double) : double := (- a.1, a.2)%Z.
Definition dmin (a b : double) : double := if dle a b then a else b.
Definition dzero : double := (0, 0)%Z.

(** [float(n)] *)
Definition double_of_int (n : Z) : double := to_double n 1.

(** The double of a literal; [None] for [NaN] and the infinities. *)
Definition double_of_token (tok : string) : option double :=
  '(neg, m, e) ← decimal_parts tok;
  let '(num, den) := quotient m e in
  Some (to_double (if (neg : bool) then (- num)%Z else num) den).

(** The value of a decimal literal in the source, [num / 10 ^ k]. *)
Definition dec (num : Z) (k : Z) : double := to_double num (10 ^ k).

Example double_values :
  (deq (dadd (dec 1 1) (dec 2 1)) (dec 3 1), deq (dadd (dec 1 1) (dec 2 1)) (dec 30000000000000004 17),
   deq (ddiv (double_of_int 1) (double_of_int 3)) (dec 3333333333333333 16),
   bool_decide (double_of_token "1.5e3" = Some (double_of_int 1500)), double_of_token "NaN")
  = (false, true, true, true, None).
Proof. vm_compute. reflexivity. Qed.

(** *** Order *)

(** [2 ^ k] times the value, for [k] at least [- e]. *)
Definition scaled (k : Z) (a : double) : Z := (a.1 * 2 ^ (a.2 + k))%Z.

Lemma scaled_shift k j a : (0 <= k)%Z → (- a.2 <= j)%Z → scaled (j + k) a = (scaled j a * 2 ^ k)%Z.
Proof.
  intros Hk Hj. unfold scaled. replace (a.2 + (j + k))%Z with (a.2 + j + k)%Z by lia.
  rewrite Z.pow_add_r by lia. lia.
Qed.

Lemma dle_scaled k a b :
  (- a.2 <= k)%Z → (- b.2 <= k)%Z → dle a b = (scaled k a <=? scaled k b)%Z.
Proof.
  intros Ha Hb. unfold dle, aligned. cbn [fst]. set (e := Z.min b.2 a.2).
  assert (scaled k a = (a.1 * 2 ^ (a.2 - e)) * 2 ^ (e + k))%Z as ->.
  { unfold scaled. rewrite <-Z.mul_assoc, <-Z.pow_add_r by lia. do 2 f_equal. lia. }
  assert (scaled k b = (b.1 * 2 ^ (b.2 - e)) * 2 ^ (e + k))%Z as ->.
  { unfold scaled. rewrite <-Z.mul_assoc, <-Z.pow_add_r by lia. do 2 f_equal. lia. }
  assert (0 < 2 ^ (e + k))%Z by (apply Z.pow_pos_nonneg; lia).
  apply Bool.eq_true_iff_eq. rewrite !Z.leb_le. nia.
Qed.

(** A scale that suits three doubles. *)
Definition common (a b c : double) : Z := Z.max (- a.2) (Z.max (- b.2) (- c.2)).
Ltac doubles a b c :=
  rewrite ?(dle_scaled (common a b c)) in * by (unfold common; lia).

Lemma dle_refl a : dle a a = true.
Proof. doubles a a a. lia. Qed.
Lemma dle_total a b : dle a b = true ∨ dle b a = true.
Proof. doubles a b b. lia. Qed.
Lemma dle_trans a b c : dle a b = true → dle b c = true → dle a c = true.
Proof. doubles a b c. lia. Qed.
Lemma dlt_false a b : dlt a b = false ↔ dle b a = true.
Proof. unfold dlt. by destruct (dle b a). Qed.
Lemma dle_max_l a b : dle a (dmax a b) = true.
Proof. unfold dmax. destruct (dle b a) eqn:E; [apply dle_refl|]. destruct (dle_total a b); congruence. Qed.
Lemma dle_max_r a b : dle b (dmax a b) = true.
Proof. unfold dmax. destruct (dle b a) eqn:E; [done|apply dle_refl]. Qed.
#[export] Hint Resolve dle_refl dle_max_l dle_max_r : fw.

(** ** [str], [repr] and case folding

    What [str(v)] and [repr(v)] return for the values of [Json], and the parts of
    [str] the evaluation code searches labels with. *)

(** *** [repr] *)

Fixpoint has_char (c : ascii) (s : string) : bool :=
  match s with "" => false | String d s' => Ascii.eqb c d || has_char c s' end.

(** The Latin-1 characters [repr] writes as [\xNN]. *)
Definition unprintable (c : ascii) : bool :=
  let n := N_of_ascii c in ((n <? 32) || ((127 <=? n) && (n <=? 160)) || (n =? 173))%N.

Definition repr_char (quote c : ascii) : string :=
  if Ascii.eqb c quote || Ascii.eqb c bslash then String bslash (String c "")
  else if Ascii.eqb c "010" then String bslash "n"
  else if Ascii.eqb c "013" then String bslash "r"
  else if Ascii.eqb c "009" then String bslash "t"
  else if unprintable c then
    let n := N_of_ascii c in
    String bslash (String "x" (String (hex_digit (n / 16)) (String (hex_digit (n mod 16)) "")))
  else String c "".

Fixpoint repr_chars (quote : ascii) (s : string) : string :=
  match s with "" => "" | String c s' => repr_char quote c +:+ repr_chars quote s' end.

(** Double quotes only around a string with single quotes and no double ones. *)
Definition str_repr (s : string) : string :=
  let quote := if has_char "'" s && negb (has_char dq s) then dq else "'"%char in
  String quote (repr_chars quote s +:+ String quote "").

(** A float keeps the text [json] writes. *)
Definition float_repr (tok : string) : string :=
  if bool_decide (tok = "NaN") then "nan"
  else if bool_decide (tok = "Infinity") then "inf"
  else if bool_decide (tok = "-Infinity") then "-inf" else tok.

Fixpoint val_repr (v : val) : string :=
  match v with
  | VNone => "None"
  | VBool b => if b then "True" else "False"
  | VInt z => int_repr z
  | VFloat tok => float_repr tok
  | VStr s => str_repr s
  | VList l => "[" +:+ str_join ", " (val_repr <$> l) +:+ "]"
  | VDict d =>
      "{" +:+ str_join ", " ((λ kv : val * val, val_repr kv.1 +:+ ": " +:+ val_repr kv.2) <$> d) +:+ "}"
  | VOther t => "<" +:+ t +:+ ">"
  end.

(** [str(v)] *)
Definition val_str (v : val) : string := match v with VStr s => s | v => val_repr v end.

Example val_repr_values :
  val_repr (VList [VStr "it's"; VNone; VBool true; VInt (-3); VFloat "1.5"; VDict [(VStr "a", VStr "b")]])
  = "[" +:+ String dq "it's" +:+ String dq ", None, True, -3, 1.5, {'a': 'b'}]".
Proof. vm_compute. reflexivity. Qed.

(** *** Searching *)

(** [sub in s] *)
Fixpoint str_contains (sub s : string) : bool :=
  startswith s sub || match s with "" => false | String _ s' => str_contains sub s' end.

(** [s.casefold()]: the sharp s becomes two letters; the micro sign, whose folding
    is a Greek letter, is kept. *)
Definition fold_char (c : ascii) : string :=
  let n := N_of_ascii c in
  if ((65 <=? n) && (n <=? 90))%N then String (ascii_of_N (n + 32)) ""
  else if ((192 <=? n) && (n <=? 222) && negb (n =? 215))%N then String (ascii_of_N (n + 32)) ""
  else if (n =? 223)%N then "ss"
  else String c "".
Fixpoint casefold (s : string) : string :=
  match s with "" => "" | String c s' => fold_char c +:+ casefold s' end.

Example casefold_values :
  (casefold "Fault_STIMULUS", str_contains "stimulus" (casefold "poll_Stimulus_x"), str_contains "" "")
  = ("fault_stimulus", true, true).
Proof. vm_compute. reflexivity. Qed.

(** ** Floats as text and as numbers

    [repr] of a double (the shortest decimal that reads back, the closest of them),
    and [float(v)] of the values of [Json]. *)

(** *** The shortest decimal *)

(** The number as a quotient of naturals. *)
Definition double_quotient (d : double) : Z * Z :=
  (Z.abs d.1 * 2 ^ Z.max 0 d.2, 2 ^ Z.max 0 (- d.2))%Z.

(** [c * 10 ^ x] as a quotient *)
Definition decimal_quotient (c x : Z) : Z * Z := (c * 10 ^ Z.max 0 x, 10 ^ Z.max 0 (- x))%Z.

(** The decimal exponent of the leading digit, from an estimate that is at most
    three too low. *)
Fixpoint raise_exponent (n : nat) (num den k : Z) : Z :=
  match n with
  | O => k
  | S n =>
      let '(a, b) := decimal_quotient 1 (k + 1) in
      if (a * den <=? num * b)%Z then raise_exponent n num den (k + 1) else k
  end.
Definition decimal_exponent (num den : Z) : Z :=
  raise_exponent 4 num den ((Z.log2 num - Z.log2 den - 1) * 30103 / 100000 - 1)%Z.

(** Whether [c * 10 ^ x] reads back as the double of [num / den]. *)
Definition reads_as (num den c x : Z) : bool :=
  let '(a, b) := decimal_quotient c x in deq (to_double a b) (to_double num den).

(** The closest decimal with [p] digits that reads back. *)
Definition decimal_at (num den k p : Z) : option (Z * Z) :=
  let x := (k - p + 1)%Z in
  let '(a, b) := decimal_quotient 1 x in
  let lo := (num * b / (den * a))%Z in
  let near_hi := (den * a <? 2 * (num * b - lo * (den * a)))%Z in
  let '(first, second) := if near_hi then (lo + 1, lo)%Z else (lo, lo + 1)%Z in
  if reads_as num den first x then Some (first, x)
  else if reads_as num den second x then Some (second, x) else None.

Fixpoint shortest_from (n : nat) (num den k p : Z) : Z * Z :=
  match n with
  | O => (0, 0)%Z
  | S n => match decimal_at num den k p with Some c => c | None => shortest_from n num den k (p + 1) end
  end.
(** Seventeen digits are always enough. *)
Definition shortest_decimal (num den : Z) : Z * Z :=
  shortest_from 17 num den (decimal_exponent num den) 1.

Fixpoint drop_zeros (n : nat) (c x : Z) : Z * Z :=
  match n with
  | O => (c, x)
  | S n => if (c mod 10 =? 0)%Z then drop_zeros n (c / 10) (x + 1) else (c, x)
  end.

Definition zeros (n : Z) : string := str_join "" (repeat "0" (Z.to_nat n)).

Definition repr_double (d : double) : string :=
  if (d.1 =? 0)%Z then "0.0"
  else
    let '(num, den) := double_quotient d in
    let '(c, x) := shortest_decimal num den in
    let '(c, x) := drop_zeros 20 c x in
    let digits := int_repr c in
    let point := (str_len digits + x)%Z in
    (if (d.1 <? 0)%Z then "-" else "") +:+
    if ((-4 <? point) && (point <=? 16))%Z then
      if (point <=? 0)%Z then "0." +:+ zeros (- point) +:+ digits
      else if (str_len digits <=? point)%Z then digits +:+ zeros (point - str_len digits) +:+ ".0"
      else str_take (Z.to_nat point) digits +:+ "." +:+ str_drop (Z.to_nat point) digits
    else
      let e := (point - 1)%Z in
      let ed := int_repr (Z.abs e) in
      str_take 1 digits +:+ (if (str_len digits =? 1)%Z then "" else "." +:+ str_drop 1 digits) +:+
      "e" +:+ (if (e <? 0)%Z then "-" else "+") +:+ (if (str_len ed =? 1)%Z then "0" else "") +:+ ed.

Example repr_double_values :
  repr_double <$> [dec 1 1; dadd (dec 1 1) (dec 2 1); double_of_int 100; double_of_int (10 ^ 16);
    dec 1 5; dec 1 4; dopp (dec 12345678 6); double_of_int (2 ^ 53 + 1); ddiv (double_of_int 2) (double_of_int 3);
    double_of_int (123456789 * 10 ^ 20)]
  = ["0.1"; "0.30000000000000004"; "100.0"; "1e+16"; "1e-05"; "0.0001"; "-12.345678";
     "9007199254740992.0"; "0.6666666666666666"; "1.23456789e+28"].
Proof. vm_compute. reflexivity. Qed.

(** *** [float(v)] *)

(** The integers and decimals that round below the largest double. *)
Definition overflows (num den : Z) : bool := ((2 ^ 1024 - 2 ^ 970) * den <=? Z.abs num)%Z.

(** [math.isfinite(x)] of a float *)
Definition token_finite (tok : string) : bool :=
  match decimal_parts tok with
  | Some (_, m, e) => let '(num, den) := quotient m e in negb (overflows num den)
  | None => false
  end.

Definition float_of_int (z : Z) : pyres string :=
  if overflows z 1 then Err "OverflowError" else Ok (repr_double (double_of_int z)).

(** [float(s)] of a text without underscores. *)
Definition float_of_str (s : string) : pyres string :=
  let s := strip s in
  let '(neg, body) := match s with String "-" r => (true, r) | String "+" r => (false, r) | _ => (false, s) end in
  let body := str_map (λ c, match String.list_ascii_of_string (fold_char c) with d :: _ => d | [] => c end) body in
  if bool_decide (body ∈ ["inf"; "infinity"]) then Ok (if neg : bool then "-Infinity" else "Infinity")
  else if bool_decide (body = "nan") then Ok "NaN"
  else
    match decimal_parts body with
    | Some (false, m, e) =>
        let '(num, den) := quotient m e in
        let sign := if neg then "-" else "" in
        Ok (sign +:+ if overflows num den then "Infinity" else repr_double (to_double num den))
    | _ => Err "ValueError"
    end.

Definition val_float (v : val) : pyres val :=
  match v with
  | VFloat tok => Ok (VFloat tok)
  | VInt z => let* tok := float_of_int z in Ok (VFloat tok)
  | VBool b => Ok (VFloat (if b then "1.0" else "0.0"))
  | VStr s => let* tok := float_of_str s in Ok (VFloat tok)
  | _ => Err "TypeError"
  end.

(** The finite number [float(v)] is. *)
Definition val_double (v : val) : option double :=
  match v with
  | VFloat tok => if token_finite tok then double_of_token tok else None
  | VInt z => if overflows z 1 then None else Some (double_of_int z)
  | VBool b => Some (double_of_int (Z.b2z b))
  | _ => None
  end.

(** [v == n] for an integer literal [n] *)
Definition equals_int (v : val) (n : Z) : bool :=
  match v with
  | VInt z => (z =? n)%Z
  | VBool b => (Z.b2z b =? n)%Z
  | VFloat tok =>
      match double_of_token tok with Some d => token_finite tok && deq d (double_of_int n) | None => false end
  | _ => false
  end.

Example val_float_values :
  (val_float <$> [VInt 3; VStr " -1.50e2 "; VStr "abc"; VNone; VBool true; VInt (2 ^ 1024)])
  = [Ok (VFloat "3.0"); Ok (VFloat "-150.0"); Err "ValueError"; Err "TypeError"; Ok (VFloat "1.0");
     Err "OverflowError"].
Proof. vm_compute. reflexivity. Qed.

(** ** Numbers and equality as Python compares them

    Floats with infinities and NaN on top of [Double], [==] of JSON documents, and the
    comparisons of dynamic values that may raise. *)

(** *** Floats *)

(** A finite float, or an exact integer that is compared with one. *)
Inductive xnum : Type :=
| XFin (d : double)
| XInf (negative : bool)
| XNaN.

(** The result of an operation, once rounded. *)
Definition x_rounded (d : double) : xnum :=
  if dle (1, 1024)%Z (dabs d) then XInf (d.1 <? 0)%Z else XFin d.

Definition x_of_token (tok : string) : xnum :=
  match double_of_token tok with
  | Some d => if token_finite tok then XFin d else XInf (startswith tok "-")
  | None =>
      if bool_decide (tok = "Infinity") then XInf false
      else if bool_decide (tok = "-Infinity") then XInf true else XNaN
  end.

Definition xle (a b : xnum) : bool :=
  match a, b with
  | XNaN, _ | _, XNaN => false
  | XInf true, _ | _, XInf false => true
  | XInf false, _ | _, XInf true => false
  | XFin a, XFin b => dle a b
  end.
Definition is_nan (a : xnum) : bool := match a with XNaN => true | _ => false end.
Definition xlt (a b : xnum) : bool := negb (is_nan a) && negb (is_nan b) && negb (xle b a).
Definition xeq (a b : xnum) : bool := xle a b && xle b a.

(** [max(a, b)] keeps the first of equals, and the first when they do not compare. *)
Definition xmax (a b : xnum) : xnum := if xlt a b then b else a.

Definition xopp (a : xnum) : xnum :=
  match a with XFin d => XFin (dopp d) | XInf s => XInf (negb s) | XNaN => XNaN end.
Definition xadd (a b : xnum) : xnum :=
  match a, b with
  | XNaN, _ | _, XNaN => XNaN
  | XInf s, XInf s' => if Bool.eqb s s' then XInf s else XNaN
  | XInf s, _ | _, XInf s => XInf s
  | XFin a, XFin b => x_rounded (dadd a b)
  end.
Definition xsub (a b : xnum) : xnum := xadd a (xopp b).
Definition xmul (a b : xnum) : xnum :=
  let by_inf (s : bool) (d : double) :=
    if (d.1 =? 0)%Z then XNaN else XInf (xorb s (d.1 <? 0)%Z) in
  match a, b with
  | XNaN, _ | _, XNaN => XNaN
  | XInf s, XInf s' => XInf (xorb s s')
  | XInf s, XFin d | XFin d, XInf s => by_inf s d
  | XFin a, XFin b => x_rounded (dmul a b)
  end.

Lemma xle_refl a : xle a a = negb (is_nan a).
Proof. destruct a as [d|[]|]; [apply dle_refl|done..]. Qed.
Lemma xle_max_l a b : is_nan a = false → xle a (xmax a b) = true.
Proof.
  intros Ha. unfold xmax, xlt. rewrite Ha. destruct (is_nan b) eqn:Eb; cbn [negb andb].
  - by rewrite xle_refl, Ha.
  - destruct (xle b a) eqn:E; cbn [negb]; [by rewrite xle_refl, Ha|].
    destruct a as [da|[]|], b as [db|[]|]; try done. cbn in *. destruct (dle_total da db) as [?|?]; congruence.
Qed.
Lemma xle_max_r a b : is_nan a = false → is_nan b = false → xle b (xmax a b) = true.
Proof.
  intros Ha Hb. unfold xmax, xlt. rewrite Ha, Hb. cbn [negb andb].
  destruct (xle b a) eqn:E; cbn [negb]; [done|]. by rewrite xle_refl, Hb.
Qed.
Lemma xle_trans a b c : xle a b = true → xle b c = true → xle a c = true.
Proof.
  destruct a as [da|[]|], b as [db|[]|], c as [dc|[]|]; try done. apply dle_trans.
Qed.

(** *** Values *)

(** The number a value is, exactly. *)
Definition val_num (v : val) : option xnum :=
  match v with
  | VInt z => Some (XFin (z, 0%Z))
  | VBool b => Some (XFin (Z.b2z b, 0%Z))
  | VFloat tok => Some (x_of_token tok)
  | _ => None
  end.

(** [float(v)] *)
Definition val_xfloat (v : val) : pyres xnum :=
  match v with
  | VFloat tok => Ok (x_of_token tok)
  | VInt z => if overflows z 1 then Err "OverflowError" else Ok (XFin (double_of_int z))
  | VBool b => Ok (XFin (double_of_int (Z.b2z b)))
  | VStr s => let* tok := float_of_str s in Ok (x_of_token tok)
  | _ => Err "TypeError"
  end.

(** [v * x] of a float [x] *)
Definition val_times (v : val) (x : xnum) : pyres xnum :=
  match v with
  | VInt _ | VBool _ | VFloat _ => let* f := val_xfloat v in Ok (xmul f x)
  | _ => Err "TypeError"
  end.

(** [v == w] of JSON documents, whose mappings have strings as keys.  Two values are
    compared as if they were different objects: NaN is equal to nothing. *)
Fixpoint py_eq (v w : val) {struct v} : bool :=
  match v, w with
  | VNone, VNone => true
  | VStr s, VStr s' => bool_decide (s = s')
  | VList l, VList l' =>
      (fix go (l l' : list val) : bool :=
         match l, l' with
         | [], [] => true
         | x :: l, y :: l' => py_eq x y && go l l'
         | _, _ => false
         end) l l'
  | VDict d, VDict d' =>
      bool_decide (length d = length d') &&
      forallb (λ kv : val * val,
        match kv.1 with
        | VStr k => match dfind k d' with Some w => py_eq kv.2 w | None => false end
        | _ => false
        end) d
  | v, w => match val_num v, val_num w with Some a, Some b => xeq a b | _, _ => false end
  end.

(** [v > w] *)
Fixpoint val_gt (v w : val) {struct v} : pyres bool :=
  match v, w with
  | VStr s, VStr s' => Ok (negb (str_le s s'))
  | VList l, VList l' =>
      (fix go (l l' : list val) : pyres bool :=
         match l, l' with
         | [], _ => Ok false
         | _ :: _, [] => Ok true
         | x :: l, y :: l' => if py_eq x y then go l l' else val_gt x y
         end) l l'
  | v, w =>
      match val_num v, val_num w with Some a, Some b => Ok (xlt b a) | _, _ => Err "TypeError" end
  end.
(** [v >= x] of a float [x] *)
Definition val_ge (v : val) (x : xnum) : pyres bool :=
  match val_num v with Some a => Ok (xle x a) | None => Err "TypeError" end.

(** [k in v] of a string [k] *)
Definition val_contains (k : string) (v : val) : pyres bool :=
  match v with
  | VDict d => Ok (match dfind k d with Some _ => true | None => false end)
  | VList l => Ok (existsb (λ x, val_is x k) l)
  | VStr s => Ok (str_contains k s)
  | _ => Err "TypeError"
  end.

Example comparisons :
  (py_eq (VInt 1) (VBool true), py_eq (VInt 1) (VFloat "1.0"), py_eq (VFloat "NaN") (VFloat "NaN"),
   py_eq (VInt (2 ^ 53 + 1)) (VFloat "9007199254740992.0"),
   py_eq (sdict [("a", VInt 1); ("b", VNone)]) (sdict [("b", VNone); ("a", VInt 1)]),
   val_gt (VList [VInt 1; VInt 3]) (VList [VInt 1; VInt 2]), val_gt VNone (VInt 1),
   xmul (XInf false) (XFin dzero), xeq (xsub (XFin (3, 0)%Z) (XFin (1, 0)%Z)) (XFin (2, 0)%Z))
  = (true, true, false, false, true, Ok true, Err "TypeError", XNaN, true).
Proof. vm_compute. reflexivity. Qed.
