(* ===== verification/Latency.v ===== *)
(** * Wall-clock reconciliation: [reconcile_wall_time] of [observability/sanitizer.py]

    The spans of a trace as intervals of microseconds, merged where they overlap;
    their total in milliseconds against the wall clock's.  The arithmetic after the
    merge is done in doubles, written out here with one rounding per operation. *)
From S2P Require Import Prelude Json PyDyn PyCalendar PyFloat Sanitizer Exporters.

(** [delta.total_seconds() * 1000] of a difference in microseconds *)
Definition milliseconds (us : Z) : double := dmul (to_double us MICRO) (1000, 0)%Z.

(** ** Merging *)

Abbreviation interval := (Z * Z)%type.
(** The order of tuples of datetimes. *)
Definition interval_le (a b : interval) : bool :=
  ((a.1 <? b.1) || ((a.1 =? b.1) && (a.2 <=? b.2)))%Z.

(** The loop over the sorted intervals; [merged] is kept last first. *)
Definition merge_step (merged : list interval) (i : interval) : list interval :=
  match merged with
  | [] => [i]
  | (start, last) :: rest =>
      if (last <? i.1)%Z then i :: merged else (start, Z.max last i.2) :: rest
  end.
Definition merge_intervals (intervals : list interval) : list interval :=
  rev (foldl merge_step [] (sort_by interval_le intervals)).

Definition span_interval (s : SanitizedSpan) : pyres interval :=
  let* start := read_time (ss_started_at s) in let* last := read_time (ss_ended_at s) in Ok (start, last).

(** ** [reconcile_wall_time] *)

Record LatencyReconciliation := {
  wall_duration_ms : double; trace_union_ms : double; difference_ms : double; tolerance_ms : double;
  passed : bool;
}.

(** A wall time is its instant, and whether it is timezone aware. *)
Definition reconcile_wall_time (t : SanitizedTrace) (wall_started wall_ended : Z * bool) :
    pyres LatencyReconciliation :=
  raise_if negb (wall_started.2 && wall_ended.2) with_ "ValueError";;
  raise_if (wall_ended.1 <? wall_started.1)%Z with_ "ValueError";;
  let* intervals := rmapM span_interval (st_spans t) in
  let merged := merge_intervals intervals in
  let trace := double_sum ((λ i : interval, milliseconds (i.2 - i.1)) <$> merged) in
  let wall := milliseconds (wall_ended.1 - wall_started.1) in
  let difference := dabs (dsub wall trace) in
  let tolerance := dmax (50, 0)%Z (dmul wall (to_double 5 100)) in
  Ok {| wall_duration_ms := wall; trace_union_ms := trace; difference_ms := difference; tolerance_ms := tolerance;
        passed := dle difference tolerance |}.

Example merge_values :
  merge_intervals [(5, 7); (0, 3); (2, 4); (4, 5); (9, 9)]%Z = [(0, 7); (9, 9)]%Z.
Proof. reflexivity. Qed.

(** 1.234567 s, a microsecond and a day in milliseconds, and the sum of the three. *)
Example millisecond_values :
  (milliseconds 1234567%Z, milliseconds 1%Z,
   double_sum (milliseconds <$> [1234567%Z; 1%Z; 86400000001%Z]))
  = ((5429683087074132, -42), (4611686018427388, -62), (5798288700123119, -26))%Z.
Proof. vm_compute. reflexivity. Qed.

(** ** The merge *)

(** The instants the intervals cover. *)
Definition covered (intervals : list interval) (x : Z) : Prop :=
  ∃ i, i ∈ intervals ∧ (i.1 <= x <= i.2)%Z.
(** Later intervals begin after earlier ones end. *)
Definition separated (intervals : list interval) : Prop :=
  StronglySorted (λ a b : interval, (a.2 < b.1)%Z) intervals.

Lemma interval_le_total a b : interval_le a b = true ∨ interval_le b a = true.
Proof. unfold interval_le. destruct a, b; cbn. repeat case_match; lia. Qed.
Lemma interval_le_trans a b c : interval_le a b = true → interval_le b c = true → interval_le a c = true.
Proof.
  unfold interval_le. rewrite !orb_true_iff, !andb_true_iff, !Z.ltb_lt, !Z.eqb_eq, !Z.leb_le. lia.
Qed.
Lemma interval_le_start a b : interval_le a b = true → (a.1 <= b.1)%Z.
Proof. unfold interval_le. rewrite orb_true_iff, andb_true_iff, Z.ltb_lt, Z.eqb_eq. lia. Qed.

(** The reverse of [separated], for the list kept last first. *)
Definition separated_back (merged : list interval) : Prop :=
  StronglySorted (λ a b : interval, (b.2 < a.1)%Z) merged.

Lemma merge_step_inv merged (i : interval) :
  separated_back merged → (∀ a, a ∈ merged → (a.1 <= i.1)%Z) →
  separated_back (merge_step merged i) ∧ (∀ a, a ∈ merge_step merged i → (a.1 <= i.1)%Z) ∧
  ∀ x, covered (merge_step merged i) x ↔ covered merged x ∨ (i.1 <= x <= i.2)%Z.
Proof.
  intros Hs Hb. destruct merged as [|[start last] rest]; cbn [merge_step].
  - split_and!; [by repeat constructor|by intros a ->%list_elem_of_singleton|].
    intros x. unfold covered. setoid_rewrite elem_of_nil. setoid_rewrite list_elem_of_singleton. naive_solver.
  - apply StronglySorted_inv in Hs as [Hs Hall]. rewrite Forall_forall in Hall. cbn [fst] in Hall.
    pose proof (Hb (start, last) ltac:(left)) as Hstart. cbn [fst] in Hstart.
    destruct (Z.ltb_spec last i.1) as [Hlt|Hge].
    + split_and!.
      * constructor; [by constructor; [|apply Forall_forall]|]. apply Forall_forall.
        intros a [->|Ha]%elem_of_cons; [done|]. specialize (Hall a Ha). cbn in *. lia.
      * intros a [->|Ha]%elem_of_cons; [done|by apply Hb].
      * intros x. unfold covered. setoid_rewrite (elem_of_cons (_ :: _)). naive_solver.
    + split_and!.
      * by constructor; [|apply Forall_forall].
      * intros a [->|Ha]%elem_of_cons; [done|]. apply Hb. by right.
      * intros x. unfold covered. split.
        { intros (a & [->|Ha]%elem_of_cons & Hx); [|left; exists a; split; [by right|done]]. cbn [fst snd] in Hx.
          destruct (Z.le_gt_cases x last); [left; exists (start, last); split; [left|cbn; lia]|right; lia]. }
        intros [(a & [->|Ha]%elem_of_cons & Hx)|Hx].
        { exists (start, Z.max last i.2). split; [left|cbn in *; lia]. }
        { exists a. split; [by right|done]. }
        exists (start, Z.max last i.2). split; [left|cbn; lia].
Qed.

Lemma merge_fold l : ∀ merged,
  StronglySorted (λ a b, interval_le a b = true) l →
  separated_back merged → (∀ a b, a ∈ merged → b ∈ l → (a.1 <= b.1)%Z) →
  separated_back (foldl merge_step merged l) ∧
  ∀ x, covered (foldl merge_step merged l) x ↔ covered merged x ∨ covered l x.
Proof.
  induction l as [|i l IH]; intros merged Hl Hs Hb; cbn [foldl].
  - split; [done|]. intros x. unfold covered at 3. setoid_rewrite elem_of_nil. naive_solver.
  - apply StronglySorted_inv in Hl as [Hl Hall]. rewrite Forall_forall in Hall.
    destruct (merge_step_inv merged i Hs) as (Hs' & Hb' & Hc'); [intros a Ha; apply Hb; [done|left]|].
    destruct (IH (merge_step merged i) Hl Hs') as [Hs2 Hc2].
    { intros a b Ha Hin. pose proof (Hb' a Ha). pose proof (interval_le_start _ _ (Hall b Hin)). lia. }
    split; [done|]. intros x. rewrite Hc2, Hc'. unfold covered at 4. setoid_rewrite elem_of_cons. unfold covered. naive_solver.
Qed.

Lemma elem_of_rev {A} (x : A) l : x ∈ rev l ↔ x ∈ l.
Proof. rewrite !list_elem_of_In. symmetry. apply in_rev. Qed.

Lemma separated_rev l : separated_back l → separated (rev l).
Proof.
  induction 1 as [|a l Hs IH Hall]; [constructor|]. cbn [rev]. revert IH.
  assert (∀ b, b ∈ rev l → (b.2 < a.1)%Z) as Hb.
  { intros b Hb. rewrite Forall_forall in Hall. apply Hall. by apply elem_of_rev. }
  induction (rev l) as [|b k IHk]; intros Hk; [by repeat constructor|].
  apply StronglySorted_inv in Hk as [Hk Hbk]. cbn. constructor.
  - apply IHk; [|done]. intros b' Hb'. apply Hb. by right.
  - apply Forall_app. split; [done|]. constructor; [|done]. apply Hb. left.
Qed.

(** The merged intervals cover exactly the instants the spans cover, and no
    two of them touch: each begins after every earlier one ended, so adding up
    their lengths counts every covered stretch once. *)
Theorem merged_intervals_are_the_union intervals :
  separated (merge_intervals intervals) ∧
  ∀ x, covered (merge_intervals intervals) x ↔ covered intervals x.
Proof.
  unfold merge_intervals.
  destruct (merge_fold (sort_by interval_le intervals) []) as [Hs Hc].
  - apply sort_by_sorted; [apply interval_le_total|apply interval_le_trans].
  - constructor.
  - by intros a b ?%elem_of_nil.
  - split; [by apply separated_rev|]. intros x. unfold covered in *.
    setoid_rewrite sort_by_elem in Hc. split.
    + intros (i & Hi & Hx). assert (∃ i, i ∈ foldl merge_step [] (sort_by interval_le intervals) ∧ (i.1 <= x <= i.2)%Z) as H.
      { exists i. split; [|done]. by apply elem_of_rev. }
      apply Hc in H as [(? & ?%elem_of_nil & _)|H]; [done|exact H].
    + intros H. destruct (proj2 (Hc x) (or_intror H)) as (i & Hi & Hx). exists i. split; [|done].
      by apply elem_of_rev.
Qed.
