(* ===== verification/Packet.v ===== *)
(** * Observation packets of metric version 3

    [faultwitness_dev/g03_readiness.py]: what the collector measured in seven windows
    becomes one public packet of six evidence groups, the same for every fault; its
    validation; the sealed ground truth of a case.  Packets are JSON values. *)
From Stdlib Require Import Ascii.
From S2P Require Import Prelude Json JsonFacts Sha256 PyDyn PyFloat.

(** [InfrastructureFailure] and [DatasetIncompleteError] are [GovernanceError]s; the
    other exceptions are Python's, by the name of their type. *)
Inductive readiness_exn : Type :=
| RGovernance (message : string)
| RIncomplete (reason : string)
| RInfra (message : string)
| RPython (type_name : string).
Abbreviation R := (result readiness_exn).

Definition py {A} (r : pyres A) : R A := rmap_err RPython r.

Definition is_governance (e : readiness_exn) : bool :=
  match e with RPython _ => false | _ => true end.
(** [str(error)] *)
Definition exn_text (e : readiness_exn) : string :=
  match e with
  | RGovernance m | RInfra m | RPython m => m
  | RIncomplete reason => "dataset_incomplete: " +:+ reason
  end.

(** ** The frozen tables *)

Definition METRIC_VERSION : Z := 3.
Definition WIRE_SCHEMA_VERSION : string := "2.0.0".

Definition require_v3_metric_version (metric_version : Z) : R unit :=
  raise_if negb (metric_version =? METRIC_VERSION)%Z
    with_ RGovernance ("unsupported G03 readiness metric version: " +:+ int_repr metric_version);;
  Ok tt.
Definition wire_schema_for_v3 (metric_version : Z) : R string :=
  let* _ := require_v3_metric_version metric_version in Ok WIRE_SCHEMA_VERSION.

Definition ROOT_CAUSE_LABELS : list string :=
  ["productCatalogFailure"; "adHighCpu"; "emailMemoryLeak"; "paymentFailure"; "paymentUnreachable";
   "kafkaQueueProblems"].
Definition EVIDENCE_KINDS : list string :=
  ["journey_window"; "trace_activity"; "trace_errors"; "cpu_window"; "memory_window"; "queue_window"].
Definition V3_TRACE_QUERY_SERVICES : list string :=
  ["ad"; "checkout"; "email"; "fraud-detection"; "payment"; "product-catalog"; "cart"; "frontend";
   "recommendation"].

Definition GROUP_FIELDS (kind : string) : list string :=
  if bool_decide (kind = "journey_window") then ["id"; "kind"; "source"; "samples"]
  else if bool_decide (kind ∈ ["trace_activity"; "trace_errors"]) then
    ["id"; "kind"; "source"; "service_scope"; "samples"]
  else ["id"; "kind"; "source"; "service"; "metric"; "unit"; "samples"].
Definition GROUP_SAMPLE_FIELDS (kind : string) : list string :=
  if bool_decide (kind = "journey_window") then ["window_index"; "ready"; "status_code"]
  else if bool_decide (kind ∈ ["trace_activity"; "trace_errors"]) then ["window_index"; "services"]
  else if bool_decide (kind = "cpu_window") then ["window_index"; "cpu_cores"]
  else if bool_decide (kind = "memory_window") then ["window_index"; "working_set_bytes"]
  else ["window_index"; "consumer_lag"; "consumer_poll_lag_seconds"; "consumer_record_lag"].

Definition HEALTHY_WINDOW_COUNT : nat := 5.
Definition FAULT_WINDOW_COUNT : nat := 2.

(** [REQUIRED_KINDS.get(label)] *)
Definition REQUIRED_KINDS (label : string) : option (list string) :=
  if bool_decide (label ∈ ["productCatalogFailure"; "paymentFailure"; "paymentUnreachable"]) then
    Some ["trace_activity"; "trace_errors"]
  else if bool_decide (label = "adHighCpu") then Some ["trace_activity"; "cpu_window"]
  else if bool_decide (label = "emailMemoryLeak") then Some ["trace_activity"; "memory_window"]
  else if bool_decide (label = "kafkaQueueProblems") then Some ["trace_activity"; "queue_window"]
  else None.

Definition FORBIDDEN_PUBLIC_KEYS : list string :=
  ["answer"; "checkout_failed"; "connection_error"; "correlated_error"; "correlated_span"; "fault_action";
   "fault_class"; "fault_stimulus"; "ground_truth"; "ground_truth_ref"; "journey_failed"; "kafka_error";
   "kafka_fault_log"; "kafka_log_error"; "locked_test"; "payment_error"; "sealed_truth"].

(** ** Helpers *)

(** [set(d) == set(ks)] *)
Definition keys_are (ks : list string) (d : mapping) : bool :=
  forallb key_is_str d && forallb (λ k, bool_decide (k ∈ ks)) (dict_keys d) &&
  forallb (λ k, bool_decide (k ∈ dict_keys d)) ks.

(** [v == list(ks)] of strings *)
Fixpoint strings_are (l : list val) (ks : list string) : bool :=
  match l, ks with
  | [], [] => true
  | v :: l', k :: ks' => val_is v k && strings_are l' ks'
  | _, _ => false
  end.
(** [l == [0, 1, ...]] *)
Fixpoint indices_are (l : list val) (n : Z) : bool :=
  match l with [] => true | v :: l' => equals_int v n && indices_are l' (n + 1) end.

(** [all(p(x) for x in xs)] where [p] may raise *)
Fixpoint rall {A} (p : A → R bool) (xs : list A) : R bool :=
  match xs with
  | [] => Ok true
  | x :: xs' => let* b := p x in if b : bool then rall p xs' else Ok false
  end.
Fixpoint rfor {A} (p : A → R unit) (xs : list A) : R unit :=
  match xs with [] => Ok tt | x :: xs' => let* _ := p x in rfor p xs' end.

Definition has_key (k : string) (d : mapping) : bool :=
  match dfind k d with Some _ => true | None => false end.
Definition is_none (v : val) : bool := match v with VNone => true | _ => false end.
Definition as_dict (v : val) : option mapping := match v with VDict d => Some d | _ => None end.

(** [_json_copy] and [_digest_json] *)
Definition json_copy (v : val) : R val :=
  match dumps canonical_style v with
  | Some _ => Ok (printed canonical_style v)
  | None => Err (RPython "TypeError")
  end.
Definition digest_json (v : val) : R string :=
  match dumps canonical_style v with
  | Some text => Ok (sha256_hex text)
  | None => Err (RPython "TypeError")
  end.

(** [_walk_forbidden], in the order of the walk *)
Definition forbidden_name (name : string) : bool :=
  bool_decide (name ∈ FORBIDDEN_PUBLIC_KEYS) || str_contains "stimulus" (casefold name).
Fixpoint walk_forbidden (v : val) : list string :=
  match v with
  | VDict d =>
      concat ((λ kv : val * val,
        (if forbidden_name (val_str kv.1) then [val_str kv.1] else []) ++ walk_forbidden kv.2) <$> d)
  | VList l => concat (walk_forbidden <$> l)
  | _ => []
  end.

(** [_finite_measurement]: [float] of an integer may overflow. *)
Definition finite_measurement (v : val) : R bool :=
  match v with
  | VInt z => if overflows z 1 then Err (RPython "OverflowError") else Ok true
  | VFloat tok => Ok (token_finite tok)
  | _ => Ok false
  end.

Definition evidence_id_v3 (case_id kind : string) : R string :=
  raise_if negb (bool_decide (kind ∈ EVIDENCE_KINDS))
    with_ RGovernance ("metric v3 received an unknown evidence kind: " +:+ kind);;
  let nul := String "000" "" in
  Ok ("ev3-" +:+ str_take 24
        (sha256_hex (utf8 (case_id +:+ nul +:+ int_repr METRIC_VERSION +:+ nul +:+ kind)))).

(** ** Building a packet *)

Definition required_measurements : list string :=
  ["recorded_at"; "ready"; "journey_status"; "cpu_rate"; "working_set"; "consumer_lag"; "consumer_record_lag";
   "consumer_poll_lag_seconds"; "trace_activity"; "trace_errors"].
Definition series_measurements : list string :=
  ["cpu_rate"; "working_set"; "consumer_lag"; "consumer_record_lag"; "consumer_poll_lag_seconds"].

(** One window: its phase and its projections. *)
Record public_window := {
  phase : string;
  pw_recorded_at : string;
  pw_ready : bool;
  journey_status : Z;
  cpu_cores : val;
  working_set_bytes : val;
  consumer_lag : val;
  consumer_record_lag : val;
  consumer_poll_lag_seconds : val;
  trace_activity : list (string * Z);
  trace_errors : list (string * val);
}.

Definition public_error (item : val) : R val :=
  match item with
  | VDict d =>
      match dget "descriptions" d with
      | VList descriptions =>
          let* connection_errors := py (val_int (default (VInt 0) (dfind "connection_error_count" d))) in
          let* errors := py (val_int (default (VInt 0) (dfind "error_count" d))) in
          Ok (sdict [("connection_error_count", VInt connection_errors);
                     ("descriptions", VList ((λ v, VStr (val_str v)) <$> descriptions));
                     ("error_count", VInt errors)])
      | _ => Err (RIncomplete "metric v3 trace error descriptions are not a list")
      end
  | _ => Err (RIncomplete "metric v3 trace error measurement is not an object")
  end.

Definition of_services (v : val) : option mapping :=
  match v with VDict d => if keys_are V3_TRACE_QUERY_SERVICES d then Some d else None | _ => None end.

Definition public_window_of (sample : mapping) (window : string) : R public_window :=
  raise_if negb (bool_decide (window ∈ ["healthy"; "fault"]))
    with_ RIncomplete "metric v3 window has an invalid phase";;
  let missing := sort_strings (List.filter (λ k, negb (has_key k sample)) required_measurements) in
  raise_if negb (bool_decide (missing = []))
    with_ RIncomplete ("metric v3 collector omitted public measurements: " +:+ str_join ", " missing);;
  let absent := sort_strings (List.filter (λ k, is_none (dget k sample)) series_measurements) in
  raise_if negb (bool_decide (absent = []))
    with_ RInfra ("metric v3 collector reported absent Prometheus series: " +:+ str_join ", " absent);;
  let* activity := from_option_or (RIncomplete "metric v3 trace activity does not cover the fixed service set")
                     (of_services (dget "trace_activity" sample)) in
  let* errors := from_option_or (RIncomplete "metric v3 trace errors do not cover the fixed service set")
                   (of_services (dget "trace_errors" sample)) in
  let* public_errors := rmapM (λ service,
      let* item := public_error (dget service errors) in Ok (service, item)) V3_TRACE_QUERY_SERVICES in
  let* status := py (val_int (dget "journey_status" sample)) in
  let* cpu := py (val_float (dget "cpu_rate" sample)) in
  let* memory := py (val_float (dget "working_set" sample)) in
  let* lag := py (val_float (dget "consumer_lag" sample)) in
  let* record_lag := py (val_float (dget "consumer_record_lag" sample)) in
  let* poll_lag := py (val_float (dget "consumer_poll_lag_seconds" sample)) in
  let* public_activity := rmapM (λ service,
      let* n := py (val_int (dget service activity)) in Ok (service, n)) V3_TRACE_QUERY_SERVICES in
  Ok {| phase := window; pw_recorded_at := val_str (dget "recorded_at" sample);
        pw_ready := val_truthy (dget "ready" sample); journey_status := status; cpu_cores := cpu;
        working_set_bytes := memory; consumer_lag := lag; consumer_record_lag := record_lag;
        consumer_poll_lag_seconds := poll_lag; trace_activity := public_activity;
        trace_errors := public_errors |}.

(** One evidence group: its description, and one sample for each window. *)
Definition numbered {A} (xs : list A) : list (Z * A) := zip (Z.of_nat <$> seq 0 (length xs)) xs.
Definition group (id kind source : string) (description : list (string * val))
    (fields : public_window → list (string * val)) (windows : list public_window) : val :=
  sdict ([("id", VStr id); ("kind", VStr kind); ("source", VStr source)] ++ description ++
    [("samples", VList ((λ iw, sdict (("window_index", VInt iw.1) :: fields iw.2)) <$> numbered windows))]).

Definition service_scope : list (string * val) :=
  [("service_scope", VList (VStr <$> V3_TRACE_QUERY_SERVICES))].
Definition series (service metric unit : string) : list (string * val) :=
  [("service", VStr service); ("metric", VStr metric); ("unit", VStr unit)].

(** What each group shows of a window. *)
Definition journey_fields (w : public_window) : list (string * val) :=
  [("ready", VBool (pw_ready w)); ("status_code", VInt (journey_status w))].
Definition activity_fields (w : public_window) : list (string * val) :=
  [("services", sdict ((λ sn, (sn.1, sdict [("trace_count", VInt sn.2)])) <$> trace_activity w))].
Definition error_fields (w : public_window) : list (string * val) := [("services", sdict (trace_errors w))].
Definition cpu_fields (w : public_window) : list (string * val) := [("cpu_cores", cpu_cores w)].
Definition memory_fields (w : public_window) : list (string * val) := [("working_set_bytes", working_set_bytes w)].
Definition queue_fields (w : public_window) : list (string * val) :=
  [("consumer_lag", consumer_lag w); ("consumer_poll_lag_seconds", consumer_poll_lag_seconds w);
   ("consumer_record_lag", consumer_record_lag w)].

Definition evidence_groups (case_id : string) (windows : list public_window) : R (list val) :=
  let* journey := evidence_id_v3 case_id "journey_window" in
  let* activity := evidence_id_v3 case_id "trace_activity" in
  let* errors := evidence_id_v3 case_id "trace_errors" in
  let* cpu := evidence_id_v3 case_id "cpu_window" in
  let* memory := evidence_id_v3 case_id "memory_window" in
  let* queue := evidence_id_v3 case_id "queue_window" in
  Ok [group journey "journey_window" "frontend-proxy" [] journey_fields windows;
      group activity "trace_activity" "jaeger" service_scope activity_fields windows;
      group errors "trace_errors" "jaeger" service_scope error_fields windows;
      group cpu "cpu_window" "prometheus" (series "ad" "container_cpu_usage_rate" "cpu_cores") cpu_fields windows;
      group memory "memory_window" "prometheus" (series "email" "container_memory_working_set" "bytes")
        memory_fields windows;
      group queue "queue_window" "prometheus" (series "fraud-detection" "consumer_poll_lag" "seconds")
        queue_fields windows].

Definition window_entries (windows : list public_window) : val :=
  VList ((λ iw, sdict [("index", VInt iw.1); ("phase", VStr (phase iw.2));
                       ("recorded_at", VStr (pw_recorded_at iw.2))]) <$> numbered windows).

Definition packet_subject (case_id brief : string) (windows groups : val) : list (string * val) :=
  [("schema_version", VStr WIRE_SCHEMA_VERSION); ("metric_version", VInt METRIC_VERSION);
   ("case_id", VStr case_id); ("problem_brief", VStr brief);
   ("evidence_catalog_version", VStr "g03-readiness-v3"); ("windows", windows); ("observations", groups)].

(** ** Validation *)

(** [item] of [packet["windows"]] *)
Definition window_entry_ok (v : val) : bool :=
  match v with
  | VDict d =>
      keys_are ["index"; "phase"; "recorded_at"] d &&
      match dget "recorded_at" d with VStr s => truthy s | _ => false end
  | _ => false
  end.
Definition windows_ok (v : val) : bool :=
  match v with
  | VList ws =>
      let ds := omap as_dict ws in
      bool_decide (length ws = 7%nat) && indices_are (dget "index" <$> ds) 0 &&
      bool_decide (length ds = 7%nat) &&
      strings_are (dget "phase" <$> ds) (repeat "healthy" 5 ++ repeat "fault" 2) &&
      forallb window_entry_ok ws
  | _ => false
  end.

(** A service of a [trace_activity] or [trace_errors] sample *)
Definition service_measurement_ok (kind : string) (d : mapping) : R bool :=
  if bool_decide (kind = "trace_activity") then
    if keys_are ["trace_count"] d then finite_measurement (dget "trace_count" d) else Ok false
  else if keys_are ["connection_error_count"; "descriptions"; "error_count"] d then
    let* c := finite_measurement (dget "connection_error_count" d) in
    if negb c then Ok false else
    let* e := finite_measurement (dget "error_count" d) in
    if negb e then Ok false else
    Ok (match dget "descriptions" d with
        | VList l => forallb (λ v, match v with VStr _ => true | _ => false end) l
        | _ => false
        end)
  else Ok false.

Definition validate_services (kind : string) (sample : mapping) : R unit :=
  match dget "services" sample with
  | VDict services =>
      raise_if negb (keys_are V3_TRACE_QUERY_SERVICES services)
        with_ RIncomplete ("metric v3 " +:+ kind +:+ " sample service set drifted");;
      rfor (λ service,
        match dget service services with
        | VDict measurement =>
            let* valid := service_measurement_ok kind measurement in
            raise_if negb valid with_ RIncomplete ("metric v3 " +:+ kind +:+ " service fields drifted");; Ok tt
        | _ => Err (RIncomplete ("metric v3 " +:+ kind +:+ " service measurement is not an object"))
        end) V3_TRACE_QUERY_SERVICES
  | _ => Err (RIncomplete ("metric v3 " +:+ kind +:+ " sample service set drifted"))
  end.

Definition journey_sample_ok (sample : mapping) : bool :=
  match dget "ready" sample, dget "status_code" sample with VBool _, VInt _ => true | _, _ => false end.

(** The measurements of the samples of one group *)
Definition validate_samples (kind : string) (item : mapping) (samples : list mapping) : R unit :=
  if bool_decide (kind = "journey_window") then
    raise_if negb (forallb journey_sample_ok samples)
      with_ RIncomplete "metric v3 journey samples contain invalid measurements";; Ok tt
  else if bool_decide (kind ∈ ["trace_activity"; "trace_errors"]) then
    raise_if negb (match dget "service_scope" item with
                   | VList l => strings_are l V3_TRACE_QUERY_SERVICES
                   | _ => false
                   end) with_ RIncomplete ("metric v3 " +:+ kind +:+ " service scope drifted");;
    rfor (validate_services kind) samples
  else
    let* valid := rall (λ sample, rall (λ field, finite_measurement (dget field sample))
                          (tail (GROUP_SAMPLE_FIELDS kind))) samples in
    raise_if negb valid with_ RIncomplete ("metric v3 " +:+ kind +:+ " samples contain invalid measurements");;
    Ok tt.

(** The strings [kind] of the groups; a kind that is no string is none of the six. *)
Definition kind_of (d : mapping) : string := match dget "kind" d with VStr s => s | _ => "" end.

Definition validate_group (case_id : string) (v : val) : R unit :=
  match v with
  | VDict item =>
      let kind := kind_of item in
      raise_if negb (keys_are (GROUP_FIELDS kind) item)
        with_ RIncomplete ("metric v3 evidence group fields drifted for " +:+ kind);;
      let* id := evidence_id_v3 case_id kind in
      raise_if negb (val_is (dget "id" item) id)
        with_ RGovernance "metric v3 evidence ID is not kind-derived and opaque";;
      match dget "samples" item with
      | VList samples =>
          raise_if negb (bool_decide (length samples = 7%nat))
            with_ RIncomplete "metric v3 evidence group must contain seven real samples";;
          let ds := omap as_dict samples in
          raise_if negb (bool_decide (length ds = 7%nat) && forallb (keys_are (GROUP_SAMPLE_FIELDS kind)) ds)
            with_ RIncomplete ("metric v3 evidence sample fields drifted for " +:+ kind);;
          raise_if negb (indices_are (dget "window_index" <$> ds) 0)
            with_ RIncomplete "metric v3 evidence samples do not cover all seven windows";;
          validate_samples kind item ds
      | _ => Err (RIncomplete "metric v3 evidence group must contain seven real samples")
      end
  | _ => Err (RIncomplete "metric v3 evidence group is not an object")
  end.

Definition top_level_fields : list string :=
  ["schema_version"; "metric_version"; "case_id"; "problem_brief"; "evidence_catalog_version"; "windows";
   "observations"; "packet_digest"].

(** [{key: value for key, value in packet.items() if key != "packet_digest"}] *)
Definition without_digest (packet : mapping) : mapping :=
  List.filter (λ kv, negb (is_key "packet_digest" kv.1)) packet.
Definition copied_items (d : mapping) : R mapping :=
  rmapM (λ kv : val * val, let* v := json_copy kv.2 in Ok (kv.1, v)) d.

Definition validate_observation_packet_v3 (packet : mapping) : R val :=
  raise_if negb (keys_are top_level_fields packet)
    with_ RIncomplete "metric v3 public packet top-level shape drifted";;
  raise_if negb (val_is (dget "schema_version" packet) WIRE_SCHEMA_VERSION)
    with_ RIncomplete "metric v3 wire schema version drifted";;
  raise_if negb (equals_int (dget "metric_version" packet) METRIC_VERSION)
    with_ RIncomplete "metric v3 semantic version drifted";;
  raise_if negb (windows_ok (dget "windows" packet))
    with_ RIncomplete "metric v3 packet window registry is incomplete";;
  match dget "observations" packet with
  | VList observations =>
      raise_if negb (bool_decide (length observations = 6%nat))
        with_ RIncomplete "metric v3 packet must contain exactly six evidence groups";;
      let kinds := kind_of <$> omap as_dict observations in
      raise_if negb (bool_decide (length kinds = 6%nat) && forallb (λ k, bool_decide (k ∈ EVIDENCE_KINDS)) kinds
                     && forallb (λ k, bool_decide (k ∈ kinds)) EVIDENCE_KINDS)
        with_ RIncomplete "metric v3 evidence kinds are incomplete or duplicated";;
      let* _ := rfor (validate_group (val_str (dget "case_id" packet))) observations in
      let forbidden := sort_strings (remove_dups (walk_forbidden (VDict packet))) in
      raise_if negb (bool_decide (forbidden = [])) with_
        RGovernance ("metric v3 public packet contains sealed/evaluator fields: " +:+ str_join ", " forbidden);;
      let* subject := copied_items (without_digest packet) in
      let* digest := digest_json (VDict subject) in
      raise_if negb (val_is (dget "packet_digest" packet) digest) with_ RGovernance "metric v3 packet digest is stale";;
      Ok (sdict [("status", VStr "pass"); ("signature", VList (repeat (VBool true) 6))])
  | _ => Err (RIncomplete "metric v3 packet must contain exactly six evidence groups")
  end.

Definition build_observation_packet_v3 (scenario : mapping) (healthy_windows fault_windows : list mapping)
    : R mapping :=
  let case_id := val_str (default (VStr "") (dfind "scenario_id" scenario)) in
  match dget "problem_brief" scenario with
  | VStr brief =>
      raise_if negb (truthy case_id && truthy brief)
        with_ RIncomplete "metric v3 scenario cannot produce a public packet";;
      raise_if negb (bool_decide (length healthy_windows = HEALTHY_WINDOW_COUNT))
        with_ RIncomplete "metric v3 requires exactly five healthy windows";;
      raise_if negb (bool_decide (length fault_windows = FAULT_WINDOW_COUNT))
        with_ RIncomplete "metric v3 requires exactly two fault windows";;
      let* healthy := rmapM (λ w, public_window_of w "healthy") healthy_windows in
      let* fault := rmapM (λ w, public_window_of w "fault") fault_windows in
      let windows := healthy ++ fault in
      let* groups := evidence_groups case_id windows in
      let subject := packet_subject case_id brief (window_entries windows) (VList groups) in
      let* digest := digest_json (sdict subject) in
      let packet := (λ kv : string * val, (VStr kv.1, kv.2)) <$> (subject ++ [("packet_digest", VStr digest)]) in
      let* _ := validate_observation_packet_v3 packet in
      Ok packet
  | _ => Err (RIncomplete "metric v3 scenario cannot produce a public packet")
  end.
