(* ===== verification/Scoring.v ===== *)
(** * Scoring of metric version 3

    [faultwitness_dev/g03_readiness.py]: the sealed truth of a case, the dataset of
    thirty-two cases, the probe that tries to guess a case from which evidence is
    present, and the score of one diagnosis. *)
From Stdlib Require Import Ascii.
From S2P Require Import Prelude Json JsonFacts Sha256 PyDyn PyFloat Packet.

(** ** Ground truth *)

Record ground_truth := {
  gt_case_id : string;
  gt_root_cause : string;
  required_evidence : list string;
  distractor_evidence : list string;
  required_kinds : list string;
  distractor_kinds : list string;
}.

Definition ground_truth_v3 (case_id root_cause : string) : R ground_truth :=
  let* required := from_option_or (RGovernance ("metric v3 received an unknown sealed label: " +:+ root_cause))
                     (REQUIRED_KINDS root_cause) in
  let distractors := filter (λ k, k ∉ required) EVIDENCE_KINDS in
  let* required_ids := rmapM (evidence_id_v3 case_id) required in
  let* distractor_ids := rmapM (evidence_id_v3 case_id) distractors in
  Ok {| gt_case_id := case_id; gt_root_cause := root_cause;
        required_evidence := sort_strings required_ids; distractor_evidence := sort_strings distractor_ids;
        required_kinds := sort_strings required; distractor_kinds := sort_strings distractors |}.

(** [_contains_observed_nonzero], of values that were validated. *)
Fixpoint contains_observed_nonzero (v : val) : bool :=
  match v with
  | VInt z => negb (z =? 0)%Z
  | VFloat tok => token_finite tok && negb (float_zero tok)
  | VDict d => existsb (λ kv : val * val, negb (is_key "window_index" kv.1) && contains_observed_nonzero kv.2) d
  | VList l => existsb contains_observed_nonzero l
  | _ => false
  end.

(** ** The dataset *)

(** [_group_by_kind]: the last group of a kind *)
Definition observation_groups (packet : mapping) : list mapping :=
  match dget "observations" packet with VList l => omap as_dict l | _ => [] end.
Definition group_by_kind (packet : mapping) (kind : string) : option mapping :=
  last (List.filter (λ g, String.eqb (kind_of g) kind) (observation_groups packet)).

Record scenario_case := {
  sc_packet : mapping;
  sc_truth : ground_truth;
  sc_family : string;
  nonzero_distractor_kinds : list string;
}.

(** A dict of cases: a repeated identifier takes the place of the first. *)
Abbreviation cases := (list (string * scenario_case)).
Fixpoint set_case (id : string) (c : scenario_case) (cs : cases) : cases :=
  match cs with
  | [] => [(id, c)]
  | (id', c') :: cs' => if bool_decide (id = id') then (id, c) :: cs' else (id', c') :: set_case id c cs'
  end.

(** [tuple(sorted(str(key) for key in groups[kind]["samples"][0]))] *)
Definition first_sample (packet : mapping) (kind : string) : R val :=
  let* g := from_option_or (RPython "KeyError") (group_by_kind packet kind) in
  let* samples := py (subscript (VDict g) "samples") in
  py (first_item samples).
Definition sample_fields (packet : mapping) (kind : string) : R (list string) :=
  let* sample := first_sample packet kind in
  let* keys := py (iterate sample) in
  Ok (sort_strings (val_str <$> keys)).

Definition family_of (payload : mapping) : R string :=
  let family := dget "family" payload in
  if val_truthy family then Ok (val_str family)
  else
    let* result := py (get_attr (default (VDict []) (dfind "result" payload)) "family" (VStr "")) in
    Ok (val_str result).

(** One record of the dataset; [canonical] holds the fields of the first. *)
Definition case_of_record (canonical : option (list (list string))) (record : val)
    : R (string * scenario_case * list (list string)) :=
  match record with
  | VDict record =>
      raise_if negb (val_is (dget "status" record) "pass")
        with_ RIncomplete "metric v3 dataset contains an incomplete scenario";;
      match dget "payload" record with
      | VDict payload =>
          match dget "observation_packet" payload with
          | VDict packet =>
              let* _ := validate_observation_packet_v3 packet in
              let case_id := val_str (dget "case_id" packet) in
              let root_cause := val_str (default (VStr "") (dfind "fault_class" payload)) in
              let* truth := ground_truth_v3 case_id root_cause in
              let* fields := rmapM (sample_fields packet) EVIDENCE_KINDS in
              raise_if negb (bool_decide (fields = default fields canonical))
                with_ RIncomplete "metric v3 sample fields differ across cases";;
              let nonzero := List.filter (λ k,
                match group_by_kind packet k with
                | Some g => contains_observed_nonzero (dget "samples" g)
                | None => false
                end) (distractor_kinds truth) in
              raise_if bool_decide (nonzero = []) with_
                RIncomplete ("metric v3 case " +:+ case_id +:+ " lacks a real non-zero distractor signal");;
              let* copy := json_copy (VDict packet) in
              let* family := family_of payload in
              Ok ((case_id, {| sc_packet := default [] (as_dict copy); sc_truth := truth; sc_family := family;
                               nonzero_distractor_kinds := sort_strings nonzero |}), fields)
          | _ => Err (RIncomplete "metric v3 scenario trial lacks a public packet")
          end
      | _ => Err (RIncomplete "metric v3 scenario trial lacks a payload")
      end
  | _ => Err (RIncomplete "metric v3 dataset contains an incomplete scenario")
  end.

(** One turn of the loop: the cases so far, and the fields of the first. *)
Definition add_record (acc : cases * option (list (list string))) (record : val)
    : R (cases * option (list (list string))) :=
  let* c := case_of_record acc.2 record in
  let '(id, case, fields) := c in
  Ok (set_case id case acc.1, Some (default fields acc.2)).

Definition scenario_cases_v3 (document : mapping) : R cases :=
  match dget "trials" document with
  | VList trials =>
      raise_if negb (bool_decide (length trials = 32%nat))
        with_ RIncomplete "metric v3 dataset requires exactly 32 fresh scenario trials";;
      let* acc := rfold add_record trials ([], None) in
      raise_if negb (bool_decide (length acc.1 = 32%nat)) with_ RIncomplete "metric v3 case IDs are not unique";;
      Ok acc.1
  | _ => Err (RIncomplete "metric v3 dataset requires exactly 32 fresh scenario trials")
  end.

Definition truth_document (t : ground_truth) : val :=
  sdict [("case_id", VStr (gt_case_id t)); ("root_cause", VStr (gt_root_cause t));
         ("required_evidence", VList (VStr <$> required_evidence t));
         ("distractor_evidence", VList (VStr <$> distractor_evidence t));
         ("required_kinds", VList (VStr <$> required_kinds t));
         ("distractor_kinds", VList (VStr <$> distractor_kinds t))].

Definition dataset_digest_v3 (document : mapping) : R string :=
  let* cs := scenario_cases_v3 document in
  let* subject := rmapM (λ c : string * scenario_case,
    let* digest := py (subscript (VDict (sc_packet c.2)) "packet_digest") in
    Ok (c.1, sdict [("packet_digest", digest); ("ground_truth", truth_document (sc_truth c.2));
                    ("family", VStr (sc_family c.2))])) (sort_keys cs) in
  digest_json (sdict [("metric_version", VInt METRIC_VERSION); ("cases", sdict subject)]).

(** ** The presence-only probe *)

(** [Counter.update([label])], in order of first occurrence *)
Fixpoint count_label (label : string) (counts : list (string * nat)) : list (string * nat) :=
  match counts with
  | [] => [(label, 1%nat)]
  | (l, n) :: rest => if bool_decide (l = label) then (l, S n) :: rest else (l, n) :: count_label label rest
  end.

(** The groups of a packet that have samples. *)
Definition signature_of (packet : mapping) : list string :=
  sort_strings (val_str ∘ dget "kind" <$>
    List.filter (λ g, val_truthy (dget "samples" g)) (observation_groups packet)).

Fixpoint count_case (signature : list string) (label : string)
    (table : list (list string * list (string * nat))) : list (list string * list (string * nat)) :=
  match table with
  | [] => [(signature, count_label label [])]
  | (s, counts) :: rest =>
      if bool_decide (s = signature) then (s, count_label label counts) :: rest
      else (s, counts) :: count_case signature label rest
  end.

Definition signature_table (cs : cases) : list (list string * list (string * nat)) :=
  foldl (λ table c, count_case (signature_of (sc_packet c.2)) (gt_root_cause (sc_truth c.2)) table) [] cs.

(** [key=lambda item: (-item[1], item[0])] *)
Definition count_le (a b : string * nat) : bool :=
  (b.2 <? a.2)%nat || ((a.2 =? b.2)%nat && str_le a.1 b.1).
Definition ordered_counts (counts : list (string * nat)) : list nat := (sort_by count_le counts).*2.

Record presence_probe := {
  signature_count : nat;
  case_count : nat;
  top1_count : nat;
  top3_count : nat;
  probe_passes : bool;
}.

Definition presence_only_probe_v3 (document : mapping) : R presence_probe :=
  let* cs := scenario_cases_v3 document in
  let table := signature_table cs in
  let top1 := sum_list ((λ e, default 0%nat (head (ordered_counts e.2))) <$> table) in
  let top3 := sum_list ((λ e, sum_list (take 3 (ordered_counts e.2))) <$> table) in
  Ok {| signature_count := length table; case_count := length cs; top1_count := top1; top3_count := top3;
        probe_passes := (top1 =? 8)%nat && (top3 <=? 20)%nat |}.

(** ** The score of a diagnosis *)

Record score := {
  score_status : string;
  failure_class : option string;
  reason : string;
  core_e2e : double;
  root_cause_top3 : double;
  evidence_precision : double;
  unsupported_critical_claim : double;
  output_schema_validity : double;
}.

Definition one : double := double_of_int 1.
Definition flag (b : bool) : double := if b then one else dzero.

(** [_failure_v3] *)
Definition failure_v3 (why class : string) : score :=
  {| score_status := "scored_failure"; failure_class := Some class; reason := why; core_e2e := dzero;
     root_cause_top3 := dzero; evidence_precision := dzero; unsupported_critical_claim := one;
     output_schema_validity := if bool_decide (class = "malformed") then dzero else one |}.

Definition strings_of (v : val) : R (list string) := let* l := py (iterate v) in Ok (val_str <$> l).

(** The parts of a result the score reads. *)
Record diagnosis := {
  dg_root_cause : string;
  dg_candidates : list string;
  dg_claim_value : string;
  dg_evidence : list string;
  dg_claim_refs : list string;
}.

Definition truth_contradictory (t : ground_truth) : bool :=
  negb (bool_decide (gt_root_cause t ∈ ROOT_CAUSE_LABELS)) ||
  (length (remove_dups (required_evidence t)) <? 2)%nat ||
  existsb (λ e, bool_decide (e ∈ distractor_evidence t)) (required_evidence t) ||
  negb (bool_decide (length (remove_dups (required_evidence t ++ distractor_evidence t)) = length EVIDENCE_KINDS)).

(** From the first check of the labels to the score; [selected] is a set. *)
Definition score_diagnosis (d : diagnosis) (t : ground_truth) : score :=
  let invalid := sort_strings (remove_dups (filter (λ l, l ∉ ROOT_CAUSE_LABELS)
                   (dg_root_cause d :: dg_candidates d ++ [dg_claim_value d]))) in
  let selected := remove_dups (dg_evidence d) in
  let unknown := sort_strings (filter (λ e, e ∉ required_evidence t ++ distractor_evidence t) selected) in
  if negb (bool_decide (invalid = [])) then
    failure_v3 ("closed root-cause labels were not used: " +:+ str_join ", " invalid) "invalid_label"
  else if negb (bool_decide (dg_claim_value d = dg_root_cause d)) then
    failure_v3 "typed root-cause claim does not match root_cause" "claim_contract"
  else if negb (forallb (λ e, bool_decide (e ∈ dg_claim_refs d)) selected &&
                forallb (λ e, bool_decide (e ∈ selected)) (dg_claim_refs d)) then
    failure_v3 "top-level evidence and typed-claim evidence_refs differ" "claim_contract"
  else if negb (bool_decide (unknown = [])) then
    failure_v3 ("diagnosis references unknown evidence: " +:+ str_join ", " unknown) "unknown_evidence"
  else
    let cited_distractors := existsb (λ e, bool_decide (e ∈ distractor_evidence t)) selected in
    let complete := forallb (λ e, bool_decide (e ∈ selected)) (required_evidence t) in
    let right := bool_decide (dg_root_cause d = gt_root_cause t) in
    let supported := right && complete && negb cited_distractors in
    let top3 := right || bool_decide (gt_root_cause t ∈ take 3 (dg_candidates d)) in
    let precision :=
      if bool_decide (selected = []) then dzero
      else ddiv (double_of_int (Z.of_nat (length (filter (λ e, e ∈ required_evidence t) selected))))
                (double_of_int (Z.of_nat (length selected))) in
    {| score_status := "scored";
       failure_class :=
         if cited_distractors then Some "distractor_evidence"
         else if negb right then Some "wrong_root_cause"
         else if negb complete then Some "missing_required_evidence"
         else if negb supported then Some "unsupported_critical_claim" else None;
       reason := ""; core_e2e := flag supported; root_cause_top3 := flag top3; evidence_precision := precision;
       unsupported_critical_claim := flag (negb supported); output_schema_validity := one |}.

Section Score.
(** [Draft202012Validator(RESULT_SCHEMA_V3).validate]: the location and message of the
    error it raises. *)
Context (schema_error : mapping → option (string * string)).

Definition validate_result_v3 (result : mapping) : R unit :=
  match schema_error result with
  | Some (location, message) =>
      Err (RGovernance ("baseline result violates metric v3 schema at " +:+
             (if truthy location then location else "<root>") +:+ ": " +:+ message))
  | None => Ok tt
  end.

(** Every subscript of [score_result_v3] after the validation; the schema requires
    each of them, so that none raises and their order does not matter. *)
Definition read_diagnosis (result : mapping) : R diagnosis :=
  let* root := py (subscript (VDict result) "root_cause") in
  let* candidates := py (subscript (VDict result) "root_cause_candidates") in
  let* candidates := strings_of candidates in
  let* claims := py (subscript (VDict result) "claims") in
  let* claim := py (first_item claims) in
  let* value := py (subscript claim "value") in
  let* evidence := py (subscript (VDict result) "evidence") in
  let* evidence := strings_of evidence in
  let* refs := py (subscript claim "evidence_refs") in
  let* refs := strings_of refs in
  Ok {| dg_root_cause := val_str root; dg_candidates := candidates; dg_claim_value := val_str value;
        dg_evidence := evidence; dg_claim_refs := refs |}.

Definition score_result_v3 (result : mapping) (t : ground_truth) : R score :=
  match validate_result_v3 result with
  | Err e => Ok (failure_v3 (exn_text e) "malformed")
  | Ok _ =>
      let* case_id := py (subscript (VDict result) "case_id") in
      if negb (bool_decide (val_str case_id = gt_case_id t)) then
        Ok (failure_v3 "result case_id does not match the sealed case" "case_id_mismatch")
      else
        raise_if truth_contradictory t with_ RGovernance "metric v3 ground truth is incomplete or contradictory";;
        let* d := read_diagnosis result in
        Ok (score_diagnosis d t)
  end.
End Score.
