(* ===== verification/ScoringTheorems.v ===== *)
(** * Theorems on the scorer

    A diagnosis scores exactly when it names the sealed cause from the closed labels
    and cites exactly the required evidence; every metric is a share; which evidence
    a packet contains says nothing about its case. *)
From stdpp Require Import sorting.
From S2P Require Import Prelude Json JsonFacts Sha256 PyDyn PyFloat Packet Scoring.

(** ** Shares *)

Definition share (x : double) : Prop := dle dzero x = true ∧ dle x one = true.

Lemma flag_share b : share (flag b).
Proof. by destruct b. Qed.
Lemma flag_one b : flag b = one ↔ b = true.
Proof. destruct b; [done|]. split; [|done]. by vm_compute. Qed.

(** A packet has six evidence identifiers: the quotients that occur. *)
Lemma precision_share (k n : nat) :
  (k <= n)%nat → (0 < n <= 6)%nat →
  let q := ddiv (double_of_int (Z.of_nat k)) (double_of_int (Z.of_nat n)) in
  share q ∧ (k = n → q = one).
Proof.
  intros Hk Hn.
  assert (n ∈ seq 1 6 ∧ k ∈ seq 0 7) as [Hns Hks] by (rewrite !elem_of_seq; lia).
  assert (forallb (λ n, forallb (λ k,
    let q := ddiv (double_of_int (Z.of_nat k)) (double_of_int (Z.of_nat n)) in
    negb (k <=? n)%nat || (dle dzero q && dle q one && (negb (k =? n)%nat || bool_decide (q = one))))
    (seq 0 7)) (seq 1 6) = true) as Hall by by vm_compute.
  rewrite forallb_forall in Hall. apply list_elem_of_In in Hns, Hks. specialize (Hall n Hns).
  rewrite forallb_forall in Hall. specialize (Hall k Hks). cbv zeta in Hall.
  rewrite (proj2 (Nat.leb_le k n)) in Hall by lia. simpl in Hall. bool_prop.
  split; [by split|]. intros ->. rewrite Nat.eqb_refl in *. simpl in *. by bool_prop.
Qed.

(** ** What scores *)

(** The diagnosis names the sealed cause with closed labels only, and its evidence and
    that of its claim are the required set. *)
Definition supported (d : diagnosis) (t : ground_truth) : Prop :=
  dg_root_cause d = gt_root_cause t ∧ dg_claim_value d = gt_root_cause t ∧
  (∀ l, l ∈ dg_candidates d → l ∈ ROOT_CAUSE_LABELS) ∧
  (∀ e, e ∈ dg_evidence d ↔ e ∈ required_evidence t) ∧
  (∀ e, e ∈ dg_claim_refs d ↔ e ∈ required_evidence t).

Lemma sorted_filter_nil (P : string → Prop) `{∀ x, Decision (P x)} l :
  sort_strings (filter P l) = [] ↔ ∀ x, x ∈ l → ¬ P x.
Proof.
  rewrite <-filter_nil_iff. split; [|by intros ->]. intros Hs. apply Permutation_nil_r. rewrite <-Hs.
  symmetry. apply sort_by_perm.
Qed.
Lemma sorted_filter_dups_nil (P : string → Prop) `{∀ x, Decision (P x)} l :
  sort_strings (remove_dups (filter P l)) = [] ↔ ∀ x, x ∈ l → ¬ P x.
Proof.
  rewrite <-filter_nil_iff. split; [|by intros ->]. intros Hs.
  destruct (filter P l) as [|x l'] eqn:E; [done|]. exfalso.
  assert (x ∈ sort_strings (remove_dups (x :: l'))) as Hx.
  { apply sort_strings_elem, elem_of_remove_dups. left. }
  rewrite Hs in Hx. by apply elem_of_nil in Hx.
Qed.
Lemma forallb_elem (l k : list string) : forallb (λ e, bool_decide (e ∈ k)) l = true ↔ l ⊆ k.
Proof.
  rewrite forallb_forall. split.
  - intros Hl x Hx. apply list_elem_of_In, Hl in Hx. by bool_prop.
  - intros Hl x Hx. apply bool_decide_eq_true, Hl. by apply list_elem_of_In.
Qed.
Lemma existsb_not_elem (l k : list string) : existsb (λ e, bool_decide (e ∈ k)) l = false ↔ ∀ e, e ∈ l → e ∉ k.
Proof.
  rewrite <-not_true_iff_false, existsb_exists. split.
  - intros Hn e He Hk. apply Hn. exists e. split; [by apply list_elem_of_In|by apply bool_decide_eq_true].
  - intros Hn (e & He & Hk). bool_prop. apply (Hn e); [by apply list_elem_of_In|done].
Qed.

(** A truth that is not contradictory. *)
Record truth_ok (t : ground_truth) : Prop := {
  truth_label : gt_root_cause t ∈ ROOT_CAUSE_LABELS;
  truth_disjoint e : e ∈ required_evidence t → e ∉ distractor_evidence t;
  truth_six : length (remove_dups (required_evidence t ++ distractor_evidence t)) = 6%nat;
  truth_required : required_evidence t ≠ [];
}.
Lemma truth_not_contradictory t : truth_contradictory t = false → truth_ok t.
Proof.
  unfold truth_contradictory. intros H. bool_prop. split; try done.
  - by apply existsb_not_elem.
  - intros Hr. rewrite Hr in *. done.
Qed.

Lemma failure_shares why class :
  share (core_e2e (failure_v3 why class)) ∧ share (root_cause_top3 (failure_v3 why class)) ∧
  share (evidence_precision (failure_v3 why class)) ∧
  unsupported_critical_claim (failure_v3 why class) = one ∧ core_e2e (failure_v3 why class) = dzero.
Proof. by vm_compute. Qed.

(** The metrics are shares; an unsupported claim is the complement of success; a
    success counts in the top three with full precision. *)
Definition metrics_consistent (s : score) : Prop :=
  share (core_e2e s) ∧ share (root_cause_top3 s) ∧ share (evidence_precision s) ∧
  (core_e2e s = one ∧ unsupported_critical_claim s = dzero ∧ root_cause_top3 s = one ∧
     evidence_precision s = one ∧ failure_class s = None ∨
   core_e2e s = dzero ∧ unsupported_critical_claim s = one ∧ failure_class s ≠ None).

Lemma failure_consistent why class : metrics_consistent (failure_v3 why class).
Proof.
  destruct (failure_shares why class) as (? & ? & ? & ? & ?). split_and!; [done..|]. by right.
Qed.

Lemma failure_not_one why class : core_e2e (failure_v3 why class) = one → False.
Proof. by vm_compute. Qed.

Section Diagnosis.
Context (d : diagnosis) (t : ground_truth) (Ht : truth_ok t).
#[local] Set Default Proof Using "All".

Lemma supported_iff_core :
  core_e2e (score_diagnosis d t) = one ↔ supported d t.
Proof.
  unfold score_diagnosis, supported. cbv zeta.
  destruct (bool_decide (sort_strings (remove_dups _) = [])) eqn:Hlab; cbn [negb].
  2:{ split; [by intros Hn%failure_not_one|]. intros (Hr & Hc & Hcand & _). exfalso. bool_prop. apply Hlab.
      apply sorted_filter_dups_nil. intros x Hx Hn. apply Hn.
      apply elem_of_cons in Hx as [-> |[Hx|Hx]%elem_of_app]; [rewrite Hr; apply Ht|auto|].
      apply list_elem_of_singleton in Hx as ->. rewrite Hc. apply Ht. }
  bool_prop. rewrite sorted_filter_dups_nil in Hlab.
  case_bool_decide as Hcl; cbn [negb].
  2:{ split; [by intros Hn%failure_not_one|]. intros (Hr & Hc & _). congruence. }
  destruct (forallb _ (remove_dups _) && _) eqn:Hrefs; cbn [negb].
  2:{ split; [by intros Hn%failure_not_one|]. intros (_ & _ & _ & He & Hc). exfalso.
      apply andb_false_iff in Hrefs as [Hf|Hf]; apply not_true_iff_false in Hf; apply Hf, forallb_elem;
        intros x Hx; rewrite ?elem_of_remove_dups in *; naive_solver. }
  apply andb_true_iff in Hrefs as [H1%forallb_elem H2%forallb_elem].
  assert (∀ e, e ∈ dg_claim_refs d ↔ e ∈ dg_evidence d) as Hsame.
  { intros e. split; [intros He; apply H2 in He; by rewrite elem_of_remove_dups in He|].
    intros He. apply H1. by apply elem_of_remove_dups. }
  case_bool_decide as Hun; cbn [negb].
  2:{ split; [by intros Hn%failure_not_one|]. intros (_ & _ & _ & He & _). exfalso. apply Hun, sorted_filter_nil.
      intros x Hx Hn. rewrite elem_of_remove_dups in Hx. apply Hn, elem_of_app. left. by apply He. }
  rewrite sorted_filter_nil in Hun. cbn [core_e2e]. rewrite flag_one, !andb_true_iff, negb_true_iff,
    bool_decide_eq_true, forallb_elem, existsb_not_elem.
  split.
  - intros [[Hr Hcomp] Hdis]. split_and!; [done|congruence| | |].
    + intros l Hl. apply dec_stable, Hlab. right. apply elem_of_app. by left.
    + intros e. split; [|by intros He; rewrite <-(elem_of_remove_dups (dg_evidence d)); apply Hcomp].
      rewrite <-elem_of_remove_dups. intros He. specialize (Hun e He). apply dec_stable in Hun.
      apply elem_of_app in Hun as [?|Hd]; [done|]. by apply Hdis in Hd.
    + intros e. rewrite Hsame. split; [|by intros He; rewrite <-(elem_of_remove_dups (dg_evidence d)); apply Hcomp].
      rewrite <-elem_of_remove_dups. intros He. specialize (Hun e He). apply dec_stable in Hun.
      apply elem_of_app in Hun as [?|Hd]; [done|]. by apply Hdis in Hd.
  - intros (Hr & _ & _ & He & _). split_and!; [done| |].
    + intros e Hreq. by apply elem_of_remove_dups, He.
    + intros e Hs. rewrite elem_of_remove_dups in Hs. by apply Ht, He.
Qed.

Lemma score_consistent : metrics_consistent (score_diagnosis d t).
Proof.
  unfold score_diagnosis. cbv zeta.
  destruct (negb (bool_decide (sort_strings (remove_dups _) = []))); [apply failure_consistent|].
  destruct (negb (bool_decide (dg_claim_value d = _))); [apply failure_consistent|].
  destruct (negb (forallb _ (remove_dups _) && _)); [apply failure_consistent|].
  case_bool_decide as Hun; cbn [negb]; [|apply failure_consistent].
  rewrite sorted_filter_nil in Hun. set (selected := remove_dups (dg_evidence d)) in *.
  set (cited := existsb _ selected). set (complete := forallb _ (required_evidence t)).
  set (right := bool_decide (dg_root_cause d = _)).
  set (k := length (filter (λ e, e ∈ required_evidence t) selected)).
  assert (k <= length selected)%nat as Hk by apply length_filter.
  assert (length selected <= 6)%nat as H6.
  { rewrite <-(truth_six t Ht). apply submseteq_length, NoDup_submseteq; [apply NoDup_remove_dups|].
    intros e He. apply elem_of_remove_dups. by apply dec_stable, Hun. }
  assert (complete = true → selected ≠ []) as Hne.
  { intros Hc%forallb_elem Hs. destruct (required_evidence t) as [|e l] eqn:Er; [by apply (truth_required t Ht)|].
    assert (e ∈ selected) as He by (apply Hc; left). rewrite Hs in He. by apply elem_of_nil in He. }
  assert (cited = false → k = length selected) as Hall.
  { intros Hc. unfold cited in Hc. rewrite existsb_not_elem in Hc. unfold k. f_equal.
    assert (Forall (λ e, e ∈ required_evidence t) selected) as Hf.
    { apply Forall_forall. intros e He. specialize (Hun e He). apply dec_stable, elem_of_app in Hun as [?|?]; [done|].
      by apply Hc in He. }
    clear -Hf. induction Hf as [|e l He _ IH]; [done|]. rewrite filter_cons_True by done. by rewrite IH. }
  assert (share (if bool_decide (selected = []) then dzero
    else ddiv (double_of_int (Z.of_nat k)) (double_of_int (Z.of_nat (length selected)))) ∧
    (right && complete && negb cited = true → (if bool_decide (selected = []) then dzero
    else ddiv (double_of_int (Z.of_nat k)) (double_of_int (Z.of_nat (length selected)))) = one)) as [Hp1 Hp2].
  { case_bool_decide as Hs.
    - split; [by vm_compute|]. intros H. bool_prop. by destruct Hne.
    - destruct (precision_share k (length selected)) as [H1 H2]; [done|destruct selected; simpl in *; [done|lia]|].
      split; [done|]. intros H. apply H2, Hall. by bool_prop. }
  split_and!; cbn -[ddiv double_of_int share one dzero]; [apply flag_share|apply flag_share|done|].
  clearbody right complete cited. clear Hne Hall.
  destruct cited, right, complete; cbn [andb negb orb] in *; try (by right).
  left. split_and!; try done. by apply Hp2.
Qed.
End Diagnosis.

(** C24: [score_result_v3] gives [core_e2e = 1] exactly to a schema-valid result for
    the sealed case that names the sealed cause, uses closed labels only, makes the
    claim it names and cites exactly the required evidence in both places; and every
    score it gives has consistent metrics between 0 and 1. *)
Theorem score_rewards_exactly_supported schema_error result t s :
  score_result_v3 schema_error result t = Ok s →
  metrics_consistent s ∧
  (core_e2e s = one ↔
   schema_error result = None ∧ val_str (dget "case_id" result) = gt_case_id t ∧
   ∃ d, read_diagnosis result = Ok d ∧ supported d t).
Proof.
  unfold score_result_v3, validate_result_v3. destruct (schema_error result) as [[location message]|].
  { intros [= <-]. split; [apply failure_consistent|]. split; [by intros Hn%failure_not_one|]. by intros [? _]. }
  intros (case_id & Hc & H)%rbind_ok. unfold py in Hc. res_inv. cbn [subscript] in E. apply from_option_or_ok in E.
  assert (dget "case_id" result = case_id) as -> by (unfold dget; by rewrite E).
  case_bool_decide as Hid; cbn [negb] in H.
  2:{ apply Ok_inj in H as <-. split; [apply failure_consistent|]. split; [by intros Hn%failure_not_one|]. by intros (_ & ? & _). }
  destruct (truth_contradictory t) eqn:Et; [discriminate H|]. apply truth_not_contradictory in Et as Ht.
  apply rbind_ok in H as (d & Hd & H). apply Ok_inj in H as <-.
  split; [by apply score_consistent|]. rewrite supported_iff_core by done. split.
  - intros Hs. split_and!; [done|done|]. by exists d.
  - intros (_ & _ & d' & Hd' & Hs). rewrite Hd in Hd'. by apply Ok_inj in Hd' as <-.
Qed.

Definition sample_truth : ground_truth :=
  {| gt_case_id := "SEED-01"; gt_root_cause := "adHighCpu"; required_evidence := ["ev3-a"; "ev3-c"];
     distractor_evidence := ["ev3-b"; "ev3-d"; "ev3-e"; "ev3-f"]; required_kinds := ["cpu_window"; "trace_activity"];
     distractor_kinds := ["journey_window"; "memory_window"; "queue_window"; "trace_errors"] |}.
Definition sample_result : mapping :=
  let evidence := VList [VStr "ev3-a"; VStr "ev3-c"] in
  [(VStr "case_id", VStr "SEED-01"); (VStr "root_cause", VStr "adHighCpu");
   (VStr "root_cause_candidates", VList [VStr "adHighCpu"; VStr "paymentFailure"]); (VStr "evidence", evidence);
   (VStr "claims", VList [sdict [("claim_type", VStr "root_cause"); ("value", VStr "adHighCpu");
                                 ("evidence_refs", evidence)]])].
Lemma score_rewards_exactly_supported_witness : ∃ s,
  score_result_v3 (λ _, None) sample_result sample_truth = Ok s ∧ core_e2e s = one ∧
  metrics_consistent s ∧ ∃ d, read_diagnosis sample_result = Ok d ∧ supported d sample_truth.
Proof.
  destruct (score_result_v3 (λ _, None) sample_result sample_truth) as [s|] eqn:Es; [|by vm_compute in Es].
  destruct (score_rewards_exactly_supported (λ _, None) sample_result sample_truth s Es) as [Hm Hone].
  assert (core_e2e s = one) as H1 by (vm_compute in Es; injection Es as <-; reflexivity).
  exists s. split; [reflexivity|]. split; [exact H1|]. split; [exact Hm|]. by apply Hone.
Defined.

(** ** Printed mappings *)

Fixpoint assoc_find {A} (k : string) (l : list (string * A)) : option A :=
  match l with [] => None | (k', x) :: l' => if bool_decide (k' = k) then Some x else assoc_find k l' end.

Lemma dfind_sdict k kvs : dfind k ((λ kv : string * val, (VStr kv.1, kv.2)) <$> kvs) = assoc_find k kvs.
Proof. induction kvs as [|[k' v] kvs IH]; [done|]. cbn. by rewrite IH. Qed.

Lemma assoc_find_insert {A} k (x : string * A) l :
  assoc_find k (insert_by (λ a b, str_le a.1 b.1) x l) = if bool_decide (x.1 = k) then Some x.2 else assoc_find k l.
Proof.
  destruct x as [kx vx]. induction l as [|[ky vy] l IH]; cbn; [done|].
  destruct (str_le kx ky) eqn:E; cbn; [done|]. rewrite IH. cbn. clear IH.
  destruct (decide (ky = k)) as [->|]; [|by rewrite !(bool_decide_eq_false_2 (ky = k)) by done].
  rewrite !(bool_decide_eq_true_2 (k = k)) by done. rewrite bool_decide_eq_false_2; [done|]. intros ->.
  destruct (str_le_total k k); congruence.
Qed.
Lemma assoc_find_sorted {A} k (l : list (string * A)) : assoc_find k (sort_keys l) = assoc_find k l.
Proof.
  unfold sort_keys. induction l as [|[k' x] l IH]; [done|]. cbn [sort_by]. rewrite assoc_find_insert. cbn. by rewrite IH.
Qed.

(** The mapping a copy is. *)
Definition printed_items (d : mapping) : mapping :=
  match printed canonical_style (VDict d) with VDict d' => d' | _ => [] end.
Lemma printed_dict d : printed canonical_style (VDict d) = VDict (printed_items d).
Proof. done. Qed.
Lemma dfind_printed k d : dfind k (printed_items d) = printed canonical_style <$> dfind k d.
Proof.
  unfold printed_items. cbn [printed sorted_keys canonical_style]. unfold sdict. rewrite dfind_sdict, assoc_find_sorted.
  induction d as [|[k' v] d IH]; [done|]. destruct k'; cbn; try apply IH. by case_bool_decide.
Qed.
Lemma dget_printed k d : dget k (printed_items d) = printed canonical_style (dget k d).
Proof. unfold dget. rewrite dfind_printed. by destruct (dfind k d). Qed.

Lemma kind_of_printed d : kind_of (printed_items d) = kind_of d.
Proof. unfold kind_of. rewrite dget_printed. by destruct (dget "kind" d). Qed.
Lemma as_dicts_printed (l : list val) : omap as_dict (printed canonical_style <$> l) = printed_items <$> omap as_dict l.
Proof. induction l as [|v l IH]; [done|]. destruct v; cbn; try apply IH. by f_equal. Qed.
Lemma groups_printed packet :
  observation_groups (printed_items packet) = printed_items <$> observation_groups packet.
Proof.
  unfold observation_groups. rewrite dget_printed. destruct (dget "observations" packet); try done.
  cbn [printed]. apply as_dicts_printed.
Qed.

(** ** What a validated packet contains *)

Lemma rfor_ok {A} (p : A → R unit) xs x : rfor p xs = Ok tt → x ∈ xs → p x = Ok tt.
Proof.
  induction xs as [|y xs IH]; intros H Hx; [by apply elem_of_nil in Hx|]. cbn in H. res_inv. destruct a.
  apply elem_of_cons in Hx as [-> |Hx]; [done|auto].
Qed.

(** One group for each kind, each with seven samples. *)
Record packet_complete (packet : mapping) : Prop := {
  complete_kinds : kind_of <$> observation_groups packet ≡ₚ EVIDENCE_KINDS;
  complete_samples g : g ∈ observation_groups packet →
    (∃ samples, dget "samples" g = VList samples ∧ length samples = 7%nat) ∧ dget "kind" g = VStr (kind_of g);
}.

Lemma evidence_kinds_nodup : NoDup EVIDENCE_KINDS.
Proof. apply (bool_decide_unpack _). by vm_compute. Qed.

Lemma no_empty_kind : "" ∉ EVIDENCE_KINDS.
Proof. apply (bool_decide_unpack _). by vm_compute. Qed.

Lemma validate_complete packet out :
  validate_observation_packet_v3 packet = Ok out → packet_complete packet.
Proof.
  unfold validate_observation_packet_v3. intros H. res_inv.
  destruct (dget "observations" packet) as [| | | | |obs| |] eqn:Eobs; try discriminate H. res_inv. bool_prop.
  assert (observation_groups packet = omap as_dict obs) as Hgroups by (unfold observation_groups; by rewrite Eobs).
  assert (kind_of <$> omap as_dict obs ≡ₚ EVIDENCE_KINDS) as Hk.
  { symmetry. apply submseteq_length_Permutation.
    - apply NoDup_submseteq; [apply evidence_kinds_nodup|]. by apply forallb_elem.
    - change (length EVIDENCE_KINDS) with 6%nat. lia. }
  split; rewrite Hgroups; [done|]. intros g Hg. destruct a.
  assert (VDict g ∈ obs) as Hin.
  { apply list_elem_of_omap in Hg as (v & Hv & Hd). destruct v; try done. cbn in Hd. by simplify_eq. }
  match goal with Hr : rfor _ obs = Ok tt |- _ => pose proof (rfor_ok _ _ _ Hr Hin) as Hv end.
  cbn [validate_group] in Hv. res_inv.
  destruct (dget "samples" g) as [| | | | |samples| |]; try discriminate Hv. res_inv. bool_prop. split; [eauto|].
  assert (kind_of g ∈ EVIDENCE_KINDS) as Hkg by (rewrite <-Hk; by apply list_elem_of_fmap_2).
  revert Hkg. unfold kind_of. destruct (dget "kind" g); try done; by intros ?%no_empty_kind.
Qed.

(** The signature of a copied packet is the sorted list of the six kinds. *)
Lemma sort_strings_perm l k : l ≡ₚ k → sort_strings l = sort_strings k.
Proof.
  intros Hlk. apply (StronglySorted_unique_strong (λ x y, str_le x y = true)).
  - intros x y _ _. apply str_le_antisym.
  - apply sort_by_sorted; [apply str_le_total|apply str_le_trans].
  - apply sort_by_sorted; [apply str_le_total|apply str_le_trans].
  - unfold sort_strings. by rewrite !sort_by_perm.
Qed.

Lemma eq_Permutation {A} (l k : list A) : l = k → l ≡ₚ k.
Proof. by intros ->. Qed.

Lemma signature_complete packet :
  packet_complete packet → signature_of (printed_items packet) = sort_strings EVIDENCE_KINDS.
Proof.
  intros [Hk Hs]. unfold signature_of. apply sort_strings_perm. rewrite <-Hk, groups_printed. clear Hk.
  apply eq_Permutation. induction (observation_groups packet) as [|g gs IH]; [done|].
  destruct (Hs g ltac:(left)) as [(samples & Hsamp & Hlen) Hkind].
  cbn [fmap list_fmap List.filter]. rewrite dget_printed, Hsamp. cbn [printed val_truthy].
  rewrite bool_decide_eq_false_2 by (rewrite length_fmap; lia). cbn [negb fmap list_fmap].
  f_equal; [|apply IH; intros g' Hg'; apply Hs; by right].
  unfold compose. by rewrite dget_printed, Hkind.
Qed.

(** Every case of an accepted dataset holds the copy of a validated packet. *)
Lemma case_of_record_packet canonical record id c fields :
  case_of_record canonical record = Ok (id, c, fields) → signature_of (sc_packet c) = sort_strings EVIDENCE_KINDS.
Proof.
  unfold case_of_record. destruct record; try discriminate. intros H. res_inv.
  destruct (dget "payload" d); try discriminate H. destruct (dget "observation_packet" d0); try discriminate H.
  apply rbind_ok in H as (out & Hv & H). apply validate_complete in Hv. res_inv. cbn [sc_packet].
  match goal with Hj : json_copy _ = Ok _ |- _ => unfold json_copy in Hj; destruct (dumps _ _); [|discriminate Hj];
    apply Ok_inj in Hj as <- end.
  rewrite printed_dict. cbn [as_dict default]. by apply signature_complete.
Qed.

Definition same_signature (cs : cases) : Prop :=
  Forall (λ c, signature_of (sc_packet c.2) = sort_strings EVIDENCE_KINDS) cs.

Lemma set_case_forall (P : string * scenario_case → Prop) id c cs :
  P (id, c) → Forall P cs → Forall P (set_case id c cs).
Proof.
  intros Hc. induction 1 as [|[id' c'] cs Hc' Hcs IH]; cbn; [by repeat constructor|].
  case_bool_decide; by constructor.
Qed.

Lemma scenario_cases_signature document cs :
  scenario_cases_v3 document = Ok cs → same_signature cs ∧ length cs = 32%nat.
Proof.
  unfold scenario_cases_v3. destruct (dget "trials" document); try discriminate. intros H. res_inv. bool_prop.
  split; [|done].
  apply (rfold_invariant (λ acc : cases * option (list (list string)), same_signature acc.1) add_record l ([], None) a);
    [|by constructor|done].
  intros acc record acc' _ Hacc Hstep. unfold add_record in Hstep.
  apply rbind_ok in Hstep as ([[id c] fields] & Hc & Hstep). apply case_of_record_packet in Hc.
  apply Ok_inj in Hstep as <-. by apply set_case_forall.
Qed.

(** ** The presence-only probe *)

Definition labels_of (cs : cases) : list string := (λ c, gt_root_cause (sc_truth c.2)) <$> cs.
Definition occurrences (l : string) (labels : list string) : nat := length (filter (λ x, x = l) labels).
Definition label_counts (labels : list string) (counts : list (string * nat)) : list (string * nat) :=
  foldl (λ counts l, count_label l counts) counts labels.

Lemma assoc_count_label l l' counts :
  default 0%nat (assoc_find l (count_label l' counts)) =
    ((if bool_decide (l' = l) then 1 else 0) + default 0 (assoc_find l counts))%nat.
Proof.
  induction counts as [|[k n] counts IH]; cbn; [by case_bool_decide|].
  destruct (decide (k = l')) as [->|Hk].
  - rewrite (bool_decide_eq_true_2 (l' = l')) by done. cbn. by case_bool_decide.
  - rewrite (bool_decide_eq_false_2 (k = l')) by done. cbn. destruct (decide (k = l)) as [->|].
    + rewrite (bool_decide_eq_true_2 (l = l)), (bool_decide_eq_false_2 (l' = l)) by done. done.
    + by rewrite (bool_decide_eq_false_2 (k = l)) by done.
Qed.
Lemma label_counts_assoc l labels counts :
  default 0%nat (assoc_find l (label_counts labels counts)) =
    (occurrences l labels + default 0 (assoc_find l counts))%nat.
Proof.
  revert counts. induction labels as [|x labels IH]; intros counts; cbn [label_counts foldl]; [done|].
  unfold label_counts in IH. rewrite IH, assoc_count_label. unfold occurrences. rewrite filter_cons.
  case_bool_decide; case_decide; try done; cbn [length]; lia.
Qed.

Lemma count_label_keys l counts : NoDup counts.*1 →
  NoDup (count_label l counts).*1 ∧ ∀ k, k ∈ (count_label l counts).*1 → k = l ∨ k ∈ counts.*1.
Proof.
  induction counts as [|[k n] counts IH]; cbn; intros Hnd.
  { split; [apply NoDup_singleton|]. intros k ->%list_elem_of_singleton. by left. }
  apply NoDup_cons in Hnd as [Hk Hnd]. destruct (IH Hnd) as [H1 H2]. case_bool_decide as Hkl; cbn.
  - split; [by constructor|]. intros j Hj. by right.
  - split.
    + constructor; [|done]. by intros [?|?]%H2.
    + intros j [->|Hj]%elem_of_cons; [right; left|]. apply H2 in Hj as [?|?]; [by left|right; by right].
Qed.
Lemma label_counts_nodup labels counts : NoDup counts.*1 → NoDup (label_counts labels counts).*1.
Proof.
  revert counts. induction labels as [|x labels IH]; intros counts Hnd; [done|].
  cbn. apply IH. by apply count_label_keys.
Qed.
Lemma assoc_find_elem {A} k (x : A) l : NoDup l.*1 → (k, x) ∈ l → assoc_find k l = Some x.
Proof.
  induction l as [|[k' x'] l IH]; intros Hnd Hin; [by apply elem_of_nil in Hin|].
  cbn in *. apply NoDup_cons in Hnd as [Hk Hnd]. apply elem_of_cons in Hin as [[= -> ->]|Hin].
  - by rewrite bool_decide_eq_true_2.
  - rewrite bool_decide_eq_false_2; [by apply IH|]. intros ->. apply Hk. apply list_elem_of_fmap. by exists (k, x).
Qed.

Lemma count_le_total a b : count_le a b = true ∨ count_le b a = true.
Proof.
  unfold count_le. destruct (Nat.lt_trichotomy a.2 b.2) as [?|[H|?]].
  - right. by rewrite (proj2 (Nat.ltb_lt _ _)).
  - rewrite H, Nat.eqb_refl, !Nat.ltb_irrefl. simpl. apply str_le_total.
  - left. by rewrite (proj2 (Nat.ltb_lt _ _)).
Qed.
Lemma count_le_spec a b :
  count_le a b = true ↔ (b.2 < a.2)%nat ∨ (a.2 = b.2 ∧ str_le a.1 b.1 = true).
Proof. unfold count_le. by rewrite orb_true_iff, andb_true_iff, Nat.ltb_lt, Nat.eqb_eq. Qed.
Lemma count_le_trans a b c : count_le a b = true → count_le b c = true → count_le a c = true.
Proof.
  rewrite !count_le_spec. intros [?|[? H1]] [?|[? H2]]; [left; lia..|right]. split; [lia|].
  by eapply str_le_trans.
Qed.

(** The first count is that of a most frequent label. *)
Lemma top_count labels :
  labels ≠ [] → ∃ l, head (ordered_counts (label_counts labels [])) = Some (occurrences l labels) ∧
    ∀ l', (occurrences l' labels <= occurrences l labels)%nat.
Proof.
  intros Hne. unfold ordered_counts. set (counts := label_counts labels []).
  assert (NoDup counts.*1) as Hnd by (apply label_counts_nodup; constructor).
  assert (∀ l n, (l, n) ∈ counts → n = occurrences l labels) as Hcount.
  { intros l n Hin. pose proof (label_counts_assoc l labels []) as Ha. fold counts in Ha.
    rewrite (assoc_find_elem _ _ _ Hnd Hin) in Ha. cbn in Ha. lia. }
  pose proof (sort_by_sorted count_le count_le_total count_le_trans counts) as Hs.
  pose proof (sort_by_perm count_le counts) as Hp.
  destruct (sort_by count_le counts) as [|[l n] rest].
  { apply Permutation_nil_l in Hp. destruct labels as [|x labels]; [done|].
    pose proof (label_counts_assoc x (x :: labels) []) as Ha. fold counts in Ha. rewrite <-Hp in Ha.
    unfold occurrences in Ha. rewrite filter_cons_True in Ha by done. cbn in Ha. lia. }
  exists l. assert (n = occurrences l labels) as -> by (apply Hcount; rewrite <-Hp; left). split; [done|].
  intros l'. destruct (assoc_find l' counts) as [n'|] eqn:El.
  - assert ((l', n') ∈ counts) as Hin.
    { clear -El. induction counts as [|[k m] counts IH]; [done|]. cbn in El.
      case_bool_decide; [injection El as ->; subst; left|right; auto]. }
    rewrite <-(Hcount _ _ Hin). rewrite <-Hp in Hin. apply elem_of_cons in Hin as [[= -> ->]|Hin]; [done|].
    apply StronglySorted_inv in Hs as [_ Hall]. rewrite Forall_forall in Hall.
    specialize (Hall _ Hin). apply count_le_spec in Hall. cbn in Hall. lia.
  - pose proof (label_counts_assoc l' labels []) as Ha. fold counts in Ha. rewrite El in Ha. cbn in Ha. lia.
Qed.

Lemma signature_table_same cs :
  same_signature cs → cs ≠ [] →
  signature_table cs = [(sort_strings EVIDENCE_KINDS, label_counts (labels_of cs) [])].
Proof.
  unfold signature_table. intros Hsig Hne.
  assert (∀ counts, foldl (λ table c, count_case (signature_of (sc_packet c.2)) (gt_root_cause (sc_truth c.2)) table)
    [(sort_strings EVIDENCE_KINDS, counts)] cs
    = [(sort_strings EVIDENCE_KINDS, label_counts (labels_of cs) counts)]) as Hgen.
  { clear Hne. induction Hsig as [|c cs Hc _ IH]; intros counts; [done|]. cbn [foldl]. rewrite Hc.
    cbn [count_case]. rewrite bool_decide_eq_true_2 by done. by rewrite IH. }
  destruct cs as [|c cs]; [done|]. cbn [foldl]. apply Forall_cons in Hsig as [Hc Hsig]. rewrite Hc. cbn [count_case].
  clear Hne. revert Hgen. intros Hgen. specialize (Hgen []). cbn [foldl] in Hgen. rewrite Hc in Hgen.
  cbn [count_case] in Hgen. by rewrite bool_decide_eq_true_2 in Hgen by done.
Qed.
