(* ===== verification/PacketTheorems.v ===== *)
(** * Packets that are built are accepted

    [build_observation_packet_v3] validates what it made; the check never fails on
    finite measurements, so that a complete set of windows always becomes a packet. *)
From Stdlib Require Import Ascii.
From stdpp Require Import sorting.
From S2P Require Import Prelude Json JsonFacts Sha256 PyDyn PyFloat Packet Scoring ScoringTheorems.

(** ** Mappings written key by key *)

(** The items of [sdict]. *)
Abbreviation items kvs := ((λ kv : string * val, (VStr kv.1, kv.2)) <$> kvs).

Definition keys_check (ks l : list string) : bool :=
  forallb (λ k, bool_decide (k ∈ ks)) l && forallb (λ k, bool_decide (k ∈ l)) ks.
Lemma dict_keys_sdict kvs : dict_keys (items kvs) = kvs.*1.
Proof. induction kvs as [|[k v] kvs IH]; [done|]. cbn. by f_equal. Qed.
Lemma str_keys_sdict kvs : forallb key_is_str (items kvs) = true.
Proof. induction kvs as [|[k v] kvs IH]; [done|]. exact IH. Qed.
Lemma keys_are_sdict ks kvs : keys_are ks (items kvs) = keys_check ks kvs.*1.
Proof. unfold keys_are, keys_check. by rewrite str_keys_sdict, dict_keys_sdict. Qed.
Lemma dget_sdict k kvs : dget k (items kvs) = default VNone (assoc_find k kvs).
Proof. unfold dget. by rewrite dfind_sdict. Qed.
Lemma as_dict_sdicts {A} (f : A → list (string * val)) (xs : list A) :
  omap as_dict ((λ x, sdict (f x)) <$> xs) = (λ x, items (f x)) <$> xs.
Proof. induction xs as [|x xs IH]; [done|]. cbn. f_equal. exact IH. Qed.

(** No forbidden key at any depth. *)
Definition clean (v : val) : Prop := walk_forbidden v = [].
Lemma clean_sdict kvs :
  forallb (λ k, negb (forbidden_name k)) kvs.*1 = true → Forall clean kvs.*2 → clean (sdict kvs).
Proof.
  unfold clean, sdict. cbn [walk_forbidden]. induction kvs as [|[k v] kvs IH]; [done|].
  cbn. intros Hk [Hv Hvs]%Forall_cons. bool_prop. rewrite H. cbn. rewrite Hv. cbn. by apply IH.
Qed.
Lemma clean_list l : Forall clean l → clean (VList l).
Proof.
  unfold clean. cbn [walk_forbidden]. induction 1 as [|v l Hv _ IH]; [done|]. cbn. by rewrite Hv.
Qed.

(** A JSON value without forbidden keys. *)
Definition fine (v : val) : Prop := json_ok v = true ∧ clean v.
Lemma fine_sdict kvs :
  bool_decide (NoDup kvs.*1) && forallb (λ k, negb (forbidden_name k)) kvs.*1 = true → Forall fine kvs.*2 →
  fine (sdict kvs).
Proof.
  intros [Hn Hk]%andb_true_iff Hf. apply Forall_and in Hf as [Hj Hc]. bool_prop.
  split; [by apply json_ok_sdict|by apply clean_sdict].
Qed.
Lemma fine_list l : Forall fine l → fine (VList l).
Proof.
  intros Hf. apply Forall_and in Hf as [Hj Hc]. split; [|by apply clean_list].
  cbn. by apply forallb_Forall_true.
Qed.
Lemma fine_str s : fine (VStr s).
Proof. done. Qed.
Lemma fine_int z : fine (VInt z).
Proof. done. Qed.
Lemma fine_bool b : fine (VBool b).
Proof. done. Qed.
Lemma fine_strs l : fine (VList (VStr <$> l)).
Proof. apply fine_list, Forall_fmap, Forall_true. intros s. apply fine_str. Qed.
#[local] Hint Resolve fine_str fine_int fine_bool fine_strs : core.

(** ** Digests *)

Lemma dumps_sdict_map st (f : val → val) kvs :
  Forall (λ v, dumps st (f v) = dumps st v) kvs.*2 →
  dumps st (VDict ((λ kv, (kv.1, f kv.2)) <$> items kvs)) = dumps st (sdict kvs).
Proof.
  intros Hf. unfold sdict. rewrite !dumps_VDict.
  assert (dumps_pairs st ((λ kv : val * val, (kv.1, f kv.2)) <$> items kvs) = dumps_pairs st (items kvs)) as ->; [|done].
  induction kvs as [|[k v] kvs IH]; [done|]. cbn in *. apply Forall_cons in Hf as [Hv Hvs].
  rewrite Hv. by rewrite IH.
Qed.

Lemma copied_items_ok kvs :
  Forall (λ v, json_ok v = true) kvs.*2 →
  copied_items (items kvs) = Ok ((λ kv, (kv.1, printed canonical_style kv.2)) <$> items kvs).
Proof.
  unfold copied_items. induction kvs as [|[k v] kvs IH]; [done|]. cbn. intros [Hv Hvs]%Forall_cons.
  unfold json_copy at 1. destruct (dumps_total canonical_style v Hv) as [s ->]. cbn. by rewrite IH.
Qed.

Lemma copied_digest kvs :
  Forall (λ v, json_ok v = true) kvs.*2 →
  digest_json (VDict ((λ kv, (kv.1, printed canonical_style kv.2)) <$> items kvs)) = digest_json (sdict kvs).
Proof.
  intros Hj. unfold digest_json. rewrite (dumps_sdict_map canonical_style (printed canonical_style)); [done|].
  eapply Forall_impl; [exact Hj|]. intros v Hv. cbn.
  destruct (dumps_total canonical_style v Hv) as [s Hs]. by rewrite Hs, (dumps_printed _ _ _ Hs).
Qed.

(** ** Windows *)

Definition finite (v : val) : Prop := finite_measurement v = Ok true ∧ fine v.
(** An integer a float can hold. *)
Definition countable (z : Z) : Prop := overflows z 1 = false.
Definition error_item (v : val) : Prop := ∃ c ds e,
  v = sdict [("connection_error_count", VInt c); ("descriptions", VList (VStr <$> ds)); ("error_count", VInt e)] ∧
  countable c ∧ countable e.

(** A window of finite measurements. *)
Record measured (w : public_window) : Prop := {
  m_time : pw_recorded_at w ≠ "";
  m_cpu : finite (cpu_cores w);
  m_memory : finite (working_set_bytes w);
  m_lag : finite (consumer_lag w);
  m_record_lag : finite (consumer_record_lag w);
  m_poll_lag : finite (consumer_poll_lag_seconds w);
  m_activity : (trace_activity w).*1 = V3_TRACE_QUERY_SERVICES ∧ Forall countable (trace_activity w).*2;
  m_errors : (trace_errors w).*1 = V3_TRACE_QUERY_SERVICES ∧ Forall error_item (trace_errors w).*2;
}.

Lemma finite_int z : countable z → finite_measurement (VInt z) = Ok true.
Proof. unfold countable. cbn. by intros ->. Qed.

Lemma error_item_fine v : error_item v → fine v.
Proof.
  intros (c & ds & e & -> & _). apply fine_sdict; [by vm_compute|]. cbn. repeat apply Forall_cons_2; try apply Forall_nil_2; cbn; auto.
Qed.

Lemma services_of_fine (kvs : list (string * val)) :
  kvs.*1 = V3_TRACE_QUERY_SERVICES → Forall fine kvs.*2 → fine (sdict kvs).
Proof. intros Hk Hf. apply fine_sdict; [|done]. rewrite Hk. by vm_compute. Qed.

Lemma activity_services w : measured w →
  ∃ kvs, activity_fields w = [("services", sdict kvs)] ∧ kvs.*1 = V3_TRACE_QUERY_SERVICES ∧
    Forall (λ v, ∃ n, v = sdict [("trace_count", VInt n)] ∧ countable n) kvs.*2.
Proof.
  intros [_ _ _ _ _ _ [Hk Hn] _]. eexists. split; [done|]. rewrite <-!list_fmap_compose. split; [exact Hk|].
  revert Hn. rewrite !Forall_fmap. intros Hn. eapply Forall_impl; [exact Hn|]. intros [s n] Hc. by exists n.
Qed.

Lemma window_fields_fine w : measured w →
  Forall (λ fields : public_window → list (string * val), Forall fine (fields w).*2)
    [journey_fields; activity_fields; error_fields; cpu_fields; memory_fields; queue_fields].
Proof.
  intros Hw. rewrite !Forall_cons, Forall_nil. split_and!; [| | | | | |done].
  - repeat apply Forall_cons_2; try apply Forall_nil_2; by split.
  - destruct (activity_services w Hw) as (kvs & -> & Hk & Hf). apply Forall_singleton.
    apply services_of_fine; [done|]. eapply Forall_impl; [exact Hf|]. intros v (n & -> & _).
    apply fine_sdict; [by vm_compute|]. by apply Forall_singleton.
  - destruct (m_errors w Hw) as [Hk Hf]. apply Forall_singleton, services_of_fine; [done|].
    eapply Forall_impl; [exact Hf|]. apply error_item_fine.
  - apply Forall_singleton, Hw.
  - apply Forall_singleton, Hw.
  - repeat apply Forall_cons_2; [apply Hw..|done].
Qed.

(** ** Groups *)

Lemma assoc_find_app {A} k (l1 l2 : list (string * A)) :
  assoc_find k (l1 ++ l2) = match assoc_find k l1 with Some x => Some x | None => assoc_find k l2 end.
Proof. induction l1 as [|[k' x] l1 IH]; [done|]. cbn. by case_bool_decide. Qed.

Definition group_items (id kind source : string) (description : list (string * val))
    (fields : public_window → list (string * val)) (windows : list public_window) : list (string * val) :=
  [("id", VStr id); ("kind", VStr kind); ("source", VStr source)] ++ description ++
  [("samples", VList ((λ iw, sdict (("window_index", VInt iw.1) :: fields iw.2)) <$> numbered windows))].
Definition sample_dict (fields : public_window → list (string * val)) (iw : Z * public_window) : mapping :=
  items (("window_index", VInt iw.1) :: fields iw.2).
Definition sample_dicts (fields : public_window → list (string * val)) (windows : list public_window) : list mapping :=
  sample_dict fields <$> numbered windows.

Lemma numbered_length {A} (xs : list A) : length (numbered xs) = length xs.
Proof. unfold numbered. rewrite length_zip, length_fmap, length_seq. lia. Qed.
Lemma numbered_snd {A} (xs : list A) x : x ∈ numbered xs → x.2 ∈ xs.
Proof.
  unfold numbered. intros Hx. destruct x as [i x]. apply elem_of_zip_r in Hx. done.
Qed.

Lemma indices_numbered fields (windows : list public_window) (n : nat) :
  indices_are (dget "window_index" <$>
    (sample_dict fields <$> zip (list_fmap _ _ Z.of_nat (seq n (length windows))) windows)) (Z.of_nat n) = true.
Proof.
  revert n. induction windows as [|w windows IH]; intros n; [done|]. cbn [length seq fmap list_fmap zip zip_with].
  cbn [indices_are]. apply andb_true_iff. split.
  - unfold sample_dict. rewrite dget_sdict. apply Z.eqb_refl.
  - replace (Z.of_nat n + 1)%Z with (Z.of_nat (S n)) by lia. apply IH.
Qed.

Section Group.
Context (case_id id kind source : string) (description : list (string * val)).
Context (fields : public_window → list (string * val)) (windows : list public_window).
Hypothesis Hid : evidence_id_v3 case_id kind = Ok id.
Hypothesis Hdesc :
  keys_check (GROUP_FIELDS kind) (["id"; "kind"; "source"] ++ description.*1 ++ ["samples"]) &&
  forallb (λ k, negb (bool_decide (k = "samples"))) description.*1 = true.
Hypothesis Hfields : ∀ w, keys_check (GROUP_SAMPLE_FIELDS kind) ("window_index" :: (fields w).*1) = true.
Hypothesis Hlen : length windows = 7%nat.

Lemma group_samples :
  dget "samples" (items (group_items id kind source description fields windows)) =
    VList ((λ iw, sdict (("window_index", VInt iw.1) :: fields iw.2)) <$> numbered windows).
Proof using Hdesc.
  rewrite dget_sdict. unfold group_items. cbn [app assoc_find]. cbn -[numbered]. rewrite assoc_find_app.
  apply andb_true_iff in Hdesc as [_ Hd]. clear -Hd.
  assert (assoc_find "samples" description = None) as ->; [|done].
  induction description as [|[k v] l IH]; [done|]. cbn in Hd |- *. bool_prop.
  rewrite bool_decide_eq_false_2 by done. auto.
Qed.

Lemma group_validates :
  validate_samples kind (items (group_items id kind source description fields windows))
    (sample_dicts fields windows) = Ok tt →
  validate_group case_id (group id kind source description fields windows) = Ok tt.
Proof using All.
  intros Hs. change (group id kind source description fields windows)
    with (VDict (items (group_items id kind source description fields windows))).
  cbn [validate_group]. rewrite group_samples.
  assert (kind_of (items (group_items id kind source description fields windows)) = kind) as ->.
  { unfold kind_of. by rewrite dget_sdict. }
  rewrite keys_are_sdict. apply andb_true_iff in Hdesc as [Hk _].
  assert ((group_items id kind source description fields windows).*1
    = ["id"; "kind"; "source"] ++ description.*1 ++ ["samples"]) as ->.
  { unfold group_items. rewrite !fmap_app. done. }
  rewrite Hk. cbn [negb]. rewrite Hid. cbn [rbind].
  assert (dget "id" (items (group_items id kind source description fields windows)) = VStr id) as ->
    by by rewrite dget_sdict.
  cbn [val_is]. rewrite (bool_decide_eq_true_2 (id = id)) by done. cbn [negb].
  rewrite length_fmap, numbered_length, Hlen, as_dict_sdicts.
  change (fmap _ (numbered windows)) with (sample_dicts fields windows).
  assert (length (sample_dicts fields windows) = 7%nat) as -> by by unfold sample_dicts; rewrite length_fmap, numbered_length.
  rewrite (bool_decide_eq_true_2 (7%nat = 7%nat)) by done. cbn [negb].
  cbn [andb].
  assert (forallb (keys_are (GROUP_SAMPLE_FIELDS kind))
    (sample_dicts fields windows) = true) as ->.
  { apply forallb_Forall_true, Forall_fmap, Forall_true. intros iw. unfold compose, sample_dict.
    rewrite keys_are_sdict. apply Hfields. }
  cbn [negb]. assert (indices_are (dget "window_index" <$> sample_dicts fields windows) 0 = true) as Hi
    by apply (indices_numbered fields windows 0).
  rewrite Hi. cbn [negb]. exact Hs.
Qed.

Lemma group_fine :
  bool_decide (NoDup (["id"; "kind"; "source"] ++ description.*1 ++ ["samples"])) &&
  forallb (λ k, negb (forbidden_name k)) (["id"; "kind"; "source"] ++ description.*1 ++ ["samples"]) = true →
  (∀ w, bool_decide (NoDup ("window_index" :: (fields w).*1)) &&
        forallb (λ k, negb (forbidden_name k)) ("window_index" :: (fields w).*1) = true) →
  Forall fine description.*2 → Forall (λ w, Forall fine (fields w).*2) windows →
  fine (group id kind source description fields windows).
Proof using All.
  intros Hk Hf Hd Hw. apply fine_sdict.
  { rewrite !fmap_app. exact Hk. }
  rewrite !fmap_app. repeat apply Forall_app_2; [by repeat apply Forall_cons_2|done|].
  apply Forall_singleton, fine_list, Forall_fmap, Forall_forall. intros iw Hiw. unfold compose.
  apply fine_sdict; [apply Hf|]. apply Forall_cons_2; [by split|].
  rewrite Forall_forall in Hw. apply Hw. by apply numbered_snd.
Qed.
End Group.

(** ** The samples of each kind *)

Lemma rfor_forall {A} (p : A → R unit) xs : (∀ x, x ∈ xs → p x = Ok tt) → rfor p xs = Ok tt.
Proof.
  induction xs as [|x xs IH]; intros H; [done|]. cbn. rewrite (H x) by left. cbn. apply IH. intros y Hy. apply H. by right.
Qed.
Lemma rall_forall {A} (p : A → R bool) xs : (∀ x, x ∈ xs → p x = Ok true) → rall p xs = Ok true.
Proof.
  induction xs as [|x xs IH]; intros H; [done|]. cbn. rewrite (H x) by left. cbn. apply IH. intros y Hy. apply H. by right.
Qed.

Lemma assoc_find_forall {A} (P : A → Prop) k (kvs : list (string * A)) :
  k ∈ kvs.*1 → Forall P kvs.*2 → ∃ v, assoc_find k kvs = Some v ∧ P v.
Proof.
  induction kvs as [|[k' v] kvs IH]; cbn; [by intros ?%elem_of_nil|]. intros Hk [Hv Hvs]%Forall_cons.
  destruct (decide (k' = k)) as [->|Hne]; [rewrite bool_decide_eq_true_2 by done; eauto|].
  rewrite bool_decide_eq_false_2 by done. apply elem_of_cons in Hk as [?|?]; [done|auto].
Qed.

(** The services of one sample. *)
Lemma services_validate kind i (kvs : list (string * val)) :
  kvs.*1 = V3_TRACE_QUERY_SERVICES →
  Forall (λ v, ∃ d, v = VDict d ∧ service_measurement_ok kind d = Ok true) kvs.*2 →
  validate_services kind (items [("window_index", VInt i); ("services", sdict kvs)]) = Ok tt.
Proof.
  intros Hk Hf. unfold validate_services. rewrite dget_sdict. cbn [assoc_find fst snd].
  change (default VNone _) with (sdict kvs). unfold sdict. rewrite keys_are_sdict, Hk.
  assert (keys_check V3_TRACE_QUERY_SERVICES V3_TRACE_QUERY_SERVICES = true) as -> by by vm_compute. cbn [negb].
  apply rfor_forall. intros service Hs. rewrite dget_sdict.
  destruct (assoc_find_forall _ service kvs ltac:(by rewrite Hk) Hf) as (v & -> & d & -> & Hd).
  cbn. by rewrite Hd.
Qed.

Lemma activity_measurement n : countable n →
  service_measurement_ok "trace_activity" (items [("trace_count", VInt n)]) = Ok true.
Proof.
  intros Hn. unfold service_measurement_ok. rewrite bool_decide_eq_true_2, keys_are_sdict by done.
  change (keys_check _ _) with true. cbv iota. rewrite dget_sdict. exact (finite_int n Hn).
Qed.
Lemma error_measurement c ds e : countable c → countable e →
  service_measurement_ok "trace_errors"
    (items [("connection_error_count", VInt c); ("descriptions", VList (VStr <$> ds)); ("error_count", VInt e)]) = Ok true.
Proof.
  intros Hc He. unfold service_measurement_ok. rewrite bool_decide_eq_false_2 by done.
  rewrite keys_are_sdict. change (keys_check _ _) with true. cbv iota.
  rewrite !dget_sdict.
  change (default VNone (assoc_find "connection_error_count" _)) with (VInt c).
  change (default VNone (assoc_find "descriptions" _)) with (VList (VStr <$> ds)).
  change (default VNone (assoc_find "error_count" _)) with (VInt e).
  rewrite (finite_int c Hc), (finite_int e He). cbn [rbind negb]. f_equal. by induction ds.
Qed.

Section Samples.
Context (windows : list public_window) (Hw : Forall measured windows).

Lemma sample_dict_elem fields sample : sample ∈ sample_dicts fields windows →
  ∃ i w, sample = items (("window_index", VInt i) :: fields w) ∧ measured w.
Proof using Hw.
  intros ([i w] & -> & Hin)%list_elem_of_fmap. exists i, w. split; [done|].
  rewrite Forall_forall in Hw. apply Hw. by apply (numbered_snd windows (i, w)).
Qed.

Lemma journey_validates item : validate_samples "journey_window" item (sample_dicts journey_fields windows) = Ok tt.
Proof using Hw.
  unfold validate_samples. rewrite bool_decide_eq_true_2 by done.
  assert (forallb journey_sample_ok (sample_dicts journey_fields windows) = true) as ->; [|done].
  apply forallb_Forall_true, Forall_forall. intros s (i & w & -> & _)%sample_dict_elem. done.
Qed.

Lemma scoped_validates kind item fields :
  kind ∈ ["trace_activity"; "trace_errors"] → dget "service_scope" item = VList (VStr <$> V3_TRACE_QUERY_SERVICES) →
  (∀ i w, measured w → validate_services kind (items (("window_index", VInt i) :: fields w)) = Ok tt) →
  validate_samples kind item (sample_dicts fields windows) = Ok tt.
Proof using Hw.
  intros Hk Hscope Hv. unfold validate_samples. rewrite bool_decide_eq_false_2 by (intros ->; revert Hk; set_solver).
  rewrite bool_decide_eq_true_2 by done. rewrite Hscope. change (strings_are _ _) with true. cbn [negb].
  apply rfor_forall. intros s (i & w & -> & Hm)%sample_dict_elem. by apply Hv.
Qed.

Lemma series_validates kind item fields :
  kind ∈ ["cpu_window"; "memory_window"; "queue_window"] →
  (∀ i w, measured w → rall (λ field, finite_measurement (dget field (items (("window_index", VInt i) :: fields w))))
                          (tail (GROUP_SAMPLE_FIELDS kind)) = Ok true) →
  validate_samples kind item (sample_dicts fields windows) = Ok tt.
Proof using Hw.
  intros Hk Hv. unfold validate_samples.
  rewrite bool_decide_eq_false_2 by (intros ->; revert Hk; set_solver).
  rewrite bool_decide_eq_false_2 by (revert Hk; rewrite !elem_of_cons, !elem_of_nil; intros [->|[->|[->|[]]]] [?|[?|[]]]; done).
  rewrite rall_forall; [done|]. intros s (i & w & -> & Hm)%sample_dict_elem. by apply Hv.
Qed.
End Samples.

(** ** The packet *)

Definition evidence_id (case_id kind : string) : string :=
  "ev3-" +:+ str_take 24 (sha256_hex (utf8 (case_id +:+ String "000" "" +:+ int_repr METRIC_VERSION +:+
    String "000" "" +:+ kind))).
Lemma evidence_id_known case_id kind :
  bool_decide (kind ∈ EVIDENCE_KINDS) = true → evidence_id_v3 case_id kind = Ok (evidence_id case_id kind).
Proof. unfold evidence_id_v3. by intros ->. Qed.

Section Packet.
Context (case_id brief : string) (windows : list public_window).
Hypothesis Hlen : length windows = 7%nat.
Hypothesis Hphases : phase <$> windows = repeat "healthy" 5 ++ repeat "fault" 2.
Hypothesis Hm : Forall measured windows.

Definition six_groups : list val :=
  [group (evidence_id case_id "journey_window") "journey_window" "frontend-proxy" [] journey_fields windows;
   group (evidence_id case_id "trace_activity") "trace_activity" "jaeger" service_scope activity_fields windows;
   group (evidence_id case_id "trace_errors") "trace_errors" "jaeger" service_scope error_fields windows;
   group (evidence_id case_id "cpu_window") "cpu_window" "prometheus"
     (series "ad" "container_cpu_usage_rate" "cpu_cores") cpu_fields windows;
   group (evidence_id case_id "memory_window") "memory_window" "prometheus"
     (series "email" "container_memory_working_set" "bytes") memory_fields windows;
   group (evidence_id case_id "queue_window") "queue_window" "prometheus"
     (series "fraud-detection" "consumer_poll_lag" "seconds") queue_fields windows].
Lemma evidence_groups_six : evidence_groups case_id windows = Ok six_groups.
Proof using. unfold evidence_groups. by rewrite !evidence_id_known by by vm_compute. Qed.

Lemma six_groups_validate v : v ∈ six_groups → validate_group case_id v = Ok tt.
Proof using Hlen Hm.
  assert (∀ k, bool_decide (k ∈ EVIDENCE_KINDS) = true → evidence_id_v3 case_id k = Ok (evidence_id case_id k)) as Hid
    by apply evidence_id_known.
  unfold six_groups. rewrite !elem_of_cons, elem_of_nil. intros [->|[->|[->|[->|[->|[->|[]]]]]]];
    (apply group_validates; [by apply Hid|by vm_compute| |done|]; [intros w; try by vm_compute|]).
  - by apply journey_validates.
  - apply (scoped_validates windows Hm); [by left|by rewrite dget_sdict|]. intros i w Hw.
    destruct (activity_services w Hw) as (kvs & -> & Hk & Hf). apply services_validate; [done|].
    eapply Forall_impl; [exact Hf|]. intros v (n & -> & Hn). eexists. split; [done|]. by apply activity_measurement.
  - apply (scoped_validates windows Hm); [by right; left|by rewrite dget_sdict|]. intros i w Hw.
    destruct (m_errors w Hw) as [Hk Hf]. apply services_validate; [done|].
    eapply Forall_impl; [exact Hf|]. intros v (c & ds & e & -> & Hc & He). eexists. split; [done|].
    by apply error_measurement.
  - apply (series_validates windows Hm); [by left|]. intros i w Hw. apply rall_forall.
    intros f ->%list_elem_of_singleton. rewrite dget_sdict. apply Hw.
  - apply (series_validates windows Hm); [by right; left|]. intros i w Hw. apply rall_forall.
    intros f ->%list_elem_of_singleton. rewrite dget_sdict. apply Hw.
  - apply (series_validates windows Hm); [by right; right; left|]. intros i w Hw. apply rall_forall.
    intros f Hf. rewrite dget_sdict.
    change (f ∈ ["consumer_lag"; "consumer_poll_lag_seconds"; "consumer_record_lag"]) in Hf.
    rewrite !elem_of_cons, elem_of_nil in Hf. destruct Hf as [->|[->|[->|[]]]]; apply Hw.
Qed.

Lemma six_groups_fine : fine (VList six_groups).
Proof using Hm Hlen.
  clear Hphases. assert (∀ fields, fields ∈ [journey_fields; activity_fields; error_fields; cpu_fields; memory_fields; queue_fields] →
    Forall (λ w, Forall fine (fields w).*2) windows) as Hf.
  { intros fields Hin. eapply Forall_impl; [exact Hm|]. intros w Hw.
    pose proof (window_fields_fine w Hw) as Hall. rewrite Forall_forall in Hall. by apply Hall. }
  apply fine_list. unfold six_groups. rewrite !Forall_cons, Forall_nil. split_and!; try done.
  all: apply (group_fine case_id) ; [by apply evidence_id_known|by vm_compute|intros w; by vm_compute|done|
    by vm_compute|intros w; by vm_compute| |apply Hf; set_solver].
  all: solve [apply Forall_nil_2|apply Forall_singleton, fine_strs|by repeat apply Forall_cons_2].
Qed.

Lemma window_entries_ok : windows_ok (window_entries windows) = true.
Proof using Hlen Hphases Hm.
  destruct windows as [|w0 [|w1 [|w2 [|w3 [|w4 [|w5 [|w6 [|]]]]]]]]; try discriminate Hlen.
  injection Hphases as H0 H1 H2 H3 H4 H5 H6. rewrite !Forall_cons in Hm.
  destruct Hm as (M0 & M1 & M2 & M3 & M4 & M5 & M6 & _).
  assert (∀ w, measured w → ∃ c r, pw_recorded_at w = String c r) as Ht.
  { intros w Hw. pose proof (m_time _ Hw). destruct (pw_recorded_at w); [done|eauto]. }
  destruct (Ht w0 M0) as (?&?&R0), (Ht w1 M1) as (?&?&R1), (Ht w2 M2) as (?&?&R2), (Ht w3 M3) as (?&?&R3),
    (Ht w4 M4) as (?&?&R4), (Ht w5 M5) as (?&?&R5), (Ht w6 M6) as (?&?&R6). clear -H0 H1 H2 H3 H4 H5 H6 R0 R1 R2 R3 R4 R5 R6.
  unfold window_entries. cbn [numbered length seq fmap list_fmap zip zip_with fst snd].
  rewrite H0, H1, H2, H3, H4, H5, H6, R0, R1, R2, R3, R4, R5, R6. by vm_compute.
Qed.
Lemma window_entries_fine : fine (window_entries windows).
Proof using.
  apply fine_list, Forall_fmap, Forall_true. intros [i w]. unfold compose. apply fine_sdict; [by vm_compute|].
  repeat apply Forall_cons_2; try apply Forall_nil_2; by split.
Qed.

Abbreviation subject := (packet_subject case_id brief (window_entries windows) (VList six_groups)).
Lemma subject_fine : Forall fine subject.*2.
Proof using Hm Hlen.
  repeat apply Forall_cons_2; try apply Forall_nil_2;
    solve [by split|apply window_entries_fine|apply six_groups_fine].
Qed.

Lemma packet_validates digest :
  digest_json (sdict subject) = Ok digest →
  is_ok (validate_observation_packet_v3 (items (subject ++ [("packet_digest", VStr digest)]))) = true.
Proof using Hlen Hphases Hm.
  intros Hd. unfold validate_observation_packet_v3. rewrite keys_are_sdict. change (keys_check _ _) with true.
  cbn [negb]. rewrite !dget_sdict.
  change (default VNone (assoc_find "schema_version" _)) with (VStr WIRE_SCHEMA_VERSION).
  change (default VNone (assoc_find "metric_version" _)) with (VInt METRIC_VERSION).
  change (default VNone (assoc_find "windows" _)) with (window_entries windows).
  change (default VNone (assoc_find "observations" _)) with (VList six_groups).
  change (default VNone (assoc_find "case_id" _)) with (VStr case_id).
  change (default VNone (assoc_find "packet_digest" _)) with (VStr digest).
  change (val_is (VStr WIRE_SCHEMA_VERSION) WIRE_SCHEMA_VERSION) with true.
  change (equals_int (VInt METRIC_VERSION) METRIC_VERSION) with true. cbn [negb].
  rewrite window_entries_ok. cbn [negb].
  assert (kind_of <$> omap as_dict six_groups = EVIDENCE_KINDS) as Hk by done. rewrite Hk.
  change (bool_decide (length six_groups = 6%nat)) with true. cbn [negb].
  match goal with |- context [negb ?b] => change b with true end. cbn [negb val_str].
  rewrite rfor_forall by apply six_groups_validate. cbn [rbind].
  assert (walk_forbidden (VDict (items (subject ++ [("packet_digest", VStr digest)]))) = []) as Hclean.
  { apply (clean_sdict (subject ++ [("packet_digest", VStr digest)])).
    - rewrite fmap_app. by vm_compute.
    - rewrite fmap_app. apply Forall_app_2; [|by repeat constructor].
      eapply Forall_impl; [apply subject_fine|]. by intros v [_ ?]. }
  rewrite Hclean. change (sort_strings (remove_dups [])) with ([] : list string).
  rewrite bool_decide_eq_true_2 by done. cbn [negb].
  change (without_digest _) with (items subject).
  assert (Forall (λ v, json_ok v = true) subject.*2) as Hj.
  { eapply Forall_impl; [apply subject_fine|]. by intros v [? _]. }
  rewrite copied_items_ok by done. cbn [rbind]. rewrite copied_digest, Hd by done. cbn [rbind val_is].
  by rewrite bool_decide_eq_true_2.
Qed.

Lemma subject_digest : ∃ digest, digest_json (sdict subject) = Ok digest.
Proof using Hlen Hm.
  assert (fine (sdict subject)) as [Hj _] by (apply fine_sdict; [by vm_compute|apply subject_fine]).
  unfold digest_json. destruct (dumps_total canonical_style _ Hj) as [s ->]. eauto.
Qed.
End Packet.

Lemma public_window_phase sample window w : public_window_of sample window = Ok w → phase w = window.
Proof. unfold public_window_of. intros H. res_inv. done. Qed.

Lemma project_phases samples window ws :
  rmapM (λ w, public_window_of w window) samples = Ok ws →
  length ws = length samples ∧ phase <$> ws = repeat window (length samples).
Proof.
  intros H. split; [by eapply rmapM_length|]. apply rmapM_ok in H.
  induction H as [|s w samples ws Hw _ IH]; [done|]. cbn. apply public_window_phase in Hw as ->. by f_equal.
Qed.

(** Five healthy and two fault windows of finite measurements always become a
    packet: the check at the end of [build_observation_packet_v3] accepts whatever was
    built, so that only the measurements decide which cases enter the dataset. *)
Theorem built_packets_validate scenario brief healthy fault hw fw :
  truthy (val_str (default (VStr "") (dfind "scenario_id" scenario))) = true →
  dget "problem_brief" scenario = VStr brief → brief ≠ "" →
  length healthy = HEALTHY_WINDOW_COUNT → length fault = FAULT_WINDOW_COUNT →
  rmapM (λ w, public_window_of w "healthy") healthy = Ok hw →
  rmapM (λ w, public_window_of w "fault") fault = Ok fw →
  Forall measured (hw ++ fw) →
  ∃ packet, build_observation_packet_v3 scenario healthy fault = Ok packet ∧
    is_ok (validate_observation_packet_v3 packet) = true ∧ packet_complete packet.
Proof.
  intros Hid Hb Hbne Hh Hf Hhw Hfw Hm.
  destruct (project_phases _ _ _ Hhw) as [Hl1 Hp1]. destruct (project_phases _ _ _ Hfw) as [Hl2 Hp2].
  rewrite Hh in *. rewrite Hf in *. unfold HEALTHY_WINDOW_COUNT, FAULT_WINDOW_COUNT in *.
  assert (length (hw ++ fw) = 7%nat) as Hlen by (rewrite length_app; lia).
  assert (phase <$> hw ++ fw = repeat "healthy" 5 ++ repeat "fault" 2) as Hph by by rewrite fmap_app, Hp1, Hp2.
  set (case_id := val_str (default (VStr "") (dfind "scenario_id" scenario))) in *.
  destruct (subject_digest case_id brief (hw ++ fw) Hlen Hm) as [digest Hd].
  pose proof (packet_validates case_id brief (hw ++ fw) Hlen Hph Hm digest Hd) as Hv.
  eexists. split; [|split; [exact Hv|]].
  - unfold build_observation_packet_v3. rewrite Hb. fold case_id. rewrite Hid.
    assert (truthy brief = true) as -> by by apply bool_decide_eq_true_2. cbn [andb negb].
    rewrite (bool_decide_eq_true_2 (length healthy = HEALTHY_WINDOW_COUNT)) by done.
    rewrite (bool_decide_eq_true_2 (length fault = FAULT_WINDOW_COUNT)) by done. cbn [negb].
    rewrite Hhw, Hfw. cbn [rbind]. rewrite evidence_groups_six. cbn [rbind]. rewrite Hd. cbn [rbind].
    destruct (validate_observation_packet_v3 _); [done|discriminate Hv].
  - destruct (validate_observation_packet_v3 _) as [out|] eqn:E; [|discriminate Hv]. by eapply validate_complete.
Qed.

(** ** A dataset

    Thirty-two cases whose windows all show the same measurements; used to show that
    the hypotheses of the theorems can hold. *)
Module Demo.
Definition sample : mapping :=
  items [("recorded_at", VStr "2026-07-01T00:00:00Z"); ("ready", VBool true); ("journey_status", VInt 200);
         ("cpu_rate", VFloat "0.25"); ("working_set", VFloat "1024.0"); ("consumer_lag", VFloat "0.0");
         ("consumer_record_lag", VFloat "0.0"); ("consumer_poll_lag_seconds", VFloat "0.0");
         ("trace_activity", sdict ((λ s, (s, VInt 3)) <$> V3_TRACE_QUERY_SERVICES));
         ("trace_errors", sdict ((λ s, (s,
            sdict [("connection_error_count", VInt 0); ("descriptions", VList (VStr <$> [])); ("error_count", VInt 1)]))
            <$> V3_TRACE_QUERY_SERVICES))].
Definition window (name : string) : public_window :=
  {| phase := name; pw_recorded_at := "2026-07-01T00:00:00Z"; pw_ready := true; journey_status := 200;
     cpu_cores := VFloat "0.25"; working_set_bytes := VFloat "1024.0"; consumer_lag := VFloat "0.0";
     consumer_record_lag := VFloat "0.0"; consumer_poll_lag_seconds := VFloat "0.0";
     trace_activity := (λ s, (s, 3%Z)) <$> V3_TRACE_QUERY_SERVICES;
     trace_errors := (λ s, (s,
       sdict [("connection_error_count", VInt 0); ("descriptions", VList (VStr <$> [])); ("error_count", VInt 1)]))
       <$> V3_TRACE_QUERY_SERVICES |}.
Definition windows : list public_window := repeat (window "healthy") 5 ++ repeat (window "fault") 2.

Lemma sample_healthy : public_window_of sample "healthy" = Ok (window "healthy").
Proof. by vm_compute. Qed.
Lemma sample_fault : public_window_of sample "fault" = Ok (window "fault").
Proof. by vm_compute. Qed.

Lemma window_measured name : measured (window name).
Proof.
  split; try done.
  - split; [by vm_compute|]. cbn [window trace_activity]. apply Forall_fmap, Forall_fmap, Forall_true. by intros s.
  - split; [by vm_compute|]. cbn [window trace_errors]. apply Forall_fmap, Forall_fmap, Forall_true. intros s.
    exists 0%Z, [], 1%Z. split_and!; by vm_compute.
Qed.
Lemma windows_measured : Forall measured windows.
Proof. apply Forall_app_2; apply Forall_forall; intros w ->%list_elem_of_In%repeat_spec; apply window_measured. Qed.

Definition subject (id : string) : list (string * val) :=
  packet_subject id "checkout is slow" (window_entries windows) (VList (six_groups id windows)).
Definition digest (id : string) : string := 
  match digest_json (sdict (subject id)) with Ok d => d | Err _ => "" end.
Definition packet (id : string) : mapping := items (subject id ++ [("packet_digest", VStr (digest id))]).
Lemma packet_valid id : ∃ out, validate_observation_packet_v3 (packet id) = Ok out.
Proof.
  destruct (subject_digest id "checkout is slow" windows eq_refl windows_measured) as [d Hd].
  pose proof (packet_validates id "checkout is slow" windows eq_refl eq_refl windows_measured d Hd) as Hv.
  fold (subject id) in Hv, Hd. unfold packet, digest. rewrite Hd.
  destruct (validate_observation_packet_v3 _); [eauto|discriminate Hv].
Qed.

Definition fields : list (list string) :=
  [["ready"; "status_code"; "window_index"]; ["services"; "window_index"]; ["services"; "window_index"];
   ["cpu_cores"; "window_index"]; ["window_index"; "working_set_bytes"];
   ["consumer_lag"; "consumer_poll_lag_seconds"; "consumer_record_lag"; "window_index"]].
Ltac abstract_ids :=
  unfold packet, subject, six_groups;
  repeat match goal with |- context [evidence_id ?id ?k] => generalize (evidence_id id k); intros ? end;
  match goal with |- context [digest ?id] => generalize (digest id); intros ? end.

Lemma packet_fields id : rmapM (sample_fields (packet id)) EVIDENCE_KINDS = Ok fields.
Proof. abstract_ids. by vm_compute. Qed.
Lemma packet_journey id :
  match group_by_kind (packet id) "journey_window" with
  | Some g => contains_observed_nonzero (dget "samples" g)
  | None => false
  end = true.
Proof. abstract_ids. by vm_compute. Qed.

Definition record (id label : string) : val :=
  sdict [("status", VStr "pass");
         ("payload", sdict [("observation_packet", VDict (packet id)); ("fault_class", VStr label);
                            ("family", VStr "demo")])].

Lemma evidence_ids id ks :
  ks ⊆ EVIDENCE_KINDS → rmapM (evidence_id_v3 id) ks = Ok (evidence_id id <$> ks).
Proof.
  induction ks as [|k ks IH]; intros Hks; [done|]. cbn. rewrite evidence_id_known.
  - cbn [rbind]. rewrite IH; [done|]. intros k' Hk'. apply Hks. by right.
  - apply bool_decide_eq_true_2, Hks. by left.
Qed.

Lemma label_truth id label : label ∈ ROOT_CAUSE_LABELS →
  ∃ t, ground_truth_v3 id label = Ok t ∧ "journey_window" ∈ distractor_kinds t.
Proof.
  intros Hl. unfold ground_truth_v3.
  assert (∃ ks, REQUIRED_KINDS label = Some ks ∧ ks ⊆ EVIDENCE_KINDS ∧ "journey_window" ∉ ks) as (ks & -> & Hks & Hj).
  { assert (Forall (λ l, match REQUIRED_KINDS l with
       | Some ks => bool_decide (ks ⊆ EVIDENCE_KINDS) && bool_decide ("journey_window" ∉ ks) | None => false end = true)
       ROOT_CAUSE_LABELS) as Hall by by repeat constructor.
    rewrite Forall_forall in Hall. specialize (Hall label Hl). destruct (REQUIRED_KINDS label) as [ks|]; [|done].
    bool_prop. by exists ks. }
  cbn [from_option_or rbind]. rewrite (evidence_ids _ ks) by done. cbn [rbind].
  rewrite evidence_ids by (by intros k [_ ?]%list_elem_of_filter). cbn [rbind].
  eexists. split; [done|]. cbn [distractor_kinds]. apply sort_strings_elem, list_elem_of_filter.
  split; [done|]. by left.
Qed.

Lemma packet_json id : json_ok (VDict (packet id)) = true.
Proof.
  apply (json_ok_sdict (subject id ++ [("packet_digest", VStr (digest id))])).
  - apply (bool_decide_unpack _). by vm_compute.
  - rewrite fmap_app. apply Forall_app_2; [|by repeat constructor].
    eapply Forall_impl; [apply (subject_fine id _ windows eq_refl windows_measured)|]. by intros v [? _].
Qed.
Lemma record_case id label canonical : label ∈ ROOT_CAUSE_LABELS → default fields canonical = fields →
  ∃ c, case_of_record canonical (record id label) = Ok (id, c, fields).
Proof.
  intros Hl Hcan. destruct (label_truth id label Hl) as (t & Ht & Hj).
  unfold case_of_record, record, sdict at 1. rewrite dget_sdict.
  change (val_is (default VNone _) "pass") with true. cbn [negb]. rewrite dget_sdict.
  change (default VNone (assoc_find "payload" _)) with
    (sdict [("observation_packet", VDict (packet id)); ("fault_class", VStr label); ("family", VStr "demo")]).
  unfold sdict at 1. rewrite dget_sdict.
  change (default VNone (assoc_find "observation_packet" _)) with (VDict (packet id)). cbv iota.
  destruct (packet_valid id) as [out ->]. cbn [rbind].
  assert (dget "case_id" (packet id) = VStr id) as -> by (unfold packet; by rewrite dget_sdict).
  rewrite dfind_sdict. change (val_str (default _ (assoc_find "fault_class" _))) with label. cbn [val_str].
  rewrite Ht. cbn [rbind]. rewrite packet_fields. cbn [rbind]. rewrite Hcan, bool_decide_eq_true_2 by done. cbn [negb].
  rewrite bool_decide_eq_false_2.
  2:{ intros Hnil. assert ("journey_window" ∈ ([] : list string)) as Hin; [|by apply elem_of_nil in Hin].
      rewrite <-Hnil. apply list_elem_of_In, filter_In. split; [by apply list_elem_of_In|apply packet_journey]. }
  unfold json_copy.
  destruct (dumps_total canonical_style _ (packet_json id)) as [text ->].
  cbn [rbind]. eexists. done.
Qed.

Lemma set_case_fresh id c cs : id ∉ cs.*1 → set_case id c cs = cs ++ [(id, c)].
Proof.
  induction cs as [|[id' c'] cs IH]; [done|]. cbn. intros [Hne Hn]%not_elem_of_cons.
  rewrite bool_decide_eq_false_2 by done. by rewrite IH.
Qed.

Lemma records_fold (ps : list (string * string)) acc :
  NoDup ps.*1 → Forall (λ p, p.2 ∈ ROOT_CAUSE_LABELS ∧ p.1 ∉ acc.1.*1) ps → default fields acc.2 = fields →
  ∃ acc', rfold add_record ((λ p, record p.1 p.2) <$> ps) acc = Ok acc' ∧
    length acc'.1 = (length acc.1 + length ps)%nat.
Proof.
  revert acc. induction ps as [|[id label] ps IH]; intros acc Hnd Hps Hcan; [eexists; split; [done|cbn; lia]|].
  cbn in Hnd. apply NoDup_cons in Hnd as [Hid Hnd]. apply Forall_cons in Hps as [[Hl Hfresh] Hps].
  cbn [fmap list_fmap rfold fst snd]. unfold add_record at 1.
  destruct (record_case id label acc.2 Hl Hcan) as [c ->]. cbn [rbind].
  rewrite set_case_fresh by done.
  destruct (IH (acc.1 ++ [(id, c)], Some (default fields acc.2)) Hnd) as (acc' & -> & Hlen).
  - apply Forall_forall. intros [id' label'] Hin. rewrite Forall_forall in Hps. destruct (Hps _ Hin) as [Hl' Hf'].
    split; [done|]. cbn [fst] in *. rewrite fmap_app, elem_of_app. intros [?|Hs%list_elem_of_singleton]; [done|subst id'].
    apply Hid, list_elem_of_fmap. by exists (id, label').
  - by rewrite Hcan.
  - eexists. split; [done|]. rewrite Hlen. cbn [fst]. rewrite length_app. cbn. lia.
Qed.

Definition assignments : list (string * string) :=
  zip ((λ n : nat, "SEED-" +:+ int_repr (Z.of_nat n)) <$> seq 1 32) (take 32 (concat (repeat ROOT_CAUSE_LABELS 6))).
Definition document : mapping := items [("trials", VList ((λ p, record p.1 p.2) <$> assignments))].
Lemma document_accepted : ∃ cs, scenario_cases_v3 document = Ok cs.
Proof.
  unfold scenario_cases_v3, document. rewrite dget_sdict.
  change (default VNone _) with (VList ((λ p, record p.1 p.2) <$> assignments)). cbv iota.
  rewrite length_fmap. change (length assignments) with 32%nat. rewrite bool_decide_eq_true_2 by done. cbn [negb].
  destruct (records_fold assignments ([], None)) as (acc & -> & Hlen).
  - apply (bool_decide_unpack _). by vm_compute.
  - assert (forallb (λ p, bool_decide (p.2 ∈ ROOT_CAUSE_LABELS)) assignments = true) as Hall by by vm_compute.
    apply Forall_forall. intros p Hp. split; [|by apply not_elem_of_nil].
    rewrite forallb_forall in Hall. apply list_elem_of_In in Hp. specialize (Hall p Hp). by bool_prop.
  - done.
  - cbn [rbind]. rewrite Hlen. change (length assignments) with 32%nat. cbn [length Nat.add].
    rewrite bool_decide_eq_true_2 by done. cbn [negb]. eauto.
Qed.
End Demo.

Lemma built_packets_validate_witness :
  let scenario := items [("scenario_id", VStr "SEED-01"); ("problem_brief", VStr "checkout is slow")] in
  ∃ packet,
    build_observation_packet_v3 scenario (repeat Demo.sample 5) (repeat Demo.sample 2) = Ok packet ∧
    is_ok (validate_observation_packet_v3 packet) = true ∧ packet_complete packet.
Proof.
  apply (built_packets_validate _ "checkout is slow" _ _
    (repeat (Demo.window "healthy") 5) (repeat (Demo.window "fault") 2)).
  1-5: done.
  - cbn [repeat rmapM]. by rewrite Demo.sample_healthy.
  - cbn [repeat rmapM]. by rewrite Demo.sample_fault.
  - apply Demo.windows_measured.
Defined.

(** Which evidence groups have samples says nothing about the case: in every
    accepted dataset all thirty-two packets have the same presence signature, so the
    best the presence-only probe can do is always to answer a most frequent label. *)
Theorem presence_tells_nothing document cs p :
  scenario_cases_v3 document = Ok cs → presence_only_probe_v3 document = Ok p →
  signature_count p = 1%nat ∧ case_count p = 32%nat ∧
  ∃ l, top1_count p = occurrences l (labels_of cs) ∧
    ∀ l', (occurrences l' (labels_of cs) <= top1_count p)%nat.
Proof.
  intros Hcs Hp. destruct (scenario_cases_signature _ _ Hcs) as [Hsig Hlen].
  unfold presence_only_probe_v3 in Hp. rewrite Hcs in Hp. cbn [rbind] in Hp. apply Ok_inj in Hp as <-.
  assert (cs ≠ []) as Hne by by intros ->.
  destruct (top_count (labels_of cs)) as (l & Htop & Hmax); [by destruct cs|].
  cbn [signature_count case_count top1_count]. rewrite (signature_table_same cs) by done.
  split_and!; [done|done|]. exists l. cbn [fmap list_fmap snd sum_list sum_list_with]. rewrite Htop. cbn.
  rewrite Nat.add_0_r. done.
Qed.

Lemma presence_tells_nothing_witness : ∃ cs p,
  scenario_cases_v3 Demo.document = Ok cs ∧ presence_only_probe_v3 Demo.document = Ok p ∧
  signature_count p = 1%nat ∧ case_count p = 32%nat ∧
  ∃ l, top1_count p = occurrences l (labels_of cs) ∧
    ∀ l', (occurrences l' (labels_of cs) <= top1_count p)%nat.
Proof.
  destruct Demo.document_accepted as [cs Hcs].
  assert (∃ p, presence_only_probe_v3 Demo.document = Ok p) as [p Hp].
  { unfold presence_only_probe_v3. rewrite Hcs. cbn [rbind]. eauto. }
  exists cs, p. split; [exact Hcs|]. split; [exact Hp|]. exact (presence_tells_nothing _ _ _ Hcs Hp).
Defined.
