(* ===== verification/Lab.v ===== *)
(** * The fault laboratory

    [faultwitness_dev/g02_lab.py]: the fault adapters, the oracles that judge
    observations, the mutation of the flag document, and one scenario on a live
    system: inject, observe, restore, observe.  The flag service and the observer are
    external: a scenario is a computation over a world with the operations of
    [testbed]. *)
From S2P Require Import Prelude Json Sha256 PyDyn PyFloat Packet.

Definition FAMILIES : list string := ["change_config"; "resource_capacity"; "dependency_network"; "runtime_data"].
Definition DIFFICULTIES : list string := ["Easy"; "Medium"; "Hard"; "OOD"; "Adversarial"].
Definition SUT_RELEASE : string := "2.2.0".
Definition SUT_COMMIT : string := "b74a7bc7bbe66099c61951f42b24dab8b6f02d18".
Definition SEED_DOMAIN : string := "G02-seed-id-v1".
Definition AD_CPU_ACTIVE_MIN_CORES : double := dec 5 1.
Definition AD_CPU_ACTIVE_MULTIPLIER : double := double_of_int 5.
Definition EMAIL_MEMORY_MIN_GROWTH_BYTES : Z := 1024 * 1024.
Definition EMAIL_MEMORY_MIN_GROWTH_RATIO : double := dec 5 2.

Inductive OracleState : Type := HEALTHY | FAULT_ACTIVE | UNKNOWN.
#[export] Instance OracleState_eq_dec : EqDecision OracleState.
Proof. solve_decision. Defined.
Definition oracle_text (s : OracleState) : string :=
  match s with HEALTHY => "HEALTHY" | FAULT_ACTIVE => "FAULT_ACTIVE" | UNKNOWN => "UNKNOWN" end.

Record FaultAdapter := {
  family : string;
  flag_key : string;
  variant : string;
  required_fields : list string;
}.
Definition ADAPTERS_items : list (string * FaultAdapter) :=
  [("productCatalogFailure", {| family := "change_config"; flag_key := "productCatalogFailure"; variant := "on";
      required_fields := ["journey_failed"; "correlated_error"] |});
   ("adHighCpu", {| family := "resource_capacity"; flag_key := "adHighCpu"; variant := "on";
      required_fields := ["cpu_rate"; "baseline_cpu_max"; "correlated_span"] |});
   ("emailMemoryLeak", {| family := "resource_capacity"; flag_key := "emailMemoryLeak"; variant := "100x";
      required_fields := ["working_set"; "baseline_working_set"] |});
   ("paymentFailure", {| family := "dependency_network"; flag_key := "paymentFailure"; variant := "100%";
      required_fields := ["checkout_failed"; "payment_error"] |});
   ("paymentUnreachable", {| family := "dependency_network"; flag_key := "paymentUnreachable"; variant := "on";
      required_fields := ["checkout_failed"; "connection_error"] |});
   ("kafkaQueueProblems", {| family := "runtime_data"; flag_key := "kafkaQueueProblems"; variant := "on";
      required_fields := ["consumer_lag"; "baseline_lag"; "kafka_error"] |})].
Definition ADAPTERS (fault_class : string) : option FaultAdapter :=
  snd <$> List.find (λ kv, bool_decide (kv.1 = fault_class)) ADAPTERS_items.

(** ** The oracles *)

Definition has_fields (fields : list string) (item : mapping) : bool := forallb (λ f, has_key f item) fields.
Definition both (a b : string) (item : mapping) : bool := val_truthy (dget a item) && val_truthy (dget b item).

Definition ad_active (item : mapping) : R bool :=
  let* scaled := py (val_times (dget "baseline_cpu_max" item) (XFin AD_CPU_ACTIVE_MULTIPLIER)) in
  let* hot := py (val_ge (dget "cpu_rate" item) (xmax (XFin AD_CPU_ACTIVE_MIN_CORES) scaled)) in
  Ok (hot && val_truthy (dget "correlated_span" item)).
Definition minimum_growth (baseline : xnum) : xnum :=
  xmax (XFin (EMAIL_MEMORY_MIN_GROWTH_BYTES, 0%Z)) (xmul baseline (XFin EMAIL_MEMORY_MIN_GROWTH_RATIO)).
Definition email_active (first second : mapping) : R bool :=
  let* b1 := py (val_xfloat (dget "baseline_working_set" first)) in
  let* b2 := py (val_xfloat (dget "baseline_working_set" second)) in
  let baseline := xmax b1 b2 in
  let* now := py (val_xfloat (dget "working_set" second)) in
  if xle (minimum_growth baseline) (xsub now baseline) then
    let* before := py (val_xfloat (dget "working_set" first)) in
    Ok (xle (minimum_growth baseline) (xsub now before))
  else Ok false.
Definition kafka_active (item : mapping) : R bool :=
  let* behind := py (val_gt (dget "consumer_lag" item) (dget "baseline_lag" item)) in
  Ok (behind && val_truthy (dget "kafka_error" item)).

Definition fault_active (fault_class : string) (first second : mapping) : R bool :=
  let observations := [first; second] in
  if bool_decide (fault_class = "productCatalogFailure") then
    Ok (forallb (both "journey_failed" "correlated_error") observations)
  else if bool_decide (fault_class = "adHighCpu") then rall ad_active observations
  else if bool_decide (fault_class = "emailMemoryLeak") then email_active first second
  else if bool_decide (fault_class = "paymentFailure") then
    Ok (forallb (both "checkout_failed" "payment_error") observations)
  else if bool_decide (fault_class = "paymentUnreachable") then
    Ok (forallb (both "checkout_failed" "connection_error") observations)
  else if bool_decide (fault_class = "kafkaQueueProblems") then rall kafka_active observations
  else Ok false.

Definition fault_state (fault_class : string) (observations : list mapping) : R OracleState :=
  match observations with
  | [first; second] =>
      match ADAPTERS fault_class with
      | Some adapter =>
          if negb (forallb (has_fields (required_fields adapter)) observations) then Ok UNKNOWN
          else
            let* active := fault_active fault_class first second in
            Ok (if active : bool then FAULT_ACTIVE else HEALTHY)
      | None => Ok UNKNOWN
      end
  | _ => Ok UNKNOWN
  end.

(** Of observations and of what a journal holds of them. *)
Definition recovery_fields : list string := ["ready"; "journey_healthy"; "signal_not_worsening"].
Definition recovery_state (observations : list val) : R OracleState :=
  if negb (bool_decide (length observations = 2%nat)) then Ok UNKNOWN
  else
    let* complete := rall (λ item, rall (λ field, py (val_contains field item)) recovery_fields) observations in
    if negb complete then Ok UNKNOWN
    else
      let* healthy := rall (λ item, rall (λ field,
        let* v := py (subscript item field) in Ok (val_truthy v)) recovery_fields) observations in
      Ok (if healthy : bool then HEALTHY else FAULT_ACTIVE).

(** ** The mutation *)

(** [[key for key in flags if flags[key] != original["flags"][key]]] *)
Definition changed_flags (original flags : mapping) : list val :=
  (List.filter (λ kv : val * val, match kv.1 with VStr k => negb (py_eq kv.2 (dget k original)) | _ => false end)
     flags).*1.

Definition mutated_document (original : mapping) (adapter : FaultAdapter) : R mapping :=
  let lacks := RGovernance ("flag document lacks allowlisted key: " +:+ flag_key adapter) in
  match dget "flags" original with
  | VDict flags =>
      let* flag := from_option_or lacks (dfind (flag_key adapter) flags) in
      match flag with
      | VDict fields =>
          let* known := py (val_contains (variant adapter) (default (VDict []) (dfind "variants" fields))) in
          raise_if negb known with_ RGovernance "flag document lacks the frozen injection variant";;
          let flags' := dset (flag_key adapter)
                          (VDict (dset "defaultVariant" (VStr (variant adapter)) fields)) flags in
          raise_if negb (match changed_flags flags flags' with [k] => is_key (flag_key adapter) k | _ => false end)
            with_ RGovernance "scenario mutation changed more than one flag";;
          Ok (dset "flags" (VDict flags') original)
      | _ => Err (RGovernance "flag document lacks the frozen injection variant")
      end
  | _ => Err lacks
  end.

(** [hashlib.sha256(canonical_json(document).encode()).hexdigest()], where
    [canonical_json] keeps non-ASCII characters *)
Definition document_digest (v : val) : R string :=
  match dumps utf8_style v with
  | Some text => Ok (sha256_hex (utf8 text))
  | None => Err (RPython "TypeError")
  end.

Definition docs_equal (a b : mapping) : bool := py_eq (VDict a) (VDict b).

(** ** A scenario *)

(** [FlagDocumentClient] and [Observer] over the world [W] they act on. *)
Record testbed (W : Type) := {
  client_read : SE W readiness_exn mapping;
  client_write : mapping → SE W readiness_exn unit;
  observe : string → string → SE W readiness_exn mapping;
}.
Arguments client_read {W} t.
Arguments client_write {W} t document.
Arguments observe {W} t phase fault_class.

(** The body of a [try] whose handler keeps the error in a variable. *)
Definition stry {S E A} (m : SE S E A) : SE S E (result E A) := λ s, let '(r, s') := m s in (Ok r, s').

Section Scenario.
Context {W : Type} (tb : testbed W).
(** The texts of metric version 3 begin with [metric v3 ]. *)
Context (prefix : string).

Definition gov (text : string) : readiness_exn := RGovernance (prefix +:+ text).

Definition observe_twice (phase fault_class : string) : SE W readiness_exn (list mapping) :=
  let! first := observe tb phase fault_class in
  let! second := observe tb phase fault_class in
  sret [first; second].

(** The [try]: what was observed, and [primary_error]. *)
Definition inject_phase (fault_class : string) (original : mapping) (adapter : FaultAdapter)
    : SE W readiness_exn (list mapping * option readiness_exn) :=
  let! observed := stry (
    let! injected := slift (mutated_document original adapter) in
    client_write tb injected;;;
    let! readback := client_read tb in
    sguard (negb (docs_equal readback injected)) (gov "fault injection readback mismatch");;;
    observe_twice "fault" fault_class) in
  sret match observed with
       | Err e => ([], Some e)
       | Ok observations =>
           (observations,
            match fault_state fault_class observations with
            | Ok FAULT_ACTIVE => None
            | Ok _ => Some (gov "fault oracle did not reach FAULT_ACTIVE")
            | Err e => Some e
            end)
       end.

(** The [finally]: what was observed, and [cleanup_error]. *)
Definition restore_phase (fault_class : string) (original : mapping)
    : SE W readiness_exn (list mapping * option readiness_exn) :=
  let! observed := stry (
    client_write tb original;;;
    let! readback := client_read tb in
    sguard (negb (docs_equal readback original)) (gov "exact flag restoration readback mismatch");;;
    observe_twice "recovery" fault_class) in
  sret match observed with
       | Err e => ([], Some e)
       | Ok observations =>
           (observations,
            match recovery_state (VDict <$> observations) with
            | Ok HEALTHY => None
            | Ok _ => Some (gov "recovery oracle did not reach HEALTHY")
            | Err e => Some e
            end)
       end.
End Scenario.

(** [str(action.get("class"))] of a mapping [action]; [str(None)] otherwise *)
Definition fault_class_of (scenario : mapping) : string :=
  match dget "fault_action" scenario with VDict action => val_str (dget "class" action) | _ => "None" end.

Definition run_scenario {W} (tb : testbed W) (scenario : mapping) (precondition_recovery : option (list val))
    : SE W readiness_exn mapping :=
  let fault_class := fault_class_of scenario in
  match ADAPTERS fault_class with
  | None => sraise (RGovernance ("scenario uses unknown fault action: " +:+ fault_class))
  | Some adapter =>
      let! original := client_read tb in
      let! precondition_source :=
        match precondition_recovery with
        | None =>
            let! control := observe tb "control" fault_class in
            sguard (negb (val_is (dget "state" control) "HEALTHY"))
              (RGovernance "scenario healthy precondition is not proven");;;
            sret "control-observation"
        | Some recovery =>
            let! state := slift (recovery_state recovery) in
            sguard (negb (bool_decide (state = HEALTHY)))
              (RGovernance "prior scenario recovery does not prove a healthy precondition");;;
            sret "prior-scenario-recovery"
        end in
      let! injected := inject_phase tb "" fault_class original adapter in
      let! restored := restore_phase tb "" fault_class original in
      match restored.2, injected.2 with
      | Some cleanup_error, _ =>
          sraise (RGovernance ("scenario cleanup blocked and quarantined the SUT: " +:+ exn_text cleanup_error))
      | None, Some primary_error => sraise primary_error
      | None, None =>
          let! scenario_id := slift (py (subscript (VDict scenario) "scenario_id")) in
          let! scenario_family := slift (py (subscript (VDict scenario) "family")) in
          let! original_digest := slift (document_digest (VDict original)) in
          let! final := client_read tb in
          let! restored_digest := slift (document_digest (VDict final)) in
          sret ((λ kv, (VStr kv.1, kv.2)) <$>
            [("scenario_id", scenario_id); ("family", scenario_family); ("fault_class", VStr fault_class);
             ("precondition_source", VStr precondition_source);
             ("state_sequence", VList (VStr <$> ["HEALTHY"; "FAULT_ACTIVE"; "HEALTHY"]));
             ("original_digest", VStr original_digest); ("restored_digest", VStr restored_digest);
             ("fault_observations", VList (VDict <$> injected.1));
             ("recovery_observations", VList (VDict <$> restored.1))])
      end
  end.

(** ** The seed catalogue *)

Definition standard_slots : list (string * string) :=
  [("easy-1", "Easy"); ("easy-2", "Easy"); ("medium-1", "Medium"); ("medium-2", "Medium"); ("hard-1", "Hard");
   ("hard-2", "Hard"); ("ood", "OOD"); ("adversarial", "Adversarial")].
Definition endswith (s suffix : string) : bool :=
  bool_decide (str_drop (String.length s - String.length suffix) s = suffix).

(** A row: family, slot, fault class *)
Abbreviation slot_row := (string * string * string)%type.
Definition rows_of_slot (slot : string) : list slot_row :=
  let first := endswith slot "-1" || bool_decide (slot = "ood") in
  [("change_config", slot, "productCatalogFailure"); ("runtime_data", slot, "kafkaQueueProblems");
   ("resource_capacity", slot, if first then "adHighCpu" else "emailMemoryLeak");
   ("dependency_network", slot, if first then "paymentFailure" else "paymentUnreachable")].
Definition slot_rows : list slot_row := concat (rows_of_slot <$> standard_slots.*1).

(** [_difficulty], of the slots of the rows *)
Definition difficulty (slot : string) : string :=
  default "" (snd <$> List.find (λ kv, bool_decide (kv.1 = slot)) standard_slots).

Definition row_rank (row : slot_row) : string :=
  let '(family, slot, fault_class) := row in
  sha256_hex (utf8 (SEED_DOMAIN +:+
    default "" (dumps utf8_style (VList [VStr family; VStr slot; VStr fault_class])))).
Definition ranked_rows : list slot_row := sort_by (λ a b, str_le (row_rank a) (row_rank b)) slot_rows.

(** [f"{index:04d}"] of an index below 10000 *)
Definition pad4 (n : nat) : string :=
  let digits := int_repr (Z.of_nat n) in str_join "" (repeat "0" (4 - String.length digits)) +:+ digits.
Definition seed_id (index : nat) : string := "SEED-G02-" +:+ pad4 index.

Definition seed_of (image_set_digest : string) (index : nat) (row : slot_row) (adapter : FaultAdapter) : mapping :=
  let '(family, slot, fault_class) := row in
  (λ kv : string * val, (VStr kv.1, kv.2)) <$>
    [("schema_version", VStr "1.0.0"); ("scenario_id", VStr (seed_id index)); ("family", VStr family);
     ("difficulty", VStr (difficulty slot)); ("sut_release", VStr SUT_RELEASE); ("sut_commit", VStr SUT_COMMIT);
     ("image_set_digest", VStr image_set_digest);
     ("problem_brief", VStr ("Investigate the " +:+ casefold (difficulty slot) +:+
        " service incident using only the provided canonical observation packet."));
     ("control_journey", VStr "frontend-checkout");
     ("fault_action", sdict [("class", VStr fault_class); ("flag_key", VStr (flag_key adapter));
                             ("variant", VStr (variant adapter))]);
     ("observation_contract", sdict [("required", VList (VStr <$> required_fields adapter));
        ("sample_count", VInt 2); ("sample_interval_seconds", VInt 30); ("deadline_seconds", VInt 90)]);
     ("fault_oracle", VStr fault_class); ("recovery_oracle", VStr "exact-flag-readback-and-healthy-journey");
     ("ground_truth_ref", VStr ("s3://faultwitness-eval/g02/ground-truth/" +:+ seed_id index +:+ ".json"));
     ("catalog_slot", VStr slot)].

(** [re.fullmatch(r"[0-9a-f]{64}", s)] *)
Definition is_hex_char (c : Ascii.ascii) : bool :=
  existsb (Ascii.eqb c) (String.list_ascii_of_string "0123456789abcdef").
Definition full_hex (n : nat) (s : string) : bool := (String.length s =? n)%nat && str_all is_hex_char s.
Definition FULL_SHA (s : string) : bool := full_hex 40 s.

Definition seed_catalog (image_set_digest : string) : R (list mapping) :=
  raise_if negb (full_hex 64 image_set_digest)
    with_ RGovernance "seed catalogue requires a complete image-set digest";;
  rmapM (λ ir : nat * slot_row,
    let* adapter := from_option_or (RPython "KeyError") (ADAPTERS ir.2.2) in
    Ok (seed_of image_set_digest ir.1 ir.2 adapter)) (zip (seq 1 (length ranked_rows)) ranked_rows).

Definition seed_fields : list string :=
  ["schema_version"; "scenario_id"; "family"; "difficulty"; "sut_release"; "sut_commit"; "image_set_digest";
   "problem_brief"; "control_journey"; "fault_action"; "observation_contract"; "fault_oracle"; "recovery_oracle";
   "ground_truth_ref"; "catalog_slot"].

(** One turn of the first loop *)
Definition validate_seed (expected_digest : string) (seed : mapping) : R unit :=
  let missing := sort_strings (filter (λ k, has_key k seed = false) seed_fields) in
  raise_if negb (bool_decide (missing = []))
    with_ RGovernance ("G02 scenario lacks fields: " +:+ val_str (VList (VStr <$> missing)));;
  let fault_class := fault_class_of seed in
  let unknown := RGovernance ("G02 scenario uses unknown fault action: " +:+ fault_class) in
  let* adapter := from_option_or unknown (ADAPTERS fault_class) in
  match dget "fault_action" seed with
  | VDict action =>
      raise_if negb (val_is (dget "family" seed) (family adapter)) || negb (val_is (dget "flag_key" action) (flag_key adapter))
        with_ RGovernance "G02 scenario family or flag mapping drifted";;
      raise_if negb (val_is (dget "variant" action) (variant adapter))
        with_ RGovernance "G02 scenario injection variant drifted";;
      raise_if negb (val_is (dget "image_set_digest" seed) expected_digest)
        with_ RGovernance "G02 scenario image-set digest drifted";;
      Ok tt
  | _ => Err unknown
  end.

Definition seed_cell (seed : mapping) : string * string :=
  (val_str (dget "family" seed), val_str (dget "difficulty" seed)).
Definition cells : list (string * string) := list_prod FAMILIES DIFFICULTIES.
Definition cell_count (seeds : list mapping) (c : string * string) : nat :=
  length (filter (λ s, seed_cell s = c) seeds).

Definition validate_seed_catalog (seeds : list mapping) (expected_digest : string) : R unit :=
  raise_if negb (length seeds =? 32)%nat
    with_ RGovernance "G02 seed catalogue must contain exactly 32 scenarios";;
  raise_if negb (strings_are (dget "scenario_id" <$> seeds) (seed_id <$> seq 1 32))
    with_ RGovernance "G02 seed IDs are not the complete opaque sequence";;
  let* _ := rfor (validate_seed expected_digest) seeds in
  raise_if negb (forallb (λ s, bool_decide (seed_cell s ∈ cells)) seeds) with_ RPython "KeyError";;
  let counts := cell_count seeds <$> cells in
  raise_if negb (forallb (λ n, (n =? 1)%nat || (n =? 2)%nat) counts && bool_decide (1%nat ∈ counts) &&
                 bool_decide (2%nat ∈ counts)) with_ RGovernance "G02 family/difficulty allocation drifted";;
  rfor (λ f,
    raise_if negb (sum_list (cell_count seeds <$> List.filter (λ c, bool_decide (c.1 = f)) cells) =? 8)%nat
      with_ RGovernance ("G02 family does not contain eight seeds: " +:+ f);; Ok tt) FAMILIES.

(** ** The simulated laboratory *)

Record MemoryFlagClient := { document : mapping; initial : mapping; ignore_restore : bool }.
Definition memory_write (doc : mapping) (c : MemoryFlagClient) : MemoryFlagClient :=
  if ignore_restore c && docs_equal doc (initial c) && negb (docs_equal (document c) (initial c)) then c
  else {| document := doc; initial := initial c; ignore_restore := ignore_restore c |}.

Definition flag_variants : list (string * list (string * val)) :=
  [("productCatalogFailure", [("off", VBool false); ("on", VBool true)]);
   ("adHighCpu", [("off", VBool false); ("on", VBool true)]);
   ("emailMemoryLeak", [("off", VInt 0); ("100x", VInt 100)]);
   ("paymentFailure", [("off", VInt 0); ("100%", VInt 1)]);
   ("paymentUnreachable", [("off", VBool false); ("on", VBool true)]);
   ("kafkaQueueProblems", [("off", VInt 0); ("on", VInt 100)])].
Definition base_flag_document : mapping :=
  (λ kv : string * val, (VStr kv.1, kv.2)) <$>
    [("$schema", VStr "https://flagd.dev/schema/v0/flags.json");
     ("flags", sdict ((λ kv : string * list (string * val),
        (kv.1, sdict [("defaultVariant", VStr "off"); ("description", VStr ("G02 adapter contract for " +:+ kv.1));
                      ("state", VStr "ENABLED"); ("variants", sdict kv.2)])) <$> flag_variants))].

Definition smapping (kvs : list (string * val)) : mapping := (λ kv, (VStr kv.1, kv.2)) <$> kvs.
Definition scripted_observer (phase fault_class : string) : R mapping :=
  if bool_decide (phase = "control") then Ok (smapping [("state", VStr "HEALTHY")])
  else if bool_decide (phase = "recovery") then
    Ok (smapping [("ready", VBool true); ("journey_healthy", VBool true); ("signal_not_worsening", VBool true)])
  else from_option_or (RPython "KeyError") (snd <$> List.find (λ kv, bool_decide (kv.1 = fault_class))
    [("productCatalogFailure", smapping [("journey_failed", VBool true); ("correlated_error", VBool true)]);
     ("adHighCpu", smapping [("cpu_rate", VFloat "6.0"); ("baseline_cpu_max", VFloat "1.0");
                              ("correlated_span", VBool true)]);
     ("emailMemoryLeak", smapping [("working_set", VInt (3 * 1024 * 1024));
                                    ("baseline_working_set", VInt (1 * 1024 * 1024))]);
     ("paymentFailure", smapping [("checkout_failed", VBool true); ("payment_error", VBool true)]);
     ("paymentUnreachable", smapping [("checkout_failed", VBool true); ("connection_error", VBool true)]);
     ("kafkaQueueProblems", smapping [("consumer_lag", VFloat "2.0"); ("baseline_lag", VFloat "1.0");
                                       ("kafka_error", VBool true)])]).

(** [scripted_sequence_observer]: the samples its iterator has left. *)
Definition scripted_sequence_observer (phase fault_class : string) (samples : list Z) : R mapping * list Z :=
  if bool_decide (phase = "fault") && bool_decide (fault_class = "emailMemoryLeak") then
    match samples with
    | s :: rest => (Ok (smapping [("working_set", VInt s); ("baseline_working_set", VInt (1 * 1024 * 1024))]), rest)
    | [] => (Err (RPython "StopIteration"), [])
    end
  else (scripted_observer phase fault_class, samples).

Definition memory_testbed : testbed (MemoryFlagClient * list Z) := {|
  client_read := λ w, (Ok (document w.1), w);
  client_write := λ doc w, (Ok tt, (memory_write doc w.1, w.2));
  observe := λ phase fault_class w,
    let '(r, samples) := scripted_sequence_observer phase fault_class w.2 in (r, (w.1, samples));
|}.
Definition memory_lab (doc : mapping) (ignore : bool) : MemoryFlagClient * list Z :=
  ({| document := doc; initial := doc; ignore_restore := ignore |}, [3 * 1024 * 1024; 5 * 1024 * 1024])%Z.
