(* ===== verification/LabTheorems.v ===== *)
(** * Theorems on the laboratory

    The flag document is restored or the failure says that it was not; an injection
    changes one flag; the seed catalogue passes its own validation. *)
From S2P Require Import Prelude Json JsonFacts Sha256 PyDyn PyFloat Packet Scoring ScoringTheorems PacketTheorems Lab.

(** ** Restoration *)

(** Reads tell the document the system holds, and observing does not change it.
    Nothing is assumed about writes: they may fail, or do nothing, or do half. *)
Class TruthfulTestbed {W : Type} (tb : testbed W) (held : W → mapping) : Prop := {
  read_keeps w : held (client_read tb w).2 = held w;
  read_truth w d w' : client_read tb w = (Ok d, w') → d = held w;
  observe_keeps phase fault_class w : held (observe tb phase fault_class w).2 = held w;
}.

Definition same_document (a b : mapping) : Prop := a = b ∨ docs_equal a b = true.

Section Restoration.
Context {W : Type} (tb : testbed W) (held : W → mapping) `{!TruthfulTestbed tb held}.

Abbreviation still doc := (λ w : W, held w = doc).

Lemma read_still doc : keeps (still doc) (client_read tb).
Proof using All. intros w Hw. by rewrite read_keeps. Qed.
Lemma observe_still doc phase fault_class : keeps (still doc) (observe tb phase fault_class).
Proof using All. intros w Hw. by rewrite observe_keeps. Qed.
Hint Resolve read_still observe_still : fw.
Lemma observe_twice_still doc phase fault_class : keeps (still doc) (observe_twice tb phase fault_class).
Proof using All. unfold observe_twice. repeat (apply keeps_bind; [auto with fw|intros ?]). auto with fw. Qed.

(** The [finally] leaves no error behind only when the original was read back. *)
Lemma restore_phase_restores prefix fault_class original w observations w' :
  restore_phase tb prefix fault_class original w = (Ok (observations, None), w') →
  docs_equal (held w') original = true ∧ recovery_state (VDict <$> observations) = Ok HEALTHY.
Proof using All.
  unfold restore_phase. intros (r & s & Hs & H)%sbind_ok. unfold stry in Hs.
  destruct (sbind _ _ w) as [r' s'] eqn:E. injection Hs as <- <-.
  injection H as H <-. destruct r' as [obs|e]; [|by simplify_eq].
  destruct (recovery_state (VDict <$> obs)) as [[]|] eqn:Hr; simplify_eq.
  apply sbind_ok in E as ([] & w1 & Hw & E). apply sbind_ok in E as (readback & w2 & Hread & E).
  apply sbind_ok in E as ([] & w3 & Hguard & E). unfold sguard in Hguard.
  destruct (docs_equal readback original) eqn:Eq; [|by simplify_eq]. injection Hguard as <-.
  pose proof (read_truth _ _ _ Hread) as ->.
  pose proof (read_keeps (tb:=tb) (held:=held) w1) as H2. rewrite Hread in H2. cbn in H2.
  pose proof (observe_twice_still (held w2) "recovery" fault_class w2 eq_refl) as H3. rewrite E in H3. cbn in H3.
  split; [congruence|done].
Qed.

Lemma inject_phase_active prefix fault_class original adapter w observations w' :
  inject_phase tb prefix fault_class original adapter w = (Ok (observations, None), w') →
  fault_state fault_class observations = Ok FAULT_ACTIVE ∧
  ∃ injected, mutated_document original adapter = Ok injected.
Proof using All.
  unfold inject_phase. intros (r & s & Hs & H)%sbind_ok. unfold stry in Hs.
  destruct (sbind _ _ w) as [r' s'] eqn:E. injection Hs as <- <-.
  injection H as H <-. destruct r' as [obs|e]; [|by simplify_eq].
  apply sbind_ok in E as (injected & w1 & Hw & E). injection Hw as Hm <-.
  destruct (fault_state fault_class obs) as [[]|] eqn:Ef; simplify_eq; eauto.
Qed.

Lemma stry_returns {S E A B} (m : SE S E A) (f : result E A → B) s :
  ∃ b s', sbind (stry m) (λ r, sret (f r)) s = (Ok b, s').
Proof using . unfold sbind, stry. destruct (m s) as [r s']. by exists (f r), s'. Qed.
Lemma inject_phase_returns prefix fault_class original adapter w :
  ∃ r w', inject_phase tb prefix fault_class original adapter w = (Ok r, w').
Proof using . apply stry_returns. Qed.
Lemma restore_phase_returns prefix fault_class original w :
  ∃ r w', restore_phase tb prefix fault_class original w = (Ok r, w').
Proof using . apply stry_returns. Qed.
End Restoration.
#[export] Hint Resolve read_still observe_still : fw.

(** What [run_scenario] may say when the document is not restored. *)
Definition quarantined (e : readiness_exn) : Prop :=
  ∃ reason, e = RGovernance ("scenario cleanup blocked and quarantined the SUT: " +:+ reason).

(** A passing trial shows an active fault and a healthy recovery. *)
Definition passing (scenario result : mapping) : Prop :=
  ∃ observed recovered original adapter injected,
    ADAPTERS (fault_class_of scenario) = Some adapter ∧
    mutated_document original adapter = Ok injected ∧
    fault_state (fault_class_of scenario) observed = Ok FAULT_ACTIVE ∧ recovery_state (VDict <$> recovered) = Ok HEALTHY ∧
    dget "fault_observations" result = VList (VDict <$> observed) ∧
    dget "recovery_observations" result = VList (VDict <$> recovered).

(** C17: [run_scenario] never leaves an injected fault behind in silence.  Whatever
    fails on the way, and whatever the flag service does with a write, at the end the
    system holds the document it held at the start, or the error says that the system is
    quarantined; and a scenario passes only after an active fault and a healthy recovery. *)
Theorem scenario_restores_or_quarantines {W : Type} (tb : testbed W) (held : W → mapping)
    `{!TruthfulTestbed tb held} scenario precondition w r w' :
  run_scenario tb scenario precondition w = (r, w') →
  match r with
  | Ok result => docs_equal (held w') (held w) = true ∧ passing scenario result
  | Err e => same_document (held w') (held w) ∨ quarantined e
  end.
Proof.
  unfold run_scenario. destruct (ADAPTERS (fault_class_of scenario)) as [adapter|] eqn:Ea.
  2:{ intros [= <- <-]. by left; left. }
  intros H. unfold sbind at 1 in H. destruct (client_read tb w) as [[original|e] w1] eqn:Hread.
  2:{ injection H as <- <-. left; left. pose proof (read_keeps (tb:=tb) (held:=held) w) as Hk. by rewrite Hread in Hk. }
  pose proof (read_keeps (tb:=tb) (held:=held) w) as H1. rewrite Hread in H1. cbn in H1.
  pose proof (read_truth _ _ _ Hread) as ->. unfold sbind at 1 in H.
  match type of H with match ?pre w1 with _ => _ end = _ => 
    assert (keeps (λ u, held u = held w) pre) as Hpre end.
  { destruct precondition; repeat (apply keeps_bind; [auto with fw|intros ?]); auto with fw. }
  specialize (Hpre w1 H1).
  match type of H with match ?pre w1 with _ => _ end = _ => destruct (pre w1) as [[source|e] w2] eqn:Esource end.
  2:{ injection H as <- <-. by left; left. }
  cbn in Hpre. unfold sbind at 1 in H.
  destruct (inject_phase_returns tb "" (fault_class_of scenario) (held w) adapter w2) as ([observed perr] & w3 & Hi).
  rewrite Hi in H. unfold sbind at 1 in H.
  destruct (restore_phase_returns tb "" (fault_class_of scenario) (held w) w3) as ([recovered cerr] & w4 & Hr).
  rewrite Hr in H. cbn [fst snd] in H. destruct cerr as [cerr|].
  { injection H as <- <-. right. by eexists. }
  apply restore_phase_restores with (held := held) in Hr as [Heq Hrec]; [|done].
  destruct perr as [perr|]. { injection H as <- <-. left; by right. }
  apply inject_phase_active with (held := held) in Hi as [Hf [injected Hm]]; [|done].
  match type of H with ?m w4 = _ => assert (keeps (λ u, held u = held w4) m) as Hk end.
  { repeat (apply keeps_bind; [auto with fw|intros ?]). auto with fw. }
  specialize (Hk w4 eq_refl). rewrite H in Hk. cbn in Hk. destruct r as [result|e].
  2:{ left; right. congruence. }
  split; [congruence|].
  repeat (apply sbind_ok in H as (? & ? & _ & H)). injection H as <- _.
  exists observed, recovered, (held w), adapter, injected. by split_and!.
Qed.

(** The simulated laboratory. *)
#[export] Instance memory_truthful : TruthfulTestbed memory_testbed (λ w, document w.1).
Proof.
  split; [done|by intros w d w' [= <- _]|]. intros phase fault_class [c samples]. cbn.
  by destruct (scripted_sequence_observer _ _ _).
Qed.

Definition demo_scenario : mapping :=
  smapping [("scenario_id", VStr "SEED-G02-0001"); ("family", VStr "dependency_network");
             ("fault_action", sdict [("class", VStr "paymentFailure")])].
Lemma scenario_restores_or_quarantines_witness :
  (∃ result w', run_scenario memory_testbed demo_scenario None (memory_lab base_flag_document false) = (Ok result, w') ∧
     docs_equal (document w'.1) base_flag_document = true ∧ passing demo_scenario result) ∧
  (∃ e w', run_scenario memory_testbed demo_scenario None (memory_lab base_flag_document true) = (Err e, w') ∧
     docs_equal (document w'.1) base_flag_document = false ∧ quarantined e).
Proof.
  split.
  - destruct (run_scenario memory_testbed demo_scenario None (memory_lab base_flag_document false)) as [r w'] eqn:E.
    pose proof (scenario_restores_or_quarantines memory_testbed (λ w, document w.1) _ _ _ _ _ E) as H.
    destruct r as [result|e].
    + exists result, w'. split; [done|]. exact H.
    + assert (is_ok (run_scenario memory_testbed demo_scenario None (memory_lab base_flag_document false)).1 = true)
        as Hok by (vm_compute; reflexivity).
      rewrite E in Hok. discriminate Hok.
  - destruct (run_scenario memory_testbed demo_scenario None (memory_lab base_flag_document true)) as [r w'] eqn:E.
    pose proof (scenario_restores_or_quarantines memory_testbed (λ w, document w.1) _ _ _ _ _ E) as H.
    assert (docs_equal (document (run_scenario memory_testbed demo_scenario None
      (memory_lab base_flag_document true)).2.1) base_flag_document = false) as Hd by (vm_compute; reflexivity).
    rewrite E in Hd. cbn [snd] in Hd. destruct r as [result|e].
    + destruct H as [H _]. change (docs_equal (document w'.1) base_flag_document = true) in H. congruence.
    + exists e, w'. split; [done|]. split; [done|]. destruct H as [[Heq|Heq]|Hq]; [| |exact Hq].
      * change (document w'.1 = base_flag_document) in Heq. rewrite Heq in Hd. vm_compute in Hd. discriminate Hd.
      * change (docs_equal (document w'.1) base_flag_document = true) in Heq. congruence.
Defined.

(** ** The mutation *)

Lemma is_key_refl k : is_key k (VStr k) = true.
Proof. by apply bool_decide_eq_true_2. Qed.
Lemma is_key_other k k' : k ≠ k' → is_key k (VStr k') = false.
Proof. intros ?. by apply bool_decide_eq_false_2. Qed.
Lemma dfind_dset_same k v d : dfind k (dset k v d) = Some v.
Proof.
  induction d as [|[k0 v0] d IH]; cbn [dset dfind]; [by rewrite is_key_refl|].
  destruct (is_key k k0) eqn:E; cbn [dfind]; [by rewrite ?is_key_refl, ?E|by rewrite E].
Qed.
Lemma dfind_dset_other k k' v d : k ≠ k' → dfind k (dset k' v d) = dfind k d.
Proof.
  intros Hk. induction d as [|[k0 v0] d IH]; cbn [dset dfind]; [by rewrite is_key_other|].
  destruct (is_key k' k0) eqn:E; cbn [dfind]; [|by rewrite IH].
  destruct k0; try done. cbn in E. bool_prop. subst. by rewrite !is_key_other.
Qed.
Lemma dset_id k v d : dfind k d = Some v → dset k v d = d.
Proof.
  induction d as [|[k0 v0] d IH]; cbn [dset dfind]; [done|].
  destruct (is_key k k0) eqn:E; [|intros Hd; by rewrite IH].
  destruct k0; try done. cbn in E. bool_prop. subst. by intros [= ->].
Qed.

(** A JSON value without NaN whose mappings have distinct keys. *)
Fixpoint plain (v : val) : bool :=
  match v with
  | VNone | VBool _ | VInt _ | VStr _ => true
  | VFloat tok => negb (is_nan (x_of_token tok))
  | VList l => forallb plain l
  | VDict d => forallb (λ kv, key_is_str kv && plain kv.2) d && bool_decide (NoDup (dict_keys d))
  | VOther _ => false
  end.

Lemma dfind_nodup d k v : NoDup (dict_keys d) → (VStr k, v) ∈ d → dfind k d = Some v.
Proof.
  induction d as [|[k1 v1] d IH]; intros Hnd Hin; [by apply elem_of_nil in Hin|]. cbn [dfind].
  apply elem_of_cons in Hin as [[= <- <-]|Hin]; [cbn; by rewrite bool_decide_true|].
  destruct k1 as [| | | |s1| | |]; cbn [is_key dict_keys] in *; auto.
  apply NoDup_cons in Hnd as [Hn1 Hnd]. case_bool_decide as Heq; [|auto]. subst. exfalso. apply Hn1.
  clear -Hin. induction d as [|[k2 v2] d IH]; [by apply elem_of_nil in Hin|].
  apply elem_of_cons in Hin as [[= <- <-]|Hin]; [left|]. destruct k2; cbn; try right; auto.
Qed.

Lemma xeq_refl a : is_nan a = false → xeq a a = true.
Proof. intros Ha. unfold xeq. by rewrite xle_refl, Ha. Qed.

Lemma py_eq_refl v : plain v = true → py_eq v v = true.
Proof.
  induction v as [| | |tok|s|l IH|d IH|t] using val_ind_nested; cbn [plain]; intros Hp; try done.
  - by destruct b.
  - apply (xeq_refl (XFin (z, 0%Z))). done.
  - cbn. apply xeq_refl. by bool_prop.
  - cbn. by apply bool_decide_eq_true_2.
  - cbn. induction IH as [|x l Hx _ IHl]; [done|]. cbn in Hp. bool_prop. by rewrite Hx, IHl.
  - cbn. rewrite bool_decide_eq_true_2 by done. cbn [andb]. apply andb_true_iff in Hp as [Hall Hnd]. bool_prop.
    apply forallb_Forall_true, Forall_forall. intros [k v] Hin. cbn [fst snd].
    rewrite Forall_forall in IH. destruct (IH _ Hin) as [_ Hv]. cbn [snd] in Hv.
    rewrite forallb_forall in Hall. assert (Hkv := Hall (k, v) (proj1 (list_elem_of_In _ _) Hin)). cbn in Hkv.
    destruct k; try done. cbn in Hkv. erewrite dfind_nodup by done. by apply Hv.
Qed.

Lemma filter_none {A} (p : A → bool) l : (∀ x, x ∈ l → p x = false) → List.filter p l = [].
Proof.
  induction l as [|x l IH]; intros Hp; [done|]. cbn [List.filter]. rewrite (Hp x) by left.
  apply IH. intros y Hy. apply Hp. by right.
Qed.

(** An accepted mutation changes one thing: the default variant of the adapter's
    flag becomes the injected variant, one that the flag declares.  Every other flag,
    field and member keeps its value; and a flag that already has the injected variant
    is refused, so that a fault is never injected on top of itself. *)
Theorem mutation_changes_one_flag original adapter doc :
  mutated_document original adapter = Ok doc →
  ∃ flags fields flags' fields',
    dget "flags" original = VDict flags ∧ dfind (flag_key adapter) flags = Some (VDict fields) ∧
    dget "flags" doc = VDict flags' ∧ dfind (flag_key adapter) flags' = Some (VDict fields') ∧
    dget "defaultVariant" fields' = VStr (variant adapter) ∧
    val_contains (variant adapter) (default (VDict []) (dfind "variants" fields)) = Ok true ∧
    (∀ k, k ≠ "flags" → dfind k doc = dfind k original) ∧
    (∀ k, k ≠ flag_key adapter → dfind k flags' = dfind k flags) ∧
    (∀ k, k ≠ "defaultVariant" → dfind k fields' = dfind k fields) ∧
    (plain (VDict flags) = true → dfind "defaultVariant" fields ≠ Some (VStr (variant adapter))).
Proof.
  unfold mutated_document. destruct (dget "flags" original) as [| | | | | |flags|] eqn:Eflags; try discriminate.
  intros H. apply rbind_ok in H as (flag & Hflag & H). apply from_option_or_ok in Hflag.
  destruct flag as [| | | | | |fields|]; try discriminate H.
  apply rbind_ok in H as (known & Hknown & H). destruct known; [|discriminate H]. cbn [negb] in H.
  match type of H with (if negb ?b then _ else _) = _ => destruct b eqn:Echanged; [|discriminate H] end.
  cbn [negb] in H.
  apply Ok_inj in H as <-. set (fields' := dset "defaultVariant" (VStr (variant adapter)) fields).
  exists flags, fields, (dset (flag_key adapter) (VDict fields') flags), fields'.
  split_and!; try done.
  - unfold dget. by rewrite dfind_dset_same.
  - apply dfind_dset_same.
  - unfold dget, fields'. by rewrite dfind_dset_same.
  - unfold py in Hknown. destruct (val_contains _ _) as [[]|]; by simplify_eq.
  - intros k Hk. by apply dfind_dset_other.
  - intros k Hk. by apply dfind_dset_other.
  - intros k Hk. by apply dfind_dset_other.
  - intros Hplain Hsame. rewrite (dset_id _ _ fields Hsame), (dset_id _ _ flags Hflag) in Echanged.
    assert (changed_flags flags flags = []) as Hnil; [|by rewrite Hnil in Echanged].
    unfold changed_flags. cbn [plain] in Hplain. apply andb_true_iff in Hplain as [Hall Hnd]. bool_prop.
    assert (∀ kv, kv ∈ flags → match kv.1 with VStr k => negb (py_eq kv.2 (dget k flags)) | _ => false end = false)
      as Hno.
    { intros [k v] Hin. rewrite forallb_forall in Hall.
      assert (Hkv := Hall (k, v) (proj1 (list_elem_of_In _ _) Hin)). cbn in Hkv. destruct k; try done. cbn in *.
      unfold dget. erewrite dfind_nodup by done. cbn. by rewrite py_eq_refl. }
    by rewrite (filter_none _ _ Hno).
Qed.

Lemma mutation_changes_one_flag_witness : ∃ doc,
  mutated_document base_flag_document {| family := "dependency_network"; flag_key := "paymentFailure";
     variant := "100%"; required_fields := [] |} = Ok doc ∧
  (∃ fields', dfind "paymentFailure" (match dget "flags" doc with VDict d => d | _ => [] end) = Some (VDict fields') ∧
     dget "defaultVariant" fields' = VStr "100%") ∧
  dfind "$schema" doc = dfind "$schema" base_flag_document.
Proof.
  assert (is_ok (mutated_document base_flag_document {| family := "dependency_network"; flag_key := "paymentFailure";
     variant := "100%"; required_fields := [] |}) = true) as Hok by (vm_compute; reflexivity).
  destruct (mutated_document _ _) as [doc|] eqn:E; [|discriminate Hok].
  destruct (mutation_changes_one_flag _ _ _ E) as (flags & fields & flags' & fields' & _ & _ & H1 & H2 & H3 & _ & H4 & _).
  exists doc. split; [done|]. rewrite H1. split; [by exists fields'|]. by apply H4.
Defined.

(** ** The seed catalogue *)

Definition row_cell (row : slot_row) : string * string := (row.1.1, difficulty row.1.2).
Definition row_ok (row : slot_row) : bool :=
  match ADAPTERS row.2 with
  | Some adapter => bool_decide (family adapter = row.1.1) && bool_decide (row_cell row ∈ cells)
  | None => false
  end.
Definition row_count (c : string * string) : nat := length (filter (λ x, x = c) (row_cell <$> slot_rows)).

Lemma permuted_rows_ok rows : rows ≡ₚ slot_rows → Forall (λ row, row_ok row = true) rows.
Proof. intros ->. apply forallb_Forall_true. by vm_compute. Qed.

(** The seeds of rows, numbered from [i]. *)
Definition is_seed (digest : string) (seed : mapping) (i : nat) (row : slot_row) : Prop :=
  ∃ adapter, ADAPTERS row.2 = Some adapter ∧ seed = seed_of digest i row adapter.

Lemma seed_id_of digest i row adapter : dget "scenario_id" (seed_of digest i row adapter) = VStr (seed_id i).
Proof. by destruct row as [[f s] c]. Qed.
Lemma seed_cell_of digest i row adapter : seed_cell (seed_of digest i row adapter) = row_cell row.
Proof. by destruct row as [[f s] c]. Qed.

Lemma seed_of_validates digest i row adapter :
  ADAPTERS row.2 = Some adapter → family adapter = row.1.1 →
  validate_seed digest (seed_of digest i row adapter) = Ok tt.
Proof.
  destruct row as [[f s] c]. cbn [fst snd]. intros Ha Hf. unfold validate_seed.
  assert (filter (λ k, has_key k (seed_of digest i (f, s, c) adapter) = false) seed_fields = []) as ->.
  { by vm_compute. }
  cbn [sort_strings sort_by]. rewrite bool_decide_eq_true_2 by done. cbn [negb].
  change (fault_class_of (seed_of digest i (f, s, c) adapter)) with c. rewrite Ha. cbn [from_option_or rbind].
  change (dget "fault_action" (seed_of digest i (f, s, c) adapter)) with
    (sdict [("class", VStr c); ("flag_key", VStr (flag_key adapter)); ("variant", VStr (variant adapter))]).
  change (dget "family" (seed_of digest i (f, s, c) adapter)) with (VStr f).
  change (dget "image_set_digest" (seed_of digest i (f, s, c) adapter)) with (VStr digest).
  rewrite Hf. unfold sdict. cbn [fmap list_fmap fst snd].
  repeat match goal with |- context [val_is (dget ?k ?d) ?x] =>
    change (val_is (dget k d) x) with (val_is (VStr x) x) end.
  assert (∀ x, val_is (VStr x) x = true) as Hv by by intros x; apply bool_decide_eq_true_2.
  by rewrite !Hv.
Qed.

Lemma seed_ids_of digest seeds n rows :
  Forall3 (is_seed digest) seeds (seq n (length rows)) rows →
  strings_are (dget "scenario_id" <$> seeds) (seed_id <$> seq n (length rows)) = true.
Proof.
  revert n seeds. induction rows as [|row rows IH]; intros n seeds H; inversion H as [|? ? ? ? ? ? Hs Hss]; subst; [done|].
  destruct Hs as (adapter & _ & ->). cbn [fmap list_fmap strings_are length seq]. rewrite seed_id_of.
  apply andb_true_iff. split; [by apply bool_decide_eq_true_2|]. by apply IH.
Qed.

Lemma seeds_exist digest rows n :
  Forall (λ row, row_ok row = true) rows →
  ∃ seeds, rmapM (λ ir : nat * slot_row,
      let* adapter := from_option_or (RPython "KeyError") (ADAPTERS ir.2.2) in
      Ok (seed_of digest ir.1 ir.2 adapter)) (zip (seq n (length rows)) rows) = Ok seeds ∧
    Forall3 (is_seed digest) seeds (seq n (length rows)) rows.
Proof.
  revert n. induction rows as [|row rows IH]; intros n Hok; [exists []; split; [done|constructor]|].
  apply Forall_cons in Hok as [Hrow Hrows]. destruct (IH (S n) Hrows) as (seeds & Hseeds & Hall).
  unfold row_ok in Hrow. destruct (ADAPTERS row.2) as [adapter|] eqn:Ea; [|done].
  exists (seed_of digest n row adapter :: seeds). split.
  - cbn [length seq zip zip_with rmapM fst snd]. rewrite Ea. cbn [from_option_or rbind]. by rewrite Hseeds.
  - constructor; [by exists adapter|done].
Qed.

Lemma seed_cells digest seeds is_ rows :
  Forall3 (is_seed digest) seeds is_ rows → seed_cell <$> seeds = row_cell <$> rows.
Proof.
  induction 1 as [|s i row ss is_ rows (adapter & _ & ->) _ IH]; [done|]. cbn. by rewrite seed_cell_of, IH.
Qed.
Lemma filter_fmap_length {A B} `{EqDecision B} (f : A → B) (b : B) (l : list A) :
  length (filter (λ x, f x = b) l) = length (filter (λ y, y = b) (f <$> l)).
Proof.
  induction l as [|x l IH]; [done|]. cbn [fmap list_fmap]. rewrite !filter_cons. case_decide; cbn [length]; by rewrite IH.
Qed.

Lemma seeds_validate digest seeds is_ rows :
  Forall3 (is_seed digest) seeds is_ rows → Forall (λ row, row_ok row = true) rows →
  rfor (validate_seed digest) seeds = Ok tt.
Proof.
  induction 1 as [|s i row ss is_ rows (adapter & Ha & ->) _ IH]; [done|]. intros [Hrow Hrows]%Forall_cons.
  cbn [rfor]. unfold row_ok in Hrow. rewrite Ha in Hrow. bool_prop. rewrite seed_of_validates by done.
  by apply IH.
Qed.
Section Ranked.
Context (digest : string) (rows : list slot_row) (seeds : list mapping) (is_ : list nat).
Hypothesis Hrows : rows ≡ₚ slot_rows.
Hypothesis Hseeds : Forall3 (is_seed digest) seeds is_ rows.

Lemma rows_length : length rows = 32%nat.
Proof using Hrows. by rewrite Hrows. Qed.
Lemma seeds_length : length seeds = 32%nat.
Proof using Hrows Hseeds. erewrite Forall3_length_lr by exact Hseeds. apply rows_length. Qed.
Lemma seeds_count c : cell_count seeds c = row_count c.
Proof using Hrows Hseeds.
  unfold cell_count, row_count. rewrite filter_fmap_length, (seed_cells _ _ _ _ Hseeds).
  apply Permutation_length. f_equiv. by rewrite Hrows.
Qed.
Lemma seeds_counts (cs : list (string * string)) : cell_count seeds <$> cs = row_count <$> cs.
Proof using Hrows Hseeds. apply list_fmap_ext. intros i c _. apply seeds_count. Qed.
Lemma seeds_known s : s ∈ seeds → seed_cell s ∈ cells.
Proof using Hrows Hseeds.
  intros Hs. apply (list_elem_of_fmap_2 seed_cell) in Hs. rewrite (seed_cells _ _ _ _ Hseeds) in Hs.
  apply list_elem_of_fmap in Hs as (row & -> & Hrow). pose proof (permuted_rows_ok rows Hrows) as Hok.
  rewrite Forall_forall in Hok. apply Hok in Hrow. unfold row_ok in Hrow.
  destruct (ADAPTERS row.2); [|done]. by bool_prop.
Qed.
End Ranked.

Lemma row_counts_ok :
  forallb (λ f, (sum_list (row_count <$> List.filter (λ c, bool_decide (c.1 = f)) cells) =? 8)%nat) FAMILIES &&
  forallb (λ n, (n =? 1)%nat || (n =? 2)%nat) (row_count <$> cells) &&
  bool_decide (1%nat ∈ row_count <$> cells) && bool_decide (2%nat ∈ row_count <$> cells) = true.
Proof. vm_compute. reflexivity. Qed.

Lemma permuted_seeds_validate digest rows seeds :
  rows ≡ₚ slot_rows → Forall3 (is_seed digest) seeds (seq 1 (length rows)) rows →
  validate_seed_catalog seeds digest = Ok tt.
Proof.
  intros Hrows Hseeds. pose proof row_counts_ok as Hc. rewrite !andb_true_iff in Hc. destruct Hc as [[[H8 H12] H1] H2].
  unfold validate_seed_catalog. rewrite (seeds_length _ _ _ _ Hrows Hseeds). cbn [Nat.eqb negb].
  pose proof (seed_ids_of _ _ _ _ Hseeds) as Hids. rewrite (rows_length _ Hrows) in Hids. rewrite Hids. cbn [negb].
  rewrite (seeds_validate _ _ _ _ Hseeds (permuted_rows_ok _ Hrows)). cbn [rbind].
  match goal with |- context [forallb ?p seeds] => assert (forallb p seeds = true) as -> end.
  { apply forallb_Forall_true, Forall_forall. intros s Hs. apply bool_decide_eq_true_2.
    by eapply seeds_known. }
  rewrite (seeds_counts _ _ _ _ Hrows Hseeds), H12, H1, H2. cbn [negb andb].
  apply rfor_forall. intros f Hf. rewrite (seeds_counts _ _ _ _ Hrows Hseeds).
  rewrite forallb_forall in H8. apply list_elem_of_In in Hf. by rewrite (H8 f Hf).
Qed.

Lemma catalog_seeds digest :
  full_hex 64 digest = true →
  ∃ seeds rows, seed_catalog digest = Ok seeds ∧ rows ≡ₚ slot_rows ∧
    Forall3 (is_seed digest) seeds (seq 1 (length rows)) rows.
Proof.
  intros Hd. assert (ranked_rows ≡ₚ slot_rows) as Hperm by apply sort_by_perm.
  unfold seed_catalog. rewrite Hd. cbn [negb]. revert Hperm. generalize ranked_rows. intros rows Hperm.
  destruct (seeds_exist digest rows 1 (permuted_rows_ok _ Hperm)) as (seeds & -> & Hseeds). by exists seeds, rows.
Qed.

(** For every image-set digest the seed catalogue exists and passes its own
    validation: thirty-two seeds under opaque consecutive identifiers, eight for each
    fault family and one or two for each family and difficulty, whatever order the hash
    ranking gives them. *)
Theorem seed_catalog_is_valid digest :
  full_hex 64 digest = true →
  ∃ seeds, seed_catalog digest = Ok seeds ∧ validate_seed_catalog seeds digest = Ok tt.
Proof.
  intros (seeds & rows & Hs & Hperm & Hall)%catalog_seeds. exists seeds. split; [done|].
  by eapply permuted_seeds_validate.
Qed.

Lemma seed_catalog_is_valid_witness : ∃ seeds,
  seed_catalog (str_join "" (repeat "a1" 32)) = Ok seeds ∧
  validate_seed_catalog seeds (str_join "" (repeat "a1" 32)) = Ok tt.
Proof. apply seed_catalog_is_valid. vm_compute. reflexivity. Defined.
