(* ===== verification/Matrix.v ===== *)
(** * Trial matrices over the laboratory

    The runs that take every seed of the catalogue through a scenario and keep their
    trials in the journal: [run_gate_scenario_matrix] of
    [faultwitness_dev/g02_lab.py], [run_readiness_scenario_v3] and
    [replay_all_scenarios_v3] of [faultwitness_dev/g03_readiness.py], and the first
    packet format of [faultwitness_dev/g02_baselines.py].

    The state is the world and the journal.  A factory opens the flag client and the
    observer of one scenario. *)
From S2P Require Import Prelude Json JsonFacts Sha256 PyDyn PyFloat Experiment Packet Lab.

(** ** The first packet format *)

Definition sorted_style : style := {| compact := false; sorted_keys := true; ascii_only := true |}.
Definition json_round (st : style) (v : val) : R val :=
  match dumps st v with Some _ => Ok (printed st v) | None => Err (RPython "TypeError") end.
Definition as_mapping (v : val) : R mapping := from_option_or (RPython "TypeError") (as_dict v).

(** The difference with a list that is sorted already *)
Definition canonical_observation_packet (packet : mapping) : R mapping :=
  let missing := filter (λ k, has_key k packet = false) ["case_id"; "observations"; "problem_brief"; "schema_version"] in
  raise_if negb (bool_decide (missing = [])) with_ RGovernance ("observation packet lacks " +:+ str_join ", " missing);;
  let leaked := filter (λ k, has_key k packet = true)
                  ["answer"; "fault_action"; "ground_truth"; "ground_truth_ref"; "locked_test"] in
  raise_if negb (bool_decide (leaked = []))
    with_ RGovernance ("observation packet contains sealed fields: " +:+ str_join ", " leaked);;
  match dget "observations" packet with
  | VList (_ :: _) => let* v := json_round sorted_style (VDict packet) in as_mapping v
  | _ => Err (RGovernance "observation packet observations must be a non-empty list")
  end.

(** [f"{index:02d}"] *)
Definition pad2 (n : Z) : string :=
  let digits := int_repr n in (if (String.length digits <? 2)%nat then "0" else "") +:+ digits.
(** [{**base, **d}] of string keys *)
Definition updated (base d : mapping) : mapping :=
  foldl (λ acc kv, match kv.1 with VStr k => dset k kv.2 acc | _ => acc end) base d.

Definition build_observation_packet (scenario : mapping) (observations : list mapping) : R mapping :=
  let case_id := val_str (default (VStr "") (dfind "scenario_id" scenario)) in
  match dget "problem_brief" scenario with
  | VStr brief =>
      raise_if negb (truthy case_id && truthy brief)
        with_ RGovernance "scenario cannot produce a canonical observation packet";;
      let* public := rmapM (λ io : Z * mapping,
        let* copy := json_round default_style (VDict io.2) in
        let* copy := as_mapping copy in
        Ok (VDict (updated [(VStr "id", VStr (case_id +:+ "-OBS-" +:+ pad2 (io.1 + 1)))] copy)))
        (numbered observations) in
      let* canonical := canonical_observation_packet
        (smapping [("schema_version", VStr "1.0.0"); ("case_id", VStr case_id); ("problem_brief", VStr brief);
                   ("observations", VList public)]) in
      let* digest := digest_json (VDict canonical) in
      Ok (dset "packet_digest" (VStr digest) canonical)
  | _ => Err (RGovernance "scenario cannot produce a canonical observation packet")
  end.

(** ** Trials *)

(** The message of an exception of the journal *)
Definition governance_text (g : governance) : string :=
  match g with
  | UnsupportedTrialId => "trial ID contains unsupported characters"
  | EmptyCheckpointName => "runtime checkpoint name cannot be empty"
  | NotRunning _ => "trial must be running before it can finish"
  | InvalidTerminalStatus => "invalid terminal trial status"
  | _ => "missing semantic checkpoints"
  end.
Definition journal_exn (e : experiment_exn) : readiness_exn :=
  match e with
  | GovernanceError g => RGovernance (governance_text g)
  | ExperimentInfrastructureError m | ExperimentBlockedError m => RGovernance m
  | OtherError t => RPython t
  end.

(** A trial that passed, or that may not be repeated, for these inputs *)
Definition passed (key : string) (t : trial) : bool :=
  bool_decide (status (current t) = "pass") && bool_decide (cache_key (current t) = key).
Definition settled (key : string) (t : trial) : bool :=
  bool_decide (cache_key (current t) = key) && bool_decide (status (current t) ∈ ["metric_fail"; "blocked"]).

Inductive trial_decision : Type := Inherit (t : trial) | Settled (t : trial) | Fresh.
Definition trial_decision_of (key : string) (previous : option trial) : trial_decision :=
  match previous with
  | Some t => if passed key t then Inherit t else if settled key t then Settled t else Fresh
  | None => Fresh
  end.

Definition lab_key (sut contract input : string) : R string :=
  rmap_err journal_exn
    (semantic_cache_key [("sut", sut); ("trace_service", contract)] ["sut"; "trace_service"] input []).

Definition action_class (scenario : mapping) : R val :=
  let* action := py (subscript (VDict scenario) "fault_action") in py (subscript action "class").

Section Runs.
Context {W : Type} (now : nat → string).

Abbreviation M := (SE (W * journal) readiness_exn).
Definition on_world {A} (m : SE W readiness_exn A) : M A := λ s, let '(r, w) := m s.1 in (r, (w, s.2)).
Definition on_journal {A} (m : SE journal experiment_exn A) : M A := λ s,
  let '(r, j) := m s.2 in (rmap_err journal_exn r, (s.1, j)).

(** The [try] of a trial: what the body made, or the record of the failure and the
    error.  Errors that are no [GovernanceError] leave the trial running. *)
Definition attempt {A} (id : string) (failed : readiness_exn → mapping) (body : M A)
    : M (A + trial * readiness_exn) := λ s,
  match body s with
  | (Ok a, s') => (Ok (inl a), s')
  | (Err (RPython t), s') => (Err (RPython t), s')
  | (Err e, s') =>
      (let! record := on_journal (finish now id
         (VStr (match e with RInfra _ => "infra_failed" | _ => "metric_fail" end)) (failed e)) in
       sret (inr (record, e))) s'
  end.

(** ** The gate matrix *)

Record matrix_result := {
  m_status : string;
  m_scenario_count : nat;
  m_failed_trial : option string;
  m_trials : list trial;
  m_packets : list mapping;
}.
Record progress := {
  completed : list trial;
  packets : list mapping;
  precondition : option (list val);
}.
Definition stopped (p : progress) (id : string) (failed : trial) : matrix_result :=
  {| m_status := status (current failed); m_scenario_count := length (completed p); m_failed_trial := Some id;
     m_trials := completed p ++ [failed]; m_packets := [] |}.

Section Gate.
Context (factory : string → string → SE W readiness_exn (testbed W)).
Context (producer_sha image_set_digest : string).

Definition gate_contract : string := sha256_hex "g02-live-scenario-observer-contract-v2".

(** A trial of an earlier run that is taken over *)
Definition inherit (p : progress) (t : trial) : R progress :=
  let result := dget "result" (payload (current t)) in
  match result with
  | VDict fields =>
      match dget "recovery_observations" fields with
      | VList recovery =>
          let* state := recovery_state recovery in
          raise_if negb (bool_decide (state = HEALTHY))
            with_ RGovernance "passed scenario trial has unhealthy recovery evidence";;
          let* packet := py (subscript (VDict (payload (current t))) "observation_packet") in
          let* packet := as_mapping packet in
          Ok {| completed := completed p ++ [t]; packets := packets p ++ [packet]; precondition := Some recovery |}
      | _ => Err (RGovernance "passed scenario trial lacks recovery evidence")
      end
  | _ => Err (RGovernance "passed scenario trial lacks recovery evidence")
  end.

(** The scenario, its packet and the record of both *)
Definition run_trial (id contract_sha : string) (scenario : mapping) (facts : list (string * val))
    (before : option (list val)) : M (mapping * mapping * trial) :=
  let! tb := on_world (factory contract_sha (fault_class_of scenario)) in
  let! result := on_world (run_scenario tb scenario before) in
  let observations := match dget "fault_observations" result with VList l => omap as_dict l | _ => [] end in
  let! packet := slift (build_observation_packet scenario observations) in
  let! record := on_journal (finish now id (VStr "pass")
    (smapping (facts ++ [("result", VDict result); ("observation_packet", VDict packet)]))) in
  sret (result, packet, record).

Definition gate_step (p : progress) (scenario : mapping) : M (progress + matrix_result) :=
  let! scenario_id := slift (py (subscript (VDict scenario) "scenario_id")) in
  let id := "g02-scenario-" +:+ casefold (val_str scenario_id) in
  let! input := slift (document_digest (VDict scenario)) in
  let! key := slift (lab_key image_set_digest gate_contract input) in
  let! previous := on_journal (read id) in
  match trial_decision_of key previous with
  | Inherit t => let! p' := slift (inherit p t) in sret (inl p')
  | Settled t => sret (inr (stopped p id t))
  | Fresh =>
      let! class := slift (action_class scenario) in
      let facts := [("scenario_id", scenario_id); ("fault_class", class)] in
      let! _ := on_journal (begin_trial now id producer_sha key (smapping facts)) in
      let! outcome := attempt id (λ e, smapping (facts ++ [("reason", VStr (exn_text e))]))
          (run_trial id producer_sha scenario facts (precondition p)) in
        match outcome with
        | inl (result, packet, record) =>
            sret (inl {| completed := completed p ++ [record]; packets := packets p ++ [packet];
                         precondition := match dget "recovery_observations" result with
                                         | VList l => Some l | _ => None end |})
        | inr (record, _) => sret (inr (stopped p id record))
        end
  end.

Fixpoint gate_loop (p : progress) (seeds : list mapping) : M matrix_result :=
  match seeds with
  | [] =>
      sguard (negb (length (completed p) =? 32)%nat || negb (length (packets p) =? 32)%nat)
        (RGovernance "G02 Gate scenario matrix did not complete exactly 32 seeds");;;
      sret {| m_status := "pass"; m_scenario_count := 32; m_failed_trial := None; m_trials := completed p;
              m_packets := packets p |}
  | scenario :: seeds =>
      let! step := gate_step p scenario in
      match step with inl p' => gate_loop p' seeds | inr out => sret out end
  end.

Definition run_gate_scenario_matrix : M matrix_result :=
  let! seeds := slift (seed_catalog image_set_digest) in
  slift (validate_seed_catalog seeds image_set_digest);;;
  gate_loop {| completed := []; packets := []; precondition := None |} seeds.
End Gate.

(** ** Metric version 3 *)

(** [ReadinessObserver]: it also collects healthy windows and counts the requests it
    made while polling. *)
Record readiness_bed := {
  bed : testbed W;
  collect_healthy_window : SE W readiness_exn mapping;
  poll_stimuli : W → Z * Z;
}.

Definition exn_type (e : readiness_exn) : string :=
  match e with
  | RGovernance _ => "GovernanceError"
  | RIncomplete _ => "DatasetIncompleteError"
  | RInfra _ => "InfrastructureFailure"
  | RPython name => name
  end.

Definition FAULT_PREDICATE_TERMS (fault_class : string) : list string :=
  default [] (snd <$> List.find (λ kv, bool_decide (kv.1 = fault_class))
    [("productCatalogFailure", ["journey_failed"; "correlated_error"]);
     ("adHighCpu", ["cpu_rate"; "baseline_cpu_max"; "correlated_span"]);
     ("emailMemoryLeak", ["working_set"; "baseline_working_set"]);
     ("paymentFailure", ["checkout_failed"; "payment_error"; "error_spans"]);
     ("paymentUnreachable", ["checkout_failed"; "connection_error"; "checkout_error_spans"; "payment_connection_errors"]);
     ("kafkaQueueProblems",
        ["consumer_lag"; "baseline_lag"; "kafka_error"; "kafka_log_error"; "kafka_fault_log"; "error_spans"])]).

Definition predicate_terms_v3 (observations : list mapping) (terms : list string) : R val :=
  let* entries := rmapM (λ io : Z * mapping,
    let* values := rmapM (λ term, let* v := json_copy (dget term io.2) in Ok (term, v)) terms in
    Ok (sdict [("observation_index", VInt io.1);
               ("recorded_at", VStr (val_str (default (VStr "") (dfind "recorded_at" io.2))));
               ("terms", sdict values)])) (numbered observations) in
  Ok (VList entries).

Definition opt_text (f : readiness_exn → string) (e : option readiness_exn) : val :=
  match e with Some e => VStr (f e) | None => VNone end.
Definition copies (observations : list mapping) : R val := json_copy (VList (VDict <$> observations)).
Definition count_of (observations : list mapping) : val := VInt (Z.of_nat (length observations)).

Definition scenario_failure_diagnostics_v3 (fault_class : string)
    (healthy_windows fault_observations recovery_observations : list mapping)
    (primary_error cleanup_error : option readiness_exn) : R mapping :=
  let* fault := fault_state fault_class fault_observations in
  let* recovery := recovery_state (VDict <$> recovery_observations) in
  let* healthy_copy := copies healthy_windows in
  let* fault_copy := copies fault_observations in
  let* recovery_copy := copies recovery_observations in
  let* fault_terms := predicate_terms_v3 fault_observations (FAULT_PREDICATE_TERMS fault_class) in
  let* recovery_terms := predicate_terms_v3 recovery_observations recovery_fields in
  Ok (smapping
    [("fault_class", VStr fault_class); ("healthy_window_count", count_of healthy_windows);
     ("fault_observation_count", count_of fault_observations);
     ("recovery_observation_count", count_of recovery_observations);
     ("primary_error", opt_text exn_text primary_error); ("primary_error_type", opt_text exn_type primary_error);
     ("cleanup_error", opt_text exn_text cleanup_error); ("cleanup_error_type", opt_text exn_type cleanup_error);
     ("fault_state", VStr (oracle_text fault)); ("recovery_state", VStr (oracle_text recovery));
     ("healthy_windows", healthy_copy); ("fault_observations", fault_copy);
     ("recovery_observations", recovery_copy); ("fault_predicate_terms", fault_terms);
     ("recovery_predicate_terms", recovery_terms)]).

(** The exception that is raised, from the two that occurred *)
Definition raised_error (primary_error cleanup_error : option readiness_exn) : option readiness_exn :=
  match primary_error, cleanup_error with
  | Some (RInfra m), _ => Some (RInfra m)
  | Some p, Some c =>
      Some (RGovernance (exn_text p +:+ "; cleanup also failed and quarantined the SUT: " +:+ exn_text c))
  | Some p, None => Some p
  | None, Some (RInfra m) => Some (RInfra m)
  | None, Some c =>
      Some (RGovernance ("metric v3 scenario cleanup blocked and quarantined the SUT: " +:+ exn_text c))
  | None, None => None
  end.

(** An exception and its attribute [scenario_diagnostics] *)
Abbreviation diagnosed := (readiness_exn * option mapping)%type.
Definition plain_err {A} (m : SE W readiness_exn A) : SE W diagnosed A := λ w,
  let '(r, w') := m w in (rmap_err (λ e, (e, None)) r, w').

Fixpoint repeat_collect (n : nat) (m : SE W readiness_exn mapping) : SE W readiness_exn (list mapping) :=
  match n with
  | O => sret []
  | S n => let! x := m in let! xs := repeat_collect n m in sret (x :: xs)
  end.

Definition window_document (w : public_window) : val :=
  sdict [("phase", VStr (phase w)); ("recorded_at", VStr (pw_recorded_at w)); ("ready", VBool (pw_ready w));
         ("journey_status", VInt (journey_status w)); ("cpu_cores", cpu_cores w);
         ("working_set_bytes", working_set_bytes w); ("consumer_lag", consumer_lag w);
         ("consumer_record_lag", consumer_record_lag w);
         ("consumer_poll_lag_seconds", consumer_poll_lag_seconds w);
         ("trace_activity", sdict ((λ sn, (sn.1, VInt sn.2)) <$> trace_activity w));
         ("trace_errors", sdict (trace_errors w))].
Definition window_documents (window : string) (samples : list mapping) : R (list val) :=
  rmapM (λ s, let* w := public_window_of s window in Ok (window_document w)) samples.

(** [str(action.get("class", ""))] of a mapping [action] *)
Definition action_class_v3 (scenario : mapping) : string :=
  match dget "fault_action" scenario with
  | VDict action => val_str (default (VStr "") (dfind "class" action))
  | _ => ""
  end.

(** The document of a scenario that passed *)
Definition readiness_result (rb : readiness_bed) (scenario : mapping) (fault_class : string) (original : mapping)
    (healthy fault recovery : list mapping) : SE W readiness_exn mapping :=
  let! packet := slift (build_observation_packet_v3 scenario healthy fault) in
  let! scenario_id := slift (py (subscript (VDict scenario) "scenario_id")) in
  let! scenario_family := slift (py (subscript (VDict scenario) "family")) in
  let! healthy_documents := slift (window_documents "healthy" healthy) in
  let! fault_documents := slift (window_documents "fault" fault) in
  let! recovery_copy := slift (copies recovery) in
  let! stimuli := λ w, (Ok (poll_stimuli rb w), w) in
  let! original_digest := slift (document_digest (VDict original)) in
  let! final := client_read (bed rb) in
  let! restored_digest := slift (document_digest (VDict final)) in
  sret (smapping
    [("scenario_id", scenario_id); ("family", scenario_family); ("fault_class", VStr fault_class);
     ("state_sequence", VList (VStr <$> ["HEALTHY"; "FAULT_ACTIVE"; "HEALTHY"]));
     ("healthy_windows", VList healthy_documents); ("fault_windows", VList fault_documents);
     ("recovery_observations", recovery_copy);
     ("poll_stimuli", sdict [("fault", VInt stimuli.1); ("recovery", VInt stimuli.2)]);
     ("original_digest", VStr original_digest); ("restored_digest", VStr restored_digest);
     ("observation_packet", VDict packet)]).

Definition run_readiness_scenario_v3 (rb : readiness_bed) (scenario : mapping) : SE W diagnosed mapping :=
  let fault_class := action_class_v3 scenario in
  match ADAPTERS fault_class with
  | None => sraise (RGovernance ("metric v3 scenario uses unknown fault action: " +:+ fault_class), None)
  | Some adapter =>
      let! original := plain_err (client_read (bed rb)) in
      let! healthy := plain_err (
        let! control := observe (bed rb) "control" fault_class in
        sguard (negb (val_is (dget "state" control) "HEALTHY"))
          (RGovernance "metric v3 scenario healthy precondition is not proven");;;
        repeat_collect HEALTHY_WINDOW_COUNT (collect_healthy_window rb)) in
      let! injected := plain_err (inject_phase (bed rb) "metric v3 " fault_class original adapter) in
      let! restored := plain_err (restore_phase (bed rb) "metric v3 " fault_class original) in
      match raised_error injected.2 restored.2 with
      | Some e =>
          match scenario_failure_diagnostics_v3 fault_class healthy injected.1 restored.1 injected.2 restored.2 with
          | Ok diagnostics => sraise (e, Some diagnostics)
          | Err other => sraise (other, None)
          end
      | None => plain_err (readiness_result rb scenario fault_class original healthy injected.1 restored.1)
      end
  end.

(** ** The replay of the whole catalogue *)

Record case_outcome := {
  co_scenario_id : string;
  co_fault_class : string;
  co_status : string;
  co_inherited : bool;
  co_reason : option string;
  co_diagnosed : bool;
  co_poll_stimuli : val;
}.
Record replay_state := {
  r_completed : list trial;
  r_outcomes : list case_outcome;
  r_failed : list trial;
}.
Record replay_result := {
  rr_status : string;
  rr_execution_status : string;
  rr_scenario_count : nat;
  rr_failed_trial : option string;
  rr_dataset_incomplete : bool;
  rr_trials : list trial;
  rr_outcomes : list case_outcome;
}.

Section Replay.
Context (factory : string → string → SE W readiness_exn readiness_bed).
Context (producer_sha sut_producer_sha image_set_digest contract_digest : string).
Context (continue_on_case_failure : bool).

Definition replay_key (scenario : mapping) : R string :=
  let* input := digest_json (sdict
    [("metric_version", VInt METRIC_VERSION); ("scenario", VDict scenario);
     ("sut_producer_sha", VStr sut_producer_sha); ("healthy_windows", VInt (Z.of_nat HEALTHY_WINDOW_COUNT));
     ("fault_windows", VInt (Z.of_nat FAULT_WINDOW_COUNT))]) in
  lab_key image_set_digest contract_digest input.

(** A failure that an earlier version recorded under the wrong status *)
Definition legacy_transport_failure (t : trial) : bool :=
  bool_decide (status (current t) = "metric_fail") &&
  startswith (val_str (default (VStr "") (dfind "reason" (payload (current t)))))
    "metric v3 scenario cleanup blocked and quarantined the SUT: metric-v3 live observation collection produced no result:".

Definition replay_trial (id : string) (scenario : mapping) (facts : list (string * val))
    : SE (W * journal) diagnosed (mapping * trial) := λ s,
  match on_world (factory sut_producer_sha (action_class_v3 scenario)) s with
  | (Err e, s1) => (Err (e, None), s1)
  | (Ok rb, s1) =>
      match run_readiness_scenario_v3 rb scenario s1.1 with
      | (Err e, w) => (Err e, (w, s1.2))
      | (Ok result, w) =>
          let '(r, s2) := (let! scenario_family := slift (py (subscript (VDict scenario) "family")) in
                           let! packet := slift (py (subscript (VDict result) "observation_packet")) in
                           on_journal (finish now id (VStr "pass")
                             (smapping (facts ++ [("family", scenario_family); ("result", VDict result);
                                                  ("observation_packet", packet)])))) (w, s1.2) in
          (rmap_err (λ e, (e, None)) (rmap (λ record, (result, record)) r), s2)
      end
  end.

Definition failed_payload (facts : list (string * val)) (e : readiness_exn) (diagnostics : option mapping)
    : R mapping :=
  let* copy := match diagnostics with
               | Some d => let* v := json_copy (VDict d) in Ok [("scenario_diagnostics", v)]
               | None => Ok []
               end in
  Ok (smapping (facts ++ [("reason", VStr (exn_text e))] ++
        match e with RIncomplete _ => [("failure_class", VStr "dataset_incomplete")] | _ => [] end ++ copy)).

Definition replay_case (st : replay_state) (id case_id fault_class : string) (scenario : mapping)
    : M (replay_state + replay_result) := λ s,
  let facts := [("scenario_id", VStr case_id); ("fault_class", VStr fault_class)] in
  match replay_trial id scenario facts s with
  | (Ok (result, record), s') =>
      (let! stimuli := slift (json_copy (default (VDict []) (dfind "poll_stimuli" result))) in
       sret (inl {| r_completed := r_completed st ++ [record];
                    r_outcomes := r_outcomes st ++
                      [{| co_scenario_id := case_id; co_fault_class := fault_class; co_status := "pass";
                          co_inherited := false; co_reason := None; co_diagnosed := false;
                          co_poll_stimuli := stimuli |}];
                    r_failed := r_failed st |})) s'
  | (Err (RPython t, _), s') => (Err (RPython t), s')
  | (Err (e, diagnostics), s') =>
      let new_status := match e with RInfra _ => "infra_failed" | _ => "metric_fail" end in
      (let! failed := slift (failed_payload facts e diagnostics) in
       let! record := on_journal (finish now id (VStr new_status) failed) in
       let outcomes := r_outcomes st ++
         [{| co_scenario_id := case_id; co_fault_class := fault_class; co_status := new_status;
             co_inherited := false; co_reason := Some (exn_text e);
             co_diagnosed := bool_decide (diagnostics ≠ None); co_poll_stimuli := VNone |}] in
       sret (if continue_on_case_failure
             then inl {| r_completed := r_completed st; r_outcomes := outcomes; r_failed := r_failed st ++ [record] |}
             else inr {| rr_status := new_status; rr_execution_status := "incomplete";
                         rr_scenario_count := length (r_completed st); rr_failed_trial := Some id;
                         rr_dataset_incomplete := match e with RIncomplete _ => true | _ => false end;
                         rr_trials := r_completed st ++ [record]; rr_outcomes := outcomes |})) s'
  end.

Definition replay_step (st : replay_state) (scenario : mapping) : M (replay_state + replay_result) :=
  let! scenario_id := slift (py (subscript (VDict scenario) "scenario_id")) in
  let case_id := val_str scenario_id in
  let! class := slift (action_class scenario) in
  let fault_class := val_str class in
  let id := "g03-readiness-v3-scenario-" +:+ casefold case_id in
  let! key := slift (replay_key scenario) in
  let! previous := on_journal (read id) in
  match trial_decision_of key previous with
  | Inherit t =>
      sret (inl {| r_completed := r_completed st ++ [t];
                   r_outcomes := r_outcomes st ++
                     [{| co_scenario_id := case_id; co_fault_class := fault_class; co_status := "pass";
                         co_inherited := true; co_reason := None; co_diagnosed := false;
                         co_poll_stimuli := VNone |}];
                   r_failed := r_failed st |})
  | decision =>
      sguard (match decision with
              | Settled t => negb continue_on_case_failure && negb (legacy_transport_failure t)
              | _ => false
              end) (RGovernance ("metric v3 scenario " +:+ case_id +:+ " needs a semantic fix before replay"));;;
      let! _ := on_journal (begin_trial now id producer_sha key
        (smapping [("scenario_id", VStr case_id); ("fault_class", VStr fault_class)])) in
      replay_case st id case_id fault_class scenario
  end.

Definition replay_end (st : replay_state) : R replay_result :=
  if continue_on_case_failure && negb (bool_decide (r_failed st = [])) then
    Ok {| rr_status := "metric_fail"; rr_execution_status := "diagnostic_scan";
          rr_scenario_count := length (r_completed st); rr_failed_trial := None; rr_dataset_incomplete := false;
          rr_trials := r_completed st ++ r_failed st; rr_outcomes := r_outcomes st |}
  else
    raise_if negb (length (r_completed st) =? 32)%nat
      with_ RGovernance "metric v3 scenario replay did not complete 32 cases";;
    Ok {| rr_status := "pass"; rr_execution_status := "completed"; rr_scenario_count := 32; rr_failed_trial := None;
          rr_dataset_incomplete := false; rr_trials := r_completed st; rr_outcomes := r_outcomes st |}.

Fixpoint replay_loop (st : replay_state) (seeds : list mapping) : M replay_result :=
  match seeds with
  | [] => slift (replay_end st)
  | scenario :: seeds =>
      let! step := replay_step st scenario in
      match step with inl st' => replay_loop st' seeds | inr out => sret out end
  end.

Definition replay_all_scenarios_v3 : M replay_result :=
  sguard (negb (FULL_SHA sut_producer_sha)) (RGovernance "metric v3 replay requires a full SUT producer SHA");;;
  let! seeds := slift (seed_catalog image_set_digest) in
  slift (validate_seed_catalog seeds image_set_digest);;;
  replay_loop {| r_completed := []; r_outcomes := []; r_failed := [] |} seeds.
End Replay.
End Runs.
