(* ===== verification/MatrixTheorems.v ===== *)
(** * Theorems on the trial matrices

    A readiness scenario restores the system or reports that it did not; a replay that
    passed is kept trial by trial, and running it again executes nothing. *)
From S2P Require Import Prelude Json JsonFacts Sha256 PyDyn PyFloat Experiment ExperimentTheorems Packet Scoring ScoringTheorems PacketTheorems Lab LabTheorems Matrix.

(** ** Python's own exceptions *)

Definition only_python {A} (r : R A) : Prop := match r with Ok _ => True | Err e => ∃ name, e = RPython name end.
Lemma only_python_py {A} (r : pyres A) : only_python (py r).
Proof. destruct r; [done|]. by eexists. Qed.
Lemma only_python_ok {A} (a : A) : only_python (Ok a).
Proof. done. Qed.
Lemma only_python_bind {A B} (r : R A) (k : A → R B) :
  only_python r → (∀ a, only_python (k a)) → only_python (rbind r k).
Proof. destruct r; [intros _ Hk; apply Hk|done]. Qed.
Lemma only_python_mapM {A B} (f : A → R B) xs : (∀ x, only_python (f x)) → only_python (rmapM f xs).
Proof.
  intros Hf. induction xs as [|x xs IH]; [done|]. cbn. apply only_python_bind; [done|]. intros y.
  by apply only_python_bind.
Qed.
Lemma only_python_all {A} (p : A → R bool) xs : (∀ x, only_python (p x)) → only_python (rall p xs).
Proof.
  intros Hp. induction xs as [|x xs IH]; [done|]. cbn. apply only_python_bind; [done|]. by intros [].
Qed.
Lemma only_python_copy v : only_python (json_copy v).
Proof. unfold json_copy. destruct (dumps _ _); [done|]. by eexists. Qed.
#[local] Hint Resolve only_python_py only_python_ok only_python_copy : fw.

Ltac only_py := repeat first
  [progress auto with fw
  |apply only_python_bind; [|intros ?]
  |apply only_python_mapM; intros ?
  |apply only_python_all; intros ?
  |case_match
  |case_bool_decide].

Lemma only_python_fault_state fault_class observations : only_python (fault_state fault_class observations).
Proof.
  unfold fault_state. destruct observations as [|first [|second [|]]]; try done.
  destruct (ADAPTERS fault_class); [|done]. destruct (negb _); [done|]. apply only_python_bind; [|done].
  unfold fault_active, ad_active, email_active, kafka_active. only_py.
Qed.
Lemma only_python_recovery_state observations : only_python (recovery_state observations).
Proof. unfold recovery_state. only_py. Qed.
Lemma only_python_diagnostics fault_class healthy fault recovery perr cerr :
  only_python (scenario_failure_diagnostics_v3 fault_class healthy fault recovery perr cerr).
Proof.
  unfold scenario_failure_diagnostics_v3, copies, predicate_terms_v3.
  repeat (apply only_python_bind; [|intros ?]); auto using only_python_fault_state, only_python_recovery_state with fw;
    only_py.
Qed.
Lemma diagnostics_cleanup fault_class healthy fault recovery perr cerr d :
  scenario_failure_diagnostics_v3 fault_class healthy fault recovery perr cerr = Ok d →
  dget "cleanup_error" d = opt_text exn_text cerr.
Proof. unfold scenario_failure_diagnostics_v3. intros H. res_inv. done. Qed.

(** ** Restoration *)

Class TruthfulBed {W : Type} (rb : readiness_bed) (held : W → mapping) : Prop := {
  bed_truthful :: TruthfulTestbed (bed rb) held;
  collect_keeps w : held (collect_healthy_window rb w).2 = held w;
}.

Section Readiness.
Context {W : Type} (rb : readiness_bed (W:=W)) (held : W → mapping) `{!TruthfulBed rb held}.

Lemma bed_read_still doc : keeps (λ w, held w = doc) (client_read (bed rb)).
Proof using All. apply read_still; apply _. Qed.
Lemma bed_observe_still doc phase fault_class : keeps (λ w, held w = doc) (observe (bed rb) phase fault_class).
Proof using All. apply observe_still; apply _. Qed.
Hint Resolve bed_read_still bed_observe_still : fw.
Lemma collect_still doc n : keeps (λ w, held w = doc) (repeat_collect n (collect_healthy_window rb)).
Proof using All.
  induction n as [|n IH]; cbn [repeat_collect]; [apply keeps_ret|].
  apply keeps_bind; [intros w Hw; by rewrite collect_keeps|]. intros x. apply keeps_bind; [done|]. intros xs.
  apply keeps_ret.
Qed.
Lemma keeps_plain {A} (P : W → Prop) (m : SE W readiness_exn A) : keeps P m → keeps P (plain_err m).
Proof using . intros Hm w Hw. specialize (Hm w Hw). unfold plain_err. by destruct (m w). Qed.
Lemma result_still doc scenario fault_class original healthy fault recovery :
  keeps (λ w, held w = doc) (readiness_result rb scenario fault_class original healthy fault recovery).
Proof using All.
  unfold readiness_result.
  repeat (apply keeps_bind; [first [solve [auto with fw] | by intros ? ?]|intros ?]); auto with fw.
Qed.
End Readiness.
#[export] Hint Resolve bed_read_still bed_observe_still : fw.

(** A readiness scenario never leaves an injected fault behind in silence.  A result
    comes only after the original document was read back.  An error leaves the document
    of the start, or carries diagnostics that name the cleanup error, or is an exception
    of Python's own that was raised while the diagnostics were made. *)
Theorem readiness_restores_or_reports {W : Type} (rb : readiness_bed (W:=W)) (held : W → mapping)
    `{!TruthfulBed rb held} scenario w r w' :
  run_readiness_scenario_v3 rb scenario w = (r, w') →
  match r with
  | Ok _ => docs_equal (held w') (held w) = true
  | Err (e, diagnostics) =>
      same_document (held w') (held w) ∨
      (∃ d reason, diagnostics = Some d ∧ dget "cleanup_error" d = VStr reason) ∨
      (diagnostics = None ∧ ∃ name, e = RPython name)
  end.
Proof.
  unfold run_readiness_scenario_v3. destruct (ADAPTERS (action_class_v3 scenario)) as [adapter|] eqn:Ea.
  2:{ intros [= <- <-]. by left; left. }
  intros H. unfold sbind at 1, plain_err at 1 in H.
  destruct (client_read (bed rb) w) as [[original|e] w1] eqn:Hread;
    pose proof (read_keeps (tb:=bed rb) (held:=held) w) as H1; rewrite Hread in H1; cbn in H1; cbn [rmap_err] in H.
  2:{ injection H as <- <-. by left; left. }
  pose proof (read_truth _ _ _ Hread) as ->. unfold sbind at 1 in H.
  match type of H with match ?pre w1 with _ => _ end = _ =>
    assert (keeps (λ u, held u = held w) pre) as Hpre end.
  { apply keeps_plain. do 2 (apply keeps_bind; [auto with fw|intros ?]). by apply collect_still. }
  specialize (Hpre w1 H1).
  match type of H with match ?pre w1 with _ => _ end = _ => destruct (pre w1) as [[healthy|[e d]] w2] eqn:Ehealthy end.
  2:{ injection H as <- <-. by left; left. }
  cbn in Hpre. unfold sbind at 1, plain_err at 1 in H.
  destruct (inject_phase_returns (bed rb) "metric v3 " (action_class_v3 scenario) (held w) adapter w2)
    as ([observed perr] & w3 & Hi). rewrite Hi in H. cbn [rmap_err] in H.
  unfold sbind at 1, plain_err at 1 in H.
  destruct (restore_phase_returns (bed rb) "metric v3 " (action_class_v3 scenario) (held w) w3)
    as ([recovered cerr] & w4 & Hr). rewrite Hr in H. cbn [rmap_err fst snd] in H.
  assert (cerr = None → docs_equal (held w4) (held w) = true) as Hrestored.
  { intros ->. by apply restore_phase_restores with (held := held) in Hr as [? _]; [|apply _]. }
  destruct (raised_error perr cerr) as [e|] eqn:Eraised.
  - destruct (scenario_failure_diagnostics_v3 _ _ _ _ _ _) as [d|other] eqn:Ed; injection H as <- <-.
    + destruct cerr as [cerr|]; [|left; right; by apply Hrestored].
      right; left. exists d, (exn_text cerr). split; [done|]. by apply diagnostics_cleanup in Ed.
    + right; right. split; [done|]. pose proof (only_python_diagnostics (action_class_v3 scenario) healthy observed
        recovered perr cerr) as Hp. rewrite Ed in Hp. exact Hp.
  - assert (cerr = None) as -> by (by destruct perr as [[]|], cerr as [[]|]). specialize (Hrestored eq_refl).
    pose proof (keeps_plain _ _ (result_still rb held (held w4) scenario (action_class_v3 scenario) (held w) healthy
      observed recovered)) as Hk. specialize (Hk w4 eq_refl). rewrite H in Hk. cbn in Hk.
    destruct r as [result|[e d]]; [congruence|]. left; right. congruence.
Qed.

(** The simulated laboratory, whose observer may answer something else for a fault. *)
Definition memory_bed (fault : option mapping) : readiness_bed (W:=MemoryFlagClient * list Z) := {|
  bed := {| client_read := client_read memory_testbed; client_write := client_write memory_testbed;
            observe := λ phase fault_class w,
              match fault with
              | Some sample => if bool_decide (phase = "fault") then (Ok sample, w)
                               else observe memory_testbed phase fault_class w
              | None => observe memory_testbed phase fault_class w
              end |};
  collect_healthy_window := λ w, (Ok Demo.sample, w);
  poll_stimuli := λ _, (0, 0)%Z;
|}.
#[export] Instance memory_bed_truthful fault : TruthfulBed (memory_bed fault) (λ w, document w.1).
Proof.
  split; [|done]. split; [done|by intros w d w' [= <- _]|]. intros phase fault_class w. cbn.
  destruct fault; [case_bool_decide|]; try done; by destruct (scripted_sequence_observer _ _ _).
Qed.

Definition ad_scenario : mapping :=
  smapping [("scenario_id", VStr "SEED-G02-0001"); ("family", VStr "resource_capacity");
            ("fault_action", sdict [("class", VStr "adHighCpu")])].
Lemma readiness_restores_or_reports_witness : ∃ e d reason w',
  run_readiness_scenario_v3 (memory_bed None) ad_scenario (memory_lab base_flag_document true) = (Err (e, Some d), w') ∧
  dget "cleanup_error" d = VStr reason ∧ docs_equal (document w'.1) base_flag_document = false.
Proof.
  assert (let rw := run_readiness_scenario_v3 (memory_bed None) ad_scenario (memory_lab base_flag_document true) in
    docs_equal (document rw.2.1) base_flag_document = false ∧
    match rw.1 with Err (_, Some _) => true | _ => false end = true) as [Hd Hdiag]
    by (split; vm_compute; reflexivity).
  destruct (run_readiness_scenario_v3 (memory_bed None) ad_scenario (memory_lab base_flag_document true))
    as [r w'] eqn:E.
  pose proof (readiness_restores_or_reports (memory_bed None) (λ w, document w.1) _ _ _ _ E) as H.
  cbn [fst snd] in Hd, Hdiag. destruct r as [result|[e [d|]]]; [discriminate Hdiag| |discriminate Hdiag].
  destruct H as [[Heq|Heq]|[(d' & reason & [= <-] & Hr)|[[=] _]]].
  - change (document w'.1 = base_flag_document) in Heq. rewrite Heq in Hd. vm_compute in Hd. discriminate Hd.
  - change (docs_equal (document w'.1) base_flag_document = true) in Heq. congruence.
  - exists e, d, reason, w'. split; [reflexivity|]. split; [exact Hr|exact Hd].
Defined.

(** The third case of the theorem occurs: an oracle that raises while the primary error
    is recorded raises again while the diagnostics are made, and the failed restoration
    is reported nowhere. *)
Lemma raising_oracle_hides_quarantine :
  let rw := run_readiness_scenario_v3
    (memory_bed (Some (smapping [("cpu_rate", VNone); ("baseline_cpu_max", VFloat "1.0"); ("correlated_span", VBool true)])))
    ad_scenario (memory_lab base_flag_document true) in
  rw.1 = Err (RPython "TypeError", None) ∧ docs_equal (document rw.2.1) base_flag_document = false.
Proof. split; vm_compute; reflexivity. Qed.

(** ** The journal of a replay *)

Lemma outside_finish now id j0 st pl : keeps (outside id j0) (finish now id st pl).
Proof.
  apply (keeps_finish now _ (of_files_outside id j0) id). intros ?????????. intros. by apply outside_set.
Qed.
Lemma finish_record now id s pl j t j' :
  finish now id (VStr s) pl j = (Ok t, j') →
  status (current t) = s ∧ trials j' !! id = Some (stored_trial t) ∧
  ∃ p, trials j !! id = Some p ∧ cache_key (current t) = cache_key (current p).
Proof.
  unfold finish. intros ([] & j1 & Hg & H)%sbind_ok. unfold sguard in Hg.
  case_bool_decide as Hterm; [|discriminate Hg]. injection Hg as <-.
  apply sbind_ok in H as (p & j2 & Hp & H). rewrite running_trial_run in Hp. unfold read_trial in Hp.
  destruct (trial_path_ok id); [|discriminate Hp]. cbn in Hp.
  destruct (trials j !! id) as [p'|] eqn:Et; [|discriminate Hp]. case_bool_decide; [|discriminate Hp].
  injection Hp as <- <-.
  apply sbind_ok in H as (at_ & j3 & Hc & H). injection Hc as _ <-.
  apply sbind_ok in H as (digest & j4 & Hdig & H). injection Hdig as _ <-.
  apply write_trial_ok in H as (-> & _ & _ & ->). split_and!; [done|cbn; apply lookup_insert_eq|]. by exists p'.
Qed.

Section Replayed.
Context {W : Type} (now : nat → string) (factory : string → string → SE W readiness_exn (readiness_bed (W:=W))).
Context (producer_sha sut_producer_sha image_set_digest contract_digest : string) (continue : bool).

Abbreviation key_of := (replay_key sut_producer_sha image_set_digest contract_digest).
Abbreviation step := (replay_step now factory producer_sha sut_producer_sha image_set_digest contract_digest continue).
Abbreviation loop := (replay_loop now factory producer_sha sut_producer_sha image_set_digest contract_digest continue).

Definition replay_id (scenario : mapping) : string :=
  "g03-readiness-v3-scenario-" +:+ casefold (val_str (dget "scenario_id" scenario)).

(** The journal holds a pass of [scenario] for the current inputs. *)
Definition holds (j : journal) (scenario : mapping) (t : trial) : Prop :=
  ∃ key class t',
    key_of scenario = Ok key ∧ action_class scenario = Ok class ∧ is_Some (dfind "scenario_id" scenario) ∧
    trial_path_ok (replay_id scenario) = true ∧ passed key t = true ∧
    trials j !! replay_id scenario = Some t' ∧ passed key t' = true.

Lemma holds_outside i j j' scenario t :
  holds j scenario t → outside i j j' → replay_id scenario ≠ i → holds j' scenario t.
Proof using .
  intros (key & class & t' & ? & ? & ? & ? & ? & Ht & ?) Hout Hi. exists key, class, t'. split_and!; try done.
  by rewrite Hout.
Qed.

Lemma passed_true key t : passed key t = true ↔ status (current t) = "pass" ∧ cache_key (current t) = key.
Proof using . unfold passed. by rewrite andb_true_iff, !bool_decide_eq_true. Qed.
Lemma passed_stored key t : passed key (stored_trial t) = passed key t.
Proof using . done. Qed.

(** A trial that was begun for [key] and finished as a pass *)
Lemma replay_trial_pass id scenario facts s result record s' key :
  (∃ p, trials s.2 !! id = Some p ∧ cache_key (current p) = key) →
  replay_trial now factory sut_producer_sha id scenario facts s = (Ok (result, record), s') →
  passed key record = true ∧ trials s'.2 !! id = Some (stored_trial record).
Proof using .
  intros (p & Hp & Hk). unfold replay_trial, on_world. destruct (factory _ _ s.1) as [[rb|e] w1]; cbn [fst snd]; [|done].
  destruct (run_readiness_scenario_v3 rb scenario w1) as [[doc|e] w2]; [|done].
  match goal with |- (let '(_, _) := ?m in _) = _ → _ => destruct m as [r s2] eqn:E end.
  intros H. injection H as H <-. destruct r as [t|e]; [|discriminate H]. injection H as _ ->.
  apply sbind_ok in E as (fam & s3 & Hf & E). injection Hf as _ <-.
  apply sbind_ok in E as (pkt & s4 & Hpk & E). injection Hpk as _ <-.
  unfold on_journal in E. cbn [fst snd] in E. destruct (finish _ _ _ _ _) as [[t|] j2] eqn:Ef; [|discriminate E].
  injection E as -> <-. cbn [snd].
  apply finish_record in Ef as (Hs & Ht & p' & Hp' & Hck). split; [|done]. apply passed_true.
  split; [done|]. congruence.
Qed.
Lemma on_journal_keeps {A} (P : journal → Prop) (m : SE journal experiment_exn A) :
  keeps P m → keeps (λ s : W * journal, P s.2) (on_journal m).
Proof using . intros Hm s Hs. specialize (Hm s.2 Hs). unfold on_journal. by destruct (m s.2). Qed.

Lemma outside_replay_trial id j0 scenario facts :
  keeps (λ s : W * journal, outside id j0 s.2) (replay_trial now factory sut_producer_sha id scenario facts).
Proof using .
  intros s Hs. unfold replay_trial, on_world. destruct (factory _ _ s.1) as [[rb|e] w1]; [|done]. cbn [fst snd].
  destruct (run_readiness_scenario_v3 rb scenario w1) as [[doc|e] w2]; [|done].
  match goal with |- context [let '(_, _) := ?m (w2, s.2) in _] =>
    assert (keeps (λ s : W * journal, outside id j0 s.2) m) as Hk; [|specialize (Hk (w2, s.2) Hs); destruct (m (w2, s.2))] end.
  { repeat (apply keeps_bind; [apply keeps_lift|intros ?]). apply on_journal_keeps, outside_finish. }
  exact Hk.
Qed.

Lemma outside_replay_case id j0 st case_id fault_class scenario :
  keeps (λ s : W * journal, outside id j0 s.2)
    (replay_case now factory sut_producer_sha continue st id case_id fault_class scenario).
Proof using .
  intros s Hs. unfold replay_case. pose proof (outside_replay_trial id j0 scenario
    [("scenario_id", VStr case_id); ("fault_class", VStr fault_class)] s Hs) as Hk.
  destruct (replay_trial _ _ _ _ _ _ s) as [[[result record]|[e d]] s1]; cbn [snd] in Hk.
  - apply (keeps_bind (λ s, outside id j0 s.2)); [apply keeps_lift|intros ?; apply keeps_ret|exact Hk].
  - destruct e; try exact Hk; (apply (keeps_bind (λ s, outside id j0 s.2)); [apply keeps_lift|intros ?|exact Hk];
      apply keeps_bind; [apply on_journal_keeps, outside_finish|intros ?; apply keeps_ret]).
Qed.

(** How a case ends without an exception. *)
Lemma replay_case_ends st id case_id fault_class scenario s r s' key :
  (∃ p, trials s.2 !! id = Some p ∧ cache_key (current p) = key) →
  replay_case now factory sut_producer_sha continue st id case_id fault_class scenario s = (Ok r, s') →
  match r with
  | inl st' =>
      (r_failed st' = r_failed st ∧ ∃ t, r_completed st' = r_completed st ++ [t] ∧ passed key t = true ∧
        trials s'.2 !! id = Some (stored_trial t)) ∨
      (continue = true ∧ r_failed st' ≠ [])
  | inr out => rr_status out ≠ "pass"
  end.
Proof using .
  intros Hp. unfold replay_case.
  destruct (replay_trial _ _ _ _ _ _ s) as [[[result record]|[e d]] s1] eqn:Et.
  - intros (stimuli & s2 & Hst & H)%sbind_ok. injection Hst as _ <-. injection H as <- <-. left. split; [done|].
    exists record. split; [done|]. by eapply replay_trial_pass.
  - destruct e; try discriminate; intros (failed & s2 & Hf & H)%sbind_ok; injection Hf as _ <-;
      apply sbind_ok in H as (t & s3 & _ & H); injection H as <- _; destruct continue;
      solve [right; split; [done|]; cbn; by intros [_ [=]]%app_nil|done].
Qed.

Lemma fresh_case_ends st scenario case_id fault_class sha key class pl s r s' :
  key_of scenario = Ok key → action_class scenario = Ok class → is_Some (dfind "scenario_id" scenario) →
  sbind (on_journal (begin_trial now (replay_id scenario) sha key pl)) (λ _,
    replay_case now factory sut_producer_sha continue st (replay_id scenario) case_id fault_class scenario) s
    = (Ok r, s') →
  match r with
  | inl st' =>
      (r_failed st' = r_failed st ∧ outside (replay_id scenario) s.2 s'.2 ∧
        ∃ t, r_completed st' = r_completed st ++ [t] ∧ holds s'.2 scenario t) ∨
      (continue = true ∧ r_failed st' ≠ [])
  | inr out => rr_status out ≠ "pass"
  end.
Proof using .
  intros Hkey Hclass Hid (t & s1 & Hb & H)%sbind_ok. unfold on_journal in Hb.
  pose proof (outside_begin now (replay_id scenario) s.2 sha key pl s.2 (λ _ _, eq_refl)) as Hout1.
  destruct (begin_trial _ _ _ _ _ _) as [[t'|] j1] eqn:Eb; [|discriminate Hb]. injection Hb as -> <-.
  cbn [snd] in Hout1. apply begin_run in Eb as (Ht & _ & Hk & Hpath).
  pose proof (outside_replay_case (replay_id scenario) s.2 st case_id fault_class scenario (s.1, j1) Hout1) as Hout2.
  rewrite H in Hout2. cbn [snd] in Hout2.
  apply replay_case_ends with (key := key) in H; [|by exists (stored_trial t)].
  destruct r as [st'|out]; [|done]. destruct H as [(Hf & t2 & Hc & Hpass & Hj)|?]; [left|by right].
  split; [done|]. split; [done|]. exists t2. split; [done|].
  exists key, class, (stored_trial t2). by split_and!.
Qed.

Lemma replay_step_ends st scenario s r s' :
  step st scenario s = (Ok r, s') →
  match r with
  | inl st' =>
      (r_failed st' = r_failed st ∧ outside (replay_id scenario) s.2 s'.2 ∧
        ∃ t, r_completed st' = r_completed st ++ [t] ∧ holds s'.2 scenario t) ∨
      (continue = true ∧ r_failed st' ≠ [])
  | inr out => rr_status out ≠ "pass"
  end.
Proof using .
  unfold replay_step. intros H.
  apply sbind_ok in H as (sid & s1 & Hsid & H). injection Hsid as Hsid <-.
  apply sbind_ok in H as (class & s2 & Hclass & H). injection Hclass as Hclass <-.
  apply sbind_ok in H as (key & s3 & Hkey & H). injection Hkey as Hkey <-.
  unfold py in Hsid. cbn [subscript] in Hsid.
  destruct (dfind "scenario_id" scenario) as [sid'|] eqn:Esid; [|discriminate Hsid]. injection Hsid as ->.
  assert (replay_id scenario = "g03-readiness-v3-scenario-" +:+ casefold (val_str sid)) as Hid
    by (unfold replay_id, dget; by rewrite Esid).
  rewrite <-Hid in H.
  apply sbind_ok in H as (previous & s4 & Hread & H). unfold on_journal in Hread.
  rewrite read_run in Hread. unfold read_trial in Hread. destruct (trial_path_ok (replay_id scenario)) eqn:Hpath;
    [|discriminate Hread]. cbn in Hread. injection Hread as <- <-.
  assert (∀ t, trials s.2 !! replay_id scenario = Some t → passed key t = true → holds s.2 scenario t) as Hholds.
  { intros t Ht Hpass. exists key, class, t. by split_and!. }
  destruct (trial_decision_of key (trials s.2 !! replay_id scenario)) as [t|t|] eqn:Ed.
  - injection H as <- <-. left. split; [done|]. split; [done|]. exists t. split; [done|]. destruct s as [w j].
    unfold trial_decision_of in Ed. destruct (trials _ !! _) as [t'|] eqn:Et; [|discriminate Ed].
    destruct (passed key t') eqn:Ep; [|by destruct (settled key t')]. injection Ed as ->. by apply Hholds.
  - apply sbind_ok in H as ([] & s2 & Hg & H). unfold sguard in Hg. destruct (_ && _); [discriminate Hg|].
    injection Hg as <-. by eapply fresh_case_ends.
  - apply sbind_ok in H as ([] & s2 & Hg & H). injection Hg as <-. by eapply fresh_case_ends.
Qed.

Lemma loop_passes st seeds s out s' :
  loop st seeds s = (Ok out, s') → rr_status out = "pass" → NoDup (replay_id <$> seeds) →
  (continue = true → r_failed st = []) ∧
  ∃ ts, rr_trials out = r_completed st ++ ts ∧ Forall2 (holds s'.2) seeds ts ∧ length (rr_trials out) = 32%nat ∧
    ∀ i, i ∉ replay_id <$> seeds → trials s'.2 !! i = trials s.2 !! i.
Proof using .
  revert st s. induction seeds as [|scenario seeds IH]; intros st s H Hpass Hnd; cbn [replay_loop] in H.
  - unfold slift in H. injection H as H <-. unfold replay_end in H.
    destruct (continue && negb (bool_decide (r_failed st = []))) eqn:Ec; [by apply Ok_inj in H as <-|].
    destruct (length (r_completed st) =? 32)%nat eqn:El; [|discriminate H]. apply Ok_inj in H as <-.
    split. { intros ->. cbn in Ec. by bool_prop. }
    exists []. cbn [rr_trials]. rewrite app_nil_r. apply Nat.eqb_eq in El. by split_and!.
  - apply sbind_ok in H as (r & s1 & Hstep & H). apply replay_step_ends in Hstep.
    destruct r as [st'|out']; [|injection H as <- <-; done].
    cbn in Hnd. apply NoDup_cons in Hnd as [Hid Hnd]. destruct (IH _ _ H Hpass Hnd) as (Hfail & ts & Hts & Hall & Hlen & Hsame).
    destruct Hstep as [(Hf & Hout & t & Hc & Ht)|[Hcont Hne]]; [|by specialize (Hfail Hcont)].
    split; [by rewrite <-Hf|]. exists (t :: ts). split_and!; [by rewrite Hts, Hc, <-app_assoc| |done|].
    + constructor; [|done]. destruct Ht as (key & class & t' & ? & ? & ? & ? & ? & Ht & ?). exists key, class, t'.
      split_and!; try done. by rewrite Hsame.
    + intros i [Hne Hi]%not_elem_of_cons. rewrite Hsame by done. by apply Hout.
Qed.

Lemma step_reuses st scenario t s :
  holds s.2 scenario t →
  ∃ t' o, step st scenario s = (Ok (inl {| r_completed := r_completed st ++ [t'];
      r_outcomes := r_outcomes st ++ [o]; r_failed := r_failed st |}), s) ∧ co_inherited o = true.
Proof using .
  intros (key & class & t' & Hkey & Hclass & [sid Hsid] & Hpath & _ & Ht & Hpass). destruct s as [w j].
  exists t'. unfold replay_step. unfold sbind at 1, slift at 1. cbn [subscript]. rewrite Hsid. cbn [from_option_or py rmap_err].
  unfold sbind at 1, slift at 1. rewrite Hclass. unfold sbind at 1, slift at 1. rewrite Hkey.
  assert ("g03-readiness-v3-scenario-" +:+ casefold (val_str sid) = replay_id scenario) as ->
    by (unfold replay_id, dget; by rewrite Hsid).
  unfold sbind at 1, on_journal at 1. cbn [snd fst]. rewrite read_run. unfold read_trial. rewrite Hpath. cbn [negb rmap_err].
  cbn [snd] in Ht. rewrite Ht. unfold trial_decision_of. rewrite Hpass. by eexists.
Qed.

Lemma loop_reuses st seeds ts s :
  Forall2 (holds s.2) seeds ts →
  ∃ st', loop st seeds s = (replay_end continue st', s) ∧ r_failed st' = r_failed st ∧
    length (r_completed st') = (length (r_completed st) + length seeds)%nat ∧
    ∃ os, r_outcomes st' = r_outcomes st ++ os ∧ Forall (λ o, co_inherited o = true) os.
Proof using .
  intros Hall. revert st. induction Hall as [|scenario t seeds ts Ht _ IH]; intros st; cbn [replay_loop].
  { exists st. split_and!; [done|done|cbn; lia|]. exists []. by rewrite app_nil_r. }
  destruct (step_reuses st scenario t s Ht) as (t' & o & Hstep & Ho). unfold sbind. rewrite Hstep.
  destruct (IH {| r_completed := r_completed st ++ [t']; r_outcomes := r_outcomes st ++ [o]; r_failed := r_failed st |})
    as (st' & Hloop & Hf & Hlen & os & Hos & Hinh).
  exists st'. split_and!; [done|done| |].
  - rewrite Hlen. cbn [r_completed]. rewrite length_app. cbn. lia.
  - exists (o :: os). cbn [r_outcomes] in Hos. rewrite Hos, <-app_assoc. split; [done|]. by constructor.
Qed.
End Replayed.

Lemma strings_are_fmap l ks : strings_are l ks = true → l = VStr <$> ks.
Proof.
  revert ks. induction l as [|v l IH]; intros [|k ks]; cbn; try done. intros [Hv Hl]%andb_true_iff.
  apply val_is_true in Hv as ->. by rewrite (IH ks).
Qed.
Lemma replay_ids_nodup seeds digest : validate_seed_catalog seeds digest = Ok tt → NoDup (replay_id <$> seeds).
Proof.
  unfold validate_seed_catalog. intros H. res_inv. bool_prop.
  match goal with Hs : strings_are _ _ = true |- _ => apply strings_are_fmap in Hs as Hids end.
  assert (replay_id <$> seeds = (λ n, "g03-readiness-v3-scenario-" +:+ casefold (seed_id n)) <$> seq 1 32) as ->.
  { transitivity ((λ v, "g03-readiness-v3-scenario-" +:+ casefold (val_str v)) <$> (dget "scenario_id" <$> seeds)).
    - by rewrite <-list_fmap_compose.
    - by rewrite Hids, <-!list_fmap_compose. }
  apply (bool_decide_unpack _). by vm_compute.
Qed.

(** A replay that passed rests on one passing trial for each of the thirty-two
    seeds, recorded under the key of its current inputs; and running it again, with any
    laboratory at hand, executes nothing: it returns a pass, reports every case as
    inherited, and leaves the journal as it is. *)
Theorem passed_replay_is_reused {W : Type} now factory producer_sha sut_sha digest contract continue
    (s s' : W * journal) out :
  replay_all_scenarios_v3 now factory producer_sha sut_sha digest contract continue s = (Ok out, s') →
  rr_status out = "pass" →
  (∃ seeds, seed_catalog digest = Ok seeds ∧ length seeds = 32%nat ∧
     Forall2 (holds sut_sha digest contract s'.2) seeds (rr_trials out)) ∧
  ∀ now' (factory' : string → string → SE W readiness_exn readiness_bed) producer_sha' continue', ∃ out',
    replay_all_scenarios_v3 now' factory' producer_sha' sut_sha digest contract continue' s' = (Ok out', s') ∧
    rr_status out' = "pass" ∧ Forall (λ o, co_inherited o = true) (rr_outcomes out').
Proof.
  unfold replay_all_scenarios_v3. intros H Hpass.
  apply sbind_ok in H as ([] & s1 & Hg & H). unfold sguard in Hg. destruct (FULL_SHA sut_sha) eqn:Hsha; [|discriminate Hg].
  injection Hg as <-. apply sbind_ok in H as (seeds & s2 & Hseeds & H). injection Hseeds as Hseeds <-.
  apply sbind_ok in H as ([] & s3 & Hv & H). injection Hv as Hv <-.
  destruct (loop_passes _ _ _ _ _ _ _ _ _ _ _ _ H Hpass (replay_ids_nodup _ _ Hv))
    as (_ & ts & Hts & Hall & Hlen & _). cbn [r_completed app] in Hts. subst ts.
  assert (length seeds = 32%nat) as Hl by (rewrite <-Hlen; by eapply Forall2_length). split.
  { by exists seeds. }
  intros now' factory' sha' continue'.
  destruct (loop_reuses now' factory' sha' sut_sha digest contract continue'
    {| r_completed := []; r_outcomes := []; r_failed := [] |} seeds _ s' Hall)
    as (st' & Hloop & Hf & Hn & os & Hos & Hinh). cbn in Hf, Hn, Hos.
  unfold sbind, sguard, slift. cbn [negb]. rewrite Hseeds, Hv, Hloop. unfold replay_end.
  rewrite Hf, bool_decide_eq_true_2 by done. cbn [negb]. rewrite andb_false_r, Hn, Hl. cbn [Nat.eqb negb].
  eexists. split; [done|]. split; [done|]. cbn [rr_outcomes]. by rewrite Hos.
Qed.

(** A journal that holds a pass of every seed. *)
Module Kept.
Definition sha : string := str_join "" (repeat "b2" 20).
Definition digest : string := str_join "" (repeat "a1" 32).
Definition contract : string := "collector-contract".
Definition now (n : nat) : string := "2026-07-01T00:00:00Z".
Definition key (scenario : mapping) : string :=
  match replay_key sha digest contract scenario with Ok k => k | Err _ => "" end.
Definition pass_of (scenario : mapping) : trial :=
  {| current := {| trial_id := replay_id scenario; status := "pass"; execution_attempt := 1; record_version := 2;
                   producer_sha := sha; cache_key := key scenario; recorded_at := "2026-07-01T00:00:00Z";
                   runtime_checkpoints := []; payload := []; artifact_digest := Some "d" |};
     history := [] |}.
Definition journal_of (seeds : list mapping) : journal :=
  {| trials := list_to_map ((λ s, (replay_id s, pass_of s)) <$> seeds); ticks := 0 |}.
Definition factory (sha fault_class : string)
    : SE (MemoryFlagClient * list Z) readiness_exn (readiness_bed (W:=MemoryFlagClient * list Z)) :=
  sret (memory_bed None).

Lemma lab_key_total sut contract input : ∃ k, lab_key sut contract input = Ok k.
Proof.
  unfold lab_key, semantic_cache_key. change (missing_checkpoints _ _) with ([] : list string).
  rewrite bool_decide_eq_true_2 by done. cbn [negb]. unfold digest_.
  destruct (dumps_total canonical_style (cache_subject [("sut", sut); ("trace_service", contract)]
    ["sut"; "trace_service"] input [])) as [text ->]; [by vm_compute|]. by eexists.
Qed.

Lemma seed_json digest i row adapter : json_ok (VDict (seed_of digest i row adapter)) = true.
Proof.
  destruct row as [[f s] c]. apply json_ok_sdict; [apply (bool_decide_unpack _); by vm_compute|].
  repeat apply Forall_cons_2; try done.
  apply json_ok_sdict; [apply (bool_decide_unpack _); by vm_compute|].
  repeat apply Forall_cons_2; try done. apply fine_strs.
Qed.

Lemma seed_holds seeds i row adapter :
  NoDup (replay_id <$> seeds) → seed_of digest i row adapter ∈ seeds → i ∈ seq 1 32 →
  holds sha digest contract (journal_of seeds) (seed_of digest i row adapter) (pass_of (seed_of digest i row adapter)).
Proof.
  intros Hnd Hin Hi. set (seed := seed_of digest i row adapter) in *.
  assert (∃ k, replay_key sha digest contract seed = Ok k) as [k Hk].
  { unfold replay_key, digest_json.
    match goal with |- context [dumps canonical_style ?v] =>
      destruct (dumps_total canonical_style v) as [text ->] end.
    { apply json_ok_sdict; [apply (bool_decide_unpack _); by vm_compute|].
      repeat apply Forall_cons_2; try done. apply seed_json. }
    cbn [rbind]. apply lab_key_total. }
  assert (passed k (pass_of seed) = true) as Hpass.
  { unfold passed, pass_of, key. cbn [current status cache_key]. rewrite Hk.
    by rewrite !bool_decide_eq_true_2. }
  exists k, (VStr row.2), (pass_of seed). split_and!; try done.
  - subst seed. by destruct row as [[f s] c].
  - subst seed. destruct row as [[f s] c]. by eexists.
  - assert (replay_id seed = "g03-readiness-v3-scenario-" +:+ casefold (seed_id i)) as ->.
    { unfold replay_id, seed. by rewrite seed_id_of. }
    assert (forallb (λ i, trial_path_ok ("g03-readiness-v3-scenario-" +:+ casefold (seed_id i))) (seq 1 32) = true)
      as Hall by by vm_compute.
    rewrite forallb_forall in Hall. apply Hall. by apply list_elem_of_In.
  - cbn [journal_of trials]. apply elem_of_list_to_map_1.
    + rewrite <-list_fmap_compose. exact Hnd.
    + apply list_elem_of_fmap. by exists seed.
Qed.

Lemma seeds_hold seeds : seed_catalog digest = Ok seeds → validate_seed_catalog seeds digest = Ok tt →
  Forall2 (holds sha digest contract (journal_of seeds)) seeds (pass_of <$> seeds).
Proof.
  intros Hs Hv. destruct (catalog_seeds digest eq_refl) as (seeds' & rows & Hs' & Hperm & Hall).
  rewrite Hs in Hs'. apply Ok_inj in Hs' as <-. apply replay_ids_nodup in Hv as Hnd.
  assert (length rows = 32%nat) as Hl by by rewrite Hperm. rewrite Hl in Hall.
  apply Forall2_fmap_r, Forall_Forall2_diag, Forall_forall. intros seed Hin.
  apply list_elem_of_lookup in Hin as [n Hn].
  destruct (Forall3_lookup_l _ _ _ _ _ _ Hall Hn) as (i & row & Hi & Hrow & (adapter & Ha & ->)).
  apply seed_holds; [done| |].
  - apply list_elem_of_lookup. by exists n.
  - apply list_elem_of_lookup. by exists n.
Qed.
End Kept.

Lemma passed_replay_is_reused_witness : ∃ s out,
  replay_all_scenarios_v3 Kept.now Kept.factory Kept.sha Kept.sha Kept.digest Kept.contract false s = (Ok out, s) ∧
  rr_status out = "pass" ∧
  ∃ out', replay_all_scenarios_v3 Kept.now Kept.factory "other" Kept.sha Kept.digest Kept.contract true s = (Ok out', s) ∧
    rr_status out' = "pass" ∧ Forall (λ o, co_inherited o = true) (rr_outcomes out').
Proof.
  destruct (catalog_seeds Kept.digest eq_refl) as (seeds & rows & Hs & Hperm & Hall).
  pose proof (permuted_seeds_validate _ _ _ Hperm Hall) as Hv.
  pose proof (seeds_length _ _ _ _ Hperm Hall) as Hl.
  set (s := (memory_lab base_flag_document false, Kept.journal_of seeds)).
  destruct (loop_reuses Kept.now Kept.factory Kept.sha Kept.sha Kept.digest Kept.contract false
    {| r_completed := []; r_outcomes := []; r_failed := [] |} seeds _ s (Kept.seeds_hold _ Hs Hv))
    as (st' & Hloop & Hf & Hn & _).
  assert (∃ out, replay_all_scenarios_v3 Kept.now Kept.factory Kept.sha Kept.sha Kept.digest Kept.contract false s
    = (Ok out, s) ∧ rr_status out = "pass") as (out & Hrun & Hpass).
  { unfold replay_all_scenarios_v3, sbind, sguard, slift. change (FULL_SHA Kept.sha) with true. cbn [negb].
    rewrite Hs, Hv, Hloop. unfold replay_end. rewrite Hn, Hl. cbn [andb negb length r_completed Nat.add Nat.eqb].
    eexists. split; [reflexivity|reflexivity]. }
  clearbody s.
  exists s, out. split; [exact Hrun|]. split; [exact Hpass|].
  destruct (passed_replay_is_reused _ _ _ _ _ _ _ _ _ _ Hrun Hpass) as [_ Hagain].
  apply (Hagain Kept.now Kept.factory "other" true).
Defined.
