(* ===== verification/Thresholds.v ===== *)
(** * The deterministic baseline of metric version 3

    [faultwitness_dev/g03_readiness.py]: thresholds frozen from the healthy drift of the
    other cases, the labels whose two features reach them, and the diagnosis made of the
    first.  The thresholds are records; [threshold_document] is what is digested. *)
From S2P Require Import Prelude Json JsonFacts Sha256 PyDyn PyFloat Packet Scoring.

Definition TARGET_SERVICES : list (string * string) :=
  [("productCatalogFailure", "product-catalog"); ("paymentFailure", "payment"); ("paymentUnreachable", "checkout");
   ("adHighCpu", "ad"); ("emailMemoryLeak", "email"); ("kafkaQueueProblems", "fraud-detection")].
(** label, signal kind, public scalar field, measurement quantum *)
Definition ROOT_SIGNAL_FEATURES : list (string * (string * string * double)) :=
  [("productCatalogFailure", ("trace_errors", "error_count", double_of_int 1));
   ("paymentFailure", ("trace_errors", "error_count", double_of_int 1));
   ("paymentUnreachable", ("trace_errors", "connection_error_count", double_of_int 1));
   ("adHighCpu", ("cpu_window", "cpu_cores", dec 1 6));
   ("emailMemoryLeak", ("memory_window", "working_set_bytes", double_of_int 1));
   ("kafkaQueueProblems", ("queue_window", "consumer_poll_lag_seconds", dec 1 3))].
Definition RELATIVE_ROOT_SIGNAL_FLOORS : list (string * double) := [("emailMemoryLeak", dec 5 2)].
Definition DETERMINISTIC_PERCENTILE : double := dec 99 2.

(** [table[key]] and [table.get(key)] *)
Fixpoint table_get {A} (table : list (string * A)) (key : string) : option A :=
  match table with [] => None | (k, x) :: rest => if bool_decide (k = key) then Some x else table_get rest key end.
Definition table_at {A} (table : list (string * A)) (key : string) : R A :=
  from_option_or (RPython "KeyError") (table_get table key).

(** ** Features *)

Definition samples_for_kind_v3 (packet : mapping) (kind : string) : R (list mapping) :=
  match group_by_kind packet kind with
  | None => Err (RGovernance ("metric v3 packet lacks evidence kind: " +:+ kind))
  | Some g =>
      match dget "samples" g with
      | VList samples => let* _ := py (subscript (VDict g) "id") in Ok (omap as_dict samples)
      | _ => Err (RGovernance ("metric v3 evidence kind lacks samples: " +:+ kind))
      end
  end.

(** An [int], which a [bool] is too *)
Definition as_index (v : val) : option Z :=
  match v with VInt z => Some z | VBool b => Some (Z.b2z b) | _ => None end.
Definition sample_phase (packet sample : mapping) : R string :=
  let invalid := RGovernance "metric v3 sample has an invalid window index" in
  let drifted := RGovernance "metric v3 packet window registry drifted" in
  match as_index (dget "window_index" sample), dget "windows" packet with
  | Some index, VList windows =>
      raise_if negb ((0 <=? index)%Z && (index <? Z.of_nat (length windows))%Z) with_ invalid;;
      match windows !! Z.to_nat index with
      | Some (VDict window) =>
          raise_if negb (py_eq (dget "index" window) (VInt index)) with_ drifted;;
          Ok (val_str (dget "phase" window))
      | _ => Err drifted
      end
  | _, _ => Err invalid
  end.

(** The number a feature takes from one sample *)
Definition sample_value (per_service : bool) (service field : string) (sample : mapping) : R xnum :=
  if per_service then
    let* services := py (subscript (VDict sample) "services") in
    let* measured := py (subscript services service) in
    let* v := py (subscript measured field) in py (val_xfloat v)
  else let* v := py (subscript (VDict sample) field) in py (val_xfloat v).

Definition finite_double (x : xnum) : option double := match x with XFin d => Some d | _ => None end.

Definition feature_values (packet : mapping) (label feature window : string) : R (list double) :=
  let* service := table_at TARGET_SERVICES label in
  let* source :=
    if bool_decide (feature = "trace_activity") then Ok (("trace_activity", "trace_count"), true)
    else if bool_decide (feature = "root_signal") then
      let* signal := table_at ROOT_SIGNAL_FEATURES label in
      Ok (signal.1, bool_decide (signal.1.1 = "trace_errors"))
    else Err (RGovernance ("metric v3 received an unknown deterministic feature: " +:+ feature)) in
  let '((kind, field), per_service) := source in
  let* samples := samples_for_kind_v3 packet kind in
  let* values := rmapM (λ sample,
    let* phase := sample_phase packet sample in
    if bool_decide (phase = window) then
      let* v := sample_value per_service service field sample in Ok (Some v)
    else Ok None) samples in
  let values := omap id values in
  let expected := if bool_decide (window = "healthy") then HEALTHY_WINDOW_COUNT else FAULT_WINDOW_COUNT in
  raise_if negb (bool_decide (length values = expected)) || existsb (λ x, bool_decide (finite_double x = None)) values
    with_ RGovernance "metric v3 deterministic feature window is incomplete";;
  Ok (omap finite_double values).

(** ** Statistics *)

Definition positive_consecutive_drifts (values : list double) : R (list double) :=
  raise_if negb (length values =? HEALTHY_WINDOW_COUNT)%nat
    with_ RGovernance "metric v3 healthy drift requires five values";;
  Ok (zip_with (λ left right, dmax dzero (dsub right left)) values (tail values)).

(** [math.ceil] *)
Definition dceil (d : double) : Z :=
  (- ((- d.1 * 2 ^ Z.max 0 d.2) / 2 ^ Z.max 0 (- d.2)))%Z.

Definition nearest_rank (values : list double) (percentile : double) : R double :=
  let invalid := RGovernance "metric v3 percentile input is invalid" in
  raise_if bool_decide (values = []) || negb (dlt dzero percentile && dle percentile one) with_ invalid;;
  let ordered := sort_by dle values in
  let rank := dceil (dmul percentile (double_of_int (Z.of_nat (length ordered)))) in
  from_option_or (RPython "IndexError") (ordered !! Z.to_nat (Z.max 0 (rank - 1))).

(** [statistics.median] of a list that is not empty *)
Definition median (values : list double) : R double :=
  let ordered := sort_by dle values in
  let n := length ordered in
  let at_ i := from_option_or (RPython "StatisticsError") (ordered !! i) in
  if Nat.odd n then at_ (n / 2)%nat
  else
    let* a := at_ (n / 2 - 1)%nat in
    let* b := at_ (n / 2)%nat in
    Ok (ddiv (dadd a b) (double_of_int 2)).

(** ** Thresholds *)

Record relative_floor := { floor_fraction : double; floor_median : double; floor_value : double }.
Record feature_threshold := {
  quantum : double;
  feature_kind : string;
  feature_field : string;
  healthy_drift_count : nat;
  healthy_p99 : double;
  threshold : double;
  floor : option relative_floor;
}.
Abbreviation case_thresholds := (list (string * list (string * feature_threshold))).

Definition feature_specs (label : string) : R (list (string * (string * string * double))) :=
  let* signal := table_at ROOT_SIGNAL_FEATURES label in
  Ok [("trace_activity", ("trace_activity", "trace_count", double_of_int 1)); ("root_signal", signal)].

(** One turn of the innermost loop *)
Definition freeze_feature (own : mapping) (others : list mapping) (label : string)
    (spec : string * (string * string * double)) : R (string * feature_threshold) :=
  let '(feature, (kind, field, quantum)) := spec in
  let* drifts := rmapM (λ packet,
    let* values := feature_values packet label feature "healthy" in positive_consecutive_drifts values) others in
  let drifts := concat drifts in
  let* p99 := nearest_rank drifts DETERMINISTIC_PERCENTILE in
  let base := dadd p99 quantum in
  let entry floor threshold :=
    {| quantum := quantum; feature_kind := kind; feature_field := field; healthy_drift_count := length drifts;
       healthy_p99 := p99; threshold := threshold; floor := floor |} in
  match table_get RELATIVE_ROOT_SIGNAL_FLOORS label with
  | Some fraction =>
      if bool_decide (feature = "root_signal") then
        let* values := feature_values own label feature "healthy" in
        let* level := median values in
        let floor := dmul level fraction in
        Ok (feature, entry (Some {| floor_fraction := fraction; floor_median := level; floor_value := floor |})
                       (dmax base floor))
      else Ok (feature, entry None base)
  | None => Ok (feature, entry None base)
  end.

Definition freeze_case (cs : cases) (case_id : string) (case : scenario_case) : R case_thresholds :=
  let others := (λ c : string * scenario_case, sc_packet c.2) <$> filter (λ c, c.1 ≠ case_id) (sort_keys cs) in
  raise_if negb (length others =? 31)%nat
    with_ RGovernance "metric v3 leave-one-case-out registry is incomplete";;
  rmapM (λ label,
    let* specs := feature_specs label in
    let* frozen := rmapM (freeze_feature (sc_packet case) others label) specs in
    Ok (label, frozen)) ROOT_CAUSE_LABELS.

Definition freeze_cases (cs : cases) : R (list (string * case_thresholds)) :=
  rmapM (λ c : string * scenario_case, let* frozen := freeze_case cs c.1 c.2 in Ok (c.1, frozen)) (sort_keys cs).

Definition vfloat (d : double) : val := VFloat (repr_double d).
Definition feature_document (t : feature_threshold) : val :=
  sdict ([("quantum", vfloat (quantum t)); ("kind", VStr (feature_kind t)); ("field", VStr (feature_field t));
          ("healthy_drift_count", VInt (Z.of_nat (healthy_drift_count t))); ("healthy_p99", vfloat (healthy_p99 t));
          ("threshold", vfloat (threshold t))] ++
         match floor t with
         | Some f => [("relative_floor_fraction", vfloat (floor_fraction f));
                      ("relative_floor_healthy_median", vfloat (floor_median f));
                      ("relative_floor", vfloat (floor_value f))]
         | None => []
         end).
Definition case_document (t : case_thresholds) : val :=
  sdict ((λ lf : string * list (string * feature_threshold),
    (lf.1, sdict [("target_service", VStr (default "" (table_get TARGET_SERVICES lf.1)));
                  ("features", sdict ((λ ft : string * feature_threshold, (ft.1, feature_document ft.2)) <$> lf.2))])) <$> t).
Definition threshold_document (registry : list (string * case_thresholds)) : val :=
  sdict
    [("metric_version", VInt METRIC_VERSION);
     ("method", VStr "leave-one-case-out healthy consecutive positive drift");
     ("percentile", vfloat DETERMINISTIC_PERCENTILE); ("percentile_method", VStr "nearest_rank");
     ("threshold_formula", VStr
        "max(healthy_p99 + measurement_quantum, relative_floor) where a relative floor is registered for the label");
     ("relative_root_signal_floors", sdict ((λ lf : string * double, (lf.1, vfloat lf.2)) <$> RELATIVE_ROOT_SIGNAL_FLOORS));
     ("incident_excess_formula", VStr "max(fault) - median(healthy)");
     ("candidate_rule", VStr
        "both features reach threshold (>=); the quantum term in the threshold carries the strictness");
     ("ranking", VStr "descending weakest standardized excess; label lexical tie-break");
     ("quanta", sdict [("count", VInt 1); ("cpu_cores", vfloat (dec 1 6)); ("memory_bytes", VInt 4096);
                       ("lag_seconds", vfloat (dec 1 3))]);
     ("cases", sdict ((λ ct : string * case_thresholds, (ct.1, case_document ct.2)) <$> registry))].

Record threshold_registry := { registry : list (string * case_thresholds); registry_digest : string }.
Definition build_deterministic_thresholds_v3 (document : mapping) : R threshold_registry :=
  let* cs := scenario_cases_v3 document in
  let* frozen := freeze_cases cs in
  let* digest := digest_json (threshold_document frozen) in
  Ok {| registry := frozen; registry_digest := digest |}.

(** ** Candidates *)

Record feature_observation := {
  healthy_median : double;
  fault_max : double;
  incident_excess : double;
  cutoff : double;
  standardized_excess : double;
}.
Record candidate := {
  candidate_label : string;
  weakest_standardized_excess : double;
  observations : list (string * feature_observation);
}.

(** [max(values)] and [min(values)].  The quanta are positive, and so is the scale of
    the standardized excess. *)
Definition max_of (values : list double) : R double :=
  match values with [] => Err (RPython "ValueError") | x :: xs => Ok (foldl dmax x xs) end.
Definition min_of (values : list double) : R double :=
  match values with [] => Err (RPython "ValueError") | x :: xs => Ok (foldl dmin x xs) end.

Definition observe_feature (packet : mapping) (label : string) (frozen : list (string * feature_threshold))
    (feature : string) : R (string * feature_observation) :=
  let* t := table_at frozen feature in
  let* healthy := feature_values packet label feature "healthy" in
  let* fault := feature_values packet label feature "fault" in
  let* high := max_of fault in
  let* level := median healthy in
  let excess := dsub high level in
  let scale := dmax (threshold t) (quantum t) in
  raise_if deq scale dzero with_ RPython "ZeroDivisionError";;
  Ok (feature, {| healthy_median := level; fault_max := high; incident_excess := excess; cutoff := threshold t;
                  standardized_excess := ddiv (dsub excess (threshold t)) scale |}).

Definition qualifies (o : feature_observation) : bool := dle (cutoff o) (incident_excess o).

(** One turn of the loop over the labels *)
Definition consider_label (packet : mapping) (t : case_thresholds) (label : string) : R (option candidate) :=
  let* frozen := from_option_or (RGovernance "metric v3 deterministic threshold registry lacks a label")
                   (table_get t label) in
  let* os := rmapM (observe_feature packet label frozen) ["trace_activity"; "root_signal"] in
  if forallb (λ o : string * feature_observation, qualifies o.2) os then
    let* weakest := min_of ((λ o : string * feature_observation, standardized_excess o.2) <$> os) in
    Ok (Some {| candidate_label := label; weakest_standardized_excess := weakest; observations := os |})
  else Ok None.

(** [key=lambda item: (-weakest, label)] *)
Definition candidate_le (a b : candidate) : bool :=
  let x := weakest_standardized_excess a in let y := weakest_standardized_excess b in
  dlt y x || (deq x y && str_le (candidate_label a) (candidate_label b)).

Definition deterministic_candidates_v3 (packet : mapping) (t : case_thresholds) : R (list candidate) :=
  let* _ := validate_observation_packet_v3 packet in
  let* found := rmapM (consider_label packet t) ROOT_CAUSE_LABELS in
  Ok (sort_by candidate_le (omap id found)).

(** ** The baseline *)

Definition baseline_result (case_id root : string) (labels evidence : list string) : mapping :=
  (λ kv : string * val, (VStr kv.1, kv.2)) <$>
    [("schema_version", VStr WIRE_SCHEMA_VERSION); ("metric_version", VInt METRIC_VERSION); ("case_id", VStr case_id);
     ("status", VStr "ok"); ("baseline", VStr "deterministic"); ("root_cause", VStr root);
     ("root_cause_candidates", VList (VStr <$> labels)); ("evidence", VList (VStr <$> evidence));
     ("claims", VList [sdict [("claim_type", VStr "root_cause"); ("value", VStr root);
                              ("evidence_refs", VList (VStr <$> evidence))]])].

Definition deterministic_baseline_v3 (packet : mapping) (t : case_thresholds) : R (mapping * list candidate) :=
  let* candidates := deterministic_candidates_v3 packet t in
  let case_id := val_str (dget "case_id" packet) in
  let* choice :=
    match candidates with
    | c :: _ =>
        let* kinds := from_option_or (RPython "KeyError") (REQUIRED_KINDS (candidate_label c)) in
        Ok (candidate_label c, kinds)
    | [] => Ok ("unknown", EVIDENCE_KINDS)
    end in
  let* ids := rmapM (evidence_id_v3 case_id) choice.2 in
  let labels := match candidates with [] => ["unknown"] | _ => candidate_label <$> take 3 candidates end in
  Ok (baseline_result case_id choice.1 labels (sort_strings ids), candidates).
