(* ===== verification/ThresholdsTheorems.v ===== *)
(** * Theorems on the deterministic baseline

    The baseline earns the core metric exactly on the cases whose sealed cause leads its
    candidates; a case has no influence on its own thresholds beyond the registered
    floor; the nearest rank is a value that enough values do not exceed. *)
From stdpp Require Import sorting.
From S2P Require Import Prelude Json JsonFacts Sha256 PyDyn PyFloat Experiment ExperimentTheorems Packet Scoring ScoringTheorems PacketTheorems Thresholds.

(** ** Candidates *)

Lemma table_get_elem {A} (table : list (string * A)) k x : table_get table k = Some x → (k, x) ∈ table.
Proof.
  induction table as [|[k' x'] table IH]; [done|]. cbn. case_bool_decide as Hk; [|intros ?; right; auto].
  intros [= ->]. subst. left.
Qed.

Lemma table_get_unique {A} (l : list (string * A)) k x : NoDup l.*1 → (k, x) ∈ l → table_get l k = Some x.
Proof.
  induction l as [|[k' y] l IH]; [by intros _ ?%elem_of_nil|]. cbn. intros [Hk Hnd]%NoDup_cons [[= -> ->]|Hin]%elem_of_cons.
  - by rewrite bool_decide_eq_true_2.
  - rewrite bool_decide_eq_false_2; [by apply IH|]. intros ->. apply Hk, list_elem_of_fmap. by exists (k, x).
Qed.

Lemma consider_label_name packet t label c : consider_label packet t label = Ok (Some c) →
  candidate_label c = label ∧ Forall (λ o, qualifies o.2 = true) (observations c).
Proof.
  unfold consider_label. intros H. res_inv. destruct (forallb _ _) eqn:Eq; [|discriminate H]. res_inv.
  match goal with Hs : Some _ = Some c |- _ => injection Hs as <- end. split; [done|]. cbn [observations]. apply forallb_Forall_true in Eq. exact Eq.
Qed.

Lemma candidates_elem packet t cs c :
  deterministic_candidates_v3 packet t = Ok cs → c ∈ cs →
  candidate_label c ∈ ROOT_CAUSE_LABELS ∧ consider_label packet t (candidate_label c) = Ok (Some c).
Proof.
  unfold deterministic_candidates_v3. intros H Hc. res_inv.
  rewrite sort_by_elem in Hc. apply list_elem_of_omap in Hc as (o & Ho & Hsome).
  unfold id in Hsome. subst o.
  match goal with Hm : rmapM _ ROOT_CAUSE_LABELS = Ok _ |- _ => apply rmapM_ok in Hm as Hall end.
  apply list_elem_of_lookup in Ho as [i Hi].
  destruct (Forall2_lookup_r _ _ _ _ _ Hall Hi) as (label & Hl & Hlabel).
  destruct (consider_label_name _ _ _ _ Hlabel) as [-> _]. split; [|done].
  apply list_elem_of_lookup. by exists i.
Qed.

(** ** What the baseline earns *)

Lemma required_kinds_known label ks : REQUIRED_KINDS label = Some ks → ks ⊆ EVIDENCE_KINDS.
Proof.
  assert (∀ l, l ∈ [["trace_activity"; "trace_errors"]; ["trace_activity"; "cpu_window"];
    ["trace_activity"; "memory_window"]; ["trace_activity"; "queue_window"]] → l ⊆ EVIDENCE_KINDS) as Hall.
  { intros l Hl. apply (bool_decide_unpack _). rewrite !elem_of_cons, elem_of_nil in Hl.
    destruct Hl as [->|[->|[->|[->|[]]]]]; by vm_compute. }
  unfold REQUIRED_KINDS. repeat case_bool_decide; intros [= <-]; apply Hall; set_solver.
Qed.

Lemma ground_truth_of case_id label truth : ground_truth_v3 case_id label = Ok truth →
  ∃ ks, REQUIRED_KINDS label = Some ks ∧ gt_root_cause truth = label ∧ gt_case_id truth = case_id ∧
    required_evidence truth = sort_strings (evidence_id case_id <$> ks).
Proof.
  unfold ground_truth_v3. intros (ks & Hks & H)%rbind_ok. apply from_option_or_ok in Hks. exists ks.
  rewrite Demo.evidence_ids in H by by eapply required_kinds_known. cbn [rbind] in H. res_inv. done.
Qed.

Definition diagnosis_of (root : string) (labels evidence : list string) : diagnosis :=
  {| dg_root_cause := root; dg_candidates := labels; dg_claim_value := root; dg_evidence := evidence;
     dg_claim_refs := evidence |}.
Lemma strings_of_strs l : strings_of (VList (VStr <$> l)) = Ok l.
Proof. unfold strings_of. cbn. f_equal. induction l as [|s l IH]; [done|]. cbn. by rewrite IH. Qed.
Lemma read_baseline case_id root labels evidence :
  read_diagnosis (baseline_result case_id root labels evidence) = Ok (diagnosis_of root labels evidence).
Proof.
  unfold read_diagnosis. set (r := baseline_result case_id root labels evidence).
  set (claim := sdict [("claim_type", VStr "root_cause"); ("value", VStr root); ("evidence_refs", VList (VStr <$> evidence))]).
  assert (subscript (VDict r) "root_cause" = Ok (VStr root)) as -> by done.
  assert (subscript (VDict r) "root_cause_candidates" = Ok (VList (VStr <$> labels))) as -> by done.
  assert (subscript (VDict r) "claims" = Ok (VList [claim])) as -> by done.
  assert (subscript (VDict r) "evidence" = Ok (VList (VStr <$> evidence))) as -> by done.
  assert (subscript claim "value" = Ok (VStr root)) as Hvalue by done.
  assert (subscript claim "evidence_refs" = Ok (VList (VStr <$> evidence))) as Hrefs by done.
  clearbody claim. cbn [py rmap_err rbind first_item]. rewrite strings_of_strs. cbn [rbind].
  cbn [head from_option_or py rmap_err rbind]. rewrite Hvalue, Hrefs. cbn [py rmap_err rbind]. rewrite !strings_of_strs. done.
Qed.

(** How a baseline that returns was made. *)
Lemma baseline_made packet t result candidates :
  deterministic_baseline_v3 packet t = Ok (result, candidates) →
  deterministic_candidates_v3 packet t = Ok candidates ∧
  ∃ root labels evidence, result = baseline_result (val_str (dget "case_id" packet)) root labels evidence ∧
    match candidates with
    | [] => root = "unknown"
    | c :: _ => root = candidate_label c ∧ labels = candidate_label <$> take 3 candidates ∧
        ∃ ks, REQUIRED_KINDS root = Some ks ∧
          evidence = sort_strings (evidence_id (val_str (dget "case_id" packet)) <$> ks)
    end.
Proof.
  unfold deterministic_baseline_v3. intros (cs & Hcs & H)%rbind_ok. apply rbind_ok in H as ([root ks] & Hchoice & H).
  apply rbind_ok in H as (ids & Hids & H). apply Ok_inj in H. injection H as <- <-. split; [done|]. cbn [fst snd] in *.
  do 3 eexists. split; [done|]. destruct cs as [|c cs].
  - by apply Ok_inj in Hchoice as [= <- <-].
  - apply rbind_ok in Hchoice as (ks' & Hks & Hc). apply from_option_or_ok in Hks. apply Ok_inj in Hc as [= <- <-].
    split; [done|]. split; [done|]. exists ks'. split; [done|].
    rewrite Demo.evidence_ids in Hids by by eapply required_kinds_known. by apply Ok_inj in Hids as <-.
Qed.

(** The deterministic baseline earns the core metric exactly on the cases whose
    sealed cause is its first candidate: it always cites the evidence of the cause it
    names, so that nothing but the choice of the cause can fail it, and without a
    candidate it fails as a label outside the closed set. *)
Theorem baseline_earns_its_first_candidate schema_error packet t result candidates cause truth s :
  schema_error result = None →
  deterministic_baseline_v3 packet t = Ok (result, candidates) →
  ground_truth_v3 (val_str (dget "case_id" packet)) cause = Ok truth →
  score_result_v3 schema_error result truth = Ok s →
  (core_e2e s = one ↔ ∃ c rest, candidates = c :: rest ∧ candidate_label c = cause) ∧
  (candidates = [] → failure_class s = Some "invalid_label").
Proof.
  intros Hschema (Hcand & root & labels & evidence & -> & Hroot)%baseline_made Htruth Hs.
  apply ground_truth_of in Htruth as (ks & Hks & Hcause & Hcase & Hreq).
  unfold score_result_v3, validate_result_v3 in Hs. rewrite Hschema in Hs.
  apply rbind_ok in Hs as (cid & Hcid & Hs). assert (cid = VStr (val_str (dget "case_id" packet))) as ->.
  { cbn in Hcid. by injection Hcid as <-. }
  cbn [val_str] in Hs. rewrite Hcase, bool_decide_eq_true_2 in Hs by done. cbn [negb] in Hs.
  destruct (truth_contradictory truth) eqn:Et; [discriminate Hs|].
  rewrite read_baseline in Hs. cbn [rbind] in Hs. apply Ok_inj in Hs as <-.
  apply truth_not_contradictory in Et. split.
  - rewrite (supported_iff_core _ _ Et). unfold supported, diagnosis_of. cbn [dg_root_cause dg_claim_value dg_candidates dg_evidence dg_claim_refs].
    rewrite Hcause. split.
    + intros (Hr & _). destruct candidates as [|c cs].
      * exfalso. subst root. rewrite <-Hr in Hks. by vm_compute in Hks.
      * destruct Hroot as [Hc _]. exists c, cs. split; [done|congruence].
    + intros (c & rest & -> & Hc). destruct Hroot as (-> & -> & ks' & Hks' & ->).
      rewrite Hc, Hks in Hks'. injection Hks' as <-. rewrite Hreq. split_and!; try done.
      intros l Hl. apply list_elem_of_fmap in Hl as (c' & -> & Hc').
      apply elem_of_take in Hc' as (i & Hi & _). eapply candidates_elem; [done|].
      apply list_elem_of_lookup. by exists i.
  - intros ->. subst root. unfold score_diagnosis. cbv zeta. cbn [dg_root_cause dg_candidates dg_claim_value diagnosis_of].
    assert (sort_strings (remove_dups (filter (λ l, l ∉ ROOT_CAUSE_LABELS) ("unknown" :: labels ++ ["unknown"]))) ≠ [])
      as Hne.
    { intros Hnil. rewrite sorted_filter_dups_nil in Hnil. apply (Hnil "unknown"); [left|].
      apply (bool_decide_unpack _). by vm_compute. }
    rewrite bool_decide_eq_false_2 by done. done.
Qed.

(** ** Leave one case out *)

Definition replaced (id : string) (case : scenario_case) (c : string * scenario_case) : string * scenario_case :=
  if bool_decide (c.1 = id) then (id, case) else c.
Lemma replaced_key id case c : (replaced id case c).1 = c.1.
Proof. unfold replaced. by case_bool_decide. Qed.

Lemma set_case_replaced id case (cs : cases) :
  NoDup cs.*1 → id ∈ cs.*1 → set_case id case cs = replaced id case <$> cs.
Proof.
  induction cs as [|[id' c'] cs IH]; cbn; [by intros _ ?%elem_of_nil|]. intros [Hid Hnd]%NoDup_cons.
  unfold replaced at 1. cbn [fst]. case_bool_decide as He; [subst|].
  - intros _. rewrite bool_decide_eq_true_2 by done. f_equal.
    rewrite <-(list_fmap_id cs) at 1. apply list_fmap_ext. intros i [k c] Hi. unfold replaced. cbn [fst].
    rewrite bool_decide_eq_false_2; [done|]. intros ->. apply Hid, list_elem_of_fmap. exists (id', c).
    split; [done|]. by apply list_elem_of_lookup_2 in Hi.
  - intros [->|Hin]%elem_of_cons; [done|]. rewrite bool_decide_eq_false_2 by done. f_equal. by apply IH.
Qed.
Lemma sort_keys_replaced id case (cs : cases) : sort_keys (replaced id case <$> cs) = replaced id case <$> sort_keys cs.
Proof. apply sort_by_map. intros x y. by rewrite !replaced_key. Qed.
Lemma others_replaced id case (l : cases) :
  filter (λ c, c.1 ≠ id) (replaced id case <$> l) = filter (λ c, c.1 ≠ id) l.
Proof.
  induction l as [|c l IH]; [done|]. cbn [fmap list_fmap]. rewrite !filter_cons, replaced_key.
  case_decide as Hc; [|done]. rewrite IH. f_equal. unfold replaced. by rewrite bool_decide_eq_false_2.
Qed.

Lemma frozen_entry {A B} (F : string * A → R B) (l : list (string * A)) reg id c :
  NoDup l.*1 → (id, c) ∈ l → rmapM (λ kc, let* x := F kc in Ok (kc.1, x)) l = Ok reg →
  ∃ x, F (id, c) = Ok x ∧ table_get reg id = Some x.
Proof.
  revert reg. induction l as [|[k a] l IH]; intros reg; [by intros _ ?%elem_of_nil|]. cbn.
  intros [Hk Hnd]%NoDup_cons Hin H. apply rbind_ok in H as (e & He & H). apply rbind_ok in H as (reg' & Hreg & H).
  apply rbind_ok in He as (x & Hx & He). apply Ok_inj in He as <-. apply Ok_inj in H as <-. cbn [table_get].
  apply elem_of_cons in Hin as [[= -> ->]|Hin]; [rewrite bool_decide_eq_true_2 by done; eauto|].
  rewrite bool_decide_eq_false_2; [by eapply IH|]. intros ->. apply Hk, list_elem_of_fmap. by exists (id, c).
Qed.

Lemma freeze_feature_own own own' others label spec :
  (is_Some (table_get RELATIVE_ROOT_SIGNAL_FLOORS label) →
     feature_values own' label "root_signal" "healthy" = feature_values own label "root_signal" "healthy") →
  freeze_feature own' others label spec = freeze_feature own others label spec.
Proof.
  intros Hfloor. unfold freeze_feature. destruct spec as [feature [[kind field] quantum]].
  destruct (rmapM _ others) as [drifts|]; [|done]. cbn [rbind]. destruct (nearest_rank _ _) as [p99|]; [|done].
  cbn [rbind]. destruct (table_get _ label) as [fraction|]; [|done]. case_bool_decide as Hf; [|done].
  subst feature. by rewrite Hfloor by eauto.
Qed.

(** C20: A case has no say in its own thresholds.  Replace everything about one case, its
    fault windows included, but keep the healthy root signal of the labels with a
    registered floor: its thresholds stay what they were. *)
Theorem thresholds_leave_the_case_out (cs : cases) id case case' reg reg' :
  NoDup cs.*1 → (id, case) ∈ cs →
  (∀ label, is_Some (table_get RELATIVE_ROOT_SIGNAL_FLOORS label) →
     feature_values (sc_packet case') label "root_signal" "healthy" =
     feature_values (sc_packet case) label "root_signal" "healthy") →
  freeze_cases cs = Ok reg → freeze_cases (set_case id case' cs) = Ok reg' →
  table_get reg' id = table_get reg id ∧ is_Some (table_get reg id).
Proof.
  intros Hnd Hin Hfloor Hreg Hreg'.
  assert (id ∈ cs.*1) as Hid by (apply list_elem_of_fmap; by exists (id, case)).
  rewrite set_case_replaced in Hreg' by done. unfold freeze_cases in Hreg, Hreg'. rewrite sort_keys_replaced in Hreg'.
  assert (NoDup (sort_keys cs).*1) as Hnds by by rewrite sort_keys_perm.
  assert ((id, case) ∈ sort_keys cs) as Hins by by rewrite sort_keys_perm.
  apply (frozen_entry (λ c, freeze_case cs c.1 c.2) _ _ id case Hnds Hins) in Hreg as (x & Hx & ->).
  apply (frozen_entry (λ c, freeze_case (replaced id case' <$> cs) c.1 c.2) _ _ id case') in Hreg' as (x' & Hx' & ->).
  - cbn [fst snd] in Hx, Hx'. split; [|by eexists]. f_equal. apply (Ok_inj (E:=readiness_exn)).
    rewrite <-Hx, <-Hx'. unfold freeze_case. rewrite sort_keys_replaced, others_replaced.
    destruct (negb _); [done|]. apply rmapM_ext. intros label _. destruct (feature_specs label) as [specs|]; [|done].
    cbn [rbind]. f_equal. apply rmapM_ext. intros spec _. by apply freeze_feature_own, Hfloor.
  - rewrite <-list_fmap_compose. erewrite list_fmap_ext; [exact Hnds|]. intros i c _. apply replaced_key.
  - apply list_elem_of_fmap. exists (id, case). split; [|done]. unfold replaced. by rewrite bool_decide_eq_true_2.
Qed.

(** ** The nearest rank *)

Lemma sorted_prefix_le (l : list double) n x :
  StronglySorted (λ a b, dle a b = true) l → l !! n = Some x → (S n <= length (filter (λ y, dle y x = true) l))%nat.
Proof.
  intros Hs. revert n. induction Hs as [|y l Hs IH Hy]; intros n Hn; [done|].
  rewrite Forall_forall in Hy. destruct n as [|n]; cbn in Hn.
  - injection Hn as ->. rewrite filter_cons_True by apply dle_refl. cbn. lia.
  - rewrite filter_cons_True by (apply Hy; by eapply list_elem_of_lookup_2). cbn. specialize (IH n Hn). lia.
Qed.

(** The nearest rank is one of the values, and as many values as the percentile asks for
    do not exceed it. *)
Lemma nearest_rank_covers values percentile x :
  nearest_rank values percentile = Ok x →
  x ∈ values ∧
  (dceil (dmul percentile (double_of_int (Z.of_nat (length values)))) <=
     Z.of_nat (length (filter (λ y, dle y x = true) values)))%Z.
Proof.
  unfold nearest_rank. intros H. destruct (_ || _); [discriminate H|]. rewrite sort_by_length in H.
  set (rank := dceil _) in *. clearbody rank. apply from_option_or_ok in H.
  pose proof (sort_by_perm dle values) as Hp. split.
  - apply list_elem_of_lookup_2 in H. by rewrite Hp in H.
  - assert (StronglySorted (λ a b, dle a b = true) (sort_by dle values)) as Hs
      by apply (sort_by_sorted dle dle_total dle_trans).
    pose proof (sorted_prefix_le _ _ _ Hs H) as Hn.
    assert (length (filter (λ y, dle y x = true) (sort_by dle values)) = length (filter (λ y, dle y x = true) values))
      as Hl by (apply Permutation_length; f_equiv; exact Hp).
    lia.
Qed.

(** ** Witnesses

    The cases of [Demo]: the features of their packets do not depend on the case. *)
Module DemoFeatures.
Import Demo.

Lemma values_of id label feature window :
  label ∈ ROOT_CAUSE_LABELS → feature ∈ ["trace_activity"; "root_signal"] → window ∈ ["healthy"; "fault"] →
  feature_values (packet id) label feature window = feature_values (packet "SEED-01") label feature window.
Proof.
  intros Hl Hf Hw. unfold packet, subject, six_groups.
  repeat match goal with |- context [evidence_id ?id ?k] => generalize (evidence_id id k); intros ? end.
  repeat match goal with |- context [digest ?id] => generalize (digest id); intros ? end.
  rewrite !elem_of_cons, elem_of_nil in Hf, Hw. unfold ROOT_CAUSE_LABELS in Hl. rewrite !elem_of_cons, elem_of_nil in Hl.
  destruct Hf as [->|[->|[]]], Hw as [->|[->|[]]];
    destruct Hl as [->|[->|[->|[->|[->|[->|[]]]]]]]; by vm_compute.
Qed.

Definition threshold_at (label : string) (d : double) : string * list (string * feature_threshold) :=
  let entry := {| quantum := one; feature_kind := ""; feature_field := ""; healthy_drift_count := 124;
                  healthy_p99 := dzero; threshold := d; floor := None |} in
  (label, [("trace_activity", entry); ("root_signal", entry)]).
(** Thresholds that only the processor of the advertisement service reaches. *)
Definition thresholds : case_thresholds :=
  (λ label, threshold_at label (if bool_decide (label = "adHighCpu") then dzero else one)) <$> ROOT_CAUSE_LABELS.

Lemma found id : ∃ c, rmapM (consider_label (packet id) thresholds) ROOT_CAUSE_LABELS
    = Ok [None; Some c; None; None; None; None] ∧ candidate_label c = "adHighCpu".
Proof. abstract_ids. eexists. split; [vm_compute; reflexivity|reflexivity]. Qed.
Lemma candidates id : ∃ c, deterministic_candidates_v3 (packet id) thresholds = Ok [c] ∧ candidate_label c = "adHighCpu".
Proof.
  destruct (found id) as (c & Hc & Hl). exists c. split; [|done]. unfold deterministic_candidates_v3.
  destruct (packet_valid id) as [out ->]. cbn [rbind]. by rewrite Hc.
Qed.

Lemma case_id_of id : val_str (dget "case_id" (packet id)) = id.
Proof. unfold packet. by rewrite dget_sdict. Qed.
End DemoFeatures.

Lemma baseline_earns_its_first_candidate_witness : ∃ result candidates truth s,
  deterministic_baseline_v3 (Demo.packet "SEED-01") DemoFeatures.thresholds = Ok (result, candidates) ∧
  ground_truth_v3 (val_str (dget "case_id" (Demo.packet "SEED-01"))) "adHighCpu" = Ok truth ∧
  score_result_v3 (λ _, None) result truth = Ok s ∧ core_e2e s = one.
Proof.
  destruct (DemoFeatures.candidates "SEED-01") as (c & Hc & Hl).
  assert (∃ result, deterministic_baseline_v3 (Demo.packet "SEED-01") DemoFeatures.thresholds = Ok (result, [c]))
    as [result Hb].
  { unfold deterministic_baseline_v3. rewrite Hc. cbn [rbind]. rewrite Hl.
    change (REQUIRED_KINDS "adHighCpu") with (Some ["trace_activity"; "cpu_window"]). cbn [from_option_or rbind snd].
    rewrite Demo.evidence_ids by (apply (bool_decide_unpack _); by vm_compute). by eexists. }
  assert (match ground_truth_v3 "SEED-01" "adHighCpu" with Ok t => truth_contradictory t | Err _ => true end = false)
    as Htruth by (vm_compute; reflexivity).
  destruct (ground_truth_v3 "SEED-01" "adHighCpu") as [truth|] eqn:Et; [|discriminate Htruth].
  assert (∃ s, score_result_v3 (λ _, None) result truth = Ok s) as [s Hs].
  { destruct (baseline_made _ _ _ _ Hb) as (_ & root & labels & evidence & -> & _).
    apply ground_truth_of in Et as (ks & _ & _ & Hcase & _). unfold score_result_v3. cbn [validate_result_v3].
    change (subscript (VDict (baseline_result (val_str (dget "case_id" (Demo.packet "SEED-01"))) root labels evidence)) "case_id")
      with (Ok (E:=string) (VStr (val_str (dget "case_id" (Demo.packet "SEED-01"))))).
    cbn [py rmap_err rbind val_str]. rewrite DemoFeatures.case_id_of, Hcase, bool_decide_eq_true_2 by done. cbn [negb].
    rewrite Htruth, read_baseline. cbn [rbind]. by eexists. }
  rewrite <-(DemoFeatures.case_id_of "SEED-01") in Et.
  pose proof (baseline_earns_its_first_candidate (λ _, None) (Demo.packet "SEED-01") DemoFeatures.thresholds result [c]
    "adHighCpu" truth s eq_refl Hb Et Hs) as [Hone _].
  exists result, [c], truth, s. split; [exact Hb|]. split; [exact Et|]. split; [exact Hs|]. apply Hone.
  exists c, []. split; [reflexivity|exact Hl].
Defined.

Lemma rmapM_total {A B} (f : A → R B) (P : B → Prop) xs :
  (∀ x, x ∈ xs → ∃ y, f x = Ok y ∧ P y) → ∃ ys, rmapM f xs = Ok ys ∧ Forall P ys ∧ length ys = length xs.
Proof.
  induction xs as [|x xs IH]; intros Hf; [by exists []|]. destruct (Hf x) as (y & Hy & HPy); [left|].
  destruct IH as (ys & Hys & HP & Hlen); [intros z Hz; apply Hf; by right|].
  exists (y :: ys). cbn. rewrite Hy. cbn. rewrite Hys. cbn. split_and!; [done|by constructor|lia].
Qed.
Lemma concat_length {A} (n : nat) (xs : list (list A)) :
  Forall (λ l, length l = n) xs → length (concat xs) = (length xs * n)%nat.
Proof. induction 1 as [|l xs Hl _ IH]; [done|]. cbn. rewrite length_app. lia. Qed.

(** The drifts of thirty-one cases have a 99th percentile. *)
Lemma nearest_rank_total drifts : length drifts = 124%nat → ∃ x, nearest_rank drifts DETERMINISTIC_PERCENTILE = Ok x.
Proof.
  intros Hlen. unfold nearest_rank. rewrite bool_decide_eq_false_2 by (by intros ->).
  change (negb (dlt dzero DETERMINISTIC_PERCENTILE && dle DETERMINISTIC_PERCENTILE one)) with false. cbn [orb].
  rewrite sort_by_length, Hlen. change (Z.to_nat _) with 122%nat.
  destruct (sort_by dle drifts !! 122%nat) eqn:E; [by eexists|].
  apply lookup_ge_None in E. rewrite sort_by_length in E. lia.
Qed.

Module DemoCases.
Definition case_of (id : string) : scenario_case :=
  {| sc_packet := Demo.packet id; sc_truth := sample_truth; sc_family := "demo"; nonzero_distractor_kinds := [] |}.
Definition ids : list string := Demo.assignments.*1.
Definition all_cases : cases := (λ id, (id, case_of id)) <$> ids.

Lemma ids_nodup : NoDup ids.
Proof. apply (bool_decide_unpack _). by vm_compute. Qed.
Lemma keys_ids : all_cases.*1 = ids.
Proof. unfold all_cases. rewrite <-list_fmap_compose. apply list_fmap_id. Qed.

Lemma healthy_values id label feature :
  label ∈ ROOT_CAUSE_LABELS → feature ∈ ["trace_activity"; "root_signal"] →
  ∃ vs, feature_values (Demo.packet id) label feature "healthy" = Ok vs ∧ length vs = 5%nat.
Proof.
  intros Hl Hf. unfold Demo.packet, Demo.subject, six_groups.
  repeat match goal with |- context [evidence_id ?id ?k] => generalize (evidence_id id k); intros ? end.
  repeat match goal with |- context [Demo.digest ?id] => generalize (Demo.digest id); intros ? end.
  rewrite !elem_of_cons, elem_of_nil in Hf. unfold ROOT_CAUSE_LABELS in Hl. rewrite !elem_of_cons, elem_of_nil in Hl.
  destruct Hf as [->|[->|[]]]; destruct Hl as [->|[->|[->|[->|[->|[->|[]]]]]]];
    (eexists; split; [vm_compute; reflexivity|reflexivity]).
Qed.

Lemma healthy_equal id id' :
  feature_values (Demo.packet id) "emailMemoryLeak" "root_signal" "healthy" =
  feature_values (Demo.packet id') "emailMemoryLeak" "root_signal" "healthy".
Proof.
  assert (∀ i, feature_values (Demo.packet i) "emailMemoryLeak" "root_signal" "healthy" = Ok (repeat (double_of_int 1024) 5)) as He;
    [|by rewrite (He id), (He id')].
  intros i. unfold Demo.packet, Demo.subject, six_groups.
  repeat match goal with |- context [evidence_id ?id ?k] => generalize (evidence_id id k); intros ? end.
  repeat match goal with |- context [Demo.digest ?id] => generalize (Demo.digest id); intros ? end.
  vm_compute. reflexivity.
Qed.

Lemma feature_total id others label spec :
  label ∈ ROOT_CAUSE_LABELS → spec.1 ∈ ["trace_activity"; "root_signal"] →
  Forall (λ p, ∃ id, p = Demo.packet id) others → length others = 31%nat →
  ∃ e, freeze_feature (Demo.packet id) others label spec = Ok e.
Proof.
  destruct spec as [feature [[kind field] quantum]]. cbn [fst]. intros Hl Hf Hothers Hlen. unfold freeze_feature.
  destruct (rmapM_total (λ packet, let* values := feature_values packet label feature "healthy" in
    positive_consecutive_drifts values) (λ l, length l = 4%nat) others) as (drifts & Hd & Hall & Hn).
  { intros p Hp. rewrite Forall_forall in Hothers. destruct (Hothers p Hp) as [id' ->].
    destruct (healthy_values id' label feature Hl Hf) as (vs & -> & Hvs). cbn [rbind].
    unfold positive_consecutive_drifts. rewrite Hvs. cbn. eexists. split; [done|].
    do 6 (destruct vs as [|? vs]; try discriminate Hvs). done. }
  cbv zeta in Hd |- *. rewrite Hd. cbn [rbind].
  destruct (nearest_rank_total (concat drifts)) as [p99 ->].
  { rewrite (concat_length 4) by done. lia. }
  cbn [rbind]. destruct (table_get _ label); [|by eexists]. case_bool_decide; [|by eexists].
  subst feature. destruct (healthy_values id label "root_signal" Hl Hf) as (vs & -> & Hvs). cbn [rbind].
  unfold median. rewrite sort_by_length, Hvs. cbn [Nat.odd Nat.even negb].
  change (5 / 2)%nat with 2%nat. destruct (sort_by dle vs !! 2%nat) eqn:E; [by eexists|].
  apply lookup_ge_None in E. rewrite sort_by_length in E. lia.
Qed.

Lemma others_length (cs : cases) id : cs.*1 = ids → id ∈ ids → length (filter (λ c, c.1 ≠ id) (sort_keys cs)) = 31%nat.
Proof.
  intros Hkeys Hid. transitivity (length (filter (λ k, k ≠ id) ids)).
  - rewrite <-Hkeys. assert (filter (λ c, c.1 ≠ id) (sort_keys cs) ≡ₚ filter (λ c, c.1 ≠ id) cs) as Hp
      by (f_equiv; apply sort_keys_perm).
    rewrite Hp. clear. induction cs as [|c cs IH]; [done|]. cbn [fmap list_fmap]. rewrite !filter_cons.
    case_decide; cbn [length]; by rewrite IH.
  - assert (forallb (λ id, length (filter (λ k, k ≠ id) ids) =? 31)%nat ids = true) as Hall by by vm_compute.
    rewrite forallb_forall in Hall. apply Nat.eqb_eq, Hall. by apply list_elem_of_In.
Qed.

Lemma specs_of label : label ∈ ROOT_CAUSE_LABELS →
  ∃ specs, feature_specs label = Ok specs ∧ Forall (λ spec, spec.1 ∈ ["trace_activity"; "root_signal"]) specs.
Proof.
  intros Hl. unfold ROOT_CAUSE_LABELS in Hl. rewrite !elem_of_cons, elem_of_nil in Hl.
  assert (∀ s, ∃ specs, Ok (E:=readiness_exn) [("trace_activity", ("trace_activity", "trace_count", double_of_int 1));
      ("root_signal", s)] = Ok specs ∧ Forall (λ spec, spec.1 ∈ ["trace_activity"; "root_signal"]) specs) as Hs.
  { intros s. eexists. split; [done|]. repeat apply Forall_cons_2; [left|right; left|done]. }
  destruct Hl as [->|[->|[->|[->|[->|[->|[]]]]]]]; apply Hs.
Qed.

Lemma all_frozen (cs : cases) :
  cs.*1 = ids → Forall (λ c, ∃ id, sc_packet c.2 = Demo.packet id) cs → ∃ reg, freeze_cases cs = Ok reg.
Proof.
  intros Hkeys Hdemo. unfold freeze_cases.
  assert (Forall (λ c, ∃ id, sc_packet c.2 = Demo.packet id) (sort_keys cs)) as Hsorted by by rewrite sort_keys_perm.
  rewrite Forall_forall in Hsorted.
  destruct (rmapM_total (λ c : string * scenario_case, let* frozen := freeze_case cs c.1 c.2 in Ok (c.1, frozen))
    (λ _, True) (sort_keys cs)) as (reg & Hreg & _); [|by exists reg].
  intros [id c] Hin. destruct (Hsorted _ Hin) as [pid Hp]. cbn [fst snd] in *. unfold freeze_case.
  assert (id ∈ ids) as Hid.
  { rewrite <-Hkeys. rewrite sort_keys_perm in Hin. apply list_elem_of_fmap. by exists (id, c). }
  rewrite length_fmap, (others_length cs id Hkeys Hid). cbn [Nat.eqb negb]. rewrite Hp.
  destruct (rmapM_total (λ label, let* specs := feature_specs label in
    let* frozen := rmapM (freeze_feature (Demo.packet pid) ((λ c, sc_packet c.2) <$> filter (λ c, c.1 ≠ id) (sort_keys cs)) label) specs in
    Ok (label, frozen)) (λ _, True) ROOT_CAUSE_LABELS) as (frozen & Hf & _); [|rewrite Hf; by eexists].
  intros label Hl. destruct (specs_of label Hl) as (specs & -> & Hspecs). cbn [rbind]. rewrite Forall_forall in Hspecs.
  destruct (rmapM_total (freeze_feature (Demo.packet pid) ((λ c, sc_packet c.2) <$> filter (λ c, c.1 ≠ id) (sort_keys cs)) label)
    (λ _, True) specs) as (es & -> & _); [|by eexists].
  intros spec Hspec. destruct (feature_total pid ((λ c, sc_packet c.2) <$> filter (λ c, c.1 ≠ id) (sort_keys cs)) label spec)
    as [e He]; [done|by apply Hspecs| |by rewrite length_fmap, others_length|by exists e].
  apply Forall_fmap, Forall_forall. intros c' Hc'. apply list_elem_of_filter in Hc' as [_ Hc']. by apply Hsorted.
Qed.
End DemoCases.

Lemma thresholds_leave_the_case_out_witness :
  let case' := {| sc_packet := Demo.packet "ANOTHER"; sc_truth := sample_truth; sc_family := "replaced";
                  nonzero_distractor_kinds := ["queue_window"] |} in
  ∃ reg reg', freeze_cases DemoCases.all_cases = Ok reg ∧
    freeze_cases (set_case "SEED-7" case' DemoCases.all_cases) = Ok reg' ∧
    table_get reg' "SEED-7" = table_get reg "SEED-7" ∧ is_Some (table_get reg "SEED-7").
Proof.
  intros case'. assert ("SEED-7" ∈ DemoCases.ids) as Hid by (apply (bool_decide_unpack _); vm_compute; reflexivity).
  assert (NoDup DemoCases.all_cases.*1) as Hnd by (rewrite DemoCases.keys_ids; apply DemoCases.ids_nodup).
  assert (("SEED-7", DemoCases.case_of "SEED-7") ∈ DemoCases.all_cases) as Hin
    by (apply list_elem_of_fmap; exists "SEED-7"; split; [reflexivity|exact Hid]).
  assert (Forall (λ c, ∃ id, sc_packet c.2 = Demo.packet id) DemoCases.all_cases) as Hdemo
    by (apply Forall_fmap, Forall_true; intros id; exists id; reflexivity).
  destruct (DemoCases.all_frozen DemoCases.all_cases DemoCases.keys_ids Hdemo) as [reg Hreg].
  destruct (DemoCases.all_frozen (set_case "SEED-7" case' DemoCases.all_cases)) as [reg' Hreg'].
  { rewrite set_case_replaced; [|exact Hnd|rewrite DemoCases.keys_ids; exact Hid].
    rewrite <-list_fmap_compose. rewrite <-DemoCases.keys_ids. apply list_fmap_ext. intros i c _. apply replaced_key. }
  { rewrite set_case_replaced; [|exact Hnd|rewrite DemoCases.keys_ids; exact Hid]. apply Forall_fmap.
    eapply Forall_impl; [exact Hdemo|]. intros c Hc. unfold compose, replaced. case_bool_decide; [|exact Hc].
    exists "ANOTHER". reflexivity. }
  exists reg, reg'. split; [exact Hreg|]. split; [exact Hreg'|].
  apply (thresholds_leave_the_case_out DemoCases.all_cases "SEED-7" (DemoCases.case_of "SEED-7") case' reg reg' Hnd Hin);
    [|exact Hreg|exact Hreg'].
  intros label Hlabel. assert (label = "emailMemoryLeak") as ->.
  { cbn in Hlabel. case_bool_decide as Hl; [by rewrite Hl|]. destruct Hlabel as [x Hx]. discriminate Hx. }
  unfold case', DemoCases.case_of. cbn [sc_packet]. exact (DemoCases.healthy_equal "ANOTHER" "SEED-7").
Defined.
