(* ===== verification/PySet.v ===== *)
(** * Sets of dynamic values, and the errors of the repository checks

    [set], [Counter], [sorted] and the comprehensions of [faultwitness_dev], on the values a
    YAML or JSON loader builds.  A set is the list of its members as they were added: which
    of two equal members it keeps shows nowhere.  Scalars that JSON has not ([VOther], a
    date) do not compare here. *)
From S2P Require Import Prelude Json PyDyn PyFloat.

(** What a check raises: [GovernanceError] with the text of its message before the values it
    shows, or an exception of Python. *)
Inductive check_error : Type :=
| Governance (message : string) (shown : list val)
| Escapes (exn : string).
Abbreviation CK := (result check_error).

Definition py_ck {A} (r : pyres A) : CK A := rmap_err Escapes r.
(** [v["key"]] *)
Definition item (v : val) (key : string) : CK val := py_ck (subscript v key).
(** [v["key"]["key'"]...] *)
Definition item_path (v : val) (path : list string) : CK val := rfold item path v.
Definition elements (v : val) : CK (list val) := py_ck (iterate v).
Fixpoint ck_for {A} (body : A → CK unit) (xs : list A) : CK unit :=
  match xs with [] => Ok tt | x :: xs => let* _ := body x in ck_for body xs end.

(** ** Sets *)

Definition hashed (v : val) : CK val :=
  raise_if negb (hashable v) with_ Escapes "TypeError";; Ok v.
(** [v in s] of a set, a frozen set or the keys of a mapping *)
Definition mem (v : val) (s : list val) : bool := existsb (py_eq v) s.
#[global] Arguments mem : simpl never.
Definition ck_in (v : val) (s : list val) : CK bool := let* v := hashed v in Ok (mem v s).
(** [[x["key"] for x in v]] *)
Definition list_by (key : string) (v : val) : CK (list val) :=
  let* xs := elements v in rmapM (λ x, item x key) xs.

Definition subset (a b : list val) : bool := forallb (λ v, mem v b) a.
Definition same_set (a b : list val) : bool := subset a b && subset b a.
Definition difference (a b : list val) : list val := filter (λ v, mem v b = false) a.
(** Each member once *)
Fixpoint distinct (vs : list val) : list val :=
  match vs with
  | [] => []
  | v :: vs => v :: filter (λ w, py_eq v w = false) (distinct vs)
  end.

(** [set(v)] *)
Definition set_of (v : val) : CK (list val) :=
  let* xs := elements v in let* xs := rmapM hashed xs in Ok (distinct xs).
(** [{x["key"] for x in v}] *)
Definition set_by (key : string) (v : val) : CK (list val) :=
  let* xs := elements v in
  let* ks := rmapM (λ x, let* k := item x key in hashed k) xs in Ok (distinct ks).

(** ** Order *)

Definition text_of (v : val) : option string := match v with VStr s => Some s | _ => None end.
Definition num_le (a b : val) : bool :=
  match val_num a, val_num b with Some a, Some b => xle a b | _, _ => false end.
(** [sorted(v)]: values of different kinds do not compare, and a sort compares neighbours. *)
Definition py_sorted (vs : list val) : CK (list val) :=
  match vs with
  | [] | [_] => Ok vs
  | _ =>
      if forallb (λ v, match text_of v with Some _ => true | None => false end) vs
      then Ok (VStr <$> sort_strings (omap text_of vs))
      else if forallb (λ v, match val_num v with Some _ => true | None => false end) vs
      then Ok (sort_by num_le vs)
      else Err (Escapes "TypeError")
  end.

(** [sorted(value for value, count in Counter(values).items() if count > 1)] *)
Definition occurs (v : val) (vs : list val) : nat := length (filter (λ w, py_eq v w = true) vs).
Definition duplicates (values : list val) : CK (list val) :=
  let* values := rmapM hashed values in
  py_sorted (filter (λ v, 1 < occurs v values)%nat (distinct values)).

(** [{x["key"]: x for x in v}], where a later record replaces an earlier one in its place *)
Fixpoint put (k v : val) (d : list (val * val)) : list (val * val) :=
  match d with
  | [] => [(k, v)]
  | (k', v') :: d => if py_eq k k' then (k', v) :: d else (k', v') :: put k v d
  end.
Definition records_by (key : string) (v : val) : CK (list (val * val)) :=
  let* xs := elements v in
  rfold (λ d x, let* k := item x key in let* k := hashed k in Ok (put k x d)) xs [].
(** [records["name"]] *)
Definition record_at (d : list (val * val)) (name : string) : CK val :=
  py_ck (from_option_or "KeyError" (dfind name d)).

(** ** Strings as members *)

Lemma py_eq_str s v : py_eq (VStr s) v = true ↔ v = VStr s.
Proof. destruct v; cbn; try (split; congruence). rewrite bool_decide_eq_true. split; congruence. Qed.
Lemma py_eq_str_r s v : py_eq v (VStr s) = true ↔ v = VStr s.
Proof.
  destruct v; cbn; try (split; [|congruence]; try done; by case_match).
  rewrite bool_decide_eq_true. split; congruence.
Qed.
Lemma mem_str s vs : mem (VStr s) vs = true ↔ VStr s ∈ vs.
Proof.
  unfold mem. rewrite existsb_exists. setoid_rewrite list_elem_of_In.
  split; [intros (v & Hin & ->%py_eq_str); done|intros Hin; exists (VStr s); by rewrite py_eq_str].
Qed.
Lemma mem_str_false s vs : mem (VStr s) vs = false ↔ VStr s ∉ vs.
Proof. by rewrite <-not_true_iff_false, mem_str. Qed.
Lemma distinct_incl v vs : v ∈ distinct vs → v ∈ vs.
Proof.
  induction vs as [|w vs IH]; [done|]. cbn. rewrite !elem_of_cons, list_elem_of_filter. intros [?|[_ ?]]; auto.
Qed.
Lemma distinct_str s vs : VStr s ∈ distinct vs ↔ VStr s ∈ vs.
Proof.
  split; [apply distinct_incl|]. induction vs as [|w vs IH]; [done|]. cbn. rewrite !elem_of_cons, list_elem_of_filter.
  intros [?|Hin]; [by left|]. destruct (py_eq w (VStr s)) eqn:E; [left; by apply py_eq_str_r in E|].
  right. split; [done|auto].
Qed.
Lemma subset_str a b s : subset a b = true → VStr s ∈ a → VStr s ∈ b.
Proof. unfold subset. rewrite forallb_forall. intros H Hin%list_elem_of_In%H. by apply mem_str. Qed.
Lemma py_sorted_nil vs : py_sorted vs = Ok [] → vs = [].
Proof.
  destruct vs as [|v [|w vs]]; [done..|]. cbn [py_sorted]. repeat case_match; intros [= Hn].
  - apply (f_equal length) in Hn. rewrite length_fmap in Hn. unfold sort_strings in Hn. rewrite sort_by_length in Hn.
    destruct v; cbn in *; by try done; destruct w.
  - change (sort_by num_le (v :: w :: vs) = []) in Hn. apply (f_equal length) in Hn. by rewrite sort_by_length in Hn.
Qed.
Lemma hashed_ok v w : hashed v = Ok w → w = v.
Proof. unfold hashed. case_match; [done|]. by intros [= ->]. Qed.
Lemma hashed_all xs ys : rmapM hashed xs = Ok ys → ys = xs.
Proof. intros H%rmapM_ok. induction H as [|x y xs ys ->%hashed_ok _ IH]; [done|]. by rewrite IH. Qed.
Lemma duplicates_nil values s1 i j :
  duplicates values = Ok [] → values !! i = Some (VStr s1) → values !! j = Some (VStr s1) → i = j.
Proof.
  unfold duplicates. intros H Hi Hj. apply rbind_ok in H as (vs & Hvs & H%py_sorted_nil).
  apply hashed_all in Hvs as ->.
  destruct (decide (i = j)) as [|Hij]; [done|exfalso].
  assert (VStr s1 ∈ filter (λ v, 1 < occurs v values)%nat (distinct values)) as Hin.
  { apply list_elem_of_filter. split; [|apply distinct_str; by eapply list_elem_of_lookup_2].
    unfold occurs. clear -Hi Hj Hij.
    enough (∀ i j, values !! i = Some (VStr s1) → values !! j = Some (VStr s1) → (i < j)%nat →
      (1 < length (filter (λ w, py_eq (VStr s1) w = true) values))%nat) as Hw.
    { destruct (decide (i < j)%nat); [by eapply (Hw i j)|eapply (Hw j i); try done; lia]. }
    clear. intros i j Hi Hj Hlt.
    rewrite <-(take_drop_middle values i (VStr s1) Hi), filter_app, filter_cons_True by (by apply py_eq_str).
    rewrite length_app. cbn [length].
    assert (VStr s1 ∈ drop (S i) values) as Hin.
    { eapply (list_elem_of_lookup_2 _ (j - S i)). rewrite lookup_drop. by replace (S i + (j - S i))%nat with j by lia. }
    assert (VStr s1 ∈ filter (λ w, py_eq (VStr s1) w = true) (drop (S i) values)) as Hf
      by (apply list_elem_of_filter; split; [by apply py_eq_str|done]).
    destruct (filter _ (drop (S i) values)); [by apply elem_of_nil in Hf|]. cbn. lia. }
  rewrite H in Hin. by apply elem_of_nil in Hin.
Qed.
Lemma set_of_str v xs ys s : elements v = Ok xs → set_of v = Ok ys → VStr s ∈ ys ↔ VStr s ∈ xs.
Proof.
  intros He. unfold set_of. rewrite He. cbn. intros H. apply rbind_ok in H as (zs & ->%hashed_all & H).
  apply Ok_inj in H as <-. apply distinct_str.
Qed.
Lemma set_by_str key v xs ks s :
  elements v = Ok xs → set_by key v = Ok ks → VStr s ∈ ks ↔ ∃ x, x ∈ xs ∧ item x key = Ok (VStr s).
Proof.
  intros He. unfold set_by. rewrite He. cbn. intros H. apply rbind_ok in H as (zs & Hz & H).
  apply Ok_inj in H as <-. rewrite distinct_str. apply rmapM_ok in Hz. clear He. induction Hz as [|x y xs ys Hy _ IH].
  - split; [by intros ?%elem_of_nil|by intros (x & ?%elem_of_nil & _)].
  - setoid_rewrite elem_of_cons. rewrite IH. apply rbind_ok in Hy as (k & Hk & ->%hashed_ok). split.
    + intros [->|(z & ? & ?)]; eauto.
    + intros (z & [->|?] & Hx); [left; congruence|right; eauto].
Qed.
Lemma item_ok v key x : item v key = Ok x → ∃ d, v = VDict d ∧ dfind key d = Some x.
Proof.
  unfold item, py_ck. destruct v; cbn; try done. destruct (dfind key d) as [w|] eqn:E; cbn; [|done].
  intros [= ->]. by eexists.
Qed.

Example py_sets :
  (py_sorted [VStr "b"; VStr "a"], py_sorted [VStr "b"; VInt 1], py_sorted [VInt 3; VFloat "1.5"],
   duplicates [VStr "x"; VStr "y"; VStr "x"], duplicates [VInt 1; VBool true], duplicates [VList []],
   same_set [VStr "a"; VStr "b"] [VStr "b"; VStr "a"; VStr "a"])
  = (Ok [VStr "a"; VStr "b"], Err (Escapes "TypeError"), Ok [VFloat "1.5"; VInt 3],
     Ok [VStr "x"], Ok [VInt 1], Err (Escapes "TypeError"), true).
Proof. vm_compute. reflexivity. Qed.
