(* ===== verification/DevContracts.v ===== *)
(** * Checks of the contract documents

    [faultwitness_dev/contracts.py]: the catalogue, the four state machines, the safety
    paths through them, and the type, failure, OpenAPI, AsyncAPI and walkthrough documents,
    check by check in source order.  Where the code runs over a set of literals, whose order
    is arbitrary, the model takes the order of the source. *)
From Stdlib Require Import Ascii.
From S2P Require Import Prelude Json PyDyn PyFloat PySet.

Definition MACHINE_FILES : list (string * string) :=
  [("incident", "docs/contracts/state-machines/incident.yaml");
   ("runtime_task", "docs/contracts/state-machines/runtime_task.yaml");
   ("agent_graph", "docs/contracts/state-machines/agent_graph.yaml");
   ("action_transaction", "docs/contracts/state-machines/action_transaction.yaml")].

(** ** Control flow *)

(** [if bad: raise GovernanceError(message, with the values it shows)] *)
Definition refuse_if (bad : bool) (message : string) (shown : list (CK val)) : CK unit :=
  if bad then let* vs := rmapM id shown in Err (Governance message vs) else Ok tt.
Definition ck_or (a b : CK bool) : CK bool := let* x := a in if x then Ok true else b.
Definition ck_and (a b : CK bool) : CK bool := let* x := a in if x then b else Ok false.
Definition ck_not (a : CK bool) : CK bool := let* x := a in Ok (negb x).
Fixpoint ck_any {A} (p : A → CK bool) (xs : list A) : CK bool :=
  match xs with [] => Ok false | x :: xs => ck_or (p x) (ck_any p xs) end.
Fixpoint ck_filter {A} (p : A → CK bool) (xs : list A) : CK (list A) :=
  match xs with
  | [] => Ok []
  | x :: xs => let* keep := p x in let* ys := ck_filter p xs in Ok (if keep then x :: ys else ys)
  end.
(** [next(x for x in xs if p(x))] *)
Fixpoint ck_next {A} (p : A → CK bool) (xs : list A) : CK A :=
  match xs with
  | [] => Err (Escapes "StopIteration")
  | x :: xs => let* found := p x in if found then Ok x else ck_next p xs
  end.
(** [v["key"] == "text"] *)
Definition field_is (v : val) (key text : string) : CK bool := let* x := item v key in Ok (val_is x text).
Definition field_in (v : val) (key : string) (s : list val) : CK bool := let* x := item v key in ck_in x s.
Definition truth_of (v : val) (key : string) : CK bool := let* x := item v key in Ok (val_truthy x).
(** [v.values()] *)
Definition values_of (v : val) : CK (list val) :=
  match v with VDict d => Ok d.*2 | _ => Err (Escapes "AttributeError") end.
Definition getattr (v : val) (key : string) (dflt : val) : CK val := py_ck (get_attr v key dflt).
Definition texts (l : list string) : list val := VStr <$> l.

(** ** The catalogue *)

Definition validate_catalog (catalog architecture : val) : CK unit :=
  let* components := item architecture "components" in
  let* component_ids := set_by "id" components in
  let* commands := item catalog "commands" in
  let* command_ids := list_by "id" commands in
  let* events := item catalog "events" in
  let* event_ids := list_by "id" events in
  let* twice := duplicates command_ids in
  let* _ := refuse_if (negb (bool_decide (twice = []))) "duplicate command IDs" [Ok (VList twice)] in
  let* twice := duplicates event_ids in
  let* _ := refuse_if (negb (bool_decide (twice = []))) "duplicate event IDs" [Ok (VList twice)] in
  let* command_list := elements commands in
  let* _ := ck_for (λ command,
    let* known := field_in command "owner" component_ids in
    let* _ := refuse_if (negb known) "command has unknown owner" [item command "id"] in
    let* bad := field_is command "idempotency" "not_applicable" in
    let* _ := refuse_if bad "state command lacks idempotency semantics" [item command "id"] in
    let* bad := field_is command "version_check" "not_applicable" in
    refuse_if bad "state command lacks version semantics" [item command "id"]) command_list in
  let* event_list := elements events in
  ck_for (λ event,
    let* known := field_in event "producer" component_ids in
    refuse_if (negb known) "event has unknown producer" [item event "id"]) event_list.

(** ** State machines *)

(** A [defaultdict(set)]: the pairs added to it *)
Abbreviation digraph := (list (val * val)).
Definition successors (g : digraph) (v : val) : list val :=
  distinct (snd <$> filter (λ e : val * val, py_eq v e.1 = true) g).

(** One [target] of [_walk] *)
Definition discover (s : list val * list val) (target : val) : list val * list val :=
  let '(visited, queue) := s in
  if mem target visited then s else (visited ++ [target], queue ++ [target]).
Fixpoint walk_loop (fuel : nat) (g : digraph) (visited queue : list val) : option (list val) :=
  match queue with
  | [] => Some visited
  | current :: queue =>
      match fuel with
      | O => None
      | S fuel =>
          let '(visited, queue) := fold_left discover (successors g current) (visited, queue) in
          walk_loop fuel g visited queue
      end
  end.
(** Every turn takes a vertex from the queue, which every vertex enters once. *)
Definition walk (starts : list val) (g : digraph) : CK (list val) :=
  from_option_or (Escapes "out of fuel") (walk_loop (length starts + length g) g starts starts).

(** The vocabulary a transition is checked against *)
Record vocabulary := {
  component_ids : list val;
  command_ids : list val;
  event_ids : list val;
}.

(** One turn of the loop over [machine["transitions"]] *)
Definition validate_transition (names : vocabulary) (machine : val) (states terminals : list val)
    (g : digraph) (transition : val) : CK digraph :=
  let* source := item transition "from" in
  let* target := item transition "to" in
  let* unknown := ck_or (ck_not (ck_in source states)) (ck_not (ck_in target states)) in
  let* _ := refuse_if unknown "state machine transition references an unknown state"
              [item machine "id"; item transition "id"] in
  let* terminal := ck_in source terminals in
  let* _ := refuse_if terminal "state machine has terminal outgoing transition" [item machine "id"] in
  let* known := field_in transition "actor" (component_ids names) in
  let* _ := refuse_if (negb known) "transition has unknown actor" [item transition "id"] in
  let* known := field_in transition "command" (command_ids names) in
  let* _ := refuse_if (negb known) "transition has unknown command" [item transition "id"] in
  let* known := field_in transition "event" (event_ids names) in
  let* _ := refuse_if (negb known) "transition has unknown event" [item transition "id"] in
  Ok (g ++ [(source, target)]).
Definition converse (g : digraph) : digraph := (λ e, (e.2, e.1)) <$> g.

Definition validate_state_machine (machine architecture catalog : val) : CK unit :=
  let* components := item architecture "components" in
  let* component_ids := set_by "id" components in
  let* stores := item architecture "stores" in
  let* store_ids := set_by "id" stores in
  let* commands := item catalog "commands" in
  let* command_ids := set_by "id" commands in
  let* events := item catalog "events" in
  let* event_ids := set_by "id" events in
  let* state_names := item machine "states" in
  let* states := set_of state_names in
  let* terminal_states := item machine "terminal_states" in
  let* terminals := set_of terminal_states in
  let* names := elements state_names in
  let* twice := duplicates names in
  let* _ := refuse_if (negb (bool_decide (twice = []))) "state machine has duplicate states"
              [item machine "id"; Ok (VList twice)] in
  let* known := field_in machine "initial_state" states in
  let* _ := refuse_if (negb known) "state machine has unknown initial state" [item machine "id"] in
  let* terminal := field_in machine "initial_state" terminals in
  let* _ := refuse_if terminal "state machine starts terminal" [item machine "id"] in
  let* _ := refuse_if (negb (subset terminals states)) "state machine has unknown terminal states"
              [item machine "id"] in
  let* known := field_in machine "owner_component" component_ids in
  let* _ := refuse_if (negb known) "state machine has unknown owner" [item machine "id"] in
  let* known := field_in machine "authoritative_store" store_ids in
  let* _ := refuse_if (negb known) "state machine has unknown store" [item machine "id"] in
  let* transitions := item machine "transitions" in
  let* transition_ids := list_by "id" transitions in
  let* twice := duplicates transition_ids in
  let* _ := refuse_if (negb (bool_decide (twice = []))) "state machine has duplicate transitions"
              [item machine "id"; Ok (VList twice)] in
  let* transition_list := elements transitions in
  let* graph := rfold (validate_transition
      {| component_ids := component_ids; command_ids := command_ids; event_ids := event_ids |}
      machine states terminals) transition_list [] in
  let* initial_state := item machine "initial_state" in
  let* reachable := walk [initial_state] graph in
  let* unreachable := py_sorted (difference states reachable) in
  let* _ := refuse_if (negb (bool_decide (unreachable = []))) "state machine has unreachable states"
              [item machine "id"; Ok (VList unreachable)] in
  let* can_terminate := walk terminals (converse graph) in
  let* trapped := py_sorted (difference (difference states terminals) can_terminate) in
  refuse_if (negb (bool_decide (trapped = []))) "state machine has states without terminal path"
    [item machine "id"; Ok (VList trapped)].

(** ** Safety paths *)

Definition require_preconditions (transition : val) (expected : list string) (label : string) : CK unit :=
  let* preconditions := item transition "preconditions" in
  let* given := set_of preconditions in
  let* missing := py_sorted (difference (texts expected) given) in
  refuse_if (negb (bool_decide (missing = []))) (label +:+ " is missing safety preconditions") [Ok (VList missing)].

(** [transition["from"] == source and transition["to"] == target] *)
Definition leads (source target : string) (transition : val) : CK bool :=
  ck_and (field_is transition "from" source) (field_is transition "to" target).

Definition dispatch_preconditions : list string :=
  ["matching_tenant"; "valid_authorization"; "valid_approval_if_R2"; "valid_approval_digest";
   "valid_resource_version"; "current_policy_allow"; "idempotency_reserved"].

(** The four parts of [_validate_safety_paths], on the transitions of one machine each *)
Definition check_incident_path (transitions : list val) : CK unit :=
  let* incident_r2 := ck_next (leads "WAITING_APPROVAL" "EXECUTING") transitions in
  require_preconditions incident_r2
    ["valid_approval_digest"; "valid_resource_version"; "approval_not_expired"] "Incident R2 execution".
Definition check_agent_path (transitions : list val) : CK unit :=
  let* graph_r2 := ck_next (leads "AWAIT_APPROVAL" "DISPATCH_ACTION") transitions in
  require_preconditions graph_r2
    ["valid_approval_digest"; "valid_resource_version"; "matching_tenant"] "Agent R2 dispatch".
Definition blind_retry (transition : val) : CK bool :=
  ck_or (truth_of transition "automatic")
    (ck_or (ck_not (field_is transition "command" "CMD-RECONCILE-ACTION"))
       (ck_not (field_in transition "to" (texts ["VERIFYING"; "MANUAL"])))).
Definition check_action_paths (action : val) : CK unit :=
  let* transitions := item action "transitions" in
  let* transition_list := elements transitions in
  let* dispatches := ck_filter (λ t, field_is t "to" "EXECUTING") transition_list in
  let* bypass := match dispatches with [d] => ck_not (field_is d "from" "APPROVED") | _ => Ok true end in
  let* _ := refuse_if bypass "Action execution bypasses APPROVED" [] in
  let* _ := match dispatches with
            | d :: _ => require_preconditions d dispatch_preconditions "Action dispatch"
            | [] => Ok tt   (* refused above *)
            end in
  let* transitions := item action "transitions" in
  let* transition_list := elements transitions in
  let* uncertain_outgoing := ck_filter (λ t, field_is t "from" "UNCERTAIN") transition_list in
  let* bad := match uncertain_outgoing with [] => Ok true | _ => ck_any blind_retry uncertain_outgoing end in
  refuse_if bad "UNCERTAIN has an automatic or blind-retry path" [].
Definition check_runtime_commit (runtime : val) : CK unit :=
  let* transitions := item runtime "transitions" in
  let* transition_list := elements transitions in
  let* completion := ck_filter (λ t, field_is t "to" "SUCCEEDED") transition_list in
  let* _ := match completion with
            | [t] => require_preconditions t
                       ["valid_fencing_token"; "matching_attempt_id"; "checkpoint_committed"] "Runtime success commit"
            | _ => Err (Governance "Runtime Task must have one success commit path" [])
            end in
  let* bad := ck_any (λ t, ck_and (field_is t "to" "SUCCEEDED") (ck_not (field_is t "from" "RUNNING")))
                transition_list in
  refuse_if bad "Runtime Task can commit after lease loss" [].

(** [machines = {name: loaded[path] for name, path in MACHINE_FILES.items()}] *)
Record machine_documents := { incident : val; runtime_task : val; agent_graph : val; action_transaction : val }.
Definition machine_items (m : machine_documents) : list (string * val) :=
  [("incident", incident m); ("runtime_task", runtime_task m); ("agent_graph", agent_graph m);
   ("action_transaction", action_transaction m)].

Definition validate_safety_paths (machines : machine_documents) : CK unit :=
  let* incident_transitions := item (incident machines) "transitions" in
  let* incident_list := elements incident_transitions in
  let* _ := check_incident_path incident_list in
  let* graph_transitions := item (agent_graph machines) "transitions" in
  let* graph_list := elements graph_transitions in
  let* _ := check_agent_path graph_list in
  let* _ := check_action_paths (action_transaction machines) in
  check_runtime_commit (runtime_task machines).

(** ** The rendered diagrams *)

Definition newline : string := String "010"%char "".
Definition machine_title (id : string) : string :=
  if bool_decide (id = "incident") then "Incident Lifecycle"
  else if bool_decide (id = "runtime_task") then "Runtime Task"
  else if bool_decide (id = "agent_graph") then "Agent Graph" else "ActionTransaction".
(** [f"{v['key']}"] *)
Definition shown_field (v : val) (key : string) : CK string := let* x := item v key in Ok (val_str x).

Definition render_machine (named : string * val) : CK (list string) :=
  let '(id, machine) := named in
  let* owner := shown_field machine "owner_component" in
  let* store := shown_field machine "authoritative_store" in
  let* initial := shown_field machine "initial_state" in
  let* transitions := item machine "transitions" in
  let* transition_list := elements transitions in
  let* arrows := rmapM (λ t,
    let* source := shown_field t "from" in
    let* target := shown_field t "to" in
    let* name := shown_field t "id" in
    Ok ("    " +:+ source +:+ " --> " +:+ target +:+ ": " +:+ name)) transition_list in
  let* terminal_states := item machine "terminal_states" in
  let* terminals := elements terminal_states in
  let* invariants := item machine "invariants" in
  let* invariant_list := elements invariants in
  Ok (["## " +:+ machine_title id; "";
       "Owner: `" +:+ owner +:+ "`; store: `" +:+ store +:+ "`."; ""; "```mermaid"; "stateDiagram-v2";
       "    [*] --> " +:+ initial] ++ arrows ++
      ((λ t, "    " +:+ val_str t +:+ " --> [*]") <$> terminals) ++
      ["```"; ""; "Invariants:"; ""] ++ ((λ i, "- " +:+ val_str i) <$> invariant_list) ++ [""]).

Definition render_state_machine_document (machines : machine_documents) : CK string :=
  let* parts := rmapM render_machine (machine_items machines) in
  Ok (str_join newline
    (["# Generated State Machine Diagrams"; "";
      "<!-- GENERATED from docs/contracts/state-machines/*.yaml; do not edit by hand. -->"; "";
      "The YAML transition tables are the single source of truth. `faultwitness_dev validate` compares this document byte-for-byte with the renderer.";
      ""] ++ concat parts)).

(** ** Types and failures *)

Definition expected_types : list string :=
  ["TenantContext"; "IncidentSpec"; "IncidentState"; "RunTask"; "RunState"; "Lease"; "ChangeEvent"; "AgentState";
   "EvidenceRef"; "Hypothesis"; "ProbePlan"; "ToolDefinition"; "ToolCall"; "ToolResult"; "SkillManifest";
   "ActionProposal"; "ApprovalGrant"; "ActionTransaction"; "TrajectoryIR"; "EvalResult"; "DomainEvent"].
Definition forbidden_fields : list string := ["chain_of_thought"; "ground_truth"; "locked_answer"].

(** [len(v)] of what was iterated *)
Definition len_of (v : val) : CK nat := let* xs := elements v in Ok (length xs).
(** [len(records) != len(v) or set(records) != expected] *)
Definition incomplete (records : list (val * val)) (v : val) (expected : list string) : CK bool :=
  let* n := len_of v in
  Ok (negb (bool_decide (length records = n)) || negb (same_set records.*1 (texts expected))).

Definition check_type_record (components stores : list val) (record : val) : CK unit :=
  let* known := field_in record "owner_component" components in
  let* _ := refuse_if (negb known) "type has unknown owner" [item record "name"] in
  let* store := item record "authoritative_store" in
  let* unknown := match store with VNone => Ok false | _ => ck_not (ck_in store stores) end in
  let* _ := refuse_if unknown "type has unknown store" [item record "name"] in
  let* fields := item record "fields" in
  let* field_names := list_by "name" fields in
  let* twice := duplicates field_names in
  refuse_if (negb (bool_decide (twice = []))) "type has duplicate fields" [item record "name"].

Definition exposes_private (record : val) : CK bool :=
  let* fields := item record "fields" in
  let* names := set_by "name" fields in
  Ok (existsb (λ f, mem f names) (texts forbidden_fields)).

Definition validate_type_catalog (catalog architecture : val) : CK unit :=
  let* types := item catalog "types" in
  let* records := records_by "name" types in
  let* bad := incomplete records types expected_types in
  let* _ := refuse_if bad "core type catalog is incomplete or has duplicate names" [] in
  let* components := item architecture "components" in
  let* components := set_by "id" components in
  let* stores := item architecture "stores" in
  let* stores := set_by "id" stores in
  let* _ := ck_for (check_type_record components stores) records.*2 in
  let* tenant := record_at records "TenantContext" in
  let* fields := item tenant "fields" in
  let* tenant_fields := records_by "name" fields in
  let* _ := ck_for (λ field_name,
    let* field := record_at tenant_fields field_name in
    let* claimed := field_is field "source" "oidc_claim" in
    refuse_if (negb claimed) ("TenantContext " +:+ field_name +:+ " is not sourced from OIDC") [])
    ["tenant_id"; "user_id"; "roles"] in
  ck_for (λ record,
    let* private := exposes_private record in
    refuse_if private "type exposes forbidden private data" [item record "name"]) records.*2.

Definition expected_failures : list string :=
  ["FAIL-OIDC-TENANT-INVALID"; "FAIL-DUPLICATE-CREATE"; "FAIL-DATABASE-TRANSACTION"; "FAIL-OUTBOX-PUBLISH";
   "FAIL-WORKER-LEASE-LOSS"; "FAIL-MODEL-TOOL-TRANSIENT"; "FAIL-STRUCTURED-OUTPUT"; "FAIL-QDRANT-UNAVAILABLE";
   "FAIL-MINIO-UNAVAILABLE"; "FAIL-LANGSMITH-UNAVAILABLE"; "FAIL-OPA-UNAVAILABLE"; "FAIL-KEYCLOAK-UNAVAILABLE";
   "FAIL-ACTION-RESPONSE-LOST"; "FAIL-POSTCONDITION"; "FAIL-COMPENSATION-UNKNOWN"; "FAIL-CANCEL";
   "FAIL-GROUND-TRUTH-ACCESS"].

Definition validate_failure_semantics (document : val) : CK unit :=
  let* failures := item document "failures" in
  let* records := records_by "id" failures in
  let* bad := incomplete records failures expected_failures in
  let* _ := refuse_if bad "fixed failure semantics catalog is incomplete" [] in
  let* lost := record_at records "FAIL-ACTION-RESPONSE-LOST" in
  let* fixed := field_is lost "retry_policy" "reconcile_only" in
  let* _ := refuse_if (negb fixed) "lost action response must reconcile without retry" [] in
  let* unknown := record_at records "FAIL-COMPENSATION-UNKNOWN" in
  let* fixed := field_is unknown "retry_policy" "manual_only" in
  refuse_if (negb fixed) "unknown compensation must require manual handling" [].

Definition validate_error_references (catalog failure_document : val) : CK unit :=
  let* errors := item failure_document "errors" in
  let* error_ids := list_by "id" errors in
  let* twice := duplicates error_ids in
  let* _ := refuse_if (negb (bool_decide (twice = []))) "duplicate error codes" [Ok (VList twice)] in
  let* known := rmapM hashed error_ids in
  let* commands := item catalog "commands" in
  let* command_list := elements commands in
  let* by_command := rmapM (λ command,
    let* errors := item command "errors" in
    let* error_list := elements errors in rmapM hashed error_list) command_list in
  let* failures := item failure_document "failures" in
  let* by_failure := set_by "client_error" failures in
  let* unknown := py_sorted (difference (distinct (concat by_command ++ by_failure)) known) in
  let* _ := refuse_if (negb (bool_decide (unknown = []))) "contracts reference unknown error codes"
              [Ok (VList unknown)] in
  let* error_list := elements errors in
  let* uncertain := ck_next (λ e, field_is e "id" "ERR-UNCERTAIN") error_list in
  let* stale_lease := ck_next (λ e, field_is e "id" "ERR-STALE-LEASE") error_list in
  let* retried := ck_or (truth_of uncertain "retryable") (truth_of stale_lease "retryable") in
  refuse_if retried "uncertain effects and stale leases cannot be client retried" [].

(** ** Interface documents *)

Definition required_paths : list string :=
  ["/v1/incidents"; "/v1/incidents/{incident_id}"; "/v1/incidents/{incident_id}/events";
   "/v1/incidents/{incident_id}/approvals"; "/v1/incidents/{incident_id}/cancel";
   "/v1/incidents/{incident_id}/feedback"; "/v1/tools"; "/v1/skills"].
Definition METHODS : list string := ["get"; "post"; "put"; "patch"; "delete"].

(** The [operationId]s of [document["paths"]], each given to [collect] *)
Definition operation_ids (collect : val → CK val) (document : val) : CK (list val) :=
  let* paths := item document "paths" in
  let* path_items := values_of paths in
  let* ids := rmapM (λ path_item,
    let* ids := rmapM (λ method,
      let* operation := getattr path_item method VNone in
      if val_truthy operation then let* i := item operation "operationId" in let* i := collect i in Ok [i]
      else Ok []) METHODS in
    Ok (concat ids)) path_items in
  Ok (concat ids).
(** [any(p.get(key) == text for p in parameters)] *)
Definition some_parameter (parameters : val) (key text : string) : CK bool :=
  let* ps := elements parameters in
  ck_any (λ p, let* x := getattr p key VNone in Ok (val_is x text)) ps.

Definition validate_openapi (document : val) : CK unit :=
  let* paths := item document "paths" in
  let* path_names := set_of paths in
  let* _ := refuse_if (negb (same_set path_names (texts required_paths))) "OpenAPI path baseline drifted" [] in
  let* ids := operation_ids Ok document in
  let* twice := duplicates ids in
  let* _ := refuse_if (negb (bool_decide (twice = []))) "OpenAPI has duplicate operationId values" [] in
  let* _ := ck_for (λ path,
    let* post := item_path document ["paths"; path; "post"] in
    let* parameters := getattr post "parameters" (VList []) in
    let* keyed := some_parameter parameters "$ref" "#/components/parameters/IdempotencyKey" in
    refuse_if (negb keyed) ("state modifying OpenAPI operation lacks idempotency: " +:+ path) [])
    ["/v1/incidents"; "/v1/incidents/{incident_id}/approvals"; "/v1/incidents/{incident_id}/cancel";
     "/v1/incidents/{incident_id}/feedback"] in
  let* schemas := item_path document ["components"; "schemas"] in
  let* _ := ck_for (λ schema_name,
    let* schema := item schemas schema_name in
    let* required := getattr schema "required" (VList []) in
    let* versioned := py_ck (val_contains "expected_state_version" required) in
    refuse_if (negb versioned) ("OpenAPI " +:+ schema_name +:+ " lacks expected_state_version") [])
    ["ApprovalRequest"; "CancelRequest"; "FeedbackRequest"] in
  let* _ := ck_for (λ schema_name,
    let* schema := item schemas schema_name in
    let* properties := getattr schema "properties" (VDict []) in
    let* fields := set_of properties in
    refuse_if (existsb (λ f, mem f fields) (texts ["tenant_id"; "user_id"; "roles"]))
      ("OpenAPI " +:+ schema_name +:+ " accepts caller supplied identity") [])
    ["IncidentCreate"; "ApprovalRequest"; "CancelRequest"; "FeedbackRequest"] in
  let* required := item_path schemas ["ErrorEnvelope"; "required"] in
  let* error_required := set_of required in
  let* _ := refuse_if (negb (same_set error_required
                (texts ["code"; "message"; "retryable"; "correlation_id"; "details"])))
              "OpenAPI ErrorEnvelope drifted" [] in
  let* event_parameters := item_path document ["paths"; "/v1/incidents/{incident_id}/events"; "get"; "parameters"] in
  let* resumable := some_parameter event_parameters "name" "Last-Event-ID" in
  refuse_if (negb resumable) "SSE contract lacks Last-Event-ID resume" [].

Definition required_channels : list string :=
  ["incidentCommands"; "incidentEvents"; "runtimeCommands"; "runtimeEvents"; "agentEvents"; "actionCommands";
   "actionEvents"; "traceEvents"].
Definition expected_command_fields : list string :=
  ["command_id"; "command_type"; "schema_version"; "occurred_at"; "tenant_id"; "correlation_id"; "causation_id";
   "idempotency_key"; "expected_state_version"; "payload"].
Definition expected_event_fields : list string :=
  ["event_id"; "event_type"; "schema_version"; "occurred_at"; "tenant_id"; "correlation_id"; "causation_id";
   "sequence"; "payload"].
Definition channel_prefix : string := "#/channels/".

Definition validate_asyncapi (document : val) : CK unit :=
  let* channels := item document "channels" in
  let* channel_names := set_of channels in
  let* _ := refuse_if (negb (same_set channel_names (texts required_channels))) "AsyncAPI channel baseline drifted" [] in
  let* operations := item document "operations" in
  let* operation_list := values_of operations in
  let* _ := ck_for (λ operation,
    let* channel_ref := item_path operation ["channel"; "$ref"] in
    let* ref := from_option_or (Escapes "AttributeError") (text_of channel_ref) in
    let* _ := refuse_if (negb (startswith ref channel_prefix)) "AsyncAPI operation has an invalid channel reference" [] in
    let* known := py_ck (val_contains (str_drop (String.length channel_prefix) ref) channels) in
    refuse_if (negb known) "AsyncAPI operation references an unknown channel" []) operation_list in
  let* schemas := item_path document ["components"; "schemas"] in
  let* required := item_path schemas ["CommandEnvelope"; "required"] in
  let* command_required := set_of required in
  let* _ := refuse_if (negb (subset (texts expected_command_fields) command_required))
              "AsyncAPI CommandEnvelope lacks idempotency or version fields" [] in
  let* required := item_path schemas ["DomainEventEnvelope"; "required"] in
  let* event_required := set_of required in
  refuse_if (negb (same_set event_required (texts expected_event_fields))) "AsyncAPI DomainEventEnvelope drifted" [].

(** ** Walkthroughs *)

Definition expected_walkthroughs : list string :=
  ["W-ARCH-001"; "W-ARCH-002"; "W-ARCH-003"; "W-ARCH-004"; "W-ARCH-005"; "W-ARCH-006"; "W-ARCH-007"; "W-ARCH-008";
   "W-ARCH-009"; "W-ARCH-010"].
Definition required_failure_bindings : list (string * list string) :=
  [("W-ARCH-004", ["FAIL-WORKER-LEASE-LOSS"]);
   ("W-ARCH-005", ["FAIL-ACTION-RESPONSE-LOST"]);
   ("W-ARCH-006", ["FAIL-POSTCONDITION"]);
   ("W-ARCH-007", ["FAIL-COMPENSATION-UNKNOWN"]);
   ("W-ARCH-008", ["FAIL-CANCEL"]);
   ("W-ARCH-009", ["FAIL-LANGSMITH-UNAVAILABLE"; "FAIL-OPA-UNAVAILABLE"; "FAIL-KEYCLOAK-UNAVAILABLE"]);
   ("W-ARCH-010", ["FAIL-OIDC-TENANT-INVALID"; "FAIL-GROUND-TRUTH-ACCESS"])].

(** [sorted(set(record[key]) - known)] *)
Definition unknown_of (record : val) (key : string) (known : list val) : CK (list val) :=
  let* values := item record key in
  let* values := set_of values in py_sorted (difference values known).

Definition validate_walkthrough_bindings (document : val) (machines : machine_documents)
    (catalog failures openapi : val) : CK unit :=
  let* bindings := item document "bindings" in
  let* records := records_by "id" bindings in
  let* bad := incomplete records bindings expected_walkthroughs in
  let* _ := refuse_if bad "contract walkthrough binding set is incomplete" [] in
  let* transition_ids := rmapM (λ m : string * val,
    let* transitions := item m.2 "transitions" in set_by "id" transitions) (machine_items machines) in
  let* commands := item catalog "commands" in
  let* command_ids := set_by "id" commands in
  let* failure_list := item failures "failures" in
  let* failure_ids := set_by "id" failure_list in
  let* known_operations := operation_ids hashed openapi in
  let* _ := ck_for (λ record,
    let* unknown_transitions := unknown_of record "transition_ids" (concat transition_ids) in
    let* unknown_commands := unknown_of record "command_ids" command_ids in
    let* unknown_failures := unknown_of record "failure_ids" failure_ids in
    let* unknown_operations := unknown_of record "operations" known_operations in
    refuse_if (negb (bool_decide (unknown_transitions ++ unknown_commands ++ unknown_failures ++ unknown_operations = [])))
      "walkthrough has unknown contract references"
      [item record "id"; Ok (VList unknown_transitions); Ok (VList unknown_commands);
       Ok (VList unknown_failures); Ok (VList unknown_operations)]) records.*2 in
  ck_for (λ binding : string * list string,
    let* record := record_at records binding.1 in
    let* bound := item record "failure_ids" in
    let* bound := set_of bound in
    let* missing := py_sorted (difference (texts binding.2) bound) in
    refuse_if (negb (bool_decide (missing = []))) ("walkthrough " +:+ binding.1 +:+ " misses fixed failures")
      [Ok (VList missing)]) required_failure_bindings.

(** ** All of them *)

(** [validate_contracts]; [diagrams] is the text of [STATE_MACHINE_DIAGRAMS.md], when it is a
    file. *)
Definition validate_contracts (diagrams : option string) (loaded : val) : CK unit :=
  let* architecture := item loaded "docs/architecture/ARCHITECTURE.yaml" in
  let* catalog := item loaded "docs/contracts/COMMAND_EVENT_CATALOG.yaml" in
  let* type_catalog := item loaded "docs/contracts/TYPE_CATALOG.yaml" in
  let* failures := item loaded "docs/contracts/FAILURE_SEMANTICS.yaml" in
  let* walkthroughs := item loaded "docs/contracts/WALKTHROUGH_BINDINGS.yaml" in
  let* openapi := item loaded "docs/contracts/openapi.yaml" in
  let* asyncapi := item loaded "docs/contracts/asyncapi.yaml" in
  let* m1 := item loaded "docs/contracts/state-machines/incident.yaml" in
  let* m2 := item loaded "docs/contracts/state-machines/runtime_task.yaml" in
  let* m3 := item loaded "docs/contracts/state-machines/agent_graph.yaml" in
  let* m4 := item loaded "docs/contracts/state-machines/action_transaction.yaml" in
  let machines := {| incident := m1; runtime_task := m2; agent_graph := m3; action_transaction := m4 |} in
  let* _ := validate_catalog catalog architecture in
  let* _ := ck_for (λ named : string * val,
    let* same := field_is named.2 "id" named.1 in
    let* _ := refuse_if (negb same) ("state machine file/id mismatch: " +:+ named.1) [] in
    validate_state_machine named.2 architecture catalog) (machine_items machines) in
  let* expected_diagrams := render_state_machine_document machines in
  let* _ := refuse_if (negb (bool_decide (diagrams = Some expected_diagrams)))
              "state machine Mermaid document drifted from YAML source" [] in
  let* _ := validate_safety_paths machines in
  let* _ := validate_type_catalog type_catalog architecture in
  let* _ := validate_failure_semantics failures in
  let* _ := validate_error_references catalog failures in
  let* _ := validate_openapi openapi in
  let* _ := validate_asyncapi asyncapi in
  validate_walkthrough_bindings walkthroughs machines catalog failures openapi.
