(* ===== verification/DevSchemas.v ===== *)
(** * Checks of the repository's documents

    [faultwitness_dev/schemas.py]: unique identifiers, the requirements against their
    evidence, the architecture with its single writer of every state, and the driver that
    loads each asset.  Files, the glob and the JSON schema validator are arguments. *)
From S2P Require Import Prelude Json PyDyn PyFloat PySet DevContracts.

(** ** Small operations *)

(** [d[v]] of a mapping built by a comprehension *)
Definition entry_at (d : list (val * val)) (v : val) : CK val :=
  let* v := hashed v in
  py_ck (from_option_or "KeyError" (snd <$> head (filter (λ kv : val * val, py_eq v kv.1 = true) d))).
(** [d.get(v)] *)
Definition entry_get (d : list (val * val)) (v : val) : CK val :=
  let* v := hashed v in
  Ok (default VNone (snd <$> head (filter (λ kv : val * val, py_eq v kv.1 = true) d))).
(** [{x["key"]: x["value"] for x in v}] *)
Definition values_by (key value : string) (xs : list val) : CK (list (val * val)) :=
  rfold (λ d x, let* k := item x key in let* w := item x value in let* k := hashed k in Ok (put k w d)) xs [].
Definition ck_all {A} (p : A → CK bool) (xs : list A) : CK bool := ck_not (ck_any (λ x, ck_not (p x)) xs).

(** [_check_unique_ids] *)
Definition check_unique_ids (document : val) (label : string) : CK unit :=
  match document with
  | VDict d =>
      ck_for (λ key,
        match dget key d with
        | VList records =>
            let ids := omap (λ r, match r with VDict r => Some (dget "id" r) | _ => None end) records in
            let* ids := rmapM hashed ids in
            let* twice := py_sorted (filter (λ v, val_truthy v = true ∧ 1 < occurs v ids)%nat (distinct ids)) in
            if bool_decide (twice = []) then Ok tt
            else
              let* names := rmapM (λ v, from_option_or (Escapes "TypeError") (text_of v)) twice in
              Err (Governance ("duplicate IDs in " +:+ label +:+ ": " +:+ str_join ", " names) [])
        | _ => Ok tt
        end) ["requirements"; "adrs"; "sources"]
  | _ => Ok tt
  end.

(** [validate_document]; [schema_errors] are the formatted errors of the validator. *)
Definition validate_document (schema_errors : val → val → list string) (document schema : val) (label : string)
    : CK unit :=
  match schema_errors schema document with
  | [] => Ok tt
  | errors => Err (Governance ("schema validation failed for " +:+ label +:+ ": " +:+ str_join "; " errors) [])
  end.

(** ** Requirements and evidence *)

(** A summand [a and b]: the falsy [a], or the truth of [b] *)
Definition summand (included : val) (b : CK bool) : CK Z :=
  if val_truthy included then let* x := b in Ok (Z.b2z x)
  else match val_num included with Some _ => Ok 0%Z | None => Err (Escapes "TypeError") end.
Definition ck_sum (f : val → CK Z) (xs : list val) : CK Z :=
  rfold (λ n x, let* k := f x in Ok (n + k)%Z) xs 0%Z.
Definition interview_kinds : list val := texts ["interview"; "interview_collection"].

Definition source_counts (sources : list val) : CK val :=
  let included (b : val → CK bool) (source : val) := let* i := item source "included" in summand i (b source) in
  let* job_descriptions := ck_sum (included (λ s, field_is s "kind" "job_description")) sources in
  let* included_interviews := ck_sum (included (λ s, field_in s "kind" interview_kinds)) sources in
  let* excluded_interviews := ck_sum (λ s,
    let* i := item s "included" in
    if val_truthy i then Ok 0%Z else let* b := field_in s "kind" interview_kinds in Ok (Z.b2z b)) sources in
  let* technical_references := ck_sum (included (λ s, field_is s "kind" "technical_reference")) sources in
  let* upstream_reports := ck_sum (included (λ s, field_is s "kind" "upstream_report")) sources in
  Ok (sdict [("job_descriptions", VInt job_descriptions); ("included_interviews", VInt included_interviews);
             ("excluded_empty_interviews", VInt excluded_interviews);
             ("technical_references", VInt technical_references); ("upstream_reports", VInt upstream_reports)]).

Definition check_source (source : val) : CK unit :=
  let* included := truth_of source "included" in
  if included then
    let* bad := ck_or (ck_not (truth_of source "indexed"))
                  (let* r := item source "exclusion_reason" in Ok (match r with VNone => false | _ => true end)) in
    refuse_if bad "included source is not indexed cleanly" [item source "id"]
  else
    let* bad := ck_or (truth_of source "indexed") (ck_not (truth_of source "exclusion_reason")) in
    refuse_if bad "excluded source lacks an exclusion record" [item source "id"].

Definition is_included (source_by_id : list (val * val)) (source_id : val) : CK bool :=
  let* source := entry_at source_by_id source_id in truth_of source "included".

Definition check_requirement (source_by_id : list (val * val)) (requirement : val) : CK unit :=
  let* ids := item requirement "source_ids" in
  let* id_set := set_of ids in
  let* unknown := py_sorted (difference id_set source_by_id.*1) in
  let* _ := refuse_if (negb (bool_decide (unknown = []))) "requirement has unknown sources"
              [item requirement "id"; Ok (VList unknown)] in
  let* id_list := elements ids in
  let* excluded := ck_filter (λ i, ck_not (is_included source_by_id i)) id_list in
  let* excluded := py_sorted excluded in
  let* _ := refuse_if (negb (bool_decide (excluded = []))) "requirement cites excluded sources"
              [item requirement "id"; Ok (VList excluded)] in
  let* weak := ck_and (truth_of requirement "mandatory")
                 (ck_not (ck_any (λ i, let* source := entry_at source_by_id i in
                                      field_in source "tier" (texts ["A"; "B"])) id_list)) in
  refuse_if weak "mandatory requirement is supported only by Tier C evidence" [item requirement "id"].

(** One entry of the matrix; [covered] grows by its requirements. *)
Definition check_entry (source_by_id : list (val * val)) (requirement_ids covered : list val) (entry : val)
    : CK (list val) :=
  let* ids := item entry "requirement_ids" in
  let* id_list := elements ids in
  let* id_set := set_of ids in
  let* unknown := py_sorted (difference id_set requirement_ids) in
  let* _ := refuse_if (negb (bool_decide (unknown = []))) "evidence matrix has unknown requirements" [Ok (VList unknown)] in
  let* sources := item entry "source_ids" in
  let* source_set := set_of sources in
  let* unknown := py_sorted (difference source_set source_by_id.*1) in
  let* _ := refuse_if (negb (bool_decide (unknown = []))) "evidence matrix has unknown sources" [Ok (VList unknown)] in
  let* source_list := elements sources in
  let* excluded := ck_any (λ i, ck_not (is_included source_by_id i)) source_list in
  let* _ := refuse_if excluded "evidence matrix cites an excluded source" [] in
  Ok (covered ++ id_list).

Definition check_evidence_invariants (requirements source_catalog evidence_matrix : val) : CK unit :=
  let* sources := item source_catalog "sources" in
  let* source_by_id := records_by "id" sources in
  let* source_list := elements sources in
  let* actual_counts := source_counts source_list in
  let* expected_counts := item source_catalog "expected_counts" in
  let* _ := refuse_if (negb (py_eq actual_counts expected_counts)) "source catalog count drift"
              [Ok expected_counts; Ok actual_counts] in
  let* _ := ck_for check_source source_list in
  let* requirement_ids := set_by "id" requirements in
  let* requirement_list := elements requirements in
  let* _ := ck_for (check_requirement source_by_id) requirement_list in
  let* entries := item evidence_matrix "entries" in
  let* entry_list := elements entries in
  let* covered := rfold (check_entry source_by_id requirement_ids) entry_list [] in
  let* twice := duplicates covered in
  let* _ := refuse_if (negb (bool_decide (twice = []))) "evidence matrix duplicates requirement coverage" [Ok (VList twice)] in
  let* missing := py_sorted (difference requirement_ids covered) in
  refuse_if (negb (bool_decide (missing = []))) "evidence matrix misses requirements" [Ok (VList missing)].

(** ** The architecture *)

Definition expected_engineering_planes : list string := ["agent_application"; "runtime_infra"; "data_eval_training"].
Definition expected_logical_planes : list string :=
  ["experience_plane"; "control_plane"; "data_plane"; "execution_plane"; "evaluation_plane"].
Definition expected_states : list string :=
  ["Incident Lifecycle"; "Runtime Task"; "Agent Graph State"; "ActionTransaction"; "Agent Trace/Eval";
   "Artifact/Dataset"].
Definition required_denials : list string :=
  ["DENY-AGENT-DIRECT-ACTION"; "DENY-AGENT-GROUND-TRUTH"; "DENY-CROSS-TENANT"; "DENY-UNSANDBOXED-CODE"].

Definition check_component (components stores : list (val * val)) (component : val) : CK unit :=
  let* unknown_stores := unknown_of component "authoritative_stores" stores.*1 in
  let* unknown_invocations := unknown_of component "invokes" components.*1 in
  refuse_if (negb (bool_decide (unknown_stores ++ unknown_invocations = []))) "component has unknown references"
    [item component "id"; Ok (VList unknown_stores); Ok (VList unknown_invocations)].

(** [state in components[owner]["writes_states"]] *)
Definition val_in_val (v container : val) : CK bool :=
  match container with
  | VList l => Ok (mem v l)
  | VDict d => ck_in v d.*1
  | VStr s => match v with VStr k => Ok (str_contains k s) | _ => Err (Escapes "TypeError") end
  | _ => Err (Escapes "TypeError")
  end.

(** One turn of the loop over [owner_by_state.items()] *)
Definition check_owner (components stores store_by_state : list (val * val)) (owned : val * val) : CK unit :=
  let '(state, owner) := owned in
  let* unknown := ck_or (ck_not (ck_in owner components.*1))
                    (let* store := entry_at store_by_state state in ck_not (ck_in store stores.*1)) in
  let* _ := refuse_if unknown "state has an unknown owner or store" [Ok state] in
  let* component := entry_at components owner in
  let* writes := item component "writes_states" in
  let* declared := val_in_val state writes in
  refuse_if (negb declared) "state owner does not declare write authority" [Ok owner; Ok state].

(** One component of the loop over [writes_states] *)
Definition check_writes (owner_by_state : list (val * val)) (component : val) : CK unit :=
  let* writes := item component "writes_states" in
  let* states := elements writes in
  ck_for (λ state,
    let* owner := entry_get owner_by_state state in
    let* id := item component "id" in
    refuse_if (negb (py_eq owner id)) "component declares cross-owner state write" [item component "id"; Ok state]) states.

Definition check_ownership (architecture : val) (components stores : list (val * val)) : CK unit :=
  let* ownership := item architecture "state_ownership" in
  let* state_names := list_by "state" ownership in
  let* twice := duplicates state_names in
  let* _ := refuse_if (negb (bool_decide (twice = []))) "architecture has duplicate state owners" [Ok (VList twice)] in
  let* _ := refuse_if (negb (same_set state_names (texts expected_states)))
              "architecture state ownership set is incomplete" [] in
  let* records := elements ownership in
  let* owner_by_state := values_by "state" "owner_component" records in
  let* store_by_state := values_by "state" "authoritative_store" records in
  let* _ := ck_for (check_owner components stores store_by_state) owner_by_state in
  ck_for (check_writes owner_by_state) components.*2.

Definition check_boundary (components : list (val * val)) (boundary : val) : CK unit :=
  let* unknown := ck_or (ck_not (field_in boundary "from_component" components.*1))
                    (ck_not (field_in boundary "to_component" components.*1)) in
  refuse_if unknown "trust boundary has an unknown component" [item boundary "id"].

Definition check_walkthroughs (architecture : val) (components : list (val * val)) : CK unit :=
  let* walkthroughs := item architecture "walkthroughs" in
  let* ids := list_by "id" walkthroughs in
  let* id_set := rmapM hashed ids in
  let* _ := refuse_if (negb (same_set id_set (texts expected_walkthroughs)) || negb (bool_decide (length ids = 10)))
              "architecture walkthrough set must be exactly W-ARCH-001 through 010" [] in
  let* walkthrough_list := elements walkthroughs in
  ck_for (λ walkthrough,
    let* unknown := unknown_of walkthrough "component_path" components.*1 in
    refuse_if (negb (bool_decide (unknown = []))) "walkthrough has unknown components"
      [item walkthrough "id"; Ok (VList unknown)]) walkthrough_list.

Definition check_architecture_invariants (architecture : val) : CK unit :=
  let* engineering_planes := item architecture "engineering_planes" in
  let* planes := set_of engineering_planes in
  let* _ := refuse_if (negb (same_set planes (texts expected_engineering_planes)))
              "architecture must include all three mandatory engineering planes" [] in
  let* logical_planes := item architecture "logical_planes" in
  let* planes := set_of logical_planes in
  let* _ := refuse_if (negb (same_set planes (texts expected_logical_planes)))
              "architecture must include all five logical planes" [] in
  let* component_list := item architecture "components" in
  let* components := records_by "id" component_list in
  let* store_list := item architecture "stores" in
  let* stores := records_by "id" store_list in
  let* n := len_of component_list in
  let* _ := refuse_if (negb (bool_decide (length components = n))) "architecture has duplicate component IDs" [] in
  let* n := len_of store_list in
  let* _ := refuse_if (negb (bool_decide (length stores = n))) "architecture has duplicate store IDs" [] in
  let* _ := ck_for (check_component components stores) components.*2 in
  let* _ := ck_for (λ store,
    let* known := field_in store "owner_component" components.*1 in
    refuse_if (negb known) "store has unknown owner" [item store "id"]) stores.*2 in
  let* _ := check_ownership architecture components stores in
  let* boundaries := item architecture "trust_boundaries" in
  let* boundary_list := elements boundaries in
  let* _ := ck_for (check_boundary components) boundary_list in
  let* prohibited := item architecture "prohibited_paths" in
  let* denial_ids := set_by "id" prohibited in
  let* _ := refuse_if (negb (subset (texts required_denials) denial_ids))
              "architecture is missing a mandatory prohibited path" [] in
  check_walkthroughs architecture components.

(** ** Gate walkthroughs, decisions and documents *)

Definition expected_gate_walkthroughs : list string :=
  ["W-G00-001"; "W-G00-002"; "W-G00-003"; "W-G00-004"; "W-G00-005"; "W-G00-006"; "W-G00-007"; "W-G00-008";
   "W-G00-009"; "W-G00-010"; "W-G00-011"; "W-G00-012"; "W-G00-013"; "W-G00-014"].

(** [_check_gate_walkthroughs], which nothing calls *)
Definition check_gate_walkthroughs (document bindings : val) : CK unit :=
  let* records := item document "walkthroughs" in
  let* ids := list_by "id" records in
  let* id_set := rmapM hashed ids in
  let* _ := refuse_if (negb (bool_decide (length ids = length (distinct id_set)))
                       || negb (same_set id_set (texts expected_gate_walkthroughs)))
              "G00 walkthrough set must be exactly W-G00-001 through 014" [] in
  let* binding_list := item bindings "bindings" in
  let* binding_ids := set_by "id" binding_list in
  let* record_list := elements records in
  let* unknown := ck_filter (λ r, ck_not (field_in r "source_binding" binding_ids)) record_list in
  let* unknown := rmapM (λ r, item r "source_binding") unknown in
  let* unknown := py_sorted unknown in
  let* _ := refuse_if (negb (bool_decide (unknown = [])))
              "G00 walkthroughs reference unknown contract bindings" [Ok (VList unknown)] in
  let* failed := ck_any (λ r, ck_not (field_is r "status" "pass")) record_list in
  refuse_if failed "all fourteen G00 design walkthroughs must pass" [].

Definition required_decisions : list string :=
  ["ADR-0001"; "ADR-0002"; "ADR-0003"; "ADR-0004"; "ADR-0005"; "ADR-0006"].

(** [is_file] answers for a path below the root. *)
Definition check_adr_invariants (is_file : string → bool) (index : val) : CK unit :=
  let* adrs := item index "adrs" in
  let* records := records_by "id" adrs in
  let* missing := py_sorted (difference (texts required_decisions) records.*1) in
  let* _ := refuse_if (negb (bool_decide (missing = []))) "architecture decision baseline is incomplete"
              [Ok (VList missing)] in
  ck_for (λ record,
    let* accepted := field_is record "status" "accepted" in
    if accepted then
      let* path := item record "path" in
      let* path := from_option_or (Escapes "TypeError") (text_of path) in
      refuse_if (negb (is_file path)) "accepted ADR path does not exist" [item record "path"]
    else Ok tt) records.*2.

Definition document_names : list string :=
  ["CONTAINER_ARCHITECTURE.md"; "DATA_AND_CONTROL_FLOW.md"; "DEPLOYMENT_AND_TRUST_BOUNDARIES.md"; "STATE_MACHINES.md";
   "SYSTEM_CONTEXT.md"].

(** [read_file] is the text of a file below the root, when there is one. *)
Definition check_architecture_documents (read_file : string → option string) : CK unit :=
  let* _ := ck_for (λ name,
    match read_file ("docs/architecture/" +:+ name) with
    | None => Err (Governance ("missing architecture document: " +:+ name) [])
    | Some text =>
        let* _ := refuse_if (negb (str_contains "```mermaid" text))
                    ("architecture document has no Mermaid view: " +:+ name) [] in
        let missing := filter (λ other, other ≠ name ∧ str_contains other text = false) document_names in
        refuse_if (negb (bool_decide (missing = [])))
          ("architecture document " +:+ name +:+ " is missing cross-links") [Ok (VList (texts missing))]
    end) document_names in
  refuse_if (negb match read_file "docs/security/THREAT_MODEL.md" with Some _ => true | None => false end)
    "missing initial Threat Model" [].

(** ** The driver *)

Section Repository.
(** [load_data] of a path below the root, the sorted matches of a glob, the validator *)
Context (load_data : string → CK val) (glob : string → list string).
Context (schema_errors : val → val → list string) (read_file : string → option string).

(** [loaded[label] = document] *)
Definition load_asset (schema : val) (loaded : list (val * val)) (label : string) : CK (list (val * val)) :=
  let* document := load_data label in
  let* _ := validate_document schema_errors document schema label in
  let* _ := check_unique_ids document label in
  Ok (put (VStr label) document loaded).
Definition text_item (entry : val) (key : string) : CK string :=
  let* v := item entry key in from_option_or (Escapes "TypeError") (text_of v).
Definition load_entry (loaded : list (val * val)) (entry : val) : CK (list (val * val)) :=
  let* schema_path := text_item entry "schema" in
  let* schema := load_data schema_path in
  let* pattern := text_item entry "path" in
  let matches := glob pattern in
  let* _ := refuse_if (bool_decide (matches = [])) "asset pattern matched no files" [item entry "path"] in
  rfold (load_asset schema) matches loaded.

Definition check_cross_references (loaded : val) : CK unit :=
  let* requirements := item_path loaded ["docs/requirements/REQUIREMENTS.yaml"; "requirements"] in
  let* source_catalog := item loaded "docs/requirements/SOURCE_CATALOG.yaml" in
  let* evidence_matrix := item loaded "docs/requirements/EVIDENCE_MATRIX.yaml" in
  let* _ := check_evidence_invariants requirements source_catalog evidence_matrix in
  let* architecture := item loaded "docs/architecture/ARCHITECTURE.yaml" in
  check_architecture_invariants architecture.

Definition validate_repository_schemas : CK val :=
  let* catalog := load_data "governance/ASSETS.yaml" in
  let* assets := item catalog "assets" in
  let* entries := elements assets in
  let* loaded := rfold load_entry entries [] in
  let loaded := VDict loaded in
  let* _ := check_cross_references loaded in
  let* index := item loaded "docs/adr/INDEX.yaml" in
  let* _ := check_adr_invariants (λ path, match read_file path with Some _ => true | None => false end) index in
  let* _ := check_architecture_documents read_file in
  let* _ := validate_contracts (read_file "docs/contracts/STATE_MACHINE_DIAGRAMS.md") loaded in
  Ok loaded.
End Repository.
