(* ===== verification/DevContractsTheorems.v ===== *)
(** * What the checks of the repository guarantee

    The kernel of a checked contract document, the walk over its transitions, what an
    accepted state machine promises of the decisions of that kernel, and the single writer
    of every state of an accepted architecture. *)
From S2P Require Import Prelude Json Kernel KernelSpec PyDyn ContractData PySet DevContracts PyFloat DevSchemas.

(** ** What the checks of the contract documents guarantee

    The kernel of a checked document, the walk over its transitions, and what an accepted
    state machine promises of the decisions of that kernel. *)

(** *** Where the machines of a kernel come from

    The constructor of [state/kernel.py] keeps each machine as its document states it: the
    states, and for each transition one record with the document's fields, none added and
    none dropped. *)

Record from_document (d : mapping) (t : transition) : Prop := {
  doc_id : dget "id" d = VStr (tr_id t);
  doc_from : dget "from" d = VStr (tr_from t);
  doc_to : dget "to" d = VStr (tr_to t);
  doc_command : dget "command" d = VStr (tr_command t);
  doc_automatic : dget "automatic" d = VBool (tr_automatic t);
  doc_preconditions : dget "preconditions" d = VList (VStr <$> tr_preconditions t);
}.

(** [transitions] are the records of the documents [raws]. *)
Definition records_of (raws : list val) (transitions : gmap string transition) : Prop :=
  (∀ tid t, transitions !! tid = Some t → tid = tr_id t ∧ ∃ d, VDict d ∈ raws ∧ from_document d t) ∧
  (∀ raw, raw ∈ raws → ∃ d t, raw = VDict d ∧ from_document d t ∧ transitions !! tr_id t = Some t).

Record machine_source (d : mapping) (m : machine) : Prop := {
  src_id : dget "id" d = VStr (m_machine_id m);
  src_states : ∃ xs, dget "states" d = VList (VStr <$> xs) ∧ m_states m = list_to_set xs;
  src_terminals : ∃ xs, dget "terminal_states" d = VList (VStr <$> xs) ∧ m_terminal_states m = list_to_set xs;
  src_transitions : ∃ raws, dget "transitions" d = VList raws ∧ records_of raws (m_transitions m);
}.

Lemma nonempty_all vs ss : rmapM nonempty_string vs = Ok ss → vs = VStr <$> ss.
Proof.
  intros H%rmapM_ok. induction H as [|v s vs ss [-> _]%nonempty_string_ok _ IH]; [done|]. by rewrite IH.
Qed.

Lemma load_transition_record cmds evts known states ts u raw ts' u' raws :
  records_of raws ts → load_transition cmds evts known states (ts, u) raw = Ok (ts', u') →
  records_of (raws ++ [raw]) ts'.
Proof.
  intros [Hback Hforth] H. unfold load_transition in H. res_inv. bool_prop.
  apply as_mapping_ok in E as [-> _]. apply as_list_ok in E13. apply as_bool_ok in E5.
  repeat match goal with H : nonempty_string _ = Ok _ |- _ => apply nonempty_string_ok in H as [? _] end.
  apply nonempty_all in E15. subst.
  match goal with |- records_of _ (<[_ := ?t]> _) => assert (from_document a t) as Hdoc by by constructor end.
  match goal with Hn : ¬ is_Some (ts !! ?i) |- _ => assert (ts !! i = None) as Hnew by by apply eq_None_not_Some end.
  split.
  - intros tid t [[<- <-]|[_ Ht]]%lookup_insert_Some.
    + split; [done|]. exists a. split; [|done]. apply elem_of_app. right. by left.
    + destruct (Hback _ _ Ht) as (-> & d & Hin & Hd). split; [done|]. exists d. split; [apply elem_of_app; by left|done].
  - intros raw [Hin|Hin]%elem_of_app.
    + destruct (Hforth _ Hin) as (d & t & -> & Hd & Ht). exists d, t. split_and!; [done..|].
      rewrite lookup_insert_ne; [done|]. intros Heq. rewrite Heq in Hnew. congruence.
    + apply list_elem_of_singleton in Hin as ->. eexists a, _. split_and!; [done|exact Hdoc|]. by rewrite lookup_insert_eq.
Qed.

Lemma load_transitions_records cmds evts known states raws ts u ts' u' done_ :
  records_of done_ ts → rfold (load_transition cmds evts known states) raws (ts, u) = Ok (ts', u') →
  records_of (done_ ++ raws) ts'.
Proof.
  revert ts u done_. induction raws as [|raw raws IH]; cbn; intros ts u done_ Hr H.
  - injection H as <- <-. by rewrite app_nil_r.
  - apply rbind_ok in H as ([ts1 u1] & H1 & H). eapply load_transition_record in H1; [|done].
    rewrite (cons_middle raw). rewrite app_assoc. by eapply IH.
Qed.

Definition sourced (documents : mapping) (machines : gmap string machine) : Prop :=
  ∀ mid m, machines !! mid = Some m →
    ∃ d, dget ("state_machine." +:+ mid) documents = VDict d ∧ m_machine_id m = mid ∧ machine_source d m.

Lemma load_machine_source cmds evts known documents ms u spec ms' u' :
  sourced documents ms → load_machine cmds evts known documents (ms, u) spec = Ok (ms', u') →
  sourced documents ms'.
Proof.
  intros Hs H. unfold load_machine in H. destruct spec as [mid owner]. res_inv. bool_prop.
  apply as_mapping_ok in E as [Hraw _]. apply string_set_ok in E2 as (xs & Hxs & _ & _ & _ & ->).
  apply string_set_ok in E3 as (ys & Hys & _ & _ & _ & ->). apply as_list_ok in E5.
  destruct a3 as [ts u3]. injection H as <- <-. intros mid' m [[<- <-]|[_ Hm]]%lookup_insert_Some; [|by apply Hs].
  eexists. split; [exact Hraw|]. split; [done|]. constructor; cbn; eauto.
  - by apply val_is_true.
  - eexists. split; [exact E5|]. apply (load_transitions_records _ _ _ _ _ _ _ _ _ []) in E6; [done|].
    split; [intros ??; by rewrite lookup_empty|by intros ? ?%elem_of_nil].
Qed.

(** Every machine of a kernel has the document it was made from. *)
Lemma kernel_source resource reg k mid m :
  new_kernel resource reg = Ok k → k_machines k !! mid = Some m →
  ∃ documents d, dget "documents" resource = VDict documents ∧
    dget ("state_machine." +:+ mid) documents = VDict d ∧ m_machine_id m = mid ∧ machine_source d m.
Proof.
  intros H Hm. unfold new_kernel in H. res_inv. destruct a6 as [machines u]. res_inv. cbn [k_machines] in Hm.
  match goal with Hd : as_mapping (dget "documents" resource) = Ok ?docs, Hf : rfold (load_machine _ _ _ _) _ _ = Ok _ |- _ =>
    apply as_mapping_ok in Hd as [Hdocs _];
    assert (sourced docs (∅, no_use).1 → sourced docs (machines, u).1) as Hs;
    [intros H0; eapply (rfold_invariant (λ acc, sourced docs acc.1)); [|exact H0|exact Hf];
     intros [ms1 u1] spec [ms2 u2] _; apply load_machine_source|] end.
  destruct Hs with mid m as (d & Hd & Hid & Hsrc); [intros ??; cbn; by rewrite lookup_empty|done|].
  exists a0, d. by split_and!.
Qed.

(** *** What the checks of the contract documents guarantee

    The walk of [faultwitness_dev/contracts.py] computes reachability; a state machine it
    accepts is live in the kernel that loads it; the safety paths it accepts bind the
    decisions of that kernel. *)

(** *** The walk *)

Section Walk.
Context (g : digraph).
Hypothesis vertices : Forall (λ e : val * val, is_Some (text_of e.1) ∧ is_Some (text_of e.2)) g.

Definition edge (v w : val) : Prop := (v, w) ∈ g.

Lemma text_of_some v : is_Some (text_of v) → ∃ s, v = VStr s.
Proof. destruct v; intros [? [=]]. by eexists. Qed.
Lemma text_dec v w : is_Some (text_of v) → is_Some (text_of w) → v = w ∨ v ≠ w.
Proof. intros [s ->]%text_of_some [t ->]%text_of_some. destruct (decide (s = t)); [left|right]; congruence. Qed.
Lemma mem_text v vs : is_Some (text_of v) → mem v vs = true ↔ v ∈ vs.
Proof. intros [s ->]%text_of_some. apply mem_str. Qed.

Lemma edge_texts v w : edge v w → is_Some (text_of v) ∧ is_Some (text_of w).
Proof using vertices. intros He. rewrite Forall_forall in vertices. exact (vertices _ He). Qed.
Lemma successors_edge v w : is_Some (text_of v) → w ∈ successors g v ↔ edge v w.
Proof using vertices.
  intros [s ->]%text_of_some. unfold successors, edge. split.
  - intros ([a b] & -> & [Ha Hin]%list_elem_of_filter)%distinct_incl%list_elem_of_fmap.
    apply py_eq_str in Ha. cbn in *. by subst.
  - intros He. destruct (edge_texts _ _ He) as [_ [t ->]%text_of_some]. apply distinct_str, list_elem_of_fmap.
    exists (VStr s, VStr t). split; [done|]. apply list_elem_of_filter. split; [by apply py_eq_str|done].
Qed.

(** Vertices of the queue, and edges into vertices not yet visited *)
Definition left_to_do (s : list val * list val) : nat :=
  length s.2 + length (filter (λ e : val * val, mem e.2 s.1 = false) g).

Lemma mem_app v xs ys : mem v (xs ++ ys) = mem v xs || mem v ys.
Proof. unfold mem. apply existsb_app. Qed.

Lemma discover_spec s w : (∃ v, edge v w) →
  (∀ v, v ∈ (discover s w).1 ↔ v ∈ s.1 ∨ v = w) ∧
  (∀ v, v ∈ (discover s w).2 → v ∈ s.2 ∨ v = w) ∧ (∀ v, v ∈ s.2 → v ∈ (discover s w).2) ∧
  (w ∈ s.1 ∨ w ∈ (discover s w).2) ∧ left_to_do (discover s w) ≤ left_to_do s.
Proof using vertices.
  intros [v0 He]. destruct s as [visited queue]. destruct (edge_texts _ _ He) as [_ Hw]. unfold discover. cbn [fst snd].
  destruct (mem w visited) eqn:E.
  - apply mem_text in E; [|done]. cbn. split_and!; [|auto..|lia]. intros v. split; [auto|by intros [?| ->]].
  - cbn. setoid_rewrite elem_of_app. setoid_rewrite list_elem_of_singleton. split_and!; [done|auto..|].
    unfold left_to_do. cbn [fst snd]. rewrite length_app. cbn [length].
    enough (length (filter (λ e : val * val, mem e.2 (visited ++ [w]) = false) g) <
      length (filter (λ e : val * val, mem e.2 visited = false) g)) by lia.
    clear -He E Hw. unfold edge in He. induction g as [|e es IH]; [by apply elem_of_nil in He|].
    assert (∀ es' : list (val * val), length (filter (λ e, mem e.2 (visited ++ [w]) = false) es') ≤
      length (filter (λ e, mem e.2 visited = false) es')) as Hle.
    { clear. induction es' as [|e es IH]; [done|]. rewrite !filter_cons, mem_app.
      destruct (mem e.2 visited); cbn [orb]; repeat case_decide; try done; cbn [length]; lia. }
    rewrite !filter_cons, mem_app. apply elem_of_cons in He as [<-|He].
    + cbn [snd]. rewrite E. assert (mem w [w] = true) as -> by (apply mem_text; [done|by left]). cbn [orb].
      repeat case_decide; try done. cbn [length]. specialize (Hle es). lia.
    + specialize (IH He). destruct (mem e.2 visited); cbn [orb]; repeat case_decide; try done; cbn [length]; lia.
Qed.

Lemma discover_all ws s : (∀ w, w ∈ ws → ∃ v, edge v w) →
  let s' := fold_left discover ws s in
  (∀ v, v ∈ s'.1 ↔ v ∈ s.1 ∨ v ∈ ws) ∧ (∀ v, v ∈ s'.2 → v ∈ s.2 ∨ v ∈ ws) ∧ (∀ v, v ∈ s.2 → v ∈ s'.2) ∧
  (∀ w, w ∈ ws → w ∈ s.1 ∨ w ∈ s'.2) ∧ left_to_do s' ≤ left_to_do s.
Proof using vertices.
  revert s. induction ws as [|w ws IH]; intros s Hws; cbn [fold_left].
  { cbn. split_and!; [|auto|done| |done]; [|by intros w ?%elem_of_nil]. intros v. split; [auto|]. by intros [?|?%elem_of_nil]. }
  destruct (discover_spec s w) as (Hv & Hq & Hq' & Hw & Hle); [apply Hws; left|].
  destruct (IH (discover s w)) as (Hv1 & Hq1 & Hq1' & Hw1 & Hle1); [intros w' ?; apply Hws; by right|].
  cbv zeta in *. setoid_rewrite elem_of_cons. split_and!; [| |auto| |lia].
  - intros v. rewrite Hv1, Hv. tauto.
  - intros v [H|?]%Hq1; [apply Hq in H|]; tauto.
  - intros w' [->|Hw']; [destruct Hw as [?|?]; [by left|right; auto]|].
    destruct (Hw1 _ Hw') as [H|H]; [|auto]. apply Hv in H as [?| ->]; [auto|]. destruct Hw; [auto|right; auto].
Qed.

Section From.
Context (starts : list val).
Hypothesis starts_texts : Forall (λ v, is_Some (text_of v)) starts.

Definition reached (v : val) : Prop := ∃ a, a ∈ starts ∧ rtc edge a v.

Lemma reached_text v : reached v → is_Some (text_of v).
Proof using vertices starts_texts.
  intros (a & Ha & Hr). rewrite Forall_forall in starts_texts. apply starts_texts in Ha.
  induction Hr as [|x y z Hxy _ IH]; [done|]. apply IH, (edge_texts _ _ Hxy).
Qed.

(** Everything seen is reached, and what is not in the queue has its successors seen. *)
Definition walk_invariant (s : list val * list val) : Prop :=
  (∀ v, v ∈ s.1 → reached v) ∧ (∀ v, v ∈ s.2 → v ∈ s.1) ∧ (∀ v, v ∈ starts → v ∈ s.1) ∧
  (∀ v w, v ∈ s.1 → v ∉ s.2 → edge v w → w ∈ s.1).

Lemma walk_turn visited current queue :
  walk_invariant (visited, current :: queue) →
  let s := fold_left discover (successors g current) (visited, queue) in
  walk_invariant s ∧ left_to_do s < left_to_do (visited, current :: queue).
Proof using vertices starts_texts.
  intros (Hr & Hq & Hs & Hc). cbn [fst snd] in *.
  assert (current ∈ visited) as Hcur by (apply Hq; left).
  pose proof (reached_text _ (Hr _ Hcur)) as Htext.
  destruct (discover_all (successors g current) (visited, queue)) as (Hv' & Hq' & Hq1 & Hw & Hle).
  { intros w Hw%successors_edge; [|done]. by exists current. }
  cbn [fst snd] in *. cbv zeta in *. split; [|unfold left_to_do in *; cbn [fst snd length] in *; lia].
  set (s' := fold_left discover (successors g current) (visited, queue)) in *. split_and!.
  - intros v [?|Hin%successors_edge]%Hv'; [auto| |done]. destruct (Hr _ Hcur) as (a & Ha & Hp).
    exists a. split; [done|]. by eapply rtc_r.
  - intros v [?|?]%Hq'; apply Hv'; [left; apply Hq; by right|by right].
  - intros v ?. apply Hv'. left. auto.
  - intros v w Hv Hnq He. assert (v ∈ visited) as Hseen.
    { apply Hv' in Hv as [?|Hv]; [done|]. by destruct (Hw _ Hv). }
    apply Hv'. destruct (text_dec v current) as [->|Hne]; [apply (edge_texts _ _ He)|done| |].
    + right. by apply successors_edge.
    + left. apply (Hc v); [done| |done]. rewrite elem_of_cons. intros [?|?]; [done|]. apply Hnq. auto.
Qed.

Lemma walk_loop_spec fuel visited queue :
  walk_invariant (visited, queue) → left_to_do (visited, queue) ≤ fuel →
  ∃ seen, walk_loop fuel g visited queue = Some seen ∧ ∀ v, v ∈ seen ↔ reached v.
Proof using vertices starts_texts.
  revert visited queue. induction fuel as [|fuel IH]; intros visited queue Hinv Hfuel.
  - destruct queue as [|c q]; [|unfold left_to_do in Hfuel; cbn in Hfuel; lia].
    exists visited. split; [done|]. destruct Hinv as (Hr & _ & Hs & Hc). intros v. split; [apply Hr|].
    intros (a & Ha & Hp). apply Hs in Ha. induction Hp as [|x y z Hxy _ IH]; [done|].
    apply IH. apply (Hc x); [done|by intros ?%elem_of_nil|done].
  - destruct queue as [|c q].
    + exists visited. split; [done|]. destruct Hinv as (Hr & _ & Hs & Hc). intros v. split; [apply Hr|].
      intros (a & Ha & Hp). apply Hs in Ha. induction Hp as [|x y z Hxy _ IH']; [done|].
      apply IH'. apply (Hc x); [done|by intros ?%elem_of_nil|done].
    + destruct (walk_turn visited c q Hinv) as [Hinv' Hlt]. cbn [walk_loop].
      destruct (fold_left discover (successors g c) (visited, q)) as [visited' queue']. apply IH; [done|lia].
Qed.

(** The walk always finishes, with exactly what is reachable from its starts. *)
Lemma walk_reaches : ∃ seen, walk starts g = Ok seen ∧ ∀ v, v ∈ seen ↔ reached v.
Proof using vertices starts_texts.
  unfold walk. destruct (walk_loop_spec (length starts + length g) starts starts) as (seen & -> & Hseen).
  - split_and!; cbn; [|done..]. intros v Hv. exists v. split; [done|constructor].
  - unfold left_to_do. cbn. pose proof (length_filter (λ e : val * val, mem e.2 starts = false) g). lia.
  - by exists seen.
Qed.
End From.
End Walk.

(** *** An accepted machine *)

Ltac binds H :=
  repeat lazymatch type of H with
  | rbind _ _ = Ok _ => let x := fresh "x" in let E := fresh "E" in apply rbind_ok in H as (x & E & H)
  end.

Lemma refused b message shown u : refuse_if b message shown = Ok u → b = false.
Proof. unfold refuse_if. destruct b; [|done]. by destruct (rmapM id shown). Qed.
Lemma ck_in_ok v s b : ck_in v s = Ok b → mem v s = b.
Proof. unfold ck_in. intros H. apply rbind_ok in H as (w & ->%hashed_ok & H). by injection H. Qed.
Lemma ck_or_false a b : ck_or a b = Ok false → a = Ok false ∧ b = Ok false.
Proof. unfold ck_or. intros H. apply rbind_ok in H as ([] & -> & H); done. Qed.
Lemma ck_not_false a : ck_not a = Ok false → a = Ok true.
Proof. unfold ck_not. intros H. by apply rbind_ok in H as ([] & -> & H). Qed.
Lemma item_dget d key v : dget key d = v → v ≠ VNone → item (VDict d) key = Ok v.
Proof. unfold item, dget. cbn. destruct (dfind key d); cbn; intros <-; done. Qed.
Lemma dget_item d key v : item (VDict d) key = Ok v → dget key d = v.
Proof. intros (d' & [= <-] & H)%item_ok. unfold dget. by rewrite H. Qed.
Lemma mem_texts v (ss : list string) : mem v (VStr <$> ss) = true → ∃ s, v = VStr s ∧ s ∈ ss.
Proof.
  unfold mem. rewrite existsb_exists. intros (w & Hin & Heq).
  apply list_elem_of_In, list_elem_of_fmap in Hin as (s & -> & Hs). apply py_eq_str_r in Heq. eauto.
Qed.
Lemma texts_only vs : (∀ v, v ∈ vs → ∃ s, v = VStr s) → Forall (λ v, is_Some (text_of v)) vs.
Proof. intros H. apply Forall_forall. intros v [s ->]%H. by eexists. Qed.
Lemma set_of_texts ss xs : set_of (VList (VStr <$> ss)) = Ok xs → ∀ v, v ∈ xs ↔ ∃ s, v = VStr s ∧ s ∈ ss.
Proof.
  unfold set_of. cbn. intros H. apply rbind_ok in H as (ys & ->%hashed_all & H). injection H as <-. intros v. split.
  - intros (s & -> & Hs)%distinct_incl%list_elem_of_fmap. eauto.
  - intros (s & -> & Hs). apply distinct_str, list_elem_of_fmap. eauto.
Qed.

Definition step (m : machine) (x y : string) : Prop :=
  ∃ tid t, m_transitions m !! tid = Some t ∧ tr_from t = x ∧ tr_to t = y.

Lemma transitions_graph names machine states terminals raws g0 g :
  rfold (validate_transition names machine states terminals) raws g0 = Ok g →
  (∀ e, e ∈ g ↔ e ∈ g0 ∨ ∃ raw, raw ∈ raws ∧ item raw "from" = Ok e.1 ∧ item raw "to" = Ok e.2) ∧
  (∀ raw v, raw ∈ raws → item raw "from" = Ok v → mem v terminals = false).
Proof.
  revert g0. induction raws as [|raw raws IH]; intros g0 H; cbn in H.
  { injection H as <-. split; [|by intros ?? ?%elem_of_nil]. intros e. split; [auto|]. by intros [?|(?&?%elem_of_nil&_)]. }
  apply rbind_ok in H as (g1 & H1 & H). apply IH in H as [Hg Ht]. unfold validate_transition in H1.
  binds H1.
  injection H1 as <-. setoid_rewrite elem_of_cons. split.
  - intros e. rewrite Hg, elem_of_app, list_elem_of_singleton. split.
    + intros [[?| ->]|(r & ? & ?)]; [by left|right; exists raw; split_and!; [by left|done..]|right; exists r; tauto].
    + intros [?|(r & [->|?] & Hf & Hto)]; [tauto| |right; eauto]. left. right. destruct e; cbn in *. congruence.
  - intros r v [->|Hin] Hv; [|exact (Ht r v Hin Hv)]. rewrite E in Hv. injection Hv as <-.
    apply ck_in_ok in E3. apply refused in E4. congruence.
Qed.

Lemma rtc_texts (E : val → val → Prop) (P : string → string → Prop) x v :
  (∀ x w, E (VStr x) w → ∃ y, w = VStr y ∧ P x y) → rtc E (VStr x) v → ∃ y, v = VStr y ∧ rtc P x y.
Proof.
  intros Hstep Hp. remember (VStr x) as a eqn:Ha. revert x Ha. induction Hp as [v|u w v Hw _ IH]; intros x ->.
  - exists x. split; [done|constructor].
  - apply Hstep in Hw as (y & -> & Hxy). destruct (IH y eq_refl) as (z & -> & Hz). exists z. split; [done|by eapply rtc_l].
Qed.
Lemma rtc_flip_of {A} (P : A → A → Prop) x y : rtc (flip P) x y → rtc P y x.
Proof. induction 1 as [|x y z Hxy _ IH]; [constructor|]. eapply rtc_r; [exact IH|exact Hxy]. Qed.

(** What the check says of the machine the kernel makes of the document *)
Record live_machine (m : machine) (initial : string) : Prop := {
  live_initial : initial ∈ m_states m;
  live_open : ∀ tid t, m_transitions m !! tid = Some t → tr_from t ∉ m_terminal_states m;
  live_reachable : ∀ s, s ∈ m_states m → rtc (step m) initial s;
  live_terminates : ∀ s, s ∈ m_states m → ∃ s', s' ∈ m_terminal_states m ∧ rtc (step m) s s';
}.

Lemma graph_texts names machine states terminals raws transitions g :
  records_of raws transitions → rfold (validate_transition names machine states terminals) raws [] = Ok g →
  ∀ e, e ∈ g ↔ ∃ tid t, transitions !! tid = Some t ∧ e = (VStr (tr_from t), VStr (tr_to t)).
Proof.
  intros [Hback Hforth] Hg e. apply transitions_graph in Hg as [Hg _]. rewrite Hg. split.
  - intros [?%elem_of_nil|(raw & Hraw & Hf & Ht)]; [done|]. apply Hforth in Hraw as (d & t & -> & Hd & Hin).
    exists (tr_id t), t. split; [done|]. destruct e as [v w]. cbn in *.
    rewrite (item_dget _ _ _ (doc_from _ _ Hd)) in Hf by done. rewrite (item_dget _ _ _ (doc_to _ _ Hd)) in Ht by done.
    congruence.
  - intros (tid & t & Hin & ->). right. apply Hback in Hin as (_ & d & Hraw & Hd). exists (VDict d).
    split_and!; [done| |]; apply item_dget; try done; apply Hd.
Qed.

(** A list found empty by [if sorted(...)] *)
Lemma sorted_empty vs sorted message shown u :
  py_sorted vs = Ok sorted → refuse_if (negb (bool_decide (sorted = []))) message shown = Ok u → vs = [].
Proof. intros Hs Hr%refused. bool_prop. subst. by apply py_sorted_nil. Qed.
Lemma difference_empty a b v : is_Some (text_of v) → difference a b = [] → v ∈ a → v ∈ b.
Proof.
  intros Htext Hd Hin. apply mem_text; [done|]. apply not_false_iff_true. intros Hm.
  assert (v ∈ difference a b) as Hv by (apply list_elem_of_filter; done). rewrite Hd in Hv. by apply elem_of_nil in Hv.
Qed.

Lemma machine_checked d ss ts raws architecture catalog :
  dget "states" d = VList (VStr <$> ss) → dget "terminal_states" d = VList (VStr <$> ts) →
  dget "transitions" d = VList raws → validate_state_machine (VDict d) architecture catalog = Ok tt →
  ∃ states terminals initial names g seen back,
    set_of (VList (VStr <$> ss)) = Ok states ∧ set_of (VList (VStr <$> ts)) = Ok terminals ∧
    dget "initial_state" d = initial ∧ mem initial states = true ∧ subset terminals states = true ∧
    rfold (validate_transition names (VDict d) states terminals) raws [] = Ok g ∧
    walk [initial] g = Ok seen ∧ difference states seen = [] ∧
    walk terminals (converse g) = Ok back ∧ difference (difference states terminals) back = [].
Proof.
  intros Hss Hts Hraws H. unfold validate_state_machine in H.
  rewrite (item_dget _ _ _ Hss), (item_dget _ _ _ Hts), (item_dget _ _ _ Hraws) in H by done. binds H.
  injection E7 as <-. injection E9 as <-. injection E23 as <-. injection E27 as <-.
  apply refused in E15, E18. bool_prop. unfold field_in in E14. rewrite E29 in E14. apply ck_in_ok in E14.
  pose proof (sorted_empty _ _ _ _ _ E31 E32). pose proof (sorted_empty _ _ _ _ _ E34 H).
  apply dget_item in E29. exists x8, x10, x29. do 4 eexists. split_and!; try done. by rewrite E14.
Qed.

Lemma accepted_is_live d m architecture catalog :
  machine_source d m → validate_state_machine (VDict d) architecture catalog = Ok tt →
  ∃ initial, dget "initial_state" d = VStr initial ∧ live_machine m initial.
Proof.
  intros [_ (ss & Hss & Hstates) (ts & Hts & Hterms) (raws & Hraws & Hrec)] H.
  destruct (machine_checked _ _ _ _ _ _ Hss Hts Hraws H)
    as (states & terminals & init & names & g & seen & back & Hs & Ht & Hinit & Hmem & Hsub & Hg & Hw & Hun & Hb & Htrap).
  pose proof (set_of_texts _ _ Hs) as Hins. pose proof (set_of_texts _ _ Ht) as Hint.
  pose proof (graph_texts _ _ _ _ _ _ _ Hrec Hg) as Hedges.
  assert (∃ initial, init = VStr initial ∧ initial ∈ ss) as (initial & -> & Hiss).
  { unfold mem in Hmem. apply existsb_exists in Hmem as (w & Hwin & Heq). apply list_elem_of_In, Hins in Hwin as (s & -> & ?).
    apply py_eq_str_r in Heq. eauto. }
  assert (Forall (λ e : val * val, is_Some (text_of e.1) ∧ is_Some (text_of e.2)) g) as Htexts.
  { apply Forall_forall. intros e (tid & t & _ & ->)%Hedges. by split; eexists. }
  exists initial. split; [done|]. constructor.
  - rewrite Hstates. by apply elem_of_list_to_set.
  - intros tid t Htid. destruct Hrec as [Hback _]. destruct (Hback _ _ Htid) as (-> & td & Hraw & Hd).
    apply transitions_graph in Hg as [_ Hopen]. specialize (Hopen _ _ Hraw (item_dget _ _ _ (doc_from _ _ Hd) ltac:(done))).
    apply mem_str_false in Hopen. rewrite Hterms, elem_of_list_to_set. intros Hin. apply Hopen, Hint. eauto.
  - intros s Hss'. rewrite Hstates, elem_of_list_to_set in Hss'.
    destruct (walk_reaches g Htexts [VStr initial]) as (seen' & Hw' & Hseen); [by apply Forall_singleton; eexists|].
    rewrite Hw in Hw'. injection Hw' as <-.
    assert (VStr s ∈ seen) as (a & ->%list_elem_of_singleton & Hp)%Hseen
      by (eapply difference_empty; [by eexists|exact Hun|apply Hins; eauto]).
    eapply (rtc_texts _ (step m)) in Hp as (y & [= <-] & Hp); [done|].
    intros x w (tid & t & Hin & [= -> ->])%Hedges. eexists. split; [done|]. by exists tid, t.
  - intros s Hss'. rewrite Hstates, elem_of_list_to_set in Hss'.
    destruct (decide (s ∈ m_terminal_states m)) as [?|Hnt]; [exists s; split; [done|constructor]|].
    assert (Forall (λ e : val * val, is_Some (text_of e.1) ∧ is_Some (text_of e.2)) (converse g)) as Hconv.
    { unfold converse. apply Forall_fmap. eapply Forall_impl; [exact Htexts|]. cbn. tauto. }
    destruct (walk_reaches (converse g) Hconv terminals) as (back' & Hw' & Hback).
    { apply texts_only. intros v (x & -> & _)%Hint. eauto. }
    rewrite Hb in Hw'. injection Hw' as <-.
    assert (VStr s ∈ back) as (a & (x & -> & Hx)%Hint & Hp)%Hback.
    { eapply difference_empty; [by eexists|exact Htrap|]. apply list_elem_of_filter. split; [|apply Hins; eauto].
      apply mem_str_false. intros (z & [= <-] & Hz)%Hint. apply Hnt. rewrite Hterms. by apply elem_of_list_to_set. }
    exists x. split; [rewrite Hterms; by apply elem_of_list_to_set|]. apply rtc_flip_of.
    eapply (rtc_texts _ (flip (step m))) in Hp as (y & [= <-] & Hp); [done|].
    intros z w ([v' w'] & [= Hz Hv] & (tid & t & Hin & [= -> ->])%Hedges)%list_elem_of_fmap. cbn in Hz, Hv. injection Hz as ->.
    subst w.
    eexists. split; [done|]. by exists tid, t.
Qed.

Lemma path_history k mid m agg x y v :
  wf_kernel k → fact_backed (k_predicates k) → k_machines k !! mid = Some m → agg ≠ "" → (0 ≤ v)%Z →
  (∀ tid t, m_transitions m !! tid = Some t → tr_from t ∉ m_terminal_states m) →
  rtc (step m) x y → ∃ rs v', history k mid (x, v) rs (y, v') ∧ Forall (fired_for agg) rs.
Proof.
  intros Hwf Hfb Hm Hagg Hv Hopen Hp. revert v Hv. induction Hp as [x|x y z (tid & t & Ht & <- & <-) _ IH]; intros v Hv.
  - exists [], v. split; [constructor|done].
  - destruct (fires_lemma k mid m tid t agg v) as (Hpost & Hmid & d & Hd & Hns & Hnv); try done; [by eapply Hopen|].
    destruct (IH (v + 1)%Z) as (rs & v' & Hh & Hall); [lia|].
    exists (enabling_request k m t agg v :: rs), v'. split; [|by constructor].
    econstructor; try done. by rewrite Hns, Hnv.
Qed.

(** C7: A state machine that passes the repository's check is live in the kernel that
    loads it: accepted, well-formed requests lead from its initial state to every state,
    and from every state to a terminal one. *)
Theorem checked_machines_are_live resource reg k documents architecture catalog mid m s agg v :
  new_kernel resource reg = Ok k → fact_backed reg → k_machines k !! mid = Some m →
  dget "documents" resource = VDict documents →
  validate_state_machine (dget ("state_machine." +:+ mid) documents) architecture catalog = Ok tt →
  s ∈ m_states m → agg ≠ "" → (0 ≤ v)%Z →
  (∃ initial rs v', item (dget ("state_machine." +:+ mid) documents) "initial_state" = Ok (VStr initial) ∧
     history k mid (initial, v) rs (s, v') ∧ Forall (fired_for agg) rs) ∧
  (∃ s' rs v', s' ∈ m_terminal_states m ∧ history k mid (s, v) rs (s', v') ∧ Forall (fired_for agg) rs).
Proof.
  intros Hk Hfb Hm Hdocs Hcheck Hs Hagg Hv. destruct (kernel_source _ _ _ _ _ Hk Hm) as (docs & d & Hdocs' & Hd & _ & Hsrc).
  rewrite Hdocs in Hdocs'. injection Hdocs' as <-. rewrite Hd in *.
  destruct (accepted_is_live _ _ _ _ Hsrc Hcheck) as (initial & Hinit & [_ Hopen Hreach Hterm]).
  apply new_kernel_wf_lemma in Hk as [Hwf Hreg]. rewrite <-Hreg in Hfb. split.
  - destruct (path_history k mid m agg initial s v) as (rs & v' & Hh & Hall); try done; [by apply Hreach|].
    exists initial, rs, v'. split_and!; [by apply item_dget|done|done].
  - destruct (Hterm s Hs) as (s' & Hs' & Hp). destruct (path_history k mid m agg s s' v) as (rs & v' & Hh & Hall); try done.
    by exists s', rs, v'.
Qed.

(** *** Safety paths *)

Lemma ck_filter_in {A} (p : A → CK bool) xs ys x :
  ck_filter p xs = Ok ys → x ∈ xs → p x = Ok true → x ∈ ys.
Proof.
  revert ys. induction xs as [|x' xs IH]; intros ys H; [by intros ?%elem_of_nil|]. cbn in H.
  apply rbind_ok in H as (keep & Hk & H). apply rbind_ok in H as (zs & Hz & H). injection H as <-.
  intros [->|Hin]%elem_of_cons Hp.
  - rewrite Hp in Hk. injection Hk as <-. by left.
  - specialize (IH _ Hz Hin Hp). destruct keep; [by right|done].
Qed.
Lemma ck_any_false {A} (p : A → CK bool) xs x : ck_any p xs = Ok false → x ∈ xs → p x = Ok false.
Proof.
  induction xs as [|x' xs IH]; [by intros _ ?%elem_of_nil|]. cbn. intros [Hp Hrest]%ck_or_false.
  intros [->|Hin]%elem_of_cons; auto.
Qed.
Lemma field_is_doc d key text text' : dget key d = VStr text → field_is (VDict d) key text' = Ok (bool_decide (text = text')).
Proof. intros H. unfold field_is. by rewrite (item_dget _ _ _ H). Qed.
Lemma required_given d t expected label u :
  from_document d t → require_preconditions (VDict d) expected label = Ok u → ∀ p, p ∈ expected → p ∈ tr_preconditions t.
Proof.
  intros Hd H p Hp. unfold require_preconditions in H. rewrite (item_dget _ _ _ (doc_preconditions _ _ Hd)) in H by done.
  binds H. injection E as <-. pose proof (sorted_empty _ _ _ _ _ E1 H) as Hmissing.
  assert (VStr p ∈ x0) as Hin
    by (eapply difference_empty; [by eexists|exact Hmissing|apply list_elem_of_fmap; eauto]).
  apply (set_of_texts _ _ E0) in Hin as (q & [= <-] & Hq). done.
Qed.

Definition asserted (r : TransitionRequest) (fact : string) : Prop := dget fact (default [] (facts r)) = VBool true.

(** A decision follows one document of the machine, whose preconditions are asserted. *)
Lemma decision_document resource reg k documents r d :
  new_kernel resource reg = Ok k → fact_backed reg → dget "documents" resource = VDict documents →
  decide_transition k r = Ok d →
  ∃ md raws td t, dget ("state_machine." +:+ machine_id r) documents = VDict md ∧ dget "transitions" md = VList raws ∧
    VDict td ∈ raws ∧ from_document td t ∧ tr_from t = state r ∧ tr_to t = d_next_state d ∧
    tr_command t = command r ∧ tr_automatic t = d_automatic d ∧ ∀ f, f ∈ tr_preconditions t → asserted r f.
Proof.
  intros Hk Hfb Hdocs (m & t & key & A & ->)%decide_iff. destruct (adm_located _ _ _ _ _ A) as [Hm Ht].
  destruct (kernel_source _ _ _ _ _ Hk Hm) as (docs & md & Hdocs' & Hmd & _ & [_ _ _ (raws & Hraws & [Hback _])]).
  rewrite Hdocs in Hdocs'. injection Hdocs' as <-. destruct (Hback _ _ Ht) as (_ & td & Hin & Htd).
  exists md, raws, td, t. split_and!; try done.
  - by rewrite (adm_source _ _ _ _ _ A).
  - by rewrite (adm_command _ _ _ _ _ A).
  - intros f Hf. pose proof (adm_predicates _ _ _ _ _ A) as Hall. rewrite Forall_forall in Hall.
    destruct (Hall f) as (p & Hp & Hpr); [by right|]. apply new_kernel_wf_lemma in Hk as [_ Hreg].
    rewrite Hreg in Hp. rewrite (Hfb _ _ Hp) in Hpr. unfold fact_predicate in Hpr. unfold asserted. by repeat case_match.
Qed.

(** The single document into EXECUTING *)
Lemma action_dispatch md raws u :
  dget "transitions" md = VList raws → check_action_paths (VDict md) = Ok u →
  ∃ d, (∀ x, x ∈ raws → field_is x "to" "EXECUTING" = Ok true → d = x) ∧ field_is d "from" "APPROVED" = Ok true ∧
    require_preconditions d dispatch_preconditions "Action dispatch" = Ok tt.
Proof.
  intros Hraws H. unfold check_action_paths in H. rewrite (item_dget _ _ _ Hraws) in H by done. binds H.
  injection E as <-. injection E0 as <-. apply refused in E3. subst.
  destruct x1 as [|d [|d' ds]]; [discriminate E2| |discriminate E2]. apply ck_not_false in E2. destruct x4.
  exists d. split_and!; [|done..]. intros x Hin Hx. pose proof (ck_filter_in _ _ _ _ E1 Hin Hx) as Hd.
  by apply list_elem_of_singleton in Hd.
Qed.
Lemma action_uncertain md raws u w :
  dget "transitions" md = VList raws → check_action_paths (VDict md) = Ok u →
  w ∈ raws → field_is w "from" "UNCERTAIN" = Ok true → blind_retry w = Ok false.
Proof.
  intros Hraws H Hin Hx. unfold check_action_paths in H. rewrite (item_dget _ _ _ Hraws) in H by done. binds H.
  injection E5 as <-. injection E6 as <-. pose proof (ck_filter_in _ _ _ _ E7 Hin Hx) as Hd. apply refused in H. subst.
  destruct x7 as [|y ys]; [by apply elem_of_nil in Hd|]. by eapply ck_any_false.
Qed.
Lemma runtime_commit md raws u :
  dget "transitions" md = VList raws → check_runtime_commit (VDict md) = Ok u →
  ∃ t u', (∀ x, x ∈ raws → field_is x "to" "SUCCEEDED" = Ok true → t = x) ∧
    require_preconditions t ["valid_fencing_token"; "matching_attempt_id"; "checkpoint_committed"]
      "Runtime success commit" = Ok u' ∧
    ∀ x, x ∈ raws → ck_and (field_is x "to" "SUCCEEDED") (ck_not (field_is x "from" "RUNNING")) = Ok false.
Proof.
  intros Hraws H. unfold check_runtime_commit in H. rewrite (item_dget _ _ _ Hraws) in H by done. binds H.
  injection E as <-. injection E0 as <-. apply refused in H. subst.
  destruct x1 as [|t [|t' ts]]; [discriminate E2| |discriminate E2].
  exists t, x2. split_and!; [|done|].
  - intros x Hin Hx. pose proof (ck_filter_in _ _ _ _ E1 Hin Hx) as Hd. by apply list_elem_of_singleton in Hd.
  - intros x Hin. by eapply (ck_any_false _ _ _ E3).
Qed.

Definition machines_of (documents : mapping) : machine_documents :=
  let machine id := dget ("state_machine." +:+ id) documents in
  {| incident := machine "incident"; runtime_task := machine "runtime_task"; agent_graph := machine "agent_graph";
     action_transaction := machine "action_transaction" |}.

(** C8: In the kernel of a contract whose safety paths pass the check, an action starts to
    execute only from APPROVED and with every authorization fact asserted; an uncertain
    action is left only by a reconciliation that is not automatic, to be verified or handled
    by hand; and a task succeeds only from RUNNING, under the current lease and with its
    checkpoint committed. *)
Theorem checked_paths_bind_decisions resource reg k documents r d :
  new_kernel resource reg = Ok k → fact_backed reg → dget "documents" resource = VDict documents →
  validate_safety_paths (machines_of documents) = Ok tt → decide_transition k r = Ok d →
  (machine_id r = "action_transaction" → d_next_state d = "EXECUTING" →
     state r = "APPROVED" ∧ ∀ f, f ∈ dispatch_preconditions → asserted r f) ∧
  (machine_id r = "action_transaction" → state r = "UNCERTAIN" →
     d_automatic d = false ∧ command r = "CMD-RECONCILE-ACTION" ∧ d_next_state d ∈ ["VERIFYING"; "MANUAL"]) ∧
  (machine_id r = "runtime_task" → d_next_state d = "SUCCEEDED" →
     state r = "RUNNING" ∧
     ∀ f, f ∈ ["valid_fencing_token"; "matching_attempt_id"; "checkpoint_committed"] → asserted r f).
Proof.
  intros Hk Hfb Hdocs Hsafe Hd. unfold validate_safety_paths in Hsafe. binds Hsafe.
  destruct (decision_document _ _ _ _ _ _ Hk Hfb Hdocs Hd)
    as (md & raws & td & t & Hmd & Hraws & Hin & Htd & Hfrom & Hto & Hcom & Haut & Hfacts).
  cbn [incident runtime_task agent_graph action_transaction machines_of] in *. clear E E0 E1 E2 E3 E4. split_and!.
  - intros Hmid Hex. rewrite Hmid in Hmd. rewrite Hmd in E5. destruct (action_dispatch _ _ _ Hraws E5) as (d1 & Hall & Hone & Hreq).
    assert (d1 = VDict td) as ->.
    { apply Hall; [done|]. rewrite (field_is_doc _ _ _ _ (doc_to _ _ Htd)), Hto, Hex. done. }
    rewrite (field_is_doc _ _ _ _ (doc_from _ _ Htd)) in Hone. injection Hone as Hone%bool_decide_eq_true.
    split; [congruence|]. intros f Hf. apply Hfacts. by eapply required_given.
  - intros Hmid Hun. rewrite Hmid in Hmd. rewrite Hmd in E5.
    assert (blind_retry (VDict td) = Ok false) as Hb.
    { eapply action_uncertain; [exact Hraws|exact E5|done|].
      rewrite (field_is_doc _ _ _ _ (doc_from _ _ Htd)), Hfrom, Hun. done. }
    unfold blind_retry in Hb. apply ck_or_false in Hb as [Ha Hb]. apply ck_or_false in Hb as [Hc Hv].
    apply ck_not_false in Hc, Hv. unfold truth_of in Ha. rewrite (item_dget _ _ _ (doc_automatic _ _ Htd)) in Ha by done.
    injection Ha as Ha. rewrite (field_is_doc _ _ _ _ (doc_command _ _ Htd)) in Hc.
    injection Hc as Hc%bool_decide_eq_true. unfold field_in in Hv. rewrite (item_dget _ _ _ (doc_to _ _ Htd)) in Hv by done.
    apply ck_in_ok, mem_texts in Hv as (s & [= Hs] & Hin'). split_and!; congruence.
  - intros Hmid Hsu. rewrite Hmid in Hmd. rewrite Hmd in Hsafe.
    destruct (runtime_commit _ _ _ Hraws Hsafe) as (t1 & u & Hall & Hreq & Hany).
    assert (t1 = VDict td) as ->.
    { apply Hall; [done|]. rewrite (field_is_doc _ _ _ _ (doc_to _ _ Htd)), Hto, Hsu. done. }
    specialize (Hany _ Hin). unfold ck_and in Hany. rewrite (field_is_doc _ _ _ _ (doc_to _ _ Htd)), Hto, Hsu in Hany.
    cbn in Hany. apply ck_not_false in Hany. rewrite (field_is_doc _ _ _ _ (doc_from _ _ Htd)) in Hany.
    injection Hany as Hany%bool_decide_eq_true. split; [congruence|]. intros f Hf. apply Hfacts. by eapply required_given.
Qed.

(** *** The shipped contract *)

Definition demo_architecture : val :=
  obj [("components", VList ((λ c, obj [("id", VStr c)]) <$>
         ["CMP-CONTROL-API"; "CMP-SCHEDULER"; "CMP-AGENT-WORKER"; "CMP-POLICY-ENGINE"; "CMP-ACTION-EXECUTOR"]));
       ("stores", VList ((λ c, obj [("id", VStr c)]) <$>
         ["STORE-INCIDENT-POSTGRES"; "STORE-TASK-POSTGRES"; "STORE-CHECKPOINT-POSTGRES"; "STORE-ACTION-POSTGRES"]))].
Definition shipped_documents : mapping :=
  match dget "documents" shipped_contract with VDict d => d | _ => [] end.

Lemma checked_machines_are_live_witness : ∃ reg k rs v' s' rs' v2,
  new_kernel shipped_contract reg = Ok k ∧
  validate_state_machine doc_action_transaction demo_architecture doc_commands_events = Ok tt ∧
  history k "action_transaction" ("PREPARED", 3%Z) rs ("UNCERTAIN", v') ∧
  history k "action_transaction" ("UNCERTAIN", 3%Z) rs' (s', v2) ∧ Forall (fired_for "action-7") rs'.
Proof.
  destruct (shipped_run (λ k, match k_machines k !! "action_transaction" with
    | Some m => bool_decide ("UNCERTAIN" ∈ m_states m) | None => false end))
    as (reg & k & Hk & Hfb & _ & Hd); [vm_compute; reflexivity|].
  destruct (k_machines k !! "action_transaction") as [m|] eqn:Hm; [|discriminate].
  apply bool_decide_eq_true in Hd.
  assert (validate_state_machine doc_action_transaction demo_architecture doc_commands_events = Ok tt) as Hcheck
    by (vm_compute; reflexivity).
  assert (Hagg : "action-7" ≠ "") by discriminate.
  assert (Hv : (0 ≤ 3)%Z) by lia.
  destruct (checked_machines_are_live shipped_contract reg k shipped_documents demo_architecture doc_commands_events
    "action_transaction" m "UNCERTAIN" "action-7" 3%Z Hk Hfb Hm eq_refl Hcheck Hd Hagg Hv)
    as [(initial & rs & v' & Hi & Hh & _) (s' & rs' & v2 & _ & Hh' & Hall)].
  exists reg, k, rs, v', s', rs', v2. split; [exact Hk|]. split; [exact Hcheck|]. split; [|split; [exact Hh'|exact Hall]].
  assert (initial = "PREPARED") as -> by (vm_compute in Hi; congruence). exact Hh.
Defined.

Lemma checked_paths_bind_decisions_witness : ∃ reg k d,
  new_kernel shipped_contract reg = Ok k ∧ validate_safety_paths (machines_of shipped_documents) = Ok tt ∧
  decide_transition k dispatch_request = Ok d ∧ state dispatch_request = "APPROVED" ∧
  asserted dispatch_request "valid_authorization".
Proof.
  destruct (shipped_run (λ k, match decide_transition k dispatch_request with
    | Ok d => bool_decide (d_next_state d = "EXECUTING") | Err _ => false end))
    as (reg & k & Hk & Hfb & _ & Hd); [vm_compute; reflexivity|].
  destruct (decide_transition k dispatch_request) as [d|] eqn:H1; [|discriminate].
  apply bool_decide_eq_true in Hd.
  assert (validate_safety_paths (machines_of shipped_documents) = Ok tt) as Hsafe by (vm_compute; reflexivity).
  destruct (checked_paths_bind_decisions shipped_contract reg k shipped_documents dispatch_request d Hk Hfb eq_refl Hsafe H1)
    as [Hdispatch _].
  exists reg, k, d. split; [exact Hk|]. split; [exact Hsafe|]. split; [exact H1|].
  destruct (Hdispatch eq_refl Hd) as [Hs Hf]. split; [exact Hs|]. apply Hf. right. left.
Defined.

(** The check of the incident path looks at the first transition from WAITING_APPROVAL to
    EXECUTING only: a second one needs no approval. *)
Definition unapproved_transition : val :=
  obj [("id", VStr "TR-INCIDENT-EXECUTE-UNAPPROVED"); ("from", VStr "WAITING_APPROVAL"); ("to", VStr "EXECUTING");
       ("actor", VStr "CMP-CONTROL-API"); ("command", VStr "CMD-CANCEL-INCIDENT"); ("event", VStr "EVT-INCIDENT-CANCELLED");
       ("preconditions", strs ["operator_present"])].
Definition transitions_of (machine : val) : list val :=
  match subscript machine "transitions" with Ok (VList l) => l | _ => [] end.
Lemma second_approval_path_is_unchecked :
  check_incident_path (transitions_of doc_incident ++ [unapproved_transition]) = Ok tt ∧
  leads "WAITING_APPROVAL" "EXECUTING" unapproved_transition = Ok true ∧
  require_preconditions unapproved_transition
    ["valid_approval_digest"; "valid_resource_version"; "approval_not_expired"] "Incident R2 execution" ≠ Ok tt.
Proof. split_and!; vm_compute; done. Qed.

(** ** What the checks of the architecture guarantee

    An accepted architecture gives every state exactly one writer. *)

Lemma ck_for_ok {A} (body : A → CK unit) xs u x : ck_for body xs = Ok u → x ∈ xs → body x = Ok tt.
Proof.
  induction xs as [|y ys IH]; [by intros _ ?%elem_of_nil|]. cbn. intros ([] & Hy & H)%rbind_ok.
  intros [->|Hin]%elem_of_cons; auto.
Qed.

(** *** Records by key *)

Lemma put_keys k v d k' : k' ∈ (put k v d).*1 → k' = k ∨ k' ∈ d.*1.
Proof.
  induction d as [|[k0 v0] d IH]; cbn; [rewrite list_elem_of_singleton; auto|].
  destruct (py_eq k k0); cbn; rewrite !elem_of_cons; [tauto|]. intros [->|H]; [auto|]. destruct (IH H); auto.
Qed.
Lemma put_values k v d x : x ∈ (put k v d).*2 → x = v ∨ x ∈ d.*2.
Proof.
  induction d as [|[k0 v0] d IH]; cbn; [rewrite list_elem_of_singleton; auto|].
  destruct (py_eq k k0); cbn; rewrite !elem_of_cons; [tauto|]. intros [->|H]; [auto|]. destruct (IH H); auto.
Qed.
Lemma put_str s v d : VStr s ∈ (put (VStr s) v d).*1.
Proof.
  induction d as [|[k0 v0] d IH]; cbn [put fmap list_fmap fst]; [left|].
  destruct (py_eq (VStr s) k0) eqn:E; cbn; rewrite elem_of_cons; [left; symmetry; by apply py_eq_str|by right].
Qed.
Lemma put_keeps k v d k' : k' ∈ d.*1 → k' ∈ (put k v d).*1.
Proof.
  induction d as [|[k0 v0] d IH]; cbn; [by intros ?%elem_of_nil|]. destruct (py_eq k k0); cbn; rewrite !elem_of_cons; tauto.
Qed.
Lemma put_length k v d : length (put k v d) = if mem k d.*1 then length d else S (length d).
Proof.
  induction d as [|[k0 v0] d IH]; [done|]. cbn [put fmap list_fmap fst].
  change (mem k (k0 :: d.*1)) with (py_eq k k0 || mem k d.*1).
  destruct (py_eq k k0); [done|]. cbn. rewrite IH. by destruct (mem k d.*1).
Qed.
Lemma put_new k v d : mem k d.*1 = false → put k v d = d ++ [(k, v)].
Proof.
  induction d as [|[k0 v0] d IH]; [done|]. cbn [put fmap list_fmap fst].
  change (mem k (k0 :: d.*1)) with (py_eq k k0 || mem k d.*1). destruct (py_eq k k0); [done|]. cbn. intros H. by rewrite IH.
Qed.

Definition ids_are_texts (key : string) (xs : list val) : Prop := Forall (λ x, ∃ s, item x key = Ok (VStr s)) xs.

(** No record is lost exactly when the keys are distinct. *)
Lemma records_kept key xs d0 d :
  ids_are_texts key xs →
  rfold (λ d x, let* k := item x key in let* k := hashed k in Ok (put k x d)) xs d0 = Ok d →
  length d ≤ length d0 + length xs ∧
  (length d = length d0 + length xs → NoDup d0.*1 → Forall (λ k, is_Some (text_of k)) d0.*1 →
   NoDup d.*1 ∧ ∃ tail, d = d0 ++ tail ∧ tail.*2 = xs ∧ Forall (λ kx, item kx.2 key = Ok kx.1) tail)%nat.
Proof.
  intros Htexts. revert d0. induction Htexts as [|x xs [s Hs] Htexts IH]; intros d0 H; cbn in H.
  - injection H as <-. split; [lia|]. intros _ Hnd _. split; [done|]. exists []. rewrite app_nil_r. done.
  - rewrite Hs in H. cbn in H. apply IH in H as [Hle Heq]. rewrite put_length in Hle, Heq. cbn [length].
    destruct (mem (VStr s) d0.*1) eqn:E; split; try lia. intros Hlen Hnd Hall.
    apply mem_str_false in E. destruct Heq as [Hnd' (tail & -> & Hx & Ht)].
    + lia.
    + rewrite put_new by by apply mem_str_false. rewrite fmap_app. cbn. apply NoDup_app. split_and!; [done| |by apply NoDup_singleton].
      intros k Hk ->%list_elem_of_singleton. done.
    + rewrite put_new by by apply mem_str_false. rewrite fmap_app. apply Forall_app. split; [done|].
      apply Forall_singleton. by eexists.
    + split; [done|]. exists ((VStr s, x) :: tail). rewrite put_new by by apply mem_str_false.
      split_and!; [by rewrite <-app_assoc|cbn; by rewrite Hx|by constructor].
Qed.

Lemma values_keys key value xs d0 d s :
  rfold (λ d x, let* k := item x key in let* w := item x value in let* k := hashed k in Ok (put k w d)) xs d0 = Ok d →
  VStr s ∈ d0.*1 ∨ (∃ x, x ∈ xs ∧ item x key = Ok (VStr s)) → VStr s ∈ d.*1.
Proof.
  revert d0. induction xs as [|x xs IH]; intros d0 H; cbn in H.
  { injection H as <-. intros [?|(x & ?%elem_of_nil & _)]; done. }
  binds H. apply rbind_ok in E as (k & Hk & E). apply rbind_ok in E as (w & Hw & E).
  apply rbind_ok in E as (k' & ->%hashed_ok & E). injection E as <-.
  intros [Hin|(y & [->|Hin]%elem_of_cons & Hy)]; (eapply IH; [exact H|]).
  - left. by apply put_keeps.
  - left. rewrite Hy in Hk. injection Hk as <-. apply put_str.
  - right. eauto.
Qed.

Lemma values_keys_back key value xs d0 d k :
  rfold (λ d x, let* k := item x key in let* w := item x value in let* k := hashed k in Ok (put k w d)) xs d0 = Ok d →
  k ∈ d.*1 → k ∈ d0.*1 ∨ ∃ x, x ∈ xs ∧ item x key = Ok k.
Proof.
  revert d0. induction xs as [|x xs IH]; intros d0 H; cbn in H; [injection H as <-; auto|].
  binds H. apply rbind_ok in E as (k0 & Hk & E). apply rbind_ok in E as (w & Hw & E).
  apply rbind_ok in E as (k' & ->%hashed_ok & E). injection E as <-. intros Hin.
  apply (IH _ H) in Hin as [[->|?]%put_keys|(y & ? & ?)]; [right; exists x; split; [by left|done]|auto|].
  right. exists y. split; [by right|done].
Qed.
Lemma list_by_in key v xs ks k : elements v = Ok xs → list_by key v = Ok ks → k ∈ ks ↔ ∃ x, x ∈ xs ∧ item x key = Ok k.
Proof.
  intros He. unfold list_by. rewrite He. cbn. intros H%rmapM_ok. clear He.
  induction H as [|x y xs ys Hxy _ IH]; [split; [by intros ?%elem_of_nil|by intros (x & ?%elem_of_nil & _)]|].
  setoid_rewrite elem_of_cons. rewrite IH. split.
  - intros [->|(z & ? & ?)]; eauto.
  - intros (z & [->|?] & Hz); [left; congruence|eauto].
Qed.
Lemma same_set_texts ks names k : same_set ks (texts names) = true → k ∈ ks ↔ ∃ s, k = VStr s ∧ s ∈ names.
Proof.
  unfold same_set. intros [Hks Hnames]%andb_true_iff. split.
  - intros Hk. unfold subset in Hks. rewrite forallb_forall in Hks. apply (mem_texts k names), Hks. by apply list_elem_of_In.
  - intros (s & -> & Hs). eapply subset_str; [exact Hnames|]. apply list_elem_of_fmap. eauto.
Qed.

(** *** One writer for each state *)

(** What the JSON schema of the architecture says of a component *)
Definition component_shape (c : val) : Prop :=
  (∃ id, item c "id" = Ok (VStr id)) ∧ (∃ ws, item c "writes_states" = Ok (VList ws)).
Definition writes (c : val) (state : string) : Prop :=
  ∃ ws, item c "writes_states" = Ok (VList ws) ∧ VStr state ∈ ws.

Lemma entry_at_in d v w : entry_at d v = Ok w → ∃ k, (k, w) ∈ d ∧ py_eq v k = true.
Proof.
  unfold entry_at. intros (v' & ->%hashed_ok & H)%rbind_ok. unfold py_ck in H.
  destruct (head _) as [[k w']|] eqn:E; cbn in H; [|done]. injection H as ->. apply head_Some_elem_of in E.
  apply list_elem_of_filter in E as [? ?]. by exists k.
Qed.

Record ownership_checked (architecture : val) (cs : list val) : Prop := {
  owned_components : ∃ components stores : list (val * val),
    records_by "id" (VList cs) = Ok components ∧ length components = length cs ∧
    check_ownership architecture components stores = Ok tt;
}.
Lemma accepted_ownership architecture cs :
  item architecture "components" = Ok (VList cs) → check_architecture_invariants architecture = Ok tt →
  ownership_checked architecture cs.
Proof.
  intros Hcs H. unfold check_architecture_invariants in H. rewrite Hcs in H. binds H. injection E5 as <-.
  unfold len_of in E9. apply rbind_ok in E9 as (l & Hl & E9). injection Hl as <-. injection E9 as <-.
  apply refused in E10. bool_prop. destruct x15. constructor. eauto.
Qed.

Lemma nodup_fst (d : list (val * val)) k v w : NoDup d.*1 → (k, v) ∈ d → (k, w) ∈ d → w = v.
Proof.
  induction d as [|[k0 v0] d IH]; [by intros _ ?%elem_of_nil|]. cbn. intros [Hk Hnd]%NoDup_cons.
  intros [[= -> ->]|Hv]%elem_of_cons [[= Heq]|Hw]%elem_of_cons; [done| | |by apply IH].
  - exfalso. apply Hk, list_elem_of_fmap. by exists (k0, w).
  - exfalso. subst. apply Hk, list_elem_of_fmap. by exists (k0, v).
Qed.

(** An accepted architecture gives each of the six states exactly one component that
    writes it, and no component writes anything else. *)
Theorem states_have_one_writer architecture cs :
  item architecture "components" = Ok (VList cs) → Forall component_shape cs →
  check_architecture_invariants architecture = Ok tt →
  (∀ s, s ∈ expected_states → ∃ c, c ∈ cs ∧ writes c s ∧ ∀ c', c' ∈ cs → writes c' s → c' = c) ∧
  (∀ c s, c ∈ cs → writes c s → s ∈ expected_states).
Proof.
  intros Hcs Hshape H. destruct (accepted_ownership _ _ Hcs H) as [(components & stores & Hrec & Hlen & Hown)].
  assert (ids_are_texts "id" cs) as Hids by (eapply Forall_impl; [exact Hshape|]; by intros c [? _]).
  unfold records_by in Hrec. cbn in Hrec. destruct (records_kept _ _ _ _ Hids Hrec) as [_ Hkept].
  destruct Hkept as [Hnd (tail & Htail & Hcs' & Hkeys)]; [done|constructor|constructor|]. cbn in Htail. subst tail.
  rewrite Forall_forall in Hshape. rewrite Forall_forall in Hkeys.
  unfold check_ownership in Hown. binds Hown.
  assert (∀ c s, c ∈ cs → writes c s → ∃ o id, item c "id" = Ok (VStr id) ∧ entry_get x5 (VStr s) = Ok o ∧ o = VStr id) as Howner.
  { intros c s Hc (ws & Hws & Hin). destruct (Hshape _ Hc) as [[id Hid] _]. rewrite <-Hcs' in Hc.
    eapply ck_for_ok in Hown; [|exact Hc]. unfold check_writes in Hown. rewrite Hws in Hown. binds Hown.
    injection E8 as <-. injection E9 as <-. eapply ck_for_ok in Hown; [|exact Hin]. cbv beta in Hown. binds Hown.
    rewrite Hid in E9. injection E9 as <-. apply refused in Hown. apply negb_false_iff, py_eq_str_r in Hown. eauto. }
  assert (∀ c c' s, c ∈ cs → c' ∈ cs → writes c s → writes c' s → c' = c) as Hunique.
  { intros c c' s Hc Hc' Hw Hw'. destruct (Howner _ _ Hc Hw) as (o & id & Hid & Ho & ->).
    destruct (Howner _ _ Hc' Hw') as (o' & id' & Hid' & Ho' & ->). rewrite Ho in Ho'. injection Ho' as <-.
    rewrite <-Hcs' in Hc, Hc'. apply list_elem_of_fmap in Hc as ([k w] & -> & Hc), Hc' as ([k' w'] & -> & Hc'). cbn in *.
    pose proof (Hkeys _ Hc) as Hk. pose proof (Hkeys _ Hc') as Hk'. cbn in Hk, Hk'.
    rewrite Hid in Hk. rewrite Hid' in Hk'. injection Hk as <-. injection Hk' as <-.
    by eapply nodup_fst. }
  assert (∀ k, k ∈ x5.*1 ↔ ∃ s, k = VStr s ∧ s ∈ expected_states) as Hexpected.
  { intros k. apply refused, negb_false_iff in E3. rewrite <-(same_set_texts _ _ _ E3), (list_by_in _ _ _ _ _ E4 E0).
    split.
    - intros Hk. eapply values_keys_back in Hk; [|exact E5]. destruct Hk as [?%elem_of_nil|?]; done.
    - intros Hk. assert (k ∈ x0) as Hk0 by by apply (list_by_in _ _ _ _ _ E4 E0).
      apply (same_set_texts _ _ _ E3) in Hk0 as (s & -> & _). eapply values_keys; [exact E5|]. by right. }
  split.
  - intros s Hs. assert (VStr s ∈ x5.*1) as Hkey by (apply Hexpected; eauto).
    apply list_elem_of_fmap in Hkey as ([k owner] & Hk & Hin). cbn in Hk. subst k.
    eapply ck_for_ok in E7; [|exact Hin]. unfold check_owner in E7. binds E7.
    apply entry_at_in in E10 as (oid & Hcomp & _).
    assert (x10 ∈ cs) as Hc by (rewrite <-Hcs'; apply list_elem_of_fmap; by exists (oid, x10)).
    destruct (Hshape _ Hc) as [_ [ws Hws]]. rewrite Hws in E11. injection E11 as <-.
    apply refused, negb_false_iff in E7. subst. cbn in E12. injection E12 as E12. apply mem_str in E12.
    exists x10. assert (writes x10 s) as Hw by by exists ws. split_and!; [done..|]. intros c' Hc' Hw'.
    by apply (Hunique x10 c' s).
  - intros c s Hc Hw. destruct (Howner _ _ Hc Hw) as (o & id & _ & Ho & ->).
    assert (VStr s ∈ x5.*1) as Hkey.
    { unfold entry_get in Ho. apply rbind_ok in Ho as (k & ->%hashed_ok & Ho).
      destruct (head _) as [[k w]|] eqn:Eh; [|discriminate Ho]. apply head_Some_elem_of in Eh.
      apply list_elem_of_filter in Eh as [Hk Hin]. apply py_eq_str in Hk. cbn in Hk. subst k.
      apply list_elem_of_fmap. by eexists (_, _). }
    by apply Hexpected in Hkey as (s' & [= ->] & ?).
Qed.

(** A small architecture: two components share the six states. *)
Module DemoArchitecture.
Definition component (id : string) (states : list string) : val :=
  obj [("id", VStr id); ("authoritative_stores", strs ["STORE-A"]); ("invokes", strs ["CMP-A"]);
       ("writes_states", strs states)].
Definition components : list val :=
  [component "CMP-A" ["Incident Lifecycle"; "Runtime Task"; "Agent Graph State"];
   component "CMP-B" ["ActionTransaction"; "Agent Trace/Eval"; "Artifact/Dataset"]].
Definition owned (owner : string) (state : string) : val :=
  obj [("state", VStr state); ("owner_component", VStr owner); ("authoritative_store", VStr "STORE-A")].
Definition architecture : val :=
  obj [("engineering_planes", strs expected_engineering_planes); ("logical_planes", strs expected_logical_planes);
       ("components", VList components);
       ("stores", VList [obj [("id", VStr "STORE-A"); ("owner_component", VStr "CMP-A")]]);
       ("state_ownership", VList ((owned "CMP-A" <$> ["Incident Lifecycle"; "Runtime Task"; "Agent Graph State"]) ++
                                  (owned "CMP-B" <$> ["ActionTransaction"; "Agent Trace/Eval"; "Artifact/Dataset"])));
       ("trust_boundaries", VList []);
       ("prohibited_paths", VList ((λ d, obj [("id", VStr d)]) <$> required_denials));
       ("walkthroughs", VList ((λ w, obj [("id", VStr w); ("component_path", strs ["CMP-A"; "CMP-B"])])
                                 <$> expected_walkthroughs))].
End DemoArchitecture.

Lemma states_have_one_writer_witness :
  check_architecture_invariants DemoArchitecture.architecture = Ok tt ∧
  ∃ c, c ∈ DemoArchitecture.components ∧ writes c "Runtime Task".
Proof.
  assert (check_architecture_invariants DemoArchitecture.architecture = Ok tt) as Hcheck by (vm_compute; reflexivity).
  assert (Forall component_shape DemoArchitecture.components) as Hshape
    by (repeat constructor; eexists; vm_compute; reflexivity).
  destruct (states_have_one_writer DemoArchitecture.architecture DemoArchitecture.components eq_refl Hshape Hcheck) as [Hone _].
  split; [exact Hcheck|]. destruct (Hone "Runtime Task") as (c & Hc & Hw & _).
  - apply (bool_decide_unpack _). vm_compute. reflexivity.
  - exists c. split; [exact Hc|exact Hw].
Defined.
