(* ===== verification/Reference.v ===== *)
(** * The reference run of metric version 3

    [faultwitness_dev/g03_readiness.py]: the deterministic matrix, the trials of the three
    live arms under the experiment runner, the matrix of their records and its validation,
    cluster bootstraps, and the verdict on the readiness of the dataset.  The rows of a
    matrix are records; the draws of [random.Random(seed).randrange] and the adapter that
    calls the model are arguments. *)
From Stdlib Require Import Ascii.
From S2P Require Import Prelude Json JsonFacts Sha256 PyDyn PyFloat Packet Scoring Thresholds.
From S2P Require Experiment.

Definition MODEL_ID : string := "qwen3.7-plus-2026-05-26".
Definition REFERENCE_REPETITIONS : Z := 3.
Definition MAX_REFERENCE_REPETITIONS : Z := 5.
Definition BOOTSTRAP_RESAMPLES : nat := 2000.
Definition governance {A} (message : string) : R A := Err (RGovernance message).

(** ** The deterministic matrix *)

Record deterministic_row := {
  dr_case_id : string;
  dr_family : string;
  dr_result : mapping;
  dr_candidates : list candidate;
  dr_score : score;
}.
Record deterministic_matrix := {
  dm_rows : list deterministic_row;
  dm_ambiguous : list (string * list string);   (* case, labels *)
}.
Definition dm_status (m : deterministic_matrix) : string :=
  if bool_decide (dm_ambiguous m = []) then "pass" else "diagnostic_only".

(** The candidates that point at a signal that is a distractor of the case *)
Definition ambiguous_labels (truth : ground_truth) (candidates : list candidate) : list string :=
  List.filter (λ label, negb (bool_decide (label = gt_root_cause truth)) &&
    match table_get ROOT_SIGNAL_FEATURES label with
    | Some spec => bool_decide (spec.1.1 ∈ distractor_kinds truth)
    | None => false
    end) (candidate_label <$> candidates).

Section Matrix.
Context (schema_error : mapping → option (string * string)).

Definition deterministic_case (t : threshold_registry) (m : deterministic_matrix) (c : string * scenario_case)
    : R deterministic_matrix :=
  let* frozen := table_at (registry t) c.1 in
  let* answer := deterministic_baseline_v3 (sc_packet c.2) frozen in
  let '(result, candidates) := answer in
  match ambiguous_labels (sc_truth c.2) candidates with
  | [] =>
      let* s := score_result_v3 schema_error result (sc_truth c.2) in
      Ok {| dm_rows := dm_rows m ++ [{| dr_case_id := c.1; dr_family := sc_family c.2; dr_result := result;
                                        dr_candidates := candidates; dr_score := s |}];
            dm_ambiguous := dm_ambiguous m |}
  | ambiguous =>
      Ok {| dm_rows := dm_rows m; dm_ambiguous := dm_ambiguous m ++ [(c.1, sort_strings ambiguous)] |}
  end.
Definition run_deterministic_matrix_v3 (document : mapping) : R deterministic_matrix :=
  let* cs := scenario_cases_v3 document in
  let* thresholds := build_deterministic_thresholds_v3 document in
  rfold (deterministic_case thresholds) (sort_keys cs) {| dm_rows := []; dm_ambiguous := [] |}.
End Matrix.

(** ** Live trials *)

Definition LIVE_ARMS : list string := ["naive_react"; "naive_react_single"; "no_rag"].

Record trial_spec := {
  ts_trial_id : string;
  ts_baseline : string;
  ts_case_id : string;
  ts_repetition : Z;
  ts_packet : mapping;
}.
Definition trial_identity (dataset_digest baseline case_id : string) (repetition : Z) : val :=
  sdict [("dataset_digest", VStr dataset_digest); ("metric_version", VInt METRIC_VERSION); ("baseline", VStr baseline);
         ("model_id", VStr MODEL_ID); ("case_id", VStr case_id); ("repetition", VInt repetition)].
Definition repetitions_of (n : Z) : list Z := Z.of_nat <$> seq 1 (Z.to_nat n).
Definition trial_spec_of (dataset_digest baseline : string) (c : string * scenario_case) (repetition : Z) : R trial_spec :=
  let* digest := digest_json (trial_identity dataset_digest baseline c.1 repetition) in
  Ok {| ts_trial_id := "g03-readiness-v" +:+ int_repr METRIC_VERSION +:+ "-" +:+ digest; ts_baseline := baseline;
        ts_case_id := c.1; ts_repetition := repetition; ts_packet := sc_packet c.2 |}.
Definition trial_specs_v3 (dataset_digest : string) (cs : cases) (repetitions : Z) : R (list (string * list trial_spec)) :=
  raise_if negb (bool_decide (repetitions ∈ [REFERENCE_REPETITIONS; MAX_REFERENCE_REPETITIONS]))
    with_ RGovernance "metric v3 reference repetitions must be three or five";;
  rmapM (λ baseline,
    let* specs := rmapM (λ c, rmapM (trial_spec_of dataset_digest baseline c) (repetitions_of repetitions)) (sort_keys cs) in
    Ok (baseline, concat specs)) LIVE_ARMS.

(** What the adapter of an arm does with a packet *)
Inductive adapter_outcome : Type :=
| Answered (result : mapping)
| TrialFailed (failure_class reason : string) (input_tokens output_tokens : Z) (telemetry : val)
| InfrastructureFailed (message : string)
| ConfigurationFailed
| GovernanceFailed (message : string)
| AdapterRaised (exn : string).

(** [token_cost] of [g02_baselines.py] *)
Definition token_cost (input_tokens output_tokens : Z) : R double :=
  raise_if (input_tokens <? 0)%Z || (output_tokens <? 0)%Z with_ RGovernance "token counts cannot be negative";;
  Ok (dadd (dmul (to_double input_tokens 1000000) (double_of_int 2))
           (dmul (to_double output_tokens 1000000) (double_of_int 8))).

Definition trial_payload (spec : trial_spec) (result : list (string * val) + mapping) (input_tokens output_tokens : Z)
    (telemetry : option val) : R mapping :=
  let* cost := token_cost input_tokens output_tokens in
  let* telemetry := match telemetry with Some t => let* t := json_copy t in Ok [("trial_telemetry", t)] | None => Ok [] end in
  Ok ((λ kv : string * val, (VStr kv.1, kv.2)) <$>
    ([("case_id", dget "case_id" (ts_packet spec)); ("baseline", VStr (ts_baseline spec));
     ("repetition", VInt (ts_repetition spec));
     ("result", match result with inl fields => sdict fields | inr d => VDict d end);
     ("input_tokens", VInt input_tokens); ("output_tokens", VInt output_tokens);
     ("cost_cny", VFloat (repr_double cost))] ++ (telemetry : list (string * val)))).

Definition tokens_of (result : mapping) (key : string) : R Z := py (val_int (default (VInt 0) (dfind key result))).
Definition scored_failure (class reason : string) (model fallback : val) : list (string * val) :=
  [("status", VStr "scored_failure"); ("failure_class", VStr class); ("reason", VStr reason); ("model_id", model);
   ("fallback_count", fallback)].

Section Live.
Context (schema_error : mapping → option (string * string)).

(** The handler of the branch [except GovernanceError]; [result] is what the adapter returned,
    if it did. *)
Definition malformed_payload (spec : trial_spec) (result : option mapping) (message : string) : R mapping :=
  let d := default [] result in
  let* input_tokens := match d with [] => Ok 0%Z | _ => tokens_of d "input_tokens" end in
  let* output_tokens := match d with [] => Ok 0%Z | _ => tokens_of d "output_tokens" end in
  trial_payload spec (inl (scored_failure "malformed" message (match d with [] => VNone | _ => dget "model_id" d end)
      (match d with [] => VInt 0 | _ => default (VInt 0) (dfind "fallback_count" d) end)))
    input_tokens output_tokens None.
Definition answered_payload (spec : trial_spec) (result : mapping) (telemetry : val) : R mapping :=
  let* _ := validate_result_v3 schema_error result in
  let* input_tokens := tokens_of result "input_tokens" in
  let* output_tokens := tokens_of result "output_tokens" in
  trial_payload spec (inr result) input_tokens output_tokens (Some telemetry).

(** An exception as the runner sees it *)
Definition runner_exn (e : readiness_exn) : Experiment.exn :=
  match e with
  | RPython name => Experiment.OtherError name
  | e => Experiment.GovernanceError (Experiment.HandlerGovernance (exn_text e))
  end.

(** The body of [execute]: the payload, or what it raises *)
Definition execute_trial (spec : trial_spec) (outcome : adapter_outcome) : result Experiment.exn mapping :=
  match outcome with
  | Answered d =>
      let result := Experiment.drop_key "_trial_telemetry" d in
      let telemetry := default (VDict []) (dfind "_trial_telemetry" d) in
      match answered_payload spec result telemetry with
      | Ok payload => Ok payload
      | Err e =>
          if is_governance e then rmap_err runner_exn (malformed_payload spec (Some result) (exn_text e))
          else Err (runner_exn e)
      end
  | TrialFailed class reason input_tokens output_tokens telemetry =>
      rmap_err runner_exn (trial_payload spec (inl (scored_failure class reason (VStr MODEL_ID) (VInt 0)))
        input_tokens output_tokens (Some telemetry))
  | InfrastructureFailed message => Err (Experiment.ExperimentInfrastructureError message)
  | ConfigurationFailed => Err (Experiment.OtherError "LiveConfigurationError")
  | GovernanceFailed message => rmap_err runner_exn (malformed_payload spec None message)
  | AdapterRaised exn => Err (Experiment.OtherError exn)
  end.
Definition trial_handler (adapter : mapping → adapter_outcome) (spec : trial_spec) (packet : mapping) : Experiment.handler :=
  λ _ _, match execute_trial spec (adapter packet) with
         | Ok payload => Experiment.HReturn [(VStr "status", VStr "pass"); (VStr "payload", VDict payload)]
         | Err e => Experiment.HRaise e
         end.

(** One turn of the loop over the specs: the frozen packet and the unit *)
Definition live_unit (spec : trial_spec) : result Experiment.exn (trial_spec * mapping * Experiment.ExperimentUnit) :=
  let* copy := rmap_err runner_exn (json_copy (VDict (ts_packet spec))) in
  let packet := default [] (as_dict copy) in
  let* _ := rmap_err runner_exn (validate_observation_packet_v3 packet) in
  let* input_digest := rmap_err runner_exn
    (digest_json (sdict [("baseline", VStr (ts_baseline spec)); ("metric_version", VInt METRIC_VERSION);
                         ("packet", VDict packet); ("repetition", VInt (ts_repetition spec))])) in
  let* u := Experiment.check_unit
    {| Experiment.unit_id := ts_trial_id spec; Experiment.required_checkpoints := ["model_route"];
       Experiment.depends_on := []; Experiment.input_digest := input_digest; Experiment.destructive := false |} in
  Ok (spec, packet, u).

Definition model_route : Experiment.str_mapping := [("model_route", MODEL_ID +:+ ":metric-v3:frozen-arm-contract")].
Definition live_handlers (adapter : mapping → adapter_outcome)
    (us : list (trial_spec * mapping * Experiment.ExperimentUnit)) (id : string) : option Experiment.handler :=
  '(spec, packet, _) ← List.find (λ u, bool_decide (Experiment.unit_id u.2 = id)) us;
  Some (trial_handler adapter spec packet).

(** [_run_live_trials_v3]: the record of every spec, in the order of the specs, which is
    that of the units *)
Definition run_live_trials_v3 (now : nat → string) (adapter : mapping → adapter_outcome) (sha : string)
    (specs : list trial_spec) : SE Experiment.journal Experiment.exn (list (string * Experiment.trial)) :=
  let! us := slift (rmapM live_unit specs) in
  let! runner := slift (Experiment.new_runner (snd <$> us) model_route sha) in
  let! run := Experiment.run now runner (live_handlers adapter us) None in
  sret (zip (ts_trial_id <$> specs) (Experiment.records run)).

(** ** The live matrix *)

(** A row of the matrix; what [payload.get] may not find is a value. *)
Record live_row := {
  lr_trial_id : string;
  lr_baseline : val;
  lr_case_id : val;
  lr_repetition : val;
  lr_status : string;
  lr_fallback_count : val;
  lr_input_tokens : val;
  lr_output_tokens : val;
  lr_cost_cny : val;
  lr_failure_class : val;
  lr_telemetry : val;
  lr_result : val;
}.
Record live_matrix := {
  lm_status : string;
  lm_dataset_digest : string;
  lm_repetitions : Z;
  lm_trials : list live_row;
}.

Definition get_or (d : mapping) (key : string) (dflt : val) : val := default dflt (dfind key d).
(** [result.get(key, default) if isinstance(result, Mapping) else default] *)
Definition result_get (result : val) (key : string) (dflt : val) : val :=
  match result with VDict d => get_or d key dflt | _ => dflt end.
Definition row_of_record (record : string * Experiment.trial) : live_row :=
  let payload := Experiment.payload (Experiment.current record.2) in
  let result := get_or payload "result" (VDict []) in
  let status := Experiment.status (Experiment.current record.2) in
  {| lr_trial_id := record.1; lr_baseline := dget "baseline" payload; lr_case_id := dget "case_id" payload;
     lr_repetition := dget "repetition" payload;
     lr_status := if bool_decide (status = "pass") && val_is (result_get result "status" VNone) "scored_failure"
                  then "scored_failure" else status;
     lr_fallback_count := result_get result "fallback_count" (VInt 0);
     lr_input_tokens := get_or payload "input_tokens" (VInt 0); lr_output_tokens := get_or payload "output_tokens" (VInt 0);
     lr_cost_cny := get_or payload "cost_cny" (VFloat "0.0");
     lr_failure_class := result_get result "failure_class" VNone;
     lr_telemetry := get_or payload "trial_telemetry" (VDict []); lr_result := result |}.

(** [f"SEED-G02-{case:04d}"] *)
Definition seed_case_id (n : nat) : string :=
  let text := int_repr (Z.of_nat n) in
  "SEED-G02-" +:+ str_join "" (repeat "0" (4 - String.length text)) +:+ text.
Definition cell : Type := string * string * Z.
Definition expected_cells (repetitions : Z) : list cell :=
  baseline ← LIVE_ARMS; case ← seq 1 32; repetition ← repetitions_of repetitions;
  [(baseline, seed_case_id case, repetition)].
Definition row_cell (row : live_row) : R cell :=
  let* repetition := py (val_int (lr_repetition row)) in
  Ok (val_str (lr_baseline row), val_str (lr_case_id row), repetition).

Definition count_arm (rows : list live_row) (baseline : string) : nat :=
  length (List.filter (λ r, bool_decide (val_str (lr_baseline r) = baseline)) rows).

Definition validate_reference_live_v3 (m : live_matrix) : R unit :=
  let repetitions := lm_repetitions m in
  raise_if negb (bool_decide (repetitions ∈ [REFERENCE_REPETITIONS; MAX_REFERENCE_REPETITIONS]))
    with_ RGovernance "metric v3 live matrix has an invalid repetition count";;
  let expected_count := (3 * 32 * repetitions)%Z in
  raise_if negb (bool_decide (Z.of_nat (length (lm_trials m)) = expected_count))
    with_ RGovernance ("metric v3 live matrix must contain exactly " +:+ int_repr expected_count +:+ " trials");;
  let expected := expected_cells repetitions in
  let* actual := rmapM row_cell (lm_trials m) in
  raise_if negb (forallb (λ c, bool_decide (c ∈ expected)) actual && forallb (λ c, bool_decide (c ∈ actual)) expected)
    with_ RGovernance "metric v3 live trial registry drifted";;
  raise_if existsb (λ r, negb (bool_decide (lr_status r ∈ ["pass"; "scored_failure"]))) (lm_trials m)
    with_ RGovernance "metric v3 live matrix has unresolved trials";;
  raise_if existsb (λ r, negb (py_eq (lr_fallback_count r) (VInt 0))) (lm_trials m)
    with_ RGovernance "metric v3 live matrix used a fallback route";;
  raise_if existsb (λ b, negb (bool_decide (Z.of_nat (count_arm (lm_trials m) b) = 32 * repetitions)%Z)) LIVE_ARMS
    with_ RGovernance "metric v3 live matrix arm counts are incomplete";;
  Ok tt.

Definition run_reference_live_v3 (now : nat → string) (adapters : string → mapping → adapter_outcome)
    (sha dataset_digest : string) (document : mapping) (repetitions : Z)
    : SE Experiment.journal Experiment.exn live_matrix :=
  let! cs := slift (rmap_err runner_exn (scenario_cases_v3 document)) in
  let! specs := slift (rmap_err runner_exn (trial_specs_v3 dataset_digest cs repetitions)) in
  let! records := (fix arms (specs : list (string * list trial_spec)) :=
    match specs with
    | [] => sret []
    | (baseline, arm) :: specs =>
        let! records := run_live_trials_v3 now (adapters baseline) sha arm in
        let! rest := arms specs in sret (records ++ rest)
    end) specs in
  let rows := row_of_record <$> records in
  let unresolved := existsb (λ r, bool_decide (lr_status r = "infra_failed")) rows in
  let m := {| lm_status := if unresolved then "infra_failed" else "pass"; lm_dataset_digest := dataset_digest;
              lm_repetitions := repetitions; lm_trials := rows |} in
  let! _ := slift (if unresolved then Ok tt else rmap_err runner_exn (validate_reference_live_v3 m)) in
  sret m.
End Live.

(** ** Bootstraps *)

Record interval := { estimate : double; lower : double; upper : double }.

Definition mean (xs : list double) : double := ddiv (double_sum xs) (double_of_int (Z.of_nat (length xs))).
Definition mean_of_means (clusters : list (list double)) : double := mean (mean <$> clusters).

(** [grouped.setdefault(key, []).append(x)] *)
Fixpoint append_to (key : string) (x : double) (groups : list (string * list double)) : list (string * list double) :=
  match groups with
  | [] => [(key, [x])]
  | (k, xs) :: groups => if bool_decide (k = key) then (k, xs ++ [x]) :: groups else (k, xs) :: append_to key x groups
  end.
Definition grouped (rows : list (string * double)) : list (string * list double) :=
  foldl (λ groups row, append_to row.1 row.2 groups) [] rows.
Definition clusters_of (rows : list (string * double)) : list (list double) := (sort_keys (grouped rows)).*2.

(** [math.floor] *)
Definition dfloor (d : double) : Z := (d.1 * 2 ^ Z.max 0 d.2 / 2 ^ Z.max 0 (- d.2))%Z.

(** Trials by case and repetition *)
Abbreviation trial_scores := (list (string * Z * double)).

Section Bootstrap.
(** The [k]-th [rng.randrange(n)] of [random.Random] seeded from a text *)
Context (randrange : string → nat → nat → nat).

(** The picks of resample [b] *)
Definition resample (seed : string) (clusters : list (list double)) (b : nat) : R (list (list double)) :=
  let n := length clusters in
  rmapM (λ i, from_option_or (RPython "IndexError") (clusters !! randrange seed n (b * n + i)%nat)) (seq 0 n).
Definition cluster_bootstrap (seed : string) (clusters : list (list double)) (B : nat) : R interval :=
  let* samples := rmapM (λ b, let* picked := resample seed clusters b in Ok (mean_of_means picked)) (seq 0 B) in
  let samples := sort_by dle samples in
  let size := double_of_int (Z.of_nat B) in
  let* lower := from_option_or (RPython "IndexError")
    (samples !! Z.to_nat (Z.max 0 (dfloor (dmul (dec 25 3) size) - 1))) in
  let* upper := from_option_or (RPython "IndexError")
    (samples !! Z.to_nat (Z.min (Z.of_nat B - 1) (dfloor (dmul (dec 975 3) size)))) in
  Ok {| estimate := mean_of_means clusters; lower := lower; upper := upper |}.

Definition percentile_cluster_bootstrap_v3 (rows : list (string * double)) (seed : string) (B : nat) : R interval :=
  raise_if bool_decide (rows = []) with_ RGovernance "metric v3 bootstrap requires case clusters";;
  cluster_bootstrap seed (clusters_of rows) B.

(** [indexed] *)
Definition indexed (rows : trial_scores) : R trial_scores :=
  raise_if negb (bool_decide (NoDup rows.*1)) with_ RGovernance "metric v3 paired bootstrap found duplicate trial keys";;
  Ok rows.
Fixpoint score_at (rows : trial_scores) (key : string * Z) : option double :=
  match rows with
  | [] => None
  | (k, x) :: rows => if bool_decide (k = key) then Some x else score_at rows key
  end.
Definition key_le (a b : string * Z) : bool :=
  if bool_decide (a.1 = b.1) then (a.2 <=? b.2)%Z else str_le a.1 b.1.
Definition paired_cluster_bootstrap_v3 (left_rows right_rows : trial_scores) (seed : string) (B : nat) : R interval :=
  let* lefts := indexed left_rows in
  let* rights := indexed right_rows in
  raise_if negb (forallb (λ k, bool_decide (k ∈ rights.*1)) lefts.*1 && forallb (λ k, bool_decide (k ∈ lefts.*1)) rights.*1)
    with_ RGovernance "metric v3 paired bootstrap arms are not aligned";;
  let* differences := rmapM (λ k,
    let* l := from_option_or (RPython "KeyError") (score_at lefts k) in
    let* r := from_option_or (RPython "KeyError") (score_at rights k) in
    Ok (k.1, dsub l r)) (sort_by key_le lefts.*1) in
  let clusters := clusters_of differences in
  raise_if negb (bool_decide (length clusters = 32%nat)) with_ RGovernance "metric v3 paired bootstrap requires 32 case clusters";;
  cluster_bootstrap seed clusters B.

(** ** The arms *)

(** A row of an arm: a trial with the score it earned *)
Record scored_row := {
  sr_baseline : string;
  sr_case_id : string;
  sr_repetition : Z;
  sr_family : string;
  sr_input_tokens : Z;
  sr_output_tokens : Z;
  sr_cost : double;
  sr_fallback_count : Z;
  sr_score : score;
}.
Definition METRICS : list (string * (score → double)) :=
  [("core_e2e", core_e2e); ("root_cause_top3", root_cause_top3); ("evidence_precision", evidence_precision);
   ("unsupported_critical_claim", unsupported_critical_claim)].

Record token_stats := { ts_max : Z; ts_p95 : Z; ts_total : Z }.
Definition sum_z (xs : list Z) : Z := foldl Z.add 0%Z xs.
(** [sorted(values)] and the statistics of them *)
Definition token_stats_of (values : list Z) : R token_stats :=
  match sort_by Z.leb values with
  | [] => Ok {| ts_max := 0; ts_p95 := 0; ts_total := 0 |}
  | (v :: _) as sorted =>
      let rank := (dceil (dmul (dec 95 2) (double_of_int (Z.of_nat (length sorted)))) - 1)%Z in
      let* p95 := from_option_or (RPython "IndexError") (sorted !! Z.to_nat (Z.max 0 rank)) in
      Ok {| ts_max := default v (last sorted); ts_p95 := p95; ts_total := sum_z sorted |}
  end.

Record arm_summary := {
  as_case_clusters : nat;
  as_trial_count : nat;
  as_metrics : list (string * interval);
  as_families : list (string * interval);
  as_failures : list (string * nat);
  as_budget_failure : bool;
  as_input : token_stats;
  as_output : token_stats;
  as_cost : double;
  as_fallback_count : Z;
}.

Definition metric_rows (metric : score → double) (rows : list scored_row) : list (string * double) :=
  (λ r, (sr_case_id r, metric (sr_score r))) <$> rows.
Definition aggregate_arm_v3 (rows : list scored_row) (dataset_digest baseline : string) : R arm_summary :=
  let* metrics := rmapM (λ m : string * (score → double),
    let* i := percentile_cluster_bootstrap_v3 (metric_rows m.2 rows)
                (dataset_digest +:+ ":" +:+ baseline +:+ ":" +:+ m.1) BOOTSTRAP_RESAMPLES in Ok (m.1, i)) METRICS in
  let families := sort_strings (remove_dups (sr_family <$> rows)) in
  let failures := omap (λ r, failure_class (sr_score r)) rows in
  let* by_family := rmapM (λ family,
    let* i := percentile_cluster_bootstrap_v3
                (metric_rows core_e2e (List.filter (λ r, bool_decide (sr_family r = family)) rows))
                (dataset_digest +:+ ":" +:+ baseline +:+ ":family:" +:+ family) BOOTSTRAP_RESAMPLES in
    Ok (family, i)) families in
  let* input_stats := token_stats_of (sr_input_tokens <$> rows) in
  let* output_stats := token_stats_of (sr_output_tokens <$> rows) in
  Ok {| as_case_clusters := length (remove_dups (sr_case_id <$> rows)); as_trial_count := length rows;
        as_metrics := metrics; as_families := by_family;
        as_failures := foldl (λ counts class, count_label class counts) [] (sort_strings failures);
        as_budget_failure := negb (bool_decide (rows = [])) &&
          bool_decide (length (List.filter (String.eqb "budget_exhausted") failures) = length rows);
        as_input := input_stats; as_output := output_stats; as_cost := double_sum (sr_cost <$> rows);
        as_fallback_count := sum_z (sr_fallback_count <$> rows) |}.
Definition core_interval (a : arm_summary) : R interval := table_at (as_metrics a) "core_e2e".
End Bootstrap.

(** ** The verdict *)

Definition point_nine : double := dec 9 1.

(** What the blockers are read from *)
Record evidence := {
  ev_estimates : list (string * double);   (* deterministic, no_rag, naive_react *)
  ev_core : list (string * interval);
  ev_budget_failures : list string;
  ev_trial_counts : list (string * nat);
  ev_repetitions : Z;
  ev_no_rag_difference : interval;
  ev_naive_react_difference : interval;
  ev_presence_passes : bool;
}.
(** [max(estimates, key=...)]: the first of the greatest *)
Definition best_of (estimates : list (string * double)) : string * double :=
  match estimates with
  | [] => ("", dzero)
  | e :: rest => foldl (λ best e, if dlt best.2 e.2 then e else best) e rest
  end.
Definition all_equal (xs : list double) : bool :=
  match xs with [] => false | x :: xs => forallb (deq x) xs end.
Definition excludes_zero (i : interval) : bool := dlt dzero (lower i) || dlt (upper i) dzero.
Definition significant (e : evidence) : bool :=
  excludes_zero (ev_no_rag_difference e) || excludes_zero (ev_naive_react_difference e).
Definition expected_count (e : evidence) (baseline : string) : Z :=
  if bool_decide (baseline = "deterministic") then 32 else (32 * ev_repetitions e)%Z.

Definition SIGNIFICANCE : string := "deterministic_live_significance_not_established".
Definition readiness_blockers (e : evidence) : list string :=
  (if dlt point_nine (best_of (ev_estimates e)).2 then ["best_baseline_above_0_90"] else []) ++
  (if all_equal (ev_estimates e).*2 then ["registered_baseline_point_estimates_exactly_equal"] else []) ++
  omap (λ bi : string * interval, if dle (upper bi.2) (lower bi.2) then Some ("zero_width_ci:" +:+ bi.1) else None) (ev_core e) ++
  (if significant e then [] else [SIGNIFICANCE]) ++
  ((λ b, "arm_wide_budget_failure:" +:+ b) <$> ev_budget_failures e) ++
  omap (λ bn : string * nat, if bool_decide (Z.of_nat bn.2 = expected_count e bn.1) then None
                             else Some ("incomplete_trial_count:" +:+ bn.1)) (ev_trial_counts e) ++
  (if ev_presence_passes e then [] else ["presence_probe_not_at_prior"]).
Definition estimate_of (e : evidence) (baseline : string) : double := default dzero (table_get (ev_estimates e) baseline).
Definition blocked_reason (e : evidence) : option string :=
  let blockers := readiness_blockers e in
  let incomplete := existsb (λ b, startswith b "incomplete_trial_count:" || startswith b "arm_wide_budget_failure:") blockers in
  if bool_decide (blockers = []) then None
  else if negb (ev_presence_passes e) then Some "leak_not_eliminated"
  else if incomplete || all_equal (ev_estimates e).*2 then Some "unclassified"
  else if dlt point_nine (estimate_of e "no_rag") then Some "dataset_too_easy"
  else if dlt point_nine (estimate_of e "deterministic") then Some "task_rule_solvable"
  else if bool_decide (blockers = [SIGNIFICANCE]) then Some "instrument_underpowered"
  else Some "unclassified".

(** [resolve_quality_floor] of [g02_baselines.py] for [core_e2e] *)
Definition core_quality_floor (best : double) : R double :=
  raise_if negb (dle dzero best && dle best one) with_ RGovernance "best baseline must be a probability";;
  Ok (dmax (dec 7 1) (dadd best (dec 1 1))).

Record reference := {
  rf_evidence : evidence;
  rf_baselines : list (string * arm_summary);
  rf_paired : list (string * interval);
  rf_single : arm_summary;
  rf_order : list string;
  rf_best : string * double;
  rf_comparison_floor : double;
  rf_global_floor : double;
  rf_scored : list (live_row * scored_row);
}.
Definition rf_repetitions (r : reference) : Z := ev_repetitions (rf_evidence r).
Definition rf_blockers (r : reference) : list string := readiness_blockers (rf_evidence r).
Definition rf_reason (r : reference) : option string := blocked_reason (rf_evidence r).
Definition rf_readiness (r : reference) : string := if bool_decide (rf_blockers r = []) then "ready" else "blocked".

Section Aggregate.
Context (schema_error : mapping → option (string * string)).
Context (randrange : string → nat → nat → nat).

(** [float(v)] of a cost *)
Definition float_of (v : val) : R double :=
  let* x := py (val_xfloat v) in from_option_or (RPython "OverflowError") (finite_double x).

(** One turn of the loop over the live trials *)
Definition score_row (cs : cases) (row : live_row) : R (live_row * scored_row) :=
  let case_id := val_str (lr_case_id row) in
  let* case := from_option_or (RGovernance "metric v3 live trial references an unknown case") (table_get cs case_id) in
  let* s := match lr_result row with
            | VDict result =>
                if bool_decide (lr_status row = "pass") then score_result_v3 schema_error result (sc_truth case)
                else if bool_decide (lr_status row = "scored_failure") then
                  Ok (failure_v3 (val_str (val_or (dget "reason" result) (VStr "trial produced a scored failure")))
                                 (val_str (val_or (dget "failure_class" result) (VStr "malformed"))))
                else Ok (failure_v3 "trial did not produce a scoreable result" "malformed")
            | _ => Ok (failure_v3 "trial did not produce a scoreable result" "malformed")
            end in
  let* repetition := py (val_int (lr_repetition row)) in
  let* input_tokens := py (val_int (lr_input_tokens row)) in
  let* output_tokens := py (val_int (lr_output_tokens row)) in
  let* cost := float_of (lr_cost_cny row) in
  let* fallback := py (val_int (lr_fallback_count row)) in
  Ok (row, {| sr_baseline := val_str (lr_baseline row); sr_case_id := case_id; sr_repetition := repetition;
              sr_family := sc_family case; sr_input_tokens := input_tokens; sr_output_tokens := output_tokens;
              sr_cost := cost; sr_fallback_count := fallback; sr_score := s |}).

Definition deterministic_scored (cs : cases) (row : deterministic_row) : R scored_row :=
  let* case := from_option_or (RPython "KeyError") (table_get cs (dr_case_id row)) in
  Ok {| sr_baseline := "deterministic"; sr_case_id := dr_case_id row; sr_repetition := 1; sr_family := sc_family case;
        sr_input_tokens := 0; sr_output_tokens := 0; sr_cost := dzero; sr_fallback_count := 0; sr_score := dr_score row |}.
Definition with_repetition (row : scored_row) (repetition : Z) : scored_row :=
  {| sr_baseline := sr_baseline row; sr_case_id := sr_case_id row; sr_repetition := repetition; sr_family := sr_family row;
     sr_input_tokens := sr_input_tokens row; sr_output_tokens := sr_output_tokens row; sr_cost := sr_cost row;
     sr_fallback_count := sr_fallback_count row; sr_score := sr_score row |}.

Definition of_arm (baseline : string) (rows : list scored_row) : list scored_row :=
  List.filter (λ r, String.eqb (sr_baseline r) baseline) rows.
Definition trial_scores_of (rows : list scored_row) : trial_scores :=
  (λ r, (sr_case_id r, sr_repetition r, core_e2e (sr_score r))) <$> rows.

Definition aggregate_reference_v3 (document : mapping) (deterministic : list deterministic_row) (live : live_matrix)
    (dataset_digest : string) : R reference :=
  let* cs := scenario_cases_v3 document in
  let* _ := validate_reference_live_v3 live in
  let repetitions := lm_repetitions live in
  let* scored := rmapM (score_row cs) (lm_trials live) in
  raise_if negb (bool_decide (length deterministic = 32%nat))
    with_ RGovernance "metric v3 deterministic matrix must contain 32 rows";;
  let* deterministic_rows := rmapM (deterministic_scored cs) deterministic in
  let no_rag := of_arm "no_rag" scored.*2 in
  let naive_react := of_arm "naive_react" scored.*2 in
  let single := of_arm "naive_react_single" scored.*2 in
  let* baselines := rmapM (λ arm : string * list scored_row,
    let* a := aggregate_arm_v3 randrange arm.2 dataset_digest arm.1 in Ok (arm.1, a))
    [("deterministic", deterministic_rows); ("no_rag", no_rag); ("naive_react", naive_react)] in
  let* core := rmapM (λ a : string * arm_summary, let* i := core_interval a.2 in Ok (a.1, i)) baselines in
  let estimates := (λ bi : string * interval, (bi.1, estimate bi.2)) <$> core in
  let repeated := row ← deterministic_rows; repetition ← repetitions_of repetitions; [with_repetition row repetition] in
  let paired l r name := paired_cluster_bootstrap_v3 randrange (trial_scores_of l) (trial_scores_of r)
    (dataset_digest +:+ ":" +:+ name +:+ ":r" +:+ int_repr repetitions) BOOTSTRAP_RESAMPLES in
  let* d1 := paired no_rag repeated "no_rag-deterministic" in
  let* d2 := paired naive_react repeated "naive_react-deterministic" in
  let* d3 := paired naive_react no_rag "naive_react-no_rag" in
  let* d4 := paired naive_react single "naive_react-single" in
  let* ablation := aggregate_arm_v3 randrange single dataset_digest "naive_react_single" in
  let* presence := presence_only_probe_v3 document in
  let e := {| ev_estimates := estimates; ev_core := core;
              ev_budget_failures := omap (λ a : string * arm_summary, if as_budget_failure a.2 then Some a.1 else None) baselines;
              ev_trial_counts := (λ a : string * arm_summary, (a.1, as_trial_count a.2)) <$> baselines;
              ev_repetitions := repetitions; ev_no_rag_difference := d1; ev_naive_react_difference := d2;
              ev_presence_passes := probe_passes presence |} in
  let best := best_of estimates in
  let* floor := core_quality_floor best.2 in
  Ok {| rf_evidence := e; rf_baselines := baselines;
        rf_paired := [("no_rag_minus_deterministic", d1); ("naive_react_minus_deterministic", d2);
                      ("naive_react_minus_no_rag", d3); ("naive_react_minus_single", d4)];
        rf_single := ablation; rf_order := (sort_by (λ a b : string * double, dle a.2 b.2) estimates).*1;
        rf_best := best; rf_comparison_floor := dadd best.2 (dec 5 2); rf_global_floor := floor; rf_scored := scored |}.
End Aggregate.

Definition should_extend_reference_v3 (r : reference) : bool :=
  bool_decide (rf_repetitions r = REFERENCE_REPETITIONS) && bool_decide (rf_readiness r = "blocked") &&
  bool_decide (rf_blockers r = [SIGNIFICANCE]).
