(* ===== verification/ReferenceTheorems.v ===== *)
(** * Theorems on the reference run

    A complete live matrix has one settled row for each cell; the bootstrap returns an
    interval between means of resamples; every answer of a model becomes a record; and the
    run is extended exactly when the verdict is an underpowered instrument. *)
From S2P Require Import Prelude Json JsonFacts Sha256 PyDyn PyFloat Packet Scoring Thresholds Reference.
From S2P Require Experiment.

(** ** The live matrix *)

Lemma nodup_bind {A B} (f : A → list B) (g : B → A) (xs : list A) :
  NoDup xs → (∀ x, NoDup (f x)) → (∀ x y, y ∈ f x → g y = x) → NoDup (x ← xs; f x).
Proof.
  intros Hnd Hf Hg. induction Hnd as [|x xs Hx _ IH]; cbn; [constructor|]. apply NoDup_app. split_and!; [apply Hf| |exact IH].
  intros y Hy (x' & Hy' & Hx')%list_elem_of_bind. apply Hg in Hy, Hy'. congruence.
Qed.
Definition seed_ids : list string := seed_case_id <$> seq 1 32.
Lemma seed_ids_nodup : NoDup seed_ids.
Proof. apply (bool_decide_unpack _). vm_compute. reflexivity. Qed.
Lemma repetitions_nodup n : NoDup (repetitions_of n).
Proof. apply (NoDup_fmap_2 _), NoDup_seq. Qed.
Definition grid (repetitions : Z) : list (string * Z) :=
  id ← seed_ids; repetition ← repetitions_of repetitions; [(id, repetition)].
Lemma grid_nodup repetitions : NoDup (grid repetitions).
Proof.
  apply (nodup_bind _ fst); [apply seed_ids_nodup| |].
  - intros id. apply (nodup_bind _ snd); [apply repetitions_nodup|intros ?; apply NoDup_singleton|].
    by intros r [i r'] [= -> ->]%list_elem_of_singleton.
  - intros id [i r] (r' & Hin & _)%list_elem_of_bind. by apply list_elem_of_singleton in Hin as [= -> _].
Qed.
Lemma expected_cells_grid repetitions :
  expected_cells repetitions = (b ← LIVE_ARMS; (λ k : string * Z, (b, k.1, k.2)) <$> grid repetitions).
Proof.
  unfold expected_cells, grid, seed_ids. apply list_bind_ext; [|done]. intros b.
  generalize (seq 1 32). intros ns. induction ns as [|n ns IH]; [done|]. cbn. rewrite fmap_app. f_equal; [|exact IH].
  generalize (repetitions_of repetitions). intros rs. induction rs as [|r rs IHr]; [done|]. cbn. by rewrite <-IHr.
Qed.
Lemma expected_cells_nodup repetitions : NoDup (expected_cells repetitions).
Proof.
  rewrite expected_cells_grid. apply (nodup_bind _ (λ c : cell, c.1.1)).
  - apply (bool_decide_unpack _). vm_compute. reflexivity.
  - intros b. apply (NoDup_fmap_2_strong _); [|apply grid_nodup]. intros [i r] [i' r'] _ _ [= -> ->]. done.
  - by intros b c (k & -> & _)%list_elem_of_fmap.
Qed.
Lemma expected_cells_length repetitions :
  repetitions ∈ [REFERENCE_REPETITIONS; MAX_REFERENCE_REPETITIONS] →
  Z.of_nat (length (expected_cells repetitions)) = (3 * 32 * repetitions)%Z.
Proof. rewrite !elem_of_cons, elem_of_nil. intros [->|[->|[]]]; vm_compute; reflexivity. Qed.

Lemma forallb_subset {A} `{EqDecision A} (xs ys : list A) :
  forallb (λ x, bool_decide (x ∈ ys)) xs = true → xs ⊆ ys.
Proof.
  rewrite forallb_forall. intros H x Hx. apply list_elem_of_In in Hx. specialize (H x Hx). by apply bool_decide_eq_true in H.
Qed.
Lemma existsb_none {A} (p : A → bool) xs : existsb (λ x, negb (p x)) xs = false → Forall (λ x, p x = true) xs.
Proof.
  intros H. apply Forall_forall. intros x Hx. destruct (p x) eqn:E; [done|]. exfalso.
  apply not_true_iff_false in H. apply H, existsb_exists. exists x. split; [by apply list_elem_of_In|by rewrite E].
Qed.

(** A live matrix that is accepted is complete: its rows are exactly one for each arm,
    case and repetition, all of them settled by a score and none answered by a fallback. *)
Lemma accepted_matrix m :
  validate_reference_live_v3 m = Ok tt →
  lm_repetitions m ∈ [REFERENCE_REPETITIONS; MAX_REFERENCE_REPETITIONS] ∧
  (∃ cells, rmapM row_cell (lm_trials m) = Ok cells ∧ cells ≡ₚ expected_cells (lm_repetitions m) ∧ NoDup cells) ∧
  Forall (λ row, lr_status row ∈ ["pass"; "scored_failure"] ∧ py_eq (lr_fallback_count row) (VInt 0) = true) (lm_trials m).
Proof.
  unfold validate_reference_live_v3. intros H.
  destruct (bool_decide (lm_repetitions m ∈ _)) eqn:Hr; [apply bool_decide_eq_true in Hr|discriminate H].
  destruct (bool_decide (Z.of_nat _ = _)) eqn:Hn; [apply bool_decide_eq_true in Hn|discriminate H].
  cbn [negb] in H. apply rbind_ok in H as (cells & Hcells & H).
  destruct (forallb _ cells && _) eqn:Hset; [apply andb_true_iff in Hset as [Hin Hall]|discriminate H]. cbn [negb] in H.
  destruct (existsb _ (lm_trials m)) eqn:Hst; [discriminate H|].
  destruct (existsb (λ r, negb (py_eq _ _)) (lm_trials m)) eqn:Hfb; [discriminate H|]. clear H.
  split; [exact Hr|]. split.
  - exists cells. split; [exact Hcells|].
    assert (cells ≡ₚ expected_cells (lm_repetitions m)) as Hp.
    { symmetry. apply submseteq_length_Permutation.
      - apply NoDup_submseteq; [apply expected_cells_nodup|]. by apply forallb_subset.
      - apply rmapM_length in Hcells. pose proof (expected_cells_length _ Hr). lia. }
    split; [exact Hp|]. rewrite Hp. apply expected_cells_nodup.
  - apply existsb_none in Hst, Hfb. apply Forall_forall. intros row Hrow. rewrite Forall_forall in Hst, Hfb.
    split; [apply (bool_decide_eq_true (lr_status row ∈ _)), Hst|apply Hfb]; done.
Qed.

Lemma matrix_cells m :
  validate_reference_live_v3 m = Ok tt →
  lm_repetitions m ∈ [REFERENCE_REPETITIONS; MAX_REFERENCE_REPETITIONS] ∧
  ∃ cells, rmapM row_cell (lm_trials m) = Ok cells ∧ cells ≡ₚ expected_cells (lm_repetitions m) ∧ NoDup cells.
Proof. intros (? & ? & _)%accepted_matrix. done. Qed.

(** ** Bootstraps *)

Lemma append_to_some key x groups : append_to key x groups ≠ [].
Proof. destruct groups as [|[k xs] gs]; [done|]. cbn. by case_bool_decide. Qed.
Lemma grouped_some (rows : list (string * double)) gs :
  gs ≠ [] → foldl (λ groups row, append_to row.1 row.2 groups) gs rows ≠ [].
Proof.
  revert gs. induction rows as [|row rows IH]; intros gs Hgs; cbn; [done|]. apply IH, append_to_some.
Qed.
Lemma clusters_nonempty rows : rows ≠ [] → clusters_of rows ≠ [].
Proof.
  intros Hne Hc. unfold clusters_of in Hc. apply fmap_nil_inv in Hc.
  assert (length (sort_keys (grouped rows)) = 0%nat) as Hl by by rewrite Hc.
  unfold sort_keys in Hl. rewrite sort_by_length in Hl. apply nil_length_inv in Hl.
  destruct rows as [|[k x] rows]; [done|]. revert Hl. unfold grouped. cbn [foldl]. apply grouped_some, append_to_some.
Qed.

Definition in_range (randrange : string → nat → nat → nat) : Prop := ∀ seed n k, (0 < n → randrange seed n k < n)%nat.

(** A mean over clusters drawn with replacement *)
Definition resample_mean (clusters : list (list double)) (x : double) : Prop :=
  ∃ picked, length picked = length clusters ∧ Forall (λ c, c ∈ clusters) picked ∧ x = mean_of_means picked.

Lemma rmapM_all {E A B} (f : A → result E B) (P : B → Prop) xs :
  (∀ x, x ∈ xs → ∃ y, f x = Ok y ∧ P y) → ∃ ys, rmapM f xs = Ok ys ∧ Forall P ys ∧ length ys = length xs.
Proof.
  induction xs as [|x xs IH]; intros Hf; [by exists []|]. destruct (Hf x) as (y & Hy & HPy); [left|].
  destruct IH as (ys & Hys & HP & Hlen); [intros z Hz; apply Hf; by right|].
  exists (y :: ys). cbn. rewrite Hy. cbn. rewrite Hys. cbn. split_and!; [done|by constructor|lia].
Qed.

Lemma resample_total randrange seed clusters b : in_range randrange → clusters ≠ [] →
  ∃ picked, resample randrange seed clusters b = Ok picked ∧ resample_mean clusters (mean_of_means picked).
Proof.
  intros Hr Hne. unfold resample. cbv zeta.
  destruct (rmapM_all (λ i, from_option_or (RPython "IndexError")
    (clusters !! randrange seed (length clusters) (b * length clusters + i)%nat)) (λ c, c ∈ clusters) (seq 0 (length clusters)))
    as (picked & Hp & Hin & Hlen).
  { intros i _. destruct (lookup_lt_is_Some_2 clusters (randrange seed (length clusters) (b * length clusters + i)%nat)) as [c Hc].
    - apply Hr. destruct clusters; [done|cbn; lia].
    - exists c. rewrite Hc. split; [done|]. by eapply list_elem_of_lookup_2. }
  exists picked. split; [exact Hp|]. exists picked. rewrite length_seq in Hlen. by split_and!.
Qed.

Lemma sorted_lookup (xs : list double) i j x y :
  StronglySorted (λ x y, dle x y = true) xs → xs !! i = Some x → xs !! j = Some y → (i ≤ j)%nat → dle x y = true.
Proof.
  intros Hs. revert i j. induction Hs as [|z zs _ IH Hz]; intros i j Hi Hj Hle; [by rewrite lookup_nil in Hi|].
  destruct i as [|i], j as [|j]; cbn in *; try lia.
  - injection Hi as ->. injection Hj as ->. apply dle_refl.
  - injection Hi as ->. rewrite Forall_forall in Hz. apply Hz. by eapply list_elem_of_lookup_2.
  - eapply IH; [done..|lia].
Qed.

Lemma cluster_bootstrap_total randrange seed clusters : in_range randrange → clusters ≠ [] →
  ∃ i, cluster_bootstrap randrange seed clusters BOOTSTRAP_RESAMPLES = Ok i ∧ dle (lower i) (upper i) = true ∧
    resample_mean clusters (lower i) ∧ resample_mean clusters (upper i) ∧ estimate i = mean_of_means clusters.
Proof.
  intros Hr Hne. unfold cluster_bootstrap.
  destruct (rmapM_all (λ b, let* picked := resample randrange seed clusters b in Ok (mean_of_means picked))
    (resample_mean clusters) (seq 0 BOOTSTRAP_RESAMPLES)) as (samples & Hs & Hall & Hlen).
  { intros b _. destruct (resample_total randrange seed clusters b Hr Hne) as (picked & -> & Hp). by eexists. }
  cbv zeta in Hs. rewrite Hs. cbn [rbind]. rewrite length_seq in Hlen. clear Hs.
  change (Z.to_nat (Z.max 0 _)) with 49%nat. change (Z.to_nat (Z.min _ _)) with 1950%nat.
  rewrite <-(sort_by_length dle) in Hlen.
  destruct (lookup_lt_is_Some_2 (sort_by dle samples) 49) as [x Hx]; [rewrite Hlen; unfold BOOTSTRAP_RESAMPLES; lia|].
  destruct (lookup_lt_is_Some_2 (sort_by dle samples) 1950) as [y Hy]; [rewrite Hlen; unfold BOOTSTRAP_RESAMPLES; lia|].
  rewrite Hx, Hy. eexists. split; [reflexivity|]. cbn [lower upper estimate].
  rewrite <-(sort_by_perm dle samples), Forall_forall in Hall. split_and!; [| | |done].
  - eapply sorted_lookup; [|exact Hx|exact Hy|lia]. apply sort_by_sorted; [apply dle_total|apply dle_trans].
  - apply Hall. by eapply list_elem_of_lookup_2.
  - apply Hall. by eapply list_elem_of_lookup_2.
Qed.

(** With two thousand resamples and draws in range, the bootstrap of any rows returns an
    interval: its bounds are means over clusters drawn with replacement, the lower is at most
    the upper, and its estimate is the mean over the clusters themselves. *)
Theorem bootstrap_returns_interval randrange rows seed :
  in_range randrange → rows ≠ [] →
  ∃ i, percentile_cluster_bootstrap_v3 randrange rows seed BOOTSTRAP_RESAMPLES = Ok i ∧
    dle (lower i) (upper i) = true ∧ resample_mean (clusters_of rows) (lower i) ∧
    resample_mean (clusters_of rows) (upper i) ∧ estimate i = mean_of_means (clusters_of rows).
Proof.
  intros Hr Hne. unfold percentile_cluster_bootstrap_v3. rewrite bool_decide_eq_false_2 by done.
  apply cluster_bootstrap_total; [done|by apply clusters_nonempty].
Qed.

(** ** The arms line up *)

Definition sr_cell (r : scored_row) : cell := (sr_baseline r, sr_case_id r, sr_repetition r).

Lemma score_row_cell schema_error cs row r s : score_row schema_error cs row = Ok (r, s) → row_cell row = Ok (sr_cell s).
Proof.
  unfold score_row, row_cell, sr_cell. intros H. apply rbind_ok in H as (case & _ & H). apply rbind_ok in H as (sc & _ & H).
  apply rbind_ok in H as (rep & -> & H). do 4 (apply rbind_ok in H as (? & _ & H)). injection H as <- <-. done.
Qed.
Lemma scored_cells schema_error cs rows scored :
  rmapM (score_row schema_error cs) rows = Ok scored → rmapM row_cell rows = Ok (sr_cell <$> scored.*2).
Proof.
  intros H%rmapM_ok. apply rmapM_ok. induction H as [|row [r s] rows scored Hrow _ IH]; [constructor|].
  cbn. constructor; [by eapply score_row_cell|done].
Qed.
Lemma arm_keys baseline rows :
  (trial_scores_of (of_arm baseline rows)).*1 =
  (λ c : cell, (c.1.2, c.2)) <$> filter (λ c : cell, c.1.1 = baseline) (sr_cell <$> rows).
Proof.
  unfold trial_scores_of, of_arm. induction rows as [|r rows IH]; [done|]. cbn [List.filter fmap list_fmap].
  rewrite filter_cons. cbn [sr_cell fst snd]. destruct (String.eqb_spec (sr_baseline r) baseline) as [->|Hne].
  - rewrite decide_True by done. cbn [fmap list_fmap fst snd]. by rewrite <-IH.
  - by rewrite decide_False by done.
Qed.
Lemma grid_of_arm baseline repetitions :
  baseline ∈ LIVE_ARMS → repetitions ∈ [REFERENCE_REPETITIONS; MAX_REFERENCE_REPETITIONS] →
  (λ c : cell, (c.1.2, c.2)) <$> filter (λ c : cell, c.1.1 = baseline) (expected_cells repetitions) = grid repetitions.
Proof.
  unfold LIVE_ARMS. intros Hb Hr. rewrite !elem_of_cons, elem_of_nil in Hb. rewrite !elem_of_cons, elem_of_nil in Hr.
  destruct Hb as [->|[->|[->|[]]]], Hr as [->|[->|[]]]; vm_compute; reflexivity.
Qed.

Lemma accepted_arm_keys schema_error cs m scored baseline :
  validate_reference_live_v3 m = Ok tt → rmapM (score_row schema_error cs) (lm_trials m) = Ok scored →
  baseline ∈ LIVE_ARMS →
  (trial_scores_of (of_arm baseline scored.*2)).*1 ≡ₚ grid (lm_repetitions m) ∧
  lm_repetitions m ∈ [REFERENCE_REPETITIONS; MAX_REFERENCE_REPETITIONS].
Proof.
  intros Hm Hs Hb. apply matrix_cells in Hm as (Hr & cells & Hcells & Hp & _).
  apply scored_cells in Hs. rewrite Hcells in Hs. injection Hs as ->. split; [|done].
  rewrite arm_keys, Hp. by rewrite grid_of_arm.
Qed.

(** ** Groups by case *)

Lemma append_to_keys key x groups :
  (append_to key x groups).*1 = if bool_decide (key ∈ groups.*1) then groups.*1 else groups.*1 ++ [key].
Proof.
  induction groups as [|[k xs] gs IH]; [done|]. cbn [append_to fmap list_fmap fst].
  destruct (decide (k = key)) as [->|Hne].
  - rewrite bool_decide_eq_true_2 by done. cbn. by rewrite bool_decide_eq_true_2 by left.
  - rewrite bool_decide_eq_false_2 by done. cbn [fmap list_fmap fst]. rewrite IH.
    case_bool_decide as Hin.
    + by rewrite bool_decide_eq_true_2 by by right.
    + rewrite bool_decide_eq_false_2; [done|]. by intros [?|?]%elem_of_cons.
Qed.
Lemma grouped_keys_from (rows : list (string * double)) gs : NoDup gs.*1 →
  let keys := (foldl (λ groups row, append_to row.1 row.2 groups) gs rows).*1 in
  NoDup keys ∧ ∀ k, k ∈ keys ↔ k ∈ gs.*1 ∨ k ∈ rows.*1.
Proof.
  revert gs. induction rows as [|[k x] rows IH]; intros gs Hnd; cbn [foldl fmap list_fmap fst snd].
  { split; [done|]. intros k. split; [auto|]. by intros [?|?%elem_of_nil]. }
  destruct (IH (append_to k x gs)) as [Hnd' Hk].
  - rewrite append_to_keys. case_bool_decide as Hin; [done|]. apply NoDup_app. split_and!; [done| |by apply NoDup_singleton].
    by intros k' Hk' ->%list_elem_of_singleton.
  - split; [exact Hnd'|]. intros k'. rewrite Hk, append_to_keys, elem_of_cons. case_bool_decide as Hin.
    + split; [tauto|]. intros [?|[->|?]]; auto.
    + rewrite elem_of_app, list_elem_of_singleton. tauto.
Qed.
Lemma clusters_length (rows : list (string * double)) (ids : list string) :
  NoDup ids → (∀ k, k ∈ rows.*1 ↔ k ∈ ids) → length (clusters_of rows) = length ids.
Proof.
  intros Hnd Hids. unfold clusters_of. rewrite length_fmap. unfold sort_keys. rewrite sort_by_length.
  destruct (grouped_keys_from rows []) as [Hnd' Hk]; [constructor|]. cbv zeta in *. fold (grouped rows) in *.
  rewrite <-(length_fmap fst). apply Permutation_length, NoDup_Permutation; [done..|].
  intros k. rewrite Hk, Hids. split; [by intros [?%elem_of_nil|?]|auto].
Qed.

Lemma grid_facts repetitions : repetitions ∈ [REFERENCE_REPETITIONS; MAX_REFERENCE_REPETITIONS] →
  Z.of_nat (length (grid repetitions)) = (32 * repetitions)%Z ∧ (∀ k, k ∈ (grid repetitions).*1 ↔ k ∈ seed_ids).
Proof.
  intros Hr. rewrite !elem_of_cons, elem_of_nil in Hr. split; [by destruct Hr as [->|[->|[]]]; vm_compute|].
  intros k. unfold grid. rewrite list_elem_of_fmap. split.
  - intros ([i r] & -> & (i' & (r' & Hin & _)%list_elem_of_bind & Hi)%list_elem_of_bind).
    apply list_elem_of_singleton in Hin as [= -> ->]. done.
  - intros Hk. exists (k, 1%Z). split; [done|]. apply list_elem_of_bind. exists k. split; [|done].
    apply list_elem_of_bind. exists 1%Z. split; [by left|]. destruct Hr as [->|[->|[]]]; by left.
Qed.

Lemma score_at_some rows key : key ∈ rows.*1 → ∃ x, score_at rows key = Some x.
Proof.
  induction rows as [|[k x] rows IH]; cbn; [by intros ?%elem_of_nil|]. case_bool_decide as Hk; [eauto|].
  intros [?|?]%elem_of_cons; [by subst|auto].
Qed.
Lemma incl_forallb {A} `{EqDecision A} (xs ys : list A) : xs ⊆ ys → forallb (λ x, bool_decide (x ∈ ys)) xs = true.
Proof. intros H. apply forallb_forall. intros x Hx%list_elem_of_In. by apply bool_decide_eq_true_2, H. Qed.

Lemma paired_total randrange (l r : trial_scores) repetitions seed :
  in_range randrange → repetitions ∈ [REFERENCE_REPETITIONS; MAX_REFERENCE_REPETITIONS] →
  l.*1 ≡ₚ grid repetitions → r.*1 ≡ₚ grid repetitions →
  ∃ i, paired_cluster_bootstrap_v3 randrange l r seed BOOTSTRAP_RESAMPLES = Ok i ∧ dle (lower i) (upper i) = true.
Proof.
  intros Hrange Hr Hl Hrt. destruct (grid_facts _ Hr) as [_ Hcases]. pose proof (grid_nodup repetitions) as Hnd.
  unfold paired_cluster_bootstrap_v3, indexed.
  rewrite !bool_decide_eq_true_2 by (rewrite ?Hl, ?Hrt; done). cbn [negb rbind].
  assert (l.*1 ⊆ r.*1 ∧ r.*1 ⊆ l.*1) as [Hlr Hrl] by (split; intros k; rewrite Hl, Hrt; done).
  rewrite !incl_forallb by done. cbn [negb andb].
  destruct (rmapM_all (λ k : string * Z, let* x := from_option_or (RPython "KeyError") (score_at l k) in
    let* y := from_option_or (RPython "KeyError") (score_at r k) in Ok (E:=readiness_exn) (k.1, dsub x y))
    (λ _, True) (sort_by key_le l.*1)) as (differences & Hd & _ & _).
  { intros k Hk. rewrite sort_by_perm in Hk. destruct (score_at_some l k Hk) as [x ->].
    destruct (score_at_some r k) as [y ->]; [by apply Hlr|]. by eexists. }
  rewrite Hd. cbn [rbind].
  assert (differences.*1 = (sort_by key_le l.*1).*1) as Hkeys.
  { apply rmapM_ok in Hd. induction Hd as [|k d ks ds Hkd _ IH]; [done|]. cbn. f_equal; [|exact IH].
    apply rbind_ok in Hkd as (x & _ & Hkd). apply rbind_ok in Hkd as (y & _ & Hkd). by injection Hkd as <-. }
  assert (∀ k, k ∈ differences.*1 ↔ k ∈ seed_ids) as Hdiff.
  { intros k. rewrite <-Hcases, Hkeys. rewrite (sort_by_perm key_le l.*1), Hl. done. }
  assert (length (clusters_of differences) = 32%nat) as H32 by by rewrite (clusters_length _ seed_ids seed_ids_nodup).
  rewrite bool_decide_eq_true_2 by done. cbn [negb].
  destruct (cluster_bootstrap_total randrange seed (clusters_of differences)) as (i & Hi & Hle & _); [done| |by exists i].
  intros Hnil. by rewrite Hnil in H32.
Qed.

(** C23: On an accepted live matrix every two arms compare: each has one score for every
    case and repetition, and the paired bootstrap of their differences returns an interval. *)
Theorem accepted_arms_compare schema_error randrange cs m scored a b seed :
  in_range randrange → validate_reference_live_v3 m = Ok tt →
  rmapM (score_row schema_error cs) (lm_trials m) = Ok scored → a ∈ LIVE_ARMS → b ∈ LIVE_ARMS →
  Z.of_nat (length (of_arm a scored.*2)) = (32 * lm_repetitions m)%Z ∧
  (trial_scores_of (of_arm a scored.*2)).*1 ≡ₚ grid (lm_repetitions m) ∧
  ∃ i, paired_cluster_bootstrap_v3 randrange (trial_scores_of (of_arm a scored.*2)) (trial_scores_of (of_arm b scored.*2))
         seed BOOTSTRAP_RESAMPLES = Ok i ∧ dle (lower i) (upper i) = true.
Proof.
  intros Hrange Hm Hs Ha Hb. destruct (accepted_arm_keys _ _ _ _ _ Hm Hs Ha) as [Hka Hr].
  destruct (accepted_arm_keys _ _ _ _ _ Hm Hs Hb) as [Hkb _]. split_and!; [|done|by eapply paired_total].
  destruct (grid_facts _ Hr) as [<- _]. rewrite <-Hka. unfold trial_scores_of. by rewrite !length_fmap.
Qed.

(** ** The verdict *)

Lemma best_of_greatest estimates e : e ∈ estimates → dle e.2 (best_of estimates).2 = true.
Proof.
  assert (∀ rest best, dle best.2 (foldl (λ best e : string * double, if dlt best.2 e.2 then e else best) best rest).2 = true ∧
    ∀ e, e ∈ rest → dle e.2 (foldl (λ best e : string * double, if dlt best.2 e.2 then e else best) best rest).2 = true) as Hfold.
  { induction rest as [|x rest IH]; intros best; cbn [foldl]; [split; [apply dle_refl|by intros ? ?%elem_of_nil]|].
    destruct (dlt best.2 x.2) eqn:E.
    - destruct (IH x) as [Hx Hrest]. split.
      + eapply dle_trans; [|exact Hx]. unfold dlt in E. destruct (dle_total best.2 x.2) as [?|H]; [done|by rewrite H in E].
      + intros y [->|?]%elem_of_cons; [done|auto].
    - destruct (IH best) as [Hb Hrest]. apply dlt_false in E. split; [done|].
      intros y [->|?]%elem_of_cons; [by eapply dle_trans|auto]. }
  destruct estimates as [|x rest]; [by intros ?%elem_of_nil|]. cbn [best_of]. destruct (Hfold rest x) as [Hx Hrest].
  intros [->|?]%elem_of_cons; [done|auto].
Qed.
Lemma table_get_in {A} (t : list (string * A)) key x : table_get t key = Some x → (key, x) ∈ t.
Proof.
  induction t as [|[k y] t IH]; cbn; [done|]. case_bool_decide; [intros [= ->]; subst; left|intros; right; auto].
Qed.
Lemma estimate_below_best e baseline :
  dlt point_nine (best_of (ev_estimates e)).2 = false → dlt point_nine (estimate_of e baseline) = false.
Proof.
  rewrite !dlt_false. intros Hbest. unfold estimate_of. destruct (table_get (ev_estimates e) baseline) as [x|] eqn:E.
  - apply table_get_in, best_of_greatest in E. cbn in *. by eapply dle_trans.
  - vm_compute. reflexivity.
Qed.

Lemma underpowered_blockers e :
  blocked_reason e = Some "instrument_underpowered" → readiness_blockers e = [SIGNIFICANCE].
Proof.
  unfold blocked_reason. cbv zeta. generalize (readiness_blockers e). intros blockers H.
  destruct (bool_decide (blockers = [])); [discriminate H|]. destruct (negb (ev_presence_passes e)); [discriminate H|].
  destruct (existsb _ _ || _); [discriminate H|]. destruct (dlt _ (estimate_of e "no_rag")); [discriminate H|].
  destruct (dlt _ (estimate_of e "deterministic")); [discriminate H|].
  destruct (bool_decide (blockers = [SIGNIFICANCE])) eqn:E; [by apply bool_decide_eq_true in E|discriminate H].
Qed.
Lemma no_reason_ready e : blocked_reason e = None ↔ readiness_blockers e = [].
Proof.
  unfold blocked_reason. cbv zeta. generalize (readiness_blockers e). intros blockers.
  destruct (bool_decide (blockers = [])) eqn:E; [apply bool_decide_eq_true in E; done|apply bool_decide_eq_false in E].
  split; [|done]. intros H. exfalso. clear E. destruct (negb (ev_presence_passes e)); [discriminate H|].
  destruct (existsb _ _ || _); [discriminate H|]. destruct (dlt _ (estimate_of e "no_rag")); [discriminate H|].
  destruct (dlt _ (estimate_of e "deterministic")); [discriminate H|].
  destruct (bool_decide (blockers = [SIGNIFICANCE])); discriminate H.
Qed.

(** The reference run is extended to more repetitions exactly when it ran the first
    three and its verdict names an underpowered instrument; and it is ready exactly when the
    verdict names no reason. *)
Theorem extension_iff_underpowered r :
  (should_extend_reference_v3 r = true ↔
     rf_repetitions r = REFERENCE_REPETITIONS ∧ rf_reason r = Some "instrument_underpowered") ∧
  (rf_readiness r = "ready" ↔ rf_reason r = None).
Proof.
  unfold should_extend_reference_v3, rf_readiness, rf_reason. set (e := rf_evidence r). split.
  - rewrite !andb_true_iff, !bool_decide_eq_true. split.
    + intros [[Hr _] Hs]. split; [exact Hr|]. unfold rf_blockers in Hs. fold e in Hs. unfold blocked_reason. cbv zeta.
      assert (∀ x, x ∈ readiness_blockers e → x = SIGNIFICANCE) as Honly
        by (rewrite Hs; intros x Hx; by apply list_elem_of_singleton in Hx).
      assert (ev_presence_passes e = true) as Hp.
      { destruct (ev_presence_passes e) eqn:E; [done|]. specialize (Honly "presence_probe_not_at_prior").
        discriminate Honly. unfold readiness_blockers. rewrite E, !elem_of_app. do 6 right. by left. }
      assert (all_equal (ev_estimates e).*2 = false) as Heq.
      { destruct (all_equal _) eqn:E; [|done]. specialize (Honly "registered_baseline_point_estimates_exactly_equal").
        discriminate Honly. unfold readiness_blockers. rewrite E, !elem_of_app. right. left. by left. }
      assert (dlt point_nine (best_of (ev_estimates e)).2 = false) as Hbest.
      { destruct (dlt point_nine _) eqn:E; [|done]. specialize (Honly "best_baseline_above_0_90").
        discriminate Honly. unfold readiness_blockers. rewrite E, !elem_of_app. left. by left. }
      rewrite Hs, Hp, Heq, !(estimate_below_best e _ Hbest). reflexivity.
    + intros [Hr Hreason%underpowered_blockers]. unfold rf_blockers. fold e. rewrite Hreason.
      split; [split; [exact Hr|reflexivity]|reflexivity].
  - unfold rf_blockers. fold e. rewrite no_reason_ready. generalize (readiness_blockers e). intros blockers.
    case_bool_decide as Hb; split; [intros _; exact Hb|intros _; reflexivity|intros [=]|intros H; by destruct Hb].
Qed.

(** ** Witnesses *)

Definition first_pick (_ : string) (_ _ : nat) : nat := 0%nat.
Lemma first_pick_in_range : in_range first_pick.
Proof. intros seed n k Hn. exact Hn. Qed.

Lemma bootstrap_returns_interval_witness : ∃ i,
  percentile_cluster_bootstrap_v3 first_pick [("SEED-A", one); ("SEED-B", dzero); ("SEED-A", dzero)] "seed" BOOTSTRAP_RESAMPLES = Ok i ∧
  dle (lower i) (upper i) = true ∧ estimate i = mean_of_means [[one; dzero]; [dzero]].
Proof.
  destruct (bootstrap_returns_interval first_pick [("SEED-A", one); ("SEED-B", dzero); ("SEED-A", dzero)] "seed"
    first_pick_in_range) as (i & Hi & Hle & _ & _ & He); [discriminate|].
  exists i. split; [exact Hi|]. split; [exact Hle|exact He].
Defined.

Lemma complete_matrix m :
  lm_repetitions m ∈ [REFERENCE_REPETITIONS; MAX_REFERENCE_REPETITIONS] →
  rmapM row_cell (lm_trials m) = Ok (expected_cells (lm_repetitions m)) →
  existsb (λ r, negb (bool_decide (lr_status r ∈ ["pass"; "scored_failure"]))) (lm_trials m) = false →
  existsb (λ r, negb (py_eq (lr_fallback_count r) (VInt 0))) (lm_trials m) = false →
  (∀ b, b ∈ LIVE_ARMS → Z.of_nat (count_arm (lm_trials m) b) = (32 * lm_repetitions m)%Z) →
  validate_reference_live_v3 m = Ok tt.
Proof.
  intros Hr Hcells Hst Hfb Harms. unfold validate_reference_live_v3. rewrite (bool_decide_eq_true_2 _ Hr). cbn [negb].
  pose proof (rmapM_length _ _ _ Hcells) as Hlen. rewrite (bool_decide_eq_true_2 (_ = _)%Z)
    by (rewrite <-Hlen; by apply expected_cells_length).
  cbn [negb]. rewrite Hcells. cbn [rbind]. rewrite !incl_forallb by done. cbn [andb negb]. rewrite Hst, Hfb.
  destruct (existsb _ LIVE_ARMS) eqn:E; [|done]. apply existsb_exists in E as (b & Hb%list_elem_of_In & Hn).
  rewrite (bool_decide_eq_true_2 _ (Harms b Hb)) in Hn. done.
Qed.

(** A matrix whose answers were all malformed *)
Module DemoMatrix.
Definition row (c : cell) : live_row :=
  {| lr_trial_id := c.1.2; lr_baseline := VStr c.1.1; lr_case_id := VStr c.1.2; lr_repetition := VInt c.2;
     lr_status := "scored_failure"; lr_fallback_count := VInt 0; lr_input_tokens := VInt 10; lr_output_tokens := VInt 2;
     lr_cost_cny := VFloat "0.0"; lr_failure_class := VStr "malformed"; lr_telemetry := VDict []; lr_result := VDict [] |}.
Definition matrix : live_matrix :=
  {| lm_status := "pass"; lm_dataset_digest := "demo"; lm_repetitions := 3; lm_trials := row <$> expected_cells 3 |}.
Definition case : scenario_case :=
  {| sc_packet := []; sc_truth := {| gt_case_id := ""; gt_root_cause := ""; required_evidence := []; distractor_evidence := [];
                                     required_kinds := []; distractor_kinds := [] |};
     sc_family := "demo"; nonzero_distractor_kinds := [] |}.
Definition table : cases := (λ id, (id, case)) <$> seed_ids.

Lemma row_cells cells : rmapM row_cell (row <$> cells) = Ok cells.
Proof. induction cells as [|[[b i] r] cells IH]; [done|]. cbn [fmap list_fmap rmapM]. by rewrite IH. Qed.
Lemma no_row (p : live_row → bool) cells : (∀ c, p (row c) = false) → existsb p (row <$> cells) = false.
Proof. intros Hp. induction cells as [|c cells IH]; [done|]. cbn [fmap list_fmap existsb]. by rewrite Hp. Qed.
Lemma arm_counts cells b : count_arm (row <$> cells) b = length (List.filter (λ c : cell, bool_decide (c.1.1 = b)) cells).
Proof.
  unfold count_arm. induction cells as [|[[b' i] n] cells IH]; [done|]. cbn [fmap list_fmap List.filter row lr_baseline val_str fst snd].
  case_bool_decide; cbn [length]; by rewrite IH.
Qed.
Lemma arm_sizes : existsb (λ b, negb (bool_decide (Z.of_nat (length (List.filter (λ c : cell, bool_decide (c.1.1 = b))
  (expected_cells 3))) = 32 * 3)%Z)) LIVE_ARMS = false.
Proof. vm_compute. reflexivity. Qed.
Lemma valid : validate_reference_live_v3 matrix = Ok tt.
Proof.
  apply complete_matrix; [left|apply row_cells|apply no_row; intros c; reflexivity|apply no_row; intros c; reflexivity|].
  intros b Hb. unfold matrix. cbn [lm_trials lm_repetitions]. rewrite arm_counts.
  pose proof (existsb_none _ _ arm_sizes) as Hall. rewrite Forall_forall in Hall. specialize (Hall b Hb).
  exact (proj1 (bool_decide_eq_true _) Hall).
Qed.
Lemma scored : ∃ rows, rmapM (score_row (λ _, None) table) (lm_trials matrix) = Ok rows.
Proof.
  destruct (rmapM_all (score_row (λ _, None) table) (λ _, True) (lm_trials matrix)) as (rows & Hrows & _); [|by exists rows].
  unfold matrix. cbn [lm_trials]. intros r ([[b i] n] & -> & Hin)%list_elem_of_fmap.
  rewrite expected_cells_grid in Hin. apply list_elem_of_bind in Hin as (b' & Hin & _).
  apply list_elem_of_fmap in Hin as ([i' n'] & [= -> -> ->] & Hin). cbn [fst snd].
  assert (i' ∈ seed_ids) as Hi.
  { apply (grid_facts 3); [left|]. apply list_elem_of_fmap. by exists (i', n'). }
  assert (∃ c, table_get table i' = Some c) as [c Hc].
  { unfold table. revert Hi. generalize seed_ids. intros ids. induction ids as [|x ids IH]; [by intros ?%elem_of_nil|].
    cbn [fmap list_fmap table_get]. case_bool_decide as Hx; [intros _; by eexists|]. intros [?|?]%elem_of_cons; [by subst|auto]. }
  unfold score_row. cbn [row lr_case_id val_str fst snd]. rewrite Hc. eexists. split; [reflexivity|done].
Qed.
End DemoMatrix.

Lemma accepted_arms_compare_witness : ∃ scored i,
  rmapM (score_row (λ _, None) DemoMatrix.table) (lm_trials DemoMatrix.matrix) = Ok scored ∧
  paired_cluster_bootstrap_v3 first_pick (trial_scores_of (of_arm "naive_react" scored.*2))
    (trial_scores_of (of_arm "no_rag" scored.*2)) "seed" BOOTSTRAP_RESAMPLES = Ok i.
Proof.
  destruct DemoMatrix.scored as [scored Hs].
  destruct (accepted_arms_compare (λ _, None) first_pick DemoMatrix.table DemoMatrix.matrix scored "naive_react" "no_rag" "seed"
    first_pick_in_range DemoMatrix.valid Hs) as (_ & _ & i & Hi & _).
  - left.
  - right. right. left.
  - exists scored, i. split; [exact Hs|exact Hi].
Defined.

(** ** Trials *)

Lemma trial_payload_total spec result i o telemetry t :
  (0 ≤ i)%Z → (0 ≤ o)%Z → (∀ v, telemetry = Some v → json_copy v = Ok t) →
  ∃ payload, trial_payload spec result i o telemetry = Ok payload ∧
    dget "case_id" payload = dget "case_id" (ts_packet spec) ∧ dget "baseline" payload = VStr (ts_baseline spec) ∧
    dget "repetition" payload = VInt (ts_repetition spec) ∧
    dget "result" payload = match result with inl fields => sdict fields | inr d => VDict d end.
Proof.
  intros Hi Ho Ht. unfold trial_payload, token_cost.
  rewrite (proj2 (Z.ltb_ge i 0)), (proj2 (Z.ltb_ge o 0)) by done. cbn [orb rbind].
  destruct telemetry as [v|]; [rewrite (Ht v eq_refl)|]; cbn [rbind]; (eexists; split; [reflexivity|by split_and!]).
Qed.

(** Every answer of a model becomes a record of its cell.  An answer that passes the
    schema is kept as it is; any other is scored as malformed, with the reason, as long as
    its token counts are non-negative integers. *)
Theorem answers_become_records schema_error spec d i o t :
  let result := Experiment.drop_key "_trial_telemetry" d in
  tokens_of result "input_tokens" = Ok i → tokens_of result "output_tokens" = Ok o → (0 ≤ i)%Z → (0 ≤ o)%Z →
  json_copy (default (VDict []) (dfind "_trial_telemetry" d)) = Ok t →
  ∃ payload, execute_trial schema_error spec (Answered d) = Ok payload ∧
    dget "case_id" payload = dget "case_id" (ts_packet spec) ∧ dget "baseline" payload = VStr (ts_baseline spec) ∧
    dget "repetition" payload = VInt (ts_repetition spec) ∧
    match validate_result_v3 schema_error result with
    | Ok _ => dget "result" payload = VDict result
    | Err e => result_get (dget "result" payload) "status" VNone = VStr "scored_failure" ∧
               result_get (dget "result" payload) "failure_class" VNone = VStr "malformed" ∧
               result_get (dget "result" payload) "reason" VNone = VStr (exn_text e)
    end.
Proof.
  intros result Hi Ho Hi0 Ho0 Ht. unfold execute_trial. fold result. unfold answered_payload.
  destruct (validate_result_v3 schema_error result) as [u|e] eqn:E; cbn [rbind].
  - rewrite Hi, Ho. cbn [rbind].
    destruct (trial_payload_total spec (inr result) i o (Some (default (VDict []) (dfind "_trial_telemetry" d))) t)
      as (payload & -> & Hc & Hb & Hr & Hres); [done..|by intros v [= <-]|]. exists payload. by split_and!.
  - assert (is_governance e = true) as ->.
    { unfold validate_result_v3 in E. destruct (schema_error result) as [[l m]|]; [|discriminate E]. by injection E as <-. }
    unfold malformed_payload. change (default [] (Some result)) with result. cbv zeta.
    assert (∃ i' o', (0 ≤ i')%Z ∧ (0 ≤ o')%Z ∧ match result with [] => Ok 0%Z | _ => tokens_of result "input_tokens" end = Ok i' ∧
      match result with [] => Ok 0%Z | _ => tokens_of result "output_tokens" end = Ok o') as (i' & o' & Hi' & Ho' & -> & ->).
    { destruct result; [exists 0%Z, 0%Z; by split_and!|exists i, o; by split_and!]. }
    cbn [rbind].
    destruct (trial_payload_total spec (inl (scored_failure "malformed" (exn_text e)
      (match result with [] => VNone | _ => dget "model_id" result end)
      (match result with [] => VInt 0 | _ => default (VInt 0) (dfind "fallback_count" result) end))) i' o' None t)
      as (payload & -> & Hc & Hb & Hr & Hres); [done..|]. exists payload. cbn [rmap_err]. rewrite Hres. by split_and!.
Qed.

Definition demo_spec : trial_spec :=
  {| ts_trial_id := "trial"; ts_baseline := "no_rag"; ts_case_id := "SEED-G02-0001"; ts_repetition := 1;
     ts_packet := [(VStr "case_id", VStr "SEED-G02-0001")] |}.
Lemma answers_become_records_witness : ∃ payload,
  execute_trial (λ _, Some ("root_cause", "is required")) demo_spec (Answered [(VStr "input_tokens", VInt 7)]) = Ok payload ∧
  result_get (dget "result" payload) "failure_class" VNone = VStr "malformed".
Proof.
  destruct (answers_become_records (λ _, Some ("root_cause", "is required")) demo_spec [(VStr "input_tokens", VInt 7)] 7 0 (VDict []))
    as (payload & Hp & _ & _ & _ & _ & Hclass & _).
  - vm_compute. reflexivity.
  - vm_compute. reflexivity.
  - lia.
  - lia.
  - vm_compute. reflexivity.
  - exists payload. split; [exact Hp|exact Hclass].
Defined.

(** An answer that is malformed in its token counts is not scored: the conversion inside the
    handler of the first error raises again, which ends the whole run. *)
Lemma malformed_token_counts_end_the_run :
  execute_trial (λ _, Some ("input_tokens", "is not of type integer")) demo_spec
    (Answered [(VStr "input_tokens", VStr "many")]) = Err (Experiment.OtherError "ValueError") ∧
  execute_trial (λ _, Some ("input_tokens", "is less than the minimum")) demo_spec
    (Answered [(VStr "input_tokens", VInt (-1))])
    = Err (Experiment.GovernanceError (Experiment.HandlerGovernance "token counts cannot be negative")).
Proof. split; vm_compute; reflexivity. Qed.
