(* ===== verification/LiveAdapter.v ===== *)
(** * The adapter of the live arms

    [faultwitness_dev/g03_readiness.py]: the prompts, the preflight of their size, and the
    turns of one trial: each asks the model, checks the budgets and keeps a structured
    draft, until two drafts agree or the turns end.  What the provider answers and what the
    clock reads are arguments. *)
From Stdlib Require Import Ascii.
From S2P Require Import Prelude Json JsonFacts Sha256 PyDyn PyFloat Packet Scoring Thresholds Reference.

Definition MAX_CUMULATIVE_INPUT_TOKENS : Z := 65536.
Definition MAX_CUMULATIVE_OUTPUT_TOKENS : Z := 8192.
Definition MAX_COMPLETION_TOKENS : Z := 2048.
Definition FOUR_TURN_INPUT_LIMIT : Z := 58982.
Definition REQUIRED_INPUT_HEADROOM : Z := 6554.
Definition MESSAGE_FRAMING_ALLOWANCE : Z := 64.
Definition REQUEST_TEMPLATE_ALLOWANCE : Z := 256.

(** [load_baseline_config_v3]: the turns of each arm, as the configuration must state them *)
Record arm_config := { min_turns : nat; max_turns : nat }.
Definition ARMS (baseline : string) : option arm_config :=
  if bool_decide (baseline = "no_rag") then Some {| min_turns := 1; max_turns := 1 |}
  else if bool_decide (baseline = "naive_react") then Some {| min_turns := 2; max_turns := 4 |}
  else if bool_decide (baseline = "naive_react_single") then Some {| min_turns := 1; max_turns := 1 |}
  else None.

(** ** Prompts *)

Definition quote : string := String "034"%char "".
Definition prompt_mode (baseline : string) : string :=
  if bool_decide (baseline ∈ ["naive_react"; "naive_react_single"]) then
    "Use a minimal ReAct-style diagnosis over only the supplied packet. Do not reveal private reasoning; return only the final structured diagnosis."
  else "Use no retrieval and no tools. Diagnose only from the supplied packet.".
Definition claim_shape : string :=
  "{" +:+ quote +:+ "claim_type" +:+ quote +:+ ":" +:+ quote +:+ "root_cause" +:+ quote +:+ "," +:+
  quote +:+ "value" +:+ quote +:+ ":" +:+ quote +:+ "<exact label>" +:+ quote +:+ "," +:+
  quote +:+ "evidence_refs" +:+ quote +:+ ":[" +:+ quote +:+ "<ID>" +:+ quote +:+ "," +:+ quote +:+ "<ID>" +:+ quote +:+ ",...]}".
Definition system_prompt (baseline : string) : string :=
  prompt_mode baseline +:+ " Choose only from this closed root-cause label set: " +:+ str_join ", " ROOT_CAUSE_LABELS +:+
  ". Return exactly one JSON object with root_cause, root_cause_candidates, evidence, and " +:+
  "claims. root_cause and every candidate must use an exact label from the set. " +:+
  "evidence must contain only packet IDs that directly support the diagnosis and must equal " +:+
  "the typed claim's evidence_refs as a set. evidence must be COMPLETE as well as correct: " +:+
  "cite every observation ID that supports the diagnosis, including the trace observation " +:+
  "that localises the failing service, not only the single most striking signal. A diagnosis " +:+
  "naming the right cause with an incomplete evidence set is scored as a failure. Most " +:+
  "incidents require more than one observation ID. claims must contain exactly one object " +:+
  "shaped as " +:+ claim_shape +:+ ". Do not add keys. Never infer or request ground truth or locked-test data.".
Definition correction : string :=
  "Recheck the same packet and prior structured diagnosis. Return a corrected canonical structured diagnosis only.".

(** [role] and [content] *)
Record message := { role : string; content : string }.
Definition canonical_text (v : val) : R string := from_option_or (RPython "TypeError") (dumps canonical_style v).
Definition correction_turn (prior : mapping) : R (list message) :=
  let* text := canonical_text (VDict prior) in
  Ok [{| role := "assistant"; content := text |}; {| role := "user"; content := correction |}].
Definition build_baseline_prompt_v3 (baseline : string) (packet : mapping) (prior_diagnoses : list mapping) : R (list message) :=
  let* _ := validate_observation_packet_v3 packet in
  raise_if negb (bool_decide (baseline ∈ ["naive_react"; "naive_react_single"; "no_rag"]))
    with_ RGovernance ("metric v3 received an unknown live baseline: " +:+ baseline);;
  let* text := canonical_text (VDict packet) in
  let* turns := rmapM correction_turn prior_diagnoses in
  Ok ({| role := "system"; content := system_prompt baseline |} :: {| role := "user"; content := text |} :: concat turns).

(** ** The preflight *)

Definition byte_length (s : string) : Z := str_len (utf8 s).
Record input_bound := { ib_case_id : val; ib_per_request : list Z; ib_total : Z }.
Definition ib_passes (b : input_bound) : bool := (ib_total b <=? FOUR_TURN_INPUT_LIMIT)%Z.
Definition ib_headroom (b : input_bound) : Z := (MAX_CUMULATIVE_INPUT_TOKENS - ib_total b)%Z.

Definition request_bound (system_bytes packet_bytes correction_bytes turn : Z) : Z :=
  let prior_count := (turn - 1)%Z in
  let message_count := (2 + 2 * prior_count)%Z in
  (system_bytes + packet_bytes + correction_bytes * prior_count + MAX_COMPLETION_TOKENS * prior_count +
   MESSAGE_FRAMING_ALLOWANCE * message_count + REQUEST_TEMPLATE_ALLOWANCE)%Z.
Definition four_turn_input_upper_bound_v3 (packet : mapping) : R input_bound :=
  let* base := build_baseline_prompt_v3 "naive_react" packet [] in
  match base with
  | system :: user :: _ =>
      let per_request := request_bound (byte_length (content system)) (byte_length (content user)) (byte_length correction)
                           <$> [1; 2; 3; 4]%Z in
      let* case_id := py (subscript (VDict packet) "case_id") in
      Ok {| ib_case_id := case_id; ib_per_request := per_request; ib_total := sum_z per_request |}
  | _ => Err (RPython "IndexError")
  end.

Record preflight := { pf_max : Z; pf_p95 : Z; pf_blocked : list string; pf_cases : list input_bound }.
Definition pf_passes (p : preflight) : bool := bool_decide (pf_blocked p = []).
Definition token_preflight_v3 (document : mapping) : R preflight :=
  let* cs := scenario_cases_v3 document in
  let* rows := rmapM (λ c : string * scenario_case, four_turn_input_upper_bound_v3 (sc_packet c.2)) (sort_keys cs) in
  let values := sort_by Z.leb (ib_total <$> rows) in
  let rank := (dceil (dmul (dec 95 2) (double_of_int (Z.of_nat (length values)))) - 1)%Z in
  let* p95 := from_option_or (RPython "IndexError") (values !! Z.to_nat (Z.max 0 rank)) in
  let* maximum := from_option_or (RPython "IndexError") (last values) in
  Ok {| pf_max := maximum; pf_p95 := p95;
        pf_blocked := (λ b, val_str (ib_case_id b)) <$> List.filter (λ b, negb (ib_passes b)) rows; pf_cases := rows |}.

(** ** The turns of a trial *)

(** What comes of a request: the status and the body, [None] when it is not JSON; a
    transport error of the client, by the name of its type; or another exception. *)
Inductive response : Type :=
| Http (status : Z) (body : option val)
| Transport (error : string)
| PostRaised (exn : string).

Record turn_usage := {
  tu_turn : nat;
  tu_input : Z;
  tu_output : Z;
  tu_latency : val;
  tu_finish : string;
}.
(** The locals of [invoke] *)
Record trial_state := {
  drafts : list mapping;
  draft_digests : list string;
  usage_rows : list turn_usage;
  cumulative_input : Z;
  cumulative_output : Z;
}.
Definition trial_start : trial_state :=
  {| drafts := []; draft_digests := []; usage_rows := []; cumulative_input := 0; cumulative_output := 0 |}.

Definition usage_document (u : turn_usage) : val :=
  sdict [("turn", VInt (Z.of_nat (tu_turn u))); ("input_tokens", VInt (tu_input u)); ("output_tokens", VInt (tu_output u));
         ("latency_ms", tu_latency u); ("finish_reason", VStr (tu_finish u))].
Definition telemetry_fields (st : trial_state) : list (string * val) :=
  [("drafts", VList (VDict <$> drafts st)); ("draft_digests", VList (VStr <$> draft_digests st));
   ("turn_usage", VList (usage_document <$> usage_rows st))].

(** An exception that leaves [invoke] *)
Definition escapes (e : readiness_exn) : adapter_outcome :=
  match e with RPython name => AdapterRaised name | e => GovernanceFailed (exn_text e) end.
(** [LiveTrialFailure(...)]: the constructor copies the telemetry. *)
Definition trial_failure (class reason : string) (st : trial_state) : adapter_outcome :=
  match json_copy (sdict (telemetry_fields st)) with
  | Ok telemetry => TrialFailed class reason (cumulative_input st) (cumulative_output st) telemetry
  | Err e => escapes e
  end.
Definition MALFORMED : list string := ["KeyError"; "IndexError"; "TypeError"; "ValueError"; "JSONDecodeError"].
(** The [except] clauses of a turn for an exception other than the two that pass *)
Definition caught (st : trial_state) (e : readiness_exn) : adapter_outcome :=
  match e with
  | RPython name =>
      if bool_decide (name ∈ MALFORMED) then
        trial_failure "malformed" "metric-v3 baseline returned malformed structured output" st
      else AdapterRaised name
  | e => trial_failure "malformed" (exn_text e) st
  end.

Definition DIAGNOSIS_KEYS : list string := ["root_cause"; "root_cause_candidates"; "evidence"; "claims"].
Definition canonical_diagnosis (result : mapping) : R mapping :=
  raise_if existsb (λ key, negb (bool_decide (is_Some (dfind key result)))) DIAGNOSIS_KEYS
    with_ RGovernance "metric-v3 baseline returned an incomplete diagnosis";;
  rmapM (λ key, let* copy := json_copy (dget key result) in Ok (VStr key, copy)) DIAGNOSIS_KEYS.

(** [{**draft, "schema_version": ...}]: a draft has none of these keys. *)
Definition live_result (baseline : string) (case_id : val) (st : trial_state) (latency : val) (draft : mapping) : mapping :=
  draft ++ ((λ kv : string * val, (VStr kv.1, kv.2)) <$>
    [("schema_version", VStr WIRE_SCHEMA_VERSION); ("metric_version", VInt METRIC_VERSION); ("case_id", case_id);
     ("status", VStr "ok"); ("baseline", VStr baseline); ("model_id", VStr MODEL_ID); ("fallback_count", VInt 0);
     ("input_tokens", VInt (cumulative_input st)); ("output_tokens", VInt (cumulative_output st)); ("latency_ms", latency)]).

(** What a turn reads of the body before the counters move: the choice and the usage *)
Inductive body_error := Reconfigured | BodyRaised (e : readiness_exn).
Definition body_py {A} (r : pyres A) : result body_error A := rmap_err (λ name, BodyRaised (RPython name)) r.
Definition body_usage (body : option val) : result body_error (val * (Z * Z)) :=
  let* body := body_py (from_option_or "JSONDecodeError" body) in
  let* model := body_py (get_attr body "model" VNone) in
  raise_if negb (bool_decide (val_str (val_or model (VStr MODEL_ID)) = MODEL_ID)) with_ Reconfigured;;
  let* choices := body_py (subscript body "choices") in
  let* choice := body_py (first_item choices) in
  let* usage := body_py (get_attr body "usage" VNone) in
  match usage with
  | VDict usage =>
      match dfind "prompt_tokens" usage, dfind "completion_tokens" usage with
      | Some prompt, Some completion =>
          let* input_tokens := body_py (val_int prompt) in
          let* output_tokens := body_py (val_int completion) in
          Ok (choice, (input_tokens, output_tokens))
      | _, _ => Err Reconfigured
      end
  | _ => Err Reconfigured
  end.

Section Invoke.
Context (schema_error : mapping → option (string * string)).
(** The answer of the provider, and the rounded milliseconds of a turn and of the trial so
    far, by the turn *)
Context (respond : nat → list message → response).
Context (turn_latency total_latency : nat → val).
Context (baseline : string) (packet : mapping).

Definition over_budget (st : trial_state) : bool :=
  (MAX_CUMULATIVE_INPUT_TOKENS <=? cumulative_input st)%Z || (MAX_CUMULATIVE_OUTPUT_TOKENS <=? cumulative_output st)%Z.
Definition add_usage (turn : nat) (tokens : Z * Z) (finish : string) (st : trial_state) : trial_state :=
  {| drafts := drafts st; draft_digests := draft_digests st;
     usage_rows := usage_rows st ++ [{| tu_turn := turn; tu_input := tokens.1; tu_output := tokens.2;
                                        tu_latency := turn_latency turn; tu_finish := finish |}];
     cumulative_input := cumulative_input st + tokens.1; cumulative_output := cumulative_output st + tokens.2 |}.
Definition add_draft (draft : mapping) (digest : string) (st : trial_state) : trial_state :=
  {| drafts := drafts st ++ [draft]; draft_digests := draft_digests st ++ [digest]; usage_rows := usage_rows st;
     cumulative_input := cumulative_input st; cumulative_output := cumulative_output st |}.

(** The draft of a choice *)
Definition read_draft (turn : nat) (st : trial_state) (choice : val) : R mapping :=
  let* message := py (subscript choice "message") in
  let* content := py (subscript message "content") in
  let* parsed := py (val_loads content) in
  match parsed with
  | VDict parsed =>
      let* draft := canonical_diagnosis parsed in
      let* case_id := py (subscript (VDict packet) "case_id") in
      let* _ := validate_result_v3 schema_error (live_result baseline case_id st (total_latency turn) draft) in
      Ok draft
  | _ => Err (RPython "ValueError")
  end.
(** From the body of the answer to the draft *)
Definition read_answer (turn : nat) (st : trial_state) (body : option val) : result adapter_outcome (mapping * trial_state) :=
  match body_usage body with
  | Err Reconfigured => Err ConfigurationFailed
  | Err (BodyRaised e) => Err (caught st e)
  | Ok (choice, tokens) =>
      match get_attr choice "finish_reason" VNone with
      | Err name => Err (caught st (RPython name))
      | Ok finish =>
          let st := add_usage turn tokens (val_str (val_or finish (VStr ""))) st in
          raise_if over_budget st
            with_ trial_failure "budget_exhausted" "metric-v3 cumulative trial token budget was reached" st;;
          raise_if val_is finish "length"
            with_ trial_failure "output_truncated" "metric-v3 completion ended with finish_reason=length" st;;
          let* draft := rmap_err (caught st) (read_draft turn st choice) in
          Ok (draft, st)
      end
  end.
Definition one_turn (turn : nat) (st : trial_state) : result adapter_outcome trial_state :=
  let* messages := rmap_err escapes (build_baseline_prompt_v3 baseline packet (drafts st)) in
  match respond turn messages with
  | Transport error => Err (InfrastructureFailed ("transport:" +:+ error))
  | PostRaised exn => Err (AdapterRaised exn)
  | Http status body =>
      raise_if bool_decide (status = 429%Z) || (500 <=? status)%Z
        with_ InfrastructureFailed ("upstream_http_" +:+ int_repr status);;
      raise_if (400 <=? status)%Z with_ ConfigurationFailed;;
      let* answer := read_answer turn st body in
      let* digest := rmap_err escapes (digest_json (VDict answer.1)) in
      Ok (add_draft answer.1 digest answer.2)
  end.

(** [draft_digests[-1] == draft_digests[-2]] of at least two *)
Definition agree (digests : list string) : bool :=
  match rev digests with a :: b :: _ => bool_decide (a = b) | _ => false end.
Fixpoint turn_loop (arm : arm_config) (turns : list nat) (st : trial_state) : result adapter_outcome (trial_state * string) :=
  match turns with
  | [] => Ok (st, "max_turns")
  | turn :: turns =>
      let* st := one_turn turn st in
      if (min_turns arm <=? turn)%nat && agree (draft_digests st) then Ok (st, "stable_diagnosis")
      else turn_loop arm turns st
  end.

Definition trial_telemetry (st : trial_state) (terminal_reason : string) : val :=
  sdict ([("turn_count", VInt (Z.of_nat (length (drafts st)))); ("terminal_reason", VStr terminal_reason)] ++ telemetry_fields st).
Definition invoke (arm : arm_config) : result adapter_outcome mapping :=
  let* _ := rmap_err escapes (validate_observation_packet_v3 packet) in
  let* run := turn_loop arm (seq 1 (max_turns arm)) trial_start in
  let '(st, terminal_reason) := run in
  match last (drafts st) with
  | None => Err (trial_failure "malformed" "metric-v3 live trial produced no structured draft" st)
  | Some draft =>
      let* case_id := rmap_err escapes (py (subscript (VDict packet) "case_id")) in
      Ok (live_result baseline case_id st (total_latency (S (max_turns arm))) draft ++
          [(VStr "_trial_telemetry", trial_telemetry st terminal_reason)])
  end.
End Invoke.

(** [make_bailian_adapter_v3]: the adapter of an arm *)
Definition make_bailian_adapter_v3 schema_error respond turn_latency total_latency (baseline : string)
    : R (mapping → adapter_outcome) :=
  let* arm := from_option_or (RGovernance ("metric v3 received an unknown live baseline: " +:+ baseline)) (ARMS baseline) in
  Ok (λ packet, match invoke schema_error respond turn_latency total_latency baseline packet arm with
                | Ok result => Answered result
                | Err outcome => outcome
                end).
