(* ===== verification/LiveAdapterTheorems.v ===== *)
(** * Theorems on the live adapter

    An answered trial stayed within its budgets and stopped at the first two drafts that
    agree; and a packet that passes the preflight is never stopped by the budget of input
    tokens. *)
From S2P Require Import Prelude Json JsonFacts Sha256 PyDyn PyFloat Packet Scoring ScoringTheorems PacketTheorems Thresholds Reference ReferenceTheorems LiveAdapter.

Lemma agree_snoc gs a b : agree (gs ++ [a; b]) = bool_decide (b = a).
Proof. unfold agree. by rewrite rev_app_distr. Qed.

Section Trial.
Context (schema_error : mapping → option (string * string)).
Context (respond : nat → list message → response) (turn_latency total_latency : nat → val).
Context (baseline : string) (packet : mapping).
Local Abbreviation turn_of := (one_turn schema_error respond turn_latency total_latency baseline packet).
Local Abbreviation loop_of := (turn_loop schema_error respond turn_latency total_latency baseline packet).
Local Abbreviation invoke_of := (invoke schema_error respond turn_latency total_latency baseline packet).

(** ** One turn *)

Lemma read_answer_ok turn st body draft st' :
  read_answer schema_error turn_latency total_latency baseline packet turn st body = Ok (draft, st') →
  ∃ choice tokens finish, body_usage body = Ok (choice, tokens) ∧ st' = add_usage turn_latency turn tokens finish st ∧
    over_budget st' = false ∧
    read_draft schema_error total_latency baseline packet turn st' choice = Ok draft.
Proof.
  unfold read_answer. intros H. destruct (body_usage body) as [[choice tokens]|[|e]]; [|discriminate H..].
  destruct (get_attr choice "finish_reason" VNone) as [finish|name]; [|discriminate H]. cbv zeta in H.
  exists choice, tokens, (val_str (val_or finish (VStr ""))).
  destruct (over_budget _) eqn:Hb; [discriminate H|]. destruct (val_is finish "length"); [discriminate H|].
  apply rbind_ok in H as (d & Hd & [= <- <-]). by destruct (read_draft _ _ _ _ _ _ _) eqn:E; [injection Hd as <-|discriminate Hd].
Qed.

Lemma one_turn_ok turn st st' : turn_of turn st = Ok st' →
  ∃ messages status body choice tokens finish draft digest,
    build_baseline_prompt_v3 baseline packet (drafts st) = Ok messages ∧ respond turn messages = Http status body ∧
    body_usage body = Ok (choice, tokens) ∧
    st' = add_draft draft digest (add_usage turn_latency turn tokens finish st) ∧ over_budget st' = false ∧
    digest_json (VDict draft) = Ok digest ∧
    read_draft schema_error total_latency baseline packet turn (add_usage turn_latency turn tokens finish st) choice = Ok draft.
Proof.
  unfold one_turn. intros H. apply rbind_ok in H as (messages & Hm & H).
  destruct (build_baseline_prompt_v3 _ _ _) as [ms|e] eqn:Hp; [injection Hm as ->|discriminate Hm].
  destruct (respond turn messages) as [status body| |] eqn:Hr; [|discriminate H..].
  destruct (_ || _); [discriminate H|]. destruct (400 <=? status)%Z; [discriminate H|].
  apply rbind_ok in H as ([draft st1] & Ha & H). apply rbind_ok in H as (digest & Hd & [= <-]).
  apply read_answer_ok in Ha as (choice & tokens & finish & Hu & -> & Hb & Hdraft).
  exists messages, status, body, choice, tokens, finish, draft, digest. cbn [fst snd] in *. split_and!; [done..| |done].
  destruct (digest_json (VDict draft)) eqn:E; [by injection Hd as ->|discriminate Hd].
Qed.
Lemma read_draft_ok turn st choice draft :
  read_draft schema_error total_latency baseline packet turn st choice = Ok draft →
  ∃ case_id, dfind "case_id" packet = Some case_id ∧
    schema_error (live_result baseline case_id st (total_latency turn) draft) = None.
Proof.
  unfold read_draft. intros H. apply rbind_ok in H as (m & _ & H). apply rbind_ok in H as (c & _ & H).
  apply rbind_ok in H as (p & _ & H). destruct p; try discriminate H.
  apply rbind_ok in H as (dr & _ & H). apply rbind_ok in H as (case_id & Hc & H). apply rbind_ok in H as (u & Hv & [= <-]).
  exists case_id. unfold py, subscript in Hc. destruct (dfind "case_id" packet); [injection Hc as ->|discriminate Hc].
  split; [done|]. unfold validate_result_v3 in Hv. destruct (schema_error _) as [[l t]|]; [discriminate Hv|done].
Qed.

(** ** The loop *)

(** What holds after [n] turns that produced a draft each *)
Record trial_inv (n : nat) (st : trial_state) : Prop := {
  inv_turns : tu_turn <$> usage_rows st = seq 1 n;
  inv_drafts : Forall2 (λ d g, digest_json (VDict d) = Ok g) (drafts st) (draft_digests st);
  inv_length : length (drafts st) = n;
  inv_input : cumulative_input st = sum_z (tu_input <$> usage_rows st);
  inv_output : cumulative_output st = sum_z (tu_output <$> usage_rows st);
  inv_budget : over_budget st = false;
  inv_valid : ∀ draft, last (drafts st) = Some draft → ∃ case_id,
    dfind "case_id" packet = Some case_id ∧ schema_error (live_result baseline case_id st (total_latency n) draft) = None;
}.
Lemma trial_start_inv : trial_inv 0 trial_start.
Proof. split; done. Qed.

Lemma sum_z_snoc xs x : sum_z (xs ++ [x]) = (sum_z xs + x)%Z.
Proof. unfold sum_z. by rewrite foldl_app. Qed.

Lemma turn_inv n st st' : trial_inv n st → turn_of (S n) st = Ok st' →
  trial_inv (S n) st' ∧ ∃ g, draft_digests st' = draft_digests st ++ [g].
Proof.
  intros [Ht Hf Hl Hi Ho Hb Hv] (ms & status & body & choice & tokens & finish & draft & digest & Hp & Hr & Hu & -> & Hover & Hg & Hd)%one_turn_ok.
  split; [|by exists digest]. split; cbn [add_draft add_usage usage_rows drafts draft_digests cumulative_input cumulative_output].
  - rewrite fmap_app, Ht. cbn [fmap list_fmap tu_turn]. by rewrite seq_S.
  - apply Forall2_app; [done|by repeat constructor].
  - rewrite length_app, Hl. cbn. lia.
  - rewrite fmap_app, Hi. cbn [fmap list_fmap tu_input]. by rewrite sum_z_snoc.
  - rewrite fmap_app, Ho. cbn [fmap list_fmap tu_output]. by rewrite sum_z_snoc.
  - exact Hover.
  - intros d. rewrite last_snoc. intros [= <-]. apply read_draft_ok in Hd as (case_id & Hc & Hs). by exists case_id.
Qed.

(** No earlier turn could have stopped. *)
Definition no_stop (arm : arm_config) (digests : list string) : Prop :=
  ∀ j, (j ≤ length digests)%nat → (min_turns arm ≤ j)%nat → agree (take j digests) = false.
(** How a trial with these digests ended, for this reason *)
Definition ended (arm : arm_config) (digests : list string) (reason : string) : Prop :=
  (∀ j, (j < length digests)%nat → (min_turns arm ≤ j)%nat → agree (take j digests) = false) ∧
  ((reason = "stable_diagnosis" ∧ (min_turns arm ≤ length digests)%nat ∧ agree digests = true) ∨
   (reason = "max_turns" ∧ length digests = max_turns arm ∧ no_stop arm digests)).

Lemma no_stop_nil arm : no_stop arm [].
Proof. intros j Hj _. by destruct j. Qed.
Lemma loop_inv arm m n st st' reason :
  trial_inv n st → no_stop arm (draft_digests st) → (n + m)%nat = max_turns arm →
  loop_of arm (seq (S n) m) st = Ok (st', reason) →
  ∃ k, (n ≤ k ≤ max_turns arm)%nat ∧ (0 < m → 0 < k)%nat ∧ trial_inv k st' ∧ ended arm (draft_digests st') reason.
Proof.
  revert n st. induction m as [|m IH]; intros n st Hinv Hns Hm; cbn [seq turn_loop].
  - intros [= <- <-]. exists n. split_and!; [lia..|done|]. pose proof (Forall2_length _ _ _ (inv_drafts _ _ Hinv)) as Hl.
    rewrite (inv_length _ _ Hinv) in Hl. split; [intros j Hj; apply Hns; lia|]. right. split_and!; [done|lia|done].
  - intros H. apply rbind_ok in H as (st1 & Hturn & H). apply (turn_inv n) in Hturn as [Hinv1 [g Hg]]; [|done].
    pose proof (Forall2_length _ _ _ (inv_drafts _ _ Hinv1)) as Hl. rewrite (inv_length _ _ Hinv1) in Hl.
    assert (∀ j, (j < S n)%nat → (min_turns arm ≤ j)%nat → agree (take j (draft_digests st1)) = false) as Hearlier.
    { intros j Hj Hmin. rewrite Hg, length_app in Hl. cbn in Hl. rewrite Hg, take_app_le by lia. apply Hns; lia. }
    destruct (_ && _) eqn:Hstop.
    + injection H as <- <-. bool_prop. exists (S n). split_and!; [lia..|done|]. split; [by rewrite <-Hl|]. left.
      split_and!; [done| |done]. rewrite <-Hl. by apply Nat.leb_le.
    + apply (IH (S n)) in H as (k & Hk & _ & ?); [exists k; split; [lia|split; [lia|done]]|done| |lia].
      intros j Hj Hmin. destruct (decide (j < S n)%nat) as [|Hn]; [by apply Hearlier|].
      assert (j = S n) as -> by lia. rewrite Hl, firstn_all. apply andb_false_iff in Hstop as [Hs|Hs]; [|done].
      apply Nat.leb_gt in Hs. lia.
Qed.

(** C21: An answered trial kept to its contract: between one and [max_turns] turns, each with
    a draft and a row of usage; the tokens it reports are the sums over its turns and below
    both budgets; it stopped at the first turn, not before [min_turns], whose draft agrees
    with the one before it, or else at the last; and it reports the last draft, which passed
    the schema of results. *)
Theorem answered_trials_keep_their_contract arm result :
  (0 < max_turns arm)%nat → invoke_of arm = Ok result →
  ∃ st draft case_id reason n,
    (0 < n ≤ max_turns arm)%nat ∧ length (drafts st) = n ∧ tu_turn <$> usage_rows st = seq 1 n ∧
    Forall2 (λ d g, digest_json (VDict d) = Ok g) (drafts st) (draft_digests st) ∧
    ended arm (draft_digests st) reason ∧
    cumulative_input st = sum_z (tu_input <$> usage_rows st) ∧ cumulative_output st = sum_z (tu_output <$> usage_rows st) ∧
    (cumulative_input st < MAX_CUMULATIVE_INPUT_TOKENS)%Z ∧ (cumulative_output st < MAX_CUMULATIVE_OUTPUT_TOKENS)%Z ∧
    last (drafts st) = Some draft ∧ dfind "case_id" packet = Some case_id ∧
    schema_error (live_result baseline case_id st (total_latency n) draft) = None ∧
    result = live_result baseline case_id st (total_latency (S (max_turns arm))) draft ++
             [(VStr "_trial_telemetry", trial_telemetry st reason)].
Proof.
  intros Hmax H. unfold invoke in H. apply rbind_ok in H as (u & _ & H). apply rbind_ok in H as ([st reason] & Hl & H).
  apply (loop_inv arm (max_turns arm) 0) in Hl as (n & Hn & Hpos & Hinv & Hend); [|exact trial_start_inv|apply no_stop_nil|lia].
  destruct (last (drafts st)) as [draft|] eqn:Hlast; [|discriminate H]. apply rbind_ok in H as (case_id & Hc & [= <-]).
  destruct (inv_valid _ _ Hinv _ Hlast) as (case_id' & Hc' & Hs).
  assert (case_id = case_id') as ->.
  { unfold py, subscript in Hc. rewrite Hc' in Hc. by injection Hc as ->. }
  pose proof (inv_budget _ _ Hinv) as Hb. unfold over_budget in Hb. apply orb_false_iff in Hb as [Hb1 Hb2].
  apply Z.leb_gt in Hb1, Hb2. exists st, draft, case_id', reason, n.
  split_and!; try apply Hinv; try done; lia.
Qed.
End Trial.

(** ** The preflight *)

(** What the preflight assumes of the tokens of a request: a message costs at most its bytes,
    or the completion it repeats, and a fixed framing. *)
Definition message_allowance (m : message) : Z :=
  ((if bool_decide (role m = "assistant") then MAX_COMPLETION_TOKENS else byte_length (content m)) + MESSAGE_FRAMING_ALLOWANCE)%Z.
Definition request_allowance (messages : list message) : Z :=
  (sum_z (message_allowance <$> messages) + REQUEST_TEMPLATE_ALLOWANCE)%Z.
Definition counts_tokens (respond : nat → list message → response) : Prop :=
  ∀ turn messages status body choice i o,
    respond turn messages = Http status body → body_usage body = Ok (choice, (i, o)) →
    (i ≤ request_allowance messages ∧ o ≤ MAX_COMPLETION_TOKENS)%Z.

Lemma foldl_add z xs : foldl Z.add z xs = (z + sum_z xs)%Z.
Proof.
  unfold sum_z. revert z. induction xs as [|x xs IH]; intros z; cbn [foldl]; [lia|]. rewrite IH, (IH (0 + x)%Z). lia.
Qed.
Lemma sum_z_cons x xs : sum_z (x :: xs) = (x + sum_z xs)%Z.
Proof. unfold sum_z at 1. cbn [foldl]. apply foldl_add. Qed.
Lemma sum_z_app xs ys : sum_z (xs ++ ys) = (sum_z xs + sum_z ys)%Z.
Proof. induction xs as [|x xs IH]; [done|]. cbn [app]. rewrite !sum_z_cons, IH. lia. Qed.
Lemma byte_length_nonneg s : (0 ≤ byte_length s)%Z.
Proof. unfold byte_length, str_len. lia. Qed.

Lemma corrections_allowance ds turns : rmapM correction_turn ds = Ok turns →
  sum_z (message_allowance <$> concat turns) =
    (Z.of_nat (length ds) * (MAX_COMPLETION_TOKENS + byte_length correction + 2 * MESSAGE_FRAMING_ALLOWANCE))%Z.
Proof.
  revert turns. induction ds as [|d ds IH]; intros turns; cbn [rmapM].
  - intros [= <-]. cbn [concat fmap list_fmap length]. unfold sum_z. cbn [foldl]. lia.
  - intros H. apply rbind_ok in H as (ms & Hms & H). apply rbind_ok in H as (rest & Hrest & [= <-]).
    unfold correction_turn in Hms. apply rbind_ok in Hms as (text & _ & [= <-]).
    cbn [concat]. rewrite fmap_app, sum_z_app, (IH rest Hrest). cbn [fmap list_fmap length]. rewrite !sum_z_cons.
    unfold message_allowance. cbn [role content]. rewrite bool_decide_eq_true_2, bool_decide_eq_false_2 by done.
    change (sum_z []) with 0%Z. generalize (byte_length correction). intros c. unfold MAX_COMPLETION_TOKENS, MESSAGE_FRAMING_ALLOWANCE. lia.
Qed.
Lemma system_prompt_bytes baseline arm : ARMS baseline = Some arm →
  (byte_length (system_prompt baseline) <= byte_length (system_prompt "naive_react"))%Z.
Proof.
  unfold ARMS. repeat case_bool_decide; subst; intros [=]; apply Z.leb_le; vm_compute; reflexivity.
Qed.

Lemma prompt_shape baseline packet ds ms : build_baseline_prompt_v3 baseline packet ds = Ok ms →
  ∃ text turns, canonical_text (VDict packet) = Ok text ∧ rmapM correction_turn ds = Ok turns ∧
    ms = {| role := "system"; content := system_prompt baseline |} :: {| role := "user"; content := text |} :: concat turns.
Proof.
  unfold build_baseline_prompt_v3. intros H. apply rbind_ok in H as (u & _ & H). destruct (negb _); [discriminate H|].
  apply rbind_ok in H as (text & Ht & H). apply rbind_ok in H as (turns & Hturns & [= <-]). by exists text, turns.
Qed.

(** The bounds of the first turns, for the text of a packet *)
Definition turn_bound (text : string) (turn : nat) : Z :=
  request_bound (byte_length (system_prompt "naive_react")) (byte_length text) (byte_length correction) (Z.of_nat turn).
Definition bounds_to (text : string) (n : nat) : Z := sum_z (turn_bound text <$> seq 1 n).
(** The preflight of a packet, by turn *)
Lemma preflight_shape packet b : four_turn_input_upper_bound_v3 packet = Ok b →
  ∃ text, canonical_text (VDict packet) = Ok text ∧
    ib_total b = bounds_to text 4.
Proof.
  unfold four_turn_input_upper_bound_v3. intros H. apply rbind_ok in H as (ms & Hms & H).
  apply prompt_shape in Hms as (text & turns & Ht & _ & ->). apply rbind_ok in H as (case_id & _ & Hb). apply Ok_inj in Hb as <-.
  exists text. split; [exact Ht|]. cbn [ib_total content]. unfold bounds_to, turn_bound.
  generalize (system_prompt "naive_react"), correction. reflexivity.
Qed.

Section Preflight.
Context (schema_error : mapping → option (string * string)).
Context (respond : nat → list message → response) (turn_latency total_latency : nat → val).
Context (baseline : string) (packet : mapping) (arm : arm_config) (text : string).
Context (tokens_counted : counts_tokens respond).
Context (arm_of_baseline : ARMS baseline = Some arm).
Context (packet_text : canonical_text (VDict packet) = Ok text).
Local Abbreviation turn_of := (one_turn schema_error respond turn_latency total_latency baseline packet).
Local Abbreviation loop_of := (turn_loop schema_error respond turn_latency total_latency baseline packet).
Local Abbreviation bounds := (bounds_to text).

Lemma bound_nonneg n : (0 < n)%nat → (0 ≤ turn_bound text n)%Z.
Proof.
  intros Hn. unfold turn_bound, request_bound, MAX_COMPLETION_TOKENS, MESSAGE_FRAMING_ALLOWANCE, REQUEST_TEMPLATE_ALLOWANCE.
  pose proof (byte_length_nonneg (system_prompt "naive_react")). pose proof (byte_length_nonneg text).
  pose proof (byte_length_nonneg correction). nia.
Qed.
Lemma bounds_to_S n : bounds (S n) = (bounds n + turn_bound text (S n))%Z.
Proof. unfold bounds_to. rewrite seq_S, fmap_app. cbn [fmap list_fmap]. by rewrite sum_z_snoc. Qed.
Lemma bounds_to_mono n m : (n ≤ m)%nat → (bounds n ≤ bounds m)%Z.
Proof.
  induction 1 as [|m _ IH]; [done|]. rewrite bounds_to_S. pose proof (bound_nonneg (S m)). lia.
Qed.

Lemma request_within ds ms : build_baseline_prompt_v3 baseline packet ds = Ok ms → (request_allowance ms ≤ turn_bound text (S (length ds)))%Z.
Proof.
  intros (t & turns & Ht & Hturns & ->)%prompt_shape. rewrite packet_text in Ht. injection Ht as <-.
  unfold request_allowance. cbn [fmap list_fmap]. rewrite !sum_z_cons, (corrections_allowance _ _ Hturns).
  unfold message_allowance. cbn [role content]. rewrite !bool_decide_eq_false_2 by done.
  pose proof (system_prompt_bytes _ _ arm_of_baseline) as Hs. revert Hs. unfold turn_bound, request_bound.
  generalize (byte_length (system_prompt baseline)), (byte_length (system_prompt "naive_react")), (byte_length text), (byte_length correction).
  intros s s' p c Hs. unfold MAX_COMPLETION_TOKENS, MESSAGE_FRAMING_ALLOWANCE, REQUEST_TEMPLATE_ALLOWANCE. nia.
Qed.

Record spent (n : nat) (st : trial_state) : Prop := {
  spent_length : length (drafts st) = n;
  spent_input : (cumulative_input st ≤ bounds n)%Z;
  spent_output : (cumulative_output st ≤ MAX_COMPLETION_TOKENS * Z.of_nat n)%Z;
}.
(** A failed trial after at most [n] turns *)
Definition failed_within (n : nat) (class : string) (i o : Z) : Prop :=
  (i ≤ bounds n)%Z ∧ (o ≤ MAX_COMPLETION_TOKENS * Z.of_nat n)%Z ∧
  (class = "budget_exhausted" → (MAX_CUMULATIVE_INPUT_TOKENS ≤ i ∨ MAX_CUMULATIVE_OUTPUT_TOKENS ≤ o)%Z).

Lemma failed_mono n m class i o : (n ≤ m)%nat → failed_within n class i o → failed_within m class i o.
Proof.
  intros Hle (Hi & Ho & Hc). pose proof (bounds_to_mono n m Hle). unfold failed_within, MAX_COMPLETION_TOKENS in *. split_and!; [lia..|done].
Qed.
Lemma trial_failure_fields c r st class reason i o t :
  trial_failure c r st = TrialFailed class reason i o t → class = c ∧ i = cumulative_input st ∧ o = cumulative_output st.
Proof. unfold trial_failure. destruct (json_copy _) as [v|[]]; [by intros [= <- _ <- <- _]|discriminate..]. Qed.
Lemma escapes_not_failed e class reason i o t : escapes e ≠ TrialFailed class reason i o t.
Proof. by destruct e. Qed.
Lemma caught_fields st e class reason i o t :
  caught st e = TrialFailed class reason i o t → class = "malformed" ∧ i = cumulative_input st ∧ o = cumulative_output st.
Proof.
  destruct e; cbn [caught]; try apply trial_failure_fields. destruct (bool_decide _); [apply trial_failure_fields|discriminate].
Qed.
Lemma escaped_err {A} (r : R A) class reason i o t : rmap_err escapes r ≠ Err (TrialFailed class reason i o t).
Proof. destruct r as [a|e]; [done|]. cbn. intros H%Err_inj. by apply escapes_not_failed in H. Qed.

Lemma honest_usage n st ms status body choice tokens finish :
  spent n st → build_baseline_prompt_v3 baseline packet (drafts st) = Ok ms → respond (S n) ms = Http status body →
  body_usage body = Ok (choice, tokens) →
  let st' := add_usage turn_latency (S n) tokens finish st in
  (cumulative_input st' ≤ bounds (S n))%Z ∧ (cumulative_output st' ≤ MAX_COMPLETION_TOKENS * Z.of_nat (S n))%Z.
Proof.
  intros [Hl Hi Ho] Hms Hr Hu. destruct tokens as [i o]. destruct (tokens_counted _ _ _ _ _ _ _ Hr Hu) as [Hi' Ho'].
  apply request_within in Hms. rewrite Hl in Hms. cbn [add_usage cumulative_input cumulative_output fst snd].
  rewrite bounds_to_S. unfold MAX_COMPLETION_TOKENS in *. lia.
Qed.
Lemma turn_spent n st st' : spent n st → turn_of (S n) st = Ok st' → spent (S n) st'.
Proof.
  intros Hs (ms & status & body & choice & tokens & finish & draft & digest & Hp & Hr & Hu & -> & _ & _ & _)%one_turn_ok.
  destruct (honest_usage n st ms status body choice tokens finish Hs Hp Hr Hu) as [Hi Ho].
  split; [|exact Hi|exact Ho]. cbn [add_draft add_usage drafts]. rewrite length_app, (spent_length _ _ Hs). cbn. lia.
Qed.
Lemma spent_failed n m st i o : spent n st → (n ≤ m)%nat → i = cumulative_input st → o = cumulative_output st →
  failed_within m "malformed" i o.
Proof. intros [Hl Hi Ho] Hle -> ->. apply (failed_mono n); [done|]. by split_and!. Qed.

Lemma turn_fails n st class reason i o t :
  spent n st → turn_of (S n) st = Err (TrialFailed class reason i o t) → failed_within (S n) class i o.
Proof.
  intros Hs. unfold one_turn. intros [H|(ms & Hms & H)]%rbind_err; [by apply escaped_err in H|].
  destruct (build_baseline_prompt_v3 _ _ _) as [ms'|e] eqn:Hp; [injection Hms as ->|discriminate Hms].
  destruct (respond (S n) ms) as [status body| |] eqn:Hr; [|discriminate H..].
  destruct (_ || _); [discriminate H|]. destruct (400 <=? status)%Z; [discriminate H|].
  apply rbind_err in H as [H|(answer & _ & H)]; [|apply rbind_err in H as [H|(g & _ & H)]; [by apply escaped_err in H|discriminate H]].
  unfold read_answer in H. destruct (body_usage body) as [[choice tokens]|[|e]] eqn:Hu; [|discriminate H|].
  2:{ apply Err_inj, caught_fields in H as (-> & ? & ?). apply (spent_failed n _ st); [done|lia|done..]. }
  destruct (get_attr choice "finish_reason" VNone) as [finish|name]; [|].
  2:{ apply Err_inj, caught_fields in H as (-> & ? & ?). apply (spent_failed n _ st); [done|lia|done..]. }
  cbv zeta in H. set (st' := add_usage _ _ _ _ _) in H.
  destruct (honest_usage n st ms status body choice tokens (val_str (val_or finish (VStr ""))) Hs Hp Hr Hu) as [Hi Ho]. fold st' in Hi, Ho.
  destruct (over_budget st') eqn:Hb.
  - apply Err_inj, trial_failure_fields in H as (-> & -> & ->). split_and!; [done..|]. intros _.
    unfold over_budget in Hb. apply orb_true_iff in Hb as [Hb|Hb]; apply Z.leb_le in Hb; auto.
  - destruct (val_is finish "length").
    + apply Err_inj, trial_failure_fields in H as (-> & -> & ->). by split_and!.
    + apply rbind_err in H as [H|(d & _ & H)]; [|discriminate H]. destruct (read_draft _ _ _ _ _ _ _) as [d|e]; [discriminate H|].
      apply Err_inj, caught_fields in H as (-> & -> & ->). by split_and!.
Qed.

Lemma loop_fails m n st class reason i o t :
  spent n st → loop_of arm (seq (S n) m) st = Err (TrialFailed class reason i o t) → failed_within (n + m) class i o.
Proof.
  revert n st. induction m as [|m IH]; intros n st Hs; cbn [seq turn_loop]; [discriminate|].
  intros [H|(st1 & H1 & H)]%rbind_err.
  - apply (failed_mono (S n)); [lia|]. by eapply turn_fails.
  - destruct (_ && _); [discriminate H|]. apply IH in H; [|by eapply turn_spent]. by rewrite Nat.add_succ_r.
Qed.
Lemma loop_spent m n st st' reason : spent n st → loop_of arm (seq (S n) m) st = Ok (st', reason) →
  ∃ k, (k ≤ n + m)%nat ∧ spent k st'.
Proof.
  revert n st. induction m as [|m IH]; intros n st Hs; cbn [seq turn_loop]; [intros [= <- <-]; exists n; split; [lia|done]|].
  intros (st1 & H1 & H)%rbind_ok. apply (turn_spent n) in H1; [|done]. destruct (_ && _).
  - injection H as <- <-. exists (S n). split; [lia|done].
  - apply IH in H as (k & Hk & ?); [|done]. exists k. split; [lia|done].
Qed.
Lemma start_spent : spent 0 trial_start.
Proof. by split. Qed.
Lemma invoke_fails class reason i o t :
  invoke schema_error respond turn_latency total_latency baseline packet arm = Err (TrialFailed class reason i o t) →
  failed_within (max_turns arm) class i o.
Proof.
  unfold invoke. intros [H|(u & _ & H)]%rbind_err; [by apply escaped_err in H|].
  apply rbind_err in H as [H|([st r] & Hl & H)]; [by apply (loop_fails _ 0) in H; [|exact start_spent]|].
  apply (loop_spent _ 0) in Hl as (k & Hk & Hs); [|exact start_spent].
  destruct (last (drafts st)) as [draft|].
  - apply rbind_err in H as [H|(c & _ & H)]; [by apply escaped_err in H|discriminate H].
  - apply Err_inj, trial_failure_fields in H as (-> & -> & ->). by eapply spent_failed.
Qed.
End Preflight.


(** ** Witnesses *)

(** A provider that always gives the same diagnosis, or that always cuts it off *)
Module DemoTrial.
Definition diagnosis : mapping :=
  items [("root_cause", VStr "adHighCpu"); ("root_cause_candidates", VList [VStr "adHighCpu"]); ("evidence", VList []);
         ("claims", VList [])].
Definition parsed : mapping :=
  items [("claims", VList []); ("evidence", VList []); ("root_cause", VStr "adHighCpu");
         ("root_cause_candidates", VList [VStr "adHighCpu"])].
Definition content : val := VStr (default "" (dumps canonical_style (VDict diagnosis))).
Definition choice (finish : string) : val := sdict [("finish_reason", VStr finish); ("message", sdict [("content", content)])].
Definition body (finish : string) : val :=
  sdict [("model", VStr MODEL_ID); ("choices", VList [choice finish]);
         ("usage", sdict [("prompt_tokens", VInt 100); ("completion_tokens", VInt 20)])].
Definition respond (finish : string) (_ : nat) (_ : list message) : response := Http 200 (Some (body finish)).
Definition latency (_ : nat) : val := VInt 1.
Definition arm : arm_config := {| min_turns := 2; max_turns := 4 |}.
Local Abbreviation packet := (Demo.packet "SEED-01").
Local Abbreviation turn_of := (one_turn (λ _, None) (respond "stop") latency latency "naive_react" packet).

Lemma answer_read finish : body_usage (Some (body finish)) = Ok (choice finish, (100, 20)%Z).
Proof. reflexivity. Qed.
Lemma content_loads : val_loads content = Ok (VDict parsed).
Proof. vm_compute. reflexivity. Qed.
Lemma diagnosis_canonical : canonical_diagnosis parsed = Ok diagnosis.
Proof. vm_compute. reflexivity. Qed.
Lemma packet_case : dfind "case_id" packet = Some (VStr "SEED-01").
Proof. unfold Demo.packet. by rewrite dfind_sdict. Qed.
Lemma draft_read turn st : read_draft (λ _, None) latency "naive_react" packet turn st (choice "stop") = Ok diagnosis.
Proof.
  unfold read_draft. change (py (subscript (choice "stop") "message")) with (Ok (E:=readiness_exn) (sdict [("content", content)])).
  cbn [rbind]. change (py (subscript (sdict [("content", content)]) "content")) with (Ok (E:=readiness_exn) content).
  cbn [rbind]. rewrite content_loads. cbn [py rmap_err rbind]. rewrite diagnosis_canonical. cbn [rbind].
  unfold subscript. rewrite packet_case. reflexivity.
Qed.
Lemma diagnosis_digest : ∃ g, digest_json (VDict diagnosis) = Ok g.
Proof.
  unfold digest_json. destruct (dumps_total canonical_style (VDict diagnosis)) as [text ->]; [reflexivity|by eexists].
Qed.
Lemma prompted ds : Forall (λ d, d = diagnosis) ds → ∃ ms, build_baseline_prompt_v3 "naive_react" packet ds = Ok ms.
Proof.
  intros Hds. unfold build_baseline_prompt_v3. destruct (Demo.packet_valid "SEED-01") as [out ->]. cbn [rbind].
  rewrite bool_decide_eq_true_2 by left. cbn [negb]. unfold canonical_text at 1.
  destruct (dumps_total canonical_style _ (Demo.packet_json "SEED-01")) as [text ->]. cbn [from_option_or rbind].
  destruct (rmapM_all correction_turn (λ _, True) ds) as (turns & -> & _).
  - intros d Hd. rewrite Forall_forall in Hds. rewrite (Hds d Hd). unfold correction_turn, canonical_text.
    destruct (dumps_total canonical_style (VDict diagnosis)) as [t ->]; [reflexivity|]. by eexists.
  - cbn [rbind]. by eexists.
Qed.
Lemma turn_answered turn st g : digest_json (VDict diagnosis) = Ok g → Forall (λ d, d = diagnosis) (drafts st) →
  over_budget (add_usage latency turn (100, 20)%Z "stop" st) = false →
  turn_of turn st = Ok (add_draft diagnosis g (add_usage latency turn (100, 20)%Z "stop" st)).
Proof.
  intros Hg Hds Hb.
  unfold one_turn. destruct (prompted _ Hds) as [ms ->]. cbn [rmap_err rbind]. unfold respond.
  change (bool_decide (200%Z = 429%Z) || (500 <=? 200)%Z) with false. change (400 <=? 200)%Z with false. cbv iota.
  unfold read_answer. rewrite answer_read. change (get_attr (choice "stop") "finish_reason" VNone) with (Ok (E:=string) (VStr "stop")).
  cbv iota zeta. change (val_str (val_or (VStr "stop") (VStr ""))) with "stop". rewrite Hb.
  change (val_is (VStr "stop") "length") with false. cbv iota. rewrite draft_read. cbn [rmap_err rbind fst snd]. by rewrite Hg.
Qed.
Lemma answered : ∃ result, invoke (λ _, None) (respond "stop") latency latency "naive_react" packet arm = Ok result.
Proof.
  unfold invoke. destruct (Demo.packet_valid "SEED-01") as [out ->]. destruct diagnosis_digest as [g Hg].
  cbn [rmap_err rbind arm max_turns seq turn_loop].
  pose proof (turn_answered 1 trial_start g Hg (Forall_nil_2 _) eq_refl) as H1. rewrite H1. clear H1.
  set (st1 := add_draft _ _ _). cbn [rbind]. change (min_turns _ <=? 1)%nat with false. cbn [andb].
  assert (Forall (λ d, d = diagnosis) (drafts st1)) as Hd by exact (Forall_cons_2 _ _ _ eq_refl (Forall_nil_2 _)).
  pose proof (turn_answered 2 st1 g Hg Hd eq_refl) as H2. rewrite H2. clear H2. cbn [rbind].
  change (min_turns _ <=? 2)%nat with true. cbn [andb].
  assert (agree (draft_digests (add_draft diagnosis g (add_usage latency 2 (100, 20)%Z "stop" st1))) = true) as ->
    by exact (bool_decide_eq_true_2 (g = g) eq_refl).
  cbn [rbind]. change (last (drafts (add_draft diagnosis g (add_usage latency 2 (100, 20)%Z "stop" st1)))) with (Some diagnosis).
  cbv iota.
  unfold subscript. rewrite packet_case. cbn [from_option_or py rmap_err rbind]. by eexists.
Qed.
Lemma cut_off : ∃ reason i o t,
  invoke (λ _, None) (respond "length") latency latency "naive_react" packet arm = Err (TrialFailed "output_truncated" reason i o t).
Proof.
  unfold invoke. destruct (Demo.packet_valid "SEED-01") as [out ->]. cbn [rmap_err rbind arm max_turns seq turn_loop].
  unfold one_turn. destruct (prompted []) as [ms Hms]; [constructor|]. cbn [trial_start drafts]. rewrite Hms. cbn [rmap_err rbind].
  unfold respond. change (bool_decide (200%Z = 429%Z) || (500 <=? 200)%Z) with false. change (400 <=? 200)%Z with false. cbv iota.
  unfold read_answer. rewrite answer_read.
  change (get_attr (choice "length") "finish_reason" VNone) with (Ok (E:=string) (VStr "length")). cbv iota zeta.
  set (st1 := add_usage _ _ _ _ _). change (over_budget st1) with false. change (val_is (VStr "length") "length") with true. cbv iota. cbn [rbind].
  unfold trial_failure, json_copy. destruct (dumps_total canonical_style (sdict (telemetry_fields st1))) as [text ->]; [reflexivity|].
  do 4 eexists. reflexivity.
Qed.
Lemma tokens_honest finish : counts_tokens (respond finish).
Proof.
  intros turn ms status b c i o [= <- <-]. rewrite answer_read. intros [= <- <- <-].
  split; [|unfold MAX_COMPLETION_TOKENS; lia]. unfold request_allowance, REQUEST_TEMPLATE_ALLOWANCE.
  assert (0 ≤ sum_z (message_allowance <$> ms))%Z; [|lia].
  induction ms as [|m ms IH]; [done|]. rewrite fmap_cons, sum_z_cons.
  assert (0 <= message_allowance m)%Z; [|lia]. unfold message_allowance, MESSAGE_FRAMING_ALLOWANCE, MAX_COMPLETION_TOKENS.
  pose proof (byte_length_nonneg (LiveAdapter.content m)). case_bool_decide; lia.
Qed.
Lemma preflighted : ∃ b, four_turn_input_upper_bound_v3 packet = Ok b.
Proof.
  unfold four_turn_input_upper_bound_v3. destruct (prompted []) as [ms Hms]; [constructor|]. rewrite Hms. cbn [rbind].
  apply prompt_shape in Hms as (text & turns & _ & _ & ->). unfold subscript. rewrite packet_case. cbn [from_option_or py rmap_err rbind].
  by eexists.
Qed.
End DemoTrial.

Lemma answered_trials_keep_their_contract_witness : ∃ result st reason,
  invoke (λ _, None) (DemoTrial.respond "stop") DemoTrial.latency DemoTrial.latency "naive_react" (Demo.packet "SEED-01") DemoTrial.arm
    = Ok result ∧
  ended DemoTrial.arm (draft_digests st) reason ∧ is_Some (last (drafts st)).
Proof.
  destruct DemoTrial.answered as [result Hr].
  destruct (answered_trials_keep_their_contract (λ _, None) (DemoTrial.respond "stop") DemoTrial.latency DemoTrial.latency "naive_react"
    (Demo.packet "SEED-01") DemoTrial.arm result) as (st & draft & case_id & reason & n & _ & _ & _ & _ & Hend & _ & _ & _ & _ & Hlast & _).
  - cbn. lia.
  - exact Hr.
  - exists result, st, reason. split; [exact Hr|]. split; [exact Hend|]. exists draft. exact Hlast.
Defined.


(** A body that is not an object is not scored as malformed: the [AttributeError] of
    [body.get] passes every handler of the adapter. *)
Lemma bodies_that_are_not_objects_escape latency packet st :
  read_answer (λ _, None) latency latency "no_rag" packet 1 st (Some (VList [])) = Err (AdapterRaised "AttributeError").
Proof. reflexivity. Qed.
