(* ===== verification/Baselines.v ===== *)
(** * The baselines of metric versions 1 and 2

    [faultwitness_dev/g02_baselines.py]: the registry of quality floors, the packets of
    metric version 2 with their atomic evidence groups, the deterministic baselines of both
    versions, and the scorers that keep the closed evidence of version 1 reproducible. *)
From S2P Require Import Prelude Json JsonFacts Sha256 PyDyn PyFloat Packet Scoring Lab Matrix.

Definition LEGACY_METRIC_VERSION : Z := 1.
(** [METRIC_VERSION] of this file *)
Definition G02_METRIC_VERSION : Z := 2.
Definition require_g02_metric_version (metric_version : Z) : R unit :=
  raise_if negb (bool_decide (metric_version ∈ [LEGACY_METRIC_VERSION; G02_METRIC_VERSION]))
    with_ RGovernance ("unsupported G02 metric version: " +:+ int_repr metric_version);;
  Ok tt.
Definition wire_schema_for_metric (metric_version : Z) : R string :=
  let* _ := require_g02_metric_version metric_version in
  Ok (if bool_decide (metric_version = LEGACY_METRIC_VERSION) then "1.0.0" else "2.0.0").

(** ** Quality floors *)

Definition decimal (tok : string) : val := VFloat tok.
Definition floor_document (operator : string) (value : val) : val := sdict [("operator", VStr operator); ("value", value)].
Definition CORE_FLOOR : string := "max(0.70,best_baseline+0.10)".
Definition QUALITY_FLOORS : mapping := smapping
  [("core_e2e", floor_document ">=" (VStr CORE_FLOOR));
   ("root_cause_top3", floor_document ">=" (decimal "0.85"));
   ("evidence_precision", floor_document ">=" (decimal "0.9"));
   ("unsupported_critical_claim", floor_document "<=" (decimal "0.02"));
   ("tool_schema_validity", floor_document ">=" (decimal "0.99"));
   ("dead_no_progress_loop", floor_document "<" (decimal "0.01"));
   ("fault_family_success", floor_document ">=" (decimal "0.55"))].

Definition measured_floor (runner field : string) : val :=
  sdict [("status", VStr "measured"); ("runner", VStr runner); ("artifact_field", VStr field)].
Definition inapplicable_floor (why runner artifact : string) : val :=
  sdict [("status", VStr "not_applicable"); ("reason", VStr why);
         ("proof_obligation", sdict [("gate", VStr "G03"); ("runner", VStr runner); ("required_artifact", VStr artifact)])].
Definition QUALITY_FLOOR_EVIDENCE_V2 : mapping := smapping
  [("core_e2e", measured_floor "g02.aggregate_gate_baselines" "baselines.*.metrics.core_e2e");
   ("root_cause_top3", measured_floor "g02.aggregate_gate_baselines" "baselines.*.metrics.root_cause_top3");
   ("evidence_precision", measured_floor "g02.score_result" "baselines.*.metrics.evidence_precision");
   ("unsupported_critical_claim", measured_floor "g02.score_result" "baselines.*.metrics.unsupported_critical_claim");
   ("tool_schema_validity", inapplicable_floor "G02 baselines make no applicable tool calls" "g03.tool_contract_matrix"
                              "per-call schema verdicts");
   ("dead_no_progress_loop", inapplicable_floor "no Agent loop exists before G03" "g03.termination_guard_matrix"
                               "per-trial terminal reasons and progress digests");
   ("fault_family_success", measured_floor "g02.aggregate_gate_baselines" "baselines.*.fault_family_success")].

Definition validate_threshold_registry (thresholds : mapping) (metric_version : Z) (evidence : option mapping) : R unit :=
  let* _ := require_g02_metric_version metric_version in
  raise_if negb (py_eq (VDict thresholds) (VDict QUALITY_FLOORS))
    with_ RGovernance "G02 seven-value quality floor registry drifted";;
  if bool_decide (metric_version = LEGACY_METRIC_VERSION) then Ok tt
  else
    raise_if match evidence with Some e => negb (py_eq (VDict e) (VDict QUALITY_FLOOR_EVIDENCE_V2)) | None => true end
      with_ RGovernance "metric v2 quality floors lack exact runner evidence";;
    Ok tt.

Definition resolve_quality_floor (metric : string) (best_baseline : double) : R double :=
  match dfind metric QUALITY_FLOORS with
  | None => Err (RGovernance ("unknown quality floor: " +:+ metric))
  | Some entry =>
      let* value := py (subscript entry "value") in
      if bool_decide (metric = "core_e2e") then
        raise_if negb (val_is value CORE_FLOOR) with_ RGovernance "Core E2E quality floor expression drifted";;
        raise_if negb (dle dzero best_baseline && dle best_baseline one)
          with_ RGovernance "best baseline must be a probability";;
        Ok (dmax (dec 7 1) (dadd best_baseline (dec 1 1)))
      else from_option_or (RGovernance ("quality floor is not numeric: " +:+ metric)) (val_double value)
  end.

(** One turn of the loop over the evidence *)
Definition check_floor_proof (computed : list string) (kv : val * val) : R unit :=
  let metric := val_str kv.1 in
  let* status := py (get_attr kv.2 "status" VNone) in
  if val_is status "measured" then
    raise_if negb (bool_decide (metric ∈ computed))
      with_ RGovernance ("quality floor has no computed metric evidence: " +:+ metric);;
    Ok tt
  else if val_is status "not_applicable" then
    let* obligation := py (get_attr kv.2 "proof_obligation" VNone) in
    let* why := py (get_attr kv.2 "reason" VNone) in
    match obligation with
    | VDict obligation =>
        raise_if negb (val_truthy why)
          with_ RGovernance ("quality floor lacks an inapplicability proof obligation: " +:+ metric);;
        raise_if negb (has_fields ["gate"; "runner"; "required_artifact"] obligation)
          with_ RGovernance ("quality floor proof obligation is incomplete: " +:+ metric);;
        Ok tt
    | _ => Err (RGovernance ("quality floor lacks an inapplicability proof obligation: " +:+ metric))
    end
  else Err (RGovernance ("quality floor has an invalid evidence status: " +:+ metric)).
Definition validate_quality_floor_coverage (computed : list string) (evidence : mapping) : R unit :=
  let* _ := validate_threshold_registry QUALITY_FLOORS G02_METRIC_VERSION (Some evidence) in
  rfor (check_floor_proof computed) evidence.

(** ** The packets of version 2 *)

Definition needle_in (needles : list string) (description : val) : bool :=
  existsb (λ needle, str_contains (casefold needle) (casefold (val_str description))) needles.
Definition filtered_descriptions (observation : mapping) (needles : list string) : list val :=
  match default (VList []) (dfind "descriptions" observation) with
  | VList descriptions => VStr ∘ val_str <$> List.filter (needle_in needles) descriptions
  | _ => []
  end.
(** The projection of one observation *)
Definition evidence_sample (fields needles : list string) (observation : mapping) : R val :=
  let* copies := rmapM (λ field, let* copy := json_round default_style (dget field observation) in Ok (field, copy))
                   (List.filter (λ field, has_key field observation) fields) in
  Ok (sdict (copies ++ match needles with
                       | [] => []
                       | _ => [("descriptions", VList (filtered_descriptions observation needles))]
                       end)).
Definition evidence_samples (observations : list mapping) (fields needles : list string) : R val :=
  let* samples := rmapM (evidence_sample fields needles) observations in Ok (VList samples).

(** The six groups: kind, source, service, metric and unit, fields, needles *)
Record group_spec := {
  gs_kind : string;
  gs_source : string;
  gs_service : string;
  gs_metric : list (string * val);
  gs_fields : list string;
  gs_needles : list string;
}.
Definition series_of (metric unit_name : string) : list (string * val) := [("metric", VStr metric); ("unit", VStr unit_name)].
Definition GROUPS_V2 : list group_spec :=
  [{| gs_kind := "catalog_error_trace"; gs_source := "trace_and_journey"; gs_service := "productcatalogservice"; gs_metric := [];
      gs_fields := ["recorded_at"; "journey_status"; "trace_count"; "error_spans"];
      gs_needles := ["product catalog"; "feature flag enabled"] |};
   {| gs_kind := "cpu_timeseries"; gs_source := "prometheus"; gs_service := "adservice";
      gs_metric := series_of "container_cpu_usage_rate" "cpu_cores";
      gs_fields := ["recorded_at"; "cpu_rate"; "baseline_cpu_max"; "trace_count"]; gs_needles := [] |};
   {| gs_kind := "memory_timeseries"; gs_source := "prometheus"; gs_service := "emailservice";
      gs_metric := series_of "container_memory_working_set" "bytes";
      gs_fields := ["recorded_at"; "working_set"; "baseline_working_set"]; gs_needles := [] |};
   {| gs_kind := "payment_application_error"; gs_source := "trace"; gs_service := "paymentservice"; gs_metric := [];
      gs_fields := ["recorded_at"; "checkout_error_spans"; "error_spans"];
      gs_needles := ["invalid token"; "payment request failed"] |};
   {| gs_kind := "payment_connectivity_error"; gs_source := "trace"; gs_service := "paymentservice"; gs_metric := [];
      gs_fields := ["recorded_at"; "checkout_error_spans"; "payment_connection_errors"];
      gs_needles := ["name resolver"; "zero addresses"; "unavailable"] |};
   {| gs_kind := "kafka_lag_timeseries"; gs_source := "prometheus_and_logs"; gs_service := "kafka";
      gs_metric := series_of "consumer_poll_lag" "seconds";
      gs_fields := ["recorded_at"; "consumer_lag"; "baseline_lag"; "consumer_poll_lag_seconds"; "consumer_record_lag"];
      gs_needles := [] |}].
Definition evidence_suffix (n : Z) : string := "EVID-" +:+ pad2 n.
Definition evidence_group (case_id : string) (observations : list mapping) (ng : Z * group_spec) : R val :=
  let g := ng.2 in
  let* samples := evidence_samples observations (gs_fields g) (gs_needles g) in
  Ok (sdict ([("id", VStr (case_id +:+ "-" +:+ evidence_suffix (ng.1 + 1))); ("kind", VStr (gs_kind g));
              ("source", VStr (gs_source g)); ("service", VStr (gs_service g))] ++ gs_metric g ++ [("samples", samples)])).

Definition packet_observations (packet : mapping) : list val :=
  match dget "observations" packet with VList l => l | _ => [] end.
Definition normalize_observation_packet_v2 (packet : mapping) : R mapping :=
  let* source := canonical_observation_packet packet in
  let observations := omap as_dict (packet_observations source) in
  raise_if negb (bool_decide (length observations = length (packet_observations source)))
    with_ RGovernance "metric v2 packet contains a non-object observation";;
  let* case_id := py (subscript (VDict source) "case_id") in
  let case_id := val_str case_id in
  let* evidence := rmapM (evidence_group case_id observations) (numbered GROUPS_V2) in
  let* brief := py (subscript (VDict source) "problem_brief") in
  let normalized := smapping
    [("schema_version", VStr "2.0.0"); ("case_id", VStr case_id); ("problem_brief", brief);
     ("evidence_catalog_version", VStr "g02-baseline-v2"); ("observations", VList evidence)] in
  let* digest := digest_json (VDict normalized) in
  canonical_observation_packet (dset "packet_digest" (VStr digest) normalized).

(** ** The truth of a case *)

Fixpoint index_of (label : string) (labels : list string) : option nat :=
  match labels with
  | [] => None
  | l :: labels => if bool_decide (l = label) then Some 0%nat else S <$> index_of label labels
  end.
(** The suffix of the evidence that [_v2_ground_truth] requires *)
Definition v2_ground_truth (root_cause : string) : R string :=
  let* index := from_option_or (RGovernance ("metric v2 received an unknown sealed label: " +:+ root_cause))
                  (index_of root_cause ROOT_CAUSE_LABELS) in
  Ok (evidence_suffix (Z.of_nat index + 1)).
Definition observation_ids (packet : mapping) : list string :=
  (λ d, val_str (dget "id" d)) <$> omap as_dict (packet_observations packet).
Definition v2_evidence_id (packet : mapping) (suffix : string) : R string :=
  let* case_id := py (subscript (VDict packet) "case_id") in
  let expected := val_str case_id +:+ "-" +:+ suffix in
  raise_if negb (bool_decide (expected ∈ observation_ids packet))
    with_ RGovernance ("metric v2 packet lacks expected evidence group: " +:+ suffix);;
  Ok expected.

(** ** The deterministic baseline of version 2 *)

Definition samples_for_kind (packet : mapping) (kind : string) : R (string * list mapping) :=
  match List.filter (λ d, val_is (dget "kind" d) kind) (omap as_dict (packet_observations packet)) with
  | [g] =>
      match dget "samples" g with
      | VList samples => let* id := py (subscript (VDict g) "id") in Ok (val_str id, omap as_dict samples)
      | _ => Err (RGovernance ("metric v2 packet lacks one " +:+ kind +:+ " evidence group"))
      end
  | _ => Err (RGovernance ("metric v2 packet lacks one " +:+ kind +:+ " evidence group"))
  end.

(** [any(p(x) for x in xs)] where [p] may raise *)
Fixpoint rany {A} (p : A → R bool) (xs : list A) : R bool :=
  match xs with
  | [] => Ok false
  | x :: xs' => let* b := p x in if b : bool then Ok true else rany p xs'
  end.
Definition any_description (needles : list string) (samples : list mapping) : R bool :=
  rany (λ sample,
    let descriptions := default (VList []) (dfind "descriptions" sample) in
    let* items := py (iterate descriptions) in
    Ok (match descriptions with VList _ => existsb (needle_in needles) items | _ => false end)) samples.

(** [float(sample.get(key, default))] *)
Definition float_at (sample : mapping) (key : string) (dflt : val) : R xnum :=
  py (val_xfloat (default dflt (dfind key sample))).
Definition infinity : val := VFloat "Infinity".
Definition zero : val := VFloat "0.0".
Definition lag_above (sample : mapping) : R bool :=
  let* lag := float_at sample "consumer_lag" zero in
  let* base := float_at sample "baseline_lag" infinity in
  Ok (xlt base lag).
Definition cpu_above (sample : mapping) : R bool :=
  let* rate := float_at sample "cpu_rate" zero in
  let* base := float_at sample "baseline_cpu_max" infinity in
  Ok (xle (xmax (XFin (dec 5 1)) (xmul base (XFin (double_of_int 5)))) rate).
(** The positive numbers of a key *)
Definition positive_floats (key : string) (samples : list mapping) : R (list xnum) :=
  let* found := rmapM (λ sample,
    match dget key sample with
    | (VInt _ | VFloat _ | VBool _) as v =>
        let* x := py (val_xfloat v) in Ok (if xlt (XFin dzero) x then [x] else [])
    | _ => Ok []
    end) samples in
  Ok (concat found).
Definition memory_grows (samples : list mapping) : R bool :=
  let* working := positive_floats "working_set" samples in
  let* bases := positive_floats "baseline_working_set" samples in
  match working, last working, bases with
  | first :: _ :: _, Some latest, base :: bases =>
      let base := foldl xmax base bases in
      let growth := minimum_growth base in
      Ok (xle growth (xsub latest base) && xle growth (xsub latest first))
  | _, _, _ => Ok false
  end.

Definition deterministic_v2 (packet : mapping) : R (string * string) :=
  let* catalog := samples_for_kind packet "catalog_error_trace" in
  let* cpu := samples_for_kind packet "cpu_timeseries" in
  let* memory := samples_for_kind packet "memory_timeseries" in
  let* payment := samples_for_kind packet "payment_application_error" in
  let* connectivity := samples_for_kind packet "payment_connectivity_error" in
  let* kafka := samples_for_kind packet "kafka_lag_timeseries" in
  let* b := any_description ["product catalog"; "feature flag enabled"] catalog.2 in
  if b : bool then Ok ("productCatalogFailure", catalog.1) else
  let* b := any_description ["name resolver"; "zero addresses"; "unavailable"] connectivity.2 in
  if b : bool then Ok ("paymentUnreachable", connectivity.1) else
  let* b := any_description ["invalid token"; "payment request failed"] payment.2 in
  if b : bool then Ok ("paymentFailure", payment.1) else
  let* b := if (2 <=? length kafka.2)%nat then rall lag_above kafka.2 else Ok false in
  if b : bool then Ok ("kafkaQueueProblems", kafka.1) else
  let* b := if (2 <=? length cpu.2)%nat then rall cpu_above cpu.2 else Ok false in
  if b : bool then Ok ("adHighCpu", cpu.1) else
  let* b := memory_grows memory.2 in
  if b : bool then Ok ("emailMemoryLeak", memory.1) else
  let* first := py (first_item (dget "observations" packet)) in
  let* id := py (subscript first "id") in
  Ok ("unknown", val_str id).

(** ** The deterministic baseline of version 1 *)

Definition cpu_signature (item : mapping) : R bool :=
  if val_truthy (dget "correlated_span" item) then
    let* rate := float_at item "cpu_rate" zero in
    let* base := float_at item "baseline_cpu_max" infinity in
    Ok (xlt base rate)
  else Ok false.
Definition memory_signature (rows : list mapping) : R bool :=
  match rows, last rows with
  | first :: _ :: _, Some latest =>
      if forallb (has_key "email_stimulus_count") rows then
        let* now := float_at latest "working_set" zero in
        let* before := float_at first "working_set" zero in
        Ok (xlt before now)
      else Ok false
  | _, _ => Ok false
  end.
Definition kafka_signature (item : mapping) : R bool :=
  if val_truthy (dget "kafka_error" item) then lag_above item else Ok false.
(** The signatures, in order, and the cause each stands for *)
Definition SIGNATURES : list ((list mapping → R bool) * string) :=
  [(λ rows, Ok (forallb (both "journey_failed" "correlated_error") rows), "productCatalogFailure");
   (rall cpu_signature, "adHighCpu");
   (memory_signature, "emailMemoryLeak");
   (λ rows, Ok (forallb (both "checkout_failed" "payment_error") rows), "paymentFailure");
   (λ rows, Ok (forallb (both "checkout_failed" "connection_error") rows), "paymentUnreachable");
   (rall kafka_signature, "kafkaQueueProblems")].
(** [next((candidate for ...), "unknown")] *)
Fixpoint first_signature (signatures : list ((list mapping → R bool) * string)) (rows : list mapping) : R string :=
  match signatures with
  | [] => Ok "unknown"
  | (predicate, candidate) :: signatures =>
      let* b := predicate rows in if b : bool then Ok candidate else first_signature signatures rows
  end.

Definition answer_document (schema_version root : string) (case_id : val) (evidence : list string) (claims : list val) : mapping :=
  smapping [("schema_version", VStr schema_version); ("case_id", case_id); ("root_cause", VStr root);
            ("root_cause_candidates", VList [VStr root]); ("evidence", VList (VStr <$> evidence)); ("claims", VList claims);
            ("status", VStr "ok"); ("baseline", VStr "deterministic")].
Definition root_claim (root : string) (refs : list string) : val :=
  sdict [("claim_type", VStr "root_cause"); ("value", VStr root); ("evidence_refs", VList (VStr <$> refs))].
(** The identifiers of the observations that have one *)
Definition named_observations (observations : list mapping) : list string :=
  omap (λ d, if val_truthy (dget "id" d) then Some (val_str (dget "id" d)) else None) observations.
Definition deterministic_baseline (packet : mapping) (metric_version : Z) : R mapping :=
  let* _ := require_g02_metric_version metric_version in
  let* packet := canonical_observation_packet packet in
  let* case_id := py (subscript (VDict packet) "case_id") in
  if bool_decide (metric_version = G02_METRIC_VERSION) then
    let* answer := deterministic_v2 packet in
    let '(root, id) := answer in
    Ok (answer_document "2.0.0" root case_id [id] [root_claim root [id]])
  else
    let observations := omap as_dict (packet_observations packet) in
    let* root := first_signature SIGNATURES observations in
    Ok (answer_document "1.0.0" root case_id (named_observations observations) []).

(** ** Scores *)

(** The sealed truth a scorer reads: version 1 has the evidence it accepts, version 2 the
    evidence it requires and the distractors. *)
Record g02_truth := {
  tr_root_cause : string;
  tr_evidence : option (list string);
  tr_required : list string;
  tr_distractors : list string;
}.
(** A score; a metric that is absent or [None] was not computed. *)
Record g02_score := {
  gs_status : string;
  gs_failure_class : option string;
  gs_reason : string;
  gs_core_e2e : double;
  gs_root_cause_top3 : option double;
  gs_evidence_precision : option double;
  gs_unsupported : option double;
  gs_tool_validity : option double;
  gs_output_validity : option double;
}.

(** [_metric_v2_failure], with the class and the validity that replace its own *)
Definition v2_failure (why class : string) (output : double) : g02_score :=
  {| gs_status := "scored_failure"; gs_failure_class := Some class; gs_reason := why; gs_core_e2e := dzero;
     gs_root_cause_top3 := Some dzero; gs_evidence_precision := Some dzero; gs_unsupported := Some one;
     gs_tool_validity := None; gs_output_validity := Some output |}.
Definition metric_v2_failure (why : string) : g02_score := v2_failure why "malformed" dzero.

Definition truth_contradictory_v2 (t : g02_truth) : bool :=
  negb (bool_decide (tr_root_cause t ∈ ROOT_CAUSE_LABELS)) || bool_decide (tr_required t = []) ||
  existsb (λ e, bool_decide (e ∈ tr_distractors t)) (tr_required t).

(** From the labels to the score; the lists of evidence stand for sets. *)
Definition score_diagnosis_v2 (d : diagnosis) (t : g02_truth) : g02_score :=
  let invalid := sort_strings (remove_dups (filter (λ l, l ∉ ROOT_CAUSE_LABELS)
                   (dg_root_cause d :: dg_candidates d ++ [dg_claim_value d]))) in
  let selected := remove_dups (dg_evidence d) in
  let refs := remove_dups (dg_claim_refs d) in
  let unknown := sort_strings (filter (λ e, e ∉ tr_required t ++ tr_distractors t) (remove_dups (selected ++ refs))) in
  if negb (bool_decide (invalid = [])) then
    v2_failure ("closed root-cause labels were not used: " +:+ str_join ", " invalid) "invalid_label" one
  else if negb (bool_decide (dg_claim_value d = dg_root_cause d)) then
    v2_failure "typed root-cause claim does not match root_cause" "claim_contract" one
  else if negb (bool_decide (unknown = [])) then
    v2_failure ("diagnosis references unknown evidence: " +:+ str_join ", " unknown) "unknown_evidence" one
  else
    let distracted := existsb (λ e, bool_decide (e ∈ tr_distractors t)) in
    let right := bool_decide (dg_root_cause d = tr_root_cause t) in
    let complete := forallb (λ e, bool_decide (e ∈ selected)) (tr_required t) in
    let claim_supported := right && forallb (λ e, bool_decide (e ∈ refs)) (tr_required t) && negb (distracted refs) in
    let top3 := right || bool_decide (tr_root_cause t ∈ take 3 (dg_candidates d)) in
    let precision :=
      if bool_decide (selected = []) then dzero
      else ddiv (double_of_int (Z.of_nat (length (filter (λ e, e ∈ tr_required t) selected))))
                (double_of_int (Z.of_nat (length selected))) in
    {| gs_status := "scored";
       gs_failure_class :=
         if distracted selected || distracted refs then Some "distractor_evidence"
         else if negb right then Some "wrong_root_cause"
         else if negb complete then Some "missing_required_evidence"
         else if negb claim_supported then Some "unsupported_critical_claim" else None;
       gs_reason := ""; gs_core_e2e := flag (right && complete && negb (distracted selected) && claim_supported);
       gs_root_cause_top3 := Some (flag top3); gs_evidence_precision := Some precision;
       gs_unsupported := Some (flag (negb claim_supported)); gs_tool_validity := None; gs_output_validity := Some one |}.

Section Score.
(** The validation of a result against [RESULT_SCHEMA_V1] or [RESULT_SCHEMA_V2], by the
    version: the location and message of the error it raises *)
Context (schema_error : Z → mapping → option (string * string)).

Definition validate_result (result : mapping) (metric_version : Z) : R unit :=
  let* _ := require_g02_metric_version metric_version in
  match schema_error metric_version result with
  | Some (location, message) =>
      Err (RGovernance ("baseline result violates metric v" +:+ int_repr metric_version +:+ " schema at " +:+
             (if truthy location then location else "<root>") +:+ ": " +:+ message))
  | None => Ok tt
  end.

(** [bool(claim.get("supported") is False)] of a mapping *)
Definition disowned (claim : val) : bool :=
  match claim with VDict c => match dget "supported" c with VBool false => true | _ => false end | _ => false end.
Definition score_result_v1 (result : mapping) (t : g02_truth) : R g02_score :=
  match validate_result result LEGACY_METRIC_VERSION with
  | Err e => Ok {| gs_status := "scored_failure"; gs_failure_class := Some "malformed"; gs_reason := exn_text e;
                   gs_core_e2e := dzero; gs_root_cause_top3 := None; gs_evidence_precision := None; gs_unsupported := None;
                   gs_tool_validity := None; gs_output_validity := None |}
  | Ok _ =>
      let actual := val_str (dget "root_cause" result) in
      let* candidates := strings_of (default (VList []) (dfind "root_cause_candidates" result)) in
      let* claims := py (iterate (default (VList []) (dfind "claims" result))) in
      let evidence := default (VList []) (dfind "evidence" result) in
      let right := bool_decide (actual = tr_root_cause t) in
      let top3 := right || bool_decide (tr_root_cause t ∈ take 3 candidates) in
      let* supported :=
        if val_truthy evidence then
          let* cited := strings_of evidence in
          Ok (forallb (λ e, bool_decide (e ∈ default cited (tr_evidence t))) cited)
        else Ok false in
      Ok {| gs_status := "scored"; gs_failure_class := if right then None else Some "wrong_root_cause"; gs_reason := "";
            gs_core_e2e := flag (right && supported); gs_root_cause_top3 := Some (flag top3);
            gs_evidence_precision := Some (flag supported); gs_unsupported := Some (flag (existsb disowned claims));
            gs_tool_validity := Some one; gs_output_validity := None |}
  end.
Definition score_result_v2 (result : mapping) (t : g02_truth) : R g02_score :=
  match validate_result result G02_METRIC_VERSION with
  | Err e => Ok (metric_v2_failure (exn_text e))
  | Ok _ =>
      raise_if truth_contradictory_v2 t with_ RGovernance "metric v2 ground truth is incomplete or contradictory";;
      let* d := read_diagnosis result in
      Ok (score_diagnosis_v2 d t)
  end.
Definition score_result (result : mapping) (t : g02_truth) (metric_version : Z) : R g02_score :=
  let* _ := require_g02_metric_version metric_version in
  if bool_decide (metric_version = LEGACY_METRIC_VERSION) then score_result_v1 result t else score_result_v2 result t.
End Score.
