(* ===== verification/GateMatrix.v ===== *)
(** * The Gate matrices of metric versions 1 and 2

    [faultwitness_dev/g02_baselines.py]: the adapter of a live arm, the live trials under the
    experiment runner, the dataset of thirty-two cases, the deterministic and live matrices
    with their validation, and the aggregate of the baselines.  The provider, the clock and
    the draws of the bootstrap are arguments. *)
From S2P Require Import Prelude Json JsonFacts Sha256 PyDyn PyFloat Packet Scoring Lab Matrix Thresholds Reference LiveAdapter Baselines.
From S2P Require Experiment.

(** ** Prompts *)

Definition contract_v2 : string :=
  "Choose only from this closed root-cause label set: " +:+ str_join ", " ROOT_CAUSE_LABELS +:+ ". " +:+
  "Return exactly one JSON object with root_cause, root_cause_candidates, evidence, " +:+
  "and claims. root_cause and every candidate must use an exact label from the set. " +:+
  "evidence must contain only IDs present in the packet and only evidence that directly " +:+
  "supports the diagnosis. claims must contain exactly one object shaped as " +:+
  "{" +:+ quote +:+ "claim_type" +:+ quote +:+ ":" +:+ quote +:+ "root_cause" +:+ quote +:+ "," +:+
  quote +:+ "value" +:+ quote +:+ ":" +:+ quote +:+ "<exact label>" +:+ quote +:+ "," +:+
  quote +:+ "evidence_refs" +:+ quote +:+ ":[" +:+ quote +:+ "<supporting evidence ID>" +:+ quote +:+ "]}. " +:+
  "Do not emit a supported flag, do not rename fields, and do not add keys.".
Definition contract_v1 : string :=
  "Return exactly one JSON object using these exact keys: root_cause (string), " +:+
  "root_cause_candidates (array of at most three strings), evidence (array of " +:+
  "observation ID strings), and claims (array of objects with claim and supported). " +:+
  "Do not rename evidence to evidence_ids and do not add keys.".
Definition gate_mode (baseline : string) : string :=
  if bool_decide (baseline = "naive_react") then
    "Use a minimal ReAct-style diagnosis over only the supplied packet. " +:+
    "Do not reveal private reasoning; return only the final structured diagnosis."
  else "Use no retrieval and no tools. Diagnose only from the supplied packet.".
Definition build_baseline_prompt (baseline : string) (packet : mapping) (metric_version : Z) : R (list message) :=
  let* _ := require_g02_metric_version metric_version in
  let* packet := canonical_observation_packet packet in
  raise_if negb (bool_decide (baseline ∈ ["naive_react"; "no_rag"]))
    with_ RGovernance ("unknown G02 live baseline: " +:+ baseline);;
  let* text := from_option_or (RPython "TypeError") (dumps sorted_style (VDict packet)) in
  Ok [{| role := "system";
         content := gate_mode baseline +:+ " Never infer or request ground truth or locked-test data. " +:+
                    (if bool_decide (metric_version = G02_METRIC_VERSION) then contract_v2 else contract_v1) |};
      {| role := "user"; content := text |}].

(** ** The adapter *)

(** The limits of [load_baseline_config]: turns, tool calls, input and output tokens *)
Record arm_limits := { max_input_tokens : Z; max_output_tokens : Z }.
Definition LIMITS (baseline : string) : option arm_limits :=
  if bool_decide (baseline = "naive_react") then Some {| max_input_tokens := 8000; max_output_tokens := 1024 |}
  else if bool_decide (baseline = "no_rag") then Some {| max_input_tokens := 4000; max_output_tokens := 512 |}
  else None.

(** From the body of an answer to the result, and whether the route is another one *)
Definition gate_result (baseline : string) (metric_version : Z) (packet : mapping) (latency : val) (body : option val)
    : result body_error mapping :=
  let* body := body_py (from_option_or "JSONDecodeError" body) in
  let* model := body_py (get_attr body "model" VNone) in
  raise_if negb (bool_decide (val_str (val_or model (VStr MODEL_ID)) = MODEL_ID)) with_ Reconfigured;;
  let* choices := body_py (subscript body "choices") in
  let* choice := body_py (first_item choices) in
  let* message := body_py (subscript choice "message") in
  let* content := body_py (subscript message "content") in
  let* parsed := body_py (val_loads content) in
  let* usage := body_py (get_attr body "usage" VNone) in
  let* answer := from_option_or (BodyRaised (RPython "ValueError")) (as_dict parsed) in
  match usage with
  | VDict usage =>
      match dfind "prompt_tokens" usage, dfind "completion_tokens" usage with
      | Some prompt, Some completion =>
          let* wire := rmap_err BodyRaised (wire_schema_for_metric metric_version) in
          let* case_id := body_py (subscript (VDict packet) "case_id") in
          let* input_tokens := body_py (val_int prompt) in
          let* output_tokens := body_py (val_int completion) in
          let* limits := from_option_or (BodyRaised (RPython "KeyError")) (LIMITS baseline) in
          raise_if (max_input_tokens limits <? input_tokens)%Z
            with_ BodyRaised (RGovernance "baseline input token budget exhausted");;
          raise_if (max_output_tokens limits <? output_tokens)%Z
            with_ BodyRaised (RGovernance "baseline output token budget exhausted");;
          Ok (updated answer (smapping
            [("schema_version", VStr wire); ("case_id", case_id); ("status", VStr "ok"); ("baseline", VStr baseline);
             ("model_id", VStr MODEL_ID); ("fallback_count", VInt 0); ("input_tokens", VInt input_tokens);
             ("output_tokens", VInt output_tokens); ("latency_ms", latency)]))
      | _, _ => Err Reconfigured
      end
  | _ => Err Reconfigured
  end.
Definition gate_caught (e : readiness_exn) : adapter_outcome :=
  match e with
  | RPython name =>
      if bool_decide (name ∈ MALFORMED) then GovernanceFailed "baseline returned malformed structured output"
      else AdapterRaised name
  | e => GovernanceFailed (exn_text e)
  end.
Definition make_bailian_adapter (respond : list message → response) (latency : val) (baseline : string) (metric_version : Z)
    (packet : mapping) : adapter_outcome :=
  match build_baseline_prompt baseline packet metric_version with
  | Err e => escapes e
  | Ok messages =>
      match respond messages with
      | Transport error => InfrastructureFailed ("transport:" +:+ error)
      | PostRaised exn => AdapterRaised exn
      | Http status body =>
          if bool_decide (status = 429%Z) || (500 <=? status)%Z then InfrastructureFailed ("upstream_http_" +:+ int_repr status)
          else if (400 <=? status)%Z then ConfigurationFailed
          else
            match gate_result baseline metric_version packet latency body with
            | Ok d => Answered d
            | Err Reconfigured => ConfigurationFailed
            | Err (BodyRaised e) => gate_caught e
            end
      end
  end.

(** ** Live trials *)

Section Live.
Context (schema_error : Z → mapping → option (string * string)).

(** The handler of [except GovernanceError]: what the adapter returned, if it did *)
Definition gate_malformed (spec : trial_spec) (result : option mapping) (message : string) : R mapping :=
  let d := default [] result in
  let* input_tokens := match d with [] => Ok 0%Z | _ => tokens_of d "input_tokens" end in
  let* output_tokens := match d with [] => Ok 0%Z | _ => tokens_of d "output_tokens" end in
  trial_payload spec (inl (scored_failure "malformed" message (match d with [] => VNone | _ => dget "model_id" d end)
      (match d with [] => VInt 0 | _ => dget "fallback_count" d end)))
    input_tokens output_tokens None.
Definition gate_answered (spec : trial_spec) (d : mapping) (metric_version : Z) : R mapping :=
  let* _ := validate_result schema_error d metric_version in
  let* input_tokens := tokens_of d "input_tokens" in
  let* output_tokens := tokens_of d "output_tokens" in
  trial_payload spec (inr d) input_tokens output_tokens None.
Definition execute_gate (spec : trial_spec) (metric_version : Z) (outcome : adapter_outcome) : result Experiment.exn mapping :=
  match outcome with
  | Answered d =>
      match gate_answered spec d metric_version with
      | Ok payload => Ok payload
      | Err e =>
          if is_governance e then rmap_err runner_exn (gate_malformed spec (Some d) (exn_text e))
          else Err (runner_exn e)
      end
  | InfrastructureFailed message => Err (Experiment.ExperimentInfrastructureError message)
  | ConfigurationFailed => Err (Experiment.OtherError "LiveConfigurationError")
  | GovernanceFailed message | TrialFailed _ message _ _ _ => rmap_err runner_exn (gate_malformed spec None message)
  | AdapterRaised exn => Err (Experiment.OtherError exn)
  end.
(** [adapter(packet) if adapter else deterministic_baseline(packet)] *)
Definition gate_outcome (adapter : option (mapping → adapter_outcome)) (metric_version : Z) (packet : mapping) : adapter_outcome :=
  match adapter with
  | Some adapter => adapter packet
  | None => match deterministic_baseline packet metric_version with Ok d => Answered d | Err e => escapes e end
  end.
Definition gate_handler (adapter : option (mapping → adapter_outcome)) (metric_version : Z) (spec : trial_spec) : Experiment.handler :=
  λ _ _, match execute_gate spec metric_version (gate_outcome adapter metric_version (ts_packet spec)) with
         | Ok payload => Experiment.HReturn (smapping [("status", VStr "pass"); ("payload", VDict payload)])
         | Err e => Experiment.HRaise e
         end.
(** One turn of the loop over the trials: the spec with its frozen packet, and the unit *)
Definition gate_unit (metric_version : Z) (spec : trial_spec) : result Experiment.exn (trial_spec * Experiment.ExperimentUnit) :=
  let* packet := rmap_err runner_exn (canonical_observation_packet (ts_packet spec)) in
  let frozen := {| ts_trial_id := ts_trial_id spec; ts_baseline := ts_baseline spec; ts_case_id := ts_case_id spec;
                   ts_repetition := ts_repetition spec; ts_packet := packet |} in
  let* input_digest := rmap_err runner_exn
    (digest_json (sdict [("baseline", VStr (ts_baseline spec)); ("metric_version", VInt metric_version);
                         ("packet", VDict packet); ("repetition", VInt (ts_repetition spec))])) in
  let* u := Experiment.check_unit
    {| Experiment.unit_id := ts_trial_id spec; Experiment.required_checkpoints := ["model_route"];
       Experiment.depends_on := []; Experiment.input_digest := input_digest; Experiment.destructive := false |} in
  Ok (frozen, u).
Definition gate_route (metric_version : Z) : Experiment.str_mapping :=
  [("model_route", MODEL_ID +:+ ":metric-v" +:+ int_repr metric_version)].
Definition gate_handlers (adapter : option (mapping → adapter_outcome)) (metric_version : Z)
    (us : list (trial_spec * Experiment.ExperimentUnit)) (id : string) : option Experiment.handler :=
  '(spec, _) ← List.find (λ u, bool_decide (Experiment.unit_id u.2 = id)) us;
  Some (gate_handler adapter metric_version spec).
Definition run_live_trials (now : nat → string) (adapter : option (mapping → adapter_outcome)) (sha : string)
    (metric_version : Z) (specs : list trial_spec) : SE Experiment.journal Experiment.exn (list (string * Experiment.trial)) :=
  let! _ := slift (rmap_err runner_exn (require_g02_metric_version metric_version)) in
  let! us := slift (rmapM (gate_unit metric_version) specs) in
  let! runner := slift (Experiment.new_runner (snd <$> us) (gate_route metric_version) sha) in
  let! run := Experiment.run now runner (gate_handlers adapter metric_version us) None in
  sret (zip (ts_trial_id <$> specs) (Experiment.records run)).
End Live.

(** ** The dataset *)

Record g02_case := { gc_packet : mapping; gc_truth : g02_truth; gc_family : string }.
Abbreviation g02_cases := (list (string * g02_case)).
Fixpoint put_case (id : string) (c : g02_case) (cs : g02_cases) : g02_cases :=
  match cs with
  | [] => [(id, c)]
  | (id', c') :: cs' => if bool_decide (id = id') then (id, c) :: cs' else (id', c') :: put_case id c cs'
  end.
Definition str_difference (xs ys : list string) : list string := sort_strings (remove_dups (filter (λ x, x ∉ ys) xs)).
(** The packet and the truth of a case, by the version *)
Definition truth_of (metric_version : Z) (packet : mapping) (fault_class : string) : R (mapping * g02_truth) :=
  if bool_decide (metric_version = G02_METRIC_VERSION) then
    let* packet := normalize_observation_packet_v2 packet in
    let* suffix := v2_ground_truth fault_class in
    let* required := v2_evidence_id packet suffix in
    Ok (packet, {| tr_root_cause := fault_class; tr_evidence := None; tr_required := [required];
                   tr_distractors := str_difference (observation_ids packet) [required] |})
  else
    Ok (packet, {| tr_root_cause := fault_class;
                   tr_evidence := Some (named_observations (omap as_dict (packet_observations packet)));
                   tr_required := []; tr_distractors := [] |}).
Definition gate_case (metric_version : Z) (cs : g02_cases) (trial : val) : R g02_cases :=
  match trial with
  | VDict trial =>
      raise_if negb (val_is (dget "status" trial) "pass")
        with_ RGovernance "G02 baseline input contains an incomplete scenario";;
      match dget "payload" trial with
      | VDict payload =>
          let* packet := from_option_or (RPython "TypeError") (as_dict (default (VDict []) (dfind "observation_packet" payload))) in
          let* packet := canonical_observation_packet packet in
          let* case_id := py (subscript (VDict packet) "case_id") in
          let fault_class := val_str (default (VStr "") (dfind "fault_class" payload)) in
          match default (VDict []) (dfind "result" payload) with
          | VDict result =>
              raise_if negb (truthy fault_class) with_ RGovernance "G02 scenario trial lacks sealed evaluator truth";;
              let* packet_truth := truth_of metric_version packet fault_class in
              Ok (put_case (val_str case_id)
                    {| gc_packet := packet_truth.1; gc_truth := packet_truth.2;
                       gc_family := val_str (default (VStr "") (dfind "family" result)) |} cs)
          | _ => Err (RGovernance "G02 scenario trial lacks sealed evaluator truth")
          end
      | _ => Err (RGovernance "G02 scenario trial lacks a payload")
      end
  | _ => Err (RGovernance "G02 baseline input contains an incomplete scenario")
  end.
Definition gate_cases (document : mapping) (metric_version : Z) : R g02_cases :=
  let* _ := require_g02_metric_version metric_version in
  match dget "trials" document with
  | VList trials =>
      raise_if negb (bool_decide (length trials = 32%nat))
        with_ RGovernance "G02 baseline input requires exactly 32 scenario trials";;
      let* cs := rfold (gate_case metric_version) trials [] in
      raise_if negb (bool_decide (length cs = 32%nat)) with_ RGovernance "G02 baseline input case IDs are not unique";;
      Ok cs
  | _ => Err (RGovernance "G02 baseline input requires exactly 32 scenario trials")
  end.

Definition g02_truth_document (t : g02_truth) : val :=
  sdict ([("root_cause", VStr (tr_root_cause t))] ++
         match tr_evidence t with
         | Some evidence => [("evidence", VList (VStr <$> evidence))]
         | None => [("required_evidence", VList (VStr <$> tr_required t)); ("distractor_evidence", VList (VStr <$> tr_distractors t))]
         end).
Definition metric_v2_dataset_digest (document : mapping) : R string :=
  let* cs := gate_cases document G02_METRIC_VERSION in
  let* subject := rmapM (λ c : string * g02_case,
    let* digest := py (subscript (VDict (gc_packet c.2)) "packet_digest") in
    Ok (c.1, sdict [("packet_digest", digest); ("ground_truth", g02_truth_document (gc_truth c.2));
                    ("family", VStr (gc_family c.2))])) (sort_keys cs) in
  digest_json (sdict subject).

(** ** The deterministic matrix *)

Record gate_row := {
  gr_case_id : string;
  gr_family : string;
  gr_truth_access : bool;
  gr_result : mapping;
  gr_score : g02_score;
}.
Definition validate_deterministic_matrix (rows : list gate_row) : R unit :=
  raise_if negb (bool_decide (length rows = 32%nat))
    with_ RGovernance "G02 deterministic Gate matrix must contain exactly 32 rows";;
  let ids := remove_dups (gr_case_id <$> rows) in
  raise_if negb (bool_decide (length ids = 32%nat)) || existsb (λ id, negb (startswith id "SEED-G02-")) ids
    with_ RGovernance "G02 deterministic matrix case registry drifted";;
  raise_if existsb gr_truth_access rows with_ RGovernance "G02 deterministic baseline accessed ground truth";;
  Ok tt.

(** ** The live matrix *)

Definition GATE_ARMS : list string := ["naive_react"; "no_rag"].
Definition gate_spec (dataset_digest baseline : string) (metric_version : Z) (c : string * g02_case) (repetition : Z) : R trial_spec :=
  let* digest := digest_json
    (sdict [("dataset_digest", VStr dataset_digest); ("metric_version", VInt metric_version); ("baseline", VStr baseline);
            ("model_id", VStr MODEL_ID); ("case_id", VStr c.1); ("repetition", VInt repetition)]) in
  Ok {| ts_trial_id := "g02-v" +:+ int_repr metric_version +:+ "-" +:+ digest; ts_baseline := baseline; ts_case_id := c.1;
        ts_repetition := repetition; ts_packet := gc_packet c.2 |}.
Definition gate_trial_specs (dataset_digest : string) (cs : g02_cases) (metric_version : Z) : R (list (string * list trial_spec)) :=
  let* _ := require_g02_metric_version metric_version in
  rmapM (λ baseline,
    let* specs := rmapM (λ c, rmapM (gate_spec dataset_digest baseline metric_version c) (repetitions_of 3)) (sort_keys cs) in
    Ok (baseline, concat specs)) GATE_ARMS.

(** [result.get(...)], where a result that is not a mapping raises *)
Definition gate_live_row (record : string * Experiment.trial) : R live_row :=
  let payload := Experiment.payload (Experiment.current record.2) in
  let result := get_or payload "result" (VDict []) in
  let status := Experiment.status (Experiment.current record.2) in
  let* result_status := if bool_decide (status = "pass") then py (get_attr result "status" VNone) else Ok VNone in
  let* fallback := py (get_attr result "fallback_count" (VInt 0)) in
  Ok {| lr_trial_id := record.1; lr_baseline := dget "baseline" payload; lr_case_id := dget "case_id" payload;
        lr_repetition := dget "repetition" payload;
        lr_status := if val_is result_status "scored_failure" then "scored_failure" else status;
        lr_fallback_count := fallback; lr_input_tokens := get_or payload "input_tokens" (VInt 0);
        lr_output_tokens := get_or payload "output_tokens" (VInt 0); lr_cost_cny := get_or payload "cost_cny" (VFloat "0.0");
        lr_failure_class := VNone; lr_telemetry := VNone; lr_result := result |}.
Definition gate_cells : list cell :=
  baseline ← GATE_ARMS; case ← seq 1 32; repetition ← repetitions_of 3; [(baseline, seed_case_id case, repetition)].
Definition validate_live_matrix (rows : list live_row) : R unit :=
  raise_if negb (bool_decide (length rows = 192%nat)) with_ RGovernance "G02 live Gate matrix must contain exactly 192 trials";;
  let* actual := rmapM row_cell rows in
  raise_if negb (forallb (λ c, bool_decide (c ∈ gate_cells)) actual && forallb (λ c, bool_decide (c ∈ actual)) gate_cells)
    with_ RGovernance "G02 live trial registry drifted";;
  raise_if existsb (λ r, negb (bool_decide (lr_status r ∈ ["pass"; "scored_failure"]))) rows
    with_ RGovernance "G02 live matrix has unresolved trials";;
  raise_if existsb (λ r, negb (py_eq (lr_fallback_count r) (VInt 0))) rows
    with_ RGovernance "G02 live matrix used a fallback route";;
  Ok tt.

Section Matrices.
Context (schema_error : Z → mapping → option (string * string)).

Definition gate_deterministic_row (metric_version : Z) (c : string * g02_case) : R gate_row :=
  let* result := deterministic_baseline (gc_packet c.2) metric_version in
  let* s := score_result schema_error result (gc_truth c.2) metric_version in
  Ok {| gr_case_id := c.1; gr_family := gc_family c.2; gr_truth_access := false; gr_result := result; gr_score := s |}.
Definition run_gate_deterministic_matrix (document : mapping) (metric_version : Z) : R (list gate_row) :=
  let* _ := require_g02_metric_version metric_version in
  let* cs := gate_cases document metric_version in
  let* rows := rmapM (gate_deterministic_row metric_version) (sort_keys cs) in
  let* _ := validate_deterministic_matrix rows in
  Ok rows.

(** The arms one after the other, on the journal each leaves *)
Fixpoint run_gate_arms (now : nat → string) (adapters : string → mapping → adapter_outcome) (sha : string) (metric_version : Z)
    (arms : list (string * list trial_spec)) : SE Experiment.journal Experiment.exn (list (string * Experiment.trial)) :=
  match arms with
  | [] => sret []
  | (baseline, specs) :: arms =>
      let! records := run_live_trials schema_error now (Some (adapters baseline)) sha metric_version specs in
      let! rest := run_gate_arms now adapters sha metric_version arms in
      sret (records ++ rest)
  end.
(** The status and the rows of the matrix *)
Definition run_gate_live_matrix (now : nat → string) (adapters : string → mapping → adapter_outcome) (sha dataset_digest : string)
    (document : mapping) (metric_version : Z) : SE Experiment.journal Experiment.exn (string * list live_row) :=
  let! cs := slift (rmap_err runner_exn (gate_cases document metric_version)) in
  let! specs := slift (rmap_err runner_exn (gate_trial_specs dataset_digest cs metric_version)) in
  let! records := run_gate_arms now adapters sha metric_version specs in
  let! rows := slift (rmap_err runner_exn (rmapM gate_live_row records)) in
  let unresolved := existsb (λ r, bool_decide (lr_status r = "infra_failed")) rows in
  let! _ := slift (if unresolved then Ok tt else rmap_err runner_exn (validate_live_matrix rows)) in
  sret (if unresolved then "infra_failed" else "pass", rows).
End Matrices.

(** ** The aggregate *)

(** A row of a baseline: a trial or a deterministic row with its score *)
Record gate_scored := {
  gx_baseline : string;
  gx_case_id : string;
  gx_family : string;
  gx_input_tokens : Z;
  gx_output_tokens : Z;
  gx_cost : double;
  gx_score : g02_score;
}.
Definition gate_metric (metric : string) (s : g02_score) : option double :=
  if bool_decide (metric = "core_e2e") then Some (gs_core_e2e s)
  else if bool_decide (metric = "root_cause_top3") then gs_root_cause_top3 s
  else if bool_decide (metric = "evidence_precision") then gs_evidence_precision s
  else if bool_decide (metric = "unsupported_critical_claim") then gs_unsupported s
  else if bool_decide (metric = "tool_schema_validity") then gs_tool_validity s
  else gs_output_validity s.
Definition metrics_of (metric_version : Z) : list string :=
  ["core_e2e"; "root_cause_top3"; "evidence_precision"; "unsupported_critical_claim"] ++
  if bool_decide (metric_version = G02_METRIC_VERSION) then [] else ["tool_schema_validity"].

Record gate_metrics := {
  gm_clusters : nat;
  gm_metrics : list (string * interval);
  gm_input_tokens : Z;
  gm_output_tokens : Z;
  gm_cost : double;
  gm_families : list (string * interval);   (* of version 2 *)
}.

Section Aggregate.
Context (schema_error : Z → mapping → option (string * string)).
Context (randrange : string → nat → nat → nat).

(** Clusters in the order of their first row *)
Definition percentile_cluster_bootstrap (metric : string) (rows : list gate_scored) (seed : string) (B : nat) : R interval :=
  let* values := rmapM (λ r,
    let* x := from_option_or (RGovernance ("bootstrap metric was not computed: " +:+ metric)) (gate_metric metric (gx_score r)) in
    Ok (gx_case_id r, x)) rows in
  raise_if bool_decide (values = []) with_ RGovernance "bootstrap requires at least one case cluster";;
  cluster_bootstrap randrange seed (snd <$> grouped values) B.

Definition family_intervals (rows : list gate_scored) (dataset_digest : string) : R (list (string * interval)) :=
  let families := sort_strings (remove_dups (gx_family <$> rows)) in
  raise_if bool_decide (families = []) || existsb (λ f, negb (truthy f)) families
    with_ RGovernance "metric v2 rows lack fault-family attribution";;
  rmapM (λ family,
    let* i := percentile_cluster_bootstrap "core_e2e" (List.filter (λ r, bool_decide (gx_family r = family)) rows)
                (dataset_digest +:+ ":" +:+ family) BOOTSTRAP_RESAMPLES in Ok (family, i)) families.
Definition aggregate_live_metrics (rows : list gate_scored) (dataset_digest : string) (metric_version : Z) : R gate_metrics :=
  let* _ := require_g02_metric_version metric_version in
  let* metrics := rmapM (λ metric,
    let* i := percentile_cluster_bootstrap metric rows dataset_digest BOOTSTRAP_RESAMPLES in Ok (metric, i))
    (metrics_of metric_version) in
  let* families := if bool_decide (metric_version = G02_METRIC_VERSION) then family_intervals rows dataset_digest else Ok [] in
  Ok {| gm_clusters := length (remove_dups (gx_case_id <$> rows)); gm_metrics := metrics;
        gm_input_tokens := sum_z (gx_input_tokens <$> rows); gm_output_tokens := sum_z (gx_output_tokens <$> rows);
        gm_cost := double_sum (gx_cost <$> rows); gm_families := families |}.

(** The score of a trial that has none *)
Definition unscoreable (metric_version : Z) : g02_score :=
  if bool_decide (metric_version = G02_METRIC_VERSION) then metric_v2_failure "trial did not produce a scoreable result"
  else {| gs_status := ""; gs_failure_class := None; gs_reason := ""; gs_core_e2e := dzero; gs_root_cause_top3 := Some dzero;
          gs_evidence_precision := Some dzero; gs_unsupported := Some one; gs_tool_validity := Some dzero;
          gs_output_validity := None |}.
Definition gate_score_row (metric_version : Z) (cs : g02_cases) (row : live_row) : R gate_scored :=
  let case_id := val_str (lr_case_id row) in
  let* case := from_option_or (RPython "KeyError") (table_get cs case_id) in
  let* s := match lr_result row with
            | VDict result =>
                if bool_decide (lr_status row = "pass") then score_result schema_error result (gc_truth case) metric_version
                else Ok (unscoreable metric_version)
            | _ => Ok (unscoreable metric_version)
            end in
  let* input_tokens := py (val_int (lr_input_tokens row)) in
  let* output_tokens := py (val_int (lr_output_tokens row)) in
  let* cost := float_of (lr_cost_cny row) in
  Ok {| gx_baseline := val_str (lr_baseline row); gx_case_id := case_id; gx_family := gc_family case;
        gx_input_tokens := input_tokens; gx_output_tokens := output_tokens; gx_cost := cost; gx_score := s |}.
Definition gate_score_deterministic (cs : g02_cases) (row : gate_row) : R gate_scored :=
  let* case := from_option_or (RPython "KeyError") (table_get cs (gr_case_id row)) in
  Ok {| gx_baseline := "deterministic"; gx_case_id := gr_case_id row; gx_family := gc_family case; gx_input_tokens := 0;
        gx_output_tokens := 0; gx_cost := dzero; gx_score := gr_score row |}.

Record gate_aggregate := {
  ga_baselines : list (string * gate_metrics);
  ga_deterministic_core : double;     (* of version 1 *)
  ga_best : option (string * double); (* this and the floors: of version 2 *)
  ga_comparison_floor : double;
  ga_future_floor : double;
  ga_scored : list gate_scored;
}.
Definition measured : list string :=
  ["core_e2e"; "root_cause_top3"; "evidence_precision"; "unsupported_critical_claim"; "fault_family_success"].
Definition gate_core (m : string * gate_metrics) : R (string * double) :=
  let* i := table_at (gm_metrics m.2) "core_e2e" in Ok (m.1, estimate i).
Definition aggregate_gate_baselines (document : mapping) (deterministic : list gate_row) (live : list live_row)
    (dataset_digest : string) (metric_version : Z) : R gate_aggregate :=
  let* _ := require_g02_metric_version metric_version in
  let* cs := gate_cases document metric_version in
  raise_if negb (bool_decide (length live = 192%nat)) with_ RGovernance "G02 aggregate requires exactly 192 live trials";;
  let* scored := rmapM (gate_score_row metric_version cs) live in
  let* arms := rmapM (λ baseline,
    let* m := aggregate_live_metrics (List.filter (λ r, String.eqb (gx_baseline r) baseline) scored) dataset_digest metric_version in
    Ok (baseline, m)) GATE_ARMS in
  raise_if negb (bool_decide (length deterministic = 32%nat))
    with_ RGovernance "G02 aggregate requires exactly 32 deterministic rows";;
  if bool_decide (metric_version = G02_METRIC_VERSION) then
    let* rows := rmapM (gate_score_deterministic cs) deterministic in
    let* m := aggregate_live_metrics rows dataset_digest metric_version in
    let baselines := arms ++ [("deterministic", m)] in
    let* _ := validate_quality_floor_coverage measured QUALITY_FLOOR_EVIDENCE_V2 in
    let* estimates := rmapM gate_core baselines in
    let best := best_of estimates in
    let* floor := resolve_quality_floor "core_e2e" best.2 in
    Ok {| ga_baselines := baselines; ga_deterministic_core := dzero; ga_best := Some best;
          ga_comparison_floor := dadd best.2 (dec 5 2); ga_future_floor := floor; ga_scored := scored |}
  else
    Ok {| ga_baselines := arms;
          ga_deterministic_core :=
            ddiv (double_sum ((λ r, gs_core_e2e (gr_score r)) <$> deterministic)) (double_of_int 32);
          ga_best := None; ga_comparison_floor := dzero; ga_future_floor := dzero; ga_scored := scored |}.
End Aggregate.

(** ** Resuming *)

Definition resumable_trial_ids (document : mapping) : R (list string) :=
  match dget "trials" document with
  | VList trials =>
      raise_if existsb (λ item, match item with
                                | VDict d => negb (val_in (dget "status" d) ["pending"; "running"; "pass"; "scored_failure"; "infra_failed"])
                                | _ => true
                                end) trials
        with_ RGovernance "G02 journal snapshot contains an invalid trial status";;
      rmapM (λ d, let* id := py (subscript (VDict d) "trial_id") in Ok (val_str id))
        (List.filter (λ d, val_in (dget "status" d) ["pending"; "infra_failed"]) (omap as_dict trials))
  | _ => Err (RGovernance "G02 journal snapshot lacks trials")
  end.
