(* ===== verification/GateMatrixTheorems.v ===== *)
(** * Theorems on the second laboratory's baselines

    The scorers and packets of metric versions 1 and 2, and the matrices of their gate. *)
From S2P Require Import Prelude Json JsonFacts Sha256 PyDyn PyFloat Packet Scoring ScoringTheorems PacketTheorems Lab Matrix Baselines Thresholds Reference ReferenceTheorems LiveAdapter GateMatrix.
From S2P Require Experiment.

(** ** Theorems on the baselines of metric versions 1 and 2

    Metric version 3 scores as version 2 does wherever a diagnosis cites the same evidence
    twice; the packets of version 2 show nothing of the fields the evaluator derived; and
    the truth of every case of a dataset is one its scorer accepts. *)

(** *** The scorers of versions 2 and 3 *)

(** The score of version 3 with the numbers of a score of version 2 *)
Definition as_v3 (s : g02_score) : score :=
  {| score_status := gs_status s; failure_class := gs_failure_class s; reason := gs_reason s; core_e2e := gs_core_e2e s;
     root_cause_top3 := default dzero (gs_root_cause_top3 s); evidence_precision := default dzero (gs_evidence_precision s);
     unsupported_critical_claim := default dzero (gs_unsupported s);
     output_schema_validity := default dzero (gs_output_validity s) |}.
Definition truth_v2 (t : ground_truth) : g02_truth :=
  {| tr_root_cause := gt_root_cause t; tr_evidence := None; tr_required := required_evidence t;
     tr_distractors := distractor_evidence t |}.

Lemma existsb_same {A} (p : A → bool) xs ys : (∀ x, x ∈ xs ↔ x ∈ ys) → existsb p xs = existsb p ys.
Proof.
  intros H. apply eq_true_iff_eq. rewrite !existsb_exists. split; intros (x & Hx & Hp); exists x; (split; [|done]);
    apply list_elem_of_In, H, list_elem_of_In, Hx.
Qed.
Lemma forallb_members (xs ys zs : list string) : (∀ x, x ∈ ys ↔ x ∈ zs) →
  forallb (λ e, bool_decide (e ∈ ys)) xs = forallb (λ e, bool_decide (e ∈ zs)) xs.
Proof. intros H. induction xs as [|x xs IH]; [done|]. cbn. rewrite IH. f_equal. by apply bool_decide_ext. Qed.
Lemma sorted_filter_same (P : string → Prop) `{∀ x, Decision (P x)} (xs ys : list string) :
  (∀ x, x ∈ xs ↔ x ∈ ys) → NoDup xs → NoDup ys → sort_strings (filter P xs) = sort_strings (filter P ys).
Proof.
  intros H0 Hx Hy. apply sort_strings_perm, NoDup_Permutation; [by apply NoDup_filter..|].
  intros x. rewrite !list_elem_of_filter, H0. done.
Qed.

(** C25: Metric version 3 is metric version 2 with one more condition: a diagnosis whose claim
    refers to the evidence it cites scores the same in both, failures and their reasons
    included; any other earns nothing in version 3. *)
Theorem metric_v3_tightens_v2 d t :
  ((∀ e, e ∈ dg_evidence d ↔ e ∈ dg_claim_refs d) → score_diagnosis d t = as_v3 (score_diagnosis_v2 d (truth_v2 t))) ∧
  (¬ (∀ e, e ∈ dg_evidence d ↔ e ∈ dg_claim_refs d) → core_e2e (score_diagnosis d t) = dzero).
Proof.
  split.
  - intros Hsame. unfold score_diagnosis, score_diagnosis_v2. cbn [truth_v2 tr_root_cause tr_required tr_distractors].
    destruct (negb (bool_decide (sort_strings _ = []))); [done|].
    destruct (negb (bool_decide (dg_claim_value d = _))); [done|].
    assert (forallb (λ e, bool_decide (e ∈ dg_claim_refs d)) (remove_dups (dg_evidence d)) &&
            forallb (λ e, bool_decide (e ∈ remove_dups (dg_evidence d))) (dg_claim_refs d) = true) as ->.
    { apply andb_true_iff. rewrite !forallb_elem. split; intros e He.
      - apply Hsame. by rewrite elem_of_remove_dups in He.
      - apply elem_of_remove_dups. by apply Hsame. }
    cbn [negb]. set (selected := remove_dups (dg_evidence d)). set (refs := remove_dups (dg_claim_refs d)).
    assert (∀ e, e ∈ refs ↔ e ∈ selected) as Hrefs by (intros e; unfold refs, selected; by rewrite !elem_of_remove_dups, Hsame).
    rewrite (sorted_filter_same _ (remove_dups (selected ++ refs)) selected).
    + destruct (negb (bool_decide (sort_strings _ = []))); [done|].
      rewrite (forallb_members _ refs selected), (existsb_same _ refs selected) by done.
      unfold as_v3. cbn [gs_status gs_failure_class gs_reason gs_core_e2e gs_root_cause_top3 gs_evidence_precision gs_unsupported
        gs_output_validity default]. destruct (bool_decide (dg_root_cause d = _)), (forallb _ _), (existsb _ _); done.
    + intros e. rewrite elem_of_remove_dups, elem_of_app, Hrefs. tauto.
    + apply NoDup_remove_dups.
    + apply NoDup_remove_dups.
  - intros Hdiff. unfold score_diagnosis. destruct (negb (bool_decide (sort_strings _ = []))); [done|].
    destruct (negb (bool_decide (dg_claim_value d = _))); [done|].
    destruct (forallb _ _ && forallb _ _) eqn:E; [|done]. exfalso. apply Hdiff.
    apply andb_true_iff in E. rewrite !forallb_elem in E. destruct E as [H1 H2]. intros e. split; intros He.
    + apply H1. by apply elem_of_remove_dups.
    + apply H2 in He. by rewrite elem_of_remove_dups in He.
Qed.

Lemma metric_v3_tightens_v2_witness :
  core_e2e (score_diagnosis
    {| dg_root_cause := "adHighCpu"; dg_candidates := ["adHighCpu"]; dg_claim_value := "adHighCpu"; dg_evidence := ["a"];
       dg_claim_refs := [] |}
    {| gt_case_id := "case"; gt_root_cause := "adHighCpu"; required_evidence := ["a"]; distractor_evidence := ["b"];
       required_kinds := []; distractor_kinds := [] |}) = dzero.
Proof.
  apply metric_v3_tightens_v2. cbn [dg_evidence dg_claim_refs]. intros H.
  assert ("a" ∈ ([] : list string)) as Hin by (apply H; left). exact (not_elem_of_nil _ Hin).
Defined.

(** *** What the packets of version 2 show *)

(** The fields that some group projects *)
Definition SHOWN_FIELDS : list string := "descriptions" :: (g ← GROUPS_V2; gs_fields g).
(** The booleans with which the oracles judge an observation *)
Definition DERIVED_FIELDS : list string :=
  ["journey_failed"; "correlated_error"; "correlated_span"; "checkout_failed"; "payment_error"; "connection_error"; "kafka_error";
   "kafka_log_error"; "kafka_fault_log"].
Definition shows_same (v w : val) : Prop :=
  ∃ o o', v = VDict o ∧ w = VDict o' ∧ ∀ f, f ∈ SHOWN_FIELDS → dfind f o = dfind f o'.

Lemma evidence_sample_shows fields needles o o' :
  (∀ f, f ∈ fields → dfind f o = dfind f o') → dfind "descriptions" o = dfind "descriptions" o' →
  evidence_sample fields needles o = evidence_sample fields needles o'.
Proof.
  intros Hf Hd. unfold evidence_sample, filtered_descriptions. rewrite Hd.
  match goal with |- rbind ?x _ = rbind ?y _ => assert (x = y) as ->; [|done] end.
  clear Hd. induction fields as [|f fields IH]; [done|]. cbn [List.filter].
  assert (has_key f o = has_key f o') as -> by (unfold has_key; by rewrite (Hf f) by left).
  specialize (IH (λ x Hx, Hf x (list_elem_of_further _ _ _ Hx))). destruct (has_key f o'); [|exact IH].
  cbn [rmapM]. rewrite IH. unfold dget. by rewrite (Hf f) by left.
Qed.
Lemma group_shows case_id os os' ng : ng.2 ∈ GROUPS_V2 →
  Forall2 (λ o o', ∀ f, f ∈ SHOWN_FIELDS → dfind f o = dfind f o') os os' →
  evidence_group case_id os ng = evidence_group case_id os' ng.
Proof.
  intros Hg Hos. unfold evidence_group, evidence_samples. f_equal. f_equal.
  induction Hos as [|o o' os os' Ho _ IH]; [done|]. cbn [rmapM]. rewrite IH. f_equal. apply evidence_sample_shows.
  - intros f Hf. apply Ho. right. apply list_elem_of_bind. by exists ng.2.
  - apply Ho. left.
Qed.
Lemma groups_same case_id os os' :
  Forall2 (λ o o', ∀ f, f ∈ SHOWN_FIELDS → dfind f o = dfind f o') os os' →
  rmapM (evidence_group case_id os) (numbered GROUPS_V2) = rmapM (evidence_group case_id os') (numbered GROUPS_V2).
Proof.
  intros Hos. assert (Forall (λ ng, ng.2 ∈ GROUPS_V2) (numbered GROUPS_V2)) as Hall.
  { apply Forall_forall. intros [n g] Hin. by apply numbered_snd in Hin. }
  induction Hall as [|ng ngs Hg _ IH]; [done|]. cbn [rmapM]. by rewrite (group_shows _ _ _ _ Hg Hos), IH.
Qed.
Lemma shown_dicts l l' : Forall2 shows_same l l' →
  Forall2 (λ o o', ∀ f, f ∈ SHOWN_FIELDS → dfind f o = dfind f o') (omap as_dict l) (omap as_dict l').
Proof. induction 1 as [|v w l l' (o & o' & -> & -> & Ho) _ IH]; cbn; [constructor|]. by constructor. Qed.
Lemma shown_all_dicts l l' : Forall2 shows_same l l' →
  length (omap as_dict l) = length l ∧ length (omap as_dict l') = length l'.
Proof. induction 1 as [|v w l l' (o & o' & -> & -> & Ho) _ [IH1 IH2]]; [done|]. cbn. lia. Qed.

(** The packets of metric version 2 do not show what the evaluator derived: whatever
    differs between the observations of two packets outside the projected fields, the booleans
    of the oracles among it, their normal forms and digests are the same. *)
Theorem normalization_hides_derived_fields p q s t :
  canonical_observation_packet p = Ok s → canonical_observation_packet q = Ok t →
  dfind "case_id" s = dfind "case_id" t → dfind "problem_brief" s = dfind "problem_brief" t →
  Forall2 shows_same (packet_observations s) (packet_observations t) →
  Forall (λ f, f ∉ SHOWN_FIELDS) DERIVED_FIELDS ∧ normalize_observation_packet_v2 p = normalize_observation_packet_v2 q.
Proof.
  intros Hs Ht Hc Hb Hobs. split; [apply (bool_decide_unpack _); by vm_compute|].
  unfold normalize_observation_packet_v2. rewrite Hs, Ht. cbn [rbind].
  destruct (shown_all_dicts _ _ Hobs) as [H1 H2]. rewrite H1, H2, !bool_decide_eq_true_2 by done. cbn [negb].
  unfold subscript. rewrite Hc, Hb. destruct (dfind "case_id" t) as [case_id|]; [|done]. cbn [from_option_or py rmap_err rbind].
  by rewrite (groups_same _ _ _ (shown_dicts _ _ Hobs)).
Qed.

(** A packet whose only observation has this flag *)
Definition demo_observation (derived : bool) : mapping :=
  smapping [("id", VStr "C-OBS-01"); ("payment_error", VBool derived); ("recorded_at", VStr "now"); ("cpu_rate", VFloat "0.5");
            ("descriptions", VList [VStr "Invalid token"])].
Definition demo_packet (derived : bool) : mapping :=
  smapping [("schema_version", VStr "1.0.0"); ("case_id", VStr "C"); ("problem_brief", VStr "slow");
            ("observations", VList [VDict (demo_observation derived)])].
Lemma normalization_hides_derived_fields_witness :
  normalize_observation_packet_v2 (demo_packet true) = normalize_observation_packet_v2 (demo_packet false).
Proof.
  refine (proj2 (normalization_hides_derived_fields (demo_packet true) (demo_packet false) _ _ _ _ _ _ _)).
  - vm_compute. reflexivity.
  - vm_compute. reflexivity.
  - reflexivity.
  - reflexivity.
  - constructor; [|constructor]. eexists _, _. split; [reflexivity|]. split; [reflexivity|].
    apply Forall_forall. repeat constructor.
Defined.

(** Without an object among its observations, every "all" of the first signature holds. *)
Lemma packets_without_objects_name_a_cause :
  rmap (dget "root_cause") (deterministic_baseline
    (smapping [("schema_version", VStr "1.0.0"); ("case_id", VStr "C"); ("problem_brief", VStr "slow");
               ("observations", VList [VStr "nothing was observed"])]) LEGACY_METRIC_VERSION)
  = Ok (VStr "productCatalogFailure").
Proof. vm_compute. reflexivity. Qed.

(** ** Theorems on the Gate matrices

    The truth of every case is one its scorer accepts; an accepted live matrix is complete;
    and what the records lose of a call that was paid. *)

(** *** Truths *)

Lemma index_of_elem label labels n : index_of label labels = Some n → label ∈ labels.
Proof.
  revert n. induction labels as [|l labels IH]; intros n; cbn; [done|]. case_bool_decide as Hl; [subst; left|].
  intros (m & Hm & _)%fmap_Some. right. by eapply IH.
Qed.
Lemma str_difference_elem e xs ys : e ∈ str_difference xs ys ↔ e ∈ xs ∧ e ∉ ys.
Proof. unfold str_difference. rewrite sort_strings_elem, elem_of_remove_dups, list_elem_of_filter. tauto. Qed.

(** The truth of a case of version 2: one required group of its packet, and the others *)
Definition consistent (c : g02_case) : Prop :=
  tr_root_cause (gc_truth c) ∈ ROOT_CAUSE_LABELS ∧
  ∃ required, tr_required (gc_truth c) = [required] ∧ required ∈ observation_ids (gc_packet c) ∧
    (∀ e, e ∈ tr_distractors (gc_truth c) ↔ e ∈ observation_ids (gc_packet c) ∧ e ≠ required).
Lemma consistent_accepted c : consistent c → truth_contradictory_v2 (gc_truth c) = false.
Proof.
  intros (Hroot & r & Hr & _ & Hd). unfold truth_contradictory_v2. rewrite Hr, (bool_decide_eq_true_2 _ Hroot).
  rewrite bool_decide_eq_false_2 by done. cbn [negb existsb orb]. rewrite orb_false_r. apply bool_decide_eq_false. rewrite Hd. tauto.
Qed.

Lemma truth_consistent packet fault_class p t family :
  truth_of G02_METRIC_VERSION packet fault_class = Ok (p, t) → consistent {| gc_packet := p; gc_truth := t; gc_family := family |}.
Proof.
  unfold truth_of. rewrite bool_decide_eq_true_2 by done. intros (norm & _ & H)%rbind_ok.
  apply rbind_ok in H as (suffix & Hs & H). apply rbind_ok in H as (required & Hr & H). apply Ok_inj in H. injection H as <- <-.
  unfold v2_ground_truth in Hs. apply rbind_ok in Hs as (n & Hn & _). apply from_option_or_ok, index_of_elem in Hn.
  unfold v2_evidence_id in Hr. apply rbind_ok in Hr as (id & _ & Hr). destruct (bool_decide (_ ∈ _)) eqn:Hin; [|discriminate Hr].
  apply Ok_inj in Hr as <-. apply bool_decide_eq_true in Hin. split; [done|]. cbn [gc_truth gc_packet tr_required tr_distractors].
  eexists. split; [done|]. split; [done|]. intros e. rewrite str_difference_elem, list_elem_of_singleton. done.
Qed.
Lemma put_case_elem id c cs x : x ∈ put_case id c cs → x = (id, c) ∨ x ∈ cs.
Proof.
  induction cs as [|[id' c'] cs IH]; cbn; [intros ?%list_elem_of_singleton; by left|].
  case_bool_decide; intros [->|Hx]%elem_of_cons; [by left|right; by right|right; left|].
  destruct (IH Hx) as [?|?]; [by left|right; by right].
Qed.
Lemma gate_case_consistent cs trial cs' : gate_case G02_METRIC_VERSION cs trial = Ok cs' →
  Forall (λ c, consistent c.2) cs → Forall (λ c, consistent c.2) cs'.
Proof.
  intros H Hcs. unfold gate_case in H. destruct trial as [| | | | | |trial|]; try discriminate H. destruct (negb _); [discriminate H|].
  destruct (dget "payload" trial) as [| | | | | |payload|]; try discriminate H.
  apply rbind_ok in H as (p0 & _ & H). apply rbind_ok in H as (p1 & _ & H). apply rbind_ok in H as (case_id & _ & H).
  destruct (default (VDict []) (dfind "result" payload)) as [| | | | | |result|]; try discriminate H. destruct (negb _); [discriminate H|].
  apply rbind_ok in H as ([p t] & Ht & H). apply Ok_inj in H as <-. cbn [fst snd].
  rewrite Forall_forall in Hcs. apply Forall_forall. intros x [->|Hx]%put_case_elem; [|by apply Hcs]. by eapply truth_consistent.
Qed.

(** Every case of a dataset of version 2 has a truth that its scorer accepts: a known
    root cause, one required group of its own packet, and as distractors all its other
    groups; so that scoring it never fails for the truth. *)
Theorem cases_have_consistent_truths document cs id c schema_error result e :
  gate_cases document G02_METRIC_VERSION = Ok cs → (id, c) ∈ cs →
  consistent c ∧
  (score_result schema_error result (gc_truth c) G02_METRIC_VERSION = Err e → ∃ name, e = RPython name).
Proof.
  intros H Hin. assert (consistent c) as Hc.
  { unfold gate_cases in H. apply rbind_ok in H as (u & _ & H). destruct (dget "trials" document) as [| | | | |trials| |]; try discriminate H.
    destruct (negb _); [discriminate H|]. apply rbind_ok in H as (cs' & Hf & H). destruct (negb _); [discriminate H|]. apply Ok_inj in H as ->.
    assert (Forall (λ c, consistent c.2) cs) as Hall.
    { eapply (rfold_invariant _ _ _ _ _ (λ s x s' _ Hs Hx, gate_case_consistent s x s' Hx Hs)); [|exact Hf]. constructor. }
    rewrite Forall_forall in Hall. exact (Hall _ Hin). }
  split; [done|]. unfold score_result. cbn [require_g02_metric_version]. intros Hs.
  change (require_g02_metric_version G02_METRIC_VERSION) with (Ok (E:=readiness_exn) tt) in Hs. cbn [rbind] in Hs.
  rewrite bool_decide_eq_false_2 in Hs by done. unfold score_result_v2 in Hs.
  destruct (validate_result _ _ _) as [v|err]; [|discriminate Hs]. rewrite (consistent_accepted c Hc) in Hs.
  apply rbind_err in Hs as [Hs|(d & _ & Hs)]; [|discriminate Hs].
  unfold read_diagnosis, strings_of in Hs. repeat (apply rbind_err in Hs as [Hs|(? & _ & Hs)]); try discriminate Hs;
    try (unfold py in Hs; match type of Hs with rmap_err _ ?r = _ => destruct r; [discriminate Hs|] end; apply Err_inj in Hs as <-; by eexists).
  all: unfold strings_of, py in Hs; apply rbind_err in Hs as [Hs|(? & _ & Hs)]; [|discriminate Hs].
  all: match type of Hs with rmap_err _ ?r = _ => destruct r; [discriminate Hs|] end; apply Err_inj in Hs as <-; by eexists.
Qed.

(** A dataset of thirty-two cases with the same fault *)
Module DemoGate.
Definition packet (id : string) : mapping :=
  smapping [("schema_version", VStr "1.0.0"); ("case_id", VStr id); ("problem_brief", VStr "slow");
            ("observations", VList [sdict [("recorded_at", VStr "now"); ("cpu_rate", VFloat "0.5")]])].
Definition trial (id : string) : val :=
  sdict [("status", VStr "pass");
         ("payload", sdict [("observation_packet", VDict (packet id)); ("fault_class", VStr "adHighCpu");
                            ("result", sdict [("family", VStr "resource_capacity")])])].
Definition ids : list string := seed_case_id <$> seq 1 32.
Definition document : mapping := smapping [("trials", VList (trial <$> ids))].

Definition value {A} (d : A) (r : R A) : A := match r with Ok a => a | Err _ => d end.
Definition source (id : string) : mapping := value [] (canonical_observation_packet (packet id)).
Definition groups (id : string) : list val :=
  value [] (rmapM (evidence_group id (omap as_dict (packet_observations (source id)))) (numbered GROUPS_V2)).
Definition normal (id : string) : mapping :=
  smapping [("schema_version", VStr "2.0.0"); ("case_id", VStr id); ("problem_brief", VStr "slow");
            ("evidence_catalog_version", VStr "g02-baseline-v2"); ("observations", VList (groups id))].
Definition signed (id digest : string) : mapping :=
  value [] (canonical_observation_packet (dset "packet_digest" (VStr digest) (normal id))).

Lemma source_ok id : canonical_observation_packet (packet id) = Ok (source id).
Proof. vm_compute. reflexivity. Qed.
Lemma source_twice id : canonical_observation_packet (source id) = Ok (source id).
Proof. vm_compute. reflexivity. Qed.
Lemma source_whole id : length (omap as_dict (packet_observations (source id))) = length (packet_observations (source id)).
Proof. vm_compute. reflexivity. Qed.
Lemma groups_ok id : rmapM (evidence_group id (omap as_dict (packet_observations (source id)))) (numbered GROUPS_V2) = Ok (groups id).
Proof. vm_compute. reflexivity. Qed.
Lemma signed_ok id digest : canonical_observation_packet (dset "packet_digest" (VStr digest) (normal id)) = Ok (signed id digest).
Proof. vm_compute. reflexivity. Qed.
Lemma signed_ids id digest :
  observation_ids (signed id digest) = (λ n, id +:+ "-" +:+ evidence_suffix n) <$> [1; 2; 3; 4; 5; 6]%Z.
Proof. vm_compute. reflexivity. Qed.
Lemma normalized id : ∃ digest, normalize_observation_packet_v2 (source id) = Ok (signed id digest).
Proof.
  unfold normalize_observation_packet_v2. rewrite source_twice. cbn [rbind]. rewrite source_whole, bool_decide_eq_true_2 by done. cbn [negb].
  change (py (subscript (VDict (source id)) "case_id")) with (Ok (E:=readiness_exn) (VStr id)). cbn [rbind val_str].
  rewrite groups_ok. cbn [rbind].
  change (py (subscript (VDict (source id)) "problem_brief")) with (Ok (E:=readiness_exn) (VStr "slow")). cbn [rbind].
  fold (normal id). unfold digest_json. destruct (dumps_total canonical_style (VDict (normal id))) as [text ->]; [reflexivity|].
  cbn [rbind]. exists (sha256_hex text). apply signed_ok.
Qed.
Lemma case_added id cs : ∃ c, gate_case G02_METRIC_VERSION cs (trial id) = Ok (put_case id c cs).
Proof.
  unfold gate_case, trial, sdict at 1. rewrite dget_sdict. change (val_is (default VNone _) "pass") with true. cbn [negb].
  rewrite dget_sdict. change (default VNone (assoc_find "payload" _)) with
    (sdict [("observation_packet", VDict (packet id)); ("fault_class", VStr "adHighCpu"); ("result", sdict [("family", VStr "resource_capacity")])]).
  unfold sdict at 1. rewrite !dfind_sdict. change (default (VDict []) (assoc_find "observation_packet" _)) with (VDict (packet id)).
  cbn [as_dict from_option_or rbind]. rewrite source_ok. cbn [rbind].
  change (py (subscript (VDict (source id)) "case_id")) with (Ok (E:=readiness_exn) (VStr id)). cbn [rbind val_str].
  change (default (VDict []) (assoc_find "result" _)) with (sdict [("family", VStr "resource_capacity")]).
  change (default (VStr "") (assoc_find "fault_class" _)) with (VStr "adHighCpu"). unfold sdict at 1. cbn [val_str].
  change (truthy "adHighCpu") with true. cbn [negb].
  unfold truth_of. rewrite bool_decide_eq_true_2 by done.
  destruct (normalized id) as [digest ->]. cbn [rbind]. change (v2_ground_truth "adHighCpu") with (Ok (E:=readiness_exn) (evidence_suffix 2)).
  cbn [rbind]. unfold v2_evidence_id. change (py (subscript (VDict (signed id digest)) "case_id")) with (Ok (E:=readiness_exn) (VStr id)).
  cbn [rbind val_str]. rewrite bool_decide_eq_true_2.
  - cbn [negb rbind]. by eexists.
  - rewrite signed_ids. right. left.
Qed.
Lemma fold_added (xs : list string) cs : NoDup xs → Forall (λ x, x ∉ cs.*1) xs →
  ∃ cs', rfold (gate_case G02_METRIC_VERSION) (trial <$> xs) cs = Ok cs' ∧ length cs' = (length cs + length xs)%nat.
Proof.
  intros Hnd. revert cs. induction Hnd as [|x xs Hx _ IH]; intros cs Hcs; [exists cs; split; [done|cbn; lia]|].
  cbn [fmap list_fmap rfold]. destruct (case_added x cs) as [c ->]. cbn [rbind]. apply Forall_cons in Hcs as [Hf Hcs].
  assert (put_case x c cs = cs ++ [(x, c)]) as ->.
  { clear -Hf. induction cs as [|[y d] cs IH]; [done|]. cbn. cbn in Hf. apply not_elem_of_cons in Hf as [Hne Hf].
    rewrite bool_decide_eq_false_2 by done. by rewrite IH. }
  destruct (IH (cs ++ [(x, c)])) as (cs' & -> & Hlen).
  - apply Forall_forall. intros y Hy. rewrite Forall_forall in Hcs. rewrite fmap_app, elem_of_app.
    intros [?|Hs]; [by apply (Hcs y)|]. apply list_elem_of_singleton in Hs. cbn in Hs. by subst y.
  - exists cs'. split; [done|]. rewrite Hlen, length_app. cbn. lia.
Qed.
Lemma accepted : ∃ cs, gate_cases document G02_METRIC_VERSION = Ok cs ∧ length cs = 32%nat.
Proof.
  unfold gate_cases. change (require_g02_metric_version G02_METRIC_VERSION) with (Ok (E:=readiness_exn) tt). cbn [rbind].
  change (dget "trials" document) with (VList (trial <$> ids)). cbv iota. rewrite length_fmap. change (length ids) with 32%nat.
  rewrite bool_decide_eq_true_2 by done. cbn [negb]. destruct (fold_added ids []) as (cs & -> & Hlen).
  - exact seed_ids_nodup.
  - apply Forall_forall. intros x _. apply not_elem_of_nil.
  - cbn [rbind]. rewrite Hlen. change (length ([] : g02_cases) + length ids)%nat with 32%nat.
    rewrite bool_decide_eq_true_2 by done. cbn [negb]. exists cs. split; [done|]. exact Hlen.
Qed.
End DemoGate.

Lemma cases_have_consistent_truths_witness : ∃ cs id c,
  gate_cases DemoGate.document G02_METRIC_VERSION = Ok cs ∧ (id, c) ∈ cs ∧ consistent c.
Proof.
  destruct DemoGate.accepted as (cs & Hcs & Hlen). destruct cs as [|[id c] cs]; [discriminate Hlen|].
  exists ((id, c) :: cs), id, c. split; [exact Hcs|]. split; [left|].
  refine (proj1 (cases_have_consistent_truths DemoGate.document ((id, c) :: cs) id c (λ _ _, None) [] (RPython "") Hcs _)).
  left.
Defined.

(** *** What the records lose *)

(** An answer that the adapter rejects, for its budget or its form, was paid; its record says
    that it cost nothing. *)
Lemma rejected_answers_cost_nothing schema_error spec metric_version message :
  ∃ payload, execute_gate schema_error spec metric_version (GovernanceFailed message) = Ok payload ∧
    dget "input_tokens" payload = VInt 0 ∧ dget "output_tokens" payload = VInt 0 ∧ dget "cost_cny" payload = VFloat "0.0".
Proof. eexists. split; [vm_compute; reflexivity|]. split; [reflexivity|]. split; [reflexivity|reflexivity]. Qed.
Lemma over_budget_is_rejected :
  gate_result "no_rag" LEGACY_METRIC_VERSION (smapping [("case_id", VStr "C")]) (VInt 1)
    (Some (sdict [("choices", VList [sdict [("message", sdict [("content", VStr "{}")])]]);
                  ("usage", sdict [("prompt_tokens", VInt 4001); ("completion_tokens", VInt 9)])]))
  = Err (BodyRaised (RGovernance "baseline input token budget exhausted")).
Proof. vm_compute. reflexivity. Qed.
