(* ===== verification/Isolation.v ===== *)
(** * The isolation contracts of the second laboratory

    [faultwitness_dev/g02_isolation.py]: the identity policies and their simulation, the
    network policies of the namespaces, the preregistry of the core cases, the runtime
    packages, the writers, and the three live matrices.  The documents are what the YAML
    loader built of the repository's files; the files of a package are an argument. *)
From Stdlib Require Import Ascii.
From S2P Require Import Prelude Json PyDyn Sha256 PyCalendar PyFloat PySet DevContracts DevSchemas Gateway Packet Lab.

(** ** The frozen registries *)

Definition FAMILIES : list string := ["change_config"; "resource_capacity"; "dependency_network"; "runtime_data"].
Definition DIFFICULTIES : list string := ["Easy"; "Medium"; "Hard"; "OOD"; "Adversarial"].
Definition SPLIT_COUNTS : list (string * nat) := [("dev", 4%nat); ("validation", 2%nat); ("locked", 2%nat)].
Definition PREREG_FIELDS : list string :=
  ["schema_version"; "case_id"; "family"; "split"; "difficulty"; "ground_truth_placeholder"].
Definition PRINCIPALS : list string :=
  ["scenario-controller"; "baseline-agent"; "sealed-evaluator"; "ordinary-developer"].
Definition PACKAGE_ROLES : list string := ["scenario-controller"; "baseline-agent"; "sealed-evaluator"].
Definition PRODUCT_SCHEMAS : list string := ["incident"; "runtime"; "checkpoint"; "action"; "delivery"; "trace_buffer"].
Definition PREFIX_TARGETS : list string := ["scenarios"; "trials"; "ground-truth"; "locked-tests"; "evidence"].
Definition OBSERVABILITY_TARGETS : list string := ["prometheus"; "loki"; "tempo"; "langsmith"].
Definition TRACE_STAGES : list string := ["api"; "persistence"; "outbox"; "checkpoint"; "model-stub"; "export"].
Definition CANARY_SURFACES : list string :=
  ["git-worktree"; "git-history"; "process-stdout"; "process-stderr"; "control-http"; "control-sse";
   "model-prompt"; "application-log"; "trace-buffer"; "redis-stream"; "postgresql-state"; "minio-archive";
   "kubernetes-object"; "eval-artifact"; "langsmith-export"; "otlp-trace"; "otlp-metric"; "otlp-log";
   "g02-scenario-object"; "g02-trial-object"; "g02-evidence-object"; "g02-preregistry-publication"].
Definition G02_WRITERS : list string := drop 18 CANARY_SURFACES.
Definition PUBLIC_HTTPS_EXCLUSIONS : list string :=
  ["0.0.0.0/8"; "10.0.0.0/8"; "100.64.0.0/10"; "127.0.0.0/8"; "169.254.0.0/16"; "172.16.0.0/12"; "192.0.0.0/24";
   "192.0.2.0/24"; "192.168.0.0/16"; "198.18.0.0/15"; "198.51.100.0/24"; "203.0.113.0/24"; "224.0.0.0/4";
   "240.0.0.0/4"].

(** [list(v) == names] *)
Definition lists_exactly (v : val) (names : list string) : CK bool :=
  let* xs := elements v in Ok (strings_are xs names).
Definition digest_of (v : val) : CK string :=
  let* text := from_option_or (Escapes "TypeError") (dumps canonical_style v) in Ok (sha256_hex text).

Definition load_isolation_config (document : val) : CK mapping :=
  match document with
  | VDict d =>
      let* zones := lists_exactly (default (VList []) (dfind "trust_zones" d)) ["fw-sut"; "fw-baseline"; "fw-eval"] in
      let* _ := refuse_if (negb zones) "G02 trust-zone registry drifted" [] in
      let* principals := lists_exactly (default (VDict []) (dfind "principals" d)) PRINCIPALS in
      let* _ := refuse_if (negb principals) "G02 principal registry drifted" [] in
      Ok d
  | _ => Err (Governance "G02 isolation config must be an object" [])
  end.

(** ** Shell patterns

    [fnmatch.fnmatchcase]: a star, a question mark, a class of characters between brackets
    (negated by an exclamation mark, with its ranges), and any other character for itself.
    A bracket that is never closed is one of these. *)

Inductive glob : Type :=
| GStar
| GAny
| GClass (negated : bool) (members : list (ascii * ascii))
| GChar (c : ascii).

(** The characters up to the closing bracket, and what follows it *)
Fixpoint upto_bracket (s : list ascii) : option (list ascii * list ascii) :=
  match s with
  | [] => None
  | "]"%char :: s => Some ([], s)
  | c :: s => '(inside, rest) ← upto_bracket s; Some (c :: inside, rest)
  end.
(** A bracket that closes at once is a member. *)
Definition class_body (s : list ascii) : option (list ascii * list ascii) :=
  match s with
  | "]"%char :: s => '(inside, rest) ← upto_bracket s; Some ("]"%char :: inside, rest)
  | s => upto_bracket s
  end.
Fixpoint class_members (s : list ascii) : list (ascii * ascii) :=
  match s with
  | [] => []
  | lo :: s1 =>
      match s1 with
      | "-"%char :: hi :: rest => (lo, hi) :: class_members rest
      | _ => (lo, lo) :: class_members s1
      end
  end.
(** A token and the rest of the pattern *)
Definition bracket (s : list ascii) : glob * list ascii :=
  let '(negated, body) := match s with "!"%char :: s' => (true, s') | _ => (false, s) end in
  match class_body body with
  | Some (inside, rest) => (GClass negated (class_members inside), rest)
  | None => (GChar "[", s)
  end.
(** One unit of fuel for each character *)
Fixpoint glob_tokens (fuel : nat) (s : list ascii) : list glob :=
  match fuel, s with
  | S fuel, "*"%char :: s => GStar :: glob_tokens fuel s
  | S fuel, "?"%char :: s => GAny :: glob_tokens fuel s
  | S fuel, "["%char :: s => let '(g, rest) := bracket s in g :: glob_tokens fuel rest
  | S fuel, c :: s => GChar c :: glob_tokens fuel s
  | _, _ => []
  end.
Definition glob_test (g : glob) (c : ascii) : bool :=
  match g with
  | GStar | GAny => true
  | GClass negated members =>
      xorb negated (existsb (λ m, (N_of_ascii m.1 <=? N_of_ascii c)%N && (N_of_ascii c <=? N_of_ascii m.2)%N) members)
  | GChar d => Ascii.eqb d c
  end.
Fixpoint glob_match (g : list glob) : list ascii → bool :=
  match g with
  | [] => λ s, match s with [] => true | _ => false end
  | GStar :: g =>
      fix star s := glob_match g s || match s with [] => false | _ :: s => star s end
  | t :: g => λ s, match s with c :: s => glob_test t c && glob_match g s | [] => false end
  end.
Definition fnmatchcase (name pat : string) : bool :=
  let pat := String.list_ascii_of_string pat in
  glob_match (glob_tokens (length pat) pat) (String.list_ascii_of_string name).

Example fnmatch_examples :
  (fnmatchcase "s3:g02/trials/t.json" "s3:g02/trials/*", fnmatchcase "s3:g02/trials" "s3:g02/trials/*",
   fnmatchcase "abc" "a?[!x-z]", fnmatchcase "aby" "a?[!x-z]", fnmatchcase "[" "[", fnmatchcase "]" "[]]",
   fnmatchcase "-" "[a-]", fnmatchcase "b" "[c-a]")
  = (true, false, true, false, true, true, true, false).
Proof. vm_compute. reflexivity. Qed.

(** ** Identity policies *)

Definition rule_matches (action resource : string) (rule : val) : CK bool :=
  let* a := getattr rule "action" VNone in
  if val_is a action then let* pattern := getattr rule "resource" VNone in Ok (fnmatchcase resource (val_str pattern))
  else Ok false.

(** [config.get("principals", {})], and the policy in it *)
Definition policy_of (config : mapping) (principal : string) : CK mapping :=
  match default (VDict []) (dfind "principals" config) with
  | VDict policies =>
      match dget principal policies with
      | VDict policy => Ok policy
      | _ => Err (Governance "unknown G02 isolation principal: " [VStr principal])
      end
  | _ => Err (Governance "unknown G02 isolation principal: " [VStr principal])
  end.
Definition rules_of (key : string) (policy : mapping) : val := default (VList []) (dfind key policy).
Definition any_rule (action resource : string) (rules : val) : CK bool :=
  let* rules := elements rules in ck_any (rule_matches action resource) rules.
Definition authorize (config : mapping) (principal action resource : string) : CK bool :=
  let* policy := policy_of config principal in
  let* denied := any_rule action resource (rules_of "deny" policy) in
  if denied then Ok false else any_rule action resource (rules_of "allow" policy).

(** The checks of each principal: action, resource and the expected answer *)
Definition identity_checks (principal : string) : list (string * string * bool) :=
  if bool_decide (principal = "scenario-controller") then
    [("read", "s3:g02/scenarios/SEED-G02-0001.json", true); ("write", "s3:g02/trials/trial.json", true);
     ("read", "s3:g02/ground-truth/deny-sentinel", false); ("read", "s3:g02/locked-tests/deny-sentinel", false);
     ("read", "schema:incident", false)]
  else if bool_decide (principal = "baseline-agent") then
    [("read", "observation:own", true); ("write", "trial-sink:own", true); ("read", "obs:prometheus", true);
     ("read", "s3:g02/ground-truth/deny-sentinel", false); ("connect", "network:fw-eval", false)]
  else if bool_decide (principal = "sealed-evaluator") then
    [("read", "s3:g02/trials/trial.json", true); ("read", "s3:g02/ground-truth/deny-sentinel", true);
     ("read", "s3:g02/locked-tests/deny-sentinel", true); ("write", "s3:g02/evidence/result.json", true);
     ("mutate", "sut:flag/productCatalogFailure", false); ("use", "credential:baseline-execution", false)]
  else
    [("read", "public:preregistry", true); ("read", "s3:g02/ground-truth/deny-sentinel", false);
     ("read", "s3:g02/locked-tests/deny-sentinel", false); ("read", "s3:g02/trials/trial.json", false);
     ("read", "schema:incident", false)].
Definition identity_check (config : mapping) (principal : string) (check : string * string * bool) : CK val :=
  let '(action, resource, expected) := check in
  let* actual := authorize config principal action resource in
  let* _ := refuse_if (negb (Bool.eqb actual expected)) "G02 isolation policy drifted for "
              [Ok (VStr principal); Ok (VStr resource)] in
  Ok (sdict [("action", VStr action); ("resource", VStr resource); ("expected", VBool expected); ("actual", VBool actual)]).
Definition simulate_identity_policies (config : mapping) : CK (list val) :=
  rmapM (λ principal,
    let* observations := rmapM (identity_check config principal) (identity_checks principal) in
    Ok (sdict [("principal", VStr principal); ("checks", VList observations); ("status", VStr "pass")])) PRINCIPALS.

Definition validate_policy_observation (config document : mapping) : CK unit :=
  let* actual := authorize config (val_str (dget "principal" document)) (val_str (dget "action" document))
                   (val_str (dget "resource" document)) in
  refuse_if (match dget "observed_allow" document with VBool b => negb (Bool.eqb b actual) | _ => true end)
    "G02 access result contradicts the frozen identity policy" [].

(** ** Network policies *)

(** [v.get("k", {}).get("k2", ...)...]: a mapping where a key is missing, and the default at
    the end *)
Fixpoint getattrs (v : val) (path : list string) (dflt : val) : CK val :=
  match path with
  | [] => Ok v
  | [k] => getattr v k dflt
  | k :: path => let* w := getattr v k (VDict []) in getattrs w path dflt
  end.
Definition egress_rules (document : val) : CK (list val) :=
  let* rules := getattrs document ["spec"; "egress"] (VList []) in elements rules.
Definition targets_of (rule : val) : CK (list val) := let* t := getattr rule "to" (VList []) in elements t.

(** [_network_policy_namespaces] *)
Definition target_namespace (target : val) : CK (list string) :=
  let* namespace := getattrs target ["namespaceSelector"; "matchLabels"; "kubernetes.io/metadata.name"] VNone in
  Ok (if val_truthy namespace then [val_str namespace] else []).
Definition network_policy_namespaces (document : val) : CK (list string) :=
  let* rules := egress_rules document in
  let* found := rmapM (λ rule,
    let* targets := targets_of rule in let* names := rmapM target_namespace targets in Ok (concat names)) rules in
  Ok (concat found).
Definition same_names (xs ys : list string) : bool :=
  forallb (λ x, bool_decide (x ∈ ys)) xs && forallb (λ y, bool_decide (y ∈ xs)) ys.

Definition is_public_rule (rule : val) : CK bool :=
  let* targets := targets_of rule in
  ck_any (λ target, let* cidr := getattrs target ["ipBlock"; "cidr"] VNone in Ok (val_is cidr "0.0.0.0/0")) targets.
Definition validate_public_https_egress (document : val) : CK unit :=
  let* rules := egress_rules document in
  let* public_rules := ck_filter is_public_rule rules in
  match public_rules with
  | [rule] =>
      let* targets := let* t := item rule "to" in elements t in
      let* held := ck_filter (val_in_val (VStr "ipBlock")) targets in
      let* blocks := rmapM (λ target, item target "ipBlock") held in
      let* exact := match blocks with
                    | [block] => let* excluded := getattr block "except" (VList []) in lists_exactly excluded PUBLIC_HTTPS_EXCLUSIONS
                    | _ => Ok false
                    end in
      let* _ := refuse_if (negb exact) "G02 public HTTPS egress does not exclude every private range" [] in
      let* ports := getattr rule "ports" VNone in
      refuse_if (negb (py_eq ports (VList [sdict [("protocol", VStr "TCP"); ("port", VInt 443)]])))
        "G02 public egress must be restricted to HTTPS" []
  | _ => Err (Governance "G02 baseline policy must contain one public HTTPS egress rule" [])
  end.

Definition observability_selector : val :=
  VList [sdict [("key", VStr "app.kubernetes.io/name"); ("operator", VStr "In");
                ("values", VList (texts ["prometheus"; "loki"; "tempo"]))]].
Definition baseline_source : val :=
  sdict [("namespaceSelector", sdict [("matchLabels", sdict [("kubernetes.io/metadata.name", VStr "fw-baseline")])]);
         ("podSelector", sdict [("matchLabels", sdict [("faultwitness.dev/principal", VStr "baseline-agent")])])].
Definition tcp (port : Z) : val := sdict [("protocol", VStr "TCP"); ("port", VInt port)].
Definition validate_baseline_observability_ingress (document : val) : CK unit :=
  let* spec := getattr document "spec" (VDict []) in
  let* expressions := getattrs spec ["podSelector"; "matchExpressions"] (VList []) in
  let* _ := refuse_if (negb (py_eq expressions observability_selector))
              "G02 observability ingress target selector drifted" [] in
  let* ingress := getattr spec "ingress" VNone in
  match ingress with
  | VList [rule] =>
      let* sources := getattr rule "from" VNone in
      let* _ := refuse_if (negb (py_eq sources (VList [baseline_source])))
                  "G02 observability ingress exceeds the baseline principal" [] in
      let* ports := getattr rule "ports" VNone in
      refuse_if (negb (py_eq ports (VList [tcp 9090; tcp 3100; tcp 3200])))
        "G02 observability ingress port registry drifted" []
  | _ => Err (Governance "G02 observability ingress must contain one exact rule" [])
  end.

(** *** The manifest of the namespaces *)

(** [{d["metadata"]["name"]: d for d in documents if d.get("kind") == kind}] *)
Definition documents_of (kind : string) (documents : list val) : CK (list (val * val)) :=
  rfold (λ acc document,
    let* k := getattr document "kind" VNone in
    if val_is k kind then
      let* name := item_path document ["metadata"; "name"] in
      let* name := hashed name in
      Ok (put name document acc)
    else Ok acc) documents [].
Definition expected_accounts : list (string * string) :=
  [("scenario-controller", "fw-sut"); ("baseline-agent", "fw-baseline"); ("sealed-evaluator", "fw-eval")].
Definition check_account (accounts : list (val * val)) (expected : string * string) : CK unit :=
  let* account := record_at accounts expected.1 in
  let* metadata := item account "metadata" in
  let* namespace := getattr metadata "namespace" VNone in
  let* _ := refuse_if (negb (val_is namespace expected.2)) "G02 service-account namespace drifted: " [Ok (VStr expected.1)] in
  let* automount := getattr account "automountServiceAccountToken" VNone in
  refuse_if (match automount with VBool false => false | _ => true end)
    "G02 service account must not automount a token: " [Ok (VStr expected.1)].
Definition check_default_deny (policies : list (val * val)) (expected : string * string) : CK unit :=
  let missing := Governance "G02 default-deny policy is missing: " [VStr expected.1] in
  let* policy := match dfind (expected.1 +:+ "-default-deny") policies with
                 | Some p => if val_truthy p then Ok p else Err missing
                 | None => Err missing
                 end in
  let* spec := item policy "spec" in
  let* types := getattr spec "policyTypes" (VList []) in
  let* types := set_of types in
  raise_if negb (same_set types (texts ["Ingress"; "Egress"])) with_ missing;;
  let* allows := ck_or (val_in_val (VStr "ingress") spec) (val_in_val (VStr "egress") spec) in
  refuse_if allows "G02 default-deny policy contains an allow rule: " [Ok (VStr expected.1)].
Definition validate_namespace_isolation_manifest (loaded : list val) : CK val :=
  let documents := List.filter val_truthy loaded in
  let* secret := ck_any (λ d, let* k := getattr d "kind" VNone in Ok (val_is k "Secret")) documents in
  let* _ := refuse_if secret "G02 isolation manifest must not embed credentials" [] in
  let* accounts := documents_of "ServiceAccount" documents in
  let* _ := refuse_if (negb (same_set accounts.*1 (texts expected_accounts.*1)))
              "G02 isolation manifest service-account registry drifted" [] in
  let* _ := ck_for (check_account accounts) expected_accounts in
  let* policies := documents_of "NetworkPolicy" documents in
  let* _ := ck_for (check_default_deny policies) expected_accounts in
  let policy name := default (VDict []) (dfind name policies) in
  let* baseline_namespaces := network_policy_namespaces (policy "baseline-agent-allow-observability") in
  let* evaluator_namespaces := network_policy_namespaces (policy "sealed-evaluator-allow-object-store") in
  let* _ := refuse_if (negb (same_names baseline_namespaces ["kube-system"; "fw-sut"; "fw-observability"]) ||
                       bool_decide ("fw-eval" ∈ baseline_namespaces))
              "G02 baseline network policy exceeds its observability boundary" [] in
  let* _ := refuse_if (negb (same_names evaluator_namespaces ["kube-system"; "fw-data"]) ||
                       bool_decide ("fw-sut" ∈ evaluator_namespaces))
              "G02 evaluator network policy can reach the SUT" [] in
  let* _ := validate_public_https_egress (policy "baseline-agent-allow-observability") in
  let* _ := validate_baseline_observability_ingress (policy "allow-baseline-agent-read-observability") in
  Ok (sdict [("status", VStr "pass"); ("service_accounts", VList (texts expected_accounts.*1));
             ("network_policy_count", VInt (Z.of_nat (length policies))); ("credential_objects", VInt 0);
             ("baseline_observability_namespaces", VList (texts ["fw-observability"; "fw-sut"]));
             ("public_https_private_exclusions", VInt (Z.of_nat (length PUBLIC_HTTPS_EXCLUSIONS)));
             ("observability_ingress", VStr "exact-baseline-principal")]).

(** ** The preregistry *)

Definition case_uri (case_id : string) : string := "s3://faultwitness-eval/g07/ground-truth/" +:+ case_id +:+ ".json".
Definition core_id (index : nat) : string := "CORE-" +:+ pad4 index.
Abbreviation cell := (string * string * string)%type.   (* family, difficulty, split *)
Definition cell_counts : list (cell * nat) :=
  family ← FAMILIES; difficulty ← DIFFICULTIES; '(split, count) ← SPLIT_COUNTS; [((family, difficulty, split), count)].
Definition prereg_row (rows : list mapping) (c : cell) : mapping :=
  let '(family, difficulty, split) := c in
  let case_id := core_id (length rows + 1) in
  (λ kv : string * string, (VStr kv.1, VStr kv.2)) <$>
    [("schema_version", "1.0.0"); ("case_id", case_id); ("family", family); ("split", split);
     ("difficulty", difficulty); ("ground_truth_placeholder", case_uri case_id)].
Definition build_preregistry : list mapping :=
  foldl (λ rows '(c, count), foldl (λ rows c, rows ++ [prereg_row rows c]) rows (repeat c count)) [] cell_counts.

Definition row_cell (row : val) : CK cell :=
  let* family := item row "family" in
  let* difficulty := item row "difficulty" in
  let* split := item row "split" in
  Ok (val_str family, val_str difficulty, val_str split).
Definition check_prereg_row (row : val) : CK unit :=
  let* fields := set_of row in
  let* _ := refuse_if (negb (same_set fields (texts PREREG_FIELDS))) "G02 preregistry row contains payload or answer fields" [] in
  let* case_id := item row "case_id" in
  let* placeholder := getattr row "ground_truth_placeholder" VNone in
  refuse_if (negb (val_is placeholder (case_uri (val_str case_id)))) "G02 preregistry placeholder drifted" [].
Definition expected_ids : list string := core_id <$> seq 1 160.
Definition validate_preregistry (rows : list val) (materialized_objects : list string) : CK unit :=
  let* _ := refuse_if (negb (length rows =? 160)%nat) "G02 preregistry must contain exactly 160 rows" [] in
  let* ids := rmapM (λ row, getattr row "case_id" VNone) rows in
  let* _ := refuse_if (negb (strings_are ids expected_ids)) "G02 preregistry IDs are not the complete sequence" [] in
  let* _ := ck_for check_prereg_row rows in
  let* cells := rmapM row_cell rows in
  let* _ := ck_for (λ '(c, count), refuse_if (negb (length (List.filter (λ c', bool_decide (c' = c)) cells) =? count)%nat)
              "G02 preregistry family/difficulty/split allocation drifted" []) cell_counts in
  refuse_if (existsb (λ value, existsb (λ case_id, str_contains case_id value) expected_ids) materialized_objects)
    "G02 preregistry materialized one or more future core cases" [].

(** ** Runtime packages *)

Definition package_text_is_forbidden (relative text : string) : bool :=
  existsb (λ token, str_contains token (casefold relative)) ["ground-truth"; "locked-tests"; "preregistry"] ||
  existsb (λ token, str_contains token (casefold text))
    ["s3://faultwitness-eval/g07/ground-truth/core-"; "g02/ground-truth/core-"; "g02/locked-tests/core-";
     dumps_str canonical_style "case_id" +:+ ":" +:+ String dq "core-"].

Section Packages.
(** What a path of the repository resolves to: nothing, when it leaves the repository or is no
    regular file, or the text and the SHA-256 of the bytes. *)
Context (package_file : string → option (string * string)).

Definition scan_file (role : string) (entry : val) : CK val :=
  let relative := val_str entry in
  let* file := from_option_or (Governance "G02 runtime package path is unsafe: " [entry]) (package_file relative) in
  let* _ := refuse_if (package_text_is_forbidden relative file.1) "G02 runtime package embeds sealed material: " [Ok (VStr role)] in
  Ok (sdict [("path", VStr relative); ("sha256", VStr file.2)]).
Definition scan_role (packages : mapping) (role : string) : CK val :=
  let* entries := record_at packages role in
  match entries with
  | VList ((_ :: _) as entries) =>
      let* files := rmapM (scan_file role) entries in
      let* digest := digest_of (VList files) in
      Ok (sdict [("role", VStr role); ("files", VList files); ("package_digest", VStr digest); ("status", VStr "pass")])
  | _ => Err (Governance "G02 runtime package is empty: " [VStr role])
  end.
Definition scan_runtime_packages (config : mapping) : CK (list val) :=
  let registry := Governance "G02 runtime package registry must contain exactly three roles" [] in
  match dget "runtime_packages" config with
  | VDict packages =>
      raise_if negb (strings_are packages.*1 PACKAGE_ROLES) with_ registry;;
      rmapM (scan_role packages) PACKAGE_ROLES
  | _ => Err registry
  end.
End Packages.
Definition reject_package_fixture (relative text : string) : CK unit :=
  refuse_if (package_text_is_forbidden relative text) "G02 runtime package embeds sealed material" [].

(** ** Writers *)

(** [_contains_canary]; a payload that is no JSON raises [TypeError]. *)
Definition contains_canary (value : val) : CK bool :=
  let* text := from_option_or (Escapes "TypeError") (dumps sorted_style value) in
  Ok (existsb (λ token, str_contains token (casefold text))
        ["fw_secret_canary_"; "fw_pii_canary_"; "private_reasoning_canary_"; "@example.invalid"]).
Definition validate_writer_payload (value : val) : CK unit :=
  let* found := contains_canary value in
  refuse_if found "G02 writer rejected Secret/PII/private-reasoning canary" [].
(** [try: ... except GovernanceError: rejected += 1] *)
Definition rejected_payload (n : nat) (payload : val) : CK nat :=
  match validate_writer_payload payload with
  | Ok _ => Ok n
  | Err (Governance _ _) => Ok (S n)
  | Err e => Err e
  end.
Definition canary_payloads : list val :=
  [sdict [("value", VStr "FW_SECRET_CANARY_REDACTED")]; sdict [("value", VStr "fw_pii_canary@example.invalid")]].
Definition prove_writer (writer : string) : CK val :=
  let* _ := validate_writer_payload (sdict [("writer", VStr writer); ("status", VStr "safe")]) in
  let* rejected := rfold rejected_payload canary_payloads 0%nat in
  let* _ := refuse_if (negb (rejected =? 2)%nat) "G02 writer did not reject both canary classes: " [Ok (VStr writer)] in
  let* digest := digest_of (sdict [("writer", VStr writer); ("classes", VList (texts ["secret"; "pii"]))]) in
  Ok (sdict [("writer", VStr writer); ("safe_control", VStr "pass");
             ("rejected_canary_classes", VList (texts ["secret"; "pii"])); ("canary_digest", VStr digest);
             ("status", VStr "pass")]).
Definition prove_writer_canaries (config : mapping) : CK (list val) :=
  let* exact := lists_exactly (default (VList []) (dfind "writers" config)) G02_WRITERS in
  let* _ := refuse_if (negb exact) "G02 writer registry drifted" [] in
  rmapM prove_writer G02_WRITERS.

(** ** The live matrices *)

(** [_bound] *)
Definition bound (document : mapping) (producer_sha environment_fingerprint : string) : CK unit :=
  let* _ := refuse_if (negb (val_is (dget "producer_sha" document) producer_sha))
              "G02 matrix producer provenance drifted" [] in
  refuse_if (negb (val_is (dget "environment_fingerprint" document) environment_fingerprint))
    "G02 matrix environment fingerprint drifted" [].

Record access_contract := { cell_id : string; target : string; probe : string; expected_allow : bool }.
Definition access_targets : list string :=
  ((λ name, "schema:" +:+ name) <$> PRODUCT_SCHEMAS) ++ ((λ name, "s3:g02/" +:+ name +:+ "/") <$> PREFIX_TARGETS) ++
  ((λ name, "obs:" +:+ name) <$> OBSERVABILITY_TARGETS).
Definition access_probes : list string := ["canonical-owner"; "baseline-agent"; "ordinary-developer"; "cross-boundary"].
(** [target.split(":", 1)[0]] *)
Definition target_type (target : string) : string := (span (λ c, negb (Ascii.eqb c ":")) target).1.
Definition access_cell (target probe : string) : access_contract :=
  {| cell_id := target +:+ "|" +:+ probe; target := target; probe := probe;
     expected_allow := bool_decide (probe = "canonical-owner") ||
       (bool_decide (probe = "baseline-agent") && bool_decide (target_type target = "obs")) ||
       (bool_decide (probe = "cross-boundary") && bool_decide (target = "s3:g02/trials/")) |}.
Definition access_cell_contract : list access_contract :=
  target ← access_targets; probe ← access_probes; [access_cell target probe].
Definition contract_mapping (c : access_contract) : mapping :=
  (λ kv : string * val, (VStr kv.1, kv.2)) <$>
    [("cell_id", VStr (cell_id c)); ("target", VStr (target c)); ("probe", VStr (probe c));
     ("expected_allow", VBool (expected_allow c))].

(** [{row.get(key): row for row in rows if isinstance(row, dict)}] *)
Definition dicts_by (key : string) (rows : list val) : CK (list (val * val)) :=
  rfold (λ acc row,
    match row with
    | VDict d => let* k := hashed (dget key d) in Ok (put k row acc)
    | _ => Ok acc
    end) rows [].
Definition check_access_cell (actual : list (val * val)) (c : access_contract) : CK unit :=
  let* cell := record_at actual (cell_id c) in
  let* allow := getattr cell "actual_allow" VNone in
  let* artifact := getattr cell "artifact_ref" VNone in
  refuse_if (negb (match allow with VBool b => Bool.eqb b (expected_allow c) | _ => false end) || negb (val_truthy artifact))
    "G02 live access matrix failed: " [Ok (VStr (cell_id c))].
Definition validate_live_access_matrix (document : mapping) (producer_sha environment_fingerprint : string) : CK val :=
  let* _ := bound document producer_sha environment_fingerprint in
  match dget "cells" document with
  | VList cells =>
      let* _ := refuse_if (negb (length cells =? 60)%nat) "G02 live access matrix must contain exactly 60 cells" [] in
      let* actual := dicts_by "cell_id" cells in
      let* _ := refuse_if (negb (same_set actual.*1 (texts (cell_id <$> access_cell_contract))))
                  "G02 live access matrix cell registry drifted" [] in
      let* _ := ck_for (check_access_cell actual) access_cell_contract in
      Ok (sdict [("status", VStr "pass"); ("cell_count", VInt 60); ("validation", VStr "V-G02-009")])
  | _ => Err (Governance "G02 live access matrix must contain exactly 60 cells" [])
  end.

(** The rows of a matrix, and whether their field names the registry *)
Definition named_rows (field : string) (registry : list string) (rows : val) : CK (option (list val)) :=
  match rows with
  | VList rows =>
      let* names := rmapM (λ row, getattr row field VNone) rows in
      Ok (if strings_are names registry then Some rows else None)
  | _ => Ok None
  end.
Definition unproven_stage (stage : val) : CK bool :=
  let* observed := getattr stage "observed" VNone in
  let* artifact := getattr stage "artifact_ref" VNone in
  Ok (negb (match observed with VBool b => b | _ => false end) || negb (val_truthy artifact)).
Definition validate_stage_matrix (document : mapping) (producer_sha environment_fingerprint : string) : CK val :=
  let* _ := bound document producer_sha environment_fingerprint in
  let* rows := named_rows "stage" TRACE_STAGES (dget "stages" document) in
  let* stages := from_option_or (Governance "G01 supplemental span matrix lacks one or more frozen stages" []) rows in
  let* trace_ids := rmapM (λ stage, let* t := getattr stage "trace_id" VNone in hashed t) stages in
  let trace_ids := distinct trace_ids in
  let* _ := refuse_if (negb (length trace_ids =? 1)%nat || mem VNone trace_ids)
              "G01 supplemental span matrix is not correlated" [] in
  let* unproven := ck_any unproven_stage stages in
  let* _ := refuse_if unproven "G01 supplemental span matrix has an unproven stage" [] in
  Ok (sdict [("status", VStr "pass"); ("stage_count", VInt 6); ("validation", VStr "V-G02-010")]).

Definition check_surface (item : val) : CK unit :=
  let* hits := getattr item "hit_count" VNone in
  let* artifact := getattr item "artifact_ref" VNone in
  let* digest := getattr item "canary_digest" VNone in
  let* surface := getattr item "surface" VNone in
  refuse_if (negb (py_eq hits (VInt 0)) || negb (val_truthy artifact) || negb (val_truthy digest))
    "G01 supplemental canary leaked or lacks evidence: " [Ok surface].
Definition validate_all_surface_canary (document : mapping) (producer_sha environment_fingerprint : string) : CK val :=
  let* _ := bound document producer_sha environment_fingerprint in
  let* rows := named_rows "surface" CANARY_SURFACES (dget "surfaces" document) in
  let* surfaces := from_option_or (Governance "G01 supplemental canary matrix lacks one or more frozen surfaces" []) rows in
  let* _ := ck_for check_surface surfaces in
  Ok (sdict [("status", VStr "pass"); ("surface_count", VInt 22); ("validation", VStr "V-G02-011")]).
