(* ===== verification/Collectors.v ===== *)
(** * The collectors of the isolation matrices

    [faultwitness_dev/g02_collectors.py]: the access matrix of sixty cells, the matrix of the
    trace stages and the matrix of the canary surfaces.  Each provisions the probes once, asks
    a backend, writes every answer to the trial journal, takes the answers it has from there,
    and stops at the first unit that did not pass.  The backend is an interface with two
    instances: the memory backend, and the remote one, whose shell, credential service and
    relay are arguments. *)
From Stdlib Require Import Ascii.
From S2P Require Import Prelude Json PyDyn Sha256 PyCalendar PyFloat PySet DevContracts DevSchemas Gateway Packet Lab Matrix Isolation.
From S2P Require Experiment.

(** ** Contexts, errors and keys *)

Record ProbeContext := { context_sha : string; fingerprint : string }.

(** [CheckRaised] is [GovernanceError], or an exception of Python, of a check or a backend;
    [JournalRaised] what the journal raises. *)
Inductive probe_exn : Type :=
| ProbeInfrastructureError (message : string)
| ProbeBlockedError (message : string)
| CheckRaised (e : check_error)
| JournalRaised (e : Experiment.exn).
Abbreviation PR := (result probe_exn).
Definition ck {A} (r : CK A) : PR A := rmap_err CheckRaised r.

Definition artifact_ref (ctx : ProbeContext) (phase unit_id : string) (value : val) : CK string :=
  let* digest := digest_of value in
  Ok ("private://faultwitness/isolation/" +:+ context_sha ctx +:+ "/" +:+ phase +:+ "/" +:+ unit_id +:+ "/" +:+ digest).
Definition bound_payload (ctx : ProbeContext) (unit_id : string) (result : mapping) : mapping :=
  smapping [("producer_sha", VStr (context_sha ctx)); ("environment_fingerprint", VStr (fingerprint ctx));
            ("unit_id", VStr unit_id); ("result", VDict result)].
Definition reason (message : string) : mapping := smapping [("reason_code", VStr message)].
Definition unit_cache_key (ctx : ProbeContext) (unit_id : string) : PR string :=
  let* digest := ck (digest_of (VStr unit_id)) in
  rmap_err JournalRaised
    (Experiment.semantic_cache_key [("environment", fingerprint ctx)] ["environment"] digest []).

(** The result a record of the unit holds, bound to this environment *)
Definition bound_result (record : Experiment.trial) (ctx : ProbeContext) (unit_id : string) : option mapping :=
  let payload := Experiment.payload (Experiment.current record) in
  if val_is (dget "environment_fingerprint" payload) (fingerprint ctx) && val_is (dget "unit_id" payload) unit_id
  then as_dict (dget "result" payload) else None.
Definition current_key (record : Experiment.trial) (key : string) : bool :=
  bool_decide (Experiment.cache_key (Experiment.current record) = key).
(** [_reusable] and [_terminal_result]: the status is compared before the key is computed *)
Definition reusable (record : option Experiment.trial) (ctx : ProbeContext) (unit_id : string) : PR (option mapping) :=
  match record with
  | None => Ok None
  | Some t =>
      if negb (bool_decide (Experiment.status (Experiment.current t) = "pass")) then Ok None
      else let* key := unit_cache_key ctx unit_id in
           Ok (if current_key t key then bound_result t ctx unit_id else None)
  end.
Definition terminal_result (record : option Experiment.trial) (ctx : ProbeContext) (unit_id : string)
    : PR (option (string * mapping)) :=
  match record with
  | None => Ok None
  | Some t =>
      let status := Experiment.status (Experiment.current t) in
      if negb (bool_decide (status ∈ ["metric_fail"; "blocked"])) then Ok None
      else let* key := unit_cache_key ctx unit_id in
           Ok (if current_key t key then result ← bound_result t ctx unit_id; Some (status, result) else None)
  end.

Definition matrix_document (ctx : ProbeContext) (status field_name : string) (values : list mapping) : mapping :=
  smapping [("schema_version", VStr "1.0.0"); ("producer_sha", VStr (context_sha ctx));
            ("environment_fingerprint", VStr (fingerprint ctx)); (field_name, VList (VDict <$> values));
            ("status", VStr status)].
(** [{**base, **d}] *)
Definition merged (base d : mapping) : mapping := foldl (λ acc kv, put kv.1 kv.2 acc) base d.

(** ** The plan of the probes *)

Definition build_provisioning_plan_document (isolation : mapping) (probes : val) (ctx : ProbeContext) : CK mapping :=
  let get k := item (VDict isolation) k in
  let* principals := get "principals" in
  let* names := elements principals in
  let* prefixes := let* p := get "prefixes" in elements p in
  let* zones := let* z := get "trust_zones" in elements z in
  let* refs := rmapM (λ name,
    let* zone := item_path principals [name; "zone"] in
    Ok (VStr ("secret://" +:+ val_str zone +:+ "/g02-" +:+ name +:+ "-probe"))) (take 3 PRINCIPALS) in
  let* schema_targets := item probes "schema_targets" in
  let* observability_targets := item probes "observability_targets" in
  let* probe_pods := item probes "probe_pods" in
  let* images := item probes "images" in
  Ok (smapping [("schema_version", VStr "1.0.0"); ("producer_sha", VStr (context_sha ctx));
                ("environment_fingerprint", VStr (fingerprint ctx)); ("principals", VList names);
                ("prefixes", VList prefixes); ("namespaces", VList zones);
                ("credential_refs", VList (refs ++ [VStr "secret://fw-eval/g02-ordinary-developer-probe"]));
                ("schema_targets", schema_targets); ("observability_targets", observability_targets);
                ("probe_pods", probe_pods); ("images", images); ("secret_values", VList [])]).

Definition listed (document : mapping) (key : string) (names : list string) : CK bool :=
  lists_exactly (default (VList []) (dfind key document)) names.
Definition set_is (document : mapping) (key : string) (names : list string) : CK bool :=
  let* s := set_of (default (VDict []) (dfind key document)) in Ok (same_set s (texts names)).
Definition credential_refs : list string :=
  ["secret://fw-sut/g02-scenario-controller-probe"; "secret://fw-baseline/g02-baseline-agent-probe";
   "secret://fw-eval/g02-sealed-evaluator-probe"; "secret://fw-eval/g02-ordinary-developer-probe"].
Definition validate_provisioning_plan (document : mapping) : CK unit :=
  let* exact := listed document "principals" PRINCIPALS in
  let* _ := refuse_if (negb exact) "G02 provisioning plan principal registry drifted" [] in
  let* exact := listed document "prefixes" ["g02/scenarios/"; "g02/trials/"; "g02/ground-truth/"; "g02/locked-tests/";
                                            "g02/evidence/"] in
  let* _ := refuse_if (negb exact) "G02 provisioning plan prefix registry drifted" [] in
  let* exact := listed document "namespaces" ["fw-sut"; "fw-baseline"; "fw-eval"] in
  let* _ := refuse_if (negb exact) "G02 provisioning plan namespace registry drifted" [] in
  let* _ := refuse_if (negb (py_eq (dget "credential_refs" document) (VList (texts credential_refs))))
              "G02 provisioning credential references drifted" [] in
  let* _ := refuse_if (negb (py_eq (dget "secret_values" document) (VList [])))
              "G02 provisioning plan must not contain credential values" [] in
  let* images := from_option_or (Governance "G02 probe image registry drifted" []) (as_dict (dget "images" document)) in
  let* _ := refuse_if (negb (same_set images.*1 (texts ["busybox"; "minio_mc"]))) "G02 probe image registry drifted" [] in
  let* _ := refuse_if (existsb (λ image, negb (str_contains "@sha256:" (val_str image))) images.*2)
              "G02 probe image is not digest pinned" [] in
  let* exact := set_is document "schema_targets" PRODUCT_SCHEMAS in
  let* _ := refuse_if (negb exact) "G02 provisioning schema target registry drifted" [] in
  let* exact := set_is document "observability_targets" OBSERVABILITY_TARGETS in
  let* _ := refuse_if (negb exact) "G02 provisioning observability target registry drifted" [] in
  let* exact := set_is document "probe_pods" access_probes in
  refuse_if (negb exact) "G02 provisioning probe registry drifted" [].
(** [isolation_config] is the document of [config/g02/isolation.yaml], [probes] the one of
    [config/g02/gate-probes.yaml]. *)
Definition build_provisioning_plan (isolation_config probes : val) (ctx : ProbeContext) : CK mapping :=
  let* isolation := load_isolation_config isolation_config in
  let* plan := build_provisioning_plan_document isolation probes ctx in
  let* _ := validate_provisioning_plan plan in
  Ok plan.

(** ** The collectors *)

Record ProbeBackend {W : Type} := {
  provision : ProbeContext → SE W probe_exn mapping;
  access : ProbeContext → access_contract → SE W probe_exn mapping;
  trace_probe : ProbeContext → SE W probe_exn mapping;
  canary_probe : ProbeContext → SE W probe_exn mapping;
}.
Arguments ProbeBackend : clear implicits.

Section Collect.
Context {W : Type} (backend : ProbeBackend W) (now : nat → string) (ctx : ProbeContext).

(** The journal, and the world of the backend *)
Abbreviation M := (SE (Experiment.journal * W) probe_exn).
Definition in_journal {A} (m : SE Experiment.journal Experiment.exn A) : M A := λ s,
  let '(r, j) := m s.1 in (rmap_err JournalRaised r, (j, s.2)).
Definition in_world {A} (m : SE W probe_exn A) : M A := λ s, let '(r, w) := m s.2 in (r, (s.1, w)).

Definition begin_unit (trial_id unit_id : string) : M unit :=
  let! key := slift (unit_cache_key ctx unit_id) in
  let! _ := in_journal (Experiment.begin_trial now trial_id (context_sha ctx) key
                          (smapping [("unit_id", VStr unit_id)])) in
  sret tt.
(** [_finish]: a unit that is not running is begun again *)
Definition finish_unit (trial_id unit_id status : string) (payload : mapping) : M unit :=
  let! running := in_journal (Experiment.read trial_id) in
  let! _ := match running with
            | Some t => if bool_decide (Experiment.status (Experiment.current t) = "running") then sret tt
                        else begin_unit trial_id unit_id
            | None => begin_unit trial_id unit_id
            end in
  let! _ := in_journal (Experiment.finish now trial_id (VStr status) payload) in
  sret tt.

(** [try: dict(backend...) except ProbeInfrastructureError / ProbeBlockedError]: the answer, or
    the error after the unit was finished with its reason *)
Definition probed (trial_id unit_id : string) (m : SE W probe_exn mapping) : M (mapping + probe_exn) :=
  scatch (let! result := in_world m in sret (inl result))
    (λ e, match e with
          | ProbeInfrastructureError message =>
              finish_unit trial_id unit_id "infra_failed" (bound_payload ctx unit_id (reason message));;; sret (inr e)
          | ProbeBlockedError message =>
              finish_unit trial_id unit_id "blocked" (bound_payload ctx unit_id (reason message));;; sret (inr e)
          | e => sraise e
          end).

Definition valid_provisioning (result : mapping) : bool :=
  val_is (dget "status" result) "pass" && val_is (dget "producer_sha" result) (context_sha ctx) &&
  val_is (dget "environment_fingerprint" result) (fingerprint ctx) && val_truthy (dget "artifact_ref" result).
(** [_ensure_provisioned] *)
Definition ensure_provisioned : M mapping :=
  let unit_id := "isolation-provisioning" in
  let! existing := in_journal (Experiment.read "g02-provisioning") in
  let! held := slift (reusable existing ctx unit_id) in
  match held with
  | Some result => sret result
  | None =>
      let! terminal := slift (terminal_result existing ctx unit_id) in
      match terminal with
      | Some (_, result) =>
          sraise (ProbeBlockedError (val_str (default (VStr "provisioning_blocked") (dfind "reason_code" result))))
      | None =>
          begin_unit "g02-provisioning" unit_id;;;
          let! answer := probed "g02-provisioning" unit_id (provision backend ctx) in
          match answer with
          | inr e => sraise e
          | inl result =>
              if negb (valid_provisioning result) then
                finish_unit "g02-provisioning" unit_id "blocked" (bound_payload ctx unit_id result);;;
                sraise (ProbeBlockedError "provisioning_result_invalid")
              else
                finish_unit "g02-provisioning" unit_id "pass" (bound_payload ctx unit_id result);;;
                sret result
          end
      end
  end.
(** What a matrix does after [_ensure_provisioned] failed, or returned *)
Definition when_provisioned (field_name : string) (k : M mapping) : M mapping :=
  let! provisioned := scatch (let! _ := ensure_provisioned in sret None)
    (λ e, match e with
          | ProbeInfrastructureError _ => sret (Some "infra_failed")
          | ProbeBlockedError _ => sret (Some "blocked")
          | e => sraise e
          end) in
  match provisioned with
  | Some status => sret (matrix_document ctx status field_name [])
  | None => k
  end.
Definition error_status (e : probe_exn) : string :=
  match e with ProbeInfrastructureError _ => "infra_failed" | _ => "blocked" end.

(** *** The access matrix *)

Definition valid_cell (c : access_contract) (result : mapping) : bool :=
  val_is (dget "cell_id" result) (cell_id c) &&
  match dget "actual_allow" result with VBool _ => true | _ => false end && val_truthy (dget "artifact_ref" result).
Definition cell_status (c : access_contract) (result : mapping) : string :=
  match dget "actual_allow" result with
  | VBool b => if Bool.eqb b (expected_allow c) then "pass" else "metric_fail"
  | _ => "metric_fail"
  end.
Definition access_trial (index : nat) : string := "access-" +:+ pad2 (Z.of_nat index).
Definition with_contract (c : access_contract) (result : mapping) : mapping := merged (contract_mapping c) result.
(** One turn of the loop: the cell that passed, or the document that is returned *)
Definition access_unit (index : nat) (c : access_contract) (cells : list mapping) : M (mapping + mapping) :=
  let unit_id := cell_id c in
  let trial_id := access_trial index in
  let stop status cells := sret (inr (matrix_document ctx status "cells" cells)) in
  let! existing := in_journal (Experiment.read trial_id) in
  let! held := slift (reusable existing ctx unit_id) in
  let! terminal := slift (terminal_result existing ctx unit_id) in
  match terminal, held with
  | Some (status, result), _ =>
      stop status (if bool_decide (status = "metric_fail") then cells ++ [with_contract c result] else cells)
  | None, Some result => sret (inl (with_contract c result))
  | None, None =>
      begin_unit trial_id unit_id;;;
      let! answer := probed trial_id unit_id (access backend ctx c) in
      match answer with
      | inr e => stop (error_status e) cells
      | inl result =>
          if negb (valid_cell c result) then
            finish_unit trial_id unit_id "blocked" (bound_payload ctx unit_id result);;; stop "blocked" cells
          else
            finish_unit trial_id unit_id (cell_status c result) (bound_payload ctx unit_id result);;;
            if negb (bool_decide (cell_status c result = "pass"))
            then stop (cell_status c result) (cells ++ [with_contract c result])
            else sret (inl (with_contract c result))
      end
  end.
Fixpoint access_units (index : nat) (cs : list access_contract) (cells : list mapping) : M (list mapping + mapping) :=
  match cs with
  | [] => sret (inl cells)
  | c :: cs =>
      let! outcome := access_unit index c cells in
      match outcome with
      | inl cell => access_units (S index) cs (cells ++ [cell])
      | inr document => sret (inr document)
      end
  end.
Definition run_access_matrix : M mapping :=
  when_provisioned "cells"
    (let! outcome := access_units 1 access_cell_contract [] in
     match outcome with
     | inr document => sret document
     | inl cells =>
         let document := matrix_document ctx "pass" "cells" cells in
         let! _ := slift (ck (validate_live_access_matrix document (context_sha ctx) (fingerprint ctx))) in
         sret document
     end).

(** *** The matrices of one collection

    The stages of a trace and the surfaces of a canary are asked for at once.  The two
    functions differ in their registry, their names and what makes a row pass. *)
Record collection := {
  registry : list string;
  prefix : string;            (* of the trials of the rows *)
  field_name : string;
  row_key : string;
  collection_trial : string;
  collection_unit : string;
  missing_row : string → mapping;
  row_passes : mapping → bool;
  collect : ProbeContext → SE W probe_exn mapping;
  validate : mapping → string → string → CK val;
}.
Definition trace_collection : collection := {|
  registry := TRACE_STAGES; prefix := "trace-"; field_name := "stages"; row_key := "stage";
  collection_trial := "trace-collection"; collection_unit := "six-stage-collection";
  missing_row := λ stage, smapping [("stage", VStr stage); ("observed", VBool false)];
  row_passes := λ row, match dget "observed" row with VBool b => b | _ => false end &&
                       val_truthy (dget "trace_id" row) && val_truthy (dget "artifact_ref" row);
  collect := trace_probe backend;
  validate := validate_stage_matrix;
|}.
Definition canary_collection : collection := {|
  registry := CANARY_SURFACES; prefix := "canary-"; field_name := "surfaces"; row_key := "surface";
  collection_trial := "canary-collection"; collection_unit := "all-surface-collection";
  missing_row := λ surface, smapping [("surface", VStr surface); ("hit_count", VInt (-1))];
  row_passes := λ row, py_eq (dget "hit_count" row) (VInt 0) && val_truthy (dget "artifact_ref" row) &&
                       val_truthy (dget "canary_digest" row);
  collect := canary_probe backend;
  validate := validate_all_surface_canary;
|}.

Section Rows.
Context (col : collection).
Definition row_trial (index : nat) : string := prefix col +:+ pad2 (Z.of_nat index).

(** The rows that are held already: all of them, none of use, or a document to return *)
Fixpoint held_rows (index : nat) (names : list string) (rows : list mapping) : M (list mapping + mapping) :=
  match names with
  | [] => sret (inl rows)
  | name :: names =>
      let! record := in_journal (Experiment.read (row_trial index)) in
      let! terminal := slift (terminal_result record ctx name) in
      match terminal with
      | Some (status, _) => sret (inr (matrix_document ctx status (field_name col) rows))
      | None =>
          let! held := slift (reusable record ctx name) in
          match held with
          | None => sret (inl [])
          | Some row => held_rows (S index) names (rows ++ [row])
          end
      end
  end.

Definition row_of (by_name : list (val * val)) (name : string) : mapping :=
  match dfind name by_name with Some (VDict row) => row | _ => missing_row col name end.
Definition row_status (row : mapping) : string := if row_passes col row then "pass" else "metric_fail".
(** The loop that writes one trial for each row *)
Fixpoint record_rows (index : nat) (by_name : list (val * val)) (names : list string) : M (list mapping) :=
  match names with
  | [] => sret []
  | name :: names =>
      let row := row_of by_name name in
      finish_unit (row_trial index) name (row_status row) (bound_payload ctx name row);;;
      let! rows := record_rows (S index) by_name names in
      sret (row :: rows)
  end.
Definition validated (document : mapping) : M mapping :=
  let! _ := slift (ck (validate col document (context_sha ctx) (fingerprint ctx))) in sret document.

Definition collect_rows (result : mapping) : M mapping :=
  let finish_collection status :=
    finish_unit (collection_trial col) (collection_unit col) status (bound_payload ctx (collection_unit col) result) in
  match dget (field_name col) result with
  | VList rows =>
      finish_collection "pass";;;
      let! by_name := slift (ck (dicts_by (row_key col) rows)) in
      let! ordered := record_rows 1 by_name (registry col) in
      let complete := (length rows =? length (registry col))%nat && strings_are by_name.*1 (registry col) in
      if complete && forallb (row_passes col) ordered
      then validated (matrix_document ctx "pass" (field_name col) ordered)
      else sret (matrix_document ctx "metric_fail" (field_name col) ordered)
  | _ => finish_collection "blocked";;; sret (matrix_document ctx "blocked" (field_name col) [])
  end.
Definition run_collection : M mapping :=
  when_provisioned (field_name col)
    (let! held := held_rows 1 (registry col) [] in
     match held with
     | inr document => sret document
     | inl ((_ :: _) as rows) => validated (matrix_document ctx "pass" (field_name col) rows)
     | inl [] =>
         let! record := in_journal (Experiment.read (collection_trial col)) in
         let! terminal := slift (terminal_result record ctx (collection_unit col)) in
         match terminal with
         | Some (status, _) => sret (matrix_document ctx status (field_name col) [])
         | None =>
             begin_unit (collection_trial col) (collection_unit col);;;
             let! answer := probed (collection_trial col) (collection_unit col) (collect col ctx) in
             match answer with
             | inr e => sret (matrix_document ctx (error_status e) (field_name col) [])
             | inl result => collect_rows result
             end
         end
     end).
End Rows.
Definition run_trace_matrix : M mapping := run_collection trace_collection.
Definition run_canary_matrix : M mapping := run_collection canary_collection.
End Collect.

(** ** The memory backend *)

Definition canary_values (ctx : ProbeContext) : string * string :=
  let seed := str_take 24 (sha256_hex (utf8 (fingerprint ctx +:+ "|g02-canary-v1"))) in
  ("FW_SECRET_CANARY_" +:+ seed, "fw_pii_canary_" +:+ seed +:+ "@example.invalid").
Definition canary_tuple (ctx : ProbeContext) : val :=
  let '(secret, pii) := canary_values ctx in VList [VStr secret; VStr pii].

(** The fields of [MemoryProbeBackend]; [calls] is the state. *)
Record MemoryProbeBackend := {
  isolation_document : val;
  probes_document : val;
  access_overrides : gmap string bool;
  missing_stage : option string;
  canary_hit_surface : option string;
}.
Section Memory.
Context (self : MemoryProbeBackend).

(** [_called] *)
Definition called (name : string) : SE (gmap string Z) probe_exn unit :=
  smodify (λ calls, <[name := (default 0 (calls !! name) + 1)%Z]> calls).
Definition memory_provision (ctx : ProbeContext) : SE (gmap string Z) probe_exn mapping :=
  called "provision";;;
  slift (ck (let* plan := build_provisioning_plan (isolation_document self) (probes_document self) ctx in
             let* digest := digest_of (VDict plan) in
             let* artifact := artifact_ref ctx "provisioning" "plan" (VDict plan) in
             Ok (smapping [("status", VStr "pass"); ("producer_sha", VStr (context_sha ctx));
                           ("environment_fingerprint", VStr (fingerprint ctx)); ("plan_digest", VStr digest);
                           ("artifact_ref", VStr artifact)]))).
Definition memory_access (ctx : ProbeContext) (c : access_contract) : SE (gmap string Z) probe_exn mapping :=
  called "access";;;
  slift (ck (let actual := default (expected_allow c) (access_overrides self !! cell_id c) in
             let* artifact := artifact_ref ctx "access" (cell_id c) (VBool actual) in
             Ok (smapping [("cell_id", VStr (cell_id c)); ("actual_allow", VBool actual); ("artifact_ref", VStr artifact)]))).
Definition memory_trace (ctx : ProbeContext) : SE (gmap string Z) probe_exn mapping :=
  called "trace";;;
  slift (ck (let trace_id := str_take 32 (sha256_hex (utf8 (fingerprint ctx))) in
             let* stages := rmapM (λ stage,
               let* artifact := artifact_ref ctx "trace" stage (VStr trace_id) in
               Ok (sdict [("stage", VStr stage); ("trace_id", VStr trace_id); ("observed", VBool true);
                          ("artifact_ref", VStr artifact)]))
               (List.filter (λ stage, negb (bool_decide (Some stage = missing_stage self))) TRACE_STAGES) in
             Ok (smapping [("status", VStr "pass"); ("stages", VList stages)]))).
Definition memory_canary (ctx : ProbeContext) : SE (gmap string Z) probe_exn mapping :=
  called "canary";;;
  slift (ck (let* digest := digest_of (canary_tuple ctx) in
             let* surfaces := rmapM (λ surface,
               let* artifact := artifact_ref ctx "canary" surface (VStr digest) in
               Ok (sdict [("surface", VStr surface);
                          ("hit_count", VInt (if bool_decide (Some surface = canary_hit_surface self) then 1 else 0));
                          ("artifact_ref", VStr artifact); ("canary_digest", VStr digest)])) CANARY_SURFACES in
             Ok (smapping [("status", VStr "pass"); ("surfaces", VList surfaces)]))).
Definition memory_backend : ProbeBackend (gmap string Z) :=
  {| provision := memory_provision; access := memory_access; trace_probe := memory_trace; canary_probe := memory_canary |}.
End Memory.

(** ** The credential seam *)

(** What the request answers *)
Inductive info_answer : Type :=
| Unreachable
| StatusCode (status : Z).
Definition credential_summary (allow : bool) (response_class : string) (status : val) : mapping :=
  smapping [("credential_allow", VBool allow); ("response_class", VStr response_class); ("http_status", status)].
Definition langsmith_access_probe (get_info : string → info_answer) (credential : string) : PR mapping :=
  raise_if negb (truthy credential) with_ ProbeBlockedError "langsmith_credential_missing";;
  match get_info credential with
  | Unreachable => Err (ProbeInfrastructureError "langsmith_transport")
  | StatusCode status =>
      if (status =? 200)%Z then Ok (credential_summary true "success" (VInt status))
      else if bool_decide (status ∈ [408; 425; 429]%Z) || (500 <=? status)%Z
      then Err (ProbeInfrastructureError "langsmith_service_unavailable")
      else if bool_decide (status ∈ [401; 403]%Z) then Ok (credential_summary false "credential_denied" (VInt status))
      else Err (ProbeBlockedError ("langsmith_request_rejected_" +:+ int_repr status))
  end.

(** ** The remote backend *)

(** Base64, three bytes at a time *)
Definition b64_char (n : N) : ascii :=
  ascii_of_N (if n <? 26 then 65 + n else if n <? 52 then 71 + n else if n <? 62 then n - 4 else if n =? 62 then 43 else 47)%N.
Fixpoint b64_encode (s : list ascii) : string :=
  match s with
  | [] => ""
  | [a] =>
      let a := N_of_ascii a in
      String (b64_char (a / 4)) (String (b64_char (a mod 4 * 16)) "==")
  | [a; b] =>
      let '(a, b) := (N_of_ascii a, N_of_ascii b) in
      String (b64_char (a / 4)) (String (b64_char (a mod 4 * 16 + b / 16)) (String (b64_char (b mod 16 * 4)) "="))
  | a :: b :: c :: s =>
      let '(a, b, c) := (N_of_ascii a, N_of_ascii b, N_of_ascii c) in
      String (b64_char (a / 4)) (String (b64_char (a mod 4 * 16 + b / 16))
        (String (b64_char (b mod 16 * 4 + c / 64)) (String (b64_char (c mod 64)) (b64_encode s))))
  end%N.
Definition b64 (s : string) : string := b64_encode (String.list_ascii_of_string s).
Example b64_values :
  (b64 "", b64 "f", b64 "fo", b64 "foo", b64 "foob?~") = ("", "Zg==", "Zm8=", "Zm9v", "Zm9vYj9+").
Proof. vm_compute. reflexivity. Qed.

(** [payload.count(token)]: occurrences that do not overlap *)
Fixpoint count_in (fuel : nat) (token s : string) : Z :=
  match fuel, s with
  | S fuel, String _ s' =>
      if startswith s token then (1 + count_in fuel token (str_drop (String.length token) s))%Z else count_in fuel token s'
  | _, _ => 0%Z
  end.
Definition count_str (token s : string) : Z := count_in (String.length s) token s.
Example count_values : (count_str "aa" "aaaaa", count_str "ab" "xabyab", count_str "ab" "") = (2, 2, 0)%Z.
Proof. vm_compute. reflexivity. Qed.

(** What the remote backend reads and calls outside the program: the documents and the text of
    the probe and of the manifest, the shell on the cluster, the timestamp git has for the
    producer, the bundle of secrets, the credential service, the trace relay, and what the
    local surfaces hold. *)
Record remote_world := {
  remote_isolation : val;
  remote_probes : val;
  probe_program : string;
  isolation_manifest : string;
  run_remote_script : string → result check_error string;
  producer_timestamp : ProbeContext → PR string;
  langsmith_api_key : string;
  get_info : string → info_answer;
  relay_langsmith : result check_error mapping;
  local_surfaces : ProbeContext → PR (list (string * string));
}.
Section Remote.
Context (rw : remote_world).
Let plan (ctx : ProbeContext) : CK mapping := build_provisioning_plan (remote_isolation rw) (remote_probes rw) ctx.

(** [_request] *)
Definition remote_request (ctx : ProbeContext) (extra : mapping) : CK mapping :=
  let* p := plan ctx in
  let* plan_digest := digest_of (VDict p) in
  Ok (merged (smapping [("producer_sha", VStr (context_sha ctx)); ("environment_fingerprint", VStr (fingerprint ctx));
                        ("plan_digest", VStr plan_digest); ("probe_config", remote_probes rw);
                        ("isolation_manifest", VStr (isolation_manifest rw))]) extra).
Definition quoted (s : string) : string := String dq s +:+ String dq "".
Definition probe_shell (program request action : string) : string :=
  str_join newline
    ["set -eu";
     "work=$(mktemp -d /tmp/faultwitness-g02-probe.XXXXXX)";
     "cleanup() { rm -rf " +:+ quoted "$work" +:+ "; }";
     "trap cleanup EXIT HUP INT TERM";
     "printf %s " +:+ program +:+ " | base64 -d >" +:+ quoted "$work/gate_probe.py";
     "printf %s " +:+ request +:+ " | base64 -d >" +:+ quoted "$work/request.json";
     "python3 " +:+ quoted "$work/gate_probe.py" +:+ " " +:+ action +:+ " " +:+ quoted "$work/request.json";
     ""].
(** What is made of the output of the script *)
Definition read_probe_output (ctx : ProbeContext) (output : string) : PR mapping :=
  let '(secret, pii) := canary_values ctx in
  raise_if str_contains secret output || str_contains pii output
    with_ ProbeBlockedError "probe_output_contains_raw_canary";;
  let* loaded := from_option_or (ProbeBlockedError "probe_output_invalid_json") (loads output) in
  let* document := from_option_or (ProbeBlockedError "probe_output_invalid_shape") (as_dict loaded) in
  raise_if val_is (dget "status" document) "infra_failed"
    with_ ProbeInfrastructureError (val_str (default (VStr "remote_infra") (dfind "reason_code" document)));;
  raise_if val_is (dget "status" document) "blocked"
    with_ ProbeBlockedError (val_str (default (VStr "remote_blocked") (dfind "reason_code" document)));;
  Ok document.
Definition invoke (action : string) (ctx : ProbeContext) (extra : mapping) : PR mapping :=
  let* request := ck (remote_request ctx extra) in
  let* text := ck (from_option_or (Escapes "TypeError") (dumps sorted_style (VDict request))) in
  match run_remote_script rw (probe_shell (b64 (probe_program rw)) (b64 text) action) with
  | Ok output => read_probe_output ctx output
  | Err (Governance _ _) => Err (ProbeInfrastructureError "remote_probe_transport")
  | Err e => Err (CheckRaised e)
  end.
Definition remote_provision (ctx : ProbeContext) : PR mapping :=
  let* p := ck (plan ctx) in
  let* digest := ck (digest_of (VDict p)) in
  let* document := invoke "provision" ctx (smapping [("plan_digest", VStr digest)]) in
  raise_if negb (val_is (dget "plan_digest" document) digest) with_ ProbeBlockedError "remote_provisioning_plan_drift";;
  Ok document.

Definition not_invoked : mapping := credential_summary false "not_invoked" VNone.
(** [_langsmith_access] *)
Definition langsmith_access (ctx : ProbeContext) (c : access_contract) : PR mapping :=
  let owner := bool_decide (probe c = "canonical-owner") in
  let* network_allow :=
    if owner then Ok true
    else let* network := invoke "access" ctx (smapping [("cell", VDict (contract_mapping c))]) in
         Ok match dget "actual_allow" network with VBool b => b | _ => false end in
  let asked := bool_decide (probe c ∈ ["canonical-owner"; "baseline-agent"]) in
  let* credential := if asked then langsmith_access_probe (get_info rw) (langsmith_api_key rw) else Ok not_invoked in
  let credential_allow := dget "credential_allow" credential in
  let actual := if network_allow then if asked then credential_allow else VBool true else VBool false in
  let shared := [("credential_response_class", dget "response_class" credential);
                 ("credential_http_status", dget "http_status" credential)] in
  let summary := smapping ([("cell_id", VStr (cell_id c)); ("probe", VStr (probe c)); ("network_allow", VBool network_allow);
                            ("credential_allow", credential_allow)] ++ shared ++ [("actual_allow", actual)]) in
  let* artifact := ck (artifact_ref ctx "access" (cell_id c) (VDict summary)) in
  Ok (smapping ([("cell_id", VStr (cell_id c)); ("actual_allow", actual)] ++ shared ++ [("artifact_ref", VStr artifact)])).
Definition remote_access (ctx : ProbeContext) (c : access_contract) : PR mapping :=
  if bool_decide (target c = "obs:langsmith") then langsmith_access ctx c
  else invoke "access" ctx (smapping [("cell", VDict (contract_mapping c))]).

(** One stage of the answer: the export stage cites a trace of the relay. *)
Definition cite_relay (relay : mapping) (stage : val) : PR val :=
  let* name := ck (getattr stage "stage" VNone) in
  let traces := dget "langsmith_trace_ids" relay in
  if val_is name "export" && val_truthy traces then
    let* first := ck (py_ck (first_item traces)) in
    match stage with
    | VDict d => Ok (VDict (dset "artifact_ref" (VStr ("private://faultwitness/g02/langsmith/" +:+ val_str first)) d))
    | v => Ok v
    end
  else Ok stage.
Definition remote_trace (ctx : ProbeContext) : PR mapping :=
  let* timestamp := producer_timestamp rw ctx in
  let* document := invoke "trace" ctx (smapping [("producer_timestamp", VStr timestamp)]) in
  let* relay := ck (relay_langsmith rw) in
  raise_if negb (py_eq (dget "pending_traces" relay) (VInt 0)) || negb (py_eq (dget "pending_langsmith" relay) (VInt 0))
    with_ ProbeBlockedError "trace_relay_backlog";;
  match dget "stages" document with
  | VList stages => let* stages := rmapM (cite_relay relay) stages in Ok (dset "stages" (VList stages) document)
  | _ => Ok document
  end.

(** One surface of [_local_canary_surfaces]: the two tokens are counted in its bytes *)
Definition local_surface (ctx : ProbeContext) (digest : string) (check : string * string) : CK val :=
  let '(secret, pii) := canary_values ctx in
  let* artifact := let* d := digest_of (VStr (hex check.2)) in
                   artifact_ref ctx "canary" check.1 (VStr d) in
  Ok (sdict [("surface", VStr check.1); ("hit_count", VInt (count_str secret check.2 + count_str pii check.2));
             ("artifact_ref", VStr artifact); ("canary_digest", VStr digest)]).
Definition local_canary_surfaces (ctx : ProbeContext) : PR (list val) :=
  let* digest := ck (digest_of (canary_tuple ctx)) in
  let* checks := local_surfaces rw ctx in
  ck (rmapM (local_surface ctx digest) checks).
Definition remote_canary (ctx : ProbeContext) : PR mapping :=
  let* timestamp := producer_timestamp rw ctx in
  let* document := invoke "canary" ctx (smapping [("producer_timestamp", VStr timestamp)]) in
  match dget "surfaces" document with
  | VList surfaces =>
      let* replacements := local_canary_surfaces ctx in
      let* by_surface := ck (dicts_by "surface" (surfaces ++ replacements)) in
      Ok (dset "surfaces" (VList ((λ surface, default (sdict [("surface", VStr surface)]) (dfind surface by_surface)) <$>
                                    CANARY_SURFACES)) document)
  | _ => Ok document
  end.
(** What a call outside changes there is not part of the model. *)
Definition remote_backend : ProbeBackend unit :=
  {| provision := λ ctx, slift (remote_provision ctx); access := λ ctx c, slift (remote_access ctx c);
     trace_probe := λ ctx, slift (remote_trace ctx); canary_probe := λ ctx, slift (remote_canary ctx) |}.
End Remote.
