(* ===== verification/IsolationTheorems.v ===== *)
(** * Theorems on the isolation of the laboratory

    The contracts that the isolation documents are checked against, and the collectors that
    prove them on the live system. *)
From Stdlib Require Import Ascii.
From S2P Require Import Prelude Json PyDyn PyFloat PySet DevContracts DevContractsTheorems DevSchemas Packet Scoring ScoringTheorems Lab LabTheorems Matrix MatrixTheorems Isolation JsonFacts ExperimentTheorems Collectors.
From S2P Require Experiment.

(** ** Theorems on the isolation contracts

    What shell patterns match; who an identity policy lets act; the allocation of an accepted
    preregistry; and what an accepted live matrix proves of each cell. *)

(** *** Shell patterns *)

Inductive glob_matches : list glob → list ascii → Prop :=
| gm_end : glob_matches [] []
| gm_star g s1 s2 : glob_matches g s2 → glob_matches (GStar :: g) (s1 ++ s2)
| gm_char t g c s : t ≠ GStar → glob_test t c = true → glob_matches g s → glob_matches (t :: g) (c :: s).

Definition is_star (t : glob) : Prop := t = GStar.
#[local] Instance is_star_dec t : Decision (is_star t).
Proof. destruct t; first [by left|by right]. Defined.

Lemma glob_match_star g s :
  glob_match (GStar :: g) s = glob_match g s || match s with [] => false | _ :: s' => glob_match (GStar :: g) s' end.
Proof. by destruct s. Qed.
Lemma star_inv g s : glob_matches (GStar :: g) s → ∃ s1 s2, s = s1 ++ s2 ∧ glob_matches g s2.
Proof. inversion 1; subst; [by do 2 eexists|done]. Qed.
Lemma glob_match_spec g s : glob_match g s = true ↔ glob_matches g s.
Proof.
  revert s. induction g as [|t g IH]; intros s.
  - destruct s; split; try done; first [by constructor|by inversion 1].
  - destruct (decide (is_star t)) as [->|Hn].
    + induction s as [|c s IHs]; rewrite glob_match_star, orb_true_iff, IH; split.
      * intros [H|]; [|done]. by apply (gm_star g [] []).
      * intros (s1 & s2 & Heq & Hm)%star_inv. symmetry in Heq. apply app_eq_nil in Heq as [-> ->]. by left.
      * intros [H|H]; [by apply (gm_star g [] (c :: s))|]. apply IHs, star_inv in H as (s1 & s2 & -> & Hm).
        by apply (gm_star g (c :: s1) s2).
      * intros (s1 & s2 & Heq & Hm)%star_inv. destruct s1 as [|c' s1]; cbn in Heq; [left; by subst|].
        injection Heq as -> ->. right. apply IHs. by constructor.
    + assert (glob_match (t :: g) s = match s with c :: s => glob_test t c && glob_match g s | [] => false end) as -> by (by destruct t).
      split.
      * destruct s as [|c s]; [done|]. intros [Ht Hm]%andb_true_iff. constructor; [done..|]. by apply IH.
      * inversion 1 as [| |? ? c s' _ Ht Hm]; subst; [done|]. rewrite Ht. by apply IH.
Qed.
Definition denotes (pattern name : string) : Prop :=
  let pattern := String.list_ascii_of_string pattern in
  glob_matches (glob_tokens (length pattern) pattern) (String.list_ascii_of_string name).
Lemma fnmatchcase_spec name pattern : fnmatchcase name pattern = true ↔ denotes pattern name.
Proof. apply glob_match_spec. Qed.

(** *** Identity policies *)

(** A rule of a policy names an action and a pattern of resources. *)
Definition covers (rule : val) (action resource : string) : Prop :=
  ∃ d, rule = VDict d ∧ dget "action" d = VStr action ∧ denotes (val_str (dget "resource" d)) resource.
Definition is_rule (rule : val) : Prop := ∃ d, rule = VDict d.

Lemma rule_matches_spec action resource rule : is_rule rule →
  ∃ b, rule_matches action resource rule = Ok b ∧ (b = true ↔ covers rule action resource).
Proof.
  intros [d ->]. unfold rule_matches, getattr. cbn [get_attr py_ck rmap_err rbind].
  change (default VNone (dfind "action" d)) with (dget "action" d).
  change (default VNone (dfind "resource" d)) with (dget "resource" d).
  destruct (val_is (dget "action" d) action) eqn:Ea.
  - apply val_is_true in Ea. eexists. split; [done|]. rewrite fnmatchcase_spec. unfold covers. naive_solver.
  - exists false. split; [done|]. split; [done|]. intros (d' & [= <-] & Hd & _).
    by apply val_is_true in Hd; rewrite Hd in Ea.
Qed.
Lemma any_rule_spec action resource rules :
  Forall is_rule rules →
  ∃ b, ck_any (rule_matches action resource) rules = Ok b ∧ (b = true ↔ ∃ r, r ∈ rules ∧ covers r action resource).
Proof.
  induction 1 as [|r rules Hr _ (b & IH & Hb)].
  - exists false. split; [done|]. split; [done|]. by intros (? & ?%elem_of_nil & _).
  - destruct (rule_matches_spec action resource r Hr) as (b1 & H1 & Hb1). cbn [ck_any]. unfold ck_or. rewrite H1, IH.
    cbn [rbind]. destruct b1.
    + exists true. split; [done|]. split; [|done]. intros _. exists r. split; [left|by apply Hb1].
    + exists b. split; [done|]. rewrite Hb. setoid_rewrite elem_of_cons. split; [naive_solver|].
      intros (r' & [->|?] & Hc); [by apply Hb1 in Hc|by eexists].
Qed.

(** A policy whose two lists hold rules *)
Record well_formed_policy (policy : mapping) (allows denies : list val) : Prop := {
  wf_allows : elements (rules_of "allow" policy) = Ok allows;
  wf_denies : elements (rules_of "deny" policy) = Ok denies;
  wf_allow_rules : Forall is_rule allows;
  wf_deny_rules : Forall is_rule denies;
}.

(** C26: A principal may act exactly where one of its allow rules covers the action and the
    resource and none of its deny rules does: a deny rule overrides every allow rule, and what
    no rule covers is denied.  The question always has an answer for a policy of rules. *)
Theorem allowed_iff_covered_and_not_denied config principal action resource policy allows denies :
  policy_of config principal = Ok policy → well_formed_policy policy allows denies →
  ∃ b, authorize config principal action resource = Ok b ∧
    (b = true ↔ (∃ r, r ∈ allows ∧ covers r action resource) ∧ ¬ ∃ r, r ∈ denies ∧ covers r action resource).
Proof.
  intros Hp [Ha Hd Har Hdr]. unfold authorize, any_rule. rewrite Hp. cbn [rbind]. rewrite Hd. cbn [rbind].
  destruct (any_rule_spec action resource denies Hdr) as (denied & -> & Hdenied). cbn [rbind].
  destruct (any_rule_spec action resource allows Har) as (allowed & Eallowed & Hallowed).
  destruct denied.
  - exists false. split; [done|]. split; [done|]. intros [_ H]. by destruct H; apply Hdenied.
  - rewrite Ha. cbn [rbind]. exists allowed. split; [done|]. rewrite Hallowed. split; [|tauto].
    intros H. split; [done|]. by intros ?%Hdenied.
Qed.

(** *** The preregistry *)

Definition occurrences (c : cell) (cells : list cell) : nat := length (List.filter (λ c', bool_decide (c' = c)) cells).
(** What the registry allots to a cell: nothing outside the grid *)
Definition allotted (c : cell) : nat :=
  default 0%nat (snd <$> List.find (λ e, bool_decide (e.1 = c)) cell_counts).

Section Counting.
Context {A : Type} `{EqDecision A}.
Definition within (keys : list A) (xs : list A) : nat := length (List.filter (λ x, bool_decide (x ∈ keys)) xs).
Definition count (k : A) (xs : list A) : nat := length (List.filter (λ x, bool_decide (x = k)) xs).
Lemma within_cons k keys xs : k ∉ keys → within (k :: keys) xs = (count k xs + within keys xs)%nat.
Proof.
  intros Hk. unfold within, count. induction xs as [|x xs IH]; [done|]. cbn.
  destruct (decide (x = k)) as [->|Hne].
  - rewrite (bool_decide_eq_true_2 (k ∈ k :: keys)), (bool_decide_eq_true_2 (k = k)), (bool_decide_eq_false_2 (k ∈ keys)); [|done..|left].
    cbn. by rewrite IH.
  - rewrite (bool_decide_eq_false_2 (x = k)) by done. rewrite (bool_decide_ext (x ∈ k :: keys) (x ∈ keys)).
    + case_bool_decide; cbn; rewrite IH; lia.
    + rewrite elem_of_cons. naive_solver.
Qed.
Lemma within_sum keys xs : NoDup keys → within keys xs = sum_list_with (λ k, count k xs) keys.
Proof.
  induction 1 as [|k keys Hk _ IH]; [unfold within; clear; by induction xs|]. rewrite within_cons by done. cbn. by rewrite IH.
Qed.
Lemma within_all keys xs : within keys xs = length xs → ∀ x, x ∈ xs → x ∈ keys.
Proof.
  unfold within. induction xs as [|y xs IH]; [intros _ x ?%elem_of_nil; done|]. cbn. case_bool_decide as Hy; cbn.
  - intros [= Hl] x [->|Hx]%elem_of_cons; [done|by apply IH].
  - intros Hl. pose proof (List.filter_length_le (λ x, bool_decide (x ∈ keys)) xs). lia.
Qed.
Lemma count_none k xs : k ∉ xs → count k xs = 0%nat.
Proof.
  unfold count. induction xs as [|x xs IH]; [done|]. rewrite not_elem_of_cons. intros [Hne Hx]. cbn.
  rewrite bool_decide_eq_false_2 by congruence. by apply IH.
Qed.
End Counting.

Lemma cells_nodup : NoDup cell_counts.*1.
Proof. apply (bool_decide_unpack _). vm_compute. exact I. Qed.
Lemma cells_total : sum_list_with snd cell_counts = 160%nat.
Proof. vm_compute. reflexivity. Qed.
Lemma cell_counts_found c n : (c, n) ∈ cell_counts → allotted c = n.
Proof.
  unfold allotted. pose proof cells_nodup as Hn. revert Hn. generalize cell_counts. intros l. induction l as [|[c' n'] l IH].
  - by intros _ ?%elem_of_nil.
  - cbn. intros [Hc Hl]%NoDup_cons [[= -> ->]|Hin]%elem_of_cons; [by rewrite bool_decide_eq_true_2|].
    rewrite bool_decide_eq_false_2; [by apply IH|]. intros ->. apply Hc. by apply (list_elem_of_fmap_2 fst _ (c, n)).
Qed.
Lemma allotted_outside c : c ∉ cell_counts.*1 → allotted c = 0%nat.
Proof.
  unfold allotted. intros Hc. destruct (List.find _ _) as [[c' n]|] eqn:E; [|done].
  apply List.find_some in E as [Hin Heq]. apply bool_decide_eq_true in Heq. cbn in Heq. subst. destruct Hc.
  apply list_elem_of_In in Hin. by apply (list_elem_of_fmap_2 fst _ (c, n)).
Qed.
Lemma sum_with_ext {A} (f g : A → nat) l : (∀ x, x ∈ l → f x = g x) → sum_list_with f l = sum_list_with g l.
Proof. induction l as [|x l IH]; intros H; [done|]. cbn. rewrite H by left. rewrite IH; [done|]. intros. apply H. by right. Qed.
Lemma sum_with_fmap {A B} (h : A → B) (f : B → nat) l : sum_list_with f (h <$> l) = sum_list_with (λ x, f (h x)) l.
Proof. induction l as [|x l IH]; [done|]. cbn. by rewrite <-IH. Qed.

Lemma grid_is_full (cells : list cell) :
  length cells = 160%nat → (∀ e, e ∈ cell_counts → occurrences e.1 cells = e.2) → ∀ c, occurrences c cells = allotted c.
Proof.
  intros Hlen Hcounts c. destruct (decide (c ∈ cell_counts.*1)) as [Hin|Hout].
  - apply list_elem_of_fmap in Hin as ([c' n] & -> & Hin). cbn [fst]. rewrite (cell_counts_found _ _ Hin). by apply Hcounts in Hin.
  - rewrite allotted_outside by done. apply count_none. intros Hc. apply Hout.
    apply (within_all cell_counts.*1 cells); [|done]. rewrite within_sum by apply cells_nodup.
    rewrite sum_with_fmap, Hlen, <-cells_total. apply sum_with_ext. intros e He. by apply Hcounts.
Qed.

Lemma refuse_if_ok b message shown u : refuse_if b message shown = Ok u → b = false.
Proof. unfold refuse_if. destruct b; [|done]. by destruct (rmapM _ _). Qed.

Lemma getattr_item row key s : getattr row key VNone = Ok (VStr s) → item row key = Ok (VStr s).
Proof.
  unfold getattr, item. destruct row; try done. cbn. destruct (dfind key d); cbn; [done|]. by intros [=].
Qed.
Lemma prereg_row_ok row case_id :
  check_prereg_row row = Ok tt → item row "case_id" = Ok (VStr case_id) →
  item row "ground_truth_placeholder" = Ok (VStr (case_uri case_id)) ∧
  ∃ fields, set_of row = Ok fields ∧ same_set fields (texts PREREG_FIELDS) = true.
Proof.
  unfold check_prereg_row. intros H Hid. rewrite Hid in H. res_inv.
  apply refuse_if_ok, negb_false_iff, val_is_true in H. cbn in H. subst. apply refuse_if_ok, negb_false_iff in E0.
  split; [by apply getattr_item|]. by eexists.
Qed.

(** An accepted preregistry has one row for each of the 160 core cases, in order, each
    with exactly the six public fields and the address of its own sealed truth; every family,
    difficulty and split has exactly the rows allotted to it, and no row lies outside the
    grid; and no object that exists already names one of the cases. *)
Theorem accepted_preregistry_fills_the_grid rows materialized :
  validate_preregistry rows materialized = Ok tt →
  ∃ cells, rmapM row_cell rows = Ok cells ∧
    (∀ c, occurrences c cells = allotted c) ∧
    (∀ i row, rows !! i = Some row →
       item row "case_id" = Ok (VStr (core_id (S i))) ∧
       item row "ground_truth_placeholder" = Ok (VStr (case_uri (core_id (S i)))) ∧
       ∃ fields, set_of row = Ok fields ∧ same_set fields (texts PREREG_FIELDS) = true) ∧
    (∀ i value, (i < 160)%nat → value ∈ materialized → str_contains (core_id (S i)) value = false).
Proof.
  unfold validate_preregistry. intros H. res_inv.
  apply refuse_if_ok in E, E1, H. apply negb_false_iff in E, E1. apply Nat.eqb_eq in E. apply strings_are_fmap in E1.
  eexists. split; [done|]. split.
  - apply grid_is_full.
    + apply rmapM_length in E3. congruence.
    + intros [c n] Hin. eapply ck_for_ok in E4; [|exact Hin]. apply refuse_if_ok, negb_false_iff, Nat.eqb_eq in E4. done.
  - split.
    + intros i row Hi. eapply ck_for_ok in E2; [|by eapply list_elem_of_lookup_2].
      apply rmapM_ok in E0. eapply Forall2_lookup_l in E0 as (id & Hid & Hget); [|exact Hi].
      rewrite E1 in Hid. rewrite list_lookup_fmap in Hid. unfold expected_ids in Hid. rewrite list_lookup_fmap in Hid.
      apply fmap_Some in Hid as (x & Hx & ->). apply fmap_Some in Hx as (n & Hn & ->).
      apply lookup_seq in Hn as [-> _]. cbn [Nat.add] in Hget. apply getattr_item in Hget. split; [done|].
      by apply prereg_row_ok.
    + intros i value Hi Hv. apply not_true_iff_false. intros Hc. apply not_true_iff_false in H. apply H.
      apply existsb_exists. exists value. split; [by apply list_elem_of_In|]. apply existsb_exists.
      exists (core_id (S i)). split; [|done]. apply list_elem_of_In. unfold expected_ids.
      apply list_elem_of_fmap_2. apply elem_of_seq. lia.
Qed.

(** *** The access matrix *)

Lemma dfind_put name k v d : dfind name (put k v d) = if is_key name k then Some v else dfind name d.
Proof.
  induction d as [|[k' w] d IH]; cbn; [by destruct (is_key name k)|]. destruct (py_eq k k') eqn:E; cbn.
  - destruct (is_key name k) eqn:Ek.
    + destruct k; cbn in Ek; try discriminate Ek. apply py_eq_str in E as ->. cbn. by rewrite Ek.
    + assert (is_key name k' = false) as ->; [|done]. apply not_true_iff_false. intros Hk.
      destruct k'; cbn in Hk; try discriminate Hk. apply py_eq_str_r in E as ->. cbn in Ek. congruence.
  - rewrite IH. destruct (is_key name k') eqn:Ek'; [|done]. destruct (is_key name k) eqn:Ek; [|done].
    destruct k'; cbn in Ek'; try discriminate Ek'. destruct k; cbn in Ek; try discriminate Ek.
    apply bool_decide_eq_true in Ek, Ek'. subst. assert (py_eq (VStr name) (VStr name) = true) by (by apply py_eq_str).
    congruence.
Qed.
Lemma is_key_named name k : is_key name k = true ↔ k = VStr name.
Proof. destruct k; cbn; try (split; congruence). rewrite bool_decide_eq_true. split; congruence. Qed.
Lemma dicts_by_found key rows acc name row :
  dicts_by key rows = Ok acc → dfind name acc = Some row → ∃ d, row = VDict d ∧ row ∈ rows ∧ dget key d = VStr name.
Proof.
  intros H Hf. revert name row Hf.
  refine (rfold_invariant (λ acc, ∀ name row, dfind name acc = Some row →
    ∃ d, row = VDict d ∧ row ∈ rows ∧ dget key d = VStr name) _ rows [] acc _ _ H); [|done].
  intros s row s' Hin IH Hstep name row' Hf. destruct row; try (apply Ok_inj in Hstep as <-; by apply IH).
  apply rbind_ok in Hstep as (k & Hk%hashed_ok & Hs). apply Ok_inj in Hs as <-. rewrite dfind_put in Hf.
  destruct (is_key name k) eqn:Ek; [|by apply IH]. injection Hf as <-. apply is_key_named in Ek. subst. by eexists.
Qed.

(** A cell that proves its contract *)
Definition proves (c : access_contract) (cell : val) : Prop :=
  ∃ d, cell = VDict d ∧ dget "cell_id" d = VStr (cell_id c) ∧ dget "actual_allow" d = VBool (expected_allow c) ∧
       val_truthy (dget "artifact_ref" d) = true.
Lemma check_access_cell_ok cells actual c :
  dicts_by "cell_id" cells = Ok actual → check_access_cell actual c = Ok tt → ∃ cell, cell ∈ cells ∧ proves c cell.
Proof.
  intros Hby H. unfold check_access_cell, record_at in H. apply rbind_ok in H as (cell & Hc & H).
  destruct (dfind (cell_id c) actual) as [row|] eqn:Ef; [|discriminate Hc]. cbn in Hc. apply Ok_inj in Hc as <-.
  destruct (dicts_by_found _ _ _ _ _ Hby Ef) as (d & -> & Hin & Hid). exists (VDict d). split; [done|].
  unfold getattr in H. cbn [get_attr py_ck rmap_err rbind] in H. apply refuse_if_ok, orb_false_iff in H as [Ha Hr].
  apply negb_false_iff in Ha, Hr. exists d. split_and!; [done..| |done]. unfold dget at 1.
  destruct (default VNone (dfind "actual_allow" d)); try discriminate Ha. by apply eqb_prop in Ha as ->.
Qed.
Lemma accepted_access_matrix document sha env verdict :
  validate_live_access_matrix document sha env = Ok verdict →
  dget "producer_sha" document = VStr sha ∧ dget "environment_fingerprint" document = VStr env ∧
  ∃ cells, dget "cells" document = VList cells ∧ length cells = 60%nat ∧
    ∀ c, c ∈ access_cell_contract → ∃ cell, cell ∈ cells ∧ proves c cell.
Proof.
  unfold validate_live_access_matrix, bound. intros H. apply rbind_ok in H as ([] & Hb & H).
  apply rbind_ok in Hb as ([] & Hs & He). apply refuse_if_ok, negb_false_iff, val_is_true in Hs, He.
  split; [done|]. split; [done|]. destruct (dget "cells" document) as [| | | | |cells| |] eqn:Ec; try discriminate H.
  exists cells. split; [done|]. apply rbind_ok in H as ([] & Hl & H). apply refuse_if_ok, negb_false_iff, Nat.eqb_eq in Hl.
  split; [done|]. apply rbind_ok in H as (actual & Hby & H). apply rbind_ok in H as ([] & _ & H).
  apply rbind_ok in H as ([] & Hf & _). intros c Hc. eapply check_access_cell_ok; [done|]. by eapply ck_for_ok in Hf.
Qed.

(** *** Witnesses *)

Module DemoPolicy.
Definition rule (action resource : string) : val := sdict [("action", VStr action); ("resource", VStr resource)].
Definition allows : list val := [rule "read" "s3:g02/*"; rule "write" "s3:g02/evidence/*"].
Definition denies : list val := [rule "read" "s3:g02/locked-tests/*"].
Definition policy : mapping := smapping [("allow", VList allows); ("deny", VList denies)].
Definition config : mapping := smapping [("principals", sdict [("evaluator", VDict policy)])].
Definition preregistry : list val := VDict <$> build_preregistry.
End DemoPolicy.

Lemma allowed_iff_covered_and_not_denied_witness :
  (∃ b, authorize DemoPolicy.config "evaluator" "read" "s3:g02/trials/1" = Ok b) ∧
  authorize DemoPolicy.config "evaluator" "read" "s3:g02/locked-tests/1" = Ok false ∧
  authorize DemoPolicy.config "evaluator" "write" "s3:g02/evidence/1" = Ok true.
Proof.
  split.
  - destruct (allowed_iff_covered_and_not_denied DemoPolicy.config "evaluator" "read" "s3:g02/trials/1" DemoPolicy.policy
      DemoPolicy.allows DemoPolicy.denies eq_refl) as (b & Hb & _); [|by exists b].
    split; [reflexivity|reflexivity|repeat constructor; by eexists|repeat constructor; by eexists].
  - split; vm_compute; reflexivity.
Defined.

Lemma accepted_preregistry_fills_the_grid_witness :
  validate_preregistry DemoPolicy.preregistry ["s3://faultwitness-eval/g02/trials/1.json"] = Ok tt ∧
  ∃ cells, rmapM row_cell DemoPolicy.preregistry = Ok cells ∧ ∀ c, occurrences c cells = allotted c.
Proof.
  assert (validate_preregistry DemoPolicy.preregistry ["s3://faultwitness-eval/g02/trials/1.json"] = Ok tt) as H
    by (vm_compute; reflexivity).
  split; [exact H|].
  destruct (accepted_preregistry_fills_the_grid DemoPolicy.preregistry ["s3://faultwitness-eval/g02/trials/1.json"] H)
    as (cells & Hc & Hcount & _). exists cells. exact (conj Hc Hcount).
Defined.

(** ** Theorems on the collectors of the isolation matrices

    What a passed matrix proves; that it is kept, unit by unit, so that running it again asks
    the backend nothing; and that a truthful backend passes. *)

(** *** Units in the journal *)

Abbreviation trials := Experiment.trials.

(** A later run finds the row of the unit in the journal. *)
Definition holds_row (ctx : ProbeContext) (j : Experiment.journal) (trial_id unit_id : string) (row : mapping) : Prop :=
  Experiment.trial_path_ok trial_id = true ∧
  ∃ t, trials j !! trial_id = Some t ∧ reusable (Some t) ctx unit_id = Ok (Some row).

Section Units.
Context {W : Type} (now : nat → string) (ctx : ProbeContext).
Implicit Types (s : Experiment.journal * W).

Lemma in_journal_ok {A} (m : SE Experiment.journal Experiment.exn A) s a s' :
  in_journal m s = (Ok a, s') ↔ ∃ j, m s.1 = (Ok a, j) ∧ s' = (j, s.2).
Proof.
  unfold in_journal. destruct (m s.1) as [[x|e] j]; cbn; split; try naive_solver.
Qed.
Lemma read_ok id s t s' :
  in_journal (W:=W) (Experiment.read id) s = (Ok t, s') →
  s' = s ∧ Experiment.trial_path_ok id = true ∧ t = trials s.1 !! id.
Proof.
  intros (j & H & ->)%in_journal_ok. unfold Experiment.read, Experiment.read_trial in H.
  destruct (Experiment.trial_path_ok id); cbn in H; [|discriminate H]. injection H as <- <-.
  split_and!; [by destruct s|done|done].
Qed.
Lemma read_run_ok id s :
  Experiment.trial_path_ok id = true → in_journal (W:=W) (Experiment.read id) s = (Ok (trials s.1 !! id), s).
Proof. intros Hid. unfold in_journal, Experiment.read, Experiment.read_trial. rewrite Hid. by destruct s. Qed.

(** The trial after [begin_unit]: running, under the current key of the unit *)
Definition running_unit (j : Experiment.journal) (trial_id unit_id : string) : Prop :=
  ∃ t key, trials j !! trial_id = Some t ∧ Experiment.status (Experiment.current t) = "running" ∧
    unit_cache_key ctx unit_id = Ok key ∧ Experiment.cache_key (Experiment.current t) = key.
Lemma begin_unit_ok trial_id unit_id s s' :
  begin_unit now ctx trial_id unit_id s = (Ok tt, s') →
  s'.2 = s.2 ∧ outside trial_id s.1 s'.1 ∧ running_unit s'.1 trial_id unit_id.
Proof.
  unfold begin_unit. intros (key & s1 & Hk & H)%sbind_ok. unfold slift in Hk. injection Hk as Hk <-.
  apply sbind_ok in H as (t & s2 & (j & Hb & ->)%in_journal_ok & H). injection H as <-. split; [done|].
  pose proof (outside_begin now trial_id s.1 (context_sha ctx) key (smapping [("unit_id", VStr unit_id)]) s.1
    (λ _ _, eq_refl)) as Ho. rewrite Hb in Ho. split; [exact Ho|].
  unfold Experiment.begin_trial in Hb. apply sbind_ok in Hb as (prev & j1 & _ & Hb).
  apply sbind_ok in Hb as (at_ & j2 & _ & Hb). apply write_trial_ok in Hb as (-> & _ & _ & ->).
  do 2 eexists. split; [cbn; apply lookup_insert_eq|]. done.
Qed.
(** The trial after [finish_unit] *)
Definition finished_unit (j : Experiment.journal) (trial_id unit_id status : string) (payload : mapping) : Prop :=
  ∃ t key, trials j !! trial_id = Some t ∧ Experiment.status (Experiment.current t) = status ∧
    unit_cache_key ctx unit_id = Ok key ∧ Experiment.cache_key (Experiment.current t) = key ∧
    Experiment.payload (Experiment.current t) = printed_items payload.
Lemma finish_trial_ok trial_id status payload j t j' :
  Experiment.finish now trial_id (VStr status) payload j = (Ok t, j') →
  ∃ p t', trials j !! trial_id = Some p ∧ trials j' !! trial_id = Some t' ∧
    Experiment.status (Experiment.current t') = status ∧
    Experiment.cache_key (Experiment.current t') = Experiment.cache_key (Experiment.current p) ∧
    Experiment.payload (Experiment.current t') = printed_items payload ∧ outside trial_id j j'.
Proof.
  unfold Experiment.finish. intros ([] & j1 & Hg & H)%sbind_ok. unfold sguard in Hg.
  case_bool_decide; [|discriminate Hg]. injection Hg as <-. apply sbind_ok in H as (p & j1 & Hp & H).
  rewrite running_trial_run in Hp. unfold Experiment.read_trial in Hp.
  destruct (Experiment.trial_path_ok trial_id); cbn in Hp; [|discriminate Hp].
  destruct (trials j !! trial_id) as [q|] eqn:Eq; [|discriminate Hp]. case_bool_decide; [|discriminate Hp].
  injection Hp as <- <-. apply sbind_ok in H as (at_ & j2 & Hc & H). injection Hc as <- <-.
  apply sbind_ok in H as (digest & j3 & Hd & H). unfold slift in Hd. injection Hd as Hd <-.
  apply write_trial_ok in H as (-> & _ & _ & ->). do 2 eexists. split; [done|].
  split; [cbn; apply lookup_insert_eq|]. split_and!; try done. by apply outside_set.
Qed.
Lemma finish_unit_ok trial_id unit_id status payload s s' :
  running_unit s.1 trial_id unit_id →
  finish_unit now ctx trial_id unit_id status payload s = (Ok tt, s') →
  s'.2 = s.2 ∧ outside trial_id s.1 s'.1 ∧ finished_unit s'.1 trial_id unit_id status payload.
Proof.
  intros (t & key & Ht & Hrun & Hkey & Hck) H. unfold finish_unit in H.
  apply sbind_ok in H as (r & s1 & (-> & _ & ->)%read_ok & H). rewrite Ht, Hrun in H.
  rewrite bool_decide_eq_true_2 in H by done. apply sbind_ok in H as ([] & s1 & Hr & H). injection Hr as <-.
  apply sbind_ok in H as (t' & s1 & (j & Hf & ->)%in_journal_ok & H). injection H as <-.
  apply finish_trial_ok in Hf as (p & t2 & Hp & Ht2 & Hst & Hk & Hpl & Ho). split; [done|]. split; [exact Ho|].
  exists t2, key. split_and!; try done. rewrite Ht in Hp. injection Hp as <-. congruence.
Qed.
Lemma finished_holds j trial_id unit_id row :
  Experiment.trial_path_ok trial_id = true →
  finished_unit j trial_id unit_id "pass" (bound_payload ctx unit_id row) → holds_row ctx j trial_id unit_id (printed_items row).
Proof.
  intros Hid (t & key & Ht & Hs & Hk & Hck & Hp). split; [done|]. exists t. split; [done|]. unfold reusable. rewrite Hs.
  rewrite bool_decide_eq_true_2 by done. cbn [negb]. rewrite Hk. cbn [rbind]. unfold current_key.
  rewrite bool_decide_eq_true_2 by done. unfold bound_result. rewrite Hp, !dget_printed.
  change (dget "environment_fingerprint" (bound_payload ctx unit_id row)) with (VStr (fingerprint ctx)).
  change (dget "unit_id" (bound_payload ctx unit_id row)) with (VStr unit_id).
  change (dget "result" (bound_payload ctx unit_id row)) with (VDict row). rewrite printed_dict.
  assert (∀ x, val_is (printed canonical_style (VStr x)) x = true) as Hs' by (intros x; by apply val_is_true).
  by rewrite !Hs'.
Qed.
Lemma holds_row_outside j j' trial_id other unit_id row :
  trial_id ≠ other → outside other j j' → holds_row ctx j trial_id unit_id row → holds_row ctx j' trial_id unit_id row.
Proof. intros Hne Ho (Hid & t & Ht & Hr). split; [done|]. exists t. split; [by rewrite Ho|done]. Qed.
(** A row that is held is not terminal. *)
Lemma held_not_terminal t unit_id row :
  reusable (Some t) ctx unit_id = Ok (Some row) → terminal_result (Some t) ctx unit_id = Ok None.
Proof.
  unfold reusable, terminal_result. case_bool_decide as Hs; cbn [negb]; [|done]. intros _. rewrite Hs. done.
Qed.

(** A probe leaves the journal alone unless it finishes the unit. *)
Lemma probed_ok trial_id unit_id (m : SE W probe_exn mapping) s result s' :
  probed now ctx trial_id unit_id m s = (Ok (inl result), s') → s'.1 = s.1 ∧ m s.2 = (Ok result, s'.2).
Proof.
  unfold probed, scatch. unfold sbind at 1, in_world at 1. destruct (m s.2) as [[x|e] w] eqn:E; cbn.
  - intros [= -> <-]. done.
  - destruct e; try discriminate; intros (? & ? & _ & H)%sbind_ok; discriminate H.
Qed.

(** *** Provisioning *)
Lemma ensure_provisioned_ok backend s result s' :
  ensure_provisioned backend now ctx s = (Ok result, s') →
  outside "g02-provisioning" s.1 s'.1 ∧ ∃ row, holds_row ctx s'.1 "g02-provisioning" "isolation-provisioning" row.
Proof.
  unfold ensure_provisioned. intros (existing & s1 & (-> & Hid & ->)%read_ok & H)%sbind_ok.
  apply sbind_ok in H as (held & s1 & Hheld & H). unfold slift in Hheld. injection Hheld as Hheld <-.
  destruct held as [row|].
  - injection H as -> <-. split; [done|]. exists result. split; [done|].
    destruct (trials s.1 !! "g02-provisioning") as [t|]; [by eexists|discriminate Hheld].
  - apply sbind_ok in H as (terminal & s1 & Ht & H). unfold slift in Ht. injection Ht as Ht <-.
    destruct terminal as [[]|]; [discriminate H|]. apply sbind_ok in H as ([] & s1 & Hb & H).
    apply begin_unit_ok in Hb as (_ & Ho1 & Hrun). apply sbind_ok in H as ([row|e] & s2 & Hp & H); [|discriminate H].
    apply probed_ok in Hp as [Hj _]. destruct (negb _); [by apply sbind_ok in H as (? & ? & _ & ?)|].
    apply sbind_ok in H as ([] & s3 & Hf & H). injection H as <- <-. rewrite <-Hj in Hrun, Ho1.
    destruct (finish_unit_ok _ _ _ _ _ _ Hrun Hf) as (_ & Ho2 & Hfin).
    split; [|eexists; by apply finished_holds]. intros i Hi. rewrite Ho2, Ho1 by done. done.
Qed.
Lemma held_read trial_id unit_id row s :
  holds_row ctx s.1 trial_id unit_id row →
  ∃ t, in_journal (Experiment.read trial_id) s = (Ok (Some t), s) ∧ reusable (Some t) ctx unit_id = Ok (Some row) ∧
    terminal_result (Some t) ctx unit_id = Ok None.
Proof.
  intros (Hid & t & Ht & Hr). exists t. rewrite (read_run_ok trial_id s Hid), Ht. split; [done|]. split; [done|].
  by eapply held_not_terminal.
Qed.
Lemma provisioned_run backend s row :
  holds_row ctx s.1 "g02-provisioning" "isolation-provisioning" row →
  ensure_provisioned backend now ctx s = (Ok row, s).
Proof.
  intros Hh. unfold ensure_provisioned. apply held_read in Hh as (t & Hread & Hr & _).
  unfold sbind at 1. rewrite Hread. unfold sbind at 1, slift. by rewrite Hr.
Qed.
Lemma when_provisioned_run backend field k s row :
  holds_row ctx s.1 "g02-provisioning" "isolation-provisioning" row →
  when_provisioned backend now ctx field k s = k s.
Proof.
  intros Hh. unfold when_provisioned, scatch. unfold sbind at 1. unfold sbind at 1.
  by rewrite (provisioned_run backend s row Hh).
Qed.
(** A document that says it passed comes from the matrix itself. *)
Lemma when_provisioned_ok backend field k s document s' :
  when_provisioned backend now ctx field k s = (Ok document, s') → dget "status" document = VStr "pass" →
  (field ≠ "status") →
  ∃ s1 row, outside "g02-provisioning" s.1 s1.1 ∧ holds_row ctx s1.1 "g02-provisioning" "isolation-provisioning" row ∧
    k s1 = (Ok document, s').
Proof.
  unfold when_provisioned. intros (provisioned & s1 & Hp & H)%sbind_ok Hs Hne. unfold scatch in Hp.
  destruct (sbind _ _ s) as [[x|e] s2] eqn:E.
  - injection Hp as -> <-. apply sbind_ok in E as (r & s3 & He & Hr). injection Hr as <- <-.
    destruct (ensure_provisioned_ok _ _ _ _ He) as (Ho & row & Hrow). by exists s3, row.
  - destruct e; try discriminate Hp; injection Hp as <- <-; injection H as <- <-; exfalso; revert Hs;
      unfold matrix_document, smapping; cbn; rewrite (bool_decide_eq_false_2 (field = "status")) by done; cbn;
      discriminate.
Qed.

(** *** Cells *)
Lemma access_unit_ok backend index c cells s cell s' :
  access_unit backend now ctx index c cells s = (Ok (inl cell), s') →
  outside (access_trial index) s.1 s'.1 ∧ ∃ row, holds_row ctx s'.1 (access_trial index) (cell_id c) row.
Proof.
  unfold access_unit. intros (existing & s1 & (-> & Hid & ->)%read_ok & H)%sbind_ok.
  apply sbind_ok in H as (held & s1 & Hheld & H). unfold slift in Hheld. injection Hheld as Hheld <-.
  apply sbind_ok in H as (terminal & s1 & Ht & H). unfold slift in Ht. injection Ht as Ht <-.
  destruct terminal as [[]|]; [discriminate H|]. destruct held as [row|].
  - injection H as _ <-. split; [done|]. exists row. split; [done|].
    destruct (trials s.1 !! access_trial index) as [t|]; [by eexists|discriminate Hheld].
  - apply sbind_ok in H as ([] & s1 & Hb & H). apply begin_unit_ok in Hb as (_ & Ho1 & Hrun).
    apply sbind_ok in H as ([row|e] & s2 & Hp & H); [|discriminate H]. apply probed_ok in Hp as [Hj _].
    destruct (negb _); [by apply sbind_ok in H as (? & ? & _ & ?)|].
    apply sbind_ok in H as ([] & s3 & Hf & H). case_bool_decide as Hs; [|discriminate H]. injection H as _ <-.
    rewrite <-Hj in Hrun, Ho1. destruct (finish_unit_ok _ _ _ _ _ _ Hrun Hf) as (_ & Ho2 & Hfin). rewrite Hs in Hfin.
    split; [|eexists; by apply finished_holds]. intros i Hi. rewrite Ho2, Ho1 by done. done.
Qed.
Lemma access_unit_held backend index c cells s row :
  holds_row ctx s.1 (access_trial index) (cell_id c) row →
  access_unit backend now ctx index c cells s = (Ok (inl (with_contract c row)), s).
Proof.
  intros Hh. unfold access_unit. apply held_read in Hh as (t & Hread & Hr & Ht).
  unfold sbind at 1. rewrite Hread. unfold sbind, slift. by rewrite Hr, Ht.
Qed.

(** A list of cells and their rows, held from a trial on *)
Inductive cells_held (j : Experiment.journal) : nat → list access_contract → list mapping → Prop :=
| held_nil i : cells_held j i [] []
| held_cons i c cs row rows :
    holds_row ctx j (access_trial i) (cell_id c) row → cells_held j (S i) cs rows →
    cells_held j i (c :: cs) (row :: rows).
Lemma access_units_ok backend index cs cells s out s' :
  NoDup (access_trial <$> seq index (length cs)) →
  access_units backend now ctx index cs cells s = (Ok (inl out), s') →
  (∀ id, id ∉ access_trial <$> seq index (length cs) → trials s'.1 !! id = trials s.1 !! id) ∧
  ∃ rows, cells_held s'.1 index cs rows.
Proof.
  revert index cells s. induction cs as [|c cs IH]; intros index cells s Hnd H; cbn [access_units] in H.
  - injection H as _ <-. split; [done|]. exists []. constructor.
  - cbn [length seq] in Hnd |- *. rewrite !fmap_cons in Hnd |- *. apply NoDup_cons in Hnd as [Hni Hnd].
    apply sbind_ok in H as ([cell|doc] & s1 & Hu & H); [|discriminate H].
    apply access_unit_ok in Hu as (Ho & row & Hrow). apply IH in H as (Hkeep & rows & Hrows); [|done].
    split.
    + intros id [Hne Hid]%not_elem_of_cons. rewrite Hkeep by done. by apply Ho.
    + exists (row :: rows). constructor; [|done]. destruct Hrow as (Hpath & t & Ht & Hr). split; [done|].
      exists t. split; [|done]. by rewrite Hkeep.
Qed.
Lemma access_units_held backend index cs cells rows s :
  cells_held s.1 index cs rows →
  access_units backend now ctx index cs cells s = (Ok (inl (cells ++ zip_with with_contract cs rows)), s).
Proof.
  intros Hh. revert cells. induction Hh as [|index c cs row rows Hrow _ IH]; intros cells; cbn [access_units zip_with].
  - by rewrite app_nil_r.
  - unfold sbind at 1. rewrite (access_unit_held _ _ _ _ _ _ Hrow), IH. by rewrite <-app_assoc.
Qed.
End Units.

(** The trials of the cells, which are not the one of the provisioning *)
Lemma access_trials : NoDup (access_trial <$> seq 1 (length access_cell_contract)) ∧
  "g02-provisioning" ∉ access_trial <$> seq 1 (length access_cell_contract).
Proof. split; apply (bool_decide_unpack _); vm_compute; exact I. Qed.
Lemma not_pass_document ctx status field values :
  field ≠ "status" → dget "status" (matrix_document ctx status field values) = VStr status.
Proof. intros Hne. unfold matrix_document, smapping, dget. cbn. rewrite (bool_decide_eq_false_2 (field = "status")) by done. reflexivity. Qed.

(** The document of a list of cells, or what its validation raises *)
Definition access_verdict (ctx : ProbeContext) (cells : list mapping) : PR mapping :=
  let document := matrix_document ctx "pass" "cells" cells in
  let* _ := ck (validate_live_access_matrix document (context_sha ctx) (fingerprint ctx)) in Ok document.

Lemma terminal_not_pass record ctx unit_id row : terminal_result record ctx unit_id ≠ Ok (Some ("pass", row)).
Proof.
  unfold terminal_result. destruct record as [t|]; [|done]. case_bool_decide as Hs; [|done]. cbn [negb].
  destruct (unit_cache_key ctx unit_id) as [key|]; [|done]. cbn [rbind]. destruct (current_key t key); [|done].
  destruct (bound_result t ctx unit_id); [|done]. cbn. intros [= Hst _]. rewrite Hst in Hs. set_solver.
Qed.
(** A document of the access matrix that says it passed *)
Lemma access_units_inr {W} (backend : ProbeBackend W) now ctx index cs cells s document s' :
  access_units backend now ctx index cs cells s = (Ok (inr document), s') → dget "status" document ≠ VStr "pass".
Proof.
  revert index cells s. induction cs as [|c cs IH]; intros index cells s H; cbn [access_units] in H; [discriminate H|].
  apply sbind_ok in H as ([cell|doc] & s1 & Hu & H); [by apply IH in H|]. injection H as -> _. clear IH.
  assert (∀ status cells', status ≠ "pass" → dget "status" (matrix_document ctx status "cells" cells') ≠ VStr "pass") as Hd.
  { intros status cells' Hne. rewrite not_pass_document by done. congruence. }
  unfold access_unit in Hu. apply sbind_ok in Hu as (existing & s2 & _ & H).
  apply sbind_ok in H as (held & s3 & _ & H). apply sbind_ok in H as (terminal & s4 & Ht & H).
  unfold slift in Ht. injection Ht as Ht _. destruct terminal as [[status row]|].
  - injection H as <- _. apply Hd. intros ->. by apply terminal_not_pass in Ht.
  - destruct held; [discriminate H|]. apply sbind_ok in H as ([] & s5 & _ & H).
    apply sbind_ok in H as ([row|e] & s6 & _ & H).
    + destruct (negb (valid_cell c row)); apply sbind_ok in H as ([] & s7 & _ & H); [by injection H as <- _; apply Hd|].
      case_bool_decide as Hs; [discriminate H|]. injection H as <- _. by apply Hd.
    + injection H as <- _. apply Hd. by destruct e.
Qed.
Lemma passed_run {W} (backend : ProbeBackend W) now ctx s document s' :
  run_access_matrix backend now ctx s = (Ok document, s') → dget "status" document = VStr "pass" →
  ∃ rows cells, cells_held ctx s'.1 1 access_cell_contract rows ∧
    (∃ row, holds_row ctx s'.1 "g02-provisioning" "isolation-provisioning" row) ∧
    access_verdict ctx cells = Ok document.
Proof.
  intros H Hs. unfold run_access_matrix in H. apply when_provisioned_ok in H as (s1 & row & _ & Hrow & H); [|done..].
  apply sbind_ok in H as ([cells|doc] & s2 & Hu & H).
  - pose proof access_trials as [Hnd Hprov]. apply access_units_ok in Hu as (Hkeep & rows & Hrows); [|done].
    apply sbind_ok in H as (v & s3 & Hv & H). unfold slift in Hv. injection Hv as Hv <-. injection H as <- <-.
    exists rows, cells. split; [done|]. split.
    + exists row. destruct Hrow as (Hid & t & Ht & Hr). split; [done|]. exists t. split; [by rewrite Hkeep|done].
    + unfold access_verdict. by rewrite Hv.
  - injection H as -> <-. by apply access_units_inr in Hu.
Qed.

(** C9: An access matrix that passed proves every one of its sixty cells: each cell of the
    contract was answered as the contract expects, with a reference to its evidence, under the
    producer and the environment of the run.  And it is kept: any later run in the same
    environment, with any backend, returns the verdict on the recorded rows, asks the backend
    nothing and writes nothing. *)
Theorem passed_access_matrix_proves_and_stays {W} (backend : ProbeBackend W) now ctx s document s' :
  run_access_matrix backend now ctx s = (Ok document, s') → dget "status" document = VStr "pass" →
  (dget "producer_sha" document = VStr (context_sha ctx) ∧
   dget "environment_fingerprint" document = VStr (fingerprint ctx) ∧
   ∃ cells, dget "cells" document = VList cells ∧ length cells = 60%nat ∧
     ∀ c, c ∈ access_cell_contract → ∃ cell, cell ∈ cells ∧ proves c cell) ∧
  ∃ rows, length rows = 60%nat ∧ ∀ (backend' : ProbeBackend W) now',
    run_access_matrix backend' now' ctx s' = (access_verdict ctx (zip_with with_contract access_cell_contract rows), s').
Proof.
  intros H Hs. destruct (passed_run _ _ _ _ _ _ H Hs) as (rows & cells & Hrows & (row & Hprov) & Hv). split.
  - unfold access_verdict in Hv. apply rbind_ok in Hv as (v & Hv & Hd). apply Ok_inj in Hd as <-.
    unfold ck in Hv. destruct (validate_live_access_matrix _ _ _) eqn:E; [|discriminate Hv]. by eapply accepted_access_matrix.
  - exists rows. split.
    + assert (length rows = length access_cell_contract) as -> by (clear -Hrows; induction Hrows; cbn; congruence).
      vm_compute. reflexivity.
    + intros backend' now'. unfold run_access_matrix. rewrite (when_provisioned_run _ _ _ _ _ _ row) by done.
      unfold sbind at 1. rewrite (access_units_held now' ctx backend' 1 _ [] rows s' Hrows). cbn [app].
      unfold access_verdict, sbind, slift, sret. by destruct (ck _).
Qed.

(** *** Collections *)

(** The rows of a collection, held from a trial on *)
Inductive rows_held (ctx : ProbeContext) (trial_of : nat → string) (j : Experiment.journal)
    : nat → list string → list mapping → Prop :=
| rows_nil i : rows_held ctx trial_of j i [] []
| rows_cons i name names row rows :
    holds_row ctx j (trial_of i) name row → rows_held ctx trial_of j (S i) names rows →
    rows_held ctx trial_of j i (name :: names) (row :: rows).
Lemma held_rows_run {W} ctx (col : collection (W:=W)) index names rows acc s :
  rows_held ctx (row_trial col) s.1 index names rows →
  held_rows ctx col index names acc s = (Ok (inl (acc ++ rows)), s).
Proof.
  intros Hh. revert acc. induction Hh as [|index name names row rows Hrow _ IH]; intros acc; cbn [held_rows].
  - by rewrite app_nil_r.
  - apply held_read in Hrow as (t & Hread & Hr & Ht). unfold sbind at 1. rewrite Hread.
    unfold sbind at 1, slift. rewrite Ht. unfold sbind at 1. rewrite Hr, IH. by rewrite <-app_assoc.
Qed.
(** The verdict of a collection on its recorded rows *)
Definition collection_verdict {W} (ctx : ProbeContext) (col : collection (W:=W)) (rows : list mapping) : PR mapping :=
  let document := matrix_document ctx "pass" (field_name col) rows in
  let* _ := ck (validate col document (context_sha ctx) (fingerprint ctx)) in Ok document.
(** Once every row of a collection is recorded as passed, no run asks the backend again: each
    gives the verdict of the validation on the recorded rows, whatever it is. *)
Lemma recorded_rows_are_final {W} (backend : ProbeBackend W) now ctx col s row rows :
  registry col ≠ [] →
  holds_row ctx s.1 "g02-provisioning" "isolation-provisioning" row → rows_held ctx (row_trial col) s.1 1 (registry col) rows →
  run_collection backend now ctx col s = (collection_verdict ctx col rows, s).
Proof.
  intros Hne Hprov Hrows. unfold run_collection. rewrite (when_provisioned_run _ _ _ _ _ _ row) by done.
  unfold sbind at 1. rewrite (held_rows_run ctx col 1 (registry col) rows [] s Hrows). cbn [app].
  destruct rows as [|r rows]; [by inversion Hrows; congruence|].
  unfold validated, collection_verdict, sbind, slift, sret. by destruct (ck _).
Qed.

(** A collection that says it passed was validated. *)
Lemma held_rows_inr {W} ctx (col : collection (W:=W)) index names acc s document s' :
  field_name col ≠ "status" →
  held_rows ctx col index names acc s = (Ok (inr document), s') → dget "status" document ≠ VStr "pass".
Proof.
  intros Hf. revert index acc s. induction names as [|name names IH]; intros index acc s H; cbn [held_rows] in H; [discriminate H|].
  apply sbind_ok in H as (record & s1 & _ & H). apply sbind_ok in H as (terminal & s2 & Ht & H).
  unfold slift in Ht. injection Ht as Ht _. destruct terminal as [[status row]|].
  - injection H as <- _. rewrite not_pass_document by done. intros [= ->]. by apply terminal_not_pass in Ht.
  - apply sbind_ok in H as ([row|] & s3 & _ & H); [by apply IH in H|discriminate H].
Qed.
Lemma collection_passed {W} (backend : ProbeBackend W) now ctx col s document s' :
  field_name col ≠ "status" →
  run_collection backend now ctx col s = (Ok document, s') → dget "status" document = VStr "pass" →
  ∃ verdict, validate col document (context_sha ctx) (fingerprint ctx) = Ok verdict.
Proof.
  intros Hf H Hs. unfold run_collection in H. apply when_provisioned_ok in H as (s1 & _ & _ & _ & H); [|done..].
  assert (∀ status rows, matrix_document ctx status (field_name col) rows = document → status = "pass") as Hstatus.
  { intros status rows <-. rewrite not_pass_document in Hs by done. congruence. }
  assert (∀ doc s2, validated ctx col doc s2 = (Ok document, s') →
    ∃ verdict, validate col document (context_sha ctx) (fingerprint ctx) = Ok verdict) as Hval.
  { intros doc s2 Hv. unfold validated in Hv. apply sbind_ok in Hv as (v & s3 & Hv & Hr). injection Hr as <- _.
    unfold slift, ck in Hv. injection Hv as Hv _. destruct (validate _ _ _ _); [by eexists|discriminate Hv]. }
  apply sbind_ok in H as ([rows|doc] & s2 & Hheld & H).
  2:{ injection H as -> _. by apply held_rows_inr in Hheld. }
  destruct rows as [|row rows]; [|by apply Hval in H].
  apply sbind_ok in H as (record & s3 & _ & H). apply sbind_ok in H as (terminal & s4 & Ht & H).
  unfold slift in Ht. injection Ht as Ht _. destruct terminal as [[status row]|].
  { injection H as Hd _. apply Hstatus in Hd as ->. by apply terminal_not_pass in Ht. }
  apply sbind_ok in H as ([] & s5 & _ & H). apply sbind_ok in H as ([result|e] & s6 & _ & H).
  2:{ injection H as Hd _. apply Hstatus in Hd. by destruct e. }
  unfold collect_rows in H. destruct (dget (field_name col) result);
    try (apply sbind_ok in H as ([] & s7 & _ & H); injection H as Hd _; by apply Hstatus in Hd).
  apply sbind_ok in H as ([] & s7 & _ & H). apply sbind_ok in H as (by_name & s8 & _ & H).
  apply sbind_ok in H as (ordered & s9 & _ & H). destruct (_ && _); [by apply Hval in H|].
  injection H as Hd _. by apply Hstatus in Hd.
Qed.

Lemma Forall2_in {A B} (P Q : A → B → Prop) l k :
  Forall2 P l k → (∀ x y, x ∈ l → P x y → Q x y) → Forall2 Q l k.
Proof.
  induction 1 as [|x y l k Hp _ IH]; intros HQ; constructor; [apply HQ; [left|done]|].
  apply IH. intros. apply HQ; [by right|done].
Qed.
Lemma named_rows_ok field names v rows :
  named_rows field names v = Ok (Some rows) →
  v = VList rows ∧ Forall2 (λ row name, ∃ d, row = VDict d ∧ dget field d = VStr name) rows names.
Proof.
  unfold named_rows. destruct v as [| | | | |l| |]; try discriminate. intros H. apply rbind_ok in H as (ids & Hids & H).
  destruct (strings_are ids names) eqn:E; [|discriminate H]. injection H as ->. split; [done|].
  apply strings_are_fmap in E. subst. apply rmapM_ok in Hids. remember (VStr <$> names) as ids eqn:Hn.
  revert names Hn. induction Hids as [|row id rows ids Hr _ IH]; intros [|name names] Hn; try discriminate Hn; constructor.
  - rewrite fmap_cons in Hn. injection Hn as -> _. unfold getattr in Hr. destruct row; try discriminate Hr. cbn in Hr.
    injection Hr as Hr. by eexists.
  - rewrite fmap_cons in Hn. injection Hn as _ Hn. by apply IH.
Qed.
(** A canary matrix that passed shows no hit on any of the twenty-two surfaces, each with a
    reference to its evidence and the digest of the canary. *)
Theorem passed_canary_matrix_has_no_hit {W} (backend : ProbeBackend W) now ctx s document s' :
  run_canary_matrix backend now ctx s = (Ok document, s') → dget "status" document = VStr "pass" →
  ∃ rows, dget "surfaces" document = VList rows ∧
    Forall2 (λ row surface, ∃ d, row = VDict d ∧ dget "surface" d = VStr surface ∧
      py_eq (dget "hit_count" d) (VInt 0) = true ∧ val_truthy (dget "artifact_ref" d) = true ∧
      val_truthy (dget "canary_digest" d) = true) rows CANARY_SURFACES.
Proof.
  intros H Hs. apply collection_passed in H as (v & Hv); [|done..]. cbn [validate canary_collection] in Hv.
  unfold validate_all_surface_canary in Hv. apply rbind_ok in Hv as ([] & _ & Hv). apply rbind_ok in Hv as (found & Hf & Hv).
  apply rbind_ok in Hv as (rows & Hr & Hv). apply from_option_or_ok in Hr as ->. apply named_rows_ok in Hf as [Hd Hnames].
  exists rows. split; [done|]. apply rbind_ok in Hv as ([] & Hrows & _).
  apply (Forall2_in _ _ _ _ Hnames). intros row surface Hin (d & -> & Hn). exists d. split; [done|]. split; [done|].
  eapply ck_for_ok in Hrows; [|exact Hin]. unfold check_surface, getattr in Hrows. cbn [get_attr py_ck rmap_err rbind] in Hrows.
  apply refuse_if_ok in Hrows. apply orb_false_iff in Hrows as [Hrows Hc]. apply orb_false_iff in Hrows as [Hh Ha].
  by rewrite !negb_false_iff in Hc, Hh, Ha.
Qed.

(** *** A truthful backend passes *)

Lemma digest_total v : json_ok v = true → ∃ d, digest_of v = Ok d.
Proof. intros Hv. unfold digest_of. destruct (dumps_total canonical_style v Hv) as [text ->]. by eexists. Qed.
Lemma unit_key_total ctx unit_id : ∃ key, unit_cache_key ctx unit_id = Ok key.
Proof.
  unfold unit_cache_key. destruct (digest_total (VStr unit_id) eq_refl) as [d ->]. cbn [ck rmap_err rbind].
  unfold Experiment.semantic_cache_key.
  assert (Experiment.missing_checkpoints [("environment", fingerprint ctx)] ["environment"] = []) as -> by reflexivity.
  rewrite bool_decide_eq_true_2 by done. cbn [negb]. unfold Experiment.digest_.
  destruct (dumps_total canonical_style (Experiment.cache_subject [("environment", fingerprint ctx)] ["environment"] d []))
    as [text ->]; [reflexivity|]. by eexists.
Qed.

Section Forward.
Context {W : Type} (now : nat → string) (ctx : ProbeContext).
Implicit Types (s : Experiment.journal * W).

(** A trial that was begun for the first time *)
Definition first_attempt (j : Experiment.journal) (trial_id : string) : Prop :=
  Experiment.trial_path_ok trial_id = true ∧
  ∃ t, trials j !! trial_id = Some t ∧ Experiment.status (Experiment.current t) = "running" ∧
    Experiment.runtime_checkpoints (Experiment.current t) = [].
Lemma begin_unit_runs trial_id unit_id s :
  Experiment.trial_path_ok trial_id = true → trials s.1 !! trial_id = None →
  ∃ s', begin_unit now ctx trial_id unit_id s = (Ok tt, s') ∧ first_attempt s'.1 trial_id.
Proof.
  intros Hid Hnone. unfold begin_unit. destruct (unit_key_total ctx unit_id) as [key Hk].
  unfold sbind at 1, slift. rewrite Hk. unfold sbind at 1, in_journal, Experiment.begin_trial.
  unfold sbind at 1, Experiment.read, Experiment.read_trial. rewrite Hid, Hnone. cbn [negb].
  unfold sbind at 1. cbn [Experiment.clock]. rewrite write_trial_run, Hid. cbn [negb].
  assert (∀ e, Experiment.payload e = smapping [("unit_id", VStr unit_id)] → Experiment.runtime_checkpoints e = [] →
    Experiment.serialisable e = true) as Hser.
  { intros e Hp Hr. unfold Experiment.serialisable. rewrite Hp, Hr. apply andb_true_iff.
    split; apply bool_decide_eq_true; apply dumps_total; reflexivity. }
  rewrite Hser by done. cbn [negb]. eexists. split; [reflexivity|]. split; [done|].
  eexists. split; [cbn; apply lookup_insert_eq|]. done.
Qed.
Lemma finish_unit_runs trial_id unit_id status payload s :
  first_attempt s.1 trial_id → status ∈ Experiment.TERMINAL_STATUSES → json_ok (VDict payload) = true →
  ∃ s', finish_unit now ctx trial_id unit_id status payload s = (Ok tt, s').
Proof.
  intros (Hid & t & Ht & Hrun & Hrc) Hst Hok. unfold finish_unit. unfold sbind at 1. rewrite (read_run_ok trial_id s Hid), Ht.
  rewrite Hrun, bool_decide_eq_true_2 by done. unfold sbind at 1, sret. unfold sbind at 1, in_journal, Experiment.finish.
  unfold sbind at 1, sguard. rewrite bool_decide_eq_true_2 by done. cbn [negb].
  unfold sbind at 1. rewrite running_trial_run. unfold Experiment.read_trial. rewrite Hid, Ht. cbn [negb].
  rewrite Hrun, bool_decide_eq_true_2 by done. unfold sbind at 1. cbn [Experiment.clock]. unfold sbind at 1, slift.
  unfold Experiment.digest_. destruct (dumps_total canonical_style _ Hok) as [text Htext]. rewrite Htext.
  rewrite write_trial_run, Hid. cbn [negb].
  assert (∀ e, Experiment.payload e = payload → Experiment.runtime_checkpoints e = [] →
    Experiment.serialisable e = true) as Hser.
  { intros e Hp Hr. unfold Experiment.serialisable. rewrite Hp, Hr. apply andb_true_iff.
    split; apply bool_decide_eq_true; [apply dumps_total; reflexivity|by eexists]. }
  rewrite Hser by done. cbn [negb]. by eexists.
Qed.
End Forward.

(** What a backend that meets its contract answers, as JSON *)
Definition good_row (c : access_contract) (row : mapping) : Prop :=
  dget "cell_id" row = VStr (cell_id c) ∧ dget "actual_allow" row = VBool (expected_allow c) ∧
  val_truthy (dget "artifact_ref" row) = true ∧ json_ok (VDict row) = true.
Record truthful_backend {W} (backend : ProbeBackend W) (ctx : ProbeContext) : Prop := {
  provision_answers w : ∃ row w', provision backend ctx w = (Ok row, w') ∧ valid_provisioning ctx row = true ∧
    json_ok (VDict row) = true;
  access_answers c w : c ∈ access_cell_contract → ∃ row w', access backend ctx c w = (Ok row, w') ∧ good_row c row;
}.

Lemma bound_payload_ok ctx unit_id row : json_ok (VDict row) = true → json_ok (VDict (bound_payload ctx unit_id row)) = true.
Proof.
  intros Hr. change (VDict (bound_payload ctx unit_id row)) with
    (sdict [("producer_sha", VStr (context_sha ctx)); ("environment_fingerprint", VStr (fingerprint ctx));
            ("unit_id", VStr unit_id); ("result", VDict row)]).
  apply json_ok_sdict; [apply (bool_decide_unpack _); vm_compute; exact I|]. cbn [fmap list_fmap snd]. by repeat constructor.
Qed.
Lemma good_cell c row : good_row c row → valid_cell c row = true ∧ cell_status c row = "pass".
Proof.
  intros (Hi & Ha & Hr & _). unfold valid_cell, cell_status. rewrite Hi, Ha, Hr, eqb_reflx.
  split; [|done]. apply andb_true_iff. split; [|done]. apply andb_true_iff. split; [|done]. by apply val_is_true.
Qed.

Section Truthful.
Context {W : Type} (backend : ProbeBackend W) (now : nat → string) (ctx : ProbeContext).
Hypothesis truthful : truthful_backend backend ctx.
Implicit Types (s : Experiment.journal * W).

(** Begin, ask and finish, as every unit does *)
Lemma unit_passes trial_id unit_id (m : SE W probe_exn mapping) row w' s :
  Experiment.trial_path_ok trial_id = true → trials s.1 !! trial_id = None → m s.2 = (Ok row, w') →
  json_ok (VDict row) = true →
  ∃ s1 s2, (begin_unit now ctx trial_id unit_id;;; probed now ctx trial_id unit_id m) s = (Ok (inl row), s1) ∧
    finish_unit now ctx trial_id unit_id "pass" (bound_payload ctx unit_id row) s1 = (Ok tt, s2) ∧
    outside trial_id s.1 s2.1.
Proof using.
  intros Hid Hnone Hm Hrow. destruct (begin_unit_runs now ctx trial_id unit_id s Hid Hnone) as (s0 & Hb & Hfirst).
  destruct (begin_unit_ok _ _ _ _ _ _ Hb) as (Hw & Ho & Hrun).
  destruct (finish_unit_runs now ctx trial_id unit_id "pass" (bound_payload ctx unit_id row) (s0.1, w') Hfirst) as [s2 Hf];
    [apply (bool_decide_unpack _); vm_compute; exact I|by apply bound_payload_ok|].
  exists (s0.1, w'), s2. split; [|split; [done|]].
  - unfold sbind at 1. rewrite Hb. unfold probed, scatch. unfold sbind at 1, in_world at 1. by rewrite Hw, Hm.
  - destruct (finish_unit_ok now ctx trial_id unit_id _ _ (s0.1, w') s2 Hrun Hf) as (_ & Ho2 & _).
    intros i Hi. rewrite Ho2, <-Ho by done. done.
Qed.

Lemma provisioning_passes s :
  trials s.1 !! "g02-provisioning" = None →
  ∃ row s', ensure_provisioned backend now ctx s = (Ok row, s') ∧ outside "g02-provisioning" s.1 s'.1.
Proof using truthful.
  intros Hnone. destruct (provision_answers _ _ truthful s.2) as (row & w' & Hp & Hv & Hok).
  destruct (unit_passes "g02-provisioning" "isolation-provisioning" (provision backend ctx) row w' s
    eq_refl Hnone Hp Hok) as (s1 & s2 & Hbp & Hf & Ho).
  exists row, s2. split; [|done]. unfold ensure_provisioned. unfold sbind at 1.
  rewrite (read_run_ok "g02-provisioning" s eq_refl), Hnone. unfold sbind at 1, slift. cbn [reusable]. unfold sbind at 1.
  cbn [terminal_result]. unfold sbind in Hbp |- *.
  destruct (begin_unit now ctx "g02-provisioning" "isolation-provisioning" s) as [[[]|e] s0]; [|discriminate Hbp].
  rewrite Hbp, Hv. cbn [negb]. by rewrite Hf.
Qed.
Lemma access_unit_passes index c cells s :
  c ∈ access_cell_contract → Experiment.trial_path_ok (access_trial index) = true →
  trials s.1 !! access_trial index = None →
  ∃ row s', access_unit backend now ctx index c cells s = (Ok (inl (with_contract c row)), s') ∧
    outside (access_trial index) s.1 s'.1 ∧ good_row c row.
Proof using truthful.
  intros Hc Hid Hnone. destruct (access_answers _ _ truthful c s.2 Hc) as (row & w' & Ha & Hgood).
  destruct (good_cell c row Hgood) as [Hv Hs]. pose proof Hgood as (_ & _ & _ & Hok).
  destruct (unit_passes (access_trial index) (cell_id c) (access backend ctx c) row w' s
    Hid Hnone Ha Hok) as (s1 & s2 & Hbp & Hf & Ho).
  exists row, s2. split; [|done]. unfold access_unit. unfold sbind at 1.
  rewrite (read_run_ok _ s Hid), Hnone. unfold sbind at 1, slift. cbn [reusable]. unfold sbind at 1. cbn [terminal_result].
  unfold sbind in Hbp |- *.
  destruct (begin_unit now ctx (access_trial index) (cell_id c) s) as [[[]|e] s0]; [|discriminate Hbp].
  rewrite Hbp, Hv. cbn [negb]. rewrite Hs, Hf. by rewrite bool_decide_eq_true_2.
Qed.
Lemma access_units_pass index cs cells s :
  cs ⊆ access_cell_contract → NoDup (access_trial <$> seq index (length cs)) →
  (∀ id, id ∈ access_trial <$> seq index (length cs) → Experiment.trial_path_ok id = true ∧ trials s.1 !! id = None) →
  ∃ rows s', access_units backend now ctx index cs cells s = (Ok (inl (cells ++ zip_with with_contract cs rows)), s') ∧
    Forall2 good_row cs rows.
Proof using truthful.
  revert index cells s. induction cs as [|c cs IH]; intros index cells s Hsub Hnd Hfresh.
  - exists [], s. cbn. rewrite app_nil_r. split; [done|constructor].
  - cbn [length seq] in Hnd, Hfresh. rewrite !fmap_cons in Hnd, Hfresh. apply NoDup_cons in Hnd as [Hni Hnd].
    destruct (Hfresh (access_trial index) ltac:(left)) as [Hid Hnone].
    destruct (access_unit_passes index c cells s (Hsub c ltac:(left)) Hid Hnone) as (row & s1 & Hu & Ho & Hgood).
    destruct (IH (S index) (cells ++ [with_contract c row]) s1) as (rows & s' & Hus & Hrows).
    + intros x Hx. apply Hsub. by right.
    + done.
    + intros id Hin. rewrite Ho by (intros ->; done). apply Hfresh. by right.
    + exists (row :: rows), s'. split; [|by constructor]. cbn [access_units zip_with]. unfold sbind at 1. rewrite Hu, Hus.
      by rewrite <-app_assoc.
Qed.
End Truthful.

(** *** Complete collections *)

Lemma finish_fresh {W} now ctx trial_id unit_id status payload (s : Experiment.journal * W) :
  Experiment.trial_path_ok trial_id = true → trials s.1 !! trial_id = None →
  status ∈ Experiment.TERMINAL_STATUSES → json_ok (VDict payload) = true →
  ∃ s', finish_unit now ctx trial_id unit_id status payload s = (Ok tt, s') ∧ outside trial_id s.1 s'.1 ∧
    finished_unit ctx s'.1 trial_id unit_id status payload.
Proof.
  intros Hid Hnone Hst Hok. destruct (begin_unit_runs now ctx trial_id unit_id s Hid Hnone) as (s0 & Hb & Hfirst).
  destruct (begin_unit_ok _ _ _ _ _ _ Hb) as (_ & Ho & Hrun).
  destruct (finish_unit_runs now ctx trial_id unit_id status payload s0 Hfirst Hst Hok) as [s' Hf].
  exists s'. destruct (finish_unit_ok now ctx trial_id unit_id status payload s0 s' Hrun Hf) as (_ & Ho' & Hfin).
  split; [|split; [intros i Hi; by rewrite Ho', Ho|exact Hfin]].
  rewrite <-Hf. unfold finish_unit. unfold sbind at 1. rewrite (read_run_ok trial_id s Hid), Hnone.
  unfold sbind at 1. rewrite Hb. symmetry. destruct Hrun as (t & key & Ht & Hr & _).
  unfold sbind at 1. rewrite (read_run_ok trial_id s0 Hid), Ht, Hr, bool_decide_eq_true_2 by done. done.
Qed.

(** An answer that holds one passing row for each name of the registry *)
Record complete_answer {W} (col : collection (W:=W)) (result : mapping) (rows : list mapping) : Prop := {
  answer_rows : dget (field_name col) result = VList (VDict <$> rows);
  answer_names : Forall2 (λ name row, dget (row_key col) row = VStr name) (registry col) rows;
  answer_passes : Forall (λ row, row_passes col row = true) rows;
  answer_json : json_ok (VDict result) = true;
  answer_rows_json : Forall (λ row, json_ok (VDict row) = true) rows;
}.
Lemma record_rows_run {W} now ctx (col : collection (W:=W)) by_name index names rows s :
  Forall2 (λ name row, row_of col by_name name = row) names rows →
  Forall (λ row, row_passes col row = true) rows → Forall (λ row, json_ok (VDict row) = true) rows →
  NoDup (row_trial col <$> seq index (length names)) →
  (∀ id, id ∈ row_trial col <$> seq index (length names) → Experiment.trial_path_ok id = true ∧ trials s.1 !! id = None) →
  ∃ s', record_rows now ctx col index by_name names s = (Ok rows, s') ∧
    (∀ id, id ∉ row_trial col <$> seq index (length names) → trials s'.1 !! id = trials s.1 !! id) ∧
    rows_held ctx (row_trial col) s'.1 index names (printed_items <$> rows).
Proof.
  intros Hrows. revert index s. induction Hrows as [|name row names rows Hrow _ IH]; intros index s Hpass Hok Hnd Hfresh.
  - exists s. split; [done|]. split; [done|]. constructor.
  - apply Forall_cons in Hpass as [Hp Hpass]. apply Forall_cons in Hok as [Hj Hok].
    cbn [length seq] in Hnd, Hfresh |- *. rewrite !fmap_cons in Hnd, Hfresh |- *. apply NoDup_cons in Hnd as [Hni Hnd].
    destruct (Hfresh (row_trial col index) ltac:(left)) as [Hid Hnone].
    destruct (finish_fresh now ctx (row_trial col index) name "pass" (bound_payload ctx name row) s Hid Hnone)
      as (s1 & Hf & Ho & Hfin); [apply (bool_decide_unpack _); vm_compute; exact I|by apply bound_payload_ok|].
    destruct (IH (S index) s1 Hpass Hok Hnd) as (s2 & Hr & Hkeep & Hheld).
    { intros id Hin. rewrite Ho by (intros ->; done). apply Hfresh. by right. }
    exists s2. split; [|split].
    + cbn [record_rows]. unfold row_status. rewrite Hrow, Hp. unfold sbind at 1. rewrite Hf. unfold sbind at 1. by rewrite Hr.
    + intros id [Hne Hin]%not_elem_of_cons. rewrite Hkeep, Ho by done. done.
    + rewrite fmap_cons. constructor; [|done]. destruct (finished_holds ctx s1.1 _ _ _ Hid Hfin) as (_ & t & Ht & Hru).
      split; [done|]. exists t. split; [by rewrite Hkeep|done].
Qed.

(** *** The verdict on truthful rows *)

Lemma dfind_merged k base d :
  json_ok (VDict d) = true → dfind k (merged base d) = match dfind k d with Some v => Some v | None => dfind k base end.
Proof.
  intros Hok. cbn [json_ok] in Hok. apply andb_true_iff in Hok as [Hs Hnd]. apply bool_decide_eq_true in Hnd.
  unfold merged. revert base. induction d as [|[k0 v0] d IH]; intros base; [done|]. cbn [foldl fst snd].
  cbn [forallb] in Hs. apply andb_true_iff in Hs as [Hk0 Hs]. apply andb_true_iff in Hk0 as [Hk0 _].
  destruct k0; try discriminate Hk0. cbn [dict_keys] in Hnd. apply NoDup_cons in Hnd as [Hni Hnd].
  rewrite IH by done. rewrite dfind_put. cbn [dfind fst snd is_key]. case_bool_decide as Hk; [subst|done].
  destruct (dfind k d) as [v|] eqn:E; [|done]. destruct Hni. clear -E.
  induction d as [|[k0 v0] d IH]; [discriminate E|]. cbn [dfind] in E. destruct k0; cbn [is_key] in E; cbn [dict_keys]; auto.
  case_bool_decide; [subst; left|]. right. by apply IH.
Qed.
Lemma dget_with_contract c row k :
  json_ok (VDict row) = true → dfind k row ≠ None → dget k (with_contract c row) = dget k row.
Proof. intros Hok Hk. unfold with_contract, dget. rewrite dfind_merged by done. by destruct (dfind k row). Qed.
Lemma dget_some k d v : dget k d = v → v ≠ VNone → dfind k d ≠ None.
Proof. unfold dget. destruct (dfind k d); [done|]. intros <-. done. Qed.
Lemma good_proves c row : good_row c row → proves c (VDict (with_contract c row)).
Proof.
  intros (Hi & Ha & Hr & Hok). exists (with_contract c row). split; [done|].
  rewrite !dget_with_contract; try done; try by eapply dget_some. eapply dget_some; [done|].
  intros Hn. by rewrite Hn in Hr.
Qed.

(** Rows with distinct names become the mapping of their names. *)
Lemma dicts_by_distinct key names (rows : list mapping) :
  NoDup names → Forall2 (λ name d, dget key d = VStr name) names rows →
  dicts_by key (VDict <$> rows) = Ok (zip (VStr <$> names) (VDict <$> rows)).
Proof.
  intros Hnd Hrows. unfold dicts_by. rewrite <-(app_nil_l (zip _ _)).
  assert (∀ name, name ∈ names → VStr name ∉ ([] : mapping).*1) as Hacc by (intros ? _ ?%elem_of_nil; done).
  revert Hacc. generalize ([] : mapping). induction Hrows as [|name d names rows Hd _ IH]; intros acc Hacc.
  - cbn. by rewrite app_nil_r.
  - apply NoDup_cons in Hnd as [Hni Hnd]. rewrite !fmap_cons. cbn [rfold zip zip_with]. rewrite Hd. cbn [hashed hashable negb rbind].
    rewrite put_new by (apply mem_str_false, Hacc; left). rewrite IH; [by rewrite <-app_assoc|done|].
    intros name' Hin. rewrite fmap_app, not_elem_of_app. split; [apply Hacc; by right|].
    cbn. rewrite list_elem_of_singleton. congruence.
Qed.
Lemma dfind_zip names (rows : list val) i name row :
  NoDup names → names !! i = Some name → rows !! i = Some row → dfind name (zip (VStr <$> names) rows) = Some row.
Proof.
  revert rows i. induction names as [|n names IH]; intros [|r rows] [|i] Hnd Hn Hr; try discriminate.
  - cbn in *. simplify_eq. by rewrite bool_decide_eq_true_2.
  - apply NoDup_cons in Hnd as [Hni Hnd]. rewrite fmap_cons. cbn [zip zip_with dfind fst snd is_key].
    rewrite bool_decide_eq_false_2; [by eapply IH|]. intros ->. apply Hni. by eapply list_elem_of_lookup_2.
Qed.
Lemma zip_keys {A B} (xs : list A) (ys : list B) : length xs = length ys → (zip xs ys).*1 = xs.
Proof.
  revert ys. induction xs as [|x xs IH]; intros [|y ys] Hl; try done. cbn in *. injection Hl as Hl. by rewrite IH.
Qed.
Lemma subset_texts_refl l : subset (texts l) (texts l) = true.
Proof.
  unfold subset. apply forallb_forall. intros v Hin. apply list_elem_of_In, list_elem_of_fmap in Hin as (s & -> & Hs).
  apply mem_str. by apply list_elem_of_fmap_2.
Qed.
Lemma ck_for_all {A} (body : A → CK unit) xs : (∀ x, x ∈ xs → body x = Ok tt) → ck_for body xs = Ok tt.
Proof. induction xs as [|x xs IH]; intros H; [done|]. cbn. rewrite H by left. apply IH. intros. apply H. by right. Qed.
Lemma check_proved actual c cell :
  dfind (cell_id c) actual = Some cell → proves c cell → check_access_cell actual c = Ok tt.
Proof.
  intros Hf (d & -> & _ & Ha & Hr). unfold check_access_cell, record_at. rewrite Hf. cbn [from_option_or py_ck rmap_err rbind].
  unfold getattr. cbn [get_attr py_ck rmap_err rbind]. unfold dget in Ha, Hr. by rewrite Ha, Hr, eqb_reflx.
Qed.
Lemma contract_ids : NoDup (cell_id <$> access_cell_contract).
Proof. apply (bool_decide_unpack _). vm_compute. exact I. Qed.
Lemma contract_length : length access_cell_contract = 60%nat.
Proof. vm_compute. reflexivity. Qed.

Lemma proves_named cs cells :
  Forall2 (λ c cell, proves c (VDict cell)) cs cells →
  Forall2 (λ name d, dget "cell_id" d = VStr name) (cell_id <$> cs) cells.
Proof.
  induction 1 as [|c cell cs cells Hp _ IH]; [constructor|]. rewrite fmap_cons. constructor; [|done].
  by destruct Hp as (d & [= <-] & ? & _).
Qed.
Lemma truthful_verdict ctx rows :
  Forall2 good_row access_cell_contract rows →
  ∃ document, access_verdict ctx (zip_with with_contract access_cell_contract rows) = Ok document ∧
    dget "status" document = VStr "pass".
Proof.
  intros Hgood. set (cells := zip_with with_contract access_cell_contract rows).
  exists (matrix_document ctx "pass" "cells" cells). split; [|by apply not_pass_document].
  assert (length cells = 60%nat) as Hlen.
  { unfold cells. rewrite length_zip_with, <-(Forall2_length _ _ _ Hgood), contract_length. done. }
  assert (Forall2 (λ c cell, proves c (VDict cell)) access_cell_contract cells) as Hproves.
  { unfold cells. clear -Hgood. induction Hgood; cbn; constructor; [by apply good_proves|done]. }
  unfold access_verdict, validate_live_access_matrix, bound.
  change (dget "producer_sha" (matrix_document ctx "pass" "cells" cells)) with (VStr (context_sha ctx)).
  change (dget "environment_fingerprint" (matrix_document ctx "pass" "cells" cells)) with (VStr (fingerprint ctx)).
  change (dget "cells" (matrix_document ctx "pass" "cells" cells)) with (VList (VDict <$> cells)).
  assert (∀ x, val_is (VStr x) x = true) as Hval by (intros x; by apply val_is_true).
  rewrite !Hval. cbn [negb refuse_if rbind]. rewrite length_fmap, Hlen. cbn [Nat.eqb negb refuse_if rbind].
  rewrite (dicts_by_distinct "cell_id" (cell_id <$> access_cell_contract) cells contract_ids).
  2:{ by apply proves_named. }
  cbn [rbind]. rewrite zip_keys by (by rewrite !length_fmap, Hlen, contract_length).
  unfold same_set. rewrite subset_texts_refl. cbn [negb refuse_if rbind andb].
  rewrite ck_for_all; [done|]. intros c (i & Hi)%list_elem_of_lookup.
  destruct (Forall2_lookup_l _ _ _ _ _ Hproves Hi) as (cell & Hcell & Hp).
  eapply check_proved; [|exact Hp]. eapply (dfind_zip _ _ i); [apply contract_ids|by rewrite list_lookup_fmap, Hi|].
  by rewrite list_lookup_fmap, Hcell.
Qed.

Lemma access_paths : Forall (λ id, Experiment.trial_path_ok id = true) (access_trial <$> seq 1 (length access_cell_contract)).
Proof. apply (bool_decide_unpack _). vm_compute. exact I. Qed.

(** A backend that meets its contract passes the access matrix of a fresh journal. *)
Theorem truthful_backend_passes {W} (backend : ProbeBackend W) now ctx j w :
  truthful_backend backend ctx → trials j = ∅ →
  ∃ document s', run_access_matrix backend now ctx (j, w) = (Ok document, s') ∧ dget "status" document = VStr "pass".
Proof.
  intros Htruth Hj.
  destruct (provisioning_passes backend now ctx Htruth (j, w)) as (row & s1 & Hp & Ho); [cbn; by rewrite Hj|].
  pose proof access_trials as [Hnd Hprov].
  destruct (access_units_pass backend now ctx Htruth 1 access_cell_contract [] s1) as (rows & s2 & Hu & Hgood); [done|done|..].
  { intros id Hid. pose proof access_paths as Hpaths. rewrite Forall_forall in Hpaths. split; [by apply Hpaths|].
    rewrite Ho by (intros ->; done). cbn. by rewrite Hj. }
  destruct (truthful_verdict ctx rows Hgood) as (document & Hv & Hs). exists document, s2. split; [|done].
  unfold run_access_matrix, when_provisioned, scatch. unfold sbind at 1. unfold sbind at 1. rewrite Hp. cbn [sret].
  unfold sbind at 1. rewrite Hu. cbn [app]. unfold access_verdict in Hv. unfold sbind, slift.
  destruct (ck _) eqn:E; [|discriminate Hv]. cbn in Hv. by apply Ok_inj in Hv as <-.
Qed.

(** *** Complete collections are final *)

(** The trials of a collection have names of their own. *)
Definition row_trials {W} (col : collection (W:=W)) : list string := row_trial col <$> seq 1 (length (registry col)).
Record collection_ok {W} (col : collection (W:=W)) : Prop := {
  ok_registry : registry col ≠ [] ∧ NoDup (registry col);
  ok_trials : NoDup ("g02-provisioning" :: collection_trial col :: row_trials col);
  ok_paths : Forall (λ id, Experiment.trial_path_ok id = true) (collection_trial col :: row_trials col);
}.
Lemma rows_of_names {W} (col : collection (W:=W)) names rows :
  NoDup names → Forall2 (λ name row, dget (row_key col) row = VStr name) names rows →
  Forall2 (λ name row, row_of col (zip (VStr <$> names) (VDict <$> rows)) name = row) names rows.
Proof.
  intros Hnd Hrows. apply Forall2_same_length_lookup. split; [by eapply Forall2_length|]. intros i name row Hn Hr.
  unfold row_of. rewrite (dfind_zip names (VDict <$> rows) i name (VDict row)); [done..|]. by rewrite list_lookup_fmap, Hr.
Qed.
Lemma collect_rows_run {W} now ctx (col : collection (W:=W)) result rows s s1 :
  collection_ok col → complete_answer col result rows →
  finish_unit now ctx (collection_trial col) (collection_unit col) "pass" (bound_payload ctx (collection_unit col) result) s = (Ok tt, s1) →
  (∀ id, id ∈ row_trials col → trials s1.1 !! id = None) →
  ∃ s', collect_rows now ctx col result s = (collection_verdict ctx col rows, s') ∧
    (∀ id, id ∉ row_trials col → trials s'.1 !! id = trials s1.1 !! id) ∧
    rows_held ctx (row_trial col) s'.1 1 (registry col) (printed_items <$> rows).
Proof.
  intros [[_ Hnames] Htrials Hpaths] [Hrows Hkeys Hpass Hok Hjson] Hf Hfresh.
  pose proof Htrials as [_ [_ Hnd]%NoDup_cons]%NoDup_cons. apply Forall_cons in Hpaths as [_ Hpaths]. rewrite Forall_forall in Hpaths.
  destruct (record_rows_run now ctx col (zip (VStr <$> registry col) (VDict <$> rows)) 1 (registry col) rows s1)
    as (s' & Hr & Hkeep & Hheld); [by apply rows_of_names|done..|intros id Hid; split; [by apply Hpaths|by apply Hfresh]|].
  exists s'. split; [|by split]. unfold collect_rows. rewrite Hrows. unfold sbind at 1. rewrite Hf.
  unfold sbind at 1, slift. rewrite (dicts_by_distinct (row_key col) (registry col) rows Hnames Hkeys). cbn [ck rmap_err].
  unfold sbind at 1. rewrite Hr. rewrite length_fmap, <-(Forall2_length _ _ _ Hkeys), Nat.eqb_refl.
  rewrite zip_keys by (by rewrite !length_fmap, <-(Forall2_length _ _ _ Hkeys)).
  assert (∀ l, strings_are (VStr <$> l) l = true) as -> by (intros l; induction l as [|x l IH]; cbn; [done|by rewrite bool_decide_eq_true_2, IH]).
  assert (forallb (row_passes col) rows = true) as -> by (apply forallb_forall; rewrite Forall_forall in Hpass; intros x Hx%list_elem_of_In; auto).
  cbn [andb]. unfold validated, collection_verdict, sbind, slift, sret. by destruct (ck _).
Qed.

(** The same collection, asked of another backend *)
Definition asking {W} (ask : ProbeContext → SE W probe_exn mapping) (col : collection (W:=W)) : collection :=
  {| registry := registry col; prefix := prefix col; field_name := field_name col; row_key := row_key col;
     collection_trial := collection_trial col; collection_unit := collection_unit col; missing_row := missing_row col;
     row_passes := row_passes col; collect := ask; validate := validate col |}.
(** A complete answer is recorded row by row as passed before the matrix is validated: the
    verdict of the validation, be it a refusal, is what this run and every later one return,
    and no later run asks again. *)
Theorem complete_collections_are_final {W} (backend : ProbeBackend W) now ctx (col : collection (W:=W)) j w result rows :
  truthful_backend backend ctx → trials j = ∅ → collection_ok col → complete_answer col result rows →
  (∀ w, ∃ w', collect col ctx w = (Ok result, w')) →
  ∃ s', run_collection backend now ctx col (j, w) = (collection_verdict ctx col rows, s') ∧
    ∀ (backend' : ProbeBackend W) now' ask,
      run_collection backend' now' ctx (asking ask col) s' = (collection_verdict ctx col (printed_items <$> rows), s').
Proof.
  intros Htruth Hj Hcol Hans Hcollect. pose proof Hcol as [[Hne _] Htrials Hpaths].
  apply NoDup_cons in Htrials as [Hprov Htrials]. apply NoDup_cons in Htrials as [Hcoll _].
  destruct (provisioning_passes backend now ctx Htruth (j, w)) as (prow & s1 & Hp & Ho); [cbn; by rewrite Hj|].
  destruct (ensure_provisioned_ok now ctx backend _ _ _ Hp) as (_ & row & Hrow).
  assert (∀ id, id ∈ collection_trial col :: row_trials col → trials s1.1 !! id = None) as Hfresh.
  { intros id Hid. rewrite Ho by (intros ->; done). cbn. by rewrite Hj. }
  rewrite Forall_forall in Hpaths. destruct (Hcollect s1.2) as [w' Hm].
  destruct (unit_passes now ctx (collection_trial col) (collection_unit col) (collect col ctx) result w' s1)
    as (s2 & s3 & Hbp & Hf & Ho2); [apply Hpaths; left|apply Hfresh; left|done|by destruct Hans|].
  destruct (collect_rows_run now ctx col result rows s2 s3 Hcol Hans Hf) as (s' & Hc & Hkeep & Hheld).
  { intros id Hid. rewrite Ho2 by (intros ->; done). apply Hfresh. by right. }
  exists s'. split.
  - unfold run_collection, when_provisioned, scatch. unfold sbind at 1. unfold sbind at 1. rewrite Hp. cbn [sret].
    assert (held_rows ctx col 1 (registry col) [] s1 = (Ok (inl []), s1)) as Hnone.
    { destruct (registry col) as [|name names] eqn:E; [done|]. cbn [held_rows]. unfold sbind at 1.
      assert (row_trial col 1 ∈ row_trials col) as Hin by (unfold row_trials; rewrite E; cbn; left).
      rewrite (read_run_ok (row_trial col 1) s1), Hfresh; [done|by right|apply Hpaths; by right]. }
    unfold sbind at 1. rewrite Hnone. unfold sbind at 1.
    rewrite (read_run_ok (collection_trial col) s1) by (apply Hpaths; left). rewrite Hfresh by left.
    unfold sbind at 1, slift. cbn [terminal_result]. unfold sbind in Hbp |- *.
    destruct (begin_unit now ctx (collection_trial col) (collection_unit col) s1) as [[[]|e] s0]; [|discriminate Hbp].
    by rewrite Hbp.
  - intros backend' now' ask. apply (recorded_rows_are_final _ _ _ (asking ask col) _ row); [done| |exact Hheld].
    destruct Hrow as (Hid & t & Ht & Hr). split; [done|]. exists t. split; [|done].
    assert ("g02-provisioning" ∉ row_trials col) by (intros ?; apply Hprov; by right).
    rewrite Hkeep, Ho2; [done|intros Heq; apply Hprov; rewrite Heq; left|done].
Qed.

(** *** The memory backend *)

Lemma artifact_ref_total ctx phase unit_id v : json_ok v = true → ∃ text, artifact_ref ctx phase unit_id v = Ok text ∧ truthy text = true.
Proof.
  intros Hv. unfold artifact_ref. destruct (digest_total v Hv) as [d ->]. cbn [rbind]. by eexists.
Qed.
Lemma memory_backend_truthful self ctx plan :
  access_overrides self = ∅ → build_provisioning_plan (isolation_document self) (probes_document self) ctx = Ok plan →
  json_ok (VDict plan) = true → truthful_backend (memory_backend self) ctx.
Proof.
  intros Hnone Hplan Hok. split.
  - intros w. cbn [memory_backend provision]. unfold memory_provision, sbind, called, smodify, slift, ck. rewrite Hplan.
    cbn [rbind]. destruct (digest_total _ Hok) as [digest ->]. cbn [rbind].
    destruct (artifact_ref_total ctx "provisioning" "plan" _ Hok) as (text & -> & Ht). cbn [rbind rmap_err].
    do 2 eexists. split; [reflexivity|]. split.
    + unfold valid_provisioning. rewrite !andb_true_iff, !val_is_true. split_and!; [reflexivity..|exact Ht].
    + apply (json_ok_sdict [_; _; _; _; _]); [apply (bool_decide_unpack _); vm_compute; exact I|].
      cbn [fmap list_fmap snd]. by repeat constructor.
  - intros c w Hc. cbn [memory_backend access]. unfold memory_access, sbind, called, smodify, slift, ck.
    rewrite Hnone, lookup_empty. cbn [default from_option id].
    destruct (artifact_ref_total ctx "access" (cell_id c) (VBool (expected_allow c)) eq_refl) as (text & Htext & Ht).
    rewrite Htext. cbn [rbind rmap_err]. do 2 eexists. split; [reflexivity|]. split_and!; [done..|exact Ht|].
    apply (json_ok_sdict [_; _; _]); [apply (bool_decide_unpack _); vm_compute; exact I|].
    cbn [fmap list_fmap snd]. by repeat constructor.
Qed.

Module DemoProbes.
Definition names (l : list string) : val := sdict ((λ n, (n, VNone)) <$> l).
Definition isolation : val :=
  sdict [("trust_zones", VList (texts ["fw-sut"; "fw-baseline"; "fw-eval"]));
         ("prefixes", VList (texts ["g02/scenarios/"; "g02/trials/"; "g02/ground-truth/"; "g02/locked-tests/"; "g02/evidence/"]));
         ("principals", sdict [("scenario-controller", sdict [("zone", VStr "fw-sut")]);
                               ("baseline-agent", sdict [("zone", VStr "fw-baseline")]);
                               ("sealed-evaluator", sdict [("zone", VStr "fw-eval")]);
                               ("ordinary-developer", sdict [("zone", VStr "external")])])].
Definition probes : val :=
  sdict [("images", sdict [("busybox", VStr "busybox@sha256:10"); ("minio_mc", VStr "mc@sha256:eb")]);
         ("schema_targets", names PRODUCT_SCHEMAS); ("observability_targets", names OBSERVABILITY_TARGETS);
         ("probe_pods", names access_probes)].
Definition backend : MemoryProbeBackend :=
  {| isolation_document := isolation; probes_document := probes; access_overrides := ∅; missing_stage := None;
     canary_hit_surface := None |}.
Definition ctx : ProbeContext := {| context_sha := "abc"; fingerprint := "env" |}.
Definition start : Experiment.journal * gmap string Z := ({| Experiment.trials := ∅; Experiment.ticks := 0 |}, ∅).

Lemma plan : ∃ plan, build_provisioning_plan isolation probes ctx = Ok plan ∧ json_ok (VDict plan) = true.
Proof. eexists. split; [vm_compute; reflexivity|vm_compute; reflexivity]. Qed.
Lemma passes now : ∃ document s', run_access_matrix (memory_backend backend) now ctx start = (Ok document, s') ∧
  dget "status" document = VStr "pass".
Proof.
  destruct plan as (p & Hp & Hok). apply truthful_backend_passes; [|done]. by eapply memory_backend_truthful.
Qed.
End DemoProbes.

Lemma passed_access_matrix_proves_and_stays_witness :
  ∃ document s' rows, dget "environment_fingerprint" document = VStr "env" ∧
    run_access_matrix (memory_backend DemoProbes.backend) (λ _, "later") DemoProbes.ctx s' =
      (access_verdict DemoProbes.ctx (zip_with with_contract access_cell_contract rows), s').
Proof.
  destruct (DemoProbes.passes (λ _, "now")) as (document & s' & Hrun & Hs).
  destruct (passed_access_matrix_proves_and_stays (memory_backend DemoProbes.backend) (λ _, "now") DemoProbes.ctx
    DemoProbes.start document s' Hrun Hs) as ((_ & He & _) & rows & _ & Hagain).
  exists document, s', rows. split; [exact He|]. apply (Hagain (memory_backend DemoProbes.backend) (λ _, "later")).
Defined.

(** *** Stages that are not of one trace

    A stage is recorded as passed when it was observed under some trace.  That the six traces
    are one and the same is checked only after all six are recorded, so that an uncorrelated
    matrix is recorded as passed: no later run in the same environment collects it again, and
    all of them fail with the same error. *)
Module DemoUncorrelated.
Definition row (stage : string) : mapping :=
  smapping [("stage", VStr stage); ("trace_id", VStr stage); ("observed", VBool true); ("artifact_ref", VStr "ref")].
Definition rows : list mapping := row <$> TRACE_STAGES.
Definition answer : mapping := smapping [("status", VStr "pass"); ("stages", VList (VDict <$> rows))].
Definition backend : ProbeBackend (gmap string Z) :=
  {| provision := memory_provision DemoProbes.backend; access := memory_access DemoProbes.backend;
     trace_probe := λ _, sret answer; canary_probe := memory_canary DemoProbes.backend |}.
Lemma truthful : truthful_backend backend DemoProbes.ctx.
Proof.
  destruct DemoProbes.plan as (p & Hp & Hok).
  destruct (memory_backend_truthful DemoProbes.backend DemoProbes.ctx p eq_refl Hp Hok) as [H1 H2].
  by split.
Qed.
Lemma complete : complete_answer (trace_collection backend) answer rows.
Proof.
  split; [reflexivity| | |reflexivity|]; cbn [registry trace_collection row_key row_passes]; repeat constructor.
Qed.
Lemma names : collection_ok (trace_collection backend).
Proof.
  split; [split; [done|apply (bool_decide_unpack _); vm_compute; exact I]|apply (bool_decide_unpack _); vm_compute; exact I..].
Qed.
Definition refusal : PR mapping := Err (CheckRaised (Governance "G01 supplemental span matrix is not correlated" [])).
Lemma verdicts : collection_verdict DemoProbes.ctx (trace_collection backend) rows = refusal ∧
  collection_verdict DemoProbes.ctx (trace_collection backend) (printed_items <$> rows) = refusal.
Proof. split; vm_compute; reflexivity. Qed.
End DemoUncorrelated.

Theorem uncorrelated_stages_stay_recorded now :
  ∃ s', run_trace_matrix DemoUncorrelated.backend now DemoProbes.ctx DemoProbes.start = (DemoUncorrelated.refusal, s') ∧
    ∀ (backend' : ProbeBackend (gmap string Z)) now',
      run_trace_matrix backend' now' DemoProbes.ctx s' = (DemoUncorrelated.refusal, s').
Proof.
  destruct (complete_collections_are_final DemoUncorrelated.backend now DemoProbes.ctx
    (trace_collection DemoUncorrelated.backend) (DemoProbes.start).1 (DemoProbes.start).2 DemoUncorrelated.answer
    DemoUncorrelated.rows DemoUncorrelated.truthful eq_refl DemoUncorrelated.names DemoUncorrelated.complete)
    as (s' & Hrun & Hagain); [intros w; by exists w|].
  destruct DemoUncorrelated.verdicts as [H1 H2]. exists s'. rewrite H1 in Hrun. rewrite H2 in Hagain. split; [exact Hrun|].
  intros backend' now'. exact (Hagain backend' now' (trace_probe backend')).
Qed.
