(* ===== verification/RunDirectory.v ===== *)
(** * The directory of a readiness run

    [faultwitness_dev/g03_readiness.py] and [provenance.py]: the files a readiness run reads
    and writes.  Which directories it may use, what it inherits from an earlier run, what
    identifies it, when it may be resumed, what it must not change, the ledger of model costs,
    and the inventory of the repository's metric versions. *)
From Stdlib Require Import Ascii.
From S2P Require Import Prelude Json Sha256 PyDyn PyCalendar PyFloat Gateway Packet Scoring Lab Matrix Thresholds Reference LiveAdapter.

(** ** Files

    A path is the list of its names from the root of the file system.  The text of a file is
    kept, and its bytes are the UTF-8 of it.  [resolve] is what symbolic links and dots make
    of a path. *)

Abbreviation path := (list string).
Record file_system := {
  files : gmap path string;
  directories : gset path;
  symlinks : gset path;
}.
Definition is_file (fs : file_system) (p : path) : bool := bool_decide (is_Some (files fs !! p)).
Definition is_dir (fs : file_system) (p : path) : bool := bool_decide (p ∈ directories fs).
Definition exists_ (fs : file_system) (p : path) : bool := is_file fs p || is_dir fs p.
Definition file_bytes (text : string) : string := utf8 text.

(** Names compare part by part. *)
Fixpoint path_le (p q : path) : bool :=
  match p, q with
  | [], _ => true
  | _, [] => false
  | a :: p, b :: q => if bool_decide (a = b) then path_le p q else str_le a b
  end.
Definition sort_paths : list path → list path := sort_by path_le.
(** [p.relative_to(base)] *)
Fixpoint relative_to (p base : path) : option path :=
  match base, p with
  | [], p => Some p
  | b :: base, a :: p => if bool_decide (a = b) then relative_to p base else None
  | _ :: _, [] => None
  end.
Definition as_posix (p : path) : string := str_join "/" p.
(** [str(p)] of a path from the root *)
Definition path_text (p : path) : string := "/" +:+ as_posix p.
Definition name_of (p : path) : string := default "" (last p).
(** [(p, *p.parents)], from the path up *)
Fixpoint parents (n : nat) (p : path) : list path :=
  p :: match n with O => [] | S n => parents n (removelast p) end.
Definition self_and_parents (p : path) : list path := parents (length p) p.
Definition entries (fs : file_system) : list path := elements (dom (files fs)) ++ elements (directories fs).
(** [p.iterdir()] *)
Definition children (fs : file_system) (p : path) : list path :=
  List.filter (λ q, bool_decide (q ≠ [] ∧ removelast q = p)) (entries fs).
(** The files below a directory: [sorted(path for path in p.rglob("*") if path.is_file())] *)
Definition files_below (fs : file_system) (p : path) : list path :=
  sort_paths (List.filter (λ q, match relative_to q p with Some (_ :: _) => true | _ => false end)
                (elements (dom (files fs)))).
(** [p.mkdir(parents=True, exist_ok=True)] of a path that no file is in the way of *)
Definition mkdir (p : path) (fs : file_system) : file_system :=
  {| files := files fs; directories := list_to_set (self_and_parents p) ∪ directories fs; symlinks := symlinks fs |}.
Definition put_file (p : path) (text : string) (fs : file_system) : file_system :=
  {| files := <[p := text]> (files fs); directories := directories fs; symlinks := symlinks fs |}.

(** ** Artifacts *)

Definition newline : string := String "010"%char "".
(** [json.dumps(v, indent=2, sort_keys=True)] below [level] *)
Definition newline_at (level : nat) : string := newline +:+ str_join "" (repeat "  " level).
Definition bracketed (level : nat) (left_ right_ : string) (items : list string) : string :=
  match items with
  | [] => left_ +:+ right_
  | _ => left_ +:+ newline_at (S level) +:+ str_join ("," +:+ newline_at (S level)) items +:+ newline_at level +:+ right_
  end.
Fixpoint pretty (level : nat) (v : val) : option string :=
  match v with
  | VList l =>
      items ← (fix go l := match l with
               | [] => Some []
               | x :: l => s ← pretty (S level) x; ss ← go l; Some (s :: ss)
               end) l;
      Some (bracketed level "[" "]" items)
  | VDict d =>
      pairs ← (fix go d := match d with
               | [] => Some []
               | (VStr k, x) :: d => s ← pretty (S level) x; ss ← go d; Some ((k, s) :: ss)
               | _ => None
               end) d;
      Some (bracketed level "{" "}" (dumps_member sorted_style <$> sort_keys pairs))
  | v => dumps sorted_style v
  end.
Example pretty_value :
  pretty 0 (sdict [("b", VList [VInt 1; VList []]); ("a", VNone)]) =
  Some (str_join newline ["{"; "  " +:+ dumps_str sorted_style "a" +:+ ": null,";
                          "  " +:+ dumps_str sorted_style "b" +:+ ": ["; "    1,"; "    []"; "  ]"; "}"]).
Proof. vm_compute. reflexivity. Qed.

Definition artifact_text (document : mapping) : option string := text ← pretty 0 (VDict document); Some (text +:+ newline).
(** The temporary file is replaced in one step; what is not JSON raises before. *)
Definition write_json_artifact_v3 (p : path) (document : mapping) : SE file_system readiness_exn string :=
  smodify (mkdir (removelast p));;;
  let! text := slift (from_option_or (RPython "TypeError") (artifact_text document)) in
  smodify (put_file p text);;;
  sret (sha256_hex (file_bytes text)).
Definition read_json_v3 (fs : file_system) (p : path) : R mapping :=
  let unreadable := RGovernance ("metric v3 artifact is unreadable: " +:+ path_text p) in
  let* text := from_option_or unreadable (files fs !! p) in
  let* document := from_option_or unreadable (loads text) in
  from_option_or (RGovernance ("metric v3 artifact root is not an object: " +:+ path_text p)) (as_dict document).

(** *** Assets that a run must not change *)

Definition snapshot_row (root : path) (fs : file_system) (p : path) : R string :=
  let* relative := from_option_or (RPython "ValueError") (relative_to p root) in
  let* text := from_option_or (RPython "FileNotFoundError") (files fs !! p) in
  Ok (as_posix relative +:+ String "009" "" +:+ sha256_hex (file_bytes text)).
Definition snapshot_group (root : path) (fs : file_system) (paths : list path) : R val :=
  let* rows := rmapM (snapshot_row root fs) paths in
  Ok (sdict [("count", VInt (Z.of_nat (length rows))); ("digest", VStr (sha256_hex (utf8 (str_join newline rows))))]).
Definition eval_directories (root : path) (fs : file_system) : list path :=
  sort_paths (List.filter (λ p, startswith (name_of p) "EVAL-G02-") (children fs (root ++ ["docs"; "evals"]))).
Definition frozen_paths (root : path) (fs : file_system) : list path :=
  sort_paths (((λ name, root ++ ["docs"; "gates"; "G02"; name]) <$> ["PLAN.md"; "REPORT.md"; "VALIDATIONS.yaml"]) ++
              (directory ← eval_directories root fs; files_below fs directory)).
Definition protected_asset_snapshot (root : path) (fs : file_system) : R mapping :=
  let* docs_audit := snapshot_group root fs (files_below fs (root ++ ["docs"; "audit"])) in
  let* g02_frozen := snapshot_group root fs (frozen_paths root fs) in
  Ok (smapping [("docs_audit", docs_audit); ("g02_frozen", g02_frozen)]).
Definition assert_protected_assets_unchanged (before after : mapping) : R unit :=
  raise_if negb (py_eq (VDict before) (VDict after))
    with_ RGovernance "protected docs/audit or frozen G02 assets changed during metric-v3 execution";;
  Ok tt.

(** ** The directories of a run *)

Definition readiness_path (root : path) : path := root ++ [".audit"; "g03-readiness"].
Definition invalidated_name (name : string) : bool := str_contains "-invalidated-" (casefold name).
Definition holds_invalidation (fs : file_system) (p : path) : bool := is_file fs (p ++ ["INVALIDATION.md"]).
(** The ancestors that come before [stop], or all of them *)
Fixpoint before (stop : path) (ps : list path) : list path :=
  match ps with
  | [] => []
  | p :: ps => if bool_decide (p = stop) then [] else p :: before stop ps
  end.
Section Directories.
Context (resolve : path → path).

Definition validate_output_dir_v3 (root output_dir : path) (resume : bool) (fs : file_system) : R path :=
  let readiness_root := resolve (readiness_path root) in
  let candidate := resolve output_dir in
  let invalidated := resolve (readiness_root ++ ["invalidated"]) in
  let refusal := RGovernance "metric v3 cannot read or resume an invalidated directory" in
  let* relative := from_option_or (RGovernance "metric v3 output directory must be under .audit/g03-readiness")
                     (relative_to candidate readiness_root) in
  raise_if bool_decide (candidate = readiness_root)
    with_ RGovernance "metric v3 output directory cannot be the readiness root";;
  raise_if existsb invalidated_name relative with_ refusal;;
  raise_if existsb (holds_invalidation fs) (before (removelast readiness_root) (self_and_parents candidate)) with_ refusal;;
  raise_if bool_decide (is_Some (relative_to candidate invalidated)) with_ refusal;;
  let empty := bool_decide (children fs candidate = []) in
  if resume then
    raise_if negb (is_dir fs candidate) || empty
      with_ RGovernance "metric v3 --resume requires a non-empty active run directory";;
    raise_if negb (is_file fs (candidate ++ ["run-manifest.json"]))
      with_ RGovernance "metric v3 --resume target lacks an active run manifest";;
    Ok candidate
  else
    raise_if exists_ fs candidate && (negb (is_dir fs candidate) || negb empty)
      with_ RGovernance "metric v3 preflight requires a new empty output directory";;
    Ok candidate.
End Directories.

(** *** Trials of an earlier run *)

Definition trials_path (run : path) : path := run ++ ["journals"; "scenarios"; "trials"].
(** [path.stem] of a name that ends in [.json] *)
Definition stem_of (p : path) : string :=
  let name := name_of p in if bool_decide (name = ".json") then name else str_take (String.length name - 5) name.
(** [sorted(p.glob("*.json"))] *)
Definition json_files (fs : file_system) (p : path) : list path :=
  sort_paths (List.filter (λ q, endswith (name_of q) ".json") (children fs p)).
Record receipt := {
  inherited_trials : list (string * string * string);   (* trial, cache key, artifact digest *)
  not_inherited : list (string * string);               (* trial, status *)
}.
Definition inherit_trial (destination : path) (r : receipt) (p : path) : SE file_system readiness_exn receipt :=
  let! fs := sget in
  let! record := slift (read_json_v3 fs p) in
  let status := val_str (get_or record "status" (VStr "")) in
  if negb (bool_decide (status = "pass")) then
    sret {| inherited_trials := inherited_trials r;
            not_inherited := not_inherited r ++ [(val_str (get_or record "trial_id" (VStr (stem_of p))), status)] |}
  else
    smodify (put_file (destination ++ [name_of p]) (default "" (files fs !! p)));;;
    let! trial := slift (py (subscript (VDict record) "trial_id")) in
    let! key := slift (py (subscript (VDict record) "cache_key")) in
    sret {| inherited_trials := inherited_trials r ++
              [(val_str trial, val_str key, val_str (get_or record "artifact_digest" (VStr "")))];
            not_inherited := not_inherited r |}.
Fixpoint inherit_loop (destination : path) (r : receipt) (ps : list path) : SE file_system readiness_exn receipt :=
  match ps with
  | [] => sret r
  | p :: ps => let! r := inherit_trial destination r p in inherit_loop destination r ps
  end.
Definition inherit_passing_trials_v3 (root source_dir output_dir : path) : SE file_system readiness_exn (string * receipt) :=
  let source_trials := trials_path source_dir in
  let destination := trials_path output_dir in
  let! fs := sget in
  sguard (negb (is_dir fs source_trials)) (RGovernance "metric v3 trial inheritance source has no scenario journal");;;
  sguard (exists_ fs destination && negb (bool_decide (children fs destination = [])))
    (RGovernance "metric v3 trial inheritance target already holds trials");;;
  sguard (existsb (λ p, holds_invalidation fs p || invalidated_name (name_of p)) (before root (self_and_parents source_dir)))
    (RGovernance "metric v3 cannot inherit trials from an invalidated run");;;
  smodify (mkdir destination);;;
  let! fs := sget in
  let! r := inherit_loop destination {| inherited_trials := []; not_inherited := [] |} (json_files fs source_trials) in
  let! relative := slift (from_option_or (RPython "ValueError") (relative_to source_dir root)) in
  sret (as_posix relative, r).
Definition receipt_document (source_run : string) (r : receipt) : mapping :=
  smapping [("source_run", VStr source_run); ("inherited_count", VInt (Z.of_nat (length (inherited_trials r))));
            ("inherited_trials", VList ((λ '(trial, key, digest),
               sdict [("trial_id", VStr trial); ("cache_key", VStr key); ("artifact_digest", VStr digest)]) <$> inherited_trials r));
            ("not_inherited", VList ((λ '(trial, status), sdict [("trial_id", VStr trial); ("status", VStr status)]) <$> not_inherited r));
            ("revalidation", VStr "each inherited record is reused only if its recomputed cache_key matches")].

(** ** The ledger of costs *)

(** [round(x, 6)]: the decimal of six places nearest to the double, ties to even, as a double *)
Definition round6 (d : double) : double :=
  let '(num, den) := double_quotient d in
  dec (Z.sgn d.1 * round_half_even (num * 10 ^ 6) den) 6.
Example round6_values :
  (round6 (dec 12345675 7), round6 (dec (-1) 7), round6 (double_of_int 3)) = (dec 1234568 6, dec 0 6, dec 3000000 6).
Proof. vm_compute. reflexivity. Qed.

(** [entry.get("run") not in {...}]: an unhashable run raises [TypeError] *)
Definition keeps_entry (run_name : string) (entry : val) : R bool :=
  match entry with
  | VDict d =>
      raise_if negb (hashable (dget "run" d)) with_ RPython "TypeError";;
      Ok (negb (val_in (dget "run" d) ["metric-v3-frozen"; run_name]))
  | _ => Ok false
  end.
Fixpoint rfilter {A} (p : A → R bool) (xs : list A) : R (list A) :=
  match xs with
  | [] => Ok []
  | x :: xs => let* keep := p x in let* ys := rfilter p xs in Ok (if keep : bool then x :: ys else ys)
  end.
Definition entry_cost (entry : val) : R double := let* cost := py (subscript entry "cost") in float_of cost.
Definition ledger_entry (run_name status : string) (cost : double) : val :=
  sdict [("run", VStr run_name); ("metric_version", VInt METRIC_VERSION); ("status", VStr status);
         ("cost", vfloat (round6 cost))].
Definition updated_ledger (ledger : mapping) (run_name status : string) (cost : double) : R mapping :=
  match dget "entries" ledger with
  | VList entries =>
      let* retained := rfilter (keeps_entry run_name) entries in
      let entries := retained ++ [ledger_entry run_name status cost] in
      let* costs := rmapM entry_cost entries in
      Ok (dset "total_cost" (vfloat (round6 (double_sum costs))) (dset "entries" (VList entries) ledger))
  | _ => Err (RGovernance "G03 readiness cost ledger is malformed")
  end.
Definition update_cost_ledger_v3 (root : path) (run_name status : string) (cost : double)
    : SE file_system readiness_exn unit :=
  let p := readiness_path root ++ ["cost-ledger.json"] in
  let! fs := sget in
  let! ledger := slift (read_json_v3 fs p) in
  let! ledger := slift (updated_ledger ledger run_name status cost) in
  let! _ := write_json_artifact_v3 p ledger in
  sret tt.

(** ** What identifies a run *)

Definition BASELINE_CONFIG : mapping :=
  let arm (low high : Z) (registered : bool) := sdict [("min_turns", VInt low); ("max_turns", VInt high); ("registered", VBool registered)] in
  smapping
    [("schema_version", VStr "1.0.0"); ("metric_version", VInt 3); ("model_id", VStr MODEL_ID);
     ("budgets", sdict [("cumulative_input_tokens", VInt MAX_CUMULATIVE_INPUT_TOKENS);
                        ("cumulative_output_tokens", VInt MAX_CUMULATIVE_OUTPUT_TOKENS);
                        ("max_completion_tokens", VInt MAX_COMPLETION_TOKENS)]);
     ("arms", sdict [("no_rag", arm 1%Z 1%Z true); ("naive_react", arm 2%Z 4%Z true); ("naive_react_single", arm 1%Z 1%Z false)]);
     ("max_tool_calls", VInt 6)].
Definition load_baseline_config_v3 (config : val) (metric_version : Z) : R val :=
  let* _ := require_v3_metric_version metric_version in
  raise_if negb (py_eq config (VDict BASELINE_CONFIG)) with_ RGovernance "metric v3 baseline configuration drifted";;
  Ok config.

Definition text_schema : val := sdict [("type", VStr "string"); ("minLength", VInt 1)].
Definition texts_schema (bounds : list (string * val)) : val :=
  sdict ([("type", VStr "array"); ("items", text_schema)] ++ bounds ++ [("uniqueItems", VBool true)]).
Definition counter_schema : val := sdict [("type", VStr "integer"); ("minimum", VInt 0)].
Definition RESULT_SCHEMA_V3 : val :=
  let strings l := VList (VStr <$> l) in
  sdict
    [("$schema", VStr "https://json-schema.org/draft/2020-12/schema"); ("type", VStr "object");
     ("properties", sdict
        [("schema_version", sdict [("const", VStr "2.0.0")]); ("case_id", text_schema);
         ("status", sdict [("enum", strings ["ok"; "failed"])]); ("baseline", sdict [("type", VStr "string")]);
         ("model_id", sdict [("type", VStr "string")]); ("fallback_count", counter_schema);
         ("input_tokens", counter_schema); ("output_tokens", counter_schema);
         ("latency_ms", sdict [("type", VStr "number"); ("minimum", VInt 0)]); ("root_cause", text_schema);
         ("root_cause_candidates", texts_schema [("maxItems", VInt 3)]); ("evidence", texts_schema [("minItems", VInt 1)]);
         ("claims", sdict
            [("type", VStr "array");
             ("items", sdict
                [("type", VStr "object");
                 ("properties", sdict [("claim_type", sdict [("const", VStr "root_cause")]); ("value", text_schema);
                                       ("evidence_refs", texts_schema [("minItems", VInt 1)])]);
                 ("required", strings ["claim_type"; "value"; "evidence_refs"]); ("additionalProperties", VBool false)]);
             ("minItems", VInt 1); ("maxItems", VInt 1)]);
         ("metric_version", sdict [("const", VInt METRIC_VERSION)])]);
     ("required", strings ["schema_version"; "metric_version"; "case_id"; "status"; "root_cause"; "root_cause_candidates";
                           "evidence"; "claims"]);
     ("additionalProperties", VBool false)].

(** [collector_contract] is what [validate_live_readiness_collector_checkpoint] returns, the
    digests of the source of the collector among it. *)
Definition metric_definition_body (collector_contract : val) (result_schema_digest : string) : mapping :=
  let strings l := VList (VStr <$> l) in
  let sorted_table {A} (f : A → val) (table : list (string * A)) :=
    sdict ((λ kv : string * A, (kv.1, f kv.2)) <$> sort_keys table) in
  smapping
    [("metric_version", VInt METRIC_VERSION); ("wire_schema_version", VStr WIRE_SCHEMA_VERSION);
     ("evidence_kinds", strings EVIDENCE_KINDS);
     ("group_definitions", sdict ((λ kind, (kind, sdict
        [("group_fields", strings (sort_strings (GROUP_FIELDS kind)));
         ("sample_fields", strings (sort_strings (GROUP_SAMPLE_FIELDS kind)))])) <$> EVIDENCE_KINDS));
     ("trace_service_scope", strings V3_TRACE_QUERY_SERVICES); ("trace_activity_service_fields", strings ["trace_count"]);
     ("trace_error_service_fields", strings ["connection_error_count"; "descriptions"; "error_count"]);
     ("evidence_id_formula", VStr "sha256(case_id + NUL + metric_version + NUL + kind)[:24]");
     ("required_kinds", sorted_table strings ((λ label, (label, default [] (REQUIRED_KINDS label))) <$> ROOT_CAUSE_LABELS));
     ("distractor_rule", VStr "all evidence kinds minus required kinds");
     ("target_services", sorted_table VStr TARGET_SERVICES);
     ("root_signal_features", sorted_table (λ '(kind, field, quantum),
        sdict [("kind", VStr kind); ("field", VStr field); ("quantum", vfloat quantum)]) ROOT_SIGNAL_FEATURES);
     ("window_counts", sdict [("healthy", VInt (Z.of_nat HEALTHY_WINDOW_COUNT)); ("fault", VInt (Z.of_nat FAULT_WINDOW_COUNT))]);
     ("collector", collector_contract); ("fault_sample_interval_seconds", VInt 65);
     ("healthy_drift_formula", VStr "max(0,right-left) for four consecutive healthy pairs");
     ("healthy_drift_count_per_leave_one_out_case", VInt 124);
     ("percentile", sdict [("value", vfloat DETERMINISTIC_PERCENTILE); ("method", VStr "nearest-rank")]);
     ("quanta", sdict [("count", VInt 1); ("cpu_cores", vfloat (dec 1 6)); ("memory_bytes", VInt 4096); ("lag_seconds", vfloat (dec 1 3))]);
     ("threshold_formula", VStr ("max(nearest_rank_p99(healthy_positive_drifts)+measurement_quantum," +:+
        "relative_floor_fraction*median(five_healthy_windows))"));
     ("relative_root_signal_floors", sorted_table vfloat RELATIVE_ROOT_SIGNAL_FLOORS);
     ("incident_excess_formula", VStr "max(two_fault_windows)-median(five_healthy_windows)");
     ("comparison", VStr "greater_than_or_equal_to"); ("candidate_rule", VStr "trace_activity and root_signal both reach threshold");
     ("ranking", VStr "descending minimum standardized excess; lexical label tie-break");
     ("presence", sdict [("group_completeness", VStr "six non-empty groups, seven indexed real samples each");
                         ("top1_count", VInt 8); ("top3_maximum_count", VInt 20)]);
     ("bootstrap", sdict [("resamples", VInt (Z.of_nat BOOTSTRAP_RESAMPLES)); ("method", VStr "percentile");
                          ("cluster_key", VStr "case_id"); ("paired_key", strings ["case_id"; "repetition"])]);
     ("reference_repetitions", sdict [("initial", VInt REFERENCE_REPETITIONS); ("maximum", VInt MAX_REFERENCE_REPETITIONS);
        ("upgrade_only_when", VStr "all hard gates except deterministic-vs-live significance pass")]);
     ("live_budgets", sdict [("cumulative_input_tokens", VInt MAX_CUMULATIVE_INPUT_TOKENS);
        ("cumulative_output_tokens", VInt MAX_CUMULATIVE_OUTPUT_TOKENS); ("max_completion_tokens", VInt MAX_COMPLETION_TOKENS)]);
     ("result_schema_v3_digest", VStr result_schema_digest)].
Definition metric_definition_v3 (collector_contract : R val) (metric_version : Z) : R mapping :=
  let* _ := require_v3_metric_version metric_version in
  let* contract := collector_contract in
  let* schema_digest := digest_json RESULT_SCHEMA_V3 in
  let definition := metric_definition_body contract schema_digest in
  let* digest := digest_json (VDict definition) in
  Ok (definition ++ smapping [("metric_definition_digest", VStr digest)]).

(** *** The host *)

(** [text.splitlines()] of text whose line ends were translated *)
Definition line_end (c : ascii) : bool :=
  let n := N_of_ascii c in ((10 <=? n) && (n <=? 13) || (28 <=? n) && (n <=? 30) || (n =? 133))%N.
Fixpoint lines_from (current s : string) : list string :=
  match s with
  | "" => match current with "" => [] | _ => [str_rev "" current] end
  | String c s => if line_end c then str_rev "" current :: lines_from "" s else lines_from (String c current) s
  end.
Definition splitlines : string → list string := lines_from "".
(** [line.split()] *)
Fixpoint words_from (current s : string) : list string :=
  let word := match current with "" => [] | _ => [str_rev "" current] end in
  match s with
  | "" => word
  | String c s => if is_space c then word ++ words_from "" s else words_from (String c current) s
  end.
Definition split_words : string → list string := words_from "".
Definition key_of_line (line : string) : option string :=
  if negb (truthy (strip line)) || startswith (lstrip line) "#" then None
  else match split_words line with
       | _ :: algorithm :: key :: _ => Some (algorithm +:+ " " +:+ key)
       | _ => None
       end.
(** [known_hosts] is the text of the file, if it can be read. *)
Definition host_identity_v3 (known_hosts : option string) (kernel : string) : mapping :=
  let fingerprint := match known_hosts with
                     | None => "unavailable"
                     | Some text =>
                         match omap key_of_line (splitlines text) with
                         | [] => "unavailable"
                         | keys => sha256_hex (utf8 (str_join newline (sort_strings keys)))
                         end
                     end in
  smapping [("host_key_digest", VStr fingerprint); ("runner_kernel", VStr kernel)].

(** *** Provenance *)

(** [n.to_bytes(8, "big")] *)
Fixpoint big_endian (width : nat) (n : Z) : string :=
  match width with
  | O => ""
  | S width => big_endian width (n / 256) +:+ String (ascii_of_N (Z.to_N (n mod 256))) ""
  end.
Definition framed (bytes : string) : string := big_endian 8 (str_len bytes) +:+ bytes.
Definition file_frame (relative text : string) : string := framed (utf8 relative) +:+ framed (file_bytes text).
Section Provenance.
Context (resolve : path → path).
Definition input_files (root : path) (fs : file_system) (item : path) : R (list path) :=
  let p := resolve item in
  let* _ := from_option_or (RGovernance "provenance inputs must remain inside the repository") (relative_to p (resolve root)) in
  let plain q := negb (bool_decide (q ∈ symlinks fs)) in
  if is_dir fs p then Ok (List.filter plain (files_below fs p))
  else if is_file fs p && plain p then Ok [p]
  else Err (RGovernance ("provenance input is missing or unsupported: " +:+ path_text item)).
Definition frame_of (root : path) (fs : file_system) (p : path) : R string :=
  let* relative := from_option_or (RPython "ValueError") (relative_to p (resolve root)) in
  let* text := from_option_or (RPython "FileNotFoundError") (files fs !! p) in
  Ok (file_frame (as_posix relative) text).
Definition content_digest (root : path) (inputs : list path) (fs : file_system) : R string :=
  let* found := rmapM (input_files root fs) inputs in
  let* frames := rmapM (frame_of root fs) (sort_paths (remove_dups (concat found))) in
  Ok (sha256_hex (str_join "" frames)).

Record provenance := { producer : string; source_digest : string; dirty : bool }.
(** [head] and [status] are what git prints, by the paths asked for. *)
Definition producer_provenance (head : string) (status : list string → string) (root : path) (inputs : list path)
    (fs : file_system) : R provenance :=
  let sha := strip head in
  raise_if negb (FULL_SHA sha) with_ RGovernance "producer commit is not a full lowercase Git SHA";;
  let selected := match inputs with
                  | [] => (λ name, root ++ [name]) <$> ["src"; "deploy"; "config"; "migrations"]
                  | _ => inputs
                  end in
  let existing := List.filter (exists_ fs) selected in
  let* digest := match existing with [] => Ok (sha256_hex "") | _ => content_digest root existing fs end in
  let* relative := rmapM (λ p, from_option_or (RPython "ValueError") (relative_to (resolve p) (resolve root))) existing in
  Ok {| producer := sha; source_digest := digest; dirty := truthy (strip (status (as_posix <$> relative))) |}.
End Provenance.

Definition source_inputs_v3 (root : path) : list path :=
  (λ p, root ++ p) <$>
    [["src"; "faultwitness_dev"; "g03_readiness.py"]; ["src"; "faultwitness_dev"; "g02_lab.py"];
     ["src"; "faultwitness_dev"; "g02_baselines.py"]; ["src"; "faultwitness_dev"; "cli.py"];
     ["config"; "g03"; "baselines-v3.yaml"]; ["config"; "g02"; "lab.yaml"];
     ["docs"; "blueprint"; "AMENDMENTS"; "AMD-0007.md"]; ["docs"; "gates"; "G03"; "PLAN.md"];
     ["docs"; "runbooks"; "G03_BASELINE_READINESS.md"]; ["tests"; "g03"; "test_g03_readiness.py"]].

(** *** The laboratory *)

(** [FULL_DIGEST_REFERENCE.fullmatch(reference)] *)
Definition pinned (reference : string) : bool :=
  let n := (String.length reference - 72)%nat in
  (1 <=? n)%nat && str_all (λ c, negb (is_space c || Ascii.eqb c "@")) (str_take n reference) &&
  startswith (str_drop n reference) "@sha256:" && full_hex 64 (str_drop (n + 8) reference).
Definition image_entry (image : val) : R (string * val) :=
  match image with
  | VDict d =>
      match dget "reference" d with
      | VStr reference =>
          raise_if negb (val_is (dget "platform" d) "linux/amd64")
            with_ RGovernance "G02 lab images must declare linux/amd64 references";;
          raise_if negb (pinned reference) with_ RGovernance ("G02 lab image is not digest-pinned: " +:+ reference);;
          let name := val_str (dget "name" d) in
          Ok (name, sdict [("name", VStr name); ("reference", VStr reference)])
      | _ => Err (RGovernance "G02 lab images must declare linux/amd64 references")
      end
  | _ => Err (RGovernance "G02 lab image entry must be an object")
  end.
Definition image_set_digest (config : mapping) : R string :=
  match dget "images" config with
  | VList ((_ :: _) as images) =>
      let* normalized := rmapM image_entry images in
      document_digest (VList (sort_keys normalized).*2)
  | _ => Err (RGovernance "G02 lab image set is empty")
  end.
Example first_image_counts : image_set_digest (smapping [("images", VList [VNone])]) =
  Err (RGovernance "G02 lab image entry must be an object").
Proof. reflexivity. Qed.
Definition K8S_SOURCE_IMAGES : list string :=
  ["accounting"; "ad"; "cart"; "checkout"; "currency"; "email"; "flagd-ui"; "fraud-detection"; "frontend"; "frontend-proxy";
   "image-provider"; "kafka"; "load-generator"; "payment"; "postgres"; "product-catalog"; "quote"; "recommendation";
   "shipping"; "flagd"; "otel-collector"; "busybox"; "grafana"; "jaeger"; "opensearch"; "valkey"; "k8s-sidecar"; "prometheus"].
Definition validate_lab_bootstrap (config : mapping) : R mapping :=
  raise_if negb (val_is (dget "sut_release" config) SUT_RELEASE && val_is (dget "sut_commit" config) SUT_COMMIT)
    with_ RGovernance "G02 lab SUT release or commit drifted";;
  raise_if negb (hashable (dget "profile" config)) with_ RPython "TypeError";;
  raise_if negb (val_in (dget "profile" config) ["k3s"; "docker-compose-minimal"])
    with_ RGovernance "G02 lab profile is not frozen";;
  let lacks := RGovernance "G02 lab source lacks a frozen digest" in
  let* source := from_option_or lacks (as_dict (dget "source" config)) in
  raise_if negb (full_hex 64 (val_str (get_or source "sha256" (VStr "")))) with_ lacks;;
  let* digest := image_set_digest config in
  let images := match dget "images" config with VList images => images | _ => [] end in
  let* names := rmapM (λ image, let* name := py (subscript image "name") in Ok (val_str name)) images in
  let missing := List.filter (λ name, negb (bool_decide (name ∈ names))) (sort_strings K8S_SOURCE_IMAGES) in
  raise_if negb (bool_decide (missing = []))
    with_ RGovernance ("G02 lab image set lacks source replacements: " +:+ str_join ", " missing);;
  Ok (smapping [("status", VStr "pass"); ("profile", dget "profile" config); ("sut_commit", VStr SUT_COMMIT);
                ("image_count", VInt (Z.of_nat (length images))); ("image_set_digest", VStr digest)]).

Definition V3_READINESS_COLLECTOR_SOURCE_SHA256 : string :=
  "b831184cf2d95d04ee8528fb47aefa93fa64f691732a07878ccb97fec6bac93a".
Definition V3_READINESS_OBSERVER_SOURCE_SHA256 : string :=
  "9a918f3aaaf2c30db40669a65f1f9b68ce5182ca0582a6998cd67bfac378e2ac".
Definition collector_contract_body (collector observer : string) : mapping :=
  smapping
    [("checkpoint", VStr "g03-readiness-v3-label-blind-six-group-collector-v6"); ("source_sha256", VStr collector);
     ("observer_source_sha256", VStr observer); ("fault_sample_interval_seconds", VInt 65);
     ("terminal_fault_sample", VStr "retained before deadline return for metric v3 only");
     ("pod_selection", VStr "exactly one non-terminating ad pod and email pod");
     ("metric_selectors", VStr "exact pod equality; regex selectors forbidden");
     ("trace_services", VList (VStr <$> V3_TRACE_QUERY_SERVICES)); ("fault_activation_deadline_seconds", VInt 90);
     ("poll_interval_seconds", VInt 5); ("restimulate_each_poll", VBool true);
     ("recovery_observation_deadline_seconds", VInt 240); ("recovery_sample_interval_seconds", VInt 65);
     ("absent_series", VStr "reported as null and classified as infrastructure");
     ("absent_series_wait", VStr ("label-blind: a window is unscoreable until every series is present; " +:+
        "only a series still absent at the observation deadline fails the case"));
     ("ad_cpu_quiescent_max_cores", vfloat (dec 25 2)); ("ad_cpu_quiescence_deadline_seconds", VInt 240)].
(** [collector] and [observer] are the digests of the source text that runs. *)
Definition validate_live_readiness_collector_checkpoint (collector observer : string) : R val :=
  raise_if negb (String.eqb collector V3_READINESS_COLLECTOR_SOURCE_SHA256)
    with_ RGovernance "metric-v3 collector source changed without a checkpoint digest update";;
  raise_if negb (String.eqb observer V3_READINESS_OBSERVER_SOURCE_SHA256)
    with_ RGovernance "metric-v3 observer source changed without a checkpoint digest update";;
  let contract := collector_contract_body collector observer in
  let* text := from_option_or (RPython "TypeError") (dumps {| compact := true; sorted_keys := true; ascii_only := true |} (VDict contract)) in
  Ok (VDict (contract ++ smapping [("contract_digest", VStr (sha256_hex text))])).

(** *** The identity of a run

    What the machine and its tools answer: where links lead, git, the YAML reader, the
    known hosts, the kernel, and the digests of the source that runs. *)
Record machine := {
  resolve : path → path;
  git_head : string;
  git_status : list string → string;
  yaml_load : string → option val;
  known_hosts : option string;
  kernel : string;
  collector_source : string;
  observer_source : string;
}.
Definition load_data (m : machine) (fs : file_system) (p : path) : R val :=
  let unreadable := RGovernance ("cannot parse " +:+ path_text p) in
  let* text := from_option_or unreadable (files fs !! p) in
  from_option_or unreadable (if endswith (name_of p) ".json" then loads text else yaml_load m text).
Definition load_lab_config (m : machine) (root : path) (fs : file_system) : R mapping :=
  let* text := from_option_or (RPython "FileNotFoundError") (files fs !! (root ++ ["config"; "g02"; "lab.yaml"])) in
  let* document := from_option_or (RPython "YAMLError") (yaml_load m text) in
  from_option_or (RGovernance "G02 lab config must be an object") (as_dict document).
Definition definition_of (m : machine) : R mapping :=
  metric_definition_v3 (validate_live_readiness_collector_checkpoint (collector_source m) (observer_source m)) METRIC_VERSION.

Definition run_identity_v3 (m : machine) (root : path) (fs : file_system) : R mapping :=
  let* config := load_data m fs (root ++ ["config"; "g03"; "baselines-v3.yaml"]) in
  let* config := load_baseline_config_v3 config METRIC_VERSION in
  let* definition := definition_of m in
  let* provenance := producer_provenance (resolve m) (git_head m) (git_status m) root (source_inputs_v3 root) fs in
  let* state := load_data m fs (root ++ ["PROJECT_STATE.yaml"]) in
  let* lab_config := load_lab_config m root fs in
  let* lab := validate_lab_bootstrap lab_config in
  let* config_digest := digest_json config in
  let* amendment := from_option_or (RPython "FileNotFoundError")
                      (files fs !! (root ++ ["docs"; "blueprint"; "AMENDMENTS"; "AMD-0007.md"])) in
  let* definition_digest := py (subscript (VDict definition) "metric_definition_digest") in
  let* release := py (subscript state "latest_release") in
  let* commit := py (subscript release "producer_commit") in
  let* images := py (subscript (VDict lab) "image_set_digest") in
  Ok (smapping
    [("metric_version", VInt METRIC_VERSION); ("wire_schema_version", VStr WIRE_SCHEMA_VERSION);
     ("producer_sha", VStr (producer provenance)); ("relevant_source_digest", VStr (source_digest provenance));
     ("dirty_worktree", VBool (dirty provenance)); ("config_digest", VStr config_digest);
     ("amd_digest", VStr (sha256_hex (file_bytes amendment))); ("metric_definition_digest", definition_digest);
     ("checkpoint_identities", sdict [("sut_producer_sha", VStr (val_str commit));
        ("sut_image_set_digest", VStr (val_str images)); ("model_id", VStr MODEL_ID)]);
     ("host_identity", VDict (host_identity_v3 (known_hosts m) (kernel m)))]).

(** *** Resuming a run *)

Definition IDENTITY_KEYS : list string :=
  ["metric_version"; "wire_schema_version"; "producer_sha"; "relevant_source_digest"; "config_digest"; "amd_digest";
   "metric_definition_digest"; "checkpoint_identities"].
(** [x is True] and [x is False] *)
Definition is_bool (b : bool) (v : val) : bool := match v with VBool c => Bool.eqb b c | _ => false end.
Definition diagnostic_scan : readiness_exn :=
  RGovernance ("metric v3 cannot resume a diagnostic-only scan; readiness requires a " +:+
               "new empty directory and a clean 32-case replay").
Definition refuse_diagnostic (output_dir : path) (fs : file_system) : R unit :=
  if is_file fs (output_dir ++ ["preflight-summary.json"]) then
    let* probe := read_json_v3 fs (output_dir ++ ["preflight-summary.json"]) in
    raise_if is_bool true (dget "diagnostic_only" probe) || is_bool false (dget "promotable_to_gate_evidence" probe) ||
             val_is (dget "execution_status" probe) "diagnostic_scan"
      with_ diagnostic_scan;;
    Ok tt
  else Ok tt.
Definition same_identity (manifest current : mapping) (key : string) : R unit :=
  raise_if negb (py_eq (dget key manifest) (dget key current))
    with_ RGovernance ("metric v3 --resume identity mismatch: " +:+ key);;
  Ok tt.
Definition assert_resume_identity_v3 (m : machine) (root output_dir : path) (fs : file_system) : R (mapping * mapping) :=
  let* manifest := read_json_v3 fs (output_dir ++ ["run-manifest.json"]) in
  let* _ := refuse_diagnostic output_dir fs in
  let* current := run_identity_v3 m root fs in
  let* _ := rmapM (same_identity manifest current) IDENTITY_KEYS in
  let* frozen_definition := read_json_v3 fs (output_dir ++ ["metric-definition.json"]) in
  let* recomputed_definition := definition_of m in
  raise_if negb (py_eq (VDict frozen_definition) (VDict recomputed_definition))
    with_ RGovernance "metric v3 runtime definition differs from frozen preflight";;
  let scenarios_path := output_dir ++ ["scenarios.json"] in
  let* text := from_option_or (RPython "FileNotFoundError") (files fs !! scenarios_path) in
  raise_if negb (String.eqb (sha256_hex (file_bytes text))
                   (val_str (val_or (dget "scenario_artifact_digest" manifest) (VStr ""))))
    with_ RGovernance "metric v3 scenario artifact bytes changed after preflight";;
  let* scenarios := read_json_v3 fs scenarios_path in
  let* dataset_digest := dataset_digest_v3 scenarios in
  raise_if negb (val_is (dget "dataset_digest" manifest) dataset_digest)
    with_ RGovernance "metric v3 dataset digest changed after preflight";;
  raise_if val_is (dget "execution_status" scenarios) "diagnostic_scan" with_ diagnostic_scan;;
  let* preflight := read_json_v3 fs (output_dir ++ ["preflight-summary.json"]) in
  raise_if negb (val_is (dget "preflight_status" preflight) "pass")
    with_ RGovernance "metric v3 live cannot resume a blocked preflight";;
  Ok (manifest, scenarios).

(** *** What a run is admitted to do

    The checks of [run_retest_baselines_v3] before it measures anything. *)
Record request := {
  skip_live : bool;
  resume : bool;
  repetitions : option Z;
  metric_version : Z;
  continue_on_case_failure : bool;
  inherit_from : option path;    (* made absolute *)
}.
Definition admit_request (m : machine) (root output_dir : path) (r : request) (fs : file_system) : R path :=
  let* _ := require_v3_metric_version (metric_version r) in
  raise_if Bool.eqb (skip_live r) (resume r) with_ RGovernance "metric v3 requires exactly one of --skip-live or --resume";;
  let inherits := bool_decide (is_Some (inherit_from r)) in
  raise_if inherits && negb (skip_live r) with_ RGovernance "metric v3 trial inheritance applies only to a preflight";;
  raise_if inherits && continue_on_case_failure r
    with_ RGovernance "metric v3 diagnostic scan cannot inherit trials; it is never gate evidence";;
  raise_if continue_on_case_failure r && negb (skip_live r)
    with_ RGovernance "metric v3 diagnostic scan requires --skip-live and cannot be resumed";;
  validate_output_dir_v3 (RunDirectory.resolve m) root output_dir (resume r) fs.
(** What a preflight does before its replay: the directory that was admitted is made, and the
    trials of an earlier run inherited. *)
Definition prepare_preflight (m : machine) (root output_dir : path) (r : request)
    : SE file_system readiness_exn (option (string * receipt)) :=
  sguard (bool_decide (is_Some (repetitions r))) (RGovernance "metric v3 preflight does not accept a repetition count");;;
  smodify (mkdir output_dir);;;
  match inherit_from r with
  | None => sret None
  | Some from =>
      let! fs := sget in
      let! source_dir := slift (validate_output_dir_v3 (RunDirectory.resolve m) root from true fs) in
      sguard (bool_decide (source_dir = output_dir))
        (RGovernance "metric v3 trial inheritance source cannot be the output directory");;;
      let! inherited := inherit_passing_trials_v3 root source_dir output_dir in
      sret (Some inherited)
  end.
(** What a live run checks before its first trial. *)
Definition admit_live (m : machine) (root output_dir : path) (r : request) (fs : file_system) : R (mapping * mapping) :=
  let five := bool_decide (repetitions r = Some MAX_REFERENCE_REPETITIONS) in
  raise_if negb (bool_decide (repetitions r = Some REFERENCE_REPETITIONS) || five)
    with_ RGovernance "metric v3 live resume requires --repetitions 3 or 5";;
  let* run := assert_resume_identity_v3 m root output_dir fs in
  if five then
    let p := output_dir ++ ["aggregate-r3.json"] in
    raise_if negb (is_file fs p) with_ RGovernance "metric v3 r5 requires a completed r3 aggregate";;
    let* aggregate := read_json_v3 fs p in
    raise_if negb (is_bool true (dget "extension_authorized" aggregate))
      with_ RGovernance "metric v3 r5 is not authorized by the frozen r3 rule";;
    Ok run
  else Ok run.

(** *** The verdict of a preflight *)

Definition preflight_blockers_v3 (presence : presence_probe) (deterministic : deterministic_matrix) (tokens : preflight)
    (deterministic_ci : option interval) : list string :=
  let when_ (b : bool) (blocker : string) : list string := if b then [blocker] else [] in
  when_ (negb (probe_passes presence)) "leak_not_eliminated" ++
  when_ (negb (bool_decide (dm_ambiguous deterministic = []))) "ambiguous_cases" ++
  when_ (negb (bool_decide (length (dm_rows deterministic) = 32%nat))) "deterministic_N_below_32" ++
  when_ (negb (pf_passes tokens)) "four_turn_token_headroom" ++
  when_ (match deterministic_ci with Some i => deq (estimate i) one | None => false end)
    "deterministic_core_e2e_exactly_1_000".
Definition preflight_reason (blockers : list string) : option string :=
  match blockers with
  | [] => None
  | _ => Some (if bool_decide (blockers = ["deterministic_core_e2e_exactly_1_000"]) then "dataset_too_easy" else "unclassified")
  end.

(** ** The inventory of metric versions *)

Record occurrence := { oc_path : string; oc_line : nat; oc_class : string; oc_source : string }.
Definition classification (relative line : string) : string :=
  let has token := str_contains token line in
  let starts prefix := startswith (strip line) prefix in
  if startswith relative "tests/" then "test-only"
  else if starts "METRIC_VERSION =" || starts "LEGACY_METRIC_VERSION =" || starts "REGISTERED_METRIC_VERSIONS ="
    then "version declaration"
  else if has "WIRE_SCHEMA" || has "schema_version" then "wire-schema selection"
  else if has "RESULT_SCHEMA" || has "validate_result" then "result-schema selection"
  else if has (quote +:+ "metric_version" +:+ quote) || has "'metric_version'" then "artifact metadata"
  else "entry dispatcher".
Definition mentions_version (line : string) : bool :=
  str_contains "METRIC_VERSION" line || str_contains "metric_version" line.
Definition line_occurrence (relative : string) (numbered : nat * string) : option occurrence :=
  let '(number, line) := numbered in
  if mentions_version line then
    Some {| oc_path := relative; oc_line := S number; oc_class := classification relative line; oc_source := strip line |}
  else None.
Definition file_occurrences (root : path) (fs : file_system) (p : path) : R (list occurrence) :=
  let* relative := from_option_or (RPython "ValueError") (relative_to p root) in
  let* text := from_option_or (RPython "FileNotFoundError") (files fs !! p) in
  let lines := splitlines text in
  Ok (omap (line_occurrence (as_posix relative)) (zip (seq 0 (length lines)) lines)).
Definition python_files (fs : file_system) (base : path) : list path :=
  List.filter (λ p, endswith (name_of p) ".py") (files_below fs base).
Definition build_version_routing_inventory (root : path) (fs : file_system)
    : R (list occurrence * list (string * nat)) :=
  let* found := rmapM (file_occurrences root fs) (python_files fs (root ++ ["src"]) ++ python_files fs (root ++ ["tests"])) in
  let occurrences := concat found in
  Ok (occurrences, sort_keys (foldl (λ counts o, count_label (oc_class o) counts) [] occurrences)).
