(* ===== verification/RunDirectoryTheorems.v ===== *)
(** * Theorems on the directory of a readiness run

    Equal source digests are digests of the same files; recording a run in the ledger again
    replaces its entry; only passing trials are inherited, byte for byte; an accepted output
    directory is active and below the readiness root; a resumed run is the one its preflight
    froze, whichever host resumes it. *)
From Stdlib Require Import Ascii.
From S2P Require Import Prelude Json JsonFacts Sha256 PyDyn PyFloat Packet Scoring Lab LabTheorems Matrix Thresholds Reference LiveAdapter RunDirectory.

(** ** The digest of the sources *)

Lemma big_endian_length w n : String.length (big_endian w n) = w.
Proof.
  revert n; induction w as [|w IH]; intros n; [done|]. cbn [big_endian]. rewrite string_app_length, IH. cbn. lia.
Qed.
Lemma big_endian_inj w a b :
  (0 <= a < 256 ^ Z.of_nat w)%Z → (0 <= b < 256 ^ Z.of_nat w)%Z → big_endian w a = big_endian w b → a = b.
Proof.
  revert a b; induction w as [|w IH]; intros a b Ha Hb H; [change (256 ^ Z.of_nat 0)%Z with 1%Z in *; lia|].
  cbn [big_endian] in H. apply string_app_inj_len in H as [Hq [= Hr]]; [|by rewrite !big_endian_length].
  rewrite Nat2Z.inj_succ, Z.pow_succ_r in Ha, Hb by lia.
  assert (a / 256 = b / 256)%Z as E.
  { apply IH; [..|exact Hq]; (split; [apply Z.div_pos; lia|apply Z.div_lt_upper_bound; lia]). }
  apply (f_equal N_of_ascii) in Hr. rewrite !N_ascii_embedding in Hr by
    (apply N2Z.inj_lt; rewrite Z2N.id by (apply Z.mod_pos_bound; lia); apply Z.mod_pos_bound; lia).
  apply Z2N.inj in Hr; [|apply Z.mod_pos_bound; lia..].
  rewrite (Z.div_mod a 256), (Z.div_mod b 256) by lia. by rewrite E, Hr.
Qed.

(** The length of a name or a file fits its eight bytes. *)
Definition fits (bytes : string) : Prop := (str_len bytes < 256 ^ 8)%Z.
Lemma framed_app_inj a b s t : fits a → fits b → framed a +:+ s = framed b +:+ t → a = b ∧ s = t.
Proof.
  unfold fits, framed, str_len. intros Ha Hb H. rewrite <-!string_app_assoc in H.
  apply string_app_inj_len in H as [Hl H]; [|by rewrite !big_endian_length].
  apply big_endian_inj in Hl; [|change (Z.of_nat 8) with 8%Z; lia..].
  apply string_app_inj_len in H; [done|lia].
Qed.
Lemma str_concat_cons x xs : str_join "" (x :: xs) = x +:+ str_join "" xs.
Proof. destruct xs; cbn; by rewrite ?string_app_nil_r. Qed.
Lemma framed_nonempty a s : framed a +:+ s ≠ "".
Proof.
  intros H. apply (f_equal String.length) in H. unfold framed in H. rewrite !string_app_length, big_endian_length in H.
  cbn in H. lia.
Qed.

(** A file that is digested: its name in the repository, and its text *)
Abbreviation source_file := (string * string)%type.
Definition frame (f : source_file) : string := file_frame f.1 f.2.
Definition fits_frame (f : source_file) : Prop := fits (utf8 f.1) ∧ fits (file_bytes f.2).
Lemma frames_inj (xs ys : list source_file) : Forall fits_frame xs → Forall fits_frame ys →
  str_join "" (frame <$> xs) = str_join "" (frame <$> ys) → xs = ys.
Proof.
  intros Hxs. revert ys. induction Hxs as [|x xs [Hn Ht] Hxs IH]; intros ys Hys H.
  - destruct ys as [|y ys]; [done|]. exfalso. rewrite fmap_cons, str_concat_cons in H. symmetry in H.
    unfold frame, file_frame in H. rewrite <-!string_app_assoc in H. by apply framed_nonempty in H.
  - destruct Hys as [|y ys [Hn' Ht'] Hys]; rewrite !fmap_cons, str_concat_cons in H; unfold frame at 1, file_frame in H;
      rewrite <-!string_app_assoc in H.
    + by apply framed_nonempty in H.
    + rewrite str_concat_cons in H. unfold frame at 2, file_frame in H. rewrite <-!string_app_assoc in H.
      apply framed_app_inj in H as [En H]; [|done..]. apply framed_app_inj in H as [Et H]; [|done..].
      f_equal; [|by apply IH]. destruct x, y. f_equal; by apply utf8_inj.
Qed.

(** The files a digest reads, in its order *)
Section Sources.
Context (resolve : path → path).
Definition source_of (root : path) (fs : file_system) (p : path) : R source_file :=
  let* relative := from_option_or (RPython "ValueError") (relative_to p (resolve root)) in
  let* text := from_option_or (RPython "FileNotFoundError") (files fs !! p) in
  Ok (as_posix relative, text).
Definition sources (root : path) (inputs : list path) (fs : file_system) : R (list source_file) :=
  let* found := rmapM (input_files resolve root fs) inputs in
  rmapM (source_of root fs) (sort_paths (remove_dups (concat found))).
Lemma frames_of_sources root fs ps : rmapM (frame_of resolve root fs) ps = rmap (fmap frame) (rmapM (source_of root fs) ps).
Proof.
  assert (∀ p, frame_of resolve root fs p = rmap frame (source_of root fs p)) as E.
  { intros p. unfold frame_of, source_of. destruct (relative_to p (resolve root)); [|done]. by destruct (files fs !! p). }
  induction ps as [|p ps IH]; [done|]. cbn [rmapM]. rewrite IH, E. destruct (source_of root fs p); [|done]. cbn.
  by destruct (rmapM (source_of root fs) ps).
Qed.
Lemma content_digest_sources root inputs fs : content_digest resolve root inputs fs =
  rmap (λ ss, sha256_hex (str_join "" (frame <$> ss))) (sources root inputs fs).
Proof.
  unfold content_digest, sources. destruct (rmapM (input_files resolve root fs) inputs); [|done]. cbn [rbind].
  rewrite frames_of_sources. by destruct (rmapM (source_of root fs) _).
Qed.
End Sources.

(** Two digests of sources that are equal were taken of the same files with the same
    names and the same bytes, in whichever repositories, unless SHA-256 collides. *)
Theorem equal_source_digests_same_files resolve resolve' root root' inputs inputs' fs fs' ss ss' d :
  sources resolve root inputs fs = Ok ss → sources resolve' root' inputs' fs' = Ok ss' →
  Forall fits_frame ss → Forall fits_frame ss' →
  content_digest resolve root inputs fs = Ok d → content_digest resolve' root' inputs' fs' = Ok d →
  ss = ss' ∨ sha256_collision (str_join "" (frame <$> ss)) (str_join "" (frame <$> ss')).
Proof.
  intros Hs Hs' Hf Hf'. rewrite !content_digest_sources, Hs, Hs'. intros [= <-] [= E].
  destruct (sha256_equal_or_collision _ _ (eq_sym E)) as [H|?]; [left|by right]. by apply frames_inj.
Qed.

(** ** The ledger *)

Definition other_run (run_name : string) (entry : val) : bool :=
  match entry with VDict d => negb (val_in (dget "run" d) ["metric-v3-frozen"; run_name]) | _ => false end.
Lemma kept_others run_name entries kept : rfilter (keeps_entry run_name) entries = Ok kept →
  kept = List.filter (other_run run_name) entries.
Proof.
  revert kept; induction entries as [|e entries IH]; intros kept H; cbn in H; [by res_inv|].
  destruct (keeps_entry run_name e) as [keep|] eqn:He; [|done]. cbn in H. res_inv. cbn [List.filter]. rewrite <-(IH _ eq_refl).
  assert (other_run run_name e = keep) as ->; [|done].
  unfold keeps_entry in He. destruct e; cbn in He; res_inv; done.
Qed.
Lemma others_kept run_name entries : Forall (λ e, ∃ b, keeps_entry run_name e = Ok b) entries →
  rfilter (keeps_entry run_name) entries = Ok (List.filter (other_run run_name) entries).
Proof.
  induction 1 as [|e entries [b Hb] _ IH]; [done|]. cbn. rewrite Hb, IH. cbn.
  assert (other_run run_name e = b) as ->; [|done].
  unfold keeps_entry in Hb. destruct e; cbn in Hb; res_inv; done.
Qed.
Lemma entry_is_known run_name other status cost :
  ∃ b, keeps_entry run_name (ledger_entry other status cost) = Ok b.
Proof. eexists. reflexivity. Qed.

Lemma own_entry_is_dropped run_name status cost : other_run run_name (ledger_entry run_name status cost) = false.
Proof.
  change (negb (bool_decide (run_name = "metric-v3-frozen") || (bool_decide (run_name = run_name) || false)) = false).
  rewrite (bool_decide_eq_true_2 (run_name = run_name)) by done. by destruct (bool_decide _).
Qed.
Lemma filter_others run_name entries status cost :
  List.filter (other_run run_name) (List.filter (other_run run_name) entries ++ [ledger_entry run_name status cost]) =
  List.filter (other_run run_name) entries.
Proof.
  rewrite List.filter_app. cbn [List.filter]. rewrite own_entry_is_dropped, app_nil_r.
  induction entries as [|e entries IH]; [done|]. cbn [List.filter]. destruct (other_run run_name e) eqn:E; [|done].
  cbn [List.filter]. by rewrite E, IH.
Qed.

Lemma dset_dset k v w d : dset k v (dset k w d) = dset k v d.
Proof.
  induction d as [|[k' x] d IH]; cbn; [by rewrite bool_decide_eq_true_2|].
  destruct (is_key k k') eqn:E; cbn; rewrite E; [done|by rewrite IH].
Qed.
Lemma dset_swap k k' v w d : k ≠ k' → dfind k d ≠ None → dset k v (dset k' w d) = dset k' w (dset k v d).
Proof.
  intros Hk. induction d as [|[k0 x] d IH]; intros Hin; [done|]. cbn in *.
  destruct (is_key k k0) eqn:E, (is_key k' k0) eqn:E'; cbn; rewrite ?E, ?E'; try done.
  - destruct k0; try done. cbn in E, E'. apply bool_decide_eq_true in E, E'. congruence.
  - by rewrite IH.
Qed.

(** What an update of the ledger does, when it succeeds *)
Lemma ledger_updated ledger run_name status cost ledger' : updated_ledger ledger run_name status cost = Ok ledger' →
  ∃ entries costs, dget "entries" ledger = VList entries ∧
    Forall (λ e, ∃ b, keeps_entry run_name e = Ok b) entries ∧
    let all := List.filter (other_run run_name) entries ++ [ledger_entry run_name status cost] in
    rmapM entry_cost all = Ok costs ∧
    ledger' = dset "total_cost" (vfloat (round6 (double_sum costs))) (dset "entries" (VList all) ledger).
Proof.
  unfold updated_ledger. destruct (dget "entries" ledger) as [| | | | |entries| |] eqn:E; try done. intros H. res_inv.
  rename E0 into Hkept, E1 into Hcosts. exists entries. eexists. split; [done|]. split.
  - clear -Hkept. revert a Hkept. induction entries as [|e entries IH]; intros kept H; [constructor|]. cbn in H. res_inv.
    constructor; [eauto|by eapply IH].
  - pose proof (kept_others _ _ _ Hkept) as ->. cbn zeta. by split.
Qed.

(** When the ledger is updated its entries are those of the other runs, in their order,
    and one entry for the run with its status and rounded cost, at the end; the total is the
    rounded sum of the costs of these entries, and the other fields stay. *)
Theorem recorded_run_has_one_entry ledger run_name status cost ledger' :
  updated_ledger ledger run_name status cost = Ok ledger' →
  ∃ entries costs, dget "entries" ledger = VList entries ∧
    let all := List.filter (other_run run_name) entries ++ [ledger_entry run_name status cost] in
    dget "entries" ledger' = VList all ∧ Forall2 (λ e x, entry_cost e = Ok x) all costs ∧
    dget "total_cost" ledger' = vfloat (round6 (double_sum costs)) ∧
    ∀ k, k ≠ "entries" → k ≠ "total_cost" → dget k ledger' = dget k ledger.
Proof.
  intros (entries & costs & He & _ & Hc & ->)%ledger_updated. exists entries, costs. cbn zeta. unfold dget. split_and!.
  - exact He.
  - rewrite dfind_dset_other by done. by rewrite dfind_dset_same.
  - by apply rmapM_ok.
  - by rewrite dfind_dset_same.
  - intros k Hk Hk'. by rewrite !dfind_dset_other by congruence.
Qed.

(** Recording a run again replaces its entry: the ledger is the one that a single
    recording with the last status and cost makes. *)
Theorem recording_again_replaces ledger run_name status cost ledger' status' cost' :
  updated_ledger ledger run_name status cost = Ok ledger' →
  updated_ledger ledger' run_name status' cost' = updated_ledger ledger run_name status' cost'.
Proof.
  intros (entries & costs & He & Hk & _ & ->)%ledger_updated. unfold updated_ledger.
  set (all := _ ++ _). rewrite He.
  assert (∀ total, dget "entries" (dset "total_cost" total (dset "entries" (VList all) ledger)) = VList all) as ->.
  { intros total. unfold dget. rewrite dfind_dset_other by done. by rewrite dfind_dset_same. }
  cbv beta iota. rewrite (others_kept _ entries Hk), (others_kept _ all).
  - cbn [rbind]. unfold all. rewrite filter_others. destruct (rmapM entry_cost _); [|done]. cbn [rbind]. f_equal.
    rewrite (dset_swap "entries" "total_cost") by (rewrite ?dfind_dset_same; done). by rewrite !dset_dset.
  - unfold all. apply Forall_app. split; [|constructor; [apply entry_is_known|constructor]].
    apply Forall_forall. intros e [Hin _]%list_elem_of_In%List.filter_In. apply (proj1 (Forall_forall _ _) Hk).
    by apply list_elem_of_In.
Qed.

(** ** Inherited trials *)

(** A trial record whose status is [pass] *)
Definition passing (fs : file_system) (p : path) : bool :=
  match read_json_v3 fs p with Ok record => bool_decide (val_str (get_or record "status" (VStr "")) = "pass") | _ => false end.
Definition receipt_row (fs : file_system) (p : path) : string * string * string :=
  match read_json_v3 fs p with
  | Ok record => (val_str (dget "trial_id" record), val_str (dget "cache_key" record),
                  val_str (get_or record "artifact_digest" (VStr "")))
  | _ => ("", "", "")
  end.
Definition copied (destination : path) (fs : file_system) (m : gmap path string) (p : path) : gmap path string :=
  <[destination ++ [name_of p] := default "" (files fs !! p)]> m.

Lemma read_json_same fs fs' p : files fs !! p = files fs' !! p → read_json_v3 fs p = read_json_v3 fs' p.
Proof. unfold read_json_v3. by intros ->. Qed.

Section Inherit.
Context (fs0 : file_system) (destination : path).

(** One record, read in a state where it is as it was at the start *)
Lemma inherit_trial_spec r p fs r' fs' :
  files fs !! p = files fs0 !! p → inherit_trial destination r p fs = (Ok r', fs') →
  (passing fs0 p = true ∧ inherited_trials r' = inherited_trials r ++ [receipt_row fs0 p] ∧
     not_inherited r' = not_inherited r ∧ fs' = put_file (destination ++ [name_of p]) (default "" (files fs0 !! p)) fs) ∨
  (passing fs0 p = false ∧ inherited_trials r' = inherited_trials r ∧
     (∃ row, not_inherited r' = not_inherited r ++ [row] ∧ row.2 ≠ "pass") ∧ fs' = fs).
Proof.
  intros Hp H. unfold inherit_trial in H. cbn [sbind sget slift] in H. unfold sbind, slift in H.
  rewrite (read_json_same _ fs0 p Hp) in H.
  destruct (read_json_v3 fs0 p) as [record|] eqn:E; [|done].
  destruct (bool_decide _) eqn:Es; cbn in H.
  - left. destruct (dfind "trial_id" record) as [trial|] eqn:Et; [|done]. cbn in H.
    destruct (dfind "cache_key" record) as [key|] eqn:Ek; [|done]. cbn in H. injection H as <- <-.
    unfold passing, receipt_row, dget. rewrite E, Es, Hp, Et, Ek. by cbn.
  - right. injection H as <- <-. unfold passing. rewrite E. split; [done|]. cbn. split; [done|]. split; [|done].
    eexists. split; [reflexivity|]. cbn. by apply bool_decide_eq_false in Es.
Qed.

Lemma inherit_loop_spec ps : ∀ r fs r' fs', (∀ p n, p ∈ ps → p ≠ destination ++ [n]) →
  (∀ p, p ∈ ps → files fs !! p = files fs0 !! p) → inherit_loop destination r ps fs = (Ok r', fs') →
  inherited_trials r' = inherited_trials r ++ (receipt_row fs0 <$> List.filter (passing fs0) ps) ∧
  (∃ skipped, not_inherited r' = not_inherited r ++ skipped ∧ Forall (λ row, row.2 ≠ "pass") skipped ∧
     length skipped = length (List.filter (λ p, negb (passing fs0 p)) ps)) ∧
  files fs' = foldl (copied destination fs0) (files fs) (List.filter (passing fs0) ps).
Proof.
  induction ps as [|p ps IH]; intros r fs r' fs' Hne Hag H.
  - injection H as <- <-. cbn. rewrite app_nil_r. split; [done|]. split; [|done]. exists []. by rewrite app_nil_r.
  - cbn [inherit_loop] in H. unfold sbind in H. destruct (inherit_trial destination r p fs) as [[r1|] fs1] eqn:E1; [|done].
    apply inherit_trial_spec in E1; [|apply Hag; left].
    assert (∀ q n, q ∈ ps → q ≠ destination ++ [n]) as Hne' by (intros q n Hq; apply Hne; by right).
    assert (∀ q, q ∈ ps → files fs1 !! q = files fs0 !! q) as Hag'.
    { intros q Hq. destruct E1 as [(_ & _ & _ & ->)|(_ & _ & _ & ->)]; [|apply Hag; by right].
      cbn. rewrite lookup_insert_ne by (intros <-; by eapply Hne'). apply Hag. by right. }
    apply IH in H as (Hi' & (skipped & Hn' & Hs & Hl) & Hf); [|done..]. cbn [List.filter].
    destruct E1 as [(Hpass & Hi & Hn & Hfs)|(Hpass & Hi & (row & Hn & Hrow) & Hfs)]; rewrite Hpass; cbn [negb].
    + split; [by rewrite Hi', Hi, fmap_cons, <-app_assoc|]. split; [exists skipped; by rewrite Hn', Hn|].
      rewrite Hf, Hfs. reflexivity.
    + split; [by rewrite Hi', Hi|]. split; [|by rewrite Hf, Hfs]. exists (row :: skipped). rewrite Hn', Hn, <-app_assoc.
      split; [done|]. split; [by constructor|]. cbn [length]. by rewrite Hl.
Qed.

(** Where a file of the result comes from *)
Lemma copied_lookup ps m q text : foldl (copied destination fs0) m ps !! q = Some text →
  m !! q = Some text ∨ ∃ p, p ∈ ps ∧ q = destination ++ [name_of p] ∧ text = default "" (files fs0 !! p).
Proof.
  revert m; induction ps as [|p ps IH]; intros m H; [by left|]. cbn in H. apply IH in H as [H|(p' & Hp & -> & ->)].
  - unfold copied in H. destruct (decide (q = destination ++ [name_of p])) as [->|Hne].
    + rewrite lookup_insert_eq in H. injection H as <-. right. exists p. split; [left|done].
    + rewrite lookup_insert_ne in H by done. by left.
  - right. exists p'. split; [by right|done].
Qed.
(** Records of different names are all copied. *)
Lemma copied_all ps m p : (∀ a b, a ∈ ps → b ∈ ps → name_of a = name_of b → a = b) → p ∈ ps →
  foldl (copied destination fs0) m ps !! (destination ++ [name_of p]) = Some (default "" (files fs0 !! p)).
Proof.
  induction ps as [|q ps IH] using rev_ind; intros Hinj Hp; [by apply not_elem_of_nil in Hp|].
  rewrite foldl_app. cbn [foldl]. unfold copied at 1. destruct (decide (name_of q = name_of p)) as [E|Hne].
  - rewrite (Hinj q p) by (done || (apply elem_of_app; right; left)). apply lookup_insert_eq.
  - rewrite lookup_insert_ne by (intros [_ [=]]%app_inj_tail; done). apply IH.
    + intros a b Ha Hb. apply Hinj; apply elem_of_app; by left.
    + apply elem_of_app in Hp as [Hp|Hp]; [done|]. apply list_elem_of_singleton in Hp as ->. done.
Qed.
End Inherit.

Lemma json_files_below fs p q : q ∈ json_files fs p → q ≠ [] ∧ removelast q = p.
Proof.
  intros Hin%sort_by_elem%list_elem_of_In%List.filter_In. destruct Hin as [Hin _]. unfold children in Hin.
  apply List.filter_In in Hin as [_ H%bool_decide_eq_true]. done.
Qed.
Lemma json_files_named fs p q : q ∈ json_files fs p → q = p ++ [name_of q].
Proof.
  intros H. apply json_files_below in H as [Hne <-]. destruct q as [|n q _] using rev_ind; [done|].
  unfold name_of. by rewrite removelast_last, last_snoc.
Qed.
(** The records an inheritance reads *)
Definition records_of (source_dir output_dir : path) (fs : file_system) : list path :=
  json_files (mkdir (trials_path output_dir) fs) (trials_path source_dir).


(** ** The output directory *)

Lemma relative_to_some p base r : relative_to p base = Some r ↔ p = base ++ r.
Proof.
  revert p; induction base as [|b base IH]; intros p; [destruct p; cbn; split; congruence|].
  destruct p as [|a p]; cbn; [done|]. case_bool_decide; subst; [rewrite IH; split; congruence|split; congruence].
Qed.
Lemma before_prefix stop n : ∀ p k, length p - n ≤ k ≤ length p → (∀ j, k ≤ j ≤ length p → take j p ≠ stop) →
  take k p ∈ before stop (parents n p).
Proof.
  induction n as [|n IH]; intros p k Hk Hstop; cbn [parents before].
  - replace k with (length p) in * by lia. pose proof (Hstop (length p) ltac:(lia)) as Hp.
    rewrite firstn_all in *. rewrite bool_decide_eq_false_2 by done. left.
  - pose proof (Hstop (length p) ltac:(lia)) as Hp. rewrite firstn_all in Hp. rewrite bool_decide_eq_false_2 by done.
    destruct (decide (k = length p)) as [->|Hne]; [rewrite firstn_all; left|right].
    assert (∀ j, j < length p → take j (removelast p) = take j p) as Ht.
    { intros j Hj. rewrite removelast_firstn_len, firstn_firstn. f_equal. lia. }
    assert (length (removelast p) = pred (length p)) as Hl by (rewrite removelast_firstn_len, length_firstn; lia).
    rewrite <-Ht by lia. apply IH; [lia|]. intros j Hj. rewrite Ht by lia. apply Hstop. lia.
Qed.

(** An output directory that is accepted lies strictly below the readiness root; no part
    of its name below the root marks it invalidated, no directory from it up to the root holds
    an invalidation notice, and it is not under the directory of the invalidated runs.  A run
    that resumes has its manifest, and a new run has an empty directory or none. *)
Theorem accepted_output_directory_is_active resolve root output_dir resume fs candidate :
  resolve (readiness_path root) ≠ [] → validate_output_dir_v3 resolve root output_dir resume fs = Ok candidate →
  let readiness_root := resolve (readiness_path root) in
  candidate = resolve output_dir ∧
  (∃ part parts, candidate = readiness_root ++ part :: parts ∧ Forall (λ p, invalidated_name p = false) (part :: parts)) ∧
  (∀ k, length readiness_root ≤ k ≤ length candidate → is_file fs (take k candidate ++ ["INVALIDATION.md"]) = false) ∧
  (∀ below, candidate ≠ resolve (readiness_root ++ ["invalidated"]) ++ below) ∧
  (if resume then is_file fs (candidate ++ ["run-manifest.json"]) = true
   else exists_ fs candidate = false ∨ (is_dir fs candidate = true ∧ children fs candidate = [])).
Proof.
  intros Hrr H. unfold validate_output_dir_v3 in H. set (rr := resolve (readiness_path root)) in *.
  destruct (relative_to (resolve output_dir) rr) as [relative|] eqn:Er; [|done]. cbn [from_option_or rbind] in H.
  destruct (bool_decide (_ = rr)) eqn:Eroot; [done|]. destruct (existsb invalidated_name relative) eqn:Einv; [done|].
  destruct (existsb (holds_invalidation fs) _) eqn:Eup; [done|]. destruct (bool_decide (is_Some _)) eqn:Eunder; [done|].
  apply relative_to_some in Er. apply bool_decide_eq_false in Eroot, Eunder.
  assert (candidate = resolve output_dir) as ->.
  { destruct resume; res_inv; congruence. }
  split_and!; [done| | | |].
  - destruct relative as [|part parts]; [by rewrite app_nil_r in Er|]. exists part, parts. split; [done|].
    apply Forall_forall. intros p Hp. destruct (invalidated_name p) eqn:E; [|done].
    rewrite <-Einv. symmetry. apply existsb_exists. exists p. split; [by apply list_elem_of_In|done].
  - intros k Hk. apply not_true_is_false. intros E. enough (existsb (holds_invalidation fs) (before (removelast rr) (self_and_parents (resolve output_dir))) = true) by congruence. apply existsb_exists.
    exists (take k (resolve output_dir)). split; [|exact E]. apply list_elem_of_In, before_prefix; [lia|].
    intros j Hj Heq. apply (f_equal length) in Heq. rewrite removelast_firstn_len, !length_firstn in Heq.
    destruct rr; [done|]. cbn [length] in *. lia.
  - intros below Hb. apply Eunder. exists below. by apply relative_to_some.
  - destruct resume; res_inv; bool_prop; [by destruct (is_file fs _)|].
    destruct (exists_ fs (resolve output_dir)); [right|by left]. cbn in *.
    match goal with H : negb _ || negb _ = false |- _ => apply orb_false_iff in H as [Hd Hc] end.
    apply negb_false_iff in Hd, Hc. split; [done|]. by apply bool_decide_eq_true in Hc.
Qed.

(** ** Resuming *)

Lemma is_bool_true b v : is_bool b v = true → v = VBool b.
Proof. destruct v; cbn; try done. by intros ->%Bool.eqb_prop. Qed.

(** The machine with another host under it *)
Definition on_host (hosts : option string) (k : string) (m : machine) : machine :=
  {| resolve := RunDirectory.resolve m; git_head := git_head m; git_status := git_status m; yaml_load := yaml_load m;
     known_hosts := hosts; kernel := k; collector_source := collector_source m; observer_source := observer_source m |}.
(** Two results that differ in the host identity of a mapping at most *)
Definition same_but_host (r r' : R mapping) : Prop :=
  match r, r' with
  | Ok d, Ok d' => Forall (λ k, dget k d = dget k d') IDENTITY_KEYS
  | Err e, Err e' => e = e'
  | _, _ => False
  end.
Lemma same_but_host_bind {A} (c : R A) k k' : (∀ a, same_but_host (k a) (k' a)) → same_but_host (rbind c k) (rbind c k').
Proof. by destruct c; cbn; auto. Qed.
Lemma identity_of_host hosts k m root fs : same_but_host (run_identity_v3 m root fs) (run_identity_v3 (on_host hosts k m) root fs).
Proof.
  unfold run_identity_v3. repeat (apply same_but_host_bind; intros ?). repeat (constructor; [reflexivity|]). constructor.
Qed.
Lemma same_identity_all manifest d d' keys : Forall (λ k, dget k d = dget k d') keys →
  rmapM (same_identity manifest d) keys = rmapM (same_identity manifest d') keys.
Proof. induction 1 as [|k keys Hk _ IH]; [done|]. cbn. rewrite IH. unfold same_identity. by rewrite Hk. Qed.

(** Whether a run may be resumed, and what is read back, does not depend on the host:
    neither its known keys nor its kernel, though the identity of the run records both. *)
Theorem resume_ignores_the_host hosts k m root output_dir fs :
  assert_resume_identity_v3 (on_host hosts k m) root output_dir fs = assert_resume_identity_v3 m root output_dir fs.
Proof.
  unfold assert_resume_identity_v3. destruct (read_json_v3 fs _) as [manifest|]; [|done]. cbn [rbind].
  destruct (refuse_diagnostic output_dir fs); [|done]. cbn [rbind]. pose proof (identity_of_host hosts k m root fs) as H.
  destruct (run_identity_v3 m root fs) as [d|e], (run_identity_v3 (on_host hosts k m) root fs) as [d'|e'];
    cbn in H; try done; [|by subst]. cbn [rbind]. by rewrite (same_identity_all manifest d d' _ H).
Qed.

(** A run that is resumed is the one its preflight froze: the manifest agrees with the
    present identity at every compared key, the scenarios are byte for byte those it digested
    and the dataset digest is theirs, and the preflight passed and was no diagnostic scan. *)
Theorem resumed_run_is_frozen m root output_dir fs manifest scenarios :
  assert_resume_identity_v3 m root output_dir fs = Ok (manifest, scenarios) →
  ∃ current text summary,
    run_identity_v3 m root fs = Ok current ∧ Forall (λ key, py_eq (dget key manifest) (dget key current) = true) IDENTITY_KEYS ∧
    files fs !! (output_dir ++ ["scenarios.json"]) = Some text ∧ loads text = Some (VDict scenarios) ∧
    val_str (val_or (dget "scenario_artifact_digest" manifest) (VStr "")) = sha256_hex (file_bytes text) ∧
    (∃ digest, dataset_digest_v3 scenarios = Ok digest ∧ dget "dataset_digest" manifest = VStr digest) ∧
    read_json_v3 fs (output_dir ++ ["preflight-summary.json"]) = Ok summary ∧ dget "preflight_status" summary = VStr "pass" ∧
    dget "diagnostic_only" summary ≠ VBool true ∧ dget "promotable_to_gate_evidence" summary ≠ VBool false.
Proof.
  unfold assert_resume_identity_v3. destruct (read_json_v3 fs (_ ++ ["run-manifest.json"])) as [manifest'|]; [|done].
  cbn [rbind]. destruct (refuse_diagnostic output_dir fs) as [u|] eqn:Ed; [|done]. cbn [rbind].
  destruct (run_identity_v3 m root fs) as [current|]; [|done]. cbn [rbind].
  destruct (rmapM _ IDENTITY_KEYS) as [us|] eqn:Ekeys; [|done]. cbn [rbind].
  destruct (read_json_v3 fs (_ ++ ["metric-definition.json"])); [|done]. cbn [rbind].
  destruct (definition_of m); [|done]. cbn [rbind]. destruct (negb (py_eq _ _)); [done|].
  destruct (files fs !! (_ ++ ["scenarios.json"])) as [text|] eqn:Et; [|done]. cbn [from_option_or rbind].
  destruct (String.eqb _ _) eqn:Esha; [|done]. cbn [negb]. unfold read_json_v3 at 1. rewrite Et. cbn [from_option_or rbind].
  destruct (loads text) as [v|] eqn:El; [|done]. cbn [from_option_or rbind]. destruct (as_dict v) as [d|] eqn:Ev; [|done].
  cbn [from_option_or rbind]. destruct (dataset_digest_v3 d) as [digest|] eqn:Eds; [|done]. cbn [rbind].
  destruct (val_is _ digest) eqn:Edg; [|done]. cbn [negb]. destruct (val_is _ "diagnostic_scan"); [done|].
  destruct (read_json_v3 fs (_ ++ ["preflight-summary.json"])) as [summary|] eqn:Es; [|done]. cbn [rbind].
  destruct (val_is _ "pass") eqn:Ep; [|done]. cbn [negb]. intros [= <- <-]. exists current, text, summary.
  apply val_is_true in Edg, Ep. apply String.eqb_eq in Esha. destruct v; try done. injection Ev as <-.
  unfold refuse_diagnostic in Ed. assert (is_file fs (output_dir ++ ["preflight-summary.json"]) = true) as Hf.
  { unfold is_file. apply bool_decide_eq_true. unfold read_json_v3 in Es. destruct (files fs !! (output_dir ++ ["preflight-summary.json"])); [by eexists|done]. }
  rewrite Hf, Es in Ed. cbn [rbind] in Ed. destruct (is_bool true _ || _ || _) eqn:Eb; [done|].
  apply orb_false_iff in Eb as [[Ed1 Ed2]%orb_false_iff _]. split_and!; try done.
  - apply rmapM_ok in Ekeys. apply Forall_forall. intros key Hin.
    destruct (proj1 (list_elem_of_lookup _ _) Hin) as [i Hi]. destruct (Forall2_lookup_l _ _ _ _ _ Ekeys Hi) as (y & _ & Hy).
    unfold same_identity in Hy. by destruct (py_eq _ _).
  - by exists digest.
  - intros E. by rewrite E in Ed1.
  - intros E. by rewrite E in Ed2.
Qed.

(** Five repetitions run only after a three-repetition aggregate that authorizes the
    extension, and no other count than three or five runs. *)
Theorem extension_needs_authorization m root output_dir r fs run : admit_live m root output_dir r fs = Ok run →
  assert_resume_identity_v3 m root output_dir fs = Ok run ∧
  (repetitions r = Some 3%Z ∨
   repetitions r = Some 5%Z ∧ ∃ aggregate, read_json_v3 fs (output_dir ++ ["aggregate-r3.json"]) = Ok aggregate ∧
     dget "extension_authorized" aggregate = VBool true).
Proof.
  unfold admit_live. destruct (negb _) eqn:E; [done|].
  destruct (assert_resume_identity_v3 m root output_dir fs) as [run'|]; [|done]. cbn [rbind].
  destruct (bool_decide (repetitions r = Some MAX_REFERENCE_REPETITIONS)) eqn:E5.
  - destruct (is_file fs _); [|done]. cbn [negb]. destruct (read_json_v3 fs _) as [aggregate|]; [|done]. cbn [rbind].
    destruct (is_bool true _) eqn:Eb; [|done]. intros [= ->]. split; [done|right]. split; [by apply bool_decide_eq_true in E5|].
    exists aggregate. split; [done|]. by apply is_bool_true.
  - intros [= ->]. split; [done|left]. rewrite orb_false_r in E. apply negb_false_iff in E. by apply bool_decide_eq_true in E.
Qed.

(** ** The host *)

(** A line of the known hosts: an address and the rest of the line, with the algorithm and
    the key *)
Definition host_line (row : string * string) : string := row.1 +:+ " " +:+ row.2.
Definition known_hosts_text (rows : list (string * string)) : string := str_join newline (host_line <$> rows).
(** An address is text without blanks that does not open a comment. *)
Definition address (s : string) : Prop := s ≠ "" ∧ str_all (λ c, negb (is_space c)) s = true ∧ startswith s "#" = false.
Definition one_line (s : string) : Prop := str_all (λ c, negb (line_end c)) s = true.

Lemma line_end_space c : line_end c = true → is_space c = true.
Proof. unfold line_end, is_space. intros H. by destruct c as [[][][][][][][][]]; cbn in *. Qed.

(** A line is read up to its end. *)
Lemma lines_from_line current s t : one_line s →
  lines_from current (s +:+ newline +:+ t) = str_rev "" (str_rev current s) :: lines_from "" t.
Proof.
  unfold one_line. revert current; induction s as [|c s IH]; intros current H; [done|].
  cbn in H. apply andb_true_iff in H as [Hc Hs]. apply negb_true_iff in Hc. rewrite app_cons_str. cbn. rewrite Hc. by apply IH.
Qed.
Lemma lines_from_last current s : one_line s → str_rev current s ≠ "" → lines_from current s = [str_rev "" (str_rev current s)].
Proof.
  unfold one_line. revert current; induction s as [|c s IH]; intros current H Hne.
  - cbn in *. by destruct current.
  - cbn in H. apply andb_true_iff in H as [Hc Hs]. apply negb_true_iff in Hc. cbn. rewrite Hc. by apply IH.
Qed.
Lemma str_rev_nonempty s : s ≠ "" → str_rev "" s ≠ "".
Proof. intros H E. apply H. by rewrite <-(str_rev_rev s), E. Qed.
Lemma splitlines_join lines : Forall (λ s, one_line s ∧ s ≠ "") lines → splitlines (str_join newline lines) = lines.
Proof.
  unfold splitlines. induction 1 as [|s lines [Hs Hne] _ IH]; [done|]. destruct lines as [|s' lines].
  - cbn [str_join]. rewrite lines_from_last by (auto using str_rev_nonempty). by rewrite str_rev_rev.
  - change (str_join newline (s :: s' :: lines)) with (s +:+ newline +:+ str_join newline (s' :: lines)).
    rewrite lines_from_line by done. by rewrite str_rev_rev, IH.
Qed.

Lemma lstrip_empty s : lstrip s = "" → str_all is_space s = true.
Proof. induction s as [|c s IH]; [done|]. cbn. destruct (is_space c); [exact IH|done]. Qed.
Lemma words_of_address current s t : str_all (λ c, negb (is_space c)) s = true → str_rev current s ≠ "" →
  words_from current (s +:+ " " +:+ t) = str_rev "" (str_rev current s) :: words_from "" t.
Proof.
  revert current; induction s as [|c s IH]; intros current H Hne.
  - cbn in *. by destruct current.
  - cbn in H. apply andb_true_iff in H as [Hc Hs]. apply negb_true_iff in Hc. rewrite app_cons_str. cbn. rewrite Hc. by apply IH.
Qed.
Definition key_of_rest (rest : string) : option string :=
  match split_words rest with algorithm :: key :: _ => Some (algorithm +:+ " " +:+ key) | _ => None end.
Lemma key_of_host_line a rest : address a → key_of_line (host_line (a, rest)) = key_of_rest rest.
Proof.
  intros (Hne & Ha & Hc). unfold key_of_line, host_line. cbn [fst snd].
  assert (lstrip (a +:+ " " +:+ rest) = a +:+ " " +:+ rest) as El.
  { destruct a as [|c a]; [done|]. cbn in Ha. apply andb_true_iff in Ha as [Hs _]. apply negb_true_iff in Hs.
    rewrite app_cons_str. cbn. by rewrite Hs. }
  assert (truthy (strip (a +:+ " " +:+ rest)) = true) as ->.
  { unfold truthy. apply bool_decide_eq_true. unfold strip. rewrite El. intros E. unfold rstrip in E.
    assert (lstrip (str_rev "" (a +:+ " " +:+ rest)) = "") as E'.
    { destruct (decide (lstrip (str_rev "" (a +:+ " " +:+ rest)) = "")) as [|Hn]; [done|]. by apply str_rev_nonempty in Hn. }
    apply lstrip_empty in E'. rewrite str_all_rev in E'. cbn [str_all andb] in E'. rewrite str_all_app in E'. apply andb_true_iff in E' as [E' _].
    destruct a as [|c a]; [done|]. cbn in Ha, E'. by destruct (is_space c). }
  rewrite El. assert (startswith (a +:+ " " +:+ rest) "#" = false) as ->.
  { destruct a as [|c a]; [done|]. rewrite app_cons_str. cbn in *. by destruct c as [[][][][][][][][]]. }
  cbn [negb orb]. unfold split_words. rewrite words_of_address by (auto using str_rev_nonempty). done.
Qed.

Lemma host_keys rows : Forall (λ row, address row.1 ∧ one_line row.2) rows →
  omap key_of_line (splitlines (known_hosts_text rows)) = omap (key_of_rest ∘ snd) rows.
Proof.
  intros H. unfold known_hosts_text. rewrite splitlines_join.
  - induction H as [|[a rest] rows [Ha _] _ IH]; [done|]. cbn [fmap list_fmap omap list_omap].
    rewrite (key_of_host_line a rest Ha), IH. done.
  - apply Forall_fmap. eapply Forall_impl; [exact H|]. intros [a rest] [(Hne & Ha & _) Hr]. unfold host_line, one_line in *. cbn in *. split.
    + rewrite str_all_app. apply andb_true_iff. split.
      * eapply str_all_impl, Ha. intros c. cbn. rewrite !negb_true_iff. destruct (line_end c) eqn:E; [|done].
        by rewrite (line_end_space _ E).
      * exact Hr.
    + by destruct a.
Qed.

(** The fingerprint of the host does not tell its address: two files of known hosts whose
    lines differ in the addresses alone give the same identity. *)
Theorem host_identity_hides_addresses rows rows' k :
  Forall (λ row, address row.1 ∧ one_line row.2) rows → Forall (λ row, address row.1 ∧ one_line row.2) rows' →
  rows.*2 = rows'.*2 →
  host_identity_v3 (Some (known_hosts_text rows)) k = host_identity_v3 (Some (known_hosts_text rows')) k.
Proof.
  intros H H' E. unfold host_identity_v3. rewrite (host_keys rows H), (host_keys rows' H').
  assert (∀ l : list (string * string), omap (key_of_rest ∘ snd) l = omap key_of_rest l.*2) as Eo.
  { induction l as [|x l IH]; [done|]. cbn [fmap list_fmap omap list_omap]. unfold compose at 1. by rewrite IH. }
  by rewrite !Eo, E.
Qed.

(** ** The inventory *)

(** The lines of the Python files, each with its file and its number *)
Lemma counted_total counts (os : list occurrence) :
  sum_list (foldl (λ c o, count_label (oc_class o) c) counts os).*2 = (sum_list counts.*2 + length os)%nat.
Proof.
  revert counts; induction os as [|o os IH]; intros counts; cbn [foldl length]; [lia|]. rewrite IH.
  enough (sum_list (count_label (oc_class o) counts).*2 = S (sum_list counts.*2)) by lia.
  clear. induction counts as [|[l n] counts IH]; [done|]. cbn. case_bool_decide; cbn in *; lia.
Qed.
Lemma elem_of_concat {A} (x : A) l ls : x ∈ l → l ∈ ls → x ∈ concat ls.
Proof. rewrite !list_elem_of_In. intros Hx Hl. apply in_concat. by exists l. Qed.
Definition CLASSES : list string :=
  ["test-only"; "version declaration"; "wire-schema selection"; "result-schema selection"; "artifact metadata"; "entry dispatcher"].
Lemma classification_known relative line : classification relative line ∈ CLASSES.
Proof.
  unfold classification, CLASSES. repeat (destruct (_ : bool); [apply (bool_decide_unpack _); vm_compute; reflexivity|]).
  apply (bool_decide_unpack _). vm_compute. reflexivity.
Qed.

(** The inventory lists the lines of the Python files that mention the metric version,
    every one of them and only those, each in one of six classes, and the counts of the
    classes add up to the number of lines. *)
Theorem inventory_is_complete root fs occurrences counts :
  build_version_routing_inventory root fs = Ok (occurrences, counts) →
  sum_list counts.*2 = length occurrences ∧ Forall (λ o, oc_class o ∈ CLASSES) occurrences ∧
  ∀ relative number line, mentions_version line = true →
    (∃ p text parts, p ∈ python_files fs (root ++ ["src"]) ++ python_files fs (root ++ ["tests"]) ∧ files fs !! p = Some text ∧
       relative_to p root = Some parts ∧ relative = as_posix parts ∧ splitlines text !! number = Some line) →
    {| oc_path := relative; oc_line := S number; oc_class := classification relative line; oc_source := strip line |} ∈ occurrences.
Proof.
  unfold build_version_routing_inventory. set (ps := _ ++ _). destruct (rmapM _ ps) as [found|] eqn:E; [|done]. cbn [rbind].
  intros [= <- <-]. apply rmapM_ok in E. split_and!.
  - rewrite (sum_list_perm _ _ (fmap_Permutation snd _ _ (sort_keys_perm _))), counted_total. done.
  - apply Forall_concat. eapply Forall2_Forall_r; [exact E|]. apply Forall_forall. intros p _ os Hos.
    unfold file_occurrences in Hos. res_inv. apply Forall_forall. intros o ([n line] & _ & Hl)%list_elem_of_omap.
    cbn in Hl. destruct (mentions_version line); [|done]. injection Hl as <-. apply classification_known.
  - intros relative number line Hm (p & text & parts & Hp & Ht & Hr & -> & Hl).
    destruct (proj1 (list_elem_of_lookup _ _) Hp) as [i Hi]. destruct (Forall2_lookup_l _ _ _ _ _ E Hi) as (os & Hos & Hf).
    unfold file_occurrences in Hf. rewrite Hr, Ht in Hf. cbn in Hf. injection Hf as <-.
    eapply elem_of_concat; [|by eapply list_elem_of_lookup_2].
    apply list_elem_of_omap. exists (number, line). unfold line_occurrence. rewrite Hm. split; [|done].
    apply list_elem_of_lookup. exists number. apply lookup_zip_Some. split; [|done].
    apply lookup_seq. split; [done|]. by apply lookup_lt_Some in Hl.
Qed.

(** ** The verdict of a preflight *)

Theorem preflight_passes_iff presence deterministic tokens ci :
  preflight_blockers_v3 presence deterministic tokens ci = [] ↔
  probe_passes presence = true ∧ dm_ambiguous deterministic = [] ∧ length (dm_rows deterministic) = 32 ∧
  pf_passes tokens = true ∧ ∀ i, ci = Some i → deq (estimate i) one = false.
Proof.
  unfold preflight_blockers_v3. split.
  - intros H. repeat (apply app_nil in H as [? H]).
    destruct (probe_passes presence); [|done]. destruct (bool_decide_reflect (dm_ambiguous deterministic = [])); [|done].
    destruct (bool_decide_reflect (length (dm_rows deterministic) = 32)); [|done]. destruct (pf_passes tokens); [|done].
    split_and!; [done..|]. intros i ->. by destruct (deq _ one).
  - intros (-> & Ha & Hl & -> & Hi). rewrite (bool_decide_eq_true_2 _ Ha), (bool_decide_eq_true_2 _ Hl). cbn.
    destruct ci as [i|]; [|done]. by rewrite (Hi i eq_refl).
Qed.

(** *** A small repository *)

Module DemoRun.
Definition json_text (status trial : string) : string :=
  canonical_json (sdict [("status", VStr status); ("trial_id", VStr trial); ("cache_key", VStr "k"); ("artifact_digest", VStr "d")]).
Definition source_run : path := ["r"; ".audit"; "g03-readiness"; "a"].
Definition target_run : path := ["r"; ".audit"; "g03-readiness"; "b"].
Definition fs : file_system :=
  {| files := list_to_map
       [(trials_path source_run ++ ["x.json"], json_text "pass" "x"); (trials_path source_run ++ ["y.json"], json_text "blocked" "y")];
     directories := list_to_set (self_and_parents (trials_path source_run)); symlinks := ∅ |}.
Definition inherited : receipt := {| inherited_trials := [("x", "k", "d")]; not_inherited := [("y", "blocked")] |}.
Definition after : file_system := (inherit_passing_trials_v3 ["r"] source_run target_run fs).2.
Lemma result : (inherit_passing_trials_v3 ["r"] source_run target_run fs).1 = Ok (".audit/g03-readiness/a", inherited).
Proof. vm_compute. reflexivity. Qed.
Lemma inherits :
  inherit_passing_trials_v3 ["r"] source_run target_run fs = (Ok (".audit/g03-readiness/a", inherited), after).
Proof. unfold after. rewrite <-result. apply surjective_pairing. Qed.
Definition sources_fs : file_system :=
  {| files := list_to_map [(["r"; "src"; "a.py"], "x = 1")]; directories := {[ ["r"]; ["r"; "src"] ]}; symlinks := ∅ |}.
Definition moved_fs : file_system :=
  {| files := list_to_map [(["s"; "src"; "a.py"], "x = 1")]; directories := {[ ["s"]; ["s"; "src"] ]}; symlinks := ∅ |}.
Lemma sources_found : sources id ["r"] [["r"; "src"]] sources_fs = Ok [("src/a.py", "x = 1")].
Proof. vm_compute. reflexivity. Qed.
Lemma moved_sources_found : sources id ["s"] [["s"; "src"]] moved_fs = Ok [("src/a.py", "x = 1")].
Proof. vm_compute. reflexivity. Qed.
Definition digest : string := sha256_hex (str_join "" (frame <$> [("src/a.py", "x = 1")])).
Lemma digested : content_digest id ["r"] [["r"; "src"]] sources_fs = Ok digest.
Proof. rewrite content_digest_sources, sources_found. unfold rmap, digest. cbn [rbind]. reflexivity. Qed.
Lemma digested_moved : content_digest id ["s"] [["s"; "src"]] moved_fs = Ok digest.
Proof. rewrite content_digest_sources, moved_sources_found. unfold rmap, digest. cbn [rbind]. reflexivity. Qed.
Definition ledger : mapping :=
  smapping [("entries", VList [ledger_entry "other" "ready" (dec 25 2); ledger_entry "a" "live_incomplete" (dec 1 1)])].
Definition recorded : mapping :=
  smapping [("entries", VList [ledger_entry "other" "ready" (dec 25 2); ledger_entry "a" "live_incomplete" (dec 5 1)]);
            ("total_cost", vfloat (dec 75 2))].
Lemma records : updated_ledger ledger "a" "live_incomplete" (dec 5 1) = Ok recorded.
Proof. vm_compute. reflexivity. Qed.
End DemoRun.

Lemma equal_source_digests_same_files_witness :
  content_digest id ["r"] [["r"; "src"]] DemoRun.sources_fs = Ok DemoRun.digest ∧
  ([("src/a.py", "x = 1")] = [("src/a.py", "x = 1")] ∨
   sha256_collision (str_join "" (frame <$> [("src/a.py", "x = 1")])) (str_join "" (frame <$> [("src/a.py", "x = 1")]))).
Proof.
  assert (Forall fits_frame [("src/a.py", "x = 1")]) as Hf by (constructor; [split; reflexivity|constructor]).
  split; [exact DemoRun.digested|].
  exact (equal_source_digests_same_files _ _ _ _ _ _ _ _ _ _ _ DemoRun.sources_found DemoRun.moved_sources_found Hf Hf
           DemoRun.digested DemoRun.digested_moved).
Defined.

Lemma recording_again_replaces_witness :
  updated_ledger DemoRun.recorded "a" "ready" (dec 75 2) = updated_ledger DemoRun.ledger "a" "ready" (dec 75 2).
Proof. apply (recording_again_replaces _ _ _ _ _ "ready" (dec 75 2) DemoRun.records). Defined.


Lemma accepted_output_directory_is_active_witness :
  validate_output_dir_v3 id ["r"] DemoRun.target_run false DemoRun.fs = Ok DemoRun.target_run ∧
  ∀ below, DemoRun.target_run ≠ ["r"; ".audit"; "g03-readiness"; "invalidated"] ++ below.
Proof.
  assert (validate_output_dir_v3 id ["r"] DemoRun.target_run false DemoRun.fs = Ok DemoRun.target_run) as H
    by (vm_compute; reflexivity).
  split; [exact H|]. apply (accepted_output_directory_is_active id ["r"] DemoRun.target_run false DemoRun.fs _ ltac:(done) H).
Defined.
