(* ===== verification/Observer.v ===== *)
(** * The live observer of the laboratory

    [faultwitness_dev/g02_lab.py] against a running test system: the flag client and its
    retries, the observers of metric versions 2 and 3 with their polling loops, the injection
    of a fault outside a scenario, the inventory of staged images, and the replay of the
    resource cases.

    What happens on the host is a script: [run_remote_script] answers its output or refuses.
    The scripts are told apart by what they are rendered from; their text is not modelled.
    Clocks count microseconds. *)
From Stdlib Require Import Ascii.
From S2P Require Import Prelude Json Sha256 PyDyn PyCalendar PyFloat Experiment Packet Scoring Lab Matrix Thresholds Reference RunDirectory.

(** ** The host *)

Inductive script : Type :=
| ReadFlags
| WriteFlags (body : string)              (* the text Base64 carries; answers the document read back *)
| Collect (fault_class : string) (email_pod : val) (since : Z)
| CollectV3 (since : Z)
| Checkout (allow_http_error : bool) (user_id : string)
| ProductRequest
| EmailRequest
| AdRequest
| ResetEmail.
Record remote (W : Type) := {
  run_remote_script : script → SE W readiness_exn string;
  monotonic : W → Z * W;
  utc_now : W → Z * W;
  sleep : Z → W → W;
}.
Arguments run_remote_script {W} r s.
Arguments monotonic {W} r w.
Arguments utc_now {W} r w.
Arguments sleep {W} r t w.

Definition seconds (n : Z) : Z := n * MICRO.
Definition FAULT_ACTIVATION_DEADLINE_SECONDS : Z := 90.
Definition FAULT_POLL_INTERVAL_SECONDS : Z := 5.
Definition V3_RECOVERY_OBSERVATION_DEADLINE_SECONDS : Z := 240.
Definition V3_AD_CPU_QUIESCENT_MAX_CORES : double := dec 25 2.
Definition V3_AD_CPU_QUIESCENCE_DEADLINE_SECONDS : Z := 240.
Definition FLAG_TRANSPORT_ATTEMPTS : nat := 4.
Definition FLAG_TRANSPORT_RETRY_DELAY_SECONDS : Z := 6.

Definition canonical_json (v : val) : R string := from_option_or (RPython "TypeError") (dumps utf8_style v).
Definition item (sample : mapping) (k : string) : R val := py (subscript (VDict sample) k).
Definition float_item (sample : mapping) (k : string) : R xnum := let* v := item sample k in py (val_xfloat v).
Definition is_int (n : Z) (v : val) : bool := py_eq v (VInt n).

(** [f"{x:.4f}"] *)
Definition fixed4 (x : xnum) : string :=
  match x with
  | XNaN => "nan"
  | XInf s => if s then "-inf" else "inf"
  | XFin d =>
      let '(num, den) := double_quotient d in
      let n := round_half_even (num * 10 ^ 4) den in
      (if (d.1 <? 0)%Z then "-" else "") +:+ int_repr (n / 10 ^ 4) +:+ "." +:+ padded 4 (n mod 10 ^ 4)
  end.
Example fixed4_values : (fixed4 (XFin (dec 25 2)), fixed4 (XFin (dec 123456 5))) = ("0.2500", "1.2346").
Proof. vm_compute. reflexivity. Qed.

Section Client.
Context {W : Type} (rm : remote W).

Definition clock (f : W → Z * W) : SE W readiness_exn Z := λ w, let '(t, w') := f w in (Ok t, w').
(** A script whose refusal tells nothing of what is measured.  A refusal that [keep]
    recognizes is a verdict and stays what it is. *)
Definition remote_output (keep : string → bool) (what : string) (s : script) : SE W readiness_exn string :=
  scatch (run_remote_script rm s) (λ e,
    sraise (if is_governance e && negb (keep (exn_text e))
            then RInfra (what +:+ " produced no result: " +:+ exn_text e) else e)).

(** *** [RemoteFlagClient] *)

(** The turns of the loop of [read], [more] of them after this one *)
Fixpoint read_attempts (more : nat) : SE W readiness_exn string :=
  scatch (run_remote_script rm ReadFlags) (λ e,
    if negb (is_governance e) then sraise e
    else match more with
         | O => sraise (RInfra ("remote flag read produced no result after " +:+
                                int_repr (Z.of_nat FLAG_TRANSPORT_ATTEMPTS) +:+ " attempts: " +:+ exn_text e))
         | S more => smodify (sleep rm (seconds FLAG_TRANSPORT_RETRY_DELAY_SECONDS));;; read_attempts more
         end).
Definition flag_document (output : string) : R mapping :=
  let invalid := RGovernance "flagd UI returned an invalid flag document" in
  let* document := from_option_or (RGovernance "flagd UI returned malformed JSON") (loads output) in
  match document with
  | VDict d => match dget "flags" d with VDict _ => Ok d | _ => Err invalid end
  | _ => Err invalid
  end.
Definition flag_read : SE W readiness_exn mapping :=
  let! output := read_attempts (pred FLAG_TRANSPORT_ATTEMPTS) in slift (flag_document output).
Definition flag_body (document : val) : R string :=
  from_option_or (RPython "TypeError")
    (dumps {| compact := true; sorted_keys := false; ascii_only := true |} (sdict [("data", document)])).
Definition flag_write (document : val) : SE W readiness_exn unit :=
  let! body := slift (flag_body document) in
  let! output := remote_output (λ _, false) "remote flag write" (WriteFlags body) in
  let! readback := slift (from_option_or (RGovernance "flagd UI write readback was malformed") (loads output)) in
  let! found := slift (canonical_json readback) in
  let! wanted := slift (canonical_json document) in
  sguard (negb (String.eqb found wanted)) (RGovernance "flagd UI write readback drifted").
End Client.

(** ** The requests of the workload *)

(** What a script prints: an object *)
Definition printed_object (output : string) : R mapping :=
  let* document := from_option_or (RPython "JSONDecodeError") (loads output) in
  from_option_or (RPython "AttributeError") (as_dict document).
Definition answered (output : string) (refused : mapping → bool) (message : string) : R mapping :=
  let* document := printed_object output in
  raise_if refused document with_ RGovernance message;;
  Ok document.
Definition not_one (count : string) (d : mapping) : bool :=
  negb (val_is (dget "status" d) "pass") || negb (is_int 1 (dget count d)).
Definition not_one_200 (d : mapping) : bool := not_one "request_count" d || negb (is_int 200 (dget "response_status" d)).
Definition not_reset (d : mapping) : bool :=
  not_one "reset_count" d || negb (is_bool true (dget "ready" d)) ||
  py_eq (dget "old_pod_uid" d) (dget "new_pod_uid" d) || negb (startswith (val_str (get_or d "new_pod_name" (VStr ""))) "email-").
Definition http_error (text : string) : bool := str_contains "FW_G02_STIMULUS_HTTP_ERROR" text.

Section Workload.
Context {W : Type} (rm : remote W) (producer_sha : string).

Definition user_id (now : Z) : string :=
  "faultwitness-g02-" +:+ str_take 12 producer_sha +:+ "-" +:+ compact_date now +:+ compact_clock now +:+ padded 6 (now mod MICRO).
Definition stimulate_checkout (allow_http_error : bool) : SE W readiness_exn mapping :=
  let! now := clock (utc_now rm) in
  let! output := remote_output rm http_error "checkout workload stimulus" (Checkout allow_http_error (user_id now)) in
  slift (answered output (not_one "checkout_count") "workload stimulus did not complete exactly one checkout").
Definition stimulate_kafka_fault : SE W readiness_exn mapping := stimulate_checkout false.
Definition stimulate_payment_fault : SE W readiness_exn mapping := stimulate_checkout true.
Definition stimulate_product_fault : SE W readiness_exn mapping :=
  let! output := remote_output rm (λ _, false) "product workload stimulus" ProductRequest in
  slift (answered output (not_one "request_count") "product workload stimulus did not complete exactly one request").
Definition stimulate_email_request : SE W readiness_exn mapping :=
  let! output := remote_output rm (λ _, false) "email workload stimulus" EmailRequest in
  slift (answered output not_one_200 "email workload stimulus did not complete exactly one request").
Definition stimulate_ad_request : SE W readiness_exn mapping :=
  let! output := remote_output rm http_error "ad workload stimulus" AdRequest in
  slift (answered output not_one_200 "ad workload stimulus did not complete exactly one request").
Definition reset_email_runtime : SE W readiness_exn mapping :=
  let! output := remote_output rm (λ _, false) "email runtime reset" ResetEmail in
  slift (answered output not_reset "email runtime reset did not replace one Ready pod").
End Workload.

(** ** The observer

    The attributes of [LiveScenarioObserver]; a stimulus that was not made is not in the map. *)
Record baseline := { base_cpu : xnum; base_working_set : xnum; base_lag : xnum }.
Record window := { started : option Z; samples : list mapping; poll_count : Z }.
Record observer := {
  baseline_of : baseline;
  fault_window : window;
  recovery_window : window;
  ad_cpu_quiescent_cores : option xnum;
  stimuli : gmap string mapping;
  email_fault_stimuli : list mapping;
}.
Definition fresh_observer : observer :=
  let none := {| started := None; samples := []; poll_count := 0 |} in
  let zero := XFin dzero in
  {| baseline_of := {| base_cpu := zero; base_working_set := zero; base_lag := zero |}; fault_window := none;
     recovery_window := none; ad_cpu_quiescent_cores := None; stimuli := ∅; email_fault_stimuli := [] |}.
Definition set_baseline (b : baseline) (o : observer) : observer :=
  {| baseline_of := b; fault_window := fault_window o; recovery_window := recovery_window o;
     ad_cpu_quiescent_cores := ad_cpu_quiescent_cores o; stimuli := stimuli o; email_fault_stimuli := email_fault_stimuli o |}.
Definition on_fault (f : window → window) (o : observer) : observer :=
  {| baseline_of := baseline_of o; fault_window := f (fault_window o); recovery_window := recovery_window o;
     ad_cpu_quiescent_cores := ad_cpu_quiescent_cores o; stimuli := stimuli o; email_fault_stimuli := email_fault_stimuli o |}.
Definition on_recovery (f : window → window) (o : observer) : observer :=
  {| baseline_of := baseline_of o; fault_window := fault_window o; recovery_window := f (recovery_window o);
     ad_cpu_quiescent_cores := ad_cpu_quiescent_cores o; stimuli := stimuli o; email_fault_stimuli := email_fault_stimuli o |}.
Definition set_quiescent (cores : xnum) (o : observer) : observer :=
  {| baseline_of := baseline_of o; fault_window := fault_window o; recovery_window := recovery_window o;
     ad_cpu_quiescent_cores := Some cores; stimuli := stimuli o; email_fault_stimuli := email_fault_stimuli o |}.
Definition set_stimulus (name : string) (d : mapping) (o : observer) : observer :=
  {| baseline_of := baseline_of o; fault_window := fault_window o; recovery_window := recovery_window o;
     ad_cpu_quiescent_cores := ad_cpu_quiescent_cores o; stimuli := <[name := d]> (stimuli o);
     email_fault_stimuli := email_fault_stimuli o |}.
Definition add_email_stimulus (d : mapping) (o : observer) : observer :=
  {| baseline_of := baseline_of o; fault_window := fault_window o; recovery_window := recovery_window o;
     ad_cpu_quiescent_cores := ad_cpu_quiescent_cores o; stimuli := stimuli o;
     email_fault_stimuli := email_fault_stimuli o ++ [d] |}.
Definition start_window (t : Z) (w : window) : window := {| started := Some t; samples := samples w; poll_count := poll_count w |}.
Definition add_sample (d : mapping) (w : window) : window :=
  {| started := started w; samples := samples w ++ [d]; poll_count := poll_count w |}.
Definition count_poll (w : window) : window := {| started := started w; samples := samples w; poll_count := poll_count w + 1 |}.

(** The class attributes: [LiveScenarioObserver], and [LiveReadinessObserverV3] below it *)
Record observer_class := {
  readiness_v3 : bool;                       (* which [_sample] *)
  fault_sample_interval_seconds : Z;
  retain_terminal_fault_sample : bool;
  restimulate_each_poll : bool;
  recovery_deadline_seconds : Z;
  recovery_sample_interval_seconds : Z;
  require_ad_cpu_quiescent_baseline : bool;
}.
Definition LiveScenarioObserver : observer_class :=
  {| readiness_v3 := false; fault_sample_interval_seconds := 30; retain_terminal_fault_sample := false;
     restimulate_each_poll := false; recovery_deadline_seconds := FAULT_ACTIVATION_DEADLINE_SECONDS;
     recovery_sample_interval_seconds := 30; require_ad_cpu_quiescent_baseline := false |}.
Definition LiveReadinessObserverV3 : observer_class :=
  {| readiness_v3 := true; fault_sample_interval_seconds := 65; retain_terminal_fault_sample := true;
     restimulate_each_poll := true; recovery_deadline_seconds := V3_RECOVERY_OBSERVATION_DEADLINE_SECONDS;
     recovery_sample_interval_seconds := 65; require_ad_cpu_quiescent_baseline := true |}.

(** *** Samples *)

(** [set(v)], whose items must be hashable *)
Definition val_set (v : val) : R (list val) :=
  let* items := py (iterate v) in
  raise_if negb (forallb hashable items) with_ RPython "TypeError";;
  Ok items.
Definition SERIES : list string := ["cpu_rate"; "working_set"; "consumer_record_lag"; "consumer_poll_lag_seconds"].
Definition absent_series (sample : mapping) : R (list string) :=
  let* absent := val_set (val_or (dget "absent_series" sample) (VList [])) in
  Ok (List.filter (λ name, existsb (λ v, val_is v name) absent) SERIES).

Definition TRACE_QUERY_SERVICES : list (string * string) :=
  [("productCatalogFailure", "product-catalog"); ("adHighCpu", "ad"); ("emailMemoryLeak", "email");
   ("paymentFailure", "payment"); ("paymentUnreachable", "checkout"); ("kafkaQueueProblems", "fraud-detection")].
Definition covers (v : val) : R bool :=
  let* names := val_set v in
  Ok (forallb (λ n, existsb (val_is n) V3_TRACE_QUERY_SERVICES) names &&
      forallb (λ s, existsb (λ n, val_is n s) names) V3_TRACE_QUERY_SERVICES).
Definition check_services (document : mapping) (key what : string) : R unit :=
  let* complete := covers (get_or document key (VDict [])) in
  raise_if negb complete with_ RGovernance ("metric-v3 " +:+ what +:+ " service set drifted");;
  Ok tt.
Definition exact_pods (document : mapping) : bool :=
  match dget "metric_pods" document with
  | VDict pods => startswith (val_str (get_or pods "ad" (VStr ""))) "ad-" &&
                  startswith (val_str (get_or pods "email" (VStr ""))) "email-"
  | _ => false
  end.
(** [document.update(oracle)] of an object; another value is refused here as it is there,
    up to the sequences of pairs that [update] also takes. *)
Definition with_oracle (document : mapping) (fault_class : string) : R mapping :=
  let* signals := item document "oracle_signals" in
  let* service := from_option_or (RPython "KeyError") (table_get TRACE_QUERY_SERVICES fault_class) in
  let* oracle := py (subscript signals service) in
  let* oracle := from_option_or (RPython "TypeError") (as_dict oracle) in
  Ok (updated (List.filter (λ kv : val * val, negb (is_key "oracle_signals" kv.1)) document) oracle).
Definition read_sample_v3 (fault_class output : string) : R mapping :=
  let* document := from_option_or (RInfra "metric-v3 live observation collection returned malformed JSON") (loads output) in
  let* document := from_option_or (RPython "AttributeError") (as_dict document) in
  let* _ := check_services document "trace_activity" "trace activity" in
  let* _ := check_services document "trace_errors" "trace error" in
  let* _ := check_services document "oracle_signals" "oracle signal" in
  raise_if negb (exact_pods document) with_ RGovernance "metric-v3 exact metric pod resolution drifted";;
  with_oracle document fault_class.
Definition collector_verdict (text : string) : bool := str_contains "FW_G03_COLLECTOR_" text.

(** *** Polling

    The loops of the observer have one shape: try; if that does not settle it, give up at
    the deadline, else wait and do what is done between two tries. *)
Inductive attempted (S E A : Type) : Type :=
| Settles (a : A)
| Later (at_deadline : SE S E A).
Arguments Settles {S E A} a.
Arguments Later {S E A} at_deadline.
Definition OutOfFuel : readiness_exn := RPython "out of fuel".
Fixpoint poll {S A} (fuel : nat) (now : SE S readiness_exn Z) (wait : SE S readiness_exn unit) (deadline : Z)
    (try : SE S readiness_exn (attempted S readiness_exn A)) (between : SE S readiness_exn unit) : SE S readiness_exn A :=
  match fuel with
  | O => sraise OutOfFuel
  | S fuel =>
      let! outcome := try in
      match outcome with
      | Settles a => sret a
      | Later at_deadline =>
          let! t := now in
          if (deadline <=? t)%Z then at_deadline
          else wait;;; between;;; poll fuel now wait deadline try between
      end
  end.
(** One try at the start, and one after each wait up to the deadline *)
Definition tries (deadline_seconds : Z) : nat := S (Z.to_nat (deadline_seconds / FAULT_POLL_INTERVAL_SECONDS)).

Section Observer.
Context {W : Type} (rm : remote W).
Context (collector observer_digest : string).   (* of the source that runs *)
Context (cls : observer_class) (producer_sha fault_class : string).
Abbreviation O := (SE (observer * W) readiness_exn).

Definition outside {A} (m : SE W readiness_exn A) : O A := λ s, let '(r, w) := m s.2 in (r, (s.1, w)).
Definition self : O observer := λ s, (Ok s.1, s).
Definition set_self (f : observer → observer) : O unit := λ s, (Ok tt, (f s.1, s.2)).
Definition now_utc : O Z := outside (clock (utc_now rm)).
Definition now_monotonic : O Z := outside (clock (monotonic rm)).
Definition pause (n : Z) : O unit := outside (smodify (sleep rm (seconds n))).
Definition is_class (name : string) : bool := bool_decide (fault_class = name).

Definition sample (since : Z) : O mapping :=
  if readiness_v3 cls then
    let! _ := slift (validate_live_readiness_collector_checkpoint collector observer_digest) in
    let! output := outside (remote_output rm collector_verdict "metric-v3 live observation collection" (CollectV3 since)) in
    slift (read_sample_v3 fault_class output)
  else
    let! o := self in
    let email_pod := match stimuli o !! "email_runtime_reset" with Some d => dget "new_pod_name" d | None => VNone end in
    let! _ := slift (from_option_or (RPython "KeyError") (table_get TRACE_QUERY_SERVICES fault_class)) in
    let! output := outside (remote_output rm (λ _, false) "live observation collection" (Collect fault_class email_pod since)) in
    slift (printed_object output).
Definition absent_series_failure (absent : list string) : readiness_exn :=
  RInfra ("metric-v3 Prometheus series stayed absent past the observation deadline for " +:+ fault_class +:+ ": " +:+
          str_join ", " absent).

Definition stimulate (name : string) (request : SE W readiness_exn mapping) : O unit :=
  let! document := outside request in set_self (set_stimulus name document).
Definition drive_label_workload (faulty : bool) : O unit :=
  (if is_class "adHighCpu" then
     stimulate (if faulty then "ad_fault_stimulus" else "ad_recovery_stimulus") (stimulate_ad_request rm)
   else if is_class "emailMemoryLeak" then
     let! document := outside (stimulate_email_request rm) in
     set_self (if faulty then add_email_stimulus document else set_stimulus "email_recovery_stimulus" document)
   else if is_class "productCatalogFailure" then stimulate "product_stimulus" (stimulate_product_fault rm)
   else if is_class "kafkaQueueProblems" then stimulate "kafka_stimulus" (stimulate_kafka_fault rm producer_sha)
   else if is_class "paymentFailure" || is_class "paymentUnreachable" then
     stimulate "payment_stimulus" (stimulate_payment_fault rm producer_sha)
   else sraise (RGovernance "unsupported live fault observer"));;;
  set_self (if faulty then on_fault count_poll else on_recovery count_poll).
Definition between_polls (faulty : bool) : O unit :=
  if restimulate_each_poll cls then drive_label_workload faulty else sret tt.
Definition poll_for {A} (deadline_seconds : Z) (try : O (attempted (observer * W) readiness_exn A)) (between : O unit) : O A :=
  let! start := now_monotonic in
  poll (tries deadline_seconds) now_monotonic (pause FAULT_POLL_INTERVAL_SECONDS) (start + seconds deadline_seconds) try between.

(** *** What a sample shows of the fault *)

Definition positive (sample : mapping) (k : string) : R bool := let* v := item sample k in py (val_gt v (VInt 0)).
Definition xval (x : xnum) : val :=
  match x with XFin d => vfloat d | XInf s => VFloat (if s then "-Infinity" else "Infinity") | XNaN => VFloat "NaN" end.
Definition with_stimulus (o : observer) (name key : string) (d : mapping) : mapping :=
  match stimuli o !! name with Some stimulus => dset key (VDict stimulus) d | None => d end.
Definition descriptions_text (sample : mapping) : R string :=
  let* descriptions := item sample "descriptions" in
  let* texts := py (iterate descriptions) in
  Ok (str_join newline (val_str <$> texts)).
Definition kafka_error (sample : mapping) : R val :=
  let* log_error := item sample "kafka_log_error" in
  if val_truthy log_error then Ok log_error else
  let* fault_log := item sample "kafka_fault_log" in
  if val_truthy fault_log then Ok fault_log else
  let* failed := positive sample "error_spans" in Ok (VBool failed).
Definition active_observation (o : observer) (sample : mapping) : R mapping :=
  let* descriptions := descriptions_text sample in
  if is_class "productCatalogFailure" then
    let found := VBool (str_contains "Product Catalog Fail Feature Flag Enabled" descriptions) in
    Ok (with_stimulus o "product_stimulus" "product_stimulus" (dset "correlated_error" found (dset "journey_failed" found sample)))
  else if is_class "adHighCpu" then
    let* cpu_rate := item sample "cpu_rate" in
    let* correlated := positive sample "trace_count" in
    Ok (with_stimulus o "ad_fault_stimulus" "ad_stimulus"
         (dset "correlated_span" (VBool correlated) (dset "baseline_cpu_max" (xval (base_cpu (baseline_of o)))
           (dset "cpu_rate" cpu_rate sample))))
  else if is_class "emailMemoryLeak" then
    let* working_set := item sample "working_set" in
    Ok (with_stimulus o "email_runtime_reset" "email_runtime_reset"
         (dset "email_stimulus_count" (VInt (Z.of_nat (length (email_fault_stimuli o))))
           (dset "working_set_unit" (VStr "bytes") (dset "metric_service" (VStr "emailservice")
             (dset "baseline_working_set" (xval (base_working_set (baseline_of o))) (dset "working_set" working_set sample))))))
  else if is_class "paymentFailure" then
    let* found := if str_contains "Payment" descriptions then positive sample "error_spans" else Ok false in
    Ok (dset "payment_error" (VBool found) (dset "checkout_failed" (VBool found) sample))
  else if is_class "paymentUnreachable" then
    let* failed := positive sample "checkout_error_spans" in
    let* unconnected := positive sample "payment_connection_errors" in
    Ok (dset "connection_error" (VBool unconnected) (dset "checkout_failed" (VBool failed) sample))
  else if is_class "kafkaQueueProblems" then
    let* consumer_lag := item sample "consumer_lag" in
    let* error := kafka_error sample in
    Ok (with_stimulus o "kafka_stimulus" "kafka_stimulus"
         (dset "kafka_error" error (dset "baseline_lag" (xval (base_lag (baseline_of o))) (dset "consumer_lag" consumer_lag sample))))
  else Err (RGovernance "unsupported live fault observer").

(** *** The control phase *)

Definition journey_ok (sample : mapping) : R bool := let* v := item sample "journey_status" in Ok (is_int 200 v).
Definition sample_healthy (sample : mapping) : R bool :=
  let* ready := item sample "ready" in if val_truthy ready then journey_ok sample else Ok false.
Definition float_positive (sample : mapping) (k : string) : R bool :=
  let* x := float_item sample k in Ok (xlt (XFin dzero) x).
Definition signal_ready (sample : mapping) : R bool :=
  let* absent := absent_series sample in
  if negb (bool_decide (absent = [])) then Ok false
  else if is_class "emailMemoryLeak" then float_positive sample "working_set"
  else if is_class "adHighCpu" then float_positive sample "cpu_rate"
  else Ok true.
Definition float_or_zero (sample : mapping) (k : string) : R xnum :=
  let* v := item sample k in py (val_xfloat (val_or v (VFloat "0.0"))).

Definition not_quiescent (cpu_rate : xnum) : readiness_exn :=
  RInfra ("metric-v3 ad pod did not reach a quiescent CPU baseline within " +:+
          int_repr V3_AD_CPU_QUIESCENCE_DEADLINE_SECONDS +:+ "s: last rate " +:+ fixed4 cpu_rate +:+ " cores exceeds " +:+
          repr_double V3_AD_CPU_QUIESCENT_MAX_CORES +:+ " cores").
Definition quiescence_try : O (attempted (observer * W) readiness_exn unit) :=
  let! now := now_utc in
  let! d := sample (now - seconds 120) in
  let! absent := slift (absent_series d) in
  if negb (bool_decide (absent = [])) then sret (Later (sraise (absent_series_failure absent)))
  else
    let! cpu_rate := slift (float_item d "cpu_rate") in
    if xle cpu_rate (XFin V3_AD_CPU_QUIESCENT_MAX_CORES) then set_self (set_quiescent cpu_rate);;; sret (Settles tt)
    else sret (Later (sraise (not_quiescent cpu_rate))).
Definition await_ad_cpu_quiescence : O unit :=
  poll_for V3_AD_CPU_QUIESCENCE_DEADLINE_SECONDS quiescence_try (sret tt).

Definition control_try (since : Z) : O (attempted (observer * W) readiness_exn (option mapping)) :=
  let! d := sample since in
  let! ready := slift (signal_ready d) in
  let! healthy := slift (sample_healthy d) in
  sret (if healthy && ready then Settles (Some d) else Later (sret None)).
(** From where the traces are read, once the pods are prepared *)
Definition prepare_control : O Z :=
  let! now := now_utc in
  if is_class "emailMemoryLeak" then
    stimulate "email_runtime_reset" (reset_email_runtime rm);;; now_utc
  else if is_class "adHighCpu" then
    (if require_ad_cpu_quiescent_baseline cls then await_ad_cpu_quiescence else sret tt);;;
    let! since := now_utc in
    let! _ := outside (stimulate_ad_request rm) in sret since
  else sret (now - seconds 120)%Z.
Definition set_base (f : baseline → baseline) : O unit := set_self (λ o, set_baseline (f (baseline_of o)) o).
Definition keep_baseline (d : mapping) : O unit :=
  let! cpu := slift (float_or_zero d "cpu_rate") in
  set_base (λ b, {| base_cpu := cpu; base_working_set := base_working_set b; base_lag := base_lag b |});;;
  let! working_set := slift (float_or_zero d "working_set") in
  set_base (λ b, {| base_cpu := base_cpu b; base_working_set := working_set; base_lag := base_lag b |});;;
  let! lag := slift (float_or_zero d "consumer_lag") in
  set_base (λ b, {| base_cpu := base_cpu b; base_working_set := base_working_set b; base_lag := lag |}).
Definition control_phase : O mapping :=
  let! since := prepare_control in
  let! found := poll_for FAULT_ACTIVATION_DEADLINE_SECONDS (control_try since) (sret tt) in
  match found with
  | None => sret (smapping [("state", VStr "UNKNOWN")])
  | Some d => keep_baseline d;;; sret (smapping [("state", VStr "HEALTHY")])
  end.

(** *** The fault phase *)

Definition last_sample (w : window) : R mapping := from_option_or (RPython "IndexError") (last (samples w)).
Definition fault_try (since : Z) : O (attempted (observer * W) readiness_exn mapping) :=
  let! d := sample since in
  let! absent := slift (absent_series d) in
  if negb (bool_decide (absent = [])) then sret (Later (sraise (absent_series_failure absent)))
  else
    let! o := self in
    let! observation := slift (active_observation o d) in
    let keep := set_self (on_fault (add_sample observation)) in
    if is_class "emailMemoryLeak" && bool_decide (samples (fault_window o) = []) then keep;;; sret (Settles observation)
    else
      let! earlier := slift (if is_class "emailMemoryLeak" then last_sample (fault_window o) else Ok observation) in
      let! state := slift (fault_state fault_class [earlier; observation]) in
      if bool_decide (state = FAULT_ACTIVE) then keep;;; sret (Settles observation)
      else sret (Later ((if retain_terminal_fault_sample cls then keep else sret tt);;; sret observation)).
(** The first call of the phase makes the request of a label that shows itself in traces;
    a later one that follows a sample waits. *)
Definition start_fault : O Z :=
  let! o := self in
  match started (fault_window o) with
  | None =>
      let! now := now_utc in
      set_self (on_fault (start_window now));;;
      (if is_class "productCatalogFailure" then stimulate "product_stimulus" (stimulate_product_fault rm)
       else if is_class "kafkaQueueProblems" then stimulate "kafka_stimulus" (stimulate_kafka_fault rm producer_sha)
       else if is_class "paymentFailure" || is_class "paymentUnreachable" then
         stimulate "payment_stimulus" (stimulate_payment_fault rm producer_sha)
       else sret tt);;;
      sret now
  | Some since =>
      (if bool_decide (samples (fault_window o) = []) then sret tt else pause (fault_sample_interval_seconds cls));;;
      sret since
  end.
Definition fault_phase : O mapping :=
  let! since := start_fault in
  (if is_class "adHighCpu" then stimulate "ad_fault_stimulus" (stimulate_ad_request rm)
   else if is_class "emailMemoryLeak" then
     let! document := outside (stimulate_email_request rm) in set_self (add_email_stimulus document)
   else sret tt);;;
  poll_for FAULT_ACTIVATION_DEADLINE_SECONDS (fault_try since) (between_polls true).

(** *** The recovery phase *)

Definition signal_not_worsening (o : observer) (d : mapping) : R bool :=
  if is_class "adHighCpu" then
    let* now := float_item d "cpu_rate" in
    let* before := last_sample (fault_window o) in
    let* before := float_item before "cpu_rate" in
    Ok (xle now (xmax (base_cpu (baseline_of o)) before))
  else if is_class "emailMemoryLeak" then
    let tolerated_drift := xmax (XFin (double_of_int EMAIL_MEMORY_MIN_GROWTH_BYTES))
                                (xmul (base_working_set (baseline_of o)) (XFin EMAIL_MEMORY_MIN_GROWTH_RATIO)) in
    let* now := float_item d "working_set" in
    let* before := last_sample (fault_window o) in
    let* before := float_item before "working_set" in
    Ok (xlt (xsub now before) tolerated_drift)
  else if is_class "kafkaQueueProblems" then
    let* now := float_item d "consumer_lag" in
    let* before := last_sample (fault_window o) in
    let* before := float_item before "consumer_lag" in
    Ok (xle now before)
  else Ok true.
Definition recovery_observation (o : observer) (d : mapping) : R mapping :=
  let* signal_ok := signal_not_worsening o d in
  let* ready := item d "ready" in
  let* journey := journey_ok d in
  let observation := dset "signal_not_worsening" (VBool signal_ok) (dset "journey_healthy" (VBool journey)
                       (dset "ready" (VBool (val_truthy ready)) d)) in
  Ok (with_stimulus o "email_recovery_stimulus" "email_recovery_stimulus"
       (with_stimulus o "ad_recovery_stimulus" "ad_recovery_stimulus" observation)).
Definition recovered (observation : mapping) : bool := forallb (λ k, val_truthy (dget k observation)) recovery_fields.
Definition recovery_try (since : Z) : O (attempted (observer * W) readiness_exn mapping) :=
  let! d := sample since in
  let! absent := slift (absent_series d) in
  if negb (bool_decide (absent = [])) then sret (Later (sraise (absent_series_failure absent)))
  else
    let! o := self in
    let! observation := slift (recovery_observation o d) in
    if recovered observation then set_self (on_recovery (add_sample observation));;; sret (Settles observation)
    else sret (Later (sret observation)).
Definition start_recovery : O Z :=
  let! o := self in
  match started (recovery_window o) with
  | None =>
      let! now := now_utc in
      set_self (on_recovery (start_window now));;;
      (if is_class "adHighCpu" then stimulate "ad_recovery_stimulus" (stimulate_ad_request rm)
       else if is_class "emailMemoryLeak" then stimulate "email_recovery_stimulus" (stimulate_email_request rm)
       else sret tt);;;
      sret now
  | Some since =>
      (if bool_decide (samples (recovery_window o) = []) then sret tt else pause (recovery_sample_interval_seconds cls));;;
      sret since
  end.
Definition recovery_phase : O mapping :=
  let! since := start_recovery in
  poll_for (recovery_deadline_seconds cls) (recovery_try since) (between_polls false).

(** [__call__] *)
Definition observe_live (phase fault_class' : string) : O mapping :=
  if negb (is_class fault_class') then sraise (RGovernance "live observer fault class drifted")
  else if bool_decide (phase = "control") then control_phase
  else if bool_decide (phase = "fault") then fault_phase
  else if bool_decide (phase = "recovery") then recovery_phase
  else sraise (RGovernance "unknown live observer phase").

(** *** [collect_healthy_window] of metric version 3 *)

Definition healthy_try : O (attempted (observer * W) readiness_exn mapping) :=
  let! now := now_utc in
  let! d := sample (now - seconds 120) in
  let! absent := slift (absent_series d) in
  sret (if bool_decide (absent = []) then Settles d else Later (sraise (absent_series_failure absent))).
Definition collect_healthy : O mapping :=
  let! d := poll_for FAULT_ACTIVATION_DEADLINE_SECONDS healthy_try (drive_label_workload true) in
  sguard (negb (val_truthy (dget "ready" d)) || negb (is_int 200 (dget "journey_status" d)))
    (RGovernance "metric-v3 healthy window is not healthy");;;
  sret d.

(** What the scenarios of Lab and Matrix run against *)
Definition live_testbed : testbed (observer * W) := {|
  client_read := outside (flag_read rm);
  client_write := λ document, outside (flag_write rm (VDict document));
  observe := observe_live;
|}.
Definition live_bed : readiness_bed (W:=observer * W) := {|
  bed := live_testbed;
  collect_healthy_window := collect_healthy;
  poll_stimuli := λ s, (poll_count (fault_window s.1), poll_count (recovery_window s.1));
|}.
End Observer.

(** ** Injection outside a scenario

    [inject_live_fault] and [restore_live_fault].  [operations] is the directory of the
    operation records. *)
Section Operations.
Context {W : Type} (rm : remote W) (operations : path) (producer_sha : string).
Abbreviation L := (SE (W * file_system) readiness_exn).

Definition on_host {A} (m : SE W readiness_exn A) : L A := λ s, let '(r, w) := m s.1 in (r, (w, s.2)).
Definition on_files {A} (m : SE file_system readiness_exn A) : L A := λ s, let '(r, fs) := m s.2 in (r, (s.1, fs)).
Definition remote_client : L unit :=
  sguard (negb (FULL_SHA producer_sha)) (RGovernance "remote flag client requires a full producer SHA").

(** [re.fullmatch(r"op-[0-9]{8}T[0-9]{6}Z-[0-9a-f]{12}", id)] *)
Definition operation_id_ok (id : string) : bool :=
  startswith id "op-" && (String.length id =? 32)%nat && str_all is_digit (str_take 8 (str_drop 3 id)) &&
  bool_decide (str_take 1 (str_drop 11 id) = "T") && str_all is_digit (str_take 6 (str_drop 12 id)) &&
  bool_decide (str_take 2 (str_drop 18 id) = "Z-") && full_hex 12 (str_drop 20 id).
Definition operation_path (id : string) : R path :=
  raise_if negb (operation_id_ok id) with_ RGovernance "invalid G02 fault operation ID";;
  Ok (operations ++ [id +:+ ".json"]).
(** [_write_json] *)
Definition write_json (p : path) (document : mapping) : SE file_system readiness_exn unit :=
  smodify (mkdir (removelast p));;;
  let! text := slift (from_option_or (RPython "TypeError") (artifact_text document)) in
  smodify (put_file p text).

Definition live_mutation (original : mapping) (adapter : FaultAdapter) : R mapping :=
  let* flags := item original "flags" in
  let* present := py (val_contains (flag_key adapter) flags) in
  raise_if negb present with_ RGovernance "G02 live flag is absent from the candidate document";;
  let* flags := from_option_or (RPython "TypeError") (as_dict flags) in
  let* flag := from_option_or (RPython "TypeError") (as_dict (dget (flag_key adapter) flags)) in
  let flags' := dset (flag_key adapter) (VDict (dset "defaultVariant" (VStr (variant adapter)) flag)) flags in
  raise_if negb (match changed_flags flags flags' with [k] => is_key (flag_key adapter) k | _ => false end)
    with_ RGovernance "G02 live injection must change exactly one allowlisted flag";;
  Ok (dset "flags" (VDict flags') original).
Definition operation_id (now : Z) (fault_class canonical : string) : string :=
  "op-" +:+ compact_seconds now +:+ "-" +:+ str_take 12 (sha256_hex (utf8 (producer_sha +:+ fault_class +:+ canonical))).
Definition inject_live_fault (fault_class : string) : L mapping :=
  match ADAPTERS fault_class with
  | None => sraise (RGovernance "G02 live injection uses an unknown fault class")
  | Some adapter =>
      remote_client;;;
      let! original := on_host (flag_read rm) in
      let! mutated := slift (live_mutation original adapter) in
      let! now := on_host (clock (utc_now rm)) in
      let! canonical := slift (canonical_json (VDict original)) in
      let! mutated_text := slift (canonical_json (VDict mutated)) in
      let id := operation_id now fault_class canonical in
      let record (status : string) (more : list (string * val)) := smapping
        ([("operation_id", VStr id); ("producer_sha", VStr producer_sha); ("fault_class", VStr fault_class);
          ("flag_key", VStr (flag_key adapter)); ("original", VDict original);
          ("original_digest", VStr (sha256_hex (utf8 canonical))); ("injected_digest", VStr (sha256_hex (utf8 mutated_text)));
          ("started_at", VStr (isoformat now)); ("status", VStr status)] ++ more) in
      let! p := slift (operation_path id) in
      on_files (write_json p (record "prepared" []));;;
      on_host (flag_write rm (VDict mutated));;;
      let! injected_at := on_host (clock (utc_now rm)) in
      on_files (write_json p (record "injected" [("injected_at", VStr (isoformat injected_at))]));;;
      sret (smapping [("operation_id", VStr id); ("fault_class", VStr fault_class);
                      ("original_digest", VStr (sha256_hex (utf8 canonical)));
                      ("injected_digest", VStr (sha256_hex (utf8 mutated_text))); ("status", VStr "injected")])
  end.
Definition restore_live_fault (id : string) : L mapping :=
  let! p := slift (operation_path id) in
  let! s := sget in
  sguard (negb (is_file s.2 p)) (RGovernance "G02 fault operation record is missing");;;
  let! record := slift (printed_object (default "" (files s.2 !! p))) in
  sguard (negb (val_is (dget "producer_sha" record) producer_sha) || negb (val_is (dget "status" record) "injected"))
    (RGovernance "G02 fault operation is not restorable for this producer");;;
  remote_client;;;
  let! original := slift (item record "original") in
  on_host (flag_write rm original);;;
  let! restored := on_host (flag_read rm) in
  let! text := slift (canonical_json (VDict restored)) in
  let restored_digest := sha256_hex (utf8 text) in
  let! original_digest := slift (item record "original_digest") in
  sguard (negb (val_is original_digest restored_digest)) (RGovernance "G02 exact flag restoration failed");;;
  let! restored_at := on_host (clock (utc_now rm)) in
  on_files (write_json p (dset "restored_digest" (VStr restored_digest) (dset "restored_at" (VStr (isoformat restored_at))
             (dset "status" (VStr "restored") record))));;;
  sret (smapping [("operation_id", VStr id); ("restored_digest", VStr restored_digest); ("status", VStr "restored")]).
End Operations.

(** ** Staged images *)

Definition removeprefix (s prefix : string) : string :=
  if startswith s prefix then str_drop (String.length prefix) s else s.
Definition containerd_normalized_reference (reference : string) : string :=
  if startswith reference "index.docker.io/" then "docker.io/" +:+ removeprefix reference "index.docker.io/" else reference.
Definition containerd_registry_aliases (reference : string) : R (list string) :=
  raise_if negb (pinned reference) with_ RGovernance ("containerd source reference is not digest-pinned: " +:+ reference);;
  Ok (if startswith reference "docker.io/" then [reference; "index.docker.io/" +:+ removeprefix reference "docker.io/"]
      else if startswith reference "index.docker.io/" then [reference; "docker.io/" +:+ removeprefix reference "index.docker.io/"]
      else [reference]).
(** [reference.rsplit("@", 1)] of a pinned reference *)
Definition repository_of (reference : string) : string := str_take (String.length reference - 72) reference.
Definition digest_of (reference : string) : string := str_drop (String.length reference - 71) reference.
Definition select_containerd_import_source (reference : string) (inventory : list (string * string)) : R string :=
  let* candidates := containerd_registry_aliases reference in
  from_option_or (RGovernance ("containerd import lacks an exact repository-and-digest source for " +:+ reference))
    (List.find (λ c, bool_decide (table_get inventory c = Some (digest_of reference))) candidates).

Definition PROBE_IMAGE_NAMES : list string := ["busybox"; "minio_mc"].
(** What [gate-probes.yaml] declares, as the YAML loader built it *)
Definition probe_image (images : mapping) (name : string) : R (string * string) :=
  let reference := dget name images in
  match reference with
  | VStr r =>
      raise_if negb (pinned r) with_ RGovernance ("G02 probe image is not digest-pinned: " +:+ r);;
      raise_if negb (startswith (containerd_normalized_reference r) "docker.io/")
        with_ RGovernance ("G02 probe image is outside the frozen Docker Hub path: " +:+ name);;
      Ok (name, r)
  | v => Err (RGovernance ("G02 probe image is not digest-pinned: " +:+ val_str v))
  end.
Definition load_gate_probe_images (document : val) : R (list (string * string)) :=
  let versioned := RGovernance "G02 gate probe config must be a versioned object" in
  let* d := from_option_or versioned (as_dict document) in
  raise_if negb (val_is (dget "schema_version" d) "1.0.0") with_ versioned;;
  let both := RGovernance "G02 gate probe config must declare exactly busybox and minio_mc" in
  let* images := from_option_or both (as_dict (dget "images" d)) in
  raise_if negb (keys_are PROBE_IMAGE_NAMES images) with_ both;;
  rmapM (probe_image images) PROBE_IMAGE_NAMES.

(** The images of the configuration that come from Docker Hub *)
Definition candidate_image (image : val) : R (option (string * string)) :=
  match image with
  | VDict d =>
      match dget "name" d, dget "reference" d with
      | VStr name, VStr reference =>
          raise_if negb (truthy name) with_ RGovernance "G02 lab staging image lacks a name or reference";;
          Ok (if startswith (containerd_normalized_reference reference) "docker.io/" then Some (name, reference) else None)
      | _, _ => Err (RGovernance "G02 lab staging image lacks a name or reference")
      end
  | _ => Err (RGovernance "G02 lab image entry must be an object")
  end.
(** [table[key] = v]: a key keeps its place *)
Fixpoint table_set {A} (key : string) (v : A) (table : list (string * A)) : list (string * A) :=
  match table with
  | [] => [(key, v)]
  | (k, w) :: rest => if bool_decide (k = key) then (k, v) :: rest else (k, w) :: table_set key v rest
  end.
(** The tables of the loop: the archive of each key, the key of each normalized reference and
    the digest of each repository *)
Record staging := {
  inventory : list (string * string);
  normalized_of_key : list (string * string);
  key_of_normalized : list (string * string);
  repository_digests : list (string * string);
}.
Definition stage (st : staging) (candidate : string * string) : R staging :=
  let '(key, reference) := candidate in
  raise_if negb (pinned reference) with_ RGovernance ("G02 staging image is not digest-pinned: " +:+ reference);;
  let normalized := containerd_normalized_reference reference in
  raise_if negb (startswith normalized "docker.io/")
    with_ RGovernance ("G02 staging image is outside Docker Hub: " +:+ reference);;
  let repository := repository_of normalized in
  let digest := digest_of normalized in
  raise_if match table_get (repository_digests st) repository with Some d => negb (String.eqb d digest) | None => false end
    with_ RGovernance ("G02 staging image digest drift for " +:+ repository);;
  let digests := table_set repository digest (repository_digests st) in
  raise_if match table_get (normalized_of_key st) key with Some n => negb (String.eqb n normalized) | None => false end
    with_ RGovernance ("G02 staging archive key collision: " +:+ key);;
  Ok match table_get (key_of_normalized st) normalized with
     | Some _ => {| inventory := inventory st; normalized_of_key := normalized_of_key st;
                    key_of_normalized := key_of_normalized st; repository_digests := digests |}
     | None => {| inventory := table_set key reference (inventory st);
                  normalized_of_key := table_set key normalized (normalized_of_key st);
                  key_of_normalized := table_set normalized key (key_of_normalized st); repository_digests := digests |}
     end.
Definition probe_key (name : string) : string :=
  "probe-" +:+ String.string_of_list_ascii ((λ c : ascii, if Ascii.eqb c "_" then "-"%char else c) <$> String.list_ascii_of_string name).
Definition staging_candidates (config : mapping) (probe_images : list (string * string)) : R (list (string * string)) :=
  match dget "images" config with
  | VList ((_ :: _) as images) =>
      raise_if negb (forallb (λ n, bool_decide (n ∈ probe_images.*1)) PROBE_IMAGE_NAMES &&
                     forallb (λ n, bool_decide (n ∈ PROBE_IMAGE_NAMES)) probe_images.*1)
        with_ RGovernance "G02 staging requires exactly the two frozen probe images";;
      let* found := rmapM candidate_image images in
      let* probes := rmapM (λ name, let* r := from_option_or (RPython "KeyError") (table_get probe_images name) in
                                    Ok (probe_key name, r)) PROBE_IMAGE_NAMES in
      Ok (omap id found ++ probes)
  | _ => Err (RGovernance "G02 lab image set is empty")
  end.
Example first_candidate_counts : staging_candidates (smapping [("images", VList [VNone])]) [("busybox", ""); ("minio_mc", "")] =
  Err (RGovernance "G02 lab image entry must be an object").
Proof. reflexivity. Qed.
Definition build_offline_staging_inventory (config : mapping) (probe_images : list (string * string)) : R (list (string * string)) :=
  let* candidates := staging_candidates config probe_images in
  let* st := rfold stage candidates
              {| inventory := []; normalized_of_key := []; key_of_normalized := []; repository_digests := [] |} in
  Ok (inventory st).

(** ** The replay of the resource cases *)

(** A trial of the frozen artifact, or one that was replayed *)
Abbreviation any_trial := (mapping + trial)%type.
Definition trial_payload (t : any_trial) : R mapping :=
  match t with
  | inl record => let* p := item record "payload" in as_mapping p
  | inr t => Ok (payload (current t))
  end.
Definition frozen_case_of (record : val) : R (string * mapping) :=
  let incomplete := RGovernance "resource replay cannot inherit an incomplete frozen case" in
  let malformed := RGovernance "resource replay found a malformed frozen case" in
  let* d := from_option_or incomplete (as_dict record) in
  raise_if negb (val_is (dget "status" d) "pass") with_ incomplete;;
  let* p := from_option_or malformed (as_dict (dget "payload" d)) in
  match dget "scenario_id" p with VStr id => Ok (id, d) | _ => Err malformed end.
Definition frozen_by_case (document : mapping) : R (list (string * mapping)) :=
  match dget "trials" document with
  | VList records =>
      raise_if negb (length records =? 32)%nat
        with_ RGovernance "resource replay requires the frozen 32-case scenario artifact";;
      let* cases := rmapM frozen_case_of records in
      let table := foldl (λ table c, table_set c.1 c.2 table) [] cases in
      raise_if negb (length table =? 32)%nat with_ RGovernance "resource replay found duplicate frozen case IDs";;
      Ok table
  | _ => Err (RGovernance "resource replay requires the frozen 32-case scenario artifact")
  end.
Definition resource_contract (fault_class : string) : string :=
  sha256_hex (if bool_decide (fault_class = "emailMemoryLeak") then "g02-resource-observer-contract-email-v5"
              else "g02-resource-observer-contract-v4").
Definition resource_id (seed : mapping) : option string :=
  if val_is (dget "family" seed) "resource_capacity" then Some (val_str (dget "scenario_id" seed)) else None.
Record resource_result := { rp_ids : list string; rp_trials : list any_trial; rp_packets : list mapping }.

Section ResourceReplay.
Context {W : Type} (now : nat → string).
Context (factory : string → string → SE W readiness_exn (testbed W)).
Context (producer_sha observed_sut_sha image_set_digest : string).
Abbreviation J := (SE (W * journal) readiness_exn).

Definition resource_key (scenario : mapping) (fault_class : string) : R string :=
  let* input := document_digest (VDict scenario) in
  lab_key image_set_digest (resource_contract fault_class) input.
Definition replay_resource (scenario : mapping) : J (string * trial) :=
  let! case := slift (item scenario "scenario_id") in
  let case_id := val_str case in
  let! class := slift (action_class scenario) in
  let fault_class := val_str class in
  let id := "g02-v2-resource-" +:+ casefold case_id in
  let! key := slift (resource_key scenario fault_class) in
  let! previous := on_journal (read id) in
  match trial_decision_of key previous with
  | Inherit t => sret (case_id, t)
  | Settled _ => sraise (RGovernance ("resource case " +:+ case_id +:+ " requires a semantic fix before replay"))
  | Fresh =>
      let facts := [("scenario_id", VStr case_id); ("fault_class", VStr fault_class)] in
      let! _ := on_journal (begin_trial now id producer_sha key (smapping facts)) in
      let! outcome := attempt now id (λ e, smapping (facts ++ [("reason", VStr (exn_text e))]))
                        (run_trial now factory id observed_sut_sha scenario facts None) in
      match outcome with
      | inl (_, _, record) => sret (case_id, record)
      | inr (_, e) => sraise e
      end
  end.
Fixpoint replay_resources (seeds : list mapping) : J (list (string * trial)) :=
  match seeds with
  | [] => sret []
  | seed :: seeds =>
      match resource_id seed with
      | None => replay_resources seeds
      | Some _ => let! done := replay_resource seed in
                  let! rest := replay_resources seeds in sret (done :: rest)
      end
  end.
(** [replacements.get(id, frozen_by_case[id])]: the default is looked up first. *)
Definition combined_trial (frozen : list (string * mapping)) (replacements : list (string * trial)) (seed : mapping) : R any_trial :=
  let* id := item seed "scenario_id" in
  let* default_ := from_option_or (RPython "KeyError") (table_get frozen (val_str id)) in
  Ok (match table_get replacements (val_str id) with Some t => inr t | None => inl default_ end).
Definition packet_of_trial (t : any_trial) : R mapping :=
  let* p := trial_payload t in
  let* packet := item p "observation_packet" in as_mapping packet.
Definition replay_resource_scenarios (frozen_document : mapping) : J resource_result :=
  let! frozen := slift (frozen_by_case frozen_document) in
  let! seeds := slift (seed_catalog image_set_digest) in
  slift (validate_seed_catalog seeds image_set_digest);;;
  let ids := remove_dups (omap resource_id seeds) in
  sguard (negb (length ids =? 8)%nat) (RGovernance "resource replay must select exactly eight cases");;;
  sguard (negb (FULL_SHA observed_sut_sha)) (RGovernance "resource replay requires a full SUT producer SHA");;;
  let! replacements := replay_resources seeds in
  let! combined := slift (rmapM (combined_trial frozen replacements) seeds) in
  let! packets := slift (rmapM packet_of_trial combined) in
  sret {| rp_ids := sort_strings ids; rp_trials := combined; rp_packets := packets |}.
End ResourceReplay.
