(* ===== verification/ObserverTheorems.v ===== *)
(** * Theorems on the live observer

    Every wait of the observer ends; observing never writes a flag, so that a scenario on the
    live system restores the document or reports; what a healthy control and a fault window
    guarantee; an injection outside a scenario is recorded before it is made; the staged
    images; and the replay of the resource cases. *)
From Stdlib Require Import Ascii.
From S2P Require Import Prelude Json JsonFacts Sha256 PyDyn PyCalendar PyFloat Experiment ExperimentTheorems Packet Scoring ScoringTheorems PacketTheorems Lab LabTheorems Matrix MatrixTheorems Thresholds ThresholdsTheorems Reference RunDirectory Observer.

(** ** What observing keeps *)

Definition is_write (s : script) : bool := match s with WriteFlags _ => true | _ => false end.
(** A property of the world that only a write can change *)
Class Undisturbed {W : Type} (rm : remote W) (P : W → Prop) : Prop := {
  script_keeps s : is_write s = false → keeps P (run_remote_script rm s);
  monotonic_keeps w : P w → P (monotonic rm w).2;
  utc_keeps w : P w → P (utc_now rm w).2;
  sleep_keeps n w : P w → P (sleep rm n w);
}.

Lemma keeps_catch {S E A} (P : S → Prop) (m : SE S E A) h : keeps P m → (∀ e, keeps P (h e)) → keeps P (scatch m h).
Proof. intros Hm Hh s Hs. unfold scatch. specialize (Hm s Hs). destruct (m s) as [[a|e] s']; [done|]. by apply Hh. Qed.
Lemma keeps_if {S E A} (P : S → Prop) (b : bool) (m m' : SE S E A) : keeps P m → keeps P m' → keeps P (if b then m else m').
Proof. by destruct b. Qed.

Section Keeps.
Context {W : Type} (rm : remote W) (P : W → Prop) `{HU : !Undisturbed rm P}.

Lemma clock_keeps f : (∀ w, P w → P (f w).2) → keeps P (clock f).
Proof using . intros Hf w Hw. unfold clock. specialize (Hf w Hw). by destruct (f w). Qed.
Lemma monotonic_clock_keeps : keeps P (clock (monotonic rm)).
Proof using HU. apply clock_keeps, monotonic_keeps. Qed.
Lemma utc_clock_keeps : keeps P (clock (utc_now rm)).
Proof using HU. apply clock_keeps, utc_keeps. Qed.
Lemma remote_output_keeps keep what s : is_write s = false → keeps P (remote_output rm keep what s).
Proof using HU. intros Hs. apply keeps_catch; [by apply script_keeps|]. auto with fw. Qed.
Lemma read_attempts_keep n : keeps P (read_attempts rm n).
Proof using HU.
  induction n as [|n IH]; cbn [read_attempts]; (apply keeps_catch; [by apply script_keeps|]); intros e; apply keeps_if; auto with fw.
  apply keeps_bind; [|done]. apply keeps_modify, sleep_keeps.
Qed.
Lemma flag_read_keeps : keeps P (flag_read rm).
Proof using HU. apply keeps_bind; [apply read_attempts_keep|]. auto with fw. Qed.
Hint Resolve utc_clock_keeps monotonic_clock_keeps remote_output_keeps flag_read_keeps : fw.

Context (collector observer_digest : string) (cls : observer_class) (producer_sha fault_class : string).
Abbreviation Q := (λ s : Observer.observer * W, P s.2).

Lemma outside_keeps {A} (m : SE W readiness_exn A) : keeps P m → keeps Q (outside m).
Proof using . intros Hm s Hs. unfold outside. specialize (Hm s.2 Hs). by destruct (m s.2). Qed.
Lemma self_keeps : keeps Q self.
Proof using . by intros s. Qed.
Lemma set_self_keeps f : keeps Q (set_self f).
Proof using . by intros s. Qed.
Lemma pause_keeps n : keeps Q (pause rm n).
Proof using HU. apply outside_keeps, keeps_modify, sleep_keeps. Qed.
Hint Resolve outside_keeps self_keeps set_self_keeps pause_keeps keeps_if : fw.
Ltac kept := repeat first
  [ solve [auto with fw] | apply keeps_bind; [|intros ?] | apply keeps_if | apply outside_keeps
  | match goal with |- keeps _ (match ?x with _ => _ end) => destruct x end ].

Lemma checkout_keeps b : keeps P (stimulate_checkout rm producer_sha b).
Proof using HU. unfold stimulate_checkout. kept. Qed.
Lemma product_keeps : keeps P (stimulate_product_fault rm).
Proof using HU. unfold stimulate_product_fault. kept. Qed.
Lemma email_keeps : keeps P (stimulate_email_request rm).
Proof using HU. unfold stimulate_email_request. kept. Qed.
Lemma ad_keeps : keeps P (stimulate_ad_request rm).
Proof using HU. unfold stimulate_ad_request. kept. Qed.
Lemma reset_keeps : keeps P (reset_email_runtime rm).
Proof using HU. unfold reset_email_runtime. kept. Qed.
Hint Resolve checkout_keeps product_keeps email_keeps ad_keeps reset_keeps : fw.
Lemma stimulate_keeps name m : keeps P m → keeps Q (stimulate name m).
Proof using . intros Hm. unfold stimulate. kept. Qed.
Hint Resolve stimulate_keeps : fw.
Lemma sample_keeps since : keeps Q (sample rm collector observer_digest cls fault_class since).
Proof using HU. unfold sample. kept. Qed.
Lemma drive_keeps faulty : keeps Q (drive_label_workload rm producer_sha fault_class faulty).
Proof using HU. unfold drive_label_workload, stimulate_kafka_fault, stimulate_payment_fault. kept. Qed.
Hint Resolve sample_keeps drive_keeps : fw.

(** A try keeps what it does at the deadline, too. *)
Definition keeps_try {S E A} (P : S → Prop) (m : SE S E (attempted S E A)) : Prop :=
  keeps P m ∧ ∀ s late s', m s = (Ok (Later late), s') → keeps P late.
Lemma try_bind {S E A B} (T : S → Prop) (m : SE S E A) (k : A → SE S E (attempted S E B)) :
  keeps T m → (∀ a, keeps_try T (k a)) → keeps_try T (sbind m k).
Proof using .
  intros Hm Hk. split; [apply keeps_bind; [done|]; intros a; apply Hk|].
  intros s late s' H. unfold sbind in H. destruct (m s) as [[a|e] s1]; [|done]. by eapply Hk.
Qed.
Lemma try_if {S E A} (T : S → Prop) (b : bool) (m m' : SE S E (attempted S E A)) :
  keeps_try T m → keeps_try T m' → keeps_try T (if b then m else m').
Proof using . by destruct b. Qed.
Lemma try_settles {S E A} (T : S → Prop) (a : A) : keeps_try (E:=E) T (sret (Settles a)).
Proof using . split; [apply keeps_ret|]. by intros s late s' [=]. Qed.
Lemma try_later {S E A} (T : S → Prop) (late : SE S E A) : keeps T late → keeps_try T (sret (Later late)).
Proof using . intros Hl. split; [apply keeps_ret|]. by intros s l s' [= <- _]. Qed.
Lemma poll_keeps {S A} (T : S → Prop) fuel now wait deadline (m : SE S readiness_exn (attempted S readiness_exn A)) between :
  keeps T now → keeps T wait → keeps_try T m → keeps T between → keeps T (poll fuel now wait deadline m between).
Proof using .
  intros Hn Hw [Hm Hl] Hb. induction fuel as [|fuel IH]; cbn [poll]; [apply keeps_raise|].
  intros s Hs. specialize (Hm s Hs). unfold sbind at 1. destruct (m s) as [[[a|late]|e] s1] eqn:E; [done| |done].
  cbn in Hm. specialize (Hl _ _ _ E). revert s1 Hm E. intros s1 Hs1 _. revert s1 Hs1.
  apply keeps_bind; [done|]. intros t. apply keeps_if; [done|]. repeat (apply keeps_bind; [done|intros _]). done.
Qed.

Ltac tried := repeat first
  [ apply try_bind; [solve [kept]|intros ?] | apply try_if | apply try_settles | apply try_later; solve [kept] ].
Lemma quiescence_keeps : keeps_try Q (quiescence_try rm collector observer_digest cls fault_class).
Proof using HU. unfold quiescence_try, now_utc. tried. Qed.
Lemma control_try_keeps since : keeps_try Q (control_try rm collector observer_digest cls fault_class since).
Proof using HU.
  unfold control_try. do 3 (apply try_bind; [kept|intros ?]). destruct (_ && _); [apply try_settles|apply try_later; kept].
Qed.
Lemma fault_try_keeps since : keeps_try Q (fault_try rm collector observer_digest cls fault_class since).
Proof using HU. unfold fault_try. tried. Qed.
Lemma recovery_try_keeps since : keeps_try Q (recovery_try rm collector observer_digest cls fault_class since).
Proof using HU. unfold recovery_try. tried. Qed.
Lemma healthy_try_keeps : keeps_try Q (healthy_try rm collector observer_digest cls fault_class).
Proof using HU.
  unfold healthy_try, now_utc. do 3 (apply try_bind; [kept|intros ?]). case_bool_decide; [apply try_settles|apply try_later; kept].
Qed.
Lemma poll_for_keeps {A} n (m : SE (Observer.observer * W) readiness_exn (attempted _ _ A)) between :
  keeps_try Q m → keeps Q between → keeps Q (poll_for rm n m between).
Proof using HU.
  intros Hm Hb. unfold poll_for, now_monotonic. apply keeps_bind; [kept|]. intros start. apply poll_keeps; [kept|kept|done|done].
Qed.
Hint Resolve poll_for_keeps quiescence_keeps control_try_keeps fault_try_keeps recovery_try_keeps healthy_try_keeps : fw.

Lemma between_keeps faulty : keeps Q (between_polls rm cls producer_sha fault_class faulty).
Proof using HU. unfold between_polls. kept. Qed.
Hint Resolve between_keeps : fw.
Lemma control_keeps : keeps Q (control_phase rm collector observer_digest cls fault_class).
Proof using HU.
  unfold control_phase, prepare_control, await_ad_cpu_quiescence, keep_baseline, set_base, now_utc. kept.
Qed.
Lemma fault_keeps : keeps Q (fault_phase rm collector observer_digest cls producer_sha fault_class).
Proof using HU.
  unfold fault_phase, start_fault, now_utc, stimulate_kafka_fault, stimulate_payment_fault. kept.
Qed.
Lemma recovery_keeps : keeps Q (recovery_phase rm collector observer_digest cls producer_sha fault_class).
Proof using HU. unfold recovery_phase, start_recovery, now_utc. kept. Qed.
Hint Resolve control_keeps fault_keeps recovery_keeps : fw.
Lemma observe_live_keeps phase fault_class' :
  keeps Q (observe_live rm collector observer_digest cls producer_sha fault_class phase fault_class').
Proof using HU. unfold observe_live. kept. Qed.
Lemma collect_healthy_keeps : keeps Q (collect_healthy rm collector observer_digest cls producer_sha fault_class).
Proof using HU. unfold collect_healthy. kept. Qed.
End Keeps.

(** ** The live system as a test bed *)

(** A read tells the document the system holds, and only a write changes it.  Nothing is
    assumed of writes, of what is collected or of the clocks. *)
Class TruthfulRemote {W : Type} (rm : remote W) (held : W → mapping) : Prop := {
  only_writes_change doc :: Undisturbed rm (λ w, held w = doc);
  read_tells w text w' : run_remote_script rm ReadFlags w = (Ok text, w') → loads text = Some (VDict (held w));
}.

Section Truthful.
Context {W : Type} (rm : remote W) (held : W → mapping) `{!TruthfulRemote rm held}.

Lemma attempts_tell n w text w' : read_attempts rm n w = (Ok text, w') → loads text = Some (VDict (held w)).
Proof using All.
  revert w. induction n as [|n IH]; intros w H; cbn [read_attempts] in H; unfold scatch in H;
    pose proof (script_keeps (rm:=rm) (P:=λ u, held u = held w) ReadFlags eq_refl w eq_refl) as Hk;
    destruct (run_remote_script rm ReadFlags w) as [[a|e] w1] eqn:E; cbn in Hk.
  - injection H as <- <-. by eapply read_tells.
  - by destruct (negb _).
  - injection H as <- <-. by eapply read_tells.
  - destruct (negb _); [done|]. apply IH in H.
    pose proof (sleep_keeps (rm:=rm) (P:=λ u, held u = held w) (seconds FLAG_TRANSPORT_RETRY_DELAY_SECONDS) w1 Hk) as Hs.
    cbn in Hs. by rewrite Hs in H.
Qed.
Lemma flag_read_tells w d w' : flag_read rm w = (Ok d, w') → d = held w.
Proof using All.
  intros H. apply sbind_ok in H as (text & w1 & Ht & H). apply attempts_tell in Ht.
  unfold slift, flag_document in H. rewrite Ht in H. cbn in H. destruct (dget "flags" (held w)); simplify_eq. done.
Qed.

Context (collector observer_digest : string) (cls : observer_class) (producer_sha fault_class : string).
#[export] Instance live_testbed_truthful :
  TruthfulTestbed (live_testbed rm collector observer_digest cls producer_sha fault_class) (λ s, held s.2).
Proof using All.
  split.
  - intros [o w]. by apply (outside_keeps (λ u, held u = held w) _ (flag_read_keeps rm _)).
  - intros [o w] d s' H. cbn in H. unfold outside in H. cbn [fst snd] in H. destruct (flag_read rm w) as [r w1] eqn:E.
    injection H as -> _. by eapply flag_read_tells.
  - intros phase fc [o w]. by apply (observe_live_keeps rm (λ u, held u = held w)).
Qed.
#[export] Instance live_bed_truthful :
  TruthfulBed (live_bed rm collector observer_digest cls producer_sha fault_class) (λ s, held s.2).
Proof using All.
  split; [apply _|]. intros [o w]. by apply (collect_healthy_keeps rm (λ u, held u = held w)).
Qed.
End Truthful.

(** The live observer and the remote flag client are what a readiness scenario runs on:
    whatever the host refuses, whatever is collected and however long it takes, a result comes
    only after the flags were read back as they were, and an error leaves them so, or carries
    diagnostics that name the cleanup error, or is an exception of Python's own that was
    raised while the diagnostics were made. *)
Theorem live_readiness_restores_or_reports {W : Type} (rm : remote W) (held : W → mapping) `{!TruthfulRemote rm held}
    collector observer_digest cls producer_sha fault_class scenario o w r s' :
  run_readiness_scenario_v3 (live_bed rm collector observer_digest cls producer_sha fault_class) scenario (o, w) = (r, s') →
  match r with
  | Ok _ => docs_equal (held s'.2) (held w) = true
  | Err (e, diagnostics) =>
      same_document (held s'.2) (held w) ∨
      (∃ d reason, diagnostics = Some d ∧ dget "cleanup_error" d = VStr reason) ∨
      (diagnostics = None ∧ ∃ name, e = RPython name)
  end.
Proof.
  apply (readiness_restores_or_reports (live_bed rm collector observer_digest cls producer_sha fault_class) (λ s, held s.2)).
Qed.

(** ** Waiting *)

(** The loops of the source, which no fuel bounds: [while True], with a [return] or a
    [raise] in the body, a deadline and a wait *)
Section Loops.
Context {S A : Type} (now : SE S readiness_exn Z) (wait between : SE S readiness_exn unit) (deadline : Z).
Context (try : SE S readiness_exn (attempted S readiness_exn A)).

Inductive loop_runs : S → result readiness_exn A * S → Prop :=
| loop_raises s e s' : try s = (Err e, s') → loop_runs s (Err e, s')
| loop_settles s a s' : try s = (Ok (Settles a), s') → loop_runs s (Ok a, s')
| loop_late s late s1 t s2 :
    try s = (Ok (Later late), s1) → now s1 = (Ok t, s2) → (deadline <= t)%Z → loop_runs s (late s2)
| loop_again s late s1 t s2 s3 out :
    try s = (Ok (Later late), s1) → now s1 = (Ok t, s2) → (t < deadline)%Z →
    (wait;;; between) s2 = (Ok tt, s3) → loop_runs s3 out → loop_runs s out
| loop_breaks s late s1 t s2 e s3 :
    try s = (Ok (Later late), s1) → now s1 = (Ok t, s2) → (t < deadline)%Z →
    (wait;;; between) s2 = (Err e, s3) → loop_runs s (Err e, s3).

(** What a try that settled, or the deadline, made of a loop that returned *)
Lemma poll_returns (I : S → Prop) fuel s a s' : poll fuel now wait deadline try between s = (Ok a, s') → I s →
  (∀ s late s1 t s2, I s → try s = (Ok (Later late), s1) → now s1 = (Ok t, s2) → I s2) →
  keeps I (wait;;; between) →
  ∃ s0, I s0 ∧ (try s0 = (Ok (Settles a), s') ∨
    ∃ late s1 t s2, try s0 = (Ok (Later late), s1) ∧ now s1 = (Ok t, s2) ∧ (deadline <= t)%Z ∧ late s2 = (Ok a, s')).
Proof.
  intros H HI Htry Hwait. revert s H HI. induction fuel as [|fuel IH]; intros s H HI; [done|]. cbn [poll] in H.
  apply sbind_ok in H as (outcome & s1 & Et & H). destruct outcome as [b|late].
  { injection H as -> ->. exists s. by split; [|left]. }
  apply sbind_ok in H as (t & s2 & En & H). pose proof (Htry _ _ _ _ _ HI Et En) as H2.
  destruct (Z.leb_spec deadline t) as [Hle|_]; [exists s; split; [done|]; right; by eexists _, _, _, _|].
  apply sbind_ok in H as ([] & s3 & Ew & H). apply sbind_ok in H as ([] & s4 & Eb & H). apply (IH s4); [done|].
  specialize (Hwait s2 H2). unfold sbind in Hwait. by rewrite Ew, Eb in Hwait.
Qed.

(** With a clock that advances, the loop ends, and it ends as [poll] says. *)
Lemma poll_runs (time : S → Z) (step : Z) fuel s : (0 < step)%Z →
  (∀ s, ∃ t s', now s = (Ok t, s') ∧ time s <= t <= time s')%Z →
  (∀ s s', (wait;;; between) s = (Ok tt, s') → time s + step <= time s')%Z →
  (∀ s, time s <= time (try s).2)%Z →
  (deadline <= time s + step * Z.of_nat fuel)%Z →
  loop_runs s (poll (Datatypes.S fuel) now wait deadline try between s).
Proof.
  intros Hstep Hnow Hwait Htry. revert s. induction fuel as [|fuel IH]; intros s Hf;
    rewrite (eq_refl : poll (Datatypes.S _) now wait deadline try between =
      (let! outcome := try in match outcome with Settles a => sret a | Later late =>
         let! t := now in if (deadline <=? t)%Z then late else wait;;; between;;; poll _ now wait deadline try between end));
    unfold sbind at 1; specialize (Htry s); destruct (try s) as [[[a|late]|e] s1] eqn:E;
    try (by constructor); cbn in Htry; unfold sbind at 1; destruct (Hnow s1) as (t & s2 & En & Ht); rewrite En.
  - destruct (Z.leb_spec deadline t); [by econstructor|]. lia.
  - destruct (Z.leb_spec deadline t); [by econstructor|].
    destruct ((wait;;; between) s2) as [[[]|e] s3] eqn:Ew.
    + match goal with |- loop_runs _ (?m s2) => replace (m s2) with (poll (Datatypes.S fuel) now wait deadline try between s3) end.
      2:{ revert Ew. unfold sbind. destruct (wait s2) as [[[]|] s4]; [|done]. by intros ->. }
      eapply loop_again; [done..|]. apply IH. specialize (Hwait _ _ Ew). lia.
    + match goal with |- loop_runs _ (?m s2) => replace (m s2) with (@Err readiness_exn A e, s3) end.
      2:{ revert Ew. unfold sbind. destruct (wait s2) as [[[]|] s4]; [|by intros [= <- <-]]. by intros ->. }
      by eapply loop_breaks.
Qed.
End Loops.

(** The clock never goes back, whatever runs; a reading lies between before and after; a wait
    takes its time. *)
Class SteadyClock {W : Type} (rm : remote W) (time : W → Z) : Prop := {
  never_back t :: Undisturbed rm (λ w, t <= time w)%Z;
  clock_tells w : (time w <= (monotonic rm w).1 <= time (monotonic rm w).2)%Z;
  sleep_takes n w : (0 <= n)%Z → (time w + n <= time (sleep rm n w))%Z;
}.

Section Waiting.
Context {W : Type} (rm : remote W).
(** A loop of the observer, as the source writes it, ends for [n] seconds at most of waiting,
    and as [poll_for] says *)
Definition ends {A} (n : Z) (try : SE (Observer.observer * W) readiness_exn (attempted _ _ A)) (between : SE _ readiness_exn unit) : Prop :=
  ∀ s, ∃ start s1, now_monotonic rm s = (Ok start, s1) ∧
    loop_runs (now_monotonic rm) (pause rm FAULT_POLL_INTERVAL_SECONDS) between (start + seconds n)%Z try s1 (poll_for rm n try between s).

Context (time : W → Z) `{!SteadyClock rm time}.
Lemma monotonic_reads (s : Observer.observer * W) :
  ∃ t s', now_monotonic rm s = (Ok t, s') ∧ (time s.2 <= t <= time s'.2)%Z.
Proof using All.
  destruct s as [o w]. unfold now_monotonic, outside, clock. cbn. pose proof (clock_tells (rm:=rm) w).
  destruct (monotonic rm w) as [t w']. by exists t, (o, w').
Qed.
Lemma pause_takes n (s : Observer.observer * W) : (0 <= n)%Z → (time s.2 + seconds n <= time (pause rm n s).2.2)%Z.
Proof using All. intros Hn. apply (sleep_takes (rm:=rm)). unfold seconds, MICRO. lia. Qed.
Lemma keeps_forward {A} (m : SE (Observer.observer * W) readiness_exn A) :
  (∀ t, keeps (λ s, t <= time s.2)%Z m) → ∀ s, (time s.2 <= time (m s).2.2)%Z.
Proof using . intros Hm s. apply (Hm (time s.2) s). lia. Qed.
Lemma loop_ends {A} n (try : SE (Observer.observer * W) readiness_exn (attempted _ _ A)) between : (n mod 5 = 0)%Z → (0 <= n)%Z →
  (∀ t, keeps_try (λ s, t <= time s.2)%Z try) → (∀ t, keeps (λ s, t <= time s.2)%Z between) → ends n try between.
Proof using All.
  intros Hn Hpos Htry Hbetween s. destruct (monotonic_reads s) as (start & s1 & E & Ht). exists start, s1. split; [done|].
  unfold poll_for, sbind at 1. rewrite E. unfold tries.
  apply poll_runs with (time := λ s, time s.2) (step := seconds FAULT_POLL_INTERVAL_SECONDS).
  - unfold seconds, MICRO. done.
  - apply monotonic_reads.
  - intros s2 s3 H. unfold sbind in H. pose proof (pause_takes FAULT_POLL_INTERVAL_SECONDS s2 ltac:(done)) as Hp.
    destruct (pause rm _ s2) as [[[]|] s4]; [|done]. pose proof (keeps_forward between Hbetween s4) as Hb. rewrite H in Hb. cbn in *. lia.
  - apply keeps_forward. intros t. apply Htry.
  - rewrite Z2Nat.id by (apply Z.div_pos; done). unfold seconds, FAULT_POLL_INTERVAL_SECONDS, MICRO in *.
    pose proof (Z_div_mod_eq_full n 5). lia.
Qed.
End Waiting.

(** C11: Every wait of the observer ends.  With a clock that never goes back and a sleep that
    takes its time, each polling loop of the source, read without any bound on its turns, has
    an outcome, and it is the one computed with one try at the start and one for each five
    seconds up to the deadline. *)
Theorem every_wait_ends {W : Type} (rm : remote W) (time : W → Z) `{!SteadyClock rm time}
    collector observer_digest cls producer_sha fault_class since :
  cls ∈ [LiveScenarioObserver; LiveReadinessObserverV3] →
  ends rm FAULT_ACTIVATION_DEADLINE_SECONDS (control_try rm collector observer_digest cls fault_class since) (sret tt) ∧
  ends rm FAULT_ACTIVATION_DEADLINE_SECONDS (fault_try rm collector observer_digest cls fault_class since)
    (between_polls rm cls producer_sha fault_class true) ∧
  ends rm (recovery_deadline_seconds cls) (recovery_try rm collector observer_digest cls fault_class since)
    (between_polls rm cls producer_sha fault_class false) ∧
  ends rm V3_AD_CPU_QUIESCENCE_DEADLINE_SECONDS (quiescence_try rm collector observer_digest cls fault_class) (sret tt) ∧
  ends rm FAULT_ACTIVATION_DEADLINE_SECONDS (healthy_try rm collector observer_digest cls fault_class)
    (drive_label_workload rm producer_sha fault_class true).
Proof.
  intros Hcls. assert (recovery_deadline_seconds cls mod 5 = 0 ∧ 0 <= recovery_deadline_seconds cls)%Z as [Hm Hp].
  { apply elem_of_cons in Hcls as [->|Hcls]; [done|]. apply list_elem_of_singleton in Hcls as ->. done. }
  split_and!; apply (loop_ends rm time); try done; intros t.
  - apply (control_try_keeps rm (λ w, t <= time w)%Z).
  - apply keeps_ret.
  - apply (fault_try_keeps rm (λ w, t <= time w)%Z).
  - apply (between_keeps rm (λ w, t <= time w)%Z).
  - apply (recovery_try_keeps rm (λ w, t <= time w)%Z).
  - apply (between_keeps rm (λ w, t <= time w)%Z).
  - apply (quiescence_keeps rm (λ w, t <= time w)%Z).
  - apply keeps_ret.
  - apply (healthy_try_keeps rm (λ w, t <= time w)%Z).
  - apply (drive_keeps rm (λ w, t <= time w)%Z).
Qed.

(** ** What the windows show *)

Section Windows.
Context {W : Type} (rm : remote W) (time : W → Z) `{HS : !SteadyClock rm time}.
Context (collector observer_digest : string) (cls : observer_class) (producer_sha fault_class : string).

(** The samples of the fault window so far, and a time that is over *)
Definition so_far (l : list mapping) (t : Z) (s : Observer.observer * W) : Prop :=
  samples (fault_window s.1) = l ∧ (t <= time s.2)%Z.
Lemma outside_so_far {A} l t (m : SE W readiness_exn A) : (∀ t, keeps (λ w, t <= time w)%Z m) → keeps (so_far l t) (outside m).
Proof using . intros Hm [o w] [Hl Ht]. unfold outside. specialize (Hm t w Ht). cbn in *. by destruct (m w). Qed.
Lemma set_so_far l t f : (∀ o, samples (fault_window (f o)) = samples (fault_window o)) → keeps (so_far l t) (set_self f).
Proof using . intros Hf [o w] [Hl Ht]. split; [|done]. cbn. by rewrite Hf. Qed.
Lemma now_so_far l t : keeps (so_far l t) (now_monotonic rm).
Proof using HS. apply outside_so_far. intros t'. apply (monotonic_clock_keeps rm (λ w, t' <= time w)%Z). Qed.
Lemma utc_so_far l t : keeps (so_far l t) (now_utc rm).
Proof using HS. apply outside_so_far. intros t'. apply (utc_clock_keeps rm (λ w, t' <= time w)%Z). Qed.
Lemma pause_so_far l t n : keeps (so_far l t) (pause rm n).
Proof using HS. apply outside_so_far. intros t'. apply keeps_modify, (sleep_keeps (rm:=rm) (P:=λ w, t' <= time w)%Z). Qed.
Lemma requests_so_far l t m :
  m ∈ [stimulate_ad_request rm; stimulate_product_fault rm; stimulate_email_request rm;
       stimulate_kafka_fault rm producer_sha; stimulate_payment_fault rm producer_sha] →
  keeps (so_far l t) (outside m).
Proof using HS.
  intros Hm. apply outside_so_far. intros t'. rewrite !elem_of_cons in Hm. destruct Hm as [->|[->|[->|[->|[->|Hm]]]]].
  - apply (ad_keeps rm (λ w, t' <= time w)%Z).
  - apply (product_keeps rm (λ w, t' <= time w)%Z).
  - apply (email_keeps rm (λ w, t' <= time w)%Z).
  - apply (checkout_keeps rm (λ w, t' <= time w)%Z).
  - apply (checkout_keeps rm (λ w, t' <= time w)%Z).
  - by apply not_elem_of_nil in Hm.
Qed.
Ltac request := apply requests_so_far; rewrite !elem_of_cons; tauto.
Ltac windowed := repeat first
  [ apply keeps_bind; [|intros ?] | apply keeps_if | apply keeps_ret | apply keeps_raise | apply keeps_lift
  | apply now_so_far | apply utc_so_far | apply pause_so_far | request | (apply set_so_far; intros ?; done)
  | match goal with |- keeps _ (set_self (if ?b then _ else _)) => destruct b end ].
Lemma drive_so_far l t : keeps (so_far l t) (drive_label_workload rm producer_sha fault_class true).
Proof using HS. unfold drive_label_workload. windowed. Qed.
Lemma start_fault_so_far l t : keeps (so_far l t) (start_fault rm cls producer_sha fault_class).
Proof using HS.
  unfold start_fault. apply keeps_bind; [by intros s|]. intros o. destruct (started (fault_window o)); windowed.
Qed.
Lemma sample_so_far l t since : keeps (so_far l t) (sample rm collector observer_digest cls fault_class since).
Proof using HS.
  unfold sample. destruct (readiness_v3 cls); (apply keeps_bind; [|intros ?]); try apply keeps_lift; try apply self_keeps.
  - apply keeps_bind; [|intros ?; apply keeps_lift]. apply outside_so_far. intros t'.
    by apply (remote_output_keeps rm (λ w, t' <= time w)%Z).
  - by intros s.
  - apply keeps_bind; [apply keeps_lift|intros ?]. apply keeps_bind; [|intros ?; apply keeps_lift].
    apply outside_so_far. intros t'. by apply (remote_output_keeps rm (λ w, t' <= time w)%Z).
Qed.

Abbreviation email := (is_class fault_class "emailMemoryLeak").
(** What a fault observation was made of: a sample with every series *)
Definition observed (obs : mapping) : Prop :=
  ∃ d o, absent_series d = Ok [] ∧ active_observation fault_class o d = Ok obs.
(** The fault oracle on what is compared, after the samples [l] *)
Definition judged (l : list mapping) (obs : mapping) (state : OracleState) : Prop :=
  ∃ earlier, (if email then last l = Some earlier else earlier = obs) ∧ fault_state fault_class [earlier; obs] = Ok state.

Lemma fault_try_outcome l t since s outcome s' : so_far l t s →
  fault_try rm collector observer_digest cls fault_class since s = (Ok outcome, s') →
  match outcome with
  | Settles obs => observed obs ∧ samples (fault_window s'.1) = l ++ [obs] ∧
                   ((email = true ∧ l = []) ∨ judged l obs FAULT_ACTIVE)
  | Later late => so_far l t s' ∧ ∀ s2 obs s3, so_far l t s2 → late s2 = (Ok obs, s3) →
      observed obs ∧ (∃ state, judged l obs state) ∧ s3.2 = s2.2 ∧
      samples (fault_window s3.1) = if retain_terminal_fault_sample cls then l ++ [obs] else l
  end.
Proof using HS.
  intros Hs H. apply sbind_ok in H as (d & s1 & Hd & H). pose proof (sample_so_far l t since s Hs) as H1. rewrite Hd in H1. cbn in H1.
  apply sbind_ok in H as (absent & s2 & Ha & H). injection Ha as Ha <-. case_bool_decide as Hempty; cbn [negb] in H; [subst absent|].
  2:{ injection H as <- <-. split; [done|]. by intros s2 obs s3 _ [=]. }
  apply sbind_ok in H as (o & s2 & Ho & H). injection Ho as <- <-.
  apply sbind_ok in H as (obs & s2 & Hobs & H). injection Hobs as Hobs <-.
  assert (observed obs) as Hob by (by exists d, s1.1). destruct H1 as [Hl Ht].
  destruct (email && _) eqn:Efirst.
  { apply sbind_ok in H as ([] & s2 & Hk & H). injection Hk as <-. injection H as <- <-. cbn.
    apply andb_true_iff in Efirst as [-> Hnil%bool_decide_eq_true]. rewrite Hl in Hnil. rewrite Hl, Hnil. split_and!; auto. }
  apply sbind_ok in H as (earlier & s2 & He & H). injection He as He <-.
  apply sbind_ok in H as (state & s2 & Hst & H). injection Hst as Hst <-.
  assert (judged l obs state) as Hj.
  { exists earlier. split; [|done]. destruct email; [|congruence]. unfold last_sample in He. rewrite Hl in He.
    by destruct (last l); simplify_eq/=. }
  case_bool_decide as Hactive.
  - apply sbind_ok in H as ([] & s2 & Hk & H). injection Hk as <-. injection H as <- <-. subst state. cbn. rewrite Hl. auto.
  - injection H as <- <-. split; [done|]. intros s2 ob s3 [Hl2 Ht2] Hlate. apply sbind_ok in Hlate as ([] & s4 & Hk & Hlate).
    injection Hlate as <- <-. destruct (retain_terminal_fault_sample cls); injection Hk as <-; cbn; rewrite ?Hl2; eauto.
Qed.

(** The polling of the phase, begun with the samples [l] at the time [t] *)
Lemma fault_poll_outcome l t since s obs s' : so_far l t s →
  poll_for rm FAULT_ACTIVATION_DEADLINE_SECONDS (fault_try rm collector observer_digest cls fault_class since)
    (between_polls rm cls producer_sha fault_class true) s = (Ok obs, s') →
  observed obs ∧
  ((samples (fault_window s'.1) = l ++ [obs] ∧ ((email = true ∧ l = []) ∨ judged l obs FAULT_ACTIVE)) ∨
   ((t + seconds FAULT_ACTIVATION_DEADLINE_SECONDS <= time s'.2)%Z ∧ (∃ state, judged l obs state) ∧
    samples (fault_window s'.1) = if retain_terminal_fault_sample cls then l ++ [obs] else l)).
Proof using HS.
  intros Hs H. apply sbind_ok in H as (start & s3 & Hstart & H).
  pose proof (now_so_far l t s Hs) as Hs3. rewrite Hstart in Hs3. cbn in Hs3. assert (t <= start)%Z as Hle.
  { destruct (monotonic_reads rm time s) as (u & s1 & E & Hu). rewrite E in Hstart. injection Hstart as -> ->. destruct Hs. lia. }
  destruct (poll_returns _ _ _ _ _ (so_far l t) _ _ _ _ H Hs3) as (s0 & Hs0 & Hend).
  { intros s4 late s5 u s6 Hs4 Htry Hnow. apply (fault_try_outcome l t) in Htry as [Hs5 _]; [|done].
    pose proof (now_so_far l t s5 Hs5) as Hk. by rewrite Hnow in Hk. }
  { apply keeps_bind; [apply pause_so_far|]. intros []. unfold between_polls. apply keeps_if; [|apply keeps_ret]. apply drive_so_far. }
  destruct Hend as [Hset|(late & s4 & u & s5 & Htry & Hnow & Hu & Hlate)].
  - apply (fault_try_outcome l t) in Hset as (Hob & Hl & Hj); [|done]. split; [done|]. by left.
  - apply (fault_try_outcome l t) in Htry as [Hs4 Hout]; [|done].
    destruct (monotonic_reads rm time s4) as (v & s6 & E & Hreads). rewrite E in Hnow. injection Hnow as -> ->.
    pose proof (now_so_far l t s4 Hs4) as Hs5. rewrite E in Hs5. cbn in Hs5.
    destruct (Hout _ _ _ Hs5 Hlate) as (Hob & Hst & Hw & Hl). rewrite Hw. split; [done|]. right. split_and!; [lia|done|done].
Qed.
End Windows.

(** C12: A fault window is settled or late.  An observation of the fault phase rests on a
    sample with every series; it is the first of a memory leak, or the oracle calls it active,
    compared with the window before where the fault is a leak, or ninety seconds have passed;
    and it is kept among the samples, unless it is late and the class keeps only active ones. *)
Theorem fault_windows_are_settled_or_late {W : Type} (rm : remote W) (time : W → Z) `{!SteadyClock rm time}
    collector observer_digest cls producer_sha fault_class o w obs o' w' :
  observe_live rm collector observer_digest cls producer_sha fault_class "fault" fault_class (o, w) = (Ok obs, (o', w')) →
  let before := samples (fault_window o) in
  observed fault_class obs ∧
  ((samples (fault_window o') = before ++ [obs] ∧
     ((fault_class = "emailMemoryLeak" ∧ before = []) ∨ judged fault_class before obs FAULT_ACTIVE)) ∨
   ((time w + seconds FAULT_ACTIVATION_DEADLINE_SECONDS <= time w')%Z ∧ (∃ state, judged fault_class before obs state) ∧
    samples (fault_window o') = if retain_terminal_fault_sample cls then before ++ [obs] else before)).
Proof.
  intros H before. assert (so_far time before (time w) (o, w)) as Hs by done. clearbody before.
  unfold observe_live in H. unfold is_class in H at 1. rewrite bool_decide_eq_true_2 in H by done. cbn [negb] in H.
  change (fault_phase rm collector observer_digest cls producer_sha fault_class (o, w) = (Ok obs, (o', w'))) in H.
  apply sbind_ok in H as (since & s1 & H1 & H).
  pose proof (start_fault_so_far rm time cls producer_sha fault_class before (time w) (o, w) Hs) as Hs1. rewrite H1 in Hs1. cbn in Hs1.
  apply sbind_ok in H as ([] & s2 & H2 & H).
  assert (so_far time before (time w) s2) as Hs2.
  { match type of H2 with ?m s1 = _ => assert (keeps (so_far time before (time w)) m) as Hk end.
    { repeat first [ apply keeps_if | apply keeps_ret | apply keeps_bind; [|intros ?] | (apply set_so_far; intros ?; done)
        | apply (requests_so_far rm time producer_sha); rewrite !elem_of_cons; tauto ]. }
    specialize (Hk s1 Hs1). by rewrite H2 in Hk. }
  destruct (fault_poll_outcome rm time _ _ _ _ _ before (time w) _ _ _ _ Hs2 H) as [Hob Hout]. split; [done|].
  destruct Hout as [[Hl Hj]|Hlate]; [left|by right]. split; [done|].
  destruct Hj as [[He Hnil]|Hj]; [left|by right]. by apply bool_decide_eq_true in He.
Qed.

(** *** The control *)

Section Control.
Context {W : Type} (rm : remote W) (collector observer_digest : string) (cls : observer_class) (producer_sha fault_class : string).

Definition still (o : Observer.observer) (s : Observer.observer * W) : Prop := s.1 = o.
Lemma outside_stays o {A} (m : SE W readiness_exn A) : keeps (still o) (outside m).
Proof. intros s Hs. unfold outside. by destruct (m s.2). Qed.
Lemma sample_stays o since : keeps (still o) (sample rm collector observer_digest cls fault_class since).
Proof.
  unfold sample. destruct (readiness_v3 cls); repeat first [apply keeps_bind; [|intros ?] | apply outside_stays | apply keeps_lift | by intros s].
Qed.

Lemma quiescence_try_settles s s' : quiescence_try rm collector observer_digest cls fault_class s = (Ok (Settles tt), s') →
  ∃ cores, ad_cpu_quiescent_cores s'.1 = Some cores ∧ xle cores (XFin V3_AD_CPU_QUIESCENT_MAX_CORES) = true.
Proof.
  intros H. apply sbind_ok in H as (now & s1 & _ & H). apply sbind_ok in H as (d & s2 & _ & H).
  apply sbind_ok in H as (absent & s3 & _ & H). destruct (negb _); [done|].
  apply sbind_ok in H as (cpu & s4 & _ & H). destruct (xle cpu _) eqn:E; [|done].
  apply sbind_ok in H as ([] & s5 & Hset & H). injection Hset as <-. injection H as <-. by exists cpu.
Qed.
Lemma quiescence_try_raises s late s' : quiescence_try rm collector observer_digest cls fault_class s = (Ok (Later late), s') →
  ∀ s2, ∃ e, late s2 = (Err e, s2).
Proof.
  intros H. apply sbind_ok in H as (now & s1 & _ & H). apply sbind_ok in H as (d & s2 & _ & H).
  apply sbind_ok in H as (absent & s3 & _ & H). destruct (negb _); [injection H as <- <-; by eexists|].
  apply sbind_ok in H as (cpu & s4 & _ & H). destruct (xle cpu _).
  - by apply sbind_ok in H as ([] & s5 & _ & [=]).
  - injection H as <- <-. by eexists.
Qed.
Lemma quiescence_reached s s' : await_ad_cpu_quiescence rm collector observer_digest cls fault_class s = (Ok tt, s') →
  ∃ cores, ad_cpu_quiescent_cores s'.1 = Some cores ∧ xle cores (XFin V3_AD_CPU_QUIESCENT_MAX_CORES) = true.
Proof.
  intros H. apply sbind_ok in H as (start & s1 & _ & H).
  destruct (poll_returns _ _ _ _ _ (λ _, True) _ _ _ _ H I) as (s0 & _ & [Hs|(late & s2 & t & s3 & Ht & _ & _ & Hl)]); try done.
  - by eapply quiescence_try_settles.
  - destruct (quiescence_try_raises _ _ _ Ht s3) as [e He]. congruence.
Qed.

(** A sample that the control takes for healthy *)
Definition control_sample (d : mapping) : Prop :=
  absent_series d = Ok [] ∧ (∃ ready, item d "ready" = Ok ready ∧ val_truthy ready = true) ∧ journey_ok d = Ok true ∧
  (fault_class = "emailMemoryLeak" → float_positive d "working_set" = Ok true) ∧
  (fault_class = "adHighCpu" → float_positive d "cpu_rate" = Ok true).
Lemma control_try_settles since s d s' :
  control_try rm collector observer_digest cls fault_class since s = (Ok (Settles (Some d)), s') → control_sample d ∧ s'.1 = s.1.
Proof.
  intros H. apply sbind_ok in H as (d' & s1 & Hd & H). pose proof (sample_stays s.1 since s eq_refl) as Hk. rewrite Hd in Hk.
  apply sbind_ok in H as (ready & s2 & Hr & H). injection Hr as Hr <-.
  apply sbind_ok in H as (healthy & s2 & Hh & H). injection Hh as Hh <-.
  destruct (healthy && ready) eqn:E; [|done]. injection H as -> <-. apply andb_true_iff in E as [-> ->]. split; [|done].
  unfold signal_ready in Hr. apply rbind_ok in Hr as (absent & Ha & Hr). case_bool_decide as Hnil; [subst absent|done]. cbn [negb] in Hr.
  unfold sample_healthy in Hh. apply rbind_ok in Hh as (v & Hv & Hh). destruct (val_truthy v) eqn:Et; [|done].
  unfold is_class in Hr. split_and!; [done|by exists v|done|intros He|intros He]; rewrite He in Hr; by cbn in Hr.
Qed.
Lemma control_try_later since s late s' :
  control_try rm collector observer_digest cls fault_class since s = (Ok (Later late), s') → late = sret None ∧ s'.1 = s.1.
Proof.
  intros H. apply sbind_ok in H as (d' & s1 & Hd & H). pose proof (sample_stays s.1 since s eq_refl) as Hk. rewrite Hd in Hk.
  apply sbind_ok in H as (ready & s2 & Hr & H). injection Hr as _ <-. apply sbind_ok in H as (healthy & s2 & Hh & H). injection Hh as _ <-.
  destruct (healthy && ready); [done|]. by injection H as <- <-.
Qed.
Lemma control_poll_outcome since s d s' :
  poll_for rm FAULT_ACTIVATION_DEADLINE_SECONDS (control_try rm collector observer_digest cls fault_class since) (sret tt) s
    = (Ok (Some d), s') → control_sample d ∧ s'.1 = s.1.
Proof.
  intros H. apply sbind_ok in H as (start & s1 & Hstart & H).
  pose proof (outside_stays s.1 (clock (monotonic rm)) s eq_refl) as Hs1. unfold now_monotonic in Hstart. rewrite Hstart in Hs1.
  destruct (poll_returns _ _ _ _ _ (still s.1) _ _ _ _ H Hs1) as (s0 & Hs0 & [Hs|(late & s2 & t & s3 & Ht & _ & _ & Hl)]).
  - intros s2 late s3 t s4 Hs2 Ht Hn. apply control_try_later in Ht as [_ Ht].
    pose proof (outside_stays s.1 (clock (monotonic rm)) s3) as Hk. unfold now_monotonic in Hn. rewrite Hn in Hk. apply Hk. red in Hs2 |- *. congruence.
  - apply keeps_bind; [apply outside_stays|]. intros []. apply keeps_ret.
  - apply control_try_settles in Hs as [Hd Hs]. split; [done|]. red in Hs0. congruence.
  - apply control_try_later in Ht as [-> _]. done.
Qed.
Lemma keep_baseline_reads d (s s' : Observer.observer * W) : keep_baseline d s = (Ok tt, s') →
  float_or_zero d "cpu_rate" = Ok (base_cpu (baseline_of s'.1)) ∧
  float_or_zero d "working_set" = Ok (base_working_set (baseline_of s'.1)) ∧
  float_or_zero d "consumer_lag" = Ok (base_lag (baseline_of s'.1)) ∧ ad_cpu_quiescent_cores s'.1 = ad_cpu_quiescent_cores s.1.
Proof.
  intros H. unfold keep_baseline in H.
  apply sbind_ok in H as (cpu & s1 & Hc & H). injection Hc as Hc <-. apply sbind_ok in H as ([] & s1 & Hs & H). injection Hs as <-.
  apply sbind_ok in H as (ws & s1 & Hw & H). injection Hw as Hw <-. apply sbind_ok in H as ([] & s1 & Hs & H). injection Hs as <-.
  apply sbind_ok in H as (lag & s1 & Hl & H). injection Hl as Hl <-. by injection H as <-.
Qed.
Lemma prepared_at_rest s since s' : prepare_control rm collector observer_digest cls fault_class s = (Ok since, s') →
  fault_class = "adHighCpu" → require_ad_cpu_quiescent_baseline cls = true →
  ∃ cores, ad_cpu_quiescent_cores s'.1 = Some cores ∧ xle cores (XFin V3_AD_CPU_QUIESCENT_MAX_CORES) = true.
Proof.
  intros H Hf Hr. apply sbind_ok in H as (now & s1 & _ & H). unfold is_class in H. rewrite Hr, bool_decide_eq_false_2 in H by congruence.
  rewrite bool_decide_eq_true_2 in H by done.
  apply sbind_ok in H as ([] & s2 & Hq & H). apply quiescence_reached in Hq.
  apply sbind_ok in H as (t & s3 & Ht & H). pose proof (outside_stays s2.1 (clock (utc_now rm)) s2 eq_refl) as H3.
  unfold now_utc in Ht. rewrite Ht in H3. apply sbind_ok in H as (d & s4 & Hd & H).
  pose proof (outside_stays s2.1 (stimulate_ad_request rm) s3 H3) as H4. rewrite Hd in H4. injection H as _ <-.
  unfold still in H4. cbn in H4. by rewrite H4.
Qed.
End Control.


(** *** A recovery with nothing to compare with *)

Section Unsampled.
Context {W : Type} (rm : remote W) (collector observer_digest : string) (cls : observer_class) (producer_sha fault_class : string).

Definition unsampled (s : Observer.observer * W) : Prop := samples (fault_window s.1) = [].
Lemma unsampled_outside {A} (m : SE W readiness_exn A) : keeps unsampled (outside m).
Proof. intros s Hs. unfold outside. by destruct (m s.2). Qed.
Lemma unsampled_set f : (∀ o, samples (fault_window (f o)) = samples (fault_window o)) → keeps unsampled (set_self f).
Proof. intros Hf [o w] Hs. unfold unsampled. cbn. by rewrite Hf. Qed.
Ltac compared := repeat first
  [ apply keeps_bind; [|intros ?] | apply keeps_if | apply keeps_ret | apply keeps_raise | apply keeps_lift
  | apply unsampled_outside | (apply unsampled_set; intros ?; done)
  | match goal with |- keeps _ (match ?x with _ => _ end) => destruct x end ].
Lemma sample_unsampled since : keeps unsampled (sample rm collector observer_digest cls fault_class since).
Proof. unfold sample. compared; by intros s. Qed.
Lemma between_unsampled : keeps unsampled (between_polls rm cls producer_sha fault_class false).
Proof. unfold between_polls, drive_label_workload, stimulate. compared. Qed.
Lemma start_recovery_unsampled : keeps unsampled (start_recovery rm cls fault_class).
Proof. unfold start_recovery, stimulate. apply keeps_bind; [by intros s|]. intros o. compared. Qed.

Hypothesis compared_with_the_fault : fault_class ∈ ["adHighCpu"; "kafkaQueueProblems"].
Lemma nothing_to_compare o d : samples (fault_window o) = [] → ∃ e, recovery_observation fault_class o d = Err e.
Proof using compared_with_the_fault.
  intros Ho. unfold recovery_observation, signal_not_worsening, last_sample. rewrite Ho. cbn [last from_option_or].
  apply elem_of_cons in compared_with_the_fault as [->|Hc]; [|apply list_elem_of_singleton in Hc as ->]; cbn [is_class];
    unfold is_class; cbn; [destruct (float_item d "cpu_rate")|destruct (float_item d "consumer_lag")]; by eexists.
Qed.
Lemma recovery_try_unsampled since s outcome s' : unsampled s →
  recovery_try rm collector observer_digest cls fault_class since s = (Ok outcome, s') →
  unsampled s' ∧ ∃ e, outcome = Later (sraise e).
Proof using compared_with_the_fault.
  intros Hs H. apply sbind_ok in H as (d & s1 & Hd & H). pose proof (sample_unsampled since s Hs) as H1. rewrite Hd in H1.
  apply sbind_ok in H as (absent & s2 & Ha & H). injection Ha as _ <-. destruct (negb _); [injection H as <- <-; eauto|].
  apply sbind_ok in H as (o & s2 & Ho & H). injection Ho as <- <-.
  destruct (nothing_to_compare s1.1 d H1) as [e He]. apply sbind_ok in H as (obs & s2 & Hobs & _). unfold slift in Hobs. by rewrite He in Hobs.
Qed.
End Unsampled.

(** For the processor and the queue labels no recovery is observed unless the fault phase kept
    a sample, which it compares with: [fault_samples[-1]] of an empty list raises. *)
Theorem no_recovery_without_a_fault_sample {W : Type} (rm : remote W) collector observer_digest cls producer_sha fault_class o w :
  fault_class ∈ ["adHighCpu"; "kafkaQueueProblems"] → samples (fault_window o) = [] →
  is_ok (observe_live rm collector observer_digest cls producer_sha fault_class "recovery" fault_class (o, w)).1 = false.
Proof.
  intros Hc Ho. unfold observe_live. unfold is_class at 1. rewrite bool_decide_eq_true_2 by done. cbn [negb].
  change (is_ok (recovery_phase rm collector observer_digest cls producer_sha fault_class (o, w)).1 = false).
  destruct (recovery_phase _ _ _ _ _ _ _) as [[obs|e] s'] eqn:H; [|done]. exfalso.
  apply sbind_ok in H as (since & s1 & H1 & H).
  pose proof (start_recovery_unsampled rm cls fault_class (o, w) Ho) as Hs1. rewrite H1 in Hs1. cbn in Hs1.
  apply sbind_ok in H as (start & s2 & H2 & H).
  pose proof (unsampled_outside (clock (monotonic rm)) s1 Hs1) as Hs2. unfold now_monotonic in H2. rewrite H2 in Hs2. cbn in Hs2.
  destruct (poll_returns _ _ _ _ _ unsampled _ _ _ _ H Hs2) as (s0 & Hs0 & [Hs|(late & s3 & t & s4 & Ht & _ & _ & Hl)]).
  - intros s3 late s4 t s5 Hs3 Ht Hn. apply recovery_try_unsampled in Ht as [Ht _]; [|done..].
    pose proof (unsampled_outside (clock (monotonic rm)) s4 Ht) as Hk. unfold now_monotonic in Hn. by rewrite Hn in Hk.
  - apply keeps_bind; [apply unsampled_outside|]. intros []. apply between_unsampled.
  - by apply recovery_try_unsampled in Hs as [_ [e Hs]].
  - by apply recovery_try_unsampled in Ht as [_ [e [= ->]]].
Qed.

(** ** Injection outside a scenario *)

Section Injection.
Context {W : Type} (rm : remote W) (held : W → mapping) `{HT : !TruthfulRemote rm held}.
Context (operations : path) (producer_sha : string).

Lemma on_host_keeps {A} doc (m : SE W readiness_exn A) : keeps (λ w, held w = doc) m → keeps (λ s, held s.1 = doc) (on_host m).
Proof using . intros Hm [w fs] Hs. unfold on_host. specialize (Hm w Hs). cbn in *. by destruct (m w). Qed.
Lemma host_clock_files (f : W → Z * W) s t s' : on_host (clock f) s = (Ok t, s') → s'.2 = s.2.
Proof using . unfold on_host, clock. destruct (f s.1). by intros [= _ <-]. Qed.

(** The record of an operation, with the text that its file holds *)
Definition recorded (fs : file_system) (id : string) (original : mapping) (status : string) : Prop :=
  ∃ p record text, operation_path operations id = Ok p ∧ files fs !! p = Some text ∧ artifact_text record = Some text ∧
    dget "operation_id" record = VStr id ∧ dget "producer_sha" record = VStr producer_sha ∧
    dget "original" record = VDict original ∧ dget "status" record = VStr status.
Lemma record_reads (id fault_class key started status original_digest injected_digest : string) (original : mapping) more :
  let record := smapping ([("operation_id", VStr id); ("producer_sha", VStr producer_sha); ("fault_class", VStr fault_class);
    ("flag_key", VStr key); ("original", VDict original); ("original_digest", VStr original_digest);
    ("injected_digest", VStr injected_digest); ("started_at", VStr started); ("status", VStr status)] ++ more) in
  dget "operation_id" record = VStr id ∧ dget "producer_sha" record = VStr producer_sha ∧
  dget "original" record = VDict original ∧ dget "status" record = VStr status.
Proof using . done. Qed.
Lemma write_json_writes p document (s : W * file_system) s' : on_files (write_json p document) s = (Ok tt, s') →
  s'.1 = s.1 ∧ ∃ text, files s'.2 !! p = Some text ∧ artifact_text document = Some text.
Proof using .
  unfold on_files, write_json, smodify, sbind, slift, from_option_or. destruct (artifact_text document) as [text|]; [|done].
  intros [= <-]. cbn. split; [done|]. exists text. by rewrite lookup_insert_eq.
Qed.
Lemma write_json_fails p document (s : W * file_system) e s' : on_files (write_json p document) s = (Err e, s') →
  s'.1 = s.1 ∧ files s'.2 = files s.2.
Proof using .
  unfold on_files, write_json, smodify, sbind, slift, from_option_or. destruct (artifact_text document) as [text|]; [done|].
  by intros [= _ <-].
Qed.
Lemma bind_kept {S E A B} (P : S → Prop) (m : SE S E A) (k : A → SE S E B) s r s' : sbind m k s = (r, s') → P s → keeps P m →
  (∃ e, r = Err e ∧ P s') ∨ ∃ a s1, m s = (Ok a, s1) ∧ P s1 ∧ k a s1 = (r, s').
Proof using .
  intros H Hs Hm. specialize (Hm s Hs). unfold sbind in H. destruct (m s) as [[a|e] s1]; [right; by exists a, s1|].
  injection H as <- <-. left. by exists e.
Qed.

Definition injection_end (original : mapping) (r : result readiness_exn mapping) (s : W * file_system) : Prop :=
  match r with
  | Ok answer => ∃ id, dget "operation_id" answer = VStr id ∧ recorded s.2 id original "injected"
  | Err _ => held s.1 = original ∨ ∃ id, recorded s.2 id original "prepared"
  end.
(** From the first write of the record on *)
Lemma recorded_injection_ends id p (record : string → list (string * val) → mapping) original mutated answer s r s' :
  operation_path operations id = Ok p →
  (∀ status more, dget "operation_id" (record status more) = VStr id ∧ dget "producer_sha" (record status more) = VStr producer_sha ∧
     dget "original" (record status more) = VDict original ∧ dget "status" (record status more) = VStr status) →
  dget "operation_id" answer = VStr id → held s.1 = original →
  (on_files (write_json p (record "prepared" []));;;
   on_host (flag_write rm (VDict mutated));;;
   let! injected_at := on_host (clock (utc_now rm)) in
   on_files (write_json p (record "injected" [("injected_at", VStr (isoformat injected_at))]));;;
   sret answer) s = (r, s') →
  injection_end original r s'.
Proof using .
  intros Hp Hrecord Hanswer Hs H. unfold sbind at 1 in H.
  destruct (on_files _ s) as [[[]|e] s1] eqn:E1.
  2:{ injection H as <- <-. left. apply write_json_fails in E1 as [-> _]. done. }
  apply write_json_writes in E1 as (_ & text & Hfile & Htext).
  assert (∀ u : W * file_system, files u.2 = files s1.2 → recorded u.2 id original "prepared") as Hprepared.
  { intros u Hu. exists p, (record "prepared" []), text. rewrite Hu. by destruct (Hrecord "prepared" []) as (?&?&?&?). }
  clear Hfile Htext. unfold sbind at 1 in H. unfold on_host at 1 in H.
  destruct (flag_write rm (VDict mutated) s1.1) as [[[]|e] w2]; [|injection H as <- <-; right; exists id; by apply Hprepared].
  unfold sbind at 1 in H. destruct (on_host (clock _) _) as [[at_|e] s3] eqn:E3.
  2:{ injection H as <- <-. right. exists id. apply Hprepared. unfold on_host, clock in E3. by destruct (utc_now rm _). }
  apply host_clock_files in E3. cbn in E3. unfold sbind at 1 in H.
  destruct (on_files _ s3) as [[[]|e] s4] eqn:E4.
  2:{ injection H as <- <-. right. exists id. apply Hprepared. apply write_json_fails in E4 as [_ ->]. by rewrite E3. }
  injection H as <- <-. exists id. split; [done|]. apply write_json_writes in E4 as (_ & text' & Hfile & Htext).
  eexists p, (record "injected" _), text'. by destruct (Hrecord "injected" [("injected_at", VStr (isoformat at_))]) as (?&?&?&?).
Qed.
Lemma injection_ends fault_class s r s' : inject_live_fault rm operations producer_sha fault_class s = (r, s') →
  injection_end (held s.1) r s'.
Proof using HT.
  unfold inject_live_fault. destruct (ADAPTERS fault_class) as [adapter|]; [|by intros [= <- <-]; left].
  set (P := λ u : W * file_system, held u.1 = held s.1). assert (P s) as Hs by done. intros H.
  assert (∀ {A} (m : SE W readiness_exn A), keeps (λ w, held w = held s.1) m → keeps P (on_host m)) as Hk
    by (intros; by apply on_host_keeps).
  apply (bind_kept P) in H as [(e & -> & He)|([] & s1 & _ & H1 & H)]; [by left|..|apply keeps_guard]; [|done].
  apply (bind_kept P) in H as [(e & -> & He)|(original & s2 & Hread & H2 & H)]; [by left| |done|apply Hk, flag_read_keeps, _].
  assert (original = held s.1) as ->.
  { unfold on_host in Hread. destruct (flag_read rm s1.1) as [d w1] eqn:E. injection Hread as -> _.
    apply (flag_read_tells rm held) in E. by rewrite E, H1. }
  apply (bind_kept P) in H as [(e & -> & He)|(mutated & s3 & _ & H3 & H)]; [by left| |done|apply keeps_lift].
  apply (bind_kept P) in H as [(e & -> & He)|(now & s4 & _ & H4 & H)]; [by left| |done|apply Hk, utc_clock_keeps, _].
  apply (bind_kept P) in H as [(e & -> & He)|(canonical & s5 & _ & H5 & H)]; [by left| |done|apply keeps_lift].
  apply (bind_kept P) in H as [(e & -> & He)|(mutated_text & s6 & _ & H6 & H)]; [by left| |done|apply keeps_lift].
  cbv zeta in H. apply (bind_kept P) in H as [(e & -> & He)|(p & s7 & Hp & H7 & H)]; [by left| |done|apply keeps_lift].
  injection Hp as Hp _. revert Hp H. generalize (operation_id producer_sha now fault_class canonical); intros id Hp H.
  revert H. generalize (sha256_hex (utf8 canonical)) (sha256_hex (utf8 mutated_text)) (isoformat now). intros digest digest' started H.
  refine (recorded_injection_ends id p _ (held s.1) mutated _ s7 r s' Hp (λ status more, record_reads id fault_class (flag_key adapter)
    started status digest digest' (held s.1) more) _ _ H); done.
Qed.

Lemma item_reads record k v : item record k = Ok v → dget k record = v.
Proof using . unfold item, py, subscript, dget. destruct (dfind k record); [|done]. by intros [= ->]. Qed.
Lemma guard_passes {S E} (bad : bool) (e : E) (s s' : S) a : sguard bad e s = (Ok a, s') → bad = false ∧ s' = s.
Proof using . unfold sguard. destruct bad; [done|]. by intros [= _ <-]. Qed.
Lemma restoration_ends id s answer s' : restore_live_fault rm operations producer_sha id s = (Ok answer, s') →
  ∃ p text record canonical, operation_path operations id = Ok p ∧ files s.2 !! p = Some text ∧ printed_object text = Ok record ∧
    dget "producer_sha" record = VStr producer_sha ∧ dget "status" record = VStr "injected" ∧
    canonical_json (VDict (held s'.1)) = Ok canonical ∧ dget "original_digest" record = VStr (sha256_hex (utf8 canonical)).
Proof using HT.
  intros H. apply sbind_ok in H as (p & s0 & Hp & H). injection Hp as Hp <-.
  apply sbind_ok in H as (s0 & s0' & Hget & H). injection Hget as <- <-.
  apply sbind_ok in H as ([] & s1 & Hg & H). apply guard_passes in Hg as [Hfile ->].
  apply sbind_ok in H as (record & s1 & Hr & H). injection Hr as Hr <-.
  apply sbind_ok in H as ([] & s1 & Hg & H). apply guard_passes in Hg as [Hown ->].
  apply sbind_ok in H as ([] & s1 & Hg & H). apply guard_passes in Hg as [_ ->].
  apply sbind_ok in H as (original & s1 & _ & H). apply sbind_ok in H as ([] & s2 & _ & H).
  apply sbind_ok in H as (restored & s3 & Hread & H).
  assert (restored = held s3.1) as ->.
  { unfold on_host in Hread. destruct (flag_read rm s2.1) as [d w1] eqn:E. injection Hread as -> <-. cbn.
    pose proof (flag_read_keeps rm (λ w, held w = held s2.1) s2.1 eq_refl) as Hk. rewrite E in Hk. cbn in Hk. rewrite Hk.
    by apply (flag_read_tells rm held) in E. }
  apply sbind_ok in H as (canonical & s4 & Hc & H). injection Hc as Hc <-.
  cbv zeta in H. remember (sha256_hex (utf8 canonical)) as digest eqn:Hdigest.
  apply sbind_ok in H as (recorded_digest & s4 & Hd & H). injection Hd as Hd <-. apply item_reads in Hd.
  apply sbind_ok in H as ([] & s4 & Hg & H). apply guard_passes in Hg as [Hsame ->].
  apply negb_false_iff, val_is_true in Hsame. subst recorded_digest.
  apply sbind_ok in H as (at_ & s4 & Ht & H). apply sbind_ok in H as ([] & s5 & Hw & H). injection H as _ <-.
  apply write_json_writes in Hw as [Hw _].
  assert (held s5.1 = held s3.1) as Hheld.
  { rewrite Hw. pose proof (on_host_keeps (held s3.1) (clock (utc_now rm)) (utc_clock_keeps rm _) s3 eq_refl) as Hk. by rewrite Ht in Hk. }
  apply negb_false_iff, bool_decide_eq_true in Hfile as [text Htext]. rewrite Htext in Hr. cbn [default] in Hr.
  apply orb_false_iff in Hown as [Hsha%negb_false_iff%val_is_true Hstatus%negb_false_iff%val_is_true].
  exists p, text, record, canonical. rewrite Hheld. split_and!; try assumption. rewrite <- Hdigest. exact Hsame.
Qed.

(** What was prepared and not injected is refused before the host is asked. *)
Lemma prepared_operations_are_refused id p text record s : operation_path operations id = Ok p → files s.2 !! p = Some text →
  printed_object text = Ok record → dget "status" record = VStr "prepared" →
  restore_live_fault rm operations producer_sha id s =
    (Err (RGovernance "G02 fault operation is not restorable for this producer"), s).
Proof using .
  intros Hp Hfile Hr Hstatus. unfold restore_live_fault, sbind, slift, sget, sguard, is_file. rewrite Hp. cbn.
  rewrite Hfile, bool_decide_eq_true_2 by done. cbn. rewrite Hr, Hstatus. cbn. by rewrite orb_true_r.
Qed.
End Injection.

(** C13: A fault injected outside a scenario is recorded before it is made.  Whatever the host
    does, when the injection fails the system holds the flags it held, or a file below the
    operations directory holds them, under the producer that injects; and when it answers,
    the file it names holds them and says so. *)
Theorem injections_are_recorded_first {W : Type} (rm : remote W) (held : W → mapping) `{!TruthfulRemote rm held}
    operations producer_sha fault_class s r s' :
  inject_live_fault rm operations producer_sha fault_class s = (r, s') →
  match r with
  | Ok answer => ∃ id, dget "operation_id" answer = VStr id ∧ recorded operations producer_sha s'.2 id (held s.1) "injected"
  | Err _ => held s'.1 = held s.1 ∨ ∃ id, recorded operations producer_sha s'.2 id (held s.1) "prepared"
  end.
Proof. apply (injection_ends rm held). Qed.

(** ** Staged images *)

Lemma table_get_set {A} (t : list (string * A)) key key' v :
  table_get (table_set key v t) key' = if bool_decide (key = key') then Some v else table_get t key'.
Proof.
  induction t as [|[k w] t IH]; cbn; [by repeat case_bool_decide|].
  by repeat (case_bool_decide; cbn; subst; try done).
Qed.
Lemma table_set_fresh {A} (t : list (string * A)) key v : key ∉ t.*1 → table_set key v t = t ++ [(key, v)].
Proof.
  induction t as [|[k w] t IH]; cbn; [done|]. intros [Hne Hin]%not_elem_of_cons. rewrite bool_decide_eq_false_2 by congruence. by rewrite IH.
Qed.

(** What the tables of the loop hold of each other *)
Record staged (st : staging) : Prop := {
  keys_once : NoDup (inventory st).*1;
  entries k r : (k, r) ∈ inventory st →
    pinned r = true ∧ startswith (containerd_normalized_reference r) "docker.io/" = true ∧
    table_get (normalized_of_key st) k = Some (containerd_normalized_reference r) ∧
    table_get (key_of_normalized st) (containerd_normalized_reference r) = Some k ∧
    table_get (repository_digests st) (repository_of (containerd_normalized_reference r)) =
      Some (digest_of (containerd_normalized_reference r));
  names_have_entries n k : table_get (key_of_normalized st) n = Some k → ∃ r, (k, r) ∈ inventory st ∧ containerd_normalized_reference r = n;
  keys_have_entries k n : table_get (normalized_of_key st) k = Some n → ∃ r, (k, r) ∈ inventory st ∧ containerd_normalized_reference r = n;
}.
Lemma nothing_staged : staged {| inventory := []; normalized_of_key := []; key_of_normalized := []; repository_digests := [] |}.
Proof. split; [constructor|by intros k r ?%elem_of_nil|done|done]. Qed.

Lemma stage_keeps st candidate st' : staged st → stage st candidate = Ok st' →
  staged st' ∧ inventory st `prefix_of` inventory st' ∧
  ∃ k r, (k, r) ∈ inventory st' ∧ containerd_normalized_reference r = containerd_normalized_reference candidate.2.
Proof.
  destruct candidate as [key reference]. intros Hst H. unfold stage in H. cbn [snd].
  set (n := containerd_normalized_reference reference) in *.
  destruct (negb (pinned reference)) eqn:Hpin; [done|]. apply negb_false_iff in Hpin.
  destruct (negb (startswith n "docker.io/")) eqn:Hhub; [done|]. apply negb_false_iff in Hhub.
  match type of H with (if ?b then _ else _) = _ => destruct b eqn:Hdigest; [done|] end.
  match type of H with (if ?b then _ else _) = _ => destruct b eqn:Hkey; [done|] end. injection H as <-.
  destruct Hst as [Hnd Hent Hnames Hkeys].
  assert (∀ r, repository_of (containerd_normalized_reference r) = repository_of n →
    table_get (repository_digests st) (repository_of (containerd_normalized_reference r)) =
      Some (digest_of (containerd_normalized_reference r)) → digest_of (containerd_normalized_reference r) = digest_of n) as Hsame.
  { intros r Hr Hget. rewrite Hr in Hget. rewrite Hget in Hdigest. by apply negb_false_iff, String.eqb_eq in Hdigest. }
  destruct (table_get (key_of_normalized st) n) as [k|] eqn:Ek; cbn [inventory].
  { destruct (Hnames n k Ek) as (r & Hin & Hr). split_and!; [|done|by exists k, r]. split; cbn; [done| |done|done].
    intros k' r' Hin'. destruct (Hent k' r' Hin') as (H1 & H2 & H3 & H4 & H5). split_and!; try done.
    rewrite table_get_set. case_bool_decide as Hrep; [|done]. f_equal. symmetry. by apply Hsame. }
  assert (table_get (normalized_of_key st) key = None) as Hfresh.
  { destruct (table_get (normalized_of_key st) key) as [n'|] eqn:En; [|done]. apply negb_false_iff, String.eqb_eq in Hkey. subst n'.
    destruct (Hkeys _ _ En) as (r & Hin & Hr). destruct (Hent _ _ Hin) as (_ & _ & _ & H4 & _). congruence. }
  assert (key ∉ (inventory st).*1) as Hnew.
  { intros ([k r] & -> & Hin)%list_elem_of_fmap. destruct (Hent _ _ Hin) as (_ & _ & H3 & _). cbn in Hfresh. congruence. }
  rewrite table_set_fresh by done. split_and!.
  2:{ by apply prefix_app_r. }
  2:{ exists key, reference. split; [|done]. apply elem_of_app. right. left. }
  split; cbn [inventory normalized_of_key key_of_normalized repository_digests].
  - rewrite fmap_app. apply NoDup_app. split_and!; [done| |apply NoDup_singleton]. intros k Hk Hk'%list_elem_of_singleton. by subst.
  - intros k r [Hin|[= -> ->]%list_elem_of_singleton]%elem_of_app; rewrite !table_get_set.
    2:{ by rewrite !bool_decide_eq_true_2. }
    destruct (Hent k r Hin) as (H1 & H2 & H3 & H4 & H5). split_and!; try done.
    + rewrite bool_decide_eq_false_2; [done|]. intros ->. congruence.
    + rewrite bool_decide_eq_false_2; [done|]. intros Heq. rewrite <- Heq in H4. congruence.
    + case_bool_decide as Hrep; [|done]. f_equal. symmetry. by apply Hsame.
  - intros n' k. rewrite table_get_set. case_bool_decide as Hn; [intros [= <-]; exists reference; split; [|done]|].
    + apply elem_of_app. right. left.
    + intros (r & Hin & Hr)%Hnames. exists r. split; [|done]. apply elem_of_app. by left.
  - intros k n'. rewrite table_get_set. case_bool_decide as Hk; [intros [= <-]; subst k; exists reference; split; [|done]|].
    + apply elem_of_app. right. left.
    + intros (r & Hin & Hr)%Hkeys. exists r. split; [|done]. apply elem_of_app. by left.
Qed.
Lemma stage_all_keeps candidates st st' : staged st → rfold stage candidates st = Ok st' →
  staged st' ∧ inventory st `prefix_of` inventory st' ∧
  ∀ c, c ∈ candidates → ∃ k r, (k, r) ∈ inventory st' ∧ containerd_normalized_reference r = containerd_normalized_reference c.2.
Proof.
  revert st. induction candidates as [|c cs IH]; cbn [rfold]; intros st Hst H.
  { injection H as <-. split_and!; [done..|]. by intros c ?%elem_of_nil. }
  apply rbind_ok in H as (st1 & H1 & H). apply stage_keeps in H1 as (Hst1 & Hp1 & k & r & Hin & Hr); [|done].
  destruct (IH st1 Hst1 H) as (Hst' & Hp & Hall). split_and!; [done|by transitivity (inventory st1)|].
  intros c' [->|Hc]%elem_of_cons; [|by apply Hall]. exists k, r. split; [|done]. destruct Hp as [rest ->]. apply elem_of_app. by left.
Qed.
Lemma names_nodup st : staged st → NoDup ((λ a : string * string, containerd_normalized_reference a.2) <$> inventory st).
Proof.
  intros [Hnd Hent _ _]. assert (∀ a, a ∈ inventory st →
    table_get (key_of_normalized st) (containerd_normalized_reference a.2) = Some a.1) as Hkey.
  { intros [k r] Hin. by destruct (Hent k r Hin) as (_ & _ & _ & H & _). }
  clear Hent. revert Hnd Hkey. generalize (key_of_normalized st) as table. intros table.
  induction (inventory st) as [|a l IH]; cbn; [intros; constructor|]. intros [Ha Hnd]%NoDup_cons Hkey.
  apply NoDup_cons. split; [|apply IH; [done|]; intros b Hb; apply Hkey; by right].
  intros (b & Hb & Hin)%list_elem_of_fmap. apply Ha, list_elem_of_fmap. exists b. split; [|done].
  pose proof (Hkey a ltac:(left)) as Hka. rewrite Hb, (Hkey b) in Hka by (by right). by injection Hka.
Qed.

Definition demo_digest : string := "@sha256:" +:+ String.concat "" (repeat "0123456789abcdef" 4).
Definition demo_images : mapping :=
  smapping [("images", VList [sdict [("name", VStr "cart"); ("reference", VStr ("docker.io/otel/cart" +:+ demo_digest))];
                              sdict [("name", VStr "proxy"); ("reference", VStr ("ghcr.io/otel/proxy" +:+ demo_digest))];
                              sdict [("name", VStr "cart-again"); ("reference", VStr ("index.docker.io/otel/cart" +:+ demo_digest))]])].
Definition demo_probes : list (string * string) :=
  [("busybox", "docker.io/library/busybox" +:+ demo_digest); ("minio_mc", "docker.io/minio/mc" +:+ demo_digest)].

(** ** The replay of the resource cases *)

Section ResourceReplay.
Context {W : Type} (now : nat → string) (factory : string → string → SE W readiness_exn (testbed W)).
Context (producer_sha observed_sut_sha image_set_digest : string).

Definition case_name (seed : mapping) : string := val_str (dget "scenario_id" seed).
(** A trial that passed for the current inputs of a case *)
Definition passed_now (seed : mapping) (t : trial) : Prop :=
  ∃ class key, action_class seed = Ok class ∧ resource_key image_set_digest seed (val_str class) = Ok key ∧ passed key t = true.

Lemma on_world_journal {A} (m : SE W readiness_exn A) (s s' : W * journal) r : on_world m s = (r, s') → s'.2 = s.2.
Proof using . unfold on_world. destruct (m s.1). by intros [= _ <-]. Qed.
Lemma run_trial_passes id sha scenario facts before s result packet record s' key :
  (∃ p, trials s.2 !! id = Some p ∧ cache_key (current p) = key) →
  run_trial now factory id sha scenario facts before s = (Ok (result, packet, record), s') → passed key record = true.
Proof using .
  intros (p & Hp & Hk) H. apply sbind_ok in H as (tb & s1 & H1 & H). apply on_world_journal in H1.
  apply sbind_ok in H as (res & s2 & H2 & H). apply on_world_journal in H2.
  apply sbind_ok in H as (pk & s3 & H3 & H). injection H3 as _ <-.
  apply sbind_ok in H as (rec & s4 & H4 & H). injection H as _ _ -> _. unfold on_journal in H4.
  destruct (finish _ _ _ _ _) as [[t|] j] eqn:Ef; [|discriminate H4]. injection H4 as -> _.
  apply finish_record in Ef as (Hs & _ & p' & Hp' & Hck). apply passed_true. split; [done|].
  rewrite H2, H1, Hp in Hp'. injection Hp' as <-. congruence.
Qed.

Lemma replay_resource_passes seed s case t s' :
  replay_resource now factory producer_sha observed_sut_sha image_set_digest seed s = (Ok (case, t), s') →
  case = case_name seed ∧ passed_now seed t.
Proof using .
  intros H. apply sbind_ok in H as (id & s1 & Hid & H). injection Hid as Hid <-. apply item_reads in Hid.
  apply sbind_ok in H as (class & s2 & Hc & H). injection Hc as Hc <-. cbv zeta in H.
  apply sbind_ok in H as (key & s3 & Hkey & H). injection Hkey as Hkey <-.
  apply sbind_ok in H as (previous & s4 & _ & H). unfold case_name. rewrite Hid. unfold trial_decision_of in H.
  assert (∀ r, passed key r = true → passed_now seed r) as Hpass by (intros r Hr; by exists class, key).
  destruct (match previous with Some t => _ | None => _ end) as [t'|t'|] eqn:Edec; [|done|].
  - injection H as <- <- _. split; [done|]. apply Hpass. destruct previous as [p|]; [|done].
    destruct (passed key p) eqn:Ep; [by injection Edec as <-|by destruct (settled key p)].
  - apply sbind_ok in H as (begun & s5 & Hb & H). unfold on_journal in Hb.
    destruct (begin_trial _ _ _ _ _ _) as [[b|] j] eqn:Eb; [|discriminate Hb]. injection Hb as -> <-.
    apply begin_run in Eb as (Ht & _ & Hk & _). apply sbind_ok in H as (outcome & s6 & Ho & H).
    destruct outcome as [[[result packet] record]|[record e]]; [|done]. injection H as <- <- _. split; [done|]. apply Hpass.
    unfold attempt in Ho. match type of Ho with match ?m with _ => _ end = _ => destruct m as [[a|e] s7] eqn:Er end.
    + injection Ho as -> _. eapply run_trial_passes; [|exact Er]. by exists (stored_trial begun).
    + destruct e; [..|discriminate Ho]; by apply sbind_ok in Ho as (? & ? & _ & [=]).
Qed.
Lemma replay_resources_pass seeds s reps s' :
  replay_resources now factory producer_sha observed_sut_sha image_set_digest seeds s = (Ok reps, s') →
  reps.*1 = omap resource_id seeds ∧
  ∀ seed, seed ∈ seeds → is_Some (resource_id seed) → ∃ t, (case_name seed, t) ∈ reps ∧ passed_now seed t.
Proof using .
  revert s s' reps. induction seeds as [|seed seeds IH]; intros s s' reps H; cbn [replay_resources] in H.
  { injection H as <- _. split; [done|]. by intros seed ?%elem_of_nil. }
  cbn [omap list_omap]. destruct (resource_id seed) as [id|] eqn:Eid.
  - apply sbind_ok in H as ([case t] & s1 & H1 & H). apply sbind_ok in H as (rest & s2 & H2 & H). injection H as <- _.
    apply replay_resource_passes in H1 as [-> Ht]. destruct (IH _ _ _ H2) as [Hids Hall]. split.
    { cbn. rewrite Hids. f_equal. unfold resource_id in Eid. by destruct (val_is _ _); [injection Eid|]. }
    intros seed' [->|Hin]%elem_of_cons Hsome; [exists t; split; [left|done]|].
    destruct (Hall seed' Hin Hsome) as (t' & Hin' & Ht'). exists t'. split; [by right|done].
  - destruct (IH _ _ _ H) as [Hids Hall]. split; [done|]. intros seed' [->|Hin]%elem_of_cons Hsome; [|by apply Hall].
    rewrite Eid in Hsome. by destruct Hsome.
Qed.

(** Names of cases that are told apart by their trials *)
Lemma resource_ids_once seeds : NoDup (replay_id <$> seeds) → NoDup (omap resource_id seeds).
Proof using .
  induction seeds as [|seed seeds IH]; cbn [fmap list_fmap omap list_omap]; [constructor|]. intros [Hn Hnd]%NoDup_cons.
  destruct (resource_id seed) as [id|] eqn:E; [|by apply IH]. apply NoDup_cons. split; [|by apply IH].
  intros (seed' & Hin & E')%list_elem_of_omap. apply Hn, list_elem_of_fmap. exists seed'. split; [|done].
  unfold replay_id. unfold resource_id in E, E'. destruct (val_is _ _), (val_is _ _); simplify_eq. congruence.
Qed.
Lemma not_a_resource seeds seed : NoDup (replay_id <$> seeds) → seed ∈ seeds → resource_id seed = None →
  case_name seed ∉ omap resource_id seeds.
Proof using .
  intros Hnd Hin E (seed' & Hin' & E')%list_elem_of_omap. assert (seed' = seed) as ->; [|congruence].
  apply list_elem_of_lookup in Hin as [i Hi]. apply list_elem_of_lookup in Hin' as [k Hk].
  assert (k = i) as ->; [|congruence]. apply (NoDup_lookup (replay_id <$> seeds)) with (x := replay_id seed); [done|..]; rewrite list_lookup_fmap.
  - rewrite Hk. cbn. f_equal. unfold replay_id. unfold resource_id in E'. destruct (val_is _ _); [|done]. injection E' as E'.
    unfold case_name in E'. by rewrite E'.
  - by rewrite Hi.
Qed.

Lemma remove_dups_once (l : list string) : NoDup l → remove_dups l = l.
Proof using .
  induction l as [|x l IH]; [done|]. intros [Hx Hnd]%NoDup_cons. cbn. destruct (decide_rel _ _ _); [done|]. by rewrite IH.
Qed.
Lemma Forall2_impl_elem {A B} (P Q : A → B → Prop) l k : Forall2 P l k → (∀ x y, x ∈ l → P x y → Q x y) → Forall2 Q l k.
Proof using .
  induction 1 as [|x y l k Hxy H IH]; constructor; [apply H0; [left|done]|apply IH; intros; apply H0; [by right|done]].
Qed.

(** Where a case of the combined artifact comes from *)
Definition combined_from (frozen : list (string * mapping)) (seed : mapping) (t : any_trial) : Prop :=
  match resource_id seed with
  | Some _ => ∃ r, t = inr r ∧ passed_now seed r
  | None => ∃ record, t = inl record ∧ table_get frozen (case_name seed) = Some record
  end.
Lemma combined_trials frozen seeds reps : NoDup (replay_id <$> seeds) → reps.*1 = omap resource_id seeds →
  (∀ seed, seed ∈ seeds → is_Some (resource_id seed) → ∃ t, (case_name seed, t) ∈ reps ∧ passed_now seed t) →
  ∀ seed t, seed ∈ seeds → combined_trial frozen reps seed = Ok t → combined_from frozen seed t.
Proof using .
  intros Hnd Hids Hall seed t Hin H. apply rbind_ok in H as (id & Hid & H). apply item_reads in Hid.
  apply rbind_ok in H as (record & Hr & H). change (val_str id) with (val_str id) in H.
  assert (val_str id = case_name seed) as Hname by (unfold case_name; by rewrite Hid). rewrite Hname in *. injection H as <-.
  unfold combined_from. destruct (resource_id seed) as [rid|] eqn:E.
  - destruct (Hall seed Hin ltac:(by eexists)) as (r & Hr' & Hpass).
    rewrite (table_get_unique reps _ r); [by exists r|rewrite Hids; by apply resource_ids_once|done].
  - pose proof (not_a_resource seeds seed Hnd Hin E) as Hno. rewrite <- Hids in Hno.
    destruct (table_get reps (case_name seed)) as [r|] eqn:Er.
    { apply table_get_elem in Er. exfalso. apply Hno, list_elem_of_fmap. by exists (case_name seed, r). }
    exists record. split; [done|]. by destruct (table_get frozen (case_name seed)) eqn:Ef; simplify_eq/=.
Qed.
End ResourceReplay.

(** A resource replay keeps what it does not repeat.  Its artifact has a case for each of
    the seeds, in their order; a case of the other families is the frozen one of its name, a
    case of the resource family rests on a trial that passed for the current observer, and
    there are eight of those. *)
Theorem resource_replay_keeps_the_rest {W : Type} now (factory : string → string → SE W readiness_exn (testbed W))
    producer_sha observed_sut_sha image_set_digest frozen_document s out s' :
  replay_resource_scenarios now factory producer_sha observed_sut_sha image_set_digest frozen_document s = (Ok out, s') →
  ∃ frozen seeds, frozen_by_case frozen_document = Ok frozen ∧ seed_catalog image_set_digest = Ok seeds ∧
    Forall2 (combined_from image_set_digest frozen) seeds (rp_trials out) ∧
    length (omap resource_id seeds) = 8%nat ∧ length (rp_ids out) = 8%nat.
Proof.
  intros H. apply sbind_ok in H as (frozen & s1 & H1 & H). injection H1 as H1 <-.
  apply sbind_ok in H as (seeds & s1 & H2 & H). injection H2 as H2 <-.
  apply sbind_ok in H as ([] & s1 & H3 & H). injection H3 as H3 <-. cbv zeta in H.
  apply sbind_ok in H as ([] & s1 & H4 & H). apply guard_passes in H4 as [H4 ->].
  apply sbind_ok in H as ([] & s1 & H5 & H). apply guard_passes in H5 as [_ ->].
  apply sbind_ok in H as (reps & s2 & H6 & H). apply sbind_ok in H as (combined & s3 & H7 & H). injection H7 as H7 <-.
  apply sbind_ok in H as (packets & s4 & _ & H). injection H as <- _. cbn [rp_trials rp_ids].
  apply replay_ids_nodup in H3 as Hnd. apply replay_resources_pass in H6 as [Hids Hall].
  apply negb_false_iff, Nat.eqb_eq in H4.
  rewrite remove_dups_once in H4 by (by apply resource_ids_once).
  exists frozen, seeds. split_and!; [done|done| |done|].
  - apply rmapM_ok in H7. apply (Forall2_impl_elem _ _ _ _ H7). intros seed t Hin Ht.
    by eapply combined_trials.
  - unfold sort_strings. rewrite sort_by_length, remove_dups_once; [done|]. by apply resource_ids_once.
Qed.

(** ** A simulated host

    It holds one flag, answers what it is asked and counts a second for each script. *)
Module Sim.
Record world := { flipped : bool; clock_at : Z }.
Definition flags (on : bool) : mapping :=
  smapping [("flags", sdict [("paymentFailure", sdict [("defaultVariant", VStr (if on then "100%" else "off"));
                                                        ("variants", sdict [("100%", VInt 1); ("off", VInt 0)])])])].
Definition answer (d : mapping) : string := default "" (dumps utf8_style (VDict d)).
Definition shown (on : bool) : mapping :=
  smapping [("ready", VBool true); ("journey_status", VInt 200); ("cpu_rate", VInt 1); ("working_set", VInt 1000);
             ("consumer_lag", VInt 0); ("descriptions", VList [VStr (if on then "Payment refused" else "charged")]);
             ("error_spans", VInt (if on then 1 else 0))].
Definition turned_on (body : string) : bool := str_contains "100%" (str_take 62 body).
Definition tick (w : world) : world := {| flipped := flipped w; clock_at := clock_at w + seconds 1 |}.
Definition run (s : script) : SE world readiness_exn string := λ w,
  match s with
  | ReadFlags => (Ok (answer (flags (flipped w))), tick w)
  | WriteFlags body => let on := turned_on body in (Ok (answer (flags on)), {| flipped := on; clock_at := clock_at w + seconds 1 |})
  | Collect _ _ _ => (Ok (answer (shown (flipped w))), tick w)
  | Checkout _ _ => (Ok (answer (smapping [("status", VStr "pass"); ("checkout_count", VInt 1)])), tick w)
  | _ => (Err (RGovernance "no such script"), tick w)
  end.
Definition host : remote world := {|
  run_remote_script := run;
  monotonic := λ w, (clock_at w, w);
  utc_now := λ w, (1785196800000000 + clock_at w, w)%Z;
  sleep := λ n w, {| flipped := flipped w; clock_at := clock_at w + Z.max 0 n |};
|}.
Definition at_start : world := {| flipped := false; clock_at := 0 |}.
End Sim.
#[export] Instance sim_host_undisturbed doc : Undisturbed Sim.host (λ w, Sim.flags (Sim.flipped w) = doc).
Proof. split; [|done..]. intros s Hs w Hw. by destruct s. Qed.
#[export] Instance sim_host_truthful : TruthfulRemote Sim.host (λ w, Sim.flags (Sim.flipped w)).
Proof. split; [apply _|]. intros [[] t] text w' [= <- _]; vm_compute; reflexivity. Qed.
#[export] Instance sim_host_steady : SteadyClock Sim.host Sim.clock_at.
Proof.
  split; [intros t; split|..].
  - intros s Hs w Hw. destruct s; cbn; unfold seconds, MICRO; lia.
  - intros w Hw. cbn. lia.
  - intros w Hw. cbn. lia.
  - intros n w Hw. cbn. lia.
  - intros w. cbn. lia.
  - intros n w Hn. cbn. lia.
Qed.
Lemma every_wait_ends_witness :
  LiveScenarioObserver ∈ [LiveScenarioObserver; LiveReadinessObserverV3] ∧
  ends Sim.host FAULT_ACTIVATION_DEADLINE_SECONDS
    (control_try Sim.host "collector" "observer" LiveScenarioObserver "paymentFailure" 0) (sret tt).
Proof.
  split; [constructor|]. refine (proj1 (every_wait_ends Sim.host Sim.clock_at "collector" "observer" LiveScenarioObserver "sha" "paymentFailure" 0 ltac:(constructor))).
Defined.

Definition sim_run (phase : string) (on : bool) :=
  observe_live Sim.host "collector" "observer" LiveScenarioObserver "sha" "paymentFailure" phase "paymentFailure"
    (fresh_observer, {| Sim.flipped := on; Sim.clock_at := 0 |}).
Lemma fault_windows_are_settled_or_late_witness : ∃ obs s',
  sim_run "fault" true = (Ok obs, s') ∧ observed "paymentFailure" obs.
Proof.
  destruct (sim_run "fault" true) as [[obs|e] [o' w']] eqn:E.
  - exists obs, (o', w'). split; [done|]. by apply (fault_windows_are_settled_or_late Sim.host Sim.clock_at) in E as [H _].
  - exfalso. assert (is_ok (sim_run "fault" true).1 = true) as Hok by (vm_compute; reflexivity). rewrite E in Hok. discriminate Hok.
Defined.

Definition payment_scenario : mapping :=
  smapping [("scenario_id", VStr "SEED-G02-0001"); ("family", VStr "dependency_network");
             ("fault_action", sdict [("class", VStr "paymentFailure")])].
Definition sim_trial :=
  run_readiness_scenario_v3 (live_bed Sim.host "collector" "observer" LiveReadinessObserverV3 "sha" "paymentFailure")
    payment_scenario (fresh_observer, Sim.at_start).
Lemma live_readiness_restores_or_reports_witness : ∃ e diagnostics s',
  sim_trial = (Err (e, diagnostics), s') ∧ Sim.flipped s'.2 = false ∧
  (same_document (Sim.flags (Sim.flipped s'.2)) (Sim.flags false) ∨
   (∃ d reason, diagnostics = Some d ∧ dget "cleanup_error" d = VStr reason) ∨
   (diagnostics = None ∧ ∃ name, e = RPython name)).
Proof.
  assert (negb (is_ok sim_trial.1) && negb (Sim.flipped sim_trial.2.2) = true) as Hok by (vm_compute; reflexivity).
  destruct sim_trial as [[answer|[e diagnostics]] s'] eqn:E; [discriminate Hok|].
  exists e, diagnostics, s'. split; [done|]. split; [by apply negb_true_iff in Hok|].
  apply (live_readiness_restores_or_reports Sim.host (λ w, Sim.flags (Sim.flipped w)) _ _ _ _ _ _ _ _ _ _ E).
Defined.

Definition sim_injection :=
  inject_live_fault Sim.host ["/"; "operations"] (String.concat "" (repeat "0123456789" 4)) "paymentFailure"
    (Sim.at_start, {| files := ∅; directories := ∅; symlinks := ∅ |}).
Lemma injections_are_recorded_first_witness : ∃ answer s' id, sim_injection = (Ok answer, s') ∧ Sim.flipped s'.1 = true ∧
  dget "operation_id" answer = VStr id ∧
  recorded ["/"; "operations"] (String.concat "" (repeat "0123456789" 4)) s'.2 id (Sim.flags false) "injected".
Proof.
  assert (is_ok sim_injection.1 && Sim.flipped sim_injection.2.1 = true) as Hok by (vm_compute; reflexivity).
  destruct sim_injection as [[answer|e] s'] eqn:E; cbn [fst snd is_ok andb] in Hok; [|discriminate Hok].
  destruct (injections_are_recorded_first Sim.host (λ w, Sim.flags (Sim.flipped w)) _ _ _ _ _ _ E) as (id & Hid & Hrec).
  exists answer, s', id. split; [first [exact E|reflexivity]|]. split; [exact Hok|]. split; [exact Hid|exact Hrec].
Defined.
