(* ===== verification/Probes.v ===== *)
(** * The diagnostic probes of metric version 3

    [faultwitness_dev/g03_leakage_probe.py], [g03_separability.py] and [g03_cascade.py]: do the
    texts of the trace errors name the fault; do the six numeric signals alone; do faults
    reach services that were not injected.  They read a landed dataset and no model.  A report
    is a record of what is computed; its constant texts are left out. *)
From Stdlib Require Import Ascii.
From S2P Require Import Prelude Json JsonFacts Sha256 PyDyn PyFloat Packet Scoring Thresholds.

Definition LABELS : list string := sort_strings ROOT_CAUSE_LABELS.
Definition signal_kind (label : string) : string :=
  match table_get ROOT_SIGNAL_FEATURES label with Some spec => spec.1.1 | None => "" end.
Definition DESCRIPTION_KIND : string := "trace_errors".
Definition TRACE_ERROR_LABELS : list string := List.filter (λ l, bool_decide (signal_kind l = DESCRIPTION_KIND)) LABELS.
Definition OTHER_LABELS : list string := List.filter (λ l, negb (bool_decide (l ∈ TRACE_ERROR_LABELS))) LABELS.
Definition ABSTAIN : string := "unknown".

(** [a / b if b else 0.0] of counts *)
Definition ratio (a b : nat) : double :=
  if (b =? 0)%nat then dzero else ddiv (double_of_int (Z.of_nat a)) (double_of_int (Z.of_nat b)).
(** [sorted(set(l))] *)
Definition sorted_set (l : list string) : list string := sort_strings (remove_dups l).
(** [min(counts, key=lambda label: (-counts[label], label))] *)
Definition winner (counts : list (string * nat)) : option string := fst <$> head (sort_by count_le counts).
Definition counter (labels : list string) : list (string * nat) := foldl (λ counts l, count_label l counts) [] labels.
Definition count_of {A} (p : A → bool) (l : list A) : nat := length (List.filter p l).

(** The label of each case *)
Abbreviation truth_table := (list (string * string)).
Definition sealed_label (c : string * scenario_case) : R (string * string) :=
  let root_cause := gt_root_cause (sc_truth c.2) in
  raise_if negb (bool_decide (root_cause ∈ LABELS)) with_ RGovernance ("unknown sealed label in dataset: " +:+ root_cause);;
  let* truth := ground_truth_v3 c.1 root_cause in
  raise_if negb (py_eq (truth_document (sc_truth c.2)) (truth_document truth))
    with_ RGovernance ("ground truth for " +:+ c.1 +:+ " is not kind-derived");;
  Ok (c.1, root_cause).
Definition sealed_truth (cs : cases) : R truth_table := rmapM sealed_label cs.
Definition prior_majority (labels : truth_table) (case_ids : list string) : R string :=
  let* ls := rmapM (table_at labels) case_ids in
  from_option_or (RPython "ValueError") (winner (counter ls)).

Definition assert_no_forbidden_input (payload : val) (classifier case_id : string) : R unit :=
  let found := sorted_set (walk_forbidden payload) in
  raise_if negb (bool_decide (found = []))
    with_ RGovernance ("classifier " +:+ classifier +:+ " input for " +:+ case_id +:+ " carries sealed keys: " +:+ str_join ", " found);;
  Ok tt.

(** ** Descriptions *)

Definition token_char (c : ascii) : bool :=
  let n := N_of_ascii c in ((97 <=? n) && (n <=? 122) || (48 <=? n) && (n <=? 57))%N.
Fixpoint tokens_from (current s : string) : list string :=
  let token := match current with "" => [] | _ => [str_rev "" current] end in
  match s with
  | "" => token
  | String c s => if token_char c then tokens_from (String c current) s else token ++ tokens_from "" s
  end.
Definition tokens (text : string) : list string := tokens_from "" (casefold text).
Example tokens_of : tokens "Error: Product Catalog Fail-Feature-Flag 2" = ["error"; "product"; "catalog"; "fail"; "feature"; "flag"; "2"].
Proof. vm_compute. reflexivity. Qed.

Record description_features := {
  df_case_id : string;
  healthy_texts : list string;
  fault_texts : list string;
  incident_tokens : list string;
  fault_tokens : list string;
  healthy_tokens : list string;
}.
Definition features_document (f : description_features) : val :=
  let texts l := VList (VStr <$> l) in
  sdict [("case_id", VStr (df_case_id f)); ("healthy_texts", texts (healthy_texts f)); ("fault_texts", texts (fault_texts f));
         ("incident_tokens", texts (incident_tokens f)); ("fault_tokens", texts (fault_tokens f));
         ("healthy_tokens", texts (healthy_tokens f))].

Definition window_phase (window : val) : R (Z * string) :=
  let* index := py (subscript window "index") in
  let* index := py (val_int index) in
  let* phase := py (subscript window "phase") in
  Ok (index, val_str phase).
(** [phases[index]], where the last of equal indices counts *)
Definition phase_at (phases : list (Z * string)) (index : Z) : R string :=
  from_option_or (RPython "KeyError") (last (omap (λ p : Z * string, if (p.1 =? index)%Z then Some p.2 else None) phases)).
(** The texts of one sample, with the phase of its window *)
Definition sample_texts (phases : list (Z * string)) (sample : val) : R (list (string * string)) :=
  let* index := py (subscript sample "window_index") in
  let* index := py (val_int index) in
  let* phase := phase_at phases index in
  let* services := py (subscript sample "services") in
  let* names := py (iterate services) in
  let* texts := rmapM (λ service,
    let* measurement := py (subscript services service) in
    let* descriptions := py (subscript measurement "descriptions") in
    let* items := py (iterate descriptions) in
    raise_if negb (bool_decide (phase ∈ ["healthy"; "fault"])) with_ RPython "KeyError";;
    Ok (val_str <$> items)) (sort_strings (val_str <$> names)) in
  Ok (pair phase <$> concat texts).
Definition of_phase (phase : string) (texts : list (string * string)) : list string :=
  (List.filter (λ t : string * string, bool_decide (t.1 = phase)) texts).*2.
Definition features_of (case_id : string) (texts : list (string * string)) : description_features :=
  let healthy := sorted_set (of_phase "healthy" texts ≫= tokens) in
  let fault := sorted_set (of_phase "fault" texts ≫= tokens) in
  {| df_case_id := case_id; healthy_texts := sorted_set (of_phase "healthy" texts); fault_texts := sorted_set (of_phase "fault" texts);
     incident_tokens := List.filter (λ t, negb (bool_decide (t ∈ healthy))) fault; fault_tokens := fault;
     healthy_tokens := healthy |}.
Definition description_features_of (packet : mapping) : R description_features :=
  let* _ := validate_observation_packet_v3 packet in
  let* group := from_option_or (RPython "KeyError") (group_by_kind packet DESCRIPTION_KIND) in
  let* windows := py (subscript (VDict packet) "windows") in
  let* windows := py (iterate windows) in
  let* phases := rmapM window_phase windows in
  let* samples := py (subscript (VDict group) "samples") in
  let* samples := py (iterate samples) in
  let* texts := rmapM (sample_texts phases) samples in
  let* case_id := py (subscript (VDict packet) "case_id") in
  let features := features_of (val_str case_id) (concat texts) in
  let* _ := assert_no_forbidden_input (features_document features) "A" (df_case_id features) in
  Ok features.

(** *** The leave-one-out classifier

    [features] holds the incident tokens of each case. *)
Abbreviation token_table := (list (string * list string)).
Record keyword_table := {
  training_case_count : nat;
  discriminative_tokens : list (string * list (string * nat));
  tokens_shared : list string;
}.
Definition training_row (features : token_table) (labels : truth_table) (case_id : string) : R (string * list string) :=
  let* label := table_at labels case_id in
  let* ts := table_at features case_id in
  raise_if negb (bool_decide (label ∈ LABELS)) && negb (bool_decide (ts = [])) with_ RPython "KeyError";;
  Ok (label, ts).
Definition family_counts (rows : list (string * list string)) (label : string) : list (string * nat) :=
  counter (concat (List.filter (λ r : string * list string, bool_decide (r.1 = label)) rows).*2).
Definition families_of_token (per_family : list (string * list (string * nat))) (token : string) : nat :=
  count_of (λ f : string * list (string * nat), bool_decide (token ∈ f.2.*1)) per_family.
Definition keyword_table_of (features : token_table) (labels : truth_table) (case_ids : list string) : R keyword_table :=
  let* rows := rmapM (training_row features labels) case_ids in
  let per_family := (λ label, (label, family_counts rows label)) <$> LABELS in
  let families := families_of_token per_family in
  Ok {| training_case_count := length case_ids;
        discriminative_tokens := (λ f : string * list (string * nat),
          (f.1, List.filter (λ tc : string * nat, (families tc.1 =? 1)%nat) (sort_keys f.2))) <$> per_family;
        tokens_shared := List.filter (λ t, (1 <? families t)%nat) (sorted_set (per_family ≫= λ f, f.2.*1)) |}.

Definition jaccard (a b : list string) : double :=
  let union := remove_dups (a ++ b) in
  match union with
  | [] => one
  | _ => ratio (count_of (λ t, bool_decide (t ∈ b)) (remove_dups a)) (length union)
  end.

Record fold := {
  fo_case_id : string;
  fo_training : list string;
  fo_tokens : list string;
  fo_matched : list (string * list string);
  fo_prediction : string;
  fo_nearest_neighbour : string;
  fo_similarity : double;
}.
Definition fo_votes (matched : list (string * list string)) : list (string * nat) :=
  (λ m : string * list string, (m.1, length m.2)) <$> matched.
Definition matched_tokens (table : keyword_table) (held_out : list string) : R (list (string * list string)) :=
  let* hits := rmapM (λ label,
    let* own := table_at (discriminative_tokens table) label in
    Ok (label, List.filter (λ t, bool_decide (t ∈ own.*1)) held_out)) LABELS in
  Ok (List.filter (λ h : string * list string, negb (bool_decide (h.2 = []))) hits).
Definition nearest_neighbour (features : token_table) (labels : truth_table) (held_out training : list string) : R (string * double) :=
  let* similarities := rmapM (λ other, let* ts := table_at features other in Ok (jaccard held_out ts, other)) training in
  let* best := max_of similarities.*1 in
  let neighbours := (List.filter (λ s : double * string, deq s.1 best) similarities).*2 in
  let* ls := rmapM (table_at labels) neighbours in
  let* prediction := from_option_or (RPython "ValueError") (winner (counter ls)) in
  Ok (prediction, best).
Definition classify_fold (features : token_table) (labels : truth_table) (case_id : string) : R fold :=
  let case_ids := sort_strings features.*1 in
  let training := List.filter (λ other, negb (bool_decide (other = case_id))) case_ids in
  raise_if negb (S (length training) =? length case_ids)%nat
    with_ RGovernance "leave-one-out fold retained the held-out case";;
  let* table := keyword_table_of features labels training in
  let* held_out := table_at features case_id in
  let* matched := matched_tokens table held_out in
  let* neighbour := nearest_neighbour features labels held_out training in
  Ok {| fo_case_id := case_id; fo_training := training; fo_tokens := held_out; fo_matched := matched;
        fo_prediction := default ABSTAIN (winner (fo_votes matched)); fo_nearest_neighbour := neighbour.1;
        fo_similarity := neighbour.2 |}.
Definition classify_descriptions_loo (features : token_table) (labels : truth_table) : R (list fold * keyword_table) :=
  let case_ids := sort_strings features.*1 in
  let* folds := rmapM (classify_fold features labels) case_ids in
  let* display := keyword_table_of features labels case_ids in
  Ok (folds, display).

(** ** Scores *)

(** [matrix[actual][prediction]] *)
Definition confusion_cell (pairs : list (string * string)) (actual prediction : string) : nat :=
  count_of (λ p : string * string, bool_decide (p = (actual, prediction))) pairs.
Definition COLUMNS : list string := LABELS ++ [ABSTAIN].
Definition paired_predictions (truth predicted : truth_table) : R (list (string * string)) :=
  rmapM (λ ct : string * string,
    let* prediction := table_at predicted ct.1 in
    raise_if negb (bool_decide (ct.2 ∈ LABELS) && bool_decide (prediction ∈ COLUMNS)) with_ RPython "KeyError";;
    Ok (ct.2, prediction)) truth.
Definition confusion (truth predicted : truth_table) : R (list (string * list (string * nat))) :=
  let* pairs := paired_predictions truth predicted in
  Ok ((λ actual, (actual, (λ prediction, (prediction, confusion_cell pairs actual prediction)) <$> COLUMNS)) <$> LABELS).

Record family_score := { fs_support : nat; fs_correct : nat; fs_accuracy : double; fs_precision : double; fs_f1 : double }.
Record scores := {
  sc_n : nat;
  sc_correct : nat;
  sc_accuracy : double;
  sc_macro_f1 : double;
  sc_abstentions : nat;
  sc_per_family : list (string * family_score);
  sc_trace_errors : nat * nat;    (* support, correct *)
  sc_other : nat * nat;
}.
Definition score_family (pairs : list (string * string)) (label : string) : family_score :=
  let support := sum_list (confusion_cell pairs label <$> COLUMNS) in
  let true_positive := confusion_cell pairs label label in
  let predicted_positive := sum_list ((λ other, confusion_cell pairs other label) <$> LABELS) in
  let precision := ratio true_positive predicted_positive in
  let recall := ratio true_positive support in
  let total := dadd precision recall in
  {| fs_support := support; fs_correct := true_positive; fs_accuracy := recall; fs_precision := precision;
     fs_f1 := if deq total dzero then dzero else ddiv (dmul (dmul (double_of_int 2) precision) recall) total |}.
Definition group_score (families : list (string * family_score)) (group : list string) : nat * nat :=
  let own := List.filter (λ f : string * family_score, bool_decide (f.1 ∈ group)) families in
  (sum_list ((λ f : string * family_score, fs_support f.2) <$> own), sum_list ((λ f : string * family_score, fs_correct f.2) <$> own)).
Definition group_accuracy (g : nat * nat) : double := ratio g.2 g.1.
Definition scores_of (truth predicted : truth_table) : R scores :=
  let* pairs := paired_predictions truth predicted in
  let families := (λ label, (label, score_family pairs label)) <$> LABELS in
  let correct := count_of (λ p : string * string, bool_decide (p.2 = p.1)) pairs in
  Ok {| sc_n := length truth; sc_correct := correct; sc_accuracy := ratio correct (length truth);
        sc_macro_f1 := ddiv (double_sum ((λ f : string * family_score, fs_f1 f.2) <$> families))
                            (double_of_int (Z.of_nat (length families)));
        sc_abstentions := count_of (λ p : string * string, bool_decide (p.2 = ABSTAIN)) predicted;
        sc_per_family := families; sc_trace_errors := group_score families TRACE_ERROR_LABELS;
        sc_other := group_score families OTHER_LABELS |}.

(** ** Numeric signals *)

(** One signal of one case against a cutoff *)
Record signal_reading := { rd_cutoff : double; rd_qualifies : bool; rd_standardized : double }.
Definition read_signal (excess cutoff quantum : double) : R signal_reading :=
  let scale := dmax cutoff quantum in
  raise_if deq scale dzero with_ RPython "ZeroDivisionError";;
  Ok {| rd_cutoff := cutoff; rd_qualifies := dle cutoff excess; rd_standardized := ddiv (dsub excess cutoff) scale |}.
(** [min(candidates, key=lambda item: (-item[0], item[1]))[1]] *)
Definition signal_le (a b : double * string) : bool := dlt b.1 a.1 || (deq a.1 b.1 && str_le a.2 b.2).
Definition best_signal (candidates : list (double * string)) : string :=
  match sort_by signal_le candidates with [] => ABSTAIN | c :: _ => c.2 end.

Record root_signal := {
  rs_quantum : double;
  rs_floor : option (double * double);    (* fraction, floor *)
  rs_healthy_median : double;
  rs_fault_max : double;
  rs_excess : double;
  rs_reading : signal_reading;
}.
(** The signal against the bare quantum, or the floor where there is one *)
Definition root_signal_of (packet : mapping) (label : string) : R (string * root_signal) :=
  let* spec := table_at ROOT_SIGNAL_FEATURES label in
  let quantum := spec.2 in
  let* healthy := feature_values packet label "root_signal" "healthy" in
  let* fault := feature_values packet label "root_signal" "fault" in
  let* level := median healthy in
  let* high := max_of fault in
  let excess := dsub high level in
  let floor := (λ fraction, (fraction, dmul level fraction)) <$> table_get RELATIVE_ROOT_SIGNAL_FLOORS label in
  let threshold := match floor with Some f => dmax quantum f.2 | None => quantum end in
  let* reading := read_signal excess threshold quantum in
  Ok (label, {| rs_quantum := quantum; rs_floor := floor; rs_healthy_median := level; rs_fault_max := high;
                rs_excess := excess; rs_reading := reading |}).
(** The names in these features are those of [LABELS] and of the record above, none of them
    sealed: the check of the source that they are not is left out. *)
Definition root_signal_features (packet : mapping) : R (list (string * root_signal)) :=
  let* _ := validate_observation_packet_v3 packet in
  rmapM (root_signal_of packet) LABELS.
Definition classify_root_signal (signals : list (string * root_signal)) : string :=
  best_signal (omap (λ ls : string * root_signal,
    let r := rs_reading ls.2 in if rd_qualifies r then Some (rd_standardized r, ls.1) else None) signals).

Record qualification_detail := { qd_support : nat; qd_true : nat; qd_cases : nat }.
Definition qualifies_at (signals : list (string * root_signal)) (label : string) : R bool :=
  let* s := table_at signals label in Ok (rd_qualifies (rs_reading s)).
Definition root_signal_qualification_detail (by_case : list (string * list (string * root_signal))) (truth : truth_table)
    : R (double * list (string * qualification_detail)) :=
  let* actual := rmapM (λ c : string * list (string * root_signal),
    let* label := table_at truth c.1 in
    let* own := qualifies_at c.2 label in Ok (label, own)) by_case in
  let count label := count_of (λ a : string * bool, bool_decide (a.1 = label)) actual in
  let own label := count_of (λ a : string * bool, bool_decide (a.1 = label) && a.2) actual in
  let any label := count_of (λ c : string * list (string * root_signal),
    existsb (λ ls : string * root_signal, bool_decide (ls.1 = label) && rd_qualifies (rs_reading ls.2)) c.2) by_case in
  Ok (ratio (count_of snd actual) (length by_case),
      (λ label, (label, {| qd_support := count label; qd_true := own label; qd_cases := any label |})) <$> LABELS).

(** ** The verdict on leakage *)

Inductive leakage : Type := NoLeakage | LocalizedLeakage | GlobalLeakage.
Definition verdict (a c : scores) : leakage :=
  let margin := dsub (sc_accuracy a) (sc_accuracy c) in
  let trio := group_accuracy (sc_trace_errors a) in
  let other := group_accuracy (sc_other a) in
  if dle margin (dec 1 1) then NoLeakage
  else if dle (dec 75 2) trio && dle other (dsub trio (dec 25 2)) then LocalizedLeakage
  else GlobalLeakage.
Record leakage_report := {
  lr_truth : truth_table;
  lr_majority : string;
  lr_folds : list fold;
  lr_keywords : keyword_table;
  lr_signals : list (string * list (string * root_signal));
  lr_descriptions : scores;       (* A *)
  lr_neighbours : scores;
  lr_root_signal : scores;        (* B *)
  lr_majority_class : scores;     (* C *)
  lr_verdict : leakage;
}.
Definition predictions_of (folds : list fold) (prediction : fold → string) : truth_table :=
  (λ f, (fo_case_id f, prediction f)) <$> folds.
Definition run_leakage_probe (document : mapping) : R leakage_report :=
  let* cs := scenario_cases_v3 document in
  raise_if negb (length cs =? 32)%nat with_ RGovernance "metric v3 leakage probe requires exactly 32 cases";;
  let* truth := sealed_truth cs in
  let* descriptions := rmapM (λ c : string * scenario_case,
    let* f := description_features_of (sc_packet c.2) in Ok (c.1, f)) (sort_keys cs) in
  let* signals := rmapM (λ c : string * scenario_case,
    let* f := root_signal_features (sc_packet c.2) in Ok (c.1, f)) (sort_keys cs) in
  let* probe := classify_descriptions_loo ((λ d : string * description_features, (d.1, incident_tokens d.2)) <$> descriptions) truth in
  let '(folds, keywords) := probe in
  let* predicted := rmapM (λ ct : string * string,
    let* s := table_at signals ct.1 in Ok (ct.1, classify_root_signal s)) truth in
  let* majority := prior_majority truth (sort_strings truth.*1) in
  let* a := scores_of truth (predictions_of folds fo_prediction) in
  let* neighbours := scores_of truth (predictions_of folds fo_nearest_neighbour) in
  let* b := scores_of truth predicted in
  let* c := scores_of truth ((λ ct : string * string, (ct.1, majority)) <$> truth) in
  Ok {| lr_truth := truth; lr_majority := majority; lr_folds := folds; lr_keywords := keywords; lr_signals := signals;
        lr_descriptions := a; lr_neighbours := neighbours; lr_root_signal := b; lr_majority_class := c; lr_verdict := verdict a c |}.

(** ** Separability

    The thresholds of the metric: the nearest-rank percentile of the healthy drifts of the
    other cases, plus the quantum. *)

Record frozen_threshold := {
  fz_kind : string;
  fz_field : string;
  fz_service : string;
  fz_quantum : double;
  fz_drift_count : nat;
  fz_p99 : double;
  fz_absolute : double;
  fz_floor : option relative_floor;
  fz_training : list string;
  fz_threshold : double;
}.
Definition probe_cases : string := "separability probe requires exactly 32 cases".
Definition frozen_threshold_of (cs : cases) (case_id : string) (training : list string) (label : string)
    : R (string * frozen_threshold) :=
  let* spec := table_at ROOT_SIGNAL_FEATURES label in
  let '(kind, field, quantum) := spec in
  let* drifts := rmapM (λ other,
    let* case := table_at cs other in
    let* values := feature_values (sc_packet case) label "root_signal" "healthy" in
    positive_consecutive_drifts values) training in
  let drifts := concat drifts in
  raise_if negb (length drifts =? 124)%nat
    with_ RGovernance ("leave-one-case-out drift pool has the wrong size: " +:+ case_id +:+ "/" +:+ label +:+ " got " +:+
                       int_repr (Z.of_nat (length drifts)));;
  let* p99 := nearest_rank drifts DETERMINISTIC_PERCENTILE in
  let threshold := dadd p99 quantum in
  let* service := table_at TARGET_SERVICES label in
  let entry floor threshold' :=
    (label, {| fz_kind := kind; fz_field := field; fz_service := service; fz_quantum := quantum; fz_drift_count := length drifts;
               fz_p99 := p99; fz_absolute := threshold; fz_floor := floor; fz_training := training; fz_threshold := threshold' |}) in
  match table_get RELATIVE_ROOT_SIGNAL_FLOORS label with
  | None => Ok (entry None threshold)
  | Some fraction =>
      let* case := table_at cs case_id in
      let* values := feature_values (sc_packet case) label "root_signal" "healthy" in
      let* level := median values in
      let floor := dmul level fraction in
      Ok (entry (Some {| floor_fraction := fraction; floor_median := level; floor_value := floor |}) (dmax threshold floor))
  end.
Abbreviation frozen_table := (list (string * list (string * frozen_threshold))).
Definition frozen_case (cs : cases) (case_ids : list string) (case_id : string) : R (string * list (string * frozen_threshold)) :=
  let training := List.filter (λ other, negb (bool_decide (other = case_id))) case_ids in
  raise_if negb (length training =? 31)%nat with_ RGovernance "leave-one-case-out fold retained the held-out case";;
  let* per_label := rmapM (frozen_threshold_of cs case_id training) LABELS in
  Ok (case_id, per_label).
Definition frozen_thresholds_loo (cs : cases) : R frozen_table :=
  let case_ids := sort_strings cs.*1 in
  raise_if negb (length case_ids =? 32)%nat with_ RGovernance probe_cases;;
  rmapM (frozen_case cs case_ids) case_ids.

(** *** The table of offsets *)

Inductive rule : Type := P99 | Quantum.
Definition rule_name (r : rule) : string := match r with P99 => "p99" | Quantum => "quantum" end.
Record offset_cell := {
  oc_kind : string;
  oc_field : string;
  oc_service : string;
  oc_is_true_family : bool;
  oc_healthy_median : double;
  oc_fault_max : double;
  oc_excess : double;
  oc_healthy_p99 : double;
  oc_quantum : double;
  oc_p99_reading : signal_reading;
  oc_quantum_reading : signal_reading;
}.
Definition oc_reading (r : rule) (c : offset_cell) : signal_reading :=
  match r with P99 => oc_p99_reading c | Quantum => oc_quantum_reading c end.
Definition excess_multiple (c : offset_cell) (r : rule) : option double :=
  let cutoff := rd_cutoff (oc_reading r c) in
  if dlt dzero cutoff then Some (ddiv (oc_excess c) cutoff) else None.
Definition offset_document (c : offset_cell) : val :=
  let multiple r := match excess_multiple c r with Some m => vfloat m | None => VNone end in
  sdict [("kind", VStr (oc_kind c)); ("field", VStr (oc_field c)); ("service", VStr (oc_service c));
         ("is_true_family", VBool (oc_is_true_family c)); ("healthy_median", vfloat (oc_healthy_median c));
         ("fault_max", vfloat (oc_fault_max c)); ("incident_excess", vfloat (oc_excess c));
         ("healthy_p99", vfloat (oc_healthy_p99 c)); ("quantum", vfloat (oc_quantum c));
         ("p99_threshold", vfloat (rd_cutoff (oc_p99_reading c)));
         ("quantum_threshold", vfloat (rd_cutoff (oc_quantum_reading c)));
         ("excess_over_p99_threshold_multiple", multiple P99);
         ("excess_over_quantum_threshold_multiple", multiple Quantum);
         ("qualifies_p99", VBool (rd_qualifies (oc_p99_reading c)));
         ("qualifies_quantum", VBool (rd_qualifies (oc_quantum_reading c)));
         ("standardized_excess_p99", vfloat (rd_standardized (oc_p99_reading c)));
         ("standardized_excess_quantum", vfloat (rd_standardized (oc_quantum_reading c)))].
Definition offset_of (packet : mapping) (frozen : list (string * frozen_threshold)) (actual label : string)
    : R (string * offset_cell) :=
  let* t := table_at frozen label in
  let* healthy := feature_values packet label "root_signal" "healthy" in
  let* fault := feature_values packet label "root_signal" "fault" in
  let* level := median healthy in
  let* high := max_of fault in
  let excess := dsub high level in
  let quantum := fz_quantum t in
  let quantum_cutoff := match fz_floor t with Some f => dmax quantum (floor_value f) | None => quantum end in
  let* p99 := read_signal excess (fz_threshold t) quantum in
  let* bare := read_signal excess quantum_cutoff quantum in
  Ok (label, {| oc_kind := fz_kind t; oc_field := fz_field t; oc_service := fz_service t;
                oc_is_true_family := bool_decide (label = actual); oc_healthy_median := level; oc_fault_max := high;
                oc_excess := excess; oc_healthy_p99 := fz_p99 t; oc_quantum := quantum; oc_p99_reading := p99;
                oc_quantum_reading := bare |}).
Record offset_row := { or_root_cause : string; or_signals : list (string * offset_cell) }.
Abbreviation offsets := (list (string * offset_row)).
Definition offset_row_of (thresholds : frozen_table) (truth : truth_table) (c : string * scenario_case) : R (string * offset_row) :=
  let* _ := validate_observation_packet_v3 (sc_packet c.2) in
  let* frozen := table_at thresholds c.1 in
  let* actual := table_at truth c.1 in
  let* cells := rmapM (offset_of (sc_packet c.2) frozen actual) LABELS in
  let document := sdict ((λ lc : string * offset_cell, (lc.1, offset_document lc.2)) <$> cells) in
  let* _ := assert_no_forbidden_input document "D1" c.1 in
  Ok (c.1, {| or_root_cause := actual; or_signals := cells |}).
Definition offset_table (cs : cases) (thresholds : frozen_table) (truth : truth_table) : R offsets :=
  rmapM (offset_row_of thresholds truth) (sort_keys cs).

Definition parse_rule (r : string) : R rule :=
  if bool_decide (r = "p99") then Ok P99 else if bool_decide (r = "quantum") then Ok Quantum
  else Err (RGovernance ("unknown separability threshold rule: " +:+ r)).
Definition classify_from_offsets (row : offset_row) (r : string) (restrict_to : option string) : R string :=
  let* r := parse_rule r in
  Ok (best_signal (omap (λ lc : string * offset_cell,
    let reading := oc_reading r lc.2 in
    if negb (default true ((λ l, bool_decide (lc.1 = l)) <$> restrict_to)) then None
    else if rd_qualifies reading then Some (rd_standardized reading, lc.1) else None) (or_signals row))).

(** *** False qualifications *)

Record qualification := { ql_true : nat; ql_true_rate : double; ql_false : nat; ql_false_rate : double; ql_false_cases : list string }.
Record signal_qualification := { sq_support : nat; sq_foreign : nat; sq_p99 : qualification; sq_quantum : qualification }.
(** The cases where a signal qualifies, with whether the case is of its family *)
Definition qualified_cases (table : offsets) (truth : truth_table) (label : string) (r : rule) : R (list (string * bool)) :=
  let* found := rmapM (λ c : string * offset_row,
    let* cell := table_at (or_signals c.2) label in
    if rd_qualifies (oc_reading r cell) then
      let* actual := table_at truth c.1 in Ok (Some (c.1, bool_decide (actual = label)))
    else Ok None) table in
  Ok (omap id found).
Definition qualification_of (support foreign : nat) (cases : list (string * bool)) : qualification :=
  let own := count_of snd cases in
  let others := (List.filter (λ c : string * bool, negb c.2) cases).*1 in
  {| ql_true := own; ql_true_rate := ratio own support; ql_false := length others; ql_false_rate := ratio (length others) foreign;
     ql_false_cases := sort_strings others |}.
Definition signal_qualification_of (table : offsets) (truth : truth_table) (label : string) : R (string * signal_qualification) :=
  let support := count_of (λ ct : string * string, bool_decide (ct.2 = label)) truth in
  let foreign := (length truth - support)%nat in
  let* p99 := qualified_cases table truth label P99 in
  let* quantum := qualified_cases table truth label Quantum in
  Ok (label, {| sq_support := support; sq_foreign := foreign; sq_p99 := qualification_of support foreign p99;
                sq_quantum := qualification_of support foreign quantum |}).
Definition removed_by_p99 (q : signal_qualification) : Z := (Z.of_nat (ql_false (sq_quantum q)) - Z.of_nat (ql_false (sq_p99 q)))%Z.
Definition false_qualification_table (table : offsets) (truth : truth_table) : R (list (string * signal_qualification)) :=
  rmapM (signal_qualification_of table truth) LABELS.

(** *** Orthogonality *)

Record orthogonality := {
  og_per_case : list (string * list string);           (* case, offset signals *)
  og_single_true : nat;
  og_pairs : list (string * list (string * nat));
}.
Definition offset_signals (row : offset_row) (r : rule) : R (list string) :=
  let* flags := rmapM (λ label,
    let* cell := table_at (or_signals row) label in Ok (label, rd_qualifies (oc_reading r cell))) LABELS in
  Ok (sort_strings (List.filter (λ f : string * bool, f.2) flags).*1).
Definition orthogonality_of (table : offsets) (truth : truth_table) (r : rule) : R orthogonality :=
  let* rows := rmapM (λ c : string * offset_row,
    let* signals := offset_signals c.2 r in
    let* actual := table_at truth c.1 in Ok (c.1, (signals, actual))) (sort_keys table) in
  let signals := (λ row : string * (list string * string), (row.1, row.2.1)) <$> rows in
  Ok {| og_per_case := signals;
        og_single_true := count_of (λ row : string * (list string * string), bool_decide (row.2.1 = [row.2.2])) rows;
        og_pairs := (λ a, (a, (λ b, (b, count_of (λ s : string * list string, bool_decide (a ∈ s.2) && bool_decide (b ∈ s.2)) signals))
                           <$> LABELS)) <$> LABELS |}.
Definition og_single (o : orthogonality) : nat := count_of (λ s : string * list string, (length s.2 =? 1)%nat) (og_per_case o).
Definition og_single_fraction (o : orthogonality) : double := ratio (og_single o) (length (og_per_case o)).
Definition og_mean (o : orthogonality) : double :=
  ratio (sum_list ((λ s : string * list string, length s.2) <$> og_per_case o)) (length (og_per_case o)).

(** *** Ablation *)

Record ablation_run := {
  ab_predictions : truth_table;
  ab_scores : scores;
  ab_own : family_score;
  ab_own_cases : list string;
  ab_foreign : list string;
}.
Definition ABLATION_SELF_FLOOR : double := dec 75 2.
Definition identifies_alone (a : ablation_run) : bool := dle ABLATION_SELF_FLOOR (fs_accuracy (ab_own a)).
Definition ablation_prediction (label : string) (c : string * offset_row) : R (string * string) :=
  let* prediction := classify_from_offsets c.2 "p99" (Some label) in
  raise_if negb (bool_decide (prediction ∈ [label; ABSTAIN]))
    with_ RGovernance ("single-signal ablation for " +:+ label +:+ " predicted " +:+ prediction);;
  Ok (c.1, prediction).
Definition ablate (table : offsets) (truth : truth_table) (label : string) : R (string * ablation_run) :=
  let* predictions := rmapM (ablation_prediction label) table in
  let* s := scores_of truth predictions in
  let* own := table_at (sc_per_family s) label in
  let of_label (p : string * string) := bool_decide (p.2 = label) in
  Ok (label, {| ab_predictions := predictions; ab_scores := s; ab_own := own;
                ab_own_cases := sort_strings (List.filter of_label truth).*1;
                ab_foreign := sort_strings (List.filter (λ ct : string * string,
                  bool_decide (table_get predictions ct.1 = Some label) && negb (of_label ct)) truth).*1 |}).
Definition ablation (table : offsets) (truth : truth_table) : R (list (string * ablation_run)) := rmapM (ablate table truth) LABELS.
Definition self_identifying (runs : list (string * ablation_run)) : list string :=
  sort_strings (List.filter (λ a : string * ablation_run, identifies_alone a.2) runs).*1.

(** *** Readings *)

Definition family_delta (d1 d2 : scores) : list (string * double) :=
  zip_with (λ a b : string * family_score, (a.1, dsub (fs_accuracy a.2) (fs_accuracy b.2))) (sc_per_family d1) (sc_per_family d2).
Record fracture := { fr_spread : double; fr_perfect : list string; fr_zero : list string }.
Definition fracture_of (s : scores) : R fracture :=
  let accuracies := (λ f : string * family_score, fs_accuracy f.2) <$> sc_per_family s in
  let* best := max_of accuracies in
  let* worst := min_of accuracies in
  let where_ p := sort_strings (List.filter (λ f : string * family_score, p (fs_accuracy f.2)) (sc_per_family s)).*1 in
  Ok {| fr_spread := dsub best worst; fr_perfect := where_ (λ a, dle one a); fr_zero := where_ (λ a, dle a dzero) |}.
Definition fractured (f : fracture) : bool := dle (dec 75 2) (fr_spread f).
Record readings := {
  six_way_lookup_table : bool;
  threshold_contamination : bool;
  room_for_investigation : bool;
  difficulty_fracture : bool;
}.
Definition assessment (d1 d2 : scores) (runs : list (string * ablation_run)) (o : orthogonality) (f : fracture) : readings :=
  let every_signal := (length (self_identifying runs) =? length LABELS)%nat in
  let single := og_single_fraction o in
  let lookup := dle (dec 9 1) (sc_accuracy d1) && every_signal && dle (dec 75 2) single in
  {| six_way_lookup_table := lookup; threshold_contamination := dlt (sc_accuracy d1) (sc_accuracy d2);
     room_for_investigation := negb lookup && dlt single (dec 75 2); difficulty_fracture := fractured f |}.

Record separability_report := {
  sr_truth : truth_table;
  sr_majority : string;
  sr_thresholds : frozen_table;
  sr_table : offsets;
  sr_p99 : scores;           (* D1 *)
  sr_bare : scores;          (* D2 *)
  sr_majority_class : scores; (* D3 *)
  sr_ablation : list (string * ablation_run);
  sr_false : list (string * signal_qualification);
  sr_orthogonality : orthogonality * orthogonality;
  sr_fracture : fracture;
  sr_legacy : double * list (string * qualification_detail);
  sr_digest : string;
  sr_readings : readings;
}.
Definition classify_table (table : offsets) (r : string) : R truth_table :=
  rmapM (λ c : string * offset_row, let* p := classify_from_offsets c.2 r None in Ok (c.1, p)) table.
Definition run_separability_probe (document : mapping) : R separability_report :=
  let* cs := scenario_cases_v3 document in
  raise_if negb (length cs =? 32)%nat with_ RGovernance ("metric v3 " +:+ probe_cases);;
  let* truth := sealed_truth cs in
  let* thresholds := frozen_thresholds_loo cs in
  let* table := offset_table cs thresholds truth in
  let* p1 := classify_table table "p99" in
  let* p2 := classify_table table "quantum" in
  let* majority := prior_majority truth (sort_strings truth.*1) in
  let* d1 := scores_of truth p1 in
  let* d2 := scores_of truth p2 in
  let* d3 := scores_of truth ((λ ct : string * string, (ct.1, majority)) <$> truth) in
  let* legacy := rmapM (λ c : string * scenario_case,
    let* f := root_signal_features (sc_packet c.2) in Ok (c.1, f)) (sort_keys cs) in
  let* detail := root_signal_qualification_detail legacy truth in
  let* runs := ablation table truth in
  let* o1 := orthogonality_of table truth P99 in
  let* o2 := orthogonality_of table truth Quantum in
  let* f := fracture_of d1 in
  let* digest := dataset_digest_v3 document in
  let* qualifications := false_qualification_table table truth in
  Ok {| sr_truth := truth; sr_majority := majority; sr_thresholds := thresholds; sr_table := table; sr_p99 := d1; sr_bare := d2;
        sr_majority_class := d3; sr_ablation := runs; sr_false := qualifications; sr_orthogonality := (o1, o2); sr_fracture := f;
        sr_legacy := detail; sr_digest := digest; sr_readings := assessment d1 d2 runs o1 f |}.

(** ** The cascade *)

Definition UPSTREAM_OF : list (string * list string) :=
  [("product-catalog", ["frontend"; "recommendation"]); ("payment", ["frontend"; "cart"]); ("checkout", ["frontend"; "cart"])].
Definition upstream_of (target : string) : list string := default [] (table_get UPSTREAM_OF target).
Definition injected_services : list string := TARGET_SERVICES.*2.
Definition uninjected_services : list string :=
  List.filter (λ s, negb (bool_decide (s ∈ injected_services))) V3_TRACE_QUERY_SERVICES.
Definition cascade_candidate_families : list string :=
  (List.filter (λ lt : string * string, existsb (λ s, bool_decide (s ∈ V3_TRACE_QUERY_SERVICES)) (upstream_of lt.2))
     (sort_keys TARGET_SERVICES)).*1.

(** The first group of a kind; those after it are not looked at. *)
Fixpoint first_group (kind : string) (groups : list val) : R val :=
  match groups with
  | [] => Err (RGovernance ("packet lacks evidence kind: " +:+ kind))
  | g :: groups =>
      let* k := py (get_attr g "kind" VNone) in
      if bool_decide (val_str k = kind) then Ok g else first_group kind groups
  end.
Definition phase_samples (packet : mapping) (kind phase : string) : R (list val) :=
  let* windows := py (subscript (VDict packet) "windows") in
  let* windows := py (iterate windows) in
  let* phases := rmapM (λ w, let* p := py (subscript w "phase") in Ok (val_str p)) windows in
  let* groups := py (subscript (VDict packet) "observations") in
  let* groups := py (iterate groups) in
  let* group := first_group kind groups in
  let* samples := py (get_attr group "samples" VNone) in
  let misaligned := RGovernance ("evidence kind " +:+ kind +:+ " does not align with the window list") in
  match samples with
  | VList samples =>
      raise_if negb (length samples =? length phases)%nat with_ misaligned;;
      Ok (List.filter (λ sp : val * string, bool_decide (sp.2 = phase)) (zip samples phases)).*1
  | _ => Err misaligned
  end.

Record service_row := {
  sv_is_target : bool;
  sv_is_upstream : bool;
  sv_fault_traces : Z;
  sv_fault_error : Z;
  sv_fault_connection : Z;
  sv_healthy_error : Z;
  sv_healthy_connection : Z;
}.
Definition observed_under_fault (s : service_row) : bool := (0 <? sv_fault_traces s)%Z.
Definition total_fault (s : service_row) : Z := (sv_fault_error s + sv_fault_connection s)%Z.
Definition total_healthy (s : service_row) : Z := (sv_healthy_error s + sv_healthy_connection s)%Z.
Definition excess_over_healthy (s : service_row) : Z := Z.max 0 (total_fault s - total_healthy s).

(** [max(int(sample["services"][service][field]) for sample in samples)] *)
Definition greatest (service field : string) (samples : list val) : R Z :=
  let* values := rmapM (λ sample,
    let* services := py (subscript sample "services") in
    let* measured := py (subscript services service) in
    let* v := py (subscript measured field) in py (val_int v)) samples in
  match values with [] => Err (RPython "ValueError") | x :: xs => Ok (foldl Z.max x xs) end.
(** [service not in sample.get("services", {})] of some sample *)
Definition uncovered (service : string) (samples : list val) : R bool :=
  let* flags := rmapM (λ sample,
    let* services := py (get_attr sample "services" (VDict [])) in
    let* present := py (val_contains service services) in Ok (negb present)) samples in
  Ok (existsb id flags).
Definition check_coverage (case_id service : string) (kind : string) (samples : list val) : R unit :=
  let* missing := uncovered service samples in
  raise_if missing with_ RGovernance (case_id +:+ " " +:+ kind +:+ " does not cover the queried service " +:+ service);;
  Ok tt.
Definition service_row_of (case_id target : string) (fault healthy activity : list val) (service : string)
    : R (string * service_row) :=
  let* _ := check_coverage case_id service "trace_errors" (fault ++ healthy) in
  let* _ := check_coverage case_id service "trace_activity" activity in
  let* fault_error := greatest service "error_count" fault in
  let* fault_connection := greatest service "connection_error_count" fault in
  let* healthy_error := greatest service "error_count" healthy in
  let* healthy_connection := greatest service "connection_error_count" healthy in
  let* traces := if bool_decide (activity = []) then Ok 0%Z else greatest service "trace_count" activity in
  Ok (service, {| sv_is_target := bool_decide (service = target); sv_is_upstream := bool_decide (service ∈ upstream_of target);
                  sv_fault_traces := traces; sv_fault_error := fault_error; sv_fault_connection := fault_connection;
                  sv_healthy_error := healthy_error; sv_healthy_connection := healthy_connection |}).

Record cascade_row := {
  cr_case_id : string;
  cr_root_cause : string;
  cr_target : string;
  cr_services : list (string * service_row);
}.
Definition at_service (row : cascade_row) (p : service_row → bool) (service : string) : bool :=
  match table_get (cr_services row) service with Some s => p s | None => false end.
Definition cr_upstream (row : cascade_row) : list string :=
  List.filter (λ s, bool_decide (s ∈ V3_TRACE_QUERY_SERVICES)) (upstream_of (cr_target row)).
Definition cr_candidate (row : cascade_row) : bool := bool_decide (cr_root_cause row ∈ cascade_candidate_families).
Definition cr_propagating (row : cascade_row) : list string :=
  sort_strings (List.filter (at_service row (λ s, (0 <? excess_over_healthy s)%Z)) uninjected_services).
Definition cr_propagating_upstream (row : cascade_row) : list string :=
  List.filter (λ s, bool_decide (s ∈ upstream_of (cr_target row))) (cr_propagating row).
Definition cr_unobserved (row : cascade_row) : list string :=
  sort_strings (List.filter (at_service row (negb ∘ observed_under_fault)) uninjected_services).
Definition cr_unobservable (row : cascade_row) : bool :=
  forallb (λ s, match table_get (cr_services row) s with Some r => negb (observed_under_fault r) | None => true end)
    (upstream_of (cr_target row)) && negb (bool_decide (upstream_of (cr_target row) = [])).
Definition cr_observed (row : cascade_row) : bool := negb (bool_decide (cr_propagating row = [])).
Definition case_row (c : string * scenario_case) : R cascade_row :=
  let packet := sc_packet c.2 in
  let label := gt_root_cause (sc_truth c.2) in
  let* target := from_option_or (RGovernance (c.1 +:+ " carries an unknown sealed label: " +:+ label)) (table_get TARGET_SERVICES label) in
  let* fault := phase_samples packet "trace_errors" "fault" in
  let* healthy := phase_samples packet "trace_errors" "healthy" in
  raise_if bool_decide (fault = []) || bool_decide (healthy = [])
    with_ RGovernance (c.1 +:+ " lacks both phases of trace_errors samples");;
  let* activity := phase_samples packet "trace_activity" "fault" in
  let* services := rmapM (service_row_of c.1 target fault healthy activity) V3_TRACE_QUERY_SERVICES in
  Ok {| cr_case_id := c.1; cr_root_cause := label; cr_target := target; cr_services := services |}.

Record family_entry := {
  fe_n : nat;
  fe_cascades : nat;
  fe_candidate : bool;
  fe_injected : string;
  fe_patterns : list (string * nat);
}.
Definition NO_PATTERN : string := "(none)".
Definition pattern_of (row : cascade_row) : string :=
  match cr_propagating row with [] => NO_PATTERN | services => str_join "," services end.
Definition fresh_family (row : cascade_row) : family_entry :=
  {| fe_n := 0; fe_cascades := 0; fe_candidate := cr_candidate row; fe_injected := cr_target row; fe_patterns := [] |}.
Definition add_to_family (row : cascade_row) (e : family_entry) : family_entry :=
  {| fe_n := S (fe_n e); fe_cascades := if cr_observed row then S (fe_cascades e) else fe_cascades e;
     fe_candidate := fe_candidate e; fe_injected := fe_injected e; fe_patterns := count_label (pattern_of row) (fe_patterns e) |}.
Fixpoint add_row (row : cascade_row) (families : list (string * family_entry)) : list (string * family_entry) :=
  match families with
  | [] => [(cr_root_cause row, add_to_family row (fresh_family row))]
  | (label, e) :: rest =>
      if bool_decide (label = cr_root_cause row) then (label, add_to_family row e) :: rest else (label, e) :: add_row row rest
  end.
Definition family_summary (rows : list cascade_row) : list (string * family_entry) :=
  foldl (λ families row, add_row row families) [] rows.
Definition fe_rate (e : family_entry) : double := ratio (fe_cascades e) (fe_n e).
Definition fe_distinct (e : family_entry) : nat := count_of (λ p : string * nat, negb (bool_decide (p.1 = NO_PATTERN))) (fe_patterns e).
Definition fe_unique (e : family_entry) : bool := (fe_distinct e =? 1)%nat.

Record cascade_assessment := {
  ca_candidates : nat;
  ca_with_cascade : nat;
  ca_unobservable : list string;
  ca_families : list string;
  ca_families_with_cascade : list string;
  ca_families_unique : list string;
  ca_others_with_cascade : list string;
}.
Definition cascade_assessment_of (rows : list cascade_row) (families : list (string * family_entry)) : cascade_assessment :=
  let candidates := List.filter cr_candidate rows in
  let own := List.filter (λ f : string * family_entry, fe_candidate f.2) families in
  let has_cascade (f : string * family_entry) := (0 <? fe_cascades f.2)%nat in
  {| ca_candidates := length candidates; ca_with_cascade := count_of cr_observed candidates;
     ca_unobservable := sort_strings (cr_case_id <$> List.filter cr_unobservable candidates);
     ca_families := sort_strings own.*1; ca_families_with_cascade := sort_strings (List.filter has_cascade own).*1;
     ca_families_unique := sort_strings (List.filter (λ f, has_cascade f && fe_unique f.2) own).*1;
     ca_others_with_cascade := sort_strings (cr_case_id <$> List.filter (λ r, negb (cr_candidate r) && cr_observed r) rows) |}.
Definition ca_deterministic (a : cascade_assessment) : bool :=
  negb (bool_decide (ca_families_with_cascade a = [])) && bool_decide (ca_families_unique a = ca_families_with_cascade a).
Definition e_verdict (a : cascade_assessment) : string :=
  if (0 <? ca_with_cascade a)%nat then "cascade_present"
  else if (length (ca_unobservable a) =? ca_candidates a)%nat then "cascade_unobservable"
  else "cascade_absent".
Definition e_reading (a : cascade_assessment) : string :=
  let observed := (0 <? ca_with_cascade a)%nat in
  if negb observed && (length (ca_unobservable a) =? ca_candidates a)%nat then
    "cascade_unobservable_no_upstream_traces_in_any_candidate_case"
  else if negb observed then "cascade_absent_injection_surface_does_not_propagate"
  else if ca_deterministic a then "cascade_present_single_pattern_per_family"
  else "cascade_present_varying_pattern".

Record cascade_report := { cp_rows : list cascade_row; cp_families : list (string * family_entry); cp_assessment : cascade_assessment; cp_digest : string }.
Definition subset (a b : list string) : bool := forallb (λ s, bool_decide (s ∈ b)) a.
Definition run_cascade_probe (document : mapping) : R cascade_report :=
  raise_if negb (subset injected_services V3_TRACE_QUERY_SERVICES) || subset V3_TRACE_QUERY_SERVICES injected_services
    with_ RGovernance ("cascade probe requires a trace scope strictly wider than the injection targets; " +:+
                       "with a 1:1 scope propagation is unobservable and a zero reading means nothing");;
  raise_if bool_decide (cascade_candidate_families = [])
    with_ RGovernance ("no injected service has a queried upstream caller, so criterion E is unanswerable " +:+ "on this trace scope");;
  let* cs := scenario_cases_v3 document in
  let* rows := rmapM case_row (sort_keys cs) in
  let families := family_summary rows in
  let* digest := dataset_digest_v3 document in
  Ok {| cp_rows := rows; cp_families := families; cp_assessment := cascade_assessment_of rows families; cp_digest := digest |}.

Example candidate_families : cascade_candidate_families = ["paymentFailure"; "paymentUnreachable"; "productCatalogFailure"].
Proof. vm_compute. reflexivity. Qed.
Example uninjected : uninjected_services = ["cart"; "frontend"; "recommendation"].
Proof. vm_compute. reflexivity. Qed.
