(* ===== verification/ProbesTheorems.v ===== *)
(** * Theorems on the diagnostic probes

    The thresholds of the separability probe are those of the metric; its bare-quantum rule is
    the classifier of the leakage probe, and the percentile rule qualifies no signal that the
    bare rule does not; the leave-one-out classifier never reads the label of the case it
    classifies; scores add up; a negative on cascades rests on a case that could have shown
    one. *)
From Stdlib Require Import Ascii.
From S2P Require Import Prelude Json PyDyn PyCalendar PyFloat Packet PacketTheorems Scoring ScoringTheorems Thresholds ThresholdsTheorems ExperimentTheorems Probes.

(** ** Rounding *)

Section Rounding.
Local Open Scope Z_scope.
Lemma round_half_even_ge N D n : 0 < D → n * D <= N → n <= round_half_even N D.
Proof.
  intros HD H. assert (n <= N / D) as Hq by (apply Z.div_le_lower_bound; lia).
  unfold round_half_even. destruct (_ || _); lia.
Qed.
Lemma pow2_pos n : 0 <= n → 0 < 2 ^ n.
Proof. intros. by apply Z.pow_pos_nonneg. Qed.

(** A double that does not exceed a quotient does not exceed the double nearest to it. *)
Lemma nearest_double_ge num den q : 0 < num → 0 < den → 0 <= q.1 <= 2 ^ 53 →
  q.1 * 2 ^ Z.max 0 q.2 * den <= num * 2 ^ Z.max 0 (- q.2) → dle q (nearest_double num den) = true.
Proof.
  intros Hn Hd Hq H. unfold nearest_double. rewrite (proj2 (Z.eqb_neq num 0)) by lia. cbv zeta.
  set (s0 := 53 - (Z.log2 num - Z.log2 den)). set (s := if _ : bool then _ else s0).
  assert (2 ^ 52 * (den * 2 ^ Z.max 0 (- s)) <= num * 2 ^ Z.max 0 s) as Hs.
  { unfold s. destruct (Z.leb_spec (2 ^ 53 * den * 2 ^ Z.max 0 (- s0)) (num * 2 ^ Z.max 0 s0)).
    - by apply scale_halved.
    - by apply scale_enough. }
  set (N := num * 2 ^ Z.max 0 s) in *. set (D := den * 2 ^ Z.max 0 (- s)) in *.
  assert (0 < D) as HD by (unfold D; pose proof (pow2_pos (Z.max 0 (- s)) ltac:(lia)); nia).
  pose proof (round_half_even_ge N D _ HD Hs) as Hr. destruct (Z.le_gt_cases (- s) q.2) as [Hc|Hc].
  - rewrite (dle_scaled s) by (cbn; lia). apply Z.leb_le. unfold scaled. cbn [fst snd].
    replace (- s + s) with 0 by lia. rewrite Z.mul_1_r. apply round_half_even_ge; [done|].
    assert (0 < 2 ^ Z.max 0 (- q.2)) as Hb by (apply pow2_pos; lia). apply (Z.mul_le_mono_pos_r _ _ _ Hb).
    replace (q.1 * 2 ^ (q.2 + s) * D * 2 ^ Z.max 0 (- q.2)) with (q.1 * 2 ^ Z.max 0 q.2 * den * 2 ^ Z.max 0 s).
    + unfold N. pose proof (pow2_pos (Z.max 0 s) ltac:(lia)). nia.
    + unfold D. assert (2 ^ Z.max 0 q.2 * 2 ^ Z.max 0 s = 2 ^ (q.2 + s) * 2 ^ Z.max 0 (- s) * 2 ^ Z.max 0 (- q.2)) as E.
      { rewrite <-!Z.pow_add_r by lia. f_equal. lia. }
      nia.
  - rewrite (dle_scaled (- q.2)) by (cbn; lia). apply Z.leb_le. unfold scaled. cbn [fst snd].
    replace (q.2 + - q.2) with 0 by lia. rewrite Z.mul_1_r.
    replace (- s + - q.2) with (1 + (- s - q.2 - 1)) by lia. rewrite Z.pow_add_r by lia.
    pose proof (pow2_pos (- s - q.2 - 1) ltac:(lia)). change (2 ^ 53) with (2 * 2 ^ 52) in Hq. nia.
Qed.

Lemma dle_zero p : dle dzero p = true → 0 <= p.1.
Proof.
  rewrite (dle_scaled (Z.max 0 (- p.2))) by (cbn; lia). intros H%Z.leb_le. unfold scaled in H. cbn in H.
  pose proof (pow2_pos (p.2 + Z.max 0 (- p.2)) ltac:(lia)). nia.
Qed.

(** Adding what is not negative does not make a sum smaller than a summand, rounding included. *)
Lemma dadd_ge p q : dle dzero p = true → 0 < q.1 <= 2 ^ 53 → dle q (dadd p q) = true.
Proof.
  intros Hp%dle_zero Hq. unfold dadd, aligned. set (e := Z.min p.2 q.2). unfold double_of_exact, to_double.
  set (m := p.1 * _ + _). assert (q.1 * 2 ^ (q.2 - e) <= m) as Hm.
  { unfold m. pose proof (pow2_pos (p.2 - e) ltac:(lia)). nia. }
  assert (0 < q.1 * 2 ^ (q.2 - e)) by (pose proof (pow2_pos (q.2 - e) ltac:(lia)); nia).
  pose proof (pow2_pos (Z.max 0 e) ltac:(lia)) as He. pose proof (pow2_pos (Z.max 0 (- e)) ltac:(lia)) as He'.
  rewrite Z.abs_eq, Z.sgn_pos by nia.
  assert (dle q (nearest_double (m * 2 ^ Z.max 0 e) (2 ^ Z.max 0 (- e))) = true) as H0.
  { apply nearest_double_ge; [nia|done|lia|].
    assert (2 ^ Z.max 0 q.2 * 2 ^ Z.max 0 (- e) = 2 ^ (q.2 - e) * 2 ^ Z.max 0 e * 2 ^ Z.max 0 (- q.2)) as E.
    { rewrite <-!Z.pow_add_r by lia. f_equal. lia. }
    pose proof (pow2_pos (Z.max 0 (- q.2)) ltac:(lia)). nia. }
  destruct (nearest_double _ _) as [r e']. by rewrite Z.mul_1_l.
Qed.
End Rounding.

(** ** Tables *)

Lemma keyed_lookup {A} (f : string → R (string * A)) ks t k x : (∀ k p, f k = Ok p → p.1 = k) →
  rmapM f ks = Ok t → table_get t k = Some x → f k = Ok (k, x).
Proof.
  intros Hf. revert t; induction ks as [|k' ks IH]; intros t H Hx; cbn in H; res_inv; [done|].
  cbn in Hx. destruct a as [k0 x0]. pose proof (Hf _ _ E) as E'. cbn in E', Hx. subst.
  case_bool_decide; [subst; by injection Hx as ->|by eapply IH].
Qed.
Lemma rmapM_follow {A B C} (f : A → R B) (g : B → R C) (h : A → R C) xs ys :
  rmapM f xs = Ok ys → (∀ x y, x ∈ xs → f x = Ok y → g y = h x) → rmapM g ys = rmapM h xs.
Proof.
  revert ys; induction xs as [|x xs IH]; intros ys H Hgh; cbn in H; res_inv; [done|]. cbn.
  rewrite (Hgh x a) by (done || left). erewrite IH by (done || (intros; apply Hgh; [by right|done])). done.
Qed.

(** ** The thresholds *)

Lemma labels_perm : LABELS ≡ₚ ROOT_CAUSE_LABELS.
Proof. apply sort_by_perm. Qed.
Lemma label_known label : label ∈ LABELS ↔ label ∈ ROOT_CAUSE_LABELS.
Proof. by rewrite labels_perm. Qed.

(** The drifts of a case: four numbers that are not negative *)
Lemma drifts_of_values values drifts : positive_consecutive_drifts values = Ok drifts →
  length drifts = 4 ∧ Forall (λ d, dle dzero d = true) drifts.
Proof.
  unfold positive_consecutive_drifts. destruct (_ =? _)%nat eqn:E; [|done]. apply Nat.eqb_eq in E. cbn [negb].
  intros [= <-]. do 6 (destruct values as [|? values]; try discriminate E). cbn. split; [done|].
  repeat (constructor; [apply dle_max_l|]). constructor.
Qed.
Lemma concat_drifts {A} (f : A → R (list double)) xs ds : (∀ x d, f x = Ok d → length d = 4 ∧ Forall (λ d, dle dzero d = true) d) →
  rmapM f xs = Ok ds → length (concat ds) = length xs * 4 ∧ Forall (λ d, dle dzero d = true) (concat ds).
Proof.
  intros Hf. revert ds; induction xs as [|x xs IH]; intros ds H; cbn in H; res_inv; [done|].
  destruct (Hf _ _ E) as [Hl Hz]. destruct (IH _ eq_refl) as [Hl' Hz']. cbn. rewrite length_app. split; [lia|].
  by apply Forall_app.
Qed.

Definition spec_quantum (label : string) : double := match table_get ROOT_SIGNAL_FEATURES label with Some s => s.2 | None => dzero end.
Lemma quantum_bounds label spec : table_get ROOT_SIGNAL_FEATURES label = Some spec → (0 < spec.2.1 <= 2 ^ 53)%Z.
Proof.
  intros H. assert (forallb (λ e, (0 <? e.2.2.1)%Z && (e.2.2.1 <=? 2 ^ 53)%Z) ROOT_SIGNAL_FEATURES = true) as Hall
    by (vm_compute; reflexivity).
  rewrite forallb_forall in Hall. apply table_get_elem, list_elem_of_In, Hall in H. cbn [fst snd] in H.
  apply andb_true_iff in H as [H1%Z.ltb_lt H2%Z.leb_le]. split; [exact H1|exact H2].
Qed.

(** What the threshold of a label is made of *)
Lemma frozen_shape cs id training label l z : frozen_threshold_of cs id training label = Ok (l, z) →
  l = label ∧ (∃ spec, table_get ROOT_SIGNAL_FEATURES label = Some spec ∧ fz_quantum z = spec.2) ∧
  dle (fz_quantum z) (fz_absolute z) = true ∧
  match fz_floor z with
  | Some f => fz_threshold z = dmax (fz_absolute z) (floor_value f) ∧
      ∃ case values, table_get cs id = Some case ∧ feature_values (sc_packet case) label "root_signal" "healthy" = Ok values ∧
        median values = Ok (floor_median f) ∧ table_get RELATIVE_ROOT_SIGNAL_FLOORS label = Some (floor_fraction f) ∧
        floor_value f = dmul (floor_median f) (floor_fraction f)
  | None => fz_threshold z = fz_absolute z ∧ table_get RELATIVE_ROOT_SIGNAL_FLOORS label = None
  end.
Proof.
  unfold frozen_threshold_of. destruct (table_at ROOT_SIGNAL_FEATURES label) as [[[kind field] quantum]|] eqn:Es; [|done].
  apply from_option_or_ok in Es. cbn [rbind]. destruct (rmapM _ training) as [ds|] eqn:Eds; [|done]. cbn [rbind].
  destruct (negb _); [done|]. destruct (nearest_rank _ _) as [p99|] eqn:Ep; [|done]. cbn [rbind].
  destruct (table_at TARGET_SERVICES label) as [service|]; [|done]. cbn [rbind].
  assert (dle quantum (dadd p99 quantum) = true) as Hq.
  { apply dadd_ge; [|by apply quantum_bounds in Es]. apply nearest_rank_covers in Ep as [Hin _].
    eapply concat_drifts in Eds as [_ Hz]; [by eapply Forall_forall in Hz|].
    intros x d Hd. cbn in Hd. res_inv. by eapply drifts_of_values. }
  destruct (table_get RELATIVE_ROOT_SIGNAL_FLOORS label) as [fraction|] eqn:Ef.
  - destruct (table_at cs id) as [case|] eqn:Ec; [|done]. apply from_option_or_ok in Ec. cbn [rbind].
    destruct (feature_values _ _ _ _) as [values|] eqn:Ev; [|done]. cbn [rbind].
    destruct (median values) as [level|] eqn:Em; [|done]. cbn [rbind]. intros [= <- <-]. cbn.
    split_and!; [done|by eexists|done|done|]. by exists case, values.
  - intros [= <- <-]. cbn. split_and!; [done|by eexists|done..].
Qed.

Lemma frozen_lookup cs th id row label z : frozen_thresholds_loo cs = Ok th → table_get th id = Some row →
  table_get row label = Some z → ∃ training, frozen_threshold_of cs id training label = Ok (label, z).
Proof.
  unfold frozen_thresholds_loo. destruct (negb _); [done|]. intros H Hrow Hz.
  eapply keyed_lookup in H; [|clear; intros k p; unfold frozen_case; intros Hp; res_inv; done|exact Hrow].
  unfold frozen_case in H. destruct (negb _); [done|]. apply rbind_ok in H as (per_label & E & [= ->]). exists (List.filter (λ other, negb (bool_decide (other = id))) (sort_strings cs.*1)).
  eapply keyed_lookup; [|exact E|exact Hz]. intros k [l z'] Hp. by apply frozen_shape in Hp as [-> _].
Qed.

(** ** The two rules *)

Lemma offset_row_made th truth id case id' row : offset_row_of th truth (id, case) = Ok (id', row) →
  id' = id ∧ (∃ out, validate_observation_packet_v3 (sc_packet case) = Ok out) ∧
  ∃ frozen actual, table_get th id = Some frozen ∧ table_get truth id = Some actual ∧ or_root_cause row = actual ∧
    rmapM (offset_of (sc_packet case) frozen actual) LABELS = Ok (or_signals row).
Proof.
  unfold offset_row_of. cbn [fst snd]. destruct (validate_observation_packet_v3 _) as [out|]; [|done]. cbn [rbind].
  destruct (table_at th id) as [frozen|] eqn:Ef; [|done]. cbn [rbind]. destruct (table_at truth id) as [actual|] eqn:Ea; [|done].
  cbn [rbind]. destruct (rmapM _ LABELS) as [cells|] eqn:Ec; [|done]. cbn [rbind].
  destruct (assert_no_forbidden_input _ _ _); [|done]. cbn [rbind]. intros [= <- <-]. split; [done|]. split; [by eexists|].
  exists frozen, actual. by apply from_option_or_ok in Ef, Ea.
Qed.

(** One cell: its two readings of the same excess *)
Lemma offset_made packet frozen actual label l c : offset_of packet frozen actual label = Ok (l, c) →
  l = label ∧ ∃ t healthy fault level high,
    table_get frozen label = Some t ∧ feature_values packet label "root_signal" "healthy" = Ok healthy ∧
    feature_values packet label "root_signal" "fault" = Ok fault ∧ median healthy = Ok level ∧ max_of fault = Ok high ∧
    let bare := match fz_floor t with Some f => dmax (fz_quantum t) (floor_value f) | None => fz_quantum t end in
    read_signal (dsub high level) (fz_threshold t) (fz_quantum t) = Ok (oc_p99_reading c) ∧
    read_signal (dsub high level) bare (fz_quantum t) = Ok (oc_quantum_reading c).
Proof.
  unfold offset_of. destruct (table_at frozen label) as [t|] eqn:Et; [|done]. apply from_option_or_ok in Et. cbn [rbind].
  destruct (feature_values _ _ _ "healthy") as [healthy|]; [|done]. cbn [rbind].
  destruct (feature_values _ _ _ "fault") as [fault|]; [|done]. cbn [rbind].
  destruct (median healthy) as [level|] eqn:Em; [|done]. cbn [rbind]. destruct (max_of fault) as [high|] eqn:Eh; [|done]. cbn [rbind].
  destruct (read_signal _ (fz_threshold t) _) as [p99|] eqn:E1; [|done]. cbn [rbind].
  destruct (read_signal _ (match fz_floor t with Some _ => _ | None => _ end) _) as [bare|] eqn:E2; [|done]. cbn [rbind].
  intros [= <- <-]. split; [done|]. exists t, healthy, fault, level, high. by split_and!.
Qed.
Lemma reading_qualifies excess cutoff quantum r : read_signal excess cutoff quantum = Ok r → rd_qualifies r = dle cutoff excess.
Proof. unfold read_signal. destruct (deq _ _); [done|]. by intros [= <-]. Qed.

Lemma dmax_mono a b f : dle a b = true → dle (dmax a f) (dmax b f) = true.
Proof.
  intros H. unfold dmax at 1. destruct (dle f a) eqn:E; [|apply dle_max_r].
  eapply dle_trans; [exact H|apply dle_max_l].
Qed.
(** The bare cutoff of a label does not exceed its frozen threshold. *)
Lemma bare_below_frozen cs id training label l z : frozen_threshold_of cs id training label = Ok (l, z) →
  dle (match fz_floor z with Some f => dmax (fz_quantum z) (floor_value f) | None => fz_quantum z end) (fz_threshold z) = true.
Proof.
  intros (_ & _ & Hq & Hf)%frozen_shape. destruct (fz_floor z) as [f|]; destruct Hf as [-> _]; [by apply dmax_mono|done].
Qed.

Lemma table_rows cs th truth table id row : offset_table cs th truth = Ok table → (id, row) ∈ table →
  ∃ case, (id, case) ∈ cs ∧ offset_row_of th truth (id, case) = Ok (id, row).
Proof.
  unfold offset_table. intros H%rmapM_ok Hin. apply list_elem_of_lookup in Hin as [i Hi].
  destruct (Forall2_lookup_r _ _ _ _ _ H Hi) as ([id' case] & Hc & Hr).
  pose proof (offset_row_made _ _ _ _ _ _ Hr) as [-> _]. exists case. split; [|done].
  apply list_elem_of_lookup_2 in Hc. by rewrite sort_keys_perm in Hc.
Qed.
Lemma cell_rules cs th truth table id row label c :
  frozen_thresholds_loo cs = Ok th → offset_table cs th truth = Ok table → (id, row) ∈ table →
  table_get (or_signals row) label = Some c → rd_qualifies (oc_p99_reading c) = true → rd_qualifies (oc_quantum_reading c) = true.
Proof.
  intros Hth Ht Hin Hc Hp. destruct (table_rows _ _ _ _ _ _ Ht Hin) as (case & _ & Hr).
  apply offset_row_made in Hr as (_ & _ & frozen & actual & Hf & _ & _ & Hcells).
  eapply keyed_lookup in Hcells; [|intros k [l x] Hx; by apply offset_made in Hx as [-> _]|exact Hc].
  apply offset_made in Hcells as (_ & t & healthy & fault & level & high & Hz & _ & _ & _ & _ & H1 & H2).
  destruct (frozen_lookup _ _ _ _ _ _ Hth Hf Hz) as [training Hs].
  rewrite (reading_qualifies _ _ _ _ H1) in Hp. rewrite (reading_qualifies _ _ _ _ H2).
  eapply dle_trans; [by eapply bare_below_frozen|done].
Qed.

(** The cases where a signal qualifies by the percentile qualify by the quantum. *)
Lemma qualified_sublist table truth label p q :
  (∀ id row c, (id, row) ∈ table → table_get (or_signals row) label = Some c → rd_qualifies (oc_p99_reading c) = true →
     rd_qualifies (oc_quantum_reading c) = true) →
  qualified_cases table truth label P99 = Ok p → qualified_cases table truth label Quantum = Ok q → sublist p q.
Proof.
  unfold qualified_cases. intros Hc Hp Hq. apply rbind_ok in Hp as (fp & Hp & [= <-]). apply rbind_ok in Hq as (fq & Hq & [= <-]).
  revert fp fq Hp Hq. induction table as [|[id row] table IH]; intros fp fq Hp Hq; cbn [rmapM] in Hp, Hq.
  { res_inv. done. }
  destruct (table_at (or_signals row) label) as [c|] eqn:Ec; [|cbn [fst snd] in Hp; rewrite Ec in Hp; done].
  cbn [fst snd] in Hp, Hq. rewrite Ec in Hp, Hq. cbn [rbind] in Hp, Hq. apply from_option_or_ok in Ec.
  pose proof (Hc id row c ltac:(left) Ec) as Himp. cbn [oc_reading] in Hp, Hq.
  apply rbind_ok in Hp as (a & Ha & (fp' & Hp' & [= <-])%rbind_ok). apply rbind_ok in Hq as (b & Hb & (fq' & Hq' & [= <-])%rbind_ok).
  specialize (IH ltac:(intros; eapply Hc; [by right|done..]) fp' fq' Hp' Hq').
  destruct (rd_qualifies (oc_p99_reading c)).
  - rewrite Himp in Hb by done. rewrite Ha in Hb. injection Hb as <-. res_inv. cbn. by constructor.
  - res_inv. destruct (rd_qualifies (oc_quantum_reading c)); res_inv; cbn; [by constructor|done].
Qed.
Lemma sublist_filter_length {A} (p : A → bool) l k : sublist l k → length (List.filter p l) <= length (List.filter p k).
Proof. induction 1 as [|x l k _ IH|x l k _ IH]; cbn; [done| |]; destruct (p x); cbn; lia. Qed.

(** The percentile threshold of the metric never qualifies a signal that the bare quantum
    does not, rounding included: for every signal of every dataset, the false qualifications
    it removes are a count, never negative. *)
Theorem percentile_only_removes_qualifications cs th truth table qualifications :
  frozen_thresholds_loo cs = Ok th → offset_table cs th truth = Ok table →
  false_qualification_table table truth = Ok qualifications →
  Forall (λ q, (0 <= removed_by_p99 q.2)%Z ∧ ql_true (sq_p99 q.2) <= ql_true (sq_quantum q.2)) qualifications.
Proof.
  intros Hth Ht Hq. apply rmapM_ok in Hq. eapply Forall2_Forall_r; [exact Hq|]. apply Forall_forall.
  intros label _ [l q] Hs. unfold signal_qualification_of in Hs.
  destruct (qualified_cases table truth label P99) as [p|] eqn:E1; [|done]. cbn [rbind] in Hs.
  destruct (qualified_cases table truth label Quantum) as [b|] eqn:E2; [|done]. cbn [rbind] in Hs. injection Hs as <- <-.
  assert (sublist p b) as Hsub by (eapply qualified_sublist; [|done..]; intros; by eapply cell_rules).
  unfold removed_by_p99, qualification_of, count_of. cbn. rewrite !length_fmap.
  pose proof (sublist_filter_length (λ c : string * bool, negb c.2) _ _ Hsub).
  pose proof (sublist_filter_length snd _ _ Hsub). split; lia.
Qed.

(** The bare reading of a cell is the reading of the leakage probe. *)
Lemma bare_is_root_signal cs th id case frozen actual label c : NoDup cs.*1 → (id, case) ∈ cs →
  frozen_thresholds_loo cs = Ok th → table_get th id = Some frozen →
  offset_of (sc_packet case) frozen actual label = Ok (label, c) →
  ∃ s, root_signal_of (sc_packet case) label = Ok (label, s) ∧ rs_reading s = oc_quantum_reading c.
Proof.
  intros Hnd Hin Hth Hf Hc. apply offset_made in Hc as (_ & t & healthy & fault & level & high & Hz & Hh & Hfa & Hm & Hx & _ & H2).
  destruct (frozen_lookup _ _ _ _ _ _ Hth Hf Hz) as [training Hs].
  apply frozen_shape in Hs as (_ & (spec & Hspec & Hq) & _ & Hfloor). unfold root_signal_of, table_at.
  rewrite Hspec. cbn [from_option_or rbind]. rewrite Hh, Hfa. cbn [rbind]. rewrite Hm, Hx. cbn [rbind]. rewrite <-Hq.
  destruct (fz_floor t) as [f|].
  - destruct Hfloor as (_ & case' & values & Hcase & Hv & Hm' & -> & Hfv). rewrite (table_get_unique _ _ _ Hnd Hin) in Hcase.
    injection Hcase as <-. rewrite Hh in Hv. injection Hv as <-. rewrite Hm in Hm'. injection Hm' as Hlevel. rewrite <-Hlevel in Hfv.
    cbn [fmap option_fmap option_map snd]. rewrite <-Hfv, H2. cbn [rbind]. eexists. by split.
  - destruct Hfloor as [_ ->]. cbn [fmap option_fmap option_map]. rewrite H2. cbn [rbind]. eexists. by split.
Qed.

(** The bare-quantum rule of the separability probe reproduces the numeric classifier of
    the leakage probe, which is computed another way: the two give the same prediction for
    every case of every dataset. *)
Theorem bare_rule_is_the_earlier_classifier cs th truth table : NoDup cs.*1 →
  frozen_thresholds_loo cs = Ok th → offset_table cs th truth = Ok table →
  classify_table table "quantum" =
  rmapM (λ c : string * scenario_case,
    let* signals := root_signal_features (sc_packet c.2) in Ok (c.1, classify_root_signal signals)) (sort_keys cs).
Proof.
  intros Hnd Hth Ht. eapply rmapM_follow; [exact Ht|]. intros [id case] [id' row] Hin Hr. rewrite sort_keys_perm in Hin.
  apply offset_row_made in Hr as (-> & (out & Hv) & frozen & actual & Hf & _ & _ & Hcells). cbn [fst snd].
  unfold root_signal_features. rewrite Hv. cbn [rbind]. unfold classify_from_offsets. cbn [parse_rule].
  change (parse_rule "quantum") with (Ok (E:=readiness_exn) Quantum). cbn [rbind fmap option_fmap option_map default from_option negb].
  assert (∃ signals, rmapM (root_signal_of (sc_packet case)) LABELS = Ok signals ∧
    Forall2 (λ (c : string * offset_cell) (s : string * root_signal), s.1 = c.1 ∧ rs_reading s.2 = oc_quantum_reading c.2)
      (or_signals row) signals) as (signals & -> & Hsame).
  { revert Hcells. generalize (or_signals row). induction LABELS as [|label labels IH]; intros cells H; cbn in H; res_inv.
    - exists []. by split; [|constructor].
    - destruct a as [l c]. pose proof (offset_made _ _ _ _ _ _ E) as [-> _].
      destruct (bare_is_root_signal _ _ _ _ _ _ _ _ Hnd Hin Hth Hf E) as (s & Hs & Hrs).
      destruct (IH _ eq_refl) as (signals & Hsig & Hall). exists ((label, s) :: signals). cbn. rewrite Hs. cbn. rewrite Hsig.
      split; [done|]. by constructor. }
  cbn [rbind]. unfold classify_root_signal.
  match goal with |- Ok (_, best_signal ?a) = Ok (_, best_signal ?b) => enough (a = b) as -> by reflexivity end.
  clear -Hsame. revert Hsame. generalize (or_signals row). intros cells Hsame.
  induction Hsame as [|[l c] [l' s] cells signals [Hl Hs] _ IH]; [done|]. cbn in Hl, Hs. subst l'. cbn [omap list_omap].
  rewrite IH. cbn [fst snd oc_reading]. by rewrite Hs.
Qed.

(** *** The frozen thresholds of the metric *)

Lemma others_are_training cs id : NoDup cs.*1 →
  rmapM (table_at cs) (List.filter (λ other, negb (bool_decide (other = id))) (sort_strings cs.*1)) =
  Ok (filter (λ c : string * scenario_case, c.1 ≠ id) (sort_keys cs)).*2.
Proof.
  intros Hnd. rewrite <-sort_keys_keys. assert (∀ c, c ∈ sort_keys cs → table_get cs c.1 = Some c.2) as Hall.
  { intros [k c] Hin. rewrite sort_keys_perm in Hin. by apply table_get_unique. }
  induction (sort_keys cs) as [|[k c] l IH]; [done|]. cbn [fmap list_fmap List.filter]. rewrite filter_cons.
  assert (∀ c, c ∈ l → table_get cs c.1 = Some c.2) as Hall' by (intros; apply Hall; by right).
  destruct (decide (k = id)) as [->|Hk].
  { rewrite bool_decide_eq_true_2 by done. rewrite decide_False by (cbn; intros H; by apply H). by apply IH. }
  rewrite bool_decide_eq_false_2 by done. rewrite decide_True by done. cbn [negb fmap list_fmap rmapM]. unfold table_at at 1. rewrite (Hall (k, c)) by left. cbn [from_option_or rbind snd]. by rewrite IH.
Qed.
Lemma rmapM_compose {A B C} (f : A → R B) (g : B → R C) xs ys : rmapM f xs = Ok ys →
  rmapM (λ x, let* y := f x in g y) xs = rmapM g ys.
Proof.
  revert ys; induction xs as [|x xs IH]; intros ys H; cbn in H; res_inv; [done|]. cbn. rewrite E. cbn. by erewrite IH.
Qed.

Lemma rmapM_fmap {A B C} (f : B → R C) (g : A → B) xs : rmapM f (g <$> xs) = rmapM (λ x, f (g x)) xs.
Proof. induction xs as [|x xs IH]; [done|]. cbn. by rewrite IH. Qed.
Lemma keyed_total {A} (f : string → R (string * A)) ks t k : (∀ k p, f k = Ok p → p.1 = k) →
  rmapM f ks = Ok t → k ∈ ks → ∃ x, f k = Ok (k, x) ∧ table_get t k = Some x.
Proof.
  intros Hf. revert t; induction ks as [|k' ks IH]; intros t H Hin; [by apply elem_of_nil in Hin|].
  cbn in H. res_inv. destruct a as [k0 x]. pose proof (Hf _ _ E) as E'. cbn in E'. subst k0. cbn [table_get].
  destruct (decide (k' = k)) as [->|Hne].
  - rewrite bool_decide_eq_true_2 by done. by exists x.
  - rewrite bool_decide_eq_false_2 by done. apply elem_of_cons in Hin as [->|Hin]; [done|]. by apply IH.
Qed.

(** A threshold of the probe that agrees with one of the metric *)
Definition agrees (z : frozen_threshold) (t : feature_threshold) : Prop :=
  fz_threshold z = threshold t ∧ fz_p99 z = healthy_p99 t ∧ fz_quantum z = quantum t ∧ fz_floor z = floor t ∧
  fz_drift_count z = healthy_drift_count t ∧ fz_kind z = feature_kind t ∧ fz_field z = feature_field t.
Abbreviation others_of cs id := (filter (λ c : string * scenario_case, c.1 ≠ id) (sort_keys cs)).
Abbreviation training_of cs id := (List.filter (λ other, negb (bool_decide (other = id))) (sort_strings cs.*1)).

Lemma probe_threshold cs id case label spec n t : NoDup cs.*1 → (id, case) ∈ cs → label ∈ LABELS →
  length (others_of cs id) = 31 → table_get ROOT_SIGNAL_FEATURES label = Some spec →
  freeze_feature (sc_packet case) ((λ c : string * scenario_case, sc_packet c.2) <$> others_of cs id) label ("root_signal", spec) = Ok (n, t) →
  ∃ z, frozen_threshold_of cs id (training_of cs id) label = Ok (label, z) ∧ agrees z t.
Proof.
  intros Hnd Hin Hlabel Hlen Hspec H. destruct spec as [[kind field] quantum]. unfold freeze_feature in H. rewrite rmapM_fmap in H.
  destruct (rmapM _ (others_of cs id)) as [ds|] eqn:Ed; [|done]. cbn [rbind] in H.
  destruct (nearest_rank (concat ds) _) as [p99|] eqn:Ep; [|done]. cbn [rbind] in H.
  assert (length (concat ds) = 124) as Hds.
  { eapply concat_drifts in Ed as [-> _]; [lia|]. intros x d Hd. cbn in Hd. res_inv. by eapply drifts_of_values. }
  unfold frozen_threshold_of, table_at at 1. rewrite Hspec. cbn [from_option_or rbind].
  rewrite (rmapM_compose _ (λ case, let* values := feature_values (sc_packet case) label "root_signal" "healthy" in
    positive_consecutive_drifts values) _ _ (others_are_training cs id Hnd)), rmapM_fmap, Ed. cbn [rbind].
  rewrite Hds. cbn [Nat.eqb negb]. rewrite Ep. cbn [rbind].
  assert (∃ service, table_at TARGET_SERVICES label = Ok service) as [service ->].
  { apply label_known in Hlabel. unfold ROOT_CAUSE_LABELS in Hlabel. rewrite !elem_of_cons, elem_of_nil in Hlabel.
    destruct Hlabel as [->|[->|[->|[->|[->|[->|[]]]]]]]; by eexists. }
  cbn [rbind]. destruct (table_get RELATIVE_ROOT_SIGNAL_FLOORS label) as [fraction|].
  - unfold table_at. rewrite (table_get_unique _ _ _ Hnd Hin). cbn [from_option_or rbind].
    change (bool_decide ("root_signal" = "root_signal")) with true in H. cbv iota in H.
    destruct (feature_values (sc_packet case) _ _ _) as [values|]; [|done]. cbn [rbind] in *.
    destruct (median values) as [level|]; [|done]. cbn [rbind] in *. injection H as <- <-. eexists. split; [done|].
    unfold agrees. cbn. by rewrite Hds.
  - injection H as <- <-. eexists. split; [done|]. unfold agrees. cbn. by rewrite Hds.
Qed.

Lemma freeze_case_made cs id case ct label : freeze_case cs id case = Ok ct → label ∈ ROOT_CAUSE_LABELS →
  length (others_of cs id) = 31 ∧ ∃ fts spec t, table_get ct label = Some fts ∧ table_get ROOT_SIGNAL_FEATURES label = Some spec ∧
    table_get fts "root_signal" = Some t ∧
    freeze_feature (sc_packet case) ((λ c : string * scenario_case, sc_packet c.2) <$> others_of cs id) label ("root_signal", spec)
      = Ok ("root_signal", t).
Proof.
  unfold freeze_case. rewrite length_fmap. destruct (_ =? 31)%nat eqn:El; [|done]. apply Nat.eqb_eq in El. cbn [negb]. intros H Hl.
  split; [done|]. eapply keyed_total in H as (fts & Hf & Hg); [| |exact Hl].
  - cbn in Hf. destruct (feature_specs label) as [specs|] eqn:Es; [|done]. cbn [rbind] in Hf.
    destruct (rmapM _ specs) as [fts'|] eqn:Er; [|done]. injection Hf as ->. unfold feature_specs in Es.
    destruct (table_at ROOT_SIGNAL_FEATURES label) as [spec|] eqn:Espec; [|done]. injection Es as <-.
    apply from_option_or_ok in Espec. cbn [rmapM] in Er.
    destruct (freeze_feature _ _ _ ("trace_activity", _)) as [[n1 t1]|] eqn:E1; [|done]. cbn [rbind] in Er.
    destruct (freeze_feature _ _ _ ("root_signal", _)) as [[n2 t2]|] eqn:E2; [|done]. injection Er as <-.
    assert (∀ own others label feature spec n t, freeze_feature own others label (feature, spec) = Ok (n, t) → n = feature) as Hn.
    { clear. intros own others label feature [[kind field] quantum] n t H. unfold freeze_feature in H.
      repeat (res_inv; case_match; try done); res_inv; done. }
    pose proof (Hn _ _ _ _ _ _ _ E1) as ->. pose proof (Hn _ _ _ _ _ _ _ E2) as ->.
    exists [("trace_activity", t1); ("root_signal", t2)], spec, t2. done.
  - intros k p Hp. cbn in Hp. res_inv. done.
Qed.

(** The thresholds of one case *)
Lemma frozen_case_agrees cs id case ct : NoDup cs.*1 → (id, case) ∈ cs → freeze_case cs id case = Ok ct →
  ∃ row, frozen_case cs (sort_strings cs.*1) id = Ok (id, row) ∧ ∀ label, label ∈ LABELS →
    ∃ fts t z, table_get ct label = Some fts ∧ table_get fts "root_signal" = Some t ∧ table_get row label = Some z ∧ agrees z t.
Proof.
  intros Hnd Hin Hct. unfold frozen_case. assert (length (training_of cs id) = 31) as ->.
  { pose proof (others_are_training cs id Hnd) as Ht. apply rmapM_length in Ht. rewrite length_fmap in Ht. rewrite <-Ht.
    by eapply freeze_case_made; [exact Hct|left]. }
  cbn [Nat.eqb negb].
  assert (∀ label, label ∈ LABELS → ∃ fts t z, table_get ct label = Some fts ∧ table_get fts "root_signal" = Some t ∧
    frozen_threshold_of cs id (training_of cs id) label = Ok (label, z) ∧ agrees z t) as Hz.
  { intros label Hl. destruct (freeze_case_made _ _ _ _ label Hct) as (Hn & fts & spec & t & Hfts & Hs & Ht & Hf); [by apply label_known|].
    destruct (probe_threshold _ _ _ _ _ _ _ Hnd Hin Hl Hn Hs Hf) as (z & Hz & Ha). by exists fts, t, z. }
  destruct (rmapM_total (frozen_threshold_of cs id (training_of cs id)) (λ _, True) LABELS) as (row & Hrow & _).
  { intros label Hl. destruct (Hz label Hl) as (_ & _ & z & _ & _ & H & _). by eexists. }
  rewrite Hrow. cbn [rbind]. exists row. split; [done|]. intros label Hl. destruct (Hz label Hl) as (fts & t & z & Hfts & Ht & H & Ha).
  destruct (keyed_total (frozen_threshold_of cs id (training_of cs id)) LABELS row label) as (z' & H' & Hg); [|done..|].
  - intros k [l y] Hy. by apply frozen_shape in Hy as [-> _].
  - rewrite H in H'. injection H' as <-. by exists fts, t, z.
Qed.

Lemma freeze_cases_case cs registry id case : NoDup cs.*1 → freeze_cases cs = Ok registry → (id, case) ∈ cs →
  ∃ ct, freeze_case cs id case = Ok ct ∧ table_get registry id = Some ct.
Proof.
  intros Hnd Hreg Hin. apply (frozen_entry (λ c, freeze_case cs c.1 c.2) (sort_keys cs) registry id case).
  - by rewrite sort_keys_perm.
  - by rewrite sort_keys_perm.
  - exact Hreg.
Qed.
Lemma frozen_cases_total cs : NoDup cs.*1 → length cs = 32 →
  (∀ id case, (id, case) ∈ cs → ∃ ct, freeze_case cs id case = Ok ct) →
  ∃ th, frozen_thresholds_loo cs = Ok th ∧ ∀ id case, (id, case) ∈ cs →
    ∃ row, frozen_case cs (sort_strings cs.*1) id = Ok (id, row) ∧ table_get th id = Some row.
Proof.
  intros Hnd Hlen Hcases. unfold frozen_thresholds_loo. unfold sort_strings at 1. rewrite sort_by_length, length_fmap, Hlen. cbn [Nat.eqb negb].
  assert (∀ id, id ∈ sort_strings cs.*1 → ∃ row, frozen_case cs (sort_strings cs.*1) id = Ok (id, row)) as Hrows.
  { intros id Hin. rewrite sort_strings_elem in Hin. apply list_elem_of_fmap in Hin as ([id' case] & -> & Hin).
    destruct (Hcases _ _ Hin) as [ct Hct]. destruct (frozen_case_agrees _ _ _ _ Hnd Hin Hct) as (row & Hrow & _). by exists row. }
  destruct (rmapM_total (frozen_case cs (sort_strings cs.*1)) (λ _, True) (sort_strings cs.*1)) as (th & Hth & _).
  { intros id Hin. destruct (Hrows id Hin) as [row Hrow]. by exists (id, row). }
  exists th. split; [done|]. intros id case Hin.
  assert (id ∈ sort_strings cs.*1) as Hid by (rewrite sort_strings_elem; apply list_elem_of_fmap; by exists (id, case)).
  destruct (keyed_total (frozen_case cs (sort_strings cs.*1)) (sort_strings cs.*1) th id) as (row' & Hrow' & Hg'); [|done..|by exists row'].
  intros k p Hp. unfold frozen_case in Hp. res_inv. done.
Qed.

(** C19: The separability probe freezes the thresholds of the metric: whenever the registry
    exists for thirty-two cases the probe's thresholds do too, and for every case and label
    they have its percentile, quantum, floor, drift count and threshold for the root signal. *)
Theorem probe_freezes_the_metric_thresholds cs registry : NoDup cs.*1 → length cs = 32 → freeze_cases cs = Ok registry →
  ∃ th, frozen_thresholds_loo cs = Ok th ∧ ∀ id case, (id, case) ∈ cs →
    ∃ ct row, table_get registry id = Some ct ∧ table_get th id = Some row ∧ ∀ label, label ∈ LABELS →
      ∃ fts t z, table_get ct label = Some fts ∧ table_get fts "root_signal" = Some t ∧ table_get row label = Some z ∧ agrees z t.
Proof.
  intros Hnd Hlen Hreg. pose proof (freeze_cases_case cs registry) as Hcases.
  destruct (frozen_cases_total cs Hnd Hlen) as (th & Hth & Hrows).
  { intros id case Hin. destruct (Hcases id case Hnd Hreg Hin) as (ct & Hct & _). by exists ct. }
  exists th. split; [done|]. intros id case Hin. destruct (Hcases id case Hnd Hreg Hin) as (ct & Hct & Hg).
  destruct (Hrows id case Hin) as (row & Hrow & Hrg). destruct (frozen_case_agrees _ _ _ _ Hnd Hin Hct) as (row' & Hrow' & Hall).
  rewrite Hrow in Hrow'. injection Hrow' as <-. by exists ct, row.
Qed.

(** ** The leave-one-out classifier *)

Lemma keyword_table_ext features labels labels' case_ids : (∀ id, id ∈ case_ids → table_get labels id = table_get labels' id) →
  keyword_table_of features labels case_ids = keyword_table_of features labels' case_ids.
Proof.
  intros H. unfold keyword_table_of. f_equal. apply rmapM_ext. intros id Hin. unfold training_row, table_at. by rewrite H.
Qed.
Lemma nearest_neighbour_ext features labels labels' held_out training : (∀ id, id ∈ training → table_get labels id = table_get labels' id) →
  nearest_neighbour features labels held_out training = nearest_neighbour features labels' held_out training.
Proof.
  intros H. unfold nearest_neighbour. destruct (rmapM _ training) as [ss|] eqn:E; [|done]. cbn [rbind].
  destruct (max_of ss.*1) as [best|]; [|done]. cbn [rbind]. f_equal. apply rmapM_ext. intros id Hin. unfold table_at.
  rewrite H; [done|]. apply list_elem_of_fmap in Hin as ([d k] & -> & Hin). apply list_elem_of_In, List.filter_In in Hin as [Hin _].
  apply list_elem_of_In, list_elem_of_lookup in Hin as [i Hi]. apply rmapM_ok in E.
  destruct (Forall2_lookup_r _ _ _ _ _ E Hi) as (other & Ho & Hr). res_inv. by eapply list_elem_of_lookup_2.
Qed.

(** No classifier sees the label of the case it classifies: two labellings that agree on
    the other cases give a case the same votes, the same prediction and the same nearest
    neighbour. *)
Theorem own_label_is_never_read features labels labels' id :
  (∀ other, other ≠ id → table_get labels other = table_get labels' other) →
  classify_fold features labels id = classify_fold features labels' id.
Proof.
  intros H. unfold classify_fold. set (training := List.filter _ _).
  assert (∀ other, other ∈ training → table_get labels other = table_get labels' other) as Ht.
  { intros other [_ Hne]%list_elem_of_In%List.filter_In. apply H. apply negb_true_iff, bool_decide_eq_false in Hne. done. }
  destruct (negb _); [done|]. rewrite (keyword_table_ext _ _ _ _ Ht).
  destruct (keyword_table_of features labels' training); [|done]. cbn [rbind]. destruct (table_at features id); [|done].
  cbn [rbind]. destruct (matched_tokens _ _); [|done]. cbn [rbind]. by rewrite (nearest_neighbour_ext _ _ _ _ _ Ht).
Qed.

Module DemoProbe.
Definition features : token_table :=
  [("a", ["payment"; "refused"]); ("b", ["payment"; "refused"; "again"]); ("c", ["catalog"]); ("d", ["catalog"; "again"])].
Definition labels (own : string) : truth_table :=
  [("a", own); ("b", "paymentFailure"); ("c", "productCatalogFailure"); ("d", "productCatalogFailure")].
Lemma learned : (fo_prediction <$> match classify_fold features (labels "adHighCpu") "a" with Ok f => Some f | Err _ => None end)
  = Some "paymentFailure".
Proof. vm_compute. reflexivity. Qed.
End DemoProbe.
Lemma own_label_is_never_read_witness :
  classify_fold DemoProbe.features (DemoProbe.labels "adHighCpu") "a" =
  classify_fold DemoProbe.features (DemoProbe.labels "paymentFailure") "a".
Proof.
  apply own_label_is_never_read. intros other Hne. unfold DemoProbe.labels. cbn [table_get].
  rewrite (bool_decide_eq_false_2 ("a" = other)) by congruence. reflexivity.
Defined.

(** ** Ablation *)

Lemma best_signal_in candidates : best_signal candidates = ABSTAIN ∨ best_signal candidates ∈ candidates.*2.
Proof.
  unfold best_signal. destruct (sort_by signal_le candidates) as [|c l] eqn:E; [by left|right].
  apply list_elem_of_fmap. exists c. split; [done|]. rewrite <-(sort_by_perm signal_le candidates), E. left.
Qed.
(** A run that reads one signal names its label or abstains; the guard against another
    prediction never fires. *)
Theorem ablation_reads_one_signal label c : ∃ prediction,
  ablation_prediction label c = Ok (c.1, prediction) ∧ prediction ∈ [label; ABSTAIN].
Proof.
  unfold ablation_prediction, classify_from_offsets. change (parse_rule "p99") with (Ok (E:=readiness_exn) P99). cbn [rbind].
  set (candidates := omap _ _). assert (best_signal candidates ∈ [label; ABSTAIN]) as H.
  { destruct (best_signal_in candidates) as [->|Hin]; [right; left|]. apply list_elem_of_fmap in Hin as ([d l] & -> & Hin).
    apply list_elem_of_omap in Hin as ([l' cell] & _ & Hc). cbn in Hc. case_bool_decide as Hl; [|done]. cbn in Hc.
    destruct (rd_qualifies _); [|done]. injection Hc as _ <-. subst. left. }
  exists (best_signal candidates). by rewrite bool_decide_eq_true_2.
Qed.

(** ** Scores *)

Lemma sum_list_add {A} (f g : A → nat) l : sum_list ((λ x, f x + g x) <$> l) = sum_list (f <$> l) + sum_list (g <$> l).
Proof. induction l as [|x l IH]; [done|]. cbn in *. lia. Qed.
Lemma sum_indicator (keys : list string) k : NoDup keys → sum_list ((λ key, if bool_decide (k = key) then 1 else 0) <$> keys) =
  if bool_decide (k ∈ keys) then 1 else 0.
Proof.
  induction 1 as [|key keys Hk _ IH]; [done|]. cbn. cbn in IH. rewrite IH. destruct (decide (k = key)) as [->|Hne].
  - rewrite bool_decide_eq_true_2 by done. rewrite bool_decide_eq_false_2 by done. rewrite bool_decide_eq_true_2 by left. done.
  - rewrite bool_decide_eq_false_2 by done. cbn.
    assert (bool_decide (k ∈ keys) = bool_decide (k ∈ key :: keys)) as ->; [|done].
    apply bool_decide_ext. rewrite elem_of_cons. naive_solver.
Qed.
(** Counts over keys that cover the items add up to the items. *)
Lemma counts_partition {A} (f : A → string) (keys : list string) (p : A → bool) (l : list A) : NoDup keys → (∀ x, x ∈ l → f x ∈ keys) →
  sum_list ((λ key, count_of (λ x, p x && bool_decide (f x = key)) l) <$> keys) = count_of p l.
Proof.
  intros Hnd. induction l as [|x l IH]; intros Hin.
  - unfold count_of. cbn. clear. induction keys; cbn in *; lia.
  - assert (∀ key, count_of (λ x, p x && bool_decide (f x = key)) (x :: l) =
      (if p x then if bool_decide (f x = key) then 1 else 0 else 0) + count_of (λ x, p x && bool_decide (f x = key)) l) as Hc.
    { intros key. unfold count_of. cbn. by destruct (p x), (bool_decide (f x = key)). }
    rewrite (list_fmap_ext _ _ _ (λ _ key _, Hc key)), sum_list_add, IH by (intros; apply Hin; by right).
    unfold count_of at 2. cbn. destruct (p x); cbn.
    + rewrite sum_indicator, bool_decide_eq_true_2 by (done || (apply Hin; left)). done.
    + enough (sum_list ((λ _ : string, 0) <$> keys) = 0) by (unfold count_of; lia). clear. induction keys; cbn in *; lia.
Qed.
Lemma count_of_ext {A} (p q : A → bool) l : (∀ x, p x = q x) → count_of p l = count_of q l.
Proof. intros H. unfold count_of. f_equal. induction l as [|x l IH]; [done|]. cbn. by rewrite H, IH. Qed.
Lemma count_of_all {A} (l : list A) : count_of (λ _, true) l = length l.
Proof. unfold count_of. induction l as [|x l IH]; cbn in *; lia. Qed.
Lemma count_of_in {A} (p q : A → bool) l : (∀ x, x ∈ l → p x = q x) → count_of p l = count_of q l.
Proof.
  intros H. unfold count_of. f_equal. induction l as [|x l IH]; [done|]. cbn. rewrite H by left.
  by rewrite IH by (intros; apply H; by right).
Qed.
Lemma labels_nodup : NoDup LABELS.
Proof. apply (bool_decide_unpack _). vm_compute. reflexivity. Qed.
Lemma columns_nodup : NoDup COLUMNS.
Proof. apply (bool_decide_unpack _). vm_compute. reflexivity. Qed.

Lemma pairs_known truth predicted pairs : paired_predictions truth predicted = Ok pairs →
  length pairs = length truth ∧ Forall (λ p, p.1 ∈ LABELS ∧ p.2 ∈ COLUMNS) pairs.
Proof.
  intros H. split; [by apply rmapM_length in H|]. apply rmapM_ok in H. eapply Forall2_Forall_r; [exact H|].
  apply Forall_forall. intros [id actual] _ [a p] Hp. apply rbind_ok in Hp as (p' & _ & Hp). cbn [fst snd] in Hp.
  destruct (negb _) eqn:E; [done|]. apply negb_false_iff, andb_true_iff in E as [E1 E2].
  injection Hp as <- <-. by apply bool_decide_eq_true in E1, E2.
Qed.
Lemma support_counts pairs label : Forall (λ p, p.1 ∈ LABELS ∧ p.2 ∈ COLUMNS) pairs →
  fs_support (score_family pairs label) = count_of (λ p : string * string, bool_decide (p.1 = label)) pairs.
Proof.
  intros H. rewrite Forall_forall in H. unfold score_family. cbn [fs_support].
  rewrite <-(counts_partition snd COLUMNS (λ p, bool_decide (p.1 = label)) pairs columns_nodup) by (intros; by apply H).
  f_equal. apply list_fmap_ext. intros _ prediction _. apply count_of_ext. intros [a p]. cbn.
  repeat case_bool_decide; naive_solver.
Qed.

Lemma group_score_labels (F : string → family_score) group : group_score ((λ label, (label, F label)) <$> LABELS) group =
  (sum_list ((λ l, fs_support (F l)) <$> List.filter (λ l, bool_decide (l ∈ group)) LABELS),
   sum_list ((λ l, fs_correct (F l)) <$> List.filter (λ l, bool_decide (l ∈ group)) LABELS)).
Proof.
  unfold group_score.
  assert (∀ l : list string, List.filter (λ f : string * family_score, bool_decide (f.1 ∈ group)) ((λ label, (label, F label)) <$> l) =
    (λ label, (label, F label)) <$> List.filter (λ l, bool_decide (l ∈ group)) l) as ->.
  { induction l as [|x l IH]; [done|]. cbn [fmap list_fmap List.filter fst]. rewrite IH. by destruct (bool_decide (x ∈ group)). }
  by rewrite <-!list_fmap_compose.
Qed.
Lemma groups_partition (f : string → nat) :
  sum_list (f <$> List.filter (λ l, bool_decide (l ∈ TRACE_ERROR_LABELS)) LABELS) +
  sum_list (f <$> List.filter (λ l, bool_decide (l ∈ OTHER_LABELS)) LABELS) = sum_list (f <$> LABELS).
Proof.
  assert (LABELS ≡ₚ List.filter (λ l, bool_decide (l ∈ TRACE_ERROR_LABELS)) LABELS ++ List.filter (λ l, bool_decide (l ∈ OTHER_LABELS)) LABELS)
    as Hp by (apply (bool_decide_unpack _); vm_compute; reflexivity).
  assert (∀ l k : list nat, sum_list (l ++ k) = sum_list l + sum_list k) as Happ by (induction l; cbn in *; intros; [done|rewrite IHl; lia]).
  rewrite (sum_list_perm _ _ (fmap_Permutation f _ _ Hp)), fmap_app, Happ. done.
Qed.

(** The scores add up: over the families the supports are the number of cases and the
    correct ones the number of correct predictions, and so they are over the two groups of
    families; the abstentions and the wrong predictions are the rest. *)
Theorem scores_add_up truth predicted s : scores_of truth predicted = Ok s →
  sum_list ((λ f : string * family_score, fs_support f.2) <$> sc_per_family s) = length truth ∧
  sum_list ((λ f : string * family_score, fs_correct f.2) <$> sc_per_family s) = sc_correct s ∧
  fst (sc_trace_errors s) + fst (sc_other s) = length truth ∧ snd (sc_trace_errors s) + snd (sc_other s) = sc_correct s ∧
  sc_correct s <= sc_n s.
Proof.
  unfold scores_of. destruct (paired_predictions truth predicted) as [pairs|] eqn:E; [|done]. cbn [rbind]. intros H. apply Ok_inj in H as <-.
  cbn [sc_per_family sc_correct sc_trace_errors sc_other sc_n]. apply pairs_known in E as [Hlen Hall].
  assert (sum_list ((λ label, fs_support (score_family pairs label)) <$> LABELS) = length truth) as Hsupport.
  { rewrite <-Hlen, <-count_of_all. rewrite <-(counts_partition fst LABELS (λ _, true) pairs labels_nodup)
      by (intros x Hx; rewrite Forall_forall in Hall; by apply Hall).
    f_equal. apply list_fmap_ext. intros _ label _. by apply support_counts. }
  assert (sum_list ((λ label, fs_correct (score_family pairs label)) <$> LABELS) =
    count_of (λ p : string * string, bool_decide (p.2 = p.1)) pairs) as Hcorrect.
  { rewrite <-(counts_partition fst LABELS _ pairs labels_nodup) by (intros x Hx; rewrite Forall_forall in Hall; by apply Hall).
    f_equal. apply list_fmap_ext. intros _ label _. apply count_of_ext. intros [a p]. cbn. repeat case_bool_decide; naive_solver. }
  rewrite <-!list_fmap_compose. unfold compose. cbn [snd]. split_and!; [exact Hsupport|exact Hcorrect| | |].
  - rewrite !group_score_labels. cbn [fst]. by rewrite groups_partition.
  - rewrite !group_score_labels. cbn [snd]. by rewrite groups_partition.
  - rewrite <-Hlen. apply List.filter_length_le.
Qed.

(** *** Readings *)

(** The lookup-table reading and the room-for-investigation reading exclude each other; when
    neither holds, most cases have one offset signal. *)
Theorem readings_exclude d1 d2 runs o f :
  let r := assessment d1 d2 runs o f in
  (six_way_lookup_table r = true → room_for_investigation r = false) ∧
  (six_way_lookup_table r = false → room_for_investigation r = false → dle (dec 75 2) (og_single_fraction o) = true).
Proof.
  cbn. split; [by intros ->|]. intros -> H. cbn in H. by apply dlt_false.
Qed.

(** ** The cascade *)

Lemma count_of_app {A} (p : A → bool) l k : count_of p (l ++ k) = count_of p l + count_of p k.
Proof. unfold count_of. by rewrite List.filter_app, length_app. Qed.
Lemma count_of_pos {A} (p : A → bool) l : 0 < count_of p l ↔ ∃ x, x ∈ l ∧ p x = true.
Proof.
  unfold count_of. split.
  - destruct (List.filter p l) as [|x k] eqn:E; cbn; [lia|]. intros _. exists x.
    assert (In x (List.filter p l)) as [? ?]%List.filter_In by (rewrite E; by left). by rewrite list_elem_of_In.
  - intros (x & Hin & Hp). assert (In x (List.filter p l)) as H by (apply List.filter_In; by rewrite <-list_elem_of_In).
    destruct (List.filter p l); [done|cbn; lia].
Qed.

Definition in_family (label : string) (row : cascade_row) : bool := bool_decide (cr_root_cause row = label).
(** What an entry of the summary counts *)
Definition counts_family (rows : list cascade_row) (label : string) (e : family_entry) : Prop :=
  fe_n e = count_of (in_family label) rows ∧ fe_cascades e = count_of (λ r, in_family label r && cr_observed r) rows ∧
  sum_list (fe_patterns e).*2 = fe_n e ∧ fe_candidate e = bool_decide (label ∈ cascade_candidate_families).
Lemma count_label_sum l counts : sum_list (count_label l counts).*2 = S (sum_list counts.*2).
Proof. induction counts as [|[k n] counts IH]; [done|]. cbn. case_bool_decide; cbn in *; lia. Qed.
Lemma count_snoc (p : cascade_row → bool) rows row : count_of p (rows ++ [row]) = count_of p rows + if p row then 1 else 0.
Proof. rewrite count_of_app. f_equal. unfold count_of. cbn. by destruct (p row). Qed.
Lemma add_counted rows label e row : cr_root_cause row = label → counts_family rows label e →
  counts_family (rows ++ [row]) label (add_to_family row e).
Proof.
  intros Hl (Hn & Hc & Hp & Hca). unfold counts_family, add_to_family. cbn [fe_n fe_cascades fe_patterns fe_candidate].
  rewrite !count_snoc, count_label_sum. unfold in_family at 2 4. rewrite (bool_decide_eq_true_2 _ Hl). cbn [andb].
  split_and!; [lia| |lia|done]. destruct (cr_observed row); lia.
Qed.
Lemma other_counted rows label e row : cr_root_cause row ≠ label → counts_family rows label e → counts_family (rows ++ [row]) label e.
Proof.
  intros Hl (Hn & Hc & Hp & Hca). unfold counts_family. rewrite !count_snoc. unfold in_family at 2 4.
  rewrite (bool_decide_eq_false_2 _ Hl). cbn [andb]. split_and!; lia || done.
Qed.
(** The families of the summary, and those it lacks *)
Definition summarized (rows : list cascade_row) (families : list (string * family_entry)) : Prop :=
  ∀ label, match table_get families label with
           | Some e => counts_family rows label e
           | None => count_of (in_family label) rows = 0
           end.
Lemma add_row_get row families label : table_get (add_row row families) label =
  if bool_decide (cr_root_cause row = label) then
    Some (add_to_family row (default (fresh_family row) (table_get families label)))
  else table_get families label.
Proof.
  induction families as [|[l e] families IH].
  - cbn [add_row table_get]. by case_bool_decide.
  - cbn [add_row]. destruct (decide (l = cr_root_cause row)) as [->|Hne].
    + rewrite (bool_decide_eq_true_2 (cr_root_cause row = cr_root_cause row)) by done. cbn [table_get]. by case_bool_decide.
    + rewrite (bool_decide_eq_false_2 (l = _)) by done. cbn [table_get]. rewrite IH. repeat case_bool_decide; congruence.
Qed.
Lemma count_of_none label rows : count_of (in_family label) rows = 0 → count_of (λ r, in_family label r && cr_observed r) rows = 0.
Proof.
  unfold count_of. induction rows as [|r rows IH]; [done|]. cbn. by destruct (in_family label r).
Qed.

(** The summary of a family counts its cases beside the rows: their number, those with a
    cascade, and how often each pattern occurred, which adds up to the number; the cases of
    a label without an entry are none. *)
Theorem family_summary_counts rows : summarized rows (family_summary rows).
Proof.
  unfold family_summary. induction rows as [|row rows IH] using rev_ind; [by intros label|].
  rewrite foldl_app. cbn [foldl]. set (families := foldl _ _ _) in *. intros label. rewrite add_row_get.
  specialize (IH label). case_bool_decide as Hl.
  - apply add_counted; [done|]. destruct (table_get families label) as [e|]; [exact IH|]. cbn [default from_option].
    unfold counts_family, fresh_family. cbn. rewrite IH, (count_of_none _ _ IH). unfold cr_candidate. by rewrite Hl.
  - destruct (table_get families label) as [e|]; [by apply other_counted|]. rewrite count_snoc, IH. unfold in_family.
    by rewrite bool_decide_eq_false_2.
Qed.

(** *** The verdict *)

Lemma forallb_false_elem {A} (p : A → bool) l : forallb p l = false → ∃ x, x ∈ l ∧ p x = false.
Proof.
  induction l as [|x l IH]; [done|]. cbn [forallb]. intros [H|H]%andb_false_iff; [exists x; by split; [left|]|].
  destruct (IH H) as (y & Hy & Hp). exists y. by split; [right|].
Qed.
Lemma filter_all {A} (p : A → bool) l : length (List.filter p l) = length l ↔ Forall (λ x, p x = true) l.
Proof.
  induction l as [|x l IH]; [split; constructor|]. cbn. pose proof (List.filter_length_le p l) as Hle.
  rewrite Forall_cons. destruct (p x); cbn; [|split; [lia|by intros [? _]]]. rewrite <-IH. split; [lia|]. intros [_ ?]. lia.
Qed.
Lemma candidate_has_upstream c row : case_row c = Ok row → cr_candidate row = true → upstream_of (cr_target row) ≠ [].
Proof.
  intros H Hc. unfold case_row in H. destruct (table_get TARGET_SERVICES _) as [target|] eqn:Et; [|done].
  cbn [from_option_or rbind] in H. repeat (apply rbind_ok in H as (? & _ & H)). destruct (_ || _); [done|].
  repeat (apply rbind_ok in H as (? & _ & H)). injection H as <-. unfold cr_candidate in Hc. cbn [cr_root_cause cr_target] in *.
  apply bool_decide_eq_true in Hc. change cascade_candidate_families with ["paymentFailure"; "paymentUnreachable"; "productCatalogFailure"] in Hc.
  rewrite !elem_of_cons, elem_of_nil in Hc. destruct Hc as [Hc|[Hc|[Hc|[]]]]; rewrite Hc in Et; injection Et as <-; done.
Qed.

(** The verdict that no cascade exists rests on a case that could have shown one: some
    case of a candidate family has a caller of the injected service that was traced under the
    fault, and no candidate case has an excess of errors on a service that was not injected. *)
Theorem absence_rests_on_an_answerable_case cs rows families : rmapM case_row cs = Ok rows →
  e_verdict (cascade_assessment_of rows families) = "cascade_absent" →
  (∃ row service s, row ∈ rows ∧ cr_candidate row = true ∧ service ∈ upstream_of (cr_target row) ∧
     table_get (cr_services row) service = Some s ∧ observed_under_fault s = true) ∧
  ∀ row, row ∈ rows → cr_candidate row = true → cr_propagating row = [].
Proof.
  intros Hrows H. unfold e_verdict, cascade_assessment_of in H. cbn [ca_with_cascade ca_unobservable ca_candidates] in H.
  set (candidates := List.filter cr_candidate rows) in *. destruct (Nat.ltb_spec 0 (count_of cr_observed candidates)) as [|Hnone]; [done|].
  destruct (Nat.eqb_spec (length (sort_strings (cr_case_id <$> List.filter cr_unobservable candidates))) (length candidates)) as [|Hne]; [done|].
  split.
  - unfold sort_strings in Hne. rewrite sort_by_length, length_fmap, filter_all in Hne. apply not_Forall_Exists in Hne; [|intros x; destruct (cr_unobservable x); [by left|by right]].
    apply Exists_exists in Hne as (row & Hin & Hu). apply list_elem_of_In, List.filter_In in Hin as [Hin Hc].
    apply list_elem_of_In in Hin. pose proof Hin as Hin'. apply list_elem_of_lookup in Hin' as [i Hi]. apply rmapM_ok in Hrows.
    destruct (Forall2_lookup_r _ _ _ _ _ Hrows Hi) as (c & _ & Hrow). pose proof (candidate_has_upstream _ _ Hrow Hc) as Hup.
    unfold compose, cr_unobservable in Hu. rewrite bool_decide_eq_false_2, andb_true_r in Hu by exact Hup. apply not_true_is_false in Hu.
    apply forallb_false_elem in Hu as (s & Hs & Hf).
    destruct (table_get (cr_services row) s) as [r|] eqn:Er; [|done]. apply negb_false_iff in Hf. by exists row, s, r.
  - intros row Hin Hc. destruct (cr_propagating row) as [|s l] eqn:E; [done|].
    enough (0 < count_of cr_observed candidates) by lia. apply count_of_pos. exists row. split.
    + apply list_elem_of_In, List.filter_In. by rewrite <-list_elem_of_In.
    + unfold cr_observed. by rewrite E.
Qed.

(** ** Witnesses *)

(** A case of a payment fault with one healthy and one faulty window; the counts of errors and
    traces under the fault are given by service. *)
Module DemoCascade.
Definition measured (errors : string → Z) (service : string) : string * val :=
  (service, sdict [("error_count", VInt (errors service)); ("connection_error_count", VInt 0); ("trace_count", VInt 1)]).
Definition sample (errors : string → Z) : val := sdict [("services", sdict (measured errors <$> V3_TRACE_QUERY_SERVICES))].
Definition group (kind : string) (errors : string → Z) : val :=
  sdict [("kind", VStr kind); ("samples", VList [sample (λ _, 0%Z); sample errors])].
Definition packet (errors : string → Z) : mapping :=
  (λ kv : string * val, (VStr kv.1, kv.2)) <$>
    [("windows", VList [sdict [("phase", VStr "healthy")]; sdict [("phase", VStr "fault")]]);
     ("observations", VList [group "trace_errors" errors; group "trace_activity" errors])].
Definition truth : ground_truth :=
  {| gt_case_id := "x"; gt_root_cause := "paymentFailure"; required_evidence := []; distractor_evidence := []; required_kinds := [];
     distractor_kinds := [] |}.
Definition case (errors : string → Z) : string * scenario_case :=
  ("x", {| sc_packet := packet errors; sc_truth := truth; sc_family := "f"; nonzero_distractor_kinds := [] |}).
Definition row_of (errors : string → Z) : cascade_row :=
  match case_row (case errors) with
  | Ok row => row
  | Err _ => {| cr_case_id := ""; cr_root_cause := ""; cr_target := ""; cr_services := [] |}
  end.
Definition noise (service : string) : Z := if bool_decide (service = "recommendation") then 1%Z else 0%Z.
Definition quiet : cascade_row := row_of (λ _, 0%Z).
Definition noisy : cascade_row := row_of noise.
Lemma quiet_row : rmapM case_row [case (λ _, 0%Z)] = Ok [quiet].
Proof. vm_compute. reflexivity. Qed.
End DemoCascade.
Lemma absence_rests_on_an_answerable_case_witness : ∃ row service s,
  row ∈ [DemoCascade.quiet] ∧ cr_candidate row = true ∧ service ∈ upstream_of (cr_target row) ∧
  table_get (cr_services row) service = Some s ∧ observed_under_fault s = true.
Proof.
  apply (absence_rests_on_an_answerable_case _ _ (family_summary [DemoCascade.quiet]) DemoCascade.quiet_row).
  vm_compute. reflexivity.
Defined.

(** Errors on a service that does not call the injected one count as a cascade: the fault is in
    the payment service, the errors in the recommendation service, which calls the product
    catalogue only, and the verdict is that a cascade is present. *)
Theorem noise_off_the_call_graph_counts :
  case_row (DemoCascade.case DemoCascade.noise) = Ok DemoCascade.noisy ∧
  bool_decide ("recommendation" ∈ upstream_of (cr_target DemoCascade.noisy)) = false ∧ cr_candidate DemoCascade.noisy = true ∧
  cr_propagating_upstream DemoCascade.noisy = [] ∧
  e_verdict (cascade_assessment_of [DemoCascade.noisy] (family_summary [DemoCascade.noisy])) = "cascade_present".
Proof. split_and!; vm_compute; reflexivity. Qed.

(** The thirty-two cases of [Demo] *)
Module DemoOffsets.
Import DemoCases.

Lemma fault_values id label : label ∈ ROOT_CAUSE_LABELS →
  ∃ v vs, feature_values (Demo.packet id) label "root_signal" "fault" = Ok (v :: vs).
Proof.
  intros Hl. unfold Demo.packet, Demo.subject, six_groups.
  repeat match goal with |- context [evidence_id ?id ?k] => generalize (evidence_id id k); intros ? end.
  repeat match goal with |- context [Demo.digest ?id] => generalize (Demo.digest id); intros ? end.
  unfold ROOT_CAUSE_LABELS in Hl. rewrite !elem_of_cons, elem_of_nil in Hl.
  destruct Hl as [->|[->|[->|[->|[->|[->|[]]]]]]]; (do 2 eexists; vm_compute; reflexivity).
Qed.
Lemma reading_total excess cutoff quantum : (0 < quantum.1)%Z → ∃ r, read_signal excess cutoff quantum = Ok r.
Proof.
  intros Hq. unfold read_signal. assert (deq (dmax cutoff quantum) dzero = false) as ->; [|by eexists].
  unfold deq. apply andb_false_iff. left. apply not_true_is_false. intros H.
  pose proof (dle_trans _ _ _ (dle_max_r cutoff quantum) H) as Hle.
  rewrite (dle_scaled (Z.max 0 (- quantum.2))) in Hle by (cbn; lia). apply Z.leb_le in Hle. unfold scaled in Hle. cbn [fst dzero] in Hle.
  pose proof (pow2_pos (quantum.2 + Z.max 0 (- quantum.2)) ltac:(lia)). nia.
Qed.
Lemma median_total vs : length vs = 5 → ∃ m, median vs = Ok m.
Proof.
  intros Hl. unfold median. rewrite sort_by_length, Hl. change (Nat.odd 5) with true. cbv iota. change (5 / 2) with 2.
  destruct (sort_by dle vs !! 2) eqn:E; [by eexists|]. apply lookup_ge_None in E. rewrite sort_by_length in E. lia.
Qed.
Lemma offset_total id frozen actual label z : label ∈ LABELS → table_get frozen label = Some z → (0 < (fz_quantum z).1)%Z →
  ∃ c, offset_of (Demo.packet id) frozen actual label = Ok (label, c).
Proof.
  intros Hl%label_known Hz Hq. unfold offset_of, table_at. rewrite Hz. cbn [from_option_or rbind].
  destruct (healthy_values id label "root_signal" Hl ltac:(right; left)) as (vs & -> & Hvs). cbn [rbind].
  destruct (fault_values id label Hl) as (f & fs & ->). cbn [rbind]. destruct (median_total vs Hvs) as [level ->]. cbn [rbind max_of].
  destruct (reading_total (dsub (foldl dmax f fs) level) (fz_threshold z) (fz_quantum z) Hq) as [p99 ->]. cbn [rbind].
  destruct (reading_total (dsub (foldl dmax f fs) level)
    match fz_floor z with Some f => dmax (fz_quantum z) (floor_value f) | None => fz_quantum z end (fz_quantum z) Hq) as [bare ->].
  cbn [rbind]. by eexists.
Qed.
Lemma cell_not_sealed c : walk_forbidden (offset_document c) = [].
Proof. unfold offset_document. destruct (excess_multiple c P99), (excess_multiple c Quantum); reflexivity. Qed.
Lemma cells_not_sealed (cells : list (string * offset_cell)) : Forall (λ l, l ∈ LABELS) cells.*1 →
  walk_forbidden (sdict ((λ lc : string * offset_cell, (lc.1, offset_document lc.2)) <$> cells)) = [].
Proof.
  unfold sdict. cbn [walk_forbidden]. induction cells as [|[l c] cells IH]; [done|]. cbn [fmap list_fmap]. intros [Hl H]%Forall_cons.
  cbn [concat]. rewrite IH by done. rewrite app_nil_r. cbn [fst snd val_str]. rewrite cell_not_sealed, app_nil_r.
  cbn [fst] in Hl. apply label_known in Hl. unfold ROOT_CAUSE_LABELS in Hl. rewrite !elem_of_cons, elem_of_nil in Hl.
  destruct Hl as [->|[->|[->|[->|[->|[->|[]]]]]]]; reflexivity.
Qed.

Definition truth : truth_table := (λ id, (id, "adHighCpu")) <$> ids.
Lemma truth_at id : id ∈ ids → table_get truth id = Some "adHighCpu".
Proof.
  intros Hin. apply table_get_unique; [|apply list_elem_of_fmap; by exists id].
  unfold truth. rewrite <-list_fmap_compose. unfold compose. cbn [fst]. rewrite list_fmap_id. apply ids_nodup.
Qed.

Section Total.
Context (cs : cases) (Hkeys : cs.*1 = ids) (Hdemo : Forall (λ c, ∃ id, sc_packet c.2 = Demo.packet id) cs).
Lemma demo_nodup : NoDup cs.*1.
Proof using Hkeys. rewrite Hkeys. apply ids_nodup. Qed.
Lemma demo_length : length cs = 32.
Proof using Hkeys. rewrite <-(length_fmap fst), Hkeys. reflexivity. Qed.
Lemma demo_row th id case : frozen_thresholds_loo cs = Ok th → (id, case) ∈ cs →
  (∃ row, table_get th id = Some row ∧ ∀ label, label ∈ LABELS → ∃ z, table_get row label = Some z) →
  ∃ row, offset_row_of th truth (id, case) = Ok (id, row).
Proof using Hkeys Hdemo.
  intros Hth Hin (frozen & Hf & Hz). rewrite Forall_forall in Hdemo. destruct (Hdemo _ Hin) as [pid Hp]. cbn [snd] in Hp.
  assert (id ∈ ids) as Hid by (rewrite <-Hkeys; apply list_elem_of_fmap; by exists (id, case)).
  unfold offset_row_of, table_at. cbn [fst snd]. rewrite Hp.
  destruct (Demo.packet_valid pid) as [out ->]. cbn [rbind]. rewrite Hf, truth_at by done. cbn [from_option_or rbind].
  destruct (rmapM_total (offset_of (Demo.packet pid) frozen "adHighCpu") (λ c, c.1 ∈ LABELS) LABELS) as (cells & Hcells & Hall & _).
  { intros label Hl. destruct (Hz label Hl) as [z Hzl]. destruct (frozen_lookup _ _ _ _ _ _ Hth Hf Hzl) as [training Hs].
    apply frozen_shape in Hs as (_ & (spec & Hspec & Hq) & _). apply quantum_bounds in Hspec. rewrite <-Hq in Hspec.
    destruct (offset_total pid frozen "adHighCpu" label z Hl Hzl) as [c Hc]; [apply Hspec|].
    exists (label, c). split; [exact Hc|exact Hl]. }
  rewrite Hcells. cbn [rbind]. unfold assert_no_forbidden_input. rewrite cells_not_sealed by by apply Forall_fmap.
  cbn [rbind]. by eexists.
Qed.
(** Thresholds, and the table of offsets with them *)
Lemma demo_table : ∃ th table, frozen_thresholds_loo cs = Ok th ∧ offset_table cs th truth = Ok table.
Proof using Hkeys Hdemo.
  destruct (all_frozen cs Hkeys Hdemo) as [reg Hreg].
  assert (∀ id case, (id, case) ∈ cs → ∃ ct, freeze_case cs id case = Ok ct) as Hct.
  { intros id case Hin. destruct (freeze_cases_case _ _ _ _ demo_nodup Hreg Hin) as (ct & Hct & _). by exists ct. }
  destruct (frozen_cases_total cs demo_nodup demo_length Hct) as (th & Hth & Hrows).
  destruct (rmapM_total (offset_row_of th truth) (λ _, True) (sort_keys cs)) as (table & Ht & _); [|by exists th, table].
  intros [id case] Hin. rewrite sort_keys_perm in Hin. destruct (Hct _ _ Hin) as [ct Hc].
  destruct (demo_row th id case Hth Hin) as [row Hr]; [|by exists (id, row)].
  destruct (Hrows _ _ Hin) as (row & Hrow & Hg). exists row. split; [done|]. intros label Hl.
  destruct (frozen_case_agrees _ _ _ _ demo_nodup Hin Hc) as (row' & Hrow' & Hall). rewrite Hrow in Hrow'. injection Hrow' as <-.
  destruct (Hall label Hl) as (_ & _ & z & _ & _ & Hz & _). by exists z.
Qed.
Lemma demo_qualifications th table : offset_table cs th truth = Ok table →
  ∃ qs, false_qualification_table table truth = Ok qs.
Proof.
  clear Hkeys Hdemo. intros Ht. destruct (rmapM_total (signal_qualification_of table truth) (λ _, True) LABELS) as (qs & Hqs & _); [|by exists qs].
  intros label Hl. assert (∀ r, ∃ found, qualified_cases table truth label r = Ok found) as Hq.
  { intros r. unfold qualified_cases. edestruct (rmapM_total (λ c : string * offset_row,
      let* cell := table_at (or_signals c.2) label in
      if rd_qualifies (oc_reading r cell) then let* actual := table_at truth c.1 in Ok (Some (c.1, bool_decide (actual = label)))
      else Ok None) (λ _, True) table) as (found & -> & _); [|by eexists].
    intros [id row] Hin. destruct (table_rows _ _ _ _ _ _ Ht Hin) as (case & Hc & Hr).
    apply offset_row_made in Hr as (_ & _ & frozen & actual & _ & Ha & _ & Hcells).
    destruct (keyed_total (offset_of (sc_packet case) frozen actual) LABELS (or_signals row) label) as (c & _ & Hg); [|done..|].
    { intros k [l c] Hx. by apply offset_made in Hx as [-> _]. }
    unfold table_at. cbn [fst snd]. rewrite Hg, Ha. cbn [from_option_or rbind]. destruct (rd_qualifies _); by eexists. }
  unfold signal_qualification_of. destruct (Hq P99) as [p ->], (Hq Quantum) as [b ->]. by eexists.
Qed.
End Total.

Lemma all_demo : Forall (λ c, ∃ id, sc_packet c.2 = Demo.packet id) all_cases.
Proof. apply Forall_fmap, Forall_true. intros id. by exists id. Qed.
End DemoOffsets.

Lemma probe_freezes_the_metric_thresholds_witness : ∃ registry th,
  freeze_cases DemoCases.all_cases = Ok registry ∧ frozen_thresholds_loo DemoCases.all_cases = Ok th.
Proof.
  destruct (DemoCases.all_frozen _ DemoCases.keys_ids DemoOffsets.all_demo) as [reg Hreg].
  destruct (probe_freezes_the_metric_thresholds _ _ (DemoOffsets.demo_nodup _ DemoCases.keys_ids)
    (DemoOffsets.demo_length _ DemoCases.keys_ids) Hreg) as (th & Hth & _).
  exists reg, th. split; [exact Hreg|exact Hth].
Defined.
Lemma bare_rule_is_the_earlier_classifier_witness : ∃ table,
  classify_table table "quantum" =
  rmapM (λ c : string * scenario_case,
    let* signals := root_signal_features (sc_packet c.2) in Ok (c.1, classify_root_signal signals)) (sort_keys DemoCases.all_cases).
Proof.
  destruct (DemoOffsets.demo_table _ DemoCases.keys_ids DemoOffsets.all_demo) as (th & table & Hth & Ht). exists table.
  exact (bare_rule_is_the_earlier_classifier _ _ _ _ (DemoOffsets.demo_nodup _ DemoCases.keys_ids) Hth Ht).
Defined.
Lemma percentile_only_removes_qualifications_witness : ∃ qualifications : list (string * signal_qualification),
  Forall (λ q, (0 <= removed_by_p99 q.2)%Z ∧ ql_true (sq_p99 q.2) <= ql_true (sq_quantum q.2)) qualifications.
Proof.
  destruct (DemoOffsets.demo_table _ DemoCases.keys_ids DemoOffsets.all_demo) as (th & table & Hth & Ht).
  destruct (DemoOffsets.demo_qualifications _ _ _ Ht) as [qs Hqs].
  exists qs. exact (percentile_only_removes_qualifications _ _ _ _ _ Hth Ht Hqs).
Defined.
Lemma scores_add_up_witness : ∃ s, scores_of [("a", "adHighCpu"); ("b", "paymentFailure")] [("a", "adHighCpu"); ("b", ABSTAIN)] = Ok s ∧
  sc_correct s <= sc_n s.
Proof.
  eexists. split; [reflexivity|].
  apply (scores_add_up [("a", "adHighCpu"); ("b", "paymentFailure")] [("a", "adHighCpu"); ("b", ABSTAIN)]). reflexivity.
Defined.
